(* ===== verification/_CoqProject ===== *)
-Q . S2P
Prelude.v
AbiType.v
AbiCursor.v
AbiX86.v
AbiAArch64.v
AbiRiscv.v
AbiClassify.v
AbiDescriptor.v
BridgePlan.v
BridgeMachine.v
SyscallMap.v
GuestMemory.v
SeccompBpf.v
Seccomp.v
LoaderBase.v
BridgeSpec.v
ElfImage.v
ElfSymbols.v
CString.v
CodeEmit.v
Trampoline.v
GuestSignals.v
CrossStub.v
StubMachine.v
CrossStubRun.v
CrossStubX86.v
CrossStubWrapper.v
TlsHelpers.v
ProcessImage.v
ElfLoad.v
ElfLoadProps.v
LibraryPath.v
ProcessStack.v
StackProps.v
ElfDeps.v
DependencyLoad.v
DependencyTree.v
Relocation.v
RelocSafety.v
RelocSpec.v
ProcessLifecycle.v
ProcessOrder.v
LifecycleOrder.v
ProcessCleanup.v
ProcessFree.v
ProcessStart.v
Vdso.v
ProcessEntry.v
InterpreterStart.v
TlsLayout.v
CStruct.v
TrapState.v
SignalFrame.v
SignalDelivery.v
SignalReturn.v
SignalProps.v
SignalStack.v
SignalSamples.v
TrapClean.v
TrapReturn.v
HostCalls.v
FileCalls.v
FileProps.v
MemCalls.v
MemProps.v
StructuredCalls.v
CallBehaviour.v
TrapEvent.v
CloneCalls.v
ExecveCall.v
TrapDispatch.v
TrapProps.v
SyscallProps.v
CloneTls.v
CloneProps.v
ExecveProps.v
CoreFile.v
CoreFileProps.v
HostSamples.v
LoadSamples.v
