(* ===== verification/Prelude.v ===== *)
(** * Verification of the polyglot user-space runtime

    The runtime ([tools/runtime/]) runs x86-64, AArch64 and RISC-V code in one
    process on a processor with several instruction frontends.  The program
    loader and monitor [polyexec.c] loads ELF files and the libraries they need,
    maps and relocates them, emits the code that enters a frontend or calls across
    frontends, starts the process, and serves the traps of guest code: system
    calls, signals, threads and the seccomp policy.  Calls across frontends are
    planned by the bridge ([bridge/poly_bridge_plan.c]) from the call layouts that
    the ABI classifiers ([abi/]) compute for a signature; signatures come from
    descriptor kinds, which programs attach to symbols in ELF notes.

    ** Files and sources

    Calls across architectures.
    - [Prelude]: fixed-width integers, the 0/-1 status monad of C functions that
      write through pointers, bounded loops, little-endian bytes, tactics.
    - [AbiType] ([abi/poly_abi_type.h], [poly_abi_layout.h]): types, signatures,
      locations, layouts; one definition per C function.
    - [AbiCursor] ([stack_loc] and the cursor of the classifiers): the register
      and stack cursor with a generic theory of allocation that the three
      classifiers instantiate; [AbiX86], [AbiAArch64], [AbiRiscv]
      ([poly_abi_x86_sysv.c], [poly_abi_aarch64.c], [poly_abi_riscv.c]);
      [AbiClassify] ([poly_abi_classify.c]): the dispatcher and its theorems.
    - [AbiDescriptor] ([poly_abi_descriptor.c]): descriptor kinds.
    - [BridgePlan] ([poly_bridge_plan.c]): building and validating plans;
      [BridgeMachine]: a register and stack machine that executes plans.

    Generated code.  All files from here on model [polyexec.c], and for structures
    and control encodings [polycpuid.h].
    - [CodeEmit]: byte emitters and instruction encoders with decoders of the
      formats; [Trampoline]: the entry and resolver trampolines with a machine
      of the three frontends that runs the emitted bytes.
    - [CrossStub]: the arena of call stubs, the emitters of the stubs of all three
      callers and of the x86 wrapper; [StubMachine]: the machine with memory that
      runs them; [CrossStubRun], [CrossStubX86], [CrossStubWrapper]: what they do;
      [TlsHelpers]: the thread-local storage helpers.

    Loading.
    - [LoaderBase]: outcomes of functions that read a file image (a value, an
      error return, an access outside the image, an endless loop), alignment,
      thread-local storage; [BridgeSpec]: bridge notes and the table of specs;
      [ElfImage], [ElfSymbols]: dynamic tables, symbol counting, versions and
      symbol searches of one loaded image; [ElfLoad], [ElfLoadProps]
      ([load_elf_program]).
    - [LibraryPath]: token expansion and the search for library files;
      [DependencyLoad] ([load_process_dependencies] and the functions around it):
      the tree of programs as a store of nodes, in which dependencies can share a
      program; [DependencyTree]: the invariant of that store.
    - [ElfDeps]: symbol searches over the tree, with scopes, indirect functions
      and call stubs; [Relocation]: every relocation table and type, with
      [RelocSafety] and [RelocSpec].

    Starting and ending a process.
    - [ProcessLifecycle]: mapping and unmapping the libraries, initializers and
      finalizers, thread-local storage over the tree; the state is the store, the
      images and a log of mappings, protections and calls.  [ProcessOrder]: the
      walks over the tree; [LifecycleOrder], [ProcessCleanup], [TlsLayout]: their
      theorems.
    - [ProcessImage]: the layout of the mapping of the main program and the bytes
      in it; [ProcessStart]: [emit_and_run_process] from mapping the program through
      its initializers; [Vdso] ([map_process_aarch64_vdso]); [ProcessEntry]:
      [emit_and_run_process] as a whole, up to the entry code;
      [InterpreterStart] ([emit_and_run_process_interpreter]): the start through a
      program interpreter; [ProcessFree] ([free_program]).
    - [ProcessStack] ([build_process_stack]) and [StackProps].

    Serving a process.
    - [SyscallMap] ([poly_generic_linux_syscall_to_x86]): the whole table.
    - [GuestMemory]: checked access to guest memory; [CStruct]: structures as lists
      of fields with their offsets; [CString]: the string and number routines
      given to guests.
    - [SeccompBpf], [Seccomp]: the BPF validator and interpreter, filter
      installation, the control calls and the check before a system call.
    - [TrapState], [TrapClean]: the state images that the processor exports and
      imports, and how they are cleaned; [TrapReturn]: the return from a trap.
    - [GuestSignals]: signal actions and masks; [SignalFrame], [SignalDelivery],
      [SignalReturn]: choice of a signal, frames, entry of the handler,
      [rt_sigreturn]; [SignalProps], [SignalStack]: their theorems.
    - [HostCalls] (the host kernel as a parameter, the calls recorded), [FileCalls],
      [MemCalls], [StructuredCalls] ([poly_handle_structured_foreign_syscall]),
      with [FileProps], [MemProps], [CallBehaviour].
    - [TrapEvent], [CloneCalls], [ExecveCall], [TrapDispatch]
      ([poly_trap_vector_dispatch]), with [TrapProps], [SyscallProps], [CloneTls],
      [CloneProps], [ExecveProps].
    - [CoreFile] ([poly_write_fatal_debug_note]), [CoreFileProps]: the debug note and
      the ELF core file after a fatal signal.
    - [SignalSamples], [HostSamples], [LoadSamples]: concrete states for which the
      hypotheses of the theorems hold.

    A C function keeps its name; a [static] variable that several functions
    share is a field of the component's state record; an out-parameter is part of
    the result; a null pointer is [None].  Unsigned arithmetic that can wrap is
    written with [u8], [u16], [u32], [u64].  What the source prints is left out.

    ** What is proved

    - Calls across architectures: classification succeeds on well-formed
      signatures with pairwise disjoint locations that cover every value, equal
      signatures get equal layouts, the plan builder is equal to a declarative
      reference, and executing a plan delivers every byte of arguments and
      results and nothing else.
    - Generated code: encoders are inverse to the decoders; the trampolines and
      the call stubs, executed, reach their target with the arguments in place and
      come back with the results, for every address of the code buffer.
    - Loading: whatever bytes a file has, loading returns without an access outside
      it, and an accepted file is placed as its program headers say; the library
      search is equal to its specification; the tree of libraries is well-formed
      also after a failure and provides every needed name; symbol searches find
      the first exported match; relocations compute the formulas of the three
      architectures and write only inside the image.
    - Process start and end: the parts of the main mapping do not touch; every
      library is set up once, after what it needs, and finalized in the opposite
      order; thread-local ranges are disjoint; start-up code reads its arguments,
      environment and auxiliary vector from the initial stack; the vDSO is loaded
      as its headers say; a failed start gives back every mapping but those of
      the vDSO and of the stack; freeing a program releases every program it owns
      once, and none that it shares.
    - System calls: an allowed call reaches the host once with its arguments, a
      denied one makes no host call; translated calls (files, memory, break,
      clone, execve) keep their meaning; every event ends with an image that the
      processor accepts.
    - Seccomp: evaluation terminates in one pass, validated programs stay in
      bounds, the decision is the one of the highest-ranking filter, and no
      sequence of guest events undoes a denial.
    - Signals: the guest sees POSIX masks and its own actions and can never remove
      or block what the runtime needs; a handler is entered with the interrupted
      state in its frame, which is inside the stack, and its return restores that
      state; pending signals are delivered.
    - Core files: read as ELF, they have the notes and the memory of the process,
      however the host splits the writes, and the registers of the trap.
    - Theorems that show where the code falls short: the last segment of a program
      is not in its core file, the return address of a large
      AArch64 program is missed, the search by name does not end on circular
      libraries, a large result without its flag shares a register with an
      argument, stack offsets wrap at 64 KiB, a huge symbol entry size leads
      outside the image, a pending SIGCHLD is lost on a small alternate stack, the
      numeral 0 in base 0 is not converted, the watchdog's handler can be replaced.

    ** Parameters and fuel

    Outside the model, as arguments of the definitions: the host kernel (the answer
    to each recorded call, the addresses of [mmap], failing [mprotect] and
    [calloc]), files and the environment, the instructions of the processor that
    probe memory and derive or complete a state, guest code that runs between two
    steps of the loader, and the host values on the initial stack.  A theorem says
    what it needs of them; most need nothing.

    Fuel is explicit and enough: the BPF evaluator gets the program length plus one
    (jumps only go forward), the string search the 1024 iterations of the source,
    chains and version records one more than the image size (they advance by at
    least one byte), tables their entry count, the copy of a file one round per
    byte; walks over the tree of programs end with as many rounds as there are
    programs ([ProcessOrder]).  Running out is a value of its own ([Spin]); the
    theorems state that it does not happen, or, for circular libraries, that it
    does for every amount.

    ** What is not modelled

    The dispatcher of imported library functions ([poly_handle_foreign_import]
    calls the host C library by number), traces, reports and fences; the contents
    of the scratch page (fixtures of test programs), the entry code in assembly
    and the fork around a process, [main] and the standalone runner
    [emit_and_run]; the call runner [polycall.c], which
    repeats the ELF helpers of [polyexec.c] for tests, the builder [mkpolyelf.c],
    test and benchmark programs, the kernel module and the hardware description.

    This file holds the shared vocabulary: fixed-width integers, the status
    monad, bounded [for] loops, little-endian bytes, power-of-two alignment, and
    the tactics, hints and generic list lemmas that the component files use. *)

From Stdlib Require Export ZArith Lia.
From stdpp Require Export base numbers list.

#[export] Set Default Proof Using "Type".

Declare Scope poly_scope.
Delimit Scope poly_scope with poly.
Open Scope Z_scope.

(** ** Fixed-width unsigned integers *)

(** The value a C object of an unsigned type of [w] bits holds after [z] is
    converted to it. *)
Definition wrap (w z : Z) : Z := z mod 2 ^ w.

Abbreviation u8 := (wrap 8).
Abbreviation u16 := (wrap 16).
Abbreviation u32 := (wrap 32).
Abbreviation u64 := (wrap 64).

(** The signed value of a [w]-bit two's complement pattern. *)
Definition signed (w z : Z) : Z :=
  let v := wrap w z in if v <? 2 ^ (w - 1) then v else v - 2 ^ w.

Definition UINT32_MAX : Z := 2 ^ 32 - 1.
Definition UINT64_MAX : Z := 2 ^ 64 - 1.
Definition SIZE_MAX : Z := 2 ^ 64 - 1.

(** [in_width w z]: [z] is representable in [w] unsigned bits. *)
Definition in_width (w z : Z) : Prop := 0 <= z < 2 ^ w.

(** ** C functions with an [int] status *)

(** A C function that works on the state [S] through pointers and returns an
    [int] status: [0] on success, [-1] on failure.  The state is kept on
    failure too, because C does not roll back what was written. *)
Definition cmd (S : Type) : Type := S -> S * Z.

Definition ret0 {S} : cmd S := fun s => (s, 0).
Definition fail {S} : cmd S := fun s => (s, -1).
Definition modify {S} (f : S -> S) : cmd S := fun s => (f s, 0).

(** [if (c() != 0) return -1; d();] *)
Definition andthen {S} (c d : cmd S) : cmd S := fun s =>
  let '(s', r) := c s in if r =? 0 then d s' else (s', -1).

Notation "c ;;; d" := (andthen c d)
  (at level 100, d at level 200, right associativity) : poly_scope.
Open Scope poly_scope.

(** [for (n = i; n < i + k; n++) if (body(n) != 0) return -1; return 0;] *)
Fixpoint for_from {S} (i k : nat) (body : nat -> cmd S) : cmd S :=
  match k with
  | O => ret0
  | Datatypes.S k' => body i ;;; for_from (Datatypes.S i) k' body
  end.

(** ** Bytes *)

(** [memcpy]/[|=]-style little-endian reads and writes. *)
Fixpoint le_bytes (n : nat) (v : Z) : list Z :=
  match n with
  | O => []
  | Datatypes.S n' => v mod 256 :: le_bytes n' (v / 256)
  end.

Fixpoint le_value (bs : list Z) : Z :=
  match bs with
  | [] => 0
  | b :: bs' => b + 256 * le_value bs'
  end.

(** [k] bytes of [bs] from offset [i]; what lies past the end reads as 0. *)
Definition bytes_at (bs : list Z) (i : Z) (k : nat) : list Z :=
  (fun j => default 0 (bs !! Z.to_nat (i + Z.of_nat j))) <$> seq 0 k.

(** ** Tactics and hint databases *)

Create HintDb poly discriminated.
Create HintDb widths discriminated.

Ltac destruct_ifs :=
  repeat match goal with
  | |- context [if ?b then _ else _] =>
      lazymatch b with context [if _ then _ else _] => fail | _ => idtac end;
      destruct b eqn:?
  end.

(** Reflect the boolean comparisons of C conditions into arithmetic facts. *)
Ltac breflect :=
  repeat match goal with
  | H : (_ && _)%bool = true |- _ => apply andb_prop in H; destruct H
  | H : (_ || _)%bool = false |- _ => apply orb_false_elim in H; destruct H
  | H : negb _ = true |- _ => apply negb_true_iff in H
  | H : negb _ = false |- _ => apply negb_false_iff in H
  | H : (_ =? _) = true |- _ => apply Z.eqb_eq in H
  | H : (_ =? _) = false |- _ => apply Z.eqb_neq in H
  | H : (_ <? _) = true |- _ => apply Z.ltb_lt in H
  | H : (_ <? _) = false |- _ => apply Z.ltb_ge in H
  | H : (_ <=? _) = true |- _ => apply Z.leb_le in H
  | H : (_ <=? _) = false |- _ => apply Z.leb_gt in H
  | H : (_ >? _) = true |- _ => rewrite Z.gtb_ltb in H
  | H : (_ >? _) = false |- _ => rewrite Z.gtb_ltb in H
  | H : (_ >=? _) = true |- _ => rewrite Z.geb_leb in H
  | H : (_ >=? _) = false |- _ => rewrite Z.geb_leb in H
  end.

(** ** Widths *)

Lemma wrap_range (w z : Z) : 0 <= w -> in_width w (wrap w z).
Proof.
  intros Hw. unfold in_width, wrap. apply Z.mod_pos_bound.
  apply Z.pow_pos_nonneg; lia.
Qed.

Lemma wrap_small (w z : Z) : in_width w z -> wrap w z = z.
Proof. intros H. apply Z.mod_small, H. Qed.

Lemma wrap_wrap (w z : Z) : 0 <= w -> wrap w (wrap w z) = wrap w z.
Proof. intros Hw. by apply wrap_small, wrap_range. Qed.

Lemma in_width_mono (v w z : Z) : 0 <= v <= w -> in_width v z -> in_width w z.
Proof.
  intros Hvw [H0 H1]. split; [done|].
  assert (2 ^ v <= 2 ^ w) by (apply Z.pow_le_mono_r; lia). lia.
Qed.

#[export] Hint Resolve wrap_range : widths.
#[export] Hint Extern 1 (_ <= _) => lia : widths.

(** ** The status monad *)

Lemma andthen_ok {S} (c d : cmd S) (s s' : S) :
  (c ;;; d) s = (s', 0) <-> exists s1, c s = (s1, 0) /\ d s1 = (s', 0).
Proof.
  unfold andthen. destruct (c s) as [s1 r]. destruct (r =? 0) eqn:E; breflect.
  - subst r. split; [eauto|]. intros (s2 & Heq & ?). by simplify_eq.
  - split; [intros; simplify_eq|intros (s2 & Heq & ?); simplify_eq].
Qed.

(** A property that every iteration of a successful loop carries forward. *)
Lemma for_from_ind {S} (P : nat -> S -> Prop) (body : nat -> cmd S) (k : nat) :
  forall (i : nat) (s s' : S),
  (forall j t t', (i <= j < i + k)%nat -> P j t -> body j t = (t', 0) ->
    P (Datatypes.S j) t') ->
  P i s -> for_from i k body s = (s', 0) -> P (i + k)%nat s'.
Proof.
  induction k as [|k IH]; intros i s s' Hstep Hs Hrun; simpl in Hrun.
  - unfold ret0 in Hrun. simplify_eq. by rewrite Nat.add_0_r.
  - apply andthen_ok in Hrun as (s1 & H1 & H2).
    replace (i + Datatypes.S k)%nat with (Datatypes.S i + k)%nat by lia.
    eapply IH; [|eapply Hstep; [|done|done]; lia|done].
    intros; eapply Hstep; [lia|done..].
Qed.

(** A loop whose every iteration succeeds from a state in [P] succeeds. *)
Lemma for_from_total {S} (P : nat -> S -> Prop) (body : nat -> cmd S) (k : nat) :
  forall (i : nat) (s : S),
  (forall j t, (i <= j < i + k)%nat -> P j t ->
    exists t', body j t = (t', 0) /\ P (Datatypes.S j) t') ->
  P i s -> exists s', for_from i k body s = (s', 0) /\ P (i + k)%nat s'.
Proof.
  induction k as [|k IH]; intros i s Hstep Hs; simpl.
  - exists s. rewrite Nat.add_0_r. done.
  - destruct (Hstep i s) as (t & Ht & HP); [lia|done|].
    destruct (IH (Datatypes.S i) t) as (s' & Hs' & HP'); [|done|].
    { intros; apply Hstep; [lia|done]. }
    exists s'. split; [|by replace (i + Datatypes.S k)%nat with (Datatypes.S i + k)%nat by lia].
    apply andthen_ok. eauto.
Qed.

(** Loops with pointwise equal bodies are equal. *)
Lemma for_from_ext {S} (f g : nat -> cmd S) (k : nat) : forall (i : nat) (s : S),
  (forall j t, (i <= j < i + k)%nat -> f j t = g j t) ->
  for_from i k f s = for_from i k g s.
Proof.
  induction k as [|k IH]; intros i s Heq; simpl; [done|].
  unfold andthen. rewrite Heq by lia. destruct (g i s) as [s1 r].
  destruct (r =? 0); [|done]. apply IH. intros. apply Heq. lia.
Qed.

(** ** Little-endian round trips *)

Lemma le_bytes_length (n : nat) (v : Z) : length (le_bytes n v) = n.
Proof. revert v. induction n; intros; simpl; auto. Qed.

Lemma le_bytes_range (n : nat) (v : Z) : Forall (in_width 8) (le_bytes n v).
Proof.
  revert v. induction n as [|n IH]; intros v; simpl; constructor; [|apply IH].
  unfold in_width. change (2 ^ 8) with 256. apply Z.mod_pos_bound. lia.
Qed.

Lemma le_value_bytes (n : nat) (v : Z) :
  le_value (le_bytes n v) = wrap (8 * Z.of_nat n) v.
Proof.
  revert v. induction n as [|n IH]; intros v; simpl le_bytes; simpl le_value.
  - unfold wrap. rewrite Z.mod_1_r. done.
  - rewrite IH. unfold wrap.
    replace (8 * Z.of_nat (Datatypes.S n)) with (8 + 8 * Z.of_nat n) by lia.
    rewrite Z.pow_add_r by lia. change (2 ^ 8) with 256.
    rewrite Z.rem_mul_r by (try apply Z.pow_nonzero; lia). done.
Qed.

Lemma le_value_range (bs : list Z) :
  Forall (in_width 8) bs -> 0 <= le_value bs < 2 ^ (8 * Z.of_nat (length bs)).
Proof.
  induction 1 as [|b bs Hb _ IH]; simpl le_value; simpl length; [simpl; lia|].
  replace (8 * Z.of_nat (Datatypes.S (length bs)))
    with (8 + 8 * Z.of_nat (length bs)) by lia.
  rewrite Z.pow_add_r by lia. unfold in_width in Hb.
  change (2 ^ 8) with 256 in *. lia.
Qed.

Lemma le_bytes_value (bs : list Z) :
  Forall (in_width 8) bs -> le_bytes (length bs) (le_value bs) = bs.
Proof.
  induction 1 as [|b bs Hb _ IH]; simpl; [done|].
  unfold in_width in Hb. change (2 ^ 8) with 256 in Hb. f_equal.
  - rewrite (Z.mul_comm 256), Z.mod_add, Z.mod_small by lia. done.
  - rewrite (Z.mul_comm 256), Z.div_add, Z.div_small, Z.add_0_l by lia. done.
Qed.

Lemma bytes_at_length (bs : list Z) (i : Z) (k : nat) :
  length (bytes_at bs i k) = k.
Proof. unfold bytes_at. by rewrite length_fmap, length_seq. Qed.

(** ** Alignment to a power of two *)

(** [x & ~(2^k - 1)] clears the low [k] bits. *)
Lemma land_lnot_ones (x k : Z) :
  0 <= k -> Z.land x (Z.lnot (2 ^ k - 1)) = x / 2 ^ k * 2 ^ k.
Proof.
  intros Hk. replace (2 ^ k - 1) with (Z.ones k) by (rewrite Z.ones_equiv; lia).
  rewrite <- Z.ldiff_land, Z.ldiff_ones_r by done.
  by rewrite Z.shiftl_mul_pow2, Z.shiftr_div_pow2.
Qed.

(** Rounding up: the least multiple of [2^k] that is not below [x]. *)
Lemma round_up_pow2 (x k : Z) :
  0 <= k ->
  let r := (x + 2 ^ k - 1) / 2 ^ k * 2 ^ k in
  x <= r < x + 2 ^ k /\ r mod 2 ^ k = 0.
Proof.
  intros Hk r. assert (0 < 2 ^ k) by (apply Z.pow_pos_nonneg; lia).
  pose proof (Z.div_mod (x + 2 ^ k - 1) (2 ^ k)) as Hdm.
  pose proof (Z.mod_pos_bound (x + 2 ^ k - 1) (2 ^ k)) as Hb.
  split; [unfold r; nia|]. unfold r. by rewrite Z.mod_mul by lia.
Qed.
