(* ===== verification/AbiType.v ===== *)
(** The data model of the ABI layer: [tools/runtime/abi/poly_abi_type.h]
    (types and function signatures) and [tools/runtime/abi/poly_abi_layout.h]
    (locations and call layouts), with the inline operations of both headers.

    A C array of fixed extent is a list of that length (the [wf_*] predicates
    say so); an enum is an inductive type with the source's constructors,
    except [enum poly_abi_arch], whose values the code range-checks at run time
    and which is therefore kept as an integer. *)

From S2P Require Import Prelude.

(** ** Types and signatures (poly_abi_type.h) *)

Inductive poly_abi_type_kind : Type :=
  | POLY_ABI_TYPE_VOID
  | POLY_ABI_TYPE_I32
  | POLY_ABI_TYPE_I64
  | POLY_ABI_TYPE_F32
  | POLY_ABI_TYPE_F64
  | POLY_ABI_TYPE_PTR
  | POLY_ABI_TYPE_VEC128
  | POLY_ABI_TYPE_AGGREGATE
  | POLY_ABI_TYPE_HFA.

#[export] Instance poly_abi_type_kind_eq_dec : EqDecision poly_abi_type_kind.
Proof. solve_decision. Defined.

Definition POLY_ABI_TYPE_MAX_FIELDS : nat := 4.
Definition POLY_FUNCTION_SIG_MAX_ARGS : nat := 16.
Definition POLY_FUNCTION_SIG_FLAG_OPAQUE_DESCRIPTOR : Z := 1.
Definition POLY_FUNCTION_SIG_FLAG_RET_BY_SRET : Z := 2.
Definition POLY_FUNCTION_SIG_FLAG_NATIVE_SRET : Z := 4.

Record poly_abi_field : Type := MkField {
  fld_kind : poly_abi_type_kind;
  fld_offset : Z;
  fld_size : Z;
}.

Record poly_abi_type : Type := MkType {
  ty_kind : poly_abi_type_kind;
  ty_elem_kind : poly_abi_type_kind;
  ty_count : Z;
  ty_field_count : Z;
  ty_size : Z;
  ty_align : Z;
  ty_fields : list poly_abi_field;
}.

Record poly_function_sig : Type := MkSig {
  sig_args : list poly_abi_type;
  sig_arg_count : nat;
  sig_ret : poly_abi_type;
  sig_flags : Z;
}.

(** The all-zero objects that [{ 0 }] and [memset] produce. *)
Definition zero_field : poly_abi_field := MkField POLY_ABI_TYPE_VOID 0 0.
Definition zero_type : poly_abi_type :=
  MkType POLY_ABI_TYPE_VOID POLY_ABI_TYPE_VOID 0 0 0 0
    (replicate POLY_ABI_TYPE_MAX_FIELDS zero_field).
Definition zero_sig : poly_function_sig :=
  MkSig (replicate POLY_FUNCTION_SIG_MAX_ARGS zero_type) 0 zero_type 0.

(** [sig->args[sig->arg_count++] = t]; C has no bound check here. *)
Definition push_arg (t : poly_abi_type) (s : poly_function_sig) : poly_function_sig :=
  MkSig (<[sig_arg_count s := t]> (sig_args s)) (S (sig_arg_count s)) (sig_ret s) (sig_flags s).

#[export] Instance poly_abi_field_inhabited : Inhabited poly_abi_field :=
  populate zero_field.
#[export] Instance poly_abi_type_inhabited : Inhabited poly_abi_type :=
  populate zero_type.
#[export] Instance poly_abi_field_eq_dec : EqDecision poly_abi_field.
Proof. solve_decision. Defined.
#[export] Instance poly_abi_type_eq_dec : EqDecision poly_abi_type.
Proof. solve_decision. Defined.

(** [size, align] of a scalar kind; the [default] branch of the switch covers
    aggregates and HFAs. *)
Definition poly_abi_scalar_type (kind : poly_abi_type_kind) : poly_abi_type :=
  let '(size, align) :=
    match kind with
    | POLY_ABI_TYPE_VOID => (0, 1)
    | POLY_ABI_TYPE_I32 | POLY_ABI_TYPE_F32 => (4, 4)
    | POLY_ABI_TYPE_I64 | POLY_ABI_TYPE_F64 | POLY_ABI_TYPE_PTR => (8, 8)
    | POLY_ABI_TYPE_VEC128 => (16, 16)
    | _ => (0, 1)
    end in
  MkType kind POLY_ABI_TYPE_VOID 0 0 size align (ty_fields zero_type).

Definition poly_abi_hfa_type (elem_kind : poly_abi_type_kind) (count : Z)
    : poly_abi_type :=
  let elem := poly_abi_scalar_type elem_kind in
  MkType POLY_ABI_TYPE_HFA elem_kind count 0 (u16 (ty_size elem * count))
    (ty_align elem) (ty_fields zero_type).

Definition field_equal (l r : poly_abi_field) : bool :=
  bool_decide (fld_kind l = fld_kind r) &&
  (fld_offset l =? fld_offset r) && (fld_size l =? fld_size r).

Definition poly_abi_type_equal (left right : poly_abi_type) : bool :=
  bool_decide (ty_kind left = ty_kind right) &&
  bool_decide (ty_elem_kind left = ty_elem_kind right) &&
  (ty_count left =? ty_count right) &&
  (ty_field_count left =? ty_field_count right) &&
  (ty_size left =? ty_size right) && (ty_align left =? ty_align right) &&
  forallb (fun n => field_equal (ty_fields left !!! n) (ty_fields right !!! n))
    (seq 0 (Z.to_nat (ty_field_count left))).

Definition poly_function_sig_equal (left right : poly_function_sig) : bool :=
  (sig_arg_count left =? sig_arg_count right)%nat &&
  (sig_flags left =? sig_flags right) &&
  poly_abi_type_equal (sig_ret left) (sig_ret right) &&
  forallb (fun n => poly_abi_type_equal (sig_args left !!! n)
                      (sig_args right !!! n))
    (seq 0 (sig_arg_count left)).

(** ** Locations and layouts (poly_abi_layout.h) *)

(** [enum poly_abi_arch]: the frontend numbers of [polycpuid.h]. *)
Definition POLY_FRONTEND_X86 : Z := 0.
Definition POLY_FRONTEND_AARCH64 : Z := 1.
Definition POLY_FRONTEND_RISCV : Z := 2.
Definition POLY_ABI_ARCH_X86 : Z := POLY_FRONTEND_X86.
Definition POLY_ABI_ARCH_AARCH64 : Z := POLY_FRONTEND_AARCH64.
Definition POLY_ABI_ARCH_RISCV : Z := POLY_FRONTEND_RISCV.

Inductive poly_abi_loc_kind : Type :=
  | POLY_ABI_LOC_NONE
  | POLY_ABI_LOC_GPR
  | POLY_ABI_LOC_FPR
  | POLY_ABI_LOC_VEC
  | POLY_ABI_LOC_STACK
  | POLY_ABI_LOC_SRET_PTR.

#[export] Instance poly_abi_loc_kind_eq_dec : EqDecision poly_abi_loc_kind.
Proof. solve_decision. Defined.

Definition POLY_ABI_LOC_MAX_PARTS : nat := 4.
Definition POLY_ABI_LAYOUT_MAX_ARGS : nat := POLY_FUNCTION_SIG_MAX_ARGS.
Definition POLY_ABI_LAYOUT_MAX_RET : nat := 4.

Record poly_abi_loc : Type := MkLoc {
  loc_kind : poly_abi_loc_kind;
  loc_reg : Z;
  loc_stack_offset : Z;
  loc_size : Z;
}.

Record poly_abi_layout_arg : Type := MkLayoutArg {
  la_locs : list poly_abi_loc;
  la_loc_count : nat;
}.

Record poly_abi_layout : Type := MkLayout {
  lay_arch : Z;
  lay_args : list poly_abi_layout_arg;
  lay_arg_count : nat;
  lay_ret : list poly_abi_loc;
  lay_ret_count : nat;
  lay_uses_sret : Z;
  lay_stack_arg_size : Z;
  lay_stack_align : Z;
}.

Definition poly_abi_loc_none : poly_abi_loc := MkLoc POLY_ABI_LOC_NONE 0 0 0.

Definition poly_abi_loc_reg (kind : poly_abi_loc_kind) (reg size : Z)
    : poly_abi_loc := MkLoc kind reg 0 size.

Definition poly_abi_loc_stack (offset size : Z) : poly_abi_loc :=
  MkLoc POLY_ABI_LOC_STACK 0 offset size.

Definition poly_abi_loc_sret_ptr (reg size : Z) : poly_abi_loc :=
  MkLoc POLY_ABI_LOC_SRET_PTR reg 0 size.

Definition zero_layout_arg : poly_abi_layout_arg :=
  MkLayoutArg (replicate POLY_ABI_LOC_MAX_PARTS poly_abi_loc_none) 0.

#[export] Instance poly_abi_loc_inhabited : Inhabited poly_abi_loc :=
  populate poly_abi_loc_none.
#[export] Instance poly_abi_layout_arg_inhabited : Inhabited poly_abi_layout_arg :=
  populate zero_layout_arg.
#[export] Instance poly_abi_loc_eq_dec : EqDecision poly_abi_loc.
Proof. solve_decision. Defined.

(** [memset] to zero, then [arch] and the 16-byte stack alignment. *)
Definition poly_abi_layout_init (arch : Z) : poly_abi_layout :=
  MkLayout arch (replicate POLY_ABI_LAYOUT_MAX_ARGS zero_layout_arg) 0
    (replicate POLY_ABI_LAYOUT_MAX_RET poly_abi_loc_none) 0 0 0 16.

Definition poly_abi_layout_add_arg_loc (arg_index : nat) (loc : poly_abi_loc)
    : cmd poly_abi_layout := fun layout =>
  if (POLY_ABI_LAYOUT_MAX_ARGS <=? arg_index)%nat then (layout, -1)
  else
    let arg := lay_args layout !!! arg_index in
    if (POLY_ABI_LOC_MAX_PARTS <=? la_loc_count arg)%nat then (layout, -1)
    else
      let arg' := MkLayoutArg (<[la_loc_count arg := loc]> (la_locs arg))
                    (S (la_loc_count arg)) in
      (MkLayout (lay_arch layout) (<[arg_index := arg']> (lay_args layout))
         (if (lay_arg_count layout <=? arg_index)%nat then S arg_index
          else lay_arg_count layout)
         (lay_ret layout) (lay_ret_count layout) (lay_uses_sret layout)
         (lay_stack_arg_size layout) (lay_stack_align layout), 0).

Definition poly_abi_layout_add_ret_loc (loc : poly_abi_loc)
    : cmd poly_abi_layout := fun layout =>
  if (POLY_ABI_LAYOUT_MAX_RET <=? lay_ret_count layout)%nat then (layout, -1)
  else
    (MkLayout (lay_arch layout) (lay_args layout) (lay_arg_count layout)
       (<[lay_ret_count layout := loc]> (lay_ret layout))
       (S (lay_ret_count layout)) (lay_uses_sret layout)
       (lay_stack_arg_size layout) (lay_stack_align layout), 0).

Definition poly_abi_loc_equal (left right : poly_abi_loc) : bool :=
  bool_decide (loc_kind left = loc_kind right) &&
  (loc_reg left =? loc_reg right) &&
  (loc_stack_offset left =? loc_stack_offset right) &&
  (loc_size left =? loc_size right).

(** ** Well-formedness *)

(** The extents of the C arrays, and the counters within them. *)
Definition wf_layout_arg (a : poly_abi_layout_arg) : Prop :=
  length (la_locs a) = POLY_ABI_LOC_MAX_PARTS /\
  (la_loc_count a <= POLY_ABI_LOC_MAX_PARTS)%nat.

Definition wf_layout (l : poly_abi_layout) : Prop :=
  length (lay_args l) = POLY_ABI_LAYOUT_MAX_ARGS /\
  Forall wf_layout_arg (lay_args l) /\
  (lay_arg_count l <= POLY_ABI_LAYOUT_MAX_ARGS)%nat /\
  length (lay_ret l) = POLY_ABI_LAYOUT_MAX_RET /\
  (lay_ret_count l <= POLY_ABI_LAYOUT_MAX_RET)%nat.

(** The locations in use: of one argument, of all of them, of the result. *)
Definition arg_locs (a : poly_abi_layout_arg) : list poly_abi_loc :=
  take (la_loc_count a) (la_locs a).
Definition all_arg_locs (l : poly_abi_layout) : list poly_abi_loc :=
  mjoin (arg_locs <$> lay_args l).
Definition ret_locs (l : poly_abi_layout) : list poly_abi_loc :=
  take (lay_ret_count l) (lay_ret l).

(** The arguments from index [n] on have no location yet. *)
Definition empty_from (n : nat) (l : poly_abi_layout) : Prop :=
  forall j a, (n <= j)%nat -> lay_args l !! j = Some a -> la_loc_count a = 0%nat.

Lemma wf_layout_init (arch : Z) : wf_layout (poly_abi_layout_init arch).
Proof.
  unfold wf_layout, poly_abi_layout_init. simpl.
  repeat split; try done; [|lia..].
  repeat constructor; simpl; unfold POLY_ABI_LOC_MAX_PARTS; lia.
Qed.

Lemma take_S_insert {A} (l : list A) (n : nat) (x : A) :
  (n < length l)%nat -> take (S n) (<[n:=x]> l) = take n l ++ [x].
Proof.
  intros H. rewrite (take_S_r _ _ x) by (by apply list_lookup_insert_eq).
  by rewrite take_insert_ge by lia.
Qed.

(** Appending a location to the last argument in use appends it to the
    locations of the call. *)
Lemma mjoin_empty_tail {A B} (f : A -> list B) (l : list A) :
  Forall (fun a => f a = []) l -> mjoin (f <$> l) = [].
Proof.
  induction 1 as [|a l Ha _ IH]; [done|].
  change (f a ++ mjoin (f <$> l) = []). by rewrite Ha, IH.
Qed.

Lemma mjoin_insert_last {A B} (f : A -> list B) (l : list A) (n : nat) (a a' : A) (b : B) :
  l !! n = Some a -> f a' = f a ++ [b] ->
  (forall j c, (n < j)%nat -> l !! j = Some c -> f c = []) ->
  mjoin (f <$> <[n:=a']> l) = mjoin (f <$> l) ++ [b].
Proof.
  intros Hl Hf Hemp.
  rewrite <- (take_drop_middle l n a Hl) at 2.
  rewrite insert_take_drop by (by eapply lookup_lt_Some).
  rewrite !fmap_app, !join_app, !fmap_cons. simpl.
  assert (mjoin (f <$> drop (S n) l) = []) as ->.
  { apply mjoin_empty_tail, Forall_lookup. intros i c Hi.
    rewrite lookup_drop in Hi. eapply (Hemp (S n + i)%nat); [lia|done]. }
  by rewrite Hf, !app_nil_r, app_assoc.
Qed.

Lemma add_arg_loc_ok (n : nat) (loc : poly_abi_loc) (l l' : poly_abi_layout) :
  wf_layout l -> empty_from (S n) l ->
  poly_abi_layout_add_arg_loc n loc l = (l', 0) ->
  wf_layout l' /\ empty_from (S n) l' /\
  all_arg_locs l' = all_arg_locs l ++ [loc] /\
  arg_locs (lay_args l' !!! n) = arg_locs (lay_args l !!! n) ++ [loc] /\
  (forall j, j <> n -> lay_args l' !!! j = lay_args l !!! j) /\
  ret_locs l' = ret_locs l /\ lay_arch l' = lay_arch l /\
  lay_uses_sret l' = lay_uses_sret l.
Proof.
  intros (Hlen & Hall & Hcnt & Hr & Hrc) Hemp. unfold poly_abi_layout_add_arg_loc.
  destruct (Nat.leb_spec POLY_ABI_LAYOUT_MAX_ARGS n) as [|Hn]; [done|].
  destruct (lookup_lt_is_Some_2 (lay_args l) n) as [a Ha]; [lia|].
  rewrite (list_lookup_total_correct _ _ _ Ha).
  destruct (Nat.leb_spec POLY_ABI_LOC_MAX_PARTS (la_loc_count a)) as [|Hp]; [done|].
  intros Heq. simplify_eq. pose proof (Forall_lookup_1 _ _ _ _ Hall Ha) as [Hal Hac].
  set (a' := MkLayoutArg _ _).
  assert (arg_locs a' = arg_locs a ++ [loc]) as Ha'.
  { apply take_S_insert. lia. }
  assert (wf_layout_arg a') as Hwa.
  { split; simpl; [by rewrite length_insert|lia]. }
  split_and!; simpl; try done.
  - split_and!; simpl; try done.
    + by rewrite length_insert.
    + by apply Forall_insert.
    + destruct (Nat.leb_spec (lay_arg_count l) n); lia.
  - intros j c Hj Hc. simpl in Hc. rewrite list_lookup_insert_ne in Hc by lia. eauto.
  - eapply mjoin_insert_last; [done..|]. intros j c Hj Hc.
    unfold arg_locs. by rewrite (Hemp j c Hj Hc).
  - rewrite list_lookup_total_insert_eq by lia. done.
  - intros j Hj. by rewrite list_lookup_total_insert_ne.
Qed.

Lemma add_ret_loc_ok (loc : poly_abi_loc) (l l' : poly_abi_layout) :
  wf_layout l -> poly_abi_layout_add_ret_loc loc l = (l', 0) ->
  wf_layout l' /\ ret_locs l' = ret_locs l ++ [loc] /\
  lay_args l' = lay_args l /\ lay_arch l' = lay_arch l /\
  lay_uses_sret l' = lay_uses_sret l.
Proof.
  intros (Hlen & Hall & Hcnt & Hr & Hrc). unfold poly_abi_layout_add_ret_loc.
  destruct (Nat.leb_spec POLY_ABI_LAYOUT_MAX_RET (lay_ret_count l)); [done|].
  intros Heq. simplify_eq. split_and!; simpl; try done.
  - split_and!; simpl; try done. by rewrite length_insert.
  - apply take_S_insert. lia.
Qed.
