(* ===== verification/AbiCursor.v ===== *)
(** What the three call classifiers share: the register/stack cursor and the
    helpers that [poly_abi_x86_sysv.c], [poly_abi_aarch64.c] and
    [poly_abi_riscv.c] each define with the same text; the theory of location
    allocation; and the interface [ArgClassifier] that each architecture's
    argument classifier implements, against which the properties of the
    argument loop are proved once. *)

From S2P Require Import Prelude AbiType.

(** ** The cursor and the helpers of the classifiers *)

Record abi_cursor : Type := MkCursor {
  cur_gpr : Z;
  cur_fpr : Z;
  cur_stack : Z;
}.

Definition zero_cursor : abi_cursor := MkCursor 0 0 0.

(** [(uint16_t) ((value + align - 1u) & ~(uint16_t) (align - 1u))]: the sum is
    computed in 32 bits, the complement of a promoted [uint16_t] has its high
    bits set. *)
Definition align_to (value align : Z) : Z :=
  u16 (Z.land (u32 (value + align - 1)) (u32 (Z.lnot (u16 (align - 1))))).

Definition is_float_kind (kind : poly_abi_type_kind) : bool :=
  bool_decide (kind = POLY_ABI_TYPE_F32) || bool_decide (kind = POLY_ABI_TYPE_F64).

Definition is_integer_kind (kind : poly_abi_type_kind) : bool :=
  bool_decide (kind = POLY_ABI_TYPE_I32) || bool_decide (kind = POLY_ABI_TYPE_I64) ||
  bool_decide (kind = POLY_ABI_TYPE_PTR).

(** [x86_stack_loc], [aarch64_stack_loc] and [riscv_stack_loc]. *)
Definition stack_loc (cursor : abi_cursor) (size align : Z)
    : poly_abi_loc * abi_cursor :=
  let offset := align_to (cur_stack cursor) (if align >? 8 then align else 8) in
  (poly_abi_loc_stack offset size,
   MkCursor (cur_gpr cursor) (cur_fpr cursor) (u16 (offset + align_to size 8))).

(** The state a classifier works on: the layout under construction and the
    cursor. *)
Definition classify_state : Type := poly_abi_layout * abi_cursor.

(** [return poly_abi_layout_add_arg_loc(out, arg_index, loc)] where computing
    [loc] advanced the cursor. *)
Definition add_arg_loc_with (arg_index : nat) (p : poly_abi_loc * abi_cursor)
    (out : poly_abi_layout) : classify_state * Z :=
  let '(loc, cursor') := p in
  let '(out', r) := poly_abi_layout_add_arg_loc arg_index loc out in
  ((out', cursor'), r).

Definition take_gpr (kind : poly_abi_loc_kind) (cursor : abi_cursor) (size : Z)
    : poly_abi_loc * abi_cursor :=
  (poly_abi_loc_reg kind (cur_gpr cursor) size,
   MkCursor (u8 (cur_gpr cursor + 1)) (cur_fpr cursor) (cur_stack cursor)).

Definition take_fpr (kind : poly_abi_loc_kind) (cursor : abi_cursor) (size : Z)
    : poly_abi_loc * abi_cursor :=
  (poly_abi_loc_reg kind (cur_fpr cursor) size,
   MkCursor (cur_gpr cursor) (u8 (cur_fpr cursor + 1)) (cur_stack cursor)).

(** [parts = (uint8_t) ((size + 7u) / 8u)] and the size of part [n]. *)
Definition part_count (size : Z) : Z := u8 ((size + 7) / 8).
Definition part_size (size : Z) (n : nat) : Z :=
  if Z.of_nat n + 1 =? part_count size then u16 (size - u16 (Z.of_nat n) * 8)
  else 8.

(** The guard with which the AArch64 and RISC-V HFA branches start. *)
Definition bad_hfa (type : poly_abi_type) : bool :=
  negb (is_float_kind (ty_elem_kind type)) || (ty_count type =? 0) ||
  (ty_count type >? Z.of_nat POLY_ABI_LOC_MAX_PARTS).

Definition hfa_elem_size (type : poly_abi_type) : Z :=
  ty_size (poly_abi_scalar_type (ty_elem_kind type)).

Definition set_uses_sret (l : poly_abi_layout) : poly_abi_layout :=
  MkLayout (lay_arch l) (lay_args l) (lay_arg_count l) (lay_ret l)
    (lay_ret_count l) 1 (lay_stack_arg_size l) (lay_stack_align l).

Definition set_stack_arg_size (n : Z) (l : poly_abi_layout) : poly_abi_layout :=
  MkLayout (lay_arch l) (lay_args l) (lay_arg_count l) (lay_ret l)
    (lay_ret_count l) (lay_uses_sret l) n (lay_stack_align l).

Definition ret_by_sret (sig : poly_function_sig) : bool :=
  negb (Z.land (sig_flags sig) POLY_FUNCTION_SIG_FLAG_RET_BY_SRET =? 0).

(** ** Alignment in 16 bits *)

Lemma align_to_pow2 (value k : Z) :
  0 <= value -> 0 <= k <= 15 -> value + 2 ^ k <= 2 ^ 16 ->
  align_to value (2 ^ k) = (value + 2 ^ k - 1) / 2 ^ k * 2 ^ k.
Proof.
  intros Hv Hk Hb. unfold align_to.
  assert (0 < 2 ^ k) by (apply Z.pow_pos_nonneg; lia).
  assert (2 ^ k < 2 ^ 16) by (apply Z.pow_lt_mono_r; lia).
  rewrite (wrap_small 16 (2 ^ k - 1)) by (unfold in_width; lia).
  rewrite (wrap_small 32 (value + _ - 1)) by (unfold in_width; lia).
  assert (Z.land (value + 2 ^ k - 1) (u32 (Z.lnot (2 ^ k - 1))) =
          Z.land (value + 2 ^ k - 1) (Z.lnot (2 ^ k - 1))) as ->.
  { unfold wrap. rewrite <- Z.land_ones by lia. rewrite Z.land_assoc.
    rewrite (Z.land_comm _ (Z.ones 32)), Z.land_assoc.
    rewrite (Z.land_comm (Z.ones 32)), Z.land_ones by lia.
    rewrite Z.mod_small by lia. done. }
  rewrite land_lnot_ones by lia. apply wrap_small.
  pose proof (round_up_pow2 value k ltac:(lia)) as [Hr _]. simpl in Hr.
  split; [lia|]. change (2 ^ 16) with 65536 in *.
  assert (value + 2 ^ k - 1 < 65536) as Hlt by lia.
  assert ((value + 2 ^ k - 1) / 2 ^ k * 2 ^ k <= value + 2 ^ k - 1).
  { rewrite Z.mul_comm. apply Z.mul_div_le. lia. }
  lia.
Qed.

(** Rounding up to 8 or 16, the two alignments the stack cursor uses. *)
Lemma align_to_spec (value a : Z) :
  a = 8 \/ a = 16 -> 0 <= value -> value + a <= 2 ^ 16 ->
  value <= align_to value a < value + a /\ align_to value a mod a = 0.
Proof.
  intros [-> | ->] Hv Hb.
  - change 8 with (2 ^ 3) at 1 2 4 5. rewrite align_to_pow2 by (simpl; lia).
    apply (round_up_pow2 value 3). lia.
  - change 16 with (2 ^ 4) at 1 2 4 5. rewrite align_to_pow2 by (simpl; lia).
    apply (round_up_pow2 value 4). lia.
Qed.

Lemma align_to_fixed (value a : Z) :
  a = 8 \/ a = 16 -> 0 <= value -> value + a <= 2 ^ 16 -> value mod a = 0 ->
  align_to value a = value.
Proof.
  intros Ha Hv Hb Hm. destruct (align_to_spec value a Ha Hv Hb) as [Hr Hm'].
  destruct Ha as [-> | ->]; Z.to_euclidean_division_equations; lia.
Qed.

(** ** Allocation of locations *)

(** [alloc G c loc c']: one location taken from the cursor [c], where [G] is
    the number of integer argument registers. *)
Inductive alloc (G : Z) : abi_cursor -> poly_abi_loc -> abi_cursor -> Prop :=
  | alloc_gpr c size : cur_gpr c < G ->
      alloc G c (take_gpr POLY_ABI_LOC_GPR c size).1 (take_gpr POLY_ABI_LOC_GPR c size).2
  | alloc_fpr c kind size :
      kind = POLY_ABI_LOC_FPR \/ kind = POLY_ABI_LOC_VEC -> cur_fpr c < 8 ->
      alloc G c (take_fpr kind c size).1 (take_fpr kind c size).2
  | alloc_stack c size align : align <= 8 \/ align = 16 ->
      alloc G c (stack_loc c size align).1 (stack_loc c size align).2.

Inductive alloc_seq (G : Z) : abi_cursor -> list poly_abi_loc -> abi_cursor -> Prop :=
  | alloc_nil c : alloc_seq G c [] c
  | alloc_cons c1 c2 c3 loc locs :
      alloc G c1 loc c2 -> alloc_seq G c2 locs c3 ->
      alloc_seq G c1 (loc :: locs) c3.

Definition cursor_ok (G : Z) (c : abi_cursor) : Prop :=
  0 <= cur_gpr c <= G /\ 0 <= cur_fpr c <= 8 /\
  0 <= cur_stack c /\ cur_stack c mod 8 = 0.

Definition cursor_le (c c' : abi_cursor) : Prop :=
  cur_gpr c <= cur_gpr c' /\ cur_fpr c <= cur_fpr c' /\
  cur_stack c <= cur_stack c'.

(** [loc] was taken between the cursors [c] and [c']. *)
Definition loc_in (c c' : abi_cursor) (loc : poly_abi_loc) : Prop :=
  match loc_kind loc with
  | POLY_ABI_LOC_GPR => cur_gpr c <= loc_reg loc < cur_gpr c'
  | POLY_ABI_LOC_FPR | POLY_ABI_LOC_VEC => cur_fpr c <= loc_reg loc < cur_fpr c'
  | POLY_ABI_LOC_STACK =>
      cur_stack c <= loc_stack_offset loc /\
      loc_stack_offset loc + loc_size loc <= cur_stack c' /\
      loc_stack_offset loc mod 8 = 0
  | _ => False
  end.

(** Two locations share no storage.  A structure-return pointer travels in an
    integer register; FP and vector registers are one file. *)
Definition reg_file (k : poly_abi_loc_kind) : Z :=
  match k with
  | POLY_ABI_LOC_NONE => 0
  | POLY_ABI_LOC_GPR | POLY_ABI_LOC_SRET_PTR => 1
  | POLY_ABI_LOC_FPR | POLY_ABI_LOC_VEC => 2
  | POLY_ABI_LOC_STACK => 3
  end.

Definition disjoint (x y : poly_abi_loc) : Prop :=
  reg_file (loc_kind x) <> reg_file (loc_kind y) \/
  (reg_file (loc_kind x) <> 3 /\ loc_reg x <> loc_reg y) \/
  (reg_file (loc_kind x) = 3 /\
   (loc_stack_offset x + loc_size x <= loc_stack_offset y \/
    loc_stack_offset y + loc_size y <= loc_stack_offset x)).

Definition pairwise_disjoint : list poly_abi_loc -> Prop :=
  ForallOrdPairs disjoint.

(** An upper bound on the stack bytes a sequence of locations can take. *)
Definition stack_cost (locs : list poly_abi_loc) : Z :=
  foldr (fun loc acc => loc_size loc + 15 + acc) 0 locs.

Lemma disjoint_sym (x y : poly_abi_loc) : disjoint x y -> disjoint y x.
Proof. unfold disjoint. intros [H | [[H1 H2] | [H1 H2]]]; [left; congruence|..]; lia. Qed.

Lemma cursor_ok_start (G g : Z) : 0 <= g <= G -> cursor_ok G (MkCursor g 0 0).
Proof. intros. unfold cursor_ok. cbn [cur_gpr cur_fpr cur_stack]. split_and!; try lia. done. Qed.

Lemma cursor_le_refl (c : abi_cursor) : cursor_le c c.
Proof. unfold cursor_le. lia. Qed.

Lemma cursor_le_trans (c1 c2 c3 : abi_cursor) :
  cursor_le c1 c2 -> cursor_le c2 c3 -> cursor_le c1 c3.
Proof. unfold cursor_le. lia. Qed.

#[export] Instance cursor_le_preorder : PreOrder cursor_le.
Proof. split; [exact cursor_le_refl|exact cursor_le_trans]. Qed.

(** Widening the interval keeps a location in it. *)
Lemma loc_in_mono (a b c d : abi_cursor) (loc : poly_abi_loc) :
  cursor_le a b -> cursor_le c d -> loc_in b c loc -> loc_in a d loc.
Proof.
  unfold cursor_le, loc_in. intros Hab Hcd.
  destruct (loc_kind loc); lia || done.
Qed.

(** Locations of consecutive intervals are disjoint. *)
Lemma loc_in_disjoint (a b c d : abi_cursor) (x y : poly_abi_loc) :
  loc_in a b x -> loc_in c d y -> cursor_le b c -> disjoint x y.
Proof.
  unfold loc_in, disjoint, cursor_le.
  destruct (loc_kind x), (loc_kind y); simpl; try done; intros; lia.
Qed.

(** One allocation: the location lies between the cursors, and the cursor
    stays within the registers and aligned. *)
Lemma alloc_spec (G : Z) (c c' : abi_cursor) (loc : poly_abi_loc) :
  G <= 255 -> cursor_ok G c -> alloc G c loc c' -> 0 <= loc_size loc ->
  cur_stack c + loc_size loc + 15 < 2 ^ 16 ->
  cursor_ok G c' /\ cursor_le c c' /\ loc_in c c' loc /\
  cur_stack c' <= cur_stack c + loc_size loc + 15.
Proof.
  intros HG (Hg & Hf & Hs & Hm) Hal.
  assert (forall z, 0 <= z <= 255 -> u8 z = z) as Hu8.
  { intros z Hz. apply wrap_small. unfold in_width. lia. }
  destruct Hal as [c size Hlt | c kind size Hk Hlt | c size align Ha]; simpl;
    intros Hsz Hb; unfold cursor_ok, cursor_le, loc_in; simpl.
  - rewrite Hu8 by lia. lia.
  - rewrite Hu8 by lia. destruct Hk as [-> | ->]; simpl; lia.
  - set (a := if align >? 8 then align else 8).
    assert (a = 8 \/ a = 16) as Haa.
    { subst a. destruct (Z.gtb_spec align 8); lia. }
    destruct (align_to_spec (cur_stack c) a Haa Hs ltac:(lia)) as [Hr Hal].
    destruct (align_to_spec size 8 ltac:(lia) Hsz ltac:(lia)) as [Hr2 Hm2].
    assert (align_to (cur_stack c) a mod 8 = 0) as Hal8.
    { destruct Haa as [-> | Haa]; [done|]. rewrite Haa in *.
      Z.to_euclidean_division_equations; lia. }
    (* the cursor is a multiple of 8, so at most 8 bytes of padding *)
    assert (align_to (cur_stack c) a <= cur_stack c + 8) as Hpad.
    { destruct Haa as [Haa | Haa]; rewrite Haa in *;
        Z.to_euclidean_division_equations; lia. }
    rewrite (wrap_small 16 (_ + _)) by (unfold in_width; lia).
    split_and!; try lia. rewrite Z.add_mod, Hal8, Hm2 by lia. done.
Qed.

(** A sequence of allocations: every location lies between the two ends, and
    they are pairwise disjoint. *)
Lemma alloc_seq_spec (G : Z) (c c' : abi_cursor) (locs : list poly_abi_loc) :
  G <= 255 -> alloc_seq G c locs c' -> cursor_ok G c ->
  Forall (fun l => 0 <= loc_size l) locs ->
  cur_stack c + stack_cost locs < 2 ^ 16 ->
  cursor_ok G c' /\ cursor_le c c' /\ Forall (loc_in c c') locs /\
  pairwise_disjoint locs /\ cur_stack c' <= cur_stack c + stack_cost locs.
Proof.
  intros HG Hseq. induction Hseq as [c | c1 c2 c3 loc locs Hal _ IH]; intros Hok Hsz Hb.
  { split_and!; [done|reflexivity|constructor|constructor|simpl; lia]. }
  apply Forall_cons_1 in Hsz as [Hl Hsz]. simpl in Hb.
  assert (0 <= stack_cost locs) as Hpos.
  { clear -Hsz. induction Hsz; simpl in *; lia. }
  destruct (alloc_spec G c1 c2 loc HG Hok Hal Hl ltac:(lia)) as (Hok2 & Hle & Hin & Hst).
  destruct (IH Hok2 Hsz ltac:(lia)) as (Hok3 & Hle3 & Hins & Hpd & Hst3).
  split_and!; [done|by etransitivity| | |simpl; lia].
  - constructor; [by eapply loc_in_mono; [reflexivity|done|done]|].
    eapply Forall_impl; [exact Hins|]. intros x Hx.
    by eapply loc_in_mono; [exact Hle|reflexivity|].
  - constructor; [|done]. apply List.Forall_forall. intros y Hy.
    eapply loc_in_disjoint; [exact Hin| |reflexivity].
    by eapply (proj1 (List.Forall_forall _ _) Hins).
Qed.

Lemma alloc_seq_app (G : Z) (c1 c2 c3 : abi_cursor) (xs ys : list poly_abi_loc) :
  alloc_seq G c1 xs c2 -> alloc_seq G c2 ys c3 -> alloc_seq G c1 (xs ++ ys) c3.
Proof. induction 1; simpl; [done|]. intros. econstructor; eauto. Qed.

Lemma alloc_seq_one (G : Z) (c c' : abi_cursor) (x : poly_abi_loc) :
  alloc G c x c' -> alloc_seq G c [x] c'.
Proof. intros. econstructor; [done|constructor]. Qed.

#[export] Hint Constructors alloc_seq : poly.
#[export] Hint Resolve alloc_seq_one : poly.

(** ** Types the classifiers accept *)

(** Argument sizes up to this bound keep sixteen arguments within the 16-bit
    stack cursor. *)
Definition MAX_ABI_BYTES : Z := 4000.
Definition ARG_STACK_COST : Z := 4016.

Record wf_type (t : poly_abi_type) : Prop := {
  wf_size : 0 <= ty_size t <= MAX_ABI_BYTES;
  wf_align : 0 <= ty_align t <= 8 \/ ty_align t = 16;
  wf_fields_len : length (ty_fields t) = POLY_ABI_TYPE_MAX_FIELDS;
  wf_field_count : 0 <= ty_field_count t <= 4;
  wf_field_sizes : Forall (fun f => 0 <= fld_size f <= ty_size t) (ty_fields t);
  wf_hfa : ty_kind t = POLY_ABI_TYPE_HFA ->
    is_float_kind (ty_elem_kind t) = true /\ 1 <= ty_count t <= 4 /\
    ty_size t = ty_size (poly_abi_scalar_type (ty_elem_kind t)) * ty_count t;
  wf_void : ty_kind t = POLY_ABI_TYPE_VOID -> ty_size t = 0;
}.

Record wf_sig (sig : poly_function_sig) : Prop := {
  wf_sig_len : length (sig_args sig) = POLY_FUNCTION_SIG_MAX_ARGS;
  wf_sig_count : (sig_arg_count sig <= POLY_FUNCTION_SIG_MAX_ARGS)%nat;
  wf_sig_args : Forall wf_type (take (sig_arg_count sig) (sig_args sig));
  wf_sig_ret : wf_type (sig_ret sig);
}.

Definition sum_sizes (xs : list Z) : Z := foldr Z.add 0 xs.

(** The fields of a small aggregate cover it without padding. *)
Definition tiled (t : poly_abi_type) : Prop :=
  ty_kind t = POLY_ABI_TYPE_AGGREGATE -> ty_size t <= 16 -> 0 < ty_field_count t ->
  sum_sizes (fld_size <$> take (Z.to_nat (ty_field_count t)) (ty_fields t)) = ty_size t.

(** Executable versions, for concrete signatures. *)
Definition check_type (t : poly_abi_type) : bool :=
  (0 <=? ty_size t) && (ty_size t <=? MAX_ABI_BYTES) &&
  (((0 <=? ty_align t) && (ty_align t <=? 8)) || (ty_align t =? 16)) &&
  (length (ty_fields t) =? POLY_ABI_TYPE_MAX_FIELDS)%nat &&
  (0 <=? ty_field_count t) && (ty_field_count t <=? 4) &&
  forallb (fun f => (0 <=? fld_size f) && (fld_size f <=? ty_size t)) (ty_fields t) &&
  (if bool_decide (ty_kind t = POLY_ABI_TYPE_HFA) then
     is_float_kind (ty_elem_kind t) && (1 <=? ty_count t) && (ty_count t <=? 4) &&
     (ty_size t =? ty_size (poly_abi_scalar_type (ty_elem_kind t)) * ty_count t)
   else true) &&
  (if bool_decide (ty_kind t = POLY_ABI_TYPE_VOID) then ty_size t =? 0 else true).

Definition check_sig (sig : poly_function_sig) : bool :=
  (length (sig_args sig) =? POLY_FUNCTION_SIG_MAX_ARGS)%nat &&
  (sig_arg_count sig <=? POLY_FUNCTION_SIG_MAX_ARGS)%nat &&
  forallb check_type (take (sig_arg_count sig) (sig_args sig)) &&
  check_type (sig_ret sig).

Definition check_tiled (t : poly_abi_type) : bool :=
  if bool_decide (ty_kind t = POLY_ABI_TYPE_AGGREGATE) && (ty_size t <=? 16) &&
     (0 <? ty_field_count t)
  then sum_sizes (fld_size <$> take (Z.to_nat (ty_field_count t)) (ty_fields t)) =? ty_size t
  else true.

Lemma check_type_ok (t : poly_abi_type) : check_type t = true -> wf_type t.
Proof.
  unfold check_type. intros H.
  repeat match goal with H : _ && _ = true |- _ => apply andb_prop in H as [H ?] end.
  constructor.
  - lia.
  - match goal with H : _ || _ = true |- _ => apply orb_prop in H as [H | H] end;
      breflect; lia.
  - by apply Nat.eqb_eq.
  - lia.
  - apply Forall_forall. intros f Hf.
    match goal with H : forallb _ _ = true |- _ => rewrite List.forallb_forall in H;
      specialize (H f) end.
    rewrite <- list_elem_of_In in *. specialize (H2 Hf). breflect. lia.
  - intros Hk. rewrite bool_decide_eq_true_2 in * by done. breflect. split_and!; [done|lia..].
  - intros Hk. rewrite bool_decide_eq_true_2 in * by done. by apply Z.eqb_eq.
Qed.

Lemma check_sig_ok (sig : poly_function_sig) : check_sig sig = true -> wf_sig sig.
Proof.
  unfold check_sig. intros H.
  repeat match goal with H : _ && _ = true |- _ => apply andb_prop in H as [H ?] end.
  constructor; [by apply Nat.eqb_eq|by apply Nat.leb_le| |by apply check_type_ok].
  apply Forall_forall. intros t Ht. apply check_type_ok.
  match goal with H : forallb _ _ = true |- _ => rewrite List.forallb_forall in H; apply H end.
  by apply list_elem_of_In.
Qed.

Lemma check_tiled_ok (t : poly_abi_type) : check_tiled t = true -> tiled t.
Proof.
  unfold check_tiled, tiled. intros H Hk Hs Hc.
  rewrite bool_decide_eq_true_2 in H by done.
  destruct (Z.leb_spec (ty_size t) 16); [|lia].
  destruct (Z.ltb_spec 0 (ty_field_count t)); [|lia]. by apply Z.eqb_eq in H.
Qed.

(** ** Extending one argument of a layout *)

(** [l'] is [l] with [locs] appended to argument [n]. *)
Definition arg_extends (n : nat) (l : poly_abi_layout) (locs : list poly_abi_loc)
    (l' : poly_abi_layout) : Prop :=
  wf_layout l' /\ empty_from (S n) l' /\
  all_arg_locs l' = all_arg_locs l ++ locs /\
  arg_locs (lay_args l' !!! n) = arg_locs (lay_args l !!! n) ++ locs /\
  (forall j, j <> n -> lay_args l' !!! j = lay_args l !!! j) /\
  ret_locs l' = ret_locs l /\ lay_arch l' = lay_arch l /\
  lay_uses_sret l' = lay_uses_sret l.

Lemma arg_extends_nil (n : nat) (l : poly_abi_layout) :
  wf_layout l -> empty_from (S n) l -> arg_extends n l [] l.
Proof. intros. unfold arg_extends. rewrite !app_nil_r. done. Qed.

Lemma arg_extends_app (n : nat) (l1 l2 l3 : poly_abi_layout) (xs ys : list poly_abi_loc) :
  arg_extends n l1 xs l2 -> arg_extends n l2 ys l3 -> arg_extends n l1 (xs ++ ys) l3.
Proof.
  unfold arg_extends.
  intros (_ & _ & Ha & Hn & Ho & Hr & Hc & Hu) (Hwf & He & Ha' & Hn' & Ho' & Hr' & Hc' & Hu').
  split_and!; try congruence; try done.
  - by rewrite Ha', Ha, app_assoc.
  - by rewrite Hn', Hn, app_assoc.
  - intros j Hj. by rewrite Ho', Ho.
Qed.

(** [adder G Q Q' n size f]: from a cursor in [Q], the C call [f] takes one
    location of [size] bytes and adds it to argument [n]; the cursor is then
    in [Q']. *)
Definition adder (G : Z) (Q Q' : abi_cursor -> Prop) (n : nat) (size : Z)
    (f : cmd classify_state) : Prop :=
  forall l c, Q c -> exists loc c', alloc G c loc c' /\ loc_size loc = size /\
    Q' c' /\ f (l, c) = add_arg_loc_with n (loc, c') l.

Lemma add_arg_loc_total (n : nat) (loc : poly_abi_loc) (l : poly_abi_layout) :
  (n < POLY_ABI_LAYOUT_MAX_ARGS)%nat ->
  (la_loc_count (lay_args l !!! n) < POLY_ABI_LOC_MAX_PARTS)%nat ->
  exists l', poly_abi_layout_add_arg_loc n loc l = (l', 0).
Proof.
  intros Hn Hc. unfold poly_abi_layout_add_arg_loc.
  destruct (Nat.leb_spec POLY_ABI_LAYOUT_MAX_ARGS n); [lia|].
  destruct (Nat.leb_spec POLY_ABI_LOC_MAX_PARTS (la_loc_count (lay_args l !!! n))); [lia|].
  eauto.
Qed.

Lemma arg_locs_length (a : poly_abi_layout_arg) :
  wf_layout_arg a -> length (arg_locs a) = la_loc_count a.
Proof. intros [Hl Hc]. unfold arg_locs. rewrite length_take. lia. Qed.

Lemma wf_layout_arg_at (l : poly_abi_layout) (n : nat) :
  wf_layout l -> (n < POLY_ABI_LAYOUT_MAX_ARGS)%nat -> wf_layout_arg (lay_args l !!! n).
Proof.
  intros (Hlen & Hall & _) Hn. eapply Forall_lookup_total_1; [done|lia].
Qed.

Lemma adder_sound G Q Q' n size f l c l' c' :
  adder G Q Q' n size f -> wf_layout l -> empty_from (S n) l -> Q c ->
  f (l, c) = ((l', c'), 0) ->
  exists loc, arg_extends n l [loc] l' /\ alloc G c loc c' /\ loc_size loc = size /\ Q' c'.
Proof.
  intros Hadd Hwf He HQ Hf. destruct (Hadd l c HQ) as (loc & c2 & Hal & Hsz & HQ' & Heq).
  rewrite Heq in Hf. unfold add_arg_loc_with in Hf.
  destruct (poly_abi_layout_add_arg_loc n loc l) as [l2 r] eqn:Ha. simplify_eq.
  exists loc. split; [|done]. by apply add_arg_loc_ok in Ha.
Qed.

Lemma adder_total G Q Q' n size f l c :
  adder G Q Q' n size f -> Q c -> (n < POLY_ABI_LAYOUT_MAX_ARGS)%nat ->
  (la_loc_count (lay_args l !!! n) < POLY_ABI_LOC_MAX_PARTS)%nat ->
  exists l' c', f (l, c) = ((l', c'), 0).
Proof.
  intros Hadd HQ Hn Hc. destruct (Hadd l c HQ) as (loc & c2 & _ & _ & _ & ->).
  destruct (add_arg_loc_total n loc l Hn Hc) as [l' Hl']. unfold add_arg_loc_with.
  rewrite Hl'. eauto.
Qed.

(** A loop of adders appends one location per iteration. *)
Lemma adder_loop_sound G (Q : nat -> abi_cursor -> Prop) n (sz : nat -> Z) body k :
  forall i l c l' c',
  (forall j, (i <= j < i + k)%nat -> adder G (Q j) (Q (S j)) n (sz j) (body j)) ->
  wf_layout l -> empty_from (S n) l -> Q i c ->
  for_from i k body (l, c) = ((l', c'), 0) ->
  exists locs, arg_extends n l locs l' /\ alloc_seq G c locs c' /\
    loc_size <$> locs = sz <$> seq i k /\ Q (i + k)%nat c'.
Proof.
  induction k as [|k IH]; intros i l c l' c' Hadd Hwf He HQ Hrun; simpl in Hrun.
  - unfold ret0 in Hrun. simplify_eq. exists []. rewrite Nat.add_0_r.
    split_and!; [by apply arg_extends_nil|constructor|done|done].
  - apply andthen_ok in Hrun as ([l1 c1] & H1 & H2).
    destruct (adder_sound _ _ _ _ _ _ _ _ _ _ (Hadd i ltac:(lia)) Hwf He HQ H1)
      as (loc & Hext & Hal & Hsz & HQ1).
    destruct (IH (S i) l1 c1 l' c') as (locs & Hext2 & Hseq & Hs & HQ2);
      [intros; apply Hadd; lia|apply Hext|apply Hext|done|done|].
    exists (loc :: locs). split_and!.
    + by eapply (arg_extends_app _ _ _ _ [loc]).
    + by econstructor.
    + rewrite fmap_cons, Hs. simpl. by rewrite Hsz.
    + by replace (i + S k)%nat with (S i + k)%nat by lia.
Qed.

Lemma adder_loop_total G (Q : nat -> abi_cursor -> Prop) n (sz : nat -> Z) body k :
  forall i l c,
  (forall j, (i <= j < i + k)%nat -> adder G (Q j) (Q (S j)) n (sz j) (body j)) ->
  wf_layout l -> empty_from (S n) l -> Q i c ->
  (n < POLY_ABI_LAYOUT_MAX_ARGS)%nat ->
  (la_loc_count (lay_args l !!! n) + k <= POLY_ABI_LOC_MAX_PARTS)%nat ->
  exists l' c', for_from i k body (l, c) = ((l', c'), 0).
Proof.
  induction k as [|k IH]; intros i l c Hadd Hwf He HQ Hn Hc; simpl; [by eexists _, _|].
  destruct (adder_total _ _ _ _ _ _ l c (Hadd i ltac:(lia)) HQ Hn ltac:(lia))
    as (l1 & c1 & H1).
  destruct (adder_sound _ _ _ _ _ _ _ _ _ _ (Hadd i ltac:(lia)) Hwf He HQ H1)
    as (loc & Hext & Hal & Hsz & HQ1).
  pose proof Hext as (Hwf1 & He1 & _ & Hn1 & _).
  destruct (IH (S i) l1 c1) as (l' & c' & H2);
    [intros; apply Hadd; lia|done|done|done|done| |].
  - rewrite <- (arg_locs_length _ (wf_layout_arg_at l1 n Hwf1 Hn)), Hn1, length_app.
    rewrite (arg_locs_length _ (wf_layout_arg_at l n Hwf Hn)). simpl. lia.
  - exists l', c'. apply andthen_ok. eauto.
Qed.

(** ** The interface of an argument classifier *)

(** What an architecture's argument classifier promises to the argument loop:
    with [G] integer argument registers, on a well-formed type it appends to
    argument [n] locations taken from the cursor in order, of bounded stack
    cost, that together hold the whole argument; and on an argument with no
    location yet it succeeds. *)
Class ArgClassifier (G : Z)
    (classify_arg : poly_abi_type -> nat -> cmd classify_state) : Prop := {
  arg_regs : 0 <= G <= 255;
  arg_sound : forall t n l c l' c',
    wf_type t -> wf_layout l -> empty_from (S n) l -> cursor_ok G c ->
    classify_arg t n (l, c) = ((l', c'), 0) ->
    exists locs, arg_extends n l locs l' /\ alloc_seq G c locs c' /\
      Forall (fun x => 0 <= loc_size x) locs /\ stack_cost locs <= ARG_STACK_COST /\
      (tiled t -> sum_sizes (loc_size <$> locs) = ty_size t);
  arg_total : forall t n l c,
    wf_type t -> wf_layout l -> empty_from n l -> cursor_ok G c ->
    (n < POLY_ABI_LAYOUT_MAX_ARGS)%nat ->
    exists l' c', classify_arg t n (l, c) = ((l', c'), 0);
}.

Lemma stack_cost_app (xs ys : list poly_abi_loc) :
  stack_cost (xs ++ ys) = stack_cost xs + stack_cost ys.
Proof. induction xs as [|x xs IH]; simpl; [done|]. rewrite IH. lia. Qed.

(** A bound on the stack cost from the sizes of the parts. *)
Lemma stack_cost_sizes (locs : list poly_abi_loc) :
  stack_cost locs = sum_sizes (loc_size <$> locs) + 15 * Z.of_nat (length locs).
Proof.
  induction locs as [|x xs IH]; [done|]. cbn [stack_cost foldr fmap list_fmap length].
  fold (stack_cost xs). rewrite IH. unfold sum_sizes. simpl foldr. lia.
Qed.

Section ArgumentLoop.
Context {G : Z} {classify_arg : poly_abi_type -> nat -> cmd classify_state}.
Context {AC : ArgClassifier G classify_arg}.
Context (sig : poly_function_sig) (Hsig : wf_sig sig).
Context (c0 : abi_cursor) (Hc0 : cursor_ok G c0) (Hst0 : cur_stack c0 = 0).
Context (l0 : poly_abi_layout) (Hl0 : wf_layout l0) (He0 : empty_from 0 l0).

Definition args_inv (n : nat) (s : classify_state) : Prop :=
  let '(l, c) := s in
  wf_layout l /\ empty_from n l /\ alloc_seq G c0 (all_arg_locs l) c /\
  Forall (fun x => 0 <= loc_size x) (all_arg_locs l) /\
  stack_cost (all_arg_locs l) <= Z.of_nat n * ARG_STACK_COST /\
  (forall j, (j < n)%nat -> tiled (sig_args sig !!! j) ->
     sum_sizes (loc_size <$> arg_locs (lay_args l !!! j)) = ty_size (sig_args sig !!! j)) /\
  ret_locs l = ret_locs l0 /\ lay_arch l = lay_arch l0 /\
  lay_uses_sret l = lay_uses_sret l0.

Lemma wf_sig_arg (n : nat) :
  (n < sig_arg_count sig)%nat -> wf_type (sig_args sig !!! n).
Proof using Hsig.
  intros Hn. destruct Hsig as [Hlen Hcnt Hargs _].
  apply (Forall_lookup_1 _ _ n _ Hargs). rewrite lookup_take_lt by lia.
  apply list_lookup_lookup_total_lt. lia.
Qed.

(** The invariant bounds the cursor and keeps the locations disjoint. *)
Lemma args_inv_spec (n : nat) (l : poly_abi_layout) (c : abi_cursor) :
  (n <= POLY_ABI_LAYOUT_MAX_ARGS)%nat -> args_inv n (l, c) ->
  cursor_ok G c /\ cursor_le c0 c /\ Forall (loc_in c0 c) (all_arg_locs l) /\
  pairwise_disjoint (all_arg_locs l) /\
  cur_stack c <= Z.of_nat n * ARG_STACK_COST.
Proof using AC Hc0 Hst0.
  intros Hn (Hwf & He & Hseq & Hsz & Hcost & _).
  unfold POLY_ABI_LAYOUT_MAX_ARGS, POLY_FUNCTION_SIG_MAX_ARGS, ARG_STACK_COST in *.
  destruct (alloc_seq_spec G c0 c (all_arg_locs l)) as (H1 & H2 & H3 & H4 & H5);
    [apply arg_regs|done|done|done|change (2 ^ 16) with 65536; lia|].
  split_and!; [done|done|done|done|lia].
Qed.

Lemma empty_arg_locs (l : poly_abi_layout) :
  empty_from 0 l -> all_arg_locs l = [].
Proof.
  intros He. apply mjoin_empty_tail, Forall_lookup. intros j a Ha.
  unfold arg_locs. by rewrite (He j a ltac:(lia) Ha).
Qed.

Lemma args_inv_init : args_inv 0 (l0, c0).
Proof using Hl0 He0.
  unfold args_inv. rewrite (empty_arg_locs l0 He0).
  split_and!; try done; [constructor|intros; lia].
Qed.

Lemma empty_arg_at (l : poly_abi_layout) (n : nat) :
  wf_layout l -> empty_from n l -> (n < POLY_ABI_LAYOUT_MAX_ARGS)%nat ->
  arg_locs (lay_args l !!! n) = [].
Proof.
  intros (Hlen & _) He Hn. unfold arg_locs.
  rewrite (He n (lay_args l !!! n)); [done|lia|].
  apply list_lookup_lookup_total_lt. lia.
Qed.

Lemma empty_from_S (n : nat) (l : poly_abi_layout) : empty_from n l -> empty_from (S n) l.
Proof. intros He j a Hj. apply He. lia. Qed.

Lemma args_inv_step (n : nat) (s s' : classify_state) :
  (n < sig_arg_count sig)%nat -> args_inv n s ->
  classify_arg (sig_args sig !!! n) n s = (s', 0) -> args_inv (S n) s'.
Proof using AC Hsig Hc0 Hst0.
  intros Hn Hinv Hrun. destruct s as [l c], s' as [l' c'].
  pose proof (wf_sig_count _ Hsig) as Hcnt.
  destruct (args_inv_spec n l c) as (Hok & _); [unfold POLY_ABI_LAYOUT_MAX_ARGS; lia|done|].
  destruct Hinv as (Hwf & He & Hseq & Hsz & Hcost & Hcov & Hret & Har & Hus).
  destruct (arg_sound _ n l c l' c' (wf_sig_arg n Hn) Hwf (empty_from_S _ _ He) Hok Hrun)
    as (locs & (Hwf' & He' & Hall & Hat & Hoth & Hr & Ha & Hu) & Hseq' & Hsz' & Hcost' & Hcov').
  split_and!; try congruence; try done.
  - rewrite Hall. by eapply alloc_seq_app.
  - rewrite Hall. by apply Forall_app.
  - rewrite Hall, stack_cost_app. lia.
  - intros j Hj Ht. destruct (decide (j = n)) as [->|Hne].
    + rewrite Hat, (empty_arg_at l n Hwf He) by (unfold POLY_ABI_LAYOUT_MAX_ARGS; lia).
      by apply Hcov'.
    + rewrite Hoth by done. apply Hcov; [lia|done].
Qed.

(** The argument loop of a classifier, on success. *)
Lemma args_loop_sound (s' : classify_state) :
  for_from 0 (sig_arg_count sig)
    (fun n => classify_arg (sig_args sig !!! n) n) (l0, c0) = (s', 0) ->
  args_inv (sig_arg_count sig) s'.
Proof using AC Hsig Hc0 Hst0 Hl0 He0.
  intros Hrun. change (sig_arg_count sig) with (0 + sig_arg_count sig)%nat.
  eapply for_from_ind; [|apply args_inv_init|exact Hrun].
  intros j t t' Hj Ht Hb. by apply (args_inv_step j t t'); [lia|..].
Qed.

(** The argument loop of a classifier succeeds. *)
Lemma args_loop_total :
  exists s', for_from 0 (sig_arg_count sig)
    (fun n => classify_arg (sig_args sig !!! n) n) (l0, c0) = (s', 0).
Proof using AC Hsig Hc0 Hst0 Hl0 He0.
  destruct (for_from_total args_inv (fun n => classify_arg (sig_args sig !!! n) n)
    (sig_arg_count sig) 0 (l0, c0)) as (s' & Hs & _); [|apply args_inv_init|by exists s'].
  intros j [l c] Hj Hinv. pose proof (wf_sig_count _ Hsig) as Hcnt.
  destruct (args_inv_spec j l c) as (Hok & _); [unfold POLY_ABI_LAYOUT_MAX_ARGS; lia|done|].
  destruct (arg_total (sig_args sig !!! j) j l c) as (l' & c' & Hr);
    [apply wf_sig_arg; lia|apply Hinv|apply Hinv|done|unfold POLY_ABI_LAYOUT_MAX_ARGS; lia|].
  exists (l', c'). split; [done|]. by apply (args_inv_step j (l, c)); [lia|..].
Qed.
End ArgumentLoop.

(** ** Results *)

(** [l'] is [l] with [locs] appended to the result locations. *)
Definition ret_extends (l : poly_abi_layout) (locs : list poly_abi_loc)
    (l' : poly_abi_layout) : Prop :=
  wf_layout l' /\ ret_locs l' = ret_locs l ++ locs /\
  lay_args l' = lay_args l /\ lay_arch l' = lay_arch l /\
  lay_uses_sret l' = lay_uses_sret l.

Definition is_stack (loc : poly_abi_loc) : bool :=
  bool_decide (loc_kind loc = POLY_ABI_LOC_STACK).

(** A result held in registers taken in order from register 0 of each file. *)
Definition regs_result (t : poly_abi_type) (locs : list poly_abi_loc) : Prop :=
  (exists c, alloc_seq 8 zero_cursor locs c) /\
  Forall (fun x => 0 <= loc_size x /\ is_stack x = false) locs /\
  stack_cost locs <= ARG_STACK_COST /\
  (tiled t -> sum_sizes (loc_size <$> locs) = ty_size t).

(** What an architecture's result classifier promises: the result is in
    registers that hold all of it, or it is returned through a pointer. *)
Class RetClassifier (sret_reg : Z) (classify_ret : poly_abi_type -> cmd poly_abi_layout)
    : Prop := {
  ret_sound : forall t l l', wf_type t -> wf_layout l ->
    classify_ret t l = (l', 0) ->
    (exists locs, ret_extends l locs l' /\ regs_result t locs) \/
    ret_extends (set_uses_sret l) [poly_abi_loc_sret_ptr sret_reg (ty_size t)] l';
  ret_total : forall t l, wf_type t -> wf_layout l -> lay_ret_count l = 0%nat ->
    exists l', classify_ret t l = (l', 0);
}.

Lemma wf_layout_sret (l : poly_abi_layout) : wf_layout l -> wf_layout (set_uses_sret l).
Proof. done. Qed.

Lemma ret_extends_nil (l : poly_abi_layout) : wf_layout l -> ret_extends l [] l.
Proof. intros. unfold ret_extends. by rewrite app_nil_r. Qed.

Lemma ret_extends_app (l1 l2 l3 : poly_abi_layout) (xs ys : list poly_abi_loc) :
  ret_extends l1 xs l2 -> ret_extends l2 ys l3 -> ret_extends l1 (xs ++ ys) l3.
Proof.
  intros (_ & Hr & Ha & Hc & Hu) (Hwf & Hr' & Ha' & Hc' & Hu').
  split_and!; try congruence; try done. by rewrite Hr', Hr, app_assoc.
Qed.

Lemma add_ret_loc_extends (loc : poly_abi_loc) (l l' : poly_abi_layout) :
  wf_layout l -> poly_abi_layout_add_ret_loc loc l = (l', 0) -> ret_extends l [loc] l'.
Proof. apply add_ret_loc_ok. Qed.

Lemma add_ret_loc_total (loc : poly_abi_loc) (l : poly_abi_layout) :
  (lay_ret_count l < POLY_ABI_LAYOUT_MAX_RET)%nat ->
  exists l', poly_abi_layout_add_ret_loc loc l = (l', 0) /\
    lay_ret_count l' = S (lay_ret_count l).
Proof.
  intros H. unfold poly_abi_layout_add_ret_loc.
  destruct (Nat.leb_spec POLY_ABI_LAYOUT_MAX_RET (lay_ret_count l)); [lia|].
  eexists. split; done.
Qed.

(** The loops that return parts in consecutive registers of one file. *)
Lemma ret_loop_extends (kind : poly_abi_loc_kind) (sz : nat -> Z) (k : nat) :
  forall i l l', wf_layout l ->
  for_from i k (fun n => poly_abi_layout_add_ret_loc
    (poly_abi_loc_reg kind (Z.of_nat n) (sz n))) l = (l', 0) ->
  ret_extends l ((fun n => poly_abi_loc_reg kind (Z.of_nat n) (sz n)) <$> seq i k) l'.
Proof.
  induction k as [|k IH]; intros i l l' Hwf Hrun; simpl in Hrun.
  - unfold ret0 in Hrun. simplify_eq. by apply ret_extends_nil.
  - apply andthen_ok in Hrun as (l1 & H1 & H2).
    apply add_ret_loc_extends in H1 as He; [|done].
    eapply (ret_extends_app _ _ _ [_]); [exact He|]. eapply IH; [apply He|done].
Qed.

Lemma ret_loop_total (f : nat -> poly_abi_loc) (k : nat) :
  forall i l, (lay_ret_count l + k <= POLY_ABI_LAYOUT_MAX_RET)%nat ->
  exists l', for_from i k (fun n => poly_abi_layout_add_ret_loc (f n)) l = (l', 0).
Proof.
  induction k as [|k IH]; intros i l Hk; simpl; [by eexists|].
  destruct (add_ret_loc_total (f i) l ltac:(lia)) as (l1 & H1 & Hc).
  destruct (IH (S i) l1 ltac:(lia)) as [l' H2]. exists l'. apply andthen_ok. eauto.
Qed.

Lemma gpr_seq_alloc (sz : nat -> Z) (k : nat) : forall i, (i + k <= 8)%nat ->
  alloc_seq 8 (MkCursor (Z.of_nat i) 0 0)
    ((fun n => poly_abi_loc_reg POLY_ABI_LOC_GPR (Z.of_nat n) (sz n)) <$> seq i k)
    (MkCursor (Z.of_nat (i + k)) 0 0).
Proof.
  induction k as [|k IH]; intros i Hi; simpl.
  - rewrite Nat.add_0_r. constructor.
  - eapply alloc_cons; [eapply (alloc_gpr 8 (MkCursor (Z.of_nat i) 0 0)); simpl; lia|].
    simpl. rewrite wrap_small by (unfold in_width; lia).
    replace (Z.of_nat i + 1) with (Z.of_nat (S i)) by lia.
    rewrite <- Nat.add_succ_comm. apply IH. lia.
Qed.

Lemma fpr_seq_alloc (sz : nat -> Z) (k : nat) : forall i, (i + k <= 8)%nat ->
  alloc_seq 8 (MkCursor 0 (Z.of_nat i) 0)
    ((fun n => poly_abi_loc_reg POLY_ABI_LOC_FPR (Z.of_nat n) (sz n)) <$> seq i k)
    (MkCursor 0 (Z.of_nat (i + k)) 0).
Proof.
  induction k as [|k IH]; intros i Hi; simpl.
  - rewrite Nat.add_0_r. constructor.
  - eapply alloc_cons;
      [eapply (alloc_fpr 8 (MkCursor 0 (Z.of_nat i) 0) POLY_ABI_LOC_FPR); simpl; [by left|lia]|].
    simpl. rewrite wrap_small by (unfold in_width; lia).
    replace (Z.of_nat i + 1) with (Z.of_nat (S i)) by lia.
    rewrite <- Nat.add_succ_comm. apply IH. lia.
Qed.

(** ** Parts of eight bytes *)

Lemma part_count_small (size : Z) :
  0 <= size <= 16 -> part_count size = (size + 7) / 8 /\ 0 <= part_count size <= 2.
Proof.
  intros H. unfold part_count.
  assert (0 <= (size + 7) / 8 <= 2).
  { Z.to_euclidean_division_equations; lia. }
  rewrite wrap_small by (unfold in_width; lia). lia.
Qed.

(** The parts of a value of at most sixteen bytes add up to its size, and
    none is larger than it. *)
Lemma part_sizes_sum (size : Z) :
  0 <= size <= 16 ->
  sum_sizes (part_size size <$> seq 0 (Z.to_nat (part_count size))) = size /\
  Forall (fun s => 0 <= s <= 16) (part_size size <$> seq 0 (Z.to_nat (part_count size))).
Proof.
  intros H. assert (size = 0 \/ size = 1 \/ size = 2 \/ size = 3 \/ size = 4 \/ size = 5 \/
    size = 6 \/ size = 7 \/ size = 8 \/ size = 9 \/ size = 10 \/ size = 11 \/ size = 12 \/
    size = 13 \/ size = 14 \/ size = 15 \/ size = 16) as Hc by lia.
  repeat (destruct Hc as [-> | Hc]; [split; [done|repeat constructor; vm_compute; congruence]|]).
  subst. split; [done|repeat constructor; vm_compute; congruence].
Qed.

Lemma sum_sizes_bound (xs : list Z) (b : Z) :
  Forall (fun s => 0 <= s <= b) xs -> 0 <= sum_sizes xs <= Z.of_nat (length xs) * b.
Proof. induction 1 as [|x xs Hx _ IH]; simpl length; unfold sum_sizes in *; simpl foldr; lia. Qed.

Lemma sum_sizes_const (z : Z) (i k : nat) :
  sum_sizes ((fun _ => z) <$> seq i k) = z * Z.of_nat k.
Proof. revert i. induction k as [|k IH]; intros i; simpl; [lia|]. unfold sum_sizes in *. simpl. rewrite IH. lia. Qed.

(** The stack cost of at most four parts of at most sixteen bytes. *)
Lemma small_parts_cost (locs : list poly_abi_loc) :
  (length locs <= 4)%nat -> Forall (fun s => 0 <= s <= 16) (loc_size <$> locs) ->
  Forall (fun x => 0 <= loc_size x) locs /\ stack_cost locs <= ARG_STACK_COST.
Proof.
  intros Hl Hs. split.
  - apply Forall_fmap in Hs. eapply Forall_impl; [exact Hs|]. simpl. lia.
  - rewrite stack_cost_sizes. pose proof (sum_sizes_bound _ _ Hs) as Hb.
    rewrite length_fmap in Hb. unfold ARG_STACK_COST. lia.
Qed.

(** ** From adders to the classifier laws *)

(** The conclusion of [arg_sound]. *)
Definition arg_done (G : Z) (t : poly_abi_type) (n : nat) (l : poly_abi_layout)
    (c : abi_cursor) (l' : poly_abi_layout) (c' : abi_cursor) : Prop :=
  exists locs, arg_extends n l locs l' /\ alloc_seq G c locs c' /\
    Forall (fun x => 0 <= loc_size x) locs /\ stack_cost locs <= ARG_STACK_COST /\
    (tiled t -> sum_sizes (loc_size <$> locs) = ty_size t).

Lemma arg_done_single G Q Q' t n f l c l' c' :
  adder G Q Q' n (ty_size t) f -> Q c -> wf_type t -> wf_layout l -> empty_from (S n) l ->
  f (l, c) = ((l', c'), 0) -> arg_done G t n l c l' c'.
Proof.
  intros Hadd HQ Ht Hwf He Hf.
  destruct (adder_sound _ _ _ _ _ _ _ _ _ _ Hadd Hwf He HQ Hf) as (loc & Hext & Hal & Hsz & _).
  pose proof (wf_size _ Ht). exists [loc]. split_and!.
  - done.
  - by apply alloc_seq_one.
  - repeat constructor. lia.
  - simpl. unfold ARG_STACK_COST, MAX_ABI_BYTES in *. lia.
  - intros _. simpl. lia.
Qed.

Lemma arg_done_loop G (Q : nat -> abi_cursor -> Prop) (sz : nat -> Z) t n body k l c l' c' :
  (forall j, (j < k)%nat -> adder G (Q j) (Q (S j)) n (sz j) (body j)) -> Q 0%nat c ->
  (k <= 4)%nat -> Forall (fun s => 0 <= s <= 16) (sz <$> seq 0 k) ->
  (tiled t -> sum_sizes (sz <$> seq 0 k) = ty_size t) ->
  wf_layout l -> empty_from (S n) l ->
  for_from 0 k body (l, c) = ((l', c'), 0) -> arg_done G t n l c l' c'.
Proof.
  intros Hadd HQ Hk Hb Hsum Hwf He Hrun.
  destruct (adder_loop_sound G Q n sz body k 0 l c l' c') as (locs & Hext & Hseq & Hs & _);
    [intros; apply Hadd; lia|done..|].
  assert (length locs <= 4)%nat as Hlen.
  { rewrite <- (length_fmap loc_size), Hs, length_fmap, length_seq. done. }
  rewrite <- Hs in Hb, Hsum.
  destruct (small_parts_cost locs Hlen Hb) as [H1 H2]. by exists locs.
Qed.

Lemma arg_total_single G Q Q' size n f l c :
  adder G Q Q' n size f -> Q c -> wf_layout l -> empty_from n l ->
  (n < POLY_ABI_LAYOUT_MAX_ARGS)%nat -> exists l' c', f (l, c) = ((l', c'), 0).
Proof.
  intros Hadd HQ Hwf He Hn. eapply adder_total; [done..|].
  rewrite <- (arg_locs_length _ (wf_layout_arg_at l n Hwf Hn)), empty_arg_at by done.
  unfold POLY_ABI_LOC_MAX_PARTS. simpl. lia.
Qed.

Lemma arg_total_loop G (Q : nat -> abi_cursor -> Prop) (sz : nat -> Z) n body k l c :
  (forall j, (j < k)%nat -> adder G (Q j) (Q (S j)) n (sz j) (body j)) -> Q 0%nat c ->
  (k <= 4)%nat -> wf_layout l -> empty_from n l -> (n < POLY_ABI_LAYOUT_MAX_ARGS)%nat ->
  exists l' c', for_from 0 k body (l, c) = ((l', c'), 0).
Proof.
  intros Hadd HQ Hk Hwf He Hn.
  eapply (adder_loop_total G Q n sz); [intros; apply Hadd; lia|done| |done|done|].
  - by apply empty_from_S.
  - rewrite <- (arg_locs_length _ (wf_layout_arg_at l n Hwf Hn)), empty_arg_at by done.
    unfold POLY_ABI_LOC_MAX_PARTS. simpl. lia.
Qed.

Definition any_cursor : abi_cursor -> Prop := fun _ => True.

(** The fall-back of every classifier: the whole argument on the stack. *)
Lemma stack_adder (G : Z) (n : nat) (size align : Z) :
  align <= 8 \/ align = 16 ->
  adder G any_cursor any_cursor n size
    (fun '(out, cursor) => add_arg_loc_with n (stack_loc cursor size align) out).
Proof.
  intros Ha l c _. exists (stack_loc c size align).1, (stack_loc c size align).2.
  split_and!; [by apply alloc_stack|done|done|done].
Qed.

Lemma size_class_align (size : Z) :
  (if size >=? 16 then 16 else 8) <= 8 \/ (if size >=? 16 then 16 else 8) = 16.
Proof. destruct (size >=? 16); lia. Qed.

(** Results in one register. *)
Lemma regs_result_one (t : poly_abi_type) (kind : poly_abi_loc_kind) :
  wf_type t ->
  kind = POLY_ABI_LOC_GPR \/ kind = POLY_ABI_LOC_FPR \/ kind = POLY_ABI_LOC_VEC ->
  regs_result t [poly_abi_loc_reg kind 0 (ty_size t)].
Proof.
  intros Ht Hk. pose proof (wf_size _ Ht).
  split_and!.
  - destruct Hk as [-> | Hk]; eexists; apply alloc_seq_one.
    + eapply (alloc_gpr 8 zero_cursor). simpl. lia.
    + eapply (alloc_fpr 8 zero_cursor kind); [tauto|simpl; lia].
  - repeat constructor; simpl; [lia|]. destruct Hk as [-> | [-> | ->]]; done.
  - simpl. unfold ARG_STACK_COST, MAX_ABI_BYTES in *. lia.
  - intros _. simpl. lia.
Qed.

Lemma regs_result_void (t : poly_abi_type) :
  wf_type t -> ty_kind t = POLY_ABI_TYPE_VOID -> regs_result t [].
Proof.
  intros Ht Hk. split_and!; [eexists; constructor|constructor|done|].
  intros _. by rewrite (wf_void _ Ht Hk).
Qed.

(** Results in several consecutive registers of one file. *)
Lemma regs_result_seq (t : poly_abi_type) (kind : poly_abi_loc_kind) (sz : nat -> Z) (k : nat) :
  kind = POLY_ABI_LOC_GPR \/ kind = POLY_ABI_LOC_FPR -> (k <= 4)%nat ->
  Forall (fun s => 0 <= s <= 16) (sz <$> seq 0 k) ->
  (tiled t -> sum_sizes (sz <$> seq 0 k) = ty_size t) ->
  regs_result t ((fun n => poly_abi_loc_reg kind (Z.of_nat n) (sz n)) <$> seq 0 k).
Proof.
  intros Hk Hlen Hb Hsum.
  set (locs := (fun n => poly_abi_loc_reg kind (Z.of_nat n) (sz n)) <$> seq 0 k).
  assert (loc_size <$> locs = sz <$> seq 0 k) as Hs.
  { unfold locs. rewrite <- list_fmap_compose. done. }
  rewrite <- Hs in Hb, Hsum.
  assert (length locs <= 4)%nat as Hl.
  { unfold locs. by rewrite length_fmap, length_seq. }
  destruct (small_parts_cost locs Hl Hb) as [H1 H2].
  split_and!; [|apply Forall_and; split; [done|]|done|done].
  - destruct Hk as [-> | ->]; eexists.
    + apply (gpr_seq_alloc sz k 0). lia.
    + apply (fpr_seq_alloc sz k 0). lia.
  - unfold locs. apply Forall_fmap, Forall_true. intros j.
    destruct Hk as [-> | ->]; done.
Qed.

(** What the guard of the HFA branches establishes on well-formed types. *)
Lemma wf_hfa_parts (t : poly_abi_type) :
  wf_type t -> ty_kind t = POLY_ABI_TYPE_HFA ->
  bad_hfa t = false /\ 1 <= ty_count t <= 4 /\ 0 <= hfa_elem_size t <= 16 /\
  sum_sizes ((fun _ => hfa_elem_size t) <$> seq 0 (Z.to_nat (ty_count t))) = ty_size t /\
  Forall (fun s => 0 <= s <= 16) ((fun _ => hfa_elem_size t) <$> seq 0 (Z.to_nat (ty_count t))).
Proof.
  intros Ht Hk. destruct (wf_hfa _ Ht Hk) as (Hf & Hc & Hs).
  assert (0 <= hfa_elem_size t <= 16).
  { unfold hfa_elem_size. destruct (ty_elem_kind t); simpl; lia. }
  split_and!; [|lia|lia|lia|lia| |].
  - unfold bad_hfa, POLY_ABI_LOC_MAX_PARTS. rewrite Hf. cbn [negb orb].
    destruct (Z.eqb_spec (ty_count t) 0), (Z.gtb_spec (ty_count t) (Z.of_nat 4)); [lia..|done].
  - rewrite sum_sizes_const. unfold hfa_elem_size. lia.
  - apply Forall_fmap, Forall_true. simpl. lia.
Qed.

(** ** Tactics for the branches of a classifier *)

(** An argument that takes one location by the adder lemma [add]. *)
Ltac one_loc_arg add := by eapply arg_done_single; [apply add|..].
Ltac one_loc_total add := by eapply arg_total_single; [apply add|..].

(** A result in one register. *)
Ltac one_reg_result :=
  left; eexists; split; [by apply add_ret_loc_extends|apply regs_result_one; tauto].

Lemma ret_one_total (loc : poly_abi_loc) (l : poly_abi_layout) :
  lay_ret_count l = 0%nat -> exists l', poly_abi_layout_add_ret_loc loc l = (l', 0).
Proof.
  intros H0. destruct (add_ret_loc_total loc l) as (l' & Hl' & _); [|by exists l'].
  rewrite H0. unfold POLY_ABI_LAYOUT_MAX_RET. lia.
Qed.

Lemma ret_sret_total (reg size : Z) (l : poly_abi_layout) :
  lay_ret_count l = 0%nat ->
  exists l', (modify set_uses_sret ;;;
    poly_abi_layout_add_ret_loc (poly_abi_loc_sret_ptr reg size)) l = (l', 0).
Proof.
  intros H0. destruct (ret_one_total (poly_abi_loc_sret_ptr reg size) (set_uses_sret l))
    as [l' Hl']; [done|]. exists l'. apply andthen_ok. by eexists.
Qed.

Lemma ret_sret_extends (reg size : Z) (l l' : poly_abi_layout) :
  wf_layout l ->
  (modify set_uses_sret ;;;
    poly_abi_layout_add_ret_loc (poly_abi_loc_sret_ptr reg size)) l = (l', 0) ->
  ret_extends (set_uses_sret l) [poly_abi_loc_sret_ptr reg size] l'.
Proof.
  intros Hwf Hrun. apply andthen_ok in Hrun as (l1 & H1 & H2).
  unfold modify in H1. simplify_eq. by apply add_ret_loc_extends.
Qed.
