(* ===== verification/AbiX86.v ===== *)
(** The x86-64 System V classifier, [tools/runtime/abi/poly_abi_x86_sysv.c]:
    six integer argument registers, eight SSE registers, small aggregates
    passed field by field, small HFAs in eight-byte SSE parts, everything else
    on the stack. *)

From S2P Require Import Prelude AbiType AbiCursor.

Definition x86_add_arg_loc (arg_index : nat) (kind : poly_abi_loc_kind) (size : Z)
    : cmd classify_state := fun '(out, cursor) =>
  if bool_decide (kind = POLY_ABI_LOC_GPR) && (cur_gpr cursor <? 6) then
    add_arg_loc_with arg_index (take_gpr kind cursor size) out
  else if (bool_decide (kind = POLY_ABI_LOC_FPR) || bool_decide (kind = POLY_ABI_LOC_VEC))
          && (cur_fpr cursor <? 8) then
    add_arg_loc_with arg_index (take_fpr kind cursor size) out
  else
    add_arg_loc_with arg_index
      (stack_loc cursor size (if size >=? 16 then 16 else 8)) out.

Definition x86_field_loc_kind (f : poly_abi_field) : poly_abi_loc_kind :=
  if is_float_kind (fld_kind f) then POLY_ABI_LOC_FPR else POLY_ABI_LOC_GPR.

Definition x86_classify_arg (type : poly_abi_type) (arg_index : nat)
    : cmd classify_state :=
  if is_integer_kind (ty_kind type) then
    x86_add_arg_loc arg_index POLY_ABI_LOC_GPR (ty_size type)
  else if is_float_kind (ty_kind type) then
    x86_add_arg_loc arg_index POLY_ABI_LOC_FPR (ty_size type)
  else if bool_decide (ty_kind type = POLY_ABI_TYPE_VEC128) then
    x86_add_arg_loc arg_index POLY_ABI_LOC_VEC (ty_size type)
  else if bool_decide (ty_kind type = POLY_ABI_TYPE_AGGREGATE) &&
          (ty_size type <=? 16) && (ty_field_count type >? 0) then
    for_from 0 (Z.to_nat (ty_field_count type)) (fun n =>
      let f := ty_fields type !!! n in
      x86_add_arg_loc arg_index (x86_field_loc_kind f) (fld_size f))
  else if bool_decide (ty_kind type = POLY_ABI_TYPE_HFA) && (ty_size type <=? 16) then
    for_from 0 (Z.to_nat (part_count (ty_size type))) (fun n =>
      x86_add_arg_loc arg_index POLY_ABI_LOC_FPR (part_size (ty_size type) n))
  else fun '(out, cursor) =>
    add_arg_loc_with arg_index (stack_loc cursor (ty_size type) (ty_align type)) out.

Definition x86_add_ret_loc (kind : poly_abi_loc_kind) (reg size : Z)
    : cmd poly_abi_layout :=
  poly_abi_layout_add_ret_loc (poly_abi_loc_reg kind reg size).

(** The loop over the fields of a returned aggregate, with its two register
    counters. *)
Fixpoint x86_ret_fields (fields : list poly_abi_field) (gpr fpr : Z)
    : cmd poly_abi_layout :=
  match fields with
  | [] => ret0
  | f :: fields' =>
      if is_float_kind (fld_kind f) then
        x86_add_ret_loc POLY_ABI_LOC_FPR fpr (fld_size f) ;;;
        x86_ret_fields fields' gpr (u8 (fpr + 1))
      else
        x86_add_ret_loc POLY_ABI_LOC_GPR gpr (fld_size f) ;;;
        x86_ret_fields fields' (u8 (gpr + 1)) fpr
  end.

Definition x86_classify_ret (type : poly_abi_type) : cmd poly_abi_layout :=
  if bool_decide (ty_kind type = POLY_ABI_TYPE_VOID) then ret0
  else if is_integer_kind (ty_kind type) then
    x86_add_ret_loc POLY_ABI_LOC_GPR 0 (ty_size type)
  else if is_float_kind (ty_kind type) then
    x86_add_ret_loc POLY_ABI_LOC_FPR 0 (ty_size type)
  else if bool_decide (ty_kind type = POLY_ABI_TYPE_VEC128) then
    x86_add_ret_loc POLY_ABI_LOC_VEC 0 (ty_size type)
  else if bool_decide (ty_kind type = POLY_ABI_TYPE_AGGREGATE) &&
          (ty_size type <=? 16) && (ty_field_count type >? 0) then
    x86_ret_fields (take (Z.to_nat (ty_field_count type)) (ty_fields type)) 0 0
  else if bool_decide (ty_kind type = POLY_ABI_TYPE_HFA) && (ty_size type <=? 16) then
    for_from 0 (Z.to_nat (part_count (ty_size type))) (fun n =>
      x86_add_ret_loc POLY_ABI_LOC_FPR (Z.of_nat n) (part_size (ty_size type) n))
  else
    modify set_uses_sret ;;;
    poly_abi_layout_add_ret_loc (poly_abi_loc_sret_ptr 0 (ty_size type)).

(** The classifier: [sig] and [out] are pointers that may be null. *)
Definition poly_classify_x86_sysv_call_abi (sig : option poly_function_sig)
    (out : option poly_abi_layout) : option poly_abi_layout * Z :=
  match sig, out with
  | Some sig, Some out0 =>
      if (POLY_FUNCTION_SIG_MAX_ARGS <? sig_arg_count sig)%nat then (Some out0, -1)
      else
        let l0 := poly_abi_layout_init POLY_ABI_ARCH_X86 in
        let '(l1, gpr, r) :=
          if ret_by_sret sig then
            let '(l, r) := poly_abi_layout_add_ret_loc
              (poly_abi_loc_sret_ptr 0 (ty_size (sig_ret sig))) (set_uses_sret l0) in
            (l, 1, r)
          else let '(l, r) := x86_classify_ret (sig_ret sig) l0 in (l, 0, r) in
        if negb (r =? 0) then (Some l1, -1)
        else
          let '((l2, cursor), r2) :=
            for_from 0 (sig_arg_count sig)
              (fun n => x86_classify_arg (sig_args sig !!! n) n)
              (l1, MkCursor gpr 0 0) in
          if negb (r2 =? 0) then (Some l2, -1)
          else (Some (set_stack_arg_size (cur_stack cursor) l2), 0)
  | _, _ => (out, -1)
  end.

(** ** The classifier laws *)

Lemma x86_adder (n : nat) (kind : poly_abi_loc_kind) (size : Z) :
  adder 6 any_cursor any_cursor n size (x86_add_arg_loc n kind size).
Proof.
  intros l c _. unfold x86_add_arg_loc.
  destruct (bool_decide (kind = POLY_ABI_LOC_GPR)) eqn:Hk; simpl;
    [apply bool_decide_eq_true in Hk as ->|].
  - destruct (Z.ltb_spec (cur_gpr c) 6).
    + eexists _, _. split_and!; [by apply (alloc_gpr 6 c size)|done..].
    + eexists _, _. split_and!; [apply (alloc_stack 6 c size), size_class_align|done..].
  - destruct ((_ || _) && _) eqn:Hf.
    + apply andb_prop in Hf as [Hf Hlt]. apply Z.ltb_lt in Hlt.
      apply orb_prop in Hf. eexists _, _.
      split_and!; [apply (alloc_fpr 6 c kind size); [|done]|done..].
      destruct Hf as [Hf | Hf]; apply bool_decide_eq_true in Hf; tauto.
    + eexists _, _. split_and!; [apply (alloc_stack 6 c size), size_class_align|done..].
Qed.

(** The sizes of the fields the aggregate loop visits. *)
Lemma x86_field_sizes (t : poly_abi_type) :
  wf_type t -> ty_size t <= 16 ->
  let sz := fun n => fld_size (ty_fields t !!! n) in
  let k := Z.to_nat (ty_field_count t) in
  sz <$> seq 0 k = fld_size <$> take k (ty_fields t) /\ (k <= 4)%nat /\
  Forall (fun s => 0 <= s <= 16) (sz <$> seq 0 k).
Proof.
  intros Ht Hs sz k. pose proof (wf_field_count _ Ht). pose proof (wf_fields_len _ Ht) as Hlen.
  assert (k <= 4)%nat as Hk by lia.
  assert (sz <$> seq 0 k = fld_size <$> take k (ty_fields t)) as Heq.
  { apply list_eq. intros i. rewrite !list_lookup_fmap.
    destruct (decide (i < k)%nat) as [Hi|Hi].
    - rewrite lookup_seq_lt, lookup_take_lt by lia. simpl.
      rewrite (list_lookup_lookup_total_lt (ty_fields t) i);
        [done|unfold POLY_ABI_TYPE_MAX_FIELDS in Hlen; lia].
    - rewrite lookup_seq_ge, lookup_take_ge by lia. done. }
  split_and!; [done|done|]. rewrite Heq. apply Forall_fmap.
  apply Forall_take. eapply Forall_impl; [apply (wf_field_sizes _ Ht)|]. simpl. lia.
Qed.

Lemma x86_arg_sound t n l c l' c' :
  wf_type t -> wf_layout l -> empty_from (S n) l ->
  x86_classify_arg t n (l, c) = ((l', c'), 0) -> arg_done 6 t n l c l' c'.
Proof.
  intros Ht Hwf He Hrun. unfold x86_classify_arg in Hrun.
  destruct (is_integer_kind _); [one_loc_arg x86_adder|].
  destruct (is_float_kind _); [one_loc_arg x86_adder|].
  destruct (bool_decide _); [one_loc_arg x86_adder|].
  destruct (bool_decide (_ = POLY_ABI_TYPE_AGGREGATE) && _ && _) eqn:Ha;
    [|destruct (bool_decide (_ = POLY_ABI_TYPE_HFA) && _) eqn:Hh].
  + breflect. destruct (x86_field_sizes t Ht ltac:(lia)) as (Heq & Hk & Hb).
    refine (arg_done_loop 6 (fun _ => any_cursor) _ t n _ _ _ _ _ _ _ I Hk Hb _ Hwf He Hrun);
      [intros; apply x86_adder|].
    rewrite Heq. intros Htile. apply Htile; [by eapply bool_decide_eq_true_1|lia..].
  + breflect. pose proof (wf_size _ Ht).
    destruct (part_sizes_sum (ty_size t) ltac:(lia)) as [Hsum Hb].
    destruct (part_count_small (ty_size t) ltac:(lia)) as [_ Hc].
    refine (arg_done_loop 6 (fun _ => any_cursor) _ t n _ _ _ _ _ _ _ I _ Hb _ Hwf He Hrun);
      [intros; apply x86_adder|lia|done].
  + refine (arg_done_single 6 _ _ t n _ l c l' c' (stack_adder 6 n _ (ty_align t) _) I Ht Hwf He Hrun).
    pose proof (wf_align _ Ht). lia.
Qed.

Lemma x86_arg_total t n l c :
  wf_type t -> wf_layout l -> empty_from n l -> (n < POLY_ABI_LAYOUT_MAX_ARGS)%nat ->
  exists l' c', x86_classify_arg t n (l, c) = ((l', c'), 0).
Proof.
  intros Ht Hwf He Hn. unfold x86_classify_arg.
  destruct (is_integer_kind _); [one_loc_total x86_adder|].
  destruct (is_float_kind _); [one_loc_total x86_adder|].
  destruct (bool_decide _); [one_loc_total x86_adder|].
  destruct (bool_decide (_ = POLY_ABI_TYPE_AGGREGATE) && _ && _) eqn:Ha;
    [|destruct (bool_decide (_ = POLY_ABI_TYPE_HFA) && _) eqn:Hh].
  + breflect. pose proof (wf_field_count _ Ht).
    eapply (arg_total_loop 6 (fun _ => any_cursor)); [intros; apply x86_adder|done|lia|done..].
  + breflect. pose proof (wf_size _ Ht).
    destruct (part_count_small (ty_size t) ltac:(lia)) as [_ Hc].
    eapply (arg_total_loop 6 (fun _ => any_cursor)); [intros; apply x86_adder|done|lia|done..].
  + refine (arg_total_single 6 _ _ _ n _ l c (stack_adder 6 n _ (ty_align t) _) I Hwf He Hn).
    pose proof (wf_align _ Ht). lia.
Qed.

#[export] Instance x86_arg_classifier : ArgClassifier 6 x86_classify_arg.
Proof.
  constructor; [lia|intros; by apply x86_arg_sound|intros; by apply x86_arg_total].
Qed.

(** The field loop of a returned aggregate takes registers in order. *)
Lemma x86_ret_fields_sound (fields : list poly_abi_field) : forall gpr fpr l l',
  0 <= gpr -> 0 <= fpr -> gpr + fpr + Z.of_nat (length fields) <= 8 -> wf_layout l ->
  x86_ret_fields fields gpr fpr l = (l', 0) ->
  exists locs c, ret_extends l locs l' /\ alloc_seq 8 (MkCursor gpr fpr 0) locs c /\
    loc_size <$> locs = fld_size <$> fields /\ Forall (fun x => is_stack x = false) locs.
Proof.
  induction fields as [|f fields IH]; intros gpr fpr l l' Hg Hf Hb Hwf Hrun; simpl in Hrun.
  - unfold ret0 in Hrun. simplify_eq. eexists [], _.
    split_and!; [by apply ret_extends_nil|constructor|done|constructor].
  - simpl in Hb. destruct (is_float_kind (fld_kind f)).
    all: apply andthen_ok in Hrun as (l1 & H1 & H2);
      apply add_ret_loc_extends in H1 as He; [|done];
      rewrite wrap_small in H2 by (unfold in_width; lia);
      apply IH in H2 as (locs & c & He2 & Hal & Hsz & Hns); [|lia|lia|lia|apply He];
      eexists (_ :: locs), c;
      (split_and!; [by eapply (ret_extends_app _ _ _ [_])| |by rewrite !fmap_cons, Hsz|by constructor]).
    + eapply alloc_cons;
        [apply (alloc_fpr 8 (MkCursor gpr fpr 0) POLY_ABI_LOC_FPR); [by left|simpl; lia]|].
      simpl. by rewrite wrap_small by (unfold in_width; lia).
    + eapply alloc_cons; [apply (alloc_gpr 8 (MkCursor gpr fpr 0)); simpl; lia|].
      simpl. by rewrite wrap_small by (unfold in_width; lia).
Qed.

Lemma x86_ret_fields_total (fields : list poly_abi_field) : forall gpr fpr l,
  (lay_ret_count l + length fields <= POLY_ABI_LAYOUT_MAX_RET)%nat ->
  exists l', x86_ret_fields fields gpr fpr l = (l', 0).
Proof.
  induction fields as [|f fields IH]; intros gpr fpr l Hl; simpl; [by eexists|].
  simpl in Hl. unfold x86_add_ret_loc. destruct (is_float_kind (fld_kind f)).
  - destruct (add_ret_loc_total (poly_abi_loc_reg POLY_ABI_LOC_FPR fpr (fld_size f)) l)
      as (l1 & H1 & Hc); [lia|].
    destruct (IH gpr (u8 (fpr + 1)) l1) as [l' H2]; [lia|].
    exists l'. apply andthen_ok. eauto.
  - destruct (add_ret_loc_total (poly_abi_loc_reg POLY_ABI_LOC_GPR gpr (fld_size f)) l)
      as (l1 & H1 & Hc); [lia|].
    destruct (IH (u8 (gpr + 1)) fpr l1) as [l' H2]; [lia|].
    exists l'. apply andthen_ok. eauto.
Qed.

Lemma x86_ret_sound t l l' :
  wf_type t -> wf_layout l -> x86_classify_ret t l = (l', 0) ->
  (exists locs, ret_extends l locs l' /\ regs_result t locs) \/
  ret_extends (set_uses_sret l) [poly_abi_loc_sret_ptr 0 (ty_size t)] l'.
Proof.
  intros Ht Hwf Hrun. unfold x86_classify_ret, x86_add_ret_loc in Hrun.
  destruct (bool_decide (_ = POLY_ABI_TYPE_VOID)) eqn:Hv.
  { unfold ret0 in Hrun. simplify_eq. left. exists []. apply bool_decide_eq_true in Hv.
    split; [by apply ret_extends_nil|by apply regs_result_void]. }
  destruct (is_integer_kind _);
    [one_reg_result|].
  destruct (is_float_kind _);
    [one_reg_result|].
  destruct (bool_decide (_ = POLY_ABI_TYPE_VEC128));
    [one_reg_result|].
  destruct (bool_decide (_ = POLY_ABI_TYPE_AGGREGATE) && _ && _) eqn:Ha;
    [|destruct (bool_decide (_ = POLY_ABI_TYPE_HFA) && _) eqn:Hh].
  + breflect. left. destruct (x86_field_sizes t Ht ltac:(lia)) as (Heq & Hk & Hb).
    apply x86_ret_fields_sound in Hrun as (locs & c & He & Hal & Hsz & Hns);
      [|lia|lia|rewrite length_take; lia|done].
    exists locs. split; [done|]. rewrite Heq, <- Hsz in Hb.
    assert (length locs <= 4)%nat as Hlen.
    { rewrite <- (length_fmap loc_size), Hsz, length_fmap, length_take. lia. }
    destruct (small_parts_cost locs Hlen Hb) as [? ?].
    split_and!; [by exists c|by apply Forall_and|done|].
    intros Htile. rewrite Hsz. apply Htile; [by eapply bool_decide_eq_true_1|lia..].
  + breflect. left. pose proof (wf_size _ Ht).
    destruct (part_sizes_sum (ty_size t) ltac:(lia)) as [Hsum Hb].
    destruct (part_count_small (ty_size t) ltac:(lia)) as [_ Hc].
    eexists. split; [by apply (ret_loop_extends POLY_ABI_LOC_FPR)|].
    apply regs_result_seq; [tauto|lia|done|done].
  + right. by apply ret_sret_extends.
Qed.

Lemma x86_ret_total t l :
  wf_type t -> lay_ret_count l = 0%nat -> exists l', x86_classify_ret t l = (l', 0).
Proof.
  intros Ht H0. unfold x86_classify_ret, x86_add_ret_loc.
  destruct (bool_decide (_ = POLY_ABI_TYPE_VOID)); [by eexists|].
  destruct (is_integer_kind _); [by apply ret_one_total|].
  destruct (is_float_kind _); [by apply ret_one_total|].
  destruct (bool_decide (_ = POLY_ABI_TYPE_VEC128)); [by apply ret_one_total|].
  pose proof (wf_field_count _ Ht). pose proof (wf_size _ Ht).
  destruct (bool_decide (_ = POLY_ABI_TYPE_AGGREGATE) && _ && _) eqn:Ha;
    [|destruct (bool_decide (_ = POLY_ABI_TYPE_HFA) && _) eqn:Hh].
  + apply x86_ret_fields_total. rewrite length_take, H0. unfold POLY_ABI_LAYOUT_MAX_RET. lia.
  + breflect. destruct (part_count_small (ty_size t) ltac:(lia)) as [_ Hc].
    apply (ret_loop_total (fun n => poly_abi_loc_reg POLY_ABI_LOC_FPR (Z.of_nat n) _)).
    rewrite H0. unfold POLY_ABI_LAYOUT_MAX_RET. lia.
  + by apply ret_sret_total.
Qed.

#[export] Instance x86_ret_classifier : RetClassifier 0 x86_classify_ret.
Proof. constructor; [exact x86_ret_sound|intros; by apply x86_ret_total]. Qed.
