(* ===== verification/AbiAArch64.v ===== *)
(** The AArch64 AAPCS64 classifier, [tools/runtime/abi/poly_abi_aarch64.c]:
    eight integer and eight FP/SIMD argument registers, homogeneous FP
    aggregates all in registers or all on the stack, small aggregates in
    eight-byte integer parts, indirect results through register x8. *)

From S2P Require Import Prelude AbiType AbiCursor.

Definition aarch64_add_arg_loc (arg_index : nat) (kind : poly_abi_loc_kind) (size : Z)
    : cmd classify_state := fun '(out, cursor) =>
  if bool_decide (kind = POLY_ABI_LOC_GPR) && (cur_gpr cursor <? 8) then
    add_arg_loc_with arg_index (take_gpr kind cursor size) out
  else if (bool_decide (kind = POLY_ABI_LOC_FPR) || bool_decide (kind = POLY_ABI_LOC_VEC))
          && (cur_fpr cursor <? 8) then
    add_arg_loc_with arg_index (take_fpr kind cursor size) out
  else
    add_arg_loc_with arg_index
      (stack_loc cursor size (if size >=? 16 then 16 else 8)) out.

Definition aarch64_classify_hfa_arg (type : poly_abi_type) (arg_index : nat)
    : cmd classify_state := fun '(out, cursor) =>
  if bad_hfa type then ((out, cursor), -1)
  else if cur_fpr cursor + ty_count type <=? 8 then
    for_from 0 (Z.to_nat (ty_count type))
      (fun _ '(out, cursor) =>
         add_arg_loc_with arg_index
           (take_fpr POLY_ABI_LOC_FPR cursor (hfa_elem_size type)) out)
      (out, cursor)
  else
    add_arg_loc_with arg_index (stack_loc cursor (ty_size type) (ty_align type)) out.

Definition aarch64_classify_arg (type : poly_abi_type) (arg_index : nat)
    : cmd classify_state :=
  if is_integer_kind (ty_kind type) then
    aarch64_add_arg_loc arg_index POLY_ABI_LOC_GPR (ty_size type)
  else if is_float_kind (ty_kind type) then
    aarch64_add_arg_loc arg_index POLY_ABI_LOC_FPR (ty_size type)
  else if bool_decide (ty_kind type = POLY_ABI_TYPE_VEC128) then
    aarch64_add_arg_loc arg_index POLY_ABI_LOC_VEC (ty_size type)
  else if bool_decide (ty_kind type = POLY_ABI_TYPE_HFA) then
    aarch64_classify_hfa_arg type arg_index
  else if bool_decide (ty_kind type = POLY_ABI_TYPE_AGGREGATE) &&
          (ty_size type <=? 16) then
    for_from 0 (Z.to_nat (part_count (ty_size type))) (fun n =>
      aarch64_add_arg_loc arg_index POLY_ABI_LOC_GPR (part_size (ty_size type) n))
  else fun '(out, cursor) =>
    add_arg_loc_with arg_index (stack_loc cursor (ty_size type) (ty_align type)) out.

Definition aarch64_classify_ret (type : poly_abi_type) : cmd poly_abi_layout :=
  if bool_decide (ty_kind type = POLY_ABI_TYPE_VOID) then ret0
  else if is_integer_kind (ty_kind type) then
    poly_abi_layout_add_ret_loc (poly_abi_loc_reg POLY_ABI_LOC_GPR 0 (ty_size type))
  else if is_float_kind (ty_kind type) then
    poly_abi_layout_add_ret_loc (poly_abi_loc_reg POLY_ABI_LOC_FPR 0 (ty_size type))
  else if bool_decide (ty_kind type = POLY_ABI_TYPE_VEC128) then
    poly_abi_layout_add_ret_loc (poly_abi_loc_reg POLY_ABI_LOC_VEC 0 (ty_size type))
  else if bool_decide (ty_kind type = POLY_ABI_TYPE_HFA) then
    if bad_hfa type then fail
    else for_from 0 (Z.to_nat (ty_count type)) (fun n =>
      poly_abi_layout_add_ret_loc
        (poly_abi_loc_reg POLY_ABI_LOC_FPR (Z.of_nat n) (hfa_elem_size type)))
  else if bool_decide (ty_kind type = POLY_ABI_TYPE_AGGREGATE) &&
          (ty_size type <=? 16) then
    for_from 0 (Z.to_nat (part_count (ty_size type))) (fun n =>
      poly_abi_layout_add_ret_loc
        (poly_abi_loc_reg POLY_ABI_LOC_GPR (Z.of_nat n) (part_size (ty_size type) n)))
  else
    modify set_uses_sret ;;;
    poly_abi_layout_add_ret_loc (poly_abi_loc_sret_ptr 8 (ty_size type)).

Definition poly_classify_aarch64_call_abi (sig : option poly_function_sig)
    (out : option poly_abi_layout) : option poly_abi_layout * Z :=
  match sig, out with
  | Some sig, Some out0 =>
      if (POLY_FUNCTION_SIG_MAX_ARGS <? sig_arg_count sig)%nat then (Some out0, -1)
      else
        let l0 := poly_abi_layout_init POLY_ABI_ARCH_AARCH64 in
        let '(l1, r) :=
          if ret_by_sret sig then
            poly_abi_layout_add_ret_loc
              (poly_abi_loc_sret_ptr 8 (ty_size (sig_ret sig))) (set_uses_sret l0)
          else aarch64_classify_ret (sig_ret sig) l0 in
        if negb (r =? 0) then (Some l1, -1)
        else
          let '((l2, cursor), r2) :=
            for_from 0 (sig_arg_count sig)
              (fun n => aarch64_classify_arg (sig_args sig !!! n) n)
              (l1, zero_cursor) in
          if negb (r2 =? 0) then (Some l2, -1)
          else (Some (set_stack_arg_size (align_to (cur_stack cursor) 16) l2), 0)
  | _, _ => (out, -1)
  end.

(** ** The classifier laws *)

Lemma aarch64_adder (n : nat) (kind : poly_abi_loc_kind) (size : Z) :
  adder 8 any_cursor any_cursor n size (aarch64_add_arg_loc n kind size).
Proof.
  intros l c _. unfold aarch64_add_arg_loc.
  destruct (bool_decide (kind = POLY_ABI_LOC_GPR)) eqn:Hk; simpl;
    [apply bool_decide_eq_true in Hk as ->|].
  - destruct (Z.ltb_spec (cur_gpr c) 8).
    + eexists _, _. split_and!; [by apply (alloc_gpr 8 c size)|done..].
    + eexists _, _. split_and!; [apply (alloc_stack 8 c size), size_class_align|done..].
  - destruct ((_ || _) && _) eqn:Hf.
    + apply andb_prop in Hf as [Hf Hlt]. apply Z.ltb_lt in Hlt.
      apply orb_prop in Hf. eexists _, _.
      split_and!; [apply (alloc_fpr 8 c kind size); [|done]|done..].
      destruct Hf as [Hf | Hf]; apply bool_decide_eq_true in Hf; tauto.
    + eexists _, _. split_and!; [apply (alloc_stack 8 c size), size_class_align|done..].
Qed.

(** The register loop of an HFA that fits: the cursor stays within the file. *)
Definition hfa_room (count : Z) (j : nat) (c : abi_cursor) : Prop :=
  0 <= cur_fpr c /\ cur_fpr c + (count - Z.of_nat j) <= 8.

Lemma hfa_adder (n : nat) (count size : Z) (j : nat) :
  Z.of_nat j < count ->
  adder 8 (hfa_room count j) (hfa_room count (S j)) n size
    (fun '(out, cursor) => add_arg_loc_with n (take_fpr POLY_ABI_LOC_FPR cursor size) out).
Proof.
  intros Hj l c [H0 H1]. exists (take_fpr POLY_ABI_LOC_FPR c size).1, (take_fpr POLY_ABI_LOC_FPR c size).2.
  split_and!; [apply alloc_fpr; [by left|lia]|done| |done].
  unfold hfa_room. simpl. rewrite wrap_small by (unfold in_width; lia). lia.
Qed.

Lemma aarch64_hfa_sound t n l c l' c' :
  wf_type t -> ty_kind t = POLY_ABI_TYPE_HFA -> wf_layout l -> empty_from (S n) l ->
  cursor_ok 8 c -> aarch64_classify_hfa_arg t n (l, c) = ((l', c'), 0) ->
  arg_done 8 t n l c l' c'.
Proof.
  intros Ht Hk Hwf He Hok Hrun.
  destruct (wf_hfa_parts t Ht Hk) as (Hbad & Hc & Hel & Hsum & Hb).
  unfold aarch64_classify_hfa_arg in Hrun. rewrite Hbad in Hrun.
  destruct (Z.leb_spec (cur_fpr c + ty_count t) 8) as [Hfit|_].
  - refine (arg_done_loop 8 (hfa_room (ty_count t)) _ t n _ _ _ _ _ _ _ _ _ Hb (fun _ => Hsum)
      Hwf He Hrun); [intros; apply hfa_adder; lia| |lia].
    destruct Hok as (_ & Hf & _). unfold hfa_room. lia.
  - refine (arg_done_single 8 _ _ t n _ l c l' c' (stack_adder 8 n _ (ty_align t) _) I Ht Hwf He Hrun).
    pose proof (wf_align _ Ht). lia.
Qed.

Lemma aarch64_hfa_total t n l c :
  wf_type t -> ty_kind t = POLY_ABI_TYPE_HFA -> wf_layout l -> empty_from n l ->
  cursor_ok 8 c -> (n < POLY_ABI_LAYOUT_MAX_ARGS)%nat ->
  exists l' c', aarch64_classify_hfa_arg t n (l, c) = ((l', c'), 0).
Proof.
  intros Ht Hk Hwf He Hok Hn.
  destruct (wf_hfa_parts t Ht Hk) as (Hbad & Hc & Hel & Hsum & Hb).
  unfold aarch64_classify_hfa_arg. rewrite Hbad.
  destruct (Z.leb_spec (cur_fpr c + ty_count t) 8) as [Hfit|_].
  - eapply (arg_total_loop 8 (hfa_room (ty_count t)));
      [intros; apply hfa_adder; lia| |lia|done..].
    destruct Hok as (_ & Hf & _). unfold hfa_room. lia.
  - refine (arg_total_single 8 _ _ _ n _ l c (stack_adder 8 n _ (ty_align t) _) I Hwf He Hn).
    pose proof (wf_align _ Ht). lia.
Qed.

Lemma aarch64_arg_sound t n l c l' c' :
  wf_type t -> wf_layout l -> empty_from (S n) l -> cursor_ok 8 c ->
  aarch64_classify_arg t n (l, c) = ((l', c'), 0) -> arg_done 8 t n l c l' c'.
Proof.
  intros Ht Hwf He Hok Hrun. unfold aarch64_classify_arg in Hrun.
  destruct (is_integer_kind _); [one_loc_arg aarch64_adder|].
  destruct (is_float_kind _); [one_loc_arg aarch64_adder|].
  destruct (bool_decide (_ = POLY_ABI_TYPE_VEC128));
    [one_loc_arg aarch64_adder|].
  destruct (bool_decide (_ = POLY_ABI_TYPE_HFA)) eqn:Hh;
    [apply bool_decide_eq_true in Hh; by apply aarch64_hfa_sound|].
  destruct (bool_decide (_ = POLY_ABI_TYPE_AGGREGATE) && _) eqn:Ha.
  - breflect. pose proof (wf_size _ Ht).
    destruct (part_sizes_sum (ty_size t) ltac:(lia)) as [Hsum Hb].
    destruct (part_count_small (ty_size t) ltac:(lia)) as [_ Hc].
    refine (arg_done_loop 8 (fun _ => any_cursor) _ t n _ _ _ _ _ _ _ I _ Hb _ Hwf He Hrun);
      [intros; apply aarch64_adder|lia|done].
  - refine (arg_done_single 8 _ _ t n _ l c l' c' (stack_adder 8 n _ (ty_align t) _) I Ht Hwf He Hrun).
    pose proof (wf_align _ Ht). lia.
Qed.

Lemma aarch64_arg_total t n l c :
  wf_type t -> wf_layout l -> empty_from n l -> cursor_ok 8 c ->
  (n < POLY_ABI_LAYOUT_MAX_ARGS)%nat ->
  exists l' c', aarch64_classify_arg t n (l, c) = ((l', c'), 0).
Proof.
  intros Ht Hwf He Hok Hn. unfold aarch64_classify_arg.
  destruct (is_integer_kind _); [one_loc_total aarch64_adder|].
  destruct (is_float_kind _); [one_loc_total aarch64_adder|].
  destruct (bool_decide (_ = POLY_ABI_TYPE_VEC128));
    [one_loc_total aarch64_adder|].
  destruct (bool_decide (_ = POLY_ABI_TYPE_HFA)) eqn:Hh;
    [apply bool_decide_eq_true in Hh; by apply aarch64_hfa_total|].
  destruct (bool_decide (_ = POLY_ABI_TYPE_AGGREGATE) && _) eqn:Ha.
  - breflect. pose proof (wf_size _ Ht).
    destruct (part_count_small (ty_size t) ltac:(lia)) as [_ Hc].
    eapply (arg_total_loop 8 (fun _ => any_cursor));
      [intros; apply aarch64_adder|done|lia|done..].
  - refine (arg_total_single 8 _ _ _ n _ l c (stack_adder 8 n _ (ty_align t) _) I Hwf He Hn).
    pose proof (wf_align _ Ht). lia.
Qed.

#[export] Instance aarch64_arg_classifier : ArgClassifier 8 aarch64_classify_arg.
Proof.
  constructor; [lia|intros; by apply aarch64_arg_sound|intros; by apply aarch64_arg_total].
Qed.

Lemma aarch64_ret_sound t l l' :
  wf_type t -> wf_layout l -> aarch64_classify_ret t l = (l', 0) ->
  (exists locs, ret_extends l locs l' /\ regs_result t locs) \/
  ret_extends (set_uses_sret l) [poly_abi_loc_sret_ptr 8 (ty_size t)] l'.
Proof.
  intros Ht Hwf Hrun. unfold aarch64_classify_ret in Hrun.
  destruct (bool_decide (_ = POLY_ABI_TYPE_VOID)) eqn:Hv.
  { unfold ret0 in Hrun. simplify_eq. left. exists []. apply bool_decide_eq_true in Hv.
    split; [by apply ret_extends_nil|by apply regs_result_void]. }
  destruct (is_integer_kind _);
    [one_reg_result|].
  destruct (is_float_kind _);
    [one_reg_result|].
  destruct (bool_decide (_ = POLY_ABI_TYPE_VEC128));
    [one_reg_result|].
  destruct (bool_decide (_ = POLY_ABI_TYPE_HFA)) eqn:Hh.
  { apply bool_decide_eq_true in Hh. left.
    destruct (wf_hfa_parts t Ht Hh) as (Hbad & Hc & Hel & Hsum & Hb). rewrite Hbad in Hrun.
    eexists. split; [by apply (ret_loop_extends POLY_ABI_LOC_FPR (fun _ => hfa_elem_size t))|].
    apply (regs_result_seq _ _ (fun _ => hfa_elem_size t)); [tauto|lia|done|done]. }
  destruct (bool_decide (_ = POLY_ABI_TYPE_AGGREGATE) && _) eqn:Ha.
  - breflect. left. pose proof (wf_size _ Ht).
    destruct (part_sizes_sum (ty_size t) ltac:(lia)) as [Hsum Hb].
    destruct (part_count_small (ty_size t) ltac:(lia)) as [_ Hc].
    eexists. split; [by apply (ret_loop_extends POLY_ABI_LOC_GPR)|].
    apply regs_result_seq; [tauto|lia|done|done].
  - right. by apply ret_sret_extends.
Qed.

Lemma aarch64_ret_total t l :
  wf_type t -> lay_ret_count l = 0%nat -> exists l', aarch64_classify_ret t l = (l', 0).
Proof.
  intros Ht H0. unfold aarch64_classify_ret.
  destruct (bool_decide (_ = POLY_ABI_TYPE_VOID)); [by eexists|].
  destruct (is_integer_kind _); [by apply ret_one_total|].
  destruct (is_float_kind _); [by apply ret_one_total|].
  destruct (bool_decide (_ = POLY_ABI_TYPE_VEC128)); [by apply ret_one_total|].
  destruct (bool_decide (_ = POLY_ABI_TYPE_HFA)) eqn:Hh.
  { apply bool_decide_eq_true in Hh.
    destruct (wf_hfa_parts t Ht Hh) as (Hbad & Hc & _). rewrite Hbad.
    apply (ret_loop_total (fun n => poly_abi_loc_reg POLY_ABI_LOC_FPR (Z.of_nat n) _)).
    rewrite H0. unfold POLY_ABI_LAYOUT_MAX_RET. lia. }
  destruct (bool_decide (_ = POLY_ABI_TYPE_AGGREGATE) && _) eqn:Ha.
  - breflect. pose proof (wf_size _ Ht).
    destruct (part_count_small (ty_size t) ltac:(lia)) as [_ Hc].
    apply (ret_loop_total (fun n => poly_abi_loc_reg POLY_ABI_LOC_GPR (Z.of_nat n) _)).
    rewrite H0. unfold POLY_ABI_LAYOUT_MAX_RET. lia.
  - by apply ret_sret_total.
Qed.

#[export] Instance aarch64_ret_classifier : RetClassifier 8 aarch64_classify_ret.
Proof. constructor; [exact aarch64_ret_sound|intros; by apply aarch64_ret_total]. Qed.
