(* ===== verification/AbiClassify.v ===== *)
(** The dispatcher [poly_classify_call_abi] of
    [tools/runtime/abi/poly_abi_classify.c] and the properties of call
    classification that hold for all three architectures: it succeeds on
    well-formed signatures, the locations it assigns never overlap, they hold
    every byte of every argument, and it depends only on what
    [poly_function_sig_equal] compares. *)

From S2P Require Import Prelude AbiType AbiCursor AbiX86 AbiAArch64 AbiRiscv.

Definition poly_classify_call_abi (arch : Z) (sig : option poly_function_sig)
    (out : option poly_abi_layout) : option poly_abi_layout * Z :=
  if arch =? POLY_ABI_ARCH_X86 then poly_classify_x86_sysv_call_abi sig out
  else if arch =? POLY_ABI_ARCH_AARCH64 then poly_classify_aarch64_call_abi sig out
  else if arch =? POLY_ABI_ARCH_RISCV then poly_classify_riscv_lp64d_call_abi sig out
  else (out, -1).

(** ** The common shape of the three classifiers *)

(** Result first, then the argument loop, then the stack size; [sret_gpr] is
    the number of integer registers a hidden result pointer takes and [fin]
    the rounding of the stack size. *)
Definition classify_with (arch sret_reg sret_gpr : Z) (fin : Z -> Z)
    (classify_ret : poly_abi_type -> cmd poly_abi_layout)
    (classify_arg : poly_abi_type -> nat -> cmd classify_state)
    (sig : poly_function_sig) : poly_abi_layout * Z :=
  let l0 := poly_abi_layout_init arch in
  let '(l1, r) :=
    if ret_by_sret sig then
      poly_abi_layout_add_ret_loc
        (poly_abi_loc_sret_ptr sret_reg (ty_size (sig_ret sig))) (set_uses_sret l0)
    else classify_ret (sig_ret sig) l0 in
  if negb (r =? 0) then (l1, -1)
  else
    let '((l2, cursor), r2) :=
      for_from 0 (sig_arg_count sig) (fun n => classify_arg (sig_args sig !!! n) n)
        (l1, MkCursor (if ret_by_sret sig then sret_gpr else 0) 0 0) in
    if negb (r2 =? 0) then (l2, -1)
    else (set_stack_arg_size (fin (cur_stack cursor)) l2, 0).

Definition align16 (n : Z) : Z := align_to n 16.

(** What the three instances of the shape differ in. *)
Definition arch_classify (arch : Z) : poly_function_sig -> poly_abi_layout * Z :=
  if arch =? POLY_ABI_ARCH_X86 then
    classify_with arch 0 1 id x86_classify_ret x86_classify_arg
  else if arch =? POLY_ABI_ARCH_AARCH64 then
    classify_with arch 8 0 align16 aarch64_classify_ret aarch64_classify_arg
  else
    classify_with arch 0 1 align16 riscv_classify_ret riscv_classify_arg.

(** Integer argument registers of an architecture. *)
Definition arch_gprs (arch : Z) : Z := if arch =? POLY_ABI_ARCH_X86 then 6 else 8.

Definition valid_arch (arch : Z) : bool :=
  (arch =? POLY_ABI_ARCH_X86) || (arch =? POLY_ABI_ARCH_AARCH64) ||
  (arch =? POLY_ABI_ARCH_RISCV).

Lemma valid_arch_cases (arch : Z) : valid_arch arch = true ->
  arch = POLY_ABI_ARCH_X86 \/ arch = POLY_ABI_ARCH_AARCH64 \/ arch = POLY_ABI_ARCH_RISCV.
Proof.
  unfold valid_arch. intros H. apply orb_prop in H as [H | H];
    [apply orb_prop in H as [H | H]|]; apply Z.eqb_eq in H; tauto.
Qed.

Lemma classify_call_shape (arch : Z) (sig : poly_function_sig) (out : poly_abi_layout) :
  valid_arch arch = true -> (sig_arg_count sig <= POLY_FUNCTION_SIG_MAX_ARGS)%nat ->
  poly_classify_call_abi arch (Some sig) (Some out) =
    (let '(l, r) := arch_classify arch sig in (Some l, r)).
Proof.
  intros Hv Hc. assert ((POLY_FUNCTION_SIG_MAX_ARGS <? sig_arg_count sig)%nat = false) as Hlt
    by (apply Nat.ltb_ge; lia).
  destruct (valid_arch_cases arch Hv) as [-> | [-> | ->]];
    unfold poly_classify_call_abi, arch_classify, classify_with; cbn [Z.eqb];
    simpl (POLY_ABI_ARCH_X86 =? _); simpl (POLY_ABI_ARCH_AARCH64 =? _);
    simpl (POLY_ABI_ARCH_RISCV =? _); cbn iota.
  - unfold poly_classify_x86_sysv_call_abi. rewrite Hlt. unfold id.
    destruct (ret_by_sret sig);
      [destruct (poly_abi_layout_add_ret_loc _ _) as [l r]|destruct (x86_classify_ret _ _) as [l r]];
      (destruct (negb (r =? 0)); [done|]);
      destruct (for_from _ _ _ _) as [[l2 c2] r2]; by destruct (negb (r2 =? 0)).
  - unfold poly_classify_aarch64_call_abi, align16. rewrite Hlt.
    destruct (ret_by_sret sig);
      [destruct (poly_abi_layout_add_ret_loc _ _) as [l r]|destruct (aarch64_classify_ret _ _) as [l r]];
      (destruct (negb (r =? 0)); [done|]); unfold zero_cursor;
      destruct (for_from _ _ _ _) as [[l2 c2] r2]; by destruct (negb (r2 =? 0)).
  - unfold poly_classify_riscv_lp64d_call_abi, align16. rewrite Hlt.
    destruct (ret_by_sret sig);
      [destruct (poly_abi_layout_add_ret_loc _ _) as [l r]|destruct (riscv_classify_ret _ _) as [l r]];
      (destruct (negb (r =? 0)); [done|]);
      destruct (for_from _ _ _ _) as [[l2 c2] r2]; by destruct (negb (r2 =? 0)).
Qed.

(** ** What a classified layout promises *)

Record layout_ok (G : Z) (sig : poly_function_sig) (l : poly_abi_layout) : Prop := {
  lo_wf : wf_layout l;
  lo_disjoint : pairwise_disjoint (all_arg_locs l);
  lo_range : Forall (loc_in zero_cursor (MkCursor G 8 (lay_stack_arg_size l))) (all_arg_locs l);
  lo_covers : forall n, (n < sig_arg_count sig)%nat -> tiled (sig_args sig !!! n) ->
    sum_sizes (loc_size <$> arg_locs (lay_args l !!! n)) = ty_size (sig_args sig !!! n);
  lo_ret_disjoint : pairwise_disjoint (ret_locs l);
  lo_ret : (lay_uses_sret l = 1 /\
            exists r, ret_locs l = [poly_abi_loc_sret_ptr r (ty_size (sig_ret sig))]) \/
           (lay_uses_sret l = 0 /\ Forall (fun x => is_stack x = false) (ret_locs l) /\
            (tiled (sig_ret sig) ->
             sum_sizes (loc_size <$> ret_locs l) = ty_size (sig_ret sig)));
  lo_stack : 0 <= lay_stack_arg_size l <= 16 * ARG_STACK_COST + 15 /\
             lay_stack_arg_size l mod 8 = 0;
}.

(** The rounding of the stack size does not lose bytes. *)
Definition fin_ok (fin : Z -> Z) : Prop :=
  forall n, 0 <= n -> n + 16 <= 2 ^ 16 -> n mod 8 = 0 -> n <= fin n < n + 16 /\ fin n mod 8 = 0.

Lemma fin_ok_id : fin_ok id.
Proof. intros n H0 H1 H2. unfold id. lia. Qed.

Lemma fin_ok_align16 : fin_ok align16.
Proof.
  intros n H0 H1 H2. unfold align16.
  destruct (align_to_spec n 16 ltac:(lia) H0 H1) as [Hr Hm]. split; [done|].
  Z.to_euclidean_division_equations; lia.
Qed.

Section Shape.
Context (G arch sret_reg sret_gpr : Z) (fin : Z -> Z) (Hfin : fin_ok fin).
Context (HG : 0 <= sret_gpr <= G) (HG8 : G <= 8).
Context (classify_ret : poly_abi_type -> cmd poly_abi_layout).
Context (classify_arg : poly_abi_type -> nat -> cmd classify_state).
Context {RC : RetClassifier sret_reg classify_ret} {AC : ArgClassifier G classify_arg}.
Context (sig : poly_function_sig) (Hsig : wf_sig sig).

Definition ret_phase : poly_abi_layout * Z :=
  if ret_by_sret sig then
    poly_abi_layout_add_ret_loc
      (poly_abi_loc_sret_ptr sret_reg (ty_size (sig_ret sig)))
      (set_uses_sret (poly_abi_layout_init arch))
  else classify_ret (sig_ret sig) (poly_abi_layout_init arch).

Definition ret_phase_ok (l : poly_abi_layout) : Prop :=
  wf_layout l /\ empty_from 0 l /\ lay_arch l = arch /\ pairwise_disjoint (ret_locs l) /\
  ((lay_uses_sret l = 1 /\
    ret_locs l = [poly_abi_loc_sret_ptr sret_reg (ty_size (sig_ret sig))]) \/
   (lay_uses_sret l = 0 /\ Forall (fun x => is_stack x = false) (ret_locs l) /\
    ret_by_sret sig = false /\
    (tiled (sig_ret sig) ->
     sum_sizes (loc_size <$> ret_locs l) = ty_size (sig_ret sig)))).

Lemma empty_init (a : Z) (l : poly_abi_layout) :
  lay_args l = lay_args (poly_abi_layout_init a) -> empty_from 0 l.
Proof.
  intros Heq j x _ Hx. rewrite Heq in Hx.
  unfold poly_abi_layout_init, lay_args in Hx.
  apply lookup_replicate in Hx as [-> _]. done.
Qed.

Lemma sret_phase_ok (l : poly_abi_layout) :
  ret_extends (set_uses_sret (poly_abi_layout_init arch))
    [poly_abi_loc_sret_ptr sret_reg (ty_size (sig_ret sig))] l -> ret_phase_ok l.
Proof.
  intros (Hwf & Hr & Ha & Hc & Hu). split_and!; [done|by apply (empty_init arch)|done| |].
  - rewrite Hr. repeat constructor.
  - left. by rewrite Hu, Hr.
Qed.

Lemma ret_phase_sound : exists l, ret_phase = (l, 0) /\ ret_phase_ok l.
Proof using RC Hsig.
  unfold ret_phase. destruct (ret_by_sret sig) eqn:Hs.
  - destruct (ret_one_total (poly_abi_loc_sret_ptr sret_reg (ty_size (sig_ret sig)))
      (set_uses_sret (poly_abi_layout_init arch))) as [l Hl]; [done|].
    exists l. split; [done|]. apply sret_phase_ok, add_ret_loc_extends; [|done].
    apply (wf_layout_init arch).
  - pose proof (wf_sig_ret _ Hsig) as Ht.
    destruct (ret_total _ (poly_abi_layout_init arch) Ht (wf_layout_init arch)) as [l Hl]; [done|].
    exists l. split; [done|].
    destruct (ret_sound _ _ _ Ht (wf_layout_init arch) Hl)
      as [(locs & (Hwf & Hr & Ha & Hc & Hu) & (c & Hal) & Hns & Hcost & Hcov) | He];
      [|by apply sret_phase_ok].
    simpl in Hr. apply Forall_and in Hns as [Hsz Hns].
    destruct (alloc_seq_spec 8 zero_cursor c locs) as (_ & _ & _ & Hpd & _);
      [lia|done|by apply cursor_ok_start|done
      |simpl; unfold ARG_STACK_COST in *; lia|].
    split_and!; [done|by apply (empty_init arch)|done|by rewrite Hr|].
    right. rewrite Hu, Hr. done.
Qed.

(** A structure-return pointer announced by the flag does not share a
    register with an argument. *)
Definition sret_clear (l : poly_abi_layout) : Prop :=
  ret_by_sret sig = true ->
  lay_uses_sret l = 1 /\ Forall (fun x => Forall (disjoint x) (all_arg_locs l)) (ret_locs l).

Lemma loc_in_sret (c c' : abi_cursor) (x : poly_abi_loc) (size : Z) :
  sret_reg < cur_gpr c \/ cur_gpr c' <= sret_reg -> loc_in c c' x ->
  disjoint (poly_abi_loc_sret_ptr sret_reg size) x.
Proof.
  unfold loc_in, disjoint. intros Hr.
  destruct (loc_kind x); simpl; intros; try done; lia.
Qed.

Lemma classify_with_sound (Hsret : sret_reg < sret_gpr \/ G <= sret_reg) :
  exists l, classify_with arch sret_reg sret_gpr fin classify_ret classify_arg sig = (l, 0) /\
    layout_ok G sig l /\ lay_arch l = arch /\ sret_clear l /\
    (lay_uses_sret l = 1 -> G <= sret_reg ->
     Forall (fun x => Forall (disjoint x) (all_arg_locs l)) (ret_locs l)).
Proof using All.
  destruct ret_phase_sound as (l1 & Hr & Hwf & He & Harch & Hpd & Hret).
  unfold classify_with. fold ret_phase. rewrite Hr. cbn [Z.eqb negb].
  set (c0 := MkCursor (if ret_by_sret sig then sret_gpr else 0) 0 0).
  assert (cursor_ok G c0) as Hc0.
  { apply cursor_ok_start. destruct (ret_by_sret sig); lia. }
  destruct (args_loop_total (G:=G) (classify_arg:=classify_arg) sig Hsig c0 Hc0 eq_refl l1 Hwf He)
    as [[l2 c2] Hl]. rewrite Hl. cbn [Z.eqb negb].
  pose proof (args_loop_sound (G:=G) (classify_arg:=classify_arg)
    sig Hsig c0 Hc0 eq_refl l1 Hwf He _ Hl) as Hinv.
  pose proof (wf_sig_count _ Hsig) as Hcnt.
  destruct (args_inv_spec sig c0 Hc0 eq_refl l1 (sig_arg_count sig) l2 c2 Hcnt Hinv)
    as (Hok & Hle & Hin & Hdis & Hst).
  destruct Hinv as (Hwf2 & _ & _ & _ & _ & Hcov & Hret2 & Ha2 & Hu2).
  destruct Hok as (Hg & Hf & Hs0 & Hs8).
  assert (cur_stack c2 <= 16 * ARG_STACK_COST) as Hst16.
  { unfold POLY_ABI_LAYOUT_MAX_ARGS, POLY_FUNCTION_SIG_MAX_ARGS, ARG_STACK_COST in *. lia. }
  destruct (Hfin (cur_stack c2)) as [Hfr Hfm];
    [done|unfold ARG_STACK_COST in *; change (2 ^ 16) with 65536; lia|done|].
  eexists. split; [done|]. split_and!.
  - constructor; try done.
    + eapply Forall_impl; [exact Hin|]. intros x. apply loc_in_mono; unfold cursor_le; simpl.
      * destruct (ret_by_sret sig); lia.
      * lia.
    + change (pairwise_disjoint (ret_locs l2)). by rewrite Hret2.
    + change (ret_locs (set_stack_arg_size _ l2)) with (ret_locs l2). simpl. rewrite Hu2, Hret2.
      destruct Hret as [[-> ->] | (-> & Hns & _ & Hc)]; [left|right]; split_and!; eauto.
    + simpl. lia.
  - simpl. congruence.
  - intros Hflag. destruct Hret as [[Hu1 Hr1] | (_ & _ & Hn & _)]; [|congruence].
    split; [simpl; congruence|].
    change (Forall (fun x => Forall (disjoint x) (all_arg_locs l2)) (ret_locs l2)).
    rewrite Hret2, Hr1. repeat constructor. eapply Forall_impl; [exact Hin|]. intros x.
    apply loc_in_sret. unfold c0. rewrite Hflag. simpl. lia.
  - intros Hu HGs. change (Forall (fun x => Forall (disjoint x) (all_arg_locs l2)) (ret_locs l2)).
    simpl in Hu. rewrite Hret2. destruct Hret as [[_ ->] | (Hu0 & _)]; [|congruence].
    repeat constructor. eapply Forall_impl; [exact Hin|]. intros x. apply loc_in_sret. lia.
Qed.
End Shape.

(** The specification of [poly_classify_call_abi] on well-formed signatures. *)
Lemma classify_call_spec (arch : Z) (sig : poly_function_sig) (out : poly_abi_layout) :
  valid_arch arch = true -> wf_sig sig ->
  exists l, poly_classify_call_abi arch (Some sig) (Some out) = (Some l, 0) /\
    layout_ok (arch_gprs arch) sig l /\ lay_arch l = arch /\ sret_clear sig l /\
    (arch = POLY_ABI_ARCH_AARCH64 -> lay_uses_sret l = 1 ->
     Forall (fun x => Forall (disjoint x) (all_arg_locs l)) (ret_locs l)).
Proof.
  intros Hv Hsig. rewrite classify_call_shape; [|done|apply Hsig].
  destruct (valid_arch_cases arch Hv) as [-> | [-> | ->]]; unfold arch_classify, arch_gprs;
    cbn [Z.eqb].
  - destruct (classify_with_sound 6 POLY_ABI_ARCH_X86 0 1 id fin_ok_id ltac:(lia) ltac:(lia)
      x86_classify_ret x86_classify_arg sig Hsig ltac:(lia)) as (l & Hl & H1 & H2 & H3 & _).
    simpl (POLY_ABI_ARCH_X86 =? _). cbn iota. rewrite Hl. exists l. split_and!; done.
  - destruct (classify_with_sound 8 POLY_ABI_ARCH_AARCH64 8 0 align16 fin_ok_align16 ltac:(lia)
      ltac:(lia) aarch64_classify_ret aarch64_classify_arg sig Hsig ltac:(lia))
      as (l & Hl & H1 & H2 & H3 & H4).
    simpl (POLY_ABI_ARCH_AARCH64 =? _). cbn iota. rewrite Hl. exists l. split_and!; try done.
    intros _ Hu. apply H4; [done|lia].
  - destruct (classify_with_sound 8 POLY_ABI_ARCH_RISCV 0 1 align16 fin_ok_align16 ltac:(lia)
      ltac:(lia) riscv_classify_ret riscv_classify_arg sig Hsig ltac:(lia))
      as (l & Hl & H1 & H2 & H3 & _).
    simpl (POLY_ABI_ARCH_RISCV =? _). cbn iota. rewrite Hl. exists l. split_and!; done.
Qed.

(** ** Classification depends only on what [poly_function_sig_equal] compares *)

Lemma type_equal_spec (t u : poly_abi_type) :
  poly_abi_type_equal t u = true ->
  ty_kind t = ty_kind u /\ ty_elem_kind t = ty_elem_kind u /\ ty_count t = ty_count u /\
  ty_field_count t = ty_field_count u /\ ty_size t = ty_size u /\ ty_align t = ty_align u /\
  (forall n, (n < Z.to_nat (ty_field_count t))%nat -> ty_fields t !!! n = ty_fields u !!! n).
Proof.
  unfold poly_abi_type_equal. intros H.
  repeat match goal with H : _ && _ = true |- _ => apply andb_prop in H as [H ?] end.
  repeat match goal with H : bool_decide _ = true |- _ => apply bool_decide_eq_true in H end.
  breflect. split_and!; try done. intros n Hn.
  match goal with H : forallb _ _ = true |- _ => rewrite List.forallb_forall in H;
    specialize (H n ltac:(apply List.in_seq; lia)); rename H into Hf end.
  unfold field_equal in Hf.
  destruct (ty_fields t !!! n), (ty_fields u !!! n). simpl in Hf.
  apply andb_prop in Hf as [Hf ?]. apply andb_prop in Hf as [Hf ?].
  apply bool_decide_eq_true in Hf. breflect. congruence.
Qed.

Lemma x86_arg_equal (t u : poly_abi_type) (n : nat) (s : classify_state) :
  poly_abi_type_equal t u = true -> x86_classify_arg t n s = x86_classify_arg u n s.
Proof.
  intros (Hk & He & Hc & Hfc & Hs & Ha & Hf)%type_equal_spec. unfold x86_classify_arg.
  rewrite Hk, Hs, <- Hfc, Ha. destruct_ifs; try done.
  apply for_from_ext. intros j q Hj. by rewrite Hf by lia.
Qed.

Lemma aarch64_arg_equal (t u : poly_abi_type) (n : nat) (s : classify_state) :
  poly_abi_type_equal t u = true -> aarch64_classify_arg t n s = aarch64_classify_arg u n s.
Proof.
  intros (Hk & He & Hc & Hfc & Hs & Ha & Hf)%type_equal_spec.
  unfold aarch64_classify_arg, aarch64_classify_hfa_arg, bad_hfa, hfa_elem_size.
  by rewrite Hk, He, Hc, Hs, Ha.
Qed.

Lemma riscv_arg_equal (t u : poly_abi_type) (n : nat) (s : classify_state) :
  poly_abi_type_equal t u = true -> riscv_classify_arg t n s = riscv_classify_arg u n s.
Proof.
  intros (Hk & He & Hc & Hfc & Hs & Ha & Hf)%type_equal_spec.
  unfold riscv_classify_arg, bad_hfa, hfa_elem_size. by rewrite Hk, He, Hc, Hs, Ha.
Qed.

Lemma x86_ret_equal (t u : poly_abi_type) :
  wf_type t -> wf_type u ->
  poly_abi_type_equal t u = true -> x86_classify_ret t = x86_classify_ret u.
Proof.
  intros Ht Hu (Hk & He & Hc & Hfc & Hs & Ha & Hf)%type_equal_spec. unfold x86_classify_ret.
  rewrite Hk, Hs, <- Hfc.
  assert (take (Z.to_nat (ty_field_count t)) (ty_fields t) =
          take (Z.to_nat (ty_field_count t)) (ty_fields u)) as ->; [|done].
  apply list_eq. intros i. destruct (decide (i < Z.to_nat (ty_field_count t))%nat) as [Hi|Hi];
    [|by rewrite !lookup_take_ge by lia].
  pose proof (wf_fields_len _ Ht) as Hl1. pose proof (wf_fields_len _ Hu) as Hl2.
  pose proof (wf_field_count _ Ht). unfold POLY_ABI_TYPE_MAX_FIELDS in *.
  rewrite !lookup_take_lt by done.
  by rewrite !list_lookup_lookup_total_lt, Hf by lia.
Qed.

Lemma aarch64_ret_equal (t u : poly_abi_type) :
  poly_abi_type_equal t u = true -> aarch64_classify_ret t = aarch64_classify_ret u.
Proof.
  intros (Hk & He & Hc & Hfc & Hs & Ha & Hf)%type_equal_spec.
  unfold aarch64_classify_ret, bad_hfa, hfa_elem_size. by rewrite Hk, He, Hc, Hs.
Qed.

Lemma riscv_ret_equal (t u : poly_abi_type) :
  poly_abi_type_equal t u = true -> riscv_classify_ret t = riscv_classify_ret u.
Proof.
  intros (Hk & He & Hc & Hfc & Hs & Ha & Hf)%type_equal_spec.
  unfold riscv_classify_ret, bad_hfa, hfa_elem_size. by rewrite Hk, He, Hc, Hs.
Qed.

Lemma classify_with_equal arch sret_reg sret_gpr fin classify_ret classify_arg
    (s1 s2 : poly_function_sig) :
  (forall t u n st, poly_abi_type_equal t u = true -> classify_arg t n st = classify_arg u n st) ->
  classify_ret (sig_ret s1) = classify_ret (sig_ret s2) ->
  poly_function_sig_equal s1 s2 = true ->
  classify_with arch sret_reg sret_gpr fin classify_ret classify_arg s1 =
  classify_with arch sret_reg sret_gpr fin classify_ret classify_arg s2.
Proof.
  intros Harg Hret Heq. unfold poly_function_sig_equal in Heq.
  repeat match goal with H : _ && _ = true |- _ => apply andb_prop in H as [H ?] end.
  apply Nat.eqb_eq in Heq. breflect.
  match goal with H : poly_abi_type_equal _ _ = true |- _ =>
    apply type_equal_spec in H as (_ & _ & _ & _ & Hsz & _) end.
  unfold classify_with, ret_by_sret. rewrite Hret, Hsz, Heq.
  match goal with H : sig_flags s1 = _ |- _ => rewrite H end.
  destruct (if negb (Z.land _ _ =? 0) then _ else _) as [l r].
  destruct (negb (r =? 0)); [done|].
  erewrite (for_from_ext (S:=classify_state)); [done|].
  intros j t Hj. apply Harg.
  match goal with H : forallb _ _ = true |- _ => rewrite List.forallb_forall in H; apply H end.
  apply List.in_seq. lia.
Qed.

(** ** Properties *)


(** The locations of each argument hold all of its bytes (the sizes of
    its parts add up to the size of its type), and the result is either
    returned whole in registers or through one pointer. *)
Theorem classify_covers_values (arch : Z) (sig : poly_function_sig) (out : poly_abi_layout) :
  valid_arch arch = true -> wf_sig sig ->
  exists l, poly_classify_call_abi arch (Some sig) (Some out) = (Some l, 0) /\
    (forall n, (n < sig_arg_count sig)%nat -> tiled (sig_args sig !!! n) ->
       sum_sizes (loc_size <$> arg_locs (lay_args l !!! n)) = ty_size (sig_args sig !!! n)) /\
    (tiled (sig_ret sig) ->
       (lay_uses_sret l = 1 /\
        exists r, ret_locs l = [poly_abi_loc_sret_ptr r (ty_size (sig_ret sig))]) \/
       (lay_uses_sret l = 0 /\ pairwise_disjoint (ret_locs l) /\
        sum_sizes (loc_size <$> ret_locs l) = ty_size (sig_ret sig))).
Proof.
  intros Hv Hsig. destruct (classify_call_spec arch sig out Hv Hsig) as (l & Hl & Hok & _).
  exists l. split_and!; [done|apply Hok|]. intros Ht.
  destruct (lo_ret _ _ _ Hok) as [Hs | (Hu & _ & Hc)]; [by left|right].
  split_and!; [done|apply Hok|by apply Hc].
Qed.

(** When the signature announces a structure return with the
    [RET_BY_SRET] flag, the hidden pointer's register is not used by any
    argument, on every architecture. *)
Theorem classify_sret_flag_disjoint (arch : Z) (sig : poly_function_sig) (out : poly_abi_layout) :
  valid_arch arch = true -> wf_sig sig -> ret_by_sret sig = true ->
  exists l, poly_classify_call_abi arch (Some sig) (Some out) = (Some l, 0) /\
    lay_uses_sret l = 1 /\
    Forall (fun x => Forall (disjoint x) (all_arg_locs l)) (ret_locs l).
Proof.
  intros Hv Hsig Hf. destruct (classify_call_spec arch sig out Hv Hsig) as (l & Hl & Hok & _ & Hc & _).
  exists l. split; [done|]. by apply Hc.
Qed.

(** Signatures that [poly_function_sig_equal] identifies are laid out
    identically on every architecture: the classifiers read nothing else of a
    signature (in particular not the fields past [field_count]). *)
Theorem classify_respects_sig_equal (arch : Z) (s1 s2 : poly_function_sig)
    (out : poly_abi_layout) :
  valid_arch arch = true -> wf_sig s1 -> wf_sig s2 ->
  poly_function_sig_equal s1 s2 = true ->
  poly_classify_call_abi arch (Some s1) (Some out) =
  poly_classify_call_abi arch (Some s2) (Some out).
Proof.
  intros Hv H1 H2 Heq. rewrite !classify_call_shape; [|done|apply H2|done|apply H1].
  pose proof Heq as Hret. unfold poly_function_sig_equal in Hret.
  apply andb_prop in Hret as [Hret _]. apply andb_prop in Hret as [_ Hret].
  unfold arch_classify. destruct (arch =? POLY_ABI_ARCH_X86);
    [|destruct (arch =? POLY_ABI_ARCH_AARCH64)].
  - rewrite (classify_with_equal arch 0 1 id x86_classify_ret x86_classify_arg s1 s2); try done.
    + intros. by apply x86_arg_equal.
    + apply x86_ret_equal; [apply H1|apply H2|done].
  - rewrite (classify_with_equal arch 8 0 align16 aarch64_classify_ret aarch64_classify_arg s1 s2);
      try done.
    + intros. by apply aarch64_arg_equal.
    + by apply aarch64_ret_equal.
  - rewrite (classify_with_equal arch 0 1 align16 riscv_classify_ret riscv_classify_arg s1 s2);
      try done.
    + intros. by apply riscv_arg_equal.
    + by apply riscv_ret_equal.
Qed.

(** The error branches: a null pointer, an unknown architecture or more
    than sixteen arguments give [-1] and leave the output object as it was. *)
Theorem classify_rejects (arch : Z) (sig : option poly_function_sig)
    (out : option poly_abi_layout) :
  sig = None \/ out = None \/ valid_arch arch = false \/
  (exists s, sig = Some s /\ (POLY_FUNCTION_SIG_MAX_ARGS < sig_arg_count s)%nat) ->
  poly_classify_call_abi arch sig out = (out, -1).
Proof.
  intros H. unfold poly_classify_call_abi.
  destruct (valid_arch arch) eqn:Hv.
  - assert (sig = None \/ out = None \/
      (exists s, sig = Some s /\ (POLY_FUNCTION_SIG_MAX_ARGS < sig_arg_count s)%nat)) as Hc
      by (destruct H as [?|[?|[?|?]]]; tauto || congruence).
    destruct_ifs; unfold poly_classify_x86_sysv_call_abi, poly_classify_aarch64_call_abi,
      poly_classify_riscv_lp64d_call_abi;
    (destruct Hc as [-> | [-> | (s & -> & Hs)]]; [done|by destruct sig|];
     destruct out as [o|]; [|done];
     first [by rewrite (proj2 (Nat.ltb_lt _ _) Hs)|done]).
  - unfold valid_arch in Hv. destruct (arch =? POLY_ABI_ARCH_X86); [done|].
    destruct (arch =? POLY_ABI_ARCH_AARCH64); [done|].
    destruct (arch =? POLY_ABI_ARCH_RISCV); done.
Qed.

(** ** Concrete signatures *)

Definition with_ret (t : poly_abi_type) (flags : Z) (s : poly_function_sig) : poly_function_sig :=
  MkSig (sig_args s) (sig_arg_count s) t flags.

(** Ten integers, an HFA of four doubles, a vector and a float. *)
Definition sample_sig : poly_function_sig :=
  with_ret (poly_abi_hfa_type POLY_ABI_TYPE_F64 3) 0
    (push_arg (poly_abi_scalar_type POLY_ABI_TYPE_F32)
      (push_arg (poly_abi_scalar_type POLY_ABI_TYPE_VEC128)
        (push_arg (poly_abi_hfa_type POLY_ABI_TYPE_F64 4)
          (Nat.iter 10 (push_arg (poly_abi_scalar_type POLY_ABI_TYPE_I64)) zero_sig)))).

(** An unstructured block of memory of [size] bytes. *)
Definition memory_type (size : Z) : poly_abi_type :=
  MkType POLY_ABI_TYPE_AGGREGATE POLY_ABI_TYPE_VOID 0 0 size 8 (ty_fields zero_type).

(** One integer argument and a 32-byte result, as in
    [tools/tests/poly_abi_classify_test.c], with the given flags. *)
Definition sret_sig (flags : Z) : poly_function_sig :=
  with_ret (memory_type 32) flags
    (push_arg (poly_abi_scalar_type POLY_ABI_TYPE_I64) zero_sig).

Definition layout_of (arch : Z) (sig : poly_function_sig) : poly_abi_layout :=
  default (poly_abi_layout_init arch)
    (poly_classify_call_abi arch (Some sig) (Some (poly_abi_layout_init arch))).1.


Lemma classify_covers_values_witness :
  exists l, poly_classify_call_abi POLY_ABI_ARCH_RISCV (Some sample_sig)
      (Some (poly_abi_layout_init 0)) = (Some l, 0) /\
    (forall n, (n < sig_arg_count sample_sig)%nat -> tiled (sig_args sample_sig !!! n) ->
       sum_sizes (loc_size <$> arg_locs (lay_args l !!! n)) =
       ty_size (sig_args sample_sig !!! n)) /\
    (tiled (sig_ret sample_sig) ->
       (lay_uses_sret l = 1 /\
        exists r, ret_locs l = [poly_abi_loc_sret_ptr r (ty_size (sig_ret sample_sig))]) \/
       (lay_uses_sret l = 0 /\ pairwise_disjoint (ret_locs l) /\
        sum_sizes (loc_size <$> ret_locs l) = ty_size (sig_ret sample_sig))).
Proof.
  apply (classify_covers_values POLY_ABI_ARCH_RISCV sample_sig (poly_abi_layout_init 0)).
  - reflexivity.
  - apply check_sig_ok. vm_compute. reflexivity.
Defined.

Lemma classify_sret_flag_disjoint_witness :
  exists l, poly_classify_call_abi POLY_ABI_ARCH_X86
      (Some (sret_sig POLY_FUNCTION_SIG_FLAG_RET_BY_SRET)) (Some (poly_abi_layout_init 0))
      = (Some l, 0) /\ lay_uses_sret l = 1 /\
    Forall (fun x => Forall (disjoint x) (all_arg_locs l)) (ret_locs l).
Proof.
  apply (classify_sret_flag_disjoint POLY_ABI_ARCH_X86
    (sret_sig POLY_FUNCTION_SIG_FLAG_RET_BY_SRET) (poly_abi_layout_init 0)).
  - reflexivity.
  - apply check_sig_ok. vm_compute. reflexivity.
  - vm_compute. reflexivity.
Defined.

(** The same signature with junk in a field that is past [field_count]. *)
Definition junk_sig : poly_function_sig :=
  with_ret (MkType POLY_ABI_TYPE_I64 POLY_ABI_TYPE_VOID 0 0 8 8
    [MkField POLY_ABI_TYPE_F32 4 4; zero_field; zero_field; zero_field]) 0 zero_sig.

Definition clean_sig : poly_function_sig :=
  with_ret (poly_abi_scalar_type POLY_ABI_TYPE_I64) 0 zero_sig.

Lemma classify_respects_sig_equal_witness :
  poly_classify_call_abi POLY_ABI_ARCH_AARCH64 (Some junk_sig) (Some (poly_abi_layout_init 0)) =
  poly_classify_call_abi POLY_ABI_ARCH_AARCH64 (Some clean_sig) (Some (poly_abi_layout_init 0)).
Proof.
  apply (classify_respects_sig_equal POLY_ABI_ARCH_AARCH64 junk_sig clean_sig).
  - reflexivity.
  - apply check_sig_ok. vm_compute. reflexivity.
  - apply check_sig_ok. vm_compute. reflexivity.
  - vm_compute. reflexivity.
Defined.

Lemma classify_rejects_witness :
  poly_classify_call_abi 7 (Some sample_sig) (Some (poly_abi_layout_init 0)) =
  (Some (poly_abi_layout_init 0), -1).
Proof.
  apply (classify_rejects 7 (Some sample_sig) (Some (poly_abi_layout_init 0))).
  right. right. left. reflexivity.
Defined.

(** ** Behaviour outside the promises above *)

(** Without the [RET_BY_SRET] flag a result larger than 16 bytes is still
    returned through a pointer, but the x86 and RISC-V classifiers do not
    reserve its register: integer register 0 is assigned both to the hidden
    pointer and to the first argument. AArch64 (x8) is not affected. *)
Theorem unflagged_sret_register_collides :
  let x86 := layout_of POLY_ABI_ARCH_X86 (sret_sig 0) in
  let riscv := layout_of POLY_ABI_ARCH_RISCV (sret_sig 0) in
  let aarch64 := layout_of POLY_ABI_ARCH_AARCH64 (sret_sig 0) in
  (lay_uses_sret x86 = 1 /\ ret_locs x86 = [poly_abi_loc_sret_ptr 0 32] /\
   all_arg_locs x86 = [poly_abi_loc_reg POLY_ABI_LOC_GPR 0 8]) /\
  (lay_uses_sret riscv = 1 /\ ret_locs riscv = [poly_abi_loc_sret_ptr 0 32] /\
   all_arg_locs riscv = [poly_abi_loc_reg POLY_ABI_LOC_GPR 0 8]) /\
  (ret_locs aarch64 = [poly_abi_loc_sret_ptr 8 32] /\
   all_arg_locs aarch64 = [poly_abi_loc_reg POLY_ABI_LOC_GPR 0 8]).
Proof. vm_compute. split_and!; reflexivity. Qed.

(** The size bound of [wf_sig] is needed: three memory arguments of 40000
    bytes are classified successfully, but the 16-bit stack cursor wraps and
    the third one's slot starts inside the first one's. *)
Theorem large_stack_args_wrap :
  let sig := push_arg (memory_type 40000) (push_arg (memory_type 40000)
               (push_arg (memory_type 40000) zero_sig)) in
  poly_classify_call_abi POLY_ABI_ARCH_X86 (Some sig) (Some (poly_abi_layout_init 0)) =
    (Some (layout_of POLY_ABI_ARCH_X86 sig), 0) /\
  all_arg_locs (layout_of POLY_ABI_ARCH_X86 sig) =
    [poly_abi_loc_stack 0 40000; poly_abi_loc_stack 40000 40000;
     poly_abi_loc_stack 14464 40000].
Proof. vm_compute. split; reflexivity. Qed.
