(* ===== verification/AbiDescriptor.v ===== *)
(** ABI descriptors: [tools/runtime/bridge/poly_process_bridge_kind.h] and
    [tools/runtime/abi/poly_abi_descriptor.c], which turn the bridge kind of a
    symbol into a function signature, a hardware signature kind and a name. *)

From S2P Require Import Prelude AbiType AbiCursor.
From stdpp Require Import strings.
Open Scope string_scope.
Open Scope Z_scope.

(** ** Bridge kinds (an [int] in the callers) *)

Definition POLY_PROCESS_BRIDGE_DEFAULT : Z := 0.
Definition POLY_PROCESS_BRIDGE_VEC128_U32 : Z := 1.
Definition POLY_PROCESS_BRIDGE_COMPACT_U32_F32 : Z := 2.
Definition POLY_PROCESS_BRIDGE_COMPACT_F32_U32 : Z := 3.
Definition POLY_PROCESS_BRIDGE_U64_STACK9 : Z := 4.
Definition POLY_PROCESS_BRIDGE_FP64 : Z := 5.
Definition POLY_PROCESS_BRIDGE_FP32 : Z := 6.
Definition POLY_PROCESS_BRIDGE_AARCH64_HFA3_F32_RET : Z := 7.
Definition POLY_PROCESS_BRIDGE_AARCH64_HFA4_F32_RET : Z := 8.
Definition POLY_PROCESS_BRIDGE_FPAIR32_ARG : Z := 9.
Definition POLY_PROCESS_BRIDGE_FPAIR64_ARG : Z := 10.
Definition POLY_PROCESS_BRIDGE_FPAIR32_RET : Z := 11.
Definition POLY_PROCESS_BRIDGE_FPAIR64_RET : Z := 12.
Definition POLY_PROCESS_BRIDGE_AARCH64_HFA3_F32_ARG : Z := 13.
Definition POLY_PROCESS_BRIDGE_AARCH64_HFA4_F32_ARG : Z := 14.
Definition POLY_PROCESS_BRIDGE_SRET_X86_SYSV : Z := 15.
Definition POLY_PROCESS_BRIDGE_NATIVE_SRET : Z := 16.
Definition POLY_PROCESS_BRIDGE_AARCH64_HFA3_F64_RET : Z := 17.
Definition POLY_PROCESS_BRIDGE_AARCH64_HFA4_F64_RET : Z := 18.
Definition POLY_PROCESS_BRIDGE_AARCH64_HFA3_F64_ARG : Z := 19.
Definition POLY_PROCESS_BRIDGE_AARCH64_HFA4_F64_ARG : Z := 20.
Definition POLY_PROCESS_BRIDGE_KIND_COUNT : Z := 21.

(** ** Hardware signature kinds used by descriptors (polycpuid.h) *)

Definition POLY_ABI_SIGNATURE_KIND_NATIVE_REGS : Z := 4.
Definition POLY_ABI_SIGNATURE_KIND_NATIVE_REGS_VEC128_U32 : Z := 6.
Definition POLY_ABI_SIGNATURE_KIND_NATIVE_REGS_COMPACT_U32_F32 : Z := 7.
Definition POLY_ABI_SIGNATURE_KIND_NATIVE_REGS_COMPACT_F32_U32 : Z := 8.
Definition POLY_ABI_SIGNATURE_KIND_NATIVE_REGS_FP64 : Z := 9.
Definition POLY_ABI_SIGNATURE_KIND_NATIVE_REGS_FP32 : Z := 10.
Definition POLY_ABI_SIGNATURE_KIND_SRET_X86_SYSV_REGS : Z := 11.
Definition POLY_ABI_SIGNATURE_KIND_X86_SYSV_REGS_FPAIR32_RET : Z := 13.
Definition POLY_ABI_SIGNATURE_KIND_X86_SYSV_REGS_FPAIR32_ARG : Z := 14.
Definition POLY_ABI_SIGNATURE_KIND_X86_SYSV_REGS_FPAIR64_RET : Z := 19.
Definition POLY_ABI_SIGNATURE_KIND_X86_SYSV_REGS_FPAIR64_ARG : Z := 20.
Definition POLY_ABI_SIGNATURE_KIND_X86_SYSV_REGS_AARCH64_HFA3_F32_RET : Z := 22.
Definition POLY_ABI_SIGNATURE_KIND_X86_SYSV_REGS_AARCH64_HFA4_F32_RET : Z := 23.
Definition POLY_ABI_SIGNATURE_KIND_X86_SYSV_REGS_AARCH64_HFA3_F32_ARG : Z := 24.
Definition POLY_ABI_SIGNATURE_KIND_X86_SYSV_REGS_AARCH64_HFA4_F32_ARG : Z := 25.
Definition POLY_ABI_SIGNATURE_KIND_NATIVE_SRET_REGS : Z := 26.
Definition POLY_ABI_SIGNATURE_KIND_X86_SYSV_REGS_AARCH64_HFA3_F64_RET : Z := 27.
Definition POLY_ABI_SIGNATURE_KIND_X86_SYSV_REGS_AARCH64_HFA4_F64_RET : Z := 28.
Definition POLY_ABI_SIGNATURE_KIND_LAST_VALID : Z :=
  POLY_ABI_SIGNATURE_KIND_X86_SYSV_REGS_AARCH64_HFA4_F64_RET.

Definition UINT_MAX : Z := UINT32_MAX.

(** ** Signature builders *)

Definition aggregate2 (first second : poly_abi_type_kind) : poly_abi_type :=
  let first_type := poly_abi_scalar_type first in
  let second_type := poly_abi_scalar_type second in
  MkType POLY_ABI_TYPE_AGGREGATE POLY_ABI_TYPE_VOID 0 2
    (u16 (ty_size first_type + ty_size second_type))
    (if ty_align first_type >? ty_align second_type
     then ty_align first_type else ty_align second_type)
    [MkField first 0 (ty_size first_type);
     MkField second (ty_size first_type) (ty_size second_type);
     zero_field; zero_field].

Definition aggregate4 (kind : poly_abi_type_kind) : poly_abi_type :=
  let field_type := poly_abi_scalar_type kind in
  MkType POLY_ABI_TYPE_AGGREGATE POLY_ABI_TYPE_VOID 0 4 (u16 (ty_size field_type * 4))
    (ty_align field_type)
    ((fun n => MkField kind (u16 (Z.of_nat n * ty_size field_type)) (ty_size field_type))
      <$> seq 0 4).

Definition set_ret (t : poly_abi_type) (sig : poly_function_sig) : poly_function_sig :=
  MkSig (sig_args sig) (sig_arg_count sig) t (sig_flags sig).

Definition or_flags (flags : Z) (sig : poly_function_sig) : poly_function_sig :=
  MkSig (sig_args sig) (sig_arg_count sig) (sig_ret sig) (Z.lor (sig_flags sig) flags).

Definition set_void_ret : poly_function_sig -> poly_function_sig :=
  set_ret (poly_abi_scalar_type POLY_ABI_TYPE_VOID).

Definition set_scalar_ret (kind : poly_abi_type_kind)
    : poly_function_sig -> poly_function_sig := set_ret (poly_abi_scalar_type kind).

Definition add_scalar_arg (kind : poly_abi_type_kind)
    : poly_function_sig -> poly_function_sig := push_arg (poly_abi_scalar_type kind).

Definition set_hfa_ret (elem_kind : poly_abi_type_kind) (count : nat)
    (sig : poly_function_sig) : poly_function_sig :=
  set_ret (poly_abi_hfa_type elem_kind (Z.of_nat count))
    (Nat.iter count (add_scalar_arg elem_kind) sig).

Definition set_hfa_arg (elem_kind : poly_abi_type_kind) (count : nat)
    (sig : poly_function_sig) : poly_function_sig :=
  set_scalar_ret elem_kind
    (add_scalar_arg elem_kind (push_arg (poly_abi_hfa_type elem_kind (Z.of_nat count)) sig)).

Definition set_fpair_arg (elem_kind : poly_abi_type_kind) (sig : poly_function_sig)
    : poly_function_sig :=
  set_scalar_ret elem_kind
    (add_scalar_arg elem_kind (push_arg (aggregate2 elem_kind elem_kind) sig)).

Definition set_fpair_ret (elem_kind : poly_abi_type_kind) (sig : poly_function_sig)
    : poly_function_sig :=
  set_ret (aggregate2 elem_kind elem_kind)
    (add_scalar_arg elem_kind (add_scalar_arg elem_kind (add_scalar_arg elem_kind sig))).

Definition set_sret (flags : Z) (sig : poly_function_sig) : poly_function_sig :=
  or_flags flags
    (set_ret (aggregate4 POLY_ABI_TYPE_I64)
      (add_scalar_arg POLY_ABI_TYPE_I64
        (add_scalar_arg POLY_ABI_TYPE_I64 (add_scalar_arg POLY_ABI_TYPE_I64 sig)))).

(** ** Decoding a descriptor *)

(** The [switch] over bridge kinds: the update of the signature that each case
    performs; [None] is the [default] case. *)
Definition descriptor_case (bridge_kind : Z)
    : option (poly_function_sig -> poly_function_sig) :=
  if bridge_kind =? POLY_PROCESS_BRIDGE_DEFAULT then
    Some (fun sig => set_scalar_ret POLY_ABI_TYPE_I64
      (or_flags POLY_FUNCTION_SIG_FLAG_OPAQUE_DESCRIPTOR sig))
  else if bridge_kind =? POLY_PROCESS_BRIDGE_VEC128_U32 then
    Some (fun sig => set_scalar_ret POLY_ABI_TYPE_VEC128
      (add_scalar_arg POLY_ABI_TYPE_VEC128 (add_scalar_arg POLY_ABI_TYPE_VEC128 sig)))
  else if bridge_kind =? POLY_PROCESS_BRIDGE_COMPACT_U32_F32 then
    Some (fun sig => set_ret (aggregate2 POLY_ABI_TYPE_I32 POLY_ABI_TYPE_F32)
      (add_scalar_arg POLY_ABI_TYPE_I32
        (push_arg (aggregate2 POLY_ABI_TYPE_I32 POLY_ABI_TYPE_F32) sig)))
  else if bridge_kind =? POLY_PROCESS_BRIDGE_COMPACT_F32_U32 then
    Some (fun sig => set_ret (aggregate2 POLY_ABI_TYPE_F32 POLY_ABI_TYPE_I32)
      (add_scalar_arg POLY_ABI_TYPE_I32
        (push_arg (aggregate2 POLY_ABI_TYPE_F32 POLY_ABI_TYPE_I32) sig)))
  else if bridge_kind =? POLY_PROCESS_BRIDGE_U64_STACK9 then
    Some (fun sig => set_scalar_ret POLY_ABI_TYPE_I64
      (Nat.iter 9 (add_scalar_arg POLY_ABI_TYPE_I64) sig))
  else if bridge_kind =? POLY_PROCESS_BRIDGE_FP64 then Some (set_scalar_ret POLY_ABI_TYPE_F64)
  else if bridge_kind =? POLY_PROCESS_BRIDGE_FP32 then Some (set_scalar_ret POLY_ABI_TYPE_F32)
  else if bridge_kind =? POLY_PROCESS_BRIDGE_AARCH64_HFA3_F32_RET then
    Some (set_hfa_ret POLY_ABI_TYPE_F32 3)
  else if bridge_kind =? POLY_PROCESS_BRIDGE_AARCH64_HFA4_F32_RET then
    Some (set_hfa_ret POLY_ABI_TYPE_F32 4)
  else if bridge_kind =? POLY_PROCESS_BRIDGE_FPAIR32_ARG then Some (set_fpair_arg POLY_ABI_TYPE_F32)
  else if bridge_kind =? POLY_PROCESS_BRIDGE_FPAIR64_ARG then Some (set_fpair_arg POLY_ABI_TYPE_F64)
  else if bridge_kind =? POLY_PROCESS_BRIDGE_FPAIR32_RET then Some (set_fpair_ret POLY_ABI_TYPE_F32)
  else if bridge_kind =? POLY_PROCESS_BRIDGE_FPAIR64_RET then Some (set_fpair_ret POLY_ABI_TYPE_F64)
  else if bridge_kind =? POLY_PROCESS_BRIDGE_AARCH64_HFA3_F32_ARG then
    Some (set_hfa_arg POLY_ABI_TYPE_F32 3)
  else if bridge_kind =? POLY_PROCESS_BRIDGE_AARCH64_HFA4_F32_ARG then
    Some (set_hfa_arg POLY_ABI_TYPE_F32 4)
  else if bridge_kind =? POLY_PROCESS_BRIDGE_SRET_X86_SYSV then
    Some (set_sret POLY_FUNCTION_SIG_FLAG_RET_BY_SRET)
  else if bridge_kind =? POLY_PROCESS_BRIDGE_NATIVE_SRET then
    Some (set_sret (Z.lor POLY_FUNCTION_SIG_FLAG_RET_BY_SRET
                          POLY_FUNCTION_SIG_FLAG_NATIVE_SRET))
  else if bridge_kind =? POLY_PROCESS_BRIDGE_AARCH64_HFA3_F64_RET then
    Some (set_hfa_ret POLY_ABI_TYPE_F64 3)
  else if bridge_kind =? POLY_PROCESS_BRIDGE_AARCH64_HFA4_F64_RET then
    Some (set_hfa_ret POLY_ABI_TYPE_F64 4)
  else if bridge_kind =? POLY_PROCESS_BRIDGE_AARCH64_HFA3_F64_ARG then
    Some (set_hfa_arg POLY_ABI_TYPE_F64 3)
  else if bridge_kind =? POLY_PROCESS_BRIDGE_AARCH64_HFA4_F64_ARG then
    Some (set_hfa_arg POLY_ABI_TYPE_F64 4)
  else None.

Definition poly_abi_descriptor_decode_kind (bridge_kind : Z)
    (sig : option poly_function_sig) : option poly_function_sig * Z :=
  match sig with
  | None => (None, -1)
  | Some _ =>
      let sig0 := set_void_ret zero_sig in
      match descriptor_case bridge_kind with
      | Some f => (Some (f sig0), 0)
      | None => (Some sig0, -1)
      end
  end.

Definition poly_abi_descriptor_signature_kind (bridge_kind : Z) : Z :=
  if bridge_kind =? POLY_PROCESS_BRIDGE_VEC128_U32 then
    POLY_ABI_SIGNATURE_KIND_NATIVE_REGS_VEC128_U32
  else if bridge_kind =? POLY_PROCESS_BRIDGE_COMPACT_U32_F32 then
    POLY_ABI_SIGNATURE_KIND_NATIVE_REGS_COMPACT_U32_F32
  else if bridge_kind =? POLY_PROCESS_BRIDGE_COMPACT_F32_U32 then
    POLY_ABI_SIGNATURE_KIND_NATIVE_REGS_COMPACT_F32_U32
  else if bridge_kind =? POLY_PROCESS_BRIDGE_FP64 then
    POLY_ABI_SIGNATURE_KIND_NATIVE_REGS_FP64
  else if bridge_kind =? POLY_PROCESS_BRIDGE_FP32 then
    POLY_ABI_SIGNATURE_KIND_NATIVE_REGS_FP32
  else if bridge_kind =? POLY_PROCESS_BRIDGE_AARCH64_HFA3_F32_RET then
    POLY_ABI_SIGNATURE_KIND_X86_SYSV_REGS_AARCH64_HFA3_F32_RET
  else if bridge_kind =? POLY_PROCESS_BRIDGE_AARCH64_HFA4_F32_RET then
    POLY_ABI_SIGNATURE_KIND_X86_SYSV_REGS_AARCH64_HFA4_F32_RET
  else if bridge_kind =? POLY_PROCESS_BRIDGE_FPAIR32_ARG then
    POLY_ABI_SIGNATURE_KIND_X86_SYSV_REGS_FPAIR32_ARG
  else if bridge_kind =? POLY_PROCESS_BRIDGE_FPAIR64_ARG then
    POLY_ABI_SIGNATURE_KIND_X86_SYSV_REGS_FPAIR64_ARG
  else if bridge_kind =? POLY_PROCESS_BRIDGE_FPAIR32_RET then
    POLY_ABI_SIGNATURE_KIND_X86_SYSV_REGS_FPAIR32_RET
  else if bridge_kind =? POLY_PROCESS_BRIDGE_FPAIR64_RET then
    POLY_ABI_SIGNATURE_KIND_X86_SYSV_REGS_FPAIR64_RET
  else if bridge_kind =? POLY_PROCESS_BRIDGE_AARCH64_HFA3_F32_ARG then
    POLY_ABI_SIGNATURE_KIND_X86_SYSV_REGS_AARCH64_HFA3_F32_ARG
  else if bridge_kind =? POLY_PROCESS_BRIDGE_AARCH64_HFA4_F32_ARG then
    POLY_ABI_SIGNATURE_KIND_X86_SYSV_REGS_AARCH64_HFA4_F32_ARG
  else if bridge_kind =? POLY_PROCESS_BRIDGE_SRET_X86_SYSV then
    POLY_ABI_SIGNATURE_KIND_SRET_X86_SYSV_REGS
  else if bridge_kind =? POLY_PROCESS_BRIDGE_NATIVE_SRET then
    POLY_ABI_SIGNATURE_KIND_NATIVE_SRET_REGS
  else if bridge_kind =? POLY_PROCESS_BRIDGE_AARCH64_HFA3_F64_RET then
    POLY_ABI_SIGNATURE_KIND_X86_SYSV_REGS_AARCH64_HFA3_F64_RET
  else if bridge_kind =? POLY_PROCESS_BRIDGE_AARCH64_HFA4_F64_RET then
    POLY_ABI_SIGNATURE_KIND_X86_SYSV_REGS_AARCH64_HFA4_F64_RET
  else if (bridge_kind =? POLY_PROCESS_BRIDGE_DEFAULT) ||
          (bridge_kind =? POLY_PROCESS_BRIDGE_U64_STACK9) then
    POLY_ABI_SIGNATURE_KIND_NATIVE_REGS
  else UINT_MAX.

(** [NULL] is [None]. *)
Definition poly_abi_descriptor_kind_name (bridge_kind : Z) : option string :=
  if bridge_kind =? POLY_PROCESS_BRIDGE_DEFAULT then Some "default"
  else if bridge_kind =? POLY_PROCESS_BRIDGE_VEC128_U32 then Some "vec128_u32"
  else if bridge_kind =? POLY_PROCESS_BRIDGE_COMPACT_U32_F32 then Some "compact_u32_f32"
  else if bridge_kind =? POLY_PROCESS_BRIDGE_COMPACT_F32_U32 then Some "compact_f32_u32"
  else if bridge_kind =? POLY_PROCESS_BRIDGE_U64_STACK9 then Some "u64_stack9"
  else if bridge_kind =? POLY_PROCESS_BRIDGE_FP64 then Some "fp64"
  else if bridge_kind =? POLY_PROCESS_BRIDGE_FP32 then Some "fp32"
  else if bridge_kind =? POLY_PROCESS_BRIDGE_AARCH64_HFA3_F32_RET then Some "aarch64_hfa3_f32_ret"
  else if bridge_kind =? POLY_PROCESS_BRIDGE_AARCH64_HFA4_F32_RET then Some "aarch64_hfa4_f32_ret"
  else if bridge_kind =? POLY_PROCESS_BRIDGE_FPAIR32_ARG then Some "fpair32_arg"
  else if bridge_kind =? POLY_PROCESS_BRIDGE_FPAIR64_ARG then Some "fpair64_arg"
  else if bridge_kind =? POLY_PROCESS_BRIDGE_FPAIR32_RET then Some "fpair32_ret"
  else if bridge_kind =? POLY_PROCESS_BRIDGE_FPAIR64_RET then Some "fpair64_ret"
  else if bridge_kind =? POLY_PROCESS_BRIDGE_AARCH64_HFA3_F32_ARG then Some "aarch64_hfa3_f32_arg"
  else if bridge_kind =? POLY_PROCESS_BRIDGE_AARCH64_HFA4_F32_ARG then Some "aarch64_hfa4_f32_arg"
  else if bridge_kind =? POLY_PROCESS_BRIDGE_SRET_X86_SYSV then Some "sret_x86_sysv"
  else if bridge_kind =? POLY_PROCESS_BRIDGE_NATIVE_SRET then Some "native_sret"
  else if bridge_kind =? POLY_PROCESS_BRIDGE_AARCH64_HFA3_F64_RET then Some "aarch64_hfa3_f64_ret"
  else if bridge_kind =? POLY_PROCESS_BRIDGE_AARCH64_HFA4_F64_RET then Some "aarch64_hfa4_f64_ret"
  else if bridge_kind =? POLY_PROCESS_BRIDGE_AARCH64_HFA3_F64_ARG then Some "aarch64_hfa3_f64_arg"
  else if bridge_kind =? POLY_PROCESS_BRIDGE_AARCH64_HFA4_F64_ARG then Some "aarch64_hfa4_f64_arg"
  else None.

(** ** All kinds at once *)

Definition all_kinds : list Z := Z.of_nat <$> seq 0 (Z.to_nat POLY_PROCESS_BRIDGE_KIND_COUNT).

Lemma in_all_kinds (k : Z) :
  0 <= k < POLY_PROCESS_BRIDGE_KIND_COUNT -> In k all_kinds.
Proof.
  intros H. apply list_elem_of_In, list_elem_of_fmap. exists (Z.to_nat k).
  split; [lia|]. apply elem_of_seq. lia.
Qed.

(** A boolean property that computes to true on the 21 kinds holds of them. *)
Lemma check_kinds (P : Z -> bool) :
  forallb P all_kinds = true ->
  forall k, 0 <= k < POLY_PROCESS_BRIDGE_KIND_COUNT -> P k = true.
Proof. intros H k Hk. rewrite List.forallb_forall in H. by apply H, in_all_kinds. Qed.

Lemma descriptor_case_none (k : Z) :
  ~ (0 <= k < POLY_PROCESS_BRIDGE_KIND_COUNT) -> descriptor_case k = None.
Proof.
  intros H. unfold descriptor_case, POLY_PROCESS_BRIDGE_KIND_COUNT in *.
  repeat match goal with |- context [?a =? ?b] =>
    destruct (Z.eqb_spec a b) as [Hk|_]; [exfalso; apply H; rewrite Hk; vm_compute;
      split; congruence|] end.
  done.
Qed.

(** The signature a kind decodes to; [zero_sig] when it does not. *)
Definition kind_sig (k : Z) : poly_function_sig :=
  default zero_sig (poly_abi_descriptor_decode_kind k (Some zero_sig)).1.

Definition kind_check (k : Z) : bool :=
  bool_decide (is_Some (descriptor_case k)) && check_sig (kind_sig k) &&
  (sig_arg_count (kind_sig k) <=? 9)%nat &&
  forallb check_tiled (take (sig_arg_count (kind_sig k)) (sig_args (kind_sig k))) &&
  check_tiled (sig_ret (kind_sig k)).

Lemma all_kinds_check : forallb kind_check all_kinds = true.
Proof. vm_compute. reflexivity. Qed.

Lemma decode_kind_sound (k : Z) (sig : poly_function_sig) :
  0 <= k < POLY_PROCESS_BRIDGE_KIND_COUNT ->
  poly_abi_descriptor_decode_kind k (Some sig) = (Some (kind_sig k), 0) /\
  wf_sig (kind_sig k) /\ (sig_arg_count (kind_sig k) <= 9)%nat /\
  Forall tiled (take (sig_arg_count (kind_sig k)) (sig_args (kind_sig k))) /\
  tiled (sig_ret (kind_sig k)).
Proof.
  intros Hk. pose proof (check_kinds kind_check all_kinds_check k Hk) as H.
  unfold kind_check in H.
  repeat match goal with H : _ && _ = true |- _ => apply andb_prop in H as [H ?] end.
  split_and!.
  - apply bool_decide_eq_true in H as [f Hf]. unfold kind_sig.
    unfold poly_abi_descriptor_decode_kind. by rewrite Hf.
  - by apply check_sig_ok.
  - by apply Nat.leb_le.
  - apply Forall_forall. intros t Ht. apply check_tiled_ok.
    match goal with H : forallb _ _ = true |- _ => rewrite List.forallb_forall in H; apply H end.
    by apply list_elem_of_In.
  - by apply check_tiled_ok.
Qed.

(** ** Properties *)

(** Decoding a descriptor succeeds exactly for the 21 bridge kinds; the
    signature it builds is then well formed, its aggregates are covered by
    their fields, and at most nine of the sixteen argument slots are written
    (the unchecked [args[arg_count++]] stays in the array). Any other kind
    gives [-1] and the empty signature. *)
Theorem descriptor_decode_correct (k : Z) (sig : poly_function_sig) :
  (0 <= k < POLY_PROCESS_BRIDGE_KIND_COUNT /\
   poly_abi_descriptor_decode_kind k (Some sig) = (Some (kind_sig k), 0) /\
   wf_sig (kind_sig k) /\ (sig_arg_count (kind_sig k) <= 9)%nat /\
   Forall tiled (take (sig_arg_count (kind_sig k)) (sig_args (kind_sig k))) /\
   tiled (sig_ret (kind_sig k))) \/
  (~ (0 <= k < POLY_PROCESS_BRIDGE_KIND_COUNT) /\
   poly_abi_descriptor_decode_kind k (Some sig) = (Some (set_void_ret zero_sig), -1)).
Proof.
  assert (0 <= k < POLY_PROCESS_BRIDGE_KIND_COUNT \/
          ~ (0 <= k < POLY_PROCESS_BRIDGE_KIND_COUNT)) as [Hk | Hk] by lia.
  - left. split; [done|]. by apply decode_kind_sound.
  - right. split; [done|]. unfold poly_abi_descriptor_decode_kind.
    by rewrite descriptor_case_none.
Qed.

Definition sig_kind_check (k : Z) : bool :=
  let s := poly_abi_descriptor_signature_kind k in
  (s <=? POLY_ABI_SIGNATURE_KIND_LAST_VALID) && (4 <=? s) &&
  (if bool_decide (s = POLY_ABI_SIGNATURE_KIND_NATIVE_REGS)
   then (k =? 0) || (k =? 4)
   else forallb (fun j => (j =? k) ||
          negb (poly_abi_descriptor_signature_kind j =? s)) all_kinds).

Lemma all_sig_kinds_check :
  forallb (fun k => (19 <=? k) || sig_kind_check k) all_kinds = true.
Proof. vm_compute. reflexivity. Qed.

(** Below kind 19 every descriptor kind has a valid hardware signature
    kind, and two different kinds share one only when it is the plain
    native-register signature; the two [HFA_F64_ARG] kinds (19 and 20) decode
    to a signature but have no hardware signature kind ([UINT_MAX]). *)
Theorem descriptor_signature_kinds :
  (forall j k, 0 <= j < 19 -> 0 <= k < 19 -> j <> k ->
     poly_abi_descriptor_signature_kind j = poly_abi_descriptor_signature_kind k ->
     poly_abi_descriptor_signature_kind k = POLY_ABI_SIGNATURE_KIND_NATIVE_REGS) /\
  (forall k, 0 <= k < 19 ->
     4 <= poly_abi_descriptor_signature_kind k <= POLY_ABI_SIGNATURE_KIND_LAST_VALID) /\
  poly_abi_descriptor_signature_kind POLY_PROCESS_BRIDGE_AARCH64_HFA3_F64_ARG = UINT_MAX /\
  poly_abi_descriptor_signature_kind POLY_PROCESS_BRIDGE_AARCH64_HFA4_F64_ARG = UINT_MAX.
Proof.
  assert (forall k, 0 <= k < 19 -> sig_kind_check k = true) as Hc.
  { intros k Hk. pose proof (check_kinds _ all_sig_kinds_check k) as H.
    unfold POLY_PROCESS_BRIDGE_KIND_COUNT in H. specialize (H ltac:(lia)).
    simpl in H. apply orb_prop in H as [H | H]; [apply Z.leb_le in H; lia|done]. }
  split_and!; [| |reflexivity|reflexivity].
  - intros j k Hj Hk Hne Heq. specialize (Hc k Hk). unfold sig_kind_check in Hc.
    apply andb_prop in Hc as [_ Hc].
    destruct (bool_decide (_ = POLY_ABI_SIGNATURE_KIND_NATIVE_REGS)) eqn:E;
      [by apply bool_decide_eq_true in E|].
    rewrite List.forallb_forall in Hc. specialize (Hc j).
    rewrite Heq, Z.eqb_refl in Hc. unfold POLY_PROCESS_BRIDGE_KIND_COUNT in *.
    assert (In j all_kinds) as Hin by (apply in_all_kinds; unfold POLY_PROCESS_BRIDGE_KIND_COUNT; lia).
    specialize (Hc Hin). simpl in Hc. rewrite orb_false_r in Hc. apply Z.eqb_eq in Hc. lia.
  - intros k Hk. specialize (Hc k Hk). unfold sig_kind_check in Hc. breflect. lia.
Qed.
