(* ===== verification/BridgePlan.v ===== *)
(** Cross-ISA bridge plans: [tools/runtime/bridge/poly_bridge_plan.h] and
    [poly_bridge_plan.c].  A plan is a bounded list of operations that moves
    the arguments of a call from the caller's locations to the callee's, makes
    the call, and moves the result back.

    The builder is refined to a pure reference ([plan_reference]): the same
    success condition and, on success, exactly the same operations.
    [BridgeMachine.v] gives the operations a meaning. *)

From S2P Require Import Prelude AbiType AbiCursor AbiX86 AbiAArch64 AbiRiscv AbiClassify AbiDescriptor.

(** ** Plans *)

Inductive poly_bridge_move_kind : Type :=
  | POLY_BRIDGE_MOVE_REG_TO_REG
  | POLY_BRIDGE_MOVE_REG_TO_STACK
  | POLY_BRIDGE_MOVE_STACK_TO_REG
  | POLY_BRIDGE_MOVE_STACK_TO_STACK
  | POLY_BRIDGE_MOVE_LOAD_IMM
  | POLY_BRIDGE_MOVE_SAVE_CALLER_REG
  | POLY_BRIDGE_MOVE_RESTORE_CALLER_REG
  | POLY_BRIDGE_MOVE_SET_STATE_KEY
  | POLY_BRIDGE_MOVE_SET_SIGNATURE_SLOT
  | POLY_BRIDGE_MOVE_PCALL.

#[export] Instance poly_bridge_move_kind_eq_dec : EqDecision poly_bridge_move_kind.
Proof. solve_decision. Defined.

Definition POLY_BRIDGE_PLAN_MAX_OPS : nat := 128.
Definition POLY_BRIDGE_PLAN_NO_SIGNATURE_SLOT : Z := UINT32_MAX.

Record poly_bridge_op : Type := MkOp {
  op_kind : poly_bridge_move_kind;
  op_src : poly_abi_loc;
  op_dst : poly_abi_loc;
  op_imm : Z;
}.

Record poly_bridge_plan : Type := MkPlan {
  pl_caller : Z;
  pl_callee : Z;
  pl_ops : list poly_bridge_op;
  pl_op_count : nat;
  pl_signature_slot : Z;
  pl_needs_x86_tls_wrapper : Z;
  pl_needs_state_key : Z;
}.

Definition zero_op : poly_bridge_op :=
  MkOp POLY_BRIDGE_MOVE_REG_TO_REG poly_abi_loc_none poly_abi_loc_none 0.

#[export] Instance poly_bridge_op_inhabited : Inhabited poly_bridge_op := populate zero_op.

Definition poly_bridge_plan_init (caller callee : Z) : poly_bridge_plan :=
  MkPlan caller callee (replicate POLY_BRIDGE_PLAN_MAX_OPS zero_op) 0
    POLY_BRIDGE_PLAN_NO_SIGNATURE_SLOT 0 0.

Definition valid_loc (loc : poly_abi_loc) : bool :=
  match loc_kind loc with
  | POLY_ABI_LOC_NONE =>
      (loc_reg loc =? 0) && (loc_stack_offset loc =? 0) && (loc_size loc =? 0)
  | POLY_ABI_LOC_GPR | POLY_ABI_LOC_FPR | POLY_ABI_LOC_VEC | POLY_ABI_LOC_SRET_PTR =>
      negb (loc_size loc =? 0)
  | POLY_ABI_LOC_STACK => negb (loc_size loc =? 0)
  end.

Definition is_kind (k : poly_abi_loc_kind) (loc : poly_abi_loc) : bool :=
  bool_decide (loc_kind loc = k).

Definition valid_op_locs (op : poly_bridge_op) : bool :=
  let src_stack := is_kind POLY_ABI_LOC_STACK (op_src op) in
  let src_none := is_kind POLY_ABI_LOC_NONE (op_src op) in
  let dst_stack := is_kind POLY_ABI_LOC_STACK (op_dst op) in
  let dst_none := is_kind POLY_ABI_LOC_NONE (op_dst op) in
  match op_kind op with
  | POLY_BRIDGE_MOVE_REG_TO_REG =>
      negb src_stack && negb src_none && negb dst_stack && negb dst_none
  | POLY_BRIDGE_MOVE_REG_TO_STACK => negb src_stack && negb src_none && dst_stack
  | POLY_BRIDGE_MOVE_STACK_TO_REG => src_stack && negb dst_stack && negb dst_none
  | POLY_BRIDGE_MOVE_STACK_TO_STACK => src_stack && dst_stack
  | POLY_BRIDGE_MOVE_LOAD_IMM => src_none && negb dst_none
  | POLY_BRIDGE_MOVE_SAVE_CALLER_REG | POLY_BRIDGE_MOVE_RESTORE_CALLER_REG =>
      negb src_none || negb dst_none
  | POLY_BRIDGE_MOVE_SET_STATE_KEY | POLY_BRIDGE_MOVE_SET_SIGNATURE_SLOT
  | POLY_BRIDGE_MOVE_PCALL => src_none && dst_none
  end.

(** The plan is a pointer that may be null. *)
Definition poly_bridge_plan_add_op (kind : poly_bridge_move_kind) (src dst : poly_abi_loc)
    (imm : Z) : cmd (option poly_bridge_plan) := fun plan =>
  match plan with
  | None => (None, -1)
  | Some p =>
      if (POLY_BRIDGE_PLAN_MAX_OPS <=? pl_op_count p)%nat then (Some p, -1)
      else
        (Some (MkPlan (pl_caller p) (pl_callee p)
          (<[pl_op_count p := MkOp kind src dst imm]> (pl_ops p)) (S (pl_op_count p))
          (pl_signature_slot p) (pl_needs_x86_tls_wrapper p) (pl_needs_state_key p)), 0)
  end.

Definition loc_is_register_like (loc : poly_abi_loc) : bool :=
  is_kind POLY_ABI_LOC_GPR loc || is_kind POLY_ABI_LOC_FPR loc ||
  is_kind POLY_ABI_LOC_VEC loc || is_kind POLY_ABI_LOC_SRET_PTR loc.

Definition add_move_for_locs (src dst : poly_abi_loc) : cmd (option poly_bridge_plan) :=
  if negb (loc_size src =? loc_size dst) then fail
  else if loc_is_register_like src && loc_is_register_like dst then
    poly_bridge_plan_add_op POLY_BRIDGE_MOVE_REG_TO_REG src dst 0
  else if loc_is_register_like src && is_kind POLY_ABI_LOC_STACK dst then
    poly_bridge_plan_add_op POLY_BRIDGE_MOVE_REG_TO_STACK src dst 0
  else if is_kind POLY_ABI_LOC_STACK src && loc_is_register_like dst then
    poly_bridge_plan_add_op POLY_BRIDGE_MOVE_STACK_TO_REG src dst 0
  else if is_kind POLY_ABI_LOC_STACK src && is_kind POLY_ABI_LOC_STACK dst then
    poly_bridge_plan_add_op POLY_BRIDGE_MOVE_STACK_TO_STACK src dst 0
  else fail.

Definition add_arg_moves (caller_layout callee_layout : poly_abi_layout)
    : cmd (option poly_bridge_plan) :=
  if negb (lay_arg_count caller_layout =? lay_arg_count callee_layout)%nat then fail
  else for_from 0 (lay_arg_count caller_layout) (fun arg =>
    let src_arg := lay_args caller_layout !!! arg in
    let dst_arg := lay_args callee_layout !!! arg in
    if negb (la_loc_count src_arg =? la_loc_count dst_arg)%nat then fail
    else for_from 0 (la_loc_count src_arg) (fun loc =>
      add_move_for_locs (la_locs src_arg !!! loc) (la_locs dst_arg !!! loc))).

Definition add_ret_moves (caller_layout callee_layout : poly_abi_layout)
    : cmd (option poly_bridge_plan) :=
  if negb (lay_ret_count caller_layout =? lay_ret_count callee_layout)%nat then fail
  else for_from 0 (lay_ret_count caller_layout) (fun ret =>
    add_move_for_locs (lay_ret callee_layout !!! ret) (lay_ret caller_layout !!! ret)).

Definition poly_bridge_plan_validate (plan : option poly_bridge_plan) : Z :=
  match plan with
  | None => -1
  | Some p =>
      if negb (valid_arch (pl_caller p)) || negb (valid_arch (pl_callee p)) then -1
      else if (POLY_BRIDGE_PLAN_MAX_OPS <? pl_op_count p)%nat then -1
      else if forallb (fun n =>
                let op := pl_ops p !!! n in
                valid_loc (op_src op) && valid_loc (op_dst op) && valid_op_locs op)
              (seq 0 (pl_op_count p))
           then 0 else -1
  end.

Definition set_slot_and_key (slot key : Z) (p : poly_bridge_plan) : poly_bridge_plan :=
  MkPlan (pl_caller p) (pl_callee p) (pl_ops p) (pl_op_count p) slot
    (pl_needs_x86_tls_wrapper p) key.

Definition poly_bridge_plan_from_layouts (caller_layout callee_layout : option poly_abi_layout)
    (signature_slot needs_state_key : Z) (plan : option poly_bridge_plan)
    : option poly_bridge_plan * Z :=
  match caller_layout, callee_layout, plan with
  | Some caller, Some callee, Some plan0 =>
      if negb (valid_arch (lay_arch caller)) || negb (valid_arch (lay_arch callee)) then
        (Some plan0, -1)
      else
        let none := poly_abi_loc_none in
        let key := if needs_state_key =? 0 then 0 else 1 in
        let p := set_slot_and_key signature_slot key
                   (poly_bridge_plan_init (lay_arch caller) (lay_arch callee)) in
        let body :=
          (if key =? 0 then ret0
           else poly_bridge_plan_add_op POLY_BRIDGE_MOVE_SET_STATE_KEY none none 0) ;;;
          (if signature_slot =? POLY_BRIDGE_PLAN_NO_SIGNATURE_SLOT then ret0
           else poly_bridge_plan_add_op POLY_BRIDGE_MOVE_SET_SIGNATURE_SLOT none none
                  signature_slot) ;;;
          add_arg_moves caller callee ;;;
          poly_bridge_plan_add_op POLY_BRIDGE_MOVE_PCALL none none 0 ;;;
          add_ret_moves caller callee ;;;
          (fun plan => (plan, poly_bridge_plan_validate plan)) in
        body (Some p)
  | _, _, _ => (plan, -1)
  end.

(** The uninitialised locals [sig], [caller_layout] and [callee_layout] are
    the zero objects; each callee overwrites them before it reads them. *)
Definition poly_bridge_plan_from_descriptor_kind (caller callee bridge_kind : Z)
    (signature_slot needs_state_key : Z) (plan : option poly_bridge_plan)
    : option poly_bridge_plan * Z :=
  let '(sig, r0) := poly_abi_descriptor_decode_kind bridge_kind (Some zero_sig) in
  if negb (r0 =? 0) then (plan, -1)
  else
    let '(caller_layout, r1) :=
      poly_classify_call_abi caller sig (Some (poly_abi_layout_init 0)) in
    if negb (r1 =? 0) then (plan, -1)
    else
      let '(callee_layout, r2) :=
        poly_classify_call_abi callee sig (Some (poly_abi_layout_init 0)) in
      if negb (r2 =? 0) then (plan, -1)
      else poly_bridge_plan_from_layouts caller_layout callee_layout
             signature_slot needs_state_key plan.

(** ** Reference: the operations a plan should hold *)

(** The instruction that moves between two locations, if there is one. *)
Definition move_kind (src dst : poly_abi_loc) : option poly_bridge_move_kind :=
  match loc_is_register_like src, is_kind POLY_ABI_LOC_STACK src,
        loc_is_register_like dst, is_kind POLY_ABI_LOC_STACK dst with
  | true, _, true, _ => Some POLY_BRIDGE_MOVE_REG_TO_REG
  | true, _, _, true => Some POLY_BRIDGE_MOVE_REG_TO_STACK
  | _, true, true, _ => Some POLY_BRIDGE_MOVE_STACK_TO_REG
  | _, true, _, true => Some POLY_BRIDGE_MOVE_STACK_TO_STACK
  | _, _, _, _ => None
  end.

Definition move_ops (src dst : poly_abi_loc) : option (list poly_bridge_op) :=
  if loc_size src =? loc_size dst
  then (fun k => [MkOp k src dst 0]) <$> move_kind src dst else None.

Definition app_ops (x y : option (list poly_bridge_op)) : option (list poly_bridge_op) :=
  a ← x; b ← y; Some (a ++ b).

(** Moves between two lists of locations of the same length. *)
Fixpoint moves_ops (srcs dsts : list poly_abi_loc) : option (list poly_bridge_op) :=
  match srcs, dsts with
  | [], [] => Some []
  | src :: srcs', dst :: dsts' => app_ops (move_ops src dst) (moves_ops srcs' dsts')
  | _, _ => None
  end.

Fixpoint args_ops (srcs dsts : list poly_abi_layout_arg) : option (list poly_bridge_op) :=
  match srcs, dsts with
  | [], [] => Some []
  | src :: srcs', dst :: dsts' =>
      app_ops (moves_ops (arg_locs src) (arg_locs dst)) (args_ops srcs' dsts')
  | _, _ => None
  end.

Definition used_args (l : poly_abi_layout) : list poly_abi_layout_arg :=
  take (lay_arg_count l) (lay_args l).
Definition used_arg_locs (l : poly_abi_layout) : list poly_abi_loc :=
  mjoin (arg_locs <$> used_args l).

Definition control_op (kind : poly_bridge_move_kind) (imm : Z) : poly_bridge_op :=
  MkOp kind poly_abi_loc_none poly_abi_loc_none imm.

Definition setup_ops (signature_slot needs_state_key : Z) : list poly_bridge_op :=
  (if needs_state_key =? 0 then [] else [control_op POLY_BRIDGE_MOVE_SET_STATE_KEY 0]) ++
  (if signature_slot =? POLY_BRIDGE_PLAN_NO_SIGNATURE_SLOT then []
   else [control_op POLY_BRIDGE_MOVE_SET_SIGNATURE_SLOT signature_slot]).

Definition plan_reference (caller callee : poly_abi_layout)
    (signature_slot needs_state_key : Z) : option (list poly_bridge_op) :=
  args ← args_ops (used_args caller) (used_args callee);
  rets ← moves_ops (ret_locs callee) (ret_locs caller);
  Some (setup_ops signature_slot needs_state_key ++ args ++
        [control_op POLY_BRIDGE_MOVE_PCALL 0] ++ rets).

(** The operations in use of a plan, and the extents of its array. *)
Definition plan_ops (p : poly_bridge_plan) : list poly_bridge_op :=
  take (pl_op_count p) (pl_ops p).

Definition wf_plan (p : poly_bridge_plan) : Prop :=
  length (pl_ops p) = POLY_BRIDGE_PLAN_MAX_OPS /\
  (pl_op_count p <= POLY_BRIDGE_PLAN_MAX_OPS)%nat.

Definition same_header (p q : poly_bridge_plan) : Prop :=
  pl_caller q = pl_caller p /\ pl_callee q = pl_callee p /\
  pl_signature_slot q = pl_signature_slot p /\
  pl_needs_x86_tls_wrapper q = pl_needs_x86_tls_wrapper p /\
  pl_needs_state_key q = pl_needs_state_key p.

Definition valid_op (op : poly_bridge_op) : bool :=
  valid_loc (op_src op) && valid_loc (op_dst op) && valid_op_locs op.

(** ** The builder emits what the reference says *)

(** [c] appends the operations [r] when there are such and they fit, and
    returns [-1] otherwise. *)
Definition emits (c : cmd (option poly_bridge_plan)) (r : option (list poly_bridge_op)) : Prop :=
  forall p, wf_plan p ->
  (exists ops, r = Some ops /\ (pl_op_count p + length ops <= POLY_BRIDGE_PLAN_MAX_OPS)%nat /\
     exists q, c (Some p) = (Some q, 0) /\ wf_plan q /\ same_header p q /\
               plan_ops q = plan_ops p ++ ops) \/
  ((forall ops, r = Some ops -> (POLY_BRIDGE_PLAN_MAX_OPS < pl_op_count p + length ops)%nat) /\
   exists q, c (Some p) = (Some q, -1)).

#[export] Instance same_header_preorder : PreOrder same_header.
Proof.
  split; unfold same_header; [by intros p|].
  intros p q r (?&?&?&?&?) (?&?&?&?&?). split_and!; congruence.
Qed.

Lemma plan_ops_length (p : poly_bridge_plan) :
  wf_plan p -> length (plan_ops p) = pl_op_count p.
Proof. intros [Hl Hc]. unfold plan_ops. rewrite length_take. lia. Qed.

Lemma emits_nil : emits ret0 (Some []).
Proof.
  intros p Hp. left. exists []. destruct Hp. split; [done|]. split; [simpl; lia|].
  exists p. rewrite app_nil_r. done.
Qed.

Lemma emits_none : emits fail None.
Proof. intros p Hp. right. split; [done|]. by exists p. Qed.

Lemma emits_add_op kind src dst imm :
  emits (poly_bridge_plan_add_op kind src dst imm) (Some [MkOp kind src dst imm]).
Proof.
  intros p [Hl Hc]. unfold poly_bridge_plan_add_op.
  destruct (Nat.leb_spec POLY_BRIDGE_PLAN_MAX_OPS (pl_op_count p)).
  - right. split; [|by exists p]. intros ops [= <-]. simpl. lia.
  - left. eexists. split; [done|]. split; [simpl; lia|].
    eexists. split; [done|]. split; [split; simpl; [by rewrite length_insert|lia]|].
    split; [done|]. unfold plan_ops. simpl. apply take_S_insert. lia.
Qed.

Lemma emits_seq c d r1 r2 : emits c r1 -> emits d r2 -> emits (c ;;; d) (app_ops r1 r2).
Proof.
  intros Hc Hd p Hp.
  destruct (Hc p Hp) as [(a & -> & Ha & q & Hq & Hwq & Hh & Hops) | (Hno & q & Hq)].
  - destruct (Hd q Hwq) as [(b & -> & Hb & q2 & Hq2 & Hwq2 & Hh2 & Hops2) | (Hno & q2 & Hq2)];
      pose proof (plan_ops_length q Hwq) as Hlq; rewrite Hops, length_app, plan_ops_length in Hlq
      by done.
    + left. exists (a ++ b). split; [done|]. rewrite length_app. split; [lia|].
      exists q2. split; [apply andthen_ok; eauto|]. split; [done|].
      split; [by etransitivity|]. by rewrite Hops2, Hops, app_assoc.
    + right. split.
      * intros ops. destruct r2 as [b|]; [|done]. intros [= <-].
        specialize (Hno b eq_refl). rewrite length_app. lia.
      * exists q2. unfold andthen. rewrite Hq. simpl. done.
  - right. split.
    + intros ops. destruct r1 as [a|]; [|done]. destruct r2 as [b|]; [|done].
      intros [= <-]. specialize (Hno a eq_refl). rewrite length_app. lia.
    + exists q. unfold andthen. by rewrite Hq.
Qed.

#[export] Hint Resolve emits_nil emits_none emits_add_op emits_seq : poly.

Lemma emits_move (src dst : poly_abi_loc) : emits (add_move_for_locs src dst) (move_ops src dst).
Proof.
  unfold add_move_for_locs, move_ops, move_kind.
  destruct (loc_size src =? loc_size dst); [|eauto with poly].
  destruct (loc_is_register_like src), (is_kind POLY_ABI_LOC_STACK src),
    (loc_is_register_like dst), (is_kind POLY_ABI_LOC_STACK dst); simpl; eauto with poly.
Qed.

(** Lists of different lengths have no moves, whatever the reference does on
    the common prefix. *)
Lemma moves_ops_length (xs ys : list poly_abi_loc) : forall ops,
  moves_ops xs ys = Some ops -> length xs = length ys /\ length ops = length xs.
Proof.
  revert ys. induction xs as [|x xs IH]; intros [|y ys] ops; simpl; try done.
  - by intros [= <-].
  - unfold app_ops, move_ops. destruct (_ =? _); [|done].
    destruct (move_kind x y); [|done]. simpl.
    destruct (moves_ops xs ys) as [o|] eqn:E; [|done]. simpl. intros [= <-].
    destruct (IH ys o E). simpl. lia.
Qed.

(** A loop over an index range emits the concatenation over the lists that the
    range covers. *)
Lemma emits_for {A} (f : A -> A -> option (list poly_bridge_op))
    (ref : list A -> list A -> option (list poly_bridge_op))
    (body : nat -> cmd (option poly_bridge_plan)) (k : nat) :
  ref [] [] = Some [] ->
  (forall x y xs ys, ref (x :: xs) (y :: ys) = app_ops (f x y) (ref xs ys)) ->
  forall (i : nat) (xs ys : list A),
  length xs = k -> length ys = k ->
  (forall j x y, xs !! j = Some x -> ys !! j = Some y -> emits (body (i + j)%nat) (f x y)) ->
  emits (for_from i k body) (ref xs ys).
Proof.
  intros Hnil Hcons. induction k as [|k IH]; intros i [|x xs] [|y ys] Hx Hy Hb; simplify_eq/=.
  - rewrite Hnil. apply emits_nil.
  - rewrite Hcons. apply emits_seq.
    + rewrite <- (Nat.add_0_r i). by apply Hb.
    + apply IH; [done..|]. intros j x' y' Hx' Hy'. replace (S i + j)%nat with (i + S j)%nat by lia. by apply Hb.
Qed.

Lemma lookup_take_total {A} `{Inhabited A} (l : list A) (n j : nat) (x : A) :
  take n l !! j = Some x -> l !!! j = x.
Proof. intros [H1 _]%lookup_take_Some. by apply list_lookup_total_correct. Qed.

(** The moves between the parts of one argument, and between the results. *)
Lemma emits_parts (xs ys : list poly_abi_loc) (m n : nat) :
  (m <= length xs)%nat -> (n <= length ys)%nat ->
  emits (if negb (m =? n)%nat then fail
         else for_from 0 m (fun j => add_move_for_locs (xs !!! j) (ys !!! j)))
    (moves_ops (take m xs) (take n ys)).
Proof.
  intros Hx Hy. destruct (Nat.eqb_spec m n) as [-> | Hne]; simpl.
  - eapply (emits_for move_ops moves_ops); [done..| | |].
    + rewrite length_take. lia.
    + rewrite length_take. lia.
    + intros j x y Hj Hj'. simpl. rewrite (lookup_take_total _ _ _ _ Hj).
      rewrite (lookup_take_total _ _ _ _ Hj'). apply emits_move.
  - destruct (moves_ops _ _) as [ops|] eqn:E; [|apply emits_none].
    apply moves_ops_length in E as [E _]. rewrite !length_take in E. lia.
Qed.

Lemma args_ops_length (xs ys : list poly_abi_layout_arg) : forall ops,
  args_ops xs ys = Some ops -> length xs = length ys.
Proof.
  revert ys. induction xs as [|x xs IH]; intros [|y ys] ops; simpl; try done.
  unfold app_ops. destruct (moves_ops _ _) as [a|]; [|done]. simpl.
  destruct (args_ops xs ys) as [b|] eqn:E; [|done]. intros _. f_equal. by eapply IH.
Qed.

Lemma emits_args (caller callee : poly_abi_layout) :
  wf_layout caller -> wf_layout callee ->
  emits (add_arg_moves caller callee) (args_ops (used_args caller) (used_args callee)).
Proof.
  intros (Hl1 & Hw1 & Hc1 & _) (Hl2 & Hw2 & Hc2 & _).
  unfold add_arg_moves, used_args.
  destruct (Nat.eqb_spec (lay_arg_count caller) (lay_arg_count callee)) as [Heq | Hne]; simpl.
  - eapply (emits_for (fun x y => moves_ops (arg_locs x) (arg_locs y)) args_ops);
      [done..|rewrite length_take; lia|rewrite length_take; lia|].
    intros j x y Hx Hy. simpl.
    rewrite (lookup_take_total _ _ _ _ Hx), (lookup_take_total _ _ _ _ Hy).
    apply lookup_take_Some in Hx as [Hx _], Hy as [Hy _].
    pose proof (Forall_lookup_1 _ _ _ _ Hw1 Hx) as [? ?].
    pose proof (Forall_lookup_1 _ _ _ _ Hw2 Hy) as [? ?].
    apply emits_parts; lia.
  - destruct (args_ops _ _) as [ops|] eqn:E; [|apply emits_none].
    apply args_ops_length in E. rewrite !length_take in E. lia.
Qed.

Lemma emits_rets (caller callee : poly_abi_layout) :
  wf_layout caller -> wf_layout callee ->
  emits (add_ret_moves caller callee) (moves_ops (ret_locs callee) (ret_locs caller)).
Proof.
  intros (_ & _ & _ & Hl1 & Hc1) (_ & _ & _ & Hl2 & Hc2). unfold add_ret_moves.
  destruct (Nat.eqb_spec (lay_ret_count caller) (lay_ret_count callee)) as [Heq | Hne]; simpl.
  - pose proof (emits_parts (lay_ret callee) (lay_ret caller) (lay_ret_count callee)
      (lay_ret_count caller) ltac:(lia) ltac:(lia)) as H.
    rewrite Heq in H. rewrite Nat.eqb_refl in H. unfold ret_locs. by rewrite Heq.
  - destruct (moves_ops _ _) as [ops|] eqn:E; [|apply emits_none].
    apply moves_ops_length in E as [E _]. unfold ret_locs in E. rewrite !length_take in E. lia.
Qed.

(** ** Capacity and validation *)

Lemma moves_ops_app (xs ys : list poly_abi_loc) : forall (xs' ys' : list poly_abi_loc) a b,
  moves_ops xs ys = Some a -> moves_ops xs' ys' = Some b ->
  moves_ops (xs ++ xs') (ys ++ ys') = Some (a ++ b).
Proof.
  revert ys. induction xs as [|x xs IH]; intros [|y ys] xs' ys' a b; simpl; try done.
  - by intros [= <-].
  - unfold app_ops. destruct (move_ops x y) as [m|]; [|done]. simpl.
    destruct (moves_ops xs ys) as [o|] eqn:E; [|done]. simpl. intros [= <-] Hb.
    rewrite (IH ys xs' ys' o b E Hb). simpl. by rewrite app_assoc.
Qed.

(** The argument moves are the moves between the flattened locations. *)
Lemma args_ops_flat (xs ys : list poly_abi_layout_arg) : forall ops,
  args_ops xs ys = Some ops ->
  moves_ops (mjoin (arg_locs <$> xs)) (mjoin (arg_locs <$> ys)) = Some ops.
Proof.
  revert ys. induction xs as [|x xs IH]; intros [|y ys] ops; simpl; try done.
  unfold app_ops. destruct (moves_ops (arg_locs x) (arg_locs y)) as [a|] eqn:Ea; [|done]. simpl.
  destruct (args_ops xs ys) as [b|] eqn:Eb; [|done]. simpl. intros [= <-].
  by apply moves_ops_app; [|apply IH].
Qed.

Lemma used_arg_locs_length (l : poly_abi_layout) :
  wf_layout l -> (length (used_arg_locs l) <= 64)%nat.
Proof.
  intros (Hl & Hw & Hc & _). unfold used_arg_locs, used_args.
  assert (forall xs, Forall wf_layout_arg xs ->
    (length (mjoin (arg_locs <$> xs)) <= 4 * length xs)%nat) as Hm.
  { induction 1 as [|a xs [Ha Hb] _ IH]; [simpl; lia|].
    change (length (arg_locs a ++ mjoin (arg_locs <$> xs)) <= 4 * S (length xs))%nat.
    rewrite length_app. unfold arg_locs at 1. rewrite length_take.
    unfold POLY_ABI_LOC_MAX_PARTS in *. lia. }
  specialize (Hm _ (Forall_take _ (lay_arg_count l) _ Hw)).
  rewrite length_take in Hm. unfold POLY_ABI_LAYOUT_MAX_ARGS, POLY_FUNCTION_SIG_MAX_ARGS in *. lia.
Qed.

Lemma setup_ops_length (slot key : Z) : (length (setup_ops slot key) <= 2)%nat.
Proof. unfold setup_ops. destruct_ifs; simpl; lia. Qed.

Lemma plan_reference_length (caller callee : poly_abi_layout) (slot key : Z) ops :
  wf_layout caller -> wf_layout callee ->
  plan_reference caller callee slot key = Some ops -> (length ops <= 71)%nat.
Proof.
  intros Hw1 Hw2. unfold plan_reference.
  destruct (args_ops _ _) as [a|] eqn:Ea; [|done]. simpl.
  destruct (moves_ops _ _) as [b|] eqn:Eb; [|done]. simpl. intros [= <-].
  apply args_ops_flat, moves_ops_length in Ea as [_ Ea].
  apply moves_ops_length in Eb as [_ Eb].
  pose proof (used_arg_locs_length caller Hw1) as Hu. unfold used_arg_locs in Hu.
  destruct Hw2 as (_ & _ & _ & Hr & Hrc). unfold ret_locs in Eb. rewrite length_take in Eb.
  pose proof (setup_ops_length slot key) as Hs. rewrite !length_app. simpl.
  unfold POLY_ABI_LAYOUT_MAX_RET in *. lia.
Qed.

Definition nonempty (l : poly_abi_loc) : bool := negb (loc_size l =? 0).

Lemma move_ops_valid (src dst : poly_abi_loc) ops :
  move_ops src dst = Some ops -> forallb valid_op ops = nonempty src.
Proof.
  unfold move_ops, nonempty. destruct (Z.eqb_spec (loc_size src) (loc_size dst)) as [He|]; [|done].
  unfold move_kind, loc_is_register_like, is_kind, valid_op, valid_op_locs, valid_loc, is_kind.
  destruct src as [ks rs os zs], dst as [kd rd od zd]. simpl in He |- *. subst zd.
  destruct ks, kd; simpl; intros; simplify_eq/=; by destruct (negb (zs =? 0)).
Qed.

Lemma moves_ops_valid (xs ys : list poly_abi_loc) : forall ops,
  moves_ops xs ys = Some ops -> forallb valid_op ops = forallb nonempty xs.
Proof.
  revert ys. induction xs as [|x xs IH]; intros [|y ys] ops; simpl; try done.
  - by intros [= <-].
  - unfold app_ops. destruct (move_ops x y) as [m|] eqn:Em; [|done]. simpl.
    destruct (moves_ops xs ys) as [o|] eqn:Eo; [|done]. simpl. intros [= <-].
    by rewrite forallb_app, (move_ops_valid _ _ _ Em), (IH _ _ Eo).
Qed.

Lemma plan_reference_valid (caller callee : poly_abi_layout) (slot key : Z) ops :
  plan_reference caller callee slot key = Some ops ->
  forallb valid_op ops = forallb nonempty (used_arg_locs caller) &&
                         forallb nonempty (ret_locs callee).
Proof.
  unfold plan_reference. destruct (args_ops _ _) as [a|] eqn:Ea; [|done]. simpl.
  destruct (moves_ops _ _) as [b|] eqn:Eb; [|done]. simpl. intros [= <-].
  apply args_ops_flat, moves_ops_valid in Ea. apply moves_ops_valid in Eb.
  rewrite forallb_app. assert (forallb valid_op (setup_ops slot key) = true) as ->.
  { unfold setup_ops. by destruct_ifs. }
  rewrite forallb_app. simpl. by rewrite Ea, Eb.
Qed.

(** Validation checks exactly the operations in use. *)
Lemma validate_spec (p : poly_bridge_plan) :
  wf_plan p -> valid_arch (pl_caller p) = true -> valid_arch (pl_callee p) = true ->
  poly_bridge_plan_validate (Some p) = if forallb valid_op (plan_ops p) then 0 else -1.
Proof.
  intros [Hl Hc] H1 H2. unfold poly_bridge_plan_validate. rewrite H1, H2. simpl.
  destruct (Nat.ltb_spec POLY_BRIDGE_PLAN_MAX_OPS (pl_op_count p)); [lia|].
  enough (forallb (fun n => valid_op (pl_ops p !!! n)) (seq 0 (pl_op_count p)) =
          forallb valid_op (plan_ops p)) as <- by done.
  apply eq_true_iff_eq. rewrite !List.forallb_forall. unfold plan_ops. split.
  - intros Ha op Hin. apply list_elem_of_In, list_elem_of_lookup in Hin as [i Hi].
    pose proof Hi as Hi'. apply lookup_take_Some in Hi' as [_ Hlt].
    rewrite <- (lookup_take_total _ _ _ _ Hi). apply Ha, List.in_seq. lia.
  - intros Ha n Hn%List.in_seq. apply Ha, list_elem_of_In, list_elem_of_lookup.
    exists n. rewrite lookup_take_lt by lia. apply list_lookup_lookup_total_lt. lia.
Qed.

(** ** The builder refines the reference *)

Lemma wf_plan_init (caller callee slot key : Z) :
  wf_plan (set_slot_and_key slot key (poly_bridge_plan_init caller callee)).
Proof. split; [done|]. simpl. lia. Qed.

Lemma emits_setup (slot needs_state_key : Z) :
  emits ((if (if needs_state_key =? 0 then 0 else 1) =? 0 then ret0
          else poly_bridge_plan_add_op POLY_BRIDGE_MOVE_SET_STATE_KEY
                 poly_abi_loc_none poly_abi_loc_none 0) ;;;
         (if slot =? POLY_BRIDGE_PLAN_NO_SIGNATURE_SLOT then ret0
          else poly_bridge_plan_add_op POLY_BRIDGE_MOVE_SET_SIGNATURE_SLOT
                 poly_abi_loc_none poly_abi_loc_none slot))
    (Some (setup_ops slot needs_state_key)).
Proof.
  unfold setup_ops.
  assert (forall a b, Some (a ++ b) = app_ops (Some a) (Some b)) as -> by done.
  apply emits_seq; destruct_ifs; try discriminate; eauto with poly; apply emits_add_op.
Qed.

Lemma andthen_regroup {S} (a b c d e f : cmd S) (s : S) :
  (a ;;; b ;;; c ;;; d ;;; e ;;; f) s = (((a ;;; b) ;;; c ;;; d ;;; e) ;;; f) s.
Proof.
  unfold andthen. destruct (a s) as [s1 r1]. destruct (r1 =? 0); [|done].
  destruct (b s1) as [s2 r2]. destruct (r2 =? 0); [|done].
  destruct (c s2) as [s3 r3]. destruct (r3 =? 0); [|done].
  destruct (d s3) as [s4 r4]. destruct (r4 =? 0); [|done].
  destruct (e s4) as [s5 r5]. by destruct (r5 =? 0).
Qed.

Lemma emits_body (caller callee : poly_abi_layout) (slot key : Z) :
  wf_layout caller -> wf_layout callee ->
  emits (((if (if key =? 0 then 0 else 1) =? 0 then ret0
           else poly_bridge_plan_add_op POLY_BRIDGE_MOVE_SET_STATE_KEY
                  poly_abi_loc_none poly_abi_loc_none 0) ;;;
          (if slot =? POLY_BRIDGE_PLAN_NO_SIGNATURE_SLOT then ret0
           else poly_bridge_plan_add_op POLY_BRIDGE_MOVE_SET_SIGNATURE_SLOT
                  poly_abi_loc_none poly_abi_loc_none slot)) ;;;
         add_arg_moves caller callee ;;;
         poly_bridge_plan_add_op POLY_BRIDGE_MOVE_PCALL poly_abi_loc_none poly_abi_loc_none 0 ;;;
         add_ret_moves caller callee)
    (plan_reference caller callee slot key).
Proof.
  intros H1 H2.
  assert (plan_reference caller callee slot key =
    app_ops (Some (setup_ops slot key))
      (app_ops (args_ops (used_args caller) (used_args callee))
        (app_ops (Some [control_op POLY_BRIDGE_MOVE_PCALL 0])
          (moves_ops (ret_locs callee) (ret_locs caller))))) as ->.
  { unfold plan_reference, app_ops. simpl.
    destruct (args_ops _ _); [|done]. simpl. by destruct (moves_ops _ _). }
  apply emits_seq; [apply emits_setup|]. apply emits_seq; [by apply emits_args|].
  apply emits_seq; [apply emits_add_op|by apply emits_rets].
Qed.

Definition plan_header (caller callee : poly_abi_layout) (slot key : Z)
    (p : poly_bridge_plan) : Prop :=
  pl_caller p = lay_arch caller /\ pl_callee p = lay_arch callee /\
  pl_signature_slot p = slot /\ pl_needs_x86_tls_wrapper p = 0 /\
  pl_needs_state_key p = (if key =? 0 then 0 else 1).

Lemma from_layouts_spec (caller callee : poly_abi_layout) (slot key : Z) (p0 : poly_bridge_plan) :
  wf_layout caller -> wf_layout callee ->
  valid_arch (lay_arch caller) = true -> valid_arch (lay_arch callee) = true ->
  (exists ops p, plan_reference caller callee slot key = Some ops /\
     forallb nonempty (used_arg_locs caller ++ ret_locs callee) = true /\
     poly_bridge_plan_from_layouts (Some caller) (Some callee) slot key (Some p0) = (Some p, 0) /\
     plan_ops p = ops /\ wf_plan p /\ plan_header caller callee slot key p) \/
  ((plan_reference caller callee slot key = None \/
    forallb nonempty (used_arg_locs caller ++ ret_locs callee) = false) /\
   exists p, poly_bridge_plan_from_layouts (Some caller) (Some callee) slot key (Some p0) =
     (p, -1)).
Proof.
  intros Hw1 Hw2 Hv1 Hv2. unfold poly_bridge_plan_from_layouts. rewrite Hv1, Hv2. simpl negb.
  simpl orb. cbv iota. set (p := set_slot_and_key _ _ _).
  pose proof (wf_plan_init (lay_arch caller) (lay_arch callee) slot
    (if key =? 0 then 0 else 1)) as Hwp. fold p in Hwp.
  pose proof (emits_body caller callee slot key Hw1 Hw2 p Hwp) as He.
  set (pre := (_ ;;; _) : cmd (option poly_bridge_plan)) in He.
  rewrite andthen_regroup. fold pre.
  destruct He as [(ops & Href & Hcap & q & Hq & Hwq & Hh & Hops) | (Hno & q & Hq)].
  - simpl in Hops. assert (plan_ops q = ops) as Hqo by (by rewrite Hops).
    destruct Hh as (Hc1 & Hc2 & Hc3 & Hc4 & Hc5).
    pose proof (plan_reference_valid _ _ _ _ _ Href) as Hval.
    unfold andthen. rewrite Hq. change (0 =? 0) with true. cbv iota. rewrite validate_spec, Hqo, Hval, <- forallb_app;
      [|done|by rewrite Hc1|by rewrite Hc2].
    destruct (forallb nonempty (_ ++ _)) eqn:Hne; [left|right; eauto].
    exists ops, q. by split_and!.
  - right. split; [|exists (Some q); unfold andthen; by rewrite Hq].
    left. destruct (plan_reference _ _ _ _) as [ops|] eqn:E; [|done].
    pose proof (plan_reference_length _ _ _ _ _ Hw1 Hw2 E). specialize (Hno ops eq_refl).
    simpl in Hno. unfold POLY_BRIDGE_PLAN_MAX_OPS in Hno. lia.
Qed.

(** ** Plans for descriptor kinds *)

Lemma from_descriptor_unfold (caller callee kind slot key : Z) (p0 : poly_bridge_plan) :
  0 <= kind < POLY_PROCESS_BRIDGE_KIND_COUNT ->
  valid_arch caller = true -> valid_arch callee = true ->
  exists l1 l2,
    poly_classify_call_abi caller (Some (kind_sig kind)) (Some (poly_abi_layout_init 0)) =
      (Some l1, 0) /\
    poly_classify_call_abi callee (Some (kind_sig kind)) (Some (poly_abi_layout_init 0)) =
      (Some l2, 0) /\
    layout_ok (arch_gprs caller) (kind_sig kind) l1 /\ lay_arch l1 = caller /\
    layout_ok (arch_gprs callee) (kind_sig kind) l2 /\ lay_arch l2 = callee /\
    poly_bridge_plan_from_descriptor_kind caller callee kind slot key (Some p0) =
      poly_bridge_plan_from_layouts (Some l1) (Some l2) slot key (Some p0).
Proof.
  intros Hk H1 H2. destruct (decode_kind_sound kind zero_sig Hk) as (Hd & Hwf & _).
  destruct (classify_call_spec caller _ (poly_abi_layout_init 0) H1 Hwf) as (l1 & E1 & O1 & A1 & _).
  destruct (classify_call_spec callee _ (poly_abi_layout_init 0) H2 Hwf) as (l2 & E2 & O2 & A2 & _).
  exists l1, l2. split_and!; try done. unfold poly_bridge_plan_from_descriptor_kind.
  rewrite Hd. simpl negb. cbv iota. by rewrite E1, E2.
Qed.

Lemma from_descriptor_inputs (caller callee kind slot key : Z) (p0 p : poly_bridge_plan) :
  poly_bridge_plan_from_descriptor_kind caller callee kind slot key (Some p0) = (Some p, 0) ->
  0 <= kind < POLY_PROCESS_BRIDGE_KIND_COUNT /\ valid_arch caller = true /\
  valid_arch callee = true.
Proof.
  assert (forall a s o, valid_arch a = false -> poly_classify_call_abi a s o = (o, -1)) as Hbad.
  { intros a s o Ha. unfold valid_arch in Ha. breflect. unfold poly_classify_call_abi.
    by rewrite !(proj2 (Z.eqb_neq _ _)). }
  assert (0 <= kind < POLY_PROCESS_BRIDGE_KIND_COUNT \/
          ~ (0 <= kind < POLY_PROCESS_BRIDGE_KIND_COUNT)) as [Hk | Hk] by lia.
  - unfold poly_bridge_plan_from_descriptor_kind.
    destruct (decode_kind_sound kind zero_sig Hk) as (Hd & _). rewrite Hd. simpl negb. cbv iota.
    destruct (valid_arch caller) eqn:H1; [|by rewrite Hbad].
    destruct (valid_arch callee) eqn:H2; [done|].
    destruct (poly_classify_call_abi caller _ _) as [l1 r1].
    destruct (negb (r1 =? 0)); [done|]. by rewrite Hbad.
  - unfold poly_bridge_plan_from_descriptor_kind, poly_abi_descriptor_decode_kind.
    by rewrite descriptor_case_none.
Qed.

(** ** Properties *)

(** C25: the builder refines its reference: on well-formed layouts of known
    architectures it succeeds exactly when the two sides agree part by part
    (same number of arguments, parts and results, same sizes, none of them
    empty), and the plan then holds the state-key and signature-slot setup as
    requested, one move per argument part in order, the call, and one move per
    result part in order; it never needs more than 71 of the 128 slots, so
    capacity is never the reason of a failure. *)
Theorem plan_refines_reference (caller callee : poly_abi_layout) (slot key : Z)
    (p0 : poly_bridge_plan) :
  wf_layout caller -> wf_layout callee ->
  valid_arch (lay_arch caller) = true -> valid_arch (lay_arch callee) = true ->
  (exists ops p, plan_reference caller callee slot key = Some ops /\
     forallb nonempty (used_arg_locs caller ++ ret_locs callee) = true /\
     poly_bridge_plan_from_layouts (Some caller) (Some callee) slot key (Some p0) = (Some p, 0) /\
     plan_ops p = ops /\ (length ops <= 71)%nat /\ plan_header caller callee slot key p) \/
  ((plan_reference caller callee slot key = None \/
    forallb nonempty (used_arg_locs caller ++ ret_locs callee) = false) /\
   exists p, poly_bridge_plan_from_layouts (Some caller) (Some callee) slot key (Some p0) =
     (p, -1)).
Proof.
  intros Hw1 Hw2 Hv1 Hv2.
  destruct (from_layouts_spec caller callee slot key p0 Hw1 Hw2 Hv1 Hv2)
    as [(ops & p & Href & Hne & Hf & Hops & _ & Hh) | Hbad]; [left|by right].
  exists ops, p. do 4 (split; [done|]). split; [|done].
  exact (plan_reference_length _ _ _ _ _ Hw1 Hw2 Href).
Qed.

(** [poly_bridge_plan_validate] decides validity: it returns 0 exactly for
    a plan between known architectures with at most 128 operations in use, each
    of which has well-formed locations of the kinds its instruction takes, and
    -1 for any other plan and for a null pointer. *)
Theorem validate_decides (p : poly_bridge_plan) :
  length (pl_ops p) = POLY_BRIDGE_PLAN_MAX_OPS ->
  poly_bridge_plan_validate None = -1 /\
  (poly_bridge_plan_validate (Some p) = 0 \/ poly_bridge_plan_validate (Some p) = -1) /\
  (poly_bridge_plan_validate (Some p) = 0 <->
   valid_arch (pl_caller p) = true /\ valid_arch (pl_callee p) = true /\
   (pl_op_count p <= POLY_BRIDGE_PLAN_MAX_OPS)%nat /\
   Forall (fun op => valid_loc (op_src op) = true /\ valid_loc (op_dst op) = true /\
                     valid_op_locs op = true) (plan_ops p)).
Proof.
  intros Hl. split; [done|].
  destruct (valid_arch (pl_caller p)) eqn:H1; [destruct (valid_arch (pl_callee p)) eqn:H2|].
  - destruct (decide (pl_op_count p <= POLY_BRIDGE_PLAN_MAX_OPS)%nat) as [Hc | Hc].
    + rewrite validate_spec; [|by split|done|done]. split; [destruct (forallb _ _); auto|].
      rewrite List.Forall_forall. split.
      * destruct (forallb _ _) eqn:E; [|done]. intros _. rewrite List.forallb_forall in E.
        split_and!; try done. intros op Hop. specialize (E op Hop). unfold valid_op in E.
        breflect. done.
      * intros (_ & _ & _ & Hall). rewrite (proj2 (List.forallb_forall _ _)); [done|].
        intros op Hop. destruct (Hall op Hop) as (Ha & Hb & Hc'). unfold valid_op.
        by rewrite Ha, Hb, Hc'.
    + unfold poly_bridge_plan_validate. rewrite H1, H2. simpl.
      destruct (Nat.ltb_spec POLY_BRIDGE_PLAN_MAX_OPS (pl_op_count p)); [|lia].
      split; [by right|]. split; [done|]. by intros (_ & _ & ? & _).
  - unfold poly_bridge_plan_validate. rewrite H1, H2. simpl. split; [by right|].
    split; [done|]. by intros (_ & ? & _).
  - unfold poly_bridge_plan_validate. rewrite H1. simpl. split; [by right|].
    split; [done|]. by intros (? & _).
Qed.

(** ** The matrix of [tools/tests/poly_bridge_ir_test.c] *)

(** Operation count of a successful plan, [0] when there is none. *)
Definition plan_ops_of (caller callee kind : Z) : nat :=
  let '(p, r) := poly_bridge_plan_from_descriptor_kind caller callee kind
    POLY_BRIDGE_PLAN_NO_SIGNATURE_SLOT 0 (Some (poly_bridge_plan_init 0 0)) in
  if r =? 0 then default 0%nat (pl_op_count <$> p) else 0%nat.

(** For every descriptor kind and every ordered pair of different
    architectures, the number of operations of its plan ([0] when no plan is
    built): the x86 pairs have none for the kinds whose parts x86 lays out
    differently (packed single-precision pairs and the HFA kinds), the
    AArch64/RISC-V pairs have one for every kind. *)
Theorem descriptor_plan_matrix :
  (fun k => [plan_ops_of 0 1 k; plan_ops_of 0 2 k; plan_ops_of 1 0 k;
             plan_ops_of 1 2 k; plan_ops_of 2 0 k; plan_ops_of 2 1 k]) <$> all_kinds =
  [[2;2;2;2;2;2]; [4;4;4;4;4;4]; [0;0;0;4;0;4]; [0;0;0;4;0;4]; [11;11;11;11;11;11];
   [2;2;2;2;2;2]; [2;2;2;2;2;2]; [0;0;0;7;0;7]; [0;0;0;9;0;9]; [0;0;0;4;0;4];
   [5;5;5;5;5;5]; [0;0;0;5;0;5]; [6;6;6;6;6;6]; [0;0;0;6;0;6]; [0;0;0;7;0;7];
   [5;5;5;5;5;5]; [5;5;5;5;5;5]; [0;0;0;7;0;7]; [0;0;0;9;0;9]; [0;0;0;6;0;6];
   [0;0;0;7;0;7]]%nat.
Proof. vm_compute. reflexivity. Qed.

Definition stack9_layout (arch : Z) : poly_abi_layout :=
  layout_of arch (kind_sig POLY_PROCESS_BRIDGE_U64_STACK9).

Lemma check_layout_wf (arch k : Z) :
  valid_arch arch = true -> 0 <= k < POLY_PROCESS_BRIDGE_KIND_COUNT ->
  wf_layout (layout_of arch (kind_sig k)) /\ lay_arch (layout_of arch (kind_sig k)) = arch.
Proof.
  intros Hv Hk. destruct (decode_kind_sound k zero_sig Hk) as (_ & Hwf & _).
  destruct (classify_call_spec arch _ (poly_abi_layout_init arch) Hv Hwf)
    as (l & Hl & Hok & Ha & _).
  unfold layout_of. rewrite Hl. simpl. split; [apply Hok|done].
Qed.

Lemma plan_refines_reference_witness :
  let caller := stack9_layout POLY_ABI_ARCH_X86 in
  let callee := stack9_layout POLY_ABI_ARCH_AARCH64 in
  (exists ops p, plan_reference caller callee 3 1 = Some ops /\
     forallb nonempty (used_arg_locs caller ++ ret_locs callee) = true /\
     poly_bridge_plan_from_layouts (Some caller) (Some callee) 3 1
       (Some (poly_bridge_plan_init 0 0)) = (Some p, 0) /\
     plan_ops p = ops /\ (length ops <= 71)%nat /\ plan_header caller callee 3 1 p) \/
  ((plan_reference caller callee 3 1 = None \/
    forallb nonempty (used_arg_locs caller ++ ret_locs callee) = false) /\
   exists p, poly_bridge_plan_from_layouts (Some caller) (Some callee) 3 1
     (Some (poly_bridge_plan_init 0 0)) = (p, -1)).
Proof.
  apply (plan_refines_reference (stack9_layout POLY_ABI_ARCH_X86)
    (stack9_layout POLY_ABI_ARCH_AARCH64) 3 1 (poly_bridge_plan_init 0 0)).
  - apply check_layout_wf; [reflexivity|split; [discriminate|reflexivity]].
  - apply check_layout_wf; [reflexivity|split; [discriminate|reflexivity]].
  - vm_compute. reflexivity.
  - vm_compute. reflexivity.
Defined.

Definition two_op_plan : poly_bridge_plan :=
  MkPlan POLY_ABI_ARCH_X86 POLY_ABI_ARCH_RISCV
    (<[0%nat := MkOp POLY_BRIDGE_MOVE_REG_TO_STACK (poly_abi_loc_reg POLY_ABI_LOC_GPR 5 8)
                  (poly_abi_loc_stack 0 8) 0]>
      (<[1%nat := control_op POLY_BRIDGE_MOVE_PCALL 0]>
        (replicate POLY_BRIDGE_PLAN_MAX_OPS zero_op))) 2 7 0 0.

Lemma validate_decides_witness :
  poly_bridge_plan_validate None = -1 /\
  (poly_bridge_plan_validate (Some two_op_plan) = 0 \/
   poly_bridge_plan_validate (Some two_op_plan) = -1) /\
  (poly_bridge_plan_validate (Some two_op_plan) = 0 <->
   valid_arch (pl_caller two_op_plan) = true /\ valid_arch (pl_callee two_op_plan) = true /\
   (pl_op_count two_op_plan <= POLY_BRIDGE_PLAN_MAX_OPS)%nat /\
   Forall (fun op => valid_loc (op_src op) = true /\ valid_loc (op_dst op) = true /\
                     valid_op_locs op = true) (plan_ops two_op_plan)).
Proof. apply (validate_decides two_op_plan). reflexivity. Defined.
