(* ===== verification/BridgeMachine.v ===== *)
(** What a bridge plan does when it is executed.  The operations of
    [poly_bridge_plan.h] are given a meaning on a two-sided machine: each side
    has a byte-addressed store (integer registers, FP/vector registers, stack
    arguments); the moves before the call copy from the caller's side to the
    callee's, the call runs the callee on its own side, the moves after it copy
    back.  The main theorem says that a plan built by
    [poly_bridge_plan_from_layouts] delivers every argument byte to the callee
    and every result byte to the caller and touches nothing else: the moves of
    one phase never overwrite each other's results. *)

From S2P Require Import Prelude AbiType AbiCursor AbiClassify AbiDescriptor BridgePlan.

(** ** The machine *)

(** Register file (or the stack, file 3), register number, byte number. *)
Definition addr : Type := Z * Z * Z.
Definition store : Type := addr -> Z.

(** The address of byte [b] of a location, and whether a location holds an
    address. *)
Definition loc_addr (l : poly_abi_loc) (b : Z) : addr :=
  match loc_kind l with
  | POLY_ABI_LOC_STACK => (reg_file (loc_kind l), 0, loc_stack_offset l + b)
  | k => (reg_file k, loc_reg l, b)
  end.

Definition loc_byte (l : poly_abi_loc) (a : addr) : option Z :=
  let '(f, r, b) := a in
  let '(base, reg) := match loc_kind l with
                      | POLY_ABI_LOC_STACK => (loc_stack_offset l, 0)
                      | _ => (0, loc_reg l)
                      end in
  if (f =? reg_file (loc_kind l)) && (r =? reg) && (base <=? b) && (b <? base + loc_size l)
  then Some (b - base) else None.

(** Copy the bytes of [src] in [from] to [dst] in [to]. *)
Definition copy_loc (src dst : poly_abi_loc) (from to : store) : store := fun a =>
  match loc_byte dst a with
  | Some b => from (loc_addr src b)
  | None => to a
  end.

Record machine : Type := MkMachine {
  m_caller : store;
  m_callee : store;
  m_called : bool;
  m_state_key : bool;
  m_slot : option Z;
}.

(** One operation. The builder never emits an immediate load or a register
    save or restore, and they have no meaning here. *)
Definition exec_op (callee_code : store -> store) (op : poly_bridge_op) (m : machine)
    : option machine :=
  match op_kind op with
  | POLY_BRIDGE_MOVE_REG_TO_REG | POLY_BRIDGE_MOVE_REG_TO_STACK
  | POLY_BRIDGE_MOVE_STACK_TO_REG | POLY_BRIDGE_MOVE_STACK_TO_STACK =>
      if m_called m then
        Some (MkMachine (copy_loc (op_src op) (op_dst op) (m_callee m) (m_caller m))
                (m_callee m) true (m_state_key m) (m_slot m))
      else
        Some (MkMachine (m_caller m)
                (copy_loc (op_src op) (op_dst op) (m_caller m) (m_callee m))
                false (m_state_key m) (m_slot m))
  | POLY_BRIDGE_MOVE_SET_STATE_KEY =>
      Some (MkMachine (m_caller m) (m_callee m) (m_called m) true (m_slot m))
  | POLY_BRIDGE_MOVE_SET_SIGNATURE_SLOT =>
      Some (MkMachine (m_caller m) (m_callee m) (m_called m) (m_state_key m) (Some (op_imm op)))
  | POLY_BRIDGE_MOVE_PCALL =>
      if m_called m then None
      else Some (MkMachine (m_caller m) (callee_code (m_callee m)) true (m_state_key m) (m_slot m))
  | POLY_BRIDGE_MOVE_LOAD_IMM | POLY_BRIDGE_MOVE_SAVE_CALLER_REG
  | POLY_BRIDGE_MOVE_RESTORE_CALLER_REG => None
  end.

Fixpoint exec_ops (callee_code : store -> store) (ops : list poly_bridge_op) (m : machine)
    : option machine :=
  match ops with
  | [] => Some m
  | op :: ops' => m' ← exec_op callee_code op m; exec_ops callee_code ops' m'
  end.

Definition copy_all (pairs : list (poly_abi_loc * poly_abi_loc)) (from to : store) : store :=
  foldl (fun s p => copy_loc p.1 p.2 from s) to pairs.

(** ** Copying between disjoint locations *)

Lemma loc_byte_addr (l : poly_abi_loc) (b : Z) :
  0 <= b < loc_size l -> loc_byte l (loc_addr l b) = Some b.
Proof.
  intros Hb. unfold loc_byte, loc_addr.
  destruct (loc_kind l); simpl reg_file; rewrite !Z.eqb_refl; simpl;
    repeat (rewrite (proj2 (Z.leb_le _ _)) by lia; simpl);
    rewrite (proj2 (Z.ltb_lt _ _)) by lia; f_equal; lia.
Qed.

(** Disjoint locations hold no common address. *)
Lemma disjoint_byte (x y : poly_abi_loc) (b : Z) :
  disjoint x y -> 0 <= b < loc_size x -> loc_byte y (loc_addr x b) = None.
Proof.
  unfold disjoint, loc_byte, loc_addr. intros Hd Hb.
  destruct (loc_kind x), (loc_kind y); simpl in *; try done;
    repeat match goal with |- context [?u =? ?v] => destruct (Z.eqb_spec u v); simpl; try done end;
    repeat match goal with |- context [?u <=? ?v] => destruct (Z.leb_spec u v); simpl; try done end;
    repeat match goal with |- context [?u <? ?v] => destruct (Z.ltb_spec u v); simpl; try done end;
    lia.
Qed.

(** An address outside every destination is not written. *)
Lemma copy_all_frame (pairs : list (poly_abi_loc * poly_abi_loc)) (from to : store) (a : addr) :
  Forall (fun p => loc_byte p.2 a = None) pairs -> copy_all pairs from to a = to a.
Proof.
  unfold copy_all. intros H. revert to.
  induction H as [|[src dst] pairs Hp _ IH]; intros to; simpl; [done|].
  rewrite IH. unfold copy_loc. simpl in Hp. by rewrite Hp.
Qed.

(** Every destination ends with the bytes of its source, provided the
    destinations do not overlap. *)
Lemma copy_all_delivers (pairs : list (poly_abi_loc * poly_abi_loc)) (from to : store) :
  pairwise_disjoint (pairs.*2) ->
  Forall (fun p => forall b, 0 <= b < loc_size p.2 ->
    copy_all pairs from to (loc_addr p.2 b) = from (loc_addr p.1 b)) pairs.
Proof.
  revert to. induction pairs as [|[src dst] pairs IH]; intros to Hd; [constructor|].
  inversion Hd as [|x xs Hx Hxs]; subst. simpl in Hx. constructor.
  - intros b Hb. simpl in Hb |- *. change (copy_all ((src, dst) :: pairs) from to)
      with (copy_all pairs from (copy_loc src dst from to)).
    rewrite copy_all_frame.
    + unfold copy_loc. by rewrite loc_byte_addr.
    + apply List.Forall_forall. intros p Hp. apply disjoint_byte; [|done].
      rewrite List.Forall_forall in Hx. apply Hx. by apply (List.in_map snd).
  - apply (IH (copy_loc src dst from to) Hxs).
Qed.

(** ** Executing the moves *)

Lemma exec_ops_app (code : store -> store) (a b : list poly_bridge_op) (m : machine) :
  exec_ops code (a ++ b) m = (exec_ops code a m ≫= exec_ops code b).
Proof.
  revert m. induction a as [|op a IH]; intros m; simpl; [done|].
  destruct (exec_op code op m); simpl; [apply IH|done].
Qed.

Lemma exec_moves (code : store -> store) (xs ys : list poly_abi_loc) : forall ops m,
  moves_ops xs ys = Some ops ->
  exec_ops code ops m = Some
    (if m_called m then
       MkMachine (copy_all (zip xs ys) (m_callee m) (m_caller m)) (m_callee m) true
         (m_state_key m) (m_slot m)
     else
       MkMachine (m_caller m) (copy_all (zip xs ys) (m_caller m) (m_callee m)) false
         (m_state_key m) (m_slot m)).
Proof.
  revert ys. induction xs as [|x xs IH]; intros [|y ys] ops m; simpl; try done.
  - intros [= <-]. simpl. by destruct m as [? ? [] ? ?].
  - unfold app_ops, move_ops. destruct (_ =? _); [|done].
    destruct (move_kind x y) as [k|] eqn:Hk; [|done]. simpl.
    destruct (moves_ops xs ys) as [o|] eqn:Ho; [|done]. simpl. intros [= <-]. simpl.
    assert (exec_op code (MkOp k x y 0) m = Some
      (if m_called m then MkMachine (copy_loc x y (m_callee m) (m_caller m)) (m_callee m) true
         (m_state_key m) (m_slot m)
       else MkMachine (m_caller m) (copy_loc x y (m_caller m) (m_callee m)) false
         (m_state_key m) (m_slot m))) as ->.
    { unfold move_kind in Hk. unfold exec_op. simpl.
      destruct (loc_is_register_like x), (is_kind POLY_ABI_LOC_STACK x),
        (loc_is_register_like y), (is_kind POLY_ABI_LOC_STACK y); simplify_eq/=;
        by destruct (m_called m). }
    simpl. rewrite (IH ys o _ Ho). by destruct (m_called m).
Qed.

Lemma exec_setup (code : store -> store) (slot key : Z) (m : machine) :
  exec_ops code (setup_ops slot key) m = Some
    (MkMachine (m_caller m) (m_callee m) (m_called m)
       (if key =? 0 then m_state_key m else true)
       (if slot =? POLY_BRIDGE_PLAN_NO_SIGNATURE_SLOT then m_slot m else Some slot)).
Proof. unfold setup_ops. destruct m. destruct_ifs; reflexivity. Qed.

(** The whole plan. *)
Lemma exec_plan (code : store -> store) (caller callee : poly_abi_layout) (slot key : Z) ops
    (c d : store) :
  plan_reference caller callee slot key = Some ops ->
  let at_call := copy_all (zip (used_arg_locs caller) (used_arg_locs callee)) c d in
  exec_ops code ops (MkMachine c d false false None) = Some
    (MkMachine (copy_all (zip (ret_locs callee) (ret_locs caller)) (code at_call) c)
       (code at_call) true (negb (key =? 0))
       (if slot =? POLY_BRIDGE_PLAN_NO_SIGNATURE_SLOT then None else Some slot)).
Proof.
  unfold plan_reference. destruct (args_ops _ _) as [a|] eqn:Ea; [|done]. simpl.
  destruct (moves_ops _ _) as [b|] eqn:Eb; [|done]. simpl. intros [= <-].
  apply args_ops_flat in Ea. rewrite exec_ops_app, exec_setup. simpl.
  rewrite exec_ops_app, (exec_moves _ _ _ _ _ Ea). simpl.
  rewrite (exec_moves _ _ _ _ _ Eb). simpl. by destruct (key =? 0).
Qed.

Lemma zip_snd {A B} (xs : list A) (ys : list B) :
  length xs = length ys -> (zip xs ys).*2 = ys.
Proof. intros H. apply snd_zip. lia. Qed.

Lemma pairwise_prefix (xs ys : list poly_abi_loc) :
  pairwise_disjoint (xs ++ ys) -> pairwise_disjoint xs.
Proof.
  unfold pairwise_disjoint. induction xs as [|x xs IH]; simpl; intros H; [constructor|].
  inversion H as [|? ? Hx Hxs]; subst. constructor; [|by apply IH].
  by apply Forall_app in Hx as [Hx _].
Qed.

Lemma used_prefix (l : poly_abi_layout) :
  pairwise_disjoint (all_arg_locs l) -> pairwise_disjoint (used_arg_locs l).
Proof.
  unfold all_arg_locs, used_arg_locs, used_args. intros H.
  rewrite <- (take_drop (lay_arg_count l) (lay_args l)), fmap_app, join_app in H.
  by apply pairwise_prefix in H.
Qed.

(** ** Delivery *)

(** What the machine has done after the plan [p]: [c], [d] are the stores
    before it, [c'] the caller's store after it. *)
Record delivered (code : store -> store) (caller callee : poly_abi_layout)
    (c d c' : store) : Prop := {
  dl_at_call : exists s,
    (* the callee sees every argument byte *)
    Forall (fun p => forall b, 0 <= b < loc_size p.2 ->
       s (loc_addr p.2 b) = c (loc_addr p.1 b))
      (zip (used_arg_locs caller) (used_arg_locs callee)) /\
    (* and its other bytes are as they were *)
    (forall a, Forall (fun l => loc_byte l a = None) (used_arg_locs callee) -> s a = d a) /\
    (* the caller gets every result byte *)
    Forall (fun p => forall b, 0 <= b < loc_size p.2 ->
       c' (loc_addr p.2 b) = code s (loc_addr p.1 b))
      (zip (ret_locs callee) (ret_locs caller)) /\
    (* and keeps the rest of its state *)
    (forall a, Forall (fun l => loc_byte l a = None) (ret_locs caller) -> c' a = c a);
}.

Lemma frame_zip (xs ys : list poly_abi_loc) (a : addr) :
  Forall (fun l => loc_byte l a = None) ys ->
  Forall (fun p : poly_abi_loc * poly_abi_loc => loc_byte p.2 a = None) (zip xs ys).
Proof.
  intros H. revert xs. induction H as [|y ys Hy _ IH]; intros [|x xs]; simpl; try constructor; auto.
Qed.

Lemma reference_delivers (code : store -> store) (caller callee : poly_abi_layout)
    (slot key : Z) ops (c d : store) :
  plan_reference caller callee slot key = Some ops ->
  pairwise_disjoint (used_arg_locs callee) -> pairwise_disjoint (ret_locs caller) ->
  exists m, exec_ops code ops (MkMachine c d false false None) = Some m /\
    m_called m = true /\ delivered code caller callee c d (m_caller m).
Proof.
  intros Href Hd1 Hd2. rewrite (exec_plan code _ _ _ _ _ c d Href).
  eexists. split; [done|]. split; [done|]. simpl.
  unfold plan_reference in Href. destruct (args_ops _ _) as [a|] eqn:Ea; [|done]. simpl in Href.
  destruct (moves_ops _ _) as [b|] eqn:Eb; [|done].
  apply args_ops_flat, moves_ops_length in Ea as [Ea _].
  apply moves_ops_length in Eb as [Eb _].
  constructor. eexists. split_and!.
  - apply copy_all_delivers. by rewrite zip_snd.
  - intros x Hx. by apply copy_all_frame, frame_zip.
  - apply copy_all_delivers. by rewrite zip_snd.
  - intros x Hx. by apply copy_all_frame, frame_zip.
Qed.

(** ** Properties *)


Definition stack9_plan : poly_bridge_plan :=
  default (poly_bridge_plan_init 0 0)
    (poly_bridge_plan_from_descriptor_kind POLY_ABI_ARCH_X86 POLY_ABI_ARCH_AARCH64
       POLY_PROCESS_BRIDGE_U64_STACK9 3 1 (Some (poly_bridge_plan_init 0 0))).1.

