(* ===== verification/SyscallMap.v ===== *)
(** The table that translates the generic Linux system call numbers of the
    AArch64 and RISC-V guests to x86-64 numbers,
    [poly_generic_linux_syscall_to_x86] of [tools/runtime/polyexec.c].

    The [SYS_*] names are the x86-64 numbers of [<sys/syscall.h>].  Some cases
    are compiled only when the host's headers define the name; which ones do is
    a parameter of the translation. *)

From S2P Require Import Prelude.

(** ** x86-64 system call numbers *)

Definition SYS_setxattr : Z := 188.
Definition SYS_lsetxattr : Z := 189.
Definition SYS_fsetxattr : Z := 190.
Definition SYS_getxattr : Z := 191.
Definition SYS_lgetxattr : Z := 192.
Definition SYS_fgetxattr : Z := 193.
Definition SYS_listxattr : Z := 194.
Definition SYS_llistxattr : Z := 195.
Definition SYS_flistxattr : Z := 196.
Definition SYS_removexattr : Z := 197.
Definition SYS_lremovexattr : Z := 198.
Definition SYS_fremovexattr : Z := 199.
Definition SYS_getcwd : Z := 79.
Definition SYS_eventfd2 : Z := 290.
Definition SYS_epoll_create1 : Z := 291.
Definition SYS_epoll_ctl : Z := 233.
Definition SYS_epoll_pwait : Z := 281.
Definition SYS_dup : Z := 32.
Definition SYS_dup3 : Z := 292.
Definition SYS_fcntl : Z := 72.
Definition SYS_inotify_init1 : Z := 294.
Definition SYS_inotify_add_watch : Z := 254.
Definition SYS_inotify_rm_watch : Z := 255.
Definition SYS_ioctl : Z := 16.
Definition SYS_ioprio_set : Z := 251.
Definition SYS_ioprio_get : Z := 252.
Definition SYS_flock : Z := 73.
Definition SYS_mknodat : Z := 259.
Definition SYS_mkdirat : Z := 258.
Definition SYS_unlinkat : Z := 263.
Definition SYS_symlinkat : Z := 266.
Definition SYS_linkat : Z := 265.
Definition SYS_renameat : Z := 264.
Definition SYS_umount2 : Z := 166.
Definition SYS_mount : Z := 165.
Definition SYS_pivot_root : Z := 155.
Definition SYS_statfs : Z := 137.
Definition SYS_fstatfs : Z := 138.
Definition SYS_truncate : Z := 76.
Definition SYS_ftruncate : Z := 77.
Definition SYS_fallocate : Z := 285.
Definition SYS_faccessat : Z := 269.
Definition SYS_chdir : Z := 80.
Definition SYS_fchdir : Z := 81.
Definition SYS_chroot : Z := 161.
Definition SYS_fchmod : Z := 91.
Definition SYS_fchmodat : Z := 268.
Definition SYS_fchownat : Z := 260.
Definition SYS_fchown : Z := 93.
Definition SYS_openat : Z := 257.
Definition SYS_close : Z := 3.
Definition SYS_pipe2 : Z := 293.
Definition SYS_getdents64 : Z := 217.
Definition SYS_lseek : Z := 8.
Definition SYS_read : Z := 0.
Definition SYS_write : Z := 1.
Definition SYS_readv : Z := 19.
Definition SYS_writev : Z := 20.
Definition SYS_pread64 : Z := 17.
Definition SYS_pwrite64 : Z := 18.
Definition SYS_preadv : Z := 295.
Definition SYS_pwritev : Z := 296.
Definition SYS_pselect6 : Z := 270.
Definition SYS_ppoll : Z := 271.
Definition SYS_signalfd4 : Z := 289.
Definition SYS_readlinkat : Z := 267.
Definition SYS_newfstatat : Z := 262.
Definition SYS_fstat : Z := 5.
Definition SYS_sync : Z := 162.
Definition SYS_fsync : Z := 74.
Definition SYS_fdatasync : Z := 75.
Definition SYS_sync_file_range : Z := 277.
Definition SYS_timerfd_create : Z := 283.
Definition SYS_timerfd_settime : Z := 286.
Definition SYS_timerfd_gettime : Z := 287.
Definition SYS_utimensat : Z := 280.
Definition SYS_capget : Z := 125.
Definition SYS_capset : Z := 126.
Definition SYS_personality : Z := 135.
Definition SYS_exit : Z := 60.
Definition SYS_exit_group : Z := 231.
Definition SYS_waitid : Z := 247.
Definition SYS_set_tid_address : Z := 218.
Definition SYS_futex : Z := 202.
Definition SYS_set_robust_list : Z := 273.
Definition SYS_get_robust_list : Z := 274.
Definition SYS_nanosleep : Z := 35.
Definition SYS_getitimer : Z := 36.
Definition SYS_setitimer : Z := 38.
Definition SYS_timer_create : Z := 222.
Definition SYS_timer_gettime : Z := 224.
Definition SYS_timer_getoverrun : Z := 225.
Definition SYS_timer_settime : Z := 223.
Definition SYS_timer_delete : Z := 226.
Definition SYS_clock_gettime : Z := 228.
Definition SYS_clock_getres : Z := 229.
Definition SYS_clock_nanosleep : Z := 230.
Definition SYS_sched_setparam : Z := 142.
Definition SYS_sched_setscheduler : Z := 144.
Definition SYS_sched_getscheduler : Z := 145.
Definition SYS_sched_getparam : Z := 143.
Definition SYS_sched_setaffinity : Z := 203.
Definition SYS_sched_getaffinity : Z := 204.
Definition SYS_sched_yield : Z := 24.
Definition SYS_sched_get_priority_max : Z := 146.
Definition SYS_sched_get_priority_min : Z := 147.
Definition SYS_kill : Z := 62.
Definition SYS_tkill : Z := 200.
Definition SYS_tgkill : Z := 234.
Definition SYS_sigaltstack : Z := 131.
Definition SYS_rt_sigsuspend : Z := 130.
Definition SYS_rt_sigaction : Z := 13.
Definition SYS_rt_sigprocmask : Z := 14.
Definition SYS_rt_sigpending : Z := 127.
Definition SYS_setpriority : Z := 141.
Definition SYS_getpriority : Z := 140.
Definition SYS_setregid : Z := 114.
Definition SYS_setgid : Z := 106.
Definition SYS_setreuid : Z := 113.
Definition SYS_setuid : Z := 105.
Definition SYS_setresuid : Z := 117.
Definition SYS_getresuid : Z := 118.
Definition SYS_setresgid : Z := 119.
Definition SYS_getresgid : Z := 120.
Definition SYS_setfsuid : Z := 122.
Definition SYS_setfsgid : Z := 123.
Definition SYS_times : Z := 100.
Definition SYS_setpgid : Z := 109.
Definition SYS_uname : Z := 63.
Definition SYS_getrlimit : Z := 97.
Definition SYS_setrlimit : Z := 160.
Definition SYS_getrusage : Z := 98.
Definition SYS_umask : Z := 95.
Definition SYS_prctl : Z := 157.
Definition SYS_getcpu : Z := 309.
Definition SYS_gettimeofday : Z := 96.
Definition SYS_getpgid : Z := 121.
Definition SYS_getsid : Z := 124.
Definition SYS_setsid : Z := 112.
Definition SYS_getgroups : Z := 115.
Definition SYS_setgroups : Z := 116.
Definition SYS_getpid : Z := 39.
Definition SYS_getppid : Z := 110.
Definition SYS_getuid : Z := 102.
Definition SYS_geteuid : Z := 107.
Definition SYS_getgid : Z := 104.
Definition SYS_getegid : Z := 108.
Definition SYS_gettid : Z := 186.
Definition SYS_sysinfo : Z := 99.
Definition SYS_mq_open : Z := 240.
Definition SYS_mq_unlink : Z := 241.
Definition SYS_mq_timedsend : Z := 242.
Definition SYS_mq_timedreceive : Z := 243.
Definition SYS_mq_notify : Z := 244.
Definition SYS_mq_getsetattr : Z := 245.
Definition SYS_msgget : Z := 68.
Definition SYS_msgctl : Z := 71.
Definition SYS_msgrcv : Z := 70.
Definition SYS_msgsnd : Z := 69.
Definition SYS_semget : Z := 64.
Definition SYS_semctl : Z := 66.
Definition SYS_semtimedop : Z := 220.
Definition SYS_semop : Z := 65.
Definition SYS_shmget : Z := 29.
Definition SYS_shmctl : Z := 31.
Definition SYS_shmat : Z := 30.
Definition SYS_shmdt : Z := 67.
Definition SYS_socket : Z := 41.
Definition SYS_socketpair : Z := 53.
Definition SYS_bind : Z := 49.
Definition SYS_listen : Z := 50.
Definition SYS_accept : Z := 43.
Definition SYS_connect : Z := 42.
Definition SYS_getsockname : Z := 51.
Definition SYS_getpeername : Z := 52.
Definition SYS_sendto : Z := 44.
Definition SYS_recvfrom : Z := 45.
Definition SYS_setsockopt : Z := 54.
Definition SYS_getsockopt : Z := 55.
Definition SYS_shutdown : Z := 48.
Definition SYS_sendmsg : Z := 46.
Definition SYS_recvmsg : Z := 47.
Definition SYS_brk : Z := 12.
Definition SYS_munmap : Z := 11.
Definition SYS_mremap : Z := 25.
Definition SYS_clone : Z := 56.
Definition SYS_execve : Z := 59.
Definition SYS_mmap : Z := 9.
Definition SYS_fadvise64 : Z := 221.
Definition SYS_mprotect : Z := 10.
Definition SYS_mlock : Z := 149.
Definition SYS_munlock : Z := 150.
Definition SYS_mlockall : Z := 151.
Definition SYS_munlockall : Z := 152.
Definition SYS_madvise : Z := 28.
Definition SYS_get_mempolicy : Z := 239.
Definition SYS_set_mempolicy : Z := 238.
Definition SYS_migrate_pages : Z := 256.
Definition SYS_move_pages : Z := 279.
Definition SYS_accept4 : Z := 288.
Definition SYS_recvmmsg : Z := 299.
Definition SYS_wait4 : Z := 61.
Definition SYS_prlimit64 : Z := 302.
Definition SYS_sendmmsg : Z := 307.
Definition SYS_renameat2 : Z := 316.
Definition SYS_seccomp : Z := 317.
Definition SYS_getrandom : Z := 318.
Definition SYS_memfd_create : Z := 319.
Definition SYS_bpf : Z := 321.
Definition SYS_userfaultfd : Z := 323.
Definition SYS_membarrier : Z := 324.
Definition SYS_mlock2 : Z := 325.
Definition SYS_preadv2 : Z := 327.
Definition SYS_pwritev2 : Z := 328.
Definition SYS_pkey_mprotect : Z := 329.
Definition SYS_pkey_alloc : Z := 330.
Definition SYS_pkey_free : Z := 331.
Definition SYS_statx : Z := 332.
Definition SYS_rseq : Z := 334.
Definition SYS_pidfd_send_signal : Z := 424.
Definition SYS_io_uring_setup : Z := 425.
Definition SYS_io_uring_enter : Z := 426.
Definition SYS_io_uring_register : Z := 427.
Definition SYS_open_tree : Z := 428.
Definition SYS_move_mount : Z := 429.
Definition SYS_fsopen : Z := 430.
Definition SYS_fsconfig : Z := 431.
Definition SYS_fsmount : Z := 432.
Definition SYS_fspick : Z := 433.
Definition SYS_pidfd_open : Z := 434.
Definition SYS_clone3 : Z := 435.
Definition SYS_close_range : Z := 436.
Definition SYS_openat2 : Z := 437.
Definition SYS_pidfd_getfd : Z := 438.
Definition SYS_faccessat2 : Z := 439.
Definition SYS_process_madvise : Z := 440.
Definition SYS_epoll_pwait2 : Z := 441.
Definition SYS_mount_setattr : Z := 442.
Definition SYS_quotactl_fd : Z := 443.
Definition SYS_landlock_create_ruleset : Z := 444.
Definition SYS_landlock_add_rule : Z := 445.
Definition SYS_landlock_restrict_self : Z := 446.
Definition SYS_memfd_secret : Z := 447.
Definition SYS_process_mrelease : Z := 448.
Definition SYS_futex_waitv : Z := 449.
Definition SYS_set_mempolicy_home_node : Z := 450.
Definition SYS_cachestat : Z := 451.
Definition SYS_fchmodat2 : Z := 452.
Definition SYS_map_shadow_stack : Z := 453.
Definition SYS_futex_wake : Z := 454.
Definition SYS_futex_wait : Z := 455.
Definition SYS_futex_requeue : Z := 456.
Definition SYS_statmount : Z := 457.
Definition SYS_listmount : Z := 458.
Definition SYS_lsm_get_self_attr : Z := 459.
Definition SYS_lsm_set_self_attr : Z := 460.
Definition SYS_lsm_list_modules : Z := 461.

(** ** The switch *)

(** One [case]: the generic number, the x86-64 number, and whether the case is
    inside an [#ifdef]. *)
Record syscall_case : Type := Case {
  case_number : Z;
  case_x86 : Z;
  case_optional : bool;
}.

(** The cases before number 179, and the rest, in the order of the source. *)
Definition syscall_cases_first : list syscall_case := [
  Case 5 SYS_setxattr false;
  Case 6 SYS_lsetxattr false;
  Case 7 SYS_fsetxattr false;
  Case 8 SYS_getxattr false;
  Case 9 SYS_lgetxattr false;
  Case 10 SYS_fgetxattr false;
  Case 11 SYS_listxattr false;
  Case 12 SYS_llistxattr false;
  Case 13 SYS_flistxattr false;
  Case 14 SYS_removexattr false;
  Case 15 SYS_lremovexattr false;
  Case 16 SYS_fremovexattr false;
  Case 17 SYS_getcwd false;
  Case 19 SYS_eventfd2 false;
  Case 20 SYS_epoll_create1 false;
  Case 21 SYS_epoll_ctl false;
  Case 22 SYS_epoll_pwait false;
  Case 23 SYS_dup false;
  Case 24 SYS_dup3 false;
  Case 25 SYS_fcntl false;
  Case 26 SYS_inotify_init1 false;
  Case 27 SYS_inotify_add_watch false;
  Case 28 SYS_inotify_rm_watch false;
  Case 29 SYS_ioctl false;
  Case 30 SYS_ioprio_set false;
  Case 31 SYS_ioprio_get false;
  Case 32 SYS_flock false;
  Case 33 SYS_mknodat false;
  Case 34 SYS_mkdirat false;
  Case 35 SYS_unlinkat false;
  Case 36 SYS_symlinkat false;
  Case 37 SYS_linkat false;
  Case 38 SYS_renameat false;
  Case 39 SYS_umount2 false;
  Case 40 SYS_mount false;
  Case 41 SYS_pivot_root false;
  Case 43 SYS_statfs false;
  Case 44 SYS_fstatfs false;
  Case 45 SYS_truncate false;
  Case 46 SYS_ftruncate false;
  Case 47 SYS_fallocate false;
  Case 48 SYS_faccessat false;
  Case 49 SYS_chdir false;
  Case 50 SYS_fchdir false;
  Case 51 SYS_chroot false;
  Case 52 SYS_fchmod false;
  Case 53 SYS_fchmodat false;
  Case 54 SYS_fchownat false;
  Case 55 SYS_fchown false;
  Case 56 SYS_openat false;
  Case 57 SYS_close false;
  Case 59 SYS_pipe2 false;
  Case 61 SYS_getdents64 false;
  Case 62 SYS_lseek false;
  Case 63 SYS_read false;
  Case 64 SYS_write false;
  Case 65 SYS_readv false;
  Case 66 SYS_writev false;
  Case 67 SYS_pread64 false;
  Case 68 SYS_pwrite64 false;
  Case 69 SYS_preadv false;
  Case 70 SYS_pwritev false;
  Case 72 SYS_pselect6 false;
  Case 73 SYS_ppoll false;
  Case 74 SYS_signalfd4 false;
  Case 78 SYS_readlinkat false;
  Case 79 SYS_newfstatat false;
  Case 80 SYS_fstat false;
  Case 81 SYS_sync false;
  Case 82 SYS_fsync false;
  Case 83 SYS_fdatasync false;
  Case 84 SYS_sync_file_range false;
  Case 85 SYS_timerfd_create false;
  Case 86 SYS_timerfd_settime false;
  Case 87 SYS_timerfd_gettime false;
  Case 88 SYS_utimensat false;
  Case 90 SYS_capget false;
  Case 91 SYS_capset false;
  Case 92 SYS_personality false;
  Case 93 SYS_exit false;
  Case 94 SYS_exit_group false;
  Case 95 SYS_waitid false;
  Case 96 SYS_set_tid_address false;
  Case 98 SYS_futex false;
  Case 99 SYS_set_robust_list false;
  Case 100 SYS_get_robust_list false;
  Case 101 SYS_nanosleep false;
  Case 102 SYS_getitimer false;
  Case 103 SYS_setitimer false;
  Case 107 SYS_timer_create false;
  Case 108 SYS_timer_gettime false;
  Case 109 SYS_timer_getoverrun false;
  Case 110 SYS_timer_settime false;
  Case 111 SYS_timer_delete false;
  Case 113 SYS_clock_gettime false;
  Case 114 SYS_clock_getres false;
  Case 115 SYS_clock_nanosleep false;
  Case 118 SYS_sched_setparam false;
  Case 119 SYS_sched_setscheduler false;
  Case 120 SYS_sched_getscheduler false;
  Case 121 SYS_sched_getparam false;
  Case 122 SYS_sched_setaffinity false;
  Case 123 SYS_sched_getaffinity false;
  Case 124 SYS_sched_yield false;
  Case 125 SYS_sched_get_priority_max false;
  Case 126 SYS_sched_get_priority_min false;
  Case 129 SYS_kill false;
  Case 130 SYS_tkill false;
  Case 131 SYS_tgkill false;
  Case 132 SYS_sigaltstack false;
  Case 133 SYS_rt_sigsuspend false;
  Case 134 SYS_rt_sigaction false;
  Case 135 SYS_rt_sigprocmask false;
  Case 136 SYS_rt_sigpending false;
  Case 140 SYS_setpriority false;
  Case 141 SYS_getpriority false;
  Case 143 SYS_setregid false;
  Case 144 SYS_setgid false;
  Case 145 SYS_setreuid false;
  Case 146 SYS_setuid false;
  Case 147 SYS_setresuid false;
  Case 148 SYS_getresuid false;
  Case 149 SYS_setresgid false;
  Case 150 SYS_getresgid false;
  Case 151 SYS_setfsuid false;
  Case 152 SYS_setfsgid false;
  Case 153 SYS_times false;
  Case 154 SYS_setpgid false;
  Case 160 SYS_uname false;
  Case 163 SYS_getrlimit false;
  Case 164 SYS_setrlimit false;
  Case 165 SYS_getrusage false;
  Case 166 SYS_umask false;
  Case 167 SYS_prctl false;
  Case 168 SYS_getcpu false;
  Case 169 SYS_gettimeofday false;
  Case 155 SYS_getpgid false;
  Case 156 SYS_getsid false;
  Case 157 SYS_setsid false;
  Case 158 SYS_getgroups false;
  Case 159 SYS_setgroups false;
  Case 172 SYS_getpid false;
  Case 173 SYS_getppid false;
  Case 174 SYS_getuid false;
  Case 175 SYS_geteuid false;
  Case 176 SYS_getgid false;
  Case 177 SYS_getegid false;
  Case 178 SYS_gettid false
].

Definition syscall_cases_second : list syscall_case := [
  Case 179 SYS_sysinfo false;
  Case 180 SYS_mq_open true;
  Case 181 SYS_mq_unlink true;
  Case 182 SYS_mq_timedsend true;
  Case 183 SYS_mq_timedreceive true;
  Case 184 SYS_mq_notify true;
  Case 185 SYS_mq_getsetattr true;
  Case 186 SYS_msgget false;
  Case 187 SYS_msgctl false;
  Case 188 SYS_msgrcv false;
  Case 189 SYS_msgsnd false;
  Case 190 SYS_semget false;
  Case 191 SYS_semctl false;
  Case 192 SYS_semtimedop false;
  Case 193 SYS_semop false;
  Case 194 SYS_shmget false;
  Case 195 SYS_shmctl false;
  Case 196 SYS_shmat false;
  Case 197 SYS_shmdt false;
  Case 198 SYS_socket false;
  Case 199 SYS_socketpair false;
  Case 200 SYS_bind false;
  Case 201 SYS_listen false;
  Case 202 SYS_accept false;
  Case 203 SYS_connect false;
  Case 204 SYS_getsockname false;
  Case 205 SYS_getpeername false;
  Case 206 SYS_sendto false;
  Case 207 SYS_recvfrom false;
  Case 208 SYS_setsockopt false;
  Case 209 SYS_getsockopt false;
  Case 210 SYS_shutdown false;
  Case 211 SYS_sendmsg false;
  Case 212 SYS_recvmsg false;
  Case 214 SYS_brk false;
  Case 215 SYS_munmap false;
  Case 216 SYS_mremap false;
  Case 220 SYS_clone false;
  Case 221 SYS_execve false;
  Case 222 SYS_mmap false;
  Case 223 SYS_fadvise64 false;
  Case 226 SYS_mprotect false;
  Case 228 SYS_mlock false;
  Case 229 SYS_munlock false;
  Case 230 SYS_mlockall false;
  Case 231 SYS_munlockall false;
  Case 233 SYS_madvise false;
  Case 236 SYS_get_mempolicy false;
  Case 237 SYS_set_mempolicy false;
  Case 238 SYS_migrate_pages false;
  Case 239 SYS_move_pages false;
  Case 242 SYS_accept4 false;
  Case 243 SYS_recvmmsg false;
  Case 260 SYS_wait4 false;
  Case 261 SYS_prlimit64 false;
  Case 269 SYS_sendmmsg false;
  Case 276 SYS_renameat2 false;
  Case 277 SYS_seccomp false;
  Case 278 SYS_getrandom false;
  Case 279 SYS_memfd_create false;
  Case 280 SYS_bpf false;
  Case 282 SYS_userfaultfd false;
  Case 283 SYS_membarrier false;
  Case 284 SYS_mlock2 false;
  Case 286 SYS_preadv2 true;
  Case 287 SYS_pwritev2 true;
  Case 288 SYS_pkey_mprotect false;
  Case 289 SYS_pkey_alloc false;
  Case 290 SYS_pkey_free false;
  Case 291 SYS_statx false;
  Case 293 SYS_rseq false;
  Case 424 SYS_pidfd_send_signal false;
  Case 425 SYS_io_uring_setup false;
  Case 426 SYS_io_uring_enter false;
  Case 427 SYS_io_uring_register false;
  Case 428 SYS_open_tree false;
  Case 429 SYS_move_mount false;
  Case 430 SYS_fsopen false;
  Case 431 SYS_fsconfig false;
  Case 432 SYS_fsmount false;
  Case 433 SYS_fspick false;
  Case 434 SYS_pidfd_open false;
  Case 435 SYS_clone3 false;
  Case 436 SYS_close_range false;
  Case 437 SYS_openat2 false;
  Case 438 SYS_pidfd_getfd false;
  Case 439 SYS_faccessat2 false;
  Case 440 SYS_process_madvise false;
  Case 441 SYS_epoll_pwait2 false;
  Case 442 SYS_mount_setattr false;
  Case 443 SYS_quotactl_fd true;
  Case 444 SYS_landlock_create_ruleset false;
  Case 445 SYS_landlock_add_rule false;
  Case 446 SYS_landlock_restrict_self false;
  Case 447 SYS_memfd_secret true;
  Case 448 SYS_process_mrelease false;
  Case 449 SYS_futex_waitv false;
  Case 450 SYS_set_mempolicy_home_node false;
  Case 451 SYS_cachestat true;
  Case 452 SYS_fchmodat2 true;
  Case 453 SYS_map_shadow_stack true;
  Case 454 SYS_futex_wake true;
  Case 455 SYS_futex_wait true;
  Case 456 SYS_futex_requeue true;
  Case 457 SYS_statmount true;
  Case 458 SYS_listmount true;
  Case 459 SYS_lsm_get_self_attr true;
  Case 460 SYS_lsm_set_self_attr true;
  Case 461 SYS_lsm_list_modules true
].

Definition syscall_cases : list syscall_case := syscall_cases_first ++ syscall_cases_second.

(** The first case with this label that is compiled in. *)
Fixpoint find_case (header_defines : Z -> bool) (number : Z) (cases : list syscall_case)
    : option Z :=
  match cases with
  | [] => None
  | c :: cases' =>
      if (case_number c =? number) && (negb (case_optional c) || header_defines (case_x86 c))
      then Some (case_x86 c)
      else find_case header_defines number cases'
  end.

(** [None]: the function returns 0 and leaves [*x86_number] alone. *)
Definition poly_generic_linux_syscall_to_x86 (header_defines : Z -> bool) (number : Z)
    : option Z := find_case header_defines number syscall_cases.

(** ** Properties of the table *)

Lemma find_case_in (hdr : Z -> bool) (n x : Z) (cases : list syscall_case) :
  find_case hdr n cases = Some x ->
  exists c, In c cases /\ case_number c = n /\ case_x86 c = x.
Proof.
  induction cases as [|c cases IH]; simpl; [done|].
  destruct ((case_number c =? n) && _) eqn:E.
  - intros [= <-]. breflect. exists c. auto.
  - intros H. destruct (IH H) as (d & ? & ?). exists d. auto.
Qed.

Lemma find_case_total (hdr : Z -> bool) (n : Z) (cases : list syscall_case) (c : syscall_case) :
  In c cases -> NoDup (case_number <$> cases) -> case_number c = n ->
  case_optional c = false \/ hdr (case_x86 c) = true ->
  find_case hdr n cases = Some (case_x86 c).
Proof.
  intros Hin Hnd <- Hopt. induction cases as [|d cases IH]; [done|].
  apply NoDup_cons in Hnd as [Hni Hnd]. destruct Hin as [-> | Hin]; simpl.
  - rewrite Z.eqb_refl. by destruct Hopt as [-> | ->]; [|rewrite orb_true_r].
  - destruct (Z.eqb_spec (case_number d) (case_number c)) as [He|]; [|by apply IH].
    exfalso. apply Hni. simpl. rewrite He. apply list_elem_of_In, List.in_map, Hin.
Qed.

Lemma labels_nodup : NoDup (case_number <$> syscall_cases).
Proof. apply (bool_decide_unpack _). vm_compute. exact I. Qed.

Lemma targets_nodup : NoDup (case_x86 <$> syscall_cases).
Proof. apply (bool_decide_unpack _). vm_compute. exact I. Qed.

(** Two cases with the same target are the same case. *)
Lemma nodup_map_inj {A B} (f : A -> B) (xs : list A) (x y : A) :
  NoDup (f <$> xs) -> In x xs -> In y xs -> f x = f y -> x = y.
Proof.
  induction xs as [|z xs IH]; simpl; [done|]. intros [Hni Hnd]%NoDup_cons Hx Hy Hf.
  assert (forall w, In w xs -> f z <> f w) as Hz.
  { intros w Hw He. apply Hni. rewrite He. by apply list_elem_of_In, List.in_map. }
  destruct Hx as [-> | Hx], Hy as [-> | Hy]; [done|..|by apply IH].
  - by destruct (Hz y Hy).
  - by destruct (Hz x Hx).
Qed.

Lemma generic_injective (hdr : Z -> bool) (m n x : Z) :
  poly_generic_linux_syscall_to_x86 hdr m = Some x ->
  poly_generic_linux_syscall_to_x86 hdr n = Some x -> m = n.
Proof.
  intros (c & Hc & <- & Hcx)%find_case_in (d & Hd & <- & Hdx)%find_case_in.
  f_equal. eapply (nodup_map_inj case_x86); [apply targets_nodup|done|done|congruence].
Qed.

(** The case of a number whose label is not inside an [#ifdef]. *)
Lemma generic_case (hdr : Z -> bool) (n x : Z) :
  In (Case n x false) syscall_cases -> poly_generic_linux_syscall_to_x86 hdr n = Some x.
Proof.
  intros H. apply (find_case_total hdr n syscall_cases (Case n x false)); auto using labels_nodup.
Qed.

(** From 424 on the two numberings coincide. *)
Definition unified_check (c : syscall_case) : bool :=
  (case_number c <? 424) || (case_x86 c =? case_number c).

Lemma unified_table : forallb unified_check syscall_cases = true.
Proof. vm_compute. reflexivity. Qed.

(** Below 424 they never do, so a guest number passed through untranslated
    would be a different call. *)
Definition legacy_check (c : syscall_case) : bool :=
  (424 <=? case_number c) || negb (case_x86 c =? case_number c).

Lemma legacy_table : forallb legacy_check syscall_cases = true.
Proof. vm_compute. reflexivity. Qed.

(** The translation is one-to-one and, from number 424 on (where Linux
    numbers are shared by all architectures), the identity; below 424 no
    translated number is left as it was, whatever the host headers define. *)
Theorem syscall_table_sound (hdr : Z -> bool) :
  (forall m n x, poly_generic_linux_syscall_to_x86 hdr m = Some x ->
     poly_generic_linux_syscall_to_x86 hdr n = Some x -> m = n) /\
  (forall n x, poly_generic_linux_syscall_to_x86 hdr n = Some x ->
     (424 <= n -> x = n) /\ (n < 424 -> x <> n)).
Proof.
  split; [apply generic_injective|]. intros n x (c & Hc & <- & <-)%find_case_in.
  pose proof unified_table as Hu. pose proof legacy_table as Hl.
  rewrite List.forallb_forall in Hu, Hl. specialize (Hu c Hc). specialize (Hl c Hc).
  unfold unified_check, legacy_check in *. split; intros Hn.
  - apply orb_prop in Hu as [Hu | Hu]; breflect; lia.
  - apply orb_prop in Hl as [Hl | Hl]; breflect; lia.
Qed.
