(* ===== verification/GuestMemory.v ===== *)
(** Access to guest memory from the monitor: [poly_guest_range_is_mapped] and
    the checked reads, writes and string search built on it
    ([tools/runtime/polyexec.c]).

    The memory-probe instruction of the processor is a parameter: [probe]
    gives the status and the metadata word for an address, a length and the
    access flags.  Guest memory is a total map from addresses to bytes. *)

From S2P Require Import Prelude.

(** ** What the system call handlers share *)

Definition EPERM : Z := 1.
Definition ENOMEM : Z := 12.
Definition EFAULT : Z := 14.
Definition EINVAL : Z := 22.
Definition ENOSYS : Z := 38.

(** [(uint64_t) -error] *)
Definition neg_errno (error : Z) : Z := u64 (- error).

(** The frontends that guest code runs in. *)
Definition POLY_MODE_RAW_AARCH64 : Z := 1.
Definition POLY_MODE_RAW_RISCV : Z := 2.

Definition poly_is_raw_foreign_mode (mode : Z) : bool :=
  (mode =? POLY_MODE_RAW_AARCH64) || (mode =? POLY_MODE_RAW_RISCV).

(** ** Memory and the probe *)

Definition POLY_V2_MEM_PROBE_FLAG_READ : Z := 1.
Definition POLY_V2_MEM_PROBE_FLAG_WRITE : Z := 2.
Definition POLY_V2_MEM_PROBE_RESULT_PRESENT : Z := 2.
Definition POLY_V2_MEM_PROBE_RESULT_READABLE : Z := 4.
Definition POLY_V2_MEM_PROBE_RESULT_WRITABLE : Z := 8.

Definition memory : Type := Z -> Z.
Definition mem_probe : Type := Z -> Z -> Z -> Z * Z.

(** ** Raw accesses *)

Definition load (m : memory) (address : Z) (n : nat) : list Z :=
  (fun i => m (u64 (address + Z.of_nat i))) <$> seq 0 n.

Definition load_u64 (m : memory) (address : Z) : Z := le_value (load m address 8).

Definition store_bytes (m : memory) (address : Z) (bs : list Z) : memory := fun a =>
  match bs !! Z.to_nat (u64 (a - address)) with
  | Some b => if a =? u64 a then b else m a
  | None => m a
  end.

Definition store_u64 (m : memory) (address value : Z) : memory :=
  store_bytes m address (le_bytes 8 value).

(** [struct poly_linux_ksigaction] *)
Record poly_linux_ksigaction : Type := MkKsigaction {
  ksa_handler : Z;
  ksa_flags : Z;
  ksa_restorer : Z;
  ksa_mask : Z;
}.

Definition ksigaction_bytes (a : poly_linux_ksigaction) : list Z :=
  le_bytes 8 (ksa_handler a) ++ le_bytes 8 (ksa_flags a) ++
  le_bytes 8 (ksa_restorer a) ++ le_bytes 8 (ksa_mask a).

Section Guest.
Context (probe : mem_probe).

Definition poly_guest_range_is_mapped (address length : Z) (writable : bool) : bool :=
  if length =? 0 then true
  else if (address =? 0) || (address >? UINT64_MAX - length) then false
  else
    let flags := if writable then POLY_V2_MEM_PROBE_FLAG_WRITE else POLY_V2_MEM_PROBE_FLAG_READ in
    let '(status, metadata) := probe address length flags in
    (status =? 0) &&
    negb (Z.land metadata POLY_V2_MEM_PROBE_RESULT_PRESENT =? 0) &&
    negb (Z.land metadata (if writable then POLY_V2_MEM_PROBE_RESULT_WRITABLE
                           else POLY_V2_MEM_PROBE_RESULT_READABLE) =? 0).

(** [None]: the function returns 0. *)
Definition poly_guest_read_u64 (m : memory) (address : Z) : option Z :=
  if negb (poly_guest_range_is_mapped address 8 false) then None
  else Some (load_u64 m address).

Definition poly_guest_write_u64 (m : memory) (address value : Z) : option memory :=
  if negb (poly_guest_range_is_mapped address 8 true) then None
  else Some (store_u64 m address value).

Definition poly_guest_read_ksigaction (m : memory) (address : Z)
    : option poly_linux_ksigaction :=
  if negb (poly_guest_range_is_mapped address 32 false) then None
  else Some (MkKsigaction (load_u64 m address) (load_u64 m (address + 8))
               (load_u64 m (address + 16)) (load_u64 m (address + 24))).

Definition poly_guest_write_ksigaction (m : memory) (address : Z)
    (value : poly_linux_ksigaction) : option memory :=
  if negb (poly_guest_range_is_mapped address 32 true) then None
  else Some (store_bytes m address (ksigaction_bytes value)).

(** [while (matched != 0 && ch != needle[matched]) matched = 0;] *)
Definition restart (needle : list Z) (matched : nat) (ch : Z) : nat :=
  if negb (matched =? 0)%nat && negb (ch =? needle !!! matched) then 0%nat else matched.

(** The loop from [offset] on, with [fuel] iterations left of the 1024. *)
Fixpoint contains_loop (m : memory) (address : Z) (needle : list Z)
    (offset fuel matched : nat) : bool :=
  match fuel with
  | O => false
  | S fuel' =>
      let a := u64 (address + Z.of_nat offset) in
      if negb (poly_guest_range_is_mapped a 1 false) then false
      else
        let ch := m a in
        if ch =? 0 then false
        else
          let matched1 := restart needle matched ch in
          if ch =? needle !!! matched1 then
            if (S matched1 =? length needle)%nat then true
            else contains_loop m address needle (S offset) fuel' (S matched1)
          else contains_loop m address needle (S offset) fuel' matched1
  end.

Definition CONTAINS_LIMIT : nat := 1024.

(** [None] is the null pointer; a needle is the bytes before its NUL. *)
Definition poly_guest_cstring_contains (m : memory) (address : Z) (needle : option (list Z))
    : bool :=
  match needle with
  | None => false
  | Some bs =>
      if (address =? 0) || (length bs =? 0)%nat then false
      else contains_loop m address bs 0 CONTAINS_LIMIT 0
  end.

(** ** The range check *)

(** A non-empty range that passes does not contain the null address and does
    not wrap around the end of the address space. *)
Lemma mapped_no_wrap (address length : Z) (w : bool) :
  0 <= address -> 0 < length -> poly_guest_range_is_mapped address length w = true ->
  0 < address /\ address + length <= UINT64_MAX.
Proof.
  intros Ha Hl. unfold poly_guest_range_is_mapped.
  destruct (Z.eqb_spec length 0); [lia|].
  destruct ((address =? 0) || (address >? UINT64_MAX - length)) eqn:E; [done|]. intros _.
  breflect. lia.
Qed.

(** ** Reading back what was written *)

Lemma load_lookup (m : memory) (address : Z) (n i : nat) :
  (i < n)%nat -> load m address n !! i = Some (m (u64 (address + Z.of_nat i))).
Proof.
  intros Hi. unfold load. rewrite list_lookup_fmap.
  assert (seq 0 n !! i = Some i) as Hs by (apply lookup_seq; lia). by rewrite Hs.
Qed.

Lemma load_length (m : memory) (address : Z) (n : nat) : length (load m address n) = n.
Proof. unfold load. by rewrite length_fmap, length_seq. Qed.

Lemma store_inside (m : memory) (address : Z) (bs : list Z) (i : nat) (b : Z) :
  0 <= address -> address + Z.of_nat (length bs) <= 2 ^ 64 -> bs !! i = Some b ->
  store_bytes m address bs (address + Z.of_nat i) = b.
Proof.
  intros Ha Hr Hb. pose proof (lookup_lt_Some _ _ _ Hb) as Hi. unfold store_bytes.
  replace (address + Z.of_nat i - address) with (Z.of_nat i) by lia.
  rewrite (wrap_small 64 (Z.of_nat i)) by (unfold in_width; lia).
  rewrite Nat2Z.id, Hb. rewrite wrap_small by (unfold in_width; lia).
  by rewrite Z.eqb_refl.
Qed.

Lemma store_outside (m : memory) (address : Z) (bs : list Z) (a : Z) :
  0 <= a < 2 ^ 64 -> 0 <= address -> address + Z.of_nat (length bs) <= 2 ^ 64 ->
  a < address \/ address + Z.of_nat (length bs) <= a ->
  store_bytes m address bs a = m a.
Proof.
  intros Ha Had Hr Hout. unfold store_bytes.
  rewrite lookup_ge_None_2; [done|].
  destruct Hout.
  - unfold wrap. replace (a - address) with (a - address + 2 ^ 64 + (-1) * 2 ^ 64) by lia.
    rewrite Z.mod_add by lia. rewrite Z.mod_small by lia. lia.
  - rewrite wrap_small by (unfold in_width; lia). lia.
Qed.

Lemma load_store (m : memory) (address : Z) (bs : list Z) :
  0 <= address -> address + Z.of_nat (length bs) <= 2 ^ 64 ->
  load (store_bytes m address bs) address (length bs) = bs.
Proof.
  intros Ha Hr. apply list_eq. intros i.
  destruct (decide (i < length bs)%nat) as [Hi | Hi].
  - rewrite load_lookup by done. destruct (lookup_lt_is_Some_2 bs i Hi) as [b Hb].
    rewrite Hb. f_equal. rewrite (wrap_small 64 (address + _)) by (unfold in_width; lia).
    by apply store_inside.
  - rewrite !lookup_ge_None_2; [done|lia|rewrite load_length; lia].
Qed.

(** A part of a stored block. *)
Lemma load_store_part (m : memory) (address : Z) (xs ys zs : list Z) :
  0 <= address -> address + Z.of_nat (length (xs ++ ys ++ zs)) <= 2 ^ 64 ->
  load (store_bytes m address (xs ++ ys ++ zs)) (address + Z.of_nat (length xs)) (length ys) = ys.
Proof.
  intros Ha Hr. rewrite !length_app in Hr. apply list_eq. intros i.
  destruct (decide (i < length ys)%nat) as [Hi | Hi].
  - rewrite load_lookup by done. destruct (lookup_lt_is_Some_2 ys i Hi) as [b Hb].
    rewrite Hb. f_equal. rewrite (wrap_small 64 (address + _ + _)) by (unfold in_width; lia).
    replace (address + Z.of_nat (length xs) + Z.of_nat i)
      with (address + Z.of_nat (length xs + i)) by lia.
    apply store_inside; [done|rewrite !length_app; lia|].
    rewrite lookup_app_r by lia. rewrite lookup_app_l by lia.
    by replace (length xs + i - length xs)%nat with i by lia.
  - rewrite !lookup_ge_None_2; [done|lia|rewrite load_length; lia].
Qed.

Lemma load_u64_part (m : memory) (address : Z) (xs zs : list Z) (v : Z) :
  0 <= address -> address + Z.of_nat (length (xs ++ le_bytes 8 v ++ zs)) <= 2 ^ 64 ->
  in_width 64 v ->
  load_u64 (store_bytes m address (xs ++ le_bytes 8 v ++ zs)) (address + Z.of_nat (length xs)) = v.
Proof.
  intros Ha Hr Hv. unfold load_u64. pose proof (load_store_part m address xs (le_bytes 8 v) zs Ha Hr) as H.
  rewrite le_bytes_length in H. rewrite H, le_value_bytes. by apply wrap_small.
Qed.

(** ** The search *)

(** [needle] occurs at [address + k]. *)
Definition occurs_at (m : memory) (address : Z) (needle : list Z) (k : nat) : Prop :=
  forall j b, needle !! j = Some b -> m (u64 (address + Z.of_nat (k + j))) = b.

(** The last [matched] bytes before [offset] are the start of the needle. *)
Definition match_inv (m : memory) (address : Z) (needle : list Z) (offset matched : nat) : Prop :=
  (matched <= offset)%nat /\
  forall j, (j < matched)%nat ->
    m (u64 (address + Z.of_nat (offset - matched + j))) = needle !!! j.

Lemma match_inv_zero (m : memory) (address : Z) (needle : list Z) (offset : nat) :
  match_inv m address needle offset 0.
Proof. split; lia. Qed.

(** One more byte that agrees. *)
Lemma match_inv_step (m : memory) (address : Z) (needle : list Z) (offset matched : nat) :
  match_inv m address needle offset matched ->
  m (u64 (address + Z.of_nat offset)) = needle !!! matched ->
  match_inv m address needle (S offset) (S matched).
Proof.
  intros (Hle & Hpre) Hch. split; [lia|]. intros j Hj.
  replace (S offset - S matched)%nat with (offset - matched)%nat by lia.
  destruct (decide (j = matched)) as [-> | Hne]; [|apply Hpre; lia].
  rewrite <- Hch. do 3 f_equal. lia.
Qed.

Lemma restart_cases (needle : list Z) (matched : nat) (ch : Z) :
  restart needle matched ch = 0%nat \/
  (restart needle matched ch = matched /\ ch = needle !!! matched).
Proof.
  unfold restart. destruct (Nat.eqb_spec matched 0); simpl; [by left|].
  destruct (Z.eqb_spec ch (needle !!! matched)); simpl; auto.
Qed.

Lemma restart_inv (m : memory) (address : Z) (needle : list Z) (offset matched : nat) (ch : Z) :
  match_inv m address needle offset matched ->
  match_inv m address needle offset (restart needle matched ch).
Proof.
  intros H. destruct (restart_cases needle matched ch) as [-> | [-> _]];
    auto using match_inv_zero.
Qed.

Lemma match_inv_occurs (m : memory) (address : Z) (needle : list Z) (offset : nat) :
  match_inv m address needle offset (length needle) ->
  occurs_at m address needle (offset - length needle).
Proof.
  intros (Hle & Hpre) j b Hb. pose proof (lookup_lt_Some _ _ _ Hb).
  rewrite Hpre by done. by apply list_lookup_total_correct.
Qed.

Lemma contains_loop_sound (m : memory) (address : Z) (needle : list Z) (fuel : nat) :
  forall offset matched,
  match_inv m address needle offset matched ->
  contains_loop m address needle offset fuel matched = true ->
  exists k, (k + length needle <= offset + fuel)%nat /\ occurs_at m address needle k.
Proof.
  induction fuel as [|fuel IH]; intros offset matched Hinv; [done|]; cbn [contains_loop].
  destruct (negb _); [done|]. set (a := u64 (address + Z.of_nat offset)).
  destruct (m a =? 0); [done|].
  pose proof (restart_inv m address needle offset matched (m a) Hinv) as Hr.
  set (n := restart needle matched (m a)) in *.
  destruct (Z.eqb_spec (m a) (needle !!! n)) as [Hch|Hch].
  - pose proof (match_inv_step m address needle offset n Hr Hch) as Hs.
    destruct (Nat.eqb_spec (S n) (length needle)) as [Hn|Hn].
    + intros _. rewrite Hn in Hs. exists (S offset - length needle)%nat.
      split; [destruct Hs; lia|by apply match_inv_occurs].
    + intros H. destruct (IH _ _ Hs H) as (k & Hk & Ho). exists k. split; [lia|done].
  - (* the byte does not match: nothing is matched any more *)
    assert (n = 0%nat) as Hn0.
    { destruct (restart_cases needle matched (m a)) as [? | [He Hm]]; [done|].
      subst n. congruence. }
    rewrite Hn0. intros H.
    destruct (IH _ _ (match_inv_zero m address needle (S offset)) H) as (k & Hk & Ho).
    exists k. split; [lia|done].
Qed.

(** No proper suffix of what has been matched starts the needle again, when
    the needle's first byte does not occur in the rest of it. *)
Definition first_unique (needle : list Z) : Prop :=
  forall j, (0 < j < length needle)%nat -> needle !!! j <> needle !!! 0%nat.

Lemma occurs_total (m : memory) (address : Z) (needle : list Z) (k j : nat) :
  occurs_at m address needle k -> (j < length needle)%nat ->
  m (u64 (address + Z.of_nat (k + j))) = needle !!! j.
Proof. intros H Hj. apply H. by apply list_lookup_lookup_total_lt. Qed.

(** Inside an occurrence, what is matched is exactly its beginning. *)
Lemma matched_inside (m : memory) (address : Z) (needle : list Z) (k offset matched : nat) :
  first_unique needle -> occurs_at m address needle k ->
  match_inv m address needle offset matched -> (matched < length needle)%nat ->
  (k < offset <= k + matched)%nat -> matched = (offset - k)%nat.
Proof.
  intros Hu Hocc [Hle Hpre] Hlt Hk.
  destruct (decide (matched = (offset - k)%nat)) as [|Hne]; [done|exfalso].
  apply (Hu (k - (offset - matched))%nat); [lia|].
  rewrite <- (Hpre (k - (offset - matched))%nat) by lia.
  rewrite <- (occurs_total m address needle k 0 Hocc) by lia. do 3 f_equal. lia.
Qed.

Lemma restart_inside (m : memory) (address : Z) (needle : list Z) (k offset matched : nat) :
  let ch := m (u64 (address + Z.of_nat offset)) in
  first_unique needle -> occurs_at m address needle k ->
  match_inv m address needle offset matched -> (matched < length needle)%nat ->
  (k <= offset <= k + matched)%nat -> (offset < k + length needle)%nat ->
  restart needle matched ch = (offset - k)%nat /\ ch = needle !!! (offset - k)%nat.
Proof.
  intros ch Hu Hocc Hinv Hlt Hk Hend.
  assert (ch = needle !!! (offset - k)%nat) as Hch.
  { unfold ch. rewrite <- (occurs_total m address needle k _ Hocc) by lia. do 3 f_equal. lia. }
  split; [|done]. destruct (restart_cases needle matched ch) as [H0 | [H0 H1]]; rewrite H0.
  - destruct (decide (k = offset)) as [|Hne]; [lia|exfalso].
    pose proof (matched_inside m address needle k offset matched Hu Hocc Hinv Hlt ltac:(lia)) as Hm.
    unfold restart in H0. rewrite Hm, Hch, Z.eqb_refl, andb_false_r in H0. lia.
  - destruct (decide (k = offset)) as [He|Hne];
      [|apply (matched_inside m address needle k); auto; lia].
    rewrite He, Nat.sub_diag in *. destruct matched as [|q]; [done|exfalso].
    apply (Hu (S q)); [lia|congruence].
Qed.

(** An occurrence at or after the part that is matched is still found. *)
Lemma contains_loop_complete (m : memory) (address : Z) (needle : list Z) (k : nat) :
  first_unique needle -> occurs_at m address needle k ->
  forall fuel offset matched,
  (k + length needle <= offset + fuel)%nat -> (offset <= k + matched)%nat ->
  (matched < length needle)%nat -> match_inv m address needle offset matched ->
  (forall i, (i < k + length needle)%nat ->
     let a := u64 (address + Z.of_nat i) in
     poly_guest_range_is_mapped a 1 false = true /\ m a <> 0) ->
  contains_loop m address needle offset fuel matched = true.
Proof.
  intros Hu Hocc.
  induction fuel as [|fuel IH]; intros offset matched Hf Hok Hlt Hinv Hread; [lia|];
    cbn [contains_loop].
  destruct (Hread offset ltac:(lia)) as [Hmap Hnz]. rewrite Hmap. cbn [negb].
  destruct (Z.eqb_spec (m (u64 (address + Z.of_nat offset))) 0); [done|].
  pose proof (restart_inside m address needle k offset matched Hu Hocc Hinv Hlt) as Hin. simpl in Hin.
  set (ch := m (u64 (address + Z.of_nat offset))) in *.
  pose proof (restart_inv m address needle offset matched ch Hinv) as Hr.
  destruct (restart_cases needle matched ch) as [H0 | [H0 H1]].
  - rewrite H0 in *. destruct (Z.eqb_spec ch (needle !!! 0%nat)) as [Hch|Hch].
    + destruct (Nat.eqb_spec 1 (length needle)) as [|Hne]; [done|].
      apply IH; [lia| |lia| |done]; [|by apply match_inv_step].
      destruct (decide (k <= offset)%nat); [destruct Hin; lia|lia].
    + apply IH; [lia| |lia|apply match_inv_zero|done].
      destruct (decide (k <= offset)%nat); [|lia].
      destruct Hin as [Hi1 Hi2]; [lia|lia|]. rewrite <- Hi1 in Hi2. done.
  - rewrite H0 in *. rewrite (proj2 (Z.eqb_eq _ _) H1).
    destruct (Nat.eqb_spec (S matched) (length needle)) as [|Hne]; [done|].
    apply IH; [lia|lia|lia| |done]. by apply match_inv_step.
Qed.

End Guest.

(** ** Properties *)

Lemma stored_ksigaction_reads (m : memory) (address : Z) (v : poly_linux_ksigaction) :
  0 <= address -> address + 32 <= 2 ^ 64 ->
  in_width 64 (ksa_handler v) -> in_width 64 (ksa_flags v) ->
  in_width 64 (ksa_restorer v) -> in_width 64 (ksa_mask v) ->
  let m' := store_bytes m address (ksigaction_bytes v) in
  load_u64 m' address = ksa_handler v /\ load_u64 m' (address + 8) = ksa_flags v /\
  load_u64 m' (address + 16) = ksa_restorer v /\ load_u64 m' (address + 24) = ksa_mask v.
Proof.
  intros Ha Hr H1 H2 H3 H4 m'. unfold m', ksigaction_bytes.
  split_and!.
  - rewrite <- (Z.add_0_r address) at 2.
    apply (load_u64_part m address []); [done|rewrite !length_app, !le_bytes_length; simpl; lia|done].
  - apply (load_u64_part m address (le_bytes 8 (ksa_handler v)));
      [done|rewrite !length_app, !le_bytes_length; simpl; lia|done].
  - rewrite (app_assoc (le_bytes 8 (ksa_handler v))).
    apply (load_u64_part m address (le_bytes 8 (ksa_handler v) ++ le_bytes 8 (ksa_flags v)));
      [done|rewrite !length_app, !le_bytes_length; simpl; lia|done].
  - rewrite (app_assoc (le_bytes 8 (ksa_flags v))), (app_assoc (le_bytes 8 (ksa_handler v))).
    rewrite <- (app_nil_r (le_bytes 8 (ksa_mask v))).
    apply (load_u64_part m address
      (le_bytes 8 (ksa_handler v) ++ le_bytes 8 (ksa_flags v) ++ le_bytes 8 (ksa_restorer v)));
      [done|rewrite !length_app, !le_bytes_length; simpl; lia|done].
Qed.

(** A signal action that [poly_guest_write_ksigaction] stores is what
    [poly_guest_read_ksigaction] reads back, and only its 32 bytes change; the
    stored range never contains the null address nor wraps around. *)
Theorem guest_ksigaction_roundtrip (probe : mem_probe) (m m' : memory) (address : Z)
    (v : poly_linux_ksigaction) :
  in_width 64 address ->
  in_width 64 (ksa_handler v) -> in_width 64 (ksa_flags v) ->
  in_width 64 (ksa_restorer v) -> in_width 64 (ksa_mask v) ->
  poly_guest_write_ksigaction probe m address v = Some m' ->
  0 < address /\ address + 32 < 2 ^ 64 /\
  (poly_guest_range_is_mapped probe address 32 false = true ->
   poly_guest_read_ksigaction probe m' address = Some v) /\
  (forall a, in_width 64 a -> a < address \/ address + 32 <= a -> m' a = m a).
Proof.
  intros [Ha _] H1 H2 H3 H4. unfold poly_guest_write_ksigaction.
  destruct (poly_guest_range_is_mapped probe address 32 true) eqn:Hw; [|done]. simpl negb.
  intros [= <-]. destruct (mapped_no_wrap probe address 32 true Ha ltac:(lia) Hw) as [Hp Hb].
  change UINT64_MAX with (2 ^ 64 - 1) in Hb.
  destruct (stored_ksigaction_reads m address v Ha ltac:(lia) H1 H2 H3 H4) as (E1 & E2 & E3 & E4).
  split; [done|]. split; [lia|]. split.
  - intros Hm. unfold poly_guest_read_ksigaction. rewrite Hm, E1, E2, E3, E4. by destruct v.
  - intros a Haw Hout. apply store_outside; [done|done|..];
      unfold ksigaction_bytes; rewrite !length_app, !le_bytes_length; simpl; lia.
Qed.

(** [poly_guest_cstring_contains] never reports a needle that is not
    there, and it finds every readable occurrence in the first 1024 bytes of a
    string when the needle's first byte does not occur again in the needle. *)
Theorem cstring_contains_correct (probe : mem_probe) (m : memory) (address : Z)
    (needle : list Z) :
  (poly_guest_cstring_contains probe m address (Some needle) = true ->
   exists k, (k + length needle <= 1024)%nat /\ occurs_at m address needle k) /\
  (forall k, address <> 0 -> needle <> [] -> first_unique needle ->
     (k + length needle <= 1024)%nat -> occurs_at m address needle k ->
     (forall i, (i < k + length needle)%nat ->
        let a := u64 (address + Z.of_nat i) in
        poly_guest_range_is_mapped probe a 1 false = true /\ m a <> 0) ->
     poly_guest_cstring_contains probe m address (Some needle) = true).
Proof.
  unfold poly_guest_cstring_contains, CONTAINS_LIMIT. split.
  - destruct (_ || _); [done|]. intros H.
    by apply (contains_loop_sound probe m address needle 1024 0 0 (match_inv_zero _ _ _ _)).
  - intros k Ha Hn Hu Hk Hocc Hread.
    destruct (Z.eqb_spec address 0); [done|]. destruct needle as [|b bs]; [done|].
    apply (contains_loop_complete probe m address (b :: bs) k Hu Hocc);
      [lia|lia|simpl; lia|apply match_inv_zero|done].
Qed.

(** ** Concrete memories *)

(** Everything is mapped. *)
Definition open_probe : mem_probe := fun _ _ _ => (0, 15).

(** A string at address [base], NUL bytes elsewhere. *)
Definition string_memory (base : Z) (s : list Z) : memory := fun a =>
  default 0 (if base <=? a then s !! Z.to_nat (a - base) else None).

(** "/run/containers/storage" and a path that contains it. *)
Definition storage_needle : list Z :=
  [47; 114; 117; 110; 47; 99; 111; 110; 116; 97; 105; 110; 101; 114; 115; 47; 115; 116; 111;
   114; 97; 103; 101].
Definition nested_path : list Z := [47; 114; 117; 110] ++ storage_needle.

Lemma guest_ksigaction_roundtrip_witness :
  let v := MkKsigaction 4096 67108864 8192 1 in
  let m' := store_bytes (fun _ => 0) 65536 (ksigaction_bytes v) in
  0 < 65536 /\ 65536 + 32 < 2 ^ 64 /\
  (poly_guest_range_is_mapped open_probe 65536 32 false = true ->
   poly_guest_read_ksigaction open_probe m' 65536 = Some v) /\
  (forall a, in_width 64 a -> a < 65536 \/ 65536 + 32 <= a -> m' a = 0).
Proof.
  apply (guest_ksigaction_roundtrip open_probe (fun _ => 0)
    (store_bytes (fun _ => 0) 65536 (ksigaction_bytes (MkKsigaction 4096 67108864 8192 1)))
    65536 (MkKsigaction 4096 67108864 8192 1)); try (unfold in_width; simpl; lia).
  reflexivity.
Defined.

Lemma cstring_contains_correct_witness :
  (poly_guest_cstring_contains open_probe (string_memory 4096 [97; 98; 99]) 4096 (Some [98; 99])
     = true ->
   exists k, (k + 2 <= 1024)%nat /\ occurs_at (string_memory 4096 [97; 98; 99]) 4096 [98; 99] k) /\
  poly_guest_cstring_contains open_probe (string_memory 4096 [97; 98; 99]) 4096 (Some [98; 99])
    = true.
Proof.
  pose proof (cstring_contains_correct open_probe (string_memory 4096 [97; 98; 99]) 4096 [98; 99])
    as [Hs Hc].
  split; [exact Hs|]. apply (Hc 1%nat); try done.
  - intros j Hj. simpl in Hj. replace j with 1%nat by lia. done.
  - simpl. lia.
  - intros [|[|j]] b Hb; simpl in Hb; simplify_eq; reflexivity.
  - intros i Hi. simpl in Hi. destruct i as [|[|[|i]]]; [..|lia]; by vm_compute.
Defined.

(** The search does not back up when a partial match fails, so it misses
    occurrences: the path /run/run/containers/storage contains
    /run/containers/storage, one of the strings the runtime searches for, but
    the search answers no. *)
Theorem cstring_contains_misses :
  occurs_at (string_memory 4096 nested_path) 4096 storage_needle 4 /\
  poly_guest_cstring_contains open_probe (string_memory 4096 nested_path) 4096
    (Some storage_needle) = false.
Proof.
  split; [|vm_compute; reflexivity]. intros j b Hb.
  assert (forallb (fun i => string_memory 4096 nested_path (u64 (4096 + Z.of_nat (4 + i))) =?
    storage_needle !!! i) (seq 0 (length storage_needle)) = true) as Hall
    by (vm_compute; reflexivity).
  rewrite List.forallb_forall in Hall. pose proof (lookup_lt_Some _ _ _ Hb).
  specialize (Hall j ltac:(apply List.in_seq; lia)). apply Z.eqb_eq in Hall.
  rewrite Hall. by apply list_lookup_total_correct.
Qed.
