(* ===== verification/SeccompBpf.v ===== *)
(** The seccomp BPF interpreter of [tools/runtime/polyexec.c]:
    [poly_seccomp_load_data_word], [poly_seccomp_validate_program] and
    [poly_seccomp_eval_program], with the [struct poly_bpf_insn],
    [poly_seccomp_program] and [poly_seccomp_data] they work on.

    The evaluation loop is a function with fuel; [eval_loop_total] shows that
    one unit per remaining instruction, and one for the exit test, is enough,
    because the program counter strictly increases. *)

From stdpp Require Import relations.
From S2P Require Import Prelude.

(** ** Instructions and programs *)

Definition POLY_SECCOMP_MAX_INSNS : nat := 4096.
Definition POLY_SECCOMP_MEM_WORDS : Z := 16.

Record poly_bpf_insn : Type := MkInsn {
  bi_code : Z;
  bi_jt : Z;
  bi_jf : Z;
  bi_k : Z;
}.

Definition zero_insn : poly_bpf_insn := MkInsn 0 0 0 0.
#[export] Instance poly_bpf_insn_inhabited : Inhabited poly_bpf_insn := populate zero_insn.

Record poly_seccomp_program : Type := MkProgram {
  sp_len : nat;
  sp_insns : list poly_bpf_insn;
}.

Record poly_seccomp_data : Type := MkData {
  sd_nr : Z;
  sd_arch : Z;
  sd_instruction_pointer : Z;
  sd_args : list Z;
}.

(** The struct as bytes; [nr] is a signed 32-bit field. *)
Definition data_bytes (d : poly_seccomp_data) : list Z :=
  le_bytes 4 (sd_nr d) ++ le_bytes 4 (sd_arch d) ++ le_bytes 8 (sd_instruction_pointer d) ++
  mjoin (le_bytes 8 <$> sd_args d).

(** [sizeof(struct poly_seccomp_data)] *)
Definition SECCOMP_DATA_SIZE : Z := 64.

Definition POLY_SECCOMP_RET_KILL_PROCESS : Z := 0x80000000.
Definition POLY_SECCOMP_RET_KILL_THREAD : Z := 0x00000000.
Definition POLY_SECCOMP_RET_TRAP : Z := 0x00030000.
Definition POLY_SECCOMP_RET_ERRNO : Z := 0x00050000.
Definition POLY_SECCOMP_RET_TRACE : Z := 0x7ff00000.
Definition POLY_SECCOMP_RET_LOG : Z := 0x7ffc0000.
Definition POLY_SECCOMP_RET_ALLOW : Z := 0x7fff0000.
Definition POLY_SECCOMP_RET_ACTION_FULL : Z := 0xffff0000.
Definition POLY_SECCOMP_RET_DATA : Z := 0x0000ffff.

Definition POLY_BPF_CLASS (code : Z) : Z := Z.land code 0x07.
Definition POLY_BPF_SIZE (code : Z) : Z := Z.land code 0x18.
Definition POLY_BPF_MODE (code : Z) : Z := Z.land code 0xe0.
Definition POLY_BPF_OP (code : Z) : Z := Z.land code 0xf0.
Definition POLY_BPF_SRC (code : Z) : Z := Z.land code 0x08.
Definition POLY_BPF_RVAL (code : Z) : Z := Z.land code 0x18.
Definition POLY_BPF_MISCOP (code : Z) : Z := Z.land code 0xf8.

Definition POLY_BPF_LD : Z := 0x00.
Definition POLY_BPF_LDX : Z := 0x01.
Definition POLY_BPF_ST : Z := 0x02.
Definition POLY_BPF_STX : Z := 0x03.
Definition POLY_BPF_ALU : Z := 0x04.
Definition POLY_BPF_JMP : Z := 0x05.
Definition POLY_BPF_RET : Z := 0x06.
Definition POLY_BPF_MISC : Z := 0x07.
Definition POLY_BPF_W : Z := 0x00.
Definition POLY_BPF_H : Z := 0x08.
Definition POLY_BPF_B : Z := 0x10.
Definition POLY_BPF_IMM : Z := 0x00.
Definition POLY_BPF_ABS : Z := 0x20.
Definition POLY_BPF_MEM : Z := 0x60.
Definition POLY_BPF_LEN : Z := 0x80.
Definition POLY_BPF_ADD : Z := 0x00.
Definition POLY_BPF_SUB : Z := 0x10.
Definition POLY_BPF_MUL : Z := 0x20.
Definition POLY_BPF_DIV : Z := 0x30.
Definition POLY_BPF_OR : Z := 0x40.
Definition POLY_BPF_AND : Z := 0x50.
Definition POLY_BPF_LSH : Z := 0x60.
Definition POLY_BPF_RSH : Z := 0x70.
Definition POLY_BPF_NEG : Z := 0x80.
Definition POLY_BPF_MOD : Z := 0x90.
Definition POLY_BPF_XOR : Z := 0xa0.
Definition POLY_BPF_JA : Z := 0x00.
Definition POLY_BPF_JEQ : Z := 0x10.
Definition POLY_BPF_JGT : Z := 0x20.
Definition POLY_BPF_JGE : Z := 0x30.
Definition POLY_BPF_JSET : Z := 0x40.
Definition POLY_BPF_K : Z := 0x00.
Definition POLY_BPF_X : Z := 0x08.
Definition POLY_BPF_A : Z := 0x10.
Definition POLY_BPF_TAX : Z := 0x00.
Definition POLY_BPF_TXA : Z := 0x80.

(** ** Loading from the data record *)

Definition size_width (size : Z) : option Z :=
  if size =? POLY_BPF_W then Some 4
  else if size =? POLY_BPF_H then Some 2
  else if size =? POLY_BPF_B then Some 1
  else None.

(** [None]: -1. The [memcpy] reads little-endian. *)
Definition poly_seccomp_load_data_word (data : poly_seccomp_data) (offset size : Z) : option Z :=
  match size_width size with
  | None => None
  | Some width =>
      if (offset >? SECCOMP_DATA_SIZE) || (width >? SECCOMP_DATA_SIZE - offset) then None
      else
        let value := le_value (bytes_at (data_bytes data) offset (Z.to_nat width)) in
        Some (if width =? 1 then Z.land value 0xff
              else if width =? 2 then Z.land value 0xffff else value)
  end.

(** ** Validation *)

(** The checks of one iteration; [left] is [program->len - pc]. *)
Definition valid_insn (left : Z) (insn : poly_bpf_insn) : bool :=
  let code := bi_code insn in
  let class := POLY_BPF_CLASS code in
  let op := POLY_BPF_OP code in
  if (class =? POLY_BPF_LD) || (class =? POLY_BPF_LDX) then
    if POLY_BPF_MODE code =? POLY_BPF_ABS then
      match size_width (POLY_BPF_SIZE code) with
      | None => false
      | Some width =>
          negb ((bi_k insn >? SECCOMP_DATA_SIZE) || (width >? SECCOMP_DATA_SIZE - bi_k insn))
      end
    else if POLY_BPF_MODE code =? POLY_BPF_MEM then negb (bi_k insn >=? POLY_SECCOMP_MEM_WORDS)
    else negb (negb (POLY_BPF_MODE code =? POLY_BPF_IMM) && negb (POLY_BPF_MODE code =? POLY_BPF_LEN))
  else if (class =? POLY_BPF_ST) || (class =? POLY_BPF_STX) then
    negb (bi_k insn >=? POLY_SECCOMP_MEM_WORDS)
  else if class =? POLY_BPF_ALU then
    if ((op =? POLY_BPF_DIV) || (op =? POLY_BPF_MOD)) &&
       ((POLY_BPF_SRC code =? POLY_BPF_K) && (bi_k insn =? 0)) then false
    else (op =? POLY_BPF_ADD) || (op =? POLY_BPF_SUB) || (op =? POLY_BPF_MUL) ||
         (op =? POLY_BPF_DIV) || (op =? POLY_BPF_OR) || (op =? POLY_BPF_AND) ||
         (op =? POLY_BPF_LSH) || (op =? POLY_BPF_RSH) || (op =? POLY_BPF_NEG) ||
         (op =? POLY_BPF_MOD) || (op =? POLY_BPF_XOR)
  else if class =? POLY_BPF_JMP then
    if op =? POLY_BPF_JA then negb (bi_k insn >=? left)
    else if (op =? POLY_BPF_JEQ) || (op =? POLY_BPF_JGT) || (op =? POLY_BPF_JGE) ||
            (op =? POLY_BPF_JSET) then
      negb ((bi_jt insn >=? left) || (bi_jf insn >=? left))
    else false
  else if class =? POLY_BPF_RET then
    (POLY_BPF_RVAL code =? POLY_BPF_K) || (POLY_BPF_RVAL code =? POLY_BPF_A)
  else if class =? POLY_BPF_MISC then
    (POLY_BPF_MISCOP code =? POLY_BPF_TAX) || (POLY_BPF_MISCOP code =? POLY_BPF_TXA)
  else false.

(** [true]: 0, [false]: -EINVAL. *)
Definition poly_seccomp_validate_program (program : poly_seccomp_program) : bool :=
  if (sp_len program =? 0)%nat || (POLY_SECCOMP_MAX_INSNS <? sp_len program)%nat then false
  else forallb (fun pc => valid_insn (Z.of_nat (sp_len program) - Z.of_nat pc)
                            (sp_insns program !!! pc))
         (seq 0 (sp_len program)).

(** ** Evaluation *)

Record bpf_state : Type := MkBpf {
  bs_a : Z;
  bs_x : Z;
  bs_mem : list Z;
  bs_pc : Z;
}.

Definition initial_bpf : bpf_state :=
  MkBpf 0 0 (replicate (Z.to_nat POLY_SECCOMP_MEM_WORDS) 0) 0.

(** One instruction either goes on with a new state or returns. *)
Inductive bpf_outcome : Type :=
  | Next (s : bpf_state)
  | Return (action : Z).

Definition kill : bpf_outcome := Return POLY_SECCOMP_RET_KILL_PROCESS.

(** The value of an LD or LDX instruction. *)
Definition load_value (data : poly_seccomp_data) (insn : poly_bpf_insn) (mem : list Z)
    : option Z :=
  let code := bi_code insn in
  if POLY_BPF_MODE code =? POLY_BPF_ABS then
    poly_seccomp_load_data_word data (bi_k insn) (POLY_BPF_SIZE code)
  else if POLY_BPF_MODE code =? POLY_BPF_IMM then Some (bi_k insn)
  else if (POLY_BPF_MODE code =? POLY_BPF_MEM) && (bi_k insn <? POLY_SECCOMP_MEM_WORDS) then
    Some (mem !!! Z.to_nat (bi_k insn))
  else if POLY_BPF_MODE code =? POLY_BPF_LEN then Some SECCOMP_DATA_SIZE
  else None.

(** The ALU in 32 bits; [None] returns KILL_PROCESS. *)
Definition alu_value (op a src : Z) : option Z :=
  if op =? POLY_BPF_ADD then Some (u32 (a + src))
  else if op =? POLY_BPF_SUB then Some (u32 (a - src))
  else if op =? POLY_BPF_MUL then Some (u32 (a * src))
  else if op =? POLY_BPF_DIV then if src =? 0 then None else Some (a / src)
  else if op =? POLY_BPF_OR then Some (Z.lor a src)
  else if op =? POLY_BPF_AND then Some (Z.land a src)
  else if op =? POLY_BPF_LSH then Some (u32 (Z.shiftl a (Z.land src 31)))
  else if op =? POLY_BPF_RSH then Some (Z.shiftr a (Z.land src 31))
  else if op =? POLY_BPF_NEG then Some (u32 (- a))
  else if op =? POLY_BPF_MOD then if src =? 0 then None else Some (a mod src)
  else if op =? POLY_BPF_XOR then Some (Z.lxor a src)
  else None.

Definition jump_taken (op a src : Z) : option bool :=
  if op =? POLY_BPF_JEQ then Some (a =? src)
  else if op =? POLY_BPF_JGT then Some (a >? src)
  else if op =? POLY_BPF_JGE then Some (a >=? src)
  else if op =? POLY_BPF_JSET then Some (negb (Z.land a src =? 0))
  else None.

(** The [switch] of the evaluation loop. *)
Definition bpf_step (data : poly_seccomp_data) (insn : poly_bpf_insn) (s : bpf_state)
    : bpf_outcome :=
  let code := bi_code insn in
  let class := POLY_BPF_CLASS code in
  let op := POLY_BPF_OP code in
  let src := if POLY_BPF_SRC code =? POLY_BPF_X then bs_x s else bi_k insn in
  let '(MkBpf a x mem pc) := s in
  if class =? POLY_BPF_LD then
    match load_value data insn mem with
    | Some v => Next (MkBpf v x mem (pc + 1))
    | None => kill
    end
  else if class =? POLY_BPF_LDX then
    match load_value data insn mem with
    | Some v => Next (MkBpf a v mem (pc + 1))
    | None => kill
    end
  else if class =? POLY_BPF_ST then
    if bi_k insn >=? POLY_SECCOMP_MEM_WORDS then kill
    else Next (MkBpf a x (<[Z.to_nat (bi_k insn) := a]> mem) (pc + 1))
  else if class =? POLY_BPF_STX then
    if bi_k insn >=? POLY_SECCOMP_MEM_WORDS then kill
    else Next (MkBpf a x (<[Z.to_nat (bi_k insn) := x]> mem) (pc + 1))
  else if class =? POLY_BPF_ALU then
    match alu_value op a src with
    | Some v => Next (MkBpf v x mem (pc + 1))
    | None => kill
    end
  else if class =? POLY_BPF_JMP then
    if op =? POLY_BPF_JA then Next (MkBpf a x mem (pc + (bi_k insn + 1)))
    else match jump_taken op a src with
         | Some b => Next (MkBpf a x mem (pc + ((if b then bi_jt insn else bi_jf insn) + 1)))
         | None => kill
         end
  else if class =? POLY_BPF_RET then
    Return (if POLY_BPF_RVAL code =? POLY_BPF_A then a else bi_k insn)
  else if class =? POLY_BPF_MISC then
    if POLY_BPF_MISCOP code =? POLY_BPF_TAX then Next (MkBpf a a mem (pc + 1))
    else if POLY_BPF_MISCOP code =? POLY_BPF_TXA then Next (MkBpf x x mem (pc + 1))
    else kill
  else kill.

Definition insn_at (program : poly_seccomp_program) (pc : Z) : poly_bpf_insn :=
  sp_insns program !!! Z.to_nat pc.

(** [None] only when the fuel runs out. *)
Fixpoint eval_loop (fuel : nat) (program : poly_seccomp_program) (data : poly_seccomp_data)
    (s : bpf_state) : option Z :=
  match fuel with
  | O => None
  | S fuel' =>
      if bs_pc s <? Z.of_nat (sp_len program) then
        match bpf_step data (insn_at program (bs_pc s)) s with
        | Return action => Some action
        | Next s' =>
            if bs_pc s' >? Z.of_nat (sp_len program) then Some POLY_SECCOMP_RET_KILL_PROCESS
            else eval_loop fuel' program data s'
        end
      else Some POLY_SECCOMP_RET_KILL_PROCESS
  end.

Definition poly_seccomp_eval_program (program : poly_seccomp_program) (data : poly_seccomp_data)
    : option Z := eval_loop (S (sp_len program)) program data initial_bpf.

(** ** Widths *)

Definition wf_insn (i : poly_bpf_insn) : Prop :=
  in_width 16 (bi_code i) /\ in_width 8 (bi_jt i) /\ in_width 8 (bi_jf i) /\ in_width 32 (bi_k i).

(** The array has its full extent and every field its width. *)
Record wf_program (p : poly_seccomp_program) : Prop := {
  wp_extent : length (sp_insns p) = POLY_SECCOMP_MAX_INSNS;
  wp_len : (sp_len p <= POLY_SECCOMP_MAX_INSNS)%nat;
  wp_insns : Forall wf_insn (sp_insns p);
}.

Definition wf_bpf (s : bpf_state) : Prop :=
  in_width 32 (bs_a s) /\ in_width 32 (bs_x s) /\
  length (bs_mem s) = Z.to_nat POLY_SECCOMP_MEM_WORDS /\ Forall (in_width 32) (bs_mem s) /\
  0 <= bs_pc s.

Lemma wf_initial : wf_bpf initial_bpf.
Proof.
  split_and!; try done; simpl; try (unfold in_width; lia).
  by repeat constructor.
Qed.

Lemma in_width_0 (w : Z) : 0 <= w -> in_width w 0.
Proof. intros. unfold in_width. pose proof (Z.pow_pos_nonneg 2 w). lia. Qed.

Lemma data_bytes_range (d : poly_seccomp_data) : Forall (in_width 8) (data_bytes d).
Proof.
  unfold data_bytes. rewrite !Forall_app. split_and!; try apply le_bytes_range.
  induction (sd_args d) as [|v vs IH]; [constructor|].
  change (Forall (in_width 8) (le_bytes 8 v ++ mjoin (le_bytes 8 <$> vs))).
  apply Forall_app. split; [apply le_bytes_range|done].
Qed.

Lemma bytes_at_range (bs : list Z) (i : Z) (k : nat) :
  Forall (in_width 8) bs -> Forall (in_width 8) (bytes_at bs i k).
Proof.
  intros H. unfold bytes_at. apply Forall_fmap, Forall_forall. intros j _. simpl.
  destruct (bs !! Z.to_nat (i + Z.of_nat j)) as [b|] eqn:E; simpl;
    [by eapply (Forall_lookup_1 _ _ _ _ H E)|apply in_width_0; lia].
Qed.

Lemma land_width (w a b : Z) : 0 <= w -> in_width w a -> 0 <= b -> in_width w (Z.land a b).
Proof.
  intros Hw [Ha1 Ha2] Hb. split; [by apply Z.land_nonneg; left|].
  destruct (Z.eq_dec (Z.land a b) 0) as [-> | Hne]; [by apply Z.pow_pos_nonneg|].
  assert (0 <= Z.land a b) by (by apply Z.land_nonneg; left).
  apply Z.log2_lt_pow2; [lia|]. eapply Z.le_lt_trans; [by apply Z.log2_land|].
  assert (0 < a).
  { destruct (Z.eq_dec a 0) as [-> |]; [by rewrite Z.land_0_l in Hne|lia]. }
  pose proof (Z.log2_lt_pow2 a w ltac:(lia)). lia.
Qed.

(** [or] and [xor] stay below a power of two. *)
Lemma bitop_width (f : bool -> bool -> bool) (op : Z -> Z -> Z) (w a b : Z) :
  f false false = false ->
  (forall x y n, 0 <= n -> Z.testbit (op x y) n = f (Z.testbit x n) (Z.testbit y n)) ->
  0 <= w -> in_width w a -> in_width w b -> in_width w (op a b).
Proof.
  intros Hf Hop Hw Ha Hb.
  assert (wrap w (op a b) = op a b) as Heq; [|rewrite <- Heq; by apply wrap_range].
  unfold wrap. apply Z.bits_inj'. intros n Hn.
  destruct (Z.lt_ge_cases n w); [by rewrite Z.mod_pow2_bits_low by lia|].
  rewrite Z.mod_pow2_bits_high by lia. symmetry. rewrite Hop by done.
  assert (forall z, in_width w z -> Z.testbit z n = false) as Hz; [|by rewrite !Hz].
  intros z Hz. rewrite <- (wrap_small w z Hz). apply Z.mod_pow2_bits_high. lia.
Qed.

Lemma load_data_width (d : poly_seccomp_data) (off size v : Z) :
  poly_seccomp_load_data_word d off size = Some v -> in_width 32 v.
Proof.
  unfold poly_seccomp_load_data_word, size_width.
  assert (forall k, (k <= 4)%nat -> in_width 32 (le_value (bytes_at (data_bytes d) off k))) as Hk.
  { intros k Hk. pose proof (le_value_range _ (bytes_at_range _ off k (data_bytes_range d))) as H.
    rewrite bytes_at_length in H. apply (in_width_mono (8 * Z.of_nat k)); [lia|done]. }
  destruct_ifs; intros; simplify_eq; simpl Z.to_nat;
    solve [apply Hk; lia | apply land_width; [lia|apply Hk; lia|lia]].
Qed.

Lemma load_value_width (d : poly_seccomp_data) (i : poly_bpf_insn) (mem : list Z) (v : Z) :
  wf_insn i -> Forall (in_width 32) mem -> load_value d i mem = Some v -> in_width 32 v.
Proof.
  intros (_ & _ & _ & Hk) Hm. unfold load_value. destruct_ifs; intros; simplify_eq; try done.
  - by eapply load_data_width.
  - rewrite list_lookup_total_alt.
    destruct (mem !! Z.to_nat (bi_k i)) as [b|] eqn:E; simpl;
      [by eapply (Forall_lookup_1 _ _ _ _ Hm E)|unfold in_width; simpl; lia].
Qed.

Lemma alu_width (op a src v : Z) :
  in_width 32 a -> in_width 32 src -> alu_value op a src = Some v -> in_width 32 v.
Proof.
  intros Ha Hs. unfold alu_value.
  assert (0 <= Z.land src 31) by (apply Z.land_nonneg; right; lia).
  destruct_ifs; intros; simplify_eq; try (by apply wrap_range).
  - breflect. destruct Ha, Hs. split; [apply Z.div_pos; lia|].
    apply Z.div_lt_upper_bound; [lia|]. nia.
  - apply (bitop_width orb); try done. intros. by rewrite Z.lor_spec.
  - apply land_width; [lia|done|apply Hs].
  - rewrite Z.shiftr_div_pow2 by done. destruct Ha.
    assert (0 < 2 ^ Z.land src 31) by (by apply Z.pow_pos_nonneg).
    split; [apply Z.div_pos; lia|]. apply Z.div_lt_upper_bound; [lia|]. nia.
  - breflect. destruct Hs. unfold in_width.
    pose proof (Z.mod_pos_bound a src ltac:(lia)). lia.
  - apply (bitop_width xorb); try done. intros. by rewrite Z.lxor_spec.
Qed.

(** ** One step *)

(** A step keeps the widths and moves the program counter forward. *)
Lemma bpf_step_next (d : poly_seccomp_data) (i : poly_bpf_insn) (s s' : bpf_state) :
  wf_insn i -> wf_bpf s -> bpf_step d i s = Next s' -> wf_bpf s' /\ bs_pc s < bs_pc s'.
Proof.
  intros Hi (Ha & Hx & Hl & Hm & Hpc). destruct s as [a x mem pc]. simpl in *.
  pose proof Hi as (_ & Hjt & Hjf & Hk). unfold bpf_step, kill. simpl.
  set (src := if _ =? POLY_BPF_X then x else bi_k i).
  assert (in_width 32 src) as Hsrc by (subst src; by destruct (_ =? POLY_BPF_X)).
  destruct_ifs;
    repeat match goal with
    | |- context [match load_value ?d ?i ?m with _ => _ end] =>
        let E := fresh "E" in destruct (load_value d i m) eqn:E;
        [apply (load_value_width _ _ _ _ Hi Hm) in E|]
    | |- context [match alu_value ?o ?a ?s with _ => _ end] =>
        let E := fresh "E" in destruct (alu_value o a s) eqn:E;
        [apply (alu_width _ _ _ _ Ha Hsrc) in E|]
    | |- context [match jump_taken ?o ?a ?s with _ => _ end] =>
        destruct (jump_taken o a s) as [b|]; [destruct b|]
    end; intros; simplify_eq; simpl; unfold in_width in Hjt, Hjf, Hk |- *;
    unfold wf_bpf; simpl; rewrite ?length_insert; split_and!;
    try done; try lia; try apply Ha; try apply Hx; by apply Forall_insert.
Qed.

Lemma bpf_step_return (d : poly_seccomp_data) (i : poly_bpf_insn) (s : bpf_state) (r : Z) :
  wf_insn i -> wf_bpf s -> bpf_step d i s = Return r -> in_width 32 r.
Proof.
  intros (_ & _ & _ & Hk) (Ha & _). destruct s as [a x mem pc]. simpl in Ha.
  assert (in_width 32 POLY_SECCOMP_RET_KILL_PROCESS) by (unfold in_width; split; [done|reflexivity]).
  unfold bpf_step, kill.
  destruct_ifs; repeat case_match; intros; simplify_eq; done.
Qed.

Lemma insn_at_wf (p : poly_seccomp_program) (pc : Z) : wf_program p -> wf_insn (insn_at p pc).
Proof.
  intros Hp. unfold insn_at. rewrite list_lookup_total_alt.
  destruct (sp_insns p !! Z.to_nat pc) as [i|] eqn:E; simpl.
  - by eapply (Forall_lookup_1 _ _ _ _ (wp_insns _ Hp) E).
  - by split_and!; apply in_width_0.
Qed.

(** ** Runs *)

(** The steps a program can take that stay within it. *)
Definition bpf_rel (p : poly_seccomp_program) (d : poly_seccomp_data) (s s' : bpf_state) : Prop :=
  bs_pc s < Z.of_nat (sp_len p) /\ bpf_step d (insn_at p (bs_pc s)) s = Next s' /\
  bs_pc s' <= Z.of_nat (sp_len p).

Definition bpf_reachable (p : poly_seccomp_program) (d : poly_seccomp_data) : bpf_state -> Prop :=
  rtc (bpf_rel p d) initial_bpf.

Lemma reachable_wf (p : poly_seccomp_program) (d : poly_seccomp_data) (s : bpf_state) :
  wf_program p -> bpf_reachable p d s -> wf_bpf s.
Proof.
  intros Hp. unfold bpf_reachable. generalize wf_initial. generalize initial_bpf.
  intros s0 Hs0 Hr. induction Hr as [|s0 s1 s2 (_ & Hst & _) _ IH]; [done|].
  apply IH. eapply (bpf_step_next d); [by apply insn_at_wf|exact Hs0|exact Hst].
Qed.

(** How a run ends: [stops p d s r] says that the run is over in [s] with
    the result [r]. *)
Inductive stops (p : poly_seccomp_program) (d : poly_seccomp_data) (s : bpf_state) : Z -> Prop :=
  | stops_end : bs_pc s = Z.of_nat (sp_len p) -> stops p d s POLY_SECCOMP_RET_KILL_PROCESS
  | stops_return r : bs_pc s < Z.of_nat (sp_len p) ->
      bpf_step d (insn_at p (bs_pc s)) s = Return r -> stops p d s r
  | stops_overrun s' : bs_pc s < Z.of_nat (sp_len p) ->
      bpf_step d (insn_at p (bs_pc s)) s = Next s' -> Z.of_nat (sp_len p) < bs_pc s' ->
      stops p d s POLY_SECCOMP_RET_KILL_PROCESS.

(** Fuel for the remaining instructions is enough, and the result is the one
    of the run. *)
Lemma eval_loop_total (p : poly_seccomp_program) (d : poly_seccomp_data) :
  wf_program p -> forall fuel s,
  wf_bpf s -> bs_pc s <= Z.of_nat (sp_len p) ->
  Z.of_nat (sp_len p) - bs_pc s < Z.of_nat fuel ->
  exists r s', eval_loop fuel p d s = Some r /\ rtc (bpf_rel p d) s s' /\ stops p d s' r.
Proof.
  intros Hp. induction fuel as [|fuel IH]; intros s Hs Hpc Hf; [lia|]. cbn [eval_loop].
  destruct (Z.ltb_spec (bs_pc s) (Z.of_nat (sp_len p))) as [Hlt|Hge].
  - destruct (bpf_step d (insn_at p (bs_pc s)) s) as [s1|r] eqn:E.
    + destruct (bpf_step_next d _ s s1 (insn_at_wf p _ Hp) Hs E) as [Hs1 Hinc].
      rewrite Z.gtb_ltb. destruct (Z.ltb_spec (Z.of_nat (sp_len p)) (bs_pc s1)) as [Ho|Hi].
      * eexists _, s. split; [done|]. split; [apply rtc_refl|]. by eapply stops_overrun.
      * destruct (IH s1 Hs1 Hi ltac:(lia)) as (r & s2 & Hr & Hrtc & Hst).
        exists r, s2. split; [done|]. split; [|done]. eapply rtc_l; [|done]. done.
    + exists r, s. split; [done|]. split; [apply rtc_refl|]. by apply stops_return.
  - eexists _, s. split; [done|]. split; [apply rtc_refl|]. apply stops_end. lia.
Qed.

Lemma eval_total (p : poly_seccomp_program) (d : poly_seccomp_data) :
  wf_program p ->
  exists r s, poly_seccomp_eval_program p d = Some r /\ bpf_reachable p d s /\ stops p d s r.
Proof.
  intros Hp. apply (eval_loop_total p d Hp (S (sp_len p)) initial_bpf wf_initial);
    simpl; lia.
Qed.

Lemma eval_width (p : poly_seccomp_program) (d : poly_seccomp_data) (r : Z) :
  wf_program p -> poly_seccomp_eval_program p d = Some r -> in_width 32 r.
Proof.
  intros Hp Hr. destruct (eval_total p d Hp) as (r' & s & Hr' & Hreach & Hst).
  assert (r' = r) as -> by congruence.
  assert (in_width 32 POLY_SECCOMP_RET_KILL_PROCESS) by (unfold in_width; split; [done|reflexivity]).
  destruct Hst as [|r Hlt Hret|]; [done| |done].
  by eapply (bpf_step_return d _ s); [apply insn_at_wf|eapply reachable_wf|].
Qed.

(** ** What validation guarantees *)

(** The instruction divides by the index register, which is zero. *)
Definition divides_by_zero_x (i : poly_bpf_insn) (s : bpf_state) : Prop :=
  POLY_BPF_CLASS (bi_code i) = POLY_BPF_ALU /\
  (POLY_BPF_OP (bi_code i) = POLY_BPF_DIV \/ POLY_BPF_OP (bi_code i) = POLY_BPF_MOD) /\
  POLY_BPF_SRC (bi_code i) = POLY_BPF_X /\ bs_x s = 0.

Lemma src_bit (code : Z) :
  POLY_BPF_SRC code = POLY_BPF_X \/ POLY_BPF_SRC code = POLY_BPF_K.
Proof.
  unfold POLY_BPF_SRC, POLY_BPF_X, POLY_BPF_K.
  assert (Z.land code 8 = if Z.testbit code 3 then 8 else 0) as ->.
  { apply Z.bits_inj'. intros n Hn. rewrite Z.land_spec. change 8 with (2 ^ 3) at 1.
    rewrite Z.pow2_bits_eqb by lia. destruct (Z.eqb_spec 3 n) as [<-|Hne].
    - rewrite andb_true_r. by destruct (Z.testbit code 3).
    - rewrite andb_false_r. destruct (Z.testbit code 3); [|by rewrite Z.bits_0].
      change 8 with (2 ^ 3). rewrite Z.pow2_bits_false by lia. done. }
  destruct (Z.testbit code 3); auto.
Qed.

Lemma valid_load (d : poly_seccomp_data) (left : Z) (i : poly_bpf_insn) (mem : list Z) :
  POLY_BPF_CLASS (bi_code i) = POLY_BPF_LD \/ POLY_BPF_CLASS (bi_code i) = POLY_BPF_LDX ->
  valid_insn left i = true -> is_Some (load_value d i mem).
Proof.
  intros Hc. unfold valid_insn, load_value, poly_seccomp_load_data_word.
  rewrite (proj2 (orb_true_iff _ _))
    by (destruct Hc as [Hc|Hc]; rewrite Hc; [by left|by right]).
  destruct (Z.eqb_spec (POLY_BPF_MODE (bi_code i)) POLY_BPF_ABS).
  - destruct (size_width _); [|done]. destruct (_ || _); done.
  - destruct (Z.eqb_spec (POLY_BPF_MODE (bi_code i)) POLY_BPF_IMM); [done|].
    destruct (Z.eqb_spec (POLY_BPF_MODE (bi_code i)) POLY_BPF_MEM).
    + intros Hk. breflect. by rewrite (proj2 (Z.ltb_lt _ _)) by lia.
    + by destruct (POLY_BPF_MODE (bi_code i) =? POLY_BPF_LEN).
Qed.

Lemma valid_store (left : Z) (i : poly_bpf_insn) :
  POLY_BPF_CLASS (bi_code i) = POLY_BPF_ST \/ POLY_BPF_CLASS (bi_code i) = POLY_BPF_STX ->
  valid_insn left i = true -> (bi_k i >=? POLY_SECCOMP_MEM_WORDS) = false.
Proof.
  intros Hc. unfold valid_insn.
  destruct Hc as [-> | ->]; simpl; by destruct (bi_k i >=? POLY_SECCOMP_MEM_WORDS).
Qed.

Lemma valid_alu (left : Z) (i : poly_bpf_insn) (a x : Z) :
  let src := if POLY_BPF_SRC (bi_code i) =? POLY_BPF_X then x else bi_k i in
  let op := POLY_BPF_OP (bi_code i) in
  POLY_BPF_CLASS (bi_code i) = POLY_BPF_ALU -> valid_insn left i = true ->
  is_Some (alu_value op a src) \/
  ((op = POLY_BPF_DIV \/ op = POLY_BPF_MOD) /\ POLY_BPF_SRC (bi_code i) = POLY_BPF_X /\ x = 0).
Proof.
  intros src op Hc. unfold valid_insn. rewrite Hc. simpl. fold op. subst src.
  destruct ((op =? POLY_BPF_DIV) || (op =? POLY_BPF_MOD)) eqn:Hd.
  - apply orb_prop in Hd. destruct (src_bit (bi_code i)) as [Hs|Hs]; rewrite Hs; simpl.
    + intros _. destruct (Z.eqb_spec x 0) as [->|Hx].
      { right. rewrite !Z.eqb_eq in Hd. done. }
      left. unfold alu_value. destruct Hd as [Hd|Hd]; apply Z.eqb_eq in Hd; rewrite Hd; simpl;
        by rewrite (proj2 (Z.eqb_neq _ _) Hx).
    + destruct (Z.eqb_spec (bi_k i) 0) as [Hk|Hk]; [done|]. intros _. left. unfold alu_value.
      destruct Hd as [Hd|Hd]; apply Z.eqb_eq in Hd; rewrite Hd; simpl;
        by rewrite (proj2 (Z.eqb_neq _ _) Hk).
  - simpl. apply orb_false_elim in Hd as [Hd1 Hd2]. intros Hv. left. unfold alu_value.
    rewrite Hd1, Hd2 in *. by destruct_ifs.
Qed.

Lemma valid_jump (left : Z) (i : poly_bpf_insn) (a src : Z) :
  let op := POLY_BPF_OP (bi_code i) in
  POLY_BPF_CLASS (bi_code i) = POLY_BPF_JMP -> valid_insn left i = true ->
  (op = POLY_BPF_JA /\ bi_k i < left) \/
  (op <> POLY_BPF_JA /\ is_Some (jump_taken op a src) /\ bi_jt i < left /\ bi_jf i < left).
Proof.
  intros op Hc. unfold valid_insn. rewrite Hc. simpl. fold op.
  destruct (Z.eqb_spec op POLY_BPF_JA) as [Hj|Hj]; [intros; breflect; left; lia|].
  destruct (_ || _) eqn:Hop; [|done]. intros Hv. right. breflect.
  split; [done|]. split; [|lia]. unfold jump_taken. by destruct_ifs.
Qed.

(** A valid instruction never faults on a memory or data index or on its
    operation code: it goes on inside the program, returns, or divides by a
    zero index register. *)
Lemma valid_insn_step (d : poly_seccomp_data) (left : Z) (i : poly_bpf_insn) (s : bpf_state) :
  valid_insn left i = true -> 1 <= left ->
  (exists s', bpf_step d i s = Next s' /\ bs_pc s' <= bs_pc s + left) \/
  POLY_BPF_CLASS (bi_code i) = POLY_BPF_RET \/ divides_by_zero_x i s.
Proof.
  intros Hv Hl. destruct s as [a x mem pc]. unfold bpf_step. cbn [bs_x bs_pc].
  destruct (Z.eqb_spec (POLY_BPF_CLASS (bi_code i)) POLY_BPF_LD) as [Hc|Hn1].
  { destruct (valid_load d left i mem (or_introl Hc) Hv) as [v ->].
    left. eexists. split; [done|simpl; lia]. }
  destruct (Z.eqb_spec (POLY_BPF_CLASS (bi_code i)) POLY_BPF_LDX) as [Hc|Hn2].
  { destruct (valid_load d left i mem (or_intror Hc) Hv) as [v ->].
    left. eexists. split; [done|simpl; lia]. }
  destruct (Z.eqb_spec (POLY_BPF_CLASS (bi_code i)) POLY_BPF_ST) as [Hc|Hn3].
  { rewrite (valid_store left i (or_introl Hc) Hv). left. eexists. split; [done|simpl; lia]. }
  destruct (Z.eqb_spec (POLY_BPF_CLASS (bi_code i)) POLY_BPF_STX) as [Hc|Hn4].
  { rewrite (valid_store left i (or_intror Hc) Hv). left. eexists. split; [done|simpl; lia]. }
  destruct (Z.eqb_spec (POLY_BPF_CLASS (bi_code i)) POLY_BPF_ALU) as [Hc|Hn5].
  { destruct (valid_alu left i a x Hc Hv) as [[v ->]|Hz]; [|by right; right].
    left. eexists. split; [done|simpl; lia]. }
  destruct (Z.eqb_spec (POLY_BPF_CLASS (bi_code i)) POLY_BPF_JMP) as [Hc|Hn6].
  { left. destruct (valid_jump left i a
      (if POLY_BPF_SRC (bi_code i) =? POLY_BPF_X then x else bi_k i) Hc Hv)
      as [[-> Hk]|(Hop & [b ->] & Ht & Hf)].
    - eexists. split; [done|simpl; lia].
    - rewrite (proj2 (Z.eqb_neq _ _) Hop). eexists. split; [done|]. simpl. destruct b; lia. }
  destruct (Z.eqb_spec (POLY_BPF_CLASS (bi_code i)) POLY_BPF_RET) as [Hc|Hret]; [by right; left|].
  destruct (Z.eqb_spec (POLY_BPF_CLASS (bi_code i)) POLY_BPF_MISC) as [Hc|Hm].
  { left. unfold valid_insn in Hv. rewrite Hc in Hv. simpl in Hv.
    destruct (POLY_BPF_MISCOP (bi_code i) =? POLY_BPF_TAX); [eexists; split; [done|simpl; lia]|].
    destruct (POLY_BPF_MISCOP (bi_code i) =? POLY_BPF_TXA); [|done].
    eexists. split; [done|simpl; lia]. }
  exfalso. unfold valid_insn in Hv.
  rewrite !(proj2 (Z.eqb_neq (POLY_BPF_CLASS _) _)) in Hv by done. done.
Qed.

Lemma validate_insn_at (p : poly_seccomp_program) (pc : Z) :
  poly_seccomp_validate_program p = true -> 0 <= pc < Z.of_nat (sp_len p) ->
  valid_insn (Z.of_nat (sp_len p) - pc) (insn_at p pc) = true.
Proof.
  unfold poly_seccomp_validate_program. destruct (_ || _); [done|].
  rewrite List.forallb_forall. intros H Hpc.
  specialize (H (Z.to_nat pc) ltac:(apply List.in_seq; lia)).
  by rewrite Z2Nat.id in H by lia.
Qed.

(** The three ways in which the run of a validated program ends. *)
Inductive valid_end (p : poly_seccomp_program) (s : bpf_state) : Z -> Prop :=
  | valid_ret : bs_pc s < Z.of_nat (sp_len p) ->
      POLY_BPF_CLASS (bi_code (insn_at p (bs_pc s))) = POLY_BPF_RET ->
      valid_end p s (if POLY_BPF_RVAL (bi_code (insn_at p (bs_pc s))) =? POLY_BPF_A
                     then bs_a s else bi_k (insn_at p (bs_pc s)))
  | valid_div : bs_pc s < Z.of_nat (sp_len p) ->
      divides_by_zero_x (insn_at p (bs_pc s)) s -> valid_end p s POLY_SECCOMP_RET_KILL_PROCESS
  | valid_fall : bs_pc s = Z.of_nat (sp_len p) -> valid_end p s POLY_SECCOMP_RET_KILL_PROCESS.

Lemma bpf_step_ret (d : poly_seccomp_data) (i : poly_bpf_insn) (s : bpf_state) :
  POLY_BPF_CLASS (bi_code i) = POLY_BPF_RET ->
  bpf_step d i s = Return (if POLY_BPF_RVAL (bi_code i) =? POLY_BPF_A then bs_a s else bi_k i).
Proof. intros Hc. unfold bpf_step. rewrite Hc. by destruct s. Qed.

Lemma bpf_step_div (d : poly_seccomp_data) (i : poly_bpf_insn) (s : bpf_state) :
  divides_by_zero_x i s -> bpf_step d i s = kill.
Proof.
  intros (Hc & Hop & Hs & Hx). destruct s as [a x mem pc]. simpl in Hx.
  unfold bpf_step. rewrite Hc, Hs. simpl. rewrite Hx. unfold alu_value.
  by destruct Hop as [-> | ->].
Qed.

Lemma stops_validated (p : poly_seccomp_program) (d : poly_seccomp_data) (s : bpf_state) (r : Z) :
  wf_program p -> poly_seccomp_validate_program p = true -> bpf_reachable p d s ->
  stops p d s r -> valid_end p s r.
Proof.
  intros Hp Hv Hreach Hst.
  pose proof (reachable_wf p d s Hp Hreach) as (_ & _ & _ & _ & Hpc0).
  assert (bs_pc s < Z.of_nat (sp_len p) ->
    (exists s', bpf_step d (insn_at p (bs_pc s)) s = Next s' /\ bs_pc s' <= Z.of_nat (sp_len p)) \/
    POLY_BPF_CLASS (bi_code (insn_at p (bs_pc s))) = POLY_BPF_RET \/
    divides_by_zero_x (insn_at p (bs_pc s)) s) as Hcases.
  { intros Hlt. pose proof (validate_insn_at p (bs_pc s) Hv ltac:(lia)) as Hi.
    destruct (valid_insn_step d _ _ s Hi ltac:(lia)) as [(s' & ? & ?)|?]; [|by right].
    left. exists s'. split; [done|lia]. }
  destruct Hst as [Hend|r Hlt Hret|s' Hlt Hnext Hover].
  - by apply valid_fall.
  - destruct (Hcases Hlt) as [(s' & Hn & _)|[Hc|Hz]]; [congruence| |].
    + rewrite bpf_step_ret in Hret by done. simplify_eq. by apply valid_ret.
    + rewrite bpf_step_div in Hret by done. unfold kill in Hret. simplify_eq. by apply valid_div.
  - destruct (Hcases Hlt) as [(s'' & Hn & Hle)|[Hc|Hz]].
    + assert (s'' = s') as -> by congruence. lia.
    + by rewrite bpf_step_ret in Hnext.
    + by rewrite bpf_step_div in Hnext.
Qed.

(** ** Properties *)

(** C37: evaluating any filter program, valid or not, terminates within one
    pass over its instructions and returns a 32-bit action, and all values the
    run holds (accumulator, index register, scratch words) stay within 32
    bits. *)
Theorem bpf_eval_terminates (p : poly_seccomp_program) (d : poly_seccomp_data) :
  wf_program p ->
  (exists r, poly_seccomp_eval_program p d = Some r /\ in_width 32 r) /\
  (forall s, bpf_reachable p d s -> wf_bpf s) /\
  (forall fuel, (sp_len p < fuel)%nat ->
     eval_loop fuel p d initial_bpf = poly_seccomp_eval_program p d).
Proof.
  intros Hp. destruct (eval_total p d Hp) as (r & s & Hr & _). split_and!.
  - exists r. split; [done|by eapply eval_width].
  - intros s' Hs'. by eapply reachable_wf.
  - intros fuel Hf.
    assert (forall n m t, (n <= m)%nat -> forall v, eval_loop n p d t = Some v ->
      eval_loop m p d t = Some v) as Hmono.
    { induction n as [|n IH]; intros [|m] t Hle v; [done|done|lia|]. cbn [eval_loop].
      destruct (_ <? _); [|done]. destruct (bpf_step _ _ _); [|done].
      destruct (_ >? _); [done|]. apply IH. lia. }
    rewrite Hr. by apply (Hmono (S (sp_len p))); [lia|].
Qed.

(** A program that [poly_seccomp_validate_program] accepts only ends in
    one of three ways: its result is the value of a RET instruction the run
    reached, or it is KILL_PROCESS because the run divided by a zero index
    register or ran past the last instruction. In particular no load, store,
    jump or operation code of an accepted program is ever out of range. *)
Theorem bpf_validated_sound (p : poly_seccomp_program) (d : poly_seccomp_data) :
  wf_program p -> poly_seccomp_validate_program p = true ->
  exists r s, poly_seccomp_eval_program p d = Some r /\ bpf_reachable p d s /\ valid_end p s r.
Proof.
  intros Hp Hv. destruct (eval_total p d Hp) as (r & s & Hr & Hreach & Hst).
  exists r, s. split; [done|]. split; [done|]. by eapply stops_validated.
Qed.

(** ** Sample programs *)

(** A program of the given instructions in a zeroed array. *)
Definition make_program (insns : list poly_bpf_insn) : poly_seccomp_program :=
  MkProgram (length insns)
    (insns ++ replicate (POLY_SECCOMP_MAX_INSNS - length insns) zero_insn).

Lemma make_program_wf (insns : list poly_bpf_insn) :
  (length insns <= POLY_SECCOMP_MAX_INSNS)%nat -> Forall wf_insn insns ->
  wf_program (make_program insns).
Proof.
  intros Hl Hi. constructor; [|done|].
  - cbn [make_program sp_insns]. rewrite length_app, length_replicate. lia.
  - cbn [make_program sp_insns]. apply Forall_app. split; [done|].
    apply Forall_replicate. by split_and!; apply in_width_0.
Qed.

(** Return errno 1 for system call 64, allow the others. *)
Definition deny_write : list poly_bpf_insn :=
  [MkInsn 0x20 0 0 0; MkInsn 0x15 0 1 64; MkInsn 0x06 0 0 0x00050001;
   MkInsn 0x06 0 0 0x7fff0000].

Definition sample_data (nr : Z) : poly_seccomp_data := MkData nr 0xc00000b7 4096 [0; 0; 0; 0; 0; 0].

Lemma deny_write_wf : wf_program (make_program deny_write).
Proof.
  apply make_program_wf; [unfold POLY_SECCOMP_MAX_INSNS; simpl; lia|].
  repeat constructor; unfold in_width; simpl; lia.
Qed.

Example deny_write_runs :
  poly_seccomp_eval_program (make_program deny_write) (sample_data 64) = Some 0x00050001 /\
  poly_seccomp_eval_program (make_program deny_write) (sample_data 63) = Some 0x7fff0000.
Proof. vm_compute. split; reflexivity. Qed.

Lemma bpf_eval_terminates_witness :
  exists r, poly_seccomp_eval_program (make_program deny_write) (sample_data 64) = Some r /\
    in_width 32 r.
Proof.
  apply (bpf_eval_terminates (make_program deny_write) (sample_data 64)). exact deny_write_wf.
Defined.

Lemma bpf_validated_sound_witness :
  exists r s, poly_seccomp_eval_program (make_program deny_write) (sample_data 64) = Some r /\
    bpf_reachable (make_program deny_write) (sample_data 64) s /\
    valid_end (make_program deny_write) s r.
Proof.
  apply (bpf_validated_sound (make_program deny_write) (sample_data 64)).
  - exact deny_write_wf.
  - vm_compute. reflexivity.
Defined.
