(* ===== verification/Seccomp.v ===== *)
(** The seccomp policy of the guest process in [tools/runtime/polyexec.c]:
    installing filters, the [prctl]/[seccomp]/[bpf] control calls, and the
    check that every guest system call passes first
    ([poly_seccomp_preflight_syscall]).

    The state is the module's static variables.  [guest_event] is the part of
    [poly_trap_vector_dispatch] that concerns them: the check comes first, the
    call is translated, and only then can it reach the control calls.  The
    theorems are about every sequence of such events. *)

From stdpp Require Import relations.
From S2P Require Import Prelude SyscallMap GuestMemory SeccompBpf.

(** ** Constants of the Linux headers *)

Definition EOPNOTSUPP : Z := 95.
Definition PR_GET_SECCOMP : Z := 21.
Definition PR_SET_SECCOMP : Z := 22.
Definition PR_SET_NO_NEW_PRIVS : Z := 38.
Definition PR_GET_NO_NEW_PRIVS : Z := 39.

Definition POLY_SECCOMP_MAX_FILTERS : nat := 16.
Definition POLY_SECCOMP_MODE_DISABLED : Z := 0.
Definition POLY_SECCOMP_MODE_STRICT : Z := 1.
Definition POLY_SECCOMP_MODE_FILTER : Z := 2.
Definition POLY_SECCOMP_SET_MODE_STRICT : Z := 0.
Definition POLY_SECCOMP_SET_MODE_FILTER : Z := 1.
Definition POLY_SECCOMP_GET_ACTION_AVAIL : Z := 2.
Definition POLY_SECCOMP_FILTER_FLAG_TSYNC : Z := 1.
Definition POLY_SECCOMP_FILTER_FLAG_LOG : Z := 2.
Definition POLY_SECCOMP_FILTER_FLAG_SPEC_ALLOW : Z := 4.
Definition POLY_AUDIT_ARCH_AARCH64 : Z := 0xc00000b7.
Definition POLY_AUDIT_ARCH_RISCV64 : Z := 0xc00000f3.
Definition POLY_AUDIT_ARCH_X86_64 : Z := 0xc000003e.

(** ** State *)

(** The event packet. *)
Record poly_runtime_event_record : Type := MkPacket {
  pk_reason : Z;
  pk_mode : Z;
  pk_number : Z;
  pk_selector : Z;
  pk_pc : Z;
  pk_next_pc : Z;
  pk_flags : Z;
  pk_reserved : list Z;
  pk_args : list Z;
}.

(** [poly_seccomp_filters[0 .. poly_seccomp_filter_count)] is a list: the rest
    of the array is never read. *)
Record seccomp_state : Type := MkSeccomp {
  sc_mode : Z;
  sc_filters : list poly_seccomp_program;
  sc_no_new_privs : Z;
  sc_preflight_count : Z;
  sc_denied_count : Z;
}.

Definition initial_seccomp : seccomp_state := MkSeccomp POLY_SECCOMP_MODE_DISABLED [] 0 0 0.

Definition set_mode (mode : Z) (s : seccomp_state) : seccomp_state :=
  MkSeccomp mode (sc_filters s) (sc_no_new_privs s) (sc_preflight_count s) (sc_denied_count s).
Definition set_no_new_privs (s : seccomp_state) : seccomp_state :=
  MkSeccomp (sc_mode s) (sc_filters s) 1 (sc_preflight_count s) (sc_denied_count s).
Definition push_filter (p : poly_seccomp_program) (s : seccomp_state) : seccomp_state :=
  MkSeccomp POLY_SECCOMP_MODE_FILTER (sc_filters s ++ [p]) (sc_no_new_privs s)
    (sc_preflight_count s) (sc_denied_count s).
Definition count_preflight (s : seccomp_state) : seccomp_state :=
  MkSeccomp (sc_mode s) (sc_filters s) (sc_no_new_privs s)
    (u64 (sc_preflight_count s + 1)) (sc_denied_count s).
Definition count_denied (s : seccomp_state) : seccomp_state :=
  MkSeccomp (sc_mode s) (sc_filters s) (sc_no_new_privs s) (sc_preflight_count s)
    (u64 (sc_denied_count s + 1)).

(** ** Operations *)

Definition poly_seccomp_arch_for_mode (mode : Z) : Z :=
  if mode =? POLY_MODE_RAW_AARCH64 then POLY_AUDIT_ARCH_AARCH64
  else if mode =? POLY_MODE_RAW_RISCV then POLY_AUDIT_ARCH_RISCV64
  else POLY_AUDIT_ARCH_X86_64.

Definition poly_seccomp_action_rank (action : Z) : Z :=
  let full := Z.land action POLY_SECCOMP_RET_ACTION_FULL in
  if full =? POLY_SECCOMP_RET_KILL_PROCESS then 8
  else if full =? POLY_SECCOMP_RET_KILL_THREAD then 7
  else if full =? POLY_SECCOMP_RET_TRAP then 6
  else if full =? POLY_SECCOMP_RET_ERRNO then 5
  else if full =? POLY_SECCOMP_RET_TRACE then 3
  else if full =? POLY_SECCOMP_RET_LOG then 2
  else if full =? POLY_SECCOMP_RET_ALLOW then 1
  else 4.

Definition poly_seccomp_action_supported (action : Z) : bool :=
  let full := Z.land action POLY_SECCOMP_RET_ACTION_FULL in
  (full =? POLY_SECCOMP_RET_KILL_PROCESS) || (full =? POLY_SECCOMP_RET_KILL_THREAD) ||
  (full =? POLY_SECCOMP_RET_TRAP) || (full =? POLY_SECCOMP_RET_ERRNO) ||
  (full =? POLY_SECCOMP_RET_TRACE) || (full =? POLY_SECCOMP_RET_LOG) ||
  (full =? POLY_SECCOMP_RET_ALLOW).

(** [struct poly_bpf_insn] in guest memory: 8 bytes. *)
Definition load_insn (m : memory) (address : Z) : poly_bpf_insn :=
  MkInsn (le_value (load m address 2)) (le_value (load m (address + 2) 1))
    (le_value (load m (address + 3) 1)) (le_value (load m (address + 4) 4)).

Section Policy.
(** The memory probe and the guest memory. *)
Context (probe : mem_probe) (m : memory).

Definition poly_seccomp_install_filter (fprog_addr : Z) (s : seccomp_state)
    : seccomp_state * Z :=
  if (fprog_addr =? 0) || negb (poly_guest_range_is_mapped probe fprog_addr 16 false) then
    (s, neg_errno EFAULT)
  else
    let len := le_value (load m fprog_addr 2) in
    let filter := load_u64 m (fprog_addr + 8) in
    if (len =? 0) || (len >? Z.of_nat POLY_SECCOMP_MAX_INSNS) || (filter =? 0) then
      (s, neg_errno EINVAL)
    else if negb (poly_guest_range_is_mapped probe filter (len * 8) false) then
      (s, neg_errno EFAULT)
    else
      let program := make_program
        ((fun n => load_insn m (filter + 8 * Z.of_nat n)) <$> seq 0 (Z.to_nat len)) in
      if negb (poly_seccomp_validate_program program) then (s, neg_errno EINVAL)
      else if (POLY_SECCOMP_MAX_FILTERS <=? length (sc_filters s))%nat then (s, neg_errno ENOMEM)
      else (push_filter program s, 0).

(** The control calls return [None] when they leave the call to somebody
    else, and the new state with the result otherwise. *)
Definition poly_seccomp_dispatch_guest_bpf (x86_number : Z) : option Z :=
  if x86_number =? SYS_bpf then Some (neg_errno EPERM) else None.

Definition arg (packet : poly_runtime_event_record) (n : nat) : Z := default 0 (pk_args packet !! n).

Definition dispatch_prctl (packet : poly_runtime_event_record) (s : seccomp_state)
    : option (seccomp_state * Z) :=
  let option := arg packet 0 in
  if option =? PR_SET_NO_NEW_PRIVS then
    if negb (arg packet 1 =? 1) || negb (arg packet 2 =? 0) || negb (arg packet 3 =? 0) ||
       negb (arg packet 4 =? 0) then Some (s, neg_errno EINVAL)
    else Some (set_no_new_privs s, 0)
  else if option =? PR_GET_NO_NEW_PRIVS then Some (s, u64 (sc_no_new_privs s))
  else if option =? PR_GET_SECCOMP then Some (s, u64 (sc_mode s))
  else if option =? PR_SET_SECCOMP then
    if arg packet 1 =? POLY_SECCOMP_MODE_STRICT then
      Some (set_mode POLY_SECCOMP_MODE_STRICT s, 0)
    else if arg packet 1 =? POLY_SECCOMP_MODE_FILTER then
      Some (poly_seccomp_install_filter (arg packet 2) s)
    else Some (s, neg_errno EINVAL)
  else None.

Definition dispatch_seccomp (packet : poly_runtime_event_record) (s : seccomp_state)
    : seccomp_state * Z :=
  let operation := arg packet 0 in
  let flags := arg packet 1 in
  let uargs := arg packet 2 in
  if operation =? POLY_SECCOMP_SET_MODE_STRICT then
    if negb (flags =? 0) then (s, neg_errno EINVAL)
    else (set_mode POLY_SECCOMP_MODE_STRICT s, 0)
  else if operation =? POLY_SECCOMP_SET_MODE_FILTER then
    let supported_flags :=
      Z.lor (Z.lor POLY_SECCOMP_FILTER_FLAG_TSYNC POLY_SECCOMP_FILTER_FLAG_LOG)
        POLY_SECCOMP_FILTER_FLAG_SPEC_ALLOW in
    if negb (Z.land flags (u64 (Z.lnot supported_flags)) =? 0) then (s, neg_errno EINVAL)
    else poly_seccomp_install_filter uargs s
  else if operation =? POLY_SECCOMP_GET_ACTION_AVAIL then
    if (uargs =? 0) || negb (poly_guest_range_is_mapped probe uargs 4 false) then
      (s, neg_errno EFAULT)
    else
      let action := le_value (load m uargs 4) in
      (s, if poly_seccomp_action_supported action then 0 else neg_errno EOPNOTSUPP)
  else (s, neg_errno EINVAL).

Definition poly_seccomp_dispatch_control (packet : option poly_runtime_event_record)
    (x86_number : Z) (s : seccomp_state) : option (seccomp_state * Z) :=
  match packet with
  | None => None
  | Some pk =>
      match poly_seccomp_dispatch_guest_bpf x86_number with
      | Some result => Some (s, result)
      | None =>
          if x86_number =? SYS_prctl then dispatch_prctl pk s
          else if x86_number =? SYS_seccomp then Some (dispatch_seccomp pk s)
          else None
      end
  end.

Definition poly_seccomp_strict_allows (packet : poly_runtime_event_record) : bool :=
  (pk_number packet =? 63) || (pk_number packet =? 64) || (pk_number packet =? 93) ||
  (pk_number packet =? 94) || (pk_number packet =? 139).

Definition seccomp_data_of (packet : poly_runtime_event_record) : poly_seccomp_data :=
  MkData (signed 32 (pk_number packet)) (poly_seccomp_arch_for_mode (pk_mode packet))
    (pk_pc packet) ((fun n => arg packet n) <$> seq 0 6).

(** The action of one filter; [eval_total] shows that there is always one. *)
Definition filter_action (data : poly_seccomp_data) (p : poly_seccomp_program) : Z :=
  default POLY_SECCOMP_RET_KILL_PROCESS (poly_seccomp_eval_program p data).

(** The loop over the installed filters. *)
Definition select_action (data : poly_seccomp_data) (filters : list poly_seccomp_program) : Z :=
  foldl (fun selected p =>
    let action := filter_action data p in
    if poly_seccomp_action_rank action >? poly_seccomp_action_rank selected
    then action else selected) POLY_SECCOMP_RET_ALLOW filters.

(** [None]: the call may proceed. *)
Definition poly_seccomp_preflight_syscall (packet : option poly_runtime_event_record)
    (s : seccomp_state) : seccomp_state * option Z :=
  match packet with
  | None => (s, None)
  | Some pk =>
      let mode := sc_mode s in
      let filter_count := length (sc_filters s) in
      if ((mode =? POLY_SECCOMP_MODE_DISABLED) || (filter_count =? 0)%nat) &&
         negb (mode =? POLY_SECCOMP_MODE_STRICT) then (s, None)
      else
        let s1 := count_preflight s in
        if (mode =? POLY_SECCOMP_MODE_STRICT) && negb (poly_seccomp_strict_allows pk) then
          (count_denied s1, Some (neg_errno EPERM))
        else if (filter_count =? 0)%nat then (s1, None)
        else
          let selected := select_action (seccomp_data_of pk) (sc_filters s) in
          let full := Z.land selected POLY_SECCOMP_RET_ACTION_FULL in
          if (full =? POLY_SECCOMP_RET_ALLOW) || (full =? POLY_SECCOMP_RET_LOG) then (s1, None)
          else if full =? POLY_SECCOMP_RET_ERRNO then
            let error := Z.land selected POLY_SECCOMP_RET_DATA in
            (count_denied s1, Some (neg_errno (if error =? 0 then EPERM else error)))
          else (count_denied s1, Some (neg_errno EPERM))
  end.
End Policy.

(** ** Events *)

(** The guest memory, and what of it is mapped, may change between events. *)
Inductive guest_event (header_defines : Z -> bool) : seccomp_state -> seccomp_state -> Prop :=
  (** The check denies the call. *)
  | ev_denied pk s s' r :
      poly_seccomp_preflight_syscall (Some pk) s = (s', Some r) ->
      guest_event header_defines s s'
  (** The call passes the check and is not a control call, or another handler
      takes it before. *)
  | ev_elsewhere pk s s' :
      poly_seccomp_preflight_syscall (Some pk) s = (s', None) ->
      guest_event header_defines s s'
  (** The call passes the check and is a control call. *)
  | ev_control probe m pk s s1 x86_number s' r :
      (forall a, in_width 8 (m a)) ->
      poly_seccomp_preflight_syscall (Some pk) s = (s1, None) ->
      poly_generic_linux_syscall_to_x86 header_defines (pk_number pk) = Some x86_number ->
      poly_seccomp_dispatch_control probe m (Some pk) x86_number s1 = Some (s', r) ->
      guest_event header_defines s s'.

Definition reachable (header_defines : Z -> bool) : seccomp_state -> Prop :=
  rtc (guest_event header_defines) initial_seccomp.

Record seccomp_inv (s : seccomp_state) : Prop := {
  si_mode : sc_mode s = POLY_SECCOMP_MODE_DISABLED \/ sc_mode s = POLY_SECCOMP_MODE_STRICT \/
            sc_mode s = POLY_SECCOMP_MODE_FILTER;
  si_filters : Forall (fun p => wf_program p /\ poly_seccomp_validate_program p = true)
                 (sc_filters s);
  si_count : (length (sc_filters s) <= POLY_SECCOMP_MAX_FILTERS)%nat;
  si_disabled : sc_mode s = POLY_SECCOMP_MODE_DISABLED -> sc_filters s = [];
  si_privs : sc_no_new_privs s = 0 \/ sc_no_new_privs s = 1;
}.

(** What a later state keeps of an earlier one. *)
Record grows (s s' : seccomp_state) : Prop := {
  gr_filters : exists new, sc_filters s' = sc_filters s ++ new;
  gr_strict : sc_mode s = POLY_SECCOMP_MODE_STRICT -> sc_mode s' = POLY_SECCOMP_MODE_STRICT;
  gr_enabled : sc_mode s <> POLY_SECCOMP_MODE_DISABLED -> sc_mode s' <> POLY_SECCOMP_MODE_DISABLED;
  gr_privs : sc_no_new_privs s = 1 -> sc_no_new_privs s' = 1;
}.

#[export] Instance grows_preorder : PreOrder grows.
Proof.
  split.
  - intros s. constructor; try done. exists []. by rewrite app_nil_r.
  - intros s1 s2 s3 [[n1 H1] H2 H3 H4] [[n2 J1] J2 J3 J4]. constructor; auto.
    exists (n1 ++ n2). by rewrite J1, H1, app_assoc.
Qed.

(** ** Installing a filter *)

Lemma load_width (m : memory) (address : Z) (n : nat) :
  (forall a, in_width 8 (m a)) -> in_width (8 * Z.of_nat n) (le_value (load m address n)).
Proof.
  intros Hm. pose proof (le_value_range (load m address n)) as H.
  rewrite load_length in H. apply H. unfold load. apply Forall_fmap, Forall_forall. intros i _.
  apply Hm.
Qed.

Lemma load_insn_wf (m : memory) (address : Z) :
  (forall a, in_width 8 (m a)) -> wf_insn (load_insn m address).
Proof.
  intros Hm. split; [exact (load_width _ _ 2 Hm)|]. split; [exact (load_width _ _ 1 Hm)|].
  split; [exact (load_width _ _ 1 Hm)|exact (load_width _ _ 4 Hm)].
Qed.

(** Either nothing changes, or one validated program is appended and the mode
    becomes FILTER. *)
Lemma install_filter_cases (probe : mem_probe) (m : memory) (addr : Z) (s : seccomp_state) :
  (forall a, in_width 8 (m a)) ->
  (exists e, (e = EFAULT \/ e = EINVAL \/ e = ENOMEM) /\
     poly_seccomp_install_filter probe m addr s = (s, neg_errno e)) \/
  (exists p, poly_seccomp_install_filter probe m addr s = (push_filter p s, 0) /\
     wf_program p /\ poly_seccomp_validate_program p = true /\
     (length (sc_filters s) < POLY_SECCOMP_MAX_FILTERS)%nat).
Proof.
  intros Hm. unfold poly_seccomp_install_filter.
  destruct (_ || _); [left; eauto|].
  destruct (_ || _) eqn:Hlen; [left; eauto|].
  destruct (negb _); [left; eauto|]. breflect.
  set (p := make_program _). destruct (poly_seccomp_validate_program p) eqn:Hv; [|left; eauto].
  destruct (Nat.leb_spec POLY_SECCOMP_MAX_FILTERS (length (sc_filters s))); [left; eauto|].
  right. exists p. split_and!; try done. apply make_program_wf.
  - rewrite length_fmap, length_seq. lia.
  - apply Forall_fmap, Forall_forall. intros. by apply load_insn_wf.
Qed.

(** ** The actions *)

Definition permits (action : Z) : Prop :=
  Z.land action POLY_SECCOMP_RET_ACTION_FULL = POLY_SECCOMP_RET_ALLOW \/
  Z.land action POLY_SECCOMP_RET_ACTION_FULL = POLY_SECCOMP_RET_LOG.

Lemma rank_range (action : Z) : 1 <= poly_seccomp_action_rank action <= 8.
Proof. unfold poly_seccomp_action_rank. destruct_ifs; lia. Qed.

Lemma rank_permits (action : Z) : permits action <-> poly_seccomp_action_rank action <= 2.
Proof.
  unfold permits, poly_seccomp_action_rank.
  split.
  - by intros [-> | ->].
  - destruct_ifs; breflect; first [lia|auto].
Qed.

(** The selected action has the highest rank of all. *)
Definition ranks (data : poly_seccomp_data) (filters : list poly_seccomp_program) : list Z :=
  (fun p => poly_seccomp_action_rank (filter_action data p)) <$> filters.

Lemma select_action_snoc (data : poly_seccomp_data) (fs : list poly_seccomp_program)
    (p : poly_seccomp_program) :
  select_action data (fs ++ [p]) =
  if poly_seccomp_action_rank (filter_action data p) >?
     poly_seccomp_action_rank (select_action data fs)
  then filter_action data p else select_action data fs.
Proof. unfold select_action. by rewrite foldl_app. Qed.

Lemma select_action_max (data : poly_seccomp_data) (fs : list poly_seccomp_program) :
  Forall (fun r => r <= poly_seccomp_action_rank (select_action data fs)) (ranks data fs) /\
  (select_action data fs = POLY_SECCOMP_RET_ALLOW \/
   exists p, In p fs /\ select_action data fs = filter_action data p).
Proof.
  induction fs as [|p fs [IHm IHs]] using rev_ind; [split; [constructor|by left]|].
  rewrite select_action_snoc. unfold ranks in *. rewrite fmap_app, Forall_app. simpl.
  destruct (Z.gtb_spec (poly_seccomp_action_rank (filter_action data p))
    (poly_seccomp_action_rank (select_action data fs))) as [Hgt|Hle].
  - split; [|right; exists p; split; [apply List.in_or_app; simpl; auto|done]].
    split; [|repeat constructor; lia]. eapply Forall_impl; [exact IHm|]. simpl. intros. lia.
  - split; [split; [done|repeat constructor; lia]|].
    destruct IHs as [?|(q & Hq & ?)]; [by left|right].
    exists q. split; [apply List.in_or_app; auto|done].
Qed.

Lemma select_permits (data : poly_seccomp_data) (fs : list poly_seccomp_program) :
  permits (select_action data fs) <-> Forall (fun p => permits (filter_action data p)) fs.
Proof.
  destruct (select_action_max data fs) as [Hmax Hsel]. split.
  - rewrite rank_permits. intros H. unfold ranks in Hmax. rewrite Forall_fmap in Hmax.
    eapply Forall_impl; [exact Hmax|]. simpl. intros p Hp. rewrite rank_permits. lia.
  - intros H. destruct Hsel as [-> | (p & Hp & ->)]; [by left|].
    rewrite List.Forall_forall in H. by apply H.
Qed.

(** ** The check *)

Lemma preflight_state (pk : poly_runtime_event_record) (s : seccomp_state) :
  let s' := (poly_seccomp_preflight_syscall (Some pk) s).1 in
  sc_mode s' = sc_mode s /\ sc_filters s' = sc_filters s /\ sc_no_new_privs s' = sc_no_new_privs s.
Proof. unfold poly_seccomp_preflight_syscall. destruct_ifs; done. Qed.

(** A call passes the check exactly when strict mode, if on, allows it and
    every installed filter answers ALLOW or LOG. *)
Lemma preflight_passes (pk : poly_runtime_event_record) (s : seccomp_state) :
  seccomp_inv s ->
  (poly_seccomp_preflight_syscall (Some pk) s).2 = None <->
  (sc_mode s = POLY_SECCOMP_MODE_STRICT -> poly_seccomp_strict_allows pk = true) /\
  Forall (fun p => permits (filter_action (seccomp_data_of pk) p)) (sc_filters s).
Proof.
  intros Hs. rewrite <- select_permits. unfold poly_seccomp_preflight_syscall, permits.
  set (sel := select_action _ _). set (full := Z.land sel _).
  assert (sc_filters s = [] -> sel = POLY_SECCOMP_RET_ALLOW) as Hnil.
  { intros He. subst sel. by rewrite He. }
  assert (sel = POLY_SECCOMP_RET_ALLOW -> full = POLY_SECCOMP_RET_ALLOW) as Hfull.
  { intros He. subst full. by rewrite He. }
  destruct (Z.eqb_spec (sc_mode s) POLY_SECCOMP_MODE_DISABLED) as [Hd|Hd]; simpl.
  { rewrite (si_disabled _ Hs Hd) in Hnil. rewrite Hd. simpl. split; [|done]. intros _.
    split; [done|]. left. by apply Hfull, Hnil. }
  destruct (Z.eqb_spec (sc_mode s) POLY_SECCOMP_MODE_STRICT) as [Hm|Hm]; simpl.
  - rewrite andb_false_r. destruct (poly_seccomp_strict_allows pk); simpl.
    + destruct (sc_filters s) as [|p fs]; simpl; [split; auto|].
      destruct_ifs; breflect; simpl; split; try done; try tauto;
        try (intros _; split; [done|]); try (apply orb_prop in Heqb as [?|?]; breflect; auto);
        intros [_ [?|?]]; congruence.
    + split; [done|]. intros [H _]. by specialize (H Hm).
  - rewrite andb_true_r. destruct (sc_filters s) as [|p fs]; simpl; [split; auto|].
    destruct_ifs; breflect; simpl; split; try done;
      try (intros _; split; [done|]); try (apply orb_prop in Heqb as [?|?]; breflect; auto);
      intros [_ [?|?]]; congruence.
Qed.

(** ** Events keep the invariant and only strengthen the policy *)

(** In strict mode no control call gets through. *)
Lemma strict_not_control (hdr : Z -> bool) (pk : poly_runtime_event_record) (x : Z) :
  poly_seccomp_strict_allows pk = true ->
  poly_generic_linux_syscall_to_x86 hdr (pk_number pk) = Some x ->
  x <> SYS_bpf /\ x <> SYS_prctl /\ x <> SYS_seccomp.
Proof.
  intros Ha Hx.
  assert (forall n y, In (Case n y false) syscall_cases -> x = y -> pk_number pk = n) as Hinj.
  { intros n y Hc ->. eapply generic_injective; [exact Hx|]. by apply generic_case. }
  assert (forall n y, In (Case n y false) syscall_cases ->
    (n =? 63) || (n =? 64) || (n =? 93) || (n =? 94) || (n =? 139) = false -> x <> y) as Hne.
  { intros n y Hc Hn He. unfold poly_seccomp_strict_allows in Ha.
    rewrite (Hinj n y Hc He) in Ha. congruence. }
  split_and!; [apply (Hne 280)|apply (Hne 167)|apply (Hne 277)]; try done;
    unfold syscall_cases; simpl; tauto.
Qed.

Lemma control_cases (probe : mem_probe) (m : memory) (pk : poly_runtime_event_record) (x : Z)
    (s s' : seccomp_state) (r : Z) :
  (forall a, in_width 8 (m a)) ->
  poly_seccomp_dispatch_control probe m (Some pk) x s = Some (s', r) ->
  (x = SYS_bpf \/ x = SYS_prctl \/ x = SYS_seccomp) /\
  (s' = s \/ s' = set_no_new_privs s \/ s' = set_mode POLY_SECCOMP_MODE_STRICT s \/
   exists p, s' = push_filter p s /\ wf_program p /\ poly_seccomp_validate_program p = true /\
     (length (sc_filters s) < POLY_SECCOMP_MAX_FILTERS)%nat).
Proof.
  intros Hm. unfold poly_seccomp_dispatch_control, poly_seccomp_dispatch_guest_bpf.
  assert (forall a, poly_seccomp_install_filter probe m a s = (s', r) ->
    s' = s \/ exists p, s' = push_filter p s /\ wf_program p /\
      poly_seccomp_validate_program p = true /\
      (length (sc_filters s) < POLY_SECCOMP_MAX_FILTERS)%nat) as Hinst.
  { intros a Ha. destruct (install_filter_cases probe m a s Hm) as [(e & _ & He)|(p & Hp & ?)].
    - left. congruence.
    - right. exists p. split; [congruence|done]. }
  destruct (Z.eqb_spec x SYS_bpf); [intros; simplify_eq; auto|].
  destruct (Z.eqb_spec x SYS_prctl).
  - unfold dispatch_prctl. destruct_ifs; intros Heq; simplify_eq; (split; [tauto|]); try tauto.
    destruct (Hinst _ Heq) as [?|?]; tauto.
  - destruct (Z.eqb_spec x SYS_seccomp); [|done].
    unfold dispatch_seccomp. destruct_ifs; intros Heq; simplify_eq; (split; [tauto|]); try tauto;
      destruct (Hinst _ Heq) as [?|?]; tauto.
Qed.

Lemma seccomp_inv_ext (s s' : seccomp_state) :
  sc_mode s' = sc_mode s -> sc_filters s' = sc_filters s ->
  sc_no_new_privs s' = sc_no_new_privs s -> seccomp_inv s -> seccomp_inv s' /\ grows s s'.
Proof.
  intros E1 E2 E3 [H1 H2 H3 H4 H5]. split; constructor; rewrite ?E1, ?E2, ?E3; try done.
  exists []. by rewrite app_nil_r.
Qed.

(** One control call, outside strict mode. *)
Lemma control_step (s s' : seccomp_state) :
  seccomp_inv s -> sc_mode s <> POLY_SECCOMP_MODE_STRICT ->
  (s' = s \/ s' = set_no_new_privs s \/ s' = set_mode POLY_SECCOMP_MODE_STRICT s \/
   exists p, s' = push_filter p s /\ wf_program p /\ poly_seccomp_validate_program p = true /\
     (length (sc_filters s) < POLY_SECCOMP_MAX_FILTERS)%nat) ->
  seccomp_inv s' /\ grows s s'.
Proof.
  intros [H1 H2 H3 H4 H5] Hm [-> | [-> | [-> | (p & -> & Hw & Hv & Hl)]]].
  - split; [by constructor|reflexivity].
  - split; constructor; simpl; try done; try (by right).
    exists []. by rewrite app_nil_r.
  - split; constructor; simpl; try done; try (by right; left).
    exists []. by rewrite app_nil_r.
  - split; constructor; simpl; try done; try (by right; right).
    + apply Forall_app. split; [done|]. by apply Forall_singleton.
    + rewrite length_app. simpl. lia.
    + by exists [p].
Qed.

Lemma guest_event_step (hdr : Z -> bool) (s s' : seccomp_state) :
  guest_event hdr s s' -> seccomp_inv s -> seccomp_inv s' /\ grows s s'.
Proof.
  intros Hev Hs. destruct Hev as [pk s s' r Hp | pk s s' Hp | probe m pk s s1 x s' r Hm Hp Hx Hc];
    pose proof (preflight_state pk s) as Hst; cbv zeta in Hst; rewrite Hp in Hst;
    destruct Hst as (E1 & E2 & E3); [by apply seccomp_inv_ext..|].
  simpl in E1, E2, E3. destruct (seccomp_inv_ext s s1 E1 E2 E3 Hs) as [Hs1 Hg1].
  destruct (control_cases probe m pk x s1 s' r Hm Hc) as [Hnum Hcases].
  assert (sc_mode s1 <> POLY_SECCOMP_MODE_STRICT) as Hns.
  { rewrite E1. intros Hstrict.
    destruct (proj1 (preflight_passes pk s Hs)) as [Hallow _]; [by rewrite Hp|].
    destruct (strict_not_control hdr pk x (Hallow Hstrict) Hx) as (? & ? & ?). tauto. }
  destruct (control_step s1 s' Hs1 Hns Hcases) as [Hs' Hg']. split; [done|by etransitivity].
Qed.

Lemma guest_events_steps (hdr : Z -> bool) (s s' : seccomp_state) :
  rtc (guest_event hdr) s s' -> seccomp_inv s -> seccomp_inv s' /\ grows s s'.
Proof.
  induction 1 as [s|s1 s2 s3 Hstep _ IH]; intros Hs; [split; [done|reflexivity]|].
  destruct (guest_event_step hdr s1 s2 Hstep Hs) as [Hs2 Hg2].
  destruct (IH Hs2) as [Hs3 Hg3]. split; [done|by etransitivity].
Qed.

Lemma initial_inv : seccomp_inv initial_seccomp.
Proof. constructor; simpl; try done; try (by left). lia. Qed.

(** ** Properties *)

(** C36: the decision of the system call check. In every state the guest can
    bring the policy to, a call proceeds exactly when strict mode (if on) lists
    it and every installed filter, evaluated on the call's number,
    architecture, program counter and arguments, returns ALLOW or LOG; a denied
    call gets the errno that the highest-ranking filter result asks for, or
    EPERM. *)
Theorem seccomp_check_decision (hdr : Z -> bool) (s : seccomp_state)
    (pk : poly_runtime_event_record) :
  reachable hdr s ->
  ((poly_seccomp_preflight_syscall (Some pk) s).2 = None <->
   (sc_mode s = POLY_SECCOMP_MODE_STRICT -> poly_seccomp_strict_allows pk = true) /\
   Forall (fun p => permits (filter_action (seccomp_data_of pk) p)) (sc_filters s)) /\
  (forall r, (poly_seccomp_preflight_syscall (Some pk) s).2 = Some r ->
   exists e, r = neg_errno e /\
     (e = EPERM \/
      exists p, In p (sc_filters s) /\
        Forall (fun q => poly_seccomp_action_rank (filter_action (seccomp_data_of pk) q) <=
                         poly_seccomp_action_rank (filter_action (seccomp_data_of pk) p))
          (sc_filters s) /\
        Z.land (filter_action (seccomp_data_of pk) p) POLY_SECCOMP_RET_ACTION_FULL =
          POLY_SECCOMP_RET_ERRNO /\
        e = Z.land (filter_action (seccomp_data_of pk) p) POLY_SECCOMP_RET_DATA /\ e <> 0)).
Proof.
  intros Hr. destruct (guest_events_steps hdr _ _ Hr initial_inv) as [Hs _].
  split; [by apply preflight_passes|]. intros r.
  destruct (select_action_max (seccomp_data_of pk) (sc_filters s)) as [Hmax Hsel].
  unfold ranks in Hmax. rewrite Forall_fmap in Hmax.
  unfold poly_seccomp_preflight_syscall. set (sel := select_action _ _) in *.
  destruct_ifs; simpl; intros Heq; simplify_eq; try (exists EPERM; by auto).
  breflect. exists (Z.land sel POLY_SECCOMP_RET_DATA). split; [done|]. right.
  destruct Hsel as [Ha|(p & Hp & Hsp)]; [by rewrite Ha in Heqb3|].
  exists p. rewrite <- Hsp. split_and!; try done.
Qed.


(** In every reachable state the installed filters are at most 16 and all
    of them passed validation, the mode is one of the three, and the disabled
    mode has no filters. *)
Theorem seccomp_state_invariant (hdr : Z -> bool) (s : seccomp_state) :
  reachable hdr s -> seccomp_inv s.
Proof. intros Hr. apply (guest_events_steps hdr _ _ Hr initial_inv). Qed.

(** ** A concrete run *)

Definition insn_bytes (i : poly_bpf_insn) : list Z :=
  le_bytes 2 (bi_code i) ++ le_bytes 1 (bi_jt i) ++ le_bytes 1 (bi_jf i) ++ le_bytes 4 (bi_k i).

(** A guest memory with a [sock_fprog] at 4096 and its filter after it. *)
Definition fprog_memory : memory :=
  string_memory 4096 (le_bytes 8 4 ++ le_bytes 8 4112 ++ mjoin (insn_bytes <$> deny_write)).

Lemma fprog_memory_bytes (a : Z) : in_width 8 (fprog_memory a).
Proof.
  unfold fprog_memory, string_memory. destruct (4096 <=? a); [|by apply in_width_0].
  set (bs := _ ++ _). assert (Forall (in_width 8) bs) as Hbs.
  { assert (forallb (fun b => (0 <=? b) && (b <? 256)) bs = true) as H
      by (vm_compute; reflexivity).
    rewrite List.forallb_forall in H. apply List.Forall_forall. intros b Hb.
    specialize (H b Hb). breflect. unfold in_width. lia. }
  destruct (bs !! Z.to_nat (a - 4096)) as [b|] eqn:E; simpl; [|by apply in_width_0].
  by eapply (Forall_lookup_1 _ _ _ _ Hbs E).
Qed.

(** seccomp(SECCOMP_SET_MODE_FILTER, 0, 4096) and write(1, 0, 0). *)
Definition install_packet : poly_runtime_event_record :=
  MkPacket 1 POLY_MODE_RAW_AARCH64 277 0 65536 65540 0 [0; 0] [1; 0; 4096; 0; 0; 0; 0; 0].
Definition write_packet : poly_runtime_event_record :=
  MkPacket 1 POLY_MODE_RAW_AARCH64 64 0 65536 65540 0 [0; 0] [1; 0; 0; 0; 0; 0; 0; 0].

Definition filtered_state : seccomp_state :=
  default initial_seccomp (fst <$> poly_seccomp_dispatch_control open_probe fprog_memory
    (Some install_packet) SYS_seccomp initial_seccomp).

Lemma install_event (hdr : Z -> bool) : guest_event hdr initial_seccomp filtered_state.
Proof.
  apply (ev_control hdr open_probe fprog_memory install_packet initial_seccomp initial_seccomp
    SYS_seccomp filtered_state 0).
  - apply fprog_memory_bytes.
  - reflexivity.
  - apply generic_case. unfold syscall_cases. simpl. tauto.
  - vm_compute. reflexivity.
Qed.

Lemma seccomp_check_decision_witness :
  ((poly_seccomp_preflight_syscall (Some write_packet) filtered_state).2 = None <->
   (sc_mode filtered_state = POLY_SECCOMP_MODE_STRICT ->
    poly_seccomp_strict_allows write_packet = true) /\
   Forall (fun p => permits (filter_action (seccomp_data_of write_packet) p))
     (sc_filters filtered_state)) /\
  (poly_seccomp_preflight_syscall (Some write_packet) filtered_state).2 = Some (neg_errno EPERM).
Proof.
  split; [|vm_compute; reflexivity].
  apply (seccomp_check_decision (fun _ => true) filtered_state write_packet).
  apply rtc_once, install_event.
Defined.


Lemma seccomp_state_invariant_witness : seccomp_inv filtered_state.
Proof.
  apply (seccomp_state_invariant (fun _ => true) filtered_state).
  apply rtc_once, install_event.
Defined.
