(* ===== verification/LoaderBase.v ===== *)
(** The base of the program loader in [tools/runtime/polyexec.c]: checked
    access to a byte image, little-endian reads and writes, C strings,
    alignment, the reservation of thread-local storage and the recording of
    load segments.

    Reading outside an object is undefined in C.  Here it is the outcome
    [Fault], different from the error return [Err], so that "no access is out
    of bounds" can be stated and proved. *)

From S2P Require Import Prelude.

(** ** Outcomes *)

(** [Err] is the return value -1, [Fault] an access outside the object, and
    [Spin] means that the fuel of a loop ran out. *)
Inductive outcome (A : Type) : Type :=
  | Ok (a : A)
  | Err
  | Fault
  | Spin.
Arguments Ok {A} _.
Arguments Err {A}.
Arguments Fault {A}.
Arguments Spin {A}.

#[export] Instance outcome_ret : MRet outcome := fun A a => Ok a.
#[export] Instance outcome_bind : MBind outcome := fun A B f m =>
  match m with
  | Ok a => f a
  | Err => Err
  | Fault => Fault
  | Spin => Spin
  end.

(** The call returned: no access out of bounds and no endless loop. *)
Definition returns {A} (m : outcome A) : Prop := m <> Fault /\ m <> Spin.

Definition guard_ok (b : bool) : outcome unit := if b then Ok tt else Err.

Lemma bind_ok {A B} (m : outcome A) (f : A -> outcome B) (b : B) :
  (m ≫= f) = Ok b <-> exists a, m = Ok a /\ f a = Ok b.
Proof.
  destruct m as [a| | |]; cbn; split; try done.
  - intros H. by exists a.
  - by intros (a' & [= <-] & H).
  - by intros (? & ? & _).
  - by intros (? & ? & _).
  - by intros (? & ? & _).
Qed.

Lemma bind_returns {A B} (m : outcome A) (f : A -> outcome B) :
  returns m -> (forall a, m = Ok a -> returns (f a)) -> returns (m ≫= f).
Proof. intros [H1 H2] Hf. destruct m as [a| | |]; cbn; try done. by apply Hf. Qed.

Lemma returns_ok {A} (a : A) : returns (Ok a).
Proof. by split. Qed.
Lemma returns_err {A} : returns (@Err A).
Proof. by split. Qed.
Lemma returns_guard (b : bool) : returns (guard_ok b).
Proof. by destruct b; split. Qed.

#[export] Hint Resolve returns_ok returns_err returns_guard : poly.

(** ** Checked reads *)

Definition image : Type := list Z.

Definition wf_image (img : image) : Prop := Forall (in_width 8) img.

Definition size_of (img : image) : Z := Z.of_nat (length img).

Definition read_bytes (img : image) (off : Z) (n : nat) : outcome (list Z) :=
  if (0 <=? off) && (off + Z.of_nat n <=? size_of img)
  then Ok (take n (drop (Z.to_nat off) img)) else Fault.

(** [value |= (uintN_t) bytes[n] << (n * 8)] for [n] from 0 on. *)
Fixpoint or_bytes (n : Z) (value : Z) (bytes : list Z) : Z :=
  match bytes with
  | [] => value
  | b :: bytes' => or_bytes (n + 1) (Z.lor value (Z.shiftl b (n * 8))) bytes'
  end.

Definition read_u64_le (img : image) (off : Z) : outcome Z :=
  bs ← read_bytes img off 8; Ok (or_bytes 0 0 bs).
Definition read_u32_le (img : image) (off : Z) : outcome Z :=
  bs ← read_bytes img off 4; Ok (or_bytes 0 0 bs).
Definition read_u16_le (img : image) (off : Z) : outcome Z :=
  bs ← read_bytes img off 2; Ok (or_bytes 0 0 bs).
Definition read_u8 (img : image) (off : Z) : outcome Z :=
  bs ← read_bytes img off 1; Ok (or_bytes 0 0 bs).

(** [bytes[n] = (uint8_t) ((value >> (n * 8)) & 0xff)] *)
Definition write_u64_le (value : Z) : list Z :=
  (fun n => u8 (Z.land (Z.shiftr value (Z.of_nat n * 8)) 0xff)) <$> seq 0 8.

(** ** Strings *)

(** The bytes before the first NUL. *)
Fixpoint c_str (bs : list Z) : list Z :=
  match bs with
  | [] => []
  | b :: bs' => if b =? 0 then [] else b :: c_str bs'
  end.

Definition NUL : Z := 0.

(** [strcmp(image + off, s) == 0], byte by byte: it stops at the first
    difference, so it may stop before the end of the image's string. *)
Fixpoint strcmp_at (img : image) (off : Z) (s : list Z) : outcome bool :=
  b ← read_u8 img off;
  match s with
  | [] => Ok (b =? NUL)
  | c :: s' => if negb (b =? c) then Ok false else strcmp_at img (off + 1) s'
  end.

(** ** Alignment *)

Definition align_down_u64 (value alignment : Z) : Z :=
  Z.land value (u64 (Z.lnot (u64 (alignment - 1)))).

Definition align_up_u64 (value alignment : Z) : Z :=
  Z.land (u64 (value + alignment - 1)) (u64 (Z.lnot (u64 (alignment - 1)))).

(** [None]: -1. *)
Definition align_up_size (value alignment : Z) : option Z :=
  if alignment <=? 1 then Some value
  else if negb (Z.land alignment (alignment - 1) =? 0) || (value >? SIZE_MAX - (alignment - 1))
  then None
  else Some (Z.land (u64 (value + alignment - 1)) (u64 (Z.lnot (alignment - 1)))).

(** ** Thread-local storage *)

Definition MAX_PROCESS_TLS_BYTES : Z := 64 * 1024.

(** The new total and the offset of the range; [None]: -1. *)
Definition reserve_process_tls_range (total_size memsz alignment : Z) : option (Z * Z) :=
  if memsz =? 0 then Some (total_size, 0)
  else if (memsz >? MAX_PROCESS_TLS_BYTES) || (alignment >? MAX_PROCESS_TLS_BYTES) then None
  else
    let tls_alignment := if alignment =? 0 then 1 else alignment in
    match align_up_size total_size tls_alignment with
    | None => None
    | Some aligned =>
        if (aligned >? MAX_PROCESS_TLS_BYTES) || (memsz >? MAX_PROCESS_TLS_BYTES - aligned)
        then None else Some (aligned + memsz, aligned)
    end.

(** The blocks of a process, one reservation per image that has any. *)
Fixpoint reserve_all (total : Z) (blocks : list (Z * Z)) : option (Z * list (Z * Z)) :=
  match blocks with
  | [] => Some (total, [])
  | (memsz, alignment) :: blocks' =>
      match reserve_process_tls_range total memsz alignment with
      | None => None
      | Some (total', offset) =>
          match reserve_all total' blocks' with
          | None => None
          | Some (total'', ranges) => Some (total'', (offset, memsz) :: ranges)
          end
      end
  end.

(** ** Load segments *)

Definition MAX_LOAD_SEGMENTS : nat := 16.

Record poly_load_segment : Type := MkSegment {
  seg_vaddr : Z;
  seg_offset : Z;
  seg_filesz : Z;
  seg_memsz : Z;
  seg_flags : Z;
}.

(** The recorded prefix of [program->load_segments]; the [Elf64_Phdr] fields
    in the order vaddr, offset, filesz, memsz, flags. *)
Definition record_load_segment (phdr : poly_load_segment) : cmd (list poly_load_segment) :=
  fun segs =>
  if (MAX_LOAD_SEGMENTS <=? length segs)%nat then (segs, -1) else (segs ++ [phdr], 0).

(** ** Reads *)

Lemma read_bytes_ok (img : image) (off : Z) (n : nat) :
  0 <= off -> off + Z.of_nat n <= size_of img ->
  read_bytes img off n = Ok (take n (drop (Z.to_nat off) img)).
Proof.
  intros H1 H2. unfold read_bytes.
  by rewrite (proj2 (Z.leb_le _ _) H1), (proj2 (Z.leb_le _ _) H2).
Qed.

Lemma read_bytes_length (img : image) (off : Z) (n : nat) (bs : list Z) :
  read_bytes img off n = Ok bs -> length bs = n /\ 0 <= off /\ off + Z.of_nat n <= size_of img.
Proof.
  unfold read_bytes. destruct (_ && _) eqn:E; [|done]. intros [= <-]. breflect.
  split; [|done]. rewrite length_take, length_drop. unfold size_of in *. lia.
Qed.

(** For bytes, the shifted disjunction is the little-endian value. *)
Lemma or_bytes_value (bs : list Z) : Forall (in_width 8) bs ->
  forall n v, 0 <= n -> in_width (n * 8) v -> or_bytes n v bs = v + 2 ^ (n * 8) * le_value bs.
Proof.
  induction 1 as [|b bs Hb _ IH]; intros n v Hn Hv; cbn [or_bytes le_value]; [rewrite Z.mul_0_r; lia|].
  assert (Z.lor v (Z.shiftl b (n * 8)) = v + 2 ^ (n * 8) * b) as Hl.
  { rewrite Z.shiftl_mul_pow2 by lia. rewrite <- Z.add_nocarry_lor; [lia|].
    apply Z.bits_inj'. intros k Hk. rewrite Z.land_spec, Z.bits_0.
    destruct (Z.lt_ge_cases k (n * 8)) as [Hlt|Hge].
    - rewrite (Z.mul_pow2_bits_low b) by lia. apply andb_false_r.
    - rewrite <- (wrap_small (n * 8) v Hv). unfold wrap.
      rewrite Z.mod_pow2_bits_high by lia. done. }
  unfold in_width in Hb. change (2 ^ 8) with 256 in Hb.
  assert (2 ^ ((n + 1) * 8) = 2 ^ (n * 8) * 256) as Hp.
  { replace ((n + 1) * 8) with (n * 8 + 8) by lia. by rewrite Z.pow_add_r by lia. }
  rewrite Hl, IH; [|lia|].
  - rewrite Hp. lia.
  - unfold in_width in *. rewrite Hp.
    assert (0 < 2 ^ (n * 8)) by (apply Z.pow_pos_nonneg; lia). nia.
Qed.

Lemma or_bytes_le (bs : list Z) : Forall (in_width 8) bs -> or_bytes 0 0 bs = le_value bs.
Proof. intros H. rewrite or_bytes_value; [simpl; lia|done|lia|]. unfold in_width. simpl. lia. Qed.

Lemma read_bytes_wf (img : image) (off : Z) (n : nat) (bs : list Z) :
  wf_image img -> read_bytes img off n = Ok bs -> Forall (in_width 8) bs.
Proof.
  intros Hi. unfold read_bytes. destruct (_ && _); [|done]. intros [= <-].
  apply Forall_take, Forall_drop, Hi.
Qed.

(** Every fixed-width read returns when it is inside, with a value of its
    width. *)
Lemma read_width (img : image) (off : Z) (n : nat) :
  wf_image img -> 0 <= off -> off + Z.of_nat n <= size_of img ->
  exists bs, read_bytes img off n = Ok bs /\ in_width (8 * Z.of_nat n) (or_bytes 0 0 bs).
Proof.
  intros Hi H1 H2. pose proof (read_bytes_ok img off n H1 H2) as Hr.
  eexists. split; [exact Hr|]. pose proof (read_bytes_wf _ _ _ _ Hi Hr) as Hw.
  rewrite or_bytes_le by done. pose proof (le_value_range _ Hw) as Hv.
  apply read_bytes_length in Hr as [Hl _]. by rewrite Hl in Hv.
Qed.

Lemma read_u64_inside (img : image) (off : Z) :
  wf_image img -> 0 <= off -> off + 8 <= size_of img ->
  exists v, read_u64_le img off = Ok v /\ in_width 64 v.
Proof.
  intros Hi H1 H2. destruct (read_width img off 8 Hi H1 H2) as (bs & Hr & Hw).
  exists (or_bytes 0 0 bs). split; [|done]. unfold read_u64_le. by rewrite Hr.
Qed.

Lemma read_u32_inside (img : image) (off : Z) :
  wf_image img -> 0 <= off -> off + 4 <= size_of img ->
  exists v, read_u32_le img off = Ok v /\ in_width 32 v.
Proof.
  intros Hi H1 H2. destruct (read_width img off 4 Hi H1 H2) as (bs & Hr & Hw).
  exists (or_bytes 0 0 bs). split; [|done]. unfold read_u32_le. by rewrite Hr.
Qed.

Lemma read_u16_inside (img : image) (off : Z) :
  wf_image img -> 0 <= off -> off + 2 <= size_of img ->
  exists v, read_u16_le img off = Ok v /\ in_width 16 v.
Proof.
  intros Hi H1 H2. destruct (read_width img off 2 Hi H1 H2) as (bs & Hr & Hw).
  exists (or_bytes 0 0 bs). split; [|done]. unfold read_u16_le. by rewrite Hr.
Qed.

Lemma read_u8_inside (img : image) (off : Z) :
  wf_image img -> 0 <= off -> off + 1 <= size_of img ->
  exists v, read_u8 img off = Ok v /\ in_width 8 v.
Proof.
  intros Hi H1 H2. destruct (read_width img off 1 Hi H1 H2) as (bs & Hr & Hw).
  exists (or_bytes 0 0 bs). split; [|done]. unfold read_u8. by rewrite Hr.
Qed.

(** ** Alignment *)

(** [x & (x - 1) == 0] holds only for powers of two. *)
Lemma land_pred_pow2 (x : Z) :
  1 < x -> Z.land x (x - 1) = 0 -> x = 2 ^ Z.log2 x.
Proof.
  intros Hx Hland. pose proof (Z.log2_spec x ltac:(lia)) as [Hlo Hhi].
  destruct (Z.eq_dec x (2 ^ Z.log2 x)) as [|Hne]; [done|exfalso].
  assert (Z.testbit (Z.land x (x - 1)) (Z.log2 x) = true) as Hb; [|by rewrite Hland, Z.bits_0 in Hb].
  rewrite Z.land_spec, Z.bit_log2 by lia. simpl.
  rewrite <- (Z.log2_unique (x - 1) (Z.log2 x)); [apply Z.bit_log2; lia|apply Z.log2_nonneg|lia].
Qed.

(** Masking in 64 bits is rounding down. *)
Lemma land_mask_u64 (x k : Z) :
  0 <= k < 64 -> in_width 64 x ->
  Z.land x (u64 (Z.lnot (2 ^ k - 1))) = x / 2 ^ k * 2 ^ k.
Proof.
  intros Hk Hx. rewrite <- land_lnot_ones by lia. unfold wrap.
  rewrite <- (Z.land_ones _ 64), Z.land_assoc, (Z.land_comm _ (Z.ones 64)), Z.land_assoc by lia.
  rewrite (Z.land_comm (Z.ones 64)), Z.land_ones by lia.
  by rewrite (Z.mod_small x) by apply Hx.
Qed.

(** [align_up_size] gives the least multiple that is not below the value. *)
Lemma align_up_size_spec (value alignment r : Z) :
  in_width 64 value -> in_width 64 alignment ->
  align_up_size value alignment = Some r ->
  value <= r /\ (1 < alignment -> r < value + alignment /\ r mod alignment = 0) /\ r < 2 ^ 64.
Proof.
  intros Hv Ha. unfold align_up_size.
  destruct (Z.leb_spec alignment 1) as [Hle|Hgt]; [intros [= <-]; unfold in_width in Hv; lia|].
  destruct (_ || _) eqn:E; [done|]. intros [= <-]. breflect.
  pose proof (land_pred_pow2 alignment Hgt ltac:(done)) as Hp.
  set (k := Z.log2 alignment) in *.
  assert (0 <= k < 64) as Hk.
  { split; [apply Z.log2_nonneg|]. apply Z.log2_lt_pow2; [lia|apply Ha]. }
  unfold in_width, SIZE_MAX in *.
  rewrite (wrap_small 64 (value + _ - 1)) by (unfold in_width; lia).
  rewrite Hp, land_mask_u64 by (unfold in_width; lia).
  destruct (round_up_pow2 value k ltac:(lia)) as [Hr Hm]. rewrite <- Hp in *.
  assert ((value + alignment - 1) / alignment * alignment <= value + alignment - 1).
  { rewrite Z.mul_comm. apply Z.mul_div_le. lia. }
  split; [lia|]. split; [|lia]. intros _. split; [lia|done].
Qed.

(** ** Thread-local storage *)

(** Two reserved ranges share no byte; an empty one shares none with any. *)
Definition ranges_apart (x y : Z * Z) : Prop :=
  x.2 = 0 \/ y.2 = 0 \/ x.1 + x.2 <= y.1 \/ y.1 + y.2 <= x.1.

Lemma reserve_spec (total memsz alignment total' offset : Z) :
  0 <= total <= MAX_PROCESS_TLS_BYTES -> 0 <= memsz -> 0 <= alignment ->
  reserve_process_tls_range total memsz alignment = Some (total', offset) ->
  total <= total' <= MAX_PROCESS_TLS_BYTES /\ 0 <= offset /\ offset + memsz <= total' /\
  (memsz <> 0 -> total <= offset /\ (0 < alignment -> offset mod alignment = 0)).
Proof.
  unfold MAX_PROCESS_TLS_BYTES. intros Ht Hm Ha. unfold reserve_process_tls_range.
  destruct (Z.eqb_spec memsz 0) as [->|Hne].
  { intros [= <- <-]. lia. }
  destruct (_ || _) eqn:E1; [done|]. breflect. unfold MAX_PROCESS_TLS_BYTES in *.
  destruct (align_up_size _ _) as [aligned|] eqn:Eal; [|done].
  destruct (_ || _) eqn:E2; [done|]. intros [= <- <-]. breflect.
  apply align_up_size_spec in Eal as (Hle & Hmod & _);
    [|unfold in_width; lia|unfold in_width; destruct (alignment =? 0); lia].
  split; [lia|]. split; [lia|]. split; [lia|]. intros _. split; [lia|]. intros Hpos.
  destruct (Z.eqb_spec alignment 0); [lia|].
  destruct (Z.eq_dec alignment 1) as [->|]; [apply Z.mod_1_r|]. apply Hmod. lia.
Qed.

(** The first multiple of [a] from [v] on. *)
Lemma least_multiple (v a r o : Z) :
  0 < a -> r < v + a -> r mod a = 0 -> v <= o -> o mod a = 0 -> r <= o.
Proof.
  intros Ha Hr Hm Ho Hom. apply Z.div_exact in Hm; [|lia]. apply Z.div_exact in Hom; [|lia].
  destruct (Z.le_gt_cases r o); [done|]. set (x := r / a) in *. set (y := o / a) in *.
  assert (y < x) by nia. nia.
Qed.

(** A block that can be reserved: nothing stands against its size and
    alignment, and there is an aligned offset behind the blocks before it. *)
Definition tls_block_fits (total memsz alignment : Z) : Prop :=
  memsz = 0 \/
  (alignment <= MAX_PROCESS_TLS_BYTES /\ (1 < alignment -> Z.land alignment (alignment - 1) = 0) /\
   exists offset, total <= offset /\ (0 < alignment -> offset mod alignment = 0) /\
     offset + memsz <= MAX_PROCESS_TLS_BYTES).

Lemma reserve_succeeds (total memsz alignment : Z) :
  0 <= total <= MAX_PROCESS_TLS_BYTES -> 0 <= memsz -> 0 <= alignment ->
  is_Some (reserve_process_tls_range total memsz alignment) <-> tls_block_fits total memsz alignment.
Proof.
  intros Ht Hm Ha. split.
  - intros [[total' offset] Hr]. pose proof (reserve_spec _ _ _ _ _ Ht Hm Ha Hr) as (H1 & H2 & H3 & H4).
    destruct (Z.eq_dec memsz 0); [by left|]. right. destruct (H4 ltac:(done)) as [H5 H6].
    revert Hr. unfold reserve_process_tls_range, align_up_size.
    destruct (Z.eqb_spec memsz 0); [done|]. destruct (_ || _) eqn:E1; [done|]. breflect. intros Hr.
    split; [lia|]. split; [|exists offset; split_and!; [done..|lia]].
    intros Hgt. destruct (Z.eqb_spec alignment 0); [lia|]. destruct (Z.leb_spec alignment 1); [lia|].
    destruct (_ || _) eqn:E2 in Hr; [done|]. by breflect.
  - intros [->|(Hal & Hp & o & Ho & Hom & Hend)]; [by eexists|]. unfold reserve_process_tls_range.
    destruct (Z.eqb_spec memsz 0); [by eexists|]. unfold MAX_PROCESS_TLS_BYTES in *.
    replace ((memsz >? _) || (alignment >? _)) with false by lia.
    destruct (align_up_size _ _) as [r|] eqn:Er.
    + assert (r <= o).
      { destruct (Z.leb_spec alignment 1).
        - assert (Some total = Some r) as [= <-]; [|done]. rewrite <- Er. unfold align_up_size.
          by destruct (Z.eqb_spec alignment 0); [|replace (alignment <=? 1) with true by lia].
        - destruct (Z.eqb_spec alignment 0); [lia|].
          apply align_up_size_spec in Er as (Hle & Hr & _); [|unfold in_width; lia..].
          destruct (Hr ltac:(lia)). apply (least_multiple total alignment); try lia. }
      replace ((r >? _) || (memsz >? _)) with false by lia. by eexists.
    + exfalso. unfold align_up_size, SIZE_MAX in Er. destruct (Z.eqb_spec alignment 0); [done|].
      destruct (Z.leb_spec alignment 1); [done|]. rewrite (Hp ltac:(lia)) in Er.
      replace (total >? _) with false in Er by lia. done.
Qed.

Lemma reserve_all_spec (blocks : list (Z * Z)) : forall total total' ranges,
  0 <= total <= MAX_PROCESS_TLS_BYTES -> Forall (fun b => 0 <= b.1 /\ 0 <= b.2) blocks ->
  reserve_all total blocks = Some (total', ranges) ->
  total <= total' <= MAX_PROCESS_TLS_BYTES /\
  Forall (fun r => 0 <= r.1 /\ 0 <= r.2 /\ (r.2 <> 0 -> total <= r.1 /\ r.1 + r.2 <= total')) ranges /\
  ForallOrdPairs ranges_apart ranges /\
  Forall2 (fun b r => r.2 = b.1 /\ (b.1 <> 0 -> 0 < b.2 -> r.1 mod b.2 = 0)) blocks ranges.
Proof.
  induction blocks as [|[memsz alignment] blocks IH]; intros total total' ranges Ht Hb; simpl.
  { intros [= <- <-]. split_and!; [lia|lia|constructor..]. }
  apply Forall_cons_1 in Hb as [[Hm Ha] Hb]. simpl in Hm, Ha.
  destruct (reserve_process_tls_range total memsz alignment) as [[t1 o1]|] eqn:Er; [|done].
  destruct (reserve_all t1 blocks) as [[t2 rs]|] eqn:Ea; [|done]. intros [= <- <-].
  destruct (reserve_spec _ _ _ _ _ Ht Hm Ha Er) as (Ht1 & Ho & Hend & Hne).
  destruct (IH t1 t2 rs ltac:(lia) Hb Ea) as (Ht2 & Hin & Hap & Hal).
  split_and!; [lia|lia|..].
  - constructor.
    + simpl. lia.
    + eapply Forall_impl; [exact Hin|]. simpl. intros r (H1 & H2 & H3). split_and!; try lia.
  - constructor; [|done]. eapply Forall_impl; [exact Hin|]. intros r (H1 & H2 & H3).
    unfold ranges_apart. simpl.
    destruct (Z.eq_dec r.2 0); [auto|]. destruct (H3 ltac:(done)). lia.
  - constructor; [|done]. simpl. split; [done|]. intros Hz. by apply Hne.
Qed.

(** ** Properties *)

(** The thread-local storage blocks of a process never overlap: however
    many blocks are reserved, with whatever sizes and alignments, when the
    reservations succeed each block has its size and its alignment, no two
    blocks share a byte, and all of them lie within the total, which never
    exceeds 64 KiB; and the next reservation fails only when the block cannot be
    placed: its alignment is not a power of two or above the limit, or no
    aligned offset behind the other blocks leaves room for it. *)
Theorem tls_ranges_disjoint (blocks : list (Z * Z)) (total : Z) (ranges : list (Z * Z)) :
  Forall (fun b => 0 <= b.1 /\ 0 <= b.2) blocks ->
  reserve_all 0 blocks = Some (total, ranges) ->
  total <= MAX_PROCESS_TLS_BYTES /\
  ForallOrdPairs ranges_apart ranges /\
  Forall (fun r => r.2 <> 0 -> 0 <= r.1 /\ r.1 + r.2 <= total) ranges /\
  Forall2 (fun b r => r.2 = b.1 /\ (b.1 <> 0 -> 0 < b.2 -> r.1 mod b.2 = 0)) blocks ranges /\
  (forall memsz alignment, 0 <= memsz -> 0 <= alignment ->
     is_Some (reserve_process_tls_range total memsz alignment) <-> tls_block_fits total memsz alignment).
Proof.
  intros Hb Hr. assert (0 <= 0 <= MAX_PROCESS_TLS_BYTES) as H0 by (unfold MAX_PROCESS_TLS_BYTES; lia).
  destruct (reserve_all_spec blocks 0 total ranges H0 Hb Hr) as (Ht & Hin & Hap & Hal).
  split_and!; [lia|done| |done|intros; apply reserve_succeeds; lia].
  eapply Forall_impl; [exact Hin|]. simpl. intros r (H1 & H2 & H3). lia.
Qed.

Lemma write_u64_bytes (v : Z) : write_u64_le v = le_bytes 8 v.
Proof.
  unfold write_u64_le. simpl. rewrite !Z.shiftr_div_pow2 by lia.
  assert (forall z, u8 (Z.land z 255) = z mod 256) as Hu.
  { intros z. change 255 with (Z.ones 8). rewrite Z.land_ones by lia. by apply wrap_wrap. }
  rewrite !Hu, !Z.div_div by lia. rewrite Z.pow_0_r, Z.div_1_r. repeat f_equal.
Qed.

(** A 64-bit value written with [write_u64_le] anywhere into an image is
    read back by [read_u64_le] from there. *)
Theorem u64_write_read (before after : image) (v : Z) :
  in_width 64 v ->
  read_u64_le (before ++ write_u64_le v ++ after) (size_of before) = Ok v.
Proof.
  intros Hv. rewrite write_u64_bytes. unfold read_u64_le. rewrite read_bytes_ok.
  - unfold size_of. rewrite Nat2Z.id, drop_app_length. cbn [mbind outcome_bind].
    rewrite <- (le_bytes_length 8 v) at 1. rewrite take_app_length.
    rewrite or_bytes_le, le_value_bytes by apply le_bytes_range. f_equal. by apply wrap_small.
  - unfold size_of. lia.
  - unfold size_of. rewrite !length_app, le_bytes_length. lia.
Qed.

Lemma tls_ranges_disjoint_witness :
  reserve_all 0 [(100, 16); (0, 8); (24, 64); (7, 0)] =
    Some (159, [(0, 100); (0, 0); (128, 24); (152, 7)]) /\
  ForallOrdPairs ranges_apart [(0, 100); (0, 0); (128, 24); (152, 7)].
Proof.
  split; [vm_compute; reflexivity|].
  apply (tls_ranges_disjoint [(100, 16); (0, 8); (24, 64); (7, 0)] 159).
  - repeat constructor; simpl; lia.
  - vm_compute. reflexivity.
Defined.

Lemma u64_write_read_witness :
  read_u64_le ([1; 2] ++ write_u64_le 0x1122334455667788 ++ [3]) 2 = Ok 0x1122334455667788.
Proof. apply (u64_write_read [1; 2] [3] 0x1122334455667788). unfold in_width. lia. Defined.
