(* ===== verification/BridgeSpec.v ===== *)
(** Bridge metadata of a program ([tools/runtime/polyexec.c]): the names of
    the bridge kinds, the text of the POLYABI notes ("symbol kind" lines), the
    ELF notes that carry it, the lookup of a symbol's bridge kind and the
    choice of its signature slot.

    Text is a list of bytes.  [program->bridge_specs] with its counter is a
    list of at most 16 entries. *)

From S2P Require Import Prelude AbiType AbiCursor AbiDescriptor LoaderBase.
From stdpp Require Import strings.
Open Scope string_scope.
Open Scope Z_scope.

Definition bytes_of_string (s : string) : list Z :=
  (fun c => Z.of_nat (Ascii.nat_of_ascii c)) <$> String.list_ascii_of_string s.

(** [strcmp(name, literal) == 0] for a NUL-terminated [name]. *)
Definition strcmp_eq (name : list Z) (literal : string) : bool :=
  bool_decide (c_str name = bytes_of_string literal).

(** ** Names *)

Definition process_bridge_kind_from_name (name : list Z) : Z :=
  if strcmp_eq name "default" then POLY_PROCESS_BRIDGE_DEFAULT
  else if strcmp_eq name "vec128_u32" then POLY_PROCESS_BRIDGE_VEC128_U32
  else if strcmp_eq name "compact_u32_f32" then POLY_PROCESS_BRIDGE_COMPACT_U32_F32
  else if strcmp_eq name "compact_f32_u32" then POLY_PROCESS_BRIDGE_COMPACT_F32_U32
  else if strcmp_eq name "u64_stack9" then POLY_PROCESS_BRIDGE_U64_STACK9
  else if strcmp_eq name "fp64" then POLY_PROCESS_BRIDGE_FP64
  else if strcmp_eq name "fp32" then POLY_PROCESS_BRIDGE_FP32
  else if strcmp_eq name "aarch64_hfa3_f32_ret" then POLY_PROCESS_BRIDGE_AARCH64_HFA3_F32_RET
  else if strcmp_eq name "aarch64_hfa4_f32_ret" then POLY_PROCESS_BRIDGE_AARCH64_HFA4_F32_RET
  else if strcmp_eq name "aarch64_hfa3_f64_ret" then POLY_PROCESS_BRIDGE_AARCH64_HFA3_F64_RET
  else if strcmp_eq name "aarch64_hfa4_f64_ret" then POLY_PROCESS_BRIDGE_AARCH64_HFA4_F64_RET
  else if strcmp_eq name "aarch64_hfa3_f64_arg" then POLY_PROCESS_BRIDGE_AARCH64_HFA3_F64_ARG
  else if strcmp_eq name "aarch64_hfa4_f64_arg" then POLY_PROCESS_BRIDGE_AARCH64_HFA4_F64_ARG
  else if strcmp_eq name "aarch64_hfa3_f32_arg" then POLY_PROCESS_BRIDGE_AARCH64_HFA3_F32_ARG
  else if strcmp_eq name "aarch64_hfa4_f32_arg" then POLY_PROCESS_BRIDGE_AARCH64_HFA4_F32_ARG
  else if strcmp_eq name "fpair32_arg" then POLY_PROCESS_BRIDGE_FPAIR32_ARG
  else if strcmp_eq name "fpair64_arg" then POLY_PROCESS_BRIDGE_FPAIR64_ARG
  else if strcmp_eq name "fpair32_ret" then POLY_PROCESS_BRIDGE_FPAIR32_RET
  else if strcmp_eq name "fpair64_ret" then POLY_PROCESS_BRIDGE_FPAIR64_RET
  else if strcmp_eq name "sret_x86_sysv" then POLY_PROCESS_BRIDGE_SRET_X86_SYSV
  else if strcmp_eq name "native_sret" then POLY_PROCESS_BRIDGE_NATIVE_SRET
  else -1.

Close Scope string_scope.

(** ** Specs *)

Definition MAX_PROCESS_BRIDGE_SPECS : nat := 16.
Definition SPEC_SYMBOL_SIZE : nat := 80.
Definition BRIDGE_NAME_SIZE : nat := 40.

Record poly_process_bridge_spec : Type := MkSpec {
  spec_symbol : list Z;
  spec_bridge_kind : Z;
}.

Definition append_process_bridge_spec (symbol bridge : list Z)
    : cmd (list poly_process_bridge_spec) := fun specs =>
  if (length symbol =? 0)%nat || (SPEC_SYMBOL_SIZE <=? length symbol)%nat ||
     (length bridge =? 0)%nat || (BRIDGE_NAME_SIZE <=? length bridge)%nat ||
     (MAX_PROCESS_BRIDGE_SPECS <=? length specs)%nat then (specs, -1)
  else
    let bridge_kind := process_bridge_kind_from_name bridge in
    if bridge_kind <? 0 then (specs, -1)
    else (specs ++ [MkSpec symbol (u8 bridge_kind)], 0).

(** ** The text *)

Definition SPACE : Z := 32.
Definition TAB : Z := 9.
Definition NEWLINE : Z := 10.

Definition is_blank (c : Z) : bool := (c =? SPACE) || (c =? TAB).

(** [while (p < line_end && blank(p)) p++], and the opposite. *)
Fixpoint skip_blanks (bs : list Z) : list Z :=
  match bs with
  | [] => []
  | c :: bs' => if is_blank c then skip_blanks bs' else bs
  end.

Fixpoint take_word (bs : list Z) : list Z * list Z :=
  match bs with
  | [] => ([], [])
  | c :: bs' =>
      if is_blank c then ([], bs)
      else let '(w, rest) := take_word bs' in (c :: w, rest)
  end.

(** The lines that the outer loop visits: the text up to each newline, and
    what follows the last one unless it is empty. *)
Fixpoint lines_of (text : list Z) : list (list Z) :=
  match text with
  | [] => []
  | c :: text' =>
      if c =? NEWLINE then [] :: lines_of text'
      else match lines_of text' with
           | [] => [[c]]
           | l :: ls => (c :: l) :: ls
           end
  end.

(** One line: a symbol, a bridge name, anything after them is ignored. *)
Definition parse_line (line : list Z) : cmd (list poly_process_bridge_spec) :=
  let '(symbol, rest) := take_word (skip_blanks line) in
  let '(bridge, _) := take_word (skip_blanks rest) in
  if negb (length symbol =? 0)%nat && negb (length bridge =? 0)%nat
  then append_process_bridge_spec symbol bridge else ret0.

Fixpoint parse_lines (lines : list (list Z)) : cmd (list poly_process_bridge_spec) :=
  match lines with
  | [] => ret0
  | line :: lines' => parse_line line ;;; parse_lines lines'
  end.

Definition parse_process_bridge_specs_text (desc : list Z) : cmd (list poly_process_bridge_spec) :=
  parse_lines (lines_of desc).

(** ** The notes *)

Definition POLYABI_NAME : list Z := bytes_of_string "POLYABI"%string ++ [NUL].

(** [(n + 3U) & ~3U] in 32 bits. *)
Definition round4 (n : Z) : Z := Z.land (u32 (n + 3)) (u32 (Z.lnot 3)).

(** The loop over the notes between [offset] and [end_]. *)
Fixpoint notes_loop (fuel : nat) (data : image) (end_ offset : Z)
    (specs : list poly_process_bridge_spec) : outcome (list poly_process_bridge_spec) :=
  match fuel with
  | O => Spin
  | S fuel' =>
      if offset <? end_ then
        if end_ - offset <? 12 then Err
        else
          namesz ← read_u32_le data offset;
          descsz ← read_u32_le data (offset + 4);
          let offset1 := offset + 12 in
          if namesz >? end_ - offset1 then Err
          else
            let offset2 := offset1 + round4 namesz in
            if (offset2 >? end_) || (descsz >? end_ - offset2) then Err
            else
              let offset3 := offset2 + round4 descsz in
              if offset3 >? end_ then Err
              else
                is_poly ←
                  (if namesz =? 8 then
                     name ← read_bytes data offset1 8; Ok (bool_decide (name = POLYABI_NAME))
                   else Ok false);
                if is_poly : bool then
                  desc ← read_bytes data offset2 (Z.to_nat descsz);
                  let '(specs', r) := parse_process_bridge_specs_text desc specs in
                  if r <? 0 then Err else notes_loop fuel' data end_ offset3 specs'
                else notes_loop fuel' data end_ offset3 specs
      else Ok specs
  end.

(** Every note takes at least 12 bytes. *)
Definition notes_fuel (note_size : Z) : nat := S (Z.to_nat note_size).

Definition parse_process_bridge_specs_notes (data : image) (offset note_size : Z)
    (specs : list poly_process_bridge_spec) : outcome (list poly_process_bridge_spec) :=
  if (offset >? size_of data) || (note_size >? size_of data - offset) then Err
  else notes_loop (notes_fuel note_size) data (offset + note_size) offset specs.

(** ** Lookup and slots *)

(** [None] is the null pointer. *)
Definition process_bridge_kind_for_symbol (specs : list poly_process_bridge_spec)
    (symbol_name : option (list Z)) : Z :=
  match symbol_name with
  | None => POLY_PROCESS_BRIDGE_DEFAULT
  | Some name =>
      match List.find (fun sp => bool_decide (c_str (spec_symbol sp) = c_str name)) specs with
      | Some sp => spec_bridge_kind sp
      | None => POLY_PROCESS_BRIDGE_DEFAULT
      end
  end.

Definition POLY_ABI_SIGNATURE_SLOT_COUNT : Z := 13.
Definition POLY_ABI_SIGNATURE_SLOT_EXCHANGE : Z := 0.
Definition POLY_ABI_SIGNATURE_SLOT_X86_SYSV_REGS_FP128_RET : Z := 11.

(** The static slot variables that the setup fills from the manifest. *)
Record signature_slots : Type := MkSlots {
  process_native_signature_slot : Z;
  process_fp64_signature_slot : Z;
  process_fp32_signature_slot : Z;
  process_sret_signature_slot : Z;
  process_native_sret_signature_slot : Z;
  process_vec128_signature_slot : Z;
  process_compact_u32_f32_signature_slot : Z;
  process_compact_f32_u32_signature_slot : Z;
}.

Definition process_signature_slot_for_bridge_kind (slots : signature_slots) (bridge_kind : Z) : Z :=
  if bridge_kind =? POLY_PROCESS_BRIDGE_VEC128_U32 then process_vec128_signature_slot slots
  else if bridge_kind =? POLY_PROCESS_BRIDGE_COMPACT_U32_F32 then
    process_compact_u32_f32_signature_slot slots
  else if bridge_kind =? POLY_PROCESS_BRIDGE_COMPACT_F32_U32 then
    process_compact_f32_u32_signature_slot slots
  else if bridge_kind =? POLY_PROCESS_BRIDGE_U64_STACK9 then POLY_ABI_SIGNATURE_SLOT_EXCHANGE
  else if bridge_kind =? POLY_PROCESS_BRIDGE_FP64 then process_fp64_signature_slot slots
  else if bridge_kind =? POLY_PROCESS_BRIDGE_FP32 then process_fp32_signature_slot slots
  else if bridge_kind =? POLY_PROCESS_BRIDGE_SRET_X86_SYSV then process_sret_signature_slot slots
  else if bridge_kind =? POLY_PROCESS_BRIDGE_NATIVE_SRET then
    process_native_sret_signature_slot slots
  else if (bridge_kind =? POLY_PROCESS_BRIDGE_AARCH64_HFA3_F32_RET) ||
          (bridge_kind =? POLY_PROCESS_BRIDGE_AARCH64_HFA4_F32_RET) ||
          (bridge_kind =? POLY_PROCESS_BRIDGE_AARCH64_HFA3_F64_RET) ||
          (bridge_kind =? POLY_PROCESS_BRIDGE_AARCH64_HFA4_F64_RET) ||
          (bridge_kind =? POLY_PROCESS_BRIDGE_AARCH64_HFA3_F64_ARG) ||
          (bridge_kind =? POLY_PROCESS_BRIDGE_AARCH64_HFA4_F64_ARG) ||
          (bridge_kind =? POLY_PROCESS_BRIDGE_AARCH64_HFA3_F32_ARG) ||
          (bridge_kind =? POLY_PROCESS_BRIDGE_AARCH64_HFA4_F32_ARG) then
    if (bridge_kind =? POLY_PROCESS_BRIDGE_AARCH64_HFA3_F64_ARG) ||
       (bridge_kind =? POLY_PROCESS_BRIDGE_AARCH64_HFA4_F64_ARG)
    then process_fp64_signature_slot slots
    else POLY_ABI_SIGNATURE_SLOT_X86_SYSV_REGS_FP128_RET
  else if (bridge_kind =? POLY_PROCESS_BRIDGE_FPAIR32_ARG) ||
          (bridge_kind =? POLY_PROCESS_BRIDGE_FPAIR64_ARG) ||
          (bridge_kind =? POLY_PROCESS_BRIDGE_FPAIR32_RET) ||
          (bridge_kind =? POLY_PROCESS_BRIDGE_FPAIR64_RET) then
    POLY_ABI_SIGNATURE_SLOT_X86_SYSV_REGS_FP128_RET
  else process_native_signature_slot slots.

(** ** Names *)

(** The name of a kind as bytes, as [poly_abi_descriptor_kind_name] gives it. *)
Definition kind_bytes (k : Z) : list Z :=
  bytes_of_string (default EmptyString (poly_abi_descriptor_kind_name k)).

(** A byte that can be part of a word of a line. *)
Definition word_byte (c : Z) : bool := negb (is_blank c) && negb (c =? NEWLINE) && negb (c =? NUL).

Definition kind_bytes_check (k : Z) : bool :=
  (process_bridge_kind_from_name (kind_bytes k) =? k) &&
  forallb word_byte (kind_bytes k) && (0 <? length (kind_bytes k))%nat &&
  (length (kind_bytes k) <? BRIDGE_NAME_SIZE)%nat && (u8 k =? k).

Lemma kind_bytes_all : forallb kind_bytes_check all_kinds = true.
Proof. vm_compute. reflexivity. Qed.

Lemma kind_bytes_spec (k : Z) :
  0 <= k < POLY_PROCESS_BRIDGE_KIND_COUNT ->
  process_bridge_kind_from_name (kind_bytes k) = k /\ forallb word_byte (kind_bytes k) = true /\
  (0 < length (kind_bytes k) < BRIDGE_NAME_SIZE)%nat /\ u8 k = k.
Proof.
  intros Hk. pose proof (check_kinds _ kind_bytes_all k Hk) as H. unfold kind_bytes_check in H.
  repeat match goal with H : _ && _ = true |- _ => apply andb_prop in H as [H ?] end.
  repeat match goal with H : (_ <? _)%nat = true |- _ => apply Nat.ltb_lt in H end.
  breflect. done.
Qed.

(** A name that is accepted is the name of the kind it stands for. *)
Lemma from_name_inv (name : list Z) (k : Z) :
  process_bridge_kind_from_name name = k -> 0 <= k ->
  0 <= k < POLY_PROCESS_BRIDGE_KIND_COUNT /\ c_str name = kind_bytes k.
Proof.
  unfold process_bridge_kind_from_name, strcmp_eq.
  repeat match goal with
  | |- (if bool_decide ?P then _ else _) = _ -> _ =>
      destruct (bool_decide_reflect P) as [Hc|_];
      [intros <- _; split; [split; vm_compute; congruence|rewrite Hc; vm_compute; reflexivity]|]
  end.
  intros <-. lia.
Qed.

(** ** Specs *)

Record wf_spec (sp : poly_process_bridge_spec) : Prop := {
  ws_len : (0 < length (spec_symbol sp) < SPEC_SYMBOL_SIZE)%nat;
  ws_kind : 0 <= spec_bridge_kind sp < POLY_PROCESS_BRIDGE_KIND_COUNT;
}.

Definition wf_specs (specs : list poly_process_bridge_spec) : Prop :=
  (length specs <= MAX_PROCESS_BRIDGE_SPECS)%nat /\ Forall wf_spec specs.

Lemma append_spec_cases (symbol bridge : list Z) (specs specs' : list poly_process_bridge_spec)
    (r : Z) :
  wf_specs specs -> append_process_bridge_spec symbol bridge specs = (specs', r) ->
  wf_specs specs' /\ (r = 0 \/ r = -1).
Proof.
  intros [Hl Hw]. unfold append_process_bridge_spec. destruct (_ || _) eqn:E.
  { intros; simplify_eq. by split; [|right]. }
  repeat match goal with H : _ || _ = false |- _ => apply orb_false_elim in H as [H ?] end.
  repeat match goal with
  | H : (_ =? _)%nat = false |- _ => apply Nat.eqb_neq in H
  | H : (_ <=? _)%nat = false |- _ => apply Nat.leb_gt in H
  end.
  destruct (Z.ltb_spec (process_bridge_kind_from_name bridge) 0) as [Hlt|Hge].
  { intros; simplify_eq. by split; [|right]. }
  intros; simplify_eq. destruct (from_name_inv bridge _ eq_refl Hge) as [Hk _].
  destruct (kind_bytes_spec _ Hk) as (_ & _ & _ & Hu). split; [|by left]. split.
  - rewrite length_app. simpl. lia.
  - apply Forall_app. split; [done|]. apply Forall_singleton. constructor; simpl; [lia|].
    by rewrite Hu.
Qed.

Lemma parse_lines_wf (lines : list (list Z)) : forall specs specs' r,
  wf_specs specs -> parse_lines lines specs = (specs', r) ->
  wf_specs specs' /\ (r = 0 \/ r = -1).
Proof.
  induction lines as [|line lines IH]; intros specs specs' r Hw; simpl.
  { intros [= <- <-]. auto. }
  unfold andthen, parse_line. destruct (take_word (skip_blanks line)) as [symbol rest].
  destruct (take_word (skip_blanks rest)) as [bridge rest2].
  destruct (_ && _).
  - destruct (append_process_bridge_spec symbol bridge specs) as [s1 r1] eqn:E.
    destruct (append_spec_cases _ _ _ _ _ Hw E) as [Hw1 _].
    destruct (r1 =? 0); [by apply IH|]. intros [= <- <-]. auto.
  - simpl. by apply IH.
Qed.

(** ** Printing and parsing the text *)

Definition print_spec (sp : poly_process_bridge_spec) : list Z :=
  spec_symbol sp ++ [SPACE] ++ kind_bytes (spec_bridge_kind sp) ++ [NEWLINE].

Definition print_specs (specs : list poly_process_bridge_spec) : list Z :=
  mjoin (print_spec <$> specs).

(** A spec whose symbol can be written in a line. *)
Definition printable (sp : poly_process_bridge_spec) : Prop :=
  wf_spec sp /\ forallb word_byte (spec_symbol sp) = true.

Lemma lines_of_line (line rest : list Z) :
  ~ In NEWLINE line -> lines_of (line ++ NEWLINE :: rest) = line :: lines_of rest.
Proof.
  induction line as [|c line IH]; intros Hn; simpl; [done|].
  destruct (Z.eqb_spec c NEWLINE) as [->|]; [exfalso; apply Hn; by left|].
  rewrite IH by (intros ?; apply Hn; by right). done.
Qed.

Lemma take_word_blank (w rest : list Z) (c : Z) :
  forallb word_byte w = true -> is_blank c = true ->
  take_word (w ++ c :: rest) = (w, c :: rest).
Proof.
  intros Hw Hc. induction w as [|b w IH]; simpl in *; [by rewrite Hc|].
  apply andb_prop in Hw as [Hb Hw]. unfold word_byte in Hb.
  destruct (is_blank b); [done|]. by rewrite IH.
Qed.

Lemma take_word_end (w : list Z) : forallb word_byte w = true -> take_word w = (w, []).
Proof.
  induction w as [|b w IH]; simpl; [done|]. intros Hw.
  apply andb_prop in Hw as [Hb Hw]. unfold word_byte in Hb.
  destruct (is_blank b); [done|]. by rewrite IH.
Qed.

Lemma skip_blanks_word (w rest : list Z) :
  forallb word_byte w = true -> (0 < length w)%nat -> skip_blanks (w ++ rest) = w ++ rest.
Proof.
  destruct w as [|b w]; simpl; [lia|]. intros Hw _. apply andb_prop in Hw as [Hb _].
  unfold word_byte in Hb. by destruct (is_blank b).
Qed.

Lemma word_no_newline (w : list Z) : forallb word_byte w = true -> ~ In NEWLINE w.
Proof. rewrite List.forallb_forall. intros H Hin. by specialize (H _ Hin). Qed.

Lemma parse_printed_line (sp : poly_process_bridge_spec) (specs : list poly_process_bridge_spec) :
  printable sp -> (length specs < MAX_PROCESS_BRIDGE_SPECS)%nat ->
  parse_line (spec_symbol sp ++ [SPACE] ++ kind_bytes (spec_bridge_kind sp)) specs =
    (specs ++ [sp], 0).
Proof.
  intros [[Hl Hk] Hs] Hc. destruct (kind_bytes_spec _ Hk) as (Hn & Hw & Hkl & Hu).
  unfold parse_line. rewrite skip_blanks_word by (done || lia).
  change ([SPACE] ++ ?x) with (SPACE :: x). rewrite take_word_blank by done.
  change (skip_blanks (SPACE :: ?x)) with (skip_blanks x).
  rewrite <- (app_nil_r (kind_bytes _)), skip_blanks_word, app_nil_r by (done || lia).
  rewrite take_word_end by done.
  unfold append_process_bridge_spec.
  destruct (Nat.eqb_spec (length (spec_symbol sp)) 0); [lia|].
  destruct (Nat.eqb_spec (length (kind_bytes (spec_bridge_kind sp))) 0); [lia|].
  cbn [negb andb]. cbv beta iota.
  destruct (Nat.leb_spec SPEC_SYMBOL_SIZE (length (spec_symbol sp))); [lia|].
  destruct (Nat.leb_spec BRIDGE_NAME_SIZE (length (kind_bytes (spec_bridge_kind sp)))); [lia|].
  destruct (Nat.leb_spec MAX_PROCESS_BRIDGE_SPECS (length specs)); [lia|].
  cbn [negb andb orb]. cbv zeta. rewrite Hn, Hu, (proj2 (Z.ltb_ge _ _)) by lia. by destruct sp.
Qed.

Lemma parse_printed (new : list poly_process_bridge_spec) : forall specs,
  Forall printable new -> (length specs + length new <= MAX_PROCESS_BRIDGE_SPECS)%nat ->
  parse_process_bridge_specs_text (print_specs new) specs = (specs ++ new, 0).
Proof.
  unfold parse_process_bridge_specs_text.
  induction new as [|sp new IH]; intros specs Hp Hl; [by rewrite app_nil_r|].
  apply Forall_cons_1 in Hp as [Hsp Hp]. simpl in Hl.
  change (print_specs (sp :: new)) with (print_spec sp ++ print_specs new).
  unfold print_spec. rewrite <- !app_assoc.
  rewrite (app_assoc [SPACE]), (app_assoc (spec_symbol sp)).
  change ([NEWLINE] ++ ?x) with (NEWLINE :: x). rewrite lines_of_line.
  - cbn [parse_lines]. unfold andthen. rewrite parse_printed_line by (done || lia).
    simpl (0 =? 0). cbv iota. rewrite IH by (done || rewrite length_app; simpl; lia).
    by rewrite <- app_assoc.
  - destruct Hsp as [[_ Hk] Hs]. destruct (kind_bytes_spec _ Hk) as (_ & Hw & _).
    rewrite !List.in_app_iff. intros [H|[H|H]].
    + by apply word_no_newline in H.
    + simpl in H. destruct H as [H|[]]. discriminate.
    + by apply word_no_newline in H.
Qed.

(** ** The notes *)

Lemma round4_nonneg (n : Z) : 0 <= round4 n.
Proof. unfold round4. apply Z.land_nonneg. left. apply wrap_range. lia. Qed.

Lemma round4_spec (n : Z) : 0 <= n -> n + 3 < 2 ^ 32 -> n <= round4 n < n + 4 /\ round4 n mod 4 = 0.
Proof.
  intros H0 H1. unfold round4. rewrite (wrap_small 32 (n + 3)) by (unfold in_width; lia).
  assert (Z.land (n + 3) (u32 (Z.lnot 3)) = (n + 3) / 2 ^ 2 * 2 ^ 2) as ->.
  { rewrite <- land_lnot_ones by lia. unfold wrap.
    rewrite <- Z.land_ones, Z.land_assoc, (Z.land_comm _ (Z.ones 32)), Z.land_assoc by lia.
    rewrite (Z.land_comm (Z.ones 32)), Z.land_ones, Z.mod_small by lia. done. }
  replace (n + 3) with (n + 2 ^ 2 - 1) by lia. exact (round_up_pow2 n 2 ltac:(lia)).
Qed.

(** The loop never reads outside the data, never runs out of fuel, and keeps
    the table of specs well formed. *)
Lemma notes_loop_sound (data : image) (end_ : Z) : wf_image data -> end_ <= size_of data ->
  forall fuel offset specs,
  0 <= offset <= end_ -> end_ - offset < Z.of_nat fuel -> wf_specs specs ->
  returns (notes_loop fuel data end_ offset specs) /\
  (forall specs', notes_loop fuel data end_ offset specs = Ok specs' -> wf_specs specs').
Proof.
  intros Hi He. induction fuel as [|fuel IH]; intros offset specs Ho Hf Hw; [lia|].
  cbn [notes_loop]. destruct (Z.ltb_spec offset end_) as [Hlt|]; [|by split; [|intros ? [= <-]]].
  destruct (Z.ltb_spec (end_ - offset) 12); [done|].
  destruct (read_u32_inside data offset Hi ltac:(lia) ltac:(lia)) as (namesz & -> & Hn).
  destruct (read_u32_inside data (offset + 4) Hi ltac:(lia) ltac:(lia)) as (descsz & -> & Hd).
  cbn [mbind outcome_bind]. rewrite Z.gtb_ltb. destruct (Z.ltb_spec (end_ - (offset + 12)) namesz); [done|].
  pose proof (round4_nonneg namesz). pose proof (round4_nonneg descsz).
  destruct (_ || _) eqn:E; [done|]. breflect. rewrite Z.gtb_ltb.
  destruct (Z.ltb_spec end_ (offset + 12 + round4 namesz + round4 descsz)); [done|].
  assert (exists b : bool, (if namesz =? 8 then
      name ← read_bytes data (offset + 12) 8; Ok (bool_decide (name = POLYABI_NAME))
    else Ok false) = Ok b) as [b ->].
  { destruct (Z.eqb_spec namesz 8) as [->|]; [|by eexists].
    rewrite read_bytes_ok by lia. cbn. by eexists. }
  cbn [mbind outcome_bind]. unfold in_width in Hn, Hd. destruct b; [|apply IH; (done || lia)].
  rewrite read_bytes_ok by lia. cbn [mbind outcome_bind].
  destruct (parse_process_bridge_specs_text _ specs) as [specs1 r] eqn:Ep.
  destruct (parse_lines_wf _ _ _ _ Hw Ep) as [Hw1 _].
  destruct (r <? 0); [done|]. apply IH; (done || lia).
Qed.

(** ** Writing a note *)

Definition encode_note (note_type : Z) (desc : list Z) : list Z :=
  le_bytes 4 8 ++ le_bytes 4 (Z.of_nat (length desc)) ++ le_bytes 4 note_type ++
  POLYABI_NAME ++ desc ++
  replicate (Z.to_nat (round4 (Z.of_nat (length desc)) - Z.of_nat (length desc))) 0.

(** A read inside the middle of a concatenation. *)
Lemma read_bytes_middle (before bs after : image) (n : nat) :
  length bs = n -> read_bytes (before ++ bs ++ after) (size_of before) n = Ok bs.
Proof.
  intros <-. rewrite read_bytes_ok; unfold size_of.
  - by rewrite Nat2Z.id, drop_app_length, take_app_length.
  - lia.
  - rewrite !length_app. lia.
Qed.

Lemma read_u32_middle (before after : image) (v : Z) :
  in_width 32 v -> read_u32_le (before ++ le_bytes 4 v ++ after) (size_of before) = Ok v.
Proof.
  intros Hv. unfold read_u32_le. rewrite read_bytes_middle by apply le_bytes_length.
  cbn [mbind outcome_bind]. rewrite or_bytes_le, le_value_bytes by apply le_bytes_range.
  f_equal. by apply wrap_small.
Qed.

Lemma size_of_app (a b : image) : size_of (a ++ b) = size_of a + size_of b.
Proof. unfold size_of. rewrite length_app. lia. Qed.

Lemma size_le_bytes (n : nat) (v : Z) : size_of (le_bytes n v) = Z.of_nat n.
Proof. unfold size_of. by rewrite le_bytes_length. Qed.

Lemma size_encode_note (t : Z) (desc : list Z) :
  size_of desc + 3 < 2 ^ 32 -> size_of (encode_note t desc) = 20 + round4 (size_of desc).
Proof.
  intros Hs. unfold encode_note. rewrite !size_of_app, !size_le_bytes.
  destruct (round4_spec (size_of desc)) as [Hr _]; [unfold size_of; lia|done|].
  unfold size_of in *. rewrite length_replicate. simpl (length POLYABI_NAME). lia.
Qed.

(** The fields of an encoded note, at their offsets. *)
Lemma note_fields (before after desc : list Z) (t : Z) :
  size_of desc + 3 < 2 ^ 32 ->
  let data := before ++ encode_note t desc ++ after in
  let o := size_of before in
  read_u32_le data o = Ok 8 /\ read_u32_le data (o + 4) = Ok (size_of desc) /\
  read_bytes data (o + 12) 8 = Ok POLYABI_NAME /\
  read_bytes data (o + 12 + 8) (Z.to_nat (size_of desc)) = Ok desc.
Proof.
  intros Hs data o. unfold data, encode_note.
  set (pad := replicate _ 0). set (len := Z.of_nat (length desc)).
  assert (in_width 32 len) as Hlen by (unfold in_width, size_of in *; lia).
  rewrite <- !app_assoc. split_and!.
  - by apply read_u32_middle.
  - replace (o + 4) with (size_of (before ++ le_bytes 4 8)) by (rewrite size_of_app, size_le_bytes; lia).
    rewrite (app_assoc before). by apply read_u32_middle.
  - replace (o + 12) with (size_of (before ++ le_bytes 4 8 ++ le_bytes 4 len ++ le_bytes 4 t))
      by (rewrite !size_of_app, !size_le_bytes; lia).
    rewrite (app_assoc (le_bytes 4 len)), (app_assoc (le_bytes 4 8)), (app_assoc before).
    by apply read_bytes_middle.
  - replace (o + 12 + 8)
      with (size_of (before ++ le_bytes 4 8 ++ le_bytes 4 len ++ le_bytes 4 t ++ POLYABI_NAME))
      by (rewrite !size_of_app, !size_le_bytes; unfold size_of at 2; simpl; lia).
    rewrite (app_assoc (le_bytes 4 t)), (app_assoc (le_bytes 4 len)), (app_assoc (le_bytes 4 8)),
      (app_assoc before).
    apply read_bytes_middle. unfold size_of. lia.
Qed.

(** One encoded note is parsed as its text. *)
Lemma notes_loop_note (fuel : nat) (before after desc : list Z) (t : Z) specs specs' :
  size_of desc + 3 < 2 ^ 32 ->
  parse_process_bridge_specs_text desc specs = (specs', 0) ->
  notes_loop (S (S fuel)) (before ++ encode_note t desc ++ after)
    (size_of before + size_of (encode_note t desc)) (size_of before) specs = Ok specs'.
Proof.
  intros Hs Hp. destruct (note_fields before after desc t Hs) as (R1 & R2 & R3 & R4).
  cbv zeta in R1, R2, R3, R4. rewrite size_encode_note by done.
  assert (0 <= size_of desc) by (unfold size_of; lia).
  destruct (round4_spec (size_of desc) ltac:(done) Hs) as [Hr _].
  set (data := before ++ _) in *. set (o := size_of before) in *.
  cbn [notes_loop]. destruct (Z.ltb_spec o (o + (20 + round4 (size_of desc)))); [|lia].
  destruct (Z.ltb_spec (o + (20 + round4 (size_of desc)) - o) 12); [lia|].
  rewrite R1, R2. cbn [mbind outcome_bind].
  rewrite !Z.gtb_ltb. destruct (Z.ltb_spec (o + (20 + round4 (size_of desc)) - (o + 12)) 8); [lia|].
  change (round4 8) with 8.
  destruct (Z.ltb_spec (o + (20 + round4 (size_of desc))) (o + 12 + 8)); [lia|].
  destruct (Z.ltb_spec (o + (20 + round4 (size_of desc)) - (o + 12 + 8)) (size_of desc)); [lia|].
  cbn [orb].
  destruct (Z.ltb_spec (o + (20 + round4 (size_of desc))) (o + 12 + 8 + round4 (size_of desc)));
    [lia|].
  rewrite Z.eqb_refl, R3. cbn [mbind outcome_bind]. rewrite bool_decide_eq_true_2 by done.
  rewrite R4. cbn [mbind outcome_bind]. rewrite Hp. cbn [Z.ltb Z.compare].
  replace (o + 12 + 8 + round4 (size_of desc)) with (o + (20 + round4 (size_of desc))) by lia.
  by rewrite Z.ltb_irrefl.
Qed.

Lemma find_spec (specs : list poly_process_bridge_spec) (sp : poly_process_bridge_spec) :
  NoDup (c_str ∘ spec_symbol <$> specs) -> In sp specs ->
  process_bridge_kind_for_symbol specs (Some (spec_symbol sp)) = spec_bridge_kind sp.
Proof.
  intros Hnd Hin. unfold process_bridge_kind_for_symbol.
  induction specs as [|x specs IH]; [done|]. apply NoDup_cons in Hnd as [Hni Hnd]. simpl.
  destruct Hin as [->|Hin]; [by rewrite bool_decide_eq_true_2|].
  case_bool_decide as Heq; [|by apply IH].
  exfalso. apply Hni. simpl. rewrite Heq.
  by apply list_elem_of_In, (List.in_map (c_str ∘ spec_symbol)).
Qed.

(** ** Properties *)

(** The two name tables of the runtime are inverse: the name that
    [poly_abi_descriptor_kind_name] gives to each of the 21 bridge kinds is
    parsed back to that kind, and a name is only accepted when it is the name
    of the kind that it is parsed to; everything else is -1. *)
Theorem bridge_kind_names_roundtrip :
  (forall k, 0 <= k < POLY_PROCESS_BRIDGE_KIND_COUNT ->
     process_bridge_kind_from_name (kind_bytes k) = k) /\
  (forall name, process_bridge_kind_from_name name <> -1 ->
     0 <= process_bridge_kind_from_name name < POLY_PROCESS_BRIDGE_KIND_COUNT /\
     c_str name = kind_bytes (process_bridge_kind_from_name name)).
Proof.
  split; [intros k Hk; by apply kind_bytes_spec|]. intros name Hne.
  destruct (Z.lt_ge_cases (process_bridge_kind_from_name name) 0) as [Hlt|Hge];
    [|by apply from_name_inv].
  exfalso. apply Hne. revert Hlt. unfold process_bridge_kind_from_name.
  destruct_ifs; try done; intros; exfalso;
    match goal with H : ?k < 0 |- _ => vm_compute in H; discriminate end.
Qed.

(** Writing a table of bridge specs as a POLYABI note and parsing the
    note gives the table back, whatever surrounds the note in the file, and the
    parsed table then maps each symbol to its bridge kind. *)
Theorem bridge_note_roundtrip (specs : list poly_process_bridge_spec) (before after : image)
    (note_type : Z) :
  Forall printable specs -> (length specs <= MAX_PROCESS_BRIDGE_SPECS)%nat ->
  NoDup (c_str ∘ spec_symbol <$> specs) -> size_of (print_specs specs) + 3 < 2 ^ 32 ->
  let note := encode_note note_type (print_specs specs) in
  parse_process_bridge_specs_notes (before ++ note ++ after) (size_of before) (size_of note) [] =
    Ok specs /\
  Forall (fun sp => process_bridge_kind_for_symbol specs (Some (spec_symbol sp)) =
                    spec_bridge_kind sp) specs.
Proof.
  intros Hp Hl Hnd Hs note. split.
  - unfold parse_process_bridge_specs_notes. rewrite !Z.gtb_ltb.
    assert (0 <= size_of after) by (unfold size_of; lia).
    rewrite !size_of_app.
    destruct (Z.ltb_spec (size_of before + (size_of note + size_of after)) (size_of before));
      [unfold size_of in *; lia|].
    destruct (Z.ltb_spec (size_of before + (size_of note + size_of after) - size_of before)
      (size_of note)); [lia|]. cbn [orb]. unfold notes_fuel.
    assert (exists n, Z.to_nat (size_of note) = S n) as [n ->].
    { unfold note. rewrite size_encode_note by done. exists (Z.to_nat (19 + round4 (size_of (print_specs specs)))).
      pose proof (round4_nonneg (size_of (print_specs specs))). lia. }
    apply notes_loop_note; [done|]. by apply parse_printed.
  - apply List.Forall_forall. intros sp Hin. by apply find_spec.
Qed.

(** Parsing the notes of any file returns: no byte outside the file is
    read, the loop ends, and the resulting table has at most 16 entries, each
    with a non-empty symbol that fits its 80-byte field and one of the 21
    kinds. *)
Theorem bridge_notes_safe (data : image) (offset note_size : Z)
    (specs : list poly_process_bridge_spec) :
  wf_image data -> 0 <= offset -> 0 <= note_size -> wf_specs specs ->
  returns (parse_process_bridge_specs_notes data offset note_size specs) /\
  (forall specs', parse_process_bridge_specs_notes data offset note_size specs = Ok specs' ->
     wf_specs specs').
Proof.
  intros Hi Ho Hn Hw. unfold parse_process_bridge_specs_notes.
  destruct (_ || _) eqn:E; [done|]. breflect.
  apply notes_loop_sound; [done|lia|lia|unfold notes_fuel; lia|done].
Qed.

(** The signature slot chosen for a bridge kind exists in hardware (is
    below 13) when the configured slots are, so it is never the "no slot"
    value of a bridge plan. *)
Theorem signature_slot_in_range (slots : signature_slots) (k : Z) :
  Forall (fun s => 0 <= s < POLY_ABI_SIGNATURE_SLOT_COUNT)
    [process_native_signature_slot slots; process_fp64_signature_slot slots;
     process_fp32_signature_slot slots; process_sret_signature_slot slots;
     process_native_sret_signature_slot slots; process_vec128_signature_slot slots;
     process_compact_u32_f32_signature_slot slots;
     process_compact_f32_u32_signature_slot slots] ->
  0 <= process_signature_slot_for_bridge_kind slots k < POLY_ABI_SIGNATURE_SLOT_COUNT.
Proof.
  intros H. rewrite !Forall_cons in H.
  destruct H as (H1 & H2 & H3 & H4 & H5 & H6 & H7 & H8 & _).
  unfold process_signature_slot_for_bridge_kind.
  destruct_ifs; try done; vm_compute; split; congruence.
Qed.

(** ** Concrete specs *)

Definition sample_specs : list poly_process_bridge_spec :=
  [MkSpec (bytes_of_string "poly_sum"%string) POLY_PROCESS_BRIDGE_VEC128_U32;
   MkSpec (bytes_of_string "poly_hfa"%string) POLY_PROCESS_BRIDGE_AARCH64_HFA4_F64_ARG].

Lemma sample_specs_printable : Forall printable sample_specs.
Proof.
  repeat constructor; simpl; unfold SPEC_SYMBOL_SIZE; try lia; vm_compute; congruence.
Qed.

Lemma bridge_note_roundtrip_witness :
  let note := encode_note 1 (print_specs sample_specs) in
  parse_process_bridge_specs_notes ([7; 7] ++ note ++ [9]) 2 (size_of note) [] = Ok sample_specs /\
  Forall (fun sp => process_bridge_kind_for_symbol sample_specs (Some (spec_symbol sp)) =
                    spec_bridge_kind sp) sample_specs.
Proof.
  apply (bridge_note_roundtrip sample_specs [7; 7] [9] 1).
  - exact sample_specs_printable.
  - unfold MAX_PROCESS_BRIDGE_SPECS. simpl. lia.
  - apply (bool_decide_unpack _). vm_compute. exact I.
  - vm_compute. reflexivity.
Defined.

Lemma bridge_notes_safe_witness :
  returns (parse_process_bridge_specs_notes (le_bytes 4 8 ++ le_bytes 4 255 ++ le_bytes 8 0) 0 16 []).
Proof.
  apply (bridge_notes_safe (le_bytes 4 8 ++ le_bytes 4 255 ++ le_bytes 8 0) 0 16 []); try lia.
  - repeat (apply Forall_app; split); apply le_bytes_range.
  - split; [unfold MAX_PROCESS_BRIDGE_SPECS; simpl; lia|constructor].
Defined.

Lemma signature_slot_in_range_witness :
  0 <= process_signature_slot_for_bridge_kind (MkSlots 3 8 9 10 12 5 6 7) 17 <
    POLY_ABI_SIGNATURE_SLOT_COUNT.
Proof.
  apply (signature_slot_in_range (MkSlots 3 8 9 10 12 5 6 7) 17).
  repeat constructor; simpl; unfold POLY_ABI_SIGNATURE_SLOT_COUNT; lia.
Defined.
