(* ===== verification/ElfImage.v ===== *)
(** The ELF image reader of the loader in [tools/runtime/polyexec.c]:
    relocation types per architecture, translation of virtual addresses to
    image offsets, the symbol count from DT_HASH or DT_GNU_HASH, access to
    symbols by index, and the tables found through the dynamic section.

    A loaded image is a list of bytes, read through [LoaderBase]'s checked
    reads; an output parameter is part of the result.  Image sizes are at most
    [MAX_PROGRAM_BYTES], so the sums of offsets below do not leave 64 bits; the
    products with the symbol entry size, which a file can choose freely, are
    wrapped. *)

From S2P Require Import Prelude LoaderBase.

(** ** Relocation types *)

Definition POLY_ARCH_X86 : Z := 0.
Definition POLY_ARCH_AARCH64 : Z := 1.
Definition POLY_ARCH_RISCV : Z := 2.

Definition R_AARCH64_NONE : Z := 0.
Definition R_AARCH64_ABS64 : Z := 257.
Definition R_AARCH64_COPY : Z := 1024.
Definition R_AARCH64_GLOB_DAT : Z := 1025.
Definition R_AARCH64_JUMP_SLOT : Z := 1026.
Definition R_AARCH64_RELATIVE : Z := 1027.
Definition R_AARCH64_TLS_TPREL64 : Z := 1030.
Definition R_AARCH64_IRELATIVE : Z := 1032.
Definition R_RISCV_NONE : Z := 0.
Definition R_RISCV_64 : Z := 2.
Definition R_RISCV_RELATIVE : Z := 3.
Definition R_RISCV_COPY : Z := 4.
Definition R_RISCV_JUMP_SLOT : Z := 5.
Definition R_RISCV_TLS_TPREL64 : Z := 11.
Definition R_RISCV_IRELATIVE : Z := 58.
Definition R_X86_64_NONE : Z := 0.
Definition R_X86_64_64 : Z := 1.
Definition R_X86_64_COPY : Z := 5.
Definition R_X86_64_GLOB_DAT : Z := 6.
Definition R_X86_64_JUMP_SLOT : Z := 7.
Definition R_X86_64_RELATIVE : Z := 8.
Definition R_X86_64_TPOFF64 : Z := 18.
Definition R_X86_64_IRELATIVE : Z := 37.

Definition relative_reloc_type_for_arch (arch : Z) : Z :=
  if arch =? POLY_ARCH_AARCH64 then R_AARCH64_RELATIVE
  else if arch =? POLY_ARCH_RISCV then R_RISCV_RELATIVE
  else if arch =? POLY_ARCH_X86 then R_X86_64_RELATIVE
  else 0.

Definition symbolic_64_reloc_type_for_arch (arch type : Z) : bool :=
  if arch =? POLY_ARCH_AARCH64 then
    (type =? R_AARCH64_ABS64) || (type =? R_AARCH64_GLOB_DAT) || (type =? R_AARCH64_JUMP_SLOT)
  else if arch =? POLY_ARCH_RISCV then (type =? R_RISCV_64) || (type =? R_RISCV_JUMP_SLOT)
  else if arch =? POLY_ARCH_X86 then
    (type =? R_X86_64_64) || (type =? R_X86_64_GLOB_DAT) || (type =? R_X86_64_JUMP_SLOT)
  else false.

Definition irelative_reloc_type_for_arch (arch : Z) : Z :=
  if arch =? POLY_ARCH_AARCH64 then R_AARCH64_IRELATIVE
  else if arch =? POLY_ARCH_RISCV then R_RISCV_IRELATIVE
  else if arch =? POLY_ARCH_X86 then R_X86_64_IRELATIVE
  else UINT32_MAX.

Definition tls_tprel_reloc_type_for_arch (arch : Z) : Z :=
  if arch =? POLY_ARCH_AARCH64 then R_AARCH64_TLS_TPREL64
  else if arch =? POLY_ARCH_RISCV then R_RISCV_TLS_TPREL64
  else if arch =? POLY_ARCH_X86 then R_X86_64_TPOFF64
  else UINT32_MAX.

Definition none_reloc_type_for_arch (arch : Z) : Z :=
  if arch =? POLY_ARCH_AARCH64 then R_AARCH64_NONE
  else if arch =? POLY_ARCH_RISCV then R_RISCV_NONE
  else if arch =? POLY_ARCH_X86 then R_X86_64_NONE
  else UINT32_MAX.

Definition copy_reloc_type_for_arch (arch : Z) : Z :=
  if arch =? POLY_ARCH_AARCH64 then R_AARCH64_COPY
  else if arch =? POLY_ARCH_RISCV then R_RISCV_COPY
  else if arch =? POLY_ARCH_X86 then R_X86_64_COPY
  else UINT32_MAX.

(** ** The program and its image *)

Definition MAX_PROGRAM_BYTES : Z := 128 * 1024 * 1024.

(** The fields of [struct poly_program] that the reader uses. *)
Record poly_program : Type := MkProgramHeader {
  base_vaddr : Z;
  code_size : Z;
  dynamic_offset : Z;
  dynamic_size : Z;
  tls_offset : Z;
}.

Definition elf_vaddr_to_image_offset (program : poly_program) (vaddr size : Z) : outcome Z :=
  if (vaddr <? base_vaddr program) || (vaddr >? UINT64_MAX - size) then Err
  else
    let image_offset := vaddr - base_vaddr program in
    if (image_offset >? code_size program) || (size >? code_size program - image_offset) then Err
    else Ok image_offset.

(** [Elf64_Sym] *)
Definition SIZEOF_SYM : Z := 24.
Definition SHN_UNDEF : Z := 0.
Definition MAX_SYMBOLS : Z := 4096.

Record elf_sym : Type := MkSym {
  st_name : Z;
  st_info : Z;
  st_other : Z;
  st_shndx : Z;
  st_value : Z;
  st_size : Z;
}.

Definition read_sym (img : image) (off : Z) : outcome elf_sym :=
  name ← read_u32_le img off;
  info ← read_u8 img (off + 4);
  other ← read_u8 img (off + 5);
  shndx ← read_u16_le img (off + 6);
  value ← read_u64_le img (off + 8);
  size ← read_u64_le img (off + 16);
  Ok (MkSym name info other shndx value size).

Definition ELF64_ST_TYPE (info : Z) : Z := Z.land info 0xf.
Definition ELF64_ST_BIND (info : Z) : Z := Z.shiftr info 4.
Definition ELF64_ST_VISIBILITY (other : Z) : Z := Z.land other 0x3.

(** ** The number of symbols *)

(** The [while (1)] walk along one chain; the result is the new [count]. *)
Fixpoint chain_loop (fuel : nat) (program : poly_program) (img : image)
    (chains_offset symoffset max_symbols index count : Z) : outcome Z :=
  match fuel with
  | O => Spin
  | S fuel' =>
      let chain_offset := chains_offset + u32 (index - symoffset) * 4 in
      if (chain_offset >? code_size program) || (4 >? code_size program - chain_offset) then Err
      else
        chain ← read_u32_le img chain_offset;
        let count' := if index + 1 >? count then index + 1 else count in
        if negb (Z.land chain 1 =? 0) then Ok count'
        else
          let index' := u32 (index + 1) in
          if index' >=? max_symbols then Err
          else chain_loop fuel' program img chains_offset symoffset max_symbols index' count'
  end.

(** A chain cannot be longer than the image has 4-byte words. *)
Definition chain_fuel (program : poly_program) : nat := S (Z.to_nat (code_size program)).

(** [for (n = i; n < i + k; n++)] over the buckets. *)
Fixpoint bucket_loop (k : nat) (n : Z) (program : poly_program) (img : image)
    (buckets_offset chains_offset symoffset max_symbols count : Z) : outcome Z :=
  match k with
  | O => Ok count
  | S k' =>
      index ← read_u32_le img (buckets_offset + n * 4);
      if index =? 0 then
        bucket_loop k' (n + 1) program img buckets_offset chains_offset symoffset max_symbols count
      else if (index <? symoffset) || (index >=? max_symbols) then Err
      else
        count' ← chain_loop (chain_fuel program) program img chains_offset symoffset max_symbols
                   index count;
        bucket_loop k' (n + 1) program img buckets_offset chains_offset symoffset max_symbols count'
  end.

Definition dynamic_symbol_count_from_hash (program : poly_program) (img : image)
    (symtab_vaddr syment hash_vaddr gnu_hash_vaddr : Z) : outcome Z :=
  if negb (hash_vaddr =? 0) then
    hash_offset ← elf_vaddr_to_image_offset program hash_vaddr 8;
    symbol_count ← read_u32_le img (hash_offset + 4);
    if negb (symbol_count =? 0) && (symbol_count <=? MAX_SYMBOLS) then Ok symbol_count else Err
  else if gnu_hash_vaddr =? 0 then Err
  else
    symtab_offset ← elf_vaddr_to_image_offset program symtab_vaddr syment;
    hash_offset ← elf_vaddr_to_image_offset program gnu_hash_vaddr 16;
    nbuckets ← read_u32_le img hash_offset;
    symoffset ← read_u32_le img (hash_offset + 4);
    bloom_size ← read_u32_le img (hash_offset + 8);
    if (nbuckets =? 0) || (bloom_size =? 0) then Err
    else
      let buckets_offset := hash_offset + 16 + bloom_size * 8 in
      let buckets_size := nbuckets * 4 in
      if (buckets_offset >? code_size program) ||
         (buckets_size >? code_size program - buckets_offset) then Err
      else
        let chains_offset := buckets_offset + buckets_size in
        if (chains_offset >? code_size program) || (symtab_offset >? code_size program) ||
           ((code_size program - symtab_offset) / syment <? symoffset) then Err
        else
          let max_symbols := (code_size program - symtab_offset) / syment in
          count ← bucket_loop (Z.to_nat nbuckets) 0 program img buckets_offset chains_offset
                    symoffset max_symbols symoffset;
          if negb (count =? 0) && (count <=? MAX_SYMBOLS) then Ok count else Err.

(** ** Symbols by index *)

(** [(uint64_t) symbol_count * syment], and the offset of the symbol table. *)
Definition symtab_range (program : poly_program) (symtab_vaddr symbol_count syment : Z)
    : outcome Z :=
  elf_vaddr_to_image_offset program symtab_vaddr (u64 (symbol_count * syment)).

(** [loaded_image + symtab_offset + symbol_index * syment] as an image offset. *)
Definition sym_offset (symtab_offset symbol_index syment : Z) : Z :=
  u64 (symtab_offset + symbol_index * syment).

Definition resolve_same_image_reloc_symbol (program : poly_program) (img : image)
    (symtab_vaddr syment hash_vaddr gnu_hash_vaddr symbol_index : Z) : outcome (Z * Z) :=
  if (symtab_vaddr =? 0) || (syment <? SIZEOF_SYM) then Err
  else
    symbol_count ← dynamic_symbol_count_from_hash program img symtab_vaddr syment hash_vaddr
                     gnu_hash_vaddr;
    if symbol_index >=? symbol_count then Err
    else
      symtab_offset ← symtab_range program symtab_vaddr symbol_count syment;
      sym ← read_sym img (sym_offset symtab_offset symbol_index syment);
      if st_shndx sym =? SHN_UNDEF then Err
      else Ok (st_value sym, ELF64_ST_TYPE (st_info sym)).

(** The symbol and the image offset of its name. *)
Definition dynamic_symbol_by_index (program : poly_program) (img : image)
    (symtab_vaddr strtab_vaddr strsz syment hash_vaddr gnu_hash_vaddr symbol_index : Z)
    : outcome (elf_sym * Z) :=
  if (symtab_vaddr =? 0) || (strtab_vaddr =? 0) || (strsz =? 0) || (syment <? SIZEOF_SYM) then Err
  else
    symbol_count ← dynamic_symbol_count_from_hash program img symtab_vaddr syment hash_vaddr
                     gnu_hash_vaddr;
    if symbol_index >=? symbol_count then Err
    else
      symtab_offset ← symtab_range program symtab_vaddr symbol_count syment;
      strtab_offset ← elf_vaddr_to_image_offset program strtab_vaddr strsz;
      sym ← read_sym img (sym_offset symtab_offset symbol_index syment);
      if st_name sym >=? strsz then Err
      else Ok (sym, strtab_offset + st_name sym).

(** The same checks; the image offset of the name and [st_info]. *)
Definition dynamic_symbol_name_by_index (program : poly_program) (img : image)
    (symtab_vaddr strtab_vaddr strsz syment hash_vaddr gnu_hash_vaddr symbol_index : Z)
    : outcome (Z * Z) :=
  if (symtab_vaddr =? 0) || (strtab_vaddr =? 0) || (strsz =? 0) || (syment <? SIZEOF_SYM) then Err
  else
    symbol_count ← dynamic_symbol_count_from_hash program img symtab_vaddr syment hash_vaddr
                     gnu_hash_vaddr;
    if symbol_index >=? symbol_count then Err
    else
      symtab_offset ← symtab_range program symtab_vaddr symbol_count syment;
      strtab_offset ← elf_vaddr_to_image_offset program strtab_vaddr strsz;
      sym ← read_sym img (sym_offset symtab_offset symbol_index syment);
      if st_name sym >=? strsz then Err
      else Ok (strtab_offset + st_name sym, st_info sym).

(** ** The dynamic section *)

Definition SIZEOF_DYN : Z := 16.
Definition DT_HASH : Z := 4.
Definition DT_STRTAB : Z := 5.
Definition DT_SYMTAB : Z := 6.
Definition DT_STRSZ : Z := 10.
Definition DT_SYMENT : Z := 11.
Definition DT_GNU_HASH : Z := 0x6ffffef5.
Definition DT_VERSYM : Z := 0x6ffffff0.
Definition DT_VERDEF : Z := 0x6ffffffc.
Definition DT_VERDEFNUM : Z := 0x6ffffffd.
Definition DT_VERNEED : Z := 0x6ffffffe.
Definition DT_VERNEEDNUM : Z := 0x6fffffff.

(** Fold [f tag value] over the entries [n], [n + 1], ..., in order. *)
Fixpoint dyn_loop {A} (k : nat) (n : Z) (program : poly_program) (img : image)
    (f : Z -> Z -> A -> A) (acc : A) : outcome A :=
  match k with
  | O => Ok acc
  | S k' =>
      tag ← read_u64_le img (dynamic_offset program + n * SIZEOF_DYN);
      value ← read_u64_le img (dynamic_offset program + n * SIZEOF_DYN + 8);
      dyn_loop k' (n + 1) program img f (f tag value acc)
  end.

Definition dyn_count (program : poly_program) : nat :=
  Z.to_nat (dynamic_size program / SIZEOF_DYN).

Record symbol_tables : Type := MkTables {
  tb_symtab : Z;
  tb_strtab : Z;
  tb_strsz : Z;
  tb_syment : Z;
  tb_hash : Z;
  tb_gnu_hash : Z;
}.

Definition symbol_table_entry (tag value : Z) (t : symbol_tables) : symbol_tables :=
  let '(MkTables symtab strtab strsz syment hash gnu_hash) := t in
  if tag =? DT_SYMTAB then MkTables value strtab strsz syment hash gnu_hash
  else if tag =? DT_STRTAB then MkTables symtab value strsz syment hash gnu_hash
  else if tag =? DT_STRSZ then MkTables symtab strtab value syment hash gnu_hash
  else if tag =? DT_SYMENT then MkTables symtab strtab strsz value hash gnu_hash
  else if tag =? DT_HASH then MkTables symtab strtab strsz syment value gnu_hash
  else if tag =? DT_GNU_HASH then MkTables symtab strtab strsz syment hash value
  else t.

Definition dynamic_symbol_table_info (program : poly_program) (img : image)
    : outcome symbol_tables :=
  if dynamic_size program =? 0 then Err
  else
    t ← dyn_loop (dyn_count program) 0 program img symbol_table_entry
          (MkTables 0 0 0 SIZEOF_SYM 0 0);
    if negb (tb_symtab t =? 0) && negb (tb_strtab t =? 0) && negb (tb_strsz t =? 0) &&
       (tb_syment t >=? SIZEOF_SYM) then Ok t else Err.

Record version_tables : Type := MkVersions {
  vt_versym : Z;
  vt_verdef : Z;
  vt_verdef_num : Z;
  vt_verneed : Z;
  vt_verneed_num : Z;
}.

Definition version_table_entry (tag value : Z) (t : version_tables) : version_tables :=
  let '(MkVersions versym verdef verdef_num verneed verneed_num) := t in
  if tag =? DT_VERSYM then MkVersions value verdef verdef_num verneed verneed_num
  else if tag =? DT_VERDEF then MkVersions versym value verdef_num verneed verneed_num
  else if tag =? DT_VERDEFNUM then MkVersions versym verdef value verneed verneed_num
  else if tag =? DT_VERNEED then MkVersions versym verdef verdef_num value verneed_num
  else if tag =? DT_VERNEEDNUM then MkVersions versym verdef verdef_num verneed value
  else t.

Definition dynamic_version_table_info (program : poly_program) (img : image)
    : outcome version_tables :=
  if dynamic_size program =? 0 then Ok (MkVersions 0 0 0 0 0)
  else dyn_loop (dyn_count program) 0 program img version_table_entry (MkVersions 0 0 0 0 0).

(** ** Safety *)

(** What the loader establishes before it reads an image: the image has the
    size it says, within the limit, and the dynamic section lies inside. *)
Record wf_elf (p : poly_program) (img : image) : Prop := {
  we_bytes : wf_image img;
  we_size : size_of img = code_size p;
  we_limit : code_size p <= MAX_PROGRAM_BYTES;
  we_base : 0 <= base_vaddr p;
  we_dyn : 0 <= dynamic_offset p /\ 0 <= dynamic_size p /\
           dynamic_offset p + dynamic_size p <= code_size p;
}.

Lemma vaddr_returns (p : poly_program) (v n : Z) : returns (elf_vaddr_to_image_offset p v n).
Proof. unfold elf_vaddr_to_image_offset. destruct_ifs; auto with poly. Qed.

Lemma vaddr_inside (p : poly_program) (v n off : Z) :
  elf_vaddr_to_image_offset p v n = Ok off ->
  0 <= off /\ off + n <= code_size p /\ off = v - base_vaddr p.
Proof.
  unfold elf_vaddr_to_image_offset. destruct_ifs; intros; simplify_eq. breflect. lia.
Qed.

Lemma we_size_nonneg (p : poly_program) (img : image) : wf_elf p img -> 0 <= code_size p.
Proof. intros H. rewrite <- (we_size _ _ H). unfold size_of. lia. Qed.

(** A checked virtual address, then a step that is safe for every offset the
    check lets through. *)
Lemma vaddr_bind_returns {A} (p : poly_program) (v n : Z) (f : Z -> outcome A) :
  (forall off, 0 <= off -> off + n <= code_size p -> returns (f off)) ->
  returns (elf_vaddr_to_image_offset p v n ≫= f).
Proof.
  intros Hf. apply bind_returns; [apply vaddr_returns|].
  intros off (H1 & H2 & _)%vaddr_inside. by apply Hf.
Qed.

Lemma read_sym_inside (p : poly_program) (img : image) (off : Z) :
  wf_elf p img -> 0 <= off -> off + SIZEOF_SYM <= code_size p ->
  exists sym, read_sym img off = Ok sym.
Proof.
  intros [Hb Hs _ _ _] H0 H1. unfold SIZEOF_SYM in H1. unfold read_sym.
  destruct (read_u32_inside img off Hb ltac:(lia) ltac:(lia)) as (? & -> & _).
  destruct (read_u8_inside img (off + 4) Hb ltac:(lia) ltac:(lia)) as (? & -> & _).
  destruct (read_u8_inside img (off + 5) Hb ltac:(lia) ltac:(lia)) as (? & -> & _).
  destruct (read_u16_inside img (off + 6) Hb ltac:(lia) ltac:(lia)) as (? & -> & _).
  destruct (read_u64_inside img (off + 8) Hb ltac:(lia) ltac:(lia)) as (? & -> & _).
  destruct (read_u64_inside img (off + 16) Hb ltac:(lia) ltac:(lia)) as (? & -> & _).
  by eexists.
Qed.

(** Walking a chain ends, stays inside, and only raises the count up to the
    number of symbols that fit. *)
Lemma chain_loop_safe (p : poly_program) (img : image) (chains symoff maxs : Z) :
  wf_elf p img -> 0 <= chains -> 0 <= symoff -> maxs < 2 ^ 32 ->
  forall fuel index count,
  symoff <= index < maxs -> count <= maxs ->
  (1 <= fuel)%nat -> code_size p < chains + (index - symoff) * 4 + Z.of_nat fuel ->
  returns (chain_loop fuel p img chains symoff maxs index count) /\
  (forall c, chain_loop fuel p img chains symoff maxs index count = Ok c -> count <= c <= maxs).
Proof.
  intros He Hc Hs Hm. induction fuel as [|fuel IH]; intros index count Hi Hcnt Hf Hfuel; [lia|].
  cbn [chain_loop]. rewrite (wrap_small 32 (index - symoff)) by (unfold in_width; lia).
  destruct (_ || _) eqn:E; [done|]. breflect.
  destruct (read_u32_inside img (chains + (index - symoff) * 4)) as (chain & -> & _);
    [apply He|lia|rewrite (we_size _ _ He); lia|]. cbn [mbind outcome_bind].
  set (count' := if index + 1 >? count then index + 1 else count).
  assert (count <= count' <= maxs) as Hc'.
  { subst count'. rewrite Z.gtb_ltb. destruct (Z.ltb_spec count (index + 1)); lia. }
  destruct (negb _); [split; [auto with poly|intros c [= <-]; done]|].
  rewrite (wrap_small 32 (index + 1)) by (unfold in_width; lia).
  rewrite Z.geb_leb. destruct (Z.leb_spec maxs (index + 1)); [done|].
  destruct (IH (index + 1) count') as [Hr Hb]; [lia|lia|lia|lia|].
  split; [done|]. intros c Hcc. specialize (Hb c Hcc). lia.
Qed.

Lemma bucket_loop_safe (p : poly_program) (img : image) (buckets chains symoff maxs : Z) :
  wf_elf p img -> 0 <= chains -> 0 <= symoff -> maxs < 2 ^ 32 -> 0 <= buckets ->
  forall k n count,
  0 <= n -> buckets + (n + Z.of_nat k) * 4 <= code_size p -> count <= maxs ->
  returns (bucket_loop k n p img buckets chains symoff maxs count) /\
  (forall c, bucket_loop k n p img buckets chains symoff maxs count = Ok c -> count <= c <= maxs).
Proof.
  intros He Hc Hs Hm Hb. induction k as [|k IH]; intros n count Hn Hin Hcnt; cbn [bucket_loop].
  { split; [auto with poly|]. intros c [= <-]. lia. }
  destruct (read_u32_inside img (buckets + n * 4)) as (index & -> & Hix);
    [apply He|lia|rewrite (we_size _ _ He); lia|]. cbn [mbind outcome_bind].
  destruct (index =? 0); [apply IH; lia|].
  destruct (_ || _) eqn:E; [done|]. breflect. unfold in_width in Hix.
  destruct (chain_loop_safe p img chains symoff maxs He Hc Hs Hm (chain_fuel p) index count)
    as [Hr Hbd]; [lia|lia|unfold chain_fuel; lia|unfold chain_fuel;
      pose proof (we_size_nonneg _ _ He); lia|].
  destruct (chain_loop _ _ _ _ _ _ _ _) as [c1| | |]; cbn [mbind outcome_bind]; try done.
  specialize (Hbd c1 eq_refl).
  destruct (IH (n + 1) c1) as [Hr2 Hb2]; [lia|lia|lia|].
  split; [done|]. intros c Hcc. specialize (Hb2 c Hcc). lia.
Qed.

(** The symbol count: the reader returns, a count is between 1 and 4096, and
    a count from DT_GNU_HASH also fits the image after the symbol table. *)
Lemma symbol_count_safe (p : poly_program) (img : image) (symtab syment hash gnu : Z) :
  wf_elf p img -> SIZEOF_SYM <= syment ->
  returns (dynamic_symbol_count_from_hash p img symtab syment hash gnu) /\
  (forall c, dynamic_symbol_count_from_hash p img symtab syment hash gnu = Ok c ->
     1 <= c <= MAX_SYMBOLS /\ (hash = 0 -> c * syment <= code_size p)).
Proof.
  unfold SIZEOF_SYM. intros He Hsy. unfold dynamic_symbol_count_from_hash.
  pose proof (we_size_nonneg _ _ He) as Hcs0. pose proof (we_limit _ _ He) as Hlim.
  pose proof (we_size _ _ He) as Hsz. pose proof (we_bytes _ _ He) as Hby.
  destruct (Z.eqb_spec hash 0) as [Hh|Hh]; cbn [negb].
  - destruct (gnu =? 0); [done|].
    destruct (elf_vaddr_to_image_offset p symtab syment) as [so| | |] eqn:Es; try (by split);
      [|by destruct (vaddr_returns p symtab syment)..].
    apply vaddr_inside in Es as (Hso & Hso2 & _). cbn [mbind outcome_bind].
    destruct (elf_vaddr_to_image_offset p gnu 16) as [ho| | |] eqn:Eh; try (by split);
      [|by destruct (vaddr_returns p gnu 16)..].
    apply vaddr_inside in Eh as (Hho & Hho2 & _). cbn [mbind outcome_bind].
    destruct (read_u32_inside img ho Hby ltac:(lia) ltac:(lia)) as (nb & -> & Hnb).
    destruct (read_u32_inside img (ho + 4) Hby ltac:(lia) ltac:(lia)) as (sy & -> & Hsyo).
    destruct (read_u32_inside img (ho + 8) Hby ltac:(lia) ltac:(lia)) as (bl & -> & Hbl).
    cbn [mbind outcome_bind]. unfold in_width in Hnb, Hsyo, Hbl.
    destruct (_ || _); [done|]. destruct (_ || _) eqn:E1; [done|].
    destruct (_ || (_ <? sy)) eqn:E2; [done|]. breflect.
    set (maxs := (code_size p - so) / syment) in *.
    assert (maxs * syment <= code_size p - so) as Hmx.
    { unfold maxs. rewrite Z.mul_comm. apply Z.mul_div_le. lia. }
    assert (0 <= maxs) by (apply Z.div_pos; lia).
    assert (maxs < 2 ^ 32) by (unfold MAX_PROGRAM_BYTES in Hlim; nia).
    destruct (bucket_loop_safe p img (ho + 16 + bl * 8) (ho + 16 + bl * 8 + nb * 4) sy maxs He
      ltac:(lia) ltac:(lia) ltac:(done) ltac:(lia) (Z.to_nat nb) 0 sy) as [Hr Hb];
      [lia|rewrite Z2Nat.id by lia; lia|lia|].
    destruct (bucket_loop _ _ _ _ _ _ _ _ _) as [c| | |]; cbn [mbind outcome_bind]; try done.
    specialize (Hb c eq_refl). unfold MAX_SYMBOLS in *. destruct (_ && _) eqn:E3; [|done]. breflect.
    split; [auto with poly|]. intros c' [= <-]. split; [lia|]. intros _. nia.
  - destruct (elf_vaddr_to_image_offset p hash 8) as [ho| | |] eqn:Eh; try (by split);
      [|by destruct (vaddr_returns p hash 8)..].
    apply vaddr_inside in Eh as (Hho & Hho2 & _). cbn [mbind outcome_bind].
    destruct (read_u32_inside img (ho + 4) Hby ltac:(lia) ltac:(lia)) as (c & -> & Hc).
    cbn [mbind outcome_bind]. unfold in_width in Hc.
    destruct (_ && _) eqn:E3; [|done]. breflect. split; [auto with poly|].
    intros c' [= <-]. split; [lia|done].
Qed.

(** The size product cannot wrap: either it is bounded by the image (GNU hash)
    or the entry size is small enough for 4096 symbols. *)
Definition sane_syment (syment hash : Z) : Prop :=
  SIZEOF_SYM <= syment /\ (hash <> 0 -> syment < 2 ^ 52).

Lemma symtab_inside (p : poly_program) (img : image) (symtab syment hash gnu c off i : Z) :
  wf_elf p img -> sane_syment syment hash ->
  dynamic_symbol_count_from_hash p img symtab syment hash gnu = Ok c ->
  symtab_range p symtab c syment = Ok off -> 0 <= i < c ->
  0 <= sym_offset off i syment /\ sym_offset off i syment + SIZEOF_SYM <= code_size p /\
  sym_offset off i syment = off + i * syment.
Proof.
  intros He [Hs1 Hs2] Hc Hoff Hi. pose proof (we_limit _ _ He) as Hlim.
  destruct (symbol_count_safe p img symtab syment hash gnu He Hs1) as [_ Hcnt].
  destruct (Hcnt c Hc) as [Hc1 Hc2]. unfold symtab_range in Hoff.
  unfold SIZEOF_SYM, MAX_SYMBOLS, MAX_PROGRAM_BYTES in *.
  assert (0 <= c * syment < 2 ^ 64) as Hw.
  { split; [nia|]. destruct (Z.eq_dec hash 0) as [Hh|Hh]; [specialize (Hc2 Hh); lia|].
    specialize (Hs2 Hh). assert (c * syment <= 4096 * (2 ^ 52 - 1)) by nia. lia. }
  rewrite (wrap_small 64) in Hoff by done. apply vaddr_inside in Hoff as (Ho1 & Ho2 & _).
  assert (i * syment + syment <= c * syment) by nia.
  unfold sym_offset. rewrite wrap_small by (unfold in_width; lia). lia.
Qed.

(** The common prefix of the readers by index: what follows may read the
    symbol. *)
Lemma indexed_returns {A} (p : poly_program) (img : image) (symtab syment hash gnu index : Z)
    (k : Z -> outcome A) :
  wf_elf p img -> sane_syment syment hash -> 0 <= index ->
  (forall off sym, read_sym img (sym_offset off index syment) = Ok sym -> returns (k off)) ->
  returns (symbol_count ← dynamic_symbol_count_from_hash p img symtab syment hash gnu;
           if index >=? symbol_count then Err
           else symtab_offset ← symtab_range p symtab symbol_count syment; k symtab_offset).
Proof.
  intros He Hs Hi Hk. apply bind_returns; [by apply symbol_count_safe, Hs|]. intros c Hc.
  rewrite Z.geb_leb. destruct (Z.leb_spec c index); [auto with poly|].
  apply bind_returns; [apply vaddr_returns|]. intros off Hoff.
  destruct (symtab_inside p img symtab syment hash gnu c off index He Hs Hc Hoff ltac:(lia))
    as (H1 & H2 & _).
  destruct (read_sym_inside p img _ He H1 H2) as [sym Hsym]. by eapply Hk.
Qed.

(** ** The dynamic section *)

Lemma dyn_loop_safe {A} (p : poly_program) (img : image) (f : Z -> Z -> A -> A) :
  wf_elf p img -> forall k n acc,
  0 <= n -> (n + Z.of_nat k) * SIZEOF_DYN <= dynamic_size p ->
  exists r, dyn_loop k n p img f acc = Ok r.
Proof.
  unfold SIZEOF_DYN. intros He. destruct (we_dyn _ _ He) as (Hd0 & Hd1 & Hd2).
  pose proof (we_size _ _ He) as Hsz. pose proof (we_bytes _ _ He) as Hby.
  induction k as [|k IH]; intros n acc Hn Hin; cbn [dyn_loop]; [by eexists|].
  unfold SIZEOF_DYN.
  destruct (read_u64_inside img (dynamic_offset p + n * 16) Hby ltac:(lia) ltac:(lia)) as (? & -> & _).
  destruct (read_u64_inside img (dynamic_offset p + n * 16 + 8) Hby ltac:(lia) ltac:(lia))
    as (? & -> & _).
  cbn [mbind outcome_bind]. apply IH; lia.
Qed.

Lemma dyn_count_inside (p : poly_program) (img : image) :
  wf_elf p img -> (0 + Z.of_nat (dyn_count p)) * SIZEOF_DYN <= dynamic_size p.
Proof.
  intros He. destruct (we_dyn _ _ He) as (_ & Hd & _). unfold dyn_count, SIZEOF_DYN.
  assert (0 <= dynamic_size p / 16) by (apply Z.div_pos; lia).
  rewrite Z2Nat.id, Z.add_0_l by done. rewrite Z.mul_comm. apply Z.mul_div_le. lia.
Qed.

Lemma symbol_table_info_safe (p : poly_program) (img : image) :
  wf_elf p img -> returns (dynamic_symbol_table_info p img) /\
  (forall t, dynamic_symbol_table_info p img = Ok t ->
     tb_symtab t <> 0 /\ tb_strtab t <> 0 /\ tb_strsz t <> 0 /\ SIZEOF_SYM <= tb_syment t).
Proof.
  intros He. unfold dynamic_symbol_table_info. destruct (_ =? 0); [done|].
  destruct (dyn_loop_safe p img symbol_table_entry He (dyn_count p) 0 (MkTables 0 0 0 SIZEOF_SYM 0 0)
    ltac:(lia) (dyn_count_inside p img He)) as [t ->]. cbn [mbind outcome_bind].
  destruct (_ && _) eqn:E; [|done]. breflect. split; [auto with poly|]. intros t' [= <-]. done.
Qed.

Lemma version_table_info_safe (p : poly_program) (img : image) :
  wf_elf p img -> exists t, dynamic_version_table_info p img = Ok t.
Proof.
  intros He. unfold dynamic_version_table_info. destruct (_ =? 0); [by eexists|].
  apply (dyn_loop_safe p img version_table_entry He); [lia|]. by apply (dyn_count_inside p img).
Qed.

(** ** Properties *)

(** In each architecture the relocation classes that the loader tells
    apart (none, relative, symbolic, indirect, thread-local, copy) have no type
    in common, so the order in which it tests them does not matter. *)
Theorem reloc_classes_disjoint (arch type : Z) :
  arch = POLY_ARCH_X86 \/ arch = POLY_ARCH_AARCH64 \/ arch = POLY_ARCH_RISCV ->
  let classes := [bool_decide (type = none_reloc_type_for_arch arch);
                  bool_decide (type = relative_reloc_type_for_arch arch);
                  symbolic_64_reloc_type_for_arch arch type;
                  bool_decide (type = irelative_reloc_type_for_arch arch);
                  bool_decide (type = tls_tprel_reloc_type_for_arch arch);
                  bool_decide (type = copy_reloc_type_for_arch arch)] in
  (length (List.filter id classes) <= 1)%nat.
Proof.
  intros Ha. assert (forall k, bool_decide (type = k) = (type =? k)) as Hd.
  { intros k. destruct (Z.eqb_spec type k); by case_bool_decide. }
  cbv zeta. rewrite !Hd.
  destruct Ha as [->|[->| ->]]; unfold none_reloc_type_for_arch, relative_reloc_type_for_arch,
    symbolic_64_reloc_type_for_arch, irelative_reloc_type_for_arch,
    tls_tprel_reloc_type_for_arch, copy_reloc_type_for_arch;
    cbn -[Z.eqb]; simpl (_ =? POLY_ARCH_AARCH64); simpl (_ =? POLY_ARCH_RISCV);
    simpl (_ =? POLY_ARCH_X86); cbv iota;
    repeat match goal with
    | |- context [type =? ?k] => destruct (Z.eqb_spec type k) as [->|]; [cbn; lia|]
    end; cbn; lia.
Qed.

(** The symbol readers never access memory outside the image and always
    return, for every image of at most 128 MiB and every symbol index, provided
    the symbol entry size is at least 24 and, when the count comes from DT_HASH,
    below 2^52; a symbol they return lies inside the image, and its name starts
    inside the string table. *)
Theorem symbol_reads_in_bounds (p : poly_program) (img : image)
    (symtab strtab strsz syment hash gnu index : Z) :
  wf_elf p img -> sane_syment syment hash -> 0 <= index ->
  returns (resolve_same_image_reloc_symbol p img symtab syment hash gnu index) /\
  returns (dynamic_symbol_by_index p img symtab strtab strsz syment hash gnu index) /\
  returns (dynamic_symbol_name_by_index p img symtab strtab strsz syment hash gnu index) /\
  (forall sym name, dynamic_symbol_by_index p img symtab strtab strsz syment hash gnu index =
     Ok (sym, name) ->
     exists off, elf_vaddr_to_image_offset p strtab strsz = Ok off /\
       name = off + st_name sym /\ st_name sym < strsz).
Proof.
  intros He Hs Hi.
  unfold resolve_same_image_reloc_symbol, dynamic_symbol_by_index, dynamic_symbol_name_by_index.
  split_and!.
  - destruct (_ || _); [auto with poly|]. apply indexed_returns; [done..|].
    intros off sym ->. cbn [mbind outcome_bind]. destruct_ifs; auto with poly.
  - destruct (_ || _ || _ || _); [auto with poly|]. apply indexed_returns; [done..|].
    intros off sym Hsym. apply bind_returns; [apply vaddr_returns|]. intros soff _.
    rewrite Hsym. cbn [mbind outcome_bind]. destruct_ifs; auto with poly.
  - destruct (_ || _ || _ || _); [auto with poly|]. apply indexed_returns; [done..|].
    intros off sym Hsym. apply bind_returns; [apply vaddr_returns|]. intros soff _.
    rewrite Hsym. cbn [mbind outcome_bind]. destruct_ifs; auto with poly.
  - intros sym name. destruct (_ || _ || _ || _); [done|].
    intros (c & _ & H)%bind_ok. destruct (index >=? c); [done|].
    apply bind_ok in H as (off & _ & H). apply bind_ok in H as (soff & Hso & H).
    apply bind_ok in H as (sym' & _ & H).
    destruct (st_name sym' >=? strsz) eqn:E; [done|]. simplify_eq. breflect. eauto.
Qed.

(** ** Concrete images *)

(** 88 bytes: a DT_HASH table at 8 that counts [count] symbols, and at 24 a
    symbol table whose second entry (at 48) is defined with value 4096. *)
Definition hash_image (count : Z) : image :=
  le_bytes 8 0 ++ le_bytes 4 1 ++ le_bytes 4 count ++ le_bytes 8 0 ++
  le_bytes 24 0 ++
  (le_bytes 4 1 ++ [0x12; 0] ++ le_bytes 2 7 ++ le_bytes 8 4096 ++ le_bytes 8 32) ++
  [0; 102; 111; 111; 0; 0; 0; 0] ++ le_bytes 8 0.

Definition hash_program : poly_program := MkProgramHeader 0 88 0 0 0.

Lemma hash_image_wf (count : Z) : wf_elf hash_program (hash_image count).
Proof.
  constructor; try (simpl; unfold MAX_PROGRAM_BYTES; lia); [|reflexivity].
  unfold wf_image, hash_image. rewrite !Forall_app. split_and!; try apply le_bytes_range;
    repeat constructor; unfold in_width; simpl; lia.
Qed.

Lemma reloc_classes_disjoint_witness :
  Nat.le (length (List.filter id
    [bool_decide (1026 = none_reloc_type_for_arch POLY_ARCH_AARCH64);
     bool_decide (1026 = relative_reloc_type_for_arch POLY_ARCH_AARCH64);
     symbolic_64_reloc_type_for_arch POLY_ARCH_AARCH64 1026;
     bool_decide (1026 = irelative_reloc_type_for_arch POLY_ARCH_AARCH64);
     bool_decide (1026 = tls_tprel_reloc_type_for_arch POLY_ARCH_AARCH64);
     bool_decide (1026 = copy_reloc_type_for_arch POLY_ARCH_AARCH64)])) 1.
Proof. apply (reloc_classes_disjoint POLY_ARCH_AARCH64 1026). right. left. reflexivity. Defined.

Lemma symbol_reads_in_bounds_witness :
  returns (resolve_same_image_reloc_symbol hash_program (hash_image 2) 24 24 8 0 1) /\
  resolve_same_image_reloc_symbol hash_program (hash_image 2) 24 24 8 0 1 = Ok (4096, 2).
Proof.
  split; [|vm_compute; reflexivity].
  apply (symbol_reads_in_bounds hash_program (hash_image 2) 24 72 8 24 8 0 1).
  - apply hash_image_wf.
  - unfold sane_syment, SIZEOF_SYM. lia.
  - lia.
Defined.

(** The bound on the entry size is needed: with DT_HASH, an entry size of
    2^52 and 4096 symbols, the table size wraps to 0 and passes the range check,
    and the reader accesses memory 4 PiB past the image. *)
Theorem syment_overflow_reads_outside :
  wf_elf hash_program (hash_image 4096) /\
  resolve_same_image_reloc_symbol hash_program (hash_image 4096) 24 (2 ^ 52) 8 0 1 = Fault.
Proof. split; [apply hash_image_wf|vm_compute; reflexivity]. Qed.
