(* ===== verification/ElfSymbols.v ===== *)
(** Symbol resolution in a loaded image ([tools/runtime/polyexec.c]): symbol
    versions (DT_VERSYM, DT_VERNEED, DT_VERDEF) and the searches for exported
    functions, thread-local variables and objects by name and version.

    A C string inside the image is its image offset; a name or version that is
    asked for is a list of non-zero bytes, and a null version pointer is
    [None]. *)

From S2P Require Import Prelude LoaderBase ElfImage.

Definition SIZEOF_VERNEED : Z := 16.
Definition SIZEOF_VERNAUX : Z := 16.
Definition SIZEOF_VERDEF : Z := 20.
Definition SIZEOF_VERDAUX : Z := 8.
Definition STB_GLOBAL : Z := 1.
Definition STB_WEAK : Z := 2.
Definition STV_DEFAULT : Z := 0.
Definition STV_PROTECTED : Z := 3.
Definition STT_NOTYPE : Z := 0.
Definition STT_OBJECT : Z := 1.
Definition STT_TLS : Z := 6.
Definition STT_GNU_IFUNC : Z := 10.

(** ** Symbol versions *)

Definition read_symbol_version_index (program : poly_program) (img : image)
    (versym_vaddr symbol_index : Z) : outcome Z :=
  if versym_vaddr =? 0 then Ok 0
  else
    versym_offset ← elf_vaddr_to_image_offset program versym_vaddr
                      (u64 (u64 (symbol_index + 1) * 2));
    read_u16_le img (u64 (versym_offset + symbol_index * 2)).

(** Whether [size] bytes at [off] are inside, as the loops test it. *)
Definition outside (program : poly_program) (off size : Z) : bool :=
  (off >? code_size program) || (size >? code_size program - off).

(** The inner loop over at most [k] entries: [Ok (Some name)] when the
    version is found, [Ok None] when the entries end without it. *)
Fixpoint vernaux_loop (k : nat) (program : poly_program) (img : image)
    (strtab_offset strsz version_index aux_offset : Z) : outcome (option Z) :=
  match k with
  | O => Ok None
  | S k' =>
      if outside program aux_offset SIZEOF_VERNAUX then Err
      else
        vna_other ← read_u16_le img (aux_offset + 6);
        if Z.land vna_other 0x7fff =? version_index then
          vna_name ← read_u32_le img (aux_offset + 8);
          if vna_name >=? strsz then Err else Ok (Some (strtab_offset + vna_name))
        else
          vna_next ← read_u32_le img (aux_offset + 12);
          if vna_next =? 0 then Ok None
          else vernaux_loop k' program img strtab_offset strsz version_index (aux_offset + vna_next)
  end.

(** The outer loop, with [left] records left to visit. *)
Fixpoint verneed_loop (fuel : nat) (left : Z) (program : poly_program) (img : image)
    (strtab_offset strsz version_index need_offset : Z) : outcome Z :=
  match fuel with
  | O => Spin
  | S fuel' =>
      if left <=? 0 then Err
      else if outside program need_offset SIZEOF_VERNEED then Err
      else
        vn_cnt ← read_u16_le img (need_offset + 2);
        vn_aux ← read_u32_le img (need_offset + 8);
        found ← vernaux_loop (Z.to_nat vn_cnt) program img strtab_offset strsz version_index
                  (need_offset + vn_aux);
        match found with
        | Some name => Ok name
        | None =>
            vn_next ← read_u32_le img (need_offset + 12);
            if vn_next =? 0 then Err
            else verneed_loop fuel' (left - 1) program img strtab_offset strsz version_index
                   (need_offset + vn_next)
        end
  end.

(** Each record is at a higher offset than the one before. *)
Definition record_fuel (program : poly_program) : nat := S (Z.to_nat (code_size program)).

Definition version_string_from_verneed (program : poly_program) (img : image)
    (strtab_vaddr strsz verneed_vaddr verneed_num version_index : Z) : outcome Z :=
  if (verneed_vaddr =? 0) || (verneed_num =? 0) then Err
  else
    strtab_offset ← elf_vaddr_to_image_offset program strtab_vaddr strsz;
    need_offset ← elf_vaddr_to_image_offset program verneed_vaddr SIZEOF_VERNEED;
    verneed_loop (record_fuel program) verneed_num program img strtab_offset strsz version_index
      need_offset.

Fixpoint verdef_loop (fuel : nat) (left : Z) (program : poly_program) (img : image)
    (strtab_offset strsz version_index def_offset : Z) : outcome Z :=
  match fuel with
  | O => Spin
  | S fuel' =>
      if left <=? 0 then Err
      else if outside program def_offset SIZEOF_VERDEF then Err
      else
        vd_ndx ← read_u16_le img (def_offset + 4);
        if Z.land vd_ndx 0x7fff =? version_index then
          vd_aux ← read_u32_le img (def_offset + 12);
          let aux_offset := def_offset + vd_aux in
          if outside program aux_offset SIZEOF_VERDAUX then Err
          else
            vda_name ← read_u32_le img aux_offset;
            if vda_name >=? strsz then Err else Ok (strtab_offset + vda_name)
        else
          vd_next ← read_u32_le img (def_offset + 16);
          if vd_next =? 0 then Err
          else verdef_loop fuel' (left - 1) program img strtab_offset strsz version_index
                 (def_offset + vd_next)
  end.

Definition version_string_from_verdef (program : poly_program) (img : image)
    (strtab_vaddr strsz verdef_vaddr verdef_num version_index : Z) : outcome Z :=
  if (verdef_vaddr =? 0) || (verdef_num =? 0) then Err
  else
    strtab_offset ← elf_vaddr_to_image_offset program strtab_vaddr strsz;
    def_offset ← elf_vaddr_to_image_offset program verdef_vaddr SIZEOF_VERDEF;
    verdef_loop (record_fuel program) verdef_num program img strtab_offset strsz version_index
      def_offset.

(** [None]: the relocation asks for no version. *)
Definition relocation_requested_version_name (program : poly_program) (img : image)
    (strtab_vaddr strsz symbol_index : Z) : outcome (option Z) :=
  t ← dynamic_version_table_info program img;
  if vt_versym t =? 0 then Ok None
  else
    index ← read_symbol_version_index program img (vt_versym t) symbol_index;
    let version_index := Z.land index 0x7fff in
    if version_index <=? 1 then Ok None
    else
      name ← version_string_from_verneed program img strtab_vaddr strsz (vt_verneed t)
               (vt_verneed_num t) version_index;
      Ok (Some name).

(** An error return of a callee that the caller treats as "no". *)
Definition or_false (m : outcome bool) : outcome bool :=
  match m with Err => Ok false | _ => m end.

Definition symbol_definition_matches_version (program : poly_program) (img : image)
    (strtab_vaddr strsz symbol_index : Z) (requested_version : option (list Z)) : outcome bool :=
  match requested_version with
  | None => Ok true
  | Some version =>
      t ← dynamic_version_table_info program img;
      if vt_versym t =? 0 then Ok false
      else or_false (
        index ← read_symbol_version_index program img (vt_versym t) symbol_index;
        let version_index := Z.land index 0x7fff in
        if version_index <=? 1 then Ok false
        else
          defined_version ← version_string_from_verdef program img strtab_vaddr strsz
                              (vt_verdef t) (vt_verdef_num t) version_index;
          strcmp_at img defined_version version)
  end.

(** ** Searching the symbol table *)

Definition symbol_is_dependency_export (sym : elf_sym) : bool :=
  let bind := ELF64_ST_BIND (st_info sym) in
  let visibility := ELF64_ST_VISIBILITY (st_other sym) in
  negb (st_shndx sym =? SHN_UNDEF) && ((bind =? STB_GLOBAL) || (bind =? STB_WEAK)) &&
  ((visibility =? STV_DEFAULT) || (visibility =? STV_PROTECTED)).

(** What the three searches share: the tables, and the loop that skips
    symbols that are not exported, not of an accepted type, or whose name or
    version differs. *)
Record search_tables : Type := MkSearch {
  se_tables : symbol_tables;
  se_count : Z;
  se_symtab_offset : Z;
  se_strtab_offset : Z;
}.

Definition search_setup (program : poly_program) (img : image) : outcome search_tables :=
  t ← dynamic_symbol_table_info program img;
  count ← dynamic_symbol_count_from_hash program img (tb_symtab t) (tb_syment t) (tb_hash t)
            (tb_gnu_hash t);
  symtab_offset ← symtab_range program (tb_symtab t) count (tb_syment t);
  strtab_offset ← elf_vaddr_to_image_offset program (tb_strtab t) (tb_strsz t);
  Ok (MkSearch t count symtab_offset strtab_offset).

(** One iteration: does the symbol at [index] match? *)
Definition symbol_at (img : image) (s : search_tables) (index : Z) : outcome elf_sym :=
  read_sym img (sym_offset (se_symtab_offset s) index (tb_syment (se_tables s))).

Definition symbol_matches (program : poly_program) (img : image) (s : search_tables)
    (accept : elf_sym -> bool) (symbol_name : list Z) (requested_version : option (list Z))
    (index : Z) (sym : elf_sym) : outcome bool :=
  if (st_name sym >=? tb_strsz (se_tables s)) || negb (symbol_is_dependency_export sym) ||
     negb (accept sym) then Ok false
  else
    same ← strcmp_at img (se_strtab_offset s + st_name sym) symbol_name;
    if negb same then Ok false
    else symbol_definition_matches_version program img (tb_strtab (se_tables s))
           (tb_strsz (se_tables s)) index requested_version.

Fixpoint search_loop {A} (k : nat) (index : Z) (program : poly_program) (img : image)
    (s : search_tables) (accept : elf_sym -> bool) (symbol_name : list Z)
    (requested_version : option (list Z)) (found : elf_sym -> outcome A) : outcome A :=
  match k with
  | O => Err
  | S k' =>
      sym ← symbol_at img s index;
      matches ← symbol_matches program img s accept symbol_name requested_version index sym;
      if matches : bool then found sym
      else search_loop k' (index + 1) program img s accept symbol_name requested_version found
  end.

Definition search {A} (program : poly_program) (img : image) (accept : elf_sym -> bool)
    (symbol_name : list Z) (requested_version : option (list Z)) (found : elf_sym -> outcome A)
    : outcome A :=
  s ← search_setup program img;
  search_loop (Z.to_nat (se_count s)) 0 program img s accept symbol_name requested_version found.

Record resolved : Type := MkResolved {
  rs_value : Z;
  rs_type : Z;
  rs_ifunc_resolver : Z;
}.

(** [image_address] is where the image is mapped; [has_ifunc_out] says that
    the caller passes a pointer for the resolver's address. *)
Definition resolve_loaded_program_symbol_ex (program : poly_program) (img : image)
    (image_address : Z) (has_ifunc_out : bool) (symbol_name : list Z)
    (requested_version : option (list Z)) : outcome resolved :=
  search program img (fun _ => true) symbol_name requested_version (fun sym =>
    let type := ELF64_ST_TYPE (st_info sym) in
    if (type =? STT_GNU_IFUNC) && negb has_ifunc_out then Err
    else if type =? STT_GNU_IFUNC then Ok (MkResolved 0 type (st_value sym))
    else Ok (MkResolved (u64 (image_address - base_vaddr program + st_value sym)) type 0)).

Definition resolve_loaded_program_tls_symbol_ex (program : poly_program) (img : image)
    (symbol_name : list Z) (requested_version : option (list Z)) : outcome Z :=
  search program img (fun sym => ELF64_ST_TYPE (st_info sym) =? STT_TLS) symbol_name
    requested_version (fun sym => Ok (u64 (tls_offset program + st_value sym))).

Definition resolve_loaded_program_object_symbol_ex (program : poly_program) (img : image)
    (symbol_name : list Z) (requested_version : option (list Z)) : outcome (Z * Z) :=
  search program img
    (fun sym => negb (negb (ELF64_ST_TYPE (st_info sym) =? STT_OBJECT) &&
                      negb (ELF64_ST_TYPE (st_info sym) =? STT_NOTYPE)))
    symbol_name requested_version (fun sym => Ok (st_value sym, st_size sym)).

(** ** Safety of the version tables *)

Lemma outside_false (p : poly_program) (off size : Z) :
  outside p off size = false -> off + size <= code_size p.
Proof. unfold outside. intros. breflect. lia. Qed.

(** The offset of a string that starts inside the string table. *)
Definition in_strtab (strtab_offset strsz n : Z) : Prop :=
  strtab_offset <= n < strtab_offset + strsz.

(** Read a field of a record that was tested to be inside. *)
Ltac field_read He rd off :=
  let H := fresh "Hfield" in
  pose proof (rd _ off (we_bytes _ _ He)) as H;
  rewrite (we_size _ _ He) in H;
  destruct H as (? & -> & ?); [lia|lia|]; cbn [mbind outcome_bind].

Lemma vernaux_loop_safe (p : poly_program) (img : image) (so strsz vi : Z) :
  wf_elf p img -> 0 <= so -> forall k aux, 0 <= aux ->
  returns (vernaux_loop k p img so strsz vi aux) /\
  (forall n, vernaux_loop k p img so strsz vi aux = Ok (Some n) -> in_strtab so strsz n).
Proof.
  intros He Hso. induction k as [|k IH]; intros aux Ha; cbn [vernaux_loop]; [done|].
  destruct (outside p aux SIZEOF_VERNAUX) eqn:Ho; [done|].
  apply outside_false in Ho. unfold SIZEOF_VERNAUX in Ho.
  field_read He @read_u16_inside (aux + 6).
  destruct (_ =? vi).
  - field_read He @read_u32_inside (aux + 8). rewrite Z.geb_leb.
    destruct (Z.leb_spec strsz x0); [done|]. split; [auto with poly|].
    intros n [= <-]. unfold in_strtab, in_width in *. lia.
  - field_read He @read_u32_inside (aux + 12). destruct (_ =? 0); [done|].
    apply IH. unfold in_width in *. lia.
Qed.

Lemma verneed_loop_safe (p : poly_program) (img : image) (so strsz vi : Z) :
  wf_elf p img -> 0 <= so -> forall fuel left off,
  0 <= off -> (1 <= fuel)%nat -> code_size p < off + Z.of_nat fuel ->
  returns (verneed_loop fuel left p img so strsz vi off) /\
  (forall n, verneed_loop fuel left p img so strsz vi off = Ok n -> in_strtab so strsz n).
Proof.
  intros He Hso. induction fuel as [|fuel IH]; intros left off Ho Hf Hfuel; [lia|].
  cbn [verneed_loop]. destruct (left <=? 0); [done|].
  destruct (outside p off SIZEOF_VERNEED) eqn:Hout; [done|].
  apply outside_false in Hout. unfold SIZEOF_VERNEED in Hout.
  field_read He @read_u16_inside (off + 2). field_read He @read_u32_inside (off + 8).
  unfold in_width in *.
  destruct (vernaux_loop_safe p img so strsz vi He Hso (Z.to_nat x) (off + x0) ltac:(lia)) as [Hr Hn].
  destruct (vernaux_loop _ _ _ _ _ _ _) as [[n|]| | |]; cbn [mbind outcome_bind];
    [| |by split|by destruct Hr..].
  - split; [auto with poly|]. intros n' [= <-]. by apply Hn.
  - field_read He @read_u32_inside (off + 12). unfold in_width in *.
    destruct (Z.eqb_spec x1 0); [done|]. apply IH; lia.
Qed.

Lemma verdef_loop_safe (p : poly_program) (img : image) (so strsz vi : Z) :
  wf_elf p img -> 0 <= so -> forall fuel left off,
  0 <= off -> (1 <= fuel)%nat -> code_size p < off + Z.of_nat fuel ->
  returns (verdef_loop fuel left p img so strsz vi off) /\
  (forall n, verdef_loop fuel left p img so strsz vi off = Ok n -> in_strtab so strsz n).
Proof.
  intros He Hso. induction fuel as [|fuel IH]; intros left off Ho Hf Hfuel; [lia|].
  cbn [verdef_loop]. destruct (left <=? 0); [done|].
  destruct (outside p off SIZEOF_VERDEF) eqn:Hout; [done|].
  apply outside_false in Hout. unfold SIZEOF_VERDEF in Hout.
  field_read He @read_u16_inside (off + 4). unfold in_width in *.
  destruct (_ =? vi).
  - field_read He @read_u32_inside (off + 12). unfold in_width in *.
    destruct (outside p (off + x0) SIZEOF_VERDAUX) eqn:Hout2; [done|].
    apply outside_false in Hout2. unfold SIZEOF_VERDAUX in Hout2.
    field_read He @read_u32_inside (off + x0). unfold in_width in *. rewrite Z.geb_leb.
    destruct (Z.leb_spec strsz x1); [done|]. split; [auto with poly|].
    intros n [= <-]. unfold in_strtab. lia.
  - field_read He @read_u32_inside (off + 16). unfold in_width in *.
    destruct (Z.eqb_spec x0 0); [done|]. apply IH; lia.
Qed.

Lemma record_fuel_enough (p : poly_program) (img : image) (off : Z) :
  wf_elf p img -> 0 <= off ->
  (1 <= record_fuel p)%nat /\ code_size p < off + Z.of_nat (record_fuel p).
Proof. intros He Ho. pose proof (we_size_nonneg _ _ He). unfold record_fuel. lia. Qed.

Lemma verdef_safe (p : poly_program) (img : image) (strtab strsz verdef num vi : Z) :
  wf_elf p img -> returns (version_string_from_verdef p img strtab strsz verdef num vi) /\
  (forall n, version_string_from_verdef p img strtab strsz verdef num vi = Ok n ->
     exists so, elf_vaddr_to_image_offset p strtab strsz = Ok so /\ in_strtab so strsz n).
Proof.
  intros He. unfold version_string_from_verdef. destruct (_ || _); [done|].
  destruct (elf_vaddr_to_image_offset p strtab strsz) as [so| | |] eqn:Es; try (by split);
    [|by destruct (vaddr_returns p strtab strsz)..].
  pose proof (vaddr_inside _ _ _ _ Es) as (Hso & _).
  destruct (elf_vaddr_to_image_offset p verdef SIZEOF_VERDEF) as [off| | |] eqn:Eo; try (by split);
    [|by destruct (vaddr_returns p verdef SIZEOF_VERDEF)..].
  pose proof (vaddr_inside _ _ _ _ Eo) as (Hoff & _). cbn [mbind outcome_bind].
  destruct (record_fuel_enough p img off He Hoff) as [H1 H2].
  destruct (verdef_loop_safe p img so strsz vi He Hso (record_fuel p) num off Hoff H1 H2) as [Hr Hn].
  split; [done|]. intros n Hnn. exists so. split; [done|by apply Hn].
Qed.

Lemma verneed_safe (p : poly_program) (img : image) (strtab strsz verneed num vi : Z) :
  wf_elf p img -> returns (version_string_from_verneed p img strtab strsz verneed num vi) /\
  (forall n, version_string_from_verneed p img strtab strsz verneed num vi = Ok n ->
     exists so, elf_vaddr_to_image_offset p strtab strsz = Ok so /\ in_strtab so strsz n).
Proof.
  intros He. unfold version_string_from_verneed. destruct (_ || _); [done|].
  destruct (elf_vaddr_to_image_offset p strtab strsz) as [so| | |] eqn:Es; try (by split);
    [|by destruct (vaddr_returns p strtab strsz)..].
  pose proof (vaddr_inside _ _ _ _ Es) as (Hso & _).
  destruct (elf_vaddr_to_image_offset p verneed SIZEOF_VERNEED) as [off| | |] eqn:Eo; try (by split);
    [|by destruct (vaddr_returns p verneed SIZEOF_VERNEED)..].
  pose proof (vaddr_inside _ _ _ _ Eo) as (Hoff & _). cbn [mbind outcome_bind].
  destruct (record_fuel_enough p img off He Hoff) as [H1 H2].
  destruct (verneed_loop_safe p img so strsz vi He Hso (record_fuel p) num off Hoff H1 H2) as [Hr Hn].
  split; [done|]. intros n Hnn. exists so. split; [done|by apply Hn].
Qed.

Lemma version_index_safe (p : poly_program) (img : image) (versym index : Z) :
  wf_elf p img -> 0 <= index < 2 ^ 62 ->
  returns (read_symbol_version_index p img versym index).
Proof.
  intros He Hi. unfold read_symbol_version_index. destruct (_ =? 0); [done|].
  rewrite (wrap_small 64 (index + 1)) by (unfold in_width; lia).
  rewrite (wrap_small 64 ((index + 1) * 2)) by (unfold in_width; lia).
  apply vaddr_bind_returns. intros off H0 H1. pose proof (we_limit _ _ He) as Hl.
  unfold MAX_PROGRAM_BYTES in Hl.
  rewrite (wrap_small 64 (off + index * 2)) by (unfold in_width; lia).
  destruct (read_u16_inside img (off + index * 2)) as (v & -> & _);
    [apply He|lia|rewrite (we_size _ _ He); lia|auto with poly].
Qed.

(** ** Strings *)

Definition no_nul (s : list Z) : Prop := Forall (fun c => c <> NUL) s.

(** Comparing stops at the latest at a NUL byte. *)
Lemma strcmp_at_safe (img : image) (last : Z) :
  wf_image img -> last < size_of img -> read_u8 img last = Ok NUL ->
  forall s off, no_nul s -> 0 <= off <= last -> returns (strcmp_at img off s).
Proof.
  intros Hi Hl Hnul. induction s as [|c s IH]; intros off Hs Ho; cbn [strcmp_at];
    destruct (read_u8_inside img off Hi ltac:(lia) ltac:(lia)) as (b & Hb & _); rewrite Hb;
    cbn [mbind outcome_bind]; [auto with poly|].
  apply Forall_cons_1 in Hs as [Hc Hs].
  destruct (Z.eqb_spec b c) as [->|]; cbn [negb]; [|auto with poly].
  apply IH; [done|]. destruct (Z.eq_dec off last) as [->|]; [|lia].
  exfalso. apply Hc. congruence.
Qed.

(** The C string at [off] is [s]. *)
Fixpoint string_at (img : image) (off : Z) (s : list Z) : Prop :=
  match s with
  | [] => read_u8 img off = Ok NUL
  | c :: s' => read_u8 img off = Ok c /\ string_at img (off + 1) s'
  end.

Lemma strcmp_at_true (img : image) (s : list Z) : forall off,
  strcmp_at img off s = Ok true <-> string_at img off s.
Proof.
  induction s as [|c s IH]; intros off; cbn [strcmp_at string_at];
    (destruct (read_u8 img off) as [b| | |]; cbn [mbind outcome_bind]; [|intuition congruence..]).
  - destruct (Z.eqb_spec b NUL); intuition congruence.
  - destruct (Z.eqb_spec b c) as [->|]; cbn [negb]; [|intuition congruence].
    rewrite IH. intuition congruence.
Qed.

(** The string table ends with a NUL byte. *)
Definition strtab_terminated (p : poly_program) (img : image) (strtab strsz : Z) : Prop :=
  forall so, elf_vaddr_to_image_offset p strtab strsz = Ok so ->
  read_u8 img (so + strsz - 1) = Ok NUL.

Lemma strcmp_in_strtab (p : poly_program) (img : image) (strtab strsz so n : Z) (s : list Z) :
  wf_elf p img -> strtab_terminated p img strtab strsz ->
  elf_vaddr_to_image_offset p strtab strsz = Ok so -> in_strtab so strsz n -> no_nul s ->
  returns (strcmp_at img n s).
Proof.
  intros He Ht Hso Hn Hs. pose proof (vaddr_inside _ _ _ _ Hso) as (H0 & H1 & _).
  unfold in_strtab in Hn.
  apply (strcmp_at_safe img (so + strsz - 1)); [apply He|rewrite (we_size _ _ He); lia
    |by apply Ht|done|lia].
Qed.

Lemma matches_version_safe (p : poly_program) (img : image) (strtab strsz index : Z)
    (version : option (list Z)) :
  wf_elf p img -> strtab_terminated p img strtab strsz -> 0 <= index < 2 ^ 62 ->
  (forall v, version = Some v -> no_nul v) ->
  exists b, symbol_definition_matches_version p img strtab strsz index version = Ok b.
Proof.
  intros He Ht Hi Hv. unfold symbol_definition_matches_version.
  destruct version as [v|]; [|by eexists].
  destruct (version_table_info_safe p img He) as [t ->]. cbn [mbind outcome_bind].
  destruct (vt_versym t =? 0); [by eexists|].
  enough (returns (vi ← read_symbol_version_index p img (vt_versym t) index;
     let version_index := Z.land vi 0x7fff in
     if version_index <=? 1 then Ok false
     else
       defined_version ← version_string_from_verdef p img strtab strsz
                           (vt_verdef t) (vt_verdef_num t) version_index;
       strcmp_at img defined_version v)) as [H1 H2].
  { unfold or_false. destruct (mbind _ _); try done; by eexists. }
  apply bind_returns; [by apply version_index_safe|]. intros vi _. cbv zeta.
  destruct (_ <=? 1); [auto with poly|].
  destruct (verdef_safe p img strtab strsz (vt_verdef t) (vt_verdef_num t) (Z.land vi 32767) He)
    as [Hr Hn].
  apply bind_returns; [done|]. intros n Hnn. destruct (Hn n Hnn) as (so & Hso & Hin).
  eapply (strcmp_in_strtab p img strtab strsz so); eauto.
Qed.

(** ** The searches *)

(** A file whose tables the searches can walk safely: the entry size does not
    make the table size wrap, and the string table is terminated. *)
Definition sane_tables (p : poly_program) (img : image) : Prop :=
  forall t, dynamic_symbol_table_info p img = Ok t ->
  sane_syment (tb_syment t) (tb_hash t) /\ strtab_terminated p img (tb_strtab t) (tb_strsz t).

(** What a successful setup gives. *)
Record search_ok (p : poly_program) (img : image) (s : search_tables) : Prop := {
  so_count : 1 <= se_count s <= MAX_SYMBOLS;
  so_syms : forall i, 0 <= i < se_count s -> exists sym, symbol_at img s i = Ok sym;
  so_strtab : elf_vaddr_to_image_offset p (tb_strtab (se_tables s)) (tb_strsz (se_tables s)) =
              Ok (se_strtab_offset s);
  so_term : strtab_terminated p img (tb_strtab (se_tables s)) (tb_strsz (se_tables s));
}.

Lemma search_setup_safe (p : poly_program) (img : image) :
  wf_elf p img -> sane_tables p img ->
  returns (search_setup p img) /\
  (forall s, search_setup p img = Ok s -> search_ok p img s).
Proof.
  intros He Hsane. unfold search_setup.
  destruct (symbol_table_info_safe p img He) as [Hr Ht].
  destruct (dynamic_symbol_table_info p img) as [t| | |] eqn:Et; cbn [mbind outcome_bind];
    [|by split|by destruct Hr..].
  destruct (Hsane t Et) as [Hsy Hterm].
  destruct (symbol_count_safe p img (tb_symtab t) (tb_syment t) (tb_hash t) (tb_gnu_hash t) He
    (proj1 Hsy)) as [Hrc Hc].
  destruct (dynamic_symbol_count_from_hash _ _ _ _ _ _) as [c| | |] eqn:Ec;
    cbn [mbind outcome_bind]; [|by split|by destruct Hrc..].
  destruct (symtab_range p (tb_symtab t) c (tb_syment t)) as [off| | |] eqn:Eo;
    cbn [mbind outcome_bind]; [|by split|by destruct (vaddr_returns p (tb_symtab t)
      (u64 (c * tb_syment t)))..].
  destruct (elf_vaddr_to_image_offset p (tb_strtab t) (tb_strsz t)) as [so| | |] eqn:Es;
    cbn [mbind outcome_bind]; [|by split|by destruct (vaddr_returns p (tb_strtab t) (tb_strsz t))..].
  split; [auto with poly|]. intros s [= <-]. constructor; cbn; [by apply Hc| |done|done].
  intros i Hi. unfold symbol_at. cbn.
  destruct (symtab_inside p img _ _ _ _ c off i He Hsy Ec Eo Hi) as (H1 & H2 & _).
  by apply (read_sym_inside p img).
Qed.

Lemma search_accept_ext {A} (p : poly_program) (img : image) (accept accept' : elf_sym -> bool)
    (name : list Z) (version : option (list Z)) (found : elf_sym -> outcome A) :
  (forall sym, accept sym = accept' sym) ->
  search p img accept name version found = search p img accept' name version found.
Proof.
  intros Ha. unfold search. destruct (search_setup p img) as [s| | |]; cbn [mbind outcome_bind]; try done.
  generalize 0. induction (Z.to_nat (se_count s)) as [|k IH]; intros i; cbn [search_loop]; [done|].
  destruct (symbol_at img s i) as [sym| | |]; cbn [mbind outcome_bind]; try done.
  unfold symbol_matches. rewrite Ha. by rewrite IH.
Qed.

Section Search.
Context (p : poly_program) (img : image) (He : wf_elf p img).
Context (accept : elf_sym -> bool) (name : list Z) (version : option (list Z)).
Context (Hname : no_nul name) (Hversion : forall v, version = Some v -> no_nul v).

Lemma symbol_matches_total (s : search_tables) (i : Z) (sym : elf_sym) :
  search_ok p img s -> 0 <= i < se_count s -> 0 <= st_name sym ->
  exists b, symbol_matches p img s accept name version i sym = Ok b.
Proof using He Hname Hversion.
  intros Hs Hi Hst. unfold symbol_matches. rewrite Z.geb_leb.
  destruct (_ || _) eqn:E; [by eexists|]. breflect.
  assert (returns (strcmp_at img (se_strtab_offset s + st_name sym) name)) as [Hnf Hns].
  { eapply (strcmp_in_strtab p img); [done|apply Hs|apply Hs| |done]. unfold in_strtab. lia. }
  destruct (strcmp_at _ _ _) as [b| | |] eqn:Ec; try done.
  - cbn [mbind outcome_bind]. destruct b; cbn [negb]; [|by eexists].
    apply matches_version_safe; [done|apply Hs| |done].
    pose proof (so_count _ _ _ Hs). unfold MAX_SYMBOLS in *. lia.
  - (* [strcmp] has no error return *)
    exfalso. clear -Ec. revert Ec. generalize (se_strtab_offset s + st_name sym).
    induction name as [|c l IH]; intros off; cbn [strcmp_at]; unfold read_u8, read_bytes;
      destruct (_ && _); cbn [mbind outcome_bind]; try done.
    destruct (negb _); [done|apply IH].
Qed.

Lemma symbol_at_name (s : search_tables) (i : Z) (sym : elf_sym) :
  symbol_at img s i = Ok sym -> 0 <= st_name sym.
Proof using He.
  unfold symbol_at, read_sym. intros H. apply bind_ok in H as (n & Hn & H).
  repeat (apply bind_ok in H as (? & _ & H)). simplify_eq. cbn.
  unfold read_u32_le in Hn. apply bind_ok in Hn as (bs & Hbs & Hn). simplify_eq.
  rewrite or_bytes_le by (by eapply read_bytes_wf; [apply He|]).
  by apply le_value_range, (read_bytes_wf _ _ _ _ (we_bytes _ _ He) Hbs).
Qed.

(** The index that the search stops at: the first that matches. *)
Definition first_match (s : search_tables) (i : Z) (sym : elf_sym) : Prop :=
  symbol_at img s i = Ok sym /\ symbol_matches p img s accept name version i sym = Ok true /\
  forall j, 0 <= j < i -> exists sym', symbol_at img s j = Ok sym' /\
    symbol_matches p img s accept name version j sym' = Ok false.

Lemma search_loop_spec {A} (s : search_tables) (found : elf_sym -> outcome A) :
  search_ok p img s -> forall k i,
  0 <= i -> i + Z.of_nat k = se_count s ->
  (forall j, 0 <= j < i -> exists sym', symbol_at img s j = Ok sym' /\
     symbol_matches p img s accept name version j sym' = Ok false) ->
  (exists j sym, i <= j < se_count s /\ first_match s j sym /\
     search_loop k i p img s accept name version found = found sym) \/
  ((forall j, 0 <= j < se_count s -> exists sym', symbol_at img s j = Ok sym' /\
      symbol_matches p img s accept name version j sym' = Ok false) /\
   search_loop k i p img s accept name version found = Err).
Proof using He Hname Hversion.
  intros Hs. induction k as [|k IH]; intros i Hi Hk Hprev; cbn [search_loop].
  { right. split; [|done]. intros j Hj. apply Hprev. lia. }
  destruct (so_syms _ _ _ Hs i ltac:(lia)) as [sym Hsym]. rewrite Hsym. cbn [mbind outcome_bind].
  destruct (symbol_matches_total s i sym Hs ltac:(lia) (symbol_at_name s i sym Hsym)) as [b Hb].
  rewrite Hb. cbn [mbind outcome_bind]. destruct b.
  - left. exists i, sym. split; [lia|]. split; [|done]. by split_and!.
  - destruct (IH (i + 1)) as [(j & sym' & Hj & Hf)|Hnone]; [lia|lia| |left|by right].
    + intros j Hj. destruct (Z.eq_dec j i) as [->|]; [by exists sym|apply Hprev; lia].
    + exists j, sym'. split; [lia|done].
Qed.

(** The outcome of a search, in both directions: what [found] makes of the
    first match, or an error when the tables cannot be read or nothing
    matches. *)
Definition search_result {A} (found : elf_sym -> outcome A) (r : outcome A) : Prop :=
  (search_setup p img = Err /\ r = Err) \/
  exists s, search_setup p img = Ok s /\
    ((exists i sym, 0 <= i < se_count s /\ first_match s i sym /\ r = found sym) \/
     ((forall j, 0 <= j < se_count s -> exists sym', symbol_at img s j = Ok sym' /\
         symbol_matches p img s accept name version j sym' = Ok false) /\ r = Err)).

Lemma search_spec {A} (found : elf_sym -> outcome A) :
  sane_tables p img -> search_result found (search p img accept name version found).
Proof using He Hname Hversion.
  intros Hsane. unfold search, search_result. destruct (search_setup_safe p img He Hsane) as [Hr Hok].
  destruct (search_setup p img) as [s| | |]; cbn [mbind outcome_bind]; [|by left|by destruct Hr..].
  right. exists s. split; [done|]. specialize (Hok s eq_refl).
  destruct (search_loop_spec s found Hok (Z.to_nat (se_count s)) 0) as [(i & sym & Hi & Hf & ->)|H];
    [lia|pose proof (so_count _ _ _ Hok); lia|lia| |by right].
  left. by exists i, sym.
Qed.

Lemma search_result_returns {A} (found : elf_sym -> outcome A) (r : outcome A) :
  (forall sym, returns (found sym)) -> search_result found r -> returns r.
Proof using.
  intros Hf [[_ ->] | (s & _ & [(i & sym & _ & _ & ->) | [_ ->]])]; [done|apply Hf|done].
Qed.

(** What a match is: an exported, accepted symbol with that name and, when a
    version is asked for, that version. *)
Lemma symbol_matches_true (s : search_tables) (i : Z) (sym : elf_sym) :
  symbol_matches p img s accept name version i sym = Ok true ->
  symbol_is_dependency_export sym = true /\ accept sym = true /\
  st_name sym < tb_strsz (se_tables s) /\
  string_at img (se_strtab_offset s + st_name sym) name /\
  symbol_definition_matches_version p img (tb_strtab (se_tables s)) (tb_strsz (se_tables s)) i version =
    Ok true.
Proof using.
  unfold symbol_matches. destruct (_ || _) eqn:E; [done|]. intros H. breflect.
  apply bind_ok in H as ([|] & Hc & H); [|done]. cbn [negb] in H.
  split_and!; try done. by apply strcmp_at_true.
Qed.
End Search.

(** ** Properties *)


(** The searches for thread-local variables and for objects (the source of
    copy relocations) never read outside the image, always return, and find
    exactly the first exported symbol of the right type with that name and
    version: its offset in the thread-local block, or its address and size. *)
Theorem tls_and_object_resolution_correct (p : poly_program) (img : image) (name : list Z)
    (version : option (list Z)) :
  wf_elf p img -> sane_tables p img -> no_nul name -> (forall v, version = Some v -> no_nul v) ->
  let tls sym := ELF64_ST_TYPE (st_info sym) =? STT_TLS in
  let object sym := (ELF64_ST_TYPE (st_info sym) =? STT_OBJECT) || (ELF64_ST_TYPE (st_info sym) =? STT_NOTYPE) in
  returns (resolve_loaded_program_tls_symbol_ex p img name version) /\
  returns (resolve_loaded_program_object_symbol_ex p img name version) /\
  search_result p img tls name version (fun sym => Ok (u64 (tls_offset p + st_value sym)))
    (resolve_loaded_program_tls_symbol_ex p img name version) /\
  search_result p img object name version (fun sym => Ok (st_value sym, st_size sym))
    (resolve_loaded_program_object_symbol_ex p img name version).
Proof.
  intros He Hsane Hn Hv tls object.
  assert (forall accept A (found : elf_sym -> outcome A),
    search_result p img accept name version found (search p img accept name version found)) as Hs.
  { intros. by apply search_spec. }
  unfold resolve_loaded_program_tls_symbol_ex, resolve_loaded_program_object_symbol_ex.
  split; [refine (search_result_returns p img _ name version _ _ _ (Hs _ _ _)); auto with poly|].
  split; [refine (search_result_returns p img _ name version _ _ _ (Hs _ _ _)); auto with poly|].
  split; [apply Hs|]. erewrite search_accept_ext; [apply Hs|].
  intros sym. unfold object. by rewrite negb_andb, !negb_involutive.
Qed.

(** ** A concrete image *)

Definition dyn_entry (tag value : Z) : list Z := le_bytes 8 tag ++ le_bytes 8 value.

(** One exported function foo of value 4096, with its tables. *)
Definition foo_image : image :=
  le_bytes 8 0 ++ le_bytes 4 1 ++ le_bytes 4 2 ++ le_bytes 8 0 ++
  le_bytes 24 0 ++
  (le_bytes 4 1 ++ [0x12; 0] ++ le_bytes 2 7 ++ le_bytes 8 4096 ++ le_bytes 8 32) ++
  [0; 102; 111; 111; 0; 0; 0; 0] ++
  dyn_entry DT_SYMTAB 24 ++ dyn_entry DT_STRTAB 72 ++ dyn_entry DT_STRSZ 8 ++
  dyn_entry DT_SYMENT 24 ++ dyn_entry DT_HASH 8 ++ dyn_entry 0 0.

Definition foo_program : poly_program := MkProgramHeader 0 176 80 96 0.

Lemma foo_image_wf : wf_elf foo_program foo_image.
Proof.
  constructor; try (simpl; unfold MAX_PROGRAM_BYTES; lia); [|reflexivity].
  unfold wf_image, foo_image, dyn_entry. rewrite !Forall_app. split_and!;
    try apply le_bytes_range; repeat constructor; unfold in_width; simpl; lia.
Qed.

Lemma foo_tables_sane : sane_tables foo_program foo_image.
Proof.
  intros t Ht. vm_compute in Ht. simplify_eq. cbn.
  split; [unfold sane_syment, SIZEOF_SYM; lia|]. intros so Hso. vm_compute in Hso. simplify_eq.
  vm_compute. reflexivity.
Qed.


Lemma tls_and_object_resolution_correct_witness :
  returns (resolve_loaded_program_tls_symbol_ex foo_program foo_image [102; 111; 111] None).
Proof.
  apply (tls_and_object_resolution_correct foo_program foo_image [102; 111; 111] None).
  - exact foo_image_wf.
  - exact foo_tables_sane.
  - repeat constructor; unfold NUL; lia.
  - discriminate.
Defined.
