(* ===== verification/CString.v ===== *)
(** The C string and number routines that [tools/runtime/polyexec.c] gives to
    guest imports: copying, searching, character classes and [strtoull].

    A buffer is a list of bytes and a pointer into it an index; a string is a
    list of non-zero bytes, reading at its end gives NUL.  A character argument
    of type [int] is converted to [unsigned char]. *)

From stdpp Require Import sets.
From S2P Require Import Prelude.

(** ** Copying *)

(** Copies up to and including the NUL: the buffer after the copy and the index
    of that NUL. *)
Fixpoint stpcpy_from (dest : list Z) (at_ : nat) (src : list Z) : list Z * nat :=
  match src with
  | [] => (<[at_ := 0]> dest, at_)
  | c :: src' => stpcpy_from (<[at_ := c]> dest) (S at_) src'
  end.

Definition polyexec_stpcpy (dest src : list Z) : list Z * nat := stpcpy_from dest 0 src.

(** The first loop of [stpncpy] copies, the second one fills with NULs. *)
Fixpoint stpncpy_copy (dest : list Z) (copied n : nat) (src : list Z) : list Z * nat :=
  match src with
  | [] => (dest, copied)
  | c :: src' =>
      if (copied <? n)%nat then stpncpy_copy (<[copied := c]> dest) (S copied) n src'
      else (dest, copied)
  end.

Fixpoint fill_zero (k : nat) (dest : list Z) (at_ : nat) : list Z :=
  match k with
  | O => dest
  | S k' => fill_zero k' (<[at_ := 0]> dest) (S at_)
  end.

Definition polyexec_stpncpy (dest src : list Z) (n : nat) : list Z * nat :=
  let '(dest', copied) := stpncpy_copy dest 0 n src in
  (fill_zero (n - copied) dest' copied, copied).

(** [memcpy] of [n] bytes and the pointer after them. *)
Definition polyexec_mempcpy (dest src : list Z) (n : nat) : list Z * nat :=
  (take n src ++ drop n dest, n).

(** ** Searching *)

(** [rawmemchr] has no bound: [None] is a read past the end of the buffer. *)
Fixpoint rawmemchr_from (s : list Z) (needle : Z) (at_ : nat) : option nat :=
  match s with
  | [] => None
  | c :: s' => if c =? needle then Some at_ else rawmemchr_from s' needle (S at_)
  end.

Definition polyexec_rawmemchr (s : list Z) (c : Z) : option nat := rawmemchr_from s (u8 c) 0.

(** Walks back from [p] to the start of the buffer. *)
Fixpoint memrchr_from (s : list Z) (needle : Z) (p : nat) : option nat :=
  match p with
  | O => None
  | S p' => if s !!! p' =? needle then Some p' else memrchr_from s needle p'
  end.

Definition polyexec_memrchr (s : list Z) (c : Z) (n : nat) : option nat :=
  memrchr_from s (u8 c) n.

Fixpoint polyexec_strchrnul_from (s : list Z) (needle : Z) (at_ : nat) : nat :=
  match s with
  | [] => at_
  | c :: s' => if c =? needle then at_ else polyexec_strchrnul_from s' needle (S at_)
  end.

Definition polyexec_strchrnul (s : list Z) (c : Z) : nat := polyexec_strchrnul_from s (u8 c) 0.

(** [memcmp(h + offset, n, needle_len) == 0] *)
Definition matches_at (h n : list Z) (offset : nat) : bool :=
  bool_decide (take (length n) (drop offset h) = n).

(** [for (offset = i; offset < i + k; offset++)] *)
Fixpoint memmem_from (h n : list Z) (k offset : nat) : option nat :=
  match k with
  | O => None
  | S k' =>
      if (h !!! offset =? n !!! 0%nat) && matches_at h n offset then Some offset
      else memmem_from h n k' (S offset)
  end.

Definition polyexec_memmem (haystack needle : list Z) : option nat :=
  if (length needle =? 0)%nat then Some 0%nat
  else if (length haystack <? length needle)%nat then None
  else memmem_from haystack needle (S (length haystack - length needle)) 0.

(** ** Character classes *)

Definition polyexec_ascii_isspace (c : Z) : bool :=
  (c =? 32) || (c =? 12) || (c =? 10) || (c =? 13) || (c =? 9) || (c =? 11).
Definition polyexec_ascii_isdigit (c : Z) : bool := (48 <=? c) && (c <=? 57).
Definition polyexec_ascii_isalpha (c : Z) : bool :=
  ((65 <=? c) && (c <=? 90)) || ((97 <=? c) && (c <=? 122)).
Definition polyexec_ascii_isupper (c : Z) : bool := (65 <=? c) && (c <=? 90).
Definition polyexec_ascii_islower (c : Z) : bool := (97 <=? c) && (c <=? 122).
Definition polyexec_ascii_isxdigit (c : Z) : bool :=
  polyexec_ascii_isdigit c || ((65 <=? c) && (c <=? 70)) || ((97 <=? c) && (c <=? 102)).
Definition polyexec_ascii_isblank (c : Z) : bool := (c =? 32) || (c =? 9).
Definition polyexec_ascii_iscntrl (c : Z) : bool := (c <? 0x20) || (c =? 0x7f).
Definition polyexec_ascii_isprint (c : Z) : bool := (c >=? 0x20) && (c <? 0x7f).
Definition polyexec_ascii_isgraph (c : Z) : bool := (c >? 0x20) && (c <? 0x7f).
Definition polyexec_ascii_ispunct (c : Z) : bool :=
  polyexec_ascii_isgraph c && negb (polyexec_ascii_isalpha c) && negb (polyexec_ascii_isdigit c).

(** ** Numbers *)

Definition polyexec_digit_value (c : Z) : Z :=
  if (48 <=? c) && (c <=? 57) then c - 48
  else if (65 <=? c) && (c <=? 90) then c - 65 + 10
  else if (97 <=? c) && (c <=? 122) then c - 97 + 10
  else -1.

(** A pointer is the rest of the string together with how far it is. *)
Fixpoint skip_spaces (s : list Z) (p : nat) : list Z * nat :=
  match s with
  | [] => ([], p)
  | c :: s' => if polyexec_ascii_isspace c then skip_spaces s' (S p) else (s, p)
  end.

Definition PLUS : Z := 43.
Definition MINUS : Z := 45.

Definition read_sign (s : list Z) (p : nat) : bool * list Z * nat :=
  match s with
  | c :: s' => if (c =? PLUS) || (c =? MINUS) then (c =? MINUS, s', S p) else (false, s, p)
  | [] => (false, s, p)
  end.

(** The base and the position after a "0x" or "0" prefix. *)
Definition read_prefix (base : Z) (s : list Z) (p : nat) : Z * list Z * nat :=
  let c0 := default 0 (s !! 0%nat) in
  let c1 := default 0 (s !! 1%nat) in
  if ((base =? 0) || (base =? 16)) && (c0 =? 48) && ((c1 =? 120) || (c1 =? 88)) then
    (16, drop 2 s, (p + 2)%nat)
  else if (base =? 0) && (c0 =? 48) then (8, drop 1 s, (p + 1)%nat)
  else if base =? 0 then (10, s, p)
  else (base, s, p).

(** The digit loop: the value and the final position. *)
Fixpoint read_digits (base : Z) (s : list Z) (p : nat) (value : Z) : Z * nat :=
  match s with
  | [] => (value, p)
  | c :: s' =>
      let digit := polyexec_digit_value c in
      if (digit <? 0) || (digit >=? base) then (value, p)
      else read_digits base s' (S p) (u64 (u64 (value * base) + digit))
  end.

(** The value and the index that [endptr] receives. *)
Definition polyexec_strtoull_c (nptr : list Z) (base : Z) : Z * nat :=
  let '(s1, p1) := skip_spaces nptr 0 in
  let '(negative, s2, p2) := read_sign s1 p1 in
  let '(base', s3, p3) := read_prefix base s2 p2 in
  if (base' <? 2) || (base' >? 36) then (0, 0%nat)
  else
    let '(value, p4) := read_digits base' s3 p3 0 in
    if (p4 =? p3)%nat then (0, 0%nat)
    else (if negative : bool then u64 (- value) else value, p4).

Definition polyexec_strtoll_c (nptr : list Z) (base : Z) : Z * nat :=
  let '(value, p) := polyexec_strtoull_c nptr base in (signed 64 value, p).

(** ** Specifications *)

(** [n] occurs in [h] at [i]. *)
Definition occurs (h n : list Z) (i : nat) : Prop :=
  exists pre post, h = pre ++ n ++ post /\ length pre = i.

(** [i] is the first index that satisfies [P]. *)
Definition first_index (P : nat -> Prop) (r : option nat) : Prop :=
  match r with
  | Some i => P i /\ forall j, (j < i)%nat -> ~ P j
  | None => forall j, ~ P j
  end.

(** [i] is the last index below [n] that satisfies [P]. *)
Definition last_index (P : nat -> Prop) (n : nat) (r : option nat) : Prop :=
  match r with
  | Some i => (i < n)%nat /\ P i /\ forall j, (i < j < n)%nat -> ~ P j
  | None => forall j, (j < n)%nat -> ~ P j
  end.

(** The value of a digit sequence, most significant digit first. *)
Definition digits_value (base : Z) (ds : list Z) : Z :=
  foldl (fun v c => v * base + polyexec_digit_value c) 0 ds.

Definition is_digit (base c : Z) : Prop := 0 <= polyexec_digit_value c < base.

(** How the [base] argument and the prefix [pre] fix the base [b] of the digits
    [ds] before [rest]. *)
Inductive numeral (ds rest : list Z) : Z -> list Z -> Z -> Prop :=
| numeral_hex base x :
    base = 0 \/ base = 16 -> x = 120 \/ x = 88 -> numeral ds rest base [48; x] 16
| numeral_octal : numeral ds rest 0 [48] 8
| numeral_decimal : ds !! 0%nat <> Some 48 -> numeral ds rest 0 [] 10
| numeral_plain base :
    2 <= base <= 36 ->
    (base = 16 -> ds = [48] -> forall x, rest !! 0%nat = Some x -> x <> 120 /\ x <> 88) ->
    numeral ds rest base [] base.

Definition is_sign (sign : list Z) : Prop := sign = [] \/ sign = [PLUS] \/ sign = [MINUS].

(** ** Copying is correct *)

Lemma insert_middle (pre post : list Z) (x y : Z) :
  <[length pre := y]> (pre ++ x :: post) = pre ++ y :: post.
Proof. by rewrite insert_app_r_alt, Nat.sub_diag by lia. Qed.

Lemma stpcpy_from_spec (src : list Z) : forall pre mid post,
  length mid = S (length src) ->
  stpcpy_from (pre ++ mid ++ post) (length pre) src =
  (pre ++ src ++ [0] ++ post, (length pre + length src)%nat).
Proof.
  induction src as [|c src IH]; intros pre mid post Hm; destruct mid as [|x mid]; simpl in *; try lia.
  - destruct mid; simpl in *; [|lia]. by rewrite insert_middle, Nat.add_0_r.
  - rewrite insert_middle.
    specialize (IH (pre ++ [c]) mid post ltac:(lia)).
    rewrite length_app in IH; simpl in IH. rewrite <- !app_assoc in IH; simpl in IH.
    rewrite (Nat.add_1_r (length pre)) in IH. rewrite IH. f_equal; lia.
Qed.

Lemma fill_zero_spec (k : nat) : forall pre mid post,
  length mid = k -> fill_zero k (pre ++ mid ++ post) (length pre) = pre ++ replicate k 0 ++ post.
Proof.
  induction k as [|k IH]; intros pre mid post Hm; destruct mid as [|x mid]; simpl in *; try lia; [done|].
  rewrite insert_middle. specialize (IH (pre ++ [0]) mid post ltac:(lia)).
  rewrite length_app in IH; simpl in IH. rewrite <- !app_assoc in IH; simpl in IH.
  by rewrite (Nat.add_1_r (length pre)) in IH.
Qed.

Lemma stpncpy_copy_spec (src : list Z) : forall pre post k,
  (k <= length post)%nat ->
  stpncpy_copy (pre ++ post) (length pre) (length pre + k) src =
  (pre ++ take k src ++ drop (min k (length src)) post, (length pre + min k (length src))%nat).
Proof.
  induction src as [|c src IH]; intros pre post k Hk; simpl.
  { by rewrite take_nil, Nat.min_0_r, Nat.add_0_r. }
  destruct (Nat.ltb_spec (length pre) (length pre + k)).
  - destruct k as [|k]; [lia|]. destruct post as [|x post]; simpl in *; [lia|].
    rewrite insert_middle. specialize (IH (pre ++ [c]) post k ltac:(lia)).
    rewrite length_app in IH; simpl in IH. rewrite <- !app_assoc in IH; simpl in IH.
    replace (length pre + 1 + k)%nat with (length pre + S k)%nat in IH by lia.
    rewrite (Nat.add_1_r (length pre)) in IH. rewrite IH. f_equal; lia.
  - replace k with 0%nat by lia. simpl. by rewrite Nat.add_0_r.
Qed.

(** The copying routines write exactly what C promises and return the
    pointer it promises: [stpcpy] the string and its NUL, [stpncpy] the first
    [n] bytes of the string padded with NULs to [n] and the index of the first
    padding byte, [mempcpy] [n] bytes; nothing behind is touched. *)
Theorem string_copy_correct (dest src : list Z) (n : nat) :
  (length src < length dest)%nat -> (n <= length dest)%nat ->
  polyexec_stpcpy dest src = (src ++ [0] ++ drop (S (length src)) dest, length src) /\
  polyexec_stpncpy dest src n =
    (take n (src ++ replicate n 0) ++ drop n dest, min n (length src)) /\
  forall m, (n <= length m)%nat ->
    fst (polyexec_mempcpy dest m n) !! snd (polyexec_mempcpy dest m n) = dest !! n /\
    take n (fst (polyexec_mempcpy dest m n)) = take n m /\
    length (fst (polyexec_mempcpy dest m n)) = length dest.
Proof.
  intros Hs Hn. repeat split.
  - unfold polyexec_stpcpy.
    pose proof (stpcpy_from_spec src [] (take (S (length src)) dest) (drop (S (length src)) dest)) as H.
    simpl app in H at 1. rewrite take_drop in H. apply H. rewrite length_take; lia.
  - unfold polyexec_stpncpy. pose proof (stpncpy_copy_spec src [] dest n Hn) as H.
    simpl in H. rewrite H. f_equal.
    rewrite <- (take_drop (n - min n (length src)) (drop (min n (length src)) dest)), drop_drop.
    pose proof (fill_zero_spec (n - min n (length src)) (take n src)
      (take (n - min n (length src)) (drop (min n (length src)) dest))
      (drop (min n (length src) + (n - min n (length src))) dest)) as F.
    rewrite (length_take src n) in F. rewrite F by (rewrite length_take, length_drop; lia).
    rewrite take_app, take_replicate, <- app_assoc. do 3 f_equal; lia.
  - intros. simpl. rewrite lookup_app_r, length_take, lookup_drop by (rewrite length_take; lia).
    f_equal; lia.
  - simpl. rewrite take_app_le, take_take by (rewrite length_take; lia). f_equal; lia.
  - simpl. rewrite length_app, length_take, length_drop. lia.
Qed.

Lemma string_copy_correct_witness :
  polyexec_stpncpy [9; 9; 9; 9; 9] [65; 66] 4 = ([65; 66; 0; 0; 9], 2%nat).
Proof.
  destruct (string_copy_correct [9; 9; 9; 9; 9] [65; 66] 4 ltac:(simpl; lia) ltac:(simpl; lia)) as (_ & H & _).
  exact H.
Defined.

(** ** Searching is correct *)

Lemma matches_at_occurs (h n : list Z) (i : nat) :
  (i <= length h)%nat -> matches_at h n i = true <-> occurs h n i.
Proof.
  intros Hi. unfold matches_at, occurs. rewrite bool_decide_eq_true. split.
  - intros H. exists (take i h), (drop (i + length n) h). split.
    + rewrite <- H at 1. by rewrite <- drop_drop, (take_drop (length n)), take_drop.
    + rewrite length_take; lia.
  - intros (pre & post & -> & <-). by rewrite drop_app_length, take_app_length.
Qed.

Lemma occurs_bounds (h n : list Z) (i : nat) : occurs h n i -> (i + length n <= length h)%nat.
Proof. intros (pre & post & -> & <-). rewrite !length_app. lia. Qed.

(** The first-byte test of [memmem] never hides an occurrence. *)
Lemma occurs_first_byte (h n : list Z) (i : nat) :
  n <> [] -> occurs h n i -> h !!! i = n !!! 0%nat.
Proof.
  intros Hn (pre & post & -> & <-). destruct n as [|x n]; [done|].
  by rewrite lookup_total_app_r, Nat.sub_diag by lia.
Qed.

Lemma memmem_from_spec (h n : list Z) (k : nat) : forall offset,
  n <> [] -> (offset + k = S (length h - length n))%nat -> (length n <= length h)%nat ->
  (forall j, (j < offset)%nat -> ~ occurs h n j) ->
  first_index (occurs h n) (memmem_from h n k offset).
Proof.
  induction k as [|k IH]; intros offset Hn Hk Hl Hb; simpl.
  { intros j Hj. apply (Hb j); [|done]. apply occurs_bounds in Hj. lia. }
  destruct ((h !!! offset =? n !!! 0%nat) && matches_at h n offset) eqn:E.
  - apply andb_prop in E as [_ E]. split; [|done]. apply matches_at_occurs in E; [done|lia].
  - apply IH; [done|lia|done|]. intros j Hj Ho.
    destruct (decide (j = offset)) as [->|]; [|apply (Hb j); [lia|done]].
    apply andb_false_iff in E as [E|E].
    + apply Z.eqb_neq in E. by rewrite (occurs_first_byte h n offset) in E.
    + apply matches_at_occurs in Ho; [congruence|lia].
Qed.

Lemma memmem_first (h n : list Z) : first_index (occurs h n) (polyexec_memmem h n).
Proof.
  unfold polyexec_memmem. destruct (Nat.eqb_spec (length n) 0) as [E|E].
  { apply nil_length_inv in E as ->. split; [by exists [], h|lia]. }
  assert (n <> []) by (by intros ->).
  destruct (Nat.ltb_spec (length h) (length n)).
  - intros j Hj. apply occurs_bounds in Hj. lia.
  - apply memmem_from_spec; [done|lia|done|lia].
Qed.

Lemma memrchr_from_last (s : list Z) (needle : Z) (p : nat) :
  (p <= length s)%nat ->
  last_index (fun i => s !! i = Some needle) p (memrchr_from s needle p).
Proof.
  induction p as [|p IH]; intros Hp; simpl; [intros; lia|].
  destruct (lookup_lt_is_Some_2 s p ltac:(lia)) as [x Hx].
  rewrite (list_lookup_total_correct s p x Hx). destruct (Z.eqb_spec x needle) as [->|Hne].
  - split; [lia|]. split; [done|]. intros; lia.
  - specialize (IH ltac:(lia)). destruct (memrchr_from s needle p) as [i|]; simpl in *.
    + destruct IH as (H1 & H2 & H3). split; [lia|]. split; [done|]. intros j Hj.
      destruct (decide (j = p)) as [->|]; [congruence|]. apply H3; lia.
    + intros j Hj. destruct (decide (j = p)) as [->|]; [congruence|]. apply IH; lia.
Qed.

Lemma rawmemchr_from_first (s : list Z) (needle : Z) : forall at_,
  match rawmemchr_from s needle at_ with
  | Some i => (at_ <= i)%nat /\ s !! (i - at_)%nat = Some needle /\
              needle ∉ take (i - at_) s
  | None => needle ∉ s
  end.
Proof.
  induction s as [|c s IH]; intros at_; simpl; [set_solver|].
  destruct (Z.eqb_spec c needle) as [->|Hne].
  - rewrite Nat.sub_diag. simpl. split; [lia|]. split; [done|set_solver].
  - specialize (IH (S at_)). destruct (rawmemchr_from s needle (S at_)) as [i|];
      [|intros [?|?]%elem_of_cons; congruence].
    destruct IH as (H1 & H2 & H3). replace (i - at_)%nat with (S (i - S at_)) by lia. simpl.
    split; [lia|]. split; [done|]. intros [?|?]%elem_of_cons; congruence.
Qed.

Lemma strchrnul_from_rawmemchr (s : list Z) (needle : Z) : forall at_,
  polyexec_strchrnul_from s needle at_ = default (at_ + length s)%nat (rawmemchr_from s needle at_).
Proof.
  induction s as [|c s IH]; intros at_; simpl; [lia|].
  destruct (c =? needle); [done|]. rewrite IH. f_equal; lia.
Qed.

(** The searches find what they promise for every input: [memmem] the first
    occurrence of the needle or none when there is none, [memrchr] the last
    matching byte of the first [n], [rawmemchr] the first matching byte of the
    buffer (reading past its end only when there is none), [strchrnul] the first
    matching character or the end of the string. *)
Theorem string_search_correct (h n : list Z) (c : Z) (k : nat) :
  (k <= length h)%nat ->
  first_index (occurs h n) (polyexec_memmem h n) /\
  last_index (fun i => h !! i = Some (u8 c)) k (polyexec_memrchr h c k) /\
  match polyexec_rawmemchr h c with
  | Some i => h !! i = Some (u8 c) /\ u8 c ∉ take i h
  | None => u8 c ∉ h
  end /\
  (u8 c ∈ h -> h !! polyexec_strchrnul h c = Some (u8 c) /\ u8 c ∉ take (polyexec_strchrnul h c) h) /\
  (u8 c ∉ h -> polyexec_strchrnul h c = length h).
Proof.
  intros Hk. split; [apply memmem_first|]. split; [by apply memrchr_from_last|].
  pose proof (rawmemchr_from_first h (u8 c) 0) as R.
  unfold polyexec_strchrnul, polyexec_rawmemchr. rewrite strchrnul_from_rawmemchr. simpl.
  destruct (rawmemchr_from h (u8 c) 0) as [i|] eqn:E; simpl.
  - rewrite Nat.sub_0_r in R. destruct R as (_ & H1 & H2). do 2 (split; [done|]).
    intros H. by apply list_elem_of_lookup_2 in H1.
  - by split; [|split].
Qed.

Lemma string_search_correct_witness :
  polyexec_memmem [1; 1; 2; 1; 1; 2; 3] [1; 2; 3] = Some 4%nat /\
  first_index (occurs [1; 1; 2; 1; 1; 2; 3] [1; 2; 3]) (Some 4%nat).
Proof.
  split; [reflexivity|].
  exact (proj1 (string_search_correct [1; 1; 2; 1; 1; 2; 3] [1; 2; 3] 0 0 ltac:(simpl; lia))).
Defined.

(** ** Character classes and numbers *)

(** On every byte the classes are those of the C locale: each byte below 128
    is exactly one of control, space, letter, digit or punctuation, no byte from
    128 on is in any class, and the derived classes are the unions they should
    be; a byte is a hexadecimal digit exactly when its digit value is below
    16. *)
Theorem ascii_classes_partition (c : Z) : in_width 8 c ->
  (Z.b2z (polyexec_ascii_iscntrl c) + Z.b2z (c =? 32) + Z.b2z (polyexec_ascii_isalpha c) +
   Z.b2z (polyexec_ascii_isdigit c) + Z.b2z (polyexec_ascii_ispunct c) = Z.b2z (c <? 128)) /\
  polyexec_ascii_isalpha c = xorb (polyexec_ascii_isupper c) (polyexec_ascii_islower c) /\
  polyexec_ascii_isprint c = xorb (c =? 32) (polyexec_ascii_isgraph c) /\
  polyexec_ascii_isxdigit c = ((0 <=? polyexec_digit_value c) && (polyexec_digit_value c <? 16)) /\
  (polyexec_digit_value c =? -1) = negb (polyexec_ascii_isalpha c || polyexec_ascii_isdigit c) /\
  (polyexec_ascii_isblank c = true -> polyexec_ascii_isspace c = true) /\
  (polyexec_ascii_isspace c = true -> c = 32 \/ polyexec_ascii_iscntrl c = true) /\
  (polyexec_ascii_isprint c = true -> polyexec_ascii_iscntrl c = false).
Proof.
  unfold in_width. intros Hc.
  unfold polyexec_ascii_iscntrl, polyexec_ascii_ispunct, polyexec_ascii_isprint, polyexec_ascii_isxdigit,
    polyexec_ascii_isgraph, polyexec_ascii_isalpha, polyexec_ascii_isdigit, polyexec_ascii_isblank,
    polyexec_ascii_isspace, polyexec_ascii_isupper, polyexec_ascii_islower, polyexec_digit_value, xorb, Z.b2z.
  repeat split; destruct_ifs; lia.
Qed.

Lemma ascii_classes_partition_witness :
  polyexec_ascii_isxdigit 102 = true /\ polyexec_digit_value 102 = 15.
Proof.
  split; [|reflexivity].
  destruct (ascii_classes_partition 102 ltac:(unfold in_width; lia)) as (_ & _ & _ & H & _).
  exact H.
Defined.

Lemma skip_spaces_app (spaces s : list Z) : forall p,
  Forall (fun c => polyexec_ascii_isspace c = true) spaces ->
  skip_spaces (spaces ++ s) p = skip_spaces s (p + length spaces).
Proof.
  induction spaces as [|c spaces IH]; intros p Hf; simpl; [by rewrite Nat.add_0_r|].
  inversion_clear Hf as [|? ? Hc Hs]. rewrite Hc, IH by done. f_equal; lia.
Qed.

Lemma skip_spaces_stop (s : list Z) (p : nat) :
  (forall c, s !! 0%nat = Some c -> polyexec_ascii_isspace c = false) -> skip_spaces s p = (s, p).
Proof. destruct s as [|c s]; intros H; simpl; [done|]. by rewrite (H c). Qed.

Lemma read_sign_app (sign s : list Z) (p : nat) :
  is_sign sign -> (forall c, s !! 0%nat = Some c -> c <> PLUS /\ c <> MINUS) ->
  read_sign (sign ++ s) p = (bool_decide (sign = [MINUS]), s, (p + length sign)%nat).
Proof.
  intros [-> | [-> | ->]] Hs; simpl.
  - rewrite Nat.add_0_r. unfold read_sign. destruct s as [|c s]; [done|].
    destruct (Hs c eq_refl) as [H1 H2].
    by rewrite (proj2 (Z.eqb_neq _ _) H1), (proj2 (Z.eqb_neq _ _) H2).
  - rewrite Nat.add_1_r. done.
  - rewrite Nat.add_1_r. done.
Qed.

(** Reducing the running value modulo 2^64 at any point changes nothing. *)
Lemma foldl_wrap (base : Z) (ds : list Z) : forall v w,
  u64 v = u64 w ->
  u64 (foldl (fun v c => v * base + polyexec_digit_value c) v ds) =
  u64 (foldl (fun v c => v * base + polyexec_digit_value c) w ds).
Proof.
  induction ds as [|c ds IH]; intros v w H; simpl; [done|]. apply IH. unfold wrap in *.
  by rewrite <- Zplus_mod_idemp_l, <- Zmult_mod_idemp_l, H, Zmult_mod_idemp_l, Zplus_mod_idemp_l.
Qed.

Lemma read_digits_app (base : Z) (ds rest : list Z) : forall p v,
  Forall (is_digit base) ds -> (forall c, rest !! 0%nat = Some c -> ~ is_digit base c) ->
  read_digits base (ds ++ rest) p v =
  (match ds with
   | [] => v
   | _ => u64 (foldl (fun v c => v * base + polyexec_digit_value c) v ds)
   end, (p + length ds)%nat).
Proof.
  induction ds as [|c ds IH]; intros p v Hd Hr; simpl.
  - rewrite Nat.add_0_r. destruct rest as [|c rest]; [done|]. simpl.
    specialize (Hr c eq_refl). unfold is_digit in Hr. destruct_ifs; [done|]. lia.
  - inversion_clear Hd as [|? ? Hc Hs]. unfold is_digit in Hc.
    replace ((polyexec_digit_value c <? 0) || (polyexec_digit_value c >=? base)) with false by lia.
    rewrite IH by done. f_equal; [|lia]. destruct ds as [|c' ds].
    + simpl. unfold wrap. by rewrite Zplus_mod_idemp_l.
    + apply foldl_wrap. unfold wrap. by rewrite Zmod_mod, Zplus_mod_idemp_l.
Qed.

(** What a digit character is not. *)
Lemma is_digit_char (b c : Z) : b <= 36 -> is_digit b c ->
  polyexec_ascii_isspace c = false /\ c <> PLUS /\ c <> MINUS /\
  (b <= 16 -> (c =? 120) || (c =? 88) = false).
Proof.
  unfold is_digit, polyexec_digit_value, polyexec_ascii_isspace, PLUS, MINUS. intros Hb H.
  repeat split; repeat case_match; lia.
Qed.

Lemma numeral_base (ds rest pre : list Z) (base b : Z) : numeral ds rest base pre b -> 2 <= b <= 36.
Proof. destruct 1; lia. Qed.

Lemma numeral_head (ds rest pre : list Z) (base b c : Z) :
  numeral ds rest base pre b -> ds <> [] -> Forall (is_digit b) ds ->
  (pre ++ ds ++ rest) !! 0%nat = Some c ->
  polyexec_ascii_isspace c = false /\ c <> PLUS /\ c <> MINUS.
Proof.
  intros Hn Hd Hf Hc. pose proof (numeral_base _ _ _ _ _ Hn) as Hb.
  assert (c = 48 \/ is_digit b c) as [-> | Hx]; [|by split|].
  - destruct ds as [|d ds]; [done|]. apply Forall_cons in Hf as [Hx _].
    destruct Hn; simpl in Hc; simplify_eq; auto.
  - destruct (is_digit_char b c) as (? & ? & ? & _); auto; lia.
Qed.

Lemma read_prefix_numeral (ds rest pre : list Z) (base b : Z) (p : nat) :
  numeral ds rest base pre b -> ds <> [] -> Forall (is_digit b) ds ->
  read_prefix base (pre ++ ds ++ rest) p = (b, ds ++ rest, (p + length pre)%nat).
Proof.
  intros Hn Hd Hf. destruct ds as [|d ds]; [done|]. apply Forall_cons in Hf as [Hx Hf].
  destruct Hn as [base x Hb Hx'| |H10|base Hb H16]; unfold read_prefix; simpl.
  - replace ((base =? 0) || (base =? 16)) with true by lia.
    replace ((x =? 120) || (x =? 88)) with true by lia. done.
  - destruct (is_digit_char 8 d) as (_ & _ & _ & ->); auto; lia.
  - replace (d =? 48) with false by (symmetry; apply Z.eqb_neq; intros ->; done).
    by rewrite Nat.add_0_r.
  - replace (base =? 0) with false by lia. rewrite Nat.add_0_r. simpl.
    destruct ((base =? 16) && (d =? 48)) eqn:E; simpl; [|done].
    replace (_ || _) with false; [done|]. symmetry. breflect. subst.
    destruct ds as [|d' ds]; simpl.
    + destruct rest as [|x rest]; simpl; [done|]. destruct (H16 eq_refl eq_refl x eq_refl). lia.
    + apply Forall_cons in Hf as [Hx' _]. apply (is_digit_char 16); auto; lia.
Qed.

(** [strtoull] reads the longest numeral after optional white space and an
    optional sign: for every base from 2 to 36, and for base 0 with the
    hexadecimal, octal or no prefix, the result is the value of the digits,
    negated after a minus sign, modulo 2^64, and [endptr] is behind the last
    digit; [strtoll] is its two's complement reading. *)
Theorem strtoull_reads_numeral (spaces sign pre ds rest : list Z) (base b : Z) :
  Forall (fun c => polyexec_ascii_isspace c = true) spaces -> is_sign sign ->
  numeral ds rest base pre b -> ds <> [] -> Forall (is_digit b) ds ->
  (forall c, rest !! 0%nat = Some c -> ~ is_digit b c) ->
  let value := if bool_decide (sign = [MINUS]) then - digits_value b ds else digits_value b ds in
  let stop := (length spaces + length sign + length pre + length ds)%nat in
  let s := spaces ++ sign ++ pre ++ ds ++ rest in
  polyexec_strtoull_c s base = (u64 value, stop) /\
  polyexec_strtoll_c s base = (signed 64 value, stop).
Proof.
  intros Hsp Hsg Hn Hd Hf Hr value stop s.
  assert (polyexec_strtoull_c s base = (u64 value, stop)) as E.
  { unfold polyexec_strtoull_c, s. rewrite skip_spaces_app by done.
    rewrite skip_spaces_stop.
    2:{ intros c Hc. destruct Hsg as [-> | [-> | ->]]; simpl in Hc; [|injection Hc as <-; reflexivity..].
        by eapply numeral_head. }
    rewrite read_sign_app; [|done|intros c Hc; eapply numeral_head; eauto].
    rewrite (read_prefix_numeral _ _ _ _ b) by done.
    pose proof (numeral_base _ _ _ _ _ Hn) as Hb.
    replace ((b <? 2) || (b >? 36)) with false by lia.
    rewrite read_digits_app by done.
    destruct ds as [|d ds]; [done|].
    case_match eqn:E; [apply Nat.eqb_eq in E; simpl in E; lia|].
    f_equal. subst value. case_bool_decide; [|done].
    unfold wrap, digits_value. by rewrite <- Z.sub_0_l, Zminus_mod_idemp_r. }
  split; [done|]. unfold polyexec_strtoll_c. rewrite E. f_equal.
  unfold signed. by rewrite wrap_wrap by lia.
Qed.

Lemma strtoull_reads_numeral_witness :
  polyexec_strtoull_c [32; 45; 48; 120; 49; 102; 44] 0 = (2 ^ 64 - 31, 6%nat).
Proof.
  refine (proj1 (strtoull_reads_numeral [32] [45] [48; 120] [49; 102] [44] 0 16 _ _ _ _ _ _)).
  - by repeat constructor.
  - by right; right.
  - apply numeral_hex; auto.
  - done.
  - repeat constructor; vm_compute; congruence.
  - intros c [= <-]. vm_compute. intros [H _]. by apply H.
Defined.

(** With base 0 the routine does not accept the numeral "0": the zero is
    taken as an octal prefix and, unless an octal digit follows, the call
    reports that nothing was converted ([endptr] is [nptr]) although C requires
    the zero to be consumed; the same string in base 10 or 8 is consumed. *)
Theorem strtoull_zero_not_converted (rest : list Z) :
  (forall c, rest !! 0%nat = Some c -> polyexec_digit_value c = -1) ->
  polyexec_strtoull_c (48 :: rest) 0 = (0, 0%nat) /\
  polyexec_strtoull_c (48 :: rest) 10 = (0, 1%nat) /\
  polyexec_strtoull_c (48 :: rest) 8 = (0, 1%nat).
Proof.
  intros H. destruct rest as [|c rest]; [done|]. specialize (H c eq_refl).
  assert ((c =? 120) || (c =? 88) = false) as Hx.
  { unfold polyexec_digit_value in H. repeat case_match; lia. }
  unfold polyexec_strtoull_c; simpl. unfold read_prefix; simpl. rewrite Hx; simpl. by rewrite H.
Qed.

Lemma strtoull_zero_not_converted_witness : polyexec_strtoull_c [48; 44] 0 = (0, 0%nat).
Proof.
  apply (strtoull_zero_not_converted [44]). intros c [= <-]. reflexivity.
Defined.
