(* ===== verification/CodeEmit.v ===== *)
(** The instruction emitters and encoders of [tools/runtime/polyexec.c]: the
    little-endian byte emitters, the x86 sequences, and the AArch64 and RISC-V
    instruction encoders, together with decoders of the instruction formats
    they produce, against which they are proved.

    A code buffer is written from its start, so its state is the list of the
    bytes written so far; [offset] is their number.  [uint32_t] shifts drop the
    bits above 31. *)

From S2P Require Import Prelude BridgeSpec ElfImage.

(** ** Byte emitters *)

Definition emit_u32 (code : list Z) (value : Z) : list Z :=
  code ++ [Z.land value 0xff; Z.land (Z.shiftr value 8) 0xff;
           Z.land (Z.shiftr value 16) 0xff; Z.land (Z.shiftr value 24) 0xff].

(** [for (unsigned n = 0; n < 8; n++)] *)
Definition emit_u64 (code : list Z) (value : Z) : list Z :=
  code ++ ((fun n => Z.land (Z.shiftr value (Z.of_nat n * 8)) 0xff) <$> seq 0 8).

Definition store_u32 (code : list Z) (offset : nat) (value : Z) : list Z :=
  <[(offset + 3)%nat := Z.land (Z.shiftr value 24) 0xff]>
  (<[(offset + 2)%nat := Z.land (Z.shiftr value 16) 0xff]>
  (<[(offset + 1)%nat := Z.land (Z.shiftr value 8) 0xff]>
  (<[offset := Z.land value 0xff]> code))).

Definition emit_bytes (code bytes : list Z) : list Z := code ++ bytes.

(** ** x86 sequences *)

Definition POLY_X86_CTRL_PREFIX_0 : Z := 0x0f.
Definition POLY_X86_CTRL_PREFIX_1 : Z := 0x3a.
Definition POLY_X86_CTRL_PREFIX_2 : Z := 0xfc.
Definition POLY_X86_CTRL_PENTER_MODE : Z := 0x03.
Definition POLY_X86_CTRL_STATE_KEY_SET : Z := 0x65.
Definition POLY_X86_CTRL_PCALL_SIG_IMM (slot : Z) : Z := 0x30 + slot.
Definition POLY_X86_PENTER_BASE_SIZE : Z := 10.
Definition POLY_X86_TRAMPOLINE_SIZE : Z := 14.

Definition emit_x86_poly_control (code : list Z) (subop : Z) : list Z :=
  code ++ [POLY_X86_CTRL_PREFIX_0; POLY_X86_CTRL_PREFIX_1; POLY_X86_CTRL_PREFIX_2; subop].

Definition poly_frontend_entry_alignment (frontend : Z) : Z :=
  if (frontend =? POLY_ARCH_AARCH64) || (frontend =? POLY_ARCH_RISCV) then 4 else 1.

Definition x86_penter_frontend_max_size (frontend : Z) : Z :=
  let align := poly_frontend_entry_alignment frontend in
  POLY_X86_PENTER_BASE_SIZE + (if align >? 1 then align - 1 else 0).

(** [addr] is the address of the code buffer. *)
Definition x86_penter_frontend_size_for_code (addr offset frontend : Z) : Z :=
  let align := poly_frontend_entry_alignment frontend in
  let target := u64 (addr + offset + POLY_X86_PENTER_BASE_SIZE) in
  let pad :=
    if align >? 1 then Z.land (u64 (align - Z.land target (align - 1))) (align - 1) else 0 in
  POLY_X86_PENTER_BASE_SIZE + pad.

Definition emit_x86_entry_alignment (addr : Z) (code : list Z) (frontend : Z) : list Z :=
  let pad :=
    x86_penter_frontend_size_for_code addr (Z.of_nat (length code)) frontend -
    POLY_X86_PENTER_BASE_SIZE in
  code ++ replicate (Z.to_nat pad) 0x90.

Definition emit_x86_mov_r15d_imm (code : list Z) (value : Z) : list Z :=
  emit_u32 (code ++ [0x41; 0xbf]) value.

Definition emit_x86_penter_frontend (addr : Z) (code : list Z) (frontend : Z) : list Z :=
  let code := emit_x86_entry_alignment addr code frontend in
  let code := code ++ [0x41; 0xbf] in
  let code := emit_u32 code frontend in
  emit_x86_poly_control code POLY_X86_CTRL_PENTER_MODE.

Definition emit_x86_movabs_rax (code : list Z) (value : Z) : list Z :=
  emit_u64 (code ++ [0x48; 0xb8]) value.
Definition emit_x86_movabs_rbx (code : list Z) (value : Z) : list Z :=
  emit_u64 (code ++ [0x48; 0xbb]) value.
Definition emit_x86_movabs_r11 (code : list Z) (value : Z) : list Z :=
  emit_u64 (code ++ [0x49; 0xbb]) value.

Definition emit_x86_state_key_set (code : list Z) (state_key : Z) : list Z :=
  emit_x86_poly_control (emit_x86_movabs_rax code state_key) POLY_X86_CTRL_STATE_KEY_SET.

Definition emit_x86_pcall_sig_imm (code : list Z) (frontend signature_slot : Z) : list Z :=
  emit_x86_poly_control (emit_x86_mov_r15d_imm code frontend)
    (u8 (POLY_X86_CTRL_PCALL_SIG_IMM signature_slot)).

(** ** AArch64 encoders *)

(** [x << k] on [uint32_t]. *)
Definition shl32 (x k : Z) : Z := u32 (Z.shiftl x k).

Infix "lor" := Z.lor (at level 50, left associativity) : poly_scope.
Infix "land" := Z.land (at level 45, left associativity) : poly_scope.

Definition POLY_AARCH64_CTRL_ENCODING (subop : Z) : Z :=
  0xd503201f lor shl32 (u32 subop land 0x7f) 5.
Definition POLY_AARCH64_CTRL_X86_ESCAPE : Z := POLY_AARCH64_CTRL_ENCODING 0x70.
Definition POLY_AARCH64_CTRL_CALL_SIG_IMM (slot : Z) : Z :=
  POLY_AARCH64_CTRL_ENCODING (0x50 + slot).

Definition aarch64_adr (rd byte_offset : Z) : Z :=
  let imm := u32 byte_offset land 0x1fffff in
  0x10000000 lor shl32 (imm land 0x3) 29 lor
    shl32 (Z.shiftr imm 2 land 0x7ffff) 5 lor (rd land 0x1f).

Definition aarch64_pcall_sig_imm (slot : Z) : Z := POLY_AARCH64_CTRL_CALL_SIG_IMM slot.

Definition aarch64_lsr_imm (rd rn shift : Z) : Z :=
  0xd340fc00 lor shl32 (shift land 63) 16 lor shl32 rn 5 lor rd.

Definition aarch64_lsl_imm (rd rn shift : Z) : Z :=
  let immr := u32 (64 - shift) land 63 in
  let imms := u32 (63 - shift) in
  0xd3400000 lor shl32 immr 16 lor shl32 imms 10 lor shl32 rn 5 lor rd.

Definition aarch64_orr_reg (rd rn rm : Z) : Z :=
  0xaa000000 lor shl32 rm 16 lor shl32 rn 5 lor rd.

Definition aarch64_fmov_s_from_w (rd rn : Z) : Z := 0x1e270000 lor shl32 rn 5 lor rd.
Definition aarch64_fmov_w_from_s (rd rn : Z) : Z := 0x1e260000 lor shl32 rn 5 lor rd.

Definition emit_aarch64_movabs (code : list Z) (rd value : Z) : list Z :=
  let code := emit_u32 code
    (0xd2800000 lor shl32 (u32 value land 0xffff) 5 lor (rd land 0x1f)) in
  let code := emit_u32 code
    (0xf2a00000 lor shl32 (u32 (Z.shiftr value 16) land 0xffff) 5 lor (rd land 0x1f)) in
  let code := emit_u32 code
    (0xf2c00000 lor shl32 (u32 (Z.shiftr value 32) land 0xffff) 5 lor (rd land 0x1f)) in
  emit_u32 code
    (0xf2e00000 lor shl32 (u32 (Z.shiftr value 48) land 0xffff) 5 lor (rd land 0x1f)).

(** ** RISC-V encoders *)

Definition POLY_RISCV_CTRL_ENCODING (subop : Z) : Z :=
  0x0000700b lor shl32 (u32 subop land 0x7f) 25.
Definition POLY_RISCV_CTRL_X86_ESCAPE : Z := POLY_RISCV_CTRL_ENCODING 0.
Definition POLY_RISCV_CTRL_CALL_SIG_IMM (slot : Z) : Z := POLY_RISCV_CTRL_ENCODING (32 + slot).

Definition riscv_auipc (rd byte_offset : Z) : Z :=
  let hi20 := Z.shiftr (byte_offset + 0x800) 12 in
  shl32 (u32 hi20 land 0xfffff) 12 lor shl32 (rd land 0x1f) 7 lor 0x17.

Definition riscv_addi (rd rs1 byte_offset : Z) : Z :=
  let hi20 := Z.shiftr (byte_offset + 0x800) 12 in
  let lo12 := byte_offset - Z.shiftl hi20 12 in
  shl32 (u32 lo12 land 0xfff) 20 lor shl32 (rs1 land 0x1f) 15 lor
    shl32 (rd land 0x1f) 7 lor 0x13.

Definition riscv_jalr (rd rs1 byte_offset : Z) : Z :=
  shl32 (u32 byte_offset land 0xfff) 20 lor shl32 (rs1 land 0x1f) 15 lor
    shl32 (rd land 0x1f) 7 lor 0x67.

Definition riscv_pcall_sig_imm (slot : Z) : Z := POLY_RISCV_CTRL_CALL_SIG_IMM slot.

Definition riscv_srli (rd rs1 shamt : Z) : Z :=
  0x00005013 lor shl32 (shamt land 63) 20 lor shl32 rs1 15 lor shl32 rd 7.
Definition riscv_slli (rd rs1 shamt : Z) : Z :=
  0x00001013 lor shl32 (shamt land 63) 20 lor shl32 rs1 15 lor shl32 rd 7.
Definition riscv_or (rd rs1 rs2 : Z) : Z :=
  0x00006033 lor shl32 rs2 20 lor shl32 rs1 15 lor shl32 rd 7.
Definition riscv_fmv_x_w (rd rs1 : Z) : Z := 0xe0000053 lor shl32 rs1 15 lor shl32 rd 7.
Definition riscv_fmv_w_x (rd rs1 : Z) : Z := 0xf0000053 lor shl32 rs1 15 lor shl32 rd 7.

Definition riscv_ld (rd rs1 byte_offset : Z) : Z :=
  shl32 (u32 byte_offset land 0xfff) 20 lor shl32 (rs1 land 0x1f) 15 lor shl32 3 12 lor
    shl32 (rd land 0x1f) 7 lor 0x03.

Definition riscv_sd (rs2 rs1 byte_offset : Z) : Z :=
  let imm := u32 byte_offset land 0xfff in
  shl32 (Z.shiftr imm 5) 25 lor shl32 (rs2 land 0x1f) 20 lor shl32 (rs1 land 0x1f) 15 lor
    shl32 3 12 lor shl32 (imm land 0x1f) 7 lor 0x23.

Definition riscv_add (rd rs1 rs2 : Z) : Z :=
  shl32 (rs2 land 0x1f) 20 lor shl32 (rs1 land 0x1f) 15 lor shl32 (rd land 0x1f) 7 lor 0x33.

(** ** Signature-slot calls *)

Definition emit_aarch64_pcall_sig (code : list Z) (signature_slot : Z) : list Z * Z :=
  if signature_slot <? POLY_ABI_SIGNATURE_SLOT_COUNT then
    (emit_u32 code (aarch64_pcall_sig_imm signature_slot), 0)
  else (code, -1).

Definition emit_riscv_pcall_sig (code : list Z) (signature_slot : Z) : list Z * Z :=
  if signature_slot <? POLY_ABI_SIGNATURE_SLOT_COUNT then
    (emit_u32 code (riscv_pcall_sig_imm signature_slot), 0)
  else (code, -1).

(** ** Instruction formats *)

(** [n] bits of [w] from bit [lo]. *)
Definition bits (w lo n : Z) : Z := Z.land (Z.shiftr w lo) (Z.ones n).

(** The AArch64 instructions that the runtime emits, with their fields. *)
Inductive a64_insn :=
| A64_ADR (rd imm : Z)
| A64_MOVZ (rd imm16 hw : Z)
| A64_MOVK (rd imm16 hw : Z)
| A64_ORR (rd rn rm : Z)
| A64_UBFM (rd rn immr imms : Z)
| A64_FMOV_S_W (rd rn : Z)
| A64_FMOV_W_S (rd rn : Z)
| A64_BR (rn : Z)
| A64_CTRL (subop : Z)
| A64_ADDI (rd rn imm12 : Z)
| A64_SUBI (rd rn imm12 : Z)
| A64_LDR (rt rn imm : Z)
| A64_STR (rt rn imm : Z)
| A64_ADD (rd rn rm : Z)
| A64_MRS_TPIDR (rt : Z)
| A64_RET (rn : Z).

Definition a64_decode (w : Z) : option a64_insn :=
  let rd := bits w 0 5 in
  let rn := bits w 5 5 in
  if (bits w 24 5 =? 16) && (bits w 31 1 =? 0) then
    Some (A64_ADR rd (signed 21 (bits w 29 2 + 4 * bits w 5 19)))
  else if bits w 23 9 =? 0x1a5 then Some (A64_MOVZ rd (bits w 5 16) (bits w 21 2))
  else if bits w 23 9 =? 0x1e5 then Some (A64_MOVK rd (bits w 5 16) (bits w 21 2))
  else if (bits w 21 11 =? 0x550) && (bits w 10 6 =? 0) then Some (A64_ORR rd rn (bits w 16 5))
  else if bits w 22 10 =? 0x34d then Some (A64_UBFM rd rn (bits w 16 6) (bits w 10 6))
  else if bits w 10 22 =? 0x789c0 then Some (A64_FMOV_S_W rd rn)
  else if bits w 10 22 =? 0x78980 then Some (A64_FMOV_W_S rd rn)
  else if (bits w 10 22 =? 0x3587c0) && (rd =? 0) then Some (A64_BR rn)
  else if (bits w 12 20 =? 0xd5032) && (rd =? 31) then Some (A64_CTRL (bits w 5 7))
  else if bits w 22 10 =? 0x244 then Some (A64_ADDI rd rn (bits w 10 12))
  else if bits w 22 10 =? 0x344 then Some (A64_SUBI rd rn (bits w 10 12))
  else if bits w 22 10 =? 0x3e5 then Some (A64_LDR rd rn (8 * bits w 10 12))
  else if bits w 22 10 =? 0x3e4 then Some (A64_STR rd rn (8 * bits w 10 12))
  else if (bits w 21 11 =? 0x458) && (bits w 10 6 =? 0) then Some (A64_ADD rd rn (bits w 16 5))
  else if bits w 5 27 =? 0x6a9de82 then Some (A64_MRS_TPIDR rd)
  else if (bits w 10 22 =? 0x3597c0) && (rd =? 0) then Some (A64_RET rn)
  else None.

(** The RISC-V instructions that the runtime emits. *)
Inductive rv_insn :=
| RV_AUIPC (rd imm20 : Z)
| RV_ADDI (rd rs1 imm : Z)
| RV_JALR (rd rs1 imm : Z)
| RV_SLLI (rd rs1 shamt : Z)
| RV_SRLI (rd rs1 shamt : Z)
| RV_OR (rd rs1 rs2 : Z)
| RV_ADD (rd rs1 rs2 : Z)
| RV_LD (rd rs1 imm : Z)
| RV_SD (rs2 rs1 imm : Z)
| RV_FMV_X_W (rd rs1 : Z)
| RV_FMV_W_X (rd rs1 : Z)
| RV_CTRL (subop : Z).

Definition rv_decode (w : Z) : option rv_insn :=
  let opcode := bits w 0 7 in
  let rd := bits w 7 5 in
  let f3 := bits w 12 3 in
  let rs1 := bits w 15 5 in
  let rs2 := bits w 20 5 in
  let f7 := bits w 25 7 in
  let imm_i := signed 12 (bits w 20 12) in
  if opcode =? 0x17 then Some (RV_AUIPC rd (signed 20 (bits w 12 20)))
  else if (opcode =? 0x13) && (f3 =? 0) then Some (RV_ADDI rd rs1 imm_i)
  else if (opcode =? 0x13) && (f3 =? 1) && (bits w 26 6 =? 0) then
    Some (RV_SLLI rd rs1 (bits w 20 6))
  else if (opcode =? 0x13) && (f3 =? 5) && (bits w 26 6 =? 0) then
    Some (RV_SRLI rd rs1 (bits w 20 6))
  else if (opcode =? 0x67) && (f3 =? 0) then Some (RV_JALR rd rs1 imm_i)
  else if (opcode =? 0x33) && (f3 =? 6) && (f7 =? 0) then Some (RV_OR rd rs1 rs2)
  else if (opcode =? 0x33) && (f3 =? 0) && (f7 =? 0) then Some (RV_ADD rd rs1 rs2)
  else if (opcode =? 0x03) && (f3 =? 3) then Some (RV_LD rd rs1 imm_i)
  else if (opcode =? 0x23) && (f3 =? 3) then
    Some (RV_SD rs2 rs1 (signed 12 (bits w 7 5 + 32 * bits w 25 7)))
  else if (opcode =? 0x53) && (f7 =? 0x70) && (f3 =? 0) && (rs2 =? 0) then
    Some (RV_FMV_X_W rd rs1)
  else if (opcode =? 0x53) && (f7 =? 0x78) && (f3 =? 0) && (rs2 =? 0) then
    Some (RV_FMV_W_X rd rs1)
  else if (opcode =? 0x0b) && (f3 =? 7) then Some (RV_CTRL f7)
  else None.

Definition is_reg (r : Z) : Prop := 0 <= r < 32.

(** ** Bit fields *)

Lemma bits_div (w lo n : Z) : 0 <= lo -> 0 <= n -> bits w lo n = (w / 2 ^ lo) mod 2 ^ n.
Proof. intros. unfold bits. by rewrite Z.land_ones, Z.shiftr_div_pow2. Qed.

Lemma bits_lor (a b lo n : Z) : bits (a lor b) lo n = bits a lo n lor bits b lo n.
Proof. unfold bits. by rewrite Z.shiftr_lor, Z.land_lor_distr_l. Qed.

(** A field that lies outside the bits that are read. *)
Lemma bits_above (x k lo n : Z) :
  0 <= lo -> 0 <= n -> lo + n <= k -> bits (Z.shiftl x k) lo n = 0.
Proof.
  intros. rewrite bits_div, Z.shiftl_mul_pow2 by lia.
  replace (2 ^ k) with (2 ^ (k - lo - n) * 2 ^ n * 2 ^ lo)
    by (rewrite <- !Z.pow_add_r by lia; f_equal; lia).
  rewrite !Z.mul_assoc, Z.div_mul by lia. apply Z.mod_mul. lia.
Qed.

Lemma bits_below (x m k lo n : Z) :
  0 <= k -> 0 <= m -> k + m <= lo -> 0 <= n -> 0 <= x < 2 ^ m -> bits (Z.shiftl x k) lo n = 0.
Proof.
  intros. rewrite bits_div, Z.shiftl_mul_pow2 by lia. rewrite Z.div_small; [by rewrite Zmod_0_l|].
  split; [nia|]. apply Z.lt_le_trans with (2 ^ (k + m)); [|apply Z.pow_le_mono_r; lia].
  rewrite Z.pow_add_r by lia. nia.
Qed.

(** A field read back, in whole or a part of it. *)
Lemma bits_field (x k lo n : Z) :
  0 <= k <= lo -> 0 <= n -> bits (Z.shiftl x k) lo n = (x / 2 ^ (lo - k)) mod 2 ^ n.
Proof.
  intros. rewrite bits_div, Z.shiftl_mul_pow2 by lia.
  replace (2 ^ lo) with (2 ^ (lo - k) * 2 ^ k) by (rewrite <- Z.pow_add_r by lia; f_equal; lia).
  by rewrite Z.div_mul_cancel_r by lia.
Qed.

Lemma shl32_field (x m k : Z) :
  0 <= k -> 0 <= m -> k + m <= 32 -> 0 <= x < 2 ^ m -> shl32 x k = Z.shiftl x k.
Proof.
  intros. unfold shl32. apply wrap_small. unfold in_width.
  rewrite Z.shiftl_mul_pow2 by lia. split; [nia|].
  apply Z.lt_le_trans with (2 ^ (k + m)); [|apply Z.pow_le_mono_r; lia].
  rewrite Z.pow_add_r by lia. nia.
Qed.

(** Masks written as constants. *)
Lemma land_mask (x n m : Z) : 0 <= n -> m = Z.ones n -> x land m = x mod 2 ^ n.
Proof. intros ? ->. by apply Z.land_ones. Qed.

Ltac pow_literals :=
  repeat match goal with
  | |- context [2 ^ ?e] => let v := eval vm_compute in (2 ^ e) in change (2 ^ e) with v
  end.

Ltac div_lia := Z.div_mod_to_equations; lia.

(** Turns the masks and shifts of an encoder into fields. *)
Ltac encoder_fields :=
  repeat match goal with
  | |- context [Z.land ?x ?m] =>
      let n := eval vm_compute in (Z.log2 (m + 1)) in
      rewrite (land_mask x n m) by (lia || reflexivity)
  end;
  unfold wrap in *; pow_literals;
  repeat match goal with
  | |- context [?x mod ?n] => rewrite (Z.mod_small x n) by div_lia
  end;
  repeat match goal with
  | |- context [shl32 ?x ?k] => rewrite (shl32_field x (32 - k) k) by div_lia
  end.

(** Evaluates [bits] of a disjunction of fields with constant positions. *)
Ltac read_fields :=
  rewrite ?bits_lor;
  repeat match goal with
  | |- context [bits (Z.shiftl ?x ?k) ?lo ?n] =>
      first [rewrite (bits_above x k lo n) by lia | rewrite (bits_field x k lo n) by lia]
  | |- context [bits (Zpos ?c) ?lo ?n] =>
      let v := eval vm_compute in (bits (Zpos c) lo n) in
      change (bits (Zpos c) lo n) with v
  | |- context [bits ?x ?lo ?n] => rewrite (bits_div x lo n) by lia
  end;
  pow_literals;
  repeat match goal with
  | |- context [(?x / Zpos ?j) mod Zpos ?n] =>
      first [ replace ((x / Zpos j) mod Zpos n) with 0 by div_lia
            | replace ((x / Zpos j) mod Zpos n) with x by div_lia
            | let v := fresh "v" in
              set (v := (x / Zpos j) mod Zpos n);
              assert (v = 0 \/ v = 1 \/ v = 2 \/ v = 3) as [-> | [-> | [-> | ->]]] by (subst v; div_lia) ]
  end;
  rewrite ?Z.lor_0_l, ?Z.lor_0_r.

Ltac decide_fields :=
  repeat match goal with
  | |- context [bits ?w ?lo ?n =? ?c] =>
      first [ replace (bits w lo n =? c) with true by (symmetry; read_fields; reflexivity)
            | replace (bits w lo n =? c) with false by (symmetry; read_fields; reflexivity) ];
      cbn [andb]; cbv iota
  end.

Ltac solve_decode :=
  encoder_fields; decide_fields; repeat f_equal; read_fields; try reflexivity.

(** *** Encoders without immediates *)

Lemma aarch64_orr_reg_decode (rd rn rm : Z) : is_reg rd -> is_reg rn -> is_reg rm -> 
  a64_decode (aarch64_orr_reg rd rn rm) = Some (A64_ORR rd rn rm).
Proof. unfold is_reg, aarch64_orr_reg, a64_decode. intros. solve_decode. Qed.

Lemma aarch64_lsr_imm_decode (rd rn shift : Z) : is_reg rd -> is_reg rn -> 0 <= shift < 64 -> 
  a64_decode (aarch64_lsr_imm rd rn shift) = Some (A64_UBFM rd rn shift 63).
Proof. unfold is_reg, aarch64_lsr_imm, a64_decode. intros. solve_decode. Qed.

Lemma aarch64_lsl_imm_decode (rd rn shift : Z) : is_reg rd -> is_reg rn -> 0 <= shift < 64 -> 
  a64_decode (aarch64_lsl_imm rd rn shift) = Some (A64_UBFM rd rn ((64 - shift) mod 64) (63 - shift)).
Proof. unfold is_reg, aarch64_lsl_imm, a64_decode. intros. solve_decode. Qed.

Lemma aarch64_fmov_s_from_w_decode (rd rn : Z) : is_reg rd -> is_reg rn -> 
  a64_decode (aarch64_fmov_s_from_w rd rn) = Some (A64_FMOV_S_W rd rn).
Proof. unfold is_reg, aarch64_fmov_s_from_w, a64_decode. intros. solve_decode. Qed.

Lemma aarch64_fmov_w_from_s_decode (rd rn : Z) : is_reg rd -> is_reg rn -> 
  a64_decode (aarch64_fmov_w_from_s rd rn) = Some (A64_FMOV_W_S rd rn).
Proof. unfold is_reg, aarch64_fmov_w_from_s, a64_decode. intros. solve_decode. Qed.

Lemma aarch64_pcall_sig_imm_decode (slot : Z) : 0 <= slot < POLY_ABI_SIGNATURE_SLOT_COUNT -> 
  a64_decode (aarch64_pcall_sig_imm slot) = Some (A64_CTRL (0x50 + slot)).
Proof. unfold is_reg, aarch64_pcall_sig_imm, POLY_AARCH64_CTRL_CALL_SIG_IMM, POLY_AARCH64_CTRL_ENCODING,
    POLY_ABI_SIGNATURE_SLOT_COUNT, a64_decode. intros. solve_decode. Qed.

Lemma riscv_slli_decode (rd rs1 shamt : Z) : is_reg rd -> is_reg rs1 -> 0 <= shamt < 64 -> 
  rv_decode (riscv_slli rd rs1 shamt) = Some (RV_SLLI rd rs1 shamt).
Proof. unfold is_reg, riscv_slli, rv_decode. intros. solve_decode. Qed.

Lemma riscv_srli_decode (rd rs1 shamt : Z) : is_reg rd -> is_reg rs1 -> 0 <= shamt < 64 -> 
  rv_decode (riscv_srli rd rs1 shamt) = Some (RV_SRLI rd rs1 shamt).
Proof. unfold is_reg, riscv_srli, rv_decode. intros. solve_decode. Qed.

Lemma riscv_or_decode (rd rs1 rs2 : Z) : is_reg rd -> is_reg rs1 -> is_reg rs2 -> 
  rv_decode (riscv_or rd rs1 rs2) = Some (RV_OR rd rs1 rs2).
Proof. unfold is_reg, riscv_or, rv_decode. intros. solve_decode. Qed.

Lemma riscv_add_decode (rd rs1 rs2 : Z) : is_reg rd -> is_reg rs1 -> is_reg rs2 -> 
  rv_decode (riscv_add rd rs1 rs2) = Some (RV_ADD rd rs1 rs2).
Proof. unfold is_reg, riscv_add, rv_decode. intros. solve_decode. Qed.

Lemma riscv_fmv_x_w_decode (rd rs1 : Z) : is_reg rd -> is_reg rs1 -> 
  rv_decode (riscv_fmv_x_w rd rs1) = Some (RV_FMV_X_W rd rs1).
Proof. unfold is_reg, riscv_fmv_x_w, rv_decode. intros. solve_decode. Qed.

Lemma riscv_fmv_w_x_decode (rd rs1 : Z) : is_reg rd -> is_reg rs1 -> 
  rv_decode (riscv_fmv_w_x rd rs1) = Some (RV_FMV_W_X rd rs1).
Proof. unfold is_reg, riscv_fmv_w_x, rv_decode. intros. solve_decode. Qed.

Lemma riscv_pcall_sig_imm_decode (slot : Z) : 0 <= slot < POLY_ABI_SIGNATURE_SLOT_COUNT -> 
  rv_decode (riscv_pcall_sig_imm slot) = Some (RV_CTRL (32 + slot)).
Proof. unfold is_reg, riscv_pcall_sig_imm, POLY_RISCV_CTRL_CALL_SIG_IMM, POLY_RISCV_CTRL_ENCODING,
    POLY_ABI_SIGNATURE_SLOT_COUNT, rv_decode. intros. solve_decode. Qed.

(** *** Encoders with immediates *)

Ltac solve_imm := unfold signed, wrap; pow_literals; destruct_ifs; breflect; div_lia.

Lemma aarch64_adr_decode (rd off : Z) : is_reg rd -> - 2 ^ 20 <= off < 2 ^ 20 ->
  a64_decode (aarch64_adr rd off) = Some (A64_ADR rd off).
Proof.
  unfold is_reg, aarch64_adr, a64_decode. intros.
  rewrite Z.shiftr_div_pow2 by lia. solve_decode. solve_imm.
Qed.

(** The two words that [emit_aarch64_movabs] is made of. *)
Definition movz_word (rd value : Z) : Z :=
  0xd2800000 lor shl32 (u32 value land 0xffff) 5 lor (rd land 0x1f).
Definition movk_word (hw rd value : Z) : Z :=
  (0xf2800000 + hw * 2 ^ 21) lor shl32 (u32 (Z.shiftr value (16 * hw)) land 0xffff) 5 lor (rd land 0x1f).

Lemma movz_word_decode (rd value : Z) : is_reg rd ->
  a64_decode (movz_word rd value) = Some (A64_MOVZ rd (value mod 2 ^ 16) 0).
Proof.
  unfold is_reg, movz_word, a64_decode. intros. solve_decode. div_lia.
Qed.

Lemma movk_word_decode (hw rd value : Z) : is_reg rd -> hw = 1 \/ hw = 2 \/ hw = 3 ->
  a64_decode (movk_word hw rd value) = Some (A64_MOVK rd ((value / 2 ^ (16 * hw)) mod 2 ^ 16) hw).
Proof.
  unfold is_reg, movk_word, a64_decode. intros Hrd [-> | [-> | ->]];
  match goal with |- context [0xf2800000 + ?h] =>
    let c := eval vm_compute in (0xf2800000 + h) in change (0xf2800000 + h) with c end;
  rewrite Z.shiftr_div_pow2 by lia; pow_literals; solve_decode; div_lia.
Qed.

Lemma riscv_jalr_decode (rd rs1 off : Z) : is_reg rd -> is_reg rs1 -> - 2 ^ 11 <= off < 2 ^ 11 ->
  rv_decode (riscv_jalr rd rs1 off) = Some (RV_JALR rd rs1 off).
Proof. unfold is_reg, riscv_jalr, rv_decode. intros. solve_decode. solve_imm. Qed.

Lemma riscv_ld_decode (rd rs1 off : Z) : is_reg rd -> is_reg rs1 -> - 2 ^ 11 <= off < 2 ^ 11 ->
  rv_decode (riscv_ld rd rs1 off) = Some (RV_LD rd rs1 off).
Proof. unfold is_reg, riscv_ld, rv_decode. intros. solve_decode. solve_imm. Qed.

Lemma riscv_sd_decode (rs2 rs1 off : Z) : is_reg rs2 -> is_reg rs1 -> - 2 ^ 11 <= off < 2 ^ 11 ->
  rv_decode (riscv_sd rs2 rs1 off) = Some (RV_SD rs2 rs1 off).
Proof.
  unfold is_reg, riscv_sd, rv_decode. intros. rewrite Z.shiftr_div_pow2 by lia.
  solve_decode. solve_imm.
Qed.

(** The pair splits an offset into an upper part and a signed lower part. *)
Lemma riscv_auipc_decode (rd off : Z) : is_reg rd -> - 2 ^ 31 - 2 ^ 11 <= off < 2 ^ 31 - 2 ^ 11 ->
  rv_decode (riscv_auipc rd off) = Some (RV_AUIPC rd ((off + 2 ^ 11) / 2 ^ 12)).
Proof.
  unfold is_reg, riscv_auipc, rv_decode. intros.
  rewrite Z.shiftr_div_pow2 by lia. solve_decode. solve_imm.
Qed.

Lemma riscv_addi_decode (rd rs1 off : Z) : is_reg rd -> is_reg rs1 ->
  rv_decode (riscv_addi rd rs1 off) =
  Some (RV_ADDI rd rs1 (off - 2 ^ 12 * ((off + 2 ^ 11) / 2 ^ 12))).
Proof.
  unfold is_reg, riscv_addi, rv_decode. intros.
  rewrite Z.shiftl_mul_pow2, Z.shiftr_div_pow2 by lia. solve_decode. solve_imm.
Qed.

(** ** The emitters write little-endian words *)

Lemma land_ff_shiftr (v k : Z) : 0 <= k -> Z.land (Z.shiftr v k) 0xff = (v / 2 ^ k) mod 256.
Proof. intros. by rewrite (land_mask _ 8), Z.shiftr_div_pow2. Qed.

Lemma emit_u32_le (code : list Z) (v : Z) : emit_u32 code v = code ++ le_bytes 4 v.
Proof.
  unfold emit_u32. f_equal. rewrite !land_ff_shiftr by lia. rewrite (land_mask _ 8) by (lia || done).
  simpl le_bytes. rewrite !Z.div_div by lia. done.
Qed.

Lemma emit_u64_le (code : list Z) (v : Z) : emit_u64 code v = code ++ le_bytes 8 v.
Proof.
  unfold emit_u64. f_equal. cbn [seq fmap list_fmap]. rewrite !land_ff_shiftr by lia.
  simpl le_bytes. rewrite !Z.div_div by lia. simpl. by rewrite Z.div_1_r.
Qed.

Lemma emit_aarch64_movabs_words (code : list Z) (rd v : Z) :
  emit_aarch64_movabs code rd v =
  code ++ le_bytes 4 (movz_word rd v) ++ le_bytes 4 (movk_word 1 rd v) ++
    le_bytes 4 (movk_word 2 rd v) ++ le_bytes 4 (movk_word 3 rd v).
Proof.
  unfold emit_aarch64_movabs. by rewrite !emit_u32_le, <- !app_assoc.
Qed.

(** ** Shifts by an immediate *)

(** The bit-field move that AArch64 shifts by an immediate are aliases of. *)
Definition ubfm (x immr imms : Z) : Z :=
  if immr <=? imms then (x / 2 ^ immr) mod 2 ^ (imms - immr + 1)
  else (x mod 2 ^ (imms + 1)) * 2 ^ (64 - immr).

Lemma ubfm_lsr (x shift : Z) : in_width 64 x -> 0 <= shift < 64 -> ubfm x shift 63 = Z.shiftr x shift.
Proof.
  unfold in_width. intros Hx Hs. unfold ubfm. replace (shift <=? 63) with true by lia.
  rewrite Z.shiftr_div_pow2 by lia. apply Z.mod_small. split; [apply Z.div_pos; lia|].
  apply Z.div_lt_upper_bound; [lia|]. rewrite <- Z.pow_add_r by lia.
  replace (shift + (63 - shift + 1)) with 64 by lia. lia.
Qed.

Lemma ubfm_lsl (x shift : Z) : in_width 64 x -> 0 <= shift < 64 ->
  ubfm x ((64 - shift) mod 64) (63 - shift) = u64 (Z.shiftl x shift).
Proof.
  unfold in_width. intros Hx Hs. unfold ubfm, wrap. rewrite Z.shiftl_mul_pow2 by lia.
  destruct (decide (shift = 0)) as [->|Hne].
  - replace ((64 - 0) mod 64) with 0 by done. simpl. by rewrite Z.div_1_r, Z.mul_1_r.
  - rewrite (Z.mod_small (64 - shift)) by lia. replace (64 - shift <=? 63 - shift) with false by lia.
    replace (64 - (64 - shift)) with shift by lia. replace (63 - shift + 1) with (64 - shift) by lia.
    replace (2 ^ 64) with (2 ^ (64 - shift) * 2 ^ shift) by (rewrite <- Z.pow_add_r by lia; f_equal; lia).
    by rewrite Z.mul_mod_distr_r by lia.
Qed.

(** Every instruction encoder produces the instruction it is named after,
    with the registers and the immediate it was given: the word decodes to that
    instruction in the format of its architecture, for every register number
    and every immediate the format can hold; the AArch64 immediate shifts are
    the bit-field moves that shift by that amount. *)
Theorem encoders_decode (rd r1 r2 : Z) : is_reg rd -> is_reg r1 -> is_reg r2 ->
  (forall off, - 2 ^ 20 <= off < 2 ^ 20 -> a64_decode (aarch64_adr rd off) = Some (A64_ADR rd off)) /\
  a64_decode (aarch64_orr_reg rd r1 r2) = Some (A64_ORR rd r1 r2) /\
  a64_decode (aarch64_fmov_s_from_w rd r1) = Some (A64_FMOV_S_W rd r1) /\
  a64_decode (aarch64_fmov_w_from_s rd r1) = Some (A64_FMOV_W_S rd r1) /\
  (forall shift x, 0 <= shift < 64 -> in_width 64 x -> exists immr imms immr' imms',
    a64_decode (aarch64_lsr_imm rd r1 shift) = Some (A64_UBFM rd r1 immr imms) /\
    ubfm x immr imms = Z.shiftr x shift /\
    a64_decode (aarch64_lsl_imm rd r1 shift) = Some (A64_UBFM rd r1 immr' imms') /\
    ubfm x immr' imms' = u64 (Z.shiftl x shift)) /\
  (forall slot, 0 <= slot < POLY_ABI_SIGNATURE_SLOT_COUNT ->
    a64_decode (aarch64_pcall_sig_imm slot) = Some (A64_CTRL (0x50 + slot)) /\
    rv_decode (riscv_pcall_sig_imm slot) = Some (RV_CTRL (32 + slot))) /\
  (forall off, - 2 ^ 11 <= off < 2 ^ 11 ->
    rv_decode (riscv_jalr rd r1 off) = Some (RV_JALR rd r1 off) /\
    rv_decode (riscv_ld rd r1 off) = Some (RV_LD rd r1 off) /\
    rv_decode (riscv_sd r2 r1 off) = Some (RV_SD r2 r1 off)) /\
  (forall off, - 2 ^ 31 - 2 ^ 11 <= off < 2 ^ 31 - 2 ^ 11 -> exists hi lo,
    rv_decode (riscv_auipc rd off) = Some (RV_AUIPC rd hi) /\
    rv_decode (riscv_addi rd r1 off) = Some (RV_ADDI rd r1 lo) /\ hi * 2 ^ 12 + lo = off) /\
  (forall shamt, 0 <= shamt < 64 ->
    rv_decode (riscv_slli rd r1 shamt) = Some (RV_SLLI rd r1 shamt) /\
    rv_decode (riscv_srli rd r1 shamt) = Some (RV_SRLI rd r1 shamt)) /\
  rv_decode (riscv_or rd r1 r2) = Some (RV_OR rd r1 r2) /\
  rv_decode (riscv_add rd r1 r2) = Some (RV_ADD rd r1 r2) /\
  rv_decode (riscv_fmv_x_w rd r1) = Some (RV_FMV_X_W rd r1) /\
  rv_decode (riscv_fmv_w_x rd r1) = Some (RV_FMV_W_X rd r1).
Proof.
  intros H0 H1 H2. repeat split; intros;
    eauto using aarch64_adr_decode, aarch64_orr_reg_decode, aarch64_fmov_s_from_w_decode,
      aarch64_fmov_w_from_s_decode, aarch64_pcall_sig_imm_decode, riscv_pcall_sig_imm_decode,
      riscv_jalr_decode, riscv_ld_decode, riscv_sd_decode, riscv_slli_decode, riscv_srli_decode,
      riscv_or_decode, riscv_add_decode, riscv_fmv_x_w_decode, riscv_fmv_w_x_decode.
  - do 4 eexists. split; [by apply aarch64_lsr_imm_decode|]. split; [by apply ubfm_lsr|].
    split; [by apply aarch64_lsl_imm_decode|]. by apply ubfm_lsl.
  - do 2 eexists. split; [by apply riscv_auipc_decode|]. split; [by apply riscv_addi_decode|]. lia.
Qed.

Lemma encoders_decode_witness :
  aarch64_adr 30 (-8) = 0x10ffffde /\ a64_decode 0x10ffffde = Some (A64_ADR 30 (-8)).
Proof.
  split; [reflexivity|].
  destruct (encoders_decode 30 0 0 ltac:(unfold is_reg; lia) ltac:(unfold is_reg; lia)
    ltac:(unfold is_reg; lia)) as [H _].
  exact (H (-8) ltac:(lia)).
Defined.
