(* ===== verification/Trampoline.v ===== *)
(** The entry trampolines of [tools/runtime/polyexec.c]: the code that enters a
    loaded program of any architecture from x86 and the code that calls an
    IFUNC resolver and comes back.

    What the emitted bytes do is given by a small machine with the three
    frontends: x86 with the instructions the runtime emits, AArch64 and RISC-V
    through the decoders of the instruction formats, and the control
    instructions that enter a frontend and escape from it.  How the control
    instructions carry register values between the frontends is a property of
    the processor and a parameter. *)

From stdpp Require Import relations.
From S2P Require Import Prelude BridgeSpec ElfImage CodeEmit.

(** ** The trampolines *)

Definition poly_trampoline_prefix_size (arch : Z) : Z :=
  if arch =? POLY_ARCH_AARCH64 then x86_penter_frontend_max_size POLY_ARCH_AARCH64 + 4 + 20
  else if arch =? POLY_ARCH_RISCV then x86_penter_frontend_max_size POLY_ARCH_RISCV + 8 + 12
  else if arch =? POLY_ARCH_X86 then POLY_X86_TRAMPOLINE_SIZE
  else 0.

(** [(int64_t) pc - (int64_t) (uintptr_t) (code + offset)] *)
Definition pc_offset (addr : Z) (code : list Z) (pc : Z) : Z :=
  signed 64 pc - signed 64 (addr + Z.of_nat (length code)).

(** The code before the padding. *)
Definition trampoline_body (arch addr return_pc target_pc : Z) (tail_entry : bool) : list Z :=
  if arch =? POLY_ARCH_AARCH64 then
    let code := emit_x86_penter_frontend addr [] POLY_ARCH_AARCH64 in
    let code := emit_u32 code (aarch64_adr 30 (pc_offset addr code return_pc)) in
    let code := emit_aarch64_movabs code 16 target_pc in
    emit_u32 code 0xd61f0200
  else if arch =? POLY_ARCH_RISCV then
    let code := emit_x86_penter_frontend addr [] POLY_ARCH_RISCV in
    let escape_offset := pc_offset addr code return_pc in
    let code := emit_u32 code (riscv_auipc 1 escape_offset) in
    let code := emit_u32 code (riscv_addi 1 1 escape_offset) in
    let target_offset := pc_offset addr code target_pc in
    let code := emit_u32 code (riscv_auipc 5 target_offset) in
    let code := emit_u32 code (riscv_addi 5 5 target_offset) in
    emit_u32 code (riscv_jalr 0 5 0)
  else if arch =? POLY_ARCH_X86 then
    let code := emit_x86_movabs_r11 [] target_pc in
    code ++ [0x41; 0xff; if tail_entry then 0xe3 else 0xd3; if tail_entry then 0x90 else 0xc3]
  else [].

Definition emit_poly_trampoline (arch addr prefix_size return_pc target_pc : Z)
    (tail_entry : bool) : list Z * Z :=
  let code := trampoline_body arch addr return_pc target_pc tail_entry in
  let code := code ++ replicate (Z.to_nat (prefix_size - Z.of_nat (length code))) 0x90 in
  if Z.of_nat (length code) =? prefix_size then (code, 0) else (code, -1).

(** The address that the emitted resolver call returns to. *)
Definition resolver_return_pc (arch addr : Z) : Z :=
  u64 (addr + 20 + x86_penter_frontend_size_for_code addr 20 arch + 8).

Definition emit_poly_resolver_trampoline (arch addr code_size target_pc : Z) : list Z * Z :=
  if arch =? POLY_ARCH_AARCH64 then
    let penter_size := x86_penter_frontend_size_for_code addr 20 POLY_ARCH_AARCH64 in
    if code_size <? 20 + penter_size + 8 + 4 + 1 then ([], -1)
    else
      let code := emit_u64 [0x48; 0xb8] target_pc in
      let code := emit_u64 (code ++ [0x48; 0xba]) (resolver_return_pc arch addr) in
      let code := emit_x86_penter_frontend addr code POLY_ARCH_AARCH64 in
      let code := emit_u32 code 0xaa0103fe in
      let code := emit_u32 code 0xd61f0000 in
      let code := emit_u32 code POLY_AARCH64_CTRL_X86_ESCAPE in
      (code ++ [0xc3], 0)
  else if arch =? POLY_ARCH_RISCV then
    let penter_size := x86_penter_frontend_size_for_code addr 20 POLY_ARCH_RISCV in
    if code_size <? 20 + penter_size + 8 + 4 + 1 then ([], -1)
    else
      let code := emit_u64 [0x48; 0xb8] target_pc in
      let code := emit_u64 (code ++ [0x48; 0xba]) (resolver_return_pc arch addr) in
      let code := emit_x86_penter_frontend addr code POLY_ARCH_RISCV in
      let code := emit_u32 code (riscv_addi 1 11 0) in
      let code := emit_u32 code (riscv_jalr 0 10 0) in
      let code := emit_u32 code POLY_RISCV_CTRL_X86_ESCAPE in
      (code ++ [0xc3], 0)
  else ([], -1).

(** ** The machine *)

Definition regfile : Type := Z -> Z.
Definition set_reg (f : regfile) (r v : Z) : regfile := fun q => if q =? r then v else f q.

(** x86 register numbers *)
Definition RAX : Z := 0.
Definition RDX : Z := 2.
Definition RBX : Z := 3.
Definition R11 : Z := 11.
Definition R15 : Z := 15.

Record machine := Machine {
  mode : Z;
  pc : Z;
  x86 : regfile;
  a64 : regfile;
  rv : regfile;
  (** the return addresses on the x86 stack, the top one first *)
  stack : list Z;
}.

Definition goto (m : machine) (to : Z) : machine :=
  Machine (mode m) to (x86 m) (a64 m) (rv m) (stack m).
Definition set_x86 (m : machine) (r v : Z) : machine :=
  Machine (mode m) (pc m) (set_reg (x86 m) r v) (a64 m) (rv m) (stack m).
Definition set_stack (m : machine) (s : list Z) : machine :=
  Machine (mode m) (pc m) (x86 m) (a64 m) (rv m) s.

(** Register 31 of AArch64 and register 0 of RISC-V are zero here. *)
Definition get_a64 (m : machine) (r : Z) : Z := if r =? 31 then 0 else a64 m r.
Definition set_a64 (m : machine) (r v : Z) : machine :=
  Machine (mode m) (pc m) (x86 m) (if r =? 31 then a64 m else set_reg (a64 m) r v) (rv m) (stack m).
Definition get_rv (m : machine) (r : Z) : Z := if r =? 0 then 0 else rv m r.
Definition set_rv (m : machine) (r v : Z) : machine :=
  Machine (mode m) (pc m) (x86 m) (a64 m) (if r =? 0 then rv m else set_reg (rv m) r v) (stack m).

(** ** Lemmas on the emitted bytes *)

Lemma bits_mod (w lo n : Z) : 0 <= lo -> 0 <= n -> lo + n <= 32 -> bits (w mod 2 ^ 32) lo n = bits w lo n.
Proof.
  intros. rewrite <- Z.land_ones by lia. unfold bits.
  rewrite Z.shiftr_land, <- Z.land_assoc. f_equal. apply Z.bits_inj'. intros k Hk.
  rewrite Z.land_spec, Z.shiftr_spec by lia.
  destruct (Z.ltb_spec k n).
  - rewrite (Z.ones_spec_low n k), (Z.ones_spec_low 32) by lia. done.
  - rewrite (Z.ones_spec_high n k) by lia. by rewrite andb_false_r.
Qed.

Lemma a64_decode_mod (w : Z) : a64_decode (w mod 2 ^ 32) = a64_decode w.
Proof. unfold a64_decode. by rewrite !bits_mod by lia. Qed.

Lemma rv_decode_mod (w : Z) : rv_decode (w mod 2 ^ 32) = rv_decode w.
Proof. unfold rv_decode. by rewrite !bits_mod by lia. Qed.

(** The entry sequence: padding, [mov r15d, f], the control instruction. *)
Definition penter_bytes (k : nat) (f : Z) : list Z :=
  replicate k 0x90 ++ ([0x41; 0xbf] ++ le_bytes 4 f) ++ [0x0f; 0x3a; 0xfc; 0x03].

Lemma penter_bytes_length (k : nat) (f : Z) : length (penter_bytes k f) = (k + 10)%nat.
Proof. unfold penter_bytes. rewrite !length_app, length_replicate, le_bytes_length. simpl. lia. Qed.

Lemma aligned_next (a : Z) : a mod 4 = 0 -> (a + 4) mod 4 = 0.
Proof. intros. div_lia. Qed.

(** Four 16-bit moves assemble a 64-bit value. *)
Lemma movabs_value (t : Z) : in_width 64 t ->
  let put (v hw : Z) := v + ((t / 2 ^ (16 * hw)) mod 2 ^ 16 - (v / 2 ^ (16 * hw)) mod 2 ^ 16) * 2 ^ (16 * hw) in
  put (put (put (t mod 2 ^ 16 * 2 ^ (16 * 0)) 1) 2) 3 = t.
Proof. intros Ht put. unfold in_width in Ht. subst put. cbv beta. pow_literals. div_lia. Qed.

(** The offsets that an [auipc]/[addi] pair can reach. *)
Definition rv_reach (off : Z) : Prop := - 2 ^ 31 - 2 ^ 11 <= off < 2 ^ 31 - 2 ^ 11.

Lemma auipc_addi_value (p off : Z) :
  u64 (u64 (p + (off + 2 ^ 11) / 2 ^ 12 * 2 ^ 12) + (off - 2 ^ 12 * ((off + 2 ^ 11) / 2 ^ 12))) =
  u64 (p + off).
Proof. unfold wrap. rewrite Zplus_mod_idemp_l. f_equal. lia. Qed.

(** The padding aligns what follows the entry sequence to four bytes. *)
Lemma penter_frontend_bytes (addr f : Z) (code : list Z) :
  f = POLY_ARCH_AARCH64 \/ f = POLY_ARCH_RISCV ->
  0 <= addr -> addr + Z.of_nat (length code) + 10 < 2 ^ 64 -> exists k : nat, (k <= 3)%nat /\
  emit_x86_penter_frontend addr code f = code ++ penter_bytes k f /\
  x86_penter_frontend_size_for_code addr (Z.of_nat (length code)) f = Z.of_nat k + 10 /\
  (addr + Z.of_nat (length code) + Z.of_nat k + 10) mod 4 = 0.
Proof.
  intros Hf Ha Hs. set (t := addr + Z.of_nat (length code) + 10).
  assert (x86_penter_frontend_size_for_code addr (Z.of_nat (length code)) f = 10 + (4 - t mod 4) mod 4) as E.
  { unfold x86_penter_frontend_size_for_code, poly_frontend_entry_alignment.
    replace ((f =? POLY_ARCH_AARCH64) || (f =? POLY_ARCH_RISCV)) with true by (by destruct Hf as [-> | ->]).
    change (4 >? 1) with true. cbv iota. change (4 - 1) with 3. unfold POLY_X86_PENTER_BASE_SIZE.
    fold t. rewrite (wrap_small 64 t) by (unfold in_width; lia).
    rewrite !(land_mask _ 2 3) by (lia || done). rewrite wrap_small; [done|].
    unfold in_width. pose proof (Z.mod_pos_bound t (2 ^ 2) ltac:(lia)). lia. }
  exists (Z.to_nat ((4 - t mod 4) mod 4)).
  pose proof (Z.mod_pos_bound (4 - t mod 4) 4 ltac:(lia)) as Hb.
  rewrite E, Z2Nat.id by lia. split; [lia|]. split; [|split; [lia|]].
  - unfold emit_x86_penter_frontend, emit_x86_entry_alignment, emit_x86_poly_control. rewrite E, emit_u32_le.
    unfold POLY_X86_PENTER_BASE_SIZE, penter_bytes. rewrite <- !app_assoc. do 3 f_equal. lia.
  - replace (_ + _ + _ + 10) with (t + (4 - t mod 4) mod 4) by lia. clear E Hb. div_lia.
Qed.

Section Machine.
  (** The code and its address, and what entering a frontend and escaping to
      x86 do to the registers. *)
  Context (base : Z) (code : list Z).
  Context (enter_a64 enter_rv : regfile -> regfile -> regfile).
  Context (escape_x86 : Z -> machine -> regfile).

  (** The bytes from address [a] on. *)
Definition window (a : Z) : list Z := if base <=? a then drop (Z.to_nat (a - base)) code else [].

Definition frontend_enter (m : machine) (f next : Z) : option machine :=
  if negb (next mod 4 =? 0) then None
  else if f =? POLY_ARCH_AARCH64 then
    Some (Machine f next (x86 m) (enter_a64 (x86 m) (a64 m)) (rv m) (stack m))
  else if f =? POLY_ARCH_RISCV then
    Some (Machine f next (x86 m) (a64 m) (enter_rv (x86 m) (rv m)) (stack m))
  else None.

Definition frontend_escape (m : machine) (next : Z) : machine :=
  Machine POLY_ARCH_X86 next (escape_x86 (mode m) m) (a64 m) (rv m) (stack m).

Definition x86_step (m : machine) : option machine :=
  match window (pc m) with
  | 0x90 :: _ => Some (goto m (pc m + 1))
  | 0xc3 :: _ =>
      match stack m with
      | r :: s => Some (goto (set_stack m s) r)
      | [] => None
      end
  | 0x41 :: 0xbf :: b0 :: b1 :: b2 :: b3 :: _ =>
      Some (goto (set_x86 m R15 (le_value [b0; b1; b2; b3])) (pc m + 6))
  | 0x41 :: 0xff :: 0xe3 :: _ => Some (goto m (x86 m R11))
  | 0x41 :: 0xff :: 0xd3 :: _ => Some (goto (set_stack m (pc m + 3 :: stack m)) (x86 m R11))
  | 0x48 :: 0xb8 :: b0 :: b1 :: b2 :: b3 :: b4 :: b5 :: b6 :: b7 :: _ =>
      Some (goto (set_x86 m RAX (le_value [b0; b1; b2; b3; b4; b5; b6; b7])) (pc m + 10))
  | 0x48 :: 0xba :: b0 :: b1 :: b2 :: b3 :: b4 :: b5 :: b6 :: b7 :: _ =>
      Some (goto (set_x86 m RDX (le_value [b0; b1; b2; b3; b4; b5; b6; b7])) (pc m + 10))
  | 0x49 :: 0xbb :: b0 :: b1 :: b2 :: b3 :: b4 :: b5 :: b6 :: b7 :: _ =>
      Some (goto (set_x86 m R11 (le_value [b0; b1; b2; b3; b4; b5; b6; b7])) (pc m + 10))
  | 0x0f :: 0x3a :: 0xfc :: 0x03 :: _ => frontend_enter m (x86 m R15) (pc m + 4)
  | _ => None
  end.

Definition a64_exec (m : machine) (i : a64_insn) : option machine :=
  let next := pc m + 4 in
  match i with
  | A64_ADR rd imm => Some (goto (set_a64 m rd (u64 (pc m + imm))) next)
  | A64_MOVZ rd imm hw => Some (goto (set_a64 m rd (imm * 2 ^ (16 * hw))) next)
  | A64_MOVK rd imm hw =>
      let old := get_a64 m rd in
      let field := (old / 2 ^ (16 * hw)) mod 2 ^ 16 in
      Some (goto (set_a64 m rd (old + (imm - field) * 2 ^ (16 * hw))) next)
  | A64_ORR rd rn rm => Some (goto (set_a64 m rd (get_a64 m rn lor get_a64 m rm)) next)
  | A64_UBFM rd rn immr imms => Some (goto (set_a64 m rd (ubfm (get_a64 m rn) immr imms)) next)
  | A64_BR rn => Some (goto m (get_a64 m rn))
  | A64_CTRL subop => if subop =? 0x70 then Some (frontend_escape m next) else None
  | _ => None
  end.

Definition rv_exec (m : machine) (i : rv_insn) : option machine :=
  let next := pc m + 4 in
  match i with
  | RV_AUIPC rd imm => Some (goto (set_rv m rd (u64 (pc m + imm * 2 ^ 12))) next)
  | RV_ADDI rd rs1 imm => Some (goto (set_rv m rd (u64 (get_rv m rs1 + imm))) next)
  | RV_JALR rd rs1 imm =>
      let to := u64 (get_rv m rs1 + imm) in
      Some (goto (set_rv m rd next) (to - to mod 2))
  | RV_SLLI rd rs1 s => Some (goto (set_rv m rd (u64 (Z.shiftl (get_rv m rs1) s))) next)
  | RV_SRLI rd rs1 s => Some (goto (set_rv m rd (Z.shiftr (get_rv m rs1) s)) next)
  | RV_OR rd rs1 rs2 => Some (goto (set_rv m rd (get_rv m rs1 lor get_rv m rs2)) next)
  | RV_ADD rd rs1 rs2 => Some (goto (set_rv m rd (u64 (get_rv m rs1 + get_rv m rs2))) next)
  | RV_CTRL subop => if subop =? 0 then Some (frontend_escape m next) else None
  | RV_LD _ _ _ | RV_SD _ _ _ | RV_FMV_X_W _ _ | RV_FMV_W_X _ _ => None
  end.

(** A foreign instruction is a little-endian 32-bit word at an aligned address. *)
Definition fetch32 (m : machine) : option Z :=
  match window (pc m) with
  | b0 :: b1 :: b2 :: b3 :: _ =>
      if pc m mod 4 =? 0 then Some (le_value [b0; b1; b2; b3]) else None
  | _ => None
  end.

Definition step (m : machine) : option machine :=
  if mode m =? POLY_ARCH_X86 then x86_step m
  else if mode m =? POLY_ARCH_AARCH64 then w ← fetch32 m; i ← a64_decode w; a64_exec m i
  else if mode m =? POLY_ARCH_RISCV then w ← fetch32 m; i ← rv_decode w; rv_exec m i
  else None.

Definition steps : machine -> machine -> Prop := rtc (fun m m' => step m = Some m').

(** ** Executing emitted code *)

Lemma window_next (a : Z) (l rest : list Z) :
  window a = l ++ rest -> l <> [] -> window (a + Z.of_nat (length l)) = rest.
Proof using.
  unfold window. intros H Hl. destruct (Z.leb_spec base a); [|by destruct l].
  rewrite (proj2 (Z.leb_le base (a + Z.of_nat (length l)))) by lia.
  replace (Z.to_nat (a + Z.of_nat (length l) - base)) with (Z.to_nat (a - base) + length l)%nat by lia.
  by rewrite <- drop_drop, H, drop_app_length.
Qed.

Lemma fetch32_word (m : machine) (w : Z) (rest : list Z) :
  window (pc m) = le_bytes 4 w ++ rest -> pc m mod 4 = 0 -> fetch32 m = Some (w mod 2 ^ 32).
Proof using.
  intros Hw Ha. unfold fetch32. rewrite Hw. cbn [le_bytes app]. rewrite Ha. simpl (0 =? 0). cbv iota.
  f_equal. exact (le_value_bytes 4 w).
Qed.

Lemma a64_step (m m' : machine) (w : Z) (i : a64_insn) (rest : list Z) :
  mode m = POLY_ARCH_AARCH64 -> window (pc m) = le_bytes 4 w ++ rest -> pc m mod 4 = 0 ->
  a64_decode w = Some i -> a64_exec m i = Some m' -> step m = Some m'.
Proof using.
  intros Hm Hw Ha Hd He. unfold step. rewrite Hm. cbn [Z.eqb POLY_ARCH_X86 POLY_ARCH_AARCH64 Pos.eqb].
  rewrite (fetch32_word m w rest) by done. cbn [mbind option_bind]. by rewrite a64_decode_mod, Hd.
Qed.

Lemma rv_step (m m' : machine) (w : Z) (i : rv_insn) (rest : list Z) :
  mode m = POLY_ARCH_RISCV -> window (pc m) = le_bytes 4 w ++ rest -> pc m mod 4 = 0 ->
  rv_decode w = Some i -> rv_exec m i = Some m' -> step m = Some m'.
Proof using.
  intros Hm Hw Ha Hd He. unfold step. rewrite Hm. cbn [Z.eqb POLY_ARCH_X86 POLY_ARCH_AARCH64 POLY_ARCH_RISCV Pos.eqb].
  rewrite (fetch32_word m w rest) by done. cbn [mbind option_bind]. by rewrite rv_decode_mod, Hd.
Qed.

Lemma nop_steps (k : nat) (rest : list Z) : forall m,
  mode m = POLY_ARCH_X86 -> window (pc m) = replicate k 0x90 ++ rest ->
  steps m (goto m (pc m + Z.of_nat k)) /\ window (pc m + Z.of_nat k) = rest.
Proof using.
  induction k as [|k IH]; intros m Hm Hw; cbn [replicate app] in Hw.
  - rewrite Z.add_0_r. split; [destruct m; apply rtc_refl|done].
  - pose proof (window_next (pc m) [0x90] (replicate k 0x90 ++ rest) Hw ltac:(done)) as Hn.
    destruct (IH (goto m (pc m + 1)) Hm Hn) as [IH1 IH2]. simpl in *.
    replace (pc m + Z.of_nat (S k)) with (pc m + 1 + Z.of_nat k) by lia. split; [|done].
    apply rtc_l with (goto m (pc m + 1)); [|done]. unfold step, x86_step. rewrite Hm, Hw. done.
Qed.

(** The machine after the entry sequence for frontend [f] that ends at [next]. *)
Definition entered (m : machine) (f next : Z) : machine :=
  let regs := set_reg (x86 m) R15 f in
  Machine f next regs
    (if f =? POLY_ARCH_AARCH64 then enter_a64 regs (a64 m) else a64 m)
    (if f =? POLY_ARCH_RISCV then enter_rv regs (rv m) else rv m) (stack m).

Lemma penter_steps (m : machine) (k : nat) (f : Z) (rest : list Z) :
  f = POLY_ARCH_AARCH64 \/ f = POLY_ARCH_RISCV -> mode m = POLY_ARCH_X86 ->
  window (pc m) = penter_bytes k f ++ rest -> (pc m + Z.of_nat k + 10) mod 4 = 0 ->
  steps m (entered m f (pc m + Z.of_nat k + 10)) /\ window (pc m + Z.of_nat k + 10) = rest.
Proof using.
  intros Hf Hm Hw Ha. unfold penter_bytes in Hw. rewrite <- !app_assoc in Hw.
  destruct (nop_steps k _ m Hm Hw) as [S1 W1].
  pose proof (window_next _ ([0x41; 0xbf] ++ le_bytes 4 f) _ W1 ltac:(done)) as W2.
  pose proof (window_next _ [0x0f; 0x3a; 0xfc; 0x03] _ W2 ltac:(done)) as W3.
  simpl length in W2, W3. change (Z.of_nat 6) with 6 in *. change (Z.of_nat 4) with 4 in *.
  rewrite <- !Z.add_assoc in W3. rewrite <- Z.add_assoc. split; [|exact W3].
  etransitivity; [exact S1|].
  eapply rtc_l; [unfold step, x86_step; simpl mode; rewrite Hm; simpl pc; rewrite W1; reflexivity|].
  eapply rtc_l; [|apply rtc_refl].
  unfold step, x86_step; simpl mode; rewrite Hm; simpl pc; rewrite W2.
  cbn [Z.eqb POLY_ARCH_X86]. unfold frontend_enter.
  replace (pc m + Z.of_nat k + 6 + 4) with (pc m + (Z.of_nat k + 10)) by lia.
  rewrite Z.add_assoc, Ha. unfold entered. by destruct Hf as [-> | ->].
Qed.

Lemma window_word (m : machine) (w : Z) (rest : list Z) :
  window (pc m) = le_bytes 4 w ++ rest -> pc m mod 4 = 0 ->
  window (pc m + 4) = rest /\ (pc m + 4) mod 4 = 0.
Proof using.
  intros Hw Ha. split; [|by apply aligned_next].
  pose proof (window_next (pc m) (le_bytes 4 w) rest Hw ltac:(done)) as H.
  by rewrite le_bytes_length in H.
Qed.

(** Executes one instruction of a state in constructor form. *)
Ltac exec_insn :=
  cbv beta iota zeta delta [a64_exec rv_exec goto set_a64 get_a64 set_rv get_rv frontend_escape
    mode pc x86 a64 rv stack Z.eqb Pos.eqb]; reflexivity.

Ltac next_a64 W A W' A' dec :=
  let H := fresh in
  eapply rtc_l; [eapply a64_step; [reflexivity|exact W|exact A|dec|exec_insn]|];
  match type of W with window ?p = le_bytes 4 ?w ++ ?rest =>
    pose proof (window_word (Machine 0 p (fun _ => 0) (fun _ => 0) (fun _ => 0) []) w rest W A) as H
  end;
  destruct H as [W' A']; cbn [pc] in W', A'.

Ltac next_rv W A W' A' dec :=
  let H := fresh in
  eapply rtc_l; [eapply rv_step; [reflexivity|exact W|exact A|dec|exec_insn]|];
  match type of W with window ?p = le_bytes 4 ?w ++ ?rest =>
    pose proof (window_word (Machine 0 p (fun _ => 0) (fun _ => 0) (fun _ => 0) []) w rest W A) as H
  end;
  destruct H as [W' A']; cbn [pc] in W', A'.

(** The AArch64 part of the trampoline. *)
Lemma a64_body_steps (m : machine) (off target : Z) (rest : list Z) :
  mode m = POLY_ARCH_AARCH64 -> pc m mod 4 = 0 -> - 2 ^ 20 <= off < 2 ^ 20 -> in_width 64 target ->
  window (pc m) = le_bytes 4 (aarch64_adr 30 off) ++ le_bytes 4 (movz_word 16 target) ++
    le_bytes 4 (movk_word 1 16 target) ++ le_bytes 4 (movk_word 2 16 target) ++
    le_bytes 4 (movk_word 3 16 target) ++ le_bytes 4 0xd61f0200 ++ rest ->
  exists m', steps m m' /\ mode m' = POLY_ARCH_AARCH64 /\ pc m' = target /\
    a64 m' 30 = u64 (pc m + off) /\ stack m' = stack m /\
    (forall r, r <> 30 -> r <> 16 -> a64 m' r = a64 m r).
Proof using.
  intros Hm A0 Ho Ht W0. destruct m as [md p0 x a v st]. cbn [mode pc] in *. subst md.
  eexists. split.
  { next_a64 W0 A0 W1 A1 ltac:(apply aarch64_adr_decode; unfold is_reg; lia).
    next_a64 W1 A1 W2 A2 ltac:(apply movz_word_decode; unfold is_reg; lia).
    next_a64 W2 A2 W3 A3 ltac:(apply movk_word_decode; unfold is_reg; lia).
    next_a64 W3 A3 W4 A4 ltac:(apply movk_word_decode; unfold is_reg; lia).
    next_a64 W4 A4 W5 A5 ltac:(apply movk_word_decode; unfold is_reg; lia).
    eapply rtc_l; [eapply a64_step; [reflexivity|exact W5|exact A5|reflexivity|exec_insn]|].
    apply rtc_refl. }
  cbn [mode pc a64 stack]. unfold set_reg; cbn [Z.eqb Pos.eqb].
  split; [done|]. split; [exact (movabs_value target Ht)|].
  split; [done|]. split; [done|]. intros r H1 H2.
  by rewrite (proj2 (Z.eqb_neq r 16) H2), (proj2 (Z.eqb_neq r 30) H1).
Qed.

(** The RISC-V part of the trampoline. *)
Lemma rv_body_steps (m : machine) (o1 o2 target : Z) (rest : list Z) :
  mode m = POLY_ARCH_RISCV -> pc m mod 4 = 0 -> rv_reach o1 -> rv_reach o2 ->
  u64 (pc m + 8 + o2) = target -> target mod 2 = 0 ->
  window (pc m) = le_bytes 4 (riscv_auipc 1 o1) ++ le_bytes 4 (riscv_addi 1 1 o1) ++
    le_bytes 4 (riscv_auipc 5 o2) ++ le_bytes 4 (riscv_addi 5 5 o2) ++
    le_bytes 4 (riscv_jalr 0 5 0) ++ rest ->
  exists m', steps m m' /\ mode m' = POLY_ARCH_RISCV /\ pc m' = target /\
    rv m' 1 = u64 (pc m + o1) /\ stack m' = stack m /\
    (forall r, r <> 1 -> r <> 5 -> rv m' r = rv m r).
Proof using.
  intros Hm A0 Ho1 Ho2 Ht He W0. destruct m as [md p0 x a v st]. cbn [mode pc] in *. subst md.
  eexists. split.
  { next_rv W0 A0 W1 A1 ltac:(apply riscv_auipc_decode; [unfold is_reg; lia|exact Ho1]).
    next_rv W1 A1 W2 A2 ltac:(apply riscv_addi_decode; unfold is_reg; lia).
    next_rv W2 A2 W3 A3 ltac:(apply riscv_auipc_decode; [unfold is_reg; lia|exact Ho2]).
    next_rv W3 A3 W4 A4 ltac:(apply riscv_addi_decode; unfold is_reg; lia).
    next_rv W4 A4 W5 A5 ltac:(apply riscv_jalr_decode; unfold is_reg; lia).
    apply rtc_refl. }
  cbn [mode pc rv stack]. unfold set_reg; cbn [Z.eqb Pos.eqb].
  rewrite !auipc_addi_value, Z.add_0_r.
  replace (p0 + 4 + 4 + o2) with (p0 + 8 + o2) by lia. rewrite wrap_wrap by lia. rewrite Ht, He.
  split; [done|]. split; [lia|]. split; [done|]. split; [done|]. intros r H1 H2.
  by rewrite (proj2 (Z.eqb_neq r 5) H2), (proj2 (Z.eqb_neq r 1) H1).
Qed.

(** The resolver calls: the link register gets the second register and control
    goes to the first. *)
Lemma a64_call_steps (m : machine) (rest : list Z) :
  mode m = POLY_ARCH_AARCH64 -> pc m mod 4 = 0 ->
  window (pc m) = le_bytes 4 0xaa0103fe ++ le_bytes 4 0xd61f0000 ++ rest ->
  (exists m', steps m m' /\ mode m' = POLY_ARCH_AARCH64 /\ pc m' = a64 m 0 /\
    a64 m' 30 = a64 m 1 /\ stack m' = stack m) /\
  window (pc m + 8) = rest /\ (pc m + 8) mod 4 = 0.
Proof using.
  intros Hm A0 W0. destruct m as [md p0 x a v st]. cbn [mode pc] in *. subst md. split.
  - eexists. split.
    { next_a64 W0 A0 W1 A1 ltac:(exact (eq_refl (Some (A64_ORR 30 31 1)))).
      next_a64 W1 A1 W2 A2 ltac:(exact (eq_refl (Some (A64_BR 0)))). apply rtc_refl. }
    done.
  - destruct (window_word (Machine 0 p0 x a v st) _ _ W0 A0) as [W1 A1]. cbn [pc] in *.
    destruct (window_word (Machine 0 (p0 + 4) x a v st) _ _ W1 A1) as [W2 A2]. cbn [pc] in *.
    rewrite <- Z.add_assoc in W2, A2. by split.
Qed.

Lemma rv_call_steps (m : machine) (rest : list Z) :
  mode m = POLY_ARCH_RISCV -> pc m mod 4 = 0 ->
  in_width 64 (rv m 11) -> in_width 64 (rv m 10) -> rv m 10 mod 2 = 0 ->
  window (pc m) = le_bytes 4 (riscv_addi 1 11 0) ++ le_bytes 4 (riscv_jalr 0 10 0) ++ rest ->
  (exists m', steps m m' /\ mode m' = POLY_ARCH_RISCV /\ pc m' = rv m 10 /\
    rv m' 1 = rv m 11 /\ stack m' = stack m) /\
  window (pc m + 8) = rest /\ (pc m + 8) mod 4 = 0.
Proof using.
  intros Hm A0 H11 H10 He W0. destruct m as [md p0 x a v st]. cbn [mode pc rv] in *. subst md. split.
  - eexists. split.
    { next_rv W0 A0 W1 A1 ltac:(exact (eq_refl (Some (RV_ADDI 1 11 0)))).
      next_rv W1 A1 W2 A2 ltac:(exact (eq_refl (Some (RV_JALR 0 10 0)))). apply rtc_refl. }
    cbn [mode pc rv stack]. unfold set_reg. cbn [Z.eqb Pos.eqb]. rewrite !Z.add_0_r, !wrap_small, He by done.
    split; [done|]. split; [lia|done].
  - destruct (window_word (Machine 0 p0 x a v st) _ _ W0 A0) as [W1 A1]. cbn [pc] in *.
    destruct (window_word (Machine 0 (p0 + 4) x a v st) _ _ W1 A1) as [W2 A2]. cbn [pc] in *.
    rewrite <- Z.add_assoc in W2, A2. by split.
Qed.

(** The escape to x86 and the return to the x86 caller. *)
Lemma escape_steps (m : machine) (w r : Z) (s rest : list Z) :
  mode m = POLY_ARCH_AARCH64 /\ w = POLY_AARCH64_CTRL_X86_ESCAPE \/
  mode m = POLY_ARCH_RISCV /\ w = POLY_RISCV_CTRL_X86_ESCAPE ->
  pc m mod 4 = 0 -> window (pc m) = le_bytes 4 w ++ 0xc3 :: rest -> stack m = r :: s ->
  exists m', steps m m' /\ mode m' = POLY_ARCH_X86 /\ pc m' = r /\ stack m' = s.
Proof using.
  intros Hm A0 W0 Hs. destruct (window_word m _ _ W0 A0) as [W1 _].
  exists (goto (set_stack (frontend_escape m (pc m + 4)) s) r). split; [|done].
  apply rtc_l with (frontend_escape m (pc m + 4)).
  - destruct Hm as [[Hm ->] | [Hm ->]].
    + eapply a64_step; [done|exact W0|done|reflexivity|reflexivity].
    + eapply rv_step; [done|exact W0|done|reflexivity|reflexivity].
  - apply rtc_once. unfold step, x86_step, frontend_escape.
    cbn [mode pc stack Z.eqb POLY_ARCH_X86]. by rewrite W1, Hs.
Qed.

End Machine.

(** ** The trampolines work *)

Lemma window_start (base : Z) (code : list Z) : window base code base = code.
Proof. unfold window. by rewrite Z.leb_refl, Z.sub_diag. Qed.

Lemma signed_small (z : Z) : 0 <= z < 2 ^ 63 -> signed 64 z = z.
Proof.
  intros. unfold signed. rewrite wrap_small by (unfold in_width; lia). by destruct_ifs; breflect; [|lia].
Qed.

Lemma pc_offset_small (addr p : Z) (code : list Z) :
  0 <= addr -> addr + Z.of_nat (length code) < 2 ^ 63 -> 0 <= p < 2 ^ 63 ->
  pc_offset addr code p = p - (addr + Z.of_nat (length code)).
Proof. intros. unfold pc_offset. by rewrite !signed_small by lia. Qed.

Lemma a64_trampoline_bytes (addr ret target : Z) (tail : bool) :
  0 <= addr -> addr + 64 < 2 ^ 63 -> 0 <= ret < 2 ^ 63 -> exists k : nat, (k <= 3)%nat /\
  x86_penter_frontend_size_for_code addr 0 POLY_ARCH_AARCH64 = Z.of_nat k + 10 /\
  (addr + Z.of_nat k + 10) mod 4 = 0 /\
  trampoline_body POLY_ARCH_AARCH64 addr ret target tail =
    penter_bytes k POLY_ARCH_AARCH64 ++ le_bytes 4 (aarch64_adr 30 (ret - (addr + Z.of_nat k + 10))) ++
    le_bytes 4 (movz_word 16 target) ++ le_bytes 4 (movk_word 1 16 target) ++
    le_bytes 4 (movk_word 2 16 target) ++ le_bytes 4 (movk_word 3 16 target) ++ le_bytes 4 0xd61f0200 ++ [].
Proof.
  intros Ha Hs Hr.
  destruct (penter_frontend_bytes addr POLY_ARCH_AARCH64 [] ltac:(auto) Ha ltac:(simpl; lia))
    as (k & Hk & E & Es & Al).
  exists k. rewrite Z.add_0_r in Al. do 3 (split; [done|]).
  unfold trampoline_body. cbn [Z.eqb POLY_ARCH_AARCH64 Pos.eqb]. fold POLY_ARCH_AARCH64.
  rewrite E. cbn [app].
  rewrite pc_offset_small by (rewrite ?penter_bytes_length; lia).
  rewrite penter_bytes_length, !emit_u32_le, emit_aarch64_movabs_words, <- !app_assoc.
  do 4 f_equal. lia.
Qed.

Lemma rv_trampoline_bytes (addr ret target : Z) (tail : bool) :
  0 <= addr -> addr + 64 < 2 ^ 63 -> 0 <= ret < 2 ^ 63 -> 0 <= target < 2 ^ 63 ->
  exists k : nat, (k <= 3)%nat /\
  x86_penter_frontend_size_for_code addr 0 POLY_ARCH_RISCV = Z.of_nat k + 10 /\
  (addr + Z.of_nat k + 10) mod 4 = 0 /\
  let o1 := ret - (addr + Z.of_nat k + 10) in
  let o2 := target - (addr + Z.of_nat k + 10 + 8) in
  trampoline_body POLY_ARCH_RISCV addr ret target tail =
    penter_bytes k POLY_ARCH_RISCV ++ le_bytes 4 (riscv_auipc 1 o1) ++ le_bytes 4 (riscv_addi 1 1 o1) ++
    le_bytes 4 (riscv_auipc 5 o2) ++ le_bytes 4 (riscv_addi 5 5 o2) ++ le_bytes 4 (riscv_jalr 0 5 0) ++ [].
Proof.
  intros Ha Hs Hr Ht.
  destruct (penter_frontend_bytes addr POLY_ARCH_RISCV [] ltac:(auto) Ha ltac:(simpl; lia))
    as (k & Hk & E & Es & Al).
  exists k. rewrite Z.add_0_r in Al. do 3 (split; [done|]). intros o1 o2.
  unfold trampoline_body. cbn [Z.eqb POLY_ARCH_AARCH64 POLY_ARCH_RISCV Pos.eqb]. fold POLY_ARCH_RISCV.
  rewrite E. cbn [app]. rewrite !emit_u32_le.
  rewrite !pc_offset_small by (rewrite ?length_app, ?penter_bytes_length, ?le_bytes_length; lia).
  rewrite !length_app, !penter_bytes_length, !le_bytes_length, <- !app_assoc.
  replace (ret - (addr + Z.of_nat (k + 10))) with o1 by lia.
  replace (target - (addr + Z.of_nat (k + 10 + 4 + 4))) with o2 by lia. done.
Qed.

(** The return and target addresses are near enough to the code for the
    instructions that the trampoline uses. *)
Definition trampoline_reaches (arch addr ret target : Z) : Prop :=
  let e := addr + x86_penter_frontend_size_for_code addr 0 arch in
  arch = POLY_ARCH_X86 \/
  arch = POLY_ARCH_AARCH64 /\ - 2 ^ 20 <= ret - e < 2 ^ 20 \/
  arch = POLY_ARCH_RISCV /\ rv_reach (ret - e) /\ rv_reach (target - (e + 8)) /\ target mod 2 = 0.

(** The link register of a frontend. *)
Definition link_register (m : machine) : Z :=
  if mode m =? POLY_ARCH_AARCH64 then a64 m 30 else rv m 1.

(** What running a trampoline for [arch] from [m] must lead to. *)
Definition enters (run : machine -> machine -> Prop) (arch addr ret target : Z) (tail : bool)
    (m : machine) : Prop :=
  exists m', run m m' /\ mode m' = arch /\ pc m' = target /\
    (arch <> POLY_ARCH_X86 -> link_register m' = ret /\ stack m' = stack m) /\
    (arch = POLY_ARCH_X86 ->
      stack m' = (if tail then stack m else addr + 13 :: stack m) /\
      forall m2 r s, tail = false -> mode m2 = POLY_ARCH_X86 -> pc m2 = addr + 13 -> stack m2 = r :: s ->
        run m2 (goto (set_stack m2 s) r)).

Section TrampolineRuns.
  Context (enter_a64 enter_rv : regfile -> regfile -> regfile) (escape_x86 : Z -> machine -> regfile).
  Context (addr ret target : Z) (tail : bool) (m : machine) (pad : list Z).
  Context (Ha : 0 <= addr) (Hs : addr + 64 < 2 ^ 63) (Hr : 0 <= ret < 2 ^ 63) (Ht : 0 <= target < 2 ^ 63).
  Context (Hm : mode m = POLY_ARCH_X86) (Hp : pc m = addr).

Let run (arch : Z) : machine -> machine -> Prop :=
  steps addr (trampoline_body arch addr ret target tail ++ pad) enter_a64 enter_rv escape_x86.

Lemma a64_trampoline_enters :
  trampoline_reaches POLY_ARCH_AARCH64 addr ret target ->
  enters (run POLY_ARCH_AARCH64) POLY_ARCH_AARCH64 addr ret target tail m.
Proof using All.
  intros [?|[[_ Hreach]|[? _]]]; [done| |done].
  destruct (a64_trampoline_bytes addr ret target tail Ha Hs Hr) as (k & Hk & Es & Al & E).
  rewrite Es in Hreach. unfold enters, run. rewrite E, <- app_assoc.
  match goal with |- context [steps addr ?c] => set (code := c) end.
  destruct (penter_steps addr code enter_a64 enter_rv escape_x86 m k POLY_ARCH_AARCH64
    _ (or_introl eq_refl) Hm ltac:(rewrite Hp; apply window_start) ltac:(by rewrite Hp)) as [S1 W1].
  rewrite Hp in S1, W1. rewrite <- !app_assoc in W1.
  destruct (a64_body_steps addr code enter_a64 enter_rv escape_x86
    (entered enter_a64 enter_rv m POLY_ARCH_AARCH64 (addr + Z.of_nat k + 10))
    (ret - (addr + Z.of_nat k + 10)) target _
    eq_refl Al ltac:(lia) ltac:(unfold in_width; lia) W1) as (m' & S2 & Hm' & Hp' & Hl & Hst & _).
  exists m'. split; [by etransitivity|]. do 2 (split; [done|]). split; [|done].
  intros _. unfold link_register. rewrite Hm', Hl. cbn [pc entered]. split; [|done].
  cbn [Z.eqb POLY_ARCH_AARCH64 Pos.eqb]. rewrite wrap_small by (unfold in_width; lia). lia.
Qed.

Lemma rv_trampoline_enters :
  trampoline_reaches POLY_ARCH_RISCV addr ret target ->
  enters (run POLY_ARCH_RISCV) POLY_ARCH_RISCV addr ret target tail m.
Proof using All.
  intros [?|[[? _]|(_ & R1 & R2 & Hev)]]; [done|done|].
  destruct (rv_trampoline_bytes addr ret target tail Ha Hs Hr Ht) as (k & Hk & Es & Al & E).
  rewrite Es in R1, R2. unfold enters, run. rewrite E, <- app_assoc.
  match goal with |- context [steps addr ?c] => set (code := c) end.
  destruct (penter_steps addr code enter_a64 enter_rv escape_x86 m k POLY_ARCH_RISCV
    _ (or_intror eq_refl) Hm ltac:(rewrite Hp; apply window_start) ltac:(by rewrite Hp)) as [S1 W1].
  rewrite Hp in S1, W1. rewrite <- !app_assoc in W1. rewrite !Z.add_assoc in R1, R2.
  destruct (rv_body_steps addr code enter_a64 enter_rv escape_x86
    (entered enter_a64 enter_rv m POLY_ARCH_RISCV (addr + Z.of_nat k + 10))
    (ret - (addr + Z.of_nat k + 10)) (target - (addr + Z.of_nat k + 10 + 8)) target _
    eq_refl Al R1 R2 ltac:(cbn [pc entered]; rewrite wrap_small by (unfold in_width; lia); lia) Hev W1)
    as (m' & S2 & Hm' & Hp' & Hl & Hst & _).
  exists m'. split; [by etransitivity|]. do 2 (split; [done|]). split; [|done].
  intros _. unfold link_register. rewrite Hm', Hl. cbn [pc entered]. split; [|done].
  cbn [Z.eqb POLY_ARCH_AARCH64 POLY_ARCH_RISCV Pos.eqb]. rewrite wrap_small by (unfold in_width; lia). lia.
Qed.

Lemma x86_trampoline_enters : enters (run POLY_ARCH_X86) POLY_ARCH_X86 addr ret target tail m.
Proof using All.
  unfold enters, run.
  match goal with |- context [steps addr ?c] => set (code := c) end.
  assert (window addr code addr = ([0x49; 0xbb] ++ le_bytes 8 target) ++
    [0x41; 0xff; if tail then 0xe3 else 0xd3] ++ [if tail then 0x90 else 0xc3] ++ pad) as W0.
  { rewrite window_start. unfold code, trampoline_body. cbn [Z.eqb POLY_ARCH_AARCH64 POLY_ARCH_RISCV POLY_ARCH_X86].
    unfold emit_x86_movabs_r11. rewrite emit_u64_le, <- !app_assoc. done. }
  pose proof (window_next addr code addr _ _ W0 ltac:(done)) as W1.
  pose proof (window_next addr code _ _ _ W1 ltac:(done)) as W2.
  rewrite length_app, le_bytes_length in W1, W2. cbn [length] in W1, W2.
  replace (addr + Z.of_nat (2 + 8)) with (addr + 10) in W1 by lia.
  replace (addr + Z.of_nat (2 + 8) + Z.of_nat 3) with (addr + 13) in W2 by lia.
  exists (goto (set_stack (set_x86 m R11 target) (if tail then stack m else addr + 13 :: stack m)) target).
  split; [|split; [done|split; [done|split; [done|]]]].
  - apply rtc_l with (goto (set_x86 m R11 target) (addr + 10)).
    + unfold step, x86_step. rewrite Hm, Hp, W0. cbn [Z.eqb POLY_ARCH_X86 le_bytes app].
      do 3 f_equal. change (le_value (le_bytes 8 target) = target).
      rewrite le_value_bytes. apply wrap_small. unfold in_width. simpl. lia.
    + apply rtc_once. unfold step, x86_step. cbn [mode pc goto set_x86 stack]. rewrite Hm, W1.
      replace (addr + 10 + 3) with (addr + 13) by lia. destruct m; by destruct tail.
  - intros _. split; [done|]. intros m2 r s -> Hm2 Hp2 Hst. apply rtc_once.
    unfold step, x86_step. rewrite Hm2, Hp2, W2. cbn [Z.eqb POLY_ARCH_X86 app]. by rewrite Hst.
Qed.
End TrampolineRuns.

Lemma trampoline_body_length (arch addr ret target : Z) (tail : bool) :
  0 <= addr -> addr + 64 < 2 ^ 63 -> 0 <= ret < 2 ^ 63 -> 0 <= target < 2 ^ 63 ->
  Z.of_nat (length (trampoline_body arch addr ret target tail)) <= poly_trampoline_prefix_size arch.
Proof.
  intros Ha Hs Hr Ht.
  destruct (decide (arch = POLY_ARCH_AARCH64)) as [->|N1].
  { destruct (a64_trampoline_bytes addr ret target tail Ha Hs Hr) as (k & Hk & _ & _ & ->).
    rewrite !length_app, penter_bytes_length, !le_bytes_length. change (poly_trampoline_prefix_size _) with 37.
    simpl length. lia. }
  destruct (decide (arch = POLY_ARCH_RISCV)) as [->|N2].
  { destruct (rv_trampoline_bytes addr ret target tail Ha Hs Hr Ht) as (k & Hk & _ & _ & ->).
    rewrite !length_app, penter_bytes_length, !le_bytes_length. change (poly_trampoline_prefix_size _) with 33.
    simpl length. lia. }
  unfold trampoline_body, poly_trampoline_prefix_size.
  rewrite (proj2 (Z.eqb_neq _ _) N1), (proj2 (Z.eqb_neq _ _) N2).
  destruct (arch =? POLY_ARCH_X86); [|simpl; lia].
  unfold emit_x86_movabs_r11. rewrite emit_u64_le, !length_app, le_bytes_length. done.
Qed.



(** ** The resolver call *)

Lemma movabs_step (base : Z) (code : list Z) (ea er : regfile -> regfile -> regfile)
    (ex : Z -> machine -> regfile) (m : machine) (b r v : Z) (rest : list Z) :
  b = 0xb8 /\ r = RAX \/ b = 0xba /\ r = RDX -> mode m = POLY_ARCH_X86 -> in_width 64 v ->
  window base code (pc m) = ([0x48; b] ++ le_bytes 8 v) ++ rest ->
  step base code ea er ex m = Some (goto (set_x86 m r v) (pc m + 10)) /\
  window base code (pc m + 10) = rest.
Proof.
  intros Hb Hm Hv Hw. split.
  - unfold step, x86_step. rewrite Hm, Hw.
    assert (le_value (le_bytes 8 v) = v) as E by (rewrite le_value_bytes; by apply wrap_small).
    destruct Hb as [[-> ->] | [-> ->]]; cbn [Z.eqb POLY_ARCH_X86 app le_bytes].
    + exact (f_equal (fun z => Some (goto (set_x86 m RAX z) (pc m + 10))) E).
    + exact (f_equal (fun z => Some (goto (set_x86 m RDX z) (pc m + 10))) E).
  - pose proof (window_next base code _ _ _ Hw ltac:(done)) as H.
    by rewrite length_app, le_bytes_length in H.
Qed.

(** The prefix sizes for which [run_irelative_resolver] would reuse the entry
    trampoline instead of emitting a resolver call. *)
Definition resolver_expected_prefix_size (arch : Z) : Z :=
  if arch =? POLY_ARCH_AARCH64 then 18 else if arch =? POLY_ARCH_RISCV then 30 else 0.

(** No program has such a prefix size: the resolver call below is always used. *)
Lemma resolver_prefix_never_expected (arch root_arch : Z) :
  resolver_expected_prefix_size arch <> 0 ->
  poly_trampoline_prefix_size root_arch <> resolver_expected_prefix_size arch.
Proof.
  unfold resolver_expected_prefix_size, poly_trampoline_prefix_size.
  change (x86_penter_frontend_max_size POLY_ARCH_AARCH64) with 13.
  change (x86_penter_frontend_max_size POLY_ARCH_RISCV) with 13. unfold POLY_X86_TRAMPOLINE_SIZE.
  destruct_ifs; lia.
Qed.

(** The two instructions of the call and the escape of a frontend. *)
Definition resolver_words (arch : Z) : Z * Z * Z :=
  if arch =? POLY_ARCH_AARCH64 then (0xaa0103fe, 0xd61f0000, POLY_AARCH64_CTRL_X86_ESCAPE)
  else (riscv_addi 1 11 0, riscv_jalr 0 10 0, POLY_RISCV_CTRL_X86_ESCAPE).

Lemma resolver_bytes (arch addr code_size target : Z) :
  arch = POLY_ARCH_AARCH64 \/ arch = POLY_ARCH_RISCV ->
  0 <= addr -> addr + 64 < 2 ^ 63 -> 64 <= code_size -> exists k : nat, (k <= 3)%nat /\
  (addr + 20 + Z.of_nat k + 10) mod 4 = 0 /\
  resolver_return_pc arch addr = addr + 20 + Z.of_nat k + 10 + 8 /\
  let '(w1, w2, esc) := resolver_words arch in
  emit_poly_resolver_trampoline arch addr code_size target =
    (([0x48; 0xb8] ++ le_bytes 8 target) ++ ([0x48; 0xba] ++ le_bytes 8 (resolver_return_pc arch addr)) ++
     penter_bytes k arch ++ le_bytes 4 w1 ++ le_bytes 4 w2 ++ le_bytes 4 esc ++ [0xc3], 0).
Proof.
  intros Hf Ha Hs Hc.
  set (head := ([0x48; 0xb8] ++ le_bytes 8 target) ++ [0x48; 0xba] ++ le_bytes 8 (resolver_return_pc arch addr)).
  assert (Z.of_nat (length head) = 20) as Hl.
  { unfold head. by rewrite !length_app, !le_bytes_length. }
  destruct (penter_frontend_bytes addr arch head Hf Ha ltac:(lia)) as (k & Hk & E & Es & Al).
  rewrite Hl in Es, Al. exists k. do 2 (split; [done|]). split.
  { unfold resolver_return_pc. rewrite Es, wrap_small; [lia|]. unfold in_width; lia. }
  unfold emit_poly_resolver_trampoline, resolver_words.
  destruct Hf as [-> | ->]; cbn [Z.eqb POLY_ARCH_AARCH64 POLY_ARCH_RISCV Pos.eqb];
    rewrite Es; replace (code_size <? _) with false by lia;
    rewrite !emit_u64_le, <- app_assoc; fold head; rewrite E, !emit_u32_le; unfold head;
    rewrite <- !app_assoc; done.
Qed.

(** The call of either frontend. *)
Lemma call_steps (base : Z) (code : list Z) (ea er : regfile -> regfile -> regfile)
    (ex : Z -> machine -> regfile) (m : machine) (arch w1 w2 esc target R : Z) (rest : list Z) :
  resolver_words arch = (w1, w2, esc) -> mode m = arch -> pc m mod 4 = 0 ->
  arch = POLY_ARCH_AARCH64 /\ a64 m 0 = target /\ a64 m 1 = R \/
  arch = POLY_ARCH_RISCV /\ rv m 10 = target /\ rv m 11 = R /\
    in_width 64 target /\ in_width 64 R /\ target mod 2 = 0 ->
  window base code (pc m) = le_bytes 4 w1 ++ le_bytes 4 w2 ++ rest ->
  (exists m', steps base code ea er ex m m' /\ mode m' = arch /\ pc m' = target /\
    link_register m' = R /\ stack m' = stack m) /\
  window base code (pc m + 8) = rest /\ (pc m + 8) mod 4 = 0.
Proof.
  intros Hw Hm Al [(-> & H0 & H1)|(-> & H0 & H1 & Ht & HR & He)] W; unfold resolver_words in Hw;
    simpl in Hw; injection Hw as <- <- <-; unfold link_register.
  - destruct (a64_call_steps base code ea er ex m rest Hm Al W) as [(m' & S & Hm' & Hp & Hl & Hs) HW].
    split; [|done]. exists m'. rewrite Hm', Hp, Hl, H0, H1. done.
  - subst target R.
    destruct (rv_call_steps base code ea er ex m rest Hm Al HR Ht He W) as [(m' & S & Hm' & Hp & Hl & Hs) HW].
    split; [|done]. exists m'. rewrite Hm'. done.
Qed.

(** Calling an IFUNC resolver through its trampoline works and comes back:
    the code fits the buffer, run from x86 it reaches the resolver in its
    frontend with a return address in the link register, and when the resolver
    returns there the machine escapes to x86 and returns to the x86 caller.
    The only assumption on the processor is the documented one that entering
    the frontend passes rax and rdx as the first two argument registers. *)
Theorem resolver_call_returns (enter_a64 enter_rv : regfile -> regfile -> regfile)
    (escape_x86 : Z -> machine -> regfile) (arch addr code_size target : Z) (m : machine) :
  (forall x f, enter_a64 x f 0 = x RAX /\ enter_a64 x f 1 = x RDX) ->
  (forall x f, enter_rv x f 10 = x RAX /\ enter_rv x f 11 = x RDX) ->
  arch = POLY_ARCH_AARCH64 \/ arch = POLY_ARCH_RISCV -> (arch = POLY_ARCH_RISCV -> target mod 2 = 0) ->
  0 <= addr -> addr + 64 < 2 ^ 63 -> 0 <= target < 2 ^ 63 -> 64 <= code_size ->
  mode m = POLY_ARCH_X86 -> pc m = addr ->
  exists code m', emit_poly_resolver_trampoline arch addr code_size target = (code, 0) /\
    Z.of_nat (length code) <= code_size /\
    let run := steps addr code enter_a64 enter_rv escape_x86 in
    run m m' /\ mode m' = arch /\ pc m' = target /\ stack m' = stack m /\
    forall m2 r s, mode m2 = arch -> pc m2 = link_register m' -> stack m2 = r :: s ->
      exists m3, run m2 m3 /\ mode m3 = POLY_ARCH_X86 /\ pc m3 = r /\ stack m3 = s.
Proof.
  intros HA HR Hf Hev Ha Hs Ht Hc Hm Hp.
  destruct (resolver_bytes arch addr code_size target Hf Ha Hs Hc) as (k & Hk & Al & Er & E).
  destruct (resolver_words arch) as [[w1 w2] esc] eqn:Ew.
  set (R := resolver_return_pc arch addr) in *.
  match type of E with _ = (?c, 0) => set (code := c) in E end.
  assert (window addr code addr = code) as W0 by apply window_start.
  destruct (movabs_step addr code enter_a64 enter_rv escape_x86 m 0xb8 RAX target _
    (or_introl (conj eq_refl eq_refl)) Hm ltac:(unfold in_width; lia) ltac:(rewrite Hp; exact W0)) as [S1 W1].
  destruct (movabs_step addr code enter_a64 enter_rv escape_x86 (goto (set_x86 m RAX target) (pc m + 10))
    0xba RDX R _ (or_intror (conj eq_refl eq_refl)) Hm ltac:(unfold in_width; lia) W1) as [S2 W2].
  cbn [pc goto] in S2, W2. rewrite Hp in *. rewrite <- !Z.add_assoc in S2, W2. simpl (10 + 10) in S2, W2.
  set (m2 := goto (set_x86 (goto (set_x86 m RAX target) (addr + 10)) RDX R) (addr + 20)) in *.
  destruct (penter_steps addr code enter_a64 enter_rv escape_x86 m2 k arch _ Hf Hm W2 Al) as [S3 W3].
  cbn [pc m2 goto] in S3, W3.
  destruct (call_steps addr code enter_a64 enter_rv escape_x86
    (entered enter_a64 enter_rv m2 arch (addr + 20 + Z.of_nat k + 10)) arch w1 w2 esc target R
    (le_bytes 4 esc ++ [0xc3])) as ((m' & S4 & Hm' & Hp' & Hl & Hst) & W4 & Al4); try done.
  { destruct Hf as [-> | ->]; [left|right]; (split; [done|]).
    - destruct (HA (set_reg (x86 m2) R15 POLY_ARCH_AARCH64) (a64 m)) as [E0 E1]. by split; [exact E0|].
    - destruct (HR (set_reg (x86 m2) R15 POLY_ARCH_RISCV) (rv m)) as [E0 E1].
      split; [exact E0|]. split; [exact E1|]. unfold in_width. split; [lia|]. split; [lia|]. by apply Hev. }
  exists code, m'. split; [exact E|]. split.
  { unfold code. rewrite !length_app, !le_bytes_length, penter_bytes_length. simpl length. lia. }
  split; [|split; [done|split; [done|split; [done|]]]].
  - eapply rtc_l; [exact S1|]. eapply rtc_l; [exact S2|]. by etransitivity.
  - intros m3 r s Hm3 Hp3 Hst3. rewrite Hl, Er in Hp3. cbn [entered pc] in W4, Al4.
    eapply (escape_steps _ _ _ _ _ m3 esc r s []); [|by rewrite Hp3|by rewrite Hp3|done].
    unfold resolver_words in Ew. destruct Hf as [-> | ->]; simpl in Ew; simplify_eq; auto.
Qed.

Lemma resolver_call_returns_witness :
  let ea : regfile -> regfile -> regfile := fun x f => set_reg (set_reg f 1 (x RDX)) 0 (x RAX) in
  let er : regfile -> regfile -> regfile := fun x f => set_reg (set_reg f 11 (x RDX)) 10 (x RAX) in
  let m := Machine POLY_ARCH_X86 0x7000 (fun _ => 0) (fun _ => 0) (fun _ => 0) [0x1234] in
  exists code m', emit_poly_resolver_trampoline POLY_ARCH_RISCV 0x7000 4096 0x55550000 = (code, 0) /\
    steps 0x7000 code ea er (fun _ m => x86 m) m m' /\ pc m' = 0x55550000.
Proof.
  intros ea er m.
  destruct (resolver_call_returns ea er (fun _ m => x86 m) POLY_ARCH_RISCV 0x7000 4096 0x55550000 m
    ltac:(intros; split; reflexivity) ltac:(intros; split; reflexivity) ltac:(right; reflexivity)
    ltac:(reflexivity) ltac:(lia) ltac:(lia) ltac:(lia) ltac:(lia) eq_refl eq_refl)
    as (code & m' & E & _ & S & _ & P & _).
  exists code, m'. split; [exact E|]. split; [exact S|exact P].
Defined.
