(* ===== verification/GuestSignals.v ===== *)
(** Guest signal actions and signal masks ([tools/runtime/polyexec.c]): the
    runtime keeps shadow copies of what the guest asks for and gives the host
    only what leaves the signals that the runtime itself needs alone.

    The state holds the shadow actions and the shadow mask, the host's handlers
    and mask, and guest memory.  The host's [sigaction], [sigaltstack] and
    [rt_sigprocmask] are parameters; so are the settings that the runtime reads
    from its environment. *)

From Stdlib Require Import Btauto.
From stdpp Require Import relations.
From S2P Require Import Prelude GuestMemory.

(** ** Constants of the Linux headers *)

Definition SIGILL : Z := 4.
Definition SIGABRT : Z := 6.
Definition SIGBUS : Z := 7.
Definition SIGKILL : Z := 9.
Definition SIGUSR1 : Z := 10.
Definition SIGSEGV : Z := 11.
Definition SIGUSR2 : Z := 12.
Definition SIGALRM : Z := 14.
Definition SIGCHLD : Z := 17.
Definition SIGSTOP : Z := 19.
Definition SIGURG : Z := 23.
Definition SIG_DFL : Z := 0.
Definition SIG_IGN : Z := 1.
Definition SIG_BLOCK : Z := 0.
Definition SIG_UNBLOCK : Z := 1.
Definition SIG_SETMASK : Z := 2.
Definition SA_NOCLDSTOP : Z := 1.
Definition SA_NOCLDWAIT : Z := 2.

(** ** State *)

(** What the host does on a signal: a disposition, the runtime's handler that
    notes the signal for the guest (with the SIGCHLD flags), the handler for
    faults, or the watchdog's. *)
Inductive host_handler :=
| HostDefault
| HostIgnore
| HostVirtual (nocldstop nocldwait : bool)
| HostDiagnostics
| HostWatchdog.

Record signals : Type := MkSignals {
  (** [poly_guest_signal_action_shadow] where it is valid *)
  sg_action : list (option poly_linux_ksigaction);
  (** [poly_guest_sigmask_shadow] when it is valid *)
  sg_mask : option Z;
  sg_host : Z -> host_handler;
  sg_host_mask : Z;
  sg_alt_stack : bool;
  sg_memory : memory;
}.

Definition SHADOW_SIZE : Z := 65.

Definition set_action (signum : Z) (a : poly_linux_ksigaction) (s : signals) : signals :=
  MkSignals (<[Z.to_nat signum := Some a]> (sg_action s)) (sg_mask s) (sg_host s)
    (sg_host_mask s) (sg_alt_stack s) (sg_memory s).
Definition set_host (signum : Z) (h : host_handler) (s : signals) : signals :=
  MkSignals (sg_action s) (sg_mask s) (fun n => if n =? signum then h else sg_host s n)
    (sg_host_mask s) (sg_alt_stack s) (sg_memory s).
Definition set_memory (m : memory) (s : signals) : signals :=
  MkSignals (sg_action s) (sg_mask s) (sg_host s) (sg_host_mask s) (sg_alt_stack s) m.
Definition set_alt_stack (s : signals) : signals :=
  MkSignals (sg_action s) (sg_mask s) (sg_host s) (sg_host_mask s) true (sg_memory s).
Definition set_masks (mask : option Z) (host_mask : Z) (s : signals) : signals :=
  MkSignals (sg_action s) mask (sg_host s) host_mask (sg_alt_stack s) (sg_memory s).

(** The host's calls: [sigaction] and [sigaltstack] give 0 or an errno; a
    [rt_sigprocmask] with an optional set gives the status and the new mask. *)
Record host_os : Type := MkHost {
  host_sigaction : Z -> Z;
  host_sigaltstack : Z;
  host_sigprocmask : Z -> option Z -> Z -> Z * Z;
}.

(** The settings: [polyexec_watchdog_signal] (0 without a watchdog), and the
    two switches that are read from the environment. *)
Record settings : Type := MkSettings {
  polyexec_watchdog_signal : Z;
  polyexec_protect_runtime_signals : bool;
  polyexec_virtual_sigchld : bool;
}.

(** ** Signal sets *)

Definition poly_sigset_clear_signal (mask signum : Z) : Z :=
  if (signum <=? 0) || (signum >? 64) then mask
  else Z.land mask (u64 (Z.lnot (Z.shiftl 1 (signum - 1)))).

Definition poly_sigset_add_signal (mask signum : Z) : Z :=
  if (signum <=? 0) || (signum >? 64) then mask
  else Z.lor mask (u64 (Z.shiftl 1 (signum - 1))).

Definition poly_update_guest_sigmask (current how set : Z) : Z :=
  if how =? SIG_BLOCK then Z.lor current set
  else if how =? SIG_UNBLOCK then Z.land current (u64 (Z.lnot set))
  else if how =? SIG_SETMASK then set
  else current.

(** [poly_pending_virtual_signal_mask] after the handler; it has 32 bits. *)
Definition poly_virtual_signal_host_handler (pending signum : Z) : Z :=
  if (signum >? 0) && (signum <? 32) then Z.lor pending (Z.shiftl 1 (signum - 1)) else pending.

Section Signals.
Context (probe : mem_probe) (os : host_os) (cfg : settings).

Definition poly_host_visible_virtual_signal_mask (mask : Z) : Z :=
  let mask := if polyexec_watchdog_signal cfg >? 0
              then poly_sigset_clear_signal mask (polyexec_watchdog_signal cfg) else mask in
  let mask := poly_sigset_clear_signal mask SIGURG in
  let mask :=
    if polyexec_protect_runtime_signals cfg then
      let mask := poly_sigset_clear_signal mask SIGALRM in
      let mask := poly_sigset_clear_signal mask SIGUSR1 in
      poly_sigset_clear_signal mask SIGUSR2
    else mask in
  if polyexec_virtual_sigchld cfg then poly_sigset_clear_signal mask SIGCHLD else mask.

Definition poly_sanitize_host_runtime_sigset (mask : Z) : Z :=
  let mask := poly_sigset_clear_signal mask SIGSEGV in
  let mask := poly_sigset_clear_signal mask SIGBUS in
  let mask := poly_sigset_clear_signal mask SIGILL in
  poly_host_visible_virtual_signal_mask mask.

Definition poly_guest_initial_sigmask_from_host (host_mask : Z) : Z :=
  poly_host_visible_virtual_signal_mask host_mask.

Definition poly_is_protected_runtime_signal (signum : Z) : bool :=
  if signum =? SIGURG then true
  else if negb (polyexec_protect_runtime_signals cfg) then false
  else (signum =? SIGALRM) || (signum =? SIGUSR1) || (signum =? SIGUSR2).

(** ** Host handlers *)

(** A call of the host's [sigaction]: the errno of a failure. *)
Definition call_sigaction (signum : Z) (h : host_handler) (s : signals) : signals * option Z :=
  if host_sigaction os signum =? 0 then (set_host signum h s, None)
  else (s, Some (host_sigaction os signum)).

(** Several calls, up to the first that fails. *)
Fixpoint call_sigactions (calls : list (Z * host_handler)) (s : signals) : signals * option Z :=
  match calls with
  | [] => (s, None)
  | (signum, h) :: calls' =>
      match call_sigaction signum h s with
      | (s', None) => call_sigactions calls' s'
      | (s', Some e) => (s', Some e)
      end
  end.

Definition poly_set_host_signal_handler (signum : Z) (h : host_handler) (s : signals)
    : signals * option Z := call_sigaction signum h s.

Definition poly_set_host_virtual_signal_handler (signum : Z) (guest_act : poly_linux_ksigaction)
    (s : signals) : signals * option Z :=
  let flag f := (signum =? SIGCHLD) && negb (Z.land (ksa_flags guest_act) f =? 0) in
  call_sigaction signum (HostVirtual (flag SA_NOCLDSTOP) (flag SA_NOCLDWAIT)) s.

Definition poly_install_protected_runtime_signal_handlers (s : signals) : signals * option Z :=
  let virtual := HostVirtual false false in
  match poly_set_host_signal_handler SIGURG virtual s with
  | (s1, Some e) => (s1, Some e)
  | (s1, None) =>
      if negb (polyexec_protect_runtime_signals cfg) then (s1, None)
      else call_sigactions [(SIGALRM, virtual); (SIGUSR1, virtual); (SIGUSR2, virtual)] s1
  end.

Definition install_poly_signal_diagnostics (s : signals) : signals * option Z :=
  if negb (sg_alt_stack s) && negb (host_sigaltstack os =? 0) then (s, Some (host_sigaltstack os))
  else
    call_sigactions [(SIGSEGV, HostDiagnostics); (SIGBUS, HostDiagnostics);
                     (SIGILL, HostDiagnostics); (SIGABRT, HostDiagnostics)] (set_alt_stack s).

(** ** Signal actions *)

Definition default_action : poly_linux_ksigaction := MkKsigaction SIG_DFL 0 0 0.

(** The action that the guest would be told. *)
Definition guest_action (signum : Z) (s : signals) : poly_linux_ksigaction :=
  if signum <? SHADOW_SIZE then
    default default_action (default None (sg_action s !! Z.to_nat signum))
  else default_action.

Definition poly_store_guest_signal_action (signum oldact : Z) (s : signals) : signals :=
  if oldact =? 0 then s
  else
    match poly_guest_write_ksigaction probe (sg_memory s) oldact (guest_action signum s) with
    | Some m => set_memory m s
    | None => s
    end.

(** [guest_act] is [None] for a null pointer. *)
Definition read_act (act : Z) (s : signals) : option (option poly_linux_ksigaction) :=
  if act =? 0 then Some None else Some <$> poly_guest_read_ksigaction probe (sg_memory s) act.

(** The disposition that the host gets for a guest's SIG_DFL or SIG_IGN. *)
Definition host_disposition (a : poly_linux_ksigaction) : host_handler :=
  if ksa_handler a =? SIG_IGN then HostIgnore else HostDefault.
Definition is_disposition (a : poly_linux_ksigaction) : bool :=
  (ksa_handler a =? SIG_DFL) || (ksa_handler a =? SIG_IGN).

Definition poly_dispatch_virtual_sigchld_action (act oldact : Z) (s : signals) : signals * Z :=
  match read_act act s with
  | None => (s, neg_errno EFAULT)
  | Some guest_act =>
      let s1 := poly_store_guest_signal_action SIGCHLD oldact s in
      match guest_act with
      | None => (s1, 0)
      | Some a =>
          let '(s2, failed) :=
            if is_disposition a then poly_set_host_signal_handler SIGCHLD (host_disposition a) s1
            else poly_set_host_virtual_signal_handler SIGCHLD a s1 in
          match failed with
          | Some e => (s2, neg_errno e)
          | None => (set_action SIGCHLD a s2, 0)
          end
      end
  end.

(** The branch for faults and protected signals. *)
Definition runtime_signal_action (signum : Z) (protected : bool)
    (guest_act : option poly_linux_ksigaction) (s : signals) : signals * Z :=
  let '(s2, failed) :=
    match guest_act with
    | None => (s, None)
    | Some a =>
        let '(s1, failed) :=
          if protected then poly_set_host_virtual_signal_handler signum a s else (s, None) in
        match failed with
        | Some e => (s1, Some e)
        | None => (if signum <? SHADOW_SIZE then set_action signum a s1 else s1, None)
        end
    end in
  match failed with
  | Some e => (s2, neg_errno e)
  | None =>
      if (signum =? SIGSEGV) || (signum =? SIGBUS) || (signum =? SIGILL) then
        match install_poly_signal_diagnostics s2 with
        | (s3, Some e) => (s3, neg_errno e)
        | (s3, None) => (s3, 0)
        end
      else (s2, 0)
  end.

(** The branch for all other signals. *)
Definition plain_signal_action (signum : Z) (guest_act : option poly_linux_ksigaction)
    (s : signals) : signals * Z :=
  match guest_act with
  | None => (s, 0)
  | Some a =>
      let s1 := set_action signum a s in
      let '(s2, failed) :=
        if is_disposition a then poly_set_host_signal_handler signum (host_disposition a) s1
        else if signum <? 32 then poly_set_host_virtual_signal_handler signum a s1
        else (s1, None) in
      match failed with
      | Some e => (s2, neg_errno e)
      | None => (s2, 0)
      end
  end.

Definition poly_dispatch_rt_sigaction (mode signum act oldact sigsetsize : Z) (s : signals)
    : signals * Z :=
  if negb (poly_is_raw_foreign_mode mode) then (s, neg_errno ENOSYS)
  else if negb (sigsetsize =? 8) then (s, neg_errno EINVAL)
  else if (signum =? 0) || (signum >=? SHADOW_SIZE) then (s, neg_errno EINVAL)
  else if negb (act =? 0) && ((signum =? SIGKILL) || (signum =? SIGSTOP)) then
    (s, neg_errno EINVAL)
  else
    match read_act act s with
    | None => (s, neg_errno EFAULT)
    | Some guest_act =>
        let protected := poly_is_protected_runtime_signal signum in
        if (signum =? SIGCHLD) && polyexec_virtual_sigchld cfg then
          poly_dispatch_virtual_sigchld_action act oldact s
        else if (signum =? SIGSEGV) || (signum =? SIGBUS) || (signum =? SIGILL) || protected then
          runtime_signal_action signum protected guest_act
            (poly_store_guest_signal_action signum oldact s)
        else
          plain_signal_action signum guest_act (poly_store_guest_signal_action signum oldact s)
    end.

(** ** Signal masks *)

(** The mask that the guest has before its first call. *)
Definition current_guest_mask (with_oldset : bool) (s : signals) : Z :=
  match sg_mask s with
  | Some mask => mask
  | None => if with_oldset then poly_guest_initial_sigmask_from_host (sg_host_mask s) else 0
  end.

Definition poly_dispatch_rt_sigprocmask (how set oldset sigsetsize : Z) (s : signals)
    : signals * Z :=
  if negb (sigsetsize =? 8) then (s, neg_errno EINVAL)
  else if negb (how =? SIG_BLOCK) && negb (how =? SIG_UNBLOCK) && negb (how =? SIG_SETMASK) then
    (s, neg_errno EINVAL)
  else
    match (if set =? 0 then Some None else Some <$> poly_guest_read_u64 probe (sg_memory s) set) with
    | None => (s, neg_errno EFAULT)
    | Some guest_set =>
        let host_set := poly_sanitize_host_runtime_sigset <$> guest_set in
        let '(status, host_mask) := host_sigprocmask os how host_set (sg_host_mask s) in
        if status =? 0 then
          let guest_oldset := current_guest_mask (negb (oldset =? 0) || negb (set =? 0)) s in
          let mask := match guest_set with
                      | Some g => poly_update_guest_sigmask guest_oldset how g
                      | None => guest_oldset
                      end in
          let s1 := set_masks (Some mask) host_mask s in
          if oldset =? 0 then (s1, 0)
          else
            match poly_guest_write_u64 probe (sg_memory s1) oldset guest_oldset with
            | Some m => (set_memory m s1, 0)
            | None => (s1, neg_errno EFAULT)
            end
        else (set_masks (sg_mask s) host_mask s, u64 status)
    end.

(** [inl]: an error; [inr]: the set that the host waits with. *)
Definition poly_dispatch_rt_sigsuspend (set sigsetsize : Z) (s : signals) : Z + Z :=
  if negb (sigsetsize =? 8) then inl (neg_errno EINVAL)
  else if set =? 0 then inl (neg_errno EFAULT)
  else
    match poly_guest_read_u64 probe (sg_memory s) set with
    | None => inl (neg_errno EFAULT)
    | Some host_set => inr (poly_sanitize_host_runtime_sigset host_set)
    end.

(** ** Delivery decisions *)

Record delivery : Type := MkDelivery {
  dv_handler : Z;
  dv_restorer : Z;
  dv_flags : Z;
  dv_mask : Z;
}.

(** [vdso_sigreturn] is [poly_aarch64_vdso_rt_sigreturn]. *)
Definition poly_guest_signal_action_deliverable (vdso_sigreturn mode signum : Z) (s : signals)
    : option delivery :=
  if signum >=? SHADOW_SIZE then None
  else
    match default None (sg_action s !! Z.to_nat signum) with
    | None => None
    | Some a =>
        if (ksa_handler a =? SIG_DFL) || (ksa_handler a =? SIG_IGN) || (ksa_handler a =? 0) then None
        else if negb (poly_is_raw_foreign_mode mode) then None
        else
          let restorer := if mode =? POLY_MODE_RAW_AARCH64 then vdso_sigreturn else ksa_restorer a in
          if restorer =? 0 then None
          else Some (MkDelivery (ksa_handler a) restorer (ksa_flags a) (ksa_mask a))
    end.

Definition poly_guest_signal_mask_blocks (signum : Z) (s : signals) : bool :=
  match sg_mask s with
  | None => false
  | Some mask => negb (Z.land mask (u64 (Z.shiftl 1 (signum - 1))) =? 0)
  end.

End Signals.

(** ** Signal sets, bit by bit *)

Lemma clear_bits (mask signum i : Z) : 0 <= i < 64 ->
  Z.testbit (poly_sigset_clear_signal mask signum) i = Z.testbit mask i && negb (i =? signum - 1).
Proof.
  intros Hi. unfold poly_sigset_clear_signal. destruct (_ || _) eqn:E.
  - replace (i =? signum - 1) with false by lia. by rewrite andb_true_r.
  - breflect. unfold wrap. rewrite Z.land_spec, Z.mod_pow2_bits_low, Z.lnot_spec, Z.shiftl_spec by lia.
    f_equal. f_equal. destruct (Z.eqb_spec i (signum - 1)) as [->|]; [by rewrite Z.sub_diag|].
    destruct (Z.lt_ge_cases i (signum - 1)); [apply Z.testbit_neg_r; lia|].
    apply Z.bits_above_log2; simpl; lia.
Qed.

Lemma update_bits (current how set i : Z) : 0 <= i < 64 ->
  Z.testbit (poly_update_guest_sigmask current how set) i =
  if how =? SIG_BLOCK then Z.testbit current i || Z.testbit set i
  else if how =? SIG_UNBLOCK then Z.testbit current i && negb (Z.testbit set i)
  else if how =? SIG_SETMASK then Z.testbit set i
  else Z.testbit current i.
Proof.
  intros Hi. unfold poly_update_guest_sigmask. destruct_ifs; [by rewrite Z.lor_spec| |done..].
  unfold wrap. by rewrite Z.land_spec, Z.mod_pow2_bits_low, Z.lnot_spec by lia.
Qed.

(** ** The signals that the runtime needs *)

Definition fault_signals : list Z := [SIGSEGV; SIGBUS; SIGILL].

Definition protected_signals (cfg : settings) : list Z :=
  SIGURG :: (if polyexec_protect_runtime_signals cfg then [SIGALRM; SIGUSR1; SIGUSR2] else []).

(** The signals that must not be blocked in the host. *)
Definition runtime_signals (cfg : settings) : list Z :=
  fault_signals ++ protected_signals cfg ++
  (if polyexec_virtual_sigchld cfg then [SIGCHLD] else []) ++
  (if polyexec_watchdog_signal cfg >? 0 then [polyexec_watchdog_signal cfg] else []).

Lemma sanitize_bits (cfg : settings) (mask i : Z) : 0 <= i < 64 ->
  Z.testbit (poly_sanitize_host_runtime_sigset cfg mask) i =
  Z.testbit mask i && forallb (fun sig => negb (i =? sig - 1)) (runtime_signals cfg).
Proof.
  intros Hi. unfold poly_sanitize_host_runtime_sigset, poly_host_visible_virtual_signal_mask,
    runtime_signals, protected_signals, fault_signals.
  destruct (polyexec_watchdog_signal cfg >? 0), (polyexec_protect_runtime_signals cfg),
    (polyexec_virtual_sigchld cfg); rewrite !clear_bits by done; simpl;
    destruct (Z.testbit mask i); simpl; btauto.
Qed.

Lemma protected_spec (cfg : settings) (signum : Z) :
  poly_is_protected_runtime_signal cfg signum = true <-> signum ∈ protected_signals cfg.
Proof.
  unfold poly_is_protected_runtime_signal, protected_signals.
  destruct (polyexec_protect_runtime_signals cfg); destruct_ifs; breflect; subst;
    rewrite ?elem_of_cons, ?elem_of_nil; simpl; try lia; intuition (try congruence; lia).
Qed.

Lemma fault_spec (signum : Z) :
  (signum =? SIGSEGV) || (signum =? SIGBUS) || (signum =? SIGILL) = true <-> signum ∈ fault_signals.
Proof. unfold fault_signals. rewrite !elem_of_cons, elem_of_nil. lia. Qed.

(** The fault handlers and the handlers of protected signals are in place, and
    none of the runtime's signals is blocked. *)
Record runtime_ready (cfg : settings) (s : signals) : Prop := {
  rr_fault : forall sig, sig ∈ fault_signals -> sg_host s sig = HostDiagnostics;
  rr_protected : forall sig, sig ∈ protected_signals cfg -> exists a b, sg_host s sig = HostVirtual a b;
  rr_mask : forall sig, sig ∈ runtime_signals cfg -> Z.testbit (sg_host_mask s) (sig - 1) = false;
}.

(** A handler that may be installed for a signal. *)
Definition may_install (cfg : settings) (signum : Z) (h : host_handler) : Prop :=
  (signum ∈ fault_signals -> h = HostDiagnostics) /\
  (signum ∈ protected_signals cfg -> exists a b, h = HostVirtual a b).

Section RuntimeReady.
Context (probe : mem_probe) (os : host_os) (cfg : settings).

Local Abbreviation ready := (runtime_ready cfg).

Lemma ready_set_host (signum : Z) (h : host_handler) (s : signals) :
  ready s -> may_install cfg signum h -> ready (set_host signum h s).
Proof using.
  intros [Hf Hp Hm] [H1 H2]. constructor; [| |done]; intros sig Hs; simpl;
    destruct (Z.eqb_spec sig signum) as [->|]; auto.
Qed.

Lemma ready_calls (calls : list (Z * host_handler)) : forall s,
  ready s -> Forall (fun c => may_install cfg c.1 c.2) calls -> ready (fst (call_sigactions os calls s)).
Proof using.
  induction calls as [|[signum h] calls IH]; intros s Hs Hc; simpl; [done|].
  apply Forall_cons in Hc as [Hh Hc]. unfold call_sigaction.
  destruct (host_sigaction os signum =? 0); [|done]. apply IH; [|done]. by apply ready_set_host.
Qed.

Lemma ready_call (signum : Z) (h : host_handler) (s : signals) :
  ready s -> may_install cfg signum h -> ready (fst (call_sigaction os signum h s)).
Proof using. intros Hs Hh. unfold call_sigaction. destruct_ifs; [by apply ready_set_host|done]. Qed.

Lemma ready_store (signum oldact : Z) (s : signals) :
  ready s -> ready (poly_store_guest_signal_action probe signum oldact s).
Proof using.
  intros [Hf Hp Hm]. unfold poly_store_guest_signal_action. destruct_ifs; [done|].
  destruct (poly_guest_write_ksigaction _ _ _ _); done.
Qed.

Lemma ready_set_action (signum : Z) (a : poly_linux_ksigaction) (s : signals) :
  ready s -> ready (set_action signum a s).
Proof using. by intros [Hf Hp Hm]. Qed.

(** The fault signals and the protected ones are different. *)
Lemma not_both (signum : Z) : signum ∈ fault_signals -> signum ∈ protected_signals cfg -> False.
Proof using.
  unfold fault_signals, protected_signals.
  destruct (polyexec_protect_runtime_signals cfg); rewrite !elem_of_cons, ?elem_of_nil;
    unfold SIGSEGV, SIGBUS, SIGILL, SIGURG, SIGALRM, SIGUSR1, SIGUSR2; lia.
Qed.

Lemma may_install_diagnostics :
  Forall (fun c => may_install cfg c.1 c.2)
    [(SIGSEGV, HostDiagnostics); (SIGBUS, HostDiagnostics); (SIGILL, HostDiagnostics);
     (SIGABRT, HostDiagnostics)].
Proof using.
  repeat constructor; simpl; intros; try done; exfalso.
  1-3: eapply not_both; [|eassumption]; unfold fault_signals; rewrite !elem_of_cons; auto.
  revert H. unfold protected_signals, SIGURG, SIGALRM, SIGUSR1, SIGUSR2, SIGABRT.
  destruct (polyexec_protect_runtime_signals cfg); rewrite !elem_of_cons, ?elem_of_nil; lia.
Qed.

Lemma ready_diagnostics (s : signals) :
  ready s -> ready (fst (install_poly_signal_diagnostics os s)).
Proof using.
  intros Hs. unfold install_poly_signal_diagnostics. destruct_ifs; [done|].
  apply ready_calls; [by destruct Hs|apply may_install_diagnostics].
Qed.

Lemma ready_runtime_action (signum : Z) (g : option poly_linux_ksigaction) (s : signals) :
  ready s ->
  ready (fst (runtime_signal_action os signum (poly_is_protected_runtime_signal cfg signum) g s)).
Proof using.
  intros Hs. unfold runtime_signal_action.
  match goal with |- context [let '(s2, failed) := ?x in _] => destruct x as [s2 failed] eqn:E end.
  assert (ready s2) as H2.
  { destruct g as [a|]; [|by simplify_eq].
    destruct (poly_is_protected_runtime_signal cfg signum) eqn:Ep.
    - assert (may_install cfg signum (HostVirtual
        ((signum =? SIGCHLD) && negb (Z.land (ksa_flags a) SA_NOCLDSTOP =? 0))
        ((signum =? SIGCHLD) && negb (Z.land (ksa_flags a) SA_NOCLDWAIT =? 0)))) as Hi.
      { apply protected_spec in Ep. split; [|eauto]. intros Hf. destruct (not_both signum Hf Ep). }
      pose proof (ready_call signum _ s Hs Hi) as Hc.
      unfold poly_set_host_virtual_signal_handler in E. cbv zeta in E.
      destruct (call_sigaction os signum _ s) as [s1 [e|]]; simplify_eq; [done|].
      destruct (signum <? SHADOW_SIZE); [by apply ready_set_action|done].
    - simplify_eq. destruct (signum <? SHADOW_SIZE); [by apply ready_set_action|done]. }
  destruct failed; [done|]. destruct (_ || _); [|done].
  pose proof (ready_diagnostics s2 H2) as H3.
  by destruct (install_poly_signal_diagnostics os s2) as [s3 [e|]].
Qed.

Lemma ready_plain_action (signum : Z) (g : option poly_linux_ksigaction) (s : signals) :
  signum ∉ fault_signals -> signum ∉ protected_signals cfg -> ready s ->
  ready (fst (plain_signal_action os signum g s)).
Proof using.
  intros Hf Hp Hs. unfold plain_signal_action. destruct g as [a|]; [|done].
  match goal with |- context [let '(s2, failed) := ?x in _] => destruct x as [s2 failed] eqn:E end.
  enough (ready s2) by (by destruct failed).
  assert (forall h, may_install cfg signum h) as Hi by (by split).
  apply (ready_set_action signum a) in Hs.
  destruct (is_disposition a); [|destruct (signum <? 32); [|by simplify_eq]].
  - pose proof (ready_call signum (host_disposition a) _ Hs (Hi _)) as Hc.
    unfold poly_set_host_signal_handler in E. by rewrite E in Hc.
  - unfold poly_set_host_virtual_signal_handler in E. cbv zeta in E.
    match type of E with call_sigaction _ _ ?h _ = _ => pose proof (ready_call signum h _ Hs (Hi _)) as Hc end.
    by rewrite E in Hc.
Qed.

Lemma ready_sigchld_action (act oldact : Z) (s : signals) :
  ready s -> ready (fst (poly_dispatch_virtual_sigchld_action probe os act oldact s)).
Proof using.
  intros Hs. unfold poly_dispatch_virtual_sigchld_action.
  destruct (read_act probe act s) as [[a|]|]; [|by apply ready_store|done].
  apply (ready_store SIGCHLD oldact) in Hs.
  assert (forall h, may_install cfg SIGCHLD h) as Hi.
  { intros h. split; intros H; exfalso; revert H; unfold fault_signals, protected_signals, SIGCHLD, SIGSEGV,
      SIGBUS, SIGILL, SIGURG, SIGALRM, SIGUSR1, SIGUSR2;
      [|destruct (polyexec_protect_runtime_signals cfg)]; rewrite !elem_of_cons, ?elem_of_nil; lia. }
  unfold poly_set_host_virtual_signal_handler, poly_set_host_signal_handler. cbv zeta.
  destruct (is_disposition a).
  - pose proof (ready_call SIGCHLD (host_disposition a) _ Hs (Hi _)) as Hc.
    destruct (call_sigaction os _ _ _) as [s2 [e|]]; [done|by apply ready_set_action].
  - match goal with |- context [call_sigaction os SIGCHLD ?h _] =>
      pose proof (ready_call SIGCHLD h _ Hs (Hi _)) as Hc end.
    destruct (call_sigaction os _ _ _) as [s2 [e|]]; [done|by apply ready_set_action].
Qed.

Lemma ready_sigaction (mode signum act oldact sigsetsize : Z) (s : signals) :
  ready s -> ready (fst (poly_dispatch_rt_sigaction probe os cfg mode signum act oldact sigsetsize s)).
Proof using.
  intros Hs. unfold poly_dispatch_rt_sigaction.
  do 4 (match goal with |- context [if ?b then (s, _) else _] => destruct b; [done|] end).
  destruct (read_act probe act s) as [g|]; [|done]. cbv zeta.
  destruct (_ && _); [by apply ready_sigchld_action|].
  destruct ((signum =? SIGSEGV) || (signum =? SIGBUS) || (signum =? SIGILL)) eqn:Ef; simpl.
  { by apply ready_runtime_action, ready_store. }
  destruct (poly_is_protected_runtime_signal cfg signum) eqn:Ep.
  - rewrite <- Ep. by apply ready_runtime_action, ready_store.
  - apply ready_plain_action; [| |by apply ready_store].
    + intros H. apply fault_spec in H. congruence.
    + intros H. apply protected_spec in H. congruence.
Qed.

(** What the host's [rt_sigprocmask] documents: it blocks a signal only when
    the signal was blocked or is in the given set. *)
Context (host_blocks : forall how set mask i,
  Z.testbit (snd (host_sigprocmask os how set mask)) i = true ->
  Z.testbit mask i = true \/ exists g, set = Some g /\ Z.testbit g i = true).
Context (watchdog_ok : polyexec_watchdog_signal cfg <= 64).

Lemma ready_mask (s : signals) (guest_set : option Z) (how : Z) (mask : option Z) :
  ready s -> let host_set := poly_sanitize_host_runtime_sigset cfg <$> guest_set in
  ready (set_masks mask (snd (host_sigprocmask os how host_set (sg_host_mask s))) s).
Proof using host_blocks watchdog_ok.
  intros [Hf Hp Hm] host_set. constructor; [done|done|]. intros sig Hsig. simpl.
  destruct (Z.testbit _ (sig - 1)) eqn:E; [|done]. exfalso.
  apply host_blocks in E as [E|(g & Hg & E)]; [rewrite (Hm sig Hsig) in E; done|].
  unfold host_set in Hg. destruct guest_set as [g0|]; [|done]. simpl in Hg. simplify_eq.
  assert (0 <= sig - 1 < 64) as Hr.
  { revert Hsig. unfold runtime_signals, protected_signals, fault_signals. clear -watchdog_ok.
    rewrite !elem_of_app. destruct (polyexec_watchdog_signal cfg >? 0) eqn:?,
      (polyexec_protect_runtime_signals cfg), (polyexec_virtual_sigchld cfg);
      rewrite ?elem_of_cons, ?elem_of_nil; unfold SIGSEGV, SIGBUS, SIGILL, SIGURG, SIGALRM, SIGUSR1,
      SIGUSR2, SIGCHLD; lia. }
  rewrite sanitize_bits in E by done. breflect.
  match goal with H : forallb _ _ = true |- _ => rewrite forallb_forall in H;
    specialize (H sig (proj1 (list_elem_of_In _ _) Hsig)) end.
  by rewrite Z.eqb_refl in *.
Qed.

Lemma ready_sigprocmask (how set oldset sigsetsize : Z) (s : signals) :
  ready s -> ready (fst (poly_dispatch_rt_sigprocmask probe os cfg how set oldset sigsetsize s)).
Proof using host_blocks watchdog_ok.
  intros Hs. unfold poly_dispatch_rt_sigprocmask.
  do 2 (match goal with |- context [if ?b then (s, _) else _] => destruct b; [done|] end).
  match goal with |- context [match ?x with Some _ => _ | None => _ end] => destruct x as [g|] end; [|done].
  pose proof (fun mask => ready_mask s g how mask Hs) as Hm. simpl in Hm.
  destruct (host_sigprocmask os how _ (sg_host_mask s)) as [status host_mask]. simpl in Hm.
  destruct (status =? 0); [|apply Hm]. destruct (oldset =? 0); [apply Hm|].
  destruct (poly_guest_write_u64 _ _ _ _); simpl; [|apply Hm].
  match goal with |- ready (set_memory _ (set_masks ?m _ _)) => by destruct (Hm m) end.
Qed.

(** What the guest can do to this state: the two system calls, with any
    arguments, and writing its own memory. *)
Inductive signal_event : signals -> signals -> Prop :=
| ev_sigaction mode signum act oldact sigsetsize s :
    signal_event s (fst (poly_dispatch_rt_sigaction probe os cfg mode signum act oldact sigsetsize s))
| ev_sigprocmask how set oldset sigsetsize s :
    signal_event s (fst (poly_dispatch_rt_sigprocmask probe os cfg how set oldset sigsetsize s))
| ev_memory m s : signal_event s (set_memory m s).

Lemma ready_event (s s' : signals) : signal_event s s' -> ready s -> ready s'.
Proof using host_blocks watchdog_ok.
  destruct 1 as [mode signum act oldact sz s|how st oldset sz s|m s]; intros Hs.
  - by apply ready_sigaction.
  - by apply ready_sigprocmask.
  - by destruct Hs.
Qed.
End RuntimeReady.

(** The handlers that the runtime installs when it starts. *)
Lemma startup_ready (os : host_os) (cfg : settings) (s0 s1 s : signals) :
  poly_install_protected_runtime_signal_handlers os cfg s0 = (s1, None) ->
  install_poly_signal_diagnostics os s1 = (s, None) ->
  (forall sig, sig ∈ runtime_signals cfg -> Z.testbit (sg_host_mask s0) (sig - 1) = false) ->
  runtime_ready cfg s.
Proof.
  intros H1 H2 Hm. unfold install_poly_signal_diagnostics in H2. destruct (_ && _) in H2; [done|].
  unfold call_sigactions, call_sigaction in H2.
  repeat (match type of H2 with context [if ?b then _ else _] => destruct b in H2; [|done] end).
  injection H2 as <-. unfold poly_install_protected_runtime_signal_handlers, poly_set_host_signal_handler,
    call_sigaction in H1.
  destruct (host_sigaction os SIGURG =? 0); [|done].
  constructor; simpl.
  - intros sig. unfold fault_signals. rewrite !elem_of_cons, elem_of_nil.
    by intros [-> | [-> | [-> | []]]].
  - intros sig. unfold protected_signals. destruct (polyexec_protect_runtime_signals cfg); simpl in H1.
    + unfold call_sigaction in H1.
      repeat (match type of H1 with context [if ?b then _ else _] => destruct b in H1; [|done] end).
      injection H1 as <-. rewrite !elem_of_cons, elem_of_nil.
      intros [-> | [-> | [-> | [-> | []]]]]; simpl; eauto.
    + injection H1 as <-. rewrite !elem_of_cons, elem_of_nil. intros [-> | []]. simpl; eauto.
  - enough (sg_host_mask s1 = sg_host_mask s0) as -> by done.
    destruct (negb _); [by injection H1 as <-|]. simpl in H1. unfold call_sigaction in H1.
    repeat (match type of H1 with context [if ?b then _ else _] => destruct b in H1; [|done] end).
    by injection H1 as <-.
Qed.


(** ** Setting and asking for an action *)

(** The host reports failures with error numbers. *)
Definition host_errnos (os : host_os) : Prop :=
  (forall sig, 0 <= host_sigaction os sig < 4096) /\ 0 <= host_sigaltstack os < 4096.

Section SetQuery.
Context (probe : mem_probe) (os : host_os) (cfg : settings) (Herr : host_errnos os).

Lemma neg_errno_nonzero (e : Z) : 0 < e < 4096 -> neg_errno e <> 0.
Proof using.
  intros He. unfold neg_errno, wrap. rewrite <- (Z.mod_add (- e) 1 (2 ^ 64)) by lia.
  rewrite Z.mod_small by lia. lia.
Qed.

(** A successful call changes only the host's handlers. *)
Lemma call_ok (signum : Z) (h : host_handler) (s s' : signals) (f : option Z) :
  call_sigaction os signum h s = (s', f) ->
  sg_action s' = sg_action s /\ sg_memory s' = sg_memory s /\
  (forall e, f = Some e -> 0 < e < 4096) /\ (f = None -> host_sigaction os signum = 0).
Proof using Herr.
  unfold call_sigaction. destruct (Z.eqb_spec (host_sigaction os signum) 0) as [E|E]; intros [= <- <-].
  - by split_and!.
  - split_and!; [done|done| |done]. intros e [= <-]. destruct Herr as [H _]. specialize (H signum). lia.
Qed.

Lemma calls_ok (calls : list (Z * host_handler)) : forall s s' f,
  call_sigactions os calls s = (s', f) ->
  sg_action s' = sg_action s /\ sg_memory s' = sg_memory s /\
  (forall e, f = Some e -> 0 < e < 4096) /\
  (f = None -> Forall (fun c => host_sigaction os c.1 = 0) calls) /\ sg_alt_stack s' = sg_alt_stack s.
Proof using Herr.
  induction calls as [|[signum h] calls IH]; intros s s' f; simpl.
  { intros [= <- <-]. by split_and!. }
  destruct (call_sigaction os signum h s) as [s1 f1] eqn:E. pose proof E as E'.
  apply call_ok in E' as (H1 & H2 & H3 & H4).
  assert (sg_alt_stack s1 = sg_alt_stack s) as H5.
  { unfold call_sigaction in E. destruct (_ =? 0) in E; by injection E as <- _. }
  destruct f1 as [e|].
  - intros [= <- <-]. by split_and!.
  - intros Hc. destruct (IH s1 s' f Hc) as (I1 & I2 & I3 & I4 & I5). split_and!; try congruence; auto.
Qed.

(** A run of the installation that succeeded will succeed again. *)
Lemma diagnostics_ok (s s' : signals) (f : option Z) :
  install_poly_signal_diagnostics os s = (s', f) ->
  sg_action s' = sg_action s /\ sg_memory s' = sg_memory s /\
  (forall e, f = Some e -> 0 < e < 4096) /\
  (f = None -> forall t, sg_alt_stack t = true -> exists t', install_poly_signal_diagnostics os t = (t', None)) /\
  (f = None -> sg_alt_stack s' = true).
Proof using Herr.
  unfold install_poly_signal_diagnostics. destruct (_ && _) eqn:E.
  { intros [= <- <-]. breflect. destruct Herr as [_ Ha]. split_and!; try done. intros e [= <-]. lia. }
  intros Hc. pose proof (calls_ok _ _ _ _ Hc) as (H1 & H2 & H3 & H4 & H5).
  split_and!; try done. intros Hn t Ht. rewrite Ht. cbn [negb andb]. specialize (H4 Hn).
  rewrite !Forall_cons in H4. simpl in H4. destruct H4 as (A1 & A2 & A3 & A4 & _).
  unfold call_sigactions, call_sigaction. rewrite A1, A2, A3, A4. simpl. by eexists.
Qed.

(** Whether asking about the signal runs the installation again. *)
Definition query_ready (signum : Z) (s : signals) : Prop :=
  signum ∈ fault_signals -> sg_alt_stack s = true /\
  forall t, sg_alt_stack t = true -> exists t', install_poly_signal_diagnostics os t = (t', None).

Lemma runtime_action_sets (signum : Z) (b : bool) (a : poly_linux_ksigaction) (s s1 : signals) :
  1 <= signum < SHADOW_SIZE -> runtime_signal_action os signum b (Some a) s = (s1, 0) ->
  sg_action s1 = <[Z.to_nat signum := Some a]> (sg_action s) /\ sg_memory s1 = sg_memory s /\
  query_ready signum s1.
Proof using Herr.
  intros Hs. unfold runtime_signal_action.
  match goal with |- context [let '(s2, failed) := ?x in _] => destruct x as [s2 failed] eqn:E end.
  assert (sg_memory s2 = sg_memory s /\ (forall e, failed = Some e -> 0 < e < 4096) /\
    (failed = None -> sg_action s2 = <[Z.to_nat signum := Some a]> (sg_action s))) as (Hm & He & Ha).
  { replace (signum <? SHADOW_SIZE) with true in E by lia. destruct b.
    - unfold poly_set_host_virtual_signal_handler in E. cbv zeta in E.
      destruct (call_sigaction os signum _ s) as [t f] eqn:Ec. apply call_ok in Ec as (C1 & C2 & C3 & _).
      destruct f; injection E as <- <-; [by split_and!|]. split_and!; [done|done|]. intros _. simpl. by rewrite C1.
    - injection E as <- <-. by split_and!. }
  destruct failed as [e|].
  { intros [= _ Hz]. by destruct (neg_errno_nonzero e (He e eq_refl)). }
  destruct (_ || _) eqn:Ef.
  - destruct (install_poly_signal_diagnostics os s2) as [s3 f3] eqn:Ed.
    pose proof (diagnostics_ok _ _ _ Ed) as (D1 & D2 & D3 & D4 & D5). destruct f3 as [e|].
    { intros [= _ Hz]. by destruct (neg_errno_nonzero e (D3 e eq_refl)). }
    intros [= <-]. rewrite D1, D2. split_and!; auto. intros _. split; [auto|by apply D4].
  - intros [= <-]. split_and!; auto. intros Hf. apply fault_spec in Hf. congruence.
Qed.

Lemma plain_action_sets (signum : Z) (a : poly_linux_ksigaction) (s s1 : signals) :
  plain_signal_action os signum (Some a) s = (s1, 0) ->
  sg_action s1 = <[Z.to_nat signum := Some a]> (sg_action s) /\ sg_memory s1 = sg_memory s.
Proof using Herr.
  unfold plain_signal_action.
  match goal with |- context [let '(s2, failed) := ?x in _] => destruct x as [s2 failed] eqn:E end.
  intros Hr.
  assert (sg_action s2 = <[Z.to_nat signum := Some a]> (sg_action s) /\ sg_memory s2 = sg_memory s) as [H1 H2].
  { unfold poly_set_host_virtual_signal_handler, poly_set_host_signal_handler in E. cbv zeta in E.
    destruct (is_disposition a); [|destruct (signum <? 32); [|by simplify_eq]];
      apply call_ok in E as (-> & -> & _); done. }
  destruct failed; by simplify_eq.
Qed.

Lemma sigchld_action_sets (act : Z) (a : poly_linux_ksigaction) (s s1 : signals) :
  read_act probe act s = Some (Some a) ->
  poly_dispatch_virtual_sigchld_action probe os act 0 s = (s1, 0) ->
  sg_action s1 = <[Z.to_nat SIGCHLD := Some a]> (sg_action s) /\ sg_memory s1 = sg_memory s.
Proof using Herr.
  intros Hread. unfold poly_dispatch_virtual_sigchld_action. rewrite Hread.
  change (poly_store_guest_signal_action probe SIGCHLD 0 s) with s.
  match goal with |- context [let '(s2, failed) := ?x in _] => destruct x as [s2 failed] eqn:E end.
  assert (sg_action s2 = sg_action s /\ sg_memory s2 = sg_memory s /\
    (forall e, failed = Some e -> 0 < e < 4096)) as (H1 & H2 & H3).
  { unfold poly_set_host_virtual_signal_handler, poly_set_host_signal_handler in E. cbv zeta in E.
    destruct (is_disposition a); apply call_ok in E as (-> & -> & ? & _); done. }
  destruct failed as [e|].
  - intros [= _ Hz]. by destruct (neg_errno_nonzero e (H3 e eq_refl)).
  - intros [= <-]. simpl. by rewrite H1, H2.
Qed.

(** A call that sets an action and succeeds. *)
Lemma sigaction_sets (mode signum act : Z) (a : poly_linux_ksigaction) (s s1 : signals) :
  0 <= signum -> act <> 0 -> poly_guest_read_ksigaction probe (sg_memory s) act = Some a ->
  poly_dispatch_rt_sigaction probe os cfg mode signum act 0 8 s = (s1, 0) ->
  poly_is_raw_foreign_mode mode = true /\ 1 <= signum < SHADOW_SIZE /\
  sg_action s1 = <[Z.to_nat signum := Some a]> (sg_action s) /\ sg_memory s1 = sg_memory s /\
  query_ready signum s1.
Proof using Herr.
  intros Hsig Hact Hread. unfold poly_dispatch_rt_sigaction.
  assert (forall e, 0 < e < 4096 -> (s, neg_errno e) <> (s1, 0)) as Hne.
  { intros e He [= _ Hz]. by destruct (neg_errno_nonzero e He). }
  destruct (poly_is_raw_foreign_mode mode); cbn [negb]; [|intros H; by destruct (Hne ENOSYS ltac:(done) H)].
  destruct (_ || _) eqn:Es; [intros H; by destruct (Hne EINVAL ltac:(done) H)|].
  destruct (_ && _) eqn:Ek; [intros H; by destruct (Hne EINVAL ltac:(done) H)|].
  assert (read_act probe act s = Some (Some a)) as Hr.
  { unfold read_act. by rewrite (proj2 (Z.eqb_neq act 0) Hact), Hread. }
  rewrite Hr. change (poly_store_guest_signal_action probe signum 0 s) with s. cbv zeta.
  assert (1 <= signum < SHADOW_SIZE) as Hb by (breflect; lia). clear Es Ek Hne.
  destruct ((signum =? SIGCHLD) && _) eqn:Ec.
  { intros H. breflect. subst. destruct (sigchld_action_sets act a s s1 Hr H). split_and!; try done.
    intros Hf. by apply fault_spec in Hf. }
  destruct (_ || _) eqn:Ep.
  - intros H. destruct (runtime_action_sets signum _ a s s1 Hb H) as (? & ? & ?). by split_and!; try lia.
  - intros H. destruct (plain_action_sets signum a s s1 H). split_and!; try done; try lia.
    intros Hf. apply fault_spec in Hf. by rewrite Hf in Ep.
Qed.

(** Asking for an action stores the shadow copy and succeeds. *)
Lemma sigaction_query (mode signum oldact : Z) (s : signals) :
  poly_is_raw_foreign_mode mode = true -> 1 <= signum < SHADOW_SIZE -> query_ready signum s ->
  exists s', poly_dispatch_rt_sigaction probe os cfg mode signum 0 oldact 8 s = (s', 0) /\
    sg_memory s' = sg_memory (poly_store_guest_signal_action probe signum oldact s).
Proof using Herr.
  intros Hmode Hb Hq. unfold poly_dispatch_rt_sigaction. rewrite Hmode. cbn [negb].
  replace ((signum =? 0) || (signum >=? SHADOW_SIZE)) with false by lia. simpl.
  destruct ((signum =? SIGCHLD) && _) eqn:Ec.
  { breflect. subst. by eexists. }
  destruct (_ || _) eqn:Ep; [|by eexists]. unfold runtime_signal_action.
  destruct ((signum =? SIGSEGV) || (signum =? SIGBUS) || (signum =? SIGILL)) eqn:Ef; [|by eexists].
  apply fault_spec in Ef. destruct (Hq Ef) as [Ha Hi].
  destruct (Hi (poly_store_guest_signal_action probe signum oldact s)) as [t Ht].
  { unfold poly_store_guest_signal_action. destruct (_ =? 0); [done|].
    by destruct (poly_guest_write_ksigaction _ _ _ _). }
  rewrite Ht. exists t. split; [done|]. by destruct (diagnostics_ok _ _ _ Ht) as (_ & -> & _).
Qed.
End SetQuery.

(** Signal actions behave for the guest as it expects although the host
    never sees most of them: when setting an action succeeds, asking for it
    afterwards succeeds too and stores exactly the action that was set, for
    every signal (also those that the runtime keeps for itself), and the actions
    of all other signals are as before. *)
Theorem sigaction_set_then_query (probe : mem_probe) (os : host_os) (cfg : settings)
    (mode signum act oldact : Z) (a : poly_linux_ksigaction) (s s1 : signals) :
  host_errnos os -> length (sg_action s) = 65%nat ->
  0 <= signum -> act <> 0 -> poly_guest_read_ksigaction probe (sg_memory s) act = Some a ->
  in_width 64 (ksa_handler a) -> in_width 64 (ksa_flags a) ->
  in_width 64 (ksa_restorer a) -> in_width 64 (ksa_mask a) ->
  poly_dispatch_rt_sigaction probe os cfg mode signum act 0 8 s = (s1, 0) ->
  in_width 64 oldact -> oldact <> 0 ->
  poly_guest_range_is_mapped probe oldact 32 true = true ->
  poly_guest_range_is_mapped probe oldact 32 false = true ->
  (exists s2, poly_dispatch_rt_sigaction probe os cfg mode signum 0 oldact 8 s1 = (s2, 0) /\
     poly_guest_read_ksigaction probe (sg_memory s2) oldact = Some a) /\
  (forall other, 0 <= other -> other <> signum -> guest_action other s1 = guest_action other s).
Proof.
  intros He Hl Hsig Hact Hread W1 W2 W3 W4 Hset [Ho _] Hnz Hw Hrd.
  destruct (sigaction_sets probe os cfg He mode signum act a s s1 Hsig Hact Hread Hset)
    as (Hmode & Hb & Ha & Hm & Hq).
  split.
  - destruct (sigaction_query probe os cfg He mode signum oldact s1 Hmode Hb Hq) as (s2 & E & Hm2).
    exists s2. split; [done|]. rewrite Hm2. unfold poly_store_guest_signal_action.
    rewrite (proj2 (Z.eqb_neq oldact 0) Hnz).
    assert (guest_action signum s1 = a) as ->.
    { unfold guest_action. rewrite Ha, list_lookup_insert_eq by (unfold SHADOW_SIZE in *; lia).
      by replace (signum <? SHADOW_SIZE) with true by lia. }
    unfold poly_guest_write_ksigaction, poly_guest_read_ksigaction. rewrite Hw, Hrd. simpl.
    destruct (mapped_no_wrap probe oldact 32 true Ho ltac:(lia) Hw) as [_ Hb2].
    change UINT64_MAX with (2 ^ 64 - 1) in Hb2.
    destruct (stored_ksigaction_reads (sg_memory s1) oldact a Ho ltac:(lia) W1 W2 W3 W4)
      as (-> & -> & -> & ->). by destruct a.
  - intros other H0 Hne. unfold guest_action. rewrite Ha.
    rewrite list_lookup_insert_ne by lia. done.
Qed.

(** ** The guest's mask *)

(** What POSIX makes of a signal's place in the mask. *)
Definition posix_blocked (how : Z) (was in_set : bool) : bool :=
  if how =? SIG_BLOCK then was || in_set
  else if how =? SIG_UNBLOCK then was && negb in_set
  else in_set.

Lemma read_written_u64 (probe : mem_probe) (m m' : memory) (address v : Z) :
  in_width 64 address -> in_width 64 v -> poly_guest_range_is_mapped probe address 8 false = true ->
  poly_guest_write_u64 probe m address v = Some m' -> poly_guest_read_u64 probe m' address = Some v.
Proof.
  intros [Ha _] Hv Hr. unfold poly_guest_write_u64, poly_guest_read_u64. rewrite Hr.
  destruct (poly_guest_range_is_mapped probe address 8 true) eqn:Hw; [|done]. cbn [negb]. intros [= <-].
  destruct (mapped_no_wrap probe address 8 true Ha ltac:(lia) Hw) as [_ Hb].
  change UINT64_MAX with (2 ^ 64 - 1) in Hb. f_equal.
  assert ([] ++ le_bytes 8 v ++ [] = le_bytes 8 v) as E by apply app_nil_r.
  pose proof (load_u64_part m address [] [] v Ha) as H.
  rewrite E, le_bytes_length in H. cbn [length] in H. rewrite Z.add_0_r in H. apply H; [lia|done].
Qed.

(** Rt_sigprocmask gives the guest the mask it asks for: bad sizes, bad
    operations and unreadable sets fail and change nothing; otherwise, when the
    host's call succeeds, the guest's mask is, signal by signal, what POSIX
    prescribes for the operation, the previous mask is stored for the guest, and
    the actions are untouched. *)
Theorem sigprocmask_correct (probe : mem_probe) (os : host_os) (cfg : settings)
    (how set oldset : Z) (s : signals) :
  let call := poly_dispatch_rt_sigprocmask probe os cfg how set oldset in
  let known := how = SIG_BLOCK \/ how = SIG_UNBLOCK \/ how = SIG_SETMASK in
  let old := current_guest_mask cfg (negb (oldset =? 0) || negb (set =? 0)) s in
  (forall size, size <> 8 -> call size s = (s, neg_errno EINVAL)) /\
  (~ known -> call 8 s = (s, neg_errno EINVAL)) /\
  (known -> set <> 0 -> poly_guest_read_u64 probe (sg_memory s) set = None ->
     call 8 s = (s, neg_errno EFAULT)) /\
  (forall g, known ->
     (set = 0 /\ g = None \/ set <> 0 /\ g = poly_guest_read_u64 probe (sg_memory s) set /\ is_Some g) ->
     fst (host_sigprocmask os how (poly_sanitize_host_runtime_sigset cfg <$> g) (sg_host_mask s)) = 0 ->
     in_width 64 oldset -> in_width 64 old ->
     (oldset <> 0 -> poly_guest_range_is_mapped probe oldset 8 true = true /\
                     poly_guest_range_is_mapped probe oldset 8 false = true) ->
     exists s' mask, call 8 s = (s', 0) /\ sg_mask s' = Some mask /\ sg_action s' = sg_action s /\
       (oldset <> 0 -> poly_guest_read_u64 probe (sg_memory s') oldset = Some old) /\
       forall i, 0 <= i < 64 -> Z.testbit mask i =
         match g with
         | Some v => posix_blocked how (Z.testbit old i) (Z.testbit v i)
         | None => Z.testbit old i
         end).
Proof.
  intros call known old. unfold call, known, poly_dispatch_rt_sigprocmask. split_and!.
  - intros size Hs. by rewrite (proj2 (Z.eqb_neq size 8) Hs).
  - intros Hk. replace (_ && _ && _) with true by lia. done.
  - intros Hk Hs Hr. replace (_ && _ && _) with false by lia.
    by rewrite (proj2 (Z.eqb_neq set 0) Hs), Hr.
  - intros g Hk Hg Hst Ho Hold Hmap. replace (_ && _ && _) with false by lia. simpl (negb (8 =? 8)).
    cbv iota.
    assert ((if set =? 0 then Some None else Some <$> poly_guest_read_u64 probe (sg_memory s) set) = Some g) as ->.
    { destruct Hg as [[-> ->] | (Hs & -> & [v Hv])]; [done|].
      by rewrite (proj2 (Z.eqb_neq set 0) Hs), Hv. }
    destruct (host_sigprocmask _ _ _ _) as [status hm]. simpl in Hst. subst status. cbn [Z.eqb].
    fold old. set (mask := match g with Some v => _ | None => _ end).
    assert (forall i, 0 <= i < 64 -> Z.testbit mask i =
      match g with Some v => posix_blocked how (Z.testbit old i) (Z.testbit v i) | None => Z.testbit old i end) as Hbits.
    { intros i Hi. unfold mask. destruct g as [v|]; [|done]. rewrite update_bits by done.
      unfold posix_blocked. by destruct Hk as [-> | [-> | ->]]. }
    destruct (Z.eqb_spec oldset 0) as [->|Hne]; [by eexists _, mask|].
    destruct (Hmap Hne) as [Hw Hrd]. unfold set_masks at 1. cbn [sg_memory].
    destruct (poly_guest_write_u64 probe (sg_memory s) oldset old) as [m|] eqn:Ew.
    + eexists _, mask. split_and!; try done. intros _. simpl. by eapply read_written_u64.
    + unfold poly_guest_write_u64 in Ew. by rewrite Hw in Ew.
Qed.

(** ** A concrete guest *)

Definition all_mapped : mem_probe := fun _ _ _ => (0, 14).

(** A host whose calls succeed, with the documented masks. *)
Definition plain_host : host_os :=
  MkHost (fun _ => 0) 0 (fun how set mask =>
    (0, match set with
        | None => mask
        | Some g => if how =? SIG_BLOCK then Z.lor mask g
                    else if how =? SIG_UNBLOCK then Z.ldiff mask g
                    else g
        end)).

Definition watchdog_settings : settings := MkSettings 34 true true.

(** Guest memory with an action at 4096 whose handler is [handler]. *)
Definition action_memory (handler : Z) : memory :=
  store_bytes (fun _ => 0) 4096 (ksigaction_bytes (MkKsigaction handler 0 0 0)).

Definition fresh_signals (handler : Z) : signals :=
  MkSignals (replicate 65 None) None (fun _ => HostDefault) 0 false (action_memory handler).

(** The state when the guest starts: the runtime's handlers and the watchdog's. *)
Definition started (handler : Z) : signals :=
  set_host 34 HostWatchdog
    (fst (install_poly_signal_diagnostics plain_host
      (fst (poly_install_protected_runtime_signal_handlers plain_host watchdog_settings
        (fresh_signals handler))))).

(** The protection does not cover the watchdog's handler: setting SIG_IGN
    for the watchdog signal (SIGRTMIN, 34) replaces the runtime's handler in the
    host, although the same signal is kept unblocked. *)
Theorem watchdog_handler_replaced :
  sg_host (started SIG_IGN) 34 = HostWatchdog /\
  34 ∈ runtime_signals watchdog_settings /\
  let '(s, result) := poly_dispatch_rt_sigaction all_mapped plain_host watchdog_settings
                        POLY_MODE_RAW_AARCH64 34 4096 0 8 (started SIG_IGN) in
  result = 0 /\ sg_host s 34 = HostIgnore.
Proof.
  split; [reflexivity|]. split; [|vm_compute; auto].
  unfold runtime_signals, protected_signals, fault_signals. simpl. rewrite !elem_of_cons. auto 20.
Qed.

Lemma plain_host_blocks (how : Z) (set : option Z) (mask i : Z) :
  Z.testbit (snd (host_sigprocmask plain_host how set mask)) i = true ->
  Z.testbit mask i = true \/ exists g, set = Some g /\ Z.testbit g i = true.
Proof.
  simpl. destruct set as [g|]; [|auto]. destruct_ifs.
  - rewrite Z.lor_spec. intros [H|H]%orb_prop; eauto.
  - destruct (Z.lt_ge_cases i 0); [by rewrite Z.testbit_neg_r|].
    rewrite Z.ldiff_spec by done. intros [Hb _]%andb_prop; eauto.
  - eauto.
Qed.


Lemma sigaction_set_then_query_witness :
  let s1 := fst (poly_dispatch_rt_sigaction all_mapped plain_host watchdog_settings 1 SIGSEGV 4096 0 8
                   (fresh_signals 65536)) in
  exists s2, poly_dispatch_rt_sigaction all_mapped plain_host watchdog_settings 1 SIGSEGV 0 8192 8 s1 = (s2, 0) /\
    poly_guest_read_ksigaction all_mapped (sg_memory s2) 8192 = Some (MkKsigaction 65536 0 0 0).
Proof.
  intros s1.
  apply (sigaction_set_then_query all_mapped plain_host watchdog_settings 1 SIGSEGV 4096 8192
    (MkKsigaction 65536 0 0 0) (fresh_signals 65536) s1);
    try (unfold in_width; simpl; lia); try reflexivity; try discriminate.
  split; [intros sig|]; simpl; lia.
Defined.

Lemma sigprocmask_correct_witness :
  exists s' mask,
    poly_dispatch_rt_sigprocmask all_mapped plain_host watchdog_settings SIG_BLOCK 4096 8192 8 (fresh_signals 5) =
      (s', 0) /\ sg_mask s' = Some mask /\ Z.testbit mask 2 = true.
Proof.
  destruct (sigprocmask_correct all_mapped plain_host watchdog_settings SIG_BLOCK 4096 8192 (fresh_signals 5))
    as (_ & _ & _ & H).
  destruct (H (Some 5)) as (s' & mask & E & M & _ & _ & B).
  - left. reflexivity.
  - right. split; [discriminate|]. split; [reflexivity|by eexists].
  - reflexivity.
  - unfold in_width. lia.
  - vm_compute. split; congruence.
  - intros _. split; reflexivity.
  - exists s', mask. split; [exact E|]. split; [exact M|]. rewrite B by lia. reflexivity.
Defined.
