(* ===== verification/CrossStub.v ===== *)
(** The call stubs between instruction sets ([tools/runtime/polyexec.c]): which
    calls are bridged, the arena the stubs live in, the code of each stub and
    the statistics that are kept about them.

    The arena is a mapping of [PROCESS_CROSS_STUB_BYTES] bytes.  A stub is
    built as the list of its bytes and written at the current offset.  Host
    services and addresses of variables are parameters ([stub_env]). *)

From S2P Require Import Prelude AbiType AbiCursor AbiDescriptor LoaderBase BridgeSpec ElfImage CodeEmit.

(** ** Kinds of bridges *)

Definition process_bridge_is_compact (k : Z) : bool :=
  (k =? POLY_PROCESS_BRIDGE_COMPACT_U32_F32) || (k =? POLY_PROCESS_BRIDGE_COMPACT_F32_U32).

Definition process_bridge_is_aarch64_hfa32_ret (k : Z) : bool :=
  (k =? POLY_PROCESS_BRIDGE_AARCH64_HFA3_F32_RET) || (k =? POLY_PROCESS_BRIDGE_AARCH64_HFA4_F32_RET).

Definition process_bridge_is_aarch64_hfa64_ret (k : Z) : bool :=
  (k =? POLY_PROCESS_BRIDGE_AARCH64_HFA3_F64_RET) || (k =? POLY_PROCESS_BRIDGE_AARCH64_HFA4_F64_RET).

Definition process_bridge_is_aarch64_hfa64_arg (k : Z) : bool :=
  (k =? POLY_PROCESS_BRIDGE_AARCH64_HFA3_F64_ARG) || (k =? POLY_PROCESS_BRIDGE_AARCH64_HFA4_F64_ARG).

Definition process_bridge_aarch64_hfa64_ret_count (k : Z) : nat :=
  if k =? POLY_PROCESS_BRIDGE_AARCH64_HFA4_F64_RET then 4 else 3.

Definition process_bridge_aarch64_hfa64_arg_count (k : Z) : nat :=
  if k =? POLY_PROCESS_BRIDGE_AARCH64_HFA4_F64_ARG then 4 else 3.

Definition process_bridge_is_aarch64_hfa32_arg (k : Z) : bool :=
  (k =? POLY_PROCESS_BRIDGE_AARCH64_HFA3_F32_ARG) || (k =? POLY_PROCESS_BRIDGE_AARCH64_HFA4_F32_ARG).

Definition process_bridge_is_fpair (k : Z) : bool :=
  (k =? POLY_PROCESS_BRIDGE_FPAIR32_ARG) || (k =? POLY_PROCESS_BRIDGE_FPAIR64_ARG) ||
  (k =? POLY_PROCESS_BRIDGE_FPAIR32_RET) || (k =? POLY_PROCESS_BRIDGE_FPAIR64_RET).

Definition process_bridge_is_fpair32 (k : Z) : bool :=
  (k =? POLY_PROCESS_BRIDGE_FPAIR32_ARG) || (k =? POLY_PROCESS_BRIDGE_FPAIR32_RET).

Definition process_bridge_is_fpair64 (k : Z) : bool :=
  (k =? POLY_PROCESS_BRIDGE_FPAIR64_ARG) || (k =? POLY_PROCESS_BRIDGE_FPAIR64_RET).

Definition process_bridge_is_sret (k : Z) : bool := k =? POLY_PROCESS_BRIDGE_SRET_X86_SYSV.

Definition process_bridge_is_native_sret (k : Z) : bool := k =? POLY_PROCESS_BRIDGE_NATIVE_SRET.

Definition process_bridge_is_x86_source_signature (k : Z) : bool :=
  process_bridge_is_aarch64_hfa32_ret k || process_bridge_is_aarch64_hfa64_ret k ||
  process_bridge_is_aarch64_hfa32_arg k || process_bridge_is_fpair k || process_bridge_is_sret k.

Definition process_bridge_is_stack_thunk (k : Z) : bool :=
  (k =? POLY_PROCESS_BRIDGE_U64_STACK9) || process_bridge_is_aarch64_hfa64_ret k ||
  process_bridge_is_aarch64_hfa64_arg k.

Definition process_bridge_needs_foreign_signature_set (caller_arch callee_arch k : Z) : bool :=
  negb (caller_arch =? POLY_ARCH_X86) && (callee_arch =? POLY_ARCH_X86) && process_bridge_is_fpair k.

Definition process_bridge_is_direct_foreign_fpair (caller_arch callee_arch k : Z) : bool :=
  negb (caller_arch =? POLY_ARCH_X86) && negb (callee_arch =? POLY_ARCH_X86) &&
  negb (caller_arch =? callee_arch) && process_bridge_is_fpair k.

Definition process_bridge_signature_kind (k : Z) : Z :=
  if (k =? POLY_PROCESS_BRIDGE_AARCH64_HFA3_F32_RET) ||
     (k =? POLY_PROCESS_BRIDGE_AARCH64_HFA4_F32_RET) ||
     (k =? POLY_PROCESS_BRIDGE_AARCH64_HFA3_F64_RET) ||
     (k =? POLY_PROCESS_BRIDGE_AARCH64_HFA4_F64_RET) ||
     (k =? POLY_PROCESS_BRIDGE_AARCH64_HFA3_F32_ARG) ||
     (k =? POLY_PROCESS_BRIDGE_AARCH64_HFA4_F32_ARG) ||
     (k =? POLY_PROCESS_BRIDGE_FPAIR32_ARG) ||
     (k =? POLY_PROCESS_BRIDGE_FPAIR64_ARG) ||
     (k =? POLY_PROCESS_BRIDGE_FPAIR32_RET) ||
     (k =? POLY_PROCESS_BRIDGE_FPAIR64_RET) ||
     (k =? POLY_PROCESS_BRIDGE_SRET_X86_SYSV) ||
     (k =? POLY_PROCESS_BRIDGE_NATIVE_SRET)
  then poly_abi_descriptor_signature_kind k
  else UINT_MAX.

(** ** Signature control values ([tools/include/polycpuid.h]) *)

(** [switch (kind)]; kind 1 ([X86_SYSV]) has no case. *)
Definition poly_abi_signature_register_map (kind : Z) : Z :=
  match kind with
  | 0 => 0 (* EXCHANGE *)
  | 2 => 1 (* X86_SYSV_REGS *)
  | 3 => 2 (* X86_SYSV_REGS_I128 *)
  | 4 => 3 (* NATIVE_REGS *)
  | 5 => 4 (* NATIVE_REGS_I128 *)
  | 6 => 5 (* NATIVE_REGS_VEC128_U32 *)
  | 7 => 6 (* NATIVE_REGS_COMPACT_U32_F32 *)
  | 8 => 7 (* NATIVE_REGS_COMPACT_F32_U32 *)
  | 9 => 8 (* NATIVE_REGS_FP64 *)
  | 10 => 9 (* NATIVE_REGS_FP32 *)
  | 11 => 10 (* SRET_X86_SYSV_REGS *)
  | 12 => 11 (* X86_SYSV_REGS_FP128_RET *)
  | 13 => 12 (* X86_SYSV_REGS_FPAIR32_RET *)
  | 14 => 13 (* X86_SYSV_REGS_FPAIR32_ARG *)
  | 15 => 14 (* X86_SYSV_REGS_HETERO_U64_F64 *)
  | 16 => 15 (* X86_SYSV_REGS_HETERO_F64_U64 *)
  | 17 => 16 (* X86_SYSV_REGS_HETERO_U64_F32 *)
  | 18 => 17 (* X86_SYSV_REGS_HETERO_F32_U64 *)
  | 19 => 18 (* X86_SYSV_REGS_FPAIR64_RET *)
  | 20 => 19 (* X86_SYSV_REGS_FPAIR64_ARG *)
  | 21 => 20 (* X86_SYSV_REGS_MIXED_U64_FP64 *)
  | 22 => 21 (* X86_SYSV_REGS_AARCH64_HFA3_F32_RET *)
  | 23 => 22 (* X86_SYSV_REGS_AARCH64_HFA4_F32_RET *)
  | 24 => 23 (* X86_SYSV_REGS_AARCH64_HFA3_F32_ARG *)
  | 25 => 24 (* X86_SYSV_REGS_AARCH64_HFA4_F32_ARG *)
  | 26 => 25 (* NATIVE_SRET_REGS *)
  | 27 => 26 (* X86_SYSV_REGS_AARCH64_HFA3_F64_RET *)
  | 28 => 27 (* X86_SYSV_REGS_AARCH64_HFA4_F64_RET *)
  | _ => UINT_MAX
  end.

Definition poly_abi_signature_control_value (kind : Z) : Z :=
  if negb (Z.shiftr kind 32 =? 0) then kind
  else
    let register_map := poly_abi_signature_register_map (u32 kind) in
    if register_map =? UINT_MAX then kind
    else Z.lor (u32 kind) (u64 (Z.shiftl register_map 32)).

(** ** x86 sequences *)

Definition POLY_X86_CTRL_ABI_SIGNATURE_SET : Z := 0x69.
Definition SYS_arch_prctl : Z := 158.
Definition ARCH_SET_FS : Z := 0x1002.
Definition SYS_exit_group : Z := 231.

Definition emit_x86_preserve_sret_ptr_rax (code : list Z) : list Z := code ++ [0x48; 0x89; 0xf8].

(** [for (uint32_t n = 0; n < count; n++)]: [movsd [rax+disp8],xmmN] *)
Definition emit_x86_store_hfa64_return_to_sret (code : list Z) (count : nat) : list Z :=
  code ++ mjoin ((fun n => [0xf2; 0x0f; 0x11; u8 (0x40 + Z.shiftl (Z.of_nat n) 3); u8 (Z.of_nat n * 8)])
                 <$> seq 0 count).

Definition emit_x86_load_hfa64_arg_from_stack (code : list Z) (count : nat) : list Z :=
  let scale_reg := Z.of_nat count in
  let code := code ++ [0xf2; 0x0f; 0x10; u8 (0xc0 + Z.shiftl scale_reg 3)] in
  code ++ mjoin ((fun n => [0xf2; 0x0f; 0x10; u8 (0x44 + Z.shiftl (Z.of_nat n) 3); 0x24;
                            u8 (32 + Z.of_nat n * 8)])
                 <$> seq 0 count).

Definition emit_x86_exit_group_from_eax (code : list Z) : list Z :=
  emit_u32 (code ++ [0x89; 0xc7; 0xb8]) SYS_exit_group ++ [0x0f; 0x05; 0xf4].

Definition emit_x86_abi_signature_set (code : list Z) (slot kind : Z) : list Z :=
  let value := poly_abi_signature_control_value kind in
  let code := emit_u32 (code ++ [0x50; 0x52; 0xb8]) slot in
  let code := emit_u64 (code ++ [0x48; 0xba]) value in
  let code := emit_x86_poly_control code POLY_X86_CTRL_ABI_SIGNATURE_SET in
  code ++ [0x5a; 0x58].

Definition emit_x86_set_fs_from_global (code : list Z) (global_addr : Z) : list Z :=
  let code := emit_x86_movabs_rax code global_addr in
  let code := emit_u32 (code ++ [0x48; 0x8b; 0x30; 0xb8]) SYS_arch_prctl in
  let code := emit_u32 (code ++ [0xbf]) ARCH_SET_FS in
  code ++ [0x0f; 0x05].

(** ** AArch64 and RISC-V sequences *)

Definition POLY_AARCH64_CTRL_ABI_SIGNATURE_SET : Z := POLY_AARCH64_CTRL_ENCODING 0x7c.
Definition POLY_RISCV_CTRL_ABI_SIGNATURE_SET : Z := POLY_RISCV_CTRL_ENCODING 12.

Definition emit_process_aarch64_abi_signature_set (code : list Z) (slot kind : Z) : list Z :=
  let code := emit_aarch64_movabs code 0 slot in
  let code := emit_aarch64_movabs code 1 (poly_abi_signature_control_value kind) in
  emit_u32 code POLY_AARCH64_CTRL_ABI_SIGNATURE_SET.

Definition emit_process_riscv_abi_signature_set (code : list Z) (slot kind : Z) : list Z :=
  let register_map := poly_abi_signature_register_map kind in
  let code := emit_u32 code (riscv_addi 10 0 slot) in
  let code := emit_u32 code (riscv_addi 11 0 register_map) in
  let code := emit_u32 code (riscv_slli 11 11 32) in
  let code := emit_u32 code (riscv_addi 28 0 kind) in
  let code := emit_u32 code (riscv_or 11 11 28) in
  emit_u32 code POLY_RISCV_CTRL_ABI_SIGNATURE_SET.

Definition emit_process_aarch64_compact_pre_pcall (code : list Z) (k : Z) : list Z :=
  if k =? POLY_PROCESS_BRIDGE_COMPACT_U32_F32 then
    emit_u32 (emit_u32 code (aarch64_lsr_imm 9 0 32)) (aarch64_fmov_s_from_w 0 9)
  else if k =? POLY_PROCESS_BRIDGE_COMPACT_F32_U32 then
    emit_u32 (emit_u32 code (aarch64_fmov_s_from_w 0 0)) (aarch64_lsr_imm 0 0 32)
  else code.

Definition emit_process_aarch64_compact_post_pcall (code : list Z) (k : Z) : list Z :=
  if k =? POLY_PROCESS_BRIDGE_COMPACT_U32_F32 then
    emit_u32 (emit_u32 (emit_u32 code (aarch64_fmov_w_from_s 9 0)) (aarch64_lsl_imm 9 9 32))
      (aarch64_orr_reg 0 0 9)
  else if k =? POLY_PROCESS_BRIDGE_COMPACT_F32_U32 then
    emit_u32 (emit_u32 (emit_u32 code (aarch64_fmov_w_from_s 9 0)) (aarch64_lsl_imm 0 0 32))
      (aarch64_orr_reg 0 0 9)
  else code.

Definition emit_process_riscv_compact_pre_pcall (code : list Z) (k : Z) : list Z :=
  if k =? POLY_PROCESS_BRIDGE_COMPACT_U32_F32 then
    emit_u32 (emit_u32 (emit_u32 code (riscv_fmv_x_w 28 10)) (riscv_slli 28 28 32)) (riscv_or 10 10 28)
  else if k =? POLY_PROCESS_BRIDGE_COMPACT_F32_U32 then
    emit_u32 (emit_u32 (emit_u32 code (riscv_fmv_x_w 28 10)) (riscv_slli 10 10 32)) (riscv_or 10 10 28)
  else code.

Definition emit_process_riscv_compact_post_pcall (code : list Z) (k : Z) : list Z :=
  if k =? POLY_PROCESS_BRIDGE_COMPACT_U32_F32 then
    emit_u32 (emit_u32 code (riscv_srli 28 10 32)) (riscv_fmv_w_x 10 28)
  else if k =? POLY_PROCESS_BRIDGE_COMPACT_F32_U32 then
    emit_u32 (emit_u32 code (riscv_fmv_w_x 10 10)) (riscv_srli 10 10 32)
  else code.

(** ** The arena *)

Definition PROCESS_CROSS_STUB_BYTES : Z := 64 * 1024.

(** [mapping = None] before the first stub; [bytes] is the mapped memory. *)
Record poly_cross_stub_arena := MkArena {
  mapping : option Z;
  bytes : list Z;
  offset : Z;
}.

Definition arena_size (a : poly_cross_stub_arena) : Z := Z.of_nat (length (bytes a)).

(** [mmap] of the arena gives an address or fails; the addresses of the two
    static variables that the x86 wrapper reads. *)
Record stub_env := MkEnv {
  mmap_arena : option Z;
  addr_of_x86_tls_base : Z;
  addr_of_host_fs_base : Z;
}.

(** The counters of [note_process_cross_isa_call_stub]. *)
Record stub_counters := MkCounters {
  state_key_stubs : Z;
  signature_slot_stubs : Z;
  stack_bridge_stubs : Z;
  compact_shuffle_stubs : Z;
  register_signature_stubs : Z;
  x86_wrapper_stubs : Z;
  aarch64_to_riscv_stubs : Z;
  riscv_to_aarch64_stubs : Z;
  aarch64_to_x86_stubs : Z;
  riscv_to_x86_stubs : Z;
  x86_to_aarch64_stubs : Z;
  x86_to_riscv_stubs : Z;
  stub_reported : bool;
}.

(** The static state of the stub emitter. *)
Record stub_state := MkStubState {
  arena : poly_cross_stub_arena;
  counters : stub_counters;
  needs_x86_tls_wrapper : bool;
  slots : signature_slots;
}.

Definition with_arena (st : stub_state) (a : poly_cross_stub_arena) : stub_state :=
  MkStubState a (counters st) (needs_x86_tls_wrapper st) (slots st).

(** Anonymous memory is zero. *)
Definition fresh_bytes : list Z := replicate (Z.to_nat PROCESS_CROSS_STUB_BYTES) 0.

Lemma fresh_bytes_length : Z.of_nat (length fresh_bytes) = PROCESS_CROSS_STUB_BYTES.
Proof. unfold fresh_bytes. rewrite length_replicate. apply Z2Nat.id. by compute. Qed.
#[global] Opaque fresh_bytes.

(** [false]: -1, with [mapping] and [size] reset. *)
Definition ensure_process_cross_stub_arena (env : stub_env) (a : poly_cross_stub_arena)
    : poly_cross_stub_arena * bool :=
  match mapping a with
  | Some _ => (a, true)
  | None =>
      match mmap_arena env with
      | Some addr => (MkArena (Some addr) fresh_bytes 0, true)
      | None => (MkArena None [] 0, false)
      end
  end.

(** [align_up_size(offset, 8, &offset)] *)
Definition align_arena (a : poly_cross_stub_arena) : option poly_cross_stub_arena :=
  off ← align_up_size (offset a) 8; Some (MkArena (mapping a) (bytes a) off).

(** Writes [code] at the offset and moves the offset behind it. *)
Definition write_arena (a : poly_cross_stub_arena) (code : list Z) : poly_cross_stub_arena :=
  let o := Z.to_nat (offset a) in
  MkArena (mapping a) (take o (bytes a) ++ code ++ drop (o + length code) (bytes a))
    (offset a + Z.of_nat (length code)).

(** The addresses of the arena and of its current offset. *)
Definition arena_addr (a : poly_cross_stub_arena) : Z := default 0 (mapping a).
Definition arena_here (a : poly_cross_stub_arena) : Z := u64 (arena_addr a + offset a).

Definition note_process_cross_isa_call_stub (caller_arch callee_arch k : Z)
    (emitted_x86_wrapper : bool) (c : stub_counters) : stub_counters :=
  let one (b : bool) (n : Z) := if b then u64 (n + 1) else n in
  let stack := process_bridge_is_stack_thunk k in
  let compact := process_bridge_is_compact k in
  let dir (a b : Z) := (caller_arch =? a) && (callee_arch =? b) in
  MkCounters
    (one true (state_key_stubs c))
    (one true (signature_slot_stubs c))
    (one stack (stack_bridge_stubs c))
    (one (negb stack && compact) (compact_shuffle_stubs c))
    (one (negb stack && negb compact) (register_signature_stubs c))
    (one emitted_x86_wrapper (x86_wrapper_stubs c))
    (one (dir POLY_ARCH_AARCH64 POLY_ARCH_RISCV) (aarch64_to_riscv_stubs c))
    (one (dir POLY_ARCH_RISCV POLY_ARCH_AARCH64) (riscv_to_aarch64_stubs c))
    (one (dir POLY_ARCH_AARCH64 POLY_ARCH_X86) (aarch64_to_x86_stubs c))
    (one (dir POLY_ARCH_RISCV POLY_ARCH_X86) (riscv_to_x86_stubs c))
    (one (dir POLY_ARCH_X86 POLY_ARCH_AARCH64) (x86_to_aarch64_stubs c))
    (one (dir POLY_ARCH_X86 POLY_ARCH_RISCV) (x86_to_riscv_stubs c))
    true.

(** ** The x86 wrapper *)

(** [jz] over [skipped]: the displacement byte is patched behind it. *)
Definition emit_jz_over (code skipped : list Z) : list Z :=
  code ++ [0x74; u8 (Z.of_nat (length skipped))] ++ skipped.

(** The code that switches to the thread-local storage of x86, calls the
    target and switches back. *)
Definition x86_tls_wrapper_code (env : stub_env) (target k : Z) : list Z :=
  let stack9 := k =? POLY_PROCESS_BRIDGE_U64_STACK9 in
  let code := [0x41; 0x53; 0x57; 0x56; 0x52; 0x51; 0x41; 0x50; 0x41; 0x51] in
  let code := emit_x86_movabs_rax code (addr_of_x86_tls_base env) in
  let code := code ++ [0x48; 0x8b; 0x30; 0x48; 0x85; 0xf6] in
  let set_fs := emit_u32 [0xb8] SYS_arch_prctl in
  let set_fs := emit_u32 (set_fs ++ [0xbf]) ARCH_SET_FS in
  let code := emit_jz_over code (set_fs ++ [0x0f; 0x05]) in
  let code := code ++ [0x41; 0x59; 0x41; 0x58; 0x59; 0x5a; 0x5e; 0x5f; 0x41; 0x5b] in
  let code :=
    if stack9 then
      code ++ [0x48; 0x83; 0xec; 0x18; 0x4d; 0x8b; 0x13; 0x4c; 0x89; 0x14; 0x24;
               0x4d; 0x8b; 0x53; 0x08; 0x4c; 0x89; 0x54; 0x24; 0x08;
               0x4d; 0x8b; 0x53; 0x10; 0x4c; 0x89; 0x54; 0x24; 0x10]
    else code in
  let code := emit_x86_movabs_r11 code target in
  let code := code ++ [0x41; 0xff; 0xd3] in
  let code := if stack9 then code ++ [0x48; 0x83; 0xc4; 0x18] else code in
  let code := code ++ [0x50; 0x52] in
  let code := emit_x86_movabs_rax code (addr_of_x86_tls_base env) in
  let code := code ++ [0x48; 0x8b; 0x30; 0x48; 0x85; 0xf6] in
  let code := emit_jz_over code (emit_x86_set_fs_from_global [] (addr_of_host_fs_base env)) in
  code ++ [0x5a; 0x58; 0xc3].

(** The address of the wrapper. *)
Definition emit_process_x86_tls_call_wrapper (env : stub_env) (a : poly_cross_stub_arena) (target k : Z)
    : poly_cross_stub_arena * option Z :=
  let '(a, ok) := ensure_process_cross_stub_arena env a in
  if negb ok then (a, None)
  else
    match align_arena a with
    | None => (a, None)
    | Some a =>
        if u64 (arena_size a - offset a) <? 192 then (a, None)
        else (write_arena a (x86_tls_wrapper_code env target k), Some (arena_here a))
    end.

(** ** Which calls are bridged *)

(** The checks before anything is emitted, in the order of the code; [true]
    means that -1 is returned. *)
Definition cross_call_refused (caller_arch callee_arch k : Z) : bool :=
  let x86_caller := caller_arch =? POLY_ARCH_X86 in
  let x86_callee := callee_arch =? POLY_ARCH_X86 in
  let a64_caller := caller_arch =? POLY_ARCH_AARCH64 in
  let a64_callee := callee_arch =? POLY_ARCH_AARCH64 in
  let rv_caller := caller_arch =? POLY_ARCH_RISCV in
  let rv_callee := callee_arch =? POLY_ARCH_RISCV in
  let kind_is (b : Z) := k =? b in
  negb ((a64_caller && (rv_callee || x86_callee)) || (rv_caller && (a64_callee || x86_callee)) ||
        (x86_caller && (a64_callee || rv_callee))) ||
  (process_bridge_is_aarch64_hfa32_ret k && negb (x86_caller && a64_callee)) ||
  (process_bridge_is_aarch64_hfa64_ret k && negb (x86_caller && a64_callee)) ||
  (process_bridge_is_aarch64_hfa64_arg k && negb (x86_caller && a64_callee)) ||
  (process_bridge_is_aarch64_hfa32_arg k && negb (x86_caller && a64_callee)) ||
  (process_bridge_is_fpair k &&
     negb ((x86_caller && (a64_callee || rv_callee)) || (negb x86_caller && x86_callee) ||
           (a64_caller && rv_callee) || (rv_caller && a64_callee))) ||
  (process_bridge_is_sret k &&
     negb ((x86_caller && (a64_callee || rv_callee)) || (negb x86_caller && x86_callee))) ||
  (process_bridge_is_native_sret k && negb ((a64_caller && rv_callee) || (rv_caller && a64_callee))) ||
  (x86_callee &&
     negb (kind_is POLY_PROCESS_BRIDGE_DEFAULT) && negb (kind_is POLY_PROCESS_BRIDGE_VEC128_U32) &&
     negb (kind_is POLY_PROCESS_BRIDGE_COMPACT_U32_F32) && negb (kind_is POLY_PROCESS_BRIDGE_COMPACT_F32_U32) &&
     negb (kind_is POLY_PROCESS_BRIDGE_U64_STACK9) && negb (kind_is POLY_PROCESS_BRIDGE_FP64) &&
     negb (kind_is POLY_PROCESS_BRIDGE_FP32) && negb (kind_is POLY_PROCESS_BRIDGE_FPAIR32_ARG) &&
     negb (kind_is POLY_PROCESS_BRIDGE_FPAIR64_ARG) && negb (kind_is POLY_PROCESS_BRIDGE_FPAIR32_RET) &&
     negb (kind_is POLY_PROCESS_BRIDGE_FPAIR64_RET) && negb (kind_is POLY_PROCESS_BRIDGE_SRET_X86_SYSV)) ||
  (x86_caller &&
     negb (kind_is POLY_PROCESS_BRIDGE_DEFAULT) && negb (kind_is POLY_PROCESS_BRIDGE_VEC128_U32) &&
     negb (kind_is POLY_PROCESS_BRIDGE_COMPACT_U32_F32) && negb (kind_is POLY_PROCESS_BRIDGE_COMPACT_F32_U32) &&
     negb (kind_is POLY_PROCESS_BRIDGE_U64_STACK9) && negb (kind_is POLY_PROCESS_BRIDGE_FP64) &&
     negb (kind_is POLY_PROCESS_BRIDGE_FP32) &&
     negb (kind_is POLY_PROCESS_BRIDGE_AARCH64_HFA3_F32_RET) && negb (kind_is POLY_PROCESS_BRIDGE_AARCH64_HFA4_F32_RET) &&
     negb (kind_is POLY_PROCESS_BRIDGE_AARCH64_HFA3_F64_RET) && negb (kind_is POLY_PROCESS_BRIDGE_AARCH64_HFA4_F64_RET) &&
     negb (kind_is POLY_PROCESS_BRIDGE_AARCH64_HFA3_F64_ARG) && negb (kind_is POLY_PROCESS_BRIDGE_AARCH64_HFA4_F64_ARG) &&
     negb (kind_is POLY_PROCESS_BRIDGE_AARCH64_HFA3_F32_ARG) && negb (kind_is POLY_PROCESS_BRIDGE_AARCH64_HFA4_F32_ARG) &&
     negb (kind_is POLY_PROCESS_BRIDGE_FPAIR32_ARG) && negb (kind_is POLY_PROCESS_BRIDGE_FPAIR64_ARG) &&
     negb (kind_is POLY_PROCESS_BRIDGE_FPAIR32_RET) && negb (kind_is POLY_PROCESS_BRIDGE_FPAIR64_RET) &&
     negb (kind_is POLY_PROCESS_BRIDGE_SRET_X86_SYSV)) ||
  (kind_is POLY_PROCESS_BRIDGE_U64_STACK9 && negb x86_caller && negb x86_callee &&
     negb ((a64_caller && rv_callee) || (rv_caller && a64_callee))) ||
  (kind_is POLY_PROCESS_BRIDGE_VEC128_U32 &&
     negb ((x86_caller && (a64_callee || rv_callee)) || (negb x86_caller && x86_callee) ||
           (a64_caller && rv_callee) || (rv_caller && a64_callee))).

(** ** The stubs *)

(** The slot the call uses; [None]: -1. *)
Definition cross_signature_slot (slots : signature_slots) (caller_arch callee_arch k slot : Z) : option Z :=
  let slot :=
    if (k =? POLY_PROCESS_BRIDGE_U64_STACK9) && (callee_arch =? POLY_ARCH_X86)
    then process_native_signature_slot slots else slot in
  slot ← (if process_bridge_is_direct_foreign_fpair caller_arch callee_arch k then
            if process_bridge_is_fpair32 k then Some (process_fp32_signature_slot slots)
            else if process_bridge_is_fpair64 k then Some (process_fp64_signature_slot slots)
            else None
          else Some slot);
  if slot >=? POLY_ABI_SIGNATURE_SLOT_COUNT then None else Some slot.

Definition callee_frontend (callee_arch : Z) : Z :=
  if callee_arch =? POLY_ARCH_AARCH64 then POLY_ARCH_AARCH64
  else if callee_arch =? POLY_ARCH_RISCV then POLY_ARCH_RISCV else POLY_ARCH_X86.

(** [code[offset + n] = (uint8_t) ((value >> (n * 8)) & 0xff)] for [n < 8]. *)
Definition patch_u64 (code : list Z) (at_ : nat) (value : Z) : list Z :=
  foldl (fun c n => <[(at_ + n)%nat := u8 (Z.land (Z.shiftr value (Z.of_nat n * 8)) 0xff)]> c) code (seq 0 8).

(** The moves from the System V registers to the exchange registers. *)
Definition x86_stack9_moves (code : list Z) : list Z :=
  let code := emit_u32 (code ++ [0x4c; 0x8b; 0x64; 0x24; 0x38; 0x4c; 0x8d; 0x9c; 0x24]) 0xffffc000 in
  code ++ [0x49; 0x83; 0xe3; 0xf0; 0x4d; 0x89; 0x23; 0x49; 0x89; 0xcb; 0x49; 0x89; 0xd4;
           0x48; 0x89; 0xf8; 0x48; 0x89; 0xf2; 0x4c; 0x89; 0xe1; 0x4c; 0x89; 0xdf; 0x4c; 0x89; 0xc6;
           0x4d; 0x89; 0xc8; 0x4c; 0x8b; 0x4c; 0x24; 0x28; 0x4c; 0x8b; 0x54; 0x24; 0x30].

(** The stub of an x86 caller, at address [addr]; [None]: -1.  The state key is
    the constant 0, so no key is set. *)
Definition x86_stub_code (addr target callee_arch k slot : Z) : option (list Z * Z) :=
  let stack9 := k =? POLY_PROCESS_BRIDGE_U64_STACK9 in
  let code := [0x53] in
  let code := if stack9 then code ++ [0x41; 0x54] else code in
  let code := code ++ [0x41; 0x57; 0x48; 0x83; 0xec; 0x08; 0x50; 0x58] in
  let '(code, slot) :=
    if stack9 then (x86_stack9_moves code, POLY_ABI_SIGNATURE_SLOT_EXCHANGE) else (code, slot) in
  code ← (if process_bridge_is_x86_source_signature k then
            if process_bridge_signature_kind k =? UINT_MAX then None
            else Some (emit_x86_abi_signature_set code slot (process_bridge_signature_kind k))
          else Some code);
  let code :=
    if process_bridge_is_aarch64_hfa64_arg k
    then emit_x86_load_hfa64_arg_from_stack code (process_bridge_aarch64_hfa64_arg_count k) else code in
  let code :=
    if process_bridge_is_aarch64_hfa64_ret k then emit_x86_preserve_sret_ptr_rax code else code in
  let code := emit_x86_movabs_rbx code target in
  let return_imm_offset := (length code + 2)%nat in
  let code := emit_x86_movabs_r11 code 0 in
  let code := emit_x86_pcall_sig_imm code (callee_frontend callee_arch) slot in
  let return_addr := u64 (addr + Z.of_nat (length code)) in
  let code :=
    if process_bridge_is_aarch64_hfa64_ret k
    then emit_x86_store_hfa64_return_to_sret code (process_bridge_aarch64_hfa64_ret_count k) else code in
  let code := code ++ [0x48; 0x83; 0xc4; 0x08; 0x41; 0x5f] in
  let code := if stack9 then code ++ [0x41; 0x5c] else code in
  let code := code ++ [0x5b; 0xc3] in
  Some (patch_u64 code return_imm_offset return_addr, slot).

(** The stub of an AArch64 caller. *)
Definition aarch64_stub_code (addr pcall_target callee_arch k slot : Z) : option (list Z) :=
  let stack9_x86 := (k =? POLY_PROCESS_BRIDGE_U64_STACK9) && (callee_arch =? POLY_ARCH_X86) in
  let shuffle := process_bridge_is_compact k && negb (callee_arch =? POLY_ARCH_X86) in
  let code :=
    if stack9_x86 then
      foldl emit_u32 [] [0xd100c3ff; 0xf9401bf2; 0xf90003e6; 0xf90007e7; 0xf9000bf2; 0xf9000ffe; 0xf90013e0]
    else foldl emit_u32 [] [0xd10083ff; 0xf94013f2; 0xf90003f2; 0xf90007fe; 0xf9000be0] in
  code ← (if process_bridge_needs_foreign_signature_set POLY_ARCH_AARCH64 callee_arch k then
            if process_bridge_signature_kind k =? UINT_MAX then None
            else Some (emit_process_aarch64_abi_signature_set code slot (process_bridge_signature_kind k))
          else Some code);
  let code := emit_u32 code (if stack9_x86 then 0xf94013e0 else 0xf9400be0) in
  let code := if shuffle then emit_process_aarch64_compact_pre_pcall code k else code in
  let code := emit_aarch64_movabs code 16 pcall_target in
  let code := emit_u32 code (0xd2800011 lor shl32 (callee_frontend callee_arch land 0xffff) 5) in
  let return_addr := u64 (addr + Z.of_nat (length code) + 20) in
  let code := emit_aarch64_movabs code 18 return_addr in
  let '(code, rc) := emit_aarch64_pcall_sig code slot in
  if rc <? 0 then None
  else
    let code := if shuffle then emit_process_aarch64_compact_post_pcall code k else code in
    let code := emit_u32 code (if stack9_x86 then 0xf9400ffe else 0xf94007fe) in
    let code := emit_u32 code (if stack9_x86 then 0x9100c3ff else 0x910083ff) in
    Some (emit_u32 code 0xd65f03c0).

(** The instructions of the stub of a RISC-V caller, the two literal loads left
    open, and the position behind the call. *)
Definition riscv_stub_insns (callee_arch k slot : Z) : option (list Z * nat) :=
  let stack9_x86 := (k =? POLY_PROCESS_BRIDGE_U64_STACK9) && (callee_arch =? POLY_ARCH_X86) in
  let shuffle := process_bridge_is_compact k && negb (callee_arch =? POLY_ARCH_X86) in
  let code := emit_u32 (emit_u32 [] 0x00000297) 0 in
  let code := emit_u32 code (riscv_addi 6 0 (callee_frontend callee_arch)) in
  let code := emit_u32 (emit_u32 code 0x00000397) 0 in
  let code :=
    if stack9_x86 then
      foldl emit_u32 code [riscv_addi 2 2 (-48); riscv_sd 16 2 0; riscv_sd 17 2 8; riscv_ld 29 2 48;
                           riscv_sd 29 2 16; riscv_sd 1 2 24; riscv_sd 10 2 32]
    else
      foldl emit_u32 code [0xfe010113; riscv_ld 29 2 32; riscv_sd 29 2 0; riscv_sd 1 2 8; riscv_sd 10 2 16] in
  code ← (if process_bridge_needs_foreign_signature_set POLY_ARCH_RISCV callee_arch k then
            if process_bridge_signature_kind k =? UINT_MAX then None
            else Some (emit_process_riscv_abi_signature_set code slot (process_bridge_signature_kind k))
          else Some code);
  let code := emit_u32 code (riscv_ld 10 2 (if stack9_x86 then 32 else 16)) in
  let code := if shuffle then emit_process_riscv_compact_pre_pcall code k else code in
  let '(code, rc) := emit_riscv_pcall_sig code slot in
  if rc <? 0 then None
  else
    let return_pc := length code in
    let code := if shuffle then emit_process_riscv_compact_post_pcall code k else code in
    let code := emit_u32 code (riscv_ld 1 2 (if stack9_x86 then 24 else 8)) in
    let code := emit_u32 code (riscv_addi 2 2 (if stack9_x86 then 48 else 32)) in
    Some (emit_u32 code 0x00008067, return_pc).

(** The whole stub of a RISC-V caller: the two literals follow the code at the
    next multiple of eight, what lies between stays as it was. *)
Definition riscv_stub_code (a : poly_cross_stub_arena) (pcall_target callee_arch k slot : Z)
    : option (list Z) :=
  '(code, return_pc) ← riscv_stub_insns callee_arch k slot;
  let here := offset a + Z.of_nat (length code) in
  data ← align_up_size here 8;
  if u64 (arena_size a - data) <? 24 then None
  else
    let gap := take (Z.to_nat (data - here)) (drop (Z.to_nat here) (bytes a)) in
    let code := code ++ gap in
    let target_data_offset := Z.of_nat (length code) in
    let code := emit_u64 code pcall_target in
    let return_data_offset := Z.of_nat (length code) in
    let code := emit_u64 code (u64 (arena_here a + Z.of_nat return_pc)) in
    let code := store_u32 code 4 (riscv_ld 5 5 (signed 16 (target_data_offset - 0))) in
    Some (store_u32 code 16 (riscv_ld 7 7 (signed 16 (return_data_offset - 12)))).

(** What is emitted for the caller's instruction set: the code and the slot
    that is reported.  [room] is the number of bytes the code checks for. *)
Definition caller_stub (a : poly_cross_stub_arena) (caller_arch callee_arch target pcall_target k slot : Z)
    : option (list Z * Z) :=
  let room := u64 (arena_size a - offset a) in
  if caller_arch =? POLY_ARCH_X86 then
    if room <? 224 then None else x86_stub_code (arena_here a) target callee_arch k slot
  else if caller_arch =? POLY_ARCH_AARCH64 then
    if room <? 160 then None
    else code ← aarch64_stub_code (arena_here a) pcall_target callee_arch k slot; Some (code, slot)
  else
    if room <? 160 then None
    else code ← riscv_stub_code a pcall_target callee_arch k slot; Some (code, slot).

(** A call into x86 may go through a wrapper: the arena, aligned again, and the
    address to call; [None]: -1. *)
Definition emit_wrapper_if_needed (env : stub_env) (a : poly_cross_stub_arena) (needed : bool) (target k : Z)
    : poly_cross_stub_arena * option Z :=
  if needed then
    let '(a, w) := emit_process_x86_tls_call_wrapper env a target k in
    match w with
    | None => (a, None)
    | Some w => match align_arena a with Some a => (a, Some w) | None => (a, None) end
    end
  else (a, Some target).

(** The new state and the address of the stub; [None]: -1. *)
Definition emit_process_cross_isa_call_stub (env : stub_env) (st : stub_state)
    (caller_arch callee_arch target k slot : Z) : stub_state * option Z :=
  if caller_arch =? callee_arch then (st, Some target)
  else if cross_call_refused caller_arch callee_arch k then (st, None)
  else
    let '(a, ok) := ensure_process_cross_stub_arena env (arena st) in
    if negb ok then (with_arena st a, None)
    else
      match align_arena a with
      | None => (with_arena st a, None)
      | Some a =>
          let needs_wrapper :=
            negb (caller_arch =? POLY_ARCH_X86) && (callee_arch =? POLY_ARCH_X86) &&
            ((k =? POLY_PROCESS_BRIDGE_U64_STACK9) || needs_x86_tls_wrapper st) in
          let '(a, pcall_target) := emit_wrapper_if_needed env a needs_wrapper target k in
          match pcall_target with
          | None => (with_arena st a, None)
          | Some pcall_target =>
              match cross_signature_slot (slots st) caller_arch callee_arch k slot ≫=
                    caller_stub a caller_arch callee_arch target pcall_target k with
              | None => (with_arena st a, None)
              | Some (code, _) =>
                  (MkStubState (write_arena a code)
                     (note_process_cross_isa_call_stub caller_arch callee_arch k needs_wrapper (counters st))
                     (needs_x86_tls_wrapper st) (slots st),
                   Some (arena_here a))
              end
          end
      end.

(** ** The emitted code as instruction words *)

Definition words_bytes (ws : list Z) : list Z := mjoin (le_bytes 4 <$> ws).

Definition movabs_words (rd v : Z) : list Z :=
  [movz_word rd v; movk_word 1 rd v; movk_word 2 rd v; movk_word 3 rd v].

(** The parts of the AArch64 stub: saving, the signature, the argument shuffle,
    the result shuffle and the return. *)
Definition is_stack9_x86 (callee_arch k : Z) : bool :=
  (k =? POLY_PROCESS_BRIDGE_U64_STACK9) && (callee_arch =? POLY_ARCH_X86).
Definition is_shuffled (callee_arch k : Z) : bool :=
  process_bridge_is_compact k && negb (callee_arch =? POLY_ARCH_X86).

Definition a64_save_words (stack9_x86 : bool) : list Z :=
  if stack9_x86
  then [0xd100c3ff; 0xf9401bf2; 0xf90003e6; 0xf90007e7; 0xf9000bf2; 0xf9000ffe; 0xf90013e0]
  else [0xd10083ff; 0xf94013f2; 0xf90003f2; 0xf90007fe; 0xf9000be0].

Definition a64_signature_words (callee_arch k slot : Z) : list Z :=
  if process_bridge_needs_foreign_signature_set POLY_ARCH_AARCH64 callee_arch k then
    movabs_words 0 slot ++
    movabs_words 1 (poly_abi_signature_control_value (process_bridge_signature_kind k)) ++
    [POLY_AARCH64_CTRL_ABI_SIGNATURE_SET]
  else [].

Definition a64_pre_words (callee_arch k : Z) : list Z :=
  if is_shuffled callee_arch k then
    if k =? POLY_PROCESS_BRIDGE_COMPACT_U32_F32 then [aarch64_lsr_imm 9 0 32; aarch64_fmov_s_from_w 0 9]
    else [aarch64_fmov_s_from_w 0 0; aarch64_lsr_imm 0 0 32]
  else [].

Definition a64_post_words (callee_arch k : Z) : list Z :=
  if is_shuffled callee_arch k then
    if k =? POLY_PROCESS_BRIDGE_COMPACT_U32_F32
    then [aarch64_fmov_w_from_s 9 0; aarch64_lsl_imm 9 9 32; aarch64_orr_reg 0 0 9]
    else [aarch64_fmov_w_from_s 9 0; aarch64_lsl_imm 0 0 32; aarch64_orr_reg 0 0 9]
  else [].

(** Up to the call, without the call. *)
Definition a64_args_words (callee_arch k slot : Z) : list Z :=
  a64_save_words (is_stack9_x86 callee_arch k) ++ a64_signature_words callee_arch k slot ++
  [if is_stack9_x86 callee_arch k then 0xf94013e0 else 0xf9400be0] ++ a64_pre_words callee_arch k.

Definition a64_target_words (pcall_target callee_arch ret : Z) : list Z :=
  movabs_words 16 pcall_target ++
  [0xd2800011 lor shl32 (callee_frontend callee_arch land 0xffff) 5] ++ movabs_words 18 ret.

Definition a64_return_words (stack9_x86 : bool) : list Z :=
  [if stack9_x86 then 0xf9400ffe else 0xf94007fe; if stack9_x86 then 0x9100c3ff else 0x910083ff; 0xd65f03c0].

(** The address behind the call. *)
Definition a64_stub_return (addr callee_arch k slot : Z) : Z :=
  addr + 4 * Z.of_nat (length (a64_args_words callee_arch k slot)) + 40.

Lemma words_bytes_app (l1 l2 : list Z) : words_bytes (l1 ++ l2) = words_bytes l1 ++ words_bytes l2.
Proof. unfold words_bytes. by rewrite fmap_app, join_app. Qed.

Lemma words_bytes_cons (w : Z) (l : list Z) : words_bytes (w :: l) = le_bytes 4 w ++ words_bytes l.
Proof. done. Qed.

Lemma words_bytes_length (l : list Z) : length (words_bytes l) = (4 * length l)%nat.
Proof.
  induction l as [|w l IH]; [done|]. rewrite words_bytes_cons, length_app, le_bytes_length, IH. simpl. lia.
Qed.

Lemma emit_u32_words (code : list Z) (w : Z) : emit_u32 code w = code ++ words_bytes [w].
Proof. rewrite emit_u32_le. unfold words_bytes. cbn [fmap list_fmap mjoin list_join]. by rewrite app_nil_r. Qed.

Lemma emit_movabs_words (code : list Z) (rd v : Z) :
  emit_aarch64_movabs code rd v = code ++ words_bytes (movabs_words rd v).
Proof.
  rewrite emit_aarch64_movabs_words. unfold words_bytes, movabs_words.
  cbn [fmap list_fmap mjoin list_join]. by rewrite app_nil_r.
Qed.

Lemma foldl_emit_words (ws : list Z) : forall code, foldl emit_u32 code ws = code ++ words_bytes ws.
Proof.
  induction ws as [|w ws IH]; intros code; cbn [foldl].
  - unfold words_bytes. cbn. by rewrite app_nil_r.
  - rewrite IH, emit_u32_le, words_bytes_cons. by rewrite app_assoc.
Qed.

Lemma fpair_signature_kind (k : Z) :
  process_bridge_is_fpair k = true -> (process_bridge_signature_kind k =? UINT_MAX) = false.
Proof.
  unfold process_bridge_is_fpair. intros Hk. repeat (apply orb_prop in Hk as [Hk|Hk]).
  all: apply Z.eqb_eq in Hk as ->; vm_compute; reflexivity.
Qed.

(** Appends in the form [code ++ words_bytes ws]. *)
Ltac to_words :=
  repeat first [rewrite foldl_emit_words | rewrite emit_u32_words | rewrite emit_movabs_words];
  rewrite <- ?app_assoc, <- ?words_bytes_app, <- ?app_assoc; cbn [app].

Lemma a64_args_length (callee k slot : Z) : (length (a64_args_words callee k slot) <= 19)%nat.
Proof.
  unfold a64_args_words, a64_save_words, a64_signature_words, a64_pre_words.
  rewrite !length_app. destruct_ifs; cbn [length app movabs_words]; lia.
Qed.

Lemma aarch64_stub_code_words (addr t callee k slot : Z) :
  0 <= slot < POLY_ABI_SIGNATURE_SLOT_COUNT -> in_width 64 (a64_stub_return addr callee k slot) ->
  aarch64_stub_code addr t callee k slot =
  Some (words_bytes (a64_args_words callee k slot ++
          a64_target_words t callee (a64_stub_return addr callee k slot) ++
          [aarch64_pcall_sig_imm slot] ++ a64_post_words callee k ++
          a64_return_words (is_stack9_x86 callee k))).
Proof.
  intros Hs Hr. unfold aarch64_stub_code. fold (is_stack9_x86 callee k) (is_shuffled callee k).
  set (s9 := is_stack9_x86 callee k).
  replace (if s9 then foldl emit_u32 [] _ else _) with (words_bytes (a64_save_words s9))
    by (unfold a64_save_words; destruct s9; by rewrite foldl_emit_words).
  match goal with |- context [if process_bridge_needs_foreign_signature_set _ _ _ then ?a else ?b] =>
    replace (if process_bridge_needs_foreign_signature_set POLY_ARCH_AARCH64 callee k then a else b)
      with (Some (words_bytes (a64_save_words s9 ++ a64_signature_words callee k slot))) end.
  2:{ unfold a64_signature_words. destruct (process_bridge_needs_foreign_signature_set _ _ _) eqn:E.
      - apply andb_prop in E as [_ E]. rewrite fpair_signature_kind by done.
        unfold emit_process_aarch64_abi_signature_set. by to_words.
      - by rewrite app_nil_r. }
  cbn [mbind option_bind]. cbv zeta. rewrite (emit_u32_words (words_bytes _)), <- words_bytes_app.
  match goal with |- context [if is_shuffled callee k then emit_process_aarch64_compact_pre_pcall ?c k else ?c] =>
    replace (if is_shuffled callee k then emit_process_aarch64_compact_pre_pcall c k else c)
      with (words_bytes (a64_args_words callee k slot)) end.
  2:{ unfold a64_args_words, a64_pre_words, emit_process_aarch64_compact_pre_pcall. fold s9.
      destruct (is_shuffled callee k) eqn:E; [|by rewrite app_nil_r, <- app_assoc].
      unfold is_shuffled, process_bridge_is_compact in E. by destruct_ifs; to_words. }
  rewrite (emit_movabs_words (words_bytes _)), <- words_bytes_app, (emit_u32_words (words_bytes _)), <- words_bytes_app.
  replace (u64 (addr + _ + 20)) with (a64_stub_return addr callee k slot).
  2:{ unfold a64_stub_return in *. rewrite words_bytes_length, !length_app. cbn [length movabs_words].
      symmetry. rewrite wrap_small; [lia|]. unfold in_width in *. lia. }
  unfold emit_aarch64_pcall_sig. replace (slot <? POLY_ABI_SIGNATURE_SLOT_COUNT) with true by lia.
  cbn [Z.ltb Z.compare]. f_equal. unfold a64_target_words, a64_post_words, a64_return_words, emit_process_aarch64_compact_post_pcall.
  destruct (is_shuffled callee k) eqn:E; fold s9.
  - unfold is_shuffled, process_bridge_is_compact in E. by destruct_ifs; to_words.
  - by to_words.
Qed.

(** *** The RISC-V stub *)

Definition rv_save_words (stack9_x86 : bool) : list Z :=
  if stack9_x86
  then [riscv_addi 2 2 (-48); riscv_sd 16 2 0; riscv_sd 17 2 8; riscv_ld 29 2 48; riscv_sd 29 2 16;
        riscv_sd 1 2 24; riscv_sd 10 2 32]
  else [0xfe010113; riscv_ld 29 2 32; riscv_sd 29 2 0; riscv_sd 1 2 8; riscv_sd 10 2 16].

Definition rv_signature_words (callee_arch k slot : Z) : list Z :=
  if process_bridge_needs_foreign_signature_set POLY_ARCH_RISCV callee_arch k then
    let kind := process_bridge_signature_kind k in
    [riscv_addi 10 0 slot; riscv_addi 11 0 (poly_abi_signature_register_map kind); riscv_slli 11 11 32;
     riscv_addi 28 0 kind; riscv_or 11 11 28; POLY_RISCV_CTRL_ABI_SIGNATURE_SET]
  else [].

Definition rv_pre_words (callee_arch k : Z) : list Z :=
  if is_shuffled callee_arch k then
    if k =? POLY_PROCESS_BRIDGE_COMPACT_U32_F32
    then [riscv_fmv_x_w 28 10; riscv_slli 28 28 32; riscv_or 10 10 28]
    else [riscv_fmv_x_w 28 10; riscv_slli 10 10 32; riscv_or 10 10 28]
  else [].

Definition rv_post_words (callee_arch k : Z) : list Z :=
  if is_shuffled callee_arch k then
    if k =? POLY_PROCESS_BRIDGE_COMPACT_U32_F32 then [riscv_srli 28 10 32; riscv_fmv_w_x 10 28]
    else [riscv_fmv_w_x 10 10; riscv_srli 10 10 32]
  else [].

Definition rv_args_words (callee_arch k slot : Z) : list Z :=
  rv_save_words (is_stack9_x86 callee_arch k) ++ rv_signature_words callee_arch k slot ++
  [riscv_ld 10 2 (if is_stack9_x86 callee_arch k then 32 else 16)] ++ rv_pre_words callee_arch k.

Definition rv_return_words (stack9_x86 : bool) : list Z :=
  [riscv_ld 1 2 (if stack9_x86 then 24 else 8); riscv_addi 2 2 (if stack9_x86 then 48 else 32); 0x00008067].

(** Behind the literal loads. *)
Definition rv_tail_words (callee_arch k slot : Z) : list Z :=
  rv_args_words callee_arch k slot ++ [riscv_pcall_sig_imm slot] ++ rv_post_words callee_arch k ++
  rv_return_words (is_stack9_x86 callee_arch k).

Definition rv_head_words (callee_arch ld_target ld_return : Z) : list Z :=
  [0x00000297; ld_target; riscv_addi 6 0 (callee_frontend callee_arch); 0x00000397; ld_return].

(** The address behind the call and the offset of the literals. *)
Definition rv_stub_return (addr callee_arch k slot : Z) : Z :=
  addr + 24 + 4 * Z.of_nat (length (rv_args_words callee_arch k slot)).
Definition rv_literals (callee_arch k slot : Z) : Z :=
  let n := 20 + 4 * Z.of_nat (length (rv_tail_words callee_arch k slot)) in n + n mod 8.

Lemma riscv_stub_insns_words (callee k slot : Z) :
  0 <= slot < POLY_ABI_SIGNATURE_SLOT_COUNT ->
  riscv_stub_insns callee k slot =
  Some (words_bytes (rv_head_words callee 0 0 ++ rv_tail_words callee k slot),
        (24 + 4 * length (rv_args_words callee k slot))%nat).
Proof.
  intros Hs. unfold riscv_stub_insns. fold (is_stack9_x86 callee k) (is_shuffled callee k).
  set (s9 := is_stack9_x86 callee k). cbv zeta.
  match goal with |- context [if s9 then foldl emit_u32 ?c _ else _] =>
    replace c with (words_bytes (rv_head_words callee 0 0)) by (unfold rv_head_words; by to_words) end.
  set (h := rv_head_words callee 0 0).
  replace (if s9 then foldl emit_u32 _ _ else _) with (words_bytes (h ++ rv_save_words s9))
    by (unfold rv_save_words; destruct s9; by rewrite foldl_emit_words, <- words_bytes_app).
  match goal with |- context [if process_bridge_needs_foreign_signature_set _ _ _ then ?a else ?b] =>
    replace (if process_bridge_needs_foreign_signature_set POLY_ARCH_RISCV callee k then a else b)
      with (Some (words_bytes (h ++ rv_save_words s9 ++ rv_signature_words callee k slot))) end.
  2:{ unfold rv_signature_words. destruct (process_bridge_needs_foreign_signature_set _ _ _) eqn:E.
      - apply andb_prop in E as [_ E]. rewrite fpair_signature_kind by done.
        unfold emit_process_riscv_abi_signature_set. by to_words.
      - by rewrite app_nil_r. }
  cbn [mbind option_bind]. rewrite (emit_u32_words (words_bytes _)), <- words_bytes_app.
  match goal with |- context [if is_shuffled callee k then emit_process_riscv_compact_pre_pcall ?c k else ?c] =>
    replace (if is_shuffled callee k then emit_process_riscv_compact_pre_pcall c k else c)
      with (words_bytes (h ++ rv_args_words callee k slot)) end.
  2:{ unfold rv_args_words, rv_pre_words, emit_process_riscv_compact_pre_pcall. fold s9.
      destruct (is_shuffled callee k) eqn:E; [|by rewrite app_nil_r, <- !app_assoc].
      unfold is_shuffled, process_bridge_is_compact in E. by destruct_ifs; to_words. }
  unfold emit_riscv_pcall_sig. replace (slot <? POLY_ABI_SIGNATURE_SLOT_COUNT) with true by lia.
  cbn [Z.ltb Z.compare]. f_equal. f_equal.
  - unfold rv_tail_words, rv_post_words, rv_return_words, emit_process_riscv_compact_post_pcall. fold s9.
    destruct (is_shuffled callee k) eqn:E; [|by to_words].
    unfold is_shuffled, process_bridge_is_compact in E. by destruct_ifs; to_words.
  - rewrite emit_u32_words, length_app, !words_bytes_length, length_app. simpl. lia.
Qed.

Lemma store_u32_bytes (c rest : list Z) (x v : Z) :
  store_u32 (c ++ le_bytes 4 x ++ rest) (length c) v = c ++ le_bytes 4 v ++ rest.
Proof.
  unfold store_u32. rewrite !land_ff_shiftr by lia. rewrite (land_mask _ 8) by (lia || done).
  replace (length c) with (length c + 0)%nat at 4 by lia. rewrite !insert_app_r. f_equal.
  cbn [le_bytes app]. cbn. rewrite !Z.div_div by lia. done.
Qed.

Lemma patch_u64_bytes (c rest : list Z) (x v : Z) :
  patch_u64 (c ++ le_bytes 8 x ++ rest) (length c) v = c ++ le_bytes 8 v ++ rest.
Proof.
  unfold patch_u64. cbn [seq foldl]. rewrite !insert_app_r. f_equal.
  rewrite !land_ff_shiftr by lia. cbn [le_bytes app]. cbn.
  rewrite !(wrap_small 8) by (unfold in_width; apply Z.mod_pos_bound; lia).
  rewrite !Z.div_div, Z.div_1_r by lia. done.
Qed.

Lemma align_up_size_8 (n : Z) : 0 <= n < 2 ^ 63 -> exists r,
  align_up_size n 8 = Some r /\ n <= r < n + 8 /\ r mod 8 = 0.
Proof.
  intros Hn. destruct (align_up_size n 8) as [r|] eqn:E.
  - apply align_up_size_spec in E as (H1 & H2 & H3); [|unfold in_width; lia..].
    destruct (H2 ltac:(lia)). by exists r.
  - exfalso. revert E. unfold align_up_size, SIZE_MAX. cbn [Z.leb Z.compare].
    replace (n >? _) with false by lia. done.
Qed.

Lemma rv_args_length (callee k slot : Z) : Z.of_nat (length (rv_args_words callee k slot)) <= 17.
Proof.
  unfold rv_args_words, rv_save_words, rv_signature_words, rv_pre_words.
  rewrite !length_app. destruct_ifs; cbn [length]; lia.
Qed.

Lemma rv_tail_length (callee k slot : Z) : Z.of_nat (length (rv_tail_words callee k slot)) <= 24.
Proof.
  pose proof (rv_args_length callee k slot). unfold rv_tail_words, rv_post_words, rv_return_words.
  rewrite !length_app. destruct_ifs; cbn [length]; lia.
Qed.

Lemma signed16_small (z : Z) : 0 <= z < 2 ^ 15 -> signed 16 z = z.
Proof.
  intros. unfold signed. rewrite wrap_small by (unfold in_width; lia). by destruct_ifs; breflect; [|lia].
Qed.

(** The stub of a RISC-V caller at an aligned offset with room for it. *)
Lemma riscv_stub_code_words (a : poly_cross_stub_arena) (t callee k slot : Z) :
  0 <= slot < POLY_ABI_SIGNATURE_SLOT_COUNT -> 0 <= offset a -> offset a mod 8 = 0 ->
  offset a + 160 <= arena_size a < 2 ^ 62 -> in_width 64 (arena_addr a + offset a + 160) -> 0 <= arena_addr a ->
  let lits := rv_literals callee k slot in
  exists gap, 
    Z.of_nat (length gap) = lits - 20 - 4 * Z.of_nat (length (rv_tail_words callee k slot)) /\
    riscv_stub_code a t callee k slot =
    Some (words_bytes (rv_head_words callee (riscv_ld 5 5 lits) (riscv_ld 7 7 (lits - 4)) ++
                       rv_tail_words callee k slot) ++
          gap ++ le_bytes 8 t ++ le_bytes 8 (rv_stub_return (arena_addr a + offset a) callee k slot)).
Proof.
  intros Hs Ho Hm Hroom Hw Hb lits. unfold riscv_stub_code. rewrite riscv_stub_insns_words by done.
  pose proof (rv_tail_length callee k slot) as Hlen.
  cbn [mbind option_bind]. rewrite words_bytes_length, length_app. cbn [length rv_head_words].
  set (n := length (rv_tail_words callee k slot)) in *.
  destruct (align_up_size_8 (offset a + Z.of_nat (4 * (5 + n)))) as (r & -> & Hr & Hr8); [split; lia|].
  assert (r = offset a + lits) as ->.
  { subst lits. unfold rv_literals. fold n. div_lia. }
  assert (20 + 4 * Z.of_nat n <= lits <= 24 + 4 * Z.of_nat n) as Hl by (subst lits; unfold rv_literals; fold n; div_lia).
  cbn [mbind option_bind]. rewrite (wrap_small 64) by (unfold in_width; lia).
  replace (_ <? 24) with false by lia.
  set (gap := take _ _).
  assert (Z.of_nat (length gap) = lits - 20 - 4 * Z.of_nat n) as Hg.
  { subst gap. rewrite length_take, length_drop. unfold arena_size in Hroom. lia. }
  exists gap. split; [done|]. f_equal. cbv zeta.
  rewrite !emit_u64_le, !length_app, !le_bytes_length, words_bytes_length, length_app, <- !app_assoc.
  fold n. change (length (rv_head_words callee 0 0)) with 5%nat.
  replace (Z.of_nat (4 * (5 + n) + length gap)) with lits by lia.
  replace (Z.of_nat (4 * (5 + n) + length gap + 8)) with (lits + 8) by lia.
  replace (signed 16 (lits - 0)) with lits by (rewrite signed16_small; lia).
  replace (signed 16 (lits + 8 - 12)) with (lits - 4) by (rewrite signed16_small; lia).
  replace (u64 (arena_here a + _)) with (rv_stub_return (arena_addr a + offset a) callee k slot).
  2:{ pose proof (rv_args_length callee k slot). unfold arena_here, rv_stub_return, in_width in *.
      rewrite !wrap_small by (unfold in_width; rewrite ?wrap_small by (unfold in_width; lia); lia). lia. }
  rewrite !words_bytes_app, <- !app_assoc. set (rest := words_bytes (rv_tail_words callee k slot) ++ _).
  unfold rv_head_words. rewrite !words_bytes_cons, <- !app_assoc.
  rewrite (store_u32_bytes (le_bytes 4 0x297)).
  assert (forall u x y z w : list Z, u ++ x ++ y ++ z ++ w = (u ++ x ++ y ++ z) ++ w) as Happ
    by (intros; by rewrite <- !app_assoc).
  rewrite !Happ. apply (store_u32_bytes (le_bytes 4 0x297 ++ le_bytes 4 (riscv_ld 5 5 lits) ++
    le_bytes 4 (riscv_addi 6 0 (callee_frontend callee)) ++ le_bytes 4 0x397)).
Qed.

(** *** The x86 stub *)

Definition is_stack9 (k : Z) : bool := k =? POLY_PROCESS_BRIDGE_U64_STACK9.

Definition x86_call_slot (k slot : Z) : Z := if is_stack9 k then POLY_ABI_SIGNATURE_SLOT_EXCHANGE else slot.

Definition x86_save_bytes (k : Z) : list Z :=
  [0x53] ++ (if is_stack9 k then [0x41; 0x54] else []) ++
  [0x41; 0x57; 0x48; 0x83; 0xec; 0x08; 0x50; 0x58] ++ (if is_stack9 k then x86_stack9_moves [] else []).

Definition x86_signature_bytes (k slot : Z) : list Z :=
  if process_bridge_is_x86_source_signature k
  then emit_x86_abi_signature_set [] (x86_call_slot k slot) (process_bridge_signature_kind k) else [].

Definition x86_hfa_bytes (k : Z) : list Z :=
  (if process_bridge_is_aarch64_hfa64_arg k
   then emit_x86_load_hfa64_arg_from_stack [] (process_bridge_aarch64_hfa64_arg_count k) else []) ++
  (if process_bridge_is_aarch64_hfa64_ret k then emit_x86_preserve_sret_ptr_rax [] else []).

Definition x86_args_bytes (k slot : Z) : list Z :=
  x86_save_bytes k ++ x86_signature_bytes k slot ++ x86_hfa_bytes k.

Definition x86_call_bytes (target ret callee_arch slot : Z) : list Z :=
  [0x48; 0xbb] ++ le_bytes 8 target ++ [0x49; 0xbb] ++ le_bytes 8 ret ++
  [0x41; 0xbf] ++ le_bytes 4 (callee_frontend callee_arch) ++
  [0x0f; 0x3a; 0xfc; u8 (POLY_X86_CTRL_PCALL_SIG_IMM slot)].

Definition x86_return_bytes (k : Z) : list Z :=
  (if process_bridge_is_aarch64_hfa64_ret k
   then emit_x86_store_hfa64_return_to_sret [] (process_bridge_aarch64_hfa64_ret_count k) else []) ++
  [0x48; 0x83; 0xc4; 0x08; 0x41; 0x5f] ++ (if is_stack9 k then [0x41; 0x5c] else []) ++ [0x5b; 0xc3].

Definition x86_stub_return (addr k slot : Z) : Z := addr + Z.of_nat (length (x86_args_bytes k slot)) + 30.

Lemma source_signature_kind (k : Z) :
  process_bridge_is_x86_source_signature k = true -> (process_bridge_signature_kind k =? UINT_MAX) = false.
Proof.
  unfold process_bridge_is_x86_source_signature, process_bridge_is_aarch64_hfa32_ret,
    process_bridge_is_aarch64_hfa64_ret, process_bridge_is_aarch64_hfa32_arg, process_bridge_is_fpair,
    process_bridge_is_sret.
  intros Hk. repeat (apply orb_prop in Hk as [Hk|Hk]).
  all: apply Z.eqb_eq in Hk as ->; vm_compute; reflexivity.
Qed.

(** The emitters append. *)
Lemma signature_set_app (c : list Z) (slot kind : Z) :
  emit_x86_abi_signature_set c slot kind = c ++ emit_x86_abi_signature_set [] slot kind.
Proof.
  unfold emit_x86_abi_signature_set, emit_x86_poly_control. rewrite !emit_u32_le, !emit_u64_le.
  cbn [app]. by rewrite <- !app_assoc.
Qed.

Lemma stack9_moves_app (c : list Z) : x86_stack9_moves c = c ++ x86_stack9_moves [].
Proof. unfold x86_stack9_moves. rewrite !emit_u32_le. by rewrite <- !app_assoc. Qed.

Lemma load_hfa64_app (c : list Z) (n : nat) :
  emit_x86_load_hfa64_arg_from_stack c n = c ++ emit_x86_load_hfa64_arg_from_stack [] n.
Proof. unfold emit_x86_load_hfa64_arg_from_stack. by rewrite <- !app_assoc. Qed.

Lemma x86_stub_code_bytes (addr t callee k slot : Z) :
  in_width 64 (x86_stub_return addr k slot) ->
  x86_stub_code addr t callee k slot =
  Some (x86_args_bytes k slot ++
        x86_call_bytes t (x86_stub_return addr k slot) callee (x86_call_slot k slot) ++
        x86_return_bytes k, x86_call_slot k slot).
Proof.
  intros Hr. unfold x86_stub_code. fold (is_stack9 k). cbv zeta.
  replace (if is_stack9 k then (x86_stack9_moves _, _) else _) with (x86_save_bytes k, x86_call_slot k slot)
    by (unfold x86_save_bytes, x86_call_slot; by destruct (is_stack9 k)).
  match goal with |- context [if process_bridge_is_x86_source_signature k then ?a else ?b] =>
    replace (if process_bridge_is_x86_source_signature k then a else b)
      with (Some (x86_save_bytes k ++ x86_signature_bytes k slot)) end.
  2:{ unfold x86_signature_bytes. destruct (process_bridge_is_x86_source_signature k) eqn:E.
      - by rewrite source_signature_kind, (signature_set_app (x86_save_bytes k)) by done.
      - by rewrite app_nil_r. }
  cbn [mbind option_bind].
  match goal with |- context [emit_x86_movabs_rbx ?c t] => replace c with (x86_args_bytes k slot) end.
  2:{ unfold x86_args_bytes, x86_hfa_bytes, emit_x86_preserve_sret_ptr_rax.
      destruct (process_bridge_is_aarch64_hfa64_arg k), (process_bridge_is_aarch64_hfa64_ret k);
        rewrite ?(load_hfa64_app (_ ++ _)), ?app_nil_r; by rewrite <- ?app_assoc. }
  unfold emit_x86_movabs_rbx, emit_x86_movabs_r11, emit_x86_pcall_sig_imm, emit_x86_mov_r15d_imm,
    emit_x86_poly_control. rewrite !emit_u64_le, !emit_u32_le.
  replace (u64 (addr + _)) with (x86_stub_return addr k slot).
  2:{ unfold x86_stub_return in *. rewrite !length_app, !le_bytes_length. cbn [length].
      rewrite wrap_small; unfold in_width in *; lia. }
  f_equal. f_equal. unfold x86_call_bytes, x86_return_bytes.
  set (a := x86_args_bytes k slot). set (hd := a ++ [0x48; 0xbb] ++ le_bytes 8 t ++ [0x49; 0xbb]).
  replace (length ((a ++ [0x48; 0xbb]%Z) ++ le_bytes 8 t) + 2)%nat with (length hd)
    by (subst hd; rewrite !length_app; simpl; lia).
  transitivity (patch_u64 (hd ++ le_bytes 8 0 ++ ([0x41; 0xbf] ++ le_bytes 4 (callee_frontend callee) ++
    [0x0f; 0x3a; 0xfc; u8 (POLY_X86_CTRL_PCALL_SIG_IMM (x86_call_slot k slot))]) ++ x86_return_bytes k)
    (length hd) (x86_stub_return addr k slot)).
  - f_equal. subst hd. unfold x86_return_bytes, emit_x86_store_hfa64_return_to_sret.
    destruct (process_bridge_is_aarch64_hfa64_ret k), (is_stack9 k); by rewrite <- !app_assoc.
  - rewrite patch_u64_bytes. subst hd. unfold x86_return_bytes. by rewrite <- !app_assoc.
Qed.

Lemma x86_args_length (k slot : Z) : (length (x86_args_bytes k slot) <= 120)%nat.
Proof.
  unfold x86_args_bytes, x86_save_bytes, x86_signature_bytes, x86_hfa_bytes, process_bridge_aarch64_hfa64_arg_count.
  rewrite !length_app. destruct_ifs; vm_compute; lia.
Qed.

Lemma x86_return_length (k : Z) : (length (x86_return_bytes k) <= 30)%nat.
Proof.
  unfold x86_return_bytes, process_bridge_aarch64_hfa64_ret_count.
  rewrite !length_app. destruct_ifs; vm_compute; lia.
Qed.

(** ** Which calls are bridged *)

Definition is_arch (a : Z) : Prop := a = POLY_ARCH_X86 \/ a = POLY_ARCH_AARCH64 \/ a = POLY_ARCH_RISCV.

(** The kinds that every pair of instruction sets supports, and those that
    return or take a homogeneous aggregate of AArch64. *)
Definition common_kinds : list Z :=
  [POLY_PROCESS_BRIDGE_DEFAULT; POLY_PROCESS_BRIDGE_VEC128_U32; POLY_PROCESS_BRIDGE_COMPACT_U32_F32;
   POLY_PROCESS_BRIDGE_COMPACT_F32_U32; POLY_PROCESS_BRIDGE_U64_STACK9; POLY_PROCESS_BRIDGE_FP64;
   POLY_PROCESS_BRIDGE_FP32; POLY_PROCESS_BRIDGE_FPAIR32_ARG; POLY_PROCESS_BRIDGE_FPAIR64_ARG;
   POLY_PROCESS_BRIDGE_FPAIR32_RET; POLY_PROCESS_BRIDGE_FPAIR64_RET].
Definition hfa_kinds : list Z :=
  [POLY_PROCESS_BRIDGE_AARCH64_HFA3_F32_RET; POLY_PROCESS_BRIDGE_AARCH64_HFA4_F32_RET;
   POLY_PROCESS_BRIDGE_AARCH64_HFA3_F64_RET; POLY_PROCESS_BRIDGE_AARCH64_HFA4_F64_RET;
   POLY_PROCESS_BRIDGE_AARCH64_HFA3_F32_ARG; POLY_PROCESS_BRIDGE_AARCH64_HFA4_F32_ARG;
   POLY_PROCESS_BRIDGE_AARCH64_HFA3_F64_ARG; POLY_PROCESS_BRIDGE_AARCH64_HFA4_F64_ARG].

(** What the runtime promises to bridge. *)
Inductive bridged : Z -> Z -> Z -> Prop :=
| bridged_common caller callee k : is_arch caller -> is_arch callee -> caller <> callee ->
    k ∈ common_kinds -> bridged caller callee k
| bridged_hfa k : k ∈ hfa_kinds -> bridged POLY_ARCH_X86 POLY_ARCH_AARCH64 k
| bridged_sret caller callee : is_arch caller -> is_arch callee -> caller <> callee ->
    caller = POLY_ARCH_X86 \/ callee = POLY_ARCH_X86 ->
    bridged caller callee POLY_PROCESS_BRIDGE_SRET_X86_SYSV
| bridged_native_sret caller callee : is_arch caller -> is_arch callee -> caller <> callee ->
    caller <> POLY_ARCH_X86 -> callee <> POLY_ARCH_X86 ->
    bridged caller callee POLY_PROCESS_BRIDGE_NATIVE_SRET.

(** The same as a boolean, to compare with the checks of the code. *)
Definition bridgedb (caller callee k : Z) : bool :=
  negb (caller =? callee) &&
  (bool_decide (k ∈ common_kinds) ||
   (bool_decide (k ∈ hfa_kinds) && (caller =? POLY_ARCH_X86) && (callee =? POLY_ARCH_AARCH64)) ||
   ((k =? POLY_PROCESS_BRIDGE_SRET_X86_SYSV) && ((caller =? POLY_ARCH_X86) || (callee =? POLY_ARCH_X86))) ||
   ((k =? POLY_PROCESS_BRIDGE_NATIVE_SRET) && negb (caller =? POLY_ARCH_X86) && negb (callee =? POLY_ARCH_X86))).

Lemma bridgedb_true (caller callee k : Z) : is_arch caller -> is_arch callee ->
  bridgedb caller callee k = true <-> bridged caller callee k.
Proof.
  intros H1 H2. unfold bridgedb. rewrite andb_true_iff, !orb_true_iff, !andb_true_iff, !negb_true_iff,
    !Z.eqb_neq, !orb_true_iff, !Z.eqb_eq, !bool_decide_eq_true. split.
  - intros (Hne & [[[Hk | [[Hk ->] ->]] | [-> Ho]] | [[-> Ha] Hb]]).
    + by apply bridged_common.
    + by apply bridged_hfa.
    + by apply bridged_sret.
    + by apply bridged_native_sret.
  - intros Hb. destruct Hb; (split; [done|tauto]).
Qed.

Lemma refused_archs (caller callee k : Z) :
  cross_call_refused caller callee k = false -> is_arch caller /\ is_arch callee.
Proof.
  unfold cross_call_refused. intros H. repeat (apply orb_false_elim in H as [H _]).
  apply negb_false_iff in H. unfold is_arch.
  rewrite !orb_true_iff, !andb_true_iff, !orb_true_iff, !Z.eqb_eq in H. tauto.
Qed.

Lemma refused_table :
  forallb (fun k => forallb (fun c1 => forallb (fun c2 =>
    (c1 =? c2) || eqb (cross_call_refused c1 c2 k) (negb (bridgedb c1 c2 k))) [0; 1; 2]) [0; 1; 2]) all_kinds = true.
Proof. vm_compute. reflexivity. Qed.

Lemma arch_in (a : Z) : is_arch a -> In a [0; 1; 2].
Proof. intros [-> | [-> | ->]]; simpl; tauto. Qed.

Lemma not_refused_bridged (caller callee k : Z) :
  0 <= k < POLY_PROCESS_BRIDGE_KIND_COUNT -> caller <> callee ->
  cross_call_refused caller callee k = false <-> bridged caller callee k.
Proof.
  intros Hk Hne.
  assert (is_arch caller -> is_arch callee ->
          cross_call_refused caller callee k = negb (bridgedb caller callee k)) as Htab.
  { intros H1 H2. pose proof refused_table as H. rewrite List.forallb_forall in H.
    specialize (H k (in_all_kinds k Hk)). rewrite List.forallb_forall in H.
    specialize (H caller (arch_in _ H1)). rewrite List.forallb_forall in H.
    specialize (H callee (arch_in _ H2)).
    apply orb_prop in H as [H | H]; [apply Z.eqb_eq in H; lia|by apply eqb_prop in H]. }
  split.
  - intros H. destruct (refused_archs _ _ _ H) as [H1 H2]. apply bridgedb_true; [done..|].
    rewrite Htab in H by done. by apply negb_false_iff in H.
  - intros H. assert (is_arch caller /\ is_arch callee) as [H1 H2].
    { destruct H; split; try done; unfold is_arch; tauto. }
    rewrite Htab by done. apply negb_false_iff. by apply bridgedb_true.
Qed.

(** ** The arena stays intact *)

Definition arena_ok (a : poly_cross_stub_arena) : Prop :=
  match mapping a with
  | None => bytes a = [] /\ offset a = 0
  | Some addr =>
      0 <= addr /\ addr mod 4096 = 0 /\ addr + PROCESS_CROSS_STUB_BYTES <= 2 ^ 63 /\
      arena_size a = PROCESS_CROSS_STUB_BYTES /\ 0 <= offset a <= PROCESS_CROSS_STUB_BYTES
  end.

(** [mmap] gives a page-aligned address of user space. *)
Definition env_ok (env : stub_env) : Prop :=
  forall addr, mmap_arena env = Some addr ->
    0 <= addr /\ addr mod 4096 = 0 /\ addr + PROCESS_CROSS_STUB_BYTES <= 2 ^ 63.

(** [a'] is [a] with more code behind the old code. *)
Definition extends (a a' : poly_cross_stub_arena) : Prop :=
  arena_ok a' /\ offset a <= offset a' /\
  (mapping a <> None -> mapping a' = mapping a) /\
  take (Z.to_nat (offset a)) (bytes a') = take (Z.to_nat (offset a)) (bytes a).

Lemma extends_refl (a : poly_cross_stub_arena) : arena_ok a -> extends a a.
Proof. intros H. by split_and!. Qed.

Lemma extends_trans (a b c : poly_cross_stub_arena) : 0 <= offset a -> extends a b -> extends b c -> extends a c.
Proof.
  intros Ho (H1 & H2 & H3 & H4) (H5 & H6 & H7 & H8). split_and!; [done|lia| |].
  - intros Hn. rewrite H7, H3; [done|done|by rewrite H3].
  - assert (forall l : list Z, take (Z.to_nat (offset a)) l =
      take (Z.to_nat (offset a)) (take (Z.to_nat (offset b)) l)) as Ht.
    { intros l. rewrite take_take. f_equal. lia. }
    by rewrite Ht, H8, <- Ht.
Qed.

Lemma ensure_extends (env : stub_env) (a : poly_cross_stub_arena) : arena_ok a -> env_ok env ->
  let '(a', ok) := ensure_process_cross_stub_arena env a in
  extends a a' /\ (ok = true <-> mapping a <> None \/ mmap_arena env <> None) /\
  (ok = true -> mapping a' <> None) /\ offset a' = offset a.
Proof.
  intros Ha He. unfold ensure_process_cross_stub_arena.
  destruct (mapping a) as [m|] eqn:Em; [split_and!; [by apply extends_refl|by split; [left|]|by rewrite Em|done]|].
  unfold arena_ok in Ha. rewrite Em in Ha. destruct Ha as [Hb Ho].
  destruct (mmap_arena env) as [m|] eqn:E.
  - split_and!; [|by split; [right|]|done|done]. split_and!; [|cbn [offset]; lia|by rewrite Em|by rewrite Ho].
    destruct (He m E) as (H1 & H2 & H3).
    split_and!; [done..|exact fresh_bytes_length|done|unfold PROCESS_CROSS_STUB_BYTES; cbn [offset]; lia].
  - split_and!; [|by split; [|intros [|]]|done|done]. split_and!; [done|cbn [offset]; lia|by rewrite Em|by rewrite Ho].
Qed.

Lemma align_extends (a : poly_cross_stub_arena) : arena_ok a -> mapping a <> None -> exists a',
  align_arena a = Some a' /\ extends a a' /\ offset a' mod 8 = 0 /\ offset a' < offset a + 8.
Proof.
  intros Ha Hm. unfold align_arena. destruct (mapping a) as [m|] eqn:Em; [|done].
  pose proof Ha as Ha'. unfold arena_ok in Ha'. rewrite Em in Ha'.
  destruct Ha' as (H1 & H2 & H3 & H4 & H5). unfold PROCESS_CROSS_STUB_BYTES in *.
  destruct (align_up_size_8 (offset a)) as (r & -> & Hr & Hr8); [lia|].
  cbn [mbind option_bind]. eexists. split; [done|]. split; [|cbn [offset]; lia].
  unfold extends, arena_ok. cbn [mapping offset bytes]. rewrite Em. unfold PROCESS_CROSS_STUB_BYTES.
  split_and!; try done; try lia. div_lia.
Qed.

Lemma write_extends (a : poly_cross_stub_arena) (code : list Z) :
  arena_ok a -> mapping a <> None -> offset a + Z.of_nat (length code) <= arena_size a ->
  extends a (write_arena a code) /\
  take (length code) (drop (Z.to_nat (offset a)) (bytes (write_arena a code))) = code.
Proof.
  intros Ha Hm Hr. pose proof Ha as Ha'. unfold arena_ok in Ha'.
  destruct (mapping a) as [m|] eqn:Em; [|done]. destruct Ha' as (H1 & H2 & H3 & H4 & H5).
  unfold arena_size in *. assert (Z.to_nat (offset a) <= length (bytes a))%nat as Hle by lia.
  assert (length (take (Z.to_nat (offset a)) (bytes a)) = Z.to_nat (offset a)) as Hlt
    by (rewrite length_take; lia).
  unfold extends, arena_ok, write_arena, arena_size. cbn [mapping offset bytes]. rewrite Em. split_and!; try done; try lia.
  - rewrite !length_app, length_take, length_drop. lia.
  - by rewrite take_app_length' by done.
  - by rewrite drop_app_length', take_app_length by done.
Qed.

Lemma wrapper_length (env : stub_env) (target k : Z) : (length (x86_tls_wrapper_code env target k) <= 192)%nat.
Proof.
  unfold x86_tls_wrapper_code. destruct (k =? POLY_PROCESS_BRIDGE_U64_STACK9); vm_compute; lia.
Qed.

(** Room that is enough for a stub, a wrapper and their alignment. *)
Definition STUB_ROOM : Z := 224 + 192 + 24.

Lemma wrapper_extends (env : stub_env) (a : poly_cross_stub_arena) (target k : Z) :
  arena_ok a -> env_ok env -> mapping a <> None ->
  let '(a', w) := emit_process_x86_tls_call_wrapper env a target k in
  extends a a' /\ (w = None -> arena_size a - offset a < 192 + 8) /\
  (w <> None -> offset a' <= offset a + 192 + 8).
Proof.
  intros Ha He Hm. unfold emit_process_x86_tls_call_wrapper.
  pose proof (ensure_extends env a Ha He) as H. unfold ensure_process_cross_stub_arena in *.
  destruct (mapping a) as [m|] eqn:Em; [|done]. cbn [negb].
  destruct (align_extends a Ha ltac:(by rewrite Em)) as (b & -> & Hb & Hb8 & Hb'). pose proof Hb as (Hok & Hbo & Hbm & _).
  assert (mapping b <> None) as Hmb by (rewrite Hbm; by rewrite Em).
  assert (arena_size b = arena_size a /\ 0 <= offset b <= arena_size b /\ arena_size b = PROCESS_CROSS_STUB_BYTES) as (Hs1 & Hs2 & Hs3).
  { rewrite Hbm in Hmb by (by rewrite Em). unfold arena_ok in Ha, Hok. rewrite Hbm, Em in Hok by (by rewrite Em).
    rewrite Em in Ha. destruct Ha as (_ & _ & _ & Ha & _). destruct Hok as (_ & _ & _ & -> & ?). lia. }
  unfold PROCESS_CROSS_STUB_BYTES in *. rewrite (wrap_small 64) by (unfold in_width; lia).
  destruct (Z.ltb_spec (arena_size b - offset b) 192); [split; [done|split; [lia|done]]|].
  pose proof (wrapper_length env target k).
  destruct (write_extends b (x86_tls_wrapper_code env target k) Hok Hmb ltac:(lia)) as [Hw _].
  split; [|split; [done|]].
  - eapply extends_trans; [|done..]. unfold arena_ok in Ha. rewrite Em in Ha. lia.
  - unfold write_arena. cbn [offset]. lia.
Qed.

Lemma arena_ok_size (a : poly_cross_stub_arena) :
  arena_ok a -> mapping a <> None -> arena_size a = PROCESS_CROSS_STUB_BYTES /\ 0 <= offset a.
Proof. unfold arena_ok. intros H Hm. destruct (mapping a); [|done]. lia. Qed.

Lemma wrapper_if_needed_extends (env : stub_env) (a : poly_cross_stub_arena) (needed : bool) (target k : Z) :
  arena_ok a -> env_ok env -> mapping a <> None -> offset a mod 8 = 0 ->
  let '(a', pt) := emit_wrapper_if_needed env a needed target k in
  extends a a' /\ (pt <> None -> offset a' mod 8 = 0 /\ offset a' <= offset a + 192 + 16) /\
  (pt = None -> PROCESS_CROSS_STUB_BYTES - offset a < 192 + 8).
Proof.
  intros Ha He Hm H8. unfold emit_wrapper_if_needed.
  destruct needed; [|split_and!; [by apply extends_refl|lia|done]].
  pose proof (wrapper_extends env a target k Ha He Hm) as Hw.
  destruct (emit_process_x86_tls_call_wrapper env a target k) as [b [w|]]; destruct Hw as (Hx & Hn & Hs).
  - specialize (Hs ltac:(done)). pose proof Hx as (Hok & _ & Hmb & _).
    destruct (align_extends b Hok ltac:(by rewrite Hmb)) as (c & -> & Hc & Hc8 & Hlt).
    split_and!; [|split; [done|lia]|done]. eapply extends_trans; [by apply arena_ok_size|done..].
  - split_and!; [done|done|]. intros _. specialize (Hn eq_refl). destruct (arena_ok_size a Ha Hm). lia.
Qed.

(** What [caller_stub] emits always fits and it fails only for want of room. *)
Lemma caller_stub_total (a : poly_cross_stub_arena) (caller callee t pt k slot : Z) :
  arena_ok a -> mapping a <> None -> offset a mod 8 = 0 -> 0 <= slot < POLY_ABI_SIGNATURE_SLOT_COUNT ->
  match caller_stub a caller callee t pt k slot with
  | Some (code, _) => offset a + Z.of_nat (length code) <= arena_size a
  | None => arena_size a - offset a < 224
  end.
Proof.
  intros Ha Hm H8 Hs. unfold arena_ok in Ha. destruct (mapping a) as [m|] eqn:Em; [|done].
  destruct Ha as (H1 & H2 & H3 & H4 & H5). rewrite H4. unfold caller_stub. rewrite H4.
  unfold PROCESS_CROSS_STUB_BYTES in *. rewrite (wrap_small 64) by (unfold in_width; lia).
  assert (arena_here a = m + offset a) as Hh.
  { unfold arena_here, arena_addr. rewrite Em. apply wrap_small. unfold in_width. cbn. lia. }
  destruct (caller =? POLY_ARCH_X86); [|destruct (caller =? POLY_ARCH_AARCH64)].
  - destruct (Z.ltb_spec (64 * 1024 - offset a) 224); [lia|].
    pose proof (x86_args_length k slot). pose proof (x86_return_length k).
    rewrite x86_stub_code_bytes by (unfold in_width, x86_stub_return; lia).
    rewrite !length_app. unfold x86_call_bytes. rewrite !length_app, !le_bytes_length. cbn [length]. lia.
  - destruct (Z.ltb_spec (64 * 1024 - offset a) 160); [lia|].
    pose proof (a64_args_length callee k slot).
    rewrite aarch64_stub_code_words by (done || unfold in_width, a64_stub_return; lia).
    cbn [mbind option_bind]. rewrite words_bytes_length, !length_app.
    unfold a64_post_words, a64_target_words, a64_return_words. rewrite !length_app.
    destruct_ifs; cbn [length movabs_words]; lia.
  - destruct (Z.ltb_spec (64 * 1024 - offset a) 160); [lia|].
    destruct (riscv_stub_code_words a pt callee k slot) as (gap & Hg & ->);
      [done|lia|done|lia|unfold in_width, arena_addr; rewrite Em; cbn; lia|unfold arena_addr; rewrite Em; cbn; lia|].
    cbn [mbind option_bind]. pose proof (rv_tail_length callee k slot).
    assert (rv_literals callee k slot <= 24 + 4 * Z.of_nat (length (rv_tail_words callee k slot)))
      by (unfold rv_literals; div_lia).
    rewrite !length_app, words_bytes_length, !le_bytes_length, length_app. cbn [length rv_head_words]. lia.
Qed.

(** The slots the setup chose are numbers that fit the table. *)
Definition slots_ok (s : signature_slots) : Prop :=
  0 <= process_native_signature_slot s < POLY_ABI_SIGNATURE_SLOT_COUNT /\
  0 <= process_fp64_signature_slot s < POLY_ABI_SIGNATURE_SLOT_COUNT /\
  0 <= process_fp32_signature_slot s < POLY_ABI_SIGNATURE_SLOT_COUNT.

Lemma cross_slot_total (s : signature_slots) (caller callee k slot : Z) :
  slots_ok s -> 0 <= slot < POLY_ABI_SIGNATURE_SLOT_COUNT -> exists slot',
  cross_signature_slot s caller callee k slot = Some slot' /\ 0 <= slot' < POLY_ABI_SIGNATURE_SLOT_COUNT.
Proof.
  intros (H1 & H2 & H3) Hs. unfold cross_signature_slot.
  set (s1 := if (k =? _) && _ then _ else slot).
  assert (0 <= s1 < POLY_ABI_SIGNATURE_SLOT_COUNT) as Hs1 by (subst s1; by destruct_ifs).
  assert (exists s2, (if process_bridge_is_direct_foreign_fpair caller callee k then
            if process_bridge_is_fpair32 k then Some (process_fp32_signature_slot s)
            else if process_bridge_is_fpair64 k then Some (process_fp64_signature_slot s)
            else None else Some s1) = Some s2 /\ 0 <= s2 < POLY_ABI_SIGNATURE_SLOT_COUNT) as (s2 & -> & Hs2).
  { destruct (process_bridge_is_direct_foreign_fpair _ _ _) eqn:E; [|by exists s1].
    apply andb_prop in E as [_ E]. unfold process_bridge_is_fpair, process_bridge_is_fpair32,
      process_bridge_is_fpair64 in *. destruct_ifs; eauto. exfalso. breflect. lia. }
  cbn [mbind option_bind]. rewrite Z.geb_leb. destruct (Z.leb_spec POLY_ABI_SIGNATURE_SLOT_COUNT s2); [lia|].
  by exists s2.
Qed.

(** The stub was written at [start], behind everything written before. *)
Definition stub_written (st st' : stub_state) (caller callee k addr : Z) : Prop :=
  exists start code m, mapping (arena st') = Some m /\ addr = m + start /\
    offset (arena st) <= start /\ start mod 8 = 0 /\
    offset (arena st') = start + Z.of_nat (length code) /\
    take (length code) (drop (Z.to_nat start) (bytes (arena st'))) = code /\
    counters st' = note_process_cross_isa_call_stub caller callee k
      (negb (caller =? POLY_ARCH_X86) && (callee =? POLY_ARCH_X86) &&
       (is_stack9 k || needs_x86_tls_wrapper st)) (counters st) /\
    exists a t pt slot r, caller_stub a caller callee t pt k slot = Some (code, r) /\ arena_here a = addr.

Lemma arena_ok_here (a : poly_cross_stub_arena) (m : Z) :
  arena_ok a -> mapping a = Some m -> arena_here a = m + offset a.
Proof.
  unfold arena_ok. intros Ha Em. rewrite Em in Ha. unfold PROCESS_CROSS_STUB_BYTES in Ha.
  unfold arena_here, arena_addr. rewrite Em. apply wrap_small. unfold in_width. cbn. lia.
Qed.

(** The last part of the emission, with the wrapper already in place. *)
Lemma emit_stub_part (st : stub_state) (a : poly_cross_stub_arena) (caller callee t pt k slot : Z) (wrapped : bool) :
  extends (arena st) a -> 0 <= offset (arena st) -> mapping a <> None -> offset a mod 8 = 0 ->
  0 <= slot < POLY_ABI_SIGNATURE_SLOT_COUNT ->
  wrapped = negb (caller =? POLY_ARCH_X86) && (callee =? POLY_ARCH_X86) &&
            (is_stack9 k || needs_x86_tls_wrapper st) ->
  match caller_stub a caller callee t pt k slot with
  | None => arena_size a - offset a < 224
  | Some (code, _) =>
      let st' := MkStubState (write_arena a code)
        (note_process_cross_isa_call_stub caller callee k wrapped (counters st)) (needs_x86_tls_wrapper st) (slots st) in
      extends (arena st) (arena st') /\ stub_written st st' caller callee k (arena_here a)
  end.
Proof.
  intros Ha Ho Hm H8 Hs ->. pose proof Ha as (Hok & Hao & _).
  pose proof (caller_stub_total a caller callee t pt k slot Hok Hm H8 Hs) as Ht.
  destruct (caller_stub a caller callee t pt k slot) as [[code r]|] eqn:E; [|done].
  destruct (write_extends a code Hok Hm Ht) as [Hw Hc].
  split; [by eapply extends_trans|]. destruct (mapping a) as [m|] eqn:Em; [|done].
  exists (offset a), code, m. split_and!; try done.
  - by apply arena_ok_here.
  - by exists a, t, pt, slot, r.
Qed.

(** Emitting a call stub is safe and complete.  Nothing is written outside
    the arena or over code emitted before; the stub lies at a multiple of eight
    behind it; the call succeeds exactly for the pairs and kinds the runtime
    promises to bridge, as long as the arena can be mapped and has room for a
    stub and a wrapper; a call within one instruction set needs no stub. *)
Theorem cross_stub_emission (env : stub_env) (st : stub_state) (caller callee target k slot : Z) :
  arena_ok (arena st) -> env_ok env -> slots_ok (slots st) ->
  0 <= k < POLY_PROCESS_BRIDGE_KIND_COUNT -> 0 <= slot < POLY_ABI_SIGNATURE_SLOT_COUNT ->
  let '(st', r) := emit_process_cross_isa_call_stub env st caller callee target k slot in
  extends (arena st) (arena st') /\
  match r with
  | Some addr => if caller =? callee then addr = target /\ st' = st
                 else bridged caller callee k /\ stub_written st st' caller callee k addr
  | None => caller <> callee /\ counters st' = counters st /\
            (~ bridged caller callee k \/ mapping (arena st) = None /\ mmap_arena env = None \/
             PROCESS_CROSS_STUB_BYTES - offset (arena st) < STUB_ROOM)
  end.
Proof.
  intros Ha He Hsl Hk Hs. unfold emit_process_cross_isa_call_stub.
  assert (0 <= offset (arena st)) as Ho
    by (unfold arena_ok in Ha; destruct (mapping (arena st)); [lia|destruct Ha as [_ ->]; lia]).
  destruct (Z.eqb_spec caller callee) as [Heq|Hne]; [by split; [apply extends_refl|]|].
  destruct (cross_call_refused caller callee k) eqn:Er.
  { split_and!; [by apply extends_refl|done|done|]. left. rewrite <- not_refused_bridged by done. congruence. }
  apply not_refused_bridged in Er; [|done..].
  pose proof (ensure_extends env (arena st) Ha He) as Hen.
  destruct (ensure_process_cross_stub_arena env (arena st)) as [a1 ok]. destruct Hen as (Hx1 & Hok1 & Hm1 & Ho1).
  destruct ok; cbn [negb].
  2:{ split_and!; [done|done|done|]. right; left.
      destruct (mapping (arena st)), (mmap_arena env); try done; exfalso; discriminate (proj2 Hok1 ltac:(first [by left | by right])). }
  specialize (Hm1 eq_refl).
  destruct (align_extends a1 (proj1 Hx1) Hm1) as (a2 & -> & Hx2 & H8 & Hlt2).
  pose proof (extends_trans _ _ _ Ho Hx1 Hx2) as Hx12. pose proof Hx2 as (Hok2 & _ & Hm2 & _).
  assert (mapping a2 <> None) as Hm2' by (by rewrite Hm2).
  set (needed := _ && _ && _).
  pose proof (wrapper_if_needed_extends env a2 needed target k Hok2 He Hm2' H8) as Hw.
  destruct (emit_wrapper_if_needed env a2 needed target k) as [a3 [pt|]]; destruct Hw as (Hx3 & Hs3 & Hn3).
  2:{ split_and!; [by eapply extends_trans|done|done|]. right; right. specialize (Hn3 eq_refl).
      unfold STUB_ROOM. lia. }
  pose proof (extends_trans _ _ _ Ho Hx12 Hx3) as Hx. specialize (Hs3 ltac:(done)) as [H38 H3o].
  assert (mapping a3 <> None) as Hm3 by (destruct Hx3 as (_ & _ & H & _); by rewrite H).
  destruct (cross_slot_total (slots st) caller callee k slot Hsl Hs) as (slot' & -> & Hs'). cbn [mbind option_bind].
  pose proof (emit_stub_part st a3 caller callee target pt k slot' needed Hx Ho Hm3 H38 Hs' eq_refl) as Hp.
  destruct (caller_stub a3 caller callee target pt k slot') as [[code r]|]; [by destruct Hp|].
  split_and!; [done|done|done|]. right; right. unfold STUB_ROOM.
  destruct (arena_ok_size a3 (proj1 Hx3) Hm3) as [Hsz _]. lia.
Qed.

(** ** The statistics *)

(** Every stub is counted once by direction and once by the way it passes its
    arguments. *)
Definition counters_ok (c : stub_counters) : Prop :=
  state_key_stubs c = u64 (aarch64_to_riscv_stubs c + riscv_to_aarch64_stubs c + aarch64_to_x86_stubs c +
                           riscv_to_x86_stubs c + x86_to_aarch64_stubs c + x86_to_riscv_stubs c) /\
  state_key_stubs c = u64 (stack_bridge_stubs c + compact_shuffle_stubs c + register_signature_stubs c) /\
  signature_slot_stubs c = state_key_stubs c.

Lemma u64_succ (x y : Z) : x = u64 y -> u64 (x + 1) = u64 (y + 1).
Proof. intros ->. unfold wrap. by rewrite Zplus_mod_idemp_l. Qed.

Lemma note_counters_ok (caller callee k : Z) (w : bool) (c : stub_counters) :
  is_arch caller -> is_arch callee -> caller <> callee -> counters_ok c ->
  counters_ok (note_process_cross_isa_call_stub caller callee k w c).
Proof.
  intros H1 H2 Hne (C1 & C2 & C3). unfold counters_ok, note_process_cross_isa_call_stub.
  cbn [state_key_stubs signature_slot_stubs stack_bridge_stubs compact_shuffle_stubs register_signature_stubs
       aarch64_to_riscv_stubs riscv_to_aarch64_stubs aarch64_to_x86_stubs riscv_to_x86_stubs
       x86_to_aarch64_stubs x86_to_riscv_stubs].
  rewrite C3. split_and!; [rewrite (u64_succ _ _ C1)|rewrite (u64_succ _ _ C2)|done].
  - destruct H1 as [-> | [-> | ->]], H2 as [-> | [-> | ->]]; try done;
      cbn [Z.eqb POLY_ARCH_X86 POLY_ARCH_AARCH64 POLY_ARCH_RISCV Pos.eqb andb];
      unfold wrap; pow_literals; clear; div_lia.
  - destruct (process_bridge_is_stack_thunk k), (process_bridge_is_compact k); cbn [negb andb];
      unfold wrap; pow_literals; clear; div_lia.
Qed.

(** The statistics stay consistent through any emission: the total is the
    sum of the six directions and the sum of the three ways of passing
    arguments, and equals the number of signature slots used (all modulo
    2^64). *)
Theorem stub_statistics (env : stub_env) (st : stub_state) (caller callee target k slot : Z) :
  counters_ok (counters st) ->
  counters_ok (counters (fst (emit_process_cross_isa_call_stub env st caller callee target k slot))).
Proof.
  intros Hc. unfold emit_process_cross_isa_call_stub.
  destruct (Z.eqb_spec caller callee) as [|Hne]; [done|].
  destruct (cross_call_refused caller callee k) eqn:Er; [done|]. apply refused_archs in Er as [H1 H2].
  destruct (ensure_process_cross_stub_arena _ _) as [a1 [|]]; [|done]. cbn [negb].
  destruct (align_arena a1) as [a2|]; [|done].
  destruct (emit_wrapper_if_needed _ _ _ _ _) as [a3 [pt|]]; [|done].
  destruct (cross_signature_slot _ _ _ _ _ ≫= _) as [[code r]|]; [|done].
  by apply note_counters_ok.
Qed.

(** ** Concrete stubs *)

Definition sample_env : stub_env := MkEnv (Some 0x700000000000) 0x600100 0x600108.
Definition sample_state : stub_state :=
  MkStubState (MkArena None [] 0) (MkCounters 0 0 0 0 0 0 0 0 0 0 0 0 false) true (MkSlots 3 8 9 10 12 5 6 7).

Lemma sample_env_ok : env_ok sample_env.
Proof. intros addr [= <-]. unfold PROCESS_CROSS_STUB_BYTES. split_and!; [lia|done|lia]. Qed.

Lemma cross_stub_emission_witness :
  let '(st', r) := emit_process_cross_isa_call_stub sample_env sample_state POLY_ARCH_AARCH64 POLY_ARCH_X86
                     0x401000 POLY_PROCESS_BRIDGE_FPAIR32_ARG 3 in
  extends (arena sample_state) (arena st') /\
  match r with
  | Some addr => bridged POLY_ARCH_AARCH64 POLY_ARCH_X86 POLY_PROCESS_BRIDGE_FPAIR32_ARG /\
      stub_written sample_state st' POLY_ARCH_AARCH64 POLY_ARCH_X86 POLY_PROCESS_BRIDGE_FPAIR32_ARG addr
  | None => POLY_ARCH_AARCH64 <> POLY_ARCH_X86 /\ counters st' = counters sample_state /\
      (~ bridged POLY_ARCH_AARCH64 POLY_ARCH_X86 POLY_PROCESS_BRIDGE_FPAIR32_ARG \/
       mapping (arena sample_state) = None /\ mmap_arena sample_env = None \/
       PROCESS_CROSS_STUB_BYTES - offset (arena sample_state) < STUB_ROOM)
  end.
Proof.
  apply (cross_stub_emission sample_env sample_state POLY_ARCH_AARCH64 POLY_ARCH_X86
           0x401000 POLY_PROCESS_BRIDGE_FPAIR32_ARG 3).
  - by split.
  - exact sample_env_ok.
  - by split_and!.
  - by split.
  - by split.
Defined.

Lemma stub_statistics_witness :
  counters_ok (counters (fst (emit_process_cross_isa_call_stub sample_env sample_state POLY_ARCH_X86
    POLY_ARCH_RISCV 0x401000 POLY_PROCESS_BRIDGE_U64_STACK9 0))).
Proof. apply (stub_statistics sample_env sample_state). by split_and!. Defined.
