(* ===== verification/StubMachine.v ===== *)
(** A machine that runs the code of the call stubs: the registers and the
    memory of one caller, and the instructions of x86, AArch64 and RISC-V that
    [tools/runtime/polyexec.c] emits.

    The three instruction sets implement one interface ([ISA]); that a block of
    instructions runs as its instructions one after the other is proved once
    against it.  Memory is a function on byte addresses.  Code is fetched from
    the list of bytes at [base] and is not changed by stores: the stack of a
    caller does not overlap the arena.

    The call to another frontend ([PCALL]) is where a run ends: what the
    processor does there is described by the registers it reads. *)

From stdpp Require Import relations.
From S2P Require Import Prelude BridgeSpec ElfImage CodeEmit Trampoline.

(** ** State *)

Record data := Data {
  gpr : regfile;
  fpr : regfile;
  mem : Z -> Z;
  zero_flag : bool;
  fs_base : Z;
  tpidr : Z;
  (** the signature table of the processor *)
  signatures : Z -> Z;
  (** what the next control instruction leaves in its result register, and what
      a system call leaves in r11 *)
  next_status : Z;
}.

Definition set_gpr (d : data) (r v : Z) : data :=
  Data (set_reg (gpr d) r v) (fpr d) (mem d) (zero_flag d) (fs_base d) (tpidr d) (signatures d) (next_status d).
Definition set_fpr (d : data) (r v : Z) : data :=
  Data (gpr d) (set_reg (fpr d) r v) (mem d) (zero_flag d) (fs_base d) (tpidr d) (signatures d) (next_status d).
Definition set_mem (d : data) (m : Z -> Z) : data :=
  Data (gpr d) (fpr d) m (zero_flag d) (fs_base d) (tpidr d) (signatures d) (next_status d).
Definition set_zero_flag (d : data) (b : bool) : data :=
  Data (gpr d) (fpr d) (mem d) b (fs_base d) (tpidr d) (signatures d) (next_status d).
Definition set_fs_base (d : data) (v : Z) : data :=
  Data (gpr d) (fpr d) (mem d) (zero_flag d) v (tpidr d) (signatures d) (next_status d).
Definition set_signature (d : data) (slot v : Z) : data :=
  Data (gpr d) (fpr d) (mem d) (zero_flag d) (fs_base d) (tpidr d) (set_reg (signatures d) slot v) (next_status d).

(** *** Memory *)

Definition mem_load (m : Z -> Z) (a : Z) : Z :=
  le_value ((fun n => u8 (m (u64 (a + Z.of_nat n)))) <$> seq 0 8).

Definition mem_store (m : Z -> Z) (a v : Z) : Z -> Z := fun b =>
  let i := u64 (b - a) in
  if i <? 8 then (v / 2 ^ (8 * i)) mod 256 else m b.

(** What follows an instruction. *)
Inductive flow := Next | Jump (target : Z).

(** ** The interface of an instruction set *)

(** [decode a bytes] reads one instruction at address [a] and its length;
    [exec d pc next i] executes it.  [None] is an instruction that the machine
    does not execute, among them [PCALL]. *)
Class ISA (I : Type) := {
  decode : Z -> list Z -> option (I * nat);
  exec : data -> Z -> Z -> I -> option (data * flow);
}.

Section Run.
  Context (I : Type) `{ISA I}.
  Context (base : Z) (code : list Z).

Definition step1 (s : Z * data) : option (Z * data) :=
  '(i, n) ← decode (fst s) (window base code (fst s));
  let next := fst s + Z.of_nat n in
  '(d, f) ← exec (snd s) (fst s) next i;
  match f with
  | Next => Some (next, d)
  | Jump target => Some (target, d)
  end.

Definition runs : Z * data -> Z * data -> Prop := rtc (fun s s' => step1 s = Some s').

End Run.
Arguments step1 I {_} base code s.
Arguments runs I {_} base code _ _.

(** Instructions with their bytes run one after the other; none of them
    jumps. *)
Fixpoint run_block {I} `{ISA I} (pc : Z) (d : data) (l : list (I * list Z)) : option data :=
  match l with
  | [] => Some d
  | (i, b) :: l' =>
      match exec d pc (pc + Z.of_nat (length b)) i with
      | Some (d', Next) => run_block (pc + Z.of_nat (length b)) d' l'
      | _ => None
      end
  end.

Lemma run_block_app {I} `{ISA I} (l1 l2 : list (I * list Z)) : forall pc d,
  run_block pc d (l1 ++ l2) =
  d1 ← run_block pc d l1; run_block (pc + Z.of_nat (length (mjoin (snd <$> l1)))) d1 l2.
Proof.
  induction l1 as [|[i b] l1 IH]; intros pc d.
  - cbn. by rewrite Z.add_0_r.
  - cbn [app run_block]. destruct (exec _ _ _ _) as [[d1 [|t]]|]; [|done..].
    rewrite IH. cbn [fmap list_fmap snd mjoin list_join]. by rewrite length_app, Nat2Z.inj_add, Z.add_assoc.
Qed.

Definition block_bytes {I} (l : list (I * list Z)) : list Z := mjoin (snd <$> l).

(** [b] is the encoding of [i] wherever the instruction set allows it. *)
Definition encodes {I} `{ISA I} (align : Z) (ib : I * list Z) : Prop :=
  ib.2 <> [] /\ Z.of_nat (length ib.2) mod align = 0 /\
  forall a rest, a mod align = 0 -> decode a (ib.2 ++ rest) = Some (ib.1, length ib.2).

Section Blocks.
  Context {I : Type} `{ISA I} (base : Z) (code : list Z) (align : Z) (Halign : 0 < align).

(** Where the machine is, and what it will execute next. *)
Definition at_code (pc : Z) (bytes : list Z) : Prop := pc mod align = 0 /\ window base code pc = bytes.

Lemma at_code_next (pc : Z) (ib : I * list Z) (rest : list Z) :
  encodes align ib -> at_code pc (ib.2 ++ rest) -> at_code (pc + Z.of_nat (length ib.2)) rest.
Proof using Halign.
  intros (Hne & Hmod & _) [Hpc Hw]. split; [|by eapply window_next].
  rewrite Z.add_mod, Hpc, Hmod by lia. by apply Z.mod_0_l; lia.
Qed.

Lemma block_runs (l : list (I * list Z)) (rest : list Z) : Forall (encodes align) l ->
  forall pc d d', at_code pc (block_bytes l ++ rest) -> run_block pc d l = Some d' ->
  let pc' := pc + Z.of_nat (length (block_bytes l)) in
  runs I base code (pc, d) (pc', d') /\ at_code pc' rest.
Proof using Halign.
  intros Hl. induction Hl as [|[i b] l He Hl IH]; intros pc d d' Hat Hrun.
  - injection Hrun as <-. cbn. rewrite Z.add_0_r. split; [apply rtc_refl|done].
  - unfold block_bytes in *. cbn [fmap list_fmap snd mjoin list_join] in *. rewrite <- app_assoc in Hat.
    pose proof (at_code_next pc (i, b) _ He Hat) as Hn. cbn [snd] in Hn.
    cbn [run_block] in Hrun. destruct (exec d pc _ i) as [[d1 [|target]]|] eqn:Ex; [|done..].
    destruct (IH _ _ _ Hn Hrun) as [IH1 IH2].
    rewrite length_app, Nat2Z.inj_add, Z.add_assoc. split; [|done].
    apply rtc_l with (pc + Z.of_nat (length b), d1); [|done].
    destruct He as (_ & _ & Hdec). destruct Hat as [Hpc Hw].
    unfold step1. cbn [fst snd]. rewrite Hw, (Hdec pc _ Hpc). cbn. by rewrite Ex.
Qed.

(** The last instruction of a block may jump. *)
Lemma jump_runs (pc target : Z) (d d' : data) (ib : I * list Z) (rest : list Z) :
  encodes align ib -> at_code pc (ib.2 ++ rest) ->
  exec d pc (pc + Z.of_nat (length ib.2)) ib.1 = Some (d', Jump target) ->
  runs I base code (pc, d) (target, d').
Proof using.
  intros (_ & _ & Hdec) [Hpc Hw] Ex. apply rtc_once.
  unfold step1. cbn [fst snd]. rewrite Hw, (Hdec pc _ Hpc). cbn. by rewrite Ex.
Qed.

End Blocks.

(** ** AArch64 *)

(** Register 31 is the stack pointer in address arithmetic and zero elsewhere. *)
Definition a64_get (d : data) (r : Z) : Z := if r =? 31 then 0 else gpr d r.
Definition a64_set (d : data) (r v : Z) : data := if r =? 31 then d else set_gpr d r v.

Definition word_decode {I} (dec : Z -> option I) (a : Z) (bs : list Z) : option (I * nat) :=
  match bs with
  | b0 :: b1 :: b2 :: b3 :: _ =>
      if a mod 4 =? 0 then i ← dec (le_value [b0; b1; b2; b3]); Some (i, 4%nat) else None
  | _ => None
  end.

Definition a64_exec1 (d : data) (pc next : Z) (i : a64_insn) : option (data * flow) :=
  let seq d' := Some (d', Next) in
  match i with
  | A64_ADR rd imm => seq (a64_set d rd (u64 (pc + imm)))
  | A64_MOVZ rd imm hw => seq (a64_set d rd (imm * 2 ^ (16 * hw)))
  | A64_MOVK rd imm hw =>
      let old := a64_get d rd in
      let field := (old / 2 ^ (16 * hw)) mod 2 ^ 16 in
      seq (a64_set d rd (old + (imm - field) * 2 ^ (16 * hw)))
  | A64_ORR rd rn rm => seq (a64_set d rd (a64_get d rn lor a64_get d rm))
  | A64_UBFM rd rn immr imms => seq (a64_set d rd (ubfm (a64_get d rn) immr imms))
  | A64_FMOV_S_W rd rn => seq (set_fpr d rd (u32 (a64_get d rn)))
  | A64_FMOV_W_S rd rn => seq (a64_set d rd (u32 (fpr d rn)))
  | A64_BR rn => Some (d, Jump (a64_get d rn))
  | A64_RET rn => Some (d, Jump (a64_get d rn))
  | A64_ADDI rd rn imm => seq (set_gpr d rd (u64 (gpr d rn + imm)))
  | A64_SUBI rd rn imm => seq (set_gpr d rd (u64 (gpr d rn - imm)))
  | A64_LDR rt rn imm => seq (a64_set d rt (mem_load (mem d) (u64 (gpr d rn + imm))))
  | A64_STR rt rn imm => seq (set_mem d (mem_store (mem d) (u64 (gpr d rn + imm)) (a64_get d rt)))
  | A64_ADD rd rn rm => seq (a64_set d rd (u64 (a64_get d rn + a64_get d rm)))
  | A64_MRS_TPIDR rt => seq (a64_set d rt (tpidr d))
  | A64_CTRL subop =>
      if subop =? 0x7c then seq (set_gpr (set_signature d (gpr d 0) (gpr d 1)) 0 (next_status d)) else None
  end.

#[export] Instance a64_isa : ISA a64_insn := {
  decode := word_decode a64_decode;
  exec := a64_exec1;
}.

(** ** RISC-V *)

Definition rv_get (d : data) (r : Z) : Z := if r =? 0 then 0 else gpr d r.
Definition rv_set (d : data) (r v : Z) : data := if r =? 0 then d else set_gpr d r v.

(** [fmv.x.w] fills the upper half with the sign of the single, [fmv.w.x] boxes
    the single with ones. *)
Definition rv_exec1 (d : data) (pc next : Z) (i : rv_insn) : option (data * flow) :=
  let seq d' := Some (d', Next) in
  match i with
  | RV_AUIPC rd imm => seq (rv_set d rd (u64 (pc + imm * 2 ^ 12)))
  | RV_ADDI rd rs1 imm => seq (rv_set d rd (u64 (rv_get d rs1 + imm)))
  | RV_JALR rd rs1 imm =>
      let to := u64 (rv_get d rs1 + imm) in
      Some (rv_set d rd next, Jump (to - to mod 2))
  | RV_SLLI rd rs1 s => seq (rv_set d rd (u64 (Z.shiftl (rv_get d rs1) s)))
  | RV_SRLI rd rs1 s => seq (rv_set d rd (Z.shiftr (rv_get d rs1) s))
  | RV_OR rd rs1 rs2 => seq (rv_set d rd (rv_get d rs1 lor rv_get d rs2))
  | RV_ADD rd rs1 rs2 => seq (rv_set d rd (u64 (rv_get d rs1 + rv_get d rs2)))
  | RV_LD rd rs1 imm => seq (rv_set d rd (mem_load (mem d) (u64 (rv_get d rs1 + imm))))
  | RV_SD rs2 rs1 imm => seq (set_mem d (mem_store (mem d) (u64 (rv_get d rs1 + imm)) (rv_get d rs2)))
  | RV_FMV_X_W rd rs1 => seq (rv_set d rd (u64 (signed 32 (fpr d rs1))))
  | RV_FMV_W_X rd rs1 => seq (set_fpr d rd (0xffffffff00000000 + u32 (rv_get d rs1)))
  | RV_CTRL subop =>
      if subop =? 12 then seq (set_gpr (set_signature d (gpr d 10) (gpr d 11)) 10 (next_status d)) else None
  end.

#[export] Instance rv_isa : ISA rv_insn := {
  decode := word_decode rv_decode;
  exec := rv_exec1;
}.

(** ** x86 *)

Definition RCX : Z := 1.
Definition RSP : Z := 4.
Definition RSI : Z := 6.
Definition RDI : Z := 7.
Definition R8 : Z := 8.
Definition R9 : Z := 9.
Definition R10 : Z := 10.
Definition R12 : Z := 12.
Definition R13 : Z := 13.

Inductive operand := Reg (r : Z) | Mem (b disp : Z).

Inductive x86_insn :=
| X_PUSH (r : Z)
| X_POP (r : Z)
| X_MOV (dst src : operand)
| X_LEA (dst b disp : Z)
| X_ADDR (dst src : Z)
| X_ALU_IMM (op r imm : Z)
| X_MOV_IMM (r imm : Z)
| X_TEST (r1 r2 : Z)
| X_JZ (disp : Z)
| X_CALL (r : Z)
| X_RET
| X_SYSCALL
| X_MOVSD (dst src : operand)
| X_CTRL (subop : Z).

(** The byte after the opcode: the register field, the operand and the bytes
    used.  Only operands without an index are emitted. *)
Definition modrm (r b : Z) (bs : list Z) : option (Z * operand * nat) :=
  match bs with
  | m :: bs' =>
      let md := m / 64 in
      let reg := (m / 8) mod 8 + 8 * r in
      let rm := m mod 8 in
      if md =? 3 then Some (reg, Reg (rm + 8 * b), 1%nat)
      else
        let '(bs', base, used) :=
          if rm =? 4 then
            match bs' with
            | sib :: bs'' => if (sib / 8) mod 8 =? 4 then (bs'', Some (sib mod 8), 2%nat) else (bs'', None, 2%nat)
            | [] => ([], None, 2%nat)
            end
          else (bs', Some rm, 1%nat) in
        base ← base;
        match md, bs' with
        | 0, _ => if base =? 5 then None else Some (reg, Mem (base + 8 * b) 0, used)
        | 1, d :: _ => Some (reg, Mem (base + 8 * b) (signed 8 d), S used)
        | 2, d0 :: d1 :: d2 :: d3 :: _ =>
            Some (reg, Mem (base + 8 * b) (signed 32 (le_value [d0; d1; d2; d3])), (used + 4)%nat)
        | _, _ => None
        end
  | [] => None
  end.

(** An instruction without its REX prefix; [w], [r] and [b] are the bits of the
    prefix. *)
Definition x86_decode_op (w r b : Z) (bs : list Z) : option (x86_insn * nat) :=
  match bs with
  | 0x90 :: _ => None
  | 0xc3 :: _ => Some (X_RET, 1%nat)
  | 0x0f :: 0x05 :: _ => Some (X_SYSCALL, 2%nat)
  | 0x0f :: 0x3a :: 0xfc :: subop :: _ => Some (X_CTRL subop, 4%nat)
  | 0x74 :: d :: _ => Some (X_JZ (signed 8 d), 2%nat)
  | 0x01 :: bs' =>
      '(reg, rm, n) ← modrm r b bs';
      match rm with Reg q => if w =? 1 then Some (X_ADDR q reg, S n) else None | Mem _ _ => None end
  | 0x83 :: bs' =>
      '(reg, rm, n) ← modrm 0 b bs';
      match rm, drop n bs' with
      | Reg q, imm :: _ => if w =? 1 then Some (X_ALU_IMM reg q (signed 8 imm), (n + 2)%nat) else None
      | _, _ => None
      end
  | 0x85 :: bs' =>
      '(reg, rm, n) ← modrm r b bs';
      match rm with Reg q => if w =? 1 then Some (X_TEST q reg, S n) else None | Mem _ _ => None end
  | 0x89 :: bs' => '(reg, rm, n) ← modrm r b bs'; if w =? 1 then Some (X_MOV rm (Reg reg), S n) else None
  | 0x8b :: bs' => '(reg, rm, n) ← modrm r b bs'; if w =? 1 then Some (X_MOV (Reg reg) rm, S n) else None
  | 0x8d :: bs' =>
      '(reg, rm, n) ← modrm r b bs';
      match rm with Mem q disp => if w =? 1 then Some (X_LEA reg q disp, S n) else None | Reg _ => None end
  | 0xff :: bs' =>
      '(reg, rm, n) ← modrm 0 b bs';
      match rm with Reg q => if reg =? 2 then Some (X_CALL q, S n) else None | Mem _ _ => None end
  | op :: bs' =>
      let low := op mod 8 + 8 * b in
      if op / 8 =? 10 then Some (X_PUSH low, 1%nat)
      else if op / 8 =? 11 then Some (X_POP low, 1%nat)
      else if op / 8 =? 23 then
        if w =? 1 then
          match bs' with
          | b0 :: b1 :: b2 :: b3 :: b4 :: b5 :: b6 :: b7 :: _ =>
              Some (X_MOV_IMM low (le_value [b0; b1; b2; b3; b4; b5; b6; b7]), 9%nat)
          | _ => None
          end
        else
          match bs' with
          | b0 :: b1 :: b2 :: b3 :: _ => Some (X_MOV_IMM low (le_value [b0; b1; b2; b3]), 5%nat)
          | _ => None
          end
      else None
  | [] => None
  end.

Definition x86_decode (a : Z) (bs : list Z) : option (x86_insn * nat) :=
  match bs with
  | 0xf2 :: 0x0f :: 0x10 :: bs' => '(reg, rm, n) ← modrm 0 0 bs'; Some (X_MOVSD (Reg reg) rm, (n + 3)%nat)
  | 0xf2 :: 0x0f :: 0x11 :: bs' => '(reg, rm, n) ← modrm 0 0 bs'; Some (X_MOVSD rm (Reg reg), (n + 3)%nat)
  | p :: bs' =>
      if p / 16 =? 4 then
        if (p / 2) mod 2 =? 0 then
          '(i, n) ← x86_decode_op ((p / 8) mod 2) ((p / 4) mod 2) (p mod 2) bs'; Some (i, S n)
        else None
      else x86_decode_op 0 0 0 bs
  | [] => None
  end.

Definition x86_address (d : data) (b disp : Z) : Z := u64 (gpr d b + disp).

Definition x86_push (d : data) (v : Z) : data :=
  let sp := u64 (gpr d RSP - 8) in
  set_mem (set_gpr d RSP sp) (mem_store (mem d) sp v).

Definition SYS_ARCH_PRCTL : Z := 158.
Definition ARCH_SET_FS_CODE : Z := 0x1002.

(** A system call other than [arch_prctl(ARCH_SET_FS, rsi)] is not executed;
    the kernel returns to user mode with rcx and r11 overwritten. *)
Definition x86_exec1 (d : data) (pc next : Z) (i : x86_insn) : option (data * flow) :=
  let seq d' := Some (d', Next) in
  match i with
  | X_PUSH r => seq (x86_push d (gpr d r))
  | X_POP r =>
      let v := mem_load (mem d) (gpr d RSP) in
      seq (set_gpr (set_gpr d RSP (u64 (gpr d RSP + 8))) r v)
  | X_MOV (Reg q) (Reg r) => seq (set_gpr d q (gpr d r))
  | X_MOV (Reg q) (Mem b disp) => seq (set_gpr d q (mem_load (mem d) (x86_address d b disp)))
  | X_MOV (Mem b disp) (Reg r) => seq (set_mem d (mem_store (mem d) (x86_address d b disp) (gpr d r)))
  | X_MOV _ _ => None
  | X_LEA q b disp => seq (set_gpr d q (x86_address d b disp))
  | X_ADDR q r => seq (set_gpr d q (u64 (gpr d q + gpr d r)))
  | X_ALU_IMM op r imm =>
      if op =? 0 then seq (set_gpr d r (u64 (gpr d r + imm)))
      else if op =? 4 then seq (set_gpr d r (Z.land (gpr d r) (u64 imm)))
      else if op =? 5 then seq (set_gpr d r (u64 (gpr d r - imm)))
      else None
  | X_MOV_IMM r imm => seq (set_gpr d r imm)
  | X_TEST r1 r2 => seq (set_zero_flag d (Z.land (gpr d r1) (gpr d r2) =? 0))
  | X_JZ disp => Some (d, if zero_flag d then Jump (u64 (next + disp)) else Next)
  | X_CALL r => Some (x86_push d next, Jump (gpr d r))
  | X_RET => Some (set_gpr d RSP (u64 (gpr d RSP + 8)), Jump (mem_load (mem d) (gpr d RSP)))
  | X_SYSCALL =>
      if (gpr d RAX =? SYS_ARCH_PRCTL) && (gpr d RDI =? ARCH_SET_FS_CODE) then
        seq (set_gpr (set_gpr (set_gpr (set_fs_base d (gpr d RSI)) RAX 0) RCX next) R11 (next_status d))
      else None
  | X_MOVSD (Reg q) (Reg r) => seq (set_fpr d q (fpr d r))
  | X_MOVSD (Reg q) (Mem b disp) => seq (set_fpr d q (mem_load (mem d) (x86_address d b disp)))
  | X_MOVSD (Mem b disp) (Reg r) => seq (set_mem d (mem_store (mem d) (x86_address d b disp) (fpr d r)))
  | X_MOVSD _ _ => None
  | X_CTRL subop =>
      if subop =? 0x69 then seq (set_gpr (set_signature d (gpr d RAX) (gpr d RDX)) RAX (next_status d)) else None
  end.

#[export] Instance x86_isa : ISA x86_insn := {
  decode := x86_decode;
  exec := x86_exec1;
}.

Definition a64_runs := runs a64_insn.
Definition rv_runs := runs rv_insn.
Definition x86_runs := runs x86_insn.

(** ** Lemmas on memory *)

(** A 64-bit cell that does not wrap around. *)
Definition cell (a : Z) : Prop := 0 <= a /\ a + 8 <= 2 ^ 64.

Lemma mem_store_byte (m : Z -> Z) (a v i : Z) : cell a -> 0 <= i < 8 ->
  mem_store m a v (u64 (a + i)) = (v / 2 ^ (8 * i)) mod 256.
Proof.
  intros Ha Hi. unfold mem_store, cell in *. rewrite (wrap_small 64 (a + i)) by (unfold in_width; lia).
  replace (a + i - a) with i by lia. rewrite wrap_small by (unfold in_width; lia).
  by destruct (Z.ltb_spec i 8); [|lia].
Qed.

Lemma mem_store_outside (m : Z -> Z) (a v b : Z) : cell a -> 0 <= b < 2 ^ 64 -> b < a \/ a + 8 <= b ->
  mem_store m a v b = m b.
Proof.
  intros Ha Hb Hd. unfold mem_store, cell in *. replace (_ <? 8) with false; [done|].
  symmetry. apply Z.ltb_ge. unfold wrap. pow_literals. destruct Hd.
  - rewrite <- (Z_mod_plus_full _ 1), Z.mod_small by lia. lia.
  - rewrite Z.mod_small by lia. lia.
Qed.

Lemma load_store_same (m : Z -> Z) (a v : Z) : cell a -> in_width 64 v -> mem_load (mem_store m a v) a = v.
Proof.
  intros Ha Hv. unfold mem_load.
  replace ((fun n => u8 (mem_store m a v (u64 (a + Z.of_nat n)))) <$> seq 0 8) with (le_bytes 8 v).
  - rewrite le_value_bytes. by apply Z.mod_small.
  - cbn [seq fmap list_fmap]. rewrite !mem_store_byte by (done || lia).
    unfold wrap. rewrite !Z.mod_mod by done. cbn [le_bytes]. rewrite !Z.div_div by lia. cbn.
    by rewrite Z.div_1_r.
Qed.

Lemma mem_load_ext (m m' : Z -> Z) (a : Z) :
  (forall i, 0 <= i < 8 -> m (u64 (a + i)) = m' (u64 (a + i))) -> mem_load m a = mem_load m' a.
Proof. intros H. unfold mem_load. cbn [seq fmap list_fmap]. by rewrite !H by lia. Qed.

Lemma load_store_other (m : Z -> Z) (a b v : Z) : cell a -> cell b -> a + 8 <= b \/ b + 8 <= a ->
  mem_load (mem_store m a v) b = mem_load m b.
Proof.
  intros Ha Hb Hd. apply mem_load_ext. intros i Hi. unfold cell in *.
  rewrite (wrap_small 64 (b + i)) by (unfold in_width; lia).
  apply mem_store_outside; unfold cell; lia.
Qed.

Lemma mem_load_width (m : Z -> Z) (a : Z) : in_width 64 (mem_load m a).
Proof.
  unfold mem_load. pose proof (le_value_range ((fun n => u8 (m (u64 (a + Z.of_nat n)))) <$> seq 0 8)) as H.
  rewrite length_fmap, length_seq in H. apply H.
  apply Forall_fmap, Forall_forall. intros n _. cbn. unfold in_width, wrap. apply Z.mod_pos_bound. lia.
Qed.

(** The bytes of a literal in the code, seen by a load. *)
Lemma mem_load_bytes (m : Z -> Z) (a v : Z) :
  (forall i b, le_bytes 8 v !! i = Some b -> m (u64 (a + Z.of_nat i)) = b) -> in_width 64 v -> mem_load m a = v.
Proof.
  intros H Hv. unfold mem_load.
  replace (_ <$> seq 0 8) with (le_bytes 8 v); [rewrite le_value_bytes; by apply Z.mod_small|].
  apply list_eq. intros i. rewrite list_lookup_fmap.
  destruct (decide (i < 8)%nat) as [Hi|Hi].
  - rewrite lookup_seq_lt by done. cbn [fmap option_fmap option_map Nat.add]. destruct (lookup_lt_is_Some_2 (le_bytes 8 v) i) as [b Hb];
      [by rewrite le_bytes_length|].
    rewrite (H i b Hb), Hb. f_equal. symmetry. apply wrap_small.
    pose proof (le_bytes_range 8 v) as Hr. rewrite Forall_lookup in Hr. by apply (Hr i).
  - rewrite lookup_seq_ge, lookup_ge_None_2 by (rewrite ?le_bytes_length; lia). done.
Qed.

(** ** Lemmas on instruction words *)

Lemma word_encodes {I} (dec : Z -> option I) (ex : data -> Z -> Z -> I -> option (data * flow)) (w : Z) (i : I) :
  dec (w mod 2 ^ 32) = Some i ->
  @encodes I {| decode := word_decode dec; exec := ex |} 4 (i, le_bytes 4 w).
Proof.
  intros H. split_and!; [done|done|]. intros a rest Ha. cbn [decode fst snd].
  unfold word_decode. cbn [le_bytes app]. rewrite Ha. cbn [Z.eqb].
  replace (le_value _) with (w mod 2 ^ 32) by (symmetry; exact (le_value_bytes 4 w)).
  by rewrite H.
Qed.

Lemma a64_encodes (w : Z) (i : a64_insn) : a64_decode w = Some i -> encodes 4 (i, le_bytes 4 w).
Proof. intros H. apply word_encodes. by rewrite a64_decode_mod. Qed.

Lemma rv_encodes (w : Z) (i : rv_insn) : rv_decode w = Some i -> encodes 4 (i, le_bytes 4 w).
Proof. intros H. apply word_encodes. by rewrite rv_decode_mod. Qed.

(** Instructions paired with their words. *)
Definition assemble {I} (l : list (I * Z)) : list (I * list Z) := (fun '(i, w) => (i, le_bytes 4 w)) <$> l.

Lemma assemble_bytes {I} (l : list (I * Z)) : block_bytes (assemble l) = mjoin (le_bytes 4 <$> (snd <$> l)).
Proof. unfold block_bytes, assemble. rewrite <- !list_fmap_compose. f_equal. apply list_fmap_ext. by intros ? [? ?]. Qed.

