(* ===== verification/CrossStubRun.v ===== *)
(** What the call stubs of [CrossStub] do when they run on the machine of
    [StubMachine]: an AArch64 or RISC-V caller that calls a stub reaches the
    call instruction with its arguments in place, and when the callee comes
    back the stub returns to the caller with the stack as it was. *)

From stdpp Require Import relations.
From S2P Require Import Prelude AbiType AbiCursor AbiDescriptor LoaderBase BridgeSpec ElfImage CodeEmit Trampoline CrossStub StubMachine.

(** ** Register bookkeeping *)

(** Only the general registers in [rs] differ. *)
Record same_but (rs : list Z) (d d' : data) : Prop := {
  sb_gpr : forall r, r ∉ rs -> gpr d' r = gpr d r;
  sb_fpr : fpr d' = fpr d;
  sb_mem : mem d' = mem d;
  sb_fs : fs_base d' = fs_base d;
  sb_signatures : signatures d' = signatures d;
}.

Lemma same_but_refl (rs : list Z) (d : data) : same_but rs d d.
Proof. by constructor. Qed.

Lemma same_but_trans (rs1 rs2 rs : list Z) (d1 d2 d3 : data) :
  same_but rs1 d1 d2 -> same_but rs2 d2 d3 -> rs1 ⊆ rs -> rs2 ⊆ rs -> same_but rs d1 d3.
Proof.
  intros [G1 F1 M1 B1 S1] [G2 F2 M2 B2 S2] H1 H2. constructor; [|congruence..].
  intros r Hr. rewrite G2, G1; [done|intros Hi; by apply Hr, H1|intros Hi; by apply Hr, H2].
Qed.

Lemma set_reg_same (f : regfile) (r v : Z) : set_reg f r v r = v.
Proof. unfold set_reg. by rewrite Z.eqb_refl. Qed.

Lemma set_reg_other (f : regfile) (r v q : Z) : q <> r -> set_reg f r v q = f q.
Proof. intros H. unfold set_reg. by apply Z.eqb_neq in H as ->. Qed.

Lemma set_reg_eqb (f : regfile) (r v q : Z) : set_reg f r v q = if q =? r then v else f q.
Proof. done. Qed.

Lemma add_lor_low (x y : Z) : 0 <= x < 2 ^ 32 -> 0 <= y -> x + Z.shiftl y 32 = Z.shiftl y 32 lor x.
Proof.
  intros Hx Hy. rewrite Z.add_comm, <- Z.lxor_lor, Z.add_nocarry_lxor; [done| |].
  all: apply Z.bits_inj'; intros n Hn; rewrite Z.land_spec, Z.bits_0; destruct (Z.ltb_spec n 32).
  all: first [rewrite Z.shiftl_spec_low by lia; done |
    rewrite (Z.bits_above_log2 x n), andb_false_r; [done|lia|]].
  all: destruct (decide (x = 0)) as [->|]; [simpl; lia|]; apply Z.lt_le_trans with 32; [apply Z.log2_lt_pow2; lia|done].
Qed.

Lemma u32_mod (x : Z) : u32 x mod 2 ^ 32 = x mod 2 ^ 32.
Proof. unfold wrap. by rewrite Z.mod_mod. Qed.

Lemma wrap_add_multiple (x q : Z) : u64 (x + q * 2 ^ 64) = u64 x.
Proof. unfold wrap. apply Z_mod_plus_full. Qed.

Lemma wrap_shift32 (x : Z) : u64 (x * 2 ^ 32) = x mod 2 ^ 32 * 2 ^ 32.
Proof. unfold wrap. change (2 ^ 64) with (2 ^ 32 * 2 ^ 32). by rewrite Z.mul_mod_distr_r by lia. Qed.

Lemma signed_mod (x : Z) : signed 32 x = signed 32 (x mod 2 ^ 32).
Proof. unfold signed, wrap. by rewrite Z.mod_mod. Qed.

#[local] Opaque wrap mem_load mem_store set_reg.

(** Membership in lists of register numbers. *)
Ltac incl_regs := intros ?; rewrite ?elem_of_cons, ?elem_of_nil; tauto.
Ltac not_in :=
  match goal with
  | H : ?r ∉ _ |- ?r <> _ => intros ->; apply H; rewrite !elem_of_cons; tauto
  | |- _ ∉ _ => rewrite !not_elem_of_cons; split_and!; first [done | lia | apply not_elem_of_nil | not_in]
  end.

(** Reads registers of a state in constructor form. *)
Ltac read_regs :=
  repeat first [rewrite set_reg_same | rewrite set_reg_other by (first [discriminate | not_in | congruence | lia])].

(** Evaluates a block of known instructions on a state. *)
Ltac eval_block :=
  lazy [run_block assemble fmap list_fmap exec a64_isa rv_isa x86_isa a64_exec1 rv_exec1 x86_exec1 a64_set a64_get
        rv_set rv_get set_gpr set_fpr set_mem set_signature set_zero_flag set_fs_base x86_push x86_address
        gpr fpr mem zero_flag fs_base tpidr signatures next_status Z.eqb Pos.eqb
        RAX RCX RDX RBX RSP RSI RDI R8 R9 R10 R11 R12 R13 R15].

(** One instruction at a time, with [tac] simplifying the state in between. *)
Lemma run_step {I} `{ISA I} (i : I) (b : list Z) (l : list (I * list Z)) (pc : Z) (d d1 : data) (r : option data) :
  exec d pc (pc + Z.of_nat (length b)) i = Some (d1, Next) ->
  run_block (pc + Z.of_nat (length b)) d1 l = r -> run_block pc d ((i, b) :: l) = r.
Proof. intros He Hr. cbn [run_block]. by rewrite He. Qed.

Ltac run_steps tac :=
  repeat (eapply run_step;
    [lazy [exec a64_isa rv_isa x86_isa a64_exec1 rv_exec1 x86_exec1 a64_set a64_get
        rv_set rv_get set_gpr set_fpr set_mem set_signature set_zero_flag set_fs_base x86_push x86_address
        gpr fpr mem zero_flag fs_base tpidr signatures next_status Z.eqb Pos.eqb
        RAX RCX RDX RBX RSP RSI RDI R8 R9 R10 R11 R12 R13 R15]; read_regs; tac; reflexivity|]);
  reflexivity.

(** One goal per instruction. *)
Ltac encode_words tac := repeat (apply Forall_cons_2; [tac|]); apply Forall_nil_2.

(** ** Loading a constant on AArch64 *)

Definition movabs_block (rd v : Z) : list (a64_insn * list Z) :=
  assemble [(A64_MOVZ rd (v mod 2 ^ 16) 0, movz_word rd v);
            (A64_MOVK rd ((v / 2 ^ (16 * 1)) mod 2 ^ 16) 1, movk_word 1 rd v);
            (A64_MOVK rd ((v / 2 ^ (16 * 2)) mod 2 ^ 16) 2, movk_word 2 rd v);
            (A64_MOVK rd ((v / 2 ^ (16 * 3)) mod 2 ^ 16) 3, movk_word 3 rd v)].

Lemma movabs_block_encodes (rd v : Z) : is_reg rd -> Forall (encodes 4) (movabs_block rd v).
Proof.
  intros H. unfold movabs_block. cbn [assemble fmap list_fmap].
  encode_words ltac:(apply a64_encodes; lazymatch goal with
    | |- a64_decode (movz_word _ _) = _ => by apply movz_word_decode
    | |- _ => apply movk_word_decode; [done|tauto]
    end).
Qed.

Lemma movabs_block_run (d : data) (rd v : Z) : 0 <= rd < 31 -> in_width 64 v -> exists d',
  (forall pc, run_block pc d (movabs_block rd v) = Some d') /\ gpr d' rd = v /\ same_but [rd] d d'.
Proof.
  intros Hrd Hv. unfold movabs_block. assert ((rd =? 31) = false) as E by lia.
  eexists. split.
  - intros pc. cbn [run_block assemble fmap list_fmap exec a64_isa a64_exec1]. unfold a64_set, a64_get. rewrite E.
    reflexivity.
  - split.
    + unfold set_gpr. cbn [gpr]. rewrite !set_reg_same. exact (movabs_value v Hv).
    + constructor; try done. intros r Hr. unfold set_gpr. cbn [gpr]. read_regs. done.
Qed.

(** ** The AArch64 stub up to the call *)

Definition a64_frame (stack9_x86 : bool) : Z := if stack9_x86 then 48 else 32.

Definition a64_save_block (stack9_x86 : bool) : list (a64_insn * list Z) :=
  assemble (if stack9_x86 then
    [(A64_SUBI 31 31 48, 0xd100c3ff); (A64_LDR 18 31 48, 0xf9401bf2); (A64_STR 6 31 0, 0xf90003e6);
     (A64_STR 7 31 8, 0xf90007e7); (A64_STR 18 31 16, 0xf9000bf2); (A64_STR 30 31 24, 0xf9000ffe);
     (A64_STR 0 31 32, 0xf90013e0)]
  else
    [(A64_SUBI 31 31 32, 0xd10083ff); (A64_LDR 18 31 32, 0xf94013f2); (A64_STR 18 31 0, 0xf90003f2);
     (A64_STR 30 31 8, 0xf90007fe); (A64_STR 0 31 16, 0xf9000be0)]).

Lemma a64_save_encodes (s9 : bool) : Forall (encodes 4) (a64_save_block s9).
Proof. destruct s9; cbn [a64_save_block assemble fmap list_fmap]; encode_words ltac:(apply a64_encodes; reflexivity). Qed.

(** The stack pointer and the registers of a caller: 64-bit values, with room
    for the frame below the stack pointer and an argument at it. *)
Definition caller_ok (sp_reg : Z) (d : data) : Prop :=
  48 <= gpr d sp_reg /\ gpr d sp_reg + 8 <= 2 ^ 64 /\ forall r, in_width 64 (gpr d r).

(** The slots of the frame: where the link register and the first argument
    are saved, and what the callee finds at its stack pointer. *)
Record frame_saved (s9 : bool) (d : data) (sp link arg0 sp0 m6 m7 : Z) : Prop := {
  fs_link : mem_load (mem d) (sp + (if s9 then 24 else 8)) = link;
  fs_arg0 : mem_load (mem d) (sp + (if s9 then 32 else 16)) = arg0;
  fs_args : if s9
            then mem_load (mem d) sp = m6 /\ mem_load (mem d) (sp + 8) = m7 /\ mem_load (mem d) (sp + 16) = sp0
            else mem_load (mem d) sp = sp0;
}.

(** Memory outside the frame is as before. *)
Definition mem_outside (lo hi : Z) (d d' : data) : Prop :=
  forall a, 0 <= a < 2 ^ 64 -> a < lo \/ hi <= a -> mem d' a = mem d a.

(** Loads from a frame that was just stored to. *)
Ltac frame_loads :=
  repeat first [ rewrite load_store_same by (unfold cell; first [lia | by auto using mem_load_width])
               | rewrite load_store_other by (unfold cell; lia) ].

Lemma a64_save_run (s9 : bool) (d : data) : caller_ok 31 d -> exists d',
  (forall pc, run_block pc d (a64_save_block s9) = Some d') /\
  gpr d' 31 = gpr d 31 - a64_frame s9 /\ (forall r, r ∉ [18; 31] -> gpr d' r = gpr d r) /\
  fpr d' = fpr d /\ fs_base d' = fs_base d /\ signatures d' = signatures d /\
  mem_outside (gpr d 31 - a64_frame s9) (gpr d 31) d d' /\
  frame_saved s9 d' (gpr d 31 - a64_frame s9) (gpr d 30) (gpr d 0) (mem_load (mem d) (gpr d 31)) (gpr d 6) (gpr d 7).
Proof.
  intros (Hlo & Hhi & Hw). destruct d as [g f m zf fs tp sg ns]. cbn [gpr] in *.
  unfold a64_save_block; destruct s9; (eexists; split; [intros pc; eval_block; reflexivity|]);
    cbn [gpr fpr fs_base signatures mem a64_frame]; read_regs;
    rewrite ?(wrap_small 64 (g 31 - _)) by (unfold in_width; lia);
    rewrite ?Z.sub_add, ?(wrap_small 64) by (unfold in_width; lia); rewrite ?Z.sub_add, ?Z.add_0_r.
  all: split_and!; try done.
  all: try (intros r Hr; read_regs; done).
  all: try (intros a Ha Hout; cbn [mem]; rewrite !mem_store_outside by (unfold cell; lia); done).
  all: constructor; cbn [mem]; split_and?; frame_loads; done.
Qed.

(** The control value of the signature that a kind needs. *)
Definition signature_value (k : Z) : Z := poly_abi_signature_control_value (process_bridge_signature_kind k).

Lemma signature_value_width (k : Z) : process_bridge_is_fpair k = true ->
  in_width 64 (signature_value k) /\
  signature_value k = process_bridge_signature_kind k + poly_abi_signature_register_map (process_bridge_signature_kind k) * 2 ^ 32 /\
  0 <= process_bridge_signature_kind k < 32 /\
  0 <= poly_abi_signature_register_map (process_bridge_signature_kind k) < 32.
Proof.
  unfold process_bridge_is_fpair. intros Hk. repeat (apply orb_prop in Hk as [Hk|Hk]).
  all: apply Z.eqb_eq in Hk as ->; unfold in_width; split_and!; vm_compute; congruence.
Qed.

Definition a64_signature_block (slot k : Z) : list (a64_insn * list Z) :=
  movabs_block 0 slot ++ movabs_block 1 (signature_value k) ++
  assemble [(A64_CTRL 0x7c, POLY_AARCH64_CTRL_ABI_SIGNATURE_SET)].

Lemma a64_signature_encodes (slot k : Z) : Forall (encodes 4) (a64_signature_block slot k).
Proof.
  repeat apply Forall_app_2; try (apply movabs_block_encodes; unfold is_reg; lia).
  cbn [assemble fmap list_fmap]. encode_words ltac:(apply a64_encodes; reflexivity).
Qed.

(** The signature is set and nothing else changes but the first two registers. *)
Definition signature_set (regs : list Z) (slot value : Z) (d d' : data) : Prop :=
  (forall r, r ∉ regs -> gpr d' r = gpr d r) /\ fpr d' = fpr d /\ mem d' = mem d /\ fs_base d' = fs_base d /\
  forall s, signatures d' s = if s =? slot then value else signatures d s.

Lemma a64_signature_run (slot k : Z) (d : data) :
  0 <= slot < POLY_ABI_SIGNATURE_SLOT_COUNT -> process_bridge_is_fpair k = true -> exists d',
  (forall pc, run_block pc d (a64_signature_block slot k) = Some d') /\ signature_set [0; 1] slot (signature_value k) d d'.
Proof.
  unfold POLY_ABI_SIGNATURE_SLOT_COUNT. intros Hs Hk. destruct (signature_value_width k Hk) as (Hw & _).
  destruct (movabs_block_run d 0 slot) as (d1 & R1 & E1 & S1); [lia|unfold in_width; lia|].
  destruct (movabs_block_run d1 1 (signature_value k)) as (d2 & R2 & E2 & S2); [lia|done|].
  pose proof (same_but_trans _ _ [0; 1] _ _ _ S1 S2 ltac:(incl_regs) ltac:(incl_regs)) as S.
  assert (gpr d2 0 = slot) as E0 by (by rewrite (sb_gpr _ _ _ S2 0) by not_in).
  destruct S as [G F M B Sg]. destruct d2 as [g2 f2 m2 zf fs tp sg ns]. cbn [gpr fpr mem fs_base signatures] in *.
  eexists. split.
  { intros pc. unfold a64_signature_block. rewrite !run_block_app, R1. cbn [mbind option_bind].
    rewrite run_block_app, R2. cbn [mbind option_bind]. eval_block. reflexivity. }
  unfold signature_set. cbn [gpr fpr mem fs_base signatures]. rewrite E0, E2. split_and!; try done.
  - intros r Hr. read_regs. by apply G.
  - intros s. by rewrite set_reg_eqb, Sg.
Qed.

(** *** Reloading the first argument and unpacking a compact structure *)

Definition a64_unpack_block (s9 shuffled u32_f32 : bool) : list (a64_insn * list Z) :=
  assemble ([(A64_LDR 0 31 (if s9 then 32 else 16), if s9 then 0xf94013e0 else 0xf9400be0)] ++
  (if shuffled then
     if u32_f32 then [(A64_UBFM 9 0 32 63, aarch64_lsr_imm 9 0 32); (A64_FMOV_S_W 0 9, aarch64_fmov_s_from_w 0 9)]
     else [(A64_FMOV_S_W 0 0, aarch64_fmov_s_from_w 0 0); (A64_UBFM 0 0 32 63, aarch64_lsr_imm 0 0 32)]
   else [])).

Lemma a64_unpack_encodes (s9 sh u : bool) : Forall (encodes 4) (a64_unpack_block s9 sh u).
Proof.
  destruct s9, sh, u; cbn [a64_unpack_block assemble fmap list_fmap app];
    encode_words ltac:(apply a64_encodes; reflexivity).
Qed.

(** What the callee gets in the first general register and the first vector
    register: a compact structure of two 32-bit members is split. *)
Definition unpacked_x0 (shuffled u32_f32 : bool) (x0 : Z) : Z :=
  if shuffled && negb u32_f32 then x0 / 2 ^ 32 else x0.
Definition unpacked_s0 (shuffled u32_f32 : bool) (x0 s0 : Z) : Z :=
  if shuffled then (if u32_f32 then x0 / 2 ^ 32 else x0 mod 2 ^ 32) else s0.

Lemma ubfm_32_63 (x : Z) : in_width 64 x -> ubfm x 32 63 = x / 2 ^ 32.
Proof. intros H. rewrite (ubfm_lsr x 32), Z.shiftr_div_pow2 by (done || lia). done. Qed.

Lemma high_half_width (x : Z) : in_width 64 x -> u32 (x / 2 ^ 32) = x / 2 ^ 32.
Proof. unfold in_width. intros H. apply wrap_small. unfold in_width. div_lia. Qed.

Lemma a64_unpack_run (s9 sh u : bool) (d : data) (x0 : Z) :
  0 <= gpr d 31 -> gpr d 31 + 40 <= 2 ^ 64 -> in_width 64 x0 ->
  mem_load (mem d) (gpr d 31 + (if s9 then 32 else 16)) = x0 -> exists d',
  (forall pc, run_block pc d (a64_unpack_block s9 sh u) = Some d') /\
  (forall r, r ∉ [0; 9] -> gpr d' r = gpr d r) /\ (sh && u = false -> gpr d' 9 = gpr d 9) /\
  gpr d' 0 = unpacked_x0 sh u x0 /\ fpr d' 0 = unpacked_s0 sh u x0 (fpr d 0) /\
  (forall r, r <> 0 -> fpr d' r = fpr d r) /\
  mem d' = mem d /\ fs_base d' = fs_base d /\ signatures d' = signatures d.
Proof.
  intros Hlo Hhi Hw Hx. destruct d as [g f m zf fs tp sg ns]. cbn [gpr mem fpr] in *.
  assert (u64 (g 31 + (if s9 then 32 else 16)) = g 31 + (if s9 then 32 else 16)) as Ha
    by (apply wrap_small; unfold in_width; destruct s9; lia).
  unfold a64_unpack_block, unpacked_x0, unpacked_s0.
  destruct sh, u; cbn [app andb negb]; (eexists; split; [intros pc; eval_block; reflexivity|]);
    cbn [gpr fpr mem fs_base signatures]; rewrite Ha, Hx; read_regs;
    rewrite ?ubfm_32_63, ?high_half_width by done; split_and!; try done.
  all: intros r Hr; read_regs; done.
Qed.

(** *** The call registers *)

Definition a64_target_block (t callee ret : Z) : list (a64_insn * list Z) :=
  movabs_block 16 t ++
  assemble [(A64_MOVZ 17 (callee_frontend callee) 0, 0xd2800011 lor shl32 (callee_frontend callee land 0xffff) 5)] ++
  movabs_block 18 ret.

Lemma a64_target_encodes (t callee ret : Z) : Forall (encodes 4) (a64_target_block t callee ret).
Proof.
  repeat apply Forall_app_2; try (apply movabs_block_encodes; unfold is_reg; lia).
  cbn [assemble fmap list_fmap]. unfold callee_frontend.
  destruct_ifs; encode_words ltac:(apply a64_encodes; reflexivity).
Qed.

Lemma a64_target_run (t callee ret : Z) (d : data) : in_width 64 t -> in_width 64 ret -> exists d',
  (forall pc, run_block pc d (a64_target_block t callee ret) = Some d') /\
  gpr d' 16 = t /\ gpr d' 17 = callee_frontend callee /\ gpr d' 18 = ret /\ same_but [16; 17; 18] d d'.
Proof.
  intros Ht Hr. destruct (movabs_block_run d 16 t) as (d1 & R1 & E1 & S1); [lia|done|].
  assert (exists d2, (forall pc, run_block pc d1 (assemble [(A64_MOVZ 17 (callee_frontend callee) 0,
    0xd2800011 lor shl32 (callee_frontend callee land 0xffff) 5)]) = Some d2) /\
    gpr d2 17 = callee_frontend callee /\ same_but [17] d1 d2) as (d2 & R2 & E2 & S2).
  { destruct d1 as [g f m zf fs tp sg ns]. eexists. split; [intros pc; eval_block; reflexivity|].
    cbn [gpr]. read_regs. split; [by rewrite Z.mul_1_r|]. constructor; try done. intros r Hr'. cbn [gpr]. by read_regs. }
  destruct (movabs_block_run d2 18 ret) as (d3 & R3 & E3 & S3); [lia|done|].
  exists d3. split_and!.
  - intros pc. unfold a64_target_block. rewrite run_block_app, R1. cbn [mbind option_bind].
    rewrite run_block_app, R2. cbn [mbind option_bind]. apply R3.
  - by rewrite (sb_gpr _ _ _ S3), (sb_gpr _ _ _ S2) by not_in.
  - by rewrite (sb_gpr _ _ _ S3) by not_in.
  - done.
  - eapply (same_but_trans [16; 17] [18]); [|exact S3|incl_regs|incl_regs].
    eapply same_but_trans; [done..|incl_regs|incl_regs].
Qed.

(** *** All of it *)

Definition needs_signature (caller callee k : Z) : bool := process_bridge_needs_foreign_signature_set caller callee k.
Definition is_u32_f32 (k : Z) : bool := k =? POLY_PROCESS_BRIDGE_COMPACT_U32_F32.

Definition a64_call_block (t callee k slot ret : Z) : list (a64_insn * list Z) :=
  a64_save_block (is_stack9_x86 callee k) ++
  (if needs_signature POLY_ARCH_AARCH64 callee k then a64_signature_block slot k else []) ++
  a64_unpack_block (is_stack9_x86 callee k) (is_shuffled callee k) (is_u32_f32 k) ++
  a64_target_block t callee ret.

(** The words of a block. *)
Lemma block_bytes_app {I} (l1 l2 : list (I * list Z)) : block_bytes (l1 ++ l2) = block_bytes l1 ++ block_bytes l2.
Proof. unfold block_bytes. by rewrite fmap_app, join_app. Qed.

Lemma assemble_words {I} (l : list (I * Z)) (ws : list Z) : snd <$> l = ws -> block_bytes (assemble l) = words_bytes ws.
Proof. intros <-. by rewrite assemble_bytes. Qed.

Lemma movabs_block_bytes (rd v : Z) : block_bytes (movabs_block rd v) = words_bytes (movabs_words rd v).
Proof. by apply assemble_words. Qed.

Lemma a64_call_block_bytes (t callee k slot ret : Z) :
  block_bytes (a64_call_block t callee k slot ret) =
  words_bytes (a64_args_words callee k slot ++ a64_target_words t callee ret).
Proof.
  unfold a64_call_block, a64_args_words, a64_target_words, a64_target_block.
  set (s9 := is_stack9_x86 callee k). set (sh := is_shuffled callee k).
  assert (block_bytes (a64_save_block s9) = words_bytes (a64_save_words s9)) as E1
    by (unfold a64_save_block, a64_save_words; by destruct s9).
  assert (block_bytes (if needs_signature POLY_ARCH_AARCH64 callee k then a64_signature_block slot k else []) =
          words_bytes (a64_signature_words callee k slot)) as E2.
  { unfold a64_signature_words, needs_signature.
    destruct (process_bridge_needs_foreign_signature_set POLY_ARCH_AARCH64 callee k); [|done].
    unfold a64_signature_block. by rewrite !block_bytes_app, !words_bytes_app, !movabs_block_bytes. }
  assert (block_bytes (a64_unpack_block s9 sh (is_u32_f32 k)) =
          words_bytes ([if s9 then 0xf94013e0 else 0xf9400be0] ++ a64_pre_words callee k)) as E3.
  { unfold a64_unpack_block, a64_pre_words, is_u32_f32. fold sh. apply assemble_words.
    by destruct s9, sh, (k =? POLY_PROCESS_BRIDGE_COMPACT_U32_F32). }
  rewrite !block_bytes_app, E1, E2, E3, !movabs_block_bytes, !words_bytes_app. by rewrite <- !app_assoc.
Qed.

Lemma a64_call_block_encodes (t callee k slot ret : Z) : Forall (encodes 4) (a64_call_block t callee k slot ret).
Proof.
  unfold a64_call_block. apply Forall_app_2; [apply a64_save_encodes|].
  apply Forall_app_2; [destruct (needs_signature _ _ _); [apply a64_signature_encodes|apply Forall_nil_2]|].
  apply Forall_app_2; [apply a64_unpack_encodes|apply a64_target_encodes].
Qed.

(** The state in which the callee is entered: its arguments are those of the
    caller, with the ninth (and for a nine-word x86 call the seventh to the
    ninth) at the stack pointer; the signature table holds what the kind
    needs; the frame keeps the link register. *)
Record entered_from (caller callee k slot sp_reg link_reg : Z) (frame : Z) (clobbered : list Z)
    (d d1 : data) : Prop := {
  ef_sp : gpr d1 sp_reg = gpr d sp_reg - frame;
  ef_regs : forall r, r ∉ clobbered -> gpr d1 r = gpr d r;
  ef_fs : fs_base d1 = fs_base d;
  ef_signatures : forall s, signatures d1 s =
    if needs_signature caller callee k && (s =? slot) then signature_value k else signatures d s;
  ef_mem : mem_outside (gpr d sp_reg - frame) (gpr d sp_reg) d d1;
  ef_link : mem_load (mem d1) (gpr d sp_reg - frame + (if is_stack9_x86 callee k then 24 else 8)) = gpr d link_reg;
}.

Definition stack_arguments (s9 : bool) (sp x6 x7 x8 : Z) (d1 : data) : Prop :=
  if s9 then mem_load (mem d1) sp = x6 /\ mem_load (mem d1) (sp + 8) = x7 /\ mem_load (mem d1) (sp + 16) = x8
  else mem_load (mem d1) sp = x8.

(** The optional signature part of either foreign stub. *)
Lemma optional_signature {I} `{ISA I} (b : bool) (block : list (I * list Z)) (regs : list Z) (slot v : Z) (d : data) :
  (b = true -> exists d', (forall pc, run_block pc d block = Some d') /\ signature_set regs slot v d d') ->
  exists d', (forall pc, run_block pc d (if b then block else []) = Some d') /\
    (forall r, r ∉ regs -> gpr d' r = gpr d r) /\ (b = false -> forall r, gpr d' r = gpr d r) /\
    fpr d' = fpr d /\ mem d' = mem d /\ fs_base d' = fs_base d /\
    forall s, signatures d' s = if b && (s =? slot) then v else signatures d s.
Proof.
  intros Hb. destruct b.
  - destruct Hb as (d' & R & G & F & M & B & S); [done|]. by exists d'.
  - by exists d.
Qed.

Lemma needs_signature_fpair (caller callee k : Z) :
  needs_signature caller callee k = true -> process_bridge_is_fpair k = true.
Proof. unfold needs_signature, process_bridge_needs_foreign_signature_set. by intros [_ ?]%andb_prop. Qed.

(** The AArch64 registers at the call. *)
Record a64_call_regs (t callee k ret : Z) (d d1 : data) : Prop := {
  ac_target : gpr d1 16 = t;
  ac_frontend : gpr d1 17 = callee_frontend callee;
  ac_return : gpr d1 18 = ret;
  ac_x0 : gpr d1 0 = unpacked_x0 (is_shuffled callee k) (is_u32_f32 k) (gpr d 0);
  ac_x1 : needs_signature POLY_ARCH_AARCH64 callee k = false -> gpr d1 1 = gpr d 1;
  ac_x9 : is_shuffled callee k && is_u32_f32 k = false -> gpr d1 9 = gpr d 9;
  ac_s0 : fpr d1 0 = unpacked_s0 (is_shuffled callee k) (is_u32_f32 k) (gpr d 0) (fpr d 0);
  ac_fpr : forall r, r <> 0 -> fpr d1 r = fpr d r;
}.

Lemma a64_call_run (t callee k slot ret : Z) (d : data) :
  0 <= slot < POLY_ABI_SIGNATURE_SLOT_COUNT -> in_width 64 t -> in_width 64 ret -> caller_ok 31 d ->
  let s9 := is_stack9_x86 callee k in
  exists d1, (forall pc, run_block pc d (a64_call_block t callee k slot ret) = Some d1) /\
    a64_call_regs t callee k ret d d1 /\
    entered_from POLY_ARCH_AARCH64 callee k slot 31 30 (a64_frame s9) [0; 1; 9; 16; 17; 18; 31] d d1 /\
    stack_arguments s9 (gpr d 31 - a64_frame s9) (gpr d 6) (gpr d 7) (mem_load (mem d) (gpr d 31)) d1.
Proof.
  intros Hs Ht Hr Hok s9. pose proof Hok as (Hlo & Hhi & Hw).
  assert (32 <= a64_frame s9 <= 48) as Hfr by (unfold a64_frame; destruct s9; lia).
  destruct (a64_save_run s9 d Hok) as (d1 & R1 & Sp1 & G1 & F1 & B1 & Sg1 & M1 & [K1 K2 K3]).
  destruct (optional_signature (needs_signature POLY_ARCH_AARCH64 callee k) (a64_signature_block slot k) [0; 1] slot
    (signature_value k) d1) as (d2 & R2 & G2 & G2' & F2 & M2 & B2 & Sg2).
  { intros Hn. apply a64_signature_run; [done|by eapply needs_signature_fpair]. }
  assert (gpr d2 31 = gpr d 31 - a64_frame s9) as Sp2 by (by rewrite G2 by not_in).
  destruct (a64_unpack_run s9 (is_shuffled callee k) (is_u32_f32 k) d2 (gpr d 0))
    as (d3 & R3 & G3 & X9 & X0 & S0 & F3 & M3 & B3 & Sg3); [lia|lia|done|by rewrite Sp2, M2|].
  destruct (a64_target_run t callee ret d3 Ht Hr) as (d4 & R4 & E16 & E17 & E18 & [G4 F4 M4 B4 Sg4]).
  exists d4. assert (mem d4 = mem d1) as M14 by congruence. split_and!.
  - intros pc. unfold a64_call_block. fold s9. rewrite run_block_app, R1. cbn [mbind option_bind].
    rewrite run_block_app, R2. cbn [mbind option_bind]. rewrite run_block_app, R3. apply R4.
  - constructor; try done.
    + by rewrite G4 by not_in.
    + intros Hn. by rewrite G4, G3, G2', G1 by (done || not_in).
    + intros Hn. by rewrite G4, X9, G2, G1 by (done || not_in).
    + by rewrite F4, S0, F2, F1.
    + intros r Hr'. by rewrite F4, F3, F2, F1.
  - constructor.
    + by rewrite G4, G3 by not_in.
    + intros r Hr'. by rewrite G4, G3, G2, G1 by (intros Hin; apply Hr'; revert Hin; rewrite !elem_of_cons; tauto).
    + congruence.
    + intros s. by rewrite Sg4, Sg3, Sg2, Sg1.
    + intros a Ha Hout. rewrite M14. by apply M1.
    + by rewrite M14.
  - unfold stack_arguments. rewrite M14. by destruct s9.
Qed.

(** ** The AArch64 stub behind the call *)

Definition a64_pack_block (s9 shuffled u32_f32 : bool) : list (a64_insn * list Z) :=
  assemble ((if shuffled then
     if u32_f32 then [(A64_FMOV_W_S 9 0, aarch64_fmov_w_from_s 9 0); (A64_UBFM 9 9 32 31, aarch64_lsl_imm 9 9 32);
                      (A64_ORR 0 0 9, aarch64_orr_reg 0 0 9)]
     else [(A64_FMOV_W_S 9 0, aarch64_fmov_w_from_s 9 0); (A64_UBFM 0 0 32 31, aarch64_lsl_imm 0 0 32);
           (A64_ORR 0 0 9, aarch64_orr_reg 0 0 9)]
   else []) ++
  [(A64_LDR 30 31 (if s9 then 24 else 8), if s9 then 0xf9400ffe else 0xf94007fe);
   (A64_ADDI 31 31 (a64_frame s9), if s9 then 0x9100c3ff else 0x910083ff)]).

Lemma a64_pack_encodes (s9 sh u : bool) : Forall (encodes 4) (a64_pack_block s9 sh u).
Proof.
  destruct s9, sh, u; cbn [a64_pack_block assemble fmap list_fmap app a64_frame];
    encode_words ltac:(apply a64_encodes; reflexivity).
Qed.

(** The result register of a caller that gets a compact structure in one
    register. *)
Definition packed_x0 (shuffled u32_f32 : bool) (x0 s0 : Z) : Z :=
  if shuffled then
    if u32_f32 then x0 lor (s0 mod 2 ^ 32 * 2 ^ 32) else (x0 mod 2 ^ 32 * 2 ^ 32) lor (s0 mod 2 ^ 32)
  else x0.

Lemma ubfm_32_31 (x : Z) : ubfm x 32 31 = x mod 2 ^ 32 * 2 ^ 32.
Proof. done. Qed.

Lemma a64_pack_run (s9 sh u : bool) (d : data) (link : Z) :
  0 <= gpr d 31 -> gpr d 31 + a64_frame s9 < 2 ^ 64 ->
  mem_load (mem d) (gpr d 31 + (if s9 then 24 else 8)) = link -> exists d',
  (forall pc, run_block pc d (a64_pack_block s9 sh u) = Some d') /\
  (forall r, r ∉ [0; 9; 30; 31] -> gpr d' r = gpr d r) /\ gpr d' 30 = link /\
  gpr d' 31 = gpr d 31 + a64_frame s9 /\ gpr d' 0 = packed_x0 sh u (gpr d 0) (fpr d 0) /\
  fpr d' = fpr d /\ mem d' = mem d /\ signatures d' = signatures d /\ fs_base d' = fs_base d.
Proof.
  intros Hlo Hhi Hx. destruct d as [g f m zf fs tp sg ns]. cbn [gpr mem fpr] in *.
  assert (u64 (g 31 + (if s9 then 24 else 8)) = g 31 + (if s9 then 24 else 8)) as Ha
    by (apply wrap_small; unfold in_width, a64_frame in *; destruct s9; lia).
  assert (u64 (g 31 + a64_frame s9) = g 31 + a64_frame s9) as Hf
    by (apply wrap_small; unfold in_width, a64_frame in *; destruct s9; lia).
  unfold a64_pack_block, packed_x0.
  destruct sh, u; cbn [app]; (eexists; split; [intros pc; eval_block; reflexivity|]);
    cbn [gpr fpr mem fs_base signatures]; read_regs; rewrite Ha, Hf, ?ubfm_32_31, ?u32_mod; split_and!; try done.
  all: intros r Hr; read_regs; done.
Qed.

Definition a64_ret_insn : a64_insn * list Z := (A64_RET 30, le_bytes 4 0xd65f03c0).

Lemma a64_pack_bytes (callee k : Z) :
  block_bytes (a64_pack_block (is_stack9_x86 callee k) (is_shuffled callee k) (is_u32_f32 k)) ++ a64_ret_insn.2 =
  words_bytes (a64_post_words callee k ++ a64_return_words (is_stack9_x86 callee k)).
Proof.
  unfold a64_pack_block, a64_post_words, a64_return_words, is_u32_f32, a64_frame.
  destruct (is_stack9_x86 callee k), (is_shuffled callee k), (k =? POLY_PROCESS_BRIDGE_COMPACT_U32_F32); reflexivity.
Qed.

Lemma a64_stub_blocks (t callee k slot ret p : Z) (rest : list Z) :
  words_bytes (a64_args_words callee k slot ++ a64_target_words t callee ret ++ [p] ++ a64_post_words callee k ++
               a64_return_words (is_stack9_x86 callee k)) ++ rest =
  block_bytes (a64_call_block t callee k slot ret) ++ le_bytes 4 p ++
  block_bytes (a64_pack_block (is_stack9_x86 callee k) (is_shuffled callee k) (is_u32_f32 k)) ++ a64_ret_insn.2 ++ rest.
Proof.
  rewrite (app_assoc (block_bytes (a64_pack_block _ _ _))), a64_pack_bytes, a64_call_block_bytes, !words_bytes_app.
  rewrite <- !app_assoc. cbn [app]. by rewrite words_bytes_cons, <- app_assoc.
Qed.

(** What the caller finds when a stub has returned: its own stack pointer and
    memory as the callee left it. *)
Definition returned_to (sp_reg res_reg sp result : Z) (clobbered : list Z) (d2 d3 : data) : Prop :=
  gpr d3 sp_reg = sp /\ gpr d3 res_reg = result /\ (forall r, r ∉ clobbered -> gpr d3 r = gpr d2 r) /\
  mem d3 = mem d2 /\ signatures d3 = signatures d2 /\ fs_base d3 = fs_base d2.

(** C16: An AArch64 caller that calls a stub reaches the call instruction of its
    signature slot with the target, its frontend and the return address in the
    call registers, its own arguments in place (a compact structure split
    between a general and a vector register, stack arguments copied to the
    stack pointer), the needed signature set, and memory changed only in the
    frame of the stub; when the callee returns with the stack pointer and the
    frame as they were, the stub puts the result together, restores the stack
    pointer and goes back to the caller. *)
Theorem aarch64_stub_calls (base : Z) (code stub rest : list Z) (addr t callee k slot : Z) (d : data) :
  0 <= slot < POLY_ABI_SIGNATURE_SLOT_COUNT -> in_width 64 t ->
  0 <= addr -> addr mod 4 = 0 -> addr + 160 < 2 ^ 64 ->
  aarch64_stub_code addr t callee k slot = Some stub -> window base code addr = stub ++ rest -> caller_ok 31 d ->
  let s9 := is_stack9_x86 callee k in
  let sp := gpr d 31 - a64_frame s9 in
  let ret := a64_stub_return addr callee k slot in
  exists d1, a64_runs base code (addr, d) (ret - 4, d1) /\
    decode (ret - 4) (window base code (ret - 4)) = Some (A64_CTRL (0x50 + slot), 4%nat) /\
    a64_call_regs t callee k ret d d1 /\
    entered_from POLY_ARCH_AARCH64 callee k slot 31 30 (a64_frame s9) [0; 1; 9; 16; 17; 18; 31] d d1 /\
    stack_arguments s9 sp (gpr d 6) (gpr d 7) (mem_load (mem d) (gpr d 31)) d1 /\
    forall d2, gpr d2 31 = sp -> mem_load (mem d2) (sp + (if s9 then 24 else 8)) = gpr d 30 -> exists d3,
      a64_runs base code (ret, d2) (gpr d 30, d3) /\ fpr d3 = fpr d2 /\
      returned_to 31 0 (gpr d 31) (packed_x0 (is_shuffled callee k) (is_u32_f32 k) (gpr d2 0) (fpr d2 0))
        [0; 9; 30; 31] d2 d3.
Proof.
  intros Hs Ht Ha0 Ha4 Ha1 Hstub Hw Hok s9 sp ret. pose proof Hok as (Hlo & Hhi & Hreg).
  assert (length (a64_args_words callee k slot) <= 19)%nat as Hl by apply a64_args_length.
  assert (in_width 64 ret) as Hret by (unfold in_width, ret, a64_stub_return; lia).
  rewrite aarch64_stub_code_words in Hstub by done. apply (inj Some) in Hstub. subst stub. fold ret in Hw.
  rewrite a64_stub_blocks in Hw. fold s9 in Hw.
  destruct (a64_call_run t callee k slot ret d Hs Ht Hret Hok) as (d1 & R1 & C1 & E1 & A1).
  destruct (block_runs base code 4 ltac:(lia) (a64_call_block t callee k slot ret) _
    (a64_call_block_encodes _ _ _ _ _) addr d d1 (conj Ha4 Hw) (R1 addr)) as [Runs1 [Hm1 Hw1]].
  assert (addr + Z.of_nat (length (block_bytes (a64_call_block t callee k slot ret))) = ret - 4) as Hpc.
  { rewrite a64_call_block_bytes, words_bytes_length, length_app. unfold ret, a64_stub_return, a64_target_words.
    rewrite !length_app. cbn [length movabs_words]. lia. }
  rewrite Hpc in *. pose proof (a64_encodes (aarch64_pcall_sig_imm slot) _ (aarch64_pcall_sig_imm_decode slot Hs)) as He.
  pose proof (at_code_next base code 4 ltac:(lia) (ret - 4) _ _ He (conj Hm1 Hw1)) as Hat.
  cbn [snd] in Hat. rewrite le_bytes_length in Hat. replace (ret - 4 + Z.of_nat 4) with ret in Hat by lia.
  exists d1. split; [done|]. split; [rewrite Hw1; destruct He as (_ & _ & Hd); by apply Hd|].
  split; [done|]. split; [done|]. split; [done|]. intros d2 Hsp Hlink.
  destruct (a64_pack_run s9 (is_shuffled callee k) (is_u32_f32 k) d2 (gpr d 30))
    as (d3 & R3 & G3 & L3 & S3 & X3 & F3 & M3 & Sg3 & B3); [rewrite Hsp; subst sp; unfold a64_frame in *; destruct s9; lia..|by rewrite Hsp|].
  destruct (block_runs base code 4 ltac:(lia) _ _ (a64_pack_encodes _ _ _) ret d2 d3 Hat (R3 ret)) as [Runs3 Hat3].
  exists d3. split; [|split; [done|]].
  - etransitivity; [exact Runs3|]. eapply jump_runs; [|exact Hat3|].
    + apply a64_encodes. reflexivity.
    + cbn [exec a64_isa a64_exec1 fst a64_get a64_ret_insn]. unfold a64_get. cbn [Z.eqb Pos.eqb]. by rewrite L3.
  - split_and!; try done. rewrite S3, Hsp. subst sp. lia.
Qed.

(** ** The RISC-V stub up to the call *)

Lemma riscv_addi_small (rd rs1 off : Z) : is_reg rd -> is_reg rs1 -> 0 <= off < 2 ^ 11 ->
  rv_decode (riscv_addi rd rs1 off) = Some (RV_ADDI rd rs1 off).
Proof.
  intros H1 H2 Ho. rewrite riscv_addi_decode by done.
  replace ((off + 2 ^ 11) / 2 ^ 12) with 0 by (symmetry; apply Z.div_small; lia).
  by rewrite Z.mul_0_r, Z.sub_0_r.
Qed.

(** The literals behind the code, loaded relative to the program counter. *)
Definition rv_head_block (callee lits : Z) : list (rv_insn * list Z) :=
  assemble [(RV_AUIPC 5 0, 0x00000297); (RV_LD 5 5 lits, riscv_ld 5 5 lits);
            (RV_ADDI 6 0 (callee_frontend callee), riscv_addi 6 0 (callee_frontend callee));
            (RV_AUIPC 7 0, 0x00000397); (RV_LD 7 7 (lits - 4), riscv_ld 7 7 (lits - 4))].

Lemma callee_frontend_range (callee : Z) : 0 <= callee_frontend callee <= 2.
Proof. unfold callee_frontend. destruct_ifs; vm_compute; split; congruence. Qed.

Lemma rv_head_encodes (callee lits : Z) : 4 <= lits < 2 ^ 11 -> Forall (encodes 4) (rv_head_block callee lits).
Proof.
  intros Hl. pose proof (callee_frontend_range callee). cbn [rv_head_block assemble fmap list_fmap].
  encode_words ltac:(apply rv_encodes; lazymatch goal with
    | |- rv_decode (riscv_ld _ _ _) = _ => apply riscv_ld_decode; unfold is_reg; lia
    | |- rv_decode (riscv_addi _ _ _) = _ => apply riscv_addi_small; unfold is_reg; lia
    | |- _ => reflexivity
    end).
Qed.

Lemma rv_head_run (callee lits pc t ret : Z) (d : data) :
  0 <= pc -> 12 <= lits -> pc + lits + 16 <= 2 ^ 64 ->
  mem_load (mem d) (pc + lits) = t -> mem_load (mem d) (pc + lits + 8) = ret -> exists d',
  run_block pc d (rv_head_block callee lits) = Some d' /\
  gpr d' 5 = t /\ gpr d' 6 = callee_frontend callee /\ gpr d' 7 = ret /\ same_but [5; 6; 7] d d'.
Proof.
  intros Hpc Hl Hhi Ht Hr. destruct d as [g f m zf fs tp sg ns]. cbn [mem] in *.
  pose proof (callee_frontend_range callee). unfold rv_head_block.
  eexists. split; [eval_block; reflexivity|]. cbn [gpr]. read_regs.
  cbn [length le_bytes]. rewrite !Z.mul_0_l, !Z.add_0_r, !Z.add_0_l.
  rewrite !(wrap_small 64 pc), !(wrap_small 64 (callee_frontend _)) by (unfold in_width; lia).
  rewrite !(wrap_small 64 (pc + _ + _ + _)) by (unfold in_width; lia).
  rewrite !(wrap_small 64) by (unfold in_width; lia).
  replace (pc + Z.of_nat 4 + Z.of_nat 4 + Z.of_nat 4 + (lits - 4)) with (pc + lits + 8) by lia.
  split_and!; try done. constructor; try done. intros r Hr'. cbn [gpr]. by read_regs.
Qed.

Definition rv_save_block (s9 : bool) : list (rv_insn * list Z) :=
  assemble (if s9 then
    [(RV_ADDI 2 2 (-48), riscv_addi 2 2 (-48)); (RV_SD 16 2 0, riscv_sd 16 2 0); (RV_SD 17 2 8, riscv_sd 17 2 8);
     (RV_LD 29 2 48, riscv_ld 29 2 48); (RV_SD 29 2 16, riscv_sd 29 2 16); (RV_SD 1 2 24, riscv_sd 1 2 24);
     (RV_SD 10 2 32, riscv_sd 10 2 32)]
  else
    [(RV_ADDI 2 2 (-32), 0xfe010113); (RV_LD 29 2 32, riscv_ld 29 2 32); (RV_SD 29 2 0, riscv_sd 29 2 0);
     (RV_SD 1 2 8, riscv_sd 1 2 8); (RV_SD 10 2 16, riscv_sd 10 2 16)]).

Lemma rv_save_encodes (s9 : bool) : Forall (encodes 4) (rv_save_block s9).
Proof.
  destruct s9; cbn [rv_save_block assemble fmap list_fmap]; encode_words ltac:(apply rv_encodes; vm_compute; reflexivity).
Qed.

Lemma rv_save_run (s9 : bool) (d : data) : caller_ok 2 d -> exists d',
  (forall pc, run_block pc d (rv_save_block s9) = Some d') /\
  gpr d' 2 = gpr d 2 - a64_frame s9 /\ (forall r, r ∉ [29; 2] -> gpr d' r = gpr d r) /\
  fpr d' = fpr d /\ fs_base d' = fs_base d /\ signatures d' = signatures d /\
  mem_outside (gpr d 2 - a64_frame s9) (gpr d 2) d d' /\
  frame_saved s9 d' (gpr d 2 - a64_frame s9) (gpr d 1) (gpr d 10) (mem_load (mem d) (gpr d 2)) (gpr d 16) (gpr d 17).
Proof.
  intros (Hlo & Hhi & Hw). destruct d as [g f m zf fs tp sg ns]. cbn [gpr] in *.
  unfold rv_save_block; destruct s9; (eexists; split; [intros pc; eval_block; reflexivity|]);
    cbn [gpr fpr fs_base signatures mem a64_frame]; read_regs.
  all: change (g 2 + -48) with (g 2 - 48); change (g 2 + -32) with (g 2 - 32).
  all: rewrite ?(wrap_small 64 (g 2 - _)) by (unfold in_width; lia);
    rewrite ?Z.sub_add, ?(wrap_small 64) by (unfold in_width; lia); rewrite ?Z.sub_add, ?Z.add_0_r.
  all: split_and!; try done.
  all: try (intros r Hr; read_regs; done).
  all: try (intros a Ha Hout; cbn [mem]; rewrite !mem_store_outside by (unfold cell; lia); done).
  all: constructor; cbn [mem]; split_and?; frame_loads; try done.
Qed.

Definition rv_signature_block (slot k : Z) : list (rv_insn * list Z) :=
  let kind := process_bridge_signature_kind k in
  let map := poly_abi_signature_register_map kind in
  assemble [(RV_ADDI 10 0 slot, riscv_addi 10 0 slot); (RV_ADDI 11 0 map, riscv_addi 11 0 map);
            (RV_SLLI 11 11 32, riscv_slli 11 11 32); (RV_ADDI 28 0 kind, riscv_addi 28 0 kind);
            (RV_OR 11 11 28, riscv_or 11 11 28); (RV_CTRL 12, POLY_RISCV_CTRL_ABI_SIGNATURE_SET)].

Lemma rv_signature_encodes (slot k : Z) : 0 <= slot < POLY_ABI_SIGNATURE_SLOT_COUNT ->
  process_bridge_is_fpair k = true -> Forall (encodes 4) (rv_signature_block slot k).
Proof.
  unfold POLY_ABI_SIGNATURE_SLOT_COUNT. intros Hs Hk. destruct (signature_value_width k Hk) as (_ & _ & H1 & H2).
  cbn [rv_signature_block assemble fmap list_fmap].
  encode_words ltac:(apply rv_encodes; lazymatch goal with
    | |- rv_decode (riscv_addi _ _ _) = _ => apply riscv_addi_small; unfold is_reg; lia
    | |- _ => reflexivity
    end).
Qed.

Lemma rv_signature_run (slot k : Z) (d : data) :
  0 <= slot < POLY_ABI_SIGNATURE_SLOT_COUNT -> process_bridge_is_fpair k = true -> exists d',
  (forall pc, run_block pc d (rv_signature_block slot k) = Some d') /\
  signature_set [10; 11; 28] slot (signature_value k) d d'.
Proof.
  unfold POLY_ABI_SIGNATURE_SLOT_COUNT. intros Hs Hk. destruct (signature_value_width k Hk) as (_ & Hv & H1 & H2).
  destruct d as [g f m zf fs tp sg ns]. unfold rv_signature_block.
  set (kind := process_bridge_signature_kind k) in *. set (map := poly_abi_signature_register_map kind) in *.
  eexists. split; [intros pc; eval_block; reflexivity|].
  unfold signature_set. cbn [gpr fpr mem fs_base signatures]. split_and!; try done.
  - intros r Hr. by read_regs.
  - intros s. rewrite (set_reg_eqb sg). read_regs. rewrite !Z.add_0_l, !(wrap_small 64 slot), !(wrap_small 64 map), !(wrap_small 64 kind)
      by (unfold in_width; lia).
    rewrite Z.shiftl_mul_pow2, (wrap_small 64 (map * 2 ^ 32)) by (unfold in_width; lia).
    destruct (s =? slot); [|done]. rewrite Hv.
    rewrite <- Z.shiftl_mul_pow2 by lia. symmetry. apply add_lor_low; lia.
Qed.

(** *** Reloading the first argument and packing a compact structure *)

Definition rv_pack_block (s9 shuffled u32_f32 : bool) : list (rv_insn * list Z) :=
  assemble ([(RV_LD 10 2 (if s9 then 32 else 16), riscv_ld 10 2 (if s9 then 32 else 16))] ++
  (if shuffled then
     if u32_f32 then [(RV_FMV_X_W 28 10, riscv_fmv_x_w 28 10); (RV_SLLI 28 28 32, riscv_slli 28 28 32);
                      (RV_OR 10 10 28, riscv_or 10 10 28)]
     else [(RV_FMV_X_W 28 10, riscv_fmv_x_w 28 10); (RV_SLLI 10 10 32, riscv_slli 10 10 32);
           (RV_OR 10 10 28, riscv_or 10 10 28)]
   else [])).

Lemma rv_pack_encodes (s9 sh u : bool) : Forall (encodes 4) (rv_pack_block s9 sh u).
Proof.
  destruct s9, sh, u; cbn [rv_pack_block assemble fmap list_fmap app];
    encode_words ltac:(apply rv_encodes; vm_compute; reflexivity).
Qed.

(** The argument register of the callee: [fmv.x.w] extends the sign of the
    single. *)
Definition rv_packed_a0 (shuffled u32_f32 : bool) (a0 f : Z) : Z :=
  if shuffled then
    if u32_f32 then a0 lor u64 (Z.shiftl (u64 (signed 32 f)) 32) else u64 (Z.shiftl a0 32) lor u64 (signed 32 f)
  else a0.

Lemma rv_pack_run (s9 sh u : bool) (d : data) (a0 : Z) :
  0 <= gpr d 2 -> gpr d 2 + 40 <= 2 ^ 64 -> mem_load (mem d) (gpr d 2 + (if s9 then 32 else 16)) = a0 -> exists d',
  (forall pc, run_block pc d (rv_pack_block s9 sh u) = Some d') /\
  (forall r, r ∉ [10; 28] -> gpr d' r = gpr d r) /\ (sh = false -> gpr d' 28 = gpr d 28) /\
  gpr d' 10 = rv_packed_a0 sh u a0 (fpr d 10) /\
  fpr d' = fpr d /\ mem d' = mem d /\ fs_base d' = fs_base d /\ signatures d' = signatures d.
Proof.
  intros Hlo Hhi Hx. destruct d as [g f m zf fs tp sg ns]. cbn [gpr mem fpr] in *.
  assert (u64 (g 2 + (if s9 then 32 else 16)) = g 2 + (if s9 then 32 else 16)) as Ha
    by (apply wrap_small; unfold in_width; destruct s9; lia).
  unfold rv_pack_block, rv_packed_a0.
  destruct sh, u; cbn [app]; (eexists; split; [intros pc; eval_block; reflexivity|]);
    cbn [gpr fpr mem fs_base signatures]; rewrite Ha, Hx; read_regs; split_and!; try done.
  all: intros r Hr; read_regs; done.
Qed.

Definition rv_call_block (callee k slot lits : Z) : list (rv_insn * list Z) :=
  rv_head_block callee lits ++ rv_save_block (is_stack9_x86 callee k) ++
  (if needs_signature POLY_ARCH_RISCV callee k then rv_signature_block slot k else []) ++
  rv_pack_block (is_stack9_x86 callee k) (is_shuffled callee k) (is_u32_f32 k).

Lemma rv_call_block_bytes (callee k slot lits : Z) :
  block_bytes (rv_call_block callee k slot lits) =
  words_bytes (rv_head_words callee (riscv_ld 5 5 lits) (riscv_ld 7 7 (lits - 4)) ++ rv_args_words callee k slot).
Proof.
  unfold rv_call_block, rv_args_words. set (s9 := is_stack9_x86 callee k). set (sh := is_shuffled callee k).
  assert (block_bytes (rv_save_block s9) = words_bytes (rv_save_words s9)) as E1
    by (unfold rv_save_block, rv_save_words; apply assemble_words; by destruct s9).
  assert (block_bytes (if needs_signature POLY_ARCH_RISCV callee k then rv_signature_block slot k else []) =
          words_bytes (rv_signature_words callee k slot)) as E2.
  { unfold rv_signature_words, needs_signature.
    by destruct (process_bridge_needs_foreign_signature_set POLY_ARCH_RISCV callee k). }
  assert (block_bytes (rv_pack_block s9 sh (is_u32_f32 k)) =
          words_bytes ([riscv_ld 10 2 (if s9 then 32 else 16)] ++ rv_pre_words callee k)) as E3.
  { unfold rv_pack_block, rv_pre_words, is_u32_f32. fold sh. apply assemble_words.
    by destruct sh, (k =? POLY_PROCESS_BRIDGE_COMPACT_U32_F32). }
  by rewrite !block_bytes_app, E1, E2, E3, !words_bytes_app.
Qed.

Lemma rv_call_block_encodes (callee k slot lits : Z) :
  0 <= slot < POLY_ABI_SIGNATURE_SLOT_COUNT -> 4 <= lits < 2 ^ 11 ->
  Forall (encodes 4) (rv_call_block callee k slot lits).
Proof.
  intros Hs Hl. unfold rv_call_block. apply Forall_app_2; [by apply rv_head_encodes|].
  apply Forall_app_2; [apply rv_save_encodes|]. apply Forall_app_2; [|apply rv_pack_encodes].
  destruct (needs_signature _ _ _) eqn:E; [|apply Forall_nil_2].
  apply rv_signature_encodes; [done|by eapply needs_signature_fpair].
Qed.

(** The RISC-V registers at the call. *)
Record rv_call_regs (t callee k ret : Z) (d d1 : data) : Prop := {
  rc_target : gpr d1 5 = t;
  rc_frontend : gpr d1 6 = callee_frontend callee;
  rc_return : gpr d1 7 = ret;
  rc_a0 : gpr d1 10 = rv_packed_a0 (is_shuffled callee k) (is_u32_f32 k) (gpr d 10) (fpr d 10);
  rc_a1 : needs_signature POLY_ARCH_RISCV callee k = false -> gpr d1 11 = gpr d 11;
  rc_fpr : fpr d1 = fpr d;
}.

Lemma rv_call_run (pc t callee k slot lits ret : Z) (d : data) :
  0 <= slot < POLY_ABI_SIGNATURE_SLOT_COUNT -> 0 <= pc -> 12 <= lits -> pc + lits + 16 <= 2 ^ 64 ->
  mem_load (mem d) (pc + lits) = t -> mem_load (mem d) (pc + lits + 8) = ret -> caller_ok 2 d ->
  let s9 := is_stack9_x86 callee k in
  exists d1, run_block pc d (rv_call_block callee k slot lits) = Some d1 /\
    rv_call_regs t callee k ret d d1 /\
    entered_from POLY_ARCH_RISCV callee k slot 2 1 (a64_frame s9) [2; 5; 6; 7; 10; 11; 28; 29] d d1 /\
    stack_arguments s9 (gpr d 2 - a64_frame s9) (gpr d 16) (gpr d 17) (mem_load (mem d) (gpr d 2)) d1.
Proof.
  intros Hs Hpc Hl Hhi Ht Hr Hok s9.
  assert (32 <= a64_frame s9 <= 48) as Hfr by (unfold a64_frame; destruct s9; lia).
  destruct (rv_head_run callee lits pc t ret d Hpc Hl Hhi Ht Hr) as (d0 & R0 & E5 & E6 & E7 & [G0 F0 M0 B0 Sg0]).
  assert (forall r, r ∉ [5; 6; 7] -> gpr d0 r = gpr d r) as G0' by done.
  assert (caller_ok 2 d0) as Hok0.
  { destruct Hok as (H1 & H2 & H3). split_and!; [by rewrite G0 by not_in..|]. intros r.
    destruct (decide (r ∈ [5; 6; 7])) as [Hin|]; [|by rewrite G0].
    pose proof (callee_frontend_range callee). rewrite !elem_of_cons, elem_of_nil in Hin.
    destruct Hin as [-> | [-> | [-> | []]]]; rewrite ?E5, ?E6, ?E7; subst; try apply mem_load_width. unfold in_width. lia. }
  pose proof Hok0 as (Hlo & Hhi0 & Hw).
  destruct (rv_save_run s9 d0 Hok0) as (d1 & R1 & Sp1 & G1 & F1 & B1 & Sg1 & M1 & [K1 K2 K3]).
  destruct (optional_signature (needs_signature POLY_ARCH_RISCV callee k) (rv_signature_block slot k) [10; 11; 28] slot
    (signature_value k) d1) as (d2 & R2 & G2 & G2' & F2 & M2 & B2 & Sg2).
  { intros Hn. apply rv_signature_run; [done|by eapply needs_signature_fpair]. }
  assert (gpr d2 2 = gpr d0 2 - a64_frame s9) as Sp2 by (by rewrite G2 by not_in).
  destruct (rv_pack_run s9 (is_shuffled callee k) (is_u32_f32 k) d2 (gpr d0 10))
    as (d3 & R3 & G3 & X28 & X10 & F3 & M3 & B3 & Sg3); [lia|lia|by rewrite Sp2, M2|].
  rewrite !(G0' 1), !(G0' 2), !(G0' 10), !(G0' 16), !(G0' 17) in * by not_in. rewrite M0 in *.
  exists d3. assert (mem d3 = mem d1) as M13 by congruence. split_and!.
  - unfold rv_call_block. fold s9. rewrite run_block_app, R0. cbn [mbind option_bind].
    rewrite run_block_app, R1. cbn [mbind option_bind]. rewrite run_block_app, R2. apply R3.
  - constructor.
    + by rewrite G3, G2, G1 by not_in.
    + by rewrite G3, G2, G1 by not_in.
    + by rewrite G3, G2, G1 by not_in.
    + by rewrite X10, F2, F1, F0.
    + intros Hn. by rewrite G3, G2', G1, G0 by (done || not_in).
    + congruence.
  - constructor.
    + by rewrite G3 by not_in.
    + intros r Hr'. by rewrite G3, G2, G1, G0 by (intros Hin; apply Hr'; revert Hin; rewrite !elem_of_cons; tauto).
    + congruence.
    + intros s. by rewrite Sg3, Sg2, Sg1, Sg0.
    + intros a Ha Hout. rewrite M13, (M1 a Ha Hout). by rewrite M0.
    + by rewrite M13.
  - unfold stack_arguments. rewrite M13. by destruct s9.
Qed.

(** ** The RISC-V stub behind the call *)

Definition rv_unpack_block (s9 shuffled u32_f32 : bool) : list (rv_insn * list Z) :=
  assemble ((if shuffled then
     if u32_f32 then [(RV_SRLI 28 10 32, riscv_srli 28 10 32); (RV_FMV_W_X 10 28, riscv_fmv_w_x 10 28)]
     else [(RV_FMV_W_X 10 10, riscv_fmv_w_x 10 10); (RV_SRLI 10 10 32, riscv_srli 10 10 32)]
   else []) ++
  [(RV_LD 1 2 (if s9 then 24 else 8), riscv_ld 1 2 (if s9 then 24 else 8));
   (RV_ADDI 2 2 (a64_frame s9), riscv_addi 2 2 (if s9 then 48 else 32))]).

Lemma rv_unpack_encodes (s9 sh u : bool) : Forall (encodes 4) (rv_unpack_block s9 sh u).
Proof.
  destruct s9, sh, u; cbn [rv_unpack_block assemble fmap list_fmap app a64_frame];
    encode_words ltac:(apply rv_encodes; vm_compute; reflexivity).
Qed.

(** The results of a RISC-V caller: a compact structure is split between the
    integer and the boxed floating-point result register. *)
Definition rv_result_a0 (shuffled u32_f32 : bool) (a0 : Z) : Z :=
  if shuffled && negb u32_f32 then Z.shiftr a0 32 else a0.
Definition rv_result_fa0 (shuffled u32_f32 : bool) (a0 f : Z) : Z :=
  if shuffled then 0xffffffff00000000 + u32 (if u32_f32 then Z.shiftr a0 32 else a0) else f.

Lemma rv_unpack_run (s9 sh u : bool) (d : data) (link : Z) :
  0 <= gpr d 2 -> gpr d 2 + a64_frame s9 < 2 ^ 64 ->
  mem_load (mem d) (gpr d 2 + (if s9 then 24 else 8)) = link -> exists d',
  (forall pc, run_block pc d (rv_unpack_block s9 sh u) = Some d') /\
  (forall r, r ∉ [1; 2; 10; 28] -> gpr d' r = gpr d r) /\ gpr d' 1 = link /\
  gpr d' 2 = gpr d 2 + a64_frame s9 /\ gpr d' 10 = rv_result_a0 sh u (gpr d 10) /\
  fpr d' 10 = rv_result_fa0 sh u (gpr d 10) (fpr d 10) /\ (forall r, r <> 10 -> fpr d' r = fpr d r) /\
  mem d' = mem d /\ signatures d' = signatures d /\ fs_base d' = fs_base d.
Proof.
  intros Hlo Hhi Hx. destruct d as [g f m zf fs tp sg ns]. cbn [gpr mem fpr] in *.
  assert (u64 (g 2 + (if s9 then 24 else 8)) = g 2 + (if s9 then 24 else 8)) as Ha
    by (apply wrap_small; unfold in_width, a64_frame in *; destruct s9; lia).
  assert (u64 (g 2 + a64_frame s9) = g 2 + a64_frame s9) as Hf
    by (apply wrap_small; unfold in_width, a64_frame in *; destruct s9; lia).
  unfold rv_unpack_block, rv_result_a0, rv_result_fa0.
  destruct sh, u; cbn [app andb negb]; (eexists; split; [intros pc; eval_block; reflexivity|]);
    cbn [gpr fpr mem fs_base signatures]; read_regs; rewrite Ha, Hf; split_and!; try done.
  all: intros r Hr; read_regs; done.
Qed.

Definition rv_ret_insn : rv_insn * list Z := (RV_JALR 0 1 0, le_bytes 4 0x00008067).

Lemma rv_stub_blocks (callee k slot lits p : Z) (rest : list Z) :
  words_bytes (rv_head_words callee (riscv_ld 5 5 lits) (riscv_ld 7 7 (lits - 4)) ++
    rv_args_words callee k slot ++ [p] ++ rv_post_words callee k ++ rv_return_words (is_stack9_x86 callee k)) ++ rest =
  block_bytes (rv_call_block callee k slot lits) ++ le_bytes 4 p ++
  block_bytes (rv_unpack_block (is_stack9_x86 callee k) (is_shuffled callee k) (is_u32_f32 k)) ++ rv_ret_insn.2 ++ rest.
Proof.
  assert (block_bytes (rv_unpack_block (is_stack9_x86 callee k) (is_shuffled callee k) (is_u32_f32 k)) ++ rv_ret_insn.2 =
    words_bytes (rv_post_words callee k ++ rv_return_words (is_stack9_x86 callee k))) as E.
  { unfold rv_unpack_block, rv_post_words, rv_return_words, is_u32_f32.
    destruct (is_stack9_x86 callee k), (is_shuffled callee k), (k =? POLY_PROCESS_BRIDGE_COMPACT_U32_F32); reflexivity. }
  rewrite (app_assoc (block_bytes (rv_unpack_block _ _ _))), E, rv_call_block_bytes, !words_bytes_app.
  rewrite <- !app_assoc. cbn [app]. by rewrite !words_bytes_cons, <- !app_assoc.
Qed.

(** The code is part of the memory. *)
Definition code_visible (base : Z) (code : list Z) (d : data) : Prop :=
  forall i b, code !! i = Some b -> mem d (base + Z.of_nat i) = b.

Lemma visible_literal (base x v : Z) (code rest : list Z) (d : data) :
  code_visible base code d -> window base code x = le_bytes 8 v ++ rest -> in_width 64 v ->
  0 <= x -> x + 8 <= 2 ^ 64 -> mem_load (mem d) x = v.
Proof.
  intros Hv Hw Hwidth Hx Hx8. apply mem_load_bytes; [|done]. intros i b Hi.
  assert (i < 8)%nat as Hi8 by (apply lookup_lt_Some in Hi; by rewrite le_bytes_length in Hi).
  rewrite wrap_small by (unfold in_width; lia).
  unfold window in Hw. destruct (Z.leb_spec base x); [|done].
  replace (x + Z.of_nat i) with (base + Z.of_nat (Z.to_nat (x - base) + i)) by lia.
  apply Hv. rewrite <- lookup_drop, Hw. rewrite lookup_app_l by (by rewrite le_bytes_length). done.
Qed.

Lemma window_skip (base x : Z) (code l rest : list Z) : window base code x = l ++ rest -> rest <> [] ->
  window base code (x + Z.of_nat (length l)) = rest.
Proof.
  intros Hw Hr. destruct l as [|b l]; [by rewrite Z.add_0_r|]. by eapply window_next.
Qed.

(** The literals of an emitted stub are where its loads look for them. *)
Lemma rv_stub_literals (base addr t callee k slot ret : Z) (code gap rest : list Z) (d : data) :
  let lits := rv_literals callee k slot in
  Z.of_nat (length gap) = lits - 20 - 4 * Z.of_nat (length (rv_tail_words callee k slot)) ->
  window base code addr = (words_bytes (rv_head_words callee (riscv_ld 5 5 lits) (riscv_ld 7 7 (lits - 4)) ++
    rv_tail_words callee k slot) ++ gap ++ le_bytes 8 t ++ le_bytes 8 ret) ++ rest ->
  code_visible base code d -> in_width 64 t -> in_width 64 ret -> 0 <= addr -> addr + lits + 16 <= 2 ^ 64 ->
  20 <= lits < 2 ^ 11 /\ mem_load (mem d) (addr + lits) = t /\ mem_load (mem d) (addr + lits + 8) = ret.
Proof.
  intros lits Hg Hw Hv Ht Hr Ha Hhi. pose proof (rv_tail_length callee k slot).
  assert (20 <= lits < 2 ^ 11) as Hl by (subst lits; unfold rv_literals; div_lia).
  rewrite <- !app_assoc, (app_assoc (words_bytes _) gap) in Hw.
  apply window_skip in Hw; [|done].
  rewrite length_app, words_bytes_length, length_app in Hw. cbn [length rv_head_words] in Hw.
  replace (addr + Z.of_nat (4 * (5 + length (rv_tail_words callee k slot)) + length gap)) with (addr + lits) in Hw by lia.
  split; [done|]. split.
  - by eapply visible_literal; [done|exact Hw|done|lia|lia].
  - pose proof (window_skip _ _ _ _ _ Hw ltac:(done)) as Hw2. rewrite le_bytes_length in Hw2.
    by eapply visible_literal; [done|exact Hw2|done|lia|lia].
Qed.

Lemma rv_return_runs (base : Z) (code : list Z) (callee k ret : Z) (d d2 : data) (rest : list Z) :
  let s9 := is_stack9_x86 callee k in
  let sp := gpr d 2 - a64_frame s9 in
  at_code base code 4 ret (block_bytes (rv_unpack_block s9 (is_shuffled callee k) (is_u32_f32 k)) ++ rv_ret_insn.2 ++ rest) ->
  caller_ok 2 d -> gpr d 1 mod 2 = 0 -> gpr d2 2 = sp ->
  mem_load (mem d2) (sp + (if s9 then 24 else 8)) = gpr d 1 -> exists d3,
    rv_runs base code (ret, d2) (gpr d 1, d3) /\
    fpr d3 10 = rv_result_fa0 (is_shuffled callee k) (is_u32_f32 k) (gpr d2 10) (fpr d2 10) /\
    (forall r, r <> 10 -> fpr d3 r = fpr d2 r) /\
    returned_to 2 10 (gpr d 2) (rv_result_a0 (is_shuffled callee k) (is_u32_f32 k) (gpr d2 10)) [1; 2; 10; 28] d2 d3.
Proof.
  intros s9 sp Hat (Hlo & Hhi & Hreg) Heven Hsp Hlink.
  destruct (rv_unpack_run s9 (is_shuffled callee k) (is_u32_f32 k) d2 (gpr d 1))
    as (d3 & R3 & G3 & L3 & S3 & X3 & F3 & F3' & M3 & Sg3 & B3);
    [rewrite Hsp; subst sp; unfold a64_frame in *; destruct s9; lia..|by rewrite Hsp|].
  destruct (block_runs base code 4 ltac:(lia) _ _ (rv_unpack_encodes _ _ _) ret d2 d3 Hat (R3 ret)) as [Runs3 Hat3].
  exists d3. split; [|split; [done|split; [done|]]].
  - etransitivity; [exact Runs3|]. eapply jump_runs; [|exact Hat3|].
    + apply rv_encodes. reflexivity.
    + cbn [exec rv_isa rv_exec1 fst rv_ret_insn]. unfold rv_set, rv_get. cbn [Z.eqb].
      rewrite L3, Z.add_0_r, wrap_small by apply Hreg. by rewrite Heven, Z.sub_0_r.
  - split_and!; try done. rewrite S3, Hsp. subst sp. lia.
Qed.

(** A RISC-V caller that calls a stub reaches the call instruction of its
    signature slot with the target, its frontend and the return address loaded
    from the literals behind the stub, its own arguments in place (a compact
    structure packed into one register, stack arguments copied to the stack
    pointer), the needed signature set, and memory changed only in the frame of
    the stub; when the callee returns with the stack pointer and the frame as
    they were, the stub splits the result, restores the stack pointer and goes
    back to the caller. *)
Theorem riscv_stub_calls (base : Z) (code stub rest : list Z) (a : poly_cross_stub_arena) (t callee k slot : Z) (d : data) :
  0 <= slot < POLY_ABI_SIGNATURE_SLOT_COUNT -> in_width 64 t ->
  arena_ok a -> mapping a <> None -> offset a mod 8 = 0 -> offset a + 160 <= arena_size a ->
  riscv_stub_code a t callee k slot = Some stub -> window base code (arena_here a) = stub ++ rest ->
  code_visible base code d -> caller_ok 2 d -> gpr d 1 mod 2 = 0 ->
  let addr := arena_here a in
  let s9 := is_stack9_x86 callee k in
  let sp := gpr d 2 - a64_frame s9 in
  let ret := rv_stub_return addr callee k slot in
  exists d1, rv_runs base code (addr, d) (ret - 4, d1) /\
    decode (ret - 4) (window base code (ret - 4)) = Some (RV_CTRL (32 + slot), 4%nat) /\
    rv_call_regs t callee k ret d d1 /\
    entered_from POLY_ARCH_RISCV callee k slot 2 1 (a64_frame s9) [2; 5; 6; 7; 10; 11; 28; 29] d d1 /\
    stack_arguments s9 sp (gpr d 16) (gpr d 17) (mem_load (mem d) (gpr d 2)) d1 /\
    forall d2, gpr d2 2 = sp -> mem_load (mem d2) (sp + (if s9 then 24 else 8)) = gpr d 1 -> exists d3,
      rv_runs base code (ret, d2) (gpr d 1, d3) /\
      fpr d3 10 = rv_result_fa0 (is_shuffled callee k) (is_u32_f32 k) (gpr d2 10) (fpr d2 10) /\
      (forall r, r <> 10 -> fpr d3 r = fpr d2 r) /\
      returned_to 2 10 (gpr d 2) (rv_result_a0 (is_shuffled callee k) (is_u32_f32 k) (gpr d2 10)) [1; 2; 10; 28] d2 d3.
Proof.
  intros Hs Ht Ha Hm H8 Hroom Hstub Hw Hvis Hok Heven addr s9 sp ret. pose proof Hok as (Hlo & Hhi & Hreg).
  destruct (mapping a) as [m|] eqn:Em; [|done]. pose proof (arena_ok_here a m Ha Em) as Hhere. fold addr in Hhere.
  unfold arena_ok in Ha. rewrite Em in Ha. destruct Ha as (Hm0 & Hpage & Hmax & Hsz & Hoff).
  unfold PROCESS_CROSS_STUB_BYTES in *. assert (arena_addr a = m) as Em' by (unfold arena_addr; by rewrite Em).
  destruct (riscv_stub_code_words a t callee k slot) as (gap & Hg & Hcode);
    [done|lia|done|lia|rewrite Em'; unfold in_width; lia|lia|]. rewrite Em', <- Hhere in Hcode. fold ret in Hcode.
  rewrite Hcode in Hstub. apply (inj Some) in Hstub. subst stub.
  pose proof (rv_args_length callee k slot). pose proof (rv_tail_length callee k slot).
  assert (in_width 64 ret) as Hret by (unfold in_width, ret, rv_stub_return; lia).
  set (lits := rv_literals callee k slot) in *.
  assert (lits <= 24 + 4 * Z.of_nat (length (rv_tail_words callee k slot))) as Hlit by (subst lits; unfold rv_literals; div_lia).
  destruct (rv_stub_literals base addr t callee k slot ret code gap rest d Hg Hw Hvis Ht Hret) as (Hl & L1 & L2); [lia..|].
  destruct (rv_call_run addr t callee k slot lits ret d Hs ltac:(lia) ltac:(lia) ltac:(lia) L1 L2 Hok) as (d1 & R1 & C1 & E1 & A1).
  unfold rv_tail_words in Hw. rewrite <- app_assoc, rv_stub_blocks in Hw. fold s9 in Hw.
  assert (addr mod 4 = 0) as Ha4 by (rewrite Hhere; clear -Hpage H8; div_lia).
  destruct (block_runs base code 4 ltac:(lia) (rv_call_block callee k slot lits) _
    (rv_call_block_encodes callee k slot lits Hs ltac:(lia)) addr d d1 (conj Ha4 Hw) R1) as [Runs1 [Hm1 Hw1]].
  assert (addr + Z.of_nat (length (block_bytes (rv_call_block callee k slot lits))) = ret - 4) as Hpc.
  { rewrite rv_call_block_bytes, words_bytes_length, length_app. unfold ret, rv_stub_return. cbn [length rv_head_words]. lia. }
  rewrite Hpc in *. pose proof (rv_encodes (riscv_pcall_sig_imm slot) _ (riscv_pcall_sig_imm_decode slot Hs)) as He.
  pose proof (at_code_next base code 4 ltac:(lia) (ret - 4) _ _ He (conj Hm1 Hw1)) as Hat.
  cbn [snd] in Hat. rewrite le_bytes_length in Hat. replace (ret - 4 + Z.of_nat 4) with ret in Hat by lia.
  exists d1. split; [done|]. split; [rewrite Hw1; destruct He as (_ & _ & Hd); by apply Hd|].
  split; [done|]. split; [done|]. split; [done|]. intros d2 Hsp Hlink.
  by eapply (rv_return_runs base code callee k ret d d2); [exact Hat|..].
Qed.

(** ** Compact structures of a RISC-V caller *)

(** Two 32-bit members in one register. *)
Definition pair32 (low high : Z) : Z := low + high * 2 ^ 32.

(** A 32-bit unsigned argument as the RISC-V calling convention passes it. *)
Definition rv_u32 (u : Z) : Z := if u <? 2 ^ 31 then u else pair32 u (2 ^ 32 - 1).

Lemma u64_signed32 (f : Z) : 0 <= f < 2 ^ 32 -> u64 (signed 32 f) = rv_u32 f.
Proof.
  intros Hf. unfold signed, rv_u32, pair32. rewrite (wrap_small 32) by done. change (32 - 1) with 31.
  destruct (Z.ltb_spec f (2 ^ 31)); [apply wrap_small; unfold in_width; lia|].
  replace (f - 2 ^ 32) with (f + (2 ^ 32 - 1) * 2 ^ 32 + -1 * 2 ^ 64) by lia.
  rewrite wrap_add_multiple. apply wrap_small. unfold in_width. lia.
Qed.

Lemma pair32_lor (low high : Z) : 0 <= low < 2 ^ 32 -> 0 <= high -> Z.shiftl high 32 lor low = pair32 low high.
Proof. intros. rewrite <- add_lor_low by lia. unfold pair32. by rewrite Z.shiftl_mul_pow2. Qed.

Lemma shl32_wrap (x : Z) : 0 <= x -> u64 (Z.shiftl x 32) = Z.shiftl (x mod 2 ^ 32) 32.
Proof. intros. rewrite !Z.shiftl_mul_pow2 by lia. apply wrap_shift32. Qed.

Lemma lor_rv_u32 (a b : Z) : 0 <= a < 2 ^ 32 -> 0 <= b < 2 ^ 32 ->
  Z.shiftl a 32 lor rv_u32 b = if b <? 2 ^ 31 then pair32 b a else pair32 b (2 ^ 32 - 1).
Proof.
  intros Ha Hb. unfold rv_u32. destruct (b <? 2 ^ 31); [apply pair32_lor; lia|].
  rewrite <- !pair32_lor by lia. rewrite Z.lor_assoc, <- Z.shiftl_lor. do 2 f_equal.
  change (2 ^ 32 - 1) with (Z.ones 32). apply Z.bits_inj'. intros n Hn. rewrite Z.lor_spec.
  destruct (Z.ltb_spec n 32); [by rewrite Z.ones_spec_low, orb_true_r by lia|].
  rewrite Z.ones_spec_high, orb_false_r by lia. rewrite <- (Z.mod_small a (2 ^ 32)) by lia.
  by apply Z.mod_pow2_bits_high.
Qed.

(** What the packing code leaves in the argument register. *)
Lemma packing_runs (base : Z) (code rest : list Z) (pc k : Z) (d : data) :
  k = POLY_PROCESS_BRIDGE_COMPACT_U32_F32 \/ k = POLY_PROCESS_BRIDGE_COMPACT_F32_U32 ->
  pc mod 4 = 0 -> window base code pc = emit_process_riscv_compact_pre_pcall [] k ++ rest -> exists d',
  rv_runs base code (pc, d) (pc + 12, d') /\ gpr d' 10 = rv_packed_a0 true (is_u32_f32 k) (gpr d 10) (fpr d 10).
Proof.
  intros Hk Hpc Hw. unfold emit_process_riscv_compact_pre_pcall in Hw. destruct d as [g f m zf fs tp sg ns].
  destruct Hk as [-> | ->]; cbn [Z.eqb Pos.eqb POLY_PROCESS_BRIDGE_COMPACT_U32_F32 POLY_PROCESS_BRIDGE_COMPACT_F32_U32] in Hw;
    rewrite !emit_u32_le, <- !app_assoc in Hw; cbn [app] in Hw.
  - set (l := assemble [(RV_FMV_X_W 28 10, riscv_fmv_x_w 28 10); (RV_SLLI 28 28 32, riscv_slli 28 28 32);
                        (RV_OR 10 10 28, riscv_or 10 10 28)]).
    eexists. split.
    + eapply (block_runs base code 4 ltac:(lia) l rest);
        [subst l; cbn [assemble fmap list_fmap]; encode_words ltac:(apply rv_encodes; reflexivity)|split; [done|exact Hw]|].
      subst l. eval_block. reflexivity.
    + cbn [gpr]. by read_regs.
  - set (l := assemble [(RV_FMV_X_W 28 10, riscv_fmv_x_w 28 10); (RV_SLLI 10 10 32, riscv_slli 10 10 32);
                        (RV_OR 10 10 28, riscv_or 10 10 28)]).
    eexists. split.
    + eapply (block_runs base code 4 ltac:(lia) l rest);
        [subst l; cbn [assemble fmap list_fmap]; encode_words ltac:(apply rv_encodes; reflexivity)|split; [done|exact Hw]|].
      subst l. eval_block. reflexivity.
    + cbn [gpr]. by read_regs.
Qed.

(** The packing code of a RISC-V caller loses a member of a compact
    structure when the other one is negative.  A structure of a float and an
    integer is packed rightly when the sign bit of the float is clear;
    otherwise [fmv.x.w] fills the upper half and the integer reads as all ones.
    A structure of an integer and a float is packed rightly when the integer is
    below 2^31; above, the integer arrives sign-extended, as the calling
    convention requires, and the float reads as all ones. *)
Theorem riscv_compact_packing (base : Z) (code rest : list Z) (pc k u f : Z) (d : data) :
  pc mod 4 = 0 -> window base code pc = emit_process_riscv_compact_pre_pcall [] k ++ rest ->
  0 <= u < 2 ^ 32 -> 0 <= f < 2 ^ 32 -> gpr d 10 = rv_u32 u -> fpr d 10 mod 2 ^ 32 = f ->
  k = POLY_PROCESS_BRIDGE_COMPACT_F32_U32 \/ k = POLY_PROCESS_BRIDGE_COMPACT_U32_F32 ->
  exists d', rv_runs base code (pc, d) (pc + 12, d') /\
  gpr d' 10 =
    if k =? POLY_PROCESS_BRIDGE_COMPACT_F32_U32
    then (if f <? 2 ^ 31 then pair32 f u else pair32 f (2 ^ 32 - 1))
    else (if u <? 2 ^ 31 then pair32 u f else pair32 u (2 ^ 32 - 1)).
Proof.
  intros Hpc Hw Hu Hf Hx Hy Hk.
  destruct (packing_runs base code rest pc k d ltac:(tauto) Hpc Hw) as (d' & Hr & Hv). exists d'. split; [done|].
  rewrite Hv, Hx. unfold rv_packed_a0. rewrite (signed_mod (fpr d 10)), Hy, u64_signed32 by done.
  assert (forall x, 0 <= x < 2 ^ 32 -> u64 (Z.shiftl (rv_u32 x) 32) = Z.shiftl x 32) as Hshl.
  { intros x Hx'. unfold rv_u32, pair32. destruct (x <? 2 ^ 31); rewrite shl32_wrap by lia; f_equal;
      rewrite ?Z_mod_plus_full; by apply Z.mod_small. }
  rewrite !Hshl by done.
  destruct Hk as [-> | ->]; cbn [is_u32_f32 Z.eqb Pos.eqb POLY_PROCESS_BRIDGE_COMPACT_U32_F32
    POLY_PROCESS_BRIDGE_COMPACT_F32_U32]; [|rewrite Z.lor_comm]; by apply lor_rv_u32.
Qed.

(** ** Concrete stubs *)

Definition sample_regs : data :=
  Data (fun r => if (r =? 31) || (r =? 2) then 0x7ffe0000 else 64 + 4 * (r mod 32)) (fun r => r) (fun _ => 0) false 0 0
    (fun _ => 0) 0.

Lemma sample_regs_ok (sp : Z) : sp = 31 \/ sp = 2 -> caller_ok sp sample_regs.
Proof.
  intros Hsp. unfold caller_ok, sample_regs. cbn [gpr]. split_and!; [by destruct Hsp as [-> | ->]..|].
  intros r. unfold in_width. pose proof (Z.mod_pos_bound r 32 ltac:(lia)). destruct (_ || _); lia.
Qed.

(** An AArch64 caller, an x86 callee and nine words of arguments. *)
Definition sample_a64_stub : list Z :=
  default [] (aarch64_stub_code 4096 0x401000 POLY_ARCH_X86 POLY_PROCESS_BRIDGE_U64_STACK9 3).

Lemma aarch64_stub_calls_witness :
  exists d1, a64_runs 4096 sample_a64_stub (4096, sample_regs) (4096 + 68, d1) /\
    gpr d1 16 = 0x401000 /\ gpr d1 17 = POLY_ARCH_X86 /\ mem_load (mem d1) (gpr sample_regs 31 - 48) = gpr sample_regs 6.
Proof.
  destruct (aarch64_stub_calls 4096 sample_a64_stub sample_a64_stub [] 4096 0x401000 POLY_ARCH_X86
    POLY_PROCESS_BRIDGE_U64_STACK9 3 sample_regs) as (d1 & R & _ & [C1 C2 _ _ _ _ _ _] & _ & [A1 _] & _).
  - by compute.
  - by compute.
  - lia.
  - reflexivity.
  - lia.
  - vm_compute. reflexivity.
  - rewrite app_nil_r. apply window_start.
  - apply sample_regs_ok. tauto.
  - exists d1. split_and!; [exact R|exact C1|exact C2|exact A1].
Defined.

(** A RISC-V caller and an AArch64 callee. *)
Definition sample_arena : poly_cross_stub_arena := MkArena (Some 0x10000) fresh_bytes 0.
Definition sample_rv_stub : list Z :=
  default [] (riscv_stub_code sample_arena 0x401000 POLY_ARCH_AARCH64 POLY_PROCESS_BRIDGE_DEFAULT 3).
Definition sample_rv_regs : data :=
  set_mem sample_regs (fun a => if (0x10000 <=? a) && (a <? 0x10000 + Z.of_nat (length sample_rv_stub))
                                then sample_rv_stub !!! Z.to_nat (a - 0x10000) else 0).

Lemma sample_arena_ok : arena_ok sample_arena.
Proof. unfold arena_ok. cbn [mapping sample_arena]. split_and!; [done..|exact fresh_bytes_length|done|done]. Qed.

Lemma sample_rv_stub_code :
  riscv_stub_code sample_arena 0x401000 POLY_ARCH_AARCH64 POLY_PROCESS_BRIDGE_DEFAULT 3 = Some sample_rv_stub.
Proof. vm_compute. reflexivity. Qed.

Lemma sample_rv_visible : code_visible 0x10000 sample_rv_stub sample_rv_regs.
Proof.
  intros i b Hi. pose proof (lookup_lt_Some _ _ _ Hi). unfold sample_rv_regs, set_mem. cbn [mem].
  replace (0x10000 <=? 0x10000 + Z.of_nat i) with true by lia.
  replace (0x10000 + Z.of_nat i <? _) with true by lia. cbn [andb].
  replace (Z.to_nat _) with i by lia. by apply list_lookup_total_correct.
Qed.

Lemma riscv_stub_calls_witness :
  exists d1 ret, rv_runs 0x10000 sample_rv_stub (0x10000, sample_rv_regs) (ret - 4, d1) /\
    gpr d1 5 = 0x401000 /\ gpr d1 6 = POLY_ARCH_AARCH64 /\ gpr d1 7 = ret.
Proof.
  destruct (riscv_stub_calls 0x10000 sample_rv_stub sample_rv_stub [] sample_arena 0x401000 POLY_ARCH_AARCH64
    POLY_PROCESS_BRIDGE_DEFAULT 3 sample_rv_regs) as (d1 & R & _ & [C1 C2 C3 _ _ _] & _).
  - by compute.
  - by compute.
  - exact sample_arena_ok.
  - done.
  - reflexivity.
  - unfold arena_size. cbn [bytes sample_arena]. rewrite fresh_bytes_length. by compute.
  - exact sample_rv_stub_code.
  - rewrite app_nil_r. apply window_start.
  - exact sample_rv_visible.
  - apply (sample_regs_ok 2). tauto.
  - reflexivity.
  - exists d1, (rv_stub_return (arena_here sample_arena) POLY_ARCH_AARCH64 POLY_PROCESS_BRIDGE_DEFAULT 3).
    split_and!; [exact R|exact C1|exact C2|exact C3].
Defined.

(** The structure {-0.0f, 7} of a RISC-V caller. *)
Definition sample_compact_regs : data :=
  Data (fun _ => 7) (fun _ => 0x80000000) (fun _ => 0) false 0 0 (fun _ => 0) 0.

Lemma riscv_compact_packing_witness :
  exists d', rv_runs 0 (emit_process_riscv_compact_pre_pcall [] POLY_PROCESS_BRIDGE_COMPACT_F32_U32)
    (0, sample_compact_regs) (12, d') /\ gpr d' 10 = 0xffffffff80000000.
Proof.
  destruct (riscv_compact_packing 0 (emit_process_riscv_compact_pre_pcall [] POLY_PROCESS_BRIDGE_COMPACT_F32_U32) [] 0
    POLY_PROCESS_BRIDGE_COMPACT_F32_U32 7 0x80000000 sample_compact_regs) as (d' & R & V).
  - reflexivity.
  - rewrite app_nil_r. apply window_start.
  - lia.
  - lia.
  - reflexivity.
  - reflexivity.
  - tauto.
  - exists d'. split; [exact R|exact V].
Defined.
