(* ===== verification/CrossStubX86.v ===== *)
(** The call stubs of an x86 caller
    ([tools/runtime/polyexec.c]), run on the machine of [StubMachine]. *)

From stdpp Require Import relations.
From S2P Require Import Prelude AbiType AbiCursor AbiDescriptor LoaderBase BridgeSpec ElfImage CodeEmit Trampoline CrossStub StubMachine CrossStubRun.

#[local] Opaque wrap mem_load mem_store set_reg.

(** ** Encodings *)

(** Instructions with constant bytes are decoded by evaluation. *)
Ltac x86_const := split_and!; [discriminate | reflexivity | intros a rest _; reflexivity].

Ltac x86_consts := repeat (apply Forall_cons_2; [x86_const|]); apply Forall_nil_2.

Definition movabs_insn (prefix : list Z) (r v : Z) : x86_insn * list Z := (X_MOV_IMM r v, prefix ++ le_bytes 8 v).
Definition movimm_insn (prefix : list Z) (r v : Z) : x86_insn * list Z := (X_MOV_IMM r v, prefix ++ le_bytes 4 v).

Lemma eight_bytes (v : Z) : in_width 64 v -> exists b0 b1 b2 b3 b4 b5 b6 b7,
  le_bytes 8 v = [b0; b1; b2; b3; b4; b5; b6; b7] /\ le_value [b0; b1; b2; b3; b4; b5; b6; b7] = v.
Proof.
  intros Hv. pose proof (le_value_bytes 8 v) as H. rewrite wrap_small in H by done.
  cbn [le_bytes] in *. by do 8 eexists.
Qed.

Lemma four_bytes (v : Z) : in_width 32 v -> exists b0 b1 b2 b3,
  le_bytes 4 v = [b0; b1; b2; b3] /\ le_value [b0; b1; b2; b3] = v.
Proof.
  intros Hv. pose proof (le_value_bytes 4 v) as H. rewrite wrap_small in H by done.
  cbn [le_bytes] in *. by do 4 eexists.
Qed.

(** Constants loaded into a register. *)
Ltac x86_imm64 H :=
  let E := fresh in let V := fresh in
  destruct (eight_bytes _ H) as (? & ? & ? & ? & ? & ? & ? & ? & E & V); unfold movabs_insn; rewrite E, <- V; x86_const.
Ltac x86_imm32 H :=
  let E := fresh in let V := fresh in
  destruct (four_bytes _ H) as (? & ? & ? & ? & E & V); unfold movimm_insn; rewrite E, <- V; x86_const.

Lemma movabs_rax_encodes (v : Z) : in_width 64 v -> encodes 1 (movabs_insn [0x48; 0xb8] RAX v).
Proof. intros H. x86_imm64 H. Qed.
Lemma movabs_rdx_encodes (v : Z) : in_width 64 v -> encodes 1 (movabs_insn [0x48; 0xba] RDX v).
Proof. intros H. x86_imm64 H. Qed.
Lemma movabs_rbx_encodes (v : Z) : in_width 64 v -> encodes 1 (movabs_insn [0x48; 0xbb] RBX v).
Proof. intros H. x86_imm64 H. Qed.
Lemma movabs_r11_encodes (v : Z) : in_width 64 v -> encodes 1 (movabs_insn [0x49; 0xbb] R11 v).
Proof. intros H. x86_imm64 H. Qed.
Lemma mov_eax_encodes (v : Z) : in_width 32 v -> encodes 1 (movimm_insn [0xb8] RAX v).
Proof. intros H. x86_imm32 H. Qed.
Lemma mov_edi_encodes (v : Z) : in_width 32 v -> encodes 1 (movimm_insn [0xbf] RDI v).
Proof. intros H. x86_imm32 H. Qed.
Lemma mov_r15d_encodes (v : Z) : in_width 32 v -> encodes 1 (movimm_insn [0x41; 0xbf] R15 v).
Proof. intros H. x86_imm32 H. Qed.

(** Removes the wrap-around of addresses that stay in range, inner ones first. *)
Ltac norm_wraps :=
  repeat match goal with
  | |- context [wrap 64 ?e] =>
      lazymatch e with context [wrap _ _] => fail | _ => rewrite (wrap_small 64 e) by (unfold in_width; lia) end
  end.

(** Adds up the constants of an address. *)
Ltac norm_addr :=
  repeat match goal with
  | |- context [?x - Zpos ?a - Zpos ?b] =>
      let c := eval vm_compute in (Zpos a + Zpos b) in replace (x - Zpos a - Zpos b) with (x - c) by lia
  | |- context [?x - Zpos ?a + Zpos ?b] =>
      let c := eval vm_compute in (Zpos a - Zpos b) in
      lazymatch c with
      | 0 => replace (x - Zpos a + Zpos b) with x by lia
      | Zpos _ => replace (x - Zpos a + Zpos b) with (x - c) by lia
      | Zneg ?q => replace (x - Zpos a + Zpos b) with (x + Zpos q) by lia
      end
  end.

(** A register that gets back the value it had. *)
Lemma set_reg_back (f : regfile) (r q : Z) : set_reg f r (f r) q = f q.
Proof. rewrite set_reg_eqb. by destruct (Z.eqb_spec q r) as [->|]. Qed.

(** ** Saving registers *)

Definition x86_frame (s9 : bool) : Z := if s9 then 32 else 24.

Definition x86_push_block (s9 : bool) : list (x86_insn * list Z) :=
  [(X_PUSH RBX, [0x53])] ++ (if s9 then [(X_PUSH R12, [0x41; 0x54])] else []) ++
  [(X_PUSH R15, [0x41; 0x57]); (X_ALU_IMM 5 RSP 8, [0x48; 0x83; 0xec; 0x08]); (X_PUSH RAX, [0x50]); (X_POP RAX, [0x58])].

Lemma x86_push_encodes (s9 : bool) : Forall (encodes 1) (x86_push_block s9).
Proof. destruct s9; cbn [x86_push_block app]; x86_consts. Qed.

(** The registers of an x86 caller, whose return address is at the stack
    pointer and whose stack arguments are above it. *)
Definition x86_caller_ok (d : data) : Prop :=
  2 ^ 15 <= gpr d RSP /\ gpr d RSP + 64 <= 2 ^ 64 /\ forall r, in_width 64 (gpr d r).

(** The registers that the stub saves are in its frame. *)
Definition x86_saved (s9 : bool) (sp rbx r12 r15 : Z) (d : data) : Prop :=
  mem_load (mem d) (sp - 8) = rbx /\
  (if s9 then mem_load (mem d) (sp - 16) = r12 /\ mem_load (mem d) (sp - 24) = r15 else mem_load (mem d) (sp - 16) = r15).

Lemma x86_push_run (s9 : bool) (d : data) : x86_caller_ok d -> exists d',
  (forall pc, run_block pc d (x86_push_block s9) = Some d') /\
  gpr d' RSP = gpr d RSP - x86_frame s9 /\ (forall r, r ∉ [RSP] -> gpr d' r = gpr d r) /\
  fpr d' = fpr d /\ fs_base d' = fs_base d /\ signatures d' = signatures d /\
  mem_outside (gpr d RSP - 40) (gpr d RSP) d d' /\
  x86_saved s9 (gpr d RSP) (gpr d RBX) (gpr d R12) (gpr d R15) d'.
Proof.
  intros (Hlo & Hhi & Hw). destruct d as [g f m zf fs tp sg ns]. unfold RSP, RBX, R12, R15, RAX in *. cbn [gpr] in *.
  unfold x86_push_block; destruct s9; cbn [app]; (eexists; split; [intros pc; eval_block; reflexivity|]);
    cbn [gpr fpr fs_base signatures mem x86_frame]; read_regs; norm_wraps; norm_addr; frame_loads.
  all: split_and!; try done.
  all: try (intros a Ha Hout; cbn [mem]; rewrite !mem_store_outside by (unfold cell; lia); done).
  all: try (unfold x86_saved; cbn [mem]; split_and?; frame_loads; done).
  all: intros r Hr; destruct (Z.eq_dec r 0) as [->|]; by read_regs.
Qed.

(** ** Nine words of arguments *)

(** From the registers of the System V convention to the exchange registers;
    the ninth word goes to a cell below the stack. *)
Definition x86_stack9_block : list (x86_insn * list Z) :=
  [(X_MOV (Reg R12) (Mem RSP 56), [0x4c; 0x8b; 0x64; 0x24; 0x38]);
   (X_LEA R11 RSP (-0x4000), [0x4c; 0x8d; 0x9c; 0x24; 0x00; 0xc0; 0xff; 0xff]);
   (X_ALU_IMM 4 R11 (-16), [0x49; 0x83; 0xe3; 0xf0]); (X_MOV (Mem R11 0) (Reg R12), [0x4d; 0x89; 0x23]);
   (X_MOV (Reg R11) (Reg RCX), [0x49; 0x89; 0xcb]); (X_MOV (Reg R12) (Reg RDX), [0x49; 0x89; 0xd4]);
   (X_MOV (Reg RAX) (Reg RDI), [0x48; 0x89; 0xf8]); (X_MOV (Reg RDX) (Reg RSI), [0x48; 0x89; 0xf2]);
   (X_MOV (Reg RCX) (Reg R12), [0x4c; 0x89; 0xe1]); (X_MOV (Reg RDI) (Reg R11), [0x4c; 0x89; 0xdf]);
   (X_MOV (Reg RSI) (Reg R8), [0x4c; 0x89; 0xc6]); (X_MOV (Reg R8) (Reg R9), [0x4d; 0x89; 0xc8]);
   (X_MOV (Reg R9) (Mem RSP 40), [0x4c; 0x8b; 0x4c; 0x24; 0x28]);
   (X_MOV (Reg R10) (Mem RSP 48), [0x4c; 0x8b; 0x54; 0x24; 0x30])].

Lemma x86_stack9_encodes : Forall (encodes 1) x86_stack9_block.
Proof. unfold x86_stack9_block. x86_consts. Qed.

Lemma x86_stack9_bytes : block_bytes x86_stack9_block = x86_stack9_moves [].
Proof. reflexivity. Qed.

(** The cell of the ninth word. *)
Definition ninth_cell (sp : Z) : Z := (sp - 0x4000) / 16 * 16.

Lemma ninth_cell_mask (sp : Z) : 0x4000 <= sp < 2 ^ 64 -> Z.land (sp - 0x4000) (u64 (-16)) = ninth_cell sp.
Proof.
  intros H. unfold ninth_cell. change (u64 (-16)) with (u64 (Z.lnot (2 ^ 4 - 1))).
  apply (land_mask_u64 (sp - 0x4000) 4); unfold in_width; lia.
Qed.

(** The exchange registers hold the nine words. *)
Record exchanged (d d' : data) (a6 a7 a8 sp : Z) : Prop := {
  ex_rax : gpr d' RAX = gpr d RDI; ex_rdx : gpr d' RDX = gpr d RSI; ex_rcx : gpr d' RCX = gpr d RDX;
  ex_rdi : gpr d' RDI = gpr d RCX; ex_rsi : gpr d' RSI = gpr d R8; ex_r8 : gpr d' R8 = gpr d R9;
  ex_r9 : gpr d' R9 = a6; ex_r10 : gpr d' R10 = a7;
  ex_ninth : mem_load (mem d') (ninth_cell sp) = a8;
}.

Lemma x86_stack9_run (d : data) : 2 ^ 15 - 32 <= gpr d RSP -> gpr d RSP + 96 <= 2 ^ 64 -> exists d',
  (forall pc, run_block pc d x86_stack9_block = Some d') /\
  exchanged d d' (mem_load (mem d) (gpr d RSP + 40)) (mem_load (mem d) (gpr d RSP + 48))
    (mem_load (mem d) (gpr d RSP + 56)) (gpr d RSP) /\
  (forall r, r ∉ [RAX; RCX; RDX; RSI; RDI; R8; R9; R10; R11; R12] -> gpr d' r = gpr d r) /\
  (forall a, 0 <= a < 2 ^ 64 -> gpr d RSP - 0x4000 + 8 <= a -> mem d' a = mem d a) /\
  (forall a, 0 <= a < gpr d RSP - 0x4000 - 16 -> mem d' a = mem d a) /\
  fpr d' = fpr d /\ fs_base d' = fs_base d /\ signatures d' = signatures d.
Proof.
  intros Hlo Hhi. destruct d as [g f m zf fs tp sg ns]. unfold RSP in *. cbn [gpr] in *.
  assert (g 4 - 0x4000 - 16 < ninth_cell (g 4) <= g 4 - 0x4000 /\ 0 <= ninth_cell (g 4)) as Hn
    by (unfold ninth_cell; div_lia).
  unfold x86_stack9_block. eexists. split; [intros pc; eval_block; reflexivity|].
  cbn [gpr fpr mem fs_base signatures]. read_regs.
  change (g 4 + -16384) with (g 4 - 0x4000). norm_wraps. rewrite ninth_cell_mask by lia. rewrite Z.add_0_r. norm_wraps.
  assert (cell (ninth_cell (g 4))) as Hc by (unfold cell; lia).
  split_and!; try done.
  - constructor; cbn [gpr mem]; unfold RAX, RCX, RDX, RSI, RDI, R8, R9, R10; read_regs; try done; norm_wraps.
    all: first [rewrite load_store_other by (unfold cell; lia); done | by rewrite load_store_same by (done || apply mem_load_width)].
  - intros r Hr. unfold RAX, RCX, RDX, RSI, RDI, R8, R9, R10, R11, R12 in Hr. by read_regs.
  - intros a Ha Hout. by rewrite mem_store_outside by (first [exact Hc | lia]).
  - intros a Ha. by rewrite mem_store_outside by (first [exact Hc | lia]).
Qed.

(** ** The signature of an x86 caller *)

Definition x86_signature_block (slot value : Z) : list (x86_insn * list Z) :=
  [(X_PUSH RAX, [0x50]); (X_PUSH RDX, [0x52]); movimm_insn [0xb8] RAX slot; movabs_insn [0x48; 0xba] RDX value;
   (X_CTRL 0x69, [0x0f; 0x3a; 0xfc; 0x69]); (X_POP RDX, [0x5a]); (X_POP RAX, [0x58])].

Lemma x86_signature_encodes (slot value : Z) : in_width 32 slot -> in_width 64 value ->
  Forall (encodes 1) (x86_signature_block slot value).
Proof.
  intros Hs Hv. unfold x86_signature_block. do 2 (apply Forall_cons_2; [x86_const|]).
  apply Forall_cons_2; [by apply mov_eax_encodes|]. apply Forall_cons_2; [by apply movabs_rdx_encodes|]. x86_consts.
Qed.

Lemma x86_signature_run (slot value : Z) (d : data) :
  16 <= gpr d RSP -> gpr d RSP < 2 ^ 64 -> in_width 64 (gpr d RAX) -> in_width 64 (gpr d RDX) -> exists d',
  (forall pc, run_block pc d (x86_signature_block slot value) = Some d') /\
  (forall r, gpr d' r = gpr d r) /\ mem_outside (gpr d RSP - 16) (gpr d RSP) d d' /\
  fpr d' = fpr d /\ fs_base d' = fs_base d /\
  forall s, signatures d' s = if s =? slot then value else signatures d s.
Proof.
  intros Hlo Hhi Ha Hd. destruct d as [g f m zf fs tp sg ns]. unfold RSP, RAX, RDX in *. cbn [gpr] in *.
  unfold x86_signature_block, movimm_insn, movabs_insn. eexists. split; [intros pc; eval_block; reflexivity|].
  cbn [gpr fpr mem fs_base signatures]. read_regs. norm_wraps. norm_addr. frame_loads. split_and!; try done.
  - intros r. destruct (Z.eq_dec r 0) as [->|]; [by read_regs|]. destruct (Z.eq_dec r 2) as [->|]; [by read_regs|].
    destruct (Z.eq_dec r 4) as [->|]; by read_regs.
  - intros a Ha' Hout. cbn [mem]. by rewrite !mem_store_outside by (unfold cell; lia).
Qed.

(** ** Homogeneous aggregates of doubles *)

(** The aggregate comes on the stack and goes to the first vector registers,
    the scalar argument behind them. *)
Definition x86_hfa_load_block (c : nat) : list (x86_insn * list Z) :=
  (X_MOVSD (Reg (Z.of_nat c)) (Reg 0), [0xf2; 0x0f; 0x10; u8 (0xc0 + Z.shiftl (Z.of_nat c) 3)]) ::
  ((fun n => (X_MOVSD (Reg (Z.of_nat n)) (Mem RSP (32 + 8 * Z.of_nat n)),
              [0xf2; 0x0f; 0x10; u8 (0x44 + Z.shiftl (Z.of_nat n) 3); 0x24; u8 (32 + Z.of_nat n * 8)])) <$> seq 0 c).

Definition x86_hfa_store_block (c : nat) : list (x86_insn * list Z) :=
  (fun n => (X_MOVSD (Mem RAX (8 * Z.of_nat n)) (Reg (Z.of_nat n)),
             [0xf2; 0x0f; 0x11; u8 (0x40 + Z.shiftl (Z.of_nat n) 3); u8 (Z.of_nat n * 8)])) <$> seq 0 c.

Lemma x86_hfa_encodes (c : nat) : c = 3%nat \/ c = 4%nat ->
  Forall (encodes 1) (x86_hfa_load_block c) /\ Forall (encodes 1) (x86_hfa_store_block c).
Proof.
  intros [-> | ->]; (split; [unfold x86_hfa_load_block|unfold x86_hfa_store_block]);
    cbn [seq fmap list_fmap]; x86_consts.
Qed.

Lemma x86_hfa_bytes_blocks (c : nat) :
  block_bytes (x86_hfa_load_block c) = emit_x86_load_hfa64_arg_from_stack [] c /\
  block_bytes (x86_hfa_store_block c) = emit_x86_store_hfa64_return_to_sret [] c.
Proof.
  unfold block_bytes, x86_hfa_load_block, x86_hfa_store_block, emit_x86_load_hfa64_arg_from_stack,
    emit_x86_store_hfa64_return_to_sret. cbn [fmap list_fmap snd mjoin list_join app].
  by rewrite <- !list_fmap_compose.
Qed.

(** The vector registers that the callee finds. *)
Definition hfa_loaded (c : nat) (sp : Z) (d d' : data) : Prop :=
  fpr d' (Z.of_nat c) = fpr d 0 /\ (forall n, (n < c)%nat -> fpr d' (Z.of_nat n) = mem_load (mem d) (sp + 8 * Z.of_nat n)) /\
  forall r, Z.of_nat c < r -> fpr d' r = fpr d r.

Lemma x86_hfa_load_run (c : nat) (d : data) : c = 3%nat \/ c = 4%nat ->
  0 <= gpr d RSP -> gpr d RSP + 64 <= 2 ^ 64 -> exists d',
  (forall pc, run_block pc d (x86_hfa_load_block c) = Some d') /\ hfa_loaded c (gpr d RSP + 32) d d' /\
  gpr d' = gpr d /\ mem d' = mem d /\ fs_base d' = fs_base d /\ signatures d' = signatures d.
Proof.
  intros Hc Hlo Hhi. destruct d as [g f m zf fs tp sg ns]. unfold RSP in *. cbn [gpr] in *.
  unfold x86_hfa_load_block, hfa_loaded.
  destruct Hc as [-> | ->]; cbn [seq fmap list_fmap Z.of_nat Pos.of_succ_nat Pos.succ Z.mul Z.add Pos.mul Pos.add];
    (eexists; split; [intros pc; eval_block; reflexivity|]); cbn [gpr fpr mem fs_base signatures].
  all: read_regs; norm_wraps; split_and!; try done.
  all: try (intros r Hr; by read_regs).
  all: intros n Hn; do 4 (destruct n as [|n]; [cbn [Z.of_nat Pos.of_succ_nat Pos.succ]; read_regs; try (f_equal; lia)|]); lia.
Qed.

(** ** The whole stub *)

Definition x86_sret_block : list (x86_insn * list Z) := [(X_MOV (Reg RAX) (Reg RDI), [0x48; 0x89; 0xf8])].

Definition x86_target_block (t ret frontend : Z) : list (x86_insn * list Z) :=
  [movabs_insn [0x48; 0xbb] RBX t; movabs_insn [0x49; 0xbb] R11 ret; movimm_insn [0x41; 0xbf] R15 frontend].

Definition opt {A} (b : bool) (l : list A) : list A := if b then l else [].

Definition x86_call_block (k slot t ret frontend : Z) : list (x86_insn * list Z) :=
  x86_push_block (is_stack9 k) ++ opt (is_stack9 k) x86_stack9_block ++
  opt (process_bridge_is_x86_source_signature k) (x86_signature_block (x86_call_slot k slot) (signature_value k)) ++
  opt (process_bridge_is_aarch64_hfa64_arg k) (x86_hfa_load_block (process_bridge_aarch64_hfa64_arg_count k)) ++
  opt (process_bridge_is_aarch64_hfa64_ret k) x86_sret_block ++ x86_target_block t ret frontend.

Lemma x86_call_block_bytes (k slot t ret frontend : Z) :
  block_bytes (x86_call_block k slot t ret frontend) =
  x86_args_bytes k slot ++ [0x48; 0xbb] ++ le_bytes 8 t ++ [0x49; 0xbb] ++ le_bytes 8 ret ++
  [0x41; 0xbf] ++ le_bytes 4 frontend.
Proof.
  unfold x86_call_block, x86_args_bytes, x86_save_bytes, x86_signature_bytes, x86_hfa_bytes.
  rewrite !block_bytes_app, <- !app_assoc.
  assert (block_bytes (x86_push_block (is_stack9 k)) = [0x53] ++ (if is_stack9 k then [0x41; 0x54] else []) ++
    [0x41; 0x57; 0x48; 0x83; 0xec; 0x08; 0x50; 0x58]) as E1 by (by destruct (is_stack9 k)).
  assert (forall (b : bool) l l', block_bytes l = l' -> block_bytes (@opt (x86_insn * list Z) b l) = if b then l' else []) as E2
    by (by intros [] l l' <-).
  rewrite E1, (E2 _ _ _ x86_stack9_bytes), (E2 _ _ _ (proj1 (x86_hfa_bytes_blocks _))),
    (E2 _ x86_sret_block (emit_x86_preserve_sret_ptr_rax []) eq_refl).
  rewrite (E2 _ _ (emit_x86_abi_signature_set [] (x86_call_slot k slot) (process_bridge_signature_kind k))).
  - rewrite <- !app_assoc. by do 7 f_equal.
  - unfold x86_signature_block, movabs_insn, movimm_insn, block_bytes, emit_x86_abi_signature_set, emit_x86_poly_control.
    rewrite emit_u32_le, emit_u64_le. cbn [fmap list_fmap snd mjoin list_join app].
    unfold signature_value. by rewrite <- !app_assoc.
Qed.

Lemma x86_opt_encodes (b : bool) (l : list (x86_insn * list Z)) :
  (b = true -> Forall (encodes 1) l) -> Forall (encodes 1) (opt b l).
Proof. intros H. destruct b; [by apply H|apply Forall_nil_2]. Qed.

Lemma source_signature_value (k : Z) : process_bridge_is_x86_source_signature k = true -> in_width 64 (signature_value k).
Proof.
  unfold process_bridge_is_x86_source_signature, process_bridge_is_aarch64_hfa32_ret,
    process_bridge_is_aarch64_hfa64_ret, process_bridge_is_aarch64_hfa32_arg, process_bridge_is_fpair,
    process_bridge_is_sret.
  intros Hk. repeat (apply orb_prop in Hk as [Hk|Hk]).
  all: apply Z.eqb_eq in Hk as ->; unfold in_width; split; vm_compute; congruence.
Qed.

Lemma hfa_arg_count (k : Z) : let c := process_bridge_aarch64_hfa64_arg_count k in c = 3%nat \/ c = 4%nat.
Proof. unfold process_bridge_aarch64_hfa64_arg_count. destruct_ifs; auto. Qed.
Lemma hfa_ret_count (k : Z) : let c := process_bridge_aarch64_hfa64_ret_count k in c = 3%nat \/ c = 4%nat.
Proof. unfold process_bridge_aarch64_hfa64_ret_count. destruct_ifs; auto. Qed.

Lemma x86_call_block_encodes (k slot t ret frontend : Z) :
  0 <= slot < POLY_ABI_SIGNATURE_SLOT_COUNT -> in_width 64 t -> in_width 64 ret -> in_width 32 frontend ->
  Forall (encodes 1) (x86_call_block k slot t ret frontend).
Proof.
  unfold POLY_ABI_SIGNATURE_SLOT_COUNT. intros Hs Ht Hr Hf. unfold x86_call_block.
  apply Forall_app_2; [apply x86_push_encodes|].
  apply Forall_app_2; [apply x86_opt_encodes; intros _; apply x86_stack9_encodes|].
  apply Forall_app_2; [apply x86_opt_encodes; intros H; apply x86_signature_encodes; [|by apply source_signature_value]|].
  { unfold x86_call_slot, in_width, POLY_ABI_SIGNATURE_SLOT_EXCHANGE. destruct (is_stack9 k); lia. }
  apply Forall_app_2; [apply x86_opt_encodes; intros _; apply x86_hfa_encodes, hfa_arg_count|].
  apply Forall_app_2; [apply x86_opt_encodes; intros _; unfold x86_sret_block; x86_consts|].
  repeat (apply Forall_cons_2; [first [by apply movabs_rbx_encodes | by apply movabs_r11_encodes | by apply mov_r15d_encodes]|]).
  apply Forall_nil_2.
Qed.

Lemma x86_target_run (t ret frontend : Z) (d : data) : exists d',
  (forall pc, run_block pc d (x86_target_block t ret frontend) = Some d') /\
  gpr d' RBX = t /\ gpr d' R11 = ret /\ gpr d' R15 = frontend /\ same_but [RBX; R11; R15] d d'.
Proof.
  destruct d as [g f m zf fs tp sg ns]. unfold x86_target_block, movabs_insn, movimm_insn.
  eexists. split; [intros pc; eval_block; reflexivity|]. unfold RBX, R11, R15. cbn [gpr]. read_regs.
  split_and!; try done. constructor; try done. intros r Hr. cbn [gpr]. by read_regs.
Qed.

(** *** Up to the call *)

(** The argument registers at the call. *)
Record x86_call_regs (k slot t ret frontend : Z) (d d1 : data) : Prop := {
  xc_target : gpr d1 RBX = t;
  xc_return : gpr d1 R11 = ret;
  xc_frontend : gpr d1 R15 = frontend;
  xc_sp : gpr d1 RSP = gpr d RSP - x86_frame (is_stack9 k);
  xc_nine : is_stack9 k = true ->
    exchanged d d1 (mem_load (mem d) (gpr d RSP + 8)) (mem_load (mem d) (gpr d RSP + 16))
      (mem_load (mem d) (gpr d RSP + 24)) (gpr d RSP - 32) /\ fpr d1 = fpr d;
  xc_regs : is_stack9 k = false ->
    (forall r, r ∉ [RAX; RBX; RSP; R11; R15] -> gpr d1 r = gpr d r) /\
    gpr d1 RAX = (if process_bridge_is_aarch64_hfa64_ret k then gpr d RDI else gpr d RAX);
  xc_hfa : process_bridge_is_aarch64_hfa64_arg k = true ->
    hfa_loaded (process_bridge_aarch64_hfa64_arg_count k) (gpr d RSP + 8) d d1;
  xc_fpr : process_bridge_is_aarch64_hfa64_arg k = false -> fpr d1 = fpr d;
  xc_fs : fs_base d1 = fs_base d;
  xc_signatures : forall s, signatures d1 s =
    if process_bridge_is_x86_source_signature k && (s =? x86_call_slot k slot)
    then signature_value k else signatures d s;
  xc_mem : forall a, 0 <= a < 2 ^ 64 -> gpr d RSP <= a \/ is_stack9 k = false /\ a < gpr d RSP - 40 -> mem d1 a = mem d a;
  xc_saved : x86_saved (is_stack9 k) (gpr d RSP) (gpr d RBX) (gpr d R12) (gpr d R15) d1;
}.

Lemma stack9_no_others (k : Z) : is_stack9 k = true ->
  process_bridge_is_x86_source_signature k = false /\ process_bridge_is_aarch64_hfa64_arg k = false /\
  process_bridge_is_aarch64_hfa64_ret k = false.
Proof. intros H. apply Z.eqb_eq in H as ->. done. Qed.

Lemma x86_nine_run (k slot t ret frontend : Z) (d : data) : is_stack9 k = true -> x86_caller_ok d -> exists d1,
  (forall pc, run_block pc d (x86_call_block k slot t ret frontend) = Some d1) /\
  x86_call_regs k slot t ret frontend d d1.
Proof.
  intros H9 Hok. pose proof Hok as (Hlo & Hhi & Hw). destruct (stack9_no_others k H9) as (Hsg & Ha & Hr).
  destruct (x86_push_run true d Hok) as (d1 & R1 & Sp1 & G1 & F1 & B1 & Sg1 & M1 & (K1 & K2 & K3)). cbn [x86_frame] in *.
  assert (forall b, 0 <= b -> b + 8 <= 2 ^ 64 -> gpr d RSP <= b -> mem_load (mem d1) b = mem_load (mem d) b) as HL.
  { intros b Hb1 Hb2 Hb3. apply mem_load_ext. intros i Hi. rewrite wrap_small by (unfold in_width; lia). apply M1; lia. }
  destruct (x86_stack9_run d1) as (d2 & R2 & X2 & G2 & M2 & M2' & F2 & B2 & Sg2); [lia..|].
  destruct (x86_target_run t ret frontend d2) as (d3 & R3 & E3 & E11 & E15 & [G3 F3 M3 B3 Sg3]).
  rewrite Sp1 in *. replace (gpr d RSP - 32 + 40) with (gpr d RSP + 8) in X2 by lia.
  replace (gpr d RSP - 32 + 48) with (gpr d RSP + 16) in X2 by lia.
  replace (gpr d RSP - 32 + 56) with (gpr d RSP + 24) in X2 by lia. rewrite !HL in X2 by lia.
  assert (forall b v, gpr d RSP - 24 <= b -> b + 8 <= 2 ^ 64 -> mem_load (mem d1) b = v -> mem_load (mem d3) b = v) as HK.
  { intros b v Hb1 Hb2 <-. rewrite M3. apply mem_load_ext. intros i Hi.
    rewrite wrap_small by (unfold in_width; lia). apply M2; lia. }
  exists d3. split.
  - intros pc. unfold x86_call_block. rewrite H9, Hsg, Ha, Hr. cbn [opt app].
    rewrite run_block_app, R1. cbn [mbind option_bind]. rewrite run_block_app, R2. apply R3.
  - assert (fpr d3 = fpr d) as Ff by congruence.
    constructor; rewrite ?H9, ?Hsg, ?Ha, ?Hr; try done.
    + rewrite G3, G2 by (unfold RBX, RSP, R11, R15, RAX, RCX, RDX, RSI, RDI, R8, R9, R10, R12; not_in). done.
    + intros _. split; [|done]. destruct X2 as [? ? ? ? ? ? ? ? X9].
      constructor; rewrite ?M3; try done; unfold RAX, RCX, RDX, RSI, RDI, R8, R9, R10, RBX, R11, R15, RSP in *;
        rewrite G3 by not_in; rewrite ?G1 in * by not_in; done.
    + congruence.
    + intros s. rewrite Sg3, Sg2, Sg1. done.
    + intros a Ha' [Hout|[? _]]; [|done]. rewrite M3, M2, M1 by lia. done.
    + split; [|split]; apply HK; (done || lia).
Qed.

Lemma mem_outside_load (lo hi b : Z) (d d' : data) : mem_outside lo hi d d' -> 0 <= b -> b + 8 <= 2 ^ 64 ->
  hi <= b \/ b + 8 <= lo -> mem_load (mem d') b = mem_load (mem d) b.
Proof.
  intros M Hb1 Hb2 Hd. apply mem_load_ext. intros i Hi. rewrite wrap_small by (unfold in_width; lia). apply M; lia.
Qed.

(** The optional parts. *)
Lemma x86_opt_signature_run (k slot : Z) (d : data) :
  16 <= gpr d RSP -> gpr d RSP < 2 ^ 64 -> in_width 64 (gpr d RAX) -> in_width 64 (gpr d RDX) ->
  let b := process_bridge_is_x86_source_signature k in
  exists d', (forall pc, run_block pc d (opt b (x86_signature_block slot (signature_value k))) = Some d') /\
  (forall r, gpr d' r = gpr d r) /\ mem_outside (gpr d RSP - 16) (gpr d RSP) d d' /\
  fpr d' = fpr d /\ fs_base d' = fs_base d /\
  forall s, signatures d' s = if b && (s =? slot) then signature_value k else signatures d s.
Proof.
  intros H1 H2 H3 H4 b. subst b. destruct (process_bridge_is_x86_source_signature k).
  - by apply x86_signature_run.
  - exists d. by split_and!.
Qed.

Lemma x86_opt_hfa_run (k : Z) (d : data) : 0 <= gpr d RSP -> gpr d RSP + 64 <= 2 ^ 64 ->
  let b := process_bridge_is_aarch64_hfa64_arg k in
  let c := process_bridge_aarch64_hfa64_arg_count k in
  exists d', (forall pc, run_block pc d (opt b (x86_hfa_load_block c)) = Some d') /\
  (b = true -> hfa_loaded c (gpr d RSP + 32) d d') /\ (b = false -> fpr d' = fpr d) /\
  gpr d' = gpr d /\ mem d' = mem d /\ fs_base d' = fs_base d /\ signatures d' = signatures d.
Proof.
  intros H1 H2 b c. subst b. destruct (process_bridge_is_aarch64_hfa64_arg k); [|exists d; by split_and!].
  destruct (x86_hfa_load_run c d (hfa_arg_count k) H1 H2) as (d' & ? & ? & ? & ? & ? & ?). by exists d'.
Qed.

Lemma x86_opt_sret_run (b : bool) (d : data) : exists d',
  (forall pc, run_block pc d (opt b x86_sret_block) = Some d') /\
  gpr d' RAX = (if b then gpr d RDI else gpr d RAX) /\ same_but [RAX] d d'.
Proof.
  destruct b; [|exists d; by split_and!; [| |apply same_but_refl]].
  destruct d as [g f m zf fs tp sg ns]. unfold x86_sret_block.
  eexists. split; [intros pc; eval_block; reflexivity|]. unfold RAX, RDI. cbn [gpr]. read_regs. split; [done|].
  constructor; try done. intros r Hr. cbn [gpr]. by read_regs.
Qed.

Lemma x86_plain_run (k slot t ret frontend : Z) (d : data) : is_stack9 k = false -> x86_caller_ok d -> exists d1,
  (forall pc, run_block pc d (x86_call_block k slot t ret frontend) = Some d1) /\
  x86_call_regs k slot t ret frontend d d1.
Proof.
  intros H9 Hok. pose proof Hok as (Hlo & Hhi & Hw).
  destruct (x86_push_run false d Hok) as (d1 & R1 & Sp1 & G1 & F1 & B1 & Sg1 & M1 & (K1 & K2)). cbn [x86_frame] in *.
  destruct (x86_opt_signature_run k (x86_call_slot k slot) d1) as (d2 & R2 & G2 & M2 & F2 & B2 & Sg2);
    [lia|lia|rewrite G1; [done|unfold RAX, RDX, RSP; not_in]..|].
  destruct (x86_opt_hfa_run k d2) as (d3 & R3 & L3 & F3 & G3 & M3 & B3 & Sg3); [rewrite G2; lia..|].
  destruct (x86_opt_sret_run (process_bridge_is_aarch64_hfa64_ret k) d3) as (d4 & R4 & X4 & [G4 F4 M4 B4 Sg4]).
  destruct (x86_target_run t ret frontend d4) as (d5 & R5 & E3 & E11 & E15 & [G5 F5 M5 B5 Sg5]).
  exists d5. assert (mem d5 = mem d2) as M25 by congruence. assert (fpr d5 = fpr d3) as F35 by congruence.
  rewrite G2, Sp1 in *. unfold RAX, RBX, RSP, R11, R15, RDI, RDX in *. split.
  - intros pc. unfold x86_call_block. rewrite H9. change (opt false x86_stack9_block) with (@nil (x86_insn * list Z)).
    cbn [app]. rewrite run_block_app, R1. cbn [mbind option_bind]. rewrite run_block_app, R2. cbn [mbind option_bind].
    rewrite run_block_app, R3. cbn [mbind option_bind]. rewrite run_block_app, R4. apply R5.
  - constructor; rewrite ?H9; unfold RAX, RBX, RSP, R11, R15, RDI in *; try done.
    + by rewrite G5, G4, G3, G2 by not_in.
    + intros _. split.
      * intros r Hr. by rewrite G5, G4, G3, G2, G1 by (intros Hin; apply Hr; revert Hin; rewrite !elem_of_cons; tauto).
      * rewrite G5, X4, G3, !G2, !G1 by not_in. done.
    + intros E. destruct (L3 E) as (LA & LB & LC). rewrite F2, F1 in LA. unfold hfa_loaded. rewrite F35.
      split_and!; [done| |by intros r Hr; rewrite LC, F2, F1].
      intros n Hn. assert (n < 4)%nat by (destruct (hfa_arg_count k); lia). rewrite LB by done.
      rewrite (mem_outside_load _ _ _ _ _ M2), (mem_outside_load _ _ _ _ _ M1) by lia. f_equal. lia.
    + intros E. by rewrite F35, F3, F2, F1.
    + congruence.
    + intros s. by rewrite Sg5, Sg4, Sg3, Sg2, Sg1.
    + intros a Ha Hout. rewrite M25, (M2 a), (M1 a) by lia. done.
    + split; rewrite M25, (mem_outside_load _ _ _ _ _ M2) by lia; done.
Qed.

(** *** Behind the call *)

Definition x86_restore_block (s9 : bool) : list (x86_insn * list Z) :=
  [(X_ALU_IMM 0 RSP 8, [0x48; 0x83; 0xc4; 0x08]); (X_POP R15, [0x41; 0x5f])] ++
  opt s9 [(X_POP R12, [0x41; 0x5c])] ++ [(X_POP RBX, [0x5b])].

Definition x86_ret_insn : x86_insn * list Z := (X_RET, [0xc3]).

Lemma x86_restore_encodes (s9 : bool) : Forall (encodes 1) (x86_restore_block s9).
Proof. destruct s9; cbn [x86_restore_block app opt]; x86_consts. Qed.

Lemma x86_restore_run (s9 : bool) (sp rbx r12 r15 : Z) (d : data) :
  40 <= sp -> sp + 8 <= 2 ^ 64 -> gpr d RSP = sp - x86_frame s9 -> x86_saved s9 sp rbx r12 r15 d -> exists d',
  (forall pc, run_block pc d (x86_restore_block s9) = Some d') /\
  gpr d' RSP = sp /\ gpr d' RBX = rbx /\ gpr d' R15 = r15 /\ (s9 = true -> gpr d' R12 = r12) /\
  same_but (opt s9 [R12] ++ [RSP; RBX; R15]) d d'.
Proof.
  intros Hlo Hhi Hsp Hsv. destruct d as [g f m zf fs tp sg ns]. unfold x86_saved in Hsv.
  unfold RSP, RBX, R12, R15 in *. cbn [gpr mem] in *. unfold x86_restore_block.
  destruct s9; cbn [opt app x86_frame] in *; (eexists; split; [intros pc; eval_block; reflexivity|]);
    unfold RSP, RBX, R12, R15; cbn [gpr mem]; read_regs; rewrite Hsp; norm_wraps; norm_addr; norm_wraps; norm_addr.
  - destruct Hsv as (H1 & H2 & H3). split_and!; try done. constructor; try done. intros r Hr. cbn [gpr]. by read_regs.
  - destruct Hsv as (H1 & H2). split_and!; try done. constructor; try done. intros r Hr. cbn [gpr]. by read_regs.
Qed.

(** The members of a returned aggregate are at the caller's result pointer. *)
Definition hfa_stored (c : nat) (dst : Z) (d d' : data) : Prop :=
  (forall n, (n < c)%nat -> mem_load (mem d') (dst + 8 * Z.of_nat n) = fpr d (Z.of_nat n)) /\
  mem_outside dst (dst + 8 * Z.of_nat c) d d'.

Lemma x86_hfa_store_run (c : nat) (d : data) : c = 3%nat \/ c = 4%nat ->
  0 <= gpr d RAX -> gpr d RAX + 32 <= 2 ^ 64 -> (forall r, in_width 64 (fpr d r)) -> exists d',
  (forall pc, run_block pc d (x86_hfa_store_block c) = Some d') /\ hfa_stored c (gpr d RAX) d d' /\
  gpr d' = gpr d /\ fpr d' = fpr d /\ fs_base d' = fs_base d /\ signatures d' = signatures d.
Proof.
  intros Hc Hlo Hhi Hw. destruct d as [g f m zf fs tp sg ns]. unfold RAX in *. cbn [gpr fpr] in *.
  unfold x86_hfa_store_block, hfa_stored.
  destruct Hc as [-> | ->]; cbn [seq fmap list_fmap Z.of_nat Pos.of_succ_nat Pos.succ Z.mul Z.add Pos.mul Pos.add];
    (eexists; split; [intros pc; eval_block; reflexivity|]); cbn [gpr fpr mem fs_base signatures].
  all: norm_wraps; rewrite ?Z.add_0_r; split_and!; try done.
  all: try (intros a Ha Hout; cbn [mem]; rewrite !mem_store_outside by (unfold cell; lia); done).
  all: intros n Hn; do 4 (destruct n as [|n];
    [cbn [Z.of_nat Pos.of_succ_nat Pos.succ Z.mul Pos.mul Pos.add]; rewrite ?Z.add_0_r; frame_loads; try done|]); lia.
Qed.

(** The result pointer of an aggregate does not point into the frame. *)
Definition result_apart (c : nat) (dst sp : Z) : Prop :=
  0 <= dst /\ dst + 32 <= 2 ^ 64 /\ (dst + 8 * Z.of_nat c <= sp - 40 \/ sp + 8 <= dst).

Lemma x86_return_run (k sp rbx r12 r15 : Z) (d : data) :
  let b := process_bridge_is_aarch64_hfa64_ret k in
  let c := process_bridge_aarch64_hfa64_ret_count k in
  let s9 := is_stack9 k in
  40 <= sp -> sp + 8 <= 2 ^ 64 -> gpr d RSP = sp - x86_frame s9 -> x86_saved s9 sp rbx r12 r15 d ->
  (b = true -> result_apart c (gpr d RAX) sp /\ forall r, in_width 64 (fpr d r)) -> exists d',
  (forall pc, run_block pc d (opt b (x86_hfa_store_block c) ++ x86_restore_block s9) = Some d') /\
  gpr d' RSP = sp /\ gpr d' RBX = rbx /\ gpr d' R15 = r15 /\ (s9 = true -> gpr d' R12 = r12) /\
  (forall r, r ∉ opt s9 [R12] ++ [RSP; RBX; R15] -> gpr d' r = gpr d r) /\
  (if b then hfa_stored c (gpr d RAX) d d' else mem d' = mem d) /\ fpr d' = fpr d /\ mem_load (mem d') sp = mem_load (mem d) sp.
Proof.
  intros b c s9 Hlo Hhi Hsp Hsv Hb.
  assert (exists d1, (forall pc, run_block pc d (opt b (x86_hfa_store_block c)) = Some d1) /\ gpr d1 = gpr d /\
    (if b then hfa_stored c (gpr d RAX) d d1 else mem d1 = mem d) /\ fpr d1 = fpr d /\
    (forall a, sp - 40 <= a -> a <= sp -> mem_load (mem d1) a = mem_load (mem d) a)) as (d1 & R1 & G1 & S1 & F1 & L1).
  { destruct b; [|by exists d]. destruct (Hb eq_refl) as [(H1 & H2 & H3) Hw].
    destruct (x86_hfa_store_run c d (hfa_ret_count k) H1 H2 Hw) as (d1 & R & St & G & F & _). exists d1.
    split_and!; try done. intros a Ha1 Ha2. destruct St as [_ Mo]. eapply mem_outside_load; [exact Mo|lia..]. }
  destruct (x86_restore_run s9 sp rbx r12 r15 d1) as (d2 & R2 & E4 & E3 & E15 & E12 & [G2 F2 M2 _ _]); [done|done|by rewrite G1| |].
  { unfold x86_saved in *. by rewrite !L1 by lia. }
  exists d2. split_and!; try done.
  - intros pc. rewrite run_block_app, R1. apply R2.
  - intros r Hr. by rewrite G2, G1.
  - destruct b; [|congruence]. destruct S1 as [S1 S2]. split; [by rewrite M2|]. intros a Ha Hout. rewrite M2. by apply S2.
  - congruence.
  - rewrite M2. apply L1; lia.
Qed.

Lemma x86_return_block_bytes (k : Z) :
  block_bytes (opt (process_bridge_is_aarch64_hfa64_ret k) (x86_hfa_store_block (process_bridge_aarch64_hfa64_ret_count k)) ++
    x86_restore_block (is_stack9 k)) ++ x86_ret_insn.2 = x86_return_bytes k.
Proof.
  unfold x86_return_bytes. rewrite block_bytes_app, <- app_assoc. f_equal.
  - destruct (process_bridge_is_aarch64_hfa64_ret k); [apply x86_hfa_bytes_blocks|done].
  - by destruct (is_stack9 k).
Qed.

Lemma x86_call_run (k slot t ret frontend : Z) (d : data) : x86_caller_ok d -> exists d1,
  (forall pc, run_block pc d (x86_call_block k slot t ret frontend) = Some d1) /\
  x86_call_regs k slot t ret frontend d d1.
Proof. intros Hok. destruct (is_stack9 k) eqn:E; [by apply x86_nine_run|by apply x86_plain_run]. Qed.

(** The stub behind the call, up to the caller. *)
Lemma x86_return_runs (base : Z) (code rest : list Z) (k ret sp rbx r12 r15 : Z) (d2 : data) :
  let b := process_bridge_is_aarch64_hfa64_ret k in
  let c := process_bridge_aarch64_hfa64_ret_count k in
  at_code base code 1 ret (block_bytes (opt b (x86_hfa_store_block c) ++ x86_restore_block (is_stack9 k)) ++
                           x86_ret_insn.2 ++ rest) ->
  40 <= sp -> sp + 8 < 2 ^ 64 -> gpr d2 RSP = sp - x86_frame (is_stack9 k) -> x86_saved (is_stack9 k) sp rbx r12 r15 d2 ->
  (b = true -> result_apart c (gpr d2 RAX) sp /\ forall r, in_width 64 (fpr d2 r)) ->
  exists d3, x86_runs base code (ret, d2) (mem_load (mem d2) sp, d3) /\
    gpr d3 RSP = sp + 8 /\ gpr d3 RBX = rbx /\ gpr d3 R15 = r15 /\ (is_stack9 k = true -> gpr d3 R12 = r12) /\
    (forall r, r ∉ opt (is_stack9 k) [R12] ++ [RSP; RBX; R15] -> gpr d3 r = gpr d2 r) /\ fpr d3 = fpr d2 /\
    (if b then hfa_stored c (gpr d2 RAX) d2 d3 else mem d3 = mem d2).
Proof.
  intros b c Hat Hlo Hhi Hsp Hsv Hhfa.
  destruct (x86_return_run k sp rbx r12 r15 d2) as (d3 & R3 & E4 & E3 & E15 & E12 & G3 & M3 & F3 & L3); [lia..|done|done|done|].
  assert (Forall (encodes 1) (opt b (x86_hfa_store_block c) ++ x86_restore_block (is_stack9 k))) as He.
  { apply Forall_app_2; [apply x86_opt_encodes; intros _; apply x86_hfa_encodes, hfa_ret_count|apply x86_restore_encodes]. }
  destruct (block_runs base code 1 ltac:(lia) _ _ He ret d2 d3 Hat (R3 ret)) as [Runs3 Hat3].
  exists (set_gpr d3 RSP (sp + 8)). unfold set_gpr, RSP, RBX, R15, R12 in *. cbn [gpr fpr mem]. read_regs.
  split; [|split_and!; try done].
  - etransitivity; [exact Runs3|]. eapply jump_runs; [|exact Hat3|].
    + split_and!; [done|done|by intros a r _].
    + cbn [exec x86_isa x86_exec1 fst x86_ret_insn]. unfold RSP. rewrite E4, wrap_small, L3 by (unfold in_width; lia). done.
  - intros r Hr. rewrite set_reg_other by (intros ->; apply Hr; destruct (is_stack9 k); cbn [opt app]; rewrite !elem_of_cons; tauto).
    by apply G3.
Qed.

(** An x86 caller that calls a stub reaches the call instruction with the
    target, the return address and the frontend in the call registers, its
    stack pointer lowered by its frame, and its arguments in place: nine words
    moved from the System V registers and the stack to the exchange registers
    and the cell below the stack, a homogeneous aggregate loaded from the stack
    into the vector registers, the result pointer kept in rax; the signature is
    set where the kind needs one, and the caller's stack is not written.  When
    the callee returns with the stack pointer and the frame as they were, the
    stub stores a returned aggregate, restores rbx, r12 and r15 and goes back to
    the return address of the caller. *)
Theorem x86_stub_calls (base : Z) (code stub rest : list Z) (addr t callee k slot slot' : Z) (d : data) :
  0 <= slot < POLY_ABI_SIGNATURE_SLOT_COUNT -> in_width 64 t -> 0 <= addr -> addr + 224 < 2 ^ 64 ->
  x86_stub_code addr t callee k slot = Some (stub, slot') -> window base code addr = stub ++ rest -> x86_caller_ok d ->
  let sp := gpr d RSP in
  let ret := x86_stub_return addr k slot in
  exists d1, x86_runs base code (addr, d) (ret - 4, d1) /\
    decode (ret - 4) (window base code (ret - 4)) = Some (X_CTRL (0x30 + slot'), 4%nat) /\
    x86_call_regs k slot t ret (callee_frontend callee) d d1 /\
    forall d2, gpr d2 RSP = sp - x86_frame (is_stack9 k) ->
      x86_saved (is_stack9 k) sp (gpr d RBX) (gpr d R12) (gpr d R15) d2 ->
      (process_bridge_is_aarch64_hfa64_ret k = true ->
        result_apart (process_bridge_aarch64_hfa64_ret_count k) (gpr d2 RAX) sp /\ forall r, in_width 64 (fpr d2 r)) ->
    exists d3, x86_runs base code (ret, d2) (mem_load (mem d2) sp, d3) /\
      gpr d3 RSP = sp + 8 /\ gpr d3 RBX = gpr d RBX /\ gpr d3 R15 = gpr d R15 /\
      (is_stack9 k = true -> gpr d3 R12 = gpr d R12) /\
      (forall r, r ∉ opt (is_stack9 k) [R12] ++ [RSP; RBX; R15] -> gpr d3 r = gpr d2 r) /\ fpr d3 = fpr d2 /\
      (if process_bridge_is_aarch64_hfa64_ret k
       then hfa_stored (process_bridge_aarch64_hfa64_ret_count k) (gpr d2 RAX) d2 d3 else mem d3 = mem d2).
Proof.
  intros Hs Ht Ha0 Ha1 Hstub Hw Hok sp ret. pose proof Hok as (Hlo & Hhi & Hreg).
  pose proof (x86_args_length k slot). pose proof (callee_frontend_range callee) as Hfe.
  assert (in_width 64 ret) as Hret by (unfold in_width, ret, x86_stub_return; lia).
  rewrite x86_stub_code_bytes in Hstub by done.
  apply (inj Some), pair_equal_spec in Hstub as [<- <-]. fold ret in Hw.
  set (fe := callee_frontend callee) in *. set (sl := x86_call_slot k slot) in *.
  assert (0 <= sl < POLY_ABI_SIGNATURE_SLOT_COUNT) as Hsl by (unfold sl, x86_call_slot; by destruct (is_stack9 k)).
  set (pc4 := (X_CTRL (0x30 + sl), [0x0f; 0x3a; 0xfc; 0x30 + sl]) : x86_insn * list Z).
  assert (window base code addr = block_bytes (x86_call_block k slot t ret fe) ++ pc4.2 ++ block_bytes
    (opt (process_bridge_is_aarch64_hfa64_ret k) (x86_hfa_store_block (process_bridge_aarch64_hfa64_ret_count k)) ++
     x86_restore_block (is_stack9 k)) ++ x86_ret_insn.2 ++ rest) as Hw'.
  { rewrite Hw, x86_call_block_bytes, (app_assoc (block_bytes _) x86_ret_insn.2), x86_return_block_bytes.
    unfold x86_call_bytes. fold fe. rewrite wrap_small by (unfold in_width, POLY_X86_CTRL_PCALL_SIG_IMM, POLY_ABI_SIGNATURE_SLOT_COUNT in *; lia).
    by rewrite <- !app_assoc. }
  destruct (x86_call_run k slot t ret fe d Hok) as (d1 & R1 & C1).
  destruct (block_runs base code 1 ltac:(lia) _ _ (x86_call_block_encodes k slot t ret fe Hs Ht Hret ltac:(unfold in_width; lia))
    addr d d1 (conj (Z.mod_1_r _) Hw') (R1 addr)) as [Runs1 Hat1].
  assert (addr + Z.of_nat (length (block_bytes (x86_call_block k slot t ret fe))) = ret - 4) as Hpc.
  { rewrite x86_call_block_bytes, !length_app, !le_bytes_length. unfold ret, x86_stub_return. cbn [length]. lia. }
  rewrite Hpc in *. assert (encodes 1 pc4) as He by (split_and!; [done|done|by intros a r _]).
  pose proof (at_code_next base code 1 ltac:(lia) (ret - 4) pc4 _ He Hat1) as Hat.
  replace (ret - 4 + Z.of_nat (length pc4.2)) with ret in Hat by (cbn; lia).
  exists d1. split; [exact Runs1|]. split; [destruct Hat1 as [? ->]; by apply He|]. split; [exact C1|].
  intros d2 Hsp Hsv Hhfa.
  by eapply (x86_return_runs base code); [exact Hat|lia|lia|..].
Qed.

(** ** Concrete stub *)

Definition sample_x86_stub : list Z :=
  default [] (fst <$> x86_stub_code 4096 0x401000 POLY_ARCH_AARCH64 POLY_PROCESS_BRIDGE_U64_STACK9 0).
Definition sample_x86_regs : data :=
  Data (fun r => if r =? RSP then 0x7ffe0008 else 64 + 4 * (r mod 32)) (fun _ => 0) (fun _ => 0) false 0 0 (fun _ => 0) 0.

Lemma x86_stub_calls_witness :
  exists d1 ret, x86_runs 4096 sample_x86_stub (4096, sample_x86_regs) (ret - 4, d1) /\
    gpr d1 RBX = 0x401000 /\ gpr d1 R11 = ret /\ gpr d1 RAX = gpr sample_x86_regs RDI.
Proof.
  destruct (x86_stub_calls 4096 sample_x86_stub sample_x86_stub [] 4096 0x401000 POLY_ARCH_AARCH64
    POLY_PROCESS_BRIDGE_U64_STACK9 0 0 sample_x86_regs) as (d1 & R & _ & C & _).
  - by compute.
  - by compute.
  - lia.
  - lia.
  - vm_compute. reflexivity.
  - rewrite app_nil_r. apply window_start.
  - unfold x86_caller_ok, sample_x86_regs. cbn [gpr]. split_and!; [by compute..|].
    intros r. unfold in_width. pose proof (Z.mod_pos_bound r 32 ltac:(lia)). destruct (r =? RSP); lia.
  - destruct C as [C1 C2 _ _ C5 _ _ _ _ _ _ _].
    exists d1, (x86_stub_return 4096 POLY_PROCESS_BRIDGE_U64_STACK9 0).
    split_and!; [exact R|exact C1|exact C2|exact (ex_rax _ _ _ _ _ _ (proj1 (C5 eq_refl)))].
Defined.
