(* ===== verification/CrossStubWrapper.v ===== *)
(** The wrapper around an x86 callee ([emit_process_x86_tls_call_wrapper] of
    [tools/runtime/polyexec.c]), run on the machine of [StubMachine]: it
    switches the thread-local storage of x86 in, passes the arguments on and
    switches back. *)

From stdpp Require Import relations.
From S2P Require Import Prelude AbiType AbiCursor AbiDescriptor LoaderBase BridgeSpec ElfImage CodeEmit Trampoline CrossStub StubMachine CrossStubRun CrossStubX86.

Lemma signed8_small (n : Z) : 0 <= n < 128 -> signed 8 (u8 n) = n.
Proof.
  intros H. unfold signed. rewrite wrap_wrap, wrap_small by (unfold in_width; lia).
  change (2 ^ (8 - 1)) with 128. by destruct (Z.ltb_spec n 128); [|lia].
Qed.

#[local] Opaque wrap mem_load mem_store set_reg.

(** ** A conditional jump over a block *)

Lemma jz_over_runs (base : Z) (code rest : list Z) (block : list (x86_insn * list Z)) (pc : Z) (d : data)
    (P : data -> Prop) :
  0 <= pc -> pc + 2 + Z.of_nat (length (block_bytes block)) < 2 ^ 64 -> (length (block_bytes block) < 128)%nat ->
  Forall (encodes 1) block ->
  at_code base code 1 pc ([0x74; u8 (Z.of_nat (length (block_bytes block)))] ++ block_bytes block ++ rest) ->
  (zero_flag d = true -> P d) ->
  (zero_flag d = false -> forall pc, exists d', run_block pc d block = Some d' /\ P d') -> exists d',
  let pc' := pc + 2 + Z.of_nat (length (block_bytes block)) in
  x86_runs base code (pc, d) (pc', d') /\ P d' /\ at_code base code 1 pc' rest.
Proof.
  intros Hpc Hhi Hlen He Hat HT HF. set (n := Z.of_nat (length (block_bytes block))) in *.
  set (jz := (X_JZ n, [0x74; u8 n]) : x86_insn * list Z).
  assert (encodes 1 jz) as Hj.
  { split_and!; [done|done|]. intros a r _. cbn [fst snd jz].
    transitivity (Some (X_JZ (signed 8 (u8 n)), 2%nat)); [reflexivity|]. by rewrite signed8_small by lia. }
  pose proof (at_code_next base code 1 ltac:(lia) pc jz _ Hj Hat) as Hat2. cbn [snd jz length] in Hat2.
  change (Z.of_nat 2) with 2 in Hat2. destruct (zero_flag d) eqn:Ez.
  - exists d. split_and!; [|by apply HT|].
    + eapply jump_runs; [exact Hj|exact Hat|]. cbn [exec x86_isa x86_exec1 fst snd jz length]. rewrite Ez.
      change (Z.of_nat 2) with 2. by rewrite wrap_small by (unfold in_width; lia).
    + destruct Hat2 as [_ Hw2]. split; [by rewrite Z.mod_1_r|].
      destruct (decide (block_bytes block = [])) as [E|E].
      * subst n. rewrite E in *. by rewrite Z.add_0_r.
      * by eapply window_next.
  - destruct (HF eq_refl (pc + 2)) as (d' & R & HP). exists d'.
    destruct (block_runs base code 1 ltac:(lia) block rest He (pc + 2) d d' Hat2 R) as [Runs Hat3].
    split_and!; [|done|done]. apply rtc_l with (pc + 2, d); [|exact Runs].
    destruct Hj as (_ & _ & Hd). destruct Hat as [Hm Hw]. unfold step1. cbn [fst snd]. rewrite Hw.
    rewrite (Hd pc _ Hm). cbn. by rewrite Ez.
Qed.

(** ** The parts of the wrapper *)

(** Saves the argument registers and tests the thread-local base of x86. *)
Definition wrap_save_block (tls_addr : Z) : list (x86_insn * list Z) :=
  [(X_PUSH R11, [0x41; 0x53]); (X_PUSH RDI, [0x57]); (X_PUSH RSI, [0x56]); (X_PUSH RDX, [0x52]); (X_PUSH RCX, [0x51]);
   (X_PUSH R8, [0x41; 0x50]); (X_PUSH R9, [0x41; 0x51]); movabs_insn [0x48; 0xb8] RAX tls_addr;
   (X_MOV (Reg RSI) (Mem RAX 0), [0x48; 0x8b; 0x30]); (X_TEST RSI RSI, [0x48; 0x85; 0xf6])].

(** [arch_prctl(ARCH_SET_FS, rsi)] *)
Definition set_fs_block : list (x86_insn * list Z) :=
  [movimm_insn [0xb8] RAX SYS_arch_prctl; movimm_insn [0xbf] RDI ARCH_SET_FS; (X_SYSCALL, [0x0f; 0x05])].

Definition wrap_args_block (s9 : bool) (target : Z) : list (x86_insn * list Z) :=
  [(X_POP R9, [0x41; 0x59]); (X_POP R8, [0x41; 0x58]); (X_POP RCX, [0x59]); (X_POP RDX, [0x5a]); (X_POP RSI, [0x5e]);
   (X_POP RDI, [0x5f]); (X_POP R11, [0x41; 0x5b])] ++
  opt s9 [(X_ALU_IMM 5 RSP 24, [0x48; 0x83; 0xec; 0x18]);
          (X_MOV (Reg R10) (Mem R11 0), [0x4d; 0x8b; 0x13]); (X_MOV (Mem RSP 0) (Reg R10), [0x4c; 0x89; 0x14; 0x24]);
          (X_MOV (Reg R10) (Mem R11 8), [0x4d; 0x8b; 0x53; 0x08]);
          (X_MOV (Mem RSP 8) (Reg R10), [0x4c; 0x89; 0x54; 0x24; 0x08]);
          (X_MOV (Reg R10) (Mem R11 16), [0x4d; 0x8b; 0x53; 0x10]);
          (X_MOV (Mem RSP 16) (Reg R10), [0x4c; 0x89; 0x54; 0x24; 0x10])] ++
  [movabs_insn [0x49; 0xbb] R11 target].

Definition call_insn : x86_insn * list Z := (X_CALL R11, [0x41; 0xff; 0xd3]).

Definition wrap_result_block (s9 : bool) (tls_addr : Z) : list (x86_insn * list Z) :=
  opt s9 [(X_ALU_IMM 0 RSP 24, [0x48; 0x83; 0xc4; 0x18])] ++
  [(X_PUSH RAX, [0x50]); (X_PUSH RDX, [0x52]); movabs_insn [0x48; 0xb8] RAX tls_addr;
   (X_MOV (Reg RSI) (Mem RAX 0), [0x48; 0x8b; 0x30]); (X_TEST RSI RSI, [0x48; 0x85; 0xf6])].

Definition set_host_fs_block (host_addr : Z) : list (x86_insn * list Z) :=
  [movabs_insn [0x48; 0xb8] RAX host_addr; (X_MOV (Reg RSI) (Mem RAX 0), [0x48; 0x8b; 0x30])] ++ set_fs_block.

Definition wrap_return_block : list (x86_insn * list Z) := [(X_POP RDX, [0x5a]); (X_POP RAX, [0x58])].

Lemma set_fs_encodes : Forall (encodes 1) set_fs_block.
Proof. unfold set_fs_block, movimm_insn. x86_consts. Qed.

Ltac x86_insns :=
  repeat (apply Forall_cons_2;
    [lazymatch goal with
     | |- encodes 1 (movabs_insn [0x48; 0xb8] _ _) => by apply movabs_rax_encodes
     | |- encodes 1 (movabs_insn [0x49; 0xbb] _ _) => by apply movabs_r11_encodes
     | |- _ => x86_const
     end|]); apply Forall_nil_2.

Lemma wrap_encodes (s9 : bool) (tls host target : Z) : in_width 64 tls -> in_width 64 host -> in_width 64 target ->
  Forall (encodes 1) (wrap_save_block tls) /\ Forall (encodes 1) (wrap_args_block s9 target) /\
  Forall (encodes 1) (wrap_result_block s9 tls) /\ Forall (encodes 1) (set_host_fs_block host) /\
  Forall (encodes 1) wrap_return_block.
Proof.
  intros H1 H2 H3. split_and!.
  - unfold wrap_save_block. x86_insns.
  - unfold wrap_args_block. destruct s9; cbn [opt app]; x86_insns.
  - unfold wrap_result_block. destruct s9; cbn [opt app]; x86_insns.
  - unfold set_host_fs_block. apply Forall_app_2; [x86_insns|apply set_fs_encodes].
  - unfold wrap_return_block. x86_insns.
Qed.

(** The wrapper is these parts one after the other. *)
Lemma wrapper_code_blocks (env : stub_env) (target k : Z) :
  let s9 := k =? POLY_PROCESS_BRIDGE_U64_STACK9 in
  let tls := addr_of_x86_tls_base env in
  let host := addr_of_host_fs_base env in
  x86_tls_wrapper_code env target k =
  block_bytes (wrap_save_block tls) ++
  ([0x74; u8 (Z.of_nat (length (block_bytes set_fs_block)))] ++ block_bytes set_fs_block ++
  block_bytes (wrap_args_block s9 target) ++ call_insn.2 ++ block_bytes (wrap_result_block s9 tls) ++
  [0x74; u8 (Z.of_nat (length (block_bytes (set_host_fs_block host))))] ++ block_bytes (set_host_fs_block host) ++
  block_bytes wrap_return_block ++ x86_ret_insn.2).
Proof.
  unfold x86_tls_wrapper_code, emit_jz_over, emit_x86_set_fs_from_global, emit_x86_movabs_rax, emit_x86_movabs_r11.
  rewrite !emit_u64_le, !emit_u32_le.
  unfold wrap_save_block, wrap_args_block, wrap_result_block, set_host_fs_block, set_fs_block, movabs_insn, movimm_insn,
    block_bytes. destruct (k =? POLY_PROCESS_BRIDGE_U64_STACK9); cbn [opt fmap list_fmap snd mjoin list_join app];
    by rewrite <- !app_assoc.
Qed.

(** ** Running the parts *)

Definition saved_args (sp : Z) (d0 d : data) : Prop :=
  mem_load (mem d) (sp - 8) = gpr d0 R11 /\ mem_load (mem d) (sp - 16) = gpr d0 RDI /\
  mem_load (mem d) (sp - 24) = gpr d0 RSI /\ mem_load (mem d) (sp - 32) = gpr d0 RDX /\
  mem_load (mem d) (sp - 40) = gpr d0 RCX /\ mem_load (mem d) (sp - 48) = gpr d0 R8 /\
  mem_load (mem d) (sp - 56) = gpr d0 R9.

(** The cell of a variable is outside the stack that the wrapper uses. *)
Definition off_stack (sp a : Z) : Prop := cell a /\ (a + 8 <= sp - 64 \/ sp <= a).

Lemma wrap_save_run (tls_addr : Z) (d : data) :
  let sp := gpr d RSP in
  64 <= sp -> sp < 2 ^ 64 -> (forall r, in_width 64 (gpr d r)) -> off_stack sp tls_addr -> in_width 64 tls_addr ->
  exists d', (forall pc, run_block pc d (wrap_save_block tls_addr) = Some d') /\
  gpr d' RSP = sp - 56 /\ gpr d' RSI = mem_load (mem d) tls_addr /\
  zero_flag d' = (mem_load (mem d) tls_addr =? 0) /\ (forall r, r ∉ [RAX; RSI; RSP] -> gpr d' r = gpr d r) /\
  mem_outside (sp - 56) sp d d' /\ saved_args sp d d' /\ fpr d' = fpr d /\ fs_base d' = fs_base d.
Proof.
  intros sp Hlo Hhi Hw [Hc Hoff] Ht. destruct d as [g f m zf fs tp sg ns]. unfold saved_args, cell in *.
  unfold RAX, RSI, RSP, RDI, RDX, RCX, R8, R9, R11 in *. cbn [gpr mem] in *. subst sp.
  unfold wrap_save_block, movabs_insn. eexists. split; [intros pc; eval_block; reflexivity|].
  unfold RSI, RAX, RSP, RDI, RDX, RCX, R8, R9, R11. cbn [gpr mem zero_flag fpr fs_base]. read_regs. norm_wraps. norm_addr.
  rewrite Z.add_0_r. norm_wraps. frame_loads. rewrite Z.land_diag. split_and!; try done; frame_loads; try done.
  - intros r Hr. by read_regs.
  - intros a Ha Hout. cbn [mem]. by rewrite !mem_store_outside by (unfold cell; lia).
Qed.

Lemma set_fs_run (pc : Z) (d : data) : exists d', run_block pc d set_fs_block = Some d' /\
  fs_base d' = gpr d RSI /\ (forall r, r ∉ [RAX; RDI; RCX; R11] -> gpr d' r = gpr d r) /\
  mem d' = mem d /\ fpr d' = fpr d.
Proof.
  destruct d as [g f m zf fs tp sg ns]. unfold set_fs_block, movimm_insn.
  eexists. split.
  - cbn [run_block exec x86_isa x86_exec1 set_gpr gpr]. unfold RAX, RDI, RSI, RCX, R11. read_regs.
    cbn [SYS_arch_prctl ARCH_SET_FS SYS_ARCH_PRCTL ARCH_SET_FS_CODE Z.eqb Pos.eqb andb]. reflexivity.
  - cbn [set_gpr set_fs_base gpr fpr mem fs_base]. unfold RAX, RDI, RSI, RCX, R11. read_regs. split_and!; try done.
    intros r Hr. by read_regs.
Qed.

(** The arguments of the callee, and for nine words those on its stack. *)
Definition nine_words (sp src : Z) (d d' : data) : Prop :=
  forall n, 0 <= n < 3 -> mem_load (mem d') (sp - 24 + 8 * n) = mem_load (mem d) (src + 8 * n).

Lemma wrap_args_run (s9 : bool) (target sp : Z) (d0 d : data) :
  64 <= sp -> sp < 2 ^ 64 -> gpr d RSP = sp - 56 -> saved_args sp d0 d ->
  (s9 = true -> 0 <= gpr d0 R11 /\ gpr d0 R11 + 24 <= 2 ^ 64 /\ (gpr d0 R11 + 24 <= sp - 64 \/ sp <= gpr d0 R11)) ->
  exists d', (forall pc, run_block pc d (wrap_args_block s9 target) = Some d') /\
  gpr d' RSP = sp - (if s9 then 24 else 0) /\ gpr d' R11 = target /\
  (forall r, r ∈ [RDI; RSI; RDX; RCX; R8; R9] -> gpr d' r = gpr d0 r) /\
  (forall r, r ∉ [RDI; RSI; RDX; RCX; R8; R9; R10; R11; RSP] -> gpr d' r = gpr d r) /\
  mem_outside (sp - 24) sp d d' /\ (s9 = true -> nine_words sp (gpr d0 R11) d d') /\
  fpr d' = fpr d /\ fs_base d' = fs_base d.
Proof.
  intros Hlo Hhi Hsp (K1 & K2 & K3 & K4 & K5 & K6 & K7) Hsrc. destruct d as [g f m zf fs tp sg ns]. unfold nine_words.
  unfold RAX, RSI, RSP, RDI, RDX, RCX, R8, R9, R10, R11 in *. cbn [gpr mem] in *.
  generalize dependent (gpr d0). intros g0 K1 K2 K3 K4 K5 K6 K7 Hsrc.
  unfold wrap_args_block, movabs_insn. destruct s9; cbn [opt app].
  - specialize (Hsrc eq_refl) as (Hs1 & Hs2 & Hs3). eexists. split.
    { intros pc. run_steps ltac:(rewrite ?Hsp, ?Z.add_0_r; norm_wraps; norm_addr;
        rewrite ?K1, ?K2, ?K3, ?K4, ?K5, ?K6, ?K7; norm_wraps; frame_loads). }
    unfold RSI, RAX, RSP, RDI, RDX, RCX, R8, R9, R10, R11; cbn [gpr mem fpr fs_base]; read_regs.
    split_and!; try done.
    + intros r Hr. rewrite !elem_of_cons, elem_of_nil in Hr. destruct Hr as [-> | [-> | [-> | [-> | [-> | [-> | []]]]]]]; by read_regs.
    + intros r Hr. by read_regs.
    + intros a Ha Hout. cbn [mem]. by rewrite !mem_store_outside by (unfold cell; lia).
    + intros _ n Hn. assert (n = 0 \/ n = 1 \/ n = 2) as [-> | [-> | ->]] by lia; change (8 * 0) with 0; change (8 * 1) with 8;
        change (8 * 2) with 16; norm_addr; rewrite ?Z.add_0_r; norm_wraps; frame_loads; try done.
  - eexists. split.
    { intros pc. run_steps ltac:(rewrite ?Hsp; norm_wraps; norm_addr; rewrite ?K1, ?K2, ?K3, ?K4, ?K5, ?K6, ?K7). }
    unfold RSI, RAX, RSP, RDI, RDX, RCX, R8, R9, R10, R11; cbn [gpr mem fpr fs_base]; read_regs.
    split_and!; try done; try lia.
    + intros r Hr. rewrite !elem_of_cons, elem_of_nil in Hr. destruct Hr as [-> | [-> | [-> | [-> | [-> | [-> | []]]]]]]; by read_regs.
    + intros r Hr. by read_regs.
Qed.


Lemma wrap_result_run (s9 : bool) (tls_addr sp : Z) (d : data) :
  64 <= sp -> sp < 2 ^ 64 -> gpr d RSP = sp - (if s9 then 24 else 0) -> in_width 64 (gpr d RAX) -> in_width 64 (gpr d RDX) ->
  off_stack sp tls_addr ->
  exists d', (forall pc, run_block pc d (wrap_result_block s9 tls_addr) = Some d') /\
  gpr d' RSP = sp - 16 /\ zero_flag d' = (mem_load (mem d) tls_addr =? 0) /\
  mem_load (mem d') (sp - 8) = gpr d RAX /\ mem_load (mem d') (sp - 16) = gpr d RDX /\
  (forall r, r ∉ [RAX; RSI; RSP] -> gpr d' r = gpr d r) /\ mem_outside (sp - 16) sp d d' /\
  fpr d' = fpr d /\ fs_base d' = fs_base d.
Proof.
  intros Hlo Hhi Hsp Ha Hd [Hc Hoff]. destruct d as [g f m zf fs tp sg ns]. unfold cell in *.
  unfold RAX, RSI, RSP, RDX in *. cbn [gpr mem] in *.
  unfold wrap_result_block, movabs_insn. destruct s9; cbn [opt app];
    (eexists; split;
     [intros pc; run_steps ltac:(rewrite ?Hsp, ?Z.add_0_r; norm_wraps; norm_addr; rewrite ?Z.sub_0_r; norm_wraps; frame_loads)|]);
    unfold RSI, RAX, RSP, RDX; cbn [gpr mem zero_flag fpr fs_base]; read_regs; rewrite ?Z.land_diag, ?Z.sub_0_r; norm_addr;
    split_and!; try done; frame_loads; try done.
  all: try (intros r Hr; by read_regs).
  all: intros a Hra Hout; cbn [mem]; by rewrite !mem_store_outside by (unfold cell; lia).
Qed.

Lemma set_host_fs_run (host_addr pc : Z) (d : data) : in_width 64 host_addr ->
  exists d', run_block pc d (set_host_fs_block host_addr) = Some d' /\
  fs_base d' = mem_load (mem d) host_addr /\ (forall r, r ∉ [RAX; RSI; RDI; RCX; R11] -> gpr d' r = gpr d r) /\
  mem d' = mem d /\ fpr d' = fpr d.
Proof.
  intros Hh. unfold set_host_fs_block. rewrite run_block_app.
  set (pre := [_; _]). set (pc' := pc + _).
  set (d1 := set_gpr (set_gpr d RAX host_addr) RSI (mem_load (mem d) host_addr)).
  assert (run_block pc d pre = Some d1) as ->.
  { unfold pre, d1, movabs_insn. destruct d as [g f m zf fs tp sg ns].
    cbn [run_block exec x86_isa x86_exec1 set_gpr gpr mem]. unfold x86_address, RAX, RSI. cbn [gpr]. read_regs.
    by rewrite Z.add_0_r, wrap_small. }
  destruct (set_fs_run pc' d1) as (d' & R & F & G & M & P). exists d'. split; [exact R|].
  subst d1. destruct d as [g f m zf fs tp sg ns]. unfold set_gpr, RAX, RSI, RDI, RCX, R11 in *. cbn [gpr mem fpr] in *.
  rewrite F. read_regs. split_and!; try done.
  intros r Hr. rewrite G by (revert Hr; rewrite !elem_of_cons; tauto). by read_regs.
Qed.

Lemma wrap_return_run (sp : Z) (d : data) : 64 <= sp -> sp < 2 ^ 64 -> gpr d RSP = sp - 16 ->
  exists d', (forall pc, run_block pc d wrap_return_block = Some d') /\
  gpr d' RSP = sp /\ gpr d' RDX = mem_load (mem d) (sp - 16) /\ gpr d' RAX = mem_load (mem d) (sp - 8) /\
  (forall r, r ∉ [RAX; RDX; RSP] -> gpr d' r = gpr d r) /\ mem d' = mem d /\ fpr d' = fpr d /\ fs_base d' = fs_base d.
Proof.
  intros Hlo Hhi Hsp. destruct d as [g f m zf fs tp sg ns]. unfold RAX, RDX, RSP in *. cbn [gpr mem] in *.
  unfold wrap_return_block. eexists. split; [intros pc; run_steps ltac:(rewrite ?Hsp; norm_wraps; norm_addr)|].
  unfold RAX, RDX, RSP. cbn [gpr mem fpr fs_base]. read_regs. split_and!; try done. intros r Hr. by read_regs.
Qed.

(** ** The wrapper as a whole *)

(** What holds when the callee is entered: its frame, its arguments, the
    thread-local base of x86 and the untouched memory. *)
Record wrapper_entry (s9 : bool) (tls ret : Z) (d d1 : data) : Prop := WrapperEntry {
  we_sp : gpr d1 RSP = gpr d RSP - (if s9 then 24 else 0) - 8;
  we_ret : mem_load (mem d1) (gpr d1 RSP) = ret;
  we_args : forall r, r ∈ [RDI; RSI; RDX; RCX; R8; R9] -> gpr d1 r = gpr d r;
  we_kept : forall r, r ∉ [RAX; RDI; RSI; RDX; RCX; R8; R9; R10; R11; RSP] -> gpr d1 r = gpr d r;
  we_fs : fs_base d1 = (if tls =? 0 then fs_base d else tls);
  we_words : s9 = true -> nine_words (gpr d RSP) (gpr d R11) d d1;
  we_mem : mem_outside (gpr d RSP - 64) (gpr d RSP) d d1;
  we_fpr : fpr d1 = fpr d;
}.

(** The caller of the wrapper: a stack with room, registers of 64 bits, and for
    nine words the three words that r11 points at apart from that stack. *)
Definition wrapper_caller_ok (s9 : bool) (d : data) : Prop :=
  64 <= gpr d RSP /\ gpr d RSP + 8 < 2 ^ 64 /\ (forall r, in_width 64 (gpr d r)) /\
  (s9 = true -> gpr d R11 + 24 <= 2 ^ 64 /\ (gpr d R11 + 24 <= gpr d RSP - 64 \/ gpr d RSP <= gpr d R11)).

Lemma mem_outside_wider (lo hi lo' hi' : Z) (d d' : data) : lo' <= lo -> hi <= hi' ->
  mem_outside lo hi d d' -> mem_outside lo' hi' d d'.
Proof. intros Hl Hh H a Ha Ho. apply H; lia. Qed.

Lemma mem_outside_trans (lo hi : Z) (d1 d2 d3 : data) :
  mem_outside lo hi d1 d2 -> mem_outside lo hi d2 d3 -> mem_outside lo hi d1 d3.
Proof. intros H1 H2 a Ha Ho. by rewrite (H2 a Ha Ho), (H1 a Ha Ho). Qed.

(** The state after the thread-local base is set. *)
Definition tls_set (tls : Z) (d d' : data) : Prop :=
  fs_base d' = (if tls =? 0 then fs_base d else tls) /\ (forall r, r ∉ [RAX; RDI; RCX; R11] -> gpr d' r = gpr d r) /\
  mem d' = mem d /\ fpr d' = fpr d.

(** The call itself, on the state that the argument block leaves. *)
Lemma wrap_call_entry (s9 : bool) (target tls_addr ret : Z) (d d1 d2 d3 : data) :
  let sp := gpr d RSP in
  wrapper_caller_ok s9 d -> off_stack sp tls_addr -> in_width 64 ret ->
  (forall r, r ∉ [RAX; RSI; RSP] -> gpr d1 r = gpr d r) -> mem_outside (sp - 56) sp d d1 -> fpr d1 = fpr d ->
  fs_base d1 = fs_base d -> tls_set (mem_load (mem d) tls_addr) d1 d2 ->
  gpr d3 RSP = sp - (if s9 then 24 else 0) -> (forall r, r ∈ [RDI; RSI; RDX; RCX; R8; R9] -> gpr d3 r = gpr d r) ->
  (forall r, r ∉ [RDI; RSI; RDX; RCX; R8; R9; R10; R11; RSP] -> gpr d3 r = gpr d2 r) ->
  mem_outside (sp - 24) sp d2 d3 -> (s9 = true -> nine_words sp (gpr d R11) d2 d3) -> fpr d3 = fpr d2 ->
  fs_base d3 = fs_base d2 ->
  wrapper_entry s9 (mem_load (mem d) tls_addr) ret d (x86_push d3 ret).
Proof.
  intros sp (Hlo & Hhi & Hreg & Hsrc) [Hc Hoff] Hret G1 M1 F1 B1 (B2 & G2 & M2 & F2) S3 A3 G3 M3 W3 F3 B3.
  fold sp in Hlo, Hhi, Hsrc. pose proof (Hreg R11) as H11. unfold in_width in H11.
  assert (u64 (gpr d3 RSP - 8) = gpr d3 RSP - 8) as Hp by (rewrite wrap_small; unfold in_width; destruct s9; lia).
  assert (mem_outside (sp - 64) sp d d3) as M13.
  { apply mem_outside_trans with d2; [|by eapply mem_outside_wider; [..|exact M3]; lia].
    intros a Ha Ho. rewrite M2. apply M1; lia. }
  unfold x86_push. rewrite Hp. split; unfold set_mem, set_gpr; cbn [gpr mem fs_base fpr]; fold sp; read_regs.
  - lia.
  - apply load_store_same; [|done]. unfold cell. destruct s9; lia.
  - intros r Hr. rewrite set_reg_other; [by apply A3|]. intros ->. revert Hr. rewrite !elem_of_cons, elem_of_nil. by intuition.
  - intros r Hr. rewrite set_reg_other by not_in. rewrite G3, G2, G1; [done|..]; revert Hr; rewrite !elem_of_cons; tauto.
  - by rewrite B3, B2, B1.
  - intros E. subst s9. specialize (W3 eq_refl). specialize (Hsrc eq_refl). intros n Hn. cbn [mem].
    rewrite S3, load_store_other by (unfold cell; lia). rewrite W3 by done.
    rewrite M2. apply (mem_outside_load (sp - 56) sp _ _ _ M1); lia.
  - intros a Ha Ho. cbn [mem]. rewrite mem_store_outside by (unfold cell; destruct s9; lia). by apply M13.
  - by rewrite F3, F2.
Qed.

Lemma wrap_lengths (s9 : bool) (tls host target : Z) :
  length (block_bytes (wrap_save_block tls)) = 26%nat /\ length (block_bytes set_fs_block) = 12%nat /\
  length (block_bytes (wrap_args_block s9 target)) = (if s9 then 49%nat else 20%nat) /\
  length (block_bytes (wrap_result_block s9 tls)) = (if s9 then 22%nat else 18%nat) /\
  length (block_bytes (set_host_fs_block host)) = 25%nat.
Proof. by destruct s9. Qed.

(** Up to the entry of the callee. *)
Lemma wrapper_enters (env : stub_env) (base : Z) (code rest : list Z) (addr target : Z) (s9 : bool) (d : data) :
  let tls := addr_of_x86_tls_base env in
  let sp := gpr d RSP in
  in_width 64 tls -> in_width 64 target -> 0 <= addr -> addr + 200 < 2 ^ 64 ->
  at_code base code 1 addr (block_bytes (wrap_save_block tls) ++
    ([0x74; u8 (Z.of_nat (length (block_bytes set_fs_block)))] ++ block_bytes set_fs_block ++
     block_bytes (wrap_args_block s9 target) ++ call_insn.2 ++ rest)) ->
  wrapper_caller_ok s9 d -> off_stack sp tls ->
  exists ret d1, x86_runs base code (addr, d) (target, d1) /\ addr <= ret < addr + 120 /\
    wrapper_entry s9 (mem_load (mem d) tls) ret d d1 /\ at_code base code 1 ret rest.
Proof.
  destruct (wrap_lengths s9 (addr_of_x86_tls_base env) 0 target) as (L1 & L2 & L3 & _).
  intros tls sp. fold tls in L1. intros Ht Htg Ha Hhi Hat Hok Hoff. pose proof Hok as (Hlo & Hsp & Hreg & Hsrc).
  destruct (wrap_encodes s9 tls 0 target) as (E1 & E3 & _); [done|done|done|].
  destruct (wrap_save_run tls d) as (d1 & R1 & S1 & I1 & Z1 & G1 & M1 & V1 & F1 & B1); [done|lia|done|done|done|].
  destruct (block_runs base code 1 ltac:(lia) _ _ E1 addr d d1 Hat (R1 addr)) as [Runs1 Hat1].
  edestruct (jz_over_runs base code) with (5 := Hat1) (d := d1) (P := tls_set (mem_load (mem d) tls) d1)
    as (d2 & Runs2 & P2 & Hat2); [lia|lia|lia|apply set_fs_encodes|..].
  { rewrite Z1. intros E. unfold tls_set. by rewrite E. }
  { rewrite Z1. intros E pc. destruct (set_fs_run pc d1) as (d2 & R2 & B2 & G2 & M2 & F2).
    exists d2. split; [done|]. unfold tls_set. rewrite E, B2. split_and!; try done. }
  pose proof P2 as (B2 & G2 & M2 & F2).
  destruct (wrap_args_run s9 target sp d d2) as (d3 & R3 & S3 & T3 & A3 & G3 & M3 & W3 & F3 & B3); [done|lia|..].
  { rewrite G2; [done|]. unfold RSP, RAX, RDI, RCX, R11. not_in. }
  { unfold saved_args. by rewrite M2. }
  { intros E. destruct (Hsrc E). pose proof (Hreg R11) as [? _]. done. }
  destruct (block_runs base code 1 ltac:(lia) _ _ E3 _ d2 d3 Hat2 (R3 _)) as [Runs3 Hat3].
  assert (encodes 1 call_insn) as Ec by (split_and!; [done|done|by intros ? ? _]).
  pose proof (at_code_next base code 1 ltac:(lia) _ call_insn _ Ec Hat3) as Hat4.
  eexists. exists (x86_push d3 (addr + Z.of_nat (length (block_bytes (wrap_save_block tls))) + 2 +
    Z.of_nat (length (block_bytes set_fs_block)) + Z.of_nat (length (block_bytes (wrap_args_block s9 target))) +
    Z.of_nat (length call_insn.2))).
  split; [|split; [|split; [|exact Hat4]]].
  - etransitivity; [exact Runs1|]. etransitivity; [exact Runs2|]. etransitivity; [exact Runs3|].
    eapply jump_runs; [exact Ec|exact Hat3|]. cbn [exec x86_isa x86_exec1 fst call_insn]. by rewrite T3.
  - cbn [length snd call_insn]. rewrite L1, L2, L3. destruct s9; lia.
  - eapply wrap_call_entry with (d1 := d1) (d2 := d2); try done. 
    unfold in_width. cbn [length snd call_insn]. rewrite L1, L2, L3. destruct s9; lia.
Qed.

(** From the return of the callee to the caller of the wrapper. *)
Record wrapper_exit (tls host sp : Z) (d2 d3 : data) : Prop := WrapperExit {
  wx_sp : gpr d3 RSP = sp + 8;
  wx_rax : gpr d3 RAX = gpr d2 RAX;
  wx_rdx : gpr d3 RDX = gpr d2 RDX;
  wx_kept : forall r, r ∉ [RAX; RDX; RSI; RDI; RCX; R11; RSP] -> gpr d3 r = gpr d2 r;
  wx_fs : fs_base d3 = (if tls =? 0 then fs_base d2 else host);
  wx_mem : mem_outside (sp - 16) sp d2 d3;
  wx_fpr : fpr d3 = fpr d2;
}.

Definition fs_restored (tls host : Z) (d d' : data) : Prop :=
  fs_base d' = (if tls =? 0 then fs_base d else host) /\ (forall r, r ∉ [RAX; RSI; RDI; RCX; R11] -> gpr d' r = gpr d r) /\
  mem d' = mem d /\ fpr d' = fpr d.

Lemma wrapper_leaves (env : stub_env) (base : Z) (code rest : list Z) (ret sp : Z) (s9 : bool) (d2 : data) :
  let tls := addr_of_x86_tls_base env in
  let host := addr_of_host_fs_base env in
  in_width 64 tls -> in_width 64 host -> 0 <= ret -> ret + 80 < 2 ^ 64 -> 64 <= sp -> sp + 8 < 2 ^ 64 ->
  at_code base code 1 ret (block_bytes (wrap_result_block s9 tls) ++
    ([0x74; u8 (Z.of_nat (length (block_bytes (set_host_fs_block host))))] ++ block_bytes (set_host_fs_block host) ++
     block_bytes wrap_return_block ++ x86_ret_insn.2 ++ rest)) ->
  gpr d2 RSP = sp - (if s9 then 24 else 0) -> in_width 64 (gpr d2 RAX) -> in_width 64 (gpr d2 RDX) ->
  off_stack sp tls -> off_stack sp host ->
  exists d3, x86_runs base code (ret, d2) (mem_load (mem d2) sp, d3) /\
    wrapper_exit (mem_load (mem d2) tls) (mem_load (mem d2) host) sp d2 d3.
Proof.
  destruct (wrap_lengths s9 (addr_of_x86_tls_base env) (addr_of_host_fs_base env) 0) as (_ & _ & _ & L1 & L2).
  intros tls host. fold tls in L1. fold host in L2. intros Ht Hh Hr Hrh Hlo Hhi Hat Hsp Ha Hd Hofft Hoffh.
  destruct (wrap_encodes s9 tls host 0) as (_ & _ & E1 & E2 & E3); [done|done|done|].
  destruct (wrap_result_run s9 tls sp d2) as (d3 & R3 & S3 & Z3 & A3 & D3 & G3 & M3 & F3 & B3); [lia|lia|done..|].
  destruct (block_runs base code 1 ltac:(lia) _ _ E1 ret d2 d3 Hat (R3 ret)) as [Runs3 Hat3].
  edestruct (jz_over_runs base code) with (5 := Hat3) (d := d3)
    (P := fs_restored (mem_load (mem d2) tls) (mem_load (mem d2) host) d3)
    as (d4 & Runs4 & (B4 & G4 & M4 & F4) & Hat4); [lia|rewrite L1, L2; destruct s9; lia|lia|exact E2|..].
  { rewrite Z3. intros E. unfold fs_restored. by rewrite E. }
  { rewrite Z3. intros E pc. destruct (set_host_fs_run host pc d3 Hh) as (d4 & R4 & B4 & G4 & M4 & F4).
    exists d4. split; [done|]. unfold fs_restored. rewrite E, B4. split_and!; try done.
    destruct Hoffh as [Hc Ho]. unfold cell in Hc. apply (mem_outside_load _ _ _ _ _ M3); lia. }
  destruct (wrap_return_run sp d4) as (d5 & R5 & S5 & D5 & A5 & G5 & M5 & F5 & B5); [lia|lia|..].
  { rewrite G4; [done|]. unfold RSP, RAX, RDI, RCX, R11, RSI. not_in. }
  destruct (block_runs base code 1 ltac:(lia) _ _ E3 _ d4 d5 Hat4 (R5 _)) as [Runs5 Hat5].
  assert (mem_load (mem d5) sp = mem_load (mem d2) sp) as L5.
  { rewrite M5, M4. apply (mem_outside_load _ _ _ _ _ M3); lia. }
  exists (set_gpr d5 RSP (sp + 8)). split.
  - etransitivity; [exact Runs3|]. etransitivity; [exact Runs4|]. etransitivity; [exact Runs5|].
    eapply jump_runs; [|exact Hat5|].
    + split_and!; [done|done|by intros a r _].
    + cbn [exec x86_isa x86_exec1 fst x86_ret_insn]. by rewrite S5, L5, wrap_small by (unfold in_width; lia).
  - split; unfold set_gpr; cbn [gpr fpr mem fs_base]; unfold RAX, RDX, RSP, RSI, RDI, RCX, R11 in *; read_regs.
    + done.
    + by rewrite A5, M4.
    + by rewrite D5, M4.
    + intros r Hn. rewrite set_reg_other by not_in. rewrite G5, G4, G3; [done|..]; revert Hn; rewrite !elem_of_cons; tauto.
    + by rewrite B5, B4, B3.
    + intros a Hra Ho. cbn [mem]. rewrite M5, M4. by apply M3.
    + by rewrite F5, F4.
Qed.

(** The wrapper around an x86 callee enters the callee with the six argument
    registers as the caller left them, the stack lowered by the return address
    (and by the three stack words of a nine-word call, copied from where r11
    points), and the thread-local base set to that of x86 when there is one;
    below the caller's stack nothing but its own 64 bytes is written.  When the
    callee returns, rax and rdx reach the caller, the host's thread-local base
    is back, and control is at the caller's return address. *)
Theorem x86_wrapper_calls (env : stub_env) (base : Z) (code rest : list Z) (addr target k : Z) (d : data) :
  let tls := addr_of_x86_tls_base env in
  let host := addr_of_host_fs_base env in
  let s9 := k =? POLY_PROCESS_BRIDGE_U64_STACK9 in
  let sp := gpr d RSP in
  in_width 64 tls -> in_width 64 host -> in_width 64 target -> 0 <= addr -> addr + 200 < 2 ^ 64 ->
  window base code addr = x86_tls_wrapper_code env target k ++ rest ->
  wrapper_caller_ok s9 d -> off_stack sp tls -> off_stack sp host ->
  exists ret d1, x86_runs base code (addr, d) (target, d1) /\ wrapper_entry s9 (mem_load (mem d) tls) ret d d1 /\
    forall d2, gpr d2 RSP = gpr d1 RSP + 8 -> in_width 64 (gpr d2 RAX) -> in_width 64 (gpr d2 RDX) ->
    exists d3, x86_runs base code (ret, d2) (mem_load (mem d2) sp, d3) /\
      wrapper_exit (mem_load (mem d2) tls) (mem_load (mem d2) host) sp d2 d3.
Proof.
  intros tls host s9 sp Ht Hh Htg Ha Hhi Hw Hok Hofft Hoffh. pose proof Hok as (Hlo & Hsp & _).
  rewrite wrapper_code_blocks, <- !app_assoc in Hw. fold s9 tls host in Hw.
  destruct (wrapper_enters env base code _ addr target s9 d Ht Htg Ha Hhi (conj (Z.mod_1_r _) Hw) Hok Hofft)
    as (ret & d1 & Runs & Hret & We & Hat).
  exists ret, d1. split; [done|]. split; [done|]. intros d2 Hs2 HA HD. rewrite (we_sp _ _ _ _ _ We) in Hs2.
  apply (wrapper_leaves env base code rest ret sp s9 d2); try done; fold sp in Hs2, Hlo, Hsp; lia.
Qed.

(** ** Concrete wrapper *)

Definition sample_wrapper_env : stub_env := MkEnv None 0x5000 0x5008.
Definition sample_wrapper : list Z := x86_tls_wrapper_code sample_wrapper_env 0x401000 POLY_PROCESS_BRIDGE_DEFAULT.
Definition sample_wrapper_regs : data :=
  Data (fun r => if r =? RSP then 0x7ffe0008 else r mod 32) (fun _ => 0)
       (fun a => if a =? 0x5001 then 0x70 else if a =? 0x5009 then 0x60 else 0) false 0x6000 0 (fun _ => 0) 0.

(** The callee starts with the base of x86 and its first argument. *)
Lemma x86_wrapper_calls_witness : exists d1,
  x86_runs 4096 sample_wrapper (4096, sample_wrapper_regs) (0x401000, d1) /\ fs_base d1 = 0x7000 /\ gpr d1 RDI = 7.
Proof.
  destruct (x86_wrapper_calls sample_wrapper_env 4096 sample_wrapper [] 4096 0x401000 POLY_PROCESS_BRIDGE_DEFAULT sample_wrapper_regs)
    as (ret & d1 & Runs & We & _).
  - by compute.
  - by compute.
  - by compute.
  - lia.
  - lia.
  - rewrite app_nil_r. apply window_start.
  - unfold wrapper_caller_ok, sample_wrapper_regs. cbn [gpr]. split_and!; [by compute..| |by compute].
    intros r. unfold in_width. pose proof (Z.mod_pos_bound r 32 ltac:(lia)). destruct (r =? RSP); lia.
  - split; [by compute|]. left. by compute.
  - split; [by compute|]. left. by compute.
  - exists d1. split; [exact Runs|]. split; [exact (we_fs _ _ _ _ _ We)|].
    rewrite (we_args _ _ _ _ _ We RDI ltac:(rewrite elem_of_cons; by left)). reflexivity.
Defined.
