(* ===== verification/TlsHelpers.v ===== *)
(** The thread-local storage helpers of [tools/runtime/polyexec.c]: for every
    architecture the code that a TLS descriptor calls and the code behind
    [__tls_get_addr], emitted once into the mapping of the main program
    ([emit_process_tls_helpers_for_arches]) and run on the machine of
    [StubMachine]. *)

From stdpp Require Import relations.
From S2P Require Import Prelude LoaderBase BridgeSpec ElfImage CodeEmit Trampoline CrossStub StubMachine CrossStubRun.

Definition POLY_ARCH_COUNT : Z := 3.

(** The mapping, as its address and bytes, and the offset that code is emitted
    at. *)
Record code_page := MkPage { page_addr : Z; page_bytes : list Z; page_offset : Z }.

Definition emit_at (p : code_page) (code : list Z) : code_page :=
  let o := Z.to_nat (page_offset p) in
  MkPage (page_addr p) (take o (page_bytes p) ++ code ++ drop (o + length code) (page_bytes p))
    (page_offset p + Z.of_nat (length code)).

Definition page_here (p : code_page) : Z := u64 (page_addr p + page_offset p).

Definition process_helper_for_arch (helpers : list Z) (arch : Z) : Z :=
  if (arch <? 0) || (POLY_ARCH_COUNT <=? arch) then 0 else nth (Z.to_nat arch) helpers 0.

(** The guard that both emitters start with. *)
Definition align_page (p : code_page) : option code_page :=
  off ← align_up_size (page_offset p) 4;
  if SIZE_MAX - 16 <? off then None else Some (MkPage (page_addr p) (page_bytes p) off).

Definition emit_process_tlsdesc_helper_for_arch (arch : Z) (p : code_page) : option (code_page * Z) :=
  p ← align_page p;
  if negb (arch =? POLY_ARCH_AARCH64) then Some (p, 0)
  else Some (emit_at p (emit_u32 (emit_u32 [] 0xf9400400) 0xd65f03c0), page_here p).

Definition emit_process_tls_get_addr_helper_for_arch (arch : Z) (p : code_page) : option (code_page * Z) :=
  p ← align_page p;
  if negb (arch =? POLY_ARCH_X86) && negb (arch =? POLY_ARCH_AARCH64) && negb (arch =? POLY_ARCH_RISCV) then Some (p, 0)
  else
    let code :=
      if arch =? POLY_ARCH_X86 then emit_bytes [] [0x48; 0x8b; 0x47; 0x08; 0x4c; 0x01; 0xe8; 0xc3]
      else if arch =? POLY_ARCH_AARCH64 then
        emit_u32 (emit_u32 (emit_u32 (emit_u32 [] 0xd53bd041) 0xf9400400) 0x8b000020) 0xd65f03c0
      else emit_u32 (emit_u32 (emit_u32 [] (riscv_ld 10 10 8)) (riscv_add 10 10 4)) (riscv_jalr 0 1 0) in
    Some (emit_at p code, page_here p).

(** The loop over the architectures; the two arrays fill from the front. *)
Fixpoint emit_tls_helpers (archs : list Z) (p : code_page) : option (code_page * list Z * list Z) :=
  match archs with
  | [] => Some (p, [], [])
  | arch :: archs' =>
      '(p, desc) ← emit_process_tlsdesc_helper_for_arch arch p;
      '(p, get) ← emit_process_tls_get_addr_helper_for_arch arch p;
      '(p, descs, gets) ← emit_tls_helpers archs' p;
      Some (p, desc :: descs, get :: gets)
  end.

Definition emit_process_tls_helpers_for_arches (p : code_page) : option (code_page * list Z * list Z) :=
  emit_tls_helpers (Z.of_nat <$> seq 0 (Z.to_nat POLY_ARCH_COUNT)) p.

(** ** What is emitted *)

Definition x86_get_addr_block : list (x86_insn * list Z) :=
  [(X_MOV (Reg RAX) (Mem RDI 8), [0x48; 0x8b; 0x47; 0x08]); (X_ADDR RAX R13, [0x4c; 0x01; 0xe8])].
Definition a64_desc_block : list (a64_insn * Z) := [(A64_LDR 0 0 8, 0xf9400400)].
Definition a64_get_addr_block : list (a64_insn * Z) :=
  [(A64_MRS_TPIDR 1, 0xd53bd041); (A64_LDR 0 0 8, 0xf9400400); (A64_ADD 0 1 0, 0x8b000020)].
Definition a64_ret_insn : a64_insn * list Z := (A64_RET 30, le_bytes 4 0xd65f03c0).
Definition rv_get_addr_block : list (rv_insn * Z) := [(RV_LD 10 10 8, riscv_ld 10 10 8); (RV_ADD 10 10 4, riscv_add 10 10 4)].
Definition rv_ret_insn : rv_insn * list Z := (RV_JALR 0 1 0, le_bytes 4 (riscv_jalr 0 1 0)).

(** The four helpers, one behind the other. *)
Definition helpers_code : list Z :=
  (block_bytes x86_get_addr_block ++ [0xc3]) ++
  (block_bytes (assemble a64_desc_block) ++ a64_ret_insn.2) ++
  (block_bytes (assemble a64_get_addr_block) ++ a64_ret_insn.2) ++
  (block_bytes (assemble rv_get_addr_block) ++ rv_ret_insn.2).

Lemma align_up_aligned (off : Z) : 0 <= off -> off + 4 < 2 ^ 64 -> off mod 4 = 0 -> align_up_size off 4 = Some off.
Proof.
  intros H0 H1 Hm. destruct (align_up_size off 4) as [r|] eqn:E.
  - apply align_up_size_spec in E as (Hle & Hr & _); [|unfold in_width; lia..]. destruct Hr as [Hr1 Hr2]; [lia|].
    f_equal. pose proof (Z.div_mod r 4). pose proof (Z.div_mod off 4). lia.
  - exfalso. revert E. unfold align_up_size. change (4 <=? 1) with false. cbn iota.
    change (negb (Z.land 4 (4 - 1) =? 0)) with false. cbn [orb]. rewrite Z.gtb_ltb. destruct (Z.ltb_spec (SIZE_MAX - (4 - 1)) off); [|done].
    unfold SIZE_MAX in *. lia.
Qed.

Lemma align_page_aligned (p : code_page) : 0 <= page_offset p -> page_offset p <= SIZE_MAX - 16 -> page_offset p mod 4 = 0 ->
  align_page p = Some p.
Proof.
  intros H0 H1 Hm. unfold align_page. rewrite align_up_aligned by (unfold SIZE_MAX in *; lia). cbn.
  destruct (Z.ltb_spec (SIZE_MAX - 16) (page_offset p)); [lia|]. by destruct p.
Qed.

Lemma align_page_spec (p p0 : code_page) : align_page p = Some p0 -> in_width 64 (page_offset p) ->
  page_offset p <= page_offset p0 /\ page_offset p0 mod 4 = 0 /\ page_bytes p0 = page_bytes p /\ page_addr p0 = page_addr p.
Proof.
  intros Hp Hw. unfold align_page in Hp. destruct (align_up_size (page_offset p) 4) as [r|] eqn:E; [|done]. cbn in Hp.
  destruct (SIZE_MAX - 16 <? r); [done|]. injection Hp as <-. cbn [page_offset page_bytes page_addr].
  apply align_up_size_spec in E as (Hle & Hr & _); [|done|done]. split_and!; try done. by apply Hr.
Qed.

Lemma emit_at_app (p : code_page) (c1 c2 : list Z) : 0 <= page_offset p ->
  page_offset p + Z.of_nat (length (c1 ++ c2)) <= Z.of_nat (length (page_bytes p)) ->
  emit_at (emit_at p c1) c2 = emit_at p (c1 ++ c2).
Proof.
  intros H0 H1. unfold emit_at. cbn [page_addr page_bytes page_offset]. rewrite length_app in *.
  replace (Z.to_nat (page_offset p + Z.of_nat (length c1))) with (Z.to_nat (page_offset p) + length c1)%nat by lia.
  set (o := Z.to_nat (page_offset p)) in *. f_equal; [|lia].
  assert (length (take o (page_bytes p) ++ c1) = (o + length c1)%nat) as L by (rewrite length_app, length_take; lia).
  rewrite (app_assoc (take o _) c1 (drop _ _)), <- L, take_app_length, <- drop_drop, drop_app_length, drop_drop, <- !app_assoc.
  by rewrite L, Nat.add_assoc.
Qed.

(** The code behind the first one of two pieces. *)
Lemma emit_at_here (p : code_page) (code : list Z) : 0 <= page_offset p ->
  page_offset p + Z.of_nat (length code) <= Z.of_nat (length (page_bytes p)) ->
  exists rest, drop (Z.to_nat (page_offset p)) (page_bytes (emit_at p code)) = code ++ rest.
Proof.
  intros H0 H1. eexists. unfold emit_at. cbn [page_bytes].
  by rewrite drop_app_length' by (rewrite length_take; lia).
Qed.

Lemma emit_tls_helpers_bytes (p p0 : code_page) : align_page p = Some p0 ->
  in_width 64 (page_offset p) -> page_offset p0 + 44 <= Z.of_nat (length (page_bytes p)) ->
  page_offset p0 + 60 <= SIZE_MAX ->
  let here n := u64 (page_addr p + page_offset p0 + n) in
  emit_process_tls_helpers_for_arches p =
  Some (emit_at p0 helpers_code, [0; here 8; 0], [here 0; here 16; here 32]).
Proof.
  intros Hp Hw Hroom Hmax here.
  destruct (align_page_spec p p0) as (Hle & Hm & Hb & Ha); [done|done|].
  assert (0 <= page_offset p0) as Hn by (destruct Hw; lia).
  set (o := page_offset p0) in *.
  assert (forall c, Z.of_nat (length c) mod 4 = 0 -> Z.of_nat (length c) <= 44 -> align_page (emit_at p0 c) = Some (emit_at p0 c)) as Hal.
  { intros c Hc Hc2. apply align_page_aligned; cbn [emit_at page_offset]; fold o; [lia|lia|].
    rewrite Z.add_mod, Hm, Hc by lia. done. }
  unfold emit_process_tls_helpers_for_arches. change (Z.of_nat <$> seq 0 (Z.to_nat POLY_ARCH_COUNT)) with [0; 1; 2].
  cbn [emit_tls_helpers]. unfold emit_process_tlsdesc_helper_for_arch, emit_process_tls_get_addr_helper_for_arch,
    POLY_ARCH_X86, POLY_ARCH_AARCH64, POLY_ARCH_RISCV.
  rewrite Hp. cbn [mbind option_bind Z.eqb Pos.eqb negb andb]. rewrite (align_page_aligned p0) by (fold o; lia).
  cbn [mbind option_bind].
  assert (forall c1 c2, Z.of_nat (length (c1 ++ c2)) <= 44 -> emit_at (emit_at p0 c1) c2 = emit_at p0 (c1 ++ c2)) as Happ.
  { intros c1 c2 Hc. apply emit_at_app; fold o; rewrite ?Hb; lia. }
  rewrite Hal by (by vm_compute). cbn [mbind option_bind]. rewrite Happ by (by vm_compute).
  rewrite Hal by (by vm_compute). cbn [mbind option_bind]. rewrite Happ by (by vm_compute).
  rewrite !Hal by (by vm_compute). cbn [mbind option_bind]. rewrite Hal by (by vm_compute). cbn [mbind option_bind].
  rewrite Happ by (by vm_compute). unfold page_here, here. cbn [emit_at page_addr page_offset]. rewrite Ha. fold o.
  rewrite Z.add_0_r, !Z.add_assoc. reflexivity.
Qed.

(** ** What the helpers do *)

#[local] Opaque wrap mem_load mem_store set_reg.

Section Running.
  Context (base addr : Z) (code rest : list Z).

Lemma x86_get_addr_runs (d : data) : window base code addr = block_bytes x86_get_addr_block ++ [0xc3] ++ rest ->
  exists d', x86_runs base code (addr, d) (mem_load (mem d) (gpr d RSP), d') /\
  gpr d' RAX = u64 (mem_load (mem d) (u64 (gpr d RDI + 8)) + gpr d R13) /\ gpr d' RSP = u64 (gpr d RSP + 8) /\
  (forall r, r ∉ [RAX; RSP] -> gpr d' r = gpr d r) /\ mem d' = mem d /\ fpr d' = fpr d.
Proof using.
  intros Hw. destruct d as [g f m zf fs tp sg ns]. unfold RAX, RSP, RDI, R13.
  assert (Forall (encodes 1) x86_get_addr_block) as He.
  { unfold x86_get_addr_block. repeat (apply Forall_cons_2; [split_and!; [done|done|by intros ? ? _]|]). apply Forall_nil_2. }
  assert (exists d', (forall pc, run_block pc (Data g f m zf fs tp sg ns) x86_get_addr_block = Some d') /\
    gpr d' 0 = u64 (mem_load m (u64 (g 7 + 8)) + g 13) /\ (forall r, r ∉ [0] -> gpr d' r = g r) /\ mem d' = m /\ fpr d' = f)
    as (d1 & R & A & G & M & F).
  { unfold x86_get_addr_block. eexists. split; [intros pc; eval_block; reflexivity|]. cbn [gpr mem fpr]. read_regs.
    split_and!; try done. intros r Hr. by read_regs. }
  destruct (block_runs base code 1 ltac:(lia) _ _ He addr _ d1 (conj (Z.mod_1_r _) Hw) (R addr)) as [Runs Hat].
  exists (set_gpr d1 4 (u64 (g 4 + 8))). cbn [gpr mem fpr] in *. unfold set_gpr. cbn [gpr mem fpr].
  assert (gpr d1 4 = g 4) as E4 by (apply G; not_in). split_and!; try (by read_regs).
  - etransitivity; [exact Runs|]. eapply (jump_runs base code 1 _ _ _ _ (X_RET, [0xc3])); [|exact Hat|].
    + split_and!; [done|done|by intros ? ? _].
    + cbn [exec x86_isa x86_exec1 fst]. unfold RSP, set_gpr. by rewrite E4, M.
  - intros r Hr. rewrite set_reg_other by not_in. apply G. revert Hr. rewrite !elem_of_cons. tauto.
Qed.

Lemma a64_block_returns (block : list (a64_insn * Z)) (d d1 : data) :
  Forall (encodes 4) (assemble block) -> addr mod 4 = 0 ->
  window base code addr = block_bytes (assemble block) ++ a64_ret_insn.2 ++ rest ->
  run_block addr d (assemble block) = Some d1 -> a64_runs base code (addr, d) (gpr d1 30, d1).
Proof using.
  intros He Ha Hw R. destruct (block_runs base code 4 ltac:(lia) _ _ He addr d d1 (conj Ha Hw) R) as [Runs Hat].
  etransitivity; [exact Runs|]. eapply jump_runs; [|exact Hat|done]. by apply a64_encodes.
Qed.

Lemma a64_desc_runs (d : data) : addr mod 4 = 0 ->
  window base code addr = block_bytes (assemble a64_desc_block) ++ a64_ret_insn.2 ++ rest ->
  exists d', a64_runs base code (addr, d) (gpr d 30, d') /\ gpr d' 0 = mem_load (mem d) (u64 (gpr d 0 + 8)) /\
  (forall r, r ∉ [0] -> gpr d' r = gpr d r) /\ mem d' = mem d /\ fpr d' = fpr d.
Proof using.
  intros Ha Hw. exists (set_gpr d 0 (mem_load (mem d) (u64 (gpr d 0 + 8)))).
  replace (gpr d 30) with (gpr (set_gpr d 0 (mem_load (mem d) (u64 (gpr d 0 + 8)))) 30) by (unfold set_gpr; cbn [gpr]; by read_regs).
  split; [|unfold set_gpr; cbn [gpr]; split_and!; [by read_regs|intros r Hr; by read_regs|done|done]].
  apply (a64_block_returns a64_desc_block); [|done..]. apply Forall_cons_2; [by apply a64_encodes|apply Forall_nil_2].
Qed.

Lemma a64_get_addr_runs (d : data) : addr mod 4 = 0 ->
  window base code addr = block_bytes (assemble a64_get_addr_block) ++ a64_ret_insn.2 ++ rest ->
  exists d', a64_runs base code (addr, d) (gpr d 30, d') /\
  gpr d' 0 = u64 (tpidr d + mem_load (mem d) (u64 (gpr d 0 + 8))) /\
  (forall r, r ∉ [0; 1] -> gpr d' r = gpr d r) /\ mem d' = mem d /\ fpr d' = fpr d.
Proof using.
  intros Ha Hw.
  assert (exists d', (forall pc, run_block pc d (assemble a64_get_addr_block) = Some d') /\
    gpr d' 0 = u64 (tpidr d + mem_load (mem d) (u64 (gpr d 0 + 8))) /\
    (forall r, r ∉ [0; 1] -> gpr d' r = gpr d r) /\ mem d' = mem d /\ fpr d' = fpr d) as (d' & R & A & G & M & F).
  { destruct d as [g f m zf fs tp sg ns]. unfold a64_get_addr_block.
    eexists. split; [intros pc; eval_block; reflexivity|]. cbn [gpr mem fpr tpidr]. read_regs.
    split_and!; try done. intros r Hr. by read_regs. }
  exists d'. split_and!; try done. rewrite <- (G 30) by not_in.
  apply (a64_block_returns a64_get_addr_block); [|done|done|apply R].
  unfold a64_get_addr_block, assemble. encode_words ltac:(by apply a64_encodes).
Qed.

Lemma rv_get_addr_runs (d : data) : addr mod 4 = 0 ->
  window base code addr = block_bytes (assemble rv_get_addr_block) ++ rv_ret_insn.2 ++ rest ->
  in_width 64 (gpr d 1) -> gpr d 1 mod 2 = 0 ->
  exists d', rv_runs base code (addr, d) (gpr d 1, d') /\
  gpr d' 10 = u64 (mem_load (mem d) (u64 (gpr d 10 + 8)) + gpr d 4) /\
  (forall r, r ∉ [10] -> gpr d' r = gpr d r) /\ mem d' = mem d /\ fpr d' = fpr d.
Proof using.
  intros Ha Hw H1 H2.
  assert (exists d', (forall pc, run_block pc d (assemble rv_get_addr_block) = Some d') /\
    gpr d' 10 = u64 (mem_load (mem d) (u64 (gpr d 10 + 8)) + gpr d 4) /\
    (forall r, r ∉ [10] -> gpr d' r = gpr d r) /\ mem d' = mem d /\ fpr d' = fpr d) as (d' & R & A & G & M & F).
  { destruct d as [g f m zf fs tp sg ns]. unfold rv_get_addr_block.
    eexists. split; [intros pc; eval_block; reflexivity|]. cbn [gpr mem fpr]. read_regs.
    split_and!; try done. intros r Hr. by read_regs. }
  assert (Forall (encodes 4) (assemble rv_get_addr_block)) as He.
  { unfold rv_get_addr_block, assemble. encode_words ltac:(by apply rv_encodes). }
  destruct (block_runs base code 4 ltac:(lia) _ _ He addr d d' (conj Ha Hw) (R addr)) as [Runs Hat].
  exists d'. split_and!; try done. etransitivity; [exact Runs|]. eapply jump_runs; [|exact Hat|].
  - by apply rv_encodes.
  - cbn [exec rv_isa rv_exec1 fst rv_ret_insn]. cbv [rv_get rv_set Z.eqb]. rewrite (G 1) by not_in.
    by rewrite Z.add_0_r, wrap_small, H2, Z.sub_0_r.
Qed.

End Running.

(** A function that returns [v] in [result] to its caller and changes nothing
    but the registers [rs]. *)
Definition returns_value (result : Z) (rs : list Z) (v : Z) (d d' : data) : Prop :=
  gpr d' result = v /\ (forall r, r ∉ rs -> gpr d' r = gpr d r) /\ mem d' = mem d /\ fpr d' = fpr d.

Lemma window_at (base n : Z) (code : list Z) : 0 <= n -> window base code (base + n) = drop (Z.to_nat n) code.
Proof. intros Hn. unfold window. rewrite (proj2 (Z.leb_le _ _)) by lia. f_equal. lia. Qed.

(** The four helpers in the page. *)
Lemma helpers_windows (p : code_page) : 0 <= page_offset p ->
  page_offset p + 44 <= Z.of_nat (length (page_bytes p)) -> exists rest,
  let w n := window (page_addr p) (page_bytes (emit_at p helpers_code)) (page_addr p + page_offset p + n) in
  let r2 := block_bytes (assemble rv_get_addr_block) ++ rv_ret_insn.2 ++ rest in
  let r1 := block_bytes (assemble a64_get_addr_block) ++ a64_ret_insn.2 ++ r2 in
  let r0 := block_bytes (assemble a64_desc_block) ++ a64_ret_insn.2 ++ r1 in
  w 0 = block_bytes x86_get_addr_block ++ [0xc3] ++ r0 /\ w 8 = r0 /\ w 16 = r1 /\ w 32 = r2.
Proof.
  intros H0 H1. destruct (emit_at_here p helpers_code) as (rest & Hr); [done|by vm_compute (length helpers_code)|].
  exists rest. intros w. assert (forall n, 0 <= n -> w n = drop (Z.to_nat n) (helpers_code ++ rest)) as E.
  { intros n Hn. unfold w. rewrite <- Z.add_assoc, window_at, <- Hr, drop_drop by lia. f_equal. lia. }
  intros r2 r1 r0. rewrite !E by lia. unfold helpers_code. split_and!; by vm_compute.
Qed.

Lemma helpers_by_arch (a b c : Z) :
  process_helper_for_arch [a; b; c] POLY_ARCH_X86 = a /\ process_helper_for_arch [a; b; c] POLY_ARCH_AARCH64 = b /\
  process_helper_for_arch [a; b; c] POLY_ARCH_RISCV = c.
Proof. done. Qed.

(** In a 4-aligned page with room for them, the runtime emits one helper per
    architecture behind the current offset, without touching other bytes; the
    address recorded for each architecture is code of that architecture which,
    called with the address of a TLS index, returns the offset stored behind
    the module word plus the thread pointer (r13, [tpidr_el0] or [tp]) and
    preserves memory and every register but the result (and x1).  Descriptors
    have a helper on AArch64 alone: it returns the stored offset. *)
Theorem tls_helpers_run (p p0 : code_page) (d : data) :
  align_page p = Some p0 -> in_width 64 (page_offset p) -> 0 <= page_addr p -> page_addr p mod 4 = 0 ->
  page_addr p + Z.of_nat (length (page_bytes p)) + 16 < 2 ^ 64 ->
  page_offset p0 + 44 <= Z.of_nat (length (page_bytes p)) ->
  exists p' descs gets, emit_process_tls_helpers_for_arches p = Some (p', descs, gets) /\
  take (Z.to_nat (page_offset p)) (page_bytes p') = take (Z.to_nat (page_offset p)) (page_bytes p) /\
  let helper := process_helper_for_arch gets in
  let offset r := mem_load (mem d) (u64 (gpr d r + 8)) in
  let code := page_bytes p' in
  process_helper_for_arch descs POLY_ARCH_X86 = 0 /\ process_helper_for_arch descs POLY_ARCH_RISCV = 0 /\
  (exists d', a64_runs (page_addr p) code (process_helper_for_arch descs POLY_ARCH_AARCH64, d) (gpr d 30, d') /\
              returns_value 0 [0] (offset 0) d d') /\
  (exists d', x86_runs (page_addr p) code (helper POLY_ARCH_X86, d) (mem_load (mem d) (gpr d RSP), d') /\
              returns_value RAX [RAX; RSP] (u64 (offset RDI + gpr d R13)) d d' /\ gpr d' RSP = u64 (gpr d RSP + 8)) /\
  (exists d', a64_runs (page_addr p) code (helper POLY_ARCH_AARCH64, d) (gpr d 30, d') /\
              returns_value 0 [0; 1] (u64 (tpidr d + offset 0)) d d') /\
  (in_width 64 (gpr d 1) -> gpr d 1 mod 2 = 0 -> exists d',
              rv_runs (page_addr p) code (helper POLY_ARCH_RISCV, d) (gpr d 1, d') /\
              returns_value 10 [10] (u64 (offset 10 + gpr d 4)) d d').
Proof.
  intros Hp Hw Ha Ham Hend Hroom.
  assert (page_offset p <= page_offset p0 /\ page_offset p0 mod 4 = 0 /\ page_bytes p0 = page_bytes p /\
          page_addr p0 = page_addr p) as (Hle & Hm & Hb & Had) by (by apply align_page_spec).
  assert (0 <= page_offset p0) as Hn by (destruct Hw; lia).
  destruct (helpers_windows p0) as (rest & W0 & W8 & W16 & W32); [done|by rewrite Hb|].
  rewrite Had in W0, W8, W16, W32.
  rewrite (emit_tls_helpers_bytes p p0) by (done || (unfold SIZE_MAX; lia)).
  do 3 eexists. split; [reflexivity|]. split.
  { unfold emit_at. cbn [page_bytes]. rewrite Hb, take_app_le, take_take by (rewrite length_take; lia). f_equal. lia. }
  cbn zeta. destruct (helpers_by_arch 0 (u64 (page_addr p + page_offset p0 + 8)) 0) as (-> & -> & ->).
  destruct (helpers_by_arch (u64 (page_addr p + page_offset p0 + 0)) (u64 (page_addr p + page_offset p0 + 16))
    (u64 (page_addr p + page_offset p0 + 32))) as (-> & -> & ->).
  rewrite !(wrap_small 64 (page_addr p + page_offset p0 + _)) by (unfold in_width; lia).
  assert (forall n, n mod 4 = 0 -> (page_addr p + page_offset p0 + n) mod 4 = 0) as Hal.
  { intros n Hn4. rewrite Z.add_mod, (Z.add_mod (page_addr p)), Ham, Hm, Hn4 by lia. done. }
  unfold returns_value. split_and!; [done|done|..].
  - destruct (a64_desc_runs (page_addr p) _ _ _ d (Hal 8 eq_refl) W8) as (d' & R & A & G & M & F). by exists d'.
  - destruct (x86_get_addr_runs (page_addr p) _ _ _ d W0) as (d' & R & A & S & G & M & F). by exists d'.
  - destruct (a64_get_addr_runs (page_addr p) _ _ _ d (Hal 16 eq_refl) W16) as (d' & R & A & G & M & F). by exists d'.
  - intros H1 H2.
    destruct (rv_get_addr_runs (page_addr p) _ _ _ d (Hal 32 eq_refl) W32 H1 H2) as (d' & R & A & G & M & F). by exists d'.
Qed.

Definition sample_page : code_page := MkPage 0x10000 (replicate 64 0) 5.

Lemma tls_helpers_run_witness : exists p' descs gets,
  emit_process_tls_helpers_for_arches sample_page = Some (p', descs, gets) /\
  process_helper_for_arch descs POLY_ARCH_X86 = 0.
Proof.
  destruct (tls_helpers_run sample_page (MkPage 0x10000 (replicate 64 0) 8)
    (Data (fun _ => 0) (fun _ => 0) (fun _ => 0) false 0 0 (fun _ => 0) 0)) as (p' & descs & gets & E & _ & H & _).
  - reflexivity.
  - by compute.
  - by compute.
  - reflexivity.
  - by compute.
  - by compute.
  - exists p', descs, gets. split; [exact E|exact H].
Defined.
