(* ===== verification/ProcessImage.v ===== *)
(** The mapping of the main program (the first part of [emit_and_run_process] of
    [tools/runtime/polyexec.c]): where the image, the entry trampoline, the two return
    pages and the thread-local storage helpers go, and the bytes that are put there.

    A position-independent image starts one page into the mapping, with the trampoline
    right below it and the return pages behind it; a fixed image starts the mapping and
    the code of the loader follows it. *)

From stdpp Require Import gmap relations.
From S2P Require Import Prelude LoaderBase BridgeSpec ElfImage CodeEmit Trampoline CrossStub StubMachine CrossStubRun TlsHelpers.

Definition load_base_offset : Z := 4096.
Definition fixed_control_size : Z := 64 * 1024.

(** The offsets and sizes of the mapping. *)
Record image_layout : Type := MkImageLayout {
  il_image_offset : Z;
  il_control_offset : Z;
  il_lifecycle_return_page_offset : Z;
  il_process_return_page_offset : Z;
  il_mapping_size : Z;
}.

Definition process_image_layout (arch code_size base_vaddr : Z) (fixed_main_image : bool) : option image_layout :=
  let prefix_size := poly_trampoline_prefix_size arch in
  if prefix_size =? 0 then None
  else
    let escape_return_size := if arch =? POLY_ARCH_X86 then 1 else 5 in
    let image_mapping_size := align_up_u64 (u64 (code_size + (if fixed_main_image then 0 else escape_return_size))) 0x1000 in
    if (image_mapping_size =? 0) || (image_mapping_size >? SIZE_MAX) ||
       (negb fixed_main_image && (image_mapping_size >? SIZE_MAX - load_base_offset - 4096)) ||
       (fixed_main_image && (image_mapping_size >? SIZE_MAX - fixed_control_size)) then None
    else
      let lifecycle_return_page_offset :=
        u64 (if fixed_main_image then image_mapping_size + 4096 else load_base_offset + image_mapping_size) in
      let process_return_page_offset := u64 (lifecycle_return_page_offset + 4096) in
      let mapping_size :=
        u64 (if fixed_main_image then image_mapping_size + fixed_control_size else process_return_page_offset + 4096) in
      if fixed_main_image && ((base_vaddr >? UINT64_MAX) || (mapping_size >? UINT64_MAX - base_vaddr)) then None
      else Some (MkImageLayout (if fixed_main_image then 0 else load_base_offset)
                   (if fixed_main_image then image_mapping_size else load_base_offset - prefix_size)
                   lifecycle_return_page_offset process_return_page_offset mapping_size).

(** The way back to x86 from the frontend of the program. *)
Definition escape_code (arch : Z) : list Z :=
  if negb (arch =? POLY_ARCH_X86)
  then emit_u32 [] (if arch =? POLY_ARCH_AARCH64 then POLY_AARCH64_CTRL_X86_ESCAPE else POLY_RISCV_CTRL_X86_ESCAPE) else [].
Definition return_code (arch : Z) : list Z := escape_code arch ++ [0xc3].
Definition exit_code (arch : Z) : list Z := emit_x86_exit_group_from_eax (escape_code arch).

Definition seek (p : code_page) (offset : Z) : code_page := MkPage (page_addr p) (page_bytes p) offset.

(** The bytes of the mapping at [addr], zero before, and the addresses of the helpers. *)
Definition place_process (arch : Z) (code_bytes : list Z) (fixed_main_image : bool) (l : image_layout) (addr : Z) :
    option (code_page * list Z * list Z) :=
  let p := MkPage addr (replicate (Z.to_nat (il_mapping_size l)) 0) (il_image_offset l) in
  let p := emit_at p code_bytes in
  let p := if fixed_main_image then p else emit_at p (return_code arch) in
  let p := emit_at (seek p (il_lifecycle_return_page_offset l)) (return_code arch) in
  let p := emit_at (seek p (il_process_return_page_offset l)) (exit_code arch) in
  offset ← align_up_size (page_offset p) 4;
  emit_process_tls_helpers_for_arches (seek p offset).

(** ** Bytes *)

Definition holds_at (bytes : list Z) (off : Z) (l : list Z) : Prop := exists rest, drop (Z.to_nat off) bytes = l ++ rest.

Lemma holds_at_zero (n : nat) (off : Z) (k : nat) : 0 <= off -> off + Z.of_nat k <= Z.of_nat n ->
  holds_at (replicate n 0) off (replicate k 0).
Proof.
  intros H0 H1. exists (replicate (n - Z.to_nat off - k) 0). rewrite drop_replicate, <- replicate_add. f_equal. lia.
Qed.

Definition has_room (p : code_page) (code : list Z) : Prop :=
  0 <= page_offset p /\ page_offset p + Z.of_nat (length code) <= Z.of_nat (length (page_bytes p)).

Lemma emit_length (p : code_page) (code : list Z) : has_room p code -> length (page_bytes (emit_at p code)) = length (page_bytes p).
Proof. intros [H0 H1]. cbn [emit_at page_bytes]. rewrite !length_app, length_take, length_drop. lia. Qed.

Lemma emit_new (p : code_page) (code : list Z) : has_room p code -> holds_at (page_bytes (emit_at p code)) (page_offset p) code.
Proof. intros [H0 H1]. by apply emit_at_here. Qed.

Lemma drop_prefix {A} (b l rest : list A) (n : nat) : drop n b = l ++ rest -> (n + length l <= length b)%nat \/ l = [].
Proof. intros H. pose proof (f_equal length H) as E. rewrite length_drop, length_app in E. destruct l; [by right|left]. cbn in *. lia. Qed.

(** Code elsewhere stays. *)
Lemma emit_keeps (p : code_page) (code l : list Z) (off : Z) : has_room p code -> 0 <= off ->
  off + Z.of_nat (length l) <= page_offset p \/ page_offset p + Z.of_nat (length code) <= off ->
  holds_at (page_bytes p) off l -> holds_at (page_bytes (emit_at p code)) off l.
Proof.
  intros [H0 H1] Ho Hd [rest E]. cbn [emit_at page_bytes]. remember (Z.to_nat (page_offset p)) as o eqn:Eo. set (b := page_bytes p) in *.
  destruct Hd as [Hd|Hd].
  - exists (drop (Z.to_nat off + length l) (take o b ++ code ++ drop (o + length code) b)).
    rewrite <- (take_drop (length l) (drop (Z.to_nat off) _)) at 1. rewrite drop_drop. f_equal.
    assert (take (length l) (drop (Z.to_nat off) b) = l) as El by (by rewrite E, take_app_length).
    rewrite drop_app_le, take_app_le by (rewrite ?length_drop, ?length_take; lia).
    rewrite skipn_firstn_comm, take_take, Nat.min_l by lia. done.
  - exists rest. rewrite app_assoc, drop_app_ge by (rewrite length_app, length_take; lia). rewrite drop_drop, <- E. f_equal.
    rewrite length_app, length_take. lia.
Qed.

(** ** The layout *)

Lemma align_up_page (v : Z) : 0 <= v -> v + 4096 < 2 ^ 64 ->
  v <= align_up_u64 v 0x1000 < v + 4096 /\ align_up_u64 v 0x1000 mod 4096 = 0.
Proof.
  intros H0 H1. assert (align_up_size v 4096 = Some (align_up_u64 v 0x1000)) as E.
  { unfold align_up_size, align_up_u64. change (4096 <=? 1) with false. change (negb (Z.land 4096 (4096 - 1) =? 0)) with false.
    cbn [orb]. rewrite Z.gtb_ltb. destruct (Z.ltb_spec (SIZE_MAX - (4096 - 1)) v) as [H|H]; [unfold SIZE_MAX in H; lia|done]. }
  apply align_up_size_spec in E as (Hle & Hr & _); [|unfold in_width; lia..]. destruct Hr as [Hr1 Hr2]; [lia|]. lia.
Qed.

Lemma prefix_small (arch : Z) : 0 <= poly_trampoline_prefix_size arch <= 37.
Proof. unfold poly_trampoline_prefix_size. destruct_ifs; vm_compute; split; congruence. Qed.

Lemma return_code_length (arch : Z) : (length (return_code arch) <= if (arch =? POLY_ARCH_X86)%Z then 1 else 5)%nat.
Proof. unfold return_code, escape_code. destruct (arch =? POLY_ARCH_X86); cbn [negb]; [cbn; lia|]. rewrite length_app, emit_u32_le, length_app, le_bytes_length. cbn. lia. Qed.

Lemma exit_code_length (arch : Z) : (length (exit_code arch) <= 14)%nat.
Proof.
  unfold exit_code, escape_code, emit_x86_exit_group_from_eax. destruct (arch =? POLY_ARCH_X86); cbn [negb];
    rewrite ?length_app, !emit_u32_le, !length_app, !le_bytes_length; cbn [length]; rewrite ?length_app, ?le_bytes_length; cbn; lia.
Qed.

(** What a layout looks like, in terms of the size of the image. *)
Lemma layout_shape (arch code_size base_vaddr : Z) (fixed : bool) (l : image_layout) :
  0 <= code_size < 2 ^ 63 -> process_image_layout arch code_size base_vaddr fixed = Some l ->
  exists size, code_size + (if fixed then 0 else if arch =? POLY_ARCH_X86 then 1 else 5) <= size /\
    size < code_size + 4096 + 5 /\ size mod 4096 = 0 /\ poly_trampoline_prefix_size arch <> 0 /\
    l = if fixed then MkImageLayout 0 size (size + 4096) (size + 8192) (size + fixed_control_size)
        else MkImageLayout load_base_offset (load_base_offset - poly_trampoline_prefix_size arch)
               (size + 4096) (size + 8192) (size + 12288).
Proof.
  intros Hc. unfold process_image_layout. destruct (Z.eqb_spec (poly_trampoline_prefix_size arch) 0) as [|Hp]; [done|].
  set (extra := if fixed then 0 else if arch =? POLY_ARCH_X86 then 1 else 5).
  assert (0 <= extra <= 5) as He by (unfold extra; destruct_ifs; lia).
  rewrite (wrap_small 64 (code_size + extra)) by (unfold in_width; lia).
  destruct (align_up_page (code_size + extra)) as [Hs Hm]; [lia..|]. set (size := align_up_u64 _ _) in *.
  destruct (_ || _); [done|]. assert (size < 2 ^ 63 + 4101) by lia.
  intros H1. exists size. split; [lia|]. split; [lia|]. split; [done|]. split; [done|]. revert H1.
  unfold load_base_offset, fixed_control_size. destruct fixed; cbn [andb].
  - destruct (_ || _); [done|]. rewrite !wrap_small by (rewrite ?wrap_small; unfold in_width; lia). intros [= <-]. f_equal. lia.
  - rewrite !wrap_small by (rewrite ?wrap_small; unfold in_width; lia). intros [= <-]. f_equal; lia.
Qed.

(** ** The bytes in their places *)

Definition apart (off : Z) (code : list Z) (r : Z * list Z) : Prop :=
  r.1 + Z.of_nat (length r.2) <= off \/ off + Z.of_nat (length code) <= r.1.

(** A page of a size that has some pieces of code in it. *)
Definition filled (size : Z) (p : code_page) (known : list (Z * list Z)) : Prop :=
  Z.of_nat (length (page_bytes p)) = size /\ Forall (fun r => 0 <= r.1 /\ holds_at (page_bytes p) r.1 r.2) known.

Lemma filled_emit (size : Z) (p : code_page) (code : list Z) (known : list (Z * list Z)) :
  filled size p known -> 0 <= page_offset p -> page_offset p + Z.of_nat (length code) <= size ->
  Forall (apart (page_offset p) code) known -> filled size (emit_at p code) ((page_offset p, code) :: known).
Proof.
  intros [Hl Hk] H0 H1 Ha. assert (has_room p code) as R by (split; lia). split; [by rewrite emit_length|].
  constructor; [split; [done|by apply emit_new]|]. rewrite Forall_forall in *. intros r Hr. destruct (Hk r Hr) as [Ho Hc].
  split; [done|]. apply emit_keeps; auto. exact (Ha r Hr).
Qed.

Lemma align_up_4 (v : Z) : 0 <= v -> v + 4 < 2 ^ 64 -> exists o, align_up_size v 4 = Some o /\ v <= o < v + 4 /\ o mod 4 = 0.
Proof.
  intros H0 H1. destruct (align_up_size v 4) as [o|] eqn:E.
  - exists o. split; [done|]. apply align_up_size_spec in E as (Hle & Hr & _); [|unfold in_width; lia..].
    destruct Hr as [Hr1 Hr2]; [lia|]. lia.
  - exfalso. revert E. unfold align_up_size. change (4 <=? 1) with false. change (negb (Z.land 4 (4 - 1) =? 0)) with false.
    cbn [orb]. rewrite Z.gtb_ltb. destruct (Z.ltb_spec (SIZE_MAX - (4 - 1)) v) as [H|]; [unfold SIZE_MAX in H; lia|done].
Qed.

(** The part after the image: the two return pages and the helpers. *)
Lemma control_filled (arch size : Z) (p : code_page) (known : list (Z * list Z)) (lifecycle_off process_off : Z) :
  filled size p known -> 0 <= lifecycle_off -> process_off = lifecycle_off + 4096 -> process_off + 4096 <= size -> size < 2 ^ 63 + 2 ^ 62 ->
  Forall (fun r => r.1 + Z.of_nat (length r.2) <= lifecycle_off) known ->
  exists p' descs gets known',
    (let p := emit_at (seek p lifecycle_off) (return_code arch) in
     let p := emit_at (seek p process_off) (exit_code arch) in
     offset ← align_up_size (page_offset p) 4;
     emit_process_tls_helpers_for_arches (seek p offset)) = Some (p', descs, gets) /\
    page_addr p' = page_addr p /\ filled size p' known' /\
    known ++ [(lifecycle_off, return_code arch); (process_off, exit_code arch)] ⊆ known' /\
    exists off, (off, helpers_code) ∈ known' /\ process_off < off /\
      gets = (fun n => u64 (page_addr p + off + n)) <$> [0; 16; 32] /\ descs = [0; u64 (page_addr p + off + 8); 0].
Proof.
  intros F H0 -> Hs Hm Ha. pose proof (return_code_length arch) as L1. pose proof (exit_code_length arch) as L2.
  assert ((length (return_code arch) <= 5)%nat) as L1' by (destruct (arch =? POLY_ARCH_X86); lia). clear L1.
  assert (length helpers_code = 44%nat) as L3 by done. assert (0 < length (exit_code arch))%nat as L4.
  { unfold exit_code, emit_x86_exit_group_from_eax. rewrite length_app. cbn. lia. }
  assert (filled size (seek p lifecycle_off) known) as F0 by exact F.
  apply (filled_emit _ _ (return_code arch)) in F0; [|cbn [seek page_offset]; lia..|
    eapply Forall_impl; [exact Ha|]; intros r Hr; left; cbn in *; lia].
  cbn zeta. set (p1 := emit_at (seek p lifecycle_off) _) in *. cbn [seek page_offset] in F0.
  assert (filled size (seek p1 (lifecycle_off + 4096)) ((lifecycle_off, return_code arch) :: known)) as F1 by exact F0.
  apply (filled_emit _ _ (exit_code arch)) in F1; [|cbn [seek page_offset]; lia..|
    constructor; [left; cbn; lia|eapply Forall_impl; [exact Ha|]; intros r Hr; left; cbn in *; lia]].
  set (p2 := emit_at (seek p1 _) _) in *. cbn [seek page_offset] in F1.
  assert (page_offset p2 = lifecycle_off + 4096 + Z.of_nat (length (exit_code arch))) as E2 by done.
  destruct (align_up_4 (page_offset p2)) as (off & Eo & Ho & Hoff); [lia..|]. rewrite Eo. cbn [mbind option_bind].
  assert (filled size (seek p2 off) ((lifecycle_off + 4096, exit_code arch) :: (lifecycle_off, return_code arch) :: known)) as F2 by exact F1.
  rewrite (emit_tls_helpers_bytes (seek p2 off) (seek p2 off)).
  - apply (filled_emit _ _ helpers_code) in F2; [|cbn [seek page_offset]; rewrite ?L3; lia..|
      do 2 (constructor; [left; cbn; lia|]); eapply Forall_impl; [exact Ha|]; intros r Hr; left; cbn in *; lia].
    eexists _, _, _, _. split; [reflexivity|]. split; [done|]. split; [exact F2|].
    split; [|exists off; split; [by left|]; split; [lia|]; cbn; by rewrite Z.add_0_r].
    intros r [Hr|Hr]%elem_of_app; [by do 3 right|]. apply elem_of_cons in Hr as [->|Hr]; [do 2 right; left|].
    apply elem_of_cons in Hr as [->|Hr]; [right; left|]. by apply elem_of_nil in Hr.
  - apply align_page_aligned; cbn [seek page_offset]; unfold SIZE_MAX; lia.
  - unfold in_width. cbn [seek page_offset]. lia.
  - destruct F2 as [-> _]. cbn [seek page_offset]. lia.
  - unfold SIZE_MAX. cbn [seek page_offset]. lia.
Qed.

(** Everything up to the end of the image. *)
Lemma image_filled (arch addr size code_size : Z) (code_bytes : list Z) (fixed : bool) (l : image_layout) :
  Z.of_nat (length code_bytes) = code_size ->
  code_size + (if fixed then 0 else if arch =? POLY_ARCH_X86 then 1 else 5) <= size ->
  l = (if fixed then MkImageLayout 0 size (size + 4096) (size + 8192) (size + fixed_control_size)
       else MkImageLayout load_base_offset (load_base_offset - poly_trampoline_prefix_size arch)
              (size + 4096) (size + 8192) (size + 12288)) ->
  let p := emit_at (MkPage addr (replicate (Z.to_nat (il_mapping_size l)) 0) (il_image_offset l)) code_bytes in
  let p := if fixed then p else emit_at p (return_code arch) in
  exists known, filled (il_mapping_size l) p known /\ page_addr p = addr /\
    [(il_image_offset l, code_bytes); (il_control_offset l, replicate (Z.to_nat (poly_trampoline_prefix_size arch)) 0)] ⊆ known /\
    Forall (fun r => r.1 + Z.of_nat (length r.2) <= il_lifecycle_return_page_offset l) known.
Proof.
  intros Hc Hs Hl p0. pose proof (prefix_small arch) as Hp. pose proof (return_code_length arch) as L1.
  set (room := replicate (Z.to_nat (poly_trampoline_prefix_size arch)) 0).
  assert (Z.of_nat (length room) = poly_trampoline_prefix_size arch) as Hroom by (unfold room; rewrite length_replicate; lia).
  set (extra := if fixed then 0 else if arch =? POLY_ARCH_X86 then 1 else 5) in *.
  assert (0 <= extra /\ (fixed = false -> Z.of_nat (length (return_code arch)) <= extra)) as [Hx Hret].
  { unfold extra. destruct fixed, (arch =? POLY_ARCH_X86); split; intros; lia. }
  assert (il_image_offset l + size <= il_lifecycle_return_page_offset l /\ 0 <= il_image_offset l /\ 0 <= il_control_offset l /\
    il_control_offset l + Z.of_nat (length room) <= il_lifecycle_return_page_offset l /\ il_lifecycle_return_page_offset l <= il_mapping_size l /\
    apart (il_image_offset l) code_bytes (il_control_offset l, room) /\
    (fixed = false -> il_control_offset l + Z.of_nat (length room) <= il_image_offset l)) as (A1 & A2 & A3 & A4 & A5 & A6 & A7).
  { unfold apart, fixed_control_size, load_base_offset in *. cbn [fst snd]. rewrite Hroom. subst l.
    destruct fixed; cbn [il_image_offset il_control_offset il_lifecycle_return_page_offset il_mapping_size]; split_and!; intros; try done; lia. }
  assert (filled (il_mapping_size l) (MkPage addr (replicate (Z.to_nat (il_mapping_size l)) 0) (il_image_offset l))
            [(il_control_offset l, room)]) as F0.
  { split; [cbn [page_bytes]; rewrite length_replicate; lia|]. constructor; [|constructor]. cbn [fst snd page_bytes].
    split; [done|apply holds_at_zero; lia]. }
  apply (filled_emit _ _ code_bytes) in F0; cbn [page_offset] in *; [|lia..|by constructor].
  fold p0 in F0. destruct fixed.
  - eexists. split; [exact F0|]. split; [done|]. split; [set_unfold; tauto|]. repeat constructor; cbn [fst snd]; lia.
  - specialize (Hret eq_refl). specialize (A7 eq_refl). unfold extra in *.
    apply (filled_emit _ _ (return_code arch)) in F0; cbn [page_offset p0 emit_at] in *; [|lia..|].
    2:{ constructor; [|constructor; [|constructor]]; left; cbn [fst snd]; lia. }
    eexists. split; [exact F0|]. split; [done|]. split; [set_unfold; tauto|]. repeat constructor; cbn [fst snd]; lia.
Qed.

(** C30: The program and the loader's own code are put into the mapping without touching
    each other or anything outside: emitting always succeeds and fills a mapping of
    exactly the size asked for, with the image at its offset, the way back to x86 and
    the exit of the process at the two return pages, the thread-local storage helpers
    behind them, and the room of the entry trampoline still free. *)
Theorem process_image_placed (arch base_vaddr addr : Z) (code_bytes : list Z) (fixed : bool) (l : image_layout) :
  Z.of_nat (length code_bytes) < 2 ^ 63 ->
  process_image_layout arch (Z.of_nat (length code_bytes)) base_vaddr fixed = Some l ->
  exists p descs gets off, place_process arch code_bytes fixed l addr = Some (p, descs, gets) /\
    page_addr p = addr /\ Z.of_nat (length (page_bytes p)) = il_mapping_size l /\
    holds_at (page_bytes p) (il_image_offset l) code_bytes /\
    holds_at (page_bytes p) (il_control_offset l) (replicate (Z.to_nat (poly_trampoline_prefix_size arch)) 0) /\
    holds_at (page_bytes p) (il_lifecycle_return_page_offset l) (return_code arch) /\
    holds_at (page_bytes p) (il_process_return_page_offset l) (exit_code arch) /\
    holds_at (page_bytes p) off helpers_code /\ il_process_return_page_offset l < off /\
    gets = (fun n => u64 (addr + off + n)) <$> [0; 16; 32] /\ descs = [0; u64 (addr + off + 8); 0].
Proof.
  intros Hc Hl. apply layout_shape in Hl as (size & Hs1 & Hs2 & _ & _ & El); [|lia].
  destruct (image_filled arch addr size _ code_bytes fixed l eq_refl Hs1 El) as (known & F & Ea & Hk & Hb).
  unfold place_process. cbn zeta in *. set (p := if fixed then emit_at _ _ else emit_at _ _) in *.
  destruct (control_filled arch _ p known (il_lifecycle_return_page_offset l) (il_process_return_page_offset l) F)
    as (p' & descs & gets & known' & E & Ea' & [Hlen Hall] & Hin & off & Ho & Hlt & Hg & Hd);
    [subst l; unfold fixed_control_size; destruct fixed, (arch =? POLY_ARCH_X86); cbn [il_lifecycle_return_page_offset
       il_process_return_page_offset il_mapping_size]; lia..|done|].
  exists p', descs, gets, off. rewrite Ea in *. rewrite Forall_forall in Hall.
  assert (forall o c, (o, c) ∈ known' -> holds_at (page_bytes p') o c) as G by (intros o c H; by apply (Hall _ H)).
  split_and!; try done; apply G; try done; apply Hin; apply elem_of_app; [left; apply Hk; left|left; apply Hk; right; left|right; left|right; right; left].
Qed.

(** ** The way back *)

Lemma penter_size (addr frontend : Z) : 10 <= x86_penter_frontend_size_for_code addr 0 frontend <= 13.
Proof.
  unfold x86_penter_frontend_size_for_code, poly_frontend_entry_alignment, POLY_X86_PENTER_BASE_SIZE.
  destruct (_ || _); [|cbn; lia]. change (4 >? 1) with true. cbn iota. change (4 - 1) with (Z.ones 2).
  rewrite !Z.land_ones by lia. match goal with |- context [?x mod 2 ^ 2] => pose proof (Z.mod_pos_bound x (2 ^ 2)) end. lia.
Qed.

(** Both return pages are in the reach of the entry trampoline when the image is fixed
    or not too large. *)
Lemma return_pages_reached (code_size base_vaddr addr target : Z) (fixed : bool) (l : image_layout) :
  0 <= code_size < 2 ^ 63 -> process_image_layout POLY_ARCH_AARCH64 code_size base_vaddr fixed = Some l ->
  fixed = true \/ code_size < 2 ^ 20 - 3 * 4096 ->
  trampoline_reaches POLY_ARCH_AARCH64 (addr + il_control_offset l) (addr + il_lifecycle_return_page_offset l) target /\
  trampoline_reaches POLY_ARCH_AARCH64 (addr + il_control_offset l) (addr + il_process_return_page_offset l) target.
Proof.
  intros Hc Hl Hf. apply layout_shape in Hl as (size & Hs1 & Hs2 & _ & _ & El); [|done].
  pose proof (penter_size (addr + il_control_offset l) POLY_ARCH_AARCH64) as Hp. change (poly_trampoline_prefix_size _) with 37 in El.
  change (POLY_ARCH_AARCH64 =? POLY_ARCH_X86) with false in Hs1.
  split; right; left; (split; [done|]); subst l; destruct fixed; unfold load_base_offset in *;
    cbn [il_control_offset il_lifecycle_return_page_offset il_process_return_page_offset] in *; destruct Hf; try done; lia.
Qed.

(** [ADR] keeps 21 bits of the distance. *)
Lemma adr_wraps (rd off : Z) : aarch64_adr rd (off - 2 ^ 21) = aarch64_adr rd off.
Proof.
  unfold aarch64_adr. assert (forall x, u32 x land 0x1fffff = x mod 2 ^ 21) as E.
  { intros x. rewrite (land_mask _ 21) by done. unfold wrap. rewrite <- !Z.land_ones, <- Z.land_assoc by lia. done. }
  rewrite !E. replace (off - 2 ^ 21) with (off + (-1) * 2 ^ 21) by lia. by rewrite Z.mod_add by lia.
Qed.

Lemma far_trampoline (addr ret target : Z) (tail : bool) :
  0 <= addr -> addr + 64 < 2 ^ 63 -> 2 ^ 21 <= ret < 2 ^ 63 ->
  trampoline_body POLY_ARCH_AARCH64 addr ret target tail = trampoline_body POLY_ARCH_AARCH64 addr (ret - 2 ^ 21) target tail.
Proof.
  intros Ha Hs Hr. destruct (a64_trampoline_bytes addr ret target tail) as (k & _ & Ek & _ & ->); [lia..|].
  destruct (a64_trampoline_bytes addr (ret - 2 ^ 21) target tail) as (k' & _ & Ek' & _ & ->); [lia..|].
  assert (k' = k) as -> by lia. do 3 f_equal. rewrite <- adr_wraps. f_equal. lia.
Qed.

