(* ===== verification/ElfLoad.v ===== *)
(** Loading a program file ([load_elf_program] of [tools/runtime/polyexec.c]):
    the checks of the file header and of the program headers, the image that the
    load segments are copied to, the entry point (given by the file or by the name
    of a symbol), and what the dynamic section says about names, initializers and
    finalizers.

    The file system is a parameter: the bytes of the file that [read_file] could
    read, at least one.  Messages are left out. *)

From S2P Require Import Prelude LoaderBase BridgeSpec ElfImage.

(** ** Headers *)

Definition SIZEOF_EHDR : Z := 64.
Definition SIZEOF_PHDR : Z := 56.
Definition SIZEOF_SHDR : Z := 64.
Definition ET_EXEC : Z := 2.
Definition ET_DYN : Z := 3.
Definition EM_X86_64 : Z := 62.
Definition EM_AARCH64 : Z := 183.
Definition EM_RISCV : Z := 243.
Definition PT_LOAD : Z := 1.
Definition PT_DYNAMIC : Z := 2.
Definition PT_INTERP : Z := 3.
Definition PT_NOTE : Z := 4.
Definition PT_PHDR : Z := 6.
Definition PT_TLS : Z := 7.
Definition PT_GNU_RELRO : Z := 0x6474e552.
Definition PF_X : Z := 1.
Definition SHT_SYMTAB : Z := 2.
Definition SHT_STRTAB : Z := 3.
Definition SHT_DYNSYM : Z := 11.
Definition DT_INIT : Z := 12.
Definition DT_FINI : Z := 13.
Definition DT_SONAME : Z := 14.
Definition DT_INIT_ARRAY : Z := 25.
Definition DT_FINI_ARRAY : Z := 26.
Definition DT_INIT_ARRAYSZ : Z := 27.
Definition DT_FINI_ARRAYSZ : Z := 28.
Definition DT_PREINIT_ARRAY : Z := 32.
Definition DT_PREINIT_ARRAYSZ : Z := 33.
Definition MAX_DEP_PATH : Z := 160.
Definition INTERP_PATH_SIZE : nat := 160.

(** [Elf64_Ehdr] *)
Record elf_ehdr : Type := MkEhdr {
  e_ident : list Z;
  e_type : Z;
  e_machine : Z;
  e_entry : Z;
  e_phoff : Z;
  e_shoff : Z;
  e_phentsize : Z;
  e_phnum : Z;
  e_shentsize : Z;
  e_shnum : Z;
}.

Definition read_ehdr (data : image) : outcome elf_ehdr :=
  ident ← read_bytes data 0 16;
  type ← read_u16_le data 16;
  machine ← read_u16_le data 18;
  entry ← read_u64_le data 24;
  phoff ← read_u64_le data 32;
  shoff ← read_u64_le data 40;
  phentsize ← read_u16_le data 54;
  phnum ← read_u16_le data 56;
  shentsize ← read_u16_le data 58;
  shnum ← read_u16_le data 60;
  Ok (MkEhdr ident type machine entry phoff shoff phentsize phnum shentsize shnum).

(** [Elf64_Phdr] *)
Record elf_phdr : Type := MkPhdr {
  p_type : Z;
  p_flags : Z;
  p_offset : Z;
  p_vaddr : Z;
  p_filesz : Z;
  p_memsz : Z;
  p_align : Z;
}.

Definition read_phdr (data : image) (off : Z) : outcome elf_phdr :=
  type ← read_u32_le data off;
  flags ← read_u32_le data (off + 4);
  offset ← read_u64_le data (off + 8);
  vaddr ← read_u64_le data (off + 16);
  filesz ← read_u64_le data (off + 32);
  memsz ← read_u64_le data (off + 40);
  align ← read_u64_le data (off + 48);
  Ok (MkPhdr type flags offset vaddr filesz memsz align).

(** [Elf64_Shdr] *)
Record elf_shdr : Type := MkShdr {
  sh_type : Z;
  sh_offset : Z;
  sh_size : Z;
  sh_link : Z;
  sh_entsize : Z;
}.

Definition read_shdr (data : image) (off : Z) : outcome elf_shdr :=
  type ← read_u32_le data (off + 4);
  offset ← read_u64_le data (off + 24);
  size ← read_u64_le data (off + 32);
  link ← read_u32_le data (off + 40);
  entsize ← read_u64_le data (off + 56);
  Ok (MkShdr type offset size link entsize).

(** The architecture; [None]: not supported. *)
Definition detect_arch (machine : Z) : option Z :=
  if machine =? EM_AARCH64 then Some POLY_ARCH_AARCH64
  else if machine =? EM_RISCV then Some POLY_ARCH_RISCV
  else if machine =? EM_X86_64 then Some POLY_ARCH_X86
  else None.

(** ** The program *)

(** The thread-local segment. *)
Record tls_segment : Type := MkTls {
  tls_vaddr : Z;
  tls_filesz : Z;
  tls_memsz : Z;
  tls_align : Z;
}.

(** The code that runs before and after the program. *)
Record lifecycle : Type := MkLifecycle {
  init_vaddr : Z;
  preinit_array_vaddr : Z;
  preinit_array_size : Z;
  init_array_vaddr : Z;
  init_array_size : Z;
  fini_vaddr : Z;
  fini_array_vaddr : Z;
  fini_array_size : Z;
}.

(** [struct poly_program] as loading leaves it; the header is the part of it
    that the image reader uses. *)
Record loaded_program : Type := MkLoaded {
  lp_path : list Z;
  lp_header : poly_program;
  lp_arch : Z;
  lp_is_et_exec : bool;
  lp_entry_offset : Z;
  lp_phdr_vaddr : Z;
  lp_phent : Z;
  lp_phnum : Z;
  lp_has_interp : bool;
  lp_interp_path : list Z;
  lp_load_segments : list poly_load_segment;
  lp_relro_vaddr : Z;
  lp_relro_size : Z;
  lp_tls : tls_segment;
  lp_lifecycle : lifecycle;
  lp_soname : list Z;
  lp_bridge_specs : list poly_process_bridge_spec;
  lp_code_bytes : image;
}.

(** ** The program headers *)

(** What the first loop collects. *)
Record phdr_scan : Type := MkScan {
  sn_base_vaddr : Z;
  sn_limit_vaddr : Z;
  sn_dynamic_vaddr : Z;
  sn_dynamic_size : Z;
  sn_phdr_vaddr : Z;
  sn_found_load : bool;
  sn_has_interp : bool;
  sn_interp_path : list Z;
  sn_relro_vaddr : Z;
  sn_relro_size : Z;
  sn_tls : tls_segment;
  sn_load_segments : list poly_load_segment;
  sn_bridge_specs : list poly_process_bridge_spec;
}.

Definition scan_start : phdr_scan :=
  MkScan UINT64_MAX 0 0 0 0 false false (repeat 0 INTERP_PATH_SIZE) 0 0 (MkTls 0 0 0 0) [] [].

Definition phdr_offset (ehdr : elf_ehdr) (n : Z) : Z := e_phoff ehdr + n * e_phentsize ehdr.

(** [for (n = i; n < i + k; n++)] over the program headers. *)
Fixpoint phdr_loop {A} (k : nat) (n : Z) (data : image) (ehdr : elf_ehdr) (f : elf_phdr -> A -> outcome A) (acc : A)
    : outcome A :=
  match k with
  | O => Ok acc
  | S k' =>
      phdr ← read_phdr data (phdr_offset ehdr n);
      acc ← f phdr acc;
      phdr_loop k' (n + 1) data ehdr f acc
  end.

Definition each_phdr {A} (data : image) (ehdr : elf_ehdr) (f : elf_phdr -> A -> outcome A) (acc : A) : outcome A :=
  phdr_loop (Z.to_nat (e_phnum ehdr)) 0 data ehdr f acc.

(** [memcpy(target, bytes, length)] into an array. *)
Definition overwrite (target : list Z) (offset : Z) (bytes : list Z) : list Z :=
  take (Z.to_nat offset) target ++ bytes ++ drop (Z.to_nat offset + length bytes) target.

(** A part of the file that a header names is inside. *)
Definition in_file (data : image) (offset filesz : Z) : bool :=
  negb (offset >? size_of data) && negb (filesz >? size_of data - offset).

Definition scan_interp (data : image) (phdr : elf_phdr) (s : phdr_scan) : outcome phdr_scan :=
  let '(MkScan base limit dyn dynsz phv found _ path relro relsz tls segs specs) := s in
  if (p_filesz phdr =? 0) || (p_filesz phdr >=? Z.of_nat INTERP_PATH_SIZE) || negb (in_file data (p_offset phdr) (p_filesz phdr))
  then Err
  else
    bytes ← read_bytes data (p_offset phdr) (Z.to_nat (p_filesz phdr));
    if negb (bool_decide (NUL ∈ bytes)) then Err
    else
      let path := overwrite (overwrite path 0 bytes) (Z.of_nat INTERP_PATH_SIZE - 1) [NUL] in
      Ok (MkScan base limit dyn dynsz phv found true path relro relsz tls segs specs).

Definition scan_note (data : image) (phdr : elf_phdr) (s : phdr_scan) : outcome phdr_scan :=
  let '(MkScan base limit dyn dynsz phv found has path relro relsz tls segs specs) := s in
  specs ← parse_process_bridge_specs_notes data (p_offset phdr) (p_filesz phdr) specs;
  Ok (MkScan base limit dyn dynsz phv found has path relro relsz tls segs specs).

Definition scan_tls (data : image) (phdr : elf_phdr) (s : phdr_scan) : outcome phdr_scan :=
  let '(MkScan base limit dyn dynsz phv found has path relro relsz _ segs specs) := s in
  if (p_filesz phdr >? p_memsz phdr) || negb (in_file data (p_offset phdr) (p_filesz phdr)) ||
     (p_memsz phdr >? MAX_PROCESS_TLS_BYTES) || (p_align phdr >? MAX_PROCESS_TLS_BYTES) then Err
  else Ok (MkScan base limit dyn dynsz phv found has path relro relsz
             (MkTls (p_vaddr phdr) (p_filesz phdr) (p_memsz phdr) (p_align phdr)) segs specs).

(** The address of the header table, if a segment contains it. *)
Definition phdr_vaddr_in (ehdr : elf_ehdr) (phdr : elf_phdr) (phdr_vaddr : Z) : Z :=
  let phdr_table_size := e_phnum ehdr * e_phentsize ehdr in
  if (phdr_vaddr =? 0) && (e_phoff ehdr >=? p_offset phdr) then
    let offset_in_segment := e_phoff ehdr - p_offset phdr in
    if (offset_in_segment <=? p_filesz phdr) && (phdr_table_size <=? p_filesz phdr - offset_in_segment)
    then u64 (p_vaddr phdr + offset_in_segment) else phdr_vaddr
  else phdr_vaddr.

Definition segment_of (phdr : elf_phdr) : poly_load_segment :=
  MkSegment (p_vaddr phdr) (p_offset phdr) (p_filesz phdr) (p_memsz phdr) (p_flags phdr).

Definition scan_load (data : image) (ehdr : elf_ehdr) (phdr : elf_phdr) (s : phdr_scan) : outcome phdr_scan :=
  let '(MkScan base limit dyn dynsz phv _ has path relro relsz tls segs specs) := s in
  if (p_filesz phdr >? p_memsz phdr) ||
     (negb (p_filesz phdr =? 0) && negb (in_file data (p_offset phdr) (p_filesz phdr))) ||
     (p_vaddr phdr >? UINT64_MAX - p_memsz phdr) || (p_vaddr phdr >? UINT64_MAX - p_filesz phdr) then Err
  else
    let phv := phdr_vaddr_in ehdr phdr phv in
    let segment_base := align_down_u64 (p_vaddr phdr) 0x1000 in
    let segment_limit := p_vaddr phdr + p_memsz phdr in
    let '(segs, recorded) := record_load_segment (segment_of phdr) segs in
    if recorded <? 0 then Err
    else Ok (MkScan (if segment_base <? base then segment_base else base)
               (if segment_limit >? limit then segment_limit else limit)
               dyn dynsz phv true has path relro relsz tls segs specs).

(** The body of the first loop. *)
Definition scan_phdr (data : image) (ehdr : elf_ehdr) (phdr : elf_phdr) (s : phdr_scan) : outcome phdr_scan :=
  let '(MkScan base limit dyn dynsz phv found has path relro relsz tls segs specs) := s in
  let type := p_type phdr in
  if type =? PT_PHDR then Ok (MkScan base limit dyn dynsz (p_vaddr phdr) found has path relro relsz tls segs specs)
  else if type =? PT_DYNAMIC then
    Ok (MkScan base limit (p_vaddr phdr) (p_filesz phdr) phv found has path relro relsz tls segs specs)
  else if type =? PT_INTERP then scan_interp data phdr s
  else if type =? PT_GNU_RELRO then
    Ok (MkScan base limit dyn dynsz phv found has path (p_vaddr phdr) (p_memsz phdr) tls segs specs)
  else if type =? PT_NOTE then scan_note data phdr s
  else if type =? PT_TLS then scan_tls data phdr s
  else if type =? PT_LOAD then scan_load data ehdr phdr s
  else Ok s.

(** ** The image *)

(** The body of the second loop: the file's part of a segment. *)
Definition copy_segment (data : image) (base_vaddr code_size : Z) (phdr : elf_phdr) (code : image) : outcome image :=
  if negb (p_type phdr =? PT_LOAD) || (p_filesz phdr =? 0) then Ok code
  else
    let dest_offset := u64 (p_vaddr phdr - base_vaddr) in
    if (dest_offset >? code_size) || (p_filesz phdr >? code_size - dest_offset) then Err
    else
      bytes ← read_bytes data (p_offset phdr) (Z.to_nat (p_filesz phdr));
      Ok (overwrite code dest_offset bytes).

(** The size of the image, rounded up to whole instructions. *)
Definition image_size_of (arch base_vaddr limit_vaddr : Z) : Z :=
  let image_size := limit_vaddr - base_vaddr in
  let instruction_align := if arch =? POLY_ARCH_AARCH64 then 4 else 2 in
  if image_size mod instruction_align =? 0 then image_size
  else image_size + (instruction_align - image_size mod instruction_align).

(** ** The entry *)

(** The loop over [symbol_count] symbols. *)
Fixpoint symbol_loop (k : nat) (n : Z) (img : image) (symtab_offset strtab_offset strsz syment : Z) (name : list Z)
    : outcome Z :=
  match k with
  | O => Err
  | S k' =>
      sym ← read_sym img (sym_offset symtab_offset n syment);
      found ← (if st_name sym >=? strsz then Ok false else strcmp_at img (strtab_offset + st_name sym) name);
      if found : bool then Ok (st_value sym)
      else symbol_loop k' (n + 1) img symtab_offset strtab_offset strsz syment name
  end.

(** [header] says where the dynamic section is. *)
Definition resolve_dynamic_symbol (header : poly_program) (code : image) (symbol_name : list Z) : outcome Z :=
  t ← dynamic_symbol_table_info header code;
  symbol_count ← dynamic_symbol_count_from_hash header code (tb_symtab t) (tb_syment t) (tb_hash t) (tb_gnu_hash t);
  strtab_offset ← elf_vaddr_to_image_offset header (tb_strtab t) (tb_strsz t);
  symtab_offset ← symtab_range header (tb_symtab t) symbol_count (tb_syment t);
  symbol_loop (Z.to_nat symbol_count) 0 code symtab_offset strtab_offset (tb_strsz t) (tb_syment t) symbol_name.

(** The symbols of one section; [None]: go on with the next section. *)
Fixpoint section_symbol_loop (k : nat) (index : Z) (data : image) (symtab strtab : elf_shdr) (name : list Z)
    : outcome (option Z) :=
  match k with
  | O => Ok None
  | S k' =>
      sym ← read_sym data (sh_offset symtab + index * sh_entsize symtab);
      found ← (if st_name sym >=? sh_size strtab then Ok false
               else strcmp_at data (sh_offset strtab + st_name sym) name);
      if found : bool then Ok (Some (st_value sym)) else section_symbol_loop k' (index + 1) data symtab strtab name
  end.

Definition section_symbols (data : image) (symtab strtab : elf_shdr) (name : list Z) : outcome (option Z) :=
  section_symbol_loop (Z.to_nat (sh_size symtab / sh_entsize symtab)) 0 data symtab strtab name.

Definition read_section (data : image) (ehdr : elf_ehdr) (n : Z) : outcome elf_shdr :=
  read_shdr data (e_shoff ehdr + n * SIZEOF_SHDR).

(** The body of the loop of [resolve_section_symbol]. *)
Definition section_symbol (data : image) (ehdr : elf_ehdr) (n : Z) (name : list Z) : outcome (option Z) :=
  symtab ← read_section data ehdr n;
  if negb (sh_type symtab =? SHT_DYNSYM) && negb (sh_type symtab =? SHT_SYMTAB) then Ok None
  else if (sh_entsize symtab <? SIZEOF_SYM) || negb (in_file data (sh_offset symtab) (sh_size symtab)) ||
          (sh_link symtab >=? e_shnum ehdr) then Ok None
  else
    strtab ← read_section data ehdr (sh_link symtab);
    if negb (in_file data (sh_offset strtab) (sh_size strtab)) then Ok None
    else section_symbols data symtab strtab name.

(** The body of the loop of [lookup_elf_dynsym_value_by_section]. *)
Definition dynsym_section_symbol (data : image) (ehdr : elf_ehdr) (n : Z) (name : list Z) : outcome (option Z) :=
  symtab ← read_section data ehdr n;
  if negb (sh_type symtab =? SHT_DYNSYM) || (sh_entsize symtab <? SIZEOF_SYM) || (sh_link symtab >=? e_shnum ehdr) ||
     negb (in_file data (sh_offset symtab) (sh_size symtab)) then Ok None
  else
    strtab ← read_section data ehdr (sh_link symtab);
    if negb (sh_type strtab =? SHT_STRTAB) || negb (in_file data (sh_offset strtab) (sh_size strtab)) then Ok None
    else section_symbols data symtab strtab name.

Fixpoint section_loop (k : nat) (n : Z) (body : Z -> outcome (option Z)) : outcome Z :=
  match k with
  | O => Err
  | S k' => r ← body n; match r with Some v => Ok v | None => section_loop k' (n + 1) body end
  end.

Definition resolve_section_symbol (data : image) (ehdr : elf_ehdr) (symbol_name : list Z) : outcome Z :=
  if (e_shoff ehdr =? 0) || (e_shnum ehdr =? 0) || (e_shentsize ehdr <? SIZEOF_SHDR) || (e_shoff ehdr >? size_of data) ||
     (e_shnum ehdr * e_shentsize ehdr >? size_of data - e_shoff ehdr) then Err
  else section_loop (Z.to_nat (e_shnum ehdr)) 0 (fun n => section_symbol data ehdr n symbol_name).

Definition lookup_elf_dynsym_value_by_section (data : image) (symbol_name : list Z) : outcome Z :=
  if size_of data <? SIZEOF_EHDR then Err
  else
    ehdr ← read_ehdr data;
    if negb (e_shentsize ehdr =? SIZEOF_SHDR) || (e_shoff ehdr >? size_of data) ||
       (e_shnum ehdr >? (size_of data - e_shoff ehdr) / SIZEOF_SHDR) then Err
    else section_loop (Z.to_nat (e_shnum ehdr)) 0 (fun n => dynsym_section_symbol data ehdr n symbol_name).

Definition set_dynamic (offset size : Z) (h : poly_program) : poly_program :=
  MkProgramHeader (base_vaddr h) (code_size h) offset size (tls_offset h).

(** A call whose -1 is tested. *)
Definition attempted {A} (m : outcome A) : outcome (option A) :=
  match m with Ok a => Ok (Some a) | Err => Ok None | Fault => Fault | Spin => Spin end.

(** The address of the entry: the file's, or that of the symbol. *)
Definition entry_vaddr_of (data : image) (ehdr : elf_ehdr) (header : poly_program) (code : image)
    (dynamic_vaddr dynamic_size : Z) (symbol_name : list Z) : outcome Z :=
  match symbol_name with
  | [] => Ok (e_entry ehdr)
  | _ =>
      resolved ←
        (if negb (dynamic_vaddr =? 0) && negb (dynamic_size =? 0) && (dynamic_size mod SIZEOF_DYN =? 0) then
           attempted (offset ← elf_vaddr_to_image_offset header dynamic_vaddr dynamic_size;
                      resolve_dynamic_symbol (set_dynamic offset dynamic_size header) code symbol_name)
         else Ok None);
      match resolved with
      | Some v => Ok v
      | None => resolve_section_symbol data ehdr symbol_name
      end
  end.

(** The third loop: an executable segment of the file contains the entry. *)
Definition exec_phdr (entry_vaddr : Z) (phdr : elf_phdr) (found : bool) : outcome bool :=
  Ok (found || ((p_type phdr =? PT_LOAD) && negb (Z.land (p_flags phdr) PF_X =? 0) && (entry_vaddr >=? p_vaddr phdr) &&
                (entry_vaddr <? p_vaddr phdr + p_filesz phdr))).

(** ** The dynamic section *)

Record dynamic_names : Type := MkNames {
  dn_strtab : Z;
  dn_strsz : Z;
  dn_soname : Z;
  dn_lifecycle : lifecycle;
}.

Definition lifecycle_entry (tag value : Z) (d : dynamic_names) : dynamic_names :=
  let '(MkNames strtab strsz soname c) := d in
  let '(MkLifecycle i pa ps ia is_ f fa fs) := c in
  if tag =? DT_STRTAB then MkNames value strsz soname c
  else if tag =? DT_STRSZ then MkNames strtab value soname c
  else if tag =? DT_SONAME then MkNames strtab strsz value c
  else if tag =? DT_INIT then MkNames strtab strsz soname (MkLifecycle value pa ps ia is_ f fa fs)
  else if tag =? DT_PREINIT_ARRAY then MkNames strtab strsz soname (MkLifecycle i value ps ia is_ f fa fs)
  else if tag =? DT_PREINIT_ARRAYSZ then MkNames strtab strsz soname (MkLifecycle i pa value ia is_ f fa fs)
  else if tag =? DT_INIT_ARRAY then MkNames strtab strsz soname (MkLifecycle i pa ps value is_ f fa fs)
  else if tag =? DT_INIT_ARRAYSZ then MkNames strtab strsz soname (MkLifecycle i pa ps ia value f fa fs)
  else if tag =? DT_FINI then MkNames strtab strsz soname (MkLifecycle i pa ps ia is_ value fa fs)
  else if tag =? DT_FINI_ARRAY then MkNames strtab strsz soname (MkLifecycle i pa ps ia is_ f value fs)
  else if tag =? DT_FINI_ARRAYSZ then MkNames strtab strsz soname (MkLifecycle i pa ps ia is_ f fa value)
  else d.

Definition no_lifecycle : lifecycle := MkLifecycle 0 0 0 0 0 0 0 0.
Definition names_start : dynamic_names := MkNames 0 0 UINT64_MAX no_lifecycle.

(** A string of the string table, which must end inside the table. *)
Definition table_string (code : image) (strtab_offset strsz offset : Z) : outcome (list Z) :=
  bytes ← read_bytes code (strtab_offset + offset) (Z.to_nat (strsz - offset));
  if bool_decide (NUL ∈ bytes) then Ok (c_str bytes) else Err.

Definition read_soname (header : poly_program) (code : image) (d : dynamic_names) : outcome (list Z) :=
  if dn_soname d =? UINT64_MAX then Ok []
  else if (dn_strtab d =? 0) || (dn_strsz d =? 0) || (dn_soname d >=? dn_strsz d) then Err
  else
    strtab_offset ← elf_vaddr_to_image_offset header (dn_strtab d) (dn_strsz d);
    soname ← table_string code strtab_offset (dn_strsz d) (dn_soname d);
    if Z.of_nat (length soname) >=? MAX_DEP_PATH then Err else Ok soname.

Definition bad_array (vaddr size : Z) : bool := negb (size =? 0) && ((vaddr =? 0) || negb (size mod 8 =? 0)).

(** The place of the dynamic section, the name and the lifecycle. *)
Definition read_dynamic (header : poly_program) (code : image) (dynamic_vaddr dynamic_size : Z)
    : outcome (poly_program * list Z * lifecycle) :=
  if (dynamic_vaddr =? 0) || (dynamic_size =? 0) then Ok (header, [], no_lifecycle)
  else if negb (dynamic_size mod SIZEOF_DYN =? 0) then Err
  else
    offset ← elf_vaddr_to_image_offset header dynamic_vaddr dynamic_size;
    let header := set_dynamic offset dynamic_size header in
    d ← dyn_loop (dyn_count header) 0 header code lifecycle_entry names_start;
    soname ← read_soname header code d;
    let c := dn_lifecycle d in
    if bad_array (preinit_array_vaddr c) (preinit_array_size c) then Err
    else if bad_array (init_array_vaddr c) (init_array_size c) then Err
    else Ok (header, soname, c).

(** ** The whole *)

Definition header_accepted (ehdr : elf_ehdr) : bool :=
  bool_decide (take 4 (e_ident ehdr) = [127; 69; 76; 70]) && (nth 4 (e_ident ehdr) 0 =? 2) && (nth 5 (e_ident ehdr) 0 =? 1) &&
  ((e_type ehdr =? ET_EXEC) || (e_type ehdr =? ET_DYN)).

Section Load.
Context (files : list Z -> option image) (calloc_fails : Z -> bool).

(** The program headers are inside the file. *)
Definition phdrs_accepted (data : image) (ehdr : elf_ehdr) : bool :=
  negb (e_phentsize ehdr <? SIZEOF_PHDR) && negb (e_phoff ehdr >? size_of data) &&
  negb (e_phnum ehdr * e_phentsize ehdr >? size_of data - e_phoff ehdr).

(** From the copied segments on. *)
Definition finish_load (path : list Z) (data : image) (ehdr : elf_ehdr) (arch : Z) (s : phdr_scan) (header : poly_program)
    (code : image) (symbol_name : list Z) : outcome loaded_program :=
  entry_vaddr ← entry_vaddr_of data ehdr header code (sn_dynamic_vaddr s) (sn_dynamic_size s) symbol_name;
  in_exec ← each_phdr data ehdr (exec_phdr entry_vaddr) false;
  let no_entry := (e_type ehdr =? ET_DYN) && bool_decide (symbol_name = []) && (entry_vaddr =? 0) in
  let entry_in_exec := in_exec || no_entry in
  let entry_vaddr := if no_entry then base_vaddr header else entry_vaddr in
  if negb entry_in_exec || (entry_vaddr <? base_vaddr header) || (entry_vaddr >=? sn_limit_vaddr s) then Err
  else
    '(header, soname, c) ← read_dynamic header code (sn_dynamic_vaddr s) (sn_dynamic_size s);
    Ok (MkLoaded path header arch (e_type ehdr =? ET_EXEC) (entry_vaddr - base_vaddr header) (sn_phdr_vaddr s)
          (e_phentsize ehdr) (e_phnum ehdr) (sn_has_interp s) (sn_interp_path s) (sn_load_segments s) (sn_relro_vaddr s)
          (sn_relro_size s) (sn_tls s) c soname (sn_bridge_specs s) code).

(** [symbol_name] is empty for the null pointer too. *)
Definition load_elf_program (path symbol_name : list Z) : outcome loaded_program :=
  match files path with
  | None => Err
  | Some data =>
      if size_of data <? SIZEOF_EHDR then Err
      else
        ehdr ← read_ehdr data;
        if negb (header_accepted ehdr) then Err
        else
          match detect_arch (e_machine ehdr) with
          | None => Err
          | Some arch =>
              if negb (phdrs_accepted data ehdr) then Err
              else
                s ← each_phdr data ehdr (scan_phdr data ehdr) scan_start;
                if negb (sn_found_load s) || (sn_limit_vaddr s <=? sn_base_vaddr s) then Err
                else if sn_limit_vaddr s - sn_base_vaddr s >? MAX_PROGRAM_BYTES then Err
                else
                  let image_size := image_size_of arch (sn_base_vaddr s) (sn_limit_vaddr s) in
                  if (image_size =? 0) || (image_size >? MAX_PROGRAM_BYTES) then Err
                  else if calloc_fails image_size then Err
                  else
                    let header := MkProgramHeader (sn_base_vaddr s) image_size 0 0 0 in
                    code ← each_phdr data ehdr (copy_segment data (sn_base_vaddr s) image_size)
                             (repeat 0 (Z.to_nat image_size));
                    finish_load path data ehdr arch s header code symbol_name
          end
  end.
End Load.
