(* ===== verification/ElfLoadProps.v ===== *)
(** What loading a program file guarantees ([ElfLoad]): whatever the bytes of a
    file are, nothing outside it is read and no loop goes on; and a file that is
    accepted ends up in an image that holds exactly its load segments. *)

From S2P Require Import Prelude LoaderBase BridgeSpec ElfImage ElfLoad.

(** ** Headers *)

(** Reads one field of a structure that is inside. *)
Ltac read_field H :=
  match goal with
  | |- context [read_u16_le ?d ?o] => destruct (read_u16_inside d o H ltac:(lia) ltac:(lia)) as (? & -> & ?)
  | |- context [read_u32_le ?d ?o] => destruct (read_u32_inside d o H ltac:(lia) ltac:(lia)) as (? & -> & ?)
  | |- context [read_u64_le ?d ?o] => destruct (read_u64_inside d o H ltac:(lia) ltac:(lia)) as (? & -> & ?)
  end; cbn [mbind outcome_bind].

Record ehdr_wf (e : elf_ehdr) : Prop := {
  ew_entry : in_width 64 (e_entry e);
  ew_phoff : in_width 64 (e_phoff e);
  ew_phentsize : in_width 16 (e_phentsize e);
  ew_phnum : in_width 16 (e_phnum e);
  ew_shoff : in_width 64 (e_shoff e);
  ew_shnum : in_width 16 (e_shnum e);
}.

Record phdr_wf (p : elf_phdr) : Prop := {
  pw_offset : in_width 64 (p_offset p);
  pw_vaddr : in_width 64 (p_vaddr p);
  pw_filesz : in_width 64 (p_filesz p);
  pw_memsz : in_width 64 (p_memsz p);
  pw_align : in_width 64 (p_align p);
}.

Lemma read_ehdr_inside (data : image) : wf_image data -> SIZEOF_EHDR <= size_of data ->
  exists e, read_ehdr data = Ok e /\ ehdr_wf e.
Proof.
  unfold SIZEOF_EHDR. intros Hw Hs. unfold read_ehdr. rewrite read_bytes_ok by lia. cbn [mbind outcome_bind].
  do 9 read_field Hw. eexists. split; [reflexivity|by split].
Qed.

Lemma read_phdr_inside (data : image) (off : Z) : wf_image data -> 0 <= off -> off + SIZEOF_PHDR <= size_of data ->
  exists p, read_phdr data off = Ok p /\ phdr_wf p.
Proof.
  unfold SIZEOF_PHDR. intros Hw H0 Hs. unfold read_phdr. do 7 read_field Hw. eexists. split; [reflexivity|by split].
Qed.

(** ** The program headers as a list *)

Fixpoint fold_outcome {A B} (f : B -> A -> outcome A) (acc : A) (l : list B) : outcome A :=
  match l with
  | [] => Ok acc
  | x :: l' => acc ← f x acc; fold_outcome f acc l'
  end.

Definition file_phdrs (data : image) (ehdr : elf_ehdr) : outcome (list elf_phdr) :=
  each_phdr data ehdr (fun phdr l => Ok (l ++ [phdr])) [].

Section Phdrs.
Context (data : image) (ehdr : elf_ehdr).
Context (Hdata : wf_image data) (Hehdr : ehdr_wf ehdr) (Hacc : phdrs_accepted data ehdr = true).

Lemma phdr_inside (n : Z) : 0 <= n < e_phnum ehdr ->
  exists p, read_phdr data (phdr_offset ehdr n) = Ok p /\ phdr_wf p.
Proof using Hdata Hehdr Hacc.
  intros Hn. unfold phdrs_accepted in Hacc. breflect. unfold phdr_offset.
  destruct Hehdr as [_ [] [] [] _ _]. apply read_phdr_inside; [done|nia|]. unfold SIZEOF_PHDR in *. nia.
Qed.

Lemma phdr_loop_list (k : nat) : forall n, 0 <= n -> n + Z.of_nat k <= e_phnum ehdr ->
  exists l, Forall phdr_wf l /\
    forall A (f : elf_phdr -> A -> outcome A) acc, phdr_loop k n data ehdr f acc = fold_outcome f acc l.
Proof using Hdata Hehdr Hacc.
  induction k as [|k IH]; intros n H0 Hn; [by exists []|].
  destruct (phdr_inside n ltac:(lia)) as (p & Hp & Hw). destruct (IH (n + 1) ltac:(lia) ltac:(lia)) as (l & Hl & Hf).
  exists (p :: l). split; [by constructor|]. intros A f acc. cbn [phdr_loop fold_outcome]. rewrite Hp.
  cbn [mbind outcome_bind]. destruct (f p acc); cbn; [apply Hf|done..].
Qed.

Lemma fold_collect (l : list elf_phdr) : forall acc,
  fold_outcome (fun phdr l => Ok (l ++ [phdr])) acc l = Ok (acc ++ l).
Proof using.
  induction l as [|p l IH]; intros acc; cbn; [by rewrite app_nil_r|]. rewrite IH. by rewrite <- app_assoc.
Qed.

(** Every loop over the program headers is a fold over one list. *)
Lemma each_phdr_list : exists l, file_phdrs data ehdr = Ok l /\ Forall phdr_wf l /\
  forall A (f : elf_phdr -> A -> outcome A) acc, each_phdr data ehdr f acc = fold_outcome f acc l.
Proof using Hdata Hehdr Hacc.
  destruct (phdr_loop_list (Z.to_nat (e_phnum ehdr)) 0 ltac:(lia)) as (l & Hl & Hf).
  { destruct (ew_phnum _ Hehdr). lia. }
  exists l. split; [|done]. unfold file_phdrs, each_phdr. by rewrite Hf, fold_collect.
Qed.
End Phdrs.

Lemma fold_outcome_inv {A B} (P : A -> Prop) (Q : B -> Prop) (f : B -> A -> outcome A) :
  (forall x acc, Q x -> P acc -> returns (f x acc) /\ forall acc', f x acc = Ok acc' -> P acc') ->
  forall l acc, Forall Q l -> P acc ->
  returns (fold_outcome f acc l) /\ forall r, fold_outcome f acc l = Ok r -> P r.
Proof.
  intros Hf. induction l as [|x l IH]; intros acc Hl Hp; cbn [fold_outcome].
  { split; [auto with poly|by intros r [= <-]]. }
  apply Forall_cons in Hl as [Hx Hl]. destruct (Hf x acc Hx Hp) as [Hr Hok]. split.
  - apply bind_returns; [done|]. intros a Ha. by apply IH, Hok.
  - intros r (a & Ha & Hrest)%bind_ok. eapply IH; [done|by apply Hok|exact Hrest].
Qed.

(** ** What the first loop finds *)

Definition is_load (p : elf_phdr) : bool := p_type p =? PT_LOAD.

(** The load segments, in the order of the file. *)
Definition loads (l : list elf_phdr) : list elf_phdr := filter (fun p => is_load p = true) l.

Lemma loads_snoc (l : list elf_phdr) (p : elf_phdr) :
  loads (l ++ [p]) = loads l ++ (if is_load p then [p] else []).
Proof.
  unfold loads. rewrite filter_app. f_equal. rewrite filter_cons, filter_nil. by destruct (is_load p).
Qed.

(** A load segment that was accepted. *)
Record load_wf (data : image) (p : elf_phdr) : Prop := {
  lw_phdr : phdr_wf p;
  lw_sizes : p_filesz p <= p_memsz p;
  lw_file : p_filesz p <> 0 -> p_offset p + p_filesz p <= size_of data;
  lw_end : p_vaddr p + p_memsz p <= UINT64_MAX;
}.

(** After the headers [l]. *)
Record scanned (data : image) (l : list elf_phdr) (s : phdr_scan) : Prop := {
  sc_segments : sn_load_segments s = segment_of <$> loads l;
  sc_loads : Forall (load_wf data) (loads l);
  sc_base : Forall (fun p => 0 <= sn_base_vaddr s <= p_vaddr p) (loads l);
  sc_base_range : in_width 64 (sn_base_vaddr s);
  sc_limit : Forall (fun p => p_vaddr p + p_memsz p <= sn_limit_vaddr s) (loads l);
  sc_limit_range : 0 <= sn_limit_vaddr s <= UINT64_MAX;
  sc_specs : wf_specs (sn_bridge_specs s);
  sc_dynamic : 0 <= sn_dynamic_size s;
}.

Lemma align_down_spec (v : Z) : in_width 64 v -> 0 <= align_down_u64 v 0x1000 <= v.
Proof.
  intros Hv. unfold align_down_u64. change (u64 (0x1000 - 1)) with (2 ^ 12 - 1).
  rewrite land_mask_u64 by (done || lia). unfold in_width in Hv.
  pose proof (Z.mul_div_le v (2 ^ 12) ltac:(lia)). assert (0 <= v / 2 ^ 12) by (apply Z.div_pos; lia). lia.
Qed.

(** The state with other fields than those of the load segments. *)
Definition same_loads (s s' : phdr_scan) : Prop :=
  sn_load_segments s' = sn_load_segments s /\ sn_base_vaddr s' = sn_base_vaddr s /\
  sn_limit_vaddr s' = sn_limit_vaddr s.

Lemma scanned_same (data : image) (l : list elf_phdr) (p : elf_phdr) (s s' : phdr_scan) :
  scanned data l s -> is_load p = false -> same_loads s s' -> wf_specs (sn_bridge_specs s') ->
  0 <= sn_dynamic_size s' -> scanned data (l ++ [p]) s'.
Proof.
  intros [] Hp (H1 & H2 & H3) Hw Hdyn.
  split; rewrite ?loads_snoc, ?Hp, ?app_nil_r, ?H1, ?H2, ?H3; done.
Qed.

Lemma scan_load_step (data : image) (ehdr : elf_ehdr) (l : list elf_phdr) (p : elf_phdr) (s s' : phdr_scan) :
  phdr_wf p -> is_load p = true -> scanned data l s -> scan_load data ehdr p s = Ok s' -> scanned data (l ++ [p]) s'.
Proof.
  intros Hw Hp [Hseg Hl Hb Hbr Hlim Hlr Hsp Hdyn] H. destruct s as [base limit dyn dynsz phv found has path relro relsz tls segs specs].
  cbn in *. unfold record_load_segment in H. destruct (_ || _) eqn:E; [done|]. apply orb_false_elim in E as [E H1]. apply orb_false_elim in E as [E H2].
  apply orb_false_elim in E as [H0 H3]. breflect. destruct (_ <=? _)%nat; [done|]. cbn in H. injection H as <-.
  pose proof (align_down_spec _ (pw_vaddr _ Hw)) as Ha. pose proof (pw_vaddr _ Hw) as Hv.
  pose proof (pw_memsz _ Hw) as Hm.
  unfold UINT64_MAX, in_width in *. split; cbn; rewrite ?loads_snoc, ?Hp.
  - by rewrite fmap_app, Hseg.
  - apply Forall_app; split; [done|]. constructor; [|done]. split; [done|exact H0| |unfold UINT64_MAX; lia].
    intros Hf. apply Z.eqb_neq in Hf. rewrite Hf in H3. cbn in H3. unfold in_file in H3. breflect. lia.
  - apply Forall_app; split; [|constructor; [|done]]; destruct (Z.ltb_spec (align_down_u64 (p_vaddr p) 4096) base); try lia.
    + eapply Forall_impl; [exact Hb|]. cbn. intros q Hq. lia.
    + done.
  - unfold in_width. destruct (Z.ltb_spec (align_down_u64 (p_vaddr p) 4096) base); lia.
  - rewrite Z.gtb_ltb. apply Forall_app; split; [|constructor; [|done]]; destruct (Z.ltb_spec limit (p_vaddr p + p_memsz p)); try lia.
    + eapply Forall_impl; [exact Hlim|]. cbn. intros q Hq. lia.
    + done.
  - unfold UINT64_MAX. rewrite Z.gtb_ltb. destruct (Z.ltb_spec limit (p_vaddr p + p_memsz p)); lia.
  - done.
  - done.
Qed.

(** One header is handled without leaving the file, and what it adds is known. *)
Lemma scan_phdr_step (data : image) (ehdr : elf_ehdr) (l : list elf_phdr) (p : elf_phdr) (s : phdr_scan) :
  wf_image data -> phdr_wf p -> scanned data l s ->
  returns (scan_phdr data ehdr p s) /\ forall s', scan_phdr data ehdr p s = Ok s' -> scanned data (l ++ [p]) s'.
Proof.
  intros Hd Hw Hs0. pose proof (sc_specs _ _ _ Hs0) as Hspec. pose proof (sc_dynamic _ _ _ Hs0) as Hdyn.
  destruct s as [base limit dyn dynsz phv found has path relro relsz tls segs specs] eqn:Es. rewrite <- Es in Hs0.
  unfold scan_phdr. cbn in Hspec, Hdyn.
  assert (forall t, p_type p = t -> t <> PT_LOAD -> is_load p = false) as Hno.
  { intros t <- Hn. unfold is_load. by apply Z.eqb_neq. }
  assert (forall s', is_load p = false -> same_loads s s' -> sn_bridge_specs s' = specs ->
    0 <= sn_dynamic_size s' -> returns (Ok s') /\ forall s'', Ok s' = Ok s'' -> scanned data (l ++ [p]) s'') as Hok.
  { intros s' Hp Hl He Hd'. split; [auto with poly|]. intros s'' [= <-].
    eapply scanned_same; [exact Hs0|done|done|by rewrite He|done]. }
  destruct (Z.eqb_spec (p_type p) PT_PHDR) as [E|]; [apply Hok; [by eapply Hno|by rewrite Es|done|apply Hdyn || apply (pw_filesz _ Hw)]|].
  destruct (Z.eqb_spec (p_type p) PT_DYNAMIC) as [E|]; [apply Hok; [by eapply Hno|by rewrite Es|done|apply Hdyn || apply (pw_filesz _ Hw)]|].
  destruct (Z.eqb_spec (p_type p) PT_INTERP) as [E|].
  { unfold scan_interp. destruct (_ || _) eqn:Eb; [done|]. breflect. unfold in_file in *. breflect.
    destruct (pw_offset _ Hw), (pw_filesz _ Hw). rewrite read_bytes_ok by lia. cbn [mbind outcome_bind].
    destruct (negb _); [done|]. apply Hok; [by eapply Hno|by rewrite Es|done|apply Hdyn || apply (pw_filesz _ Hw)]. }
  destruct (Z.eqb_spec (p_type p) PT_GNU_RELRO) as [E|]; [apply Hok; [by eapply Hno|by rewrite Es|done|apply Hdyn || apply (pw_filesz _ Hw)]|].
  destruct (Z.eqb_spec (p_type p) PT_NOTE) as [E|].
  { unfold scan_note. unfold parse_process_bridge_specs_notes. destruct (_ || _) eqn:Eb; [done|]. breflect.
    destruct (pw_offset _ Hw), (pw_filesz _ Hw).
    destruct (notes_loop_sound data (p_offset p + p_filesz p) Hd ltac:(lia) (notes_fuel (p_filesz p)) (p_offset p) specs)
      as [Hr Hsp]; [lia|unfold notes_fuel; lia|done|].
    split; [apply bind_returns; [done|intros; auto with poly]|].
    intros s' (specs' & Hp & [= <-])%bind_ok. eapply scanned_same; [exact Hs0|by eapply Hno|by rewrite Es|by apply Hsp|done]. }
  destruct (Z.eqb_spec (p_type p) PT_TLS) as [E|].
  { unfold scan_tls. destruct (_ || _); [done|]. apply Hok; [by eapply Hno|by rewrite Es|done|apply Hdyn || apply (pw_filesz _ Hw)]. }
  destruct (Z.eqb_spec (p_type p) PT_LOAD) as [E|E].
  2:{ apply Hok; [by apply Z.eqb_neq|by rewrite Es|done|done]. }
  split; [|intros s'; rewrite <- Es; apply scan_load_step; [done|by apply Z.eqb_eq|done]].
  unfold scan_load, record_load_segment. destruct (_ || _); [done|]. destruct (_ <=? _)%nat; [done|]. cbn. auto with poly.
Qed.

Lemma scan_list (data : image) (ehdr : elf_ehdr) : wf_image data -> forall l done s, Forall phdr_wf l -> scanned data done s ->
  returns (fold_outcome (scan_phdr data ehdr) s l) /\
  forall r, fold_outcome (scan_phdr data ehdr) s l = Ok r -> scanned data (done ++ l) r.
Proof.
  intros Hd. induction l as [|p l IH]; intros dn s Hl Hs; cbn [fold_outcome].
  { split; [auto with poly|]. intros r [= <-]. by rewrite app_nil_r. }
  apply Forall_cons in Hl as [Hp Hl]. destruct (scan_phdr_step data ehdr dn p s Hd Hp Hs) as [Hr Hok]. split.
  - apply bind_returns; [done|]. intros s' Hs'. apply (IH (dn ++ [p])); [done|by apply Hok].
  - intros r (s' & Hs' & Hrest)%bind_ok. replace (dn ++ p :: l) with ((dn ++ [p]) ++ l) by by rewrite <- app_assoc.
    eapply IH; [done|by apply Hok|done].
Qed.

Lemma scanned_start (data : image) : scanned data [] scan_start.
Proof. split; try done. split; [cbn; lia|done]. Qed.

(** ** The image *)

(** The image offset [i] is in the part of the segment that the file has. *)
Definition covers (base : Z) (p : elf_phdr) (i : Z) : bool :=
  (p_vaddr p - base <=? i) && (i <? p_vaddr p - base + p_filesz p).

(** The byte of the image: that of the last segment that covers it, or 0. *)
Definition image_byte (data : image) (base : Z) (l : list elf_phdr) (i : Z) : Z :=
  foldl (fun b p => if covers base p i then nth (Z.to_nat (p_offset p + (base + i - p_vaddr p))) data 0 else b) 0 (loads l).

Lemma overwrite_length (target : list Z) (offset : Z) (bytes : list Z) :
  0 <= offset -> offset + Z.of_nat (length bytes) <= Z.of_nat (length target) ->
  length (overwrite target offset bytes) = length target.
Proof. intros H0 H. unfold overwrite. rewrite !length_app, length_take, length_drop. lia. Qed.

Lemma overwrite_nth (target : list Z) (offset : Z) (bytes : list Z) (i : Z) :
  0 <= offset -> offset + Z.of_nat (length bytes) <= Z.of_nat (length target) -> 0 <= i ->
  nth (Z.to_nat i) (overwrite target offset bytes) 0 =
    if (offset <=? i) && (i <? offset + Z.of_nat (length bytes)) then nth (Z.to_nat (i - offset)) bytes 0
    else nth (Z.to_nat i) target 0.
Proof.
  intros H0 H Hi. unfold overwrite. destruct (Z.leb_spec offset i) as [Ho|Ho]; cbn [andb].
  2:{ rewrite app_nth1 by (rewrite length_take; lia). rewrite nth_firstn. by destruct (Nat.ltb_spec (Z.to_nat i) (Z.to_nat offset)); [|lia]. }
  rewrite app_nth2 by (rewrite length_take; lia). rewrite length_take, Nat.min_l by lia.
  destruct (Z.ltb_spec i (offset + Z.of_nat (length bytes))).
  - rewrite app_nth1 by lia. f_equal. lia.
  - rewrite app_nth2 by lia. rewrite nth_skipn. f_equal. lia.
Qed.

Section Copy.
Context (data : image) (base size : Z) (Hdata : wf_image data).

(** The image after the headers [l]. *)
Record copied (l : list elf_phdr) (code : image) : Prop := {
  cp_size : size_of code = size;
  cp_bytes : wf_image code;
  cp_byte : forall i, 0 <= i < size -> nth (Z.to_nat i) code 0 = image_byte data base l i;
}.

Lemma image_byte_snoc (l : list elf_phdr) (p : elf_phdr) (i : Z) :
  image_byte data base (l ++ [p]) i =
    if is_load p && covers base p i then nth (Z.to_nat (p_offset p + (base + i - p_vaddr p))) data 0
    else image_byte data base l i.
Proof.
  unfold image_byte. rewrite loads_snoc, foldl_app. destruct (is_load p); cbn [andb foldl]; [|done]. by destruct (covers _ _ _).
Qed.

Definition placed (p : elf_phdr) : Prop :=
  is_load p = true -> load_wf data p /\ 0 <= base <= p_vaddr p /\ p_vaddr p + p_memsz p <= base + size.

Lemma copy_segment_step (l : list elf_phdr) (p : elf_phdr) (code : image) :
  placed p -> 0 <= size -> copied l code ->
  exists code', copy_segment data base size p code = Ok code' /\ copied (l ++ [p]) code'.
Proof using Hdata.
  intros Hp Hsize [Hs Hw Hb]. unfold copy_segment. fold (is_load p).
  destruct (is_load p) eqn:El; cbn [negb orb].
  2:{ exists code. split; [done|]. split; [done..|]. intros i Hi. by rewrite image_byte_snoc, El, Hb. }
  destruct (Hp El) as ([Hwf Hle Hfile Hend] & Hbase & Hlim). destruct Hwf as [[] [] [] [] _].
  destruct (Z.eqb_spec (p_filesz p) 0) as [E0|E0].
  { exists code. split; [done|]. split; [done..|]. intros i Hi. rewrite image_byte_snoc, El, Hb by done.
    unfold covers. rewrite E0. cbn [andb]. destruct (Z.leb_spec (p_vaddr p - base) i), (Z.ltb_spec i (p_vaddr p - base + 0)); cbn; (done || lia). }
  specialize (Hfile E0). unfold UINT64_MAX in *. rewrite wrap_small by (unfold in_width; lia). rewrite !Z.gtb_ltb.
  destruct (Z.ltb_spec size (p_vaddr p - base)); [lia|]. destruct (Z.ltb_spec (size - (p_vaddr p - base)) (p_filesz p)); [lia|].
  cbn [orb]. rewrite read_bytes_ok by lia. cbn [mbind outcome_bind]. eexists. split; [reflexivity|].
  set (bytes := take _ _). assert (Z.of_nat (length bytes) = p_filesz p) as Hlen.
  { unfold bytes. rewrite length_take, length_drop. unfold size_of in *. lia. }
  unfold size_of in Hs. split.
  - unfold size_of. rewrite overwrite_length; [done|lia|lia].
  - unfold wf_image, overwrite. rewrite !Forall_app. split; [by apply Forall_take|]. split; [|by apply Forall_drop].
    unfold bytes. apply Forall_take, Forall_drop, Hdata.
  - intros i Hi. rewrite overwrite_nth by lia. rewrite image_byte_snoc, El, Hlen, Hb by done. cbn [andb]. unfold covers.
    destruct (_ && _) eqn:Ec; [|done]. breflect. unfold bytes. rewrite nth_firstn, nth_skipn.
    destruct (Nat.ltb_spec (Z.to_nat (i - (p_vaddr p - base))) (Z.to_nat (p_filesz p))); [|lia]. f_equal. lia.
Qed.

Lemma copy_list : 0 <= size -> forall l done code, Forall placed l -> copied done code ->
  exists code', fold_outcome (copy_segment data base size) code l = Ok code' /\ copied (done ++ l) code'.
Proof using Hdata.
  intros Hsize. induction l as [|p l IH]; intros dn code Hl Hc; cbn [fold_outcome].
  { exists code. by rewrite app_nil_r. }
  apply Forall_cons in Hl as [Hp Hl]. destruct (copy_segment_step dn p code Hp Hsize Hc) as (code1 & -> & Hc1).
  cbn [mbind outcome_bind]. destruct (IH (dn ++ [p]) code1 Hl Hc1) as (code' & -> & Hc').
  exists code'. split; [done|]. by rewrite <- app_assoc in Hc'.
Qed.

Lemma copied_start : 0 <= size -> copied [] (repeat 0 (Z.to_nat size)).
Proof.
  intros H. split.
  - unfold size_of. rewrite repeat_length. lia.
  - apply Forall_forall. intros x Hx%list_elem_of_In%repeat_spec. by subst x.
  - intros i Hi. apply nth_repeat.
Qed.
End Copy.

(** ** The dynamic section and the entry *)

Lemma dyn_loop_inv {A} (P : A -> Prop) (p : poly_program) (img : image) (f : Z -> Z -> A -> A) :
  wf_elf p img -> (forall tag value acc, in_width 64 value -> P acc -> P (f tag value acc)) -> forall k n acc,
  0 <= n -> (n + Z.of_nat k) * SIZEOF_DYN <= dynamic_size p -> P acc ->
  exists r, dyn_loop k n p img f acc = Ok r /\ P r.
Proof.
  unfold SIZEOF_DYN. intros He Hf. destruct (we_dyn _ _ He) as (Hd0 & Hd1 & Hd2). pose proof (we_size _ _ He) as Hsz.
  pose proof (we_bytes _ _ He) as Hby. induction k as [|k IH]; intros n acc Hn Hin Hp; cbn [dyn_loop]; [by exists acc|].
  unfold SIZEOF_DYN. do 2 read_field Hby. apply IH; [lia|lia|]. by apply Hf.
Qed.

Definition names_wf (d : dynamic_names) : Prop := 0 <= dn_strsz d /\ 0 <= dn_soname d.

Lemma lifecycle_entry_wf (tag value : Z) (d : dynamic_names) : in_width 64 value -> names_wf d ->
  names_wf (lifecycle_entry tag value d).
Proof.
  intros [Hv _] [H1 H2]. destruct d as [strtab strsz soname [? ? ? ? ? ? ? ?]]. unfold lifecycle_entry.
  repeat case_match; by split.
Qed.

Lemma read_soname_returns (h : poly_program) (code : image) (d : dynamic_names) :
  wf_elf h code -> names_wf d -> returns (read_soname h code d).
Proof.
  intros He [H1 H2]. unfold read_soname. destruct (_ =? UINT64_MAX); [auto with poly|].
  destruct (_ || _) eqn:E; [done|]. breflect. apply vaddr_bind_returns. intros off Hoff Hin. pose proof (we_size _ _ He) as Hs.
  unfold table_string. rewrite read_bytes_ok by lia. cbn [mbind outcome_bind]. destruct (bool_decide _); [|done]. cbn.
  destruct (_ >=? _); auto with poly.
Qed.

(** The dynamic section is inside the image, and reading it stays inside. *)
Lemma read_dynamic_spec (h : poly_program) (code : image) (vaddr size : Z) : wf_elf h code -> 0 <= size ->
  returns (read_dynamic h code vaddr size) /\
  forall h' soname c, read_dynamic h code vaddr size = Ok (h', soname, c) ->
    wf_elf h' code /\ base_vaddr h' = base_vaddr h /\ code_size h' = code_size h.
Proof.
  intros He Hs. unfold read_dynamic. destruct (_ || _); [split; [auto with poly|by intros ? ? ? [= <- _ _]]|].
  destruct (negb _); [done|]. destruct (elf_vaddr_to_image_offset h vaddr size) as [off| | |] eqn:Ev.
  2-4: by destruct (vaddr_returns h vaddr size) as [H1 H2]; rewrite Ev in *; cbn.
  apply vaddr_inside in Ev as (H1 & H2 & _). cbn [mbind outcome_bind]. set (h1 := set_dynamic off size h).
  assert (wf_elf h1 code) as He1 by (destruct He; split; try done; cbn; lia).
  destruct (dyn_loop_inv names_wf h1 code lifecycle_entry He1 lifecycle_entry_wf (dyn_count h1) 0 names_start ltac:(lia)
    (dyn_count_inside _ _ He1) ltac:(done)) as (d & -> & Hd). cbn [mbind outcome_bind].
  pose proof (read_soname_returns h1 code d He1 Hd) as Hr. destruct (read_soname h1 code d) as [soname| | |]; cbn.
  2-4: split; [by destruct Hr|done].
  destruct (bad_array _ _); [done|]. destruct (bad_array _ _); [done|]. split; [auto with poly|]. by intros ? ? ? [= <- _ _].
Qed.

Lemma exec_list (entry : Z) (l : list elf_phdr) : forall found, exists r,
  fold_outcome (exec_phdr entry) found l = Ok r /\
  (r = true -> found = true \/ exists p, p ∈ loads l /\ Z.land (p_flags p) PF_X <> 0 /\
     p_vaddr p <= entry < p_vaddr p + p_filesz p).
Proof.
  induction l as [|p l IH]; intros found; cbn [fold_outcome]; [exists found; eauto|]. unfold exec_phdr at 1.
  cbn [mbind outcome_bind]. destruct (IH (found || ((p_type p =? PT_LOAD) && negb (Z.land (p_flags p) PF_X =? 0) &&
    (entry >=? p_vaddr p) && (entry <? p_vaddr p + p_filesz p)))) as (r & Hr & Hex). exists r. split; [exact Hr|].
  intros Ht. unfold loads. rewrite filter_cons. destruct (Hex Ht) as [Hf|(q & Hq & Hrest)].
  - destruct found; [by left|]. right. cbn in Hf. breflect. exists p. unfold is_load. rewrite decide_True by by apply Z.eqb_eq.
    split; [apply elem_of_cons; by left|]. split; [done|lia].
  - right. exists q. split; [|done]. case_decide; [|done]. apply elem_of_cons. by right.
Qed.

(** ** The stages of loading *)

Lemma image_size_ge (arch base limit : Z) : base <= limit -> limit - base <= image_size_of arch base limit.
Proof.
  intros H. unfold image_size_of. set (a := if arch =? _ then 4 else 2). assert (0 < a) by (subst a; by destruct (_ =? _)).
  pose proof (Z.mod_pos_bound (limit - base) a ltac:(lia)). destruct (_ =? 0); lia.
Qed.

(** The image is ready: what the entry and the dynamic section are read from. *)
Record image_ready (data : image) (ehdr : elf_ehdr) (l : list elf_phdr) (s : phdr_scan) (header : poly_program)
    (code : image) : Prop := {
  ir_ehdr : read_ehdr data = Ok ehdr;
  ir_phdrs : file_phdrs data ehdr = Ok l;
  ir_fold : forall A (f : elf_phdr -> A -> outcome A) acc, each_phdr data ehdr f acc = fold_outcome f acc l;
  ir_scan : scanned data l s;
  ir_base : base_vaddr header = sn_base_vaddr s;
  ir_limit : sn_limit_vaddr s <= sn_base_vaddr s + code_size header;
  ir_elf : wf_elf header code;
  ir_code : copied data (sn_base_vaddr s) (code_size header) l code;
}.

Section Loading.
Context (files : list Z -> option image) (calloc_fails : Z -> bool) (path name : list Z) (data : image).
Context (Hfile : files path = Some data) (Hdata : wf_image data).

Abbreviation loading := (load_elf_program files calloc_fails path name).

Lemma load_stages : loading = Err \/ exists ehdr arch l s header code,
  image_ready data ehdr l s header code /\ loading = finish_load path data ehdr arch s header code name.
Proof using Hfile Hdata.
  unfold load_elf_program. rewrite Hfile. destruct (Z.ltb_spec (size_of data) SIZEOF_EHDR); [by left|].
  destruct (read_ehdr_inside data Hdata ltac:(done)) as (ehdr & He & Hehdr). rewrite He. cbn [mbind outcome_bind].
  destruct (negb (header_accepted ehdr)); [by left|]. destruct (detect_arch _) as [arch|]; [|by left].
  destruct (phdrs_accepted data ehdr) eqn:Ha; cbn [negb]; [|by left].
  destruct (each_phdr_list data ehdr Hdata Hehdr Ha) as (l & Hl & Hw & Hfold). rewrite Hfold.
  destruct (scan_list data ehdr Hdata l [] scan_start Hw (scanned_start data)) as [Hr Hs].
  destruct (fold_outcome (scan_phdr data ehdr) scan_start l) as [s| | |] eqn:Escan; [|by left|by destruct Hr..].
  specialize (Hs s eq_refl). cbn [app] in Hs. cbn [mbind outcome_bind]. cbv zeta.
  destruct (negb (sn_found_load s) || _) eqn:E1; [by left|]. destruct (_ - _ >? _) eqn:E2; [by left|].
  destruct ((image_size_of _ _ _ =? 0) || _) eqn:E3; [by left|]. destruct (calloc_fails _); [by left|]. breflect. set (size := image_size_of _ _ _) in *.
  pose proof (image_size_ge arch (sn_base_vaddr s) (sn_limit_vaddr s) ltac:(lia)) as Hge. fold size in Hge.
  destruct (sc_base_range _ _ _ Hs) as [Hb _].
  assert (Forall (placed data (sn_base_vaddr s) size) l) as Hpl.
  { apply Forall_forall. intros p Hp Hld. assert (p ∈ loads l) as Hin by by apply list_elem_of_filter.
    pose proof (proj1 (Forall_forall _ _) (sc_loads _ _ _ Hs) p Hin). pose proof (proj1 (Forall_forall _ _) (sc_base _ _ _ Hs) p Hin).
    pose proof (proj1 (Forall_forall _ _) (sc_limit _ _ _ Hs) p Hin). cbn in *. split; [done|]. lia. }
  destruct (copy_list data (sn_base_vaddr s) size Hdata ltac:(lia) l [] _ Hpl (copied_start data _ size ltac:(lia)))
    as (code & Hcopy & Hcode). cbn [app] in Hcode. rewrite Hfold, Hcopy. cbn [mbind outcome_bind]. right.
  exists ehdr, arch, l, s, (MkProgramHeader (sn_base_vaddr s) size 0 0 0), code. split; [|done].
  split; [exact He|exact Hl|exact Hfold|exact Hs|reflexivity|cbn; lia| |exact Hcode].
  split; cbn; [apply Hcode|apply Hcode|lia|lia|lia].
Qed.
End Loading.

(** C9: Loading a dependency or the program of a process (without the name of a
    symbol) returns for every file: whatever bytes the file has, no access is
    outside it or outside the image, and every loop ends. *)
Theorem load_returns (files : list Z -> option image) (calloc_fails : Z -> bool) (path : list Z) :
  (forall p data, files p = Some data -> wf_image data) -> returns (load_elf_program files calloc_fails path []).
Proof.
  intros Hw. destruct (files path) as [data|] eqn:Hf; [|unfold load_elf_program; by rewrite Hf].
  destruct (load_stages files calloc_fails path [] data Hf (Hw _ _ Hf)) as [->|(ehdr & arch & l & s & h & code & Hr & ->)]; [done|].
  unfold finish_load, entry_vaddr_of. cbn [mbind outcome_bind]. rewrite (ir_fold _ _ _ _ _ _ Hr).
  destruct (exec_list (e_entry ehdr) l false) as (r & -> & _). cbn [mbind outcome_bind]. destruct (_ || _); [done|].
  apply bind_returns; [|intros [[h' so] c] _; auto with poly].
  apply read_dynamic_spec; [by apply (ir_elf _ _ _ _ _ _ Hr)|by apply (sc_dynamic _ _ _ (ir_scan _ _ _ _ _ _ Hr))].
Qed.

(** C8: A file that is accepted is loaded as it says.  The recorded segments are
    its load segments, all of them inside the image; every byte of the image is
    that of the last load segment that has it, or 0; the entry is inside the image
    and in an executable segment (or the image's start, for a library without an
    entry); and the dynamic section is inside the image. *)
Theorem load_places_segments (files : list Z -> option image) (calloc_fails : Z -> bool) (path name : list Z) (data : image)
    (p : loaded_program) :
  files path = Some data -> wf_image data -> load_elf_program files calloc_fails path name = Ok p ->
  exists ehdr l, read_ehdr data = Ok ehdr /\ file_phdrs data ehdr = Ok l /\
    let base := base_vaddr (lp_header p) in
    let size := code_size (lp_header p) in
    wf_elf (lp_header p) (lp_code_bytes p) /\
    lp_load_segments p = segment_of <$> loads l /\
    Forall (fun ph => base <= p_vaddr ph /\ p_vaddr ph + p_memsz ph <= base + size) (loads l) /\
    (forall i, 0 <= i < size -> nth (Z.to_nat i) (lp_code_bytes p) 0 = image_byte data base l i) /\
    0 <= lp_entry_offset p < size /\
    ((exists ph, ph ∈ loads l /\ Z.land (p_flags ph) PF_X <> 0 /\
        p_vaddr ph <= base + lp_entry_offset p < p_vaddr ph + p_filesz ph) \/
     name = [] /\ e_type ehdr = ET_DYN /\ e_entry ehdr = 0 /\ lp_entry_offset p = 0).
Proof.
  intros Hf Hw Hload.
  destruct (load_stages files calloc_fails path name data Hf Hw) as [E|(ehdr & arch & l & s & h & code & Hr & E)];
    rewrite E in Hload; [done|]. clear E. destruct Hr as [He Hl Hfold Hs Hb Hlim Helf Hcode].
  exists ehdr, l. split; [done|]. split; [done|]. unfold finish_load in Hload. apply bind_ok in Hload as (entry & Hentry & Hload).
  rewrite Hfold in Hload. destruct (exec_list entry l false) as (r & Hexec & Hr). rewrite Hexec in Hload.
  cbn [mbind outcome_bind] in Hload. set (no_entry := _ && _) in Hload. destruct (_ || _) eqn:Echeck in Hload; [done|].
  apply bind_ok in Hload as ([[h' soname] c] & Hdyn & [= <-]).
  destruct (read_dynamic_spec h code (sn_dynamic_vaddr s) (sn_dynamic_size s) Helf (sc_dynamic _ _ _ Hs)) as [_ Hd]. destruct (Hd _ _ _ Hdyn) as (Helf' & Hb' & Hz').
  cbn. rewrite Hb', Hz', Hb in *. split; [done|]. split; [by apply Hs|]. split.
  { apply Forall_forall. intros q Hq. pose proof (proj1 (Forall_forall _ _) (sc_base _ _ _ Hs) q Hq).
    pose proof (proj1 (Forall_forall _ _) (sc_limit _ _ _ Hs) q Hq). cbn in *. lia. }
  split; [by apply Hcode|]. breflect. split; [lia|]. destruct no_entry eqn:En.
  - right. unfold no_entry in En. apply andb_prop in En as [En E0%Z.eqb_eq]. apply andb_prop in En as [Et%Z.eqb_eq En%bool_decide_eq_true]. subst name. injection Hentry as <-. split_and!; try done; lia.
  - left. rewrite orb_false_r in *. destruct (Hr ltac:(done)) as [|(ph & ? & ? & ?)]; [done|]. exists ph. split_and!; try done; lia.
Qed.
