(* ===== verification/LibraryPath.v ===== *)
(** Where a needed library is looked for ([tools/runtime/polyexec.c]): the
    expansion of [$ORIGIN], [$LIB] and [$PLATFORM], the search along the library
    path and the run path of the program, and the paths of preloaded libraries.

    A C string is the list of its bytes; a function that fills a buffer returns
    what it left there, or [None] for -1.  The environment and [access] are
    parameters. *)

From stdpp Require Import strings.
From S2P Require Import Prelude LoaderBase BridgeSpec ElfImage ElfLoad.

Definition SLASH : Z := 47.
Definition COLON : Z := 58.

(** ** Directories *)

(** [strrchr(path, '/')]: what is before the last slash. *)
Fixpoint before_last_slash (path : list Z) : option (list Z) :=
  match path with
  | [] => None
  | c :: rest =>
      match before_last_slash rest with
      | Some dir => Some (c :: dir)
      | None => if c =? SLASH then Some [] else None
      end
  end.

Definition is_absolute (path : list Z) : bool := bool_decide (head path = Some SLASH).

(** [strcpy] into a buffer of [out_size] bytes after the check of the length. *)
Definition fitting (path : list Z) (out_size : Z) : option (list Z) :=
  if Z.of_nat (length path) >=? out_size then None else Some path.

Definition build_needed_path (owner_path needed : list Z) (out_size : Z) : option (list Z) :=
  match needed with
  | [] => None
  | _ =>
      if is_absolute needed then fitting needed out_size
      else match before_last_slash owner_path with
           | None => fitting needed out_size
           | Some dir => fitting (dir ++ [SLASH] ++ needed) out_size
           end
  end.

(** ** Expansion *)

Definition append_path_bytes (out : list Z) (out_size : Z) (bytes : list Z) : option (list Z) :=
  if Z.of_nat (length out) + Z.of_nat (length bytes) + 1 >? out_size then None else Some (out ++ bytes).

(** The directory of the owner, empty without a slash. *)
Definition origin_dir (owner_path : list Z) : list Z := default [] (before_last_slash owner_path).

Definition append_origin_dir (owner_path out : list Z) (out_size : Z) : option (list Z) :=
  append_path_bytes out out_size (origin_dir owner_path).

(** [entry_len - n >= length && memcmp(entry + n, token, length) == 0] *)
Definition starts_with (entry token : list Z) : bool := bool_decide (take (length token) entry = token).

Definition ORIGIN_BRACED : list Z := bytes_of_string "${ORIGIN}".
Definition ORIGIN_PLAIN : list Z := bytes_of_string "$ORIGIN".
Definition LIB_BRACED : list Z := bytes_of_string "${LIB}".
Definition LIB_PLAIN : list Z := bytes_of_string "$LIB".
Definition PLATFORM_BRACED : list Z := bytes_of_string "${PLATFORM}".
Definition PLATFORM_PLAIN : list Z := bytes_of_string "$PLATFORM".
Definition LIB_NAME : list Z := bytes_of_string "lib".

(** The loop; every round takes at least one byte, so there are at most as many
    rounds as bytes. *)
Fixpoint expand_loop (fuel : nat) (owner_path : list Z) (platform_name : option (list Z)) (entry out : list Z) (out_size : Z)
    : option (list Z) :=
  match entry, fuel with
  | [], _ => Some out
  | _, O => None
  | c :: rest, S fuel' =>
      let continue out n :=
        match out with
        | None => None
        | Some out => expand_loop fuel' owner_path platform_name (drop n entry) out out_size
        end in
      if starts_with entry ORIGIN_BRACED then continue (append_origin_dir owner_path out out_size) 9%nat
      else if starts_with entry ORIGIN_PLAIN then continue (append_origin_dir owner_path out out_size) 7%nat
      else if starts_with entry LIB_BRACED then continue (append_path_bytes out out_size LIB_NAME) 6%nat
      else if starts_with entry LIB_PLAIN then continue (append_path_bytes out out_size LIB_NAME) 4%nat
      else
        match platform_name with
        | Some name =>
            if starts_with entry PLATFORM_BRACED then continue (append_path_bytes out out_size name) 11%nat
            else if starts_with entry PLATFORM_PLAIN then continue (append_path_bytes out out_size name) 9%nat
            else continue (append_path_bytes out out_size [c]) 1%nat
        | None => continue (append_path_bytes out out_size [c]) 1%nat
        end
  end.

Definition expand_runpath_entry (owner_path : list Z) (platform_name : option (list Z)) (entry : list Z) (out_size : Z)
    : option (list Z) :=
  if out_size =? 0 then None
  else
    match expand_loop (length entry) owner_path platform_name entry [] out_size with
    | Some [] => None
    | r => r
    end.

(** ** The search *)

Definition build_runpath_entry_needed_path (entry needed : list Z) (out_size : Z) : option (list Z) :=
  let separator := if bool_decide (last entry = Some SLASH) then [] else [SLASH] in
  let path := entry ++ separator ++ needed in
  if Z.of_nat (length path) + 1 >? out_size then None else Some path.

(** The parts of a string between separators, the empty ones left out: what the
    nested loops go through. *)
Fixpoint parts_from (separator : Z -> bool) (current bs : list Z) : list (list Z) :=
  match bs with
  | [] => if bool_decide (current = []) then [] else [current]
  | c :: bs' =>
      if separator c then
        if bool_decide (current = []) then parts_from separator [] bs' else current :: parts_from separator [] bs'
      else parts_from separator (current ++ [c]) bs'
  end.

Definition parts (separator : Z -> bool) (bs : list Z) : list (list Z) := parts_from separator [] bs.

Definition process_platform_name_for_arch (arch : Z) : option (list Z) :=
  if arch =? POLY_ARCH_AARCH64 then Some (bytes_of_string "aarch64")
  else if arch =? POLY_ARCH_RISCV then Some (bytes_of_string "riscv")
  else if arch =? POLY_ARCH_X86 then Some (bytes_of_string "x86_64")
  else None.

Definition preload_separator (c : Z) : bool := (c =? COLON) || (c =? SPACE) || (c =? TAB) || (c =? NEWLINE).

Section Search.
Context (getenv : list Z -> option (list Z)) (accessible : list Z -> bool).

(** [None]: go on with the next entry. *)
Definition runpath_candidate (owner_path : list Z) (platform_name : option (list Z)) (needed : list Z) (out_size : Z)
    (entry : list Z) : option (list Z) :=
  match expand_runpath_entry owner_path platform_name entry MAX_DEP_PATH with
  | None => None
  | Some expanded => build_runpath_entry_needed_path expanded needed out_size
  end.

(** The loop over the entries of a path. *)
Fixpoint runpath_loop (owner_path : list Z) (platform_name : option (list Z)) (needed : list Z) (out_size : Z)
    (entries : list (list Z)) : option (list Z) :=
  match entries with
  | [] => None
  | entry :: entries' =>
      match runpath_candidate owner_path platform_name needed out_size entry with
      | Some path => if accessible path then Some path
                     else runpath_loop owner_path platform_name needed out_size entries'
      | None => runpath_loop owner_path platform_name needed out_size entries'
      end
  end.

(** [runpath] is empty for the null pointer too. *)
Definition build_runpath_needed_path (owner_path : list Z) (platform_name : option (list Z)) (runpath needed : list Z)
    (out_size : Z) : option (list Z) :=
  if bool_decide (runpath = []) || is_absolute needed then None
  else runpath_loop owner_path platform_name needed out_size (parts (fun c => c =? COLON) runpath).

(** A variable that is set and not empty. *)
Definition set_variable (name : string) : option (list Z) :=
  match getenv (bytes_of_string name) with
  | Some (c :: value) => Some (c :: value)
  | _ => None
  end.

Definition process_library_path : list Z :=
  match set_variable "POLY_LD_LIBRARY_PATH" with
  | Some path => path
  | None => match set_variable "LD_LIBRARY_PATH" with
            | Some path => path
            | None => bytes_of_string "/lib:/usr/lib"
            end
  end.

(** [if (m() == 0) return 0;] followed by [m']. *)
Definition or_next (m m' : option (list Z)) : option (list Z) := match m with Some path => Some path | None => m' end.

Definition find_process_needed_path (owner_path needed : list Z) (platform_name : option (list Z)) (runpath : list Z)
    (out_size : Z) : option (list Z) :=
  match expand_runpath_entry owner_path platform_name needed MAX_DEP_PATH with
  | None => None
  | Some needed =>
      or_next (if is_absolute needed then None
               else build_runpath_needed_path owner_path platform_name process_library_path needed out_size)
      (or_next (if is_absolute needed then None
                else build_runpath_needed_path owner_path platform_name runpath needed out_size)
      (match build_needed_path owner_path needed out_size with
       | None => None
       | Some path => if negb (is_absolute needed) && negb (accessible path) then None else Some path
       end))
  end.

Definition build_process_preload_path (program_path : list Z) (arch : Z) (token : list Z) (out_size : Z)
    : option (list Z) :=
  if bool_decide (token = []) || (Z.of_nat (length token) >=? MAX_DEP_PATH) then None
  else
    let platform := process_platform_name_for_arch arch in
    match expand_runpath_entry program_path platform token MAX_DEP_PATH with
    | None => None
    | Some expanded =>
        if is_absolute expanded then
          if (Z.of_nat (length expanded) >=? out_size) || negb (accessible expanded) then None else Some expanded
        else
          or_next (build_runpath_needed_path program_path platform process_library_path expanded out_size)
          (match build_needed_path program_path expanded out_size with
           | Some path => if accessible path then Some path else None
           | None => None
           end)
    end.

(** The libraries of [LD_PRELOAD], in order. *)
Definition preload_tokens : list (list Z) :=
  match set_variable "POLY_LD_PRELOAD" with
  | Some preload => parts preload_separator preload
  | None => match set_variable "LD_PRELOAD" with
            | Some preload => parts preload_separator preload
            | None => []
            end
  end.
End Search.

(** ** What the expansion means *)

(** The places of an entry where something is put in; the first that fits counts. *)
Definition tokens (owner_path : list Z) (platform_name : option (list Z)) : list (list Z * list Z) :=
  [(ORIGIN_BRACED, origin_dir owner_path); (ORIGIN_PLAIN, origin_dir owner_path); (LIB_BRACED, LIB_NAME);
   (LIB_PLAIN, LIB_NAME)] ++
  match platform_name with Some name => [(PLATFORM_BRACED, name); (PLATFORM_PLAIN, name)] | None => [] end.

Inductive expands (ts : list (list Z * list Z)) : list Z -> list Z -> Prop :=
| expands_nil : expands ts [] []
| expands_token (i : nat) (token value rest out : list Z) :
    ts !! i = Some (token, value) ->
    (forall j t v, (j < i)%nat -> ts !! j = Some (t, v) -> ~ t `prefix_of` token ++ rest) ->
    expands ts rest out -> expands ts (token ++ rest) (value ++ out)
| expands_byte (c : Z) (rest out : list Z) :
    (forall t v, (t, v) ∈ ts -> ~ t `prefix_of` c :: rest) ->
    expands ts rest out -> expands ts (c :: rest) (c :: out).

(** The first token that the entry starts with. *)
Fixpoint find_token (ts : list (list Z * list Z)) (entry : list Z) : option (list Z * list Z) :=
  match ts with
  | [] => None
  | (t, v) :: ts' => if starts_with entry t then Some (t, v) else find_token ts' entry
  end.

Lemma starts_with_prefix (entry t : list Z) : starts_with entry t = true <-> t `prefix_of` entry.
Proof.
  unfold starts_with. rewrite bool_decide_eq_true. split.
  - intros E. exists (drop (length t) entry). by rewrite <- E at 1; rewrite take_drop.
  - intros [k ->]. by rewrite take_app_length.
Qed.

Lemma find_token_some (ts : list (list Z * list Z)) (entry t v : list Z) : find_token ts entry = Some (t, v) ->
  exists i, ts !! i = Some (t, v) /\ t `prefix_of` entry /\
    forall j t' v', (j < i)%nat -> ts !! j = Some (t', v') -> ~ t' `prefix_of` entry.
Proof.
  induction ts as [|[t1 v1] ts IH]; cbn [find_token]; [done|]. destruct (starts_with entry t1) eqn:E.
  - intros [= -> ->]. exists 0%nat. split; [done|]. split; [by apply starts_with_prefix|]. intros j t' v' Hj. lia.
  - intros (i & Hi & Hp & Hlt)%IH. exists (S i). split; [done|]. split; [done|]. intros [|j] t' v' Hj Hl; cbn in Hl.
    + simplify_eq. rewrite <- starts_with_prefix, E. done.
    + eapply Hlt; [|done]. lia.
Qed.

Lemma find_token_none (ts : list (list Z * list Z)) (entry : list Z) : find_token ts entry = None ->
  forall t v, (t, v) ∈ ts -> ~ t `prefix_of` entry.
Proof.
  induction ts as [|[t1 v1] ts IH]; cbn [find_token]; [intros _ t v H; by apply elem_of_nil in H|].
  destruct (starts_with entry t1) eqn:E; [done|]. intros H t v [[= -> ->]|Hin]%elem_of_cons; [|by eapply IH].
  by rewrite <- starts_with_prefix, E.
Qed.

Section Expansion.
Context (owner_path : list Z) (platform_name : option (list Z)).

Abbreviation ts := (tokens owner_path platform_name).

(** One round of the loop. *)
Lemma expand_round (fuel : nat) (c : Z) (rest out : list Z) (out_size : Z) :
  expand_loop (S fuel) owner_path platform_name (c :: rest) out out_size =
    let '(value, n) := match find_token ts (c :: rest) with Some (t, v) => (v, length t) | None => ([c], 1%nat) end in
    match append_path_bytes out out_size value with
    | None => None
    | Some out => expand_loop fuel owner_path platform_name (drop n (c :: rest)) out out_size
    end.
Proof.
  cbn [expand_loop]. unfold append_origin_dir, tokens. cbn [find_token app].
  repeat match goal with |- context [starts_with ?e ?t] => is_var t || (destruct (starts_with e t); [reflexivity|]) end.
  destruct platform_name; cbn [find_token]; [|reflexivity].
  by repeat match goal with |- context [starts_with ?e ?t] => destruct (starts_with e t); [reflexivity|] end.
Qed.

Lemma tokens_nonempty (i : nat) (t v : list Z) : ts !! i = Some (t, v) -> t <> [].
Proof.
  intros Hi%list_elem_of_lookup_2.
  assert (Forall (fun tv => tv.1 <> []) ts) as H; [|by apply (proj1 (Forall_forall _ _) H) in Hi].
  unfold tokens. destruct platform_name; by repeat constructor.
Qed.

Lemma token_nonempty (t v entry : list Z) : find_token ts entry = Some (t, v) -> (0 < length t)%nat.
Proof.
  intros (i & Hi & _)%find_token_some. apply tokens_nonempty in Hi. destruct t; [done|cbn; lia].
Qed.

(** An entry has one expansion, and the loop appends it if it fits. *)
Lemma expand_loop_spec (out_size : Z) (fuel : nat) : forall entry, (length entry <= fuel)%nat ->
  exists r, expands ts entry r /\ forall out, Z.of_nat (length out) + 1 <= out_size ->
    expand_loop fuel owner_path platform_name entry out out_size =
      if Z.of_nat (length out) + Z.of_nat (length r) + 1 >? out_size then None else Some (out ++ r).
Proof.
  induction fuel as [|fuel IH]; intros [|c rest] Hf; cbn [length] in Hf; [|lia| |].
  1,2: exists []; split; [apply expands_nil|]; intros out Hout; cbn [expand_loop length]; rewrite app_nil_r, Z.gtb_ltb;
    destruct (Z.ltb_spec out_size (Z.of_nat (length out) + Z.of_nat 0 + 1)); (done || lia).
  assert (forall value n r, (1 <= n)%nat -> expands ts (c :: rest) (value ++ r) ->
    (forall out, Z.of_nat (length out) + 1 <= out_size ->
       expand_loop fuel owner_path platform_name (drop n (c :: rest)) out out_size =
         if Z.of_nat (length out) + Z.of_nat (length r) + 1 >? out_size then None else Some (out ++ r)) ->
    exists r', expands ts (c :: rest) r' /\ forall out, Z.of_nat (length out) + 1 <= out_size ->
      match append_path_bytes out out_size value with
      | None => None
      | Some out => expand_loop fuel owner_path platform_name (drop n (c :: rest)) out out_size
      end = if Z.of_nat (length out) + Z.of_nat (length r') + 1 >? out_size then None else Some (out ++ r')) as Hstep.
  { intros value n r Hn He Hl. exists (value ++ r). split; [done|]. intros out Hout. unfold append_path_bytes.
    rewrite length_app, !Z.gtb_ltb. destruct (Z.ltb_spec out_size (Z.of_nat (length out) + Z.of_nat (length value) + 1)).
    - by destruct (Z.ltb_spec out_size (Z.of_nat (length out) + Z.of_nat (length value + length r) + 1)); [|lia].
    - rewrite Hl by (rewrite length_app; lia). rewrite length_app, Z.gtb_ltb, <- app_assoc.
      by replace (Z.of_nat (length out + length value) + Z.of_nat (length r))
        with (Z.of_nat (length out) + Z.of_nat (length value + length r)) by lia. }
  setoid_rewrite expand_round. destruct (find_token ts (c :: rest)) as [[t v]|] eqn:Et.
  - pose proof (token_nonempty _ _ _ Et) as Hne. apply find_token_some in Et as (i & Hi & [k Hk] & Hlt).
    destruct (IH (drop (length t) (c :: rest))) as (r & Hr & Hl); [rewrite length_drop; cbn [length]; lia|].
    rewrite Hk, drop_app_length in Hr. apply (Hstep v (length t) r); [lia| |done].
    rewrite Hk. rewrite Hk in Hlt. by eapply expands_token.
  - pose proof (find_token_none _ _ Et) as Hno. destruct (IH rest ltac:(lia)) as (r & Hr & Hl).
    apply (Hstep [c] 1%nat r); [lia| |done]. by apply expands_byte.
Qed.

Lemma expands_unique (entry r r' : list Z) : expands ts entry r -> expands ts entry r' -> r = r'.
Proof.
  intros H. revert r'. induction H as [|i t v rest out Hi Hlt _ IH|c rest out Hno _ IH]; intros r' H'.
  - remember [] as e eqn:E in H'. destruct H' as [|i' t' v' rest' out' Hi' _ _|]; [done| |done].
    apply app_nil in E as [-> _]. by destruct (tokens_nonempty _ _ _ Hi').
  - remember (t ++ rest) as e eqn:E in H'. destruct H' as [|i' t' v' rest' out' Hi' Hlt' Hr'|c' rest' out' Hno' Hr'].
    + symmetry in E. apply app_nil in E as [-> _]. by destruct (tokens_nonempty _ _ _ Hi).
    + assert (i' = i) as ->.
      { destruct (Nat.lt_trichotomy i i') as [Hl|[?|Hl]]; [|done|].
        - destruct (Hlt' i t v Hl Hi). rewrite E. by exists rest.
        - destruct (Hlt i' t' v' Hl Hi'). rewrite <- E. by exists rest'. }
      simplify_eq. f_equal. by apply IH.
    + destruct (Hno' t v); [by eapply list_elem_of_lookup_2|]. rewrite E. by exists rest.
  - remember (c :: rest) as e eqn:E in H'. destruct H' as [|i' t' v' rest' out' Hi' Hlt' Hr'|c' rest' out' Hno' Hr']; [done| |].
    + destruct (Hno t' v'); [by eapply list_elem_of_lookup_2|]. rewrite <- E. by exists rest'.
    + simplify_eq. f_equal. by apply IH.
Qed.

Lemma expand_entry_spec (entry : list Z) : exists r, expands ts entry r /\
  expand_runpath_entry owner_path platform_name entry MAX_DEP_PATH =
    if bool_decide (r = []) || (Z.of_nat (length r) >=? MAX_DEP_PATH) then None else Some r.
Proof.
  destruct (expand_loop_spec MAX_DEP_PATH (length entry) entry ltac:(lia)) as (r & Hr & Hl). exists r. split; [done|].
  unfold expand_runpath_entry. cbn [Z.eqb MAX_DEP_PATH]. rewrite Hl by (unfold MAX_DEP_PATH; cbn; lia).
  rewrite Z.gtb_ltb, Z.geb_leb. change (Z.of_nat (length [])) with 0. rewrite Z.add_0_l. cbn [app].
  destruct (Z.ltb_spec MAX_DEP_PATH (Z.of_nat (length r) + 1)), (Z.leb_spec MAX_DEP_PATH (Z.of_nat (length r))); try lia.
  - by rewrite orb_true_r.
  - destruct r; [done|]. by rewrite bool_decide_eq_false_2.
Qed.
End Expansion.

(** ** What the search finds *)

Section Found.
Context (getenv : list Z -> option (list Z)) (accessible : list Z -> bool).
Context (owner_path : list Z) (platform_name : option (list Z)) (runpath : list Z) (out_size : Z).

(** The places of a relative name, in the order of the search: along the library
    path, along the run path, beside the owner. *)
Definition search_candidates (needed : list Z) : list (list Z) :=
  omap (runpath_candidate owner_path platform_name needed out_size)
    (parts (fun c => c =? COLON) (process_library_path getenv) ++ parts (fun c => c =? COLON) runpath) ++
  option_list (build_needed_path owner_path needed out_size).

Definition first_accessible (paths : list (list Z)) : option (list Z) := head (filter (fun p => accessible p = true) paths).

Lemma first_accessible_app (l k : list (list Z)) :
  first_accessible (l ++ k) = or_next (first_accessible l) (first_accessible k).
Proof. unfold first_accessible. rewrite filter_app. by destruct (filter _ l). Qed.

Lemma or_next_assoc (a b c : option (list Z)) : or_next a (or_next b c) = or_next (or_next a b) c.
Proof. by destruct a. Qed.

Lemma runpath_loop_first (needed : list Z) (entries : list (list Z)) :
  runpath_loop accessible owner_path platform_name needed out_size entries =
    first_accessible (omap (runpath_candidate owner_path platform_name needed out_size) entries).
Proof.
  induction entries as [|e entries IH]; [done|]. cbn [runpath_loop]. rewrite IH. cbn [omap list_omap].
  destruct (runpath_candidate _ _ _ _ e) as [path|]; [|done]. unfold first_accessible. rewrite filter_cons.
  by destruct (accessible path).
Qed.

Lemma runpath_first (needed path : list Z) : is_absolute needed = false ->
  build_runpath_needed_path accessible owner_path platform_name path needed out_size =
    first_accessible (omap (runpath_candidate owner_path platform_name needed out_size) (parts (fun c => c =? COLON) path)).
Proof.
  intros Hn. unfold build_runpath_needed_path. rewrite Hn, orb_false_r. case_bool_decide as E; [by subst path|].
  apply runpath_loop_first.
Qed.

(** C28: A needed library is searched for under its name with [$ORIGIN], [$LIB] and
    [$PLATFORM] replaced (a name has one such replacement; one that is empty or
    does not fit fails).  An absolute name is the path; for any other, the path
    found is the first readable one of the library path, the run path and the
    directory of the program that needs it, in this order. *)
Theorem needed_path_search (needed : list Z) : exists name, expands (tokens owner_path platform_name) needed name /\
  (forall other, expands (tokens owner_path platform_name) needed other -> other = name) /\
  find_process_needed_path getenv accessible owner_path needed platform_name runpath out_size =
    (if bool_decide (name = []) || (Z.of_nat (length name) >=? MAX_DEP_PATH) then None
     else if is_absolute name then fitting name out_size
     else first_accessible (search_candidates name)).
Proof.
  destruct (expand_entry_spec owner_path platform_name needed) as (name & Hname & Hexp). exists name. split; [done|].
  split; [intros other Ho; by eapply expands_unique|]. unfold find_process_needed_path. rewrite Hexp.
  destruct (bool_decide (name = []) || _) eqn:E; [done|]. apply orb_false_elim in E as [E%bool_decide_eq_false _].
  destruct (is_absolute name) eqn:Ea; cbn [negb andb or_next].
  { destruct name as [|c name]; [done|]. unfold build_needed_path. rewrite Ea. by destruct (fitting _ _). }
  rewrite !runpath_first by done. unfold search_candidates. rewrite omap_app, !first_accessible_app. rewrite <- !or_next_assoc.
  do 2 f_equal. destruct (build_needed_path _ _ _) as [path|]; [|done]. unfold first_accessible.
  change (option_list (Some path)) with [path]. rewrite filter_cons, filter_nil. by destruct (accessible path).
Qed.
End Found.
