(* ===== verification/ProcessStack.v ===== *)
(** The initial stack of a process ([build_process_stack] of
    [tools/runtime/polyexec.c]): the strings from the top down, below them the table
    of argument count, argument and environment pointers and auxiliary vector that
    program start-up code reads.

    What the host gives (the mapping, random bytes, identities, the environment) is a
    record.  Memory is a map from addresses to bytes; a failure says which mapping is
    given back. *)

From stdpp Require Import strings.
From S2P Require Import Prelude LoaderBase GuestMemory CString BridgeSpec ElfImage ElfLoad LibraryPath.

Definition STACK_SIZE : Z := 1024 * 1024.

Definition AT_NULL : Z := 0.
Definition AT_PHDR : Z := 3.
Definition AT_PHENT : Z := 4.
Definition AT_PHNUM : Z := 5.
Definition AT_PAGESZ : Z := 6.
Definition AT_BASE : Z := 7.
Definition AT_FLAGS : Z := 8.
Definition AT_ENTRY : Z := 9.
Definition AT_UID : Z := 11.
Definition AT_EUID : Z := 12.
Definition AT_GID : Z := 13.
Definition AT_EGID : Z := 14.
Definition AT_PLATFORM : Z := 15.
Definition AT_HWCAP : Z := 16.
Definition AT_CLKTCK : Z := 17.
Definition AT_SECURE : Z := 23.
Definition AT_RANDOM : Z := 25.
Definition AT_HWCAP2 : Z := 26.
Definition AT_EXECFN : Z := 31.
Definition AT_SYSINFO_EHDR : Z := 33.

(** ** The host *)

Record stack_host : Type := MkStackHost {
  sh_mapping : option Z;
  sh_calloc_fails : bool;
  sh_environ : list (list Z);
  (** sixteen bytes, if [getrandom] has them *)
  sh_getrandom : option (list Z);
  sh_pid : Z;
  sh_clock_tick : Z;
  sh_uid : Z;
  sh_euid : Z;
  sh_gid : Z;
  sh_egid : Z;
}.

(** [struct poly_request], as far as the stack needs it. *)
Record poly_request : Type := MkRequest {
  rq_path : list Z;
  rq_argv0 : list Z;
}.

(** ** Numbers from the environment *)

(** The digits of a base: their value and what follows. *)
Fixpoint number_digits (base : Z) (s : list Z) (value : Z) (seen : bool) : option (Z * list Z) :=
  match s with
  | [] => if seen then Some (value, []) else None
  | c :: s' =>
      let digit := polyexec_digit_value c in
      if (digit <? 0) || (digit >=? base) then (if seen then Some (value, s) else None)
      else number_digits base s' (value * base + digit) true
  end.

(** [strtoull] of the C library with base 0, when it consumes the whole string and
    the number fits. *)
Definition strtoull_all (s : list Z) : option Z :=
  let '(s1, _) := skip_spaces s 0 in
  let '(negative, s2, _) := read_sign s1 0 in
  let c0 := default 0 (s2 !! 0%nat) in
  let c1 := default 0 (s2 !! 1%nat) in
  let '(base, s3) :=
    if (c0 =? 48) && ((c1 =? 120) || (c1 =? 88)) then (16, drop 2 s2)
    else if c0 =? 48 then (8, s2) else (10, s2) in
  match number_digits base s3 0 false with
  | Some (value, []) =>
      if value >? UINT64_MAX then None else Some (if negative : bool then u64 (- value) else value)
  | _ => None
  end.

(** [None]: -1; otherwise the value, the given one if the variable is not set. *)
Definition parse_u64_env (getenv : list Z -> option (list Z)) (name : list Z) (value : Z) : option Z :=
  match getenv name with
  | None | Some [] => Some value
  | Some s => strtoull_all s
  end.

(** ** Strings *)

(** The cursor moves down over the string and its end; [None]: it does not fit. *)
Definition copy_stack_string (stack cursor : Z) (value : list Z) (m : memory) : option (memory * Z) :=
  let len := Z.of_nat (length value) + 1 in
  if cursor - stack <? len then None
  else Some (store_bytes m (cursor - len) (value ++ [NUL]), cursor - len).

(** Several, each below the one before: memory, cursor and their addresses. *)
Fixpoint copy_stack_strings (stack cursor : Z) (values : list (list Z)) (m : memory) : option (memory * Z * list Z) :=
  match values with
  | [] => Some (m, cursor, [])
  | value :: values' =>
      '(m, cursor) ← copy_stack_string stack cursor value m;
      '(m, cursor', ptrs) ← copy_stack_strings stack cursor values' m;
      Some (m, cursor', cursor :: ptrs)
  end.

(** [sp[out++] = word] for each word. *)
Fixpoint store_words (m : memory) (address : Z) (words : list Z) : memory :=
  match words with
  | [] => m
  | w :: words' => store_words (store_u64 m address w) (address + 8) words'
  end.

(** ** The table *)

Definition stack_platform_name (arch : Z) : list Z :=
  if arch =? POLY_ARCH_AARCH64 then bytes_of_string "aarch64"
  else if arch =? POLY_ARCH_RISCV then bytes_of_string "riscv64"
  else bytes_of_string "x86_64".

Definition POLY_AARCH64_HWCAP : Z :=
  Z.lor (Z.shiftl 1 0) (Z.lor (Z.shiftl 1 1) (Z.lor (Z.shiftl 1 8) (Z.shiftl 1 11))).

(** The bits of the letters A, C, D, F, I and M. *)
Definition POLY_RISCV_HWCAP : Z :=
  Z.lor (Z.shiftl 1 0) (Z.lor (Z.shiftl 1 2) (Z.lor (Z.shiftl 1 3) (Z.lor (Z.shiftl 1 5) (Z.lor (Z.shiftl 1 8) (Z.shiftl 1 12))))).

Definition stack_hwcap (getenv : list Z -> option (list Z)) (arch : Z) : option Z :=
  if arch =? POLY_ARCH_AARCH64 then parse_u64_env getenv (bytes_of_string "POLYEXEC_AARCH64_HWCAP") POLY_AARCH64_HWCAP
  else if arch =? POLY_ARCH_RISCV then Some POLY_RISCV_HWCAP
  else Some 0.

(** Without [getrandom]: bytes from the process identifier. *)
Definition fallback_random (pid : Z) : list Z :=
  (fun n => Z.lxor (Z.lxor 0xa5 (Z.of_nat n)) (wrap 8 pid)) <$> seq 0 16.

Definition stack_random (h : stack_host) : list Z :=
  match sh_getrandom h with Some bs => bs | None => fallback_random (sh_pid h) end.

(** Where the strings are. *)
Record stack_strings : Type := MkStrings {
  ss_platform : Z;
  ss_random : Z;
  ss_argv : list Z;
  ss_env : list Z;
  ss_execfn : Z;
}.

Definition stack_auxv (h : stack_host) (prog : loaded_program) (loaded_image at_base at_sysinfo_ehdr hwcap : Z)
    (ss : stack_strings) : list (Z * Z) :=
  let load_bias := u64 (loaded_image - base_vaddr (lp_header prog)) in
  [ (AT_PHDR, if negb (lp_phdr_vaddr prog =? 0) then u64 (load_bias + lp_phdr_vaddr prog) else 0);
    (AT_PHENT, lp_phent prog); (AT_PHNUM, lp_phnum prog); (AT_PAGESZ, 4096); (AT_BASE, at_base); (AT_FLAGS, 0);
    (AT_ENTRY, u64 (load_bias + base_vaddr (lp_header prog) + lp_entry_offset prog));
    (AT_CLKTCK, if sh_clock_tick h <=? 0 then 100 else sh_clock_tick h);
    (AT_HWCAP, hwcap); (AT_HWCAP2, 0); (AT_UID, sh_uid h); (AT_EUID, sh_euid h); (AT_GID, sh_gid h); (AT_EGID, sh_egid h);
    (AT_SECURE, 0); (AT_RANDOM, ss_random ss); (AT_EXECFN, ss_execfn ss); (AT_PLATFORM, ss_platform ss);
    (AT_SYSINFO_EHDR, at_sysinfo_ehdr); (AT_NULL, 0) ].

Definition stack_table (argc : nat) (ss : stack_strings) (auxv : list (Z * Z)) : list Z :=
  Z.of_nat argc :: ss_argv ss ++ [0] ++ ss_env ss ++ [0] ++ concat ((fun e => [e.1; e.2]) <$> auxv).

(** ** The stack *)

Definition guest_argv0 (request : poly_request) : list Z :=
  match rq_argv0 request with [] => rq_path request | argv0 => argv0 end.

(** All strings, from the top of the stack down. *)
Definition copy_all_strings (h : stack_host) (arch : Z) (request : poly_request) (extra_argv : list (list Z)) (stack : Z)
    (m : memory) : option (memory * Z * stack_strings) :=
  '(m, platform_ptr) ← copy_stack_string stack (stack + STACK_SIZE) (stack_platform_name arch) m;
  if platform_ptr - stack <? 16 then None
  else
    let random_ptr := platform_ptr - 16 in
    let m := store_bytes m random_ptr (stack_random h) in
    '(m, cursor, argv_ptrs) ← copy_stack_strings stack random_ptr (guest_argv0 request :: extra_argv) m;
    '(m, cursor, env_ptrs) ← copy_stack_strings stack cursor (sh_environ h) m;
    if bool_decide (guest_argv0 request = rq_path request)
    then Some (m, cursor, MkStrings platform_ptr random_ptr argv_ptrs env_ptrs (nth 0 argv_ptrs 0))
    else
      '(m, execfn_ptr) ← copy_stack_string stack cursor (rq_path request) m;
      Some (m, execfn_ptr, MkStrings platform_ptr random_ptr argv_ptrs env_ptrs execfn_ptr).

Inductive stack_result : Type :=
  | StackFails (given_back : list (Z * Z))
  | StackBuilt (m : memory) (stack sp : Z).

Definition build_process_stack (h : stack_host) (getenv : list Z -> option (list Z)) (prog : loaded_program)
    (request : poly_request) (loaded_image at_base at_sysinfo_ehdr : Z) (extra_argv : list (list Z)) (m : memory) : stack_result :=
  match sh_mapping h with
  | None => StackFails []
  | Some stack =>
      if sh_calloc_fails h then StackFails [(stack, STACK_SIZE)]
      else
        let m := store_bytes m stack (replicate (Z.to_nat STACK_SIZE) 0) in
        match copy_all_strings h (lp_arch prog) request extra_argv stack m with
        | None => StackFails [(stack, STACK_SIZE)]
        | Some (m, cursor, ss) =>
            match stack_hwcap getenv (lp_arch prog) with
            | None => StackFails [(stack, STACK_SIZE)]
            | Some hwcap =>
                let table := stack_table (S (length extra_argv)) ss
                               (stack_auxv h prog loaded_image at_base at_sysinfo_ehdr hwcap ss) in
                let sp := Z.land (u64 (cursor - 8 * Z.of_nat (length table))) (u64 (Z.lnot 15)) in
                if sp <? stack then StackFails [(stack, STACK_SIZE)] else StackBuilt (store_words m sp table) stack sp
            end
        end
  end.
