(* ===== verification/StackProps.v ===== *)
(** The initial stack of a process ([ProcessStack]) reads back: argument count, argument
    and environment strings, auxiliary vector. *)

From stdpp Require Import strings.
From S2P Require Import Prelude LoaderBase GuestMemory CString BridgeSpec ElfImage ElfLoad LibraryPath ProcessStack.

(** ** Memory outside a range *)

Definition same_outside (lo hi : Z) (m m' : memory) : Prop :=
  forall a, 0 <= a < 2 ^ 64 -> a < lo \/ hi <= a -> m' a = m a.

Lemma outside_trans (lo lo' hi : Z) (m1 m2 m3 : memory) : lo' <= lo -> lo <= hi ->
  same_outside lo hi m1 m2 -> same_outside lo' lo m2 m3 -> same_outside lo' hi m1 m3.
Proof. intros Hl Hh H1 H2 a Ha Hout. rewrite H2, H1 by lia. done. Qed.

Lemma outside_store (m : memory) (addr : Z) (bs : list Z) : 0 <= addr -> addr + Z.of_nat (length bs) <= 2 ^ 64 ->
  same_outside addr (addr + Z.of_nat (length bs)) m (store_bytes m addr bs).
Proof. intros H0 H1 a Ha Hout. by apply store_outside. Qed.

Lemma load_same (lo hi : Z) (m m' : memory) (a : Z) (n : nat) : same_outside lo hi m m' ->
  0 <= a -> a + Z.of_nat n <= 2 ^ 64 -> a + Z.of_nat n <= lo \/ hi <= a -> load m' a n = load m a n.
Proof.
  intros Hs H0 H1 Hout. unfold load. apply list_fmap_ext. intros i j [-> Hj]%lookup_seq.
  rewrite wrap_small by (unfold in_width; lia). apply Hs; lia.
Qed.

(** ** Words *)

Lemma store_words_outside (ws : list Z) : forall m addr, 0 <= addr -> addr + 8 * Z.of_nat (length ws) <= 2 ^ 64 ->
  same_outside addr (addr + 8 * Z.of_nat (length ws)) m (store_words m addr ws).
Proof.
  induction ws as [|w ws IH]; intros m addr H0 H1; cbn [store_words length] in *; [by intros a|].
  intros a Ha Hout. rewrite IH by lia. unfold store_u64. apply store_outside; rewrite ?le_bytes_length; lia.
Qed.

Lemma store_words_read (ws : list Z) : forall m addr k w, 0 <= addr -> addr + 8 * Z.of_nat (length ws) <= 2 ^ 64 ->
  ws !! k = Some w -> in_width 64 w -> load_u64 (store_words m addr ws) (addr + 8 * Z.of_nat k) = w.
Proof.
  induction ws as [|w ws IH]; intros m addr k w' H0 H1 Hk Hw; [done|]. cbn [store_words length] in *. destruct k as [|k].
  - injection Hk as <-. unfold load_u64. rewrite Z.add_0_r.
    erewrite load_same; [|apply store_words_outside; lia|lia|lia|lia]. unfold store_u64.
    rewrite <- (le_bytes_length 8 w) at 2. rewrite load_store by (rewrite ?le_bytes_length; lia). rewrite le_value_bytes.
    by apply wrap_small.
  - rewrite <- (IH (store_u64 m addr w) (addr + 8) k w') by (done || lia). f_equal. lia.
Qed.

(** ** Strings *)

Definition string_at (m : memory) (a : Z) (s : list Z) : Prop := load m a (S (length s)) = s ++ [NUL].

Lemma string_at_same (lo hi : Z) (m m' : memory) (a : Z) (s : list Z) : same_outside lo hi m m' -> 0 <= a ->
  a + Z.of_nat (length s) + 1 <= 2 ^ 64 -> a + Z.of_nat (length s) + 1 <= lo \/ hi <= a -> string_at m a s -> string_at m' a s.
Proof. intros Hs H0 H1 Hout H. unfold string_at in *. rewrite <- H. eapply load_same; [done|lia..]. Qed.

(** The bytes that strings take. *)
Fixpoint string_bytes (values : list (list Z)) : Z :=
  match values with [] => 0 | s :: values' => Z.of_nat (length s) + 1 + string_bytes values' end.

Lemma string_bytes_count (values : list (list Z)) : Z.of_nat (length values) <= string_bytes values.
Proof. induction values as [|s values IH]; cbn [string_bytes length]; lia. Qed.

(** A string that lies between two addresses. *)
Definition string_in (m : memory) (lo hi a : Z) (s : list Z) : Prop :=
  lo <= a /\ a + Z.of_nat (length s) + 1 <= hi /\ string_at m a s.

Lemma string_in_kept (lo lo' hi : Z) (m m' : memory) (a : Z) (s : list Z) : 0 <= lo' <= lo -> hi <= 2 ^ 64 ->
  same_outside lo' lo m m' -> string_in m lo hi a s -> string_in m' lo' hi a s.
Proof. intros Hl Hh Hs (H1 & H2 & H3). split_and!; [lia|lia|]. eapply string_at_same; [done|lia..|done]. Qed.

Lemma copy_string_spec (stack cursor : Z) (s : list Z) (m : memory) : 0 <= stack -> cursor <= 2 ^ 64 ->
  Z.of_nat (length s) + 1 <= cursor - stack ->
  exists m', copy_stack_string stack cursor s m = Some (m', cursor - (Z.of_nat (length s) + 1)) /\
    same_outside (cursor - (Z.of_nat (length s) + 1)) cursor m m' /\
    string_in m' (cursor - (Z.of_nat (length s) + 1)) cursor (cursor - (Z.of_nat (length s) + 1)) s.
Proof.
  intros H0 H1 Hfit. unfold copy_stack_string. rewrite (proj2 (Z.ltb_ge _ _)) by lia. eexists. split; [done|].
  assert (length (s ++ [NUL]) = S (length s)) as Hlen by (rewrite length_app; cbn; lia). split.
  - intros a Ha Hout. apply store_outside; rewrite ?Hlen; lia.
  - split_and!; [lia|lia|]. unfold string_at. rewrite <- Hlen. apply load_store; rewrite ?Hlen; lia.
Qed.

Lemma copy_strings_spec (stack : Z) (values : list (list Z)) : forall cursor m, 0 <= stack -> cursor <= 2 ^ 64 ->
  string_bytes values <= cursor - stack ->
  exists m' ptrs, copy_stack_strings stack cursor values m = Some (m', cursor - string_bytes values, ptrs) /\
    same_outside (cursor - string_bytes values) cursor m m' /\
    Forall2 (string_in m' (cursor - string_bytes values) cursor) ptrs values.
Proof.
  induction values as [|s values IH]; intros cursor m H0 H1 Hfit; cbn [copy_stack_strings string_bytes] in *.
  { exists m, []. rewrite Z.sub_0_r. split_and!; [done|by intros a|constructor]. }
  pose proof (string_bytes_count values) as Hc.
  destruct (copy_string_spec stack cursor s m) as (m1 & E1 & O1 & S1); [lia..|]. rewrite E1. cbn.
  destruct (IH (cursor - (Z.of_nat (length s) + 1)) m1) as (m2 & ptrs & E2 & O2 & S2); [lia..|]. rewrite E2. cbn.
  pose proof (Z.sub_add_distr cursor (Z.of_nat (length s) + 1) (string_bytes values)) as Hd. rewrite <- Hd in *.
  eexists m2, _. split_and!; [done| |].
  - eapply outside_trans; [|..|done|done]; lia.
  - constructor; [eapply string_in_kept; [..|done|done]; lia|]. eapply Forall2_impl; [done|].
    intros a s' (Ha1 & Ha2 & Ha3). split_and!; [lia|lia|done].
Qed.

(** ** What start-up code reads *)

Record initial_stack (m : memory) (sp : Z) (args env : list (list Z)) (auxv : list (Z * Z)) : Prop := {
  is_argc : load_u64 m sp = Z.of_nat (length args);
  is_args : forall i s, args !! i = Some s -> string_at m (load_u64 m (sp + 8 * Z.of_nat (1 + i))) s;
  is_args_end : load_u64 m (sp + 8 * Z.of_nat (1 + length args)) = 0;
  is_env : forall i s, env !! i = Some s -> string_at m (load_u64 m (sp + 8 * Z.of_nat (2 + length args + i))) s;
  is_env_end : load_u64 m (sp + 8 * Z.of_nat (2 + length args + length env)) = 0;
  is_auxv : forall k t v, auxv !! k = Some (t, v) ->
    load_u64 m (sp + 8 * Z.of_nat (3 + length args + length env + 2 * k)) = t /\
    load_u64 m (sp + 8 * Z.of_nat (4 + length args + length env + 2 * k)) = v;
}.

Lemma pairs_length (l : list (Z * Z)) : length (concat ((fun e => [e.1; e.2]) <$> l)) = (2 * length l)%nat.
Proof. induction l as [|e l IH]; [done|]. cbn. rewrite IH. lia. Qed.

Lemma pairs_lookup (l : list (Z * Z)) : forall k t v, l !! k = Some (t, v) ->
  concat ((fun e => [e.1; e.2]) <$> l) !! (2 * k)%nat = Some t /\ concat ((fun e => [e.1; e.2]) <$> l) !! S (2 * k) = Some v.
Proof.
  induction l as [|e l IH]; intros k t v Hk; [done|]. destruct k as [|k]; [injection Hk as ->; done|].
  destruct (IH k t v Hk) as [H1 H2]. cbn [fmap list_fmap concat app]. by replace (2 * S k)%nat with (S (S (2 * k))) by lia.
Qed.

Lemma look_S (x : Z) (l : list Z) (k : nat) : (x :: l) !! S k = l !! k.
Proof. done. Qed.

(** A table below the strings reads back. *)
Lemma table_reads (m : memory) (sp lo : Z) (args env : list (list Z)) (ss : stack_strings) (auxv : list (Z * Z)) :
  let table := stack_table (length args) ss auxv in
  0 <= sp -> sp + 8 * Z.of_nat (length table) <= lo -> lo <= 2 ^ 64 -> Z.of_nat (length args) < 2 ^ 64 ->
  Forall2 (string_in m lo (2 ^ 64)) (ss_argv ss) args -> Forall2 (string_in m lo (2 ^ 64)) (ss_env ss) env ->
  Forall (fun e => in_width 64 e.1 /\ in_width 64 e.2) auxv ->
  initial_stack (store_words m sp table) sp args env auxv.
Proof.
  intros table H0 Hlo Hhi Hargs Ha He Haux.
  assert (forall k w, table !! k = Some w -> in_width 64 w -> load_u64 (store_words m sp table) (sp + 8 * Z.of_nat k) = w) as Hread
    by (intros k w Hk Hw; apply store_words_read; [lia|lia|done|done]).
  pose proof (Forall2_length _ _ _ Ha) as La. pose proof (Forall2_length _ _ _ He) as Le.
  assert (forall a s, string_in m lo (2 ^ 64) a s -> in_width 64 a /\ string_at (store_words m sp table) a s) as Hstr.
  { intros a s (S1 & S2 & S3). split; [unfold in_width; lia|].
    eapply string_at_same; [apply store_words_outside; lia|lia..|done]. }
  assert (table = Z.of_nat (length args) :: ss_argv ss ++ 0 :: ss_env ss ++ 0 :: concat ((fun e => [e.1; e.2]) <$> auxv)) as Ht by done.
  assert (in_width 64 0) as Hz by (unfold in_width; lia).
  split.
  - rewrite <- (Hread 0%nat (Z.of_nat (length args))) at 1; [f_equal; lia|done|unfold in_width; lia].
  - intros i s Hi. destruct (Forall2_lookup_r _ _ _ _ _ Ha Hi) as (a & Hia & Hs). destruct (Hstr _ _ Hs) as [Hw Hsa].
    rewrite (Hread _ a); [done| |done]. rewrite Ht. cbn [plus]. rewrite look_S. by apply lookup_app_l_Some.
  - apply Hread; [|done]. rewrite Ht. cbn [plus]. rewrite look_S. rewrite lookup_app_r by lia. by rewrite La, Nat.sub_diag.
  - intros i s Hi. destruct (Forall2_lookup_r _ _ _ _ _ He Hi) as (a & Hia & Hs). destruct (Hstr _ _ Hs) as [Hw Hsa].
    rewrite (Hread _ a); [done| |done]. rewrite Ht. cbn [plus]. rewrite look_S. rewrite lookup_app_r by lia.
    replace (S (length args + i) - length (ss_argv ss))%nat with (S i) by lia. rewrite look_S. by apply lookup_app_l_Some.
  - apply Hread; [|done]. rewrite Ht. cbn [plus]. rewrite look_S. rewrite lookup_app_r by lia.
    replace (S (length args + length env) - length (ss_argv ss))%nat with (S (length env)) by lia. rewrite look_S.
    rewrite lookup_app_r by lia. by rewrite Le, Nat.sub_diag.
  - intros k t v Hk. pose proof (Forall_lookup_1 _ _ _ _ Haux Hk) as [W1 W2]. destruct (pairs_lookup _ _ _ _ Hk) as [P1 P2].
    assert (forall j w, concat ((fun e => [e.1; e.2]) <$> auxv) !! j = Some w ->
      table !! (3 + length args + length env + j)%nat = Some w) as Haj.
    { intros j w Hj. rewrite Ht. cbn [plus]. rewrite look_S. rewrite lookup_app_r by lia.
      replace (S (S (length args + length env + j)) - length (ss_argv ss))%nat with (S (length env + S j)) by lia.
      rewrite look_S. rewrite lookup_app_r by lia. by replace (length env + S j - length (ss_env ss))%nat with (S j) by lia. }
    split; apply Hread; try done; [by apply Haj|].
    replace (4 + length args + length env + 2 * k)%nat with (3 + length args + length env + S (2 * k))%nat by lia. by apply Haj.
Qed.

(** ** All strings *)

Section Strings.
Context (h : stack_host) (arch : Z) (request : poly_request) (extra_argv : list (list Z)) (stack : Z).

Definition args : list (list Z) := guest_argv0 request :: extra_argv.

Definition execfn_bytes : Z :=
  if bool_decide (guest_argv0 request = rq_path request) then 0 else Z.of_nat (length (rq_path request)) + 1.

Definition strings_need : Z :=
  string_bytes [stack_platform_name arch] + 16 + string_bytes args + string_bytes (sh_environ h) + execfn_bytes.

(** The strings are there, above [lo]. *)
Record strings_placed (m : memory) (lo : Z) (ss : stack_strings) : Prop := {
  sp_platform : string_in m lo (2 ^ 64) (ss_platform ss) (stack_platform_name arch);
  sp_random : lo <= ss_random ss /\ ss_random ss + 16 <= 2 ^ 64 /\ load m (ss_random ss) 16 = stack_random h;
  sp_args : Forall2 (string_in m lo (2 ^ 64)) (ss_argv ss) args;
  sp_env : Forall2 (string_in m lo (2 ^ 64)) (ss_env ss) (sh_environ h);
}.

Lemma string_in_wider (m : memory) (lo hi lo' hi' a : Z) (s : list Z) : lo' <= lo -> hi <= hi' ->
  string_in m lo hi a s -> string_in m lo' hi' a s.
Proof using. intros Hl Hh (H1 & H2 & H3). split_and!; [lia|lia|done]. Qed.

Lemma strings_in_kept (lo lo' : Z) (m m' : memory) (ptrs : list Z) (values : list (list Z)) : 0 <= lo' <= lo ->
  same_outside lo' lo m m' -> Forall2 (string_in m lo (2 ^ 64)) ptrs values -> Forall2 (string_in m' lo' (2 ^ 64)) ptrs values.
Proof using. intros Hl Hs H. eapply Forall2_impl; [done|]. intros a s. by apply string_in_kept. Qed.

Lemma strings_placed_kept (lo lo' : Z) (m m' : memory) (ss : stack_strings) : 0 <= lo' <= lo -> lo <= 2 ^ 64 ->
  same_outside lo' lo m m' -> strings_placed m lo ss -> strings_placed m' lo' ss.
Proof using.
  intros Hl Hh Hs [P1 (R1 & R2 & R3) P3 P4]. split.
  - by eapply string_in_kept.
  - split_and!; [lia|lia|]. rewrite <- R3. eapply load_same; [done|lia..].
  - by eapply strings_in_kept.
  - by eapply strings_in_kept.
Qed.

  Context (Hstack : 0 <= stack) (Htop : stack + STACK_SIZE <= 2 ^ 64) (Hrandom : length (stack_random h) = 16%nat).

Lemma copy_all_spec (m : memory) : strings_need <= STACK_SIZE ->
  exists m' ss, copy_all_strings h arch request extra_argv stack m = Some (m', stack + STACK_SIZE - strings_need, ss) /\
    same_outside (stack + STACK_SIZE - strings_need) (stack + STACK_SIZE) m m' /\
    strings_placed m' (stack + STACK_SIZE - strings_need) ss /\
    string_in m' (stack + STACK_SIZE - strings_need) (2 ^ 64) (ss_execfn ss) (rq_path request).
Proof using Hstack Htop Hrandom.
  unfold strings_need. cbn [string_bytes]. rewrite Z.add_0_r. intros Hfit. unfold copy_all_strings.
  set (top := stack + STACK_SIZE) in *. set (plat := stack_platform_name arch) in *. set (np := Z.of_nat (length plat) + 1) in *.
  pose proof (string_bytes_count args) as Ca. pose proof (string_bytes_count (sh_environ h)) as Ce.
  assert (0 <= execfn_bytes) by (unfold execfn_bytes; case_bool_decide; lia). assert (1 <= np) by lia.
  destruct (copy_string_spec stack top plat m) as (m1 & E1 & O1 & S1); [lia..|]. rewrite E1. cbn [mbind option_bind]. fold np in O1, S1 |- *.
  rewrite (proj2 (Z.ltb_ge _ _)) by lia. set (r := top - np - 16) in *. fold args.
  set (m2 := store_bytes m1 r (stack_random h)).
  assert (same_outside r (top - np) m1 m2) as O2.
  { unfold m2. replace (top - np) with (r + Z.of_nat (length (stack_random h))) by lia. apply outside_store; lia. }
  assert (load m2 r 16 = stack_random h) as R2 by (unfold m2; rewrite <- Hrandom; apply load_store; lia).
  destruct (copy_strings_spec stack args r m2) as (m3 & argv & E3 & O3 & S3); [lia..|]. rewrite E3. cbn [mbind option_bind].
  destruct (copy_strings_spec stack (sh_environ h) (r - string_bytes args) m3) as (m4 & env & E4 & O4 & S4); [lia..|].
  rewrite E4. cbn [mbind option_bind]. set (c4 := r - string_bytes args - string_bytes (sh_environ h)) in *.
  assert (same_outside c4 r m2 m4) as O24 by (eapply outside_trans; [..|exact O3|exact O4]; lia).
  assert (same_outside c4 (top - np) m1 m4) as O14 by (eapply outside_trans; [..|exact O2|exact O24]; lia).
  assert (same_outside c4 top m m4) as O04 by (eapply outside_trans; [..|exact O1|exact O14]; lia).
  assert (forall a, strings_placed m4 c4 (MkStrings (top - np) r argv env a)) as Hplaced.
  { intros a. split; cbn [ss_platform ss_random ss_argv ss_env ss_execfn].
    - eapply string_in_kept; [..|exact O14|eapply string_in_wider; [..|exact S1]]; lia.
    - split_and!; [lia|lia|]. rewrite <- R2. eapply load_same; [exact O24|lia..].
    - eapply strings_in_kept; [|exact O4|]; [lia|]. eapply Forall2_impl; [exact S3|]. intros b s. apply string_in_wider; lia.
    - eapply Forall2_impl; [exact S4|]. intros b s. apply string_in_wider; lia. }
  unfold execfn_bytes in *. case_bool_decide as Heq.
  - exists m4. eexists. replace (top - (np + 16 + string_bytes args + string_bytes (sh_environ h) + 0)) with c4 by lia.
    split_and!; [done|done|apply Hplaced|]. rewrite <- Heq. assert (Forall2 (string_in m4 c4 (2 ^ 64)) argv args) as Sargv.
    { eapply strings_in_kept; [|exact O4|]; [lia|]. eapply Forall2_impl; [exact S3|]. intros b s. apply string_in_wider; lia. }
    unfold args in Sargv. by inversion Sargv.
  - destruct (copy_string_spec stack c4 (rq_path request) m4) as (m5 & E5 & O5 & S5); [lia..|]. rewrite E5. cbn [mbind option_bind].
    set (c5 := c4 - _) in *. exists m5. eexists.
    replace (top - (np + 16 + string_bytes args + string_bytes (sh_environ h) + (Z.of_nat (length (rq_path request)) + 1))) with c5 by lia.
    split_and!; [done|eapply outside_trans; [..|exact O04|exact O5]; lia| |].
    + eapply strings_placed_kept; [..|exact O5|apply Hplaced]; lia.
    + eapply string_in_wider; [..|exact S5]; lia.
Qed.
End Strings.

(** ** The stack *)

(** What the stack must hold at most: strings, table and alignment. *)
Definition stack_need (h : stack_host) (prog : loaded_program) (request : poly_request) (extra_argv : list (list Z)) : Z :=
  strings_need h (lp_arch prog) request extra_argv +
  8 * (44 + Z.of_nat (length extra_argv) + Z.of_nat (length (sh_environ h))) + 15.

(** The numbers that go into the auxiliary vector are 64 bits wide. *)
Definition auxv_values_fit (h : stack_host) (prog : loaded_program) (at_base at_sysinfo_ehdr hwcap : Z) : Prop :=
  Forall (in_width 64) [lp_phent prog; lp_phnum prog; at_base; at_sysinfo_ehdr; hwcap; sh_uid h; sh_euid h; sh_gid h; sh_egid h] /\
  sh_clock_tick h < 2 ^ 64.

Lemma auxv_fits (h : stack_host) (prog : loaded_program) (loaded_image at_base at_sysinfo_ehdr hwcap : Z) (ss : stack_strings) :
  auxv_values_fit h prog at_base at_sysinfo_ehdr hwcap ->
  in_width 64 (ss_platform ss) -> in_width 64 (ss_random ss) -> in_width 64 (ss_execfn ss) ->
  Forall (fun e => in_width 64 e.1 /\ in_width 64 e.2) (stack_auxv h prog loaded_image at_base at_sysinfo_ehdr hwcap ss).
Proof.
  intros [Hv Hc] Hp Hr He. rewrite !Forall_cons in Hv. destruct Hv as (V1 & V2 & V3 & V4 & V5 & V6 & V7 & V8 & V9 & _).
  assert (in_width 64 (if sh_clock_tick h <=? 0 then 100 else sh_clock_tick h))
    by (destruct (Z.leb_spec (sh_clock_tick h) 0); unfold in_width; lia).
  assert (forall b z, in_width 64 (if b : bool then u64 z else 0)) by (intros [] z; [apply wrap_range; lia|unfold in_width; lia]).
  assert (forall z, in_width 64 (u64 z)) by (intros z; apply wrap_range; lia).
  unfold stack_auxv. cbn zeta. repeat (apply Forall_cons; split; [split; cbn [fst snd]; [done|]|]); auto; done.
Qed.

Lemma stack_auxv_length (h : stack_host) (prog : loaded_program) (loaded_image at_base at_sysinfo_ehdr hwcap : Z)
    (ss : stack_strings) : length (stack_auxv h prog loaded_image at_base at_sysinfo_ehdr hwcap ss) = 20%nat.
Proof. done. Qed.

Lemma stack_table_length (argc : nat) (ss : stack_strings) (auxv : list (Z * Z)) :
  length (stack_table argc ss auxv) = (3 + length (ss_argv ss) + length (ss_env ss) + 2 * length auxv)%nat.
Proof. unfold stack_table. rewrite <- (pairs_length auxv). cbn [length app]. repeat (rewrite length_app; cbn [length app]). lia. Qed.

(** The stack pointer is the next multiple of 16 below. *)
Lemma align_16 (x : Z) : in_width 64 x ->
  let y := Z.land x (u64 (Z.lnot 15)) in x - 15 <= y <= x /\ y mod 16 = 0.
Proof.
  intros Hx. cbn zeta. pose proof (land_mask_u64 x 4 ltac:(lia) Hx) as E. change (2 ^ 4 - 1) with 15 in E.
  change (2 ^ 4) with 16 in E. rewrite E. pose proof (Z.div_mod x 16 ltac:(lia)). pose proof (Z.mod_pos_bound x 16 ltac:(lia)).
  split; [lia|]. apply Z.mod_mul. lia.
Qed.

(** C13: When everything fits, the initial stack of a process is built and start-up code
    reads from it what the process was given: at the stack pointer, aligned and inside
    the mapping, the number of arguments, then pointers to the argument strings and a
    null, pointers to the environment strings and a null, and the auxiliary vector;
    AT_EXECFN points to the path, AT_PLATFORM to the name of the architecture and
    AT_RANDOM to sixteen random bytes.  No memory outside the mapping changes. *)
Theorem process_stack_reads_back (h : stack_host) (getenv : list Z -> option (list Z)) (prog : loaded_program)
    (request : poly_request) (loaded_image at_base at_sysinfo_ehdr stack hwcap : Z) (extra_argv : list (list Z)) (m : memory) :
  sh_mapping h = Some stack -> sh_calloc_fails h = false -> 0 <= stack -> stack + STACK_SIZE <= 2 ^ 64 ->
  length (stack_random h) = 16%nat -> stack_hwcap getenv (lp_arch prog) = Some hwcap ->
  auxv_values_fit h prog at_base at_sysinfo_ehdr hwcap -> stack_need h prog request extra_argv <= STACK_SIZE ->
  exists m' sp ss,
    build_process_stack h getenv prog request loaded_image at_base at_sysinfo_ehdr extra_argv m = StackBuilt m' stack sp /\
    sp mod 16 = 0 /\ stack <= sp < stack + STACK_SIZE /\
    initial_stack m' sp (args request extra_argv) (sh_environ h)
      (stack_auxv h prog loaded_image at_base at_sysinfo_ehdr hwcap ss) /\
    string_at m' (ss_execfn ss) (rq_path request) /\ string_at m' (ss_platform ss) (stack_platform_name (lp_arch prog)) /\
    load m' (ss_random ss) 16 = stack_random h /\
    same_outside stack (stack + STACK_SIZE) m m'.
Proof.
  intros Hmap Hcalloc H0 Htop Hrandom Hhw Hfit Hneed. unfold stack_need in Hneed. unfold build_process_stack. rewrite Hmap, Hcalloc.
  set (m0 := store_bytes m stack _). assert (same_outside stack (stack + STACK_SIZE) m m0) as O0.
  { intros a Ha Hout. apply store_outside; rewrite ?length_replicate; unfold STACK_SIZE in *; lia. }
  destruct (copy_all_spec h (lp_arch prog) request extra_argv stack H0 Htop Hrandom m0) as (m1 & ss & E1 & O1 & [P1 (R1 & R2 & R3) P3 P4] & P5); [lia|].
  rewrite E1, Hhw. set (lo := stack + STACK_SIZE - _) in *. set (auxv := stack_auxv _ _ _ _ _ _ _).
  pose proof (Forall2_length _ _ _ P3) as L3. pose proof (Forall2_length _ _ _ P4) as L4. cbn [length args] in L3.
  set (table := stack_table _ ss auxv). assert (Z.of_nat (length table) = 44 + Z.of_nat (length extra_argv) + Z.of_nat (length (sh_environ h))) as Lt.
  { unfold table, auxv. rewrite stack_table_length, stack_auxv_length, L3, L4. lia. }
  rewrite (wrap_small 64) by (unfold in_width; lia).
  destruct (align_16 (lo - 8 * Z.of_nat (length table)) ltac:(unfold in_width; lia)) as [Hsp Hal]. set (sp := Z.land _ _) in *.
  rewrite (proj2 (Z.ltb_ge _ _)) by lia. exists (store_words m1 sp table), sp, ss.
  assert (same_outside sp (sp + 8 * Z.of_nat (length table)) m1 (store_words m1 sp table)) as O2 by (apply store_words_outside; lia).
  assert (forall a s, string_in m1 lo (2 ^ 64) a s -> in_width 64 a /\ string_at (store_words m1 sp table) a s) as Hstr.
  { intros a s (S1 & S2 & S3). split; [unfold in_width; lia|]. eapply string_at_same; [exact O2|lia..|done]. }
  destruct (Hstr _ _ P1) as [W1 S1], (Hstr _ _ P5) as [W5 S5].
  assert (0 <= strings_need h (lp_arch prog) request extra_argv <= STACK_SIZE) by
    (split; [unfold strings_need, execfn_bytes; pose proof (string_bytes_count (args request extra_argv));
             pose proof (string_bytes_count (sh_environ h)); pose proof (string_bytes_count [stack_platform_name (lp_arch prog)]);
             case_bool_decide|]; lia).
  split_and!; try done; [lia|lia| | |].
  - pose proof (table_reads m1 sp lo (args request extra_argv) (sh_environ h) ss auxv) as HT. cbn zeta in HT.
    change (stack_table (length (args request extra_argv)) ss auxv) with table in HT. apply HT; try done; [lia|lia|lia| |].
    + cbn [length args]. unfold STACK_SIZE in *. lia.
    + apply auxv_fits; [done|done|unfold in_width; lia|done].
  - rewrite <- R3. eapply load_same; [exact O2|lia..].
  - intros a Ha Hout. rewrite O2, O1, O0 by lia. done.
Qed.
