(* ===== verification/ElfDeps.v ===== *)
(** Symbols across the dependencies of a process ([tools/runtime/polyexec.c]):
    the depth-limited walk over loaded dependencies, the scope of the root
    program, indirect functions, and the resolution of the symbol of a
    relocation.

    Programs are records in a store, found by pointer ([ptr]); dependencies may
    form cycles.  Loaded images are byte strings found by the address they are
    mapped at.  A search changes state when it emits a call stub or runs the
    resolver of an indirect function; running guest code is a parameter
    ([call_guest]), and so is the result of [mmap].

    A name that is looked up is read from its string table once, before the
    search. *)

From stdpp Require Import gmap.
From S2P Require Import Prelude LoaderBase AbiDescriptor BridgeSpec ElfImage ElfSymbols CodeEmit Trampoline CrossStub.

Definition MAX_PROCESS_DEP_DEPTH : nat := 4.
Definition STT_FUNC : Z := 2.

(** ** State *)

Definition ptr : Type := positive.

(** [struct poly_process_dependency] *)
Record process_dependency : Type := MkDep {
  dep_program : option ptr;
  dep_loaded_image : option Z;
}.

(** [struct poly_program] with what the searches use besides the image header. *)
Record process_program : Type := MkProgram {
  header : poly_program;
  arch : Z;
  bridge_specs : list poly_process_bridge_spec;
  deps : list process_dependency;
  scope_root_program : option ptr;
  scope_root_loaded_image : option Z;
}.

(** What the loader changes: the loaded images and the call stubs. *)
Record process_state : Type := MkProcess {
  images : gmap Z image;
  stubs : stub_state;
}.

(** ** Effects *)

(** State passes through errors: after a failed attempt the code goes on. *)
Definition proc (A : Type) : Type := process_state -> process_state * outcome A.

#[export] Instance proc_ret : MRet proc := fun A a st => (st, Ok a).
#[export] Instance proc_bind : MBind proc := fun A B f m st =>
  match m st with
  | (st', Ok a) => f a st'
  | (st', Err) => (st', Err)
  | (st', Fault) => (st', Fault)
  | (st', Spin) => (st', Spin)
  end.

Definition lift {A} (m : outcome A) : proc A := fun st => (st, m).
Definition fail {A} : proc A := lift Err.

(** The result of a call whose -1 is tested: [None]. *)
Definition attempt {A} (m : proc A) : proc (option A) := fun st =>
  match m st with
  | (st', Ok a) => (st', Ok (Some a))
  | (st', Err) => (st', Ok None)
  | (st', Fault) => (st', Fault)
  | (st', Spin) => (st', Spin)
  end.

(** [if (m == 0) return 0;] followed by [m']. *)
Definition or_else {A} (m m' : proc A) : proc A := r ← attempt m; match r with Some a => mret a | None => m' end.

Definition get_image (addr : Z) : proc image := fun st =>
  (st, match images st !! addr with Some img => Ok img | None => Fault end).

(** A C string in an image; it must end inside. *)
Fixpoint c_string (bs : list Z) : outcome (list Z) :=
  match bs with
  | [] => Fault
  | b :: bs' => if b =? NUL then Ok [] else s ← c_string bs'; Ok (b :: s)
  end.

Definition c_string_at (img : image) (off : Z) : outcome (list Z) :=
  if off <? 0 then Fault else c_string (drop (Z.to_nat off) img).

(** What the loader passes down: the trampoline it may reuse and where guest
    code returns to. *)
Record run_env : Type := MkRunEnv {
  trampoline_code : Z;
  prefix_size : Z;
  return_pc : Z;
  stub_host : stub_env;
  (** where the page for a resolver trampoline is mapped, if [mmap] succeeds *)
  resolver_mapping : option Z;
}.

Section Deps.
  (** The programs of the process. *)
  Context (programs : ptr -> option process_program).
  (** Guest code of an architecture runs from an address and returns a value;
      it may change what is in memory. *)
  Context (call_guest : gmap Z image -> Z -> Z -> gmap Z image * Z).
  Context (env : run_env).

Definition get_program (p : ptr) : proc process_program :=
  lift (match programs p with Some prog => Ok prog | None => Fault end).

Definition call_resolver (prog_arch pc : Z) : proc Z := fun st =>
  let '(imgs, v) := call_guest (images st) prog_arch pc in (MkProcess imgs (stubs st), Ok v).

Definition run_irelative_resolver (prog : process_program) (loaded_image resolver_vaddr : Z) : proc Z :=
  _ ← lift (elf_vaddr_to_image_offset (header prog) resolver_vaddr 4);
  let load_bias := u64 (loaded_image - base_vaddr (header prog)) in
  let resolver_pc := u64 (load_bias + resolver_vaddr) in
  if arch prog =? POLY_ARCH_X86 then call_resolver (arch prog) resolver_pc
  else
    let expected_prefix_size := resolver_expected_prefix_size (arch prog) in
    if negb (expected_prefix_size =? 0) && (prefix_size env =? expected_prefix_size) then
      if snd (emit_poly_trampoline (arch prog) (trampoline_code env) (prefix_size env) (return_pc env) resolver_pc false) <? 0
      then fail
      else call_resolver (arch prog) resolver_pc
    else
      match resolver_mapping env with
      | None => fail
      | Some code =>
          if snd (emit_poly_resolver_trampoline (arch prog) code 4096 resolver_pc) <? 0 then fail
          else call_resolver (arch prog) resolver_pc
      end.

(** ** The walk over the dependencies *)

(** [visit] looks at one dependency: found, not found ([None]), or a failure
    that ends the loop it happens in.  A failure further down only ends the
    loop down there: the recursive call's -1 is read as not found. *)
Section Walk.
  Context {A : Type} (visit : ptr -> Z -> proc (option A)).

Fixpoint at_depth (left : nat) (p : ptr) : proc A :=
  match left with
  | O => fail
  | S left' =>
      prog ← get_program p;
      (fix loop (l : list process_dependency) : proc A :=
         match l with
         | [] => fail
         | dep :: l' =>
             match dep_program dep, dep_loaded_image dep with
             | Some q, Some img =>
                 found ← visit q img;
                 match found with
                 | Some a => mret a
                 | None => or_else (at_depth left' q) (loop l')
                 end
             | _, _ => loop l'
             end
         end) (deps prog)
  end.

End Walk.

Definition emit_stub (caller_arch callee_arch target bridge_kind : Z) : proc Z := fun st =>
  let signature_slot := process_signature_slot_for_bridge_kind (slots (stubs st)) bridge_kind in
  let '(s, stub) := emit_process_cross_isa_call_stub (stub_host env) (stubs st) caller_arch callee_arch target
                      bridge_kind signature_slot in
  (MkProcess (images st) s, match stub with Some pc => Ok pc | None => Err end).

(** The address to use for a found function: resolved when indirect, and
    through a call stub when the caller has another architecture. *)
Definition bind_symbol (prog : process_program) (loaded_image caller_arch : Z) (name : list Z)
    (r : resolved) : proc (Z * Z) :=
  value ← (if rs_type r =? STT_GNU_IFUNC then run_irelative_resolver prog loaded_image (rs_ifunc_resolver r)
           else mret (rs_value r));
  let bridge_kind := process_bridge_kind_for_symbol (bridge_specs prog) (Some name) in
  if negb (caller_arch =? arch prog) &&
     ((rs_type r =? STT_FUNC) || (rs_type r =? STT_NOTYPE) || (rs_type r =? STT_GNU_IFUNC)) then
    pc ← emit_stub caller_arch (arch prog) value bridge_kind; mret (pc, rs_type r)
  else mret (value, rs_type r).

(** Value and type of a function or other symbol in one dependency. *)
Definition visit_symbol (caller_arch : Z) (name : list Z) (version : option (list Z)) (q : ptr) (loaded_image : Z)
    : proc (option (Z * Z)) :=
  prog ← get_program q;
  img ← get_image loaded_image;
  r ← attempt (lift (resolve_loaded_program_symbol_ex (header prog) img loaded_image true name version));
  match r with
  | None => mret None
  | Some r => v ← bind_symbol prog loaded_image caller_arch name r; mret (Some v)
  end.

Definition visit_tls (name : list Z) (version : option (list Z)) (q : ptr) (loaded_image : Z) : proc (option Z) :=
  prog ← get_program q;
  img ← get_image loaded_image;
  attempt (lift (resolve_loaded_program_tls_symbol_ex (header prog) img name version)).

(** The dependency (program and image) with the address and size of the object. *)
Definition visit_object (name : list Z) (version : option (list Z)) (q : ptr) (loaded_image : Z)
    : proc (option (ptr * Z * (Z * Z))) :=
  prog ← get_program q;
  img ← get_image loaded_image;
  r ← attempt (lift (resolve_loaded_program_object_symbol_ex (header prog) img name version));
  mret (pair (q, loaded_image) <$> r).

Definition resolve_loaded_dependency_symbol_at_depth (p : ptr) (caller_arch : Z) (name : list Z)
    (version : option (list Z)) : proc (Z * Z) :=
  at_depth (visit_symbol caller_arch name version) MAX_PROCESS_DEP_DEPTH p.

Definition resolve_loaded_dependency_symbol (p : ptr) (name : list Z) (version : option (list Z)) : proc (Z * Z) :=
  prog ← get_program p; resolve_loaded_dependency_symbol_at_depth p (arch prog) name version.

Definition resolve_loaded_dependency_tls_symbol (p : ptr) (name : list Z) (version : option (list Z)) : proc Z :=
  at_depth (visit_tls name version) MAX_PROCESS_DEP_DEPTH p.

Definition resolve_loaded_dependency_object_symbol (p : ptr) (name : list Z) (version : option (list Z))
    : proc (ptr * Z * (Z * Z)) :=
  at_depth (visit_object name version) MAX_PROCESS_DEP_DEPTH p.

(** ** The scope of the root program *)

(** [scope_root_program], when it is set and not the program itself. *)
Definition other_root (p : ptr) (prog : process_program) : option ptr :=
  match scope_root_program prog with
  | Some root => if bool_decide (p = root) then None else Some root
  | None => None
  end.

(** A search of the root program's dependencies, or of the root itself. *)
Definition in_root_dependencies {A} (visit : ptr -> Z -> proc (option A)) (p : ptr) (prog : process_program) : proc A :=
  match other_root p prog with
  | None => fail
  | Some root => at_depth visit MAX_PROCESS_DEP_DEPTH root
  end.

Definition in_root_program {A} (visit : ptr -> Z -> proc (option A)) (p : ptr) (prog : process_program) : proc A :=
  match other_root p prog, scope_root_loaded_image prog with
  | Some root, Some root_image =>
      found ← visit root root_image;
      match found with Some v => mret v | None => fail end
  | _, _ => fail
  end.

Definition resolve_root_scope_dependency_symbol (p : ptr) (name : list Z) (version : option (list Z)) : proc (Z * Z) :=
  prog ← get_program p; in_root_dependencies (visit_symbol (arch prog) name version) p prog.

Definition resolve_root_scope_dependency_tls_symbol (p : ptr) (name : list Z) (version : option (list Z)) : proc Z :=
  prog ← get_program p; in_root_dependencies (visit_tls name version) p prog.

Definition resolve_root_scope_dependency_object_symbol (p : ptr) (name : list Z) (version : option (list Z))
    : proc (ptr * Z * (Z * Z)) :=
  prog ← get_program p; in_root_dependencies (visit_object name version) p prog.

Definition resolve_root_scope_symbol (p : ptr) (name : list Z) (version : option (list Z)) : proc (Z * Z) :=
  prog ← get_program p; in_root_program (visit_symbol (arch prog) name version) p prog.

Definition resolve_root_scope_tls_symbol (p : ptr) (name : list Z) (version : option (list Z)) : proc Z :=
  prog ← get_program p; in_root_program (visit_tls name version) p prog.

(** ** The symbol of a relocation *)

Definition requested_version (prog : process_program) (img : image) (t : symbol_tables) (symbol_index : Z)
    : outcome (option (list Z)) :=
  v ← relocation_requested_version_name (header prog) img (tb_strtab t) (tb_strsz t) symbol_index;
  match v with None => Ok None | Some off => s ← c_string_at img off; Ok (Some s) end.

(** "__tls_get_addr" *)
Definition tls_get_addr_name : list Z := [95; 95; 116; 108; 115; 95; 103; 101; 116; 95; 97; 100; 100; 114].

Definition known_arch (a : Z) : bool := (a =? POLY_ARCH_X86) || (a =? POLY_ARCH_AARCH64) || (a =? POLY_ARCH_RISCV).

Definition resolve_dependency_reloc_symbol (p : ptr) (loaded_image : Z) (t : symbol_tables)
    (symbol_index tls_get_addr_helper_pc : Z) : proc (Z * Z) :=
  prog ← get_program p;
  img ← get_image loaded_image;
  '(name_offset, unresolved_info) ← lift (dynamic_symbol_name_by_index (header prog) img (tb_symtab t) (tb_strtab t)
                                     (tb_strsz t) (tb_syment t) (tb_hash t) (tb_gnu_hash t) symbol_index);
  name ← lift (c_string_at img name_offset);
  version ← lift (requested_version prog img t symbol_index);
  if known_arch (arch prog) && negb (tls_get_addr_helper_pc =? 0) && bool_decide (name = tls_get_addr_name) then
    mret (tls_get_addr_helper_pc, STT_FUNC)
  else
    or_else (resolve_root_scope_symbol p name version)
    (or_else (resolve_root_scope_dependency_symbol p name version)
    (or_else (resolve_loaded_dependency_symbol p name version)
    (if ELF64_ST_BIND unresolved_info =? STB_WEAK then mret (0, ELF64_ST_TYPE unresolved_info) else fail))).

Definition resolve_process_tls_reloc_symbol (p : ptr) (loaded_image : Z) (t : symbol_tables) (symbol_index : Z) : proc Z :=
  prog ← get_program p;
  img ← get_image loaded_image;
  '(sym, name_offset) ← lift (dynamic_symbol_by_index (header prog) img (tb_symtab t) (tb_strtab t) (tb_strsz t)
                                (tb_syment t) (tb_hash t) (tb_gnu_hash t) symbol_index);
  version ← lift (requested_version prog img t symbol_index);
  if st_shndx sym =? SHN_UNDEF then
    name ← lift (c_string_at img name_offset);
    or_else (resolve_root_scope_tls_symbol p name version)
    (or_else (resolve_root_scope_dependency_tls_symbol p name version)
    (or_else (resolve_loaded_dependency_tls_symbol p name version)
    (if ELF64_ST_BIND (st_info sym) =? STB_WEAK then mret 0 else fail)))
  else if negb (ELF64_ST_TYPE (st_info sym) =? STT_TLS) then fail
  else mret (u64 (tls_offset (header prog) + st_value sym)).

(** Bytes of an image replaced; the checks before the call keep this inside. *)
Definition write_image (addr off : Z) (bytes : list Z) : proc unit := fun st =>
  match images st !! addr with
  | Some img =>
      if (0 <=? off) && (off + Z.of_nat (length bytes) <=? size_of img) then
        let o := Z.to_nat off in
        (MkProcess (<[addr := take o img ++ bytes ++ drop (o + length bytes) img]> (images st)) (stubs st), Ok tt)
      else (st, Fault)
  | None => (st, Fault)
  end.

(** [memcpy] between images; it is undefined when the ranges overlap. *)
Definition copy_image (dst dst_off src src_off n : Z) : proc unit :=
  if bool_decide (dst = src) && (src_off <? dst_off + n) && (dst_off <? src_off + n) then lift Fault
  else
    img ← get_image src;
    bytes ← lift (read_bytes img src_off (Z.to_nat n));
    write_image dst dst_off bytes.

Definition apply_process_copy_relocation (p : ptr) (loaded_image : Z) (t : symbol_tables)
    (symbol_index target_vaddr : Z) : proc unit :=
  prog ← get_program p;
  img ← get_image loaded_image;
  '(target_sym, name_offset) ← lift (dynamic_symbol_by_index (header prog) img (tb_symtab t) (tb_strtab t) (tb_strsz t)
                                       (tb_syment t) (tb_hash t) (tb_gnu_hash t) symbol_index);
  version ← lift (requested_version prog img t symbol_index);
  name ← lift (c_string_at img name_offset);
  '(source, source_image, (source_vaddr, source_size)) ←
    or_else (resolve_root_scope_dependency_object_symbol p name version)
            (resolve_loaded_dependency_object_symbol p name version);
  let copy_size := if negb (st_size target_sym =? 0) then st_size target_sym else source_size in
  if (copy_size =? 0) || (negb (source_size =? 0) && (copy_size >? source_size)) then fail
  else
    target_offset ← lift (elf_vaddr_to_image_offset (header prog) target_vaddr copy_size);
    source_prog ← get_program source;
    source_offset ← lift (elf_vaddr_to_image_offset (header source_prog) source_vaddr copy_size);
    copy_image loaded_image target_offset source_image source_offset copy_size.

(** ** The order of the search *)

(** The dependencies in the order of the walk: each one before its own, at most
    [left] levels down. *)
Fixpoint scope (left : nat) (p : ptr) : list (ptr * Z) :=
  match left with
  | O => []
  | S left' =>
      match programs p with
      | None => []
      | Some prog =>
          flat_map (fun dep =>
            match dep_program dep, dep_loaded_image dep with
            | Some q, Some img => (q, img) :: scope left' q
            | _, _ => []
            end) (deps prog)
      end
  end.

(** Every program that is pointed to exists. *)
Definition closed : Prop :=
  forall p prog, programs p = Some prog ->
  (forall dep q, dep ∈ deps prog -> dep_program dep = Some q -> is_Some (programs q)) /\
  (forall root, scope_root_program prog = Some root -> is_Some (programs root)).

(** What a walk over a list of dependencies results in when [visit] does not
    fail: the first one found. *)
Inductive walk_result {A} (visit : ptr -> Z -> proc (option A)) (st : process_state)
    : list (ptr * Z) -> process_state * outcome A -> Prop :=
  | walk_none : walk_result visit st [] (st, Err)
  | walk_found q img l st' a : visit q img st = (st', Ok (Some a)) -> walk_result visit st ((q, img) :: l) (st', Ok a)
  | walk_next q img l r : visit q img st = (st, Ok None) -> walk_result visit st l r ->
      walk_result visit st ((q, img) :: l) r.

(** Either it ends without a result in the same state, or it stops. *)
Lemma walk_app {A} (visit : ptr -> Z -> proc (option A)) (st : process_state) (l1 l2 : list (ptr * Z))
    (r1 r2 : process_state * outcome A) :
  walk_result visit st l1 r1 -> (r1 = (st, Err) -> walk_result visit st l2 r2) ->
  walk_result visit st (l1 ++ l2) (if snd r1 is Ok _ then r1 else r2).
Proof using.
  intros H1 H2. induction H1 as [|q img l st' a Hv|q img l r Hv H1 IH]; cbn [app snd].
  - by apply H2.
  - by apply walk_found.
  - apply walk_next; [done|by apply IH].
Qed.

Lemma walk_cases {A} (visit : ptr -> Z -> proc (option A)) (st : process_state) (l : list (ptr * Z)) r :
  walk_result visit st l r -> (r = (st, Err)) \/ exists st' a, r = (st', Ok a).
Proof using. induction 1 as [|? ? ? st' a|]; [by left|right; by exists st', a|done]. Qed.

(** A visit that, from [st], finds, or finds nothing and changes nothing. *)
Definition steady {A} (visit : ptr -> Z -> proc (option A)) (st : process_state) (l : list (ptr * Z)) : Prop :=
  Forall (fun '(q, img) => visit q img st = (st, Ok None) \/ exists st' a, visit q img st = (st', Ok (Some a))) l.

Lemma steady_walk {A} (visit : ptr -> Z -> proc (option A)) (st : process_state) (l : list (ptr * Z)) :
  steady visit st l -> exists r, walk_result visit st l r.
Proof using.
  induction 1 as [|[q img] l [Hv|(st' & a & Hv)] Hl (r & IH)]; [eexists; constructor|..].
  - exists r. by apply walk_next.
  - eexists. by eapply walk_found.
Qed.

(** The walk of the code goes through the scope in order. *)
Lemma at_depth_walk {A} (visit : ptr -> Z -> proc (option A)) (st : process_state) : closed -> forall left p,
  is_Some (programs p) -> steady visit st (scope left p) ->
  walk_result visit st (scope left p) (at_depth visit left p st).
Proof using.
  intros Hc. induction left as [|left IH]; intros p [prog Hp] Hs; [constructor|].
  cbn [at_depth scope] in *. unfold mbind, proc_bind, get_program, lift at 1. rewrite Hp in *.
  destruct (Hc p prog Hp) as [Hq _]. revert Hs Hq. generalize (deps prog) as l. induction l as [|dep l IHl]; intros Hs Hq; [constructor|].
  cbn [flat_map] in *. unfold steady in Hs. rewrite Forall_app in Hs. destruct Hs as [Hs1 Hs2].
  assert (forall d q, d ∈ l -> dep_program d = Some q -> is_Some (programs q)) as Hl.
  { intros d q Hd. apply Hq. by apply elem_of_cons; right. }
  specialize (IHl Hs2 Hl).
  destruct (dep_program dep) as [q|] eqn:Eq; [|exact IHl]. destruct (dep_loaded_image dep) as [img|]; [|exact IHl].
  apply Forall_cons in Hs1 as [Hv Hs1]. cbn [app].
  destruct Hv as [Hv|(st' & a & Hv)]; unfold mbind, proc_bind; rewrite Hv; [|by eapply walk_found].
  apply walk_next; [done|]. assert (is_Some (programs q)) as Hq1 by (eapply Hq; [by apply elem_of_cons; left|done]).
  specialize (IH q Hq1 Hs1). unfold or_else, mbind, proc_bind, attempt.
  destruct (walk_cases _ _ _ _ IH) as [E|(st' & a & E)]; rewrite E in *.
  - exact (walk_app _ _ _ _ _ _ IH (fun _ => IHl)).
  - exact (walk_app _ _ _ _ _ (st, Err) IH (fun H => ltac:(discriminate H))).
Qed.

(** The scopes in the order in which the symbol of a relocation is looked for:
    the root program, its dependencies, the program's own. *)
Definition root_entry (p : ptr) (prog : process_program) : list (ptr * Z) :=
  match other_root p prog, scope_root_loaded_image prog with
  | Some root, Some img => [(root, img)]
  | _, _ => []
  end.
Definition root_scope (p : ptr) (prog : process_program) : list (ptr * Z) :=
  match other_root p prog with Some root => scope MAX_PROCESS_DEP_DEPTH root | None => [] end.
Definition search_order (p : ptr) (prog : process_program) : list (ptr * Z) :=
  root_entry p prog ++ root_scope p prog ++ scope MAX_PROCESS_DEP_DEPTH p.

Lemma or_else_walk {A} (visit : ptr -> Z -> proc (option A)) (st : process_state) (l1 l2 : list (ptr * Z))
    (m1 m2 : proc A) :
  walk_result visit st l1 (m1 st) -> walk_result visit st l2 (m2 st) ->
  walk_result visit st (l1 ++ l2) (or_else m1 m2 st).
Proof using.
  intros H1 H2. unfold or_else, mbind, proc_bind, attempt.
  destruct (walk_cases _ _ _ _ H1) as [E|(st' & a & E)]; rewrite E in *.
  - exact (walk_app _ _ _ _ _ _ H1 (fun _ => H2)).
  - exact (walk_app _ _ _ _ _ (st, Err) H1 (fun H => ltac:(discriminate H))).
Qed.

(** The first entry of the list with a definition decides. *)
Definition first {A B} (g : A -> option B) (l : list A) : option B := head (omap g l).

Lemma first_some {A B} (g : A -> option B) (l : list A) (b : B) : first g l = Some b -> exists a, a ∈ l /\ g a = Some b.
Proof using.
  unfold first. induction l as [|a l IH]; cbn; [done|]. destruct (g a) eqn:E; cbn.
  - intros [= <-]. exists a. split; [by apply elem_of_cons; left|done].
  - intros H. destruct (IH H) as (a' & Ha & Hg). exists a'. split; [by apply elem_of_cons; right|done].
Qed.

Lemma walk_first {A B} (visit : ptr -> Z -> proc (option A)) (st : process_state) (l : list (ptr * Z)) r
    (g : ptr * Z -> option B) (b : B -> process_state * A) :
  walk_result visit st l r ->
  Forall (fun '(q, img) => visit q img st = match g (q, img) with
                                            | None => (st, Ok None)
                                            | Some x => (fst (b x), Ok (Some (snd (b x))))
                                            end) l ->
  r = match first g l with None => (st, Err) | Some x => (fst (b x), Ok (snd (b x))) end.
Proof using.
  unfold first. induction 1 as [|q img l st' a Hv|q img l r Hv H1 IH]; intros Hl; [done|..];
    apply Forall_cons in Hl as [Hg Hl]; rewrite Hv in Hg; cbn; destruct (g (q, img)); simplify_eq; cbn; try done.
  by apply IH.
Qed.

(** ** Definitions of a symbol *)

(** A dependency that is loaded: its program and its image are there, and the
    image is one the searches can walk. *)
Definition loaded (st : process_state) (e : ptr * Z) : Prop :=
  exists prog img, programs (fst e) = Some prog /\ images st !! snd e = Some img /\
    wf_elf (header prog) img /\ sane_tables (header prog) img.

Definition define_with {A} (st : process_state) (search : process_program -> image -> outcome A) (e : ptr * Z)
    : option (process_program * Z * A) :=
  prog ← programs (fst e); img ← images st !! snd e;
  match search prog img with Ok a => Some (prog, snd e, a) | _ => None end.

Definition tls_definition (st : process_state) (name : list Z) (version : option (list Z)) :=
  define_with st (fun prog img => resolve_loaded_program_tls_symbol_ex (header prog) img name version).
Definition symbol_definition (st : process_state) (name : list Z) (version : option (list Z)) (e : ptr * Z) :=
  define_with st (fun prog img => resolve_loaded_program_symbol_ex (header prog) img (snd e) true name version) e.

Definition proper_name (name : list Z) (version : option (list Z)) : Prop :=
  no_nul name /\ forall v, version = Some v -> no_nul v.

Lemma tls_search_returns (prog : process_program) (img : image) (name : list Z) (version : option (list Z)) :
  wf_elf (header prog) img -> sane_tables (header prog) img -> proper_name name version ->
  returns (resolve_loaded_program_tls_symbol_ex (header prog) img name version).
Proof using.
  intros Hw Hs [Hn Hv]. unfold resolve_loaded_program_tls_symbol_ex, resolve_loaded_program_symbol_ex.
  refine (search_result_returns (header prog) img _ name version _ _ _ (search_spec (header prog) img Hw _ name version Hn Hv _ Hs)). auto with poly.
Qed.

Lemma symbol_search_returns (prog : process_program) (img : image) (addr : Z) (name : list Z) (version : option (list Z)) :
  wf_elf (header prog) img -> sane_tables (header prog) img -> proper_name name version ->
  returns (resolve_loaded_program_symbol_ex (header prog) img addr true name version).
Proof using.
  intros Hw Hs [Hn Hv]. unfold resolve_loaded_program_tls_symbol_ex, resolve_loaded_program_symbol_ex.
  refine (search_result_returns (header prog) img _ name version _ _ _ (search_spec (header prog) img Hw _ name version Hn Hv _ Hs)).
  intros sym. cbn zeta. destruct_ifs; auto with poly.
Qed.

Lemma visit_tls_definition (st : process_state) (name : list Z) (version : option (list Z)) (q : ptr) (img : Z) :
  loaded st (q, img) -> proper_name name version ->
  visit_tls name version q img st = (st, Ok (snd <$> tls_definition st name version (q, img))).
Proof using.
  intros (prog & bytes & Hp & Hi & Hw & Hs) Hn. cbn [fst snd] in *.
  unfold visit_tls, tls_definition, define_with, mbind, proc_bind, get_program, get_image, lift, attempt. cbn [fst snd].
  rewrite Hp, Hi. cbn [mbind option_bind].
  pose proof (tls_search_returns prog bytes name version Hw Hs Hn) as [H1 H2].
  by destruct (resolve_loaded_program_tls_symbol_ex _ _ _ _).
Qed.

Lemma visit_symbol_definition (st : process_state) (caller : Z) (name : list Z) (version : option (list Z)) (q : ptr) (img : Z) :
  loaded st (q, img) -> proper_name name version ->
  visit_symbol caller name version q img st =
  match symbol_definition st name version (q, img) with
  | None => (st, Ok None)
  | Some (prog, addr, r) => (v ← bind_symbol prog addr caller name r; mret (Some v)) st
  end.
Proof using.
  intros (prog & bytes & Hp & Hi & Hw & Hs) Hn. cbn [fst snd] in *.
  unfold visit_symbol, symbol_definition, define_with. cbn [fst snd]. rewrite Hp, Hi. cbn [mbind option_bind].
  pose proof (symbol_search_returns prog bytes img name version Hw Hs Hn) as [H1 H2].
  unfold mbind at 1 2 3, proc_bind at 1 2 3, get_program, get_image, lift, attempt. rewrite Hp, Hi.
  by destruct (resolve_loaded_program_symbol_ex _ _ _ _ _ _).
Qed.

Lemma other_root_exists (p : ptr) (prog : process_program) (root : ptr) :
  closed -> programs p = Some prog -> other_root p prog = Some root -> is_Some (programs root).
Proof using.
  intros Hc Hp. unfold other_root. destruct (scope_root_program prog) as [r|] eqn:E; [|done].
  case_bool_decide; [done|]. intros [= <-]. by apply (Hc p prog Hp).
Qed.

(** The three attempts for a relocation walk the search order. *)
Lemma reloc_walk {A} (visit : ptr -> Z -> proc (option A)) (st : process_state) (p : ptr) (prog : process_program) :
  closed -> programs p = Some prog -> steady visit st (search_order p prog) ->
  walk_result visit st (search_order p prog)
    (or_else (in_root_program visit p prog)
       (or_else (in_root_dependencies visit p prog) (at_depth visit MAX_PROCESS_DEP_DEPTH p)) st).
Proof using.
  intros Hc Hp Hs. unfold search_order, steady in *. rewrite !Forall_app in Hs.
  destruct Hs as (Hs1 & Hs2 & Hs3). apply or_else_walk; [|apply or_else_walk].
  - unfold root_entry, in_root_program in *. destruct (other_root p prog) as [r|]; [|constructor].
    destruct (scope_root_loaded_image prog) as [img|]; [|constructor].
    apply Forall_cons in Hs1 as [[Hv|(st' & a & Hv)] _]; unfold mbind, proc_bind; rewrite Hv.
    + apply walk_next; [done|constructor].
    + by eapply walk_found.
  - unfold root_scope, in_root_dependencies in *. destruct (other_root p prog) as [r|] eqn:E; [|constructor].
    apply at_depth_walk; [done|by eapply other_root_exists|done].
  - apply at_depth_walk; [done|by eexists|done].
Qed.

(** The attempts, and then the fallback for a weak symbol. *)
Lemma reloc_chain {A} (visit : ptr -> Z -> proc (option A)) (st : process_state) (p : ptr) (prog : process_program)
    (fallback : proc A) :
  closed -> programs p = Some prog -> steady visit st (search_order p prog) ->
  exists r, walk_result visit st (search_order p prog) r /\
  or_else (in_root_program visit p prog)
    (or_else (in_root_dependencies visit p prog) (or_else (at_depth visit MAX_PROCESS_DEP_DEPTH p) fallback)) st =
  (if snd r is Ok _ then r else fallback st).
Proof using.
  intros Hc Hp Hs. eexists. split; [by apply reloc_walk|].
  pose proof (reloc_walk visit st p prog Hc Hp Hs) as Hw. revert Hw.
  set (m1 := in_root_program visit p prog). set (m2 := in_root_dependencies visit p prog).
  set (m3 := at_depth visit MAX_PROCESS_DEP_DEPTH p). intros Hw.
  assert (or_else m1 (or_else m2 (or_else m3 fallback)) st = or_else (or_else m1 (or_else m2 m3)) fallback st) as ->.
  { unfold or_else, mbind, proc_bind, attempt. destruct (m1 st) as [st1 [a| | |]]; try done.
    destruct (m2 st1) as [st2 [a| | |]]; done. }
  unfold or_else at 1, mbind, proc_bind, attempt.
  by destruct (walk_cases _ _ _ _ Hw) as [E|(st' & a & E)]; rewrite E.
Qed.

Lemma get_program_bind {A} (p : ptr) (prog : process_program) (f : process_program -> proc A) :
  programs p = Some prog -> (get_program p ≫= f) = f prog.
Proof using. intros Hp. unfold mbind, proc_bind, get_program, lift. by rewrite Hp. Qed.


Lemma c_string_no_nul (bs name : list Z) : c_string bs = Ok name -> no_nul name.
Proof using.
  revert name. induction bs as [|b bs IH]; intros name; cbn [c_string]; [done|].
  destruct (Z.eqb_spec b NUL); [intros [= <-]; constructor|].
  intros (s & Hs & [= <-])%bind_ok. constructor; [done|by apply IH].
Qed.

Lemma c_string_at_no_nul (img : image) (off : Z) (name : list Z) : c_string_at img off = Ok name -> no_nul name.
Proof using. unfold c_string_at. destruct (off <? 0); [done|]. apply c_string_no_nul. Qed.

Lemma requested_version_no_nul (prog : process_program) (img : image) (t : symbol_tables) (index : Z) version :
  requested_version prog img t index = Ok version -> forall v, version = Some v -> no_nul v.
Proof using.
  unfold requested_version. intros (o & _ & H)%bind_ok v ->. destruct o as [off|]; [|done].
  apply bind_ok in H as (s & Hs & [= <-]). by eapply c_string_at_no_nul.
Qed.

(** The thread-local symbol of a relocation that the image leaves undefined
    is the first definition in the search order: the root program, the
    dependencies of the root depth first and at most four levels down, then the
    program's own dependencies likewise.  Without one, a weak symbol is 0 and any
    other an error.  The search changes no state and ends on cyclic
    dependencies. *)
Theorem tls_reloc_symbol_first (st : process_state) (p : ptr) (prog : process_program) (addr : Z) (img : image)
    (t : symbol_tables) (index name_offset : Z) (sym : elf_sym) (name : list Z) (version : option (list Z)) :
  closed -> programs p = Some prog -> images st !! addr = Some img -> Forall (loaded st) (search_order p prog) ->
  dynamic_symbol_by_index (header prog) img (tb_symtab t) (tb_strtab t) (tb_strsz t) (tb_syment t) (tb_hash t)
    (tb_gnu_hash t) index = Ok (sym, name_offset) ->
  c_string_at img name_offset = Ok name -> requested_version prog img t index = Ok version ->
  st_shndx sym = SHN_UNDEF ->
  resolve_process_tls_reloc_symbol p addr t index st =
  (st, match first (tls_definition st name version) (search_order p prog) with
       | Some (_, _, v) => Ok v
       | None => if bool_decide (ELF64_ST_BIND (st_info sym) = STB_WEAK) then Ok 0 else Err
       end).
Proof using.
  intros Hc Hp Hi Hl Hsym Hname Hver Hund. unfold resolve_process_tls_reloc_symbol.
  rewrite (get_program_bind p prog) by done. unfold mbind at 1, proc_bind at 1, get_image. rewrite Hi.
  unfold mbind at 1, proc_bind at 1, lift at 1. rewrite Hsym. unfold mbind at 1, proc_bind at 1, lift at 1. rewrite Hver.
  rewrite Hund. cbn [SHN_UNDEF Z.eqb]. unfold mbind at 1, proc_bind at 1, lift at 1. rewrite Hname.
  unfold resolve_root_scope_tls_symbol, resolve_root_scope_dependency_tls_symbol, resolve_loaded_dependency_tls_symbol.
  rewrite !(get_program_bind p prog) by done.
  assert (proper_name name version) as Hn by (split; [by eapply c_string_at_no_nul|by eapply requested_version_no_nul]).
  assert (Forall (fun '(q, i) => visit_tls name version q i st = (st, Ok (snd <$> tls_definition st name version (q, i))))
    (search_order p prog)) as Hv.
  { eapply Forall_impl; [exact Hl|]. intros [q i] Hqi. by apply visit_tls_definition. }
  destruct (reloc_chain (visit_tls name version) st p prog
    (if ELF64_ST_BIND (st_info sym) =? STB_WEAK then mret 0 else fail) Hc Hp) as (r & Hw & ->).
  { eapply Forall_impl; [exact Hv|]. intros [q i] ->. destruct (tls_definition _ _ _ _); [right; by eexists _, _|by left]. }
  rewrite (walk_first _ st _ r (tls_definition st name version) (fun x => (st, snd x)) Hw).
  - destruct (first _ _) as [[[? ?] v]|]; [done|]. cbn [snd].
    destruct (Z.eqb_spec (ELF64_ST_BIND (st_info sym)) STB_WEAK); by case_bool_decide.
  - eapply Forall_impl; [exact Hv|]. intros [q i] ->. by destruct (tls_definition _ _ _ _).
Qed.


End Deps.

(** ** The size of a search *)

Section Size.
  Context (programs : ptr -> option process_program).
  Context (Hdeps : forall p prog, programs p = Some prog -> (length (deps prog) <= 8)%nat).

Fixpoint walk_bound (left : nat) : nat := match left with O => 0 | S left' => 8 * (1 + walk_bound left') end.

Lemma scope_length (left : nat) : forall p, (length (scope programs left p) <= walk_bound left)%nat.
Proof using Hdeps.
  induction left as [|left IH]; intros p; [done|]. cbn [scope walk_bound].
  destruct (programs p) as [prog|] eqn:Ep; [|cbn; lia]. pose proof (Hdeps p prog Ep) as Hd.
  enough (forall l, (length (flat_map (fun dep => match dep_program dep, dep_loaded_image dep with
    | Some q, Some img => (q, img) :: scope programs left q | _, _ => [] end) l) <= length l * (1 + walk_bound left))%nat) as H.
  { etransitivity; [apply H|]. apply Nat.mul_le_mono_r. done. }
  induction l as [|dep l IHl]; cbn [flat_map length]; [lia|]. rewrite length_app.
  assert (length (match dep_program dep, dep_loaded_image dep with
    | Some q, Some img => (q, img) :: scope programs left q | _, _ => [] end) <= 1 + walk_bound left)%nat; [|lia].
  destruct (dep_program dep) as [q|]; [|cbn; lia]. destruct (dep_loaded_image dep); [|cbn; lia].
  cbn [length]. pose proof (IH q). lia.
Qed.

(** However the programs depend on each other, cycles included, one symbol
    is looked up in at most 9361 images: a program has at most
    [MAX_PROCESS_DEPS] dependencies and the walks stop four levels down. *)
Theorem search_order_bounded (p : ptr) (prog : process_program) :
  Z.of_nat (length (search_order programs p prog)) <= 9361.
Proof using Hdeps.
  assert (forall q, Z.of_nat (length (scope programs MAX_PROCESS_DEP_DEPTH q)) <= 4680) as H.
  { intros q. pose proof (scope_length MAX_PROCESS_DEP_DEPTH q).
    change 4680 with (Z.of_nat (walk_bound MAX_PROCESS_DEP_DEPTH)). lia. }
  unfold search_order, root_scope, root_entry. rewrite !length_app. pose proof (H p).
  destruct (other_root p prog) as [r|], (scope_root_loaded_image prog); cbn [length]; try lia; pose proof (H r); lia.
Qed.
End Size.

(** ** A concrete process *)

(** An image like [foo_image] with the symbol foo of the given kind. *)
Definition symbol_image (info shndx : Z) : image :=
  take 52 foo_image ++ [u8 info; 0] ++ le_bytes 2 shndx ++ drop 56 foo_image.

Lemma symbol_image_wf (info shndx : Z) : wf_elf foo_program (symbol_image info shndx).
Proof.
  pose proof foo_image_wf as [Hb Hs Hl Hba Hd]. constructor; try done.
  unfold wf_image, symbol_image in *. rewrite !Forall_app. split_and!.
  - by apply Forall_take.
  - repeat constructor; unfold in_width, wrap; try apply Z.mod_pos_bound; lia.
  - apply le_bytes_range.
  - by apply Forall_drop.
Qed.

Lemma symbol_image_sane (info shndx : Z) : sane_tables foo_program (symbol_image info shndx).
Proof.
  intros t Ht. vm_compute in Ht. simplify_eq. cbn.
  split; [unfold sane_syment, SIZEOF_SYM; lia|]. intros so Hso. vm_compute in Hso. simplify_eq.
  vm_compute. reflexivity.
Qed.

(** Two programs that depend on each other; the first one, loaded at 0x10000,
    leaves foo undefined, the second one, at 0x20000, defines it. *)
Definition two_programs (arch1 arch2 : Z) (specs : list poly_process_bridge_spec) (p : ptr) : option process_program :=
  match p with
  | 1%positive => Some (MkProgram foo_program arch1 [] [MkDep (Some 2%positive) (Some 0x20000)] (Some 1%positive) (Some 0x10000))
  | 2%positive => Some (MkProgram foo_program arch2 specs [MkDep (Some 1%positive) (Some 0x10000)] (Some 1%positive) (Some 0x10000))
  | _ => None
  end.

Definition two_images (info1 info2 : Z) : process_state :=
  MkProcess {[ 0x10000 := symbol_image info1 0; 0x20000 := symbol_image info2 7 ]} sample_state.

Definition foo_tables : symbol_tables := MkTables 24 72 8 24 8 0.
Definition foo_name : list Z := [102; 111; 111].
Definition no_guest (imgs : gmap Z image) (a pc : Z) : gmap Z image * Z := (imgs, 0).
Definition sample_run_env : run_env := MkRunEnv 0x30000 14 0x31000 sample_env None.

Lemma two_programs_closed (a1 a2 : Z) (specs : list poly_process_bridge_spec) : closed (two_programs a1 a2 specs).
Proof.
  intros p prog Hp. destruct p as [p|p|]; [by destruct p|destruct p; try done|]; injection Hp as <-; cbn;
    (split; [intros dep q Hd; rewrite list_elem_of_singleton in Hd; subst dep; intros [= <-]; by eexists
            |intros root [= <-]; by eexists]).
Qed.

Lemma two_programs_order (a1 a2 : Z) (specs : list poly_process_bridge_spec) (prog : process_program) :
  two_programs a1 a2 specs 1%positive = Some prog ->
  search_order (two_programs a1 a2 specs) 1%positive prog =
  [(2%positive, 0x20000); (1%positive, 0x10000); (2%positive, 0x20000); (1%positive, 0x10000)].
Proof. by intros [= <-]. Qed.

Lemma two_programs_loaded (a1 a2 info1 info2 : Z) (specs : list poly_process_bridge_spec) :
  Forall (loaded (two_programs a1 a2 specs) (two_images info1 info2))
    [(2%positive, 0x20000); (1%positive, 0x10000); (2%positive, 0x20000); (1%positive, 0x10000)].
Proof.
  assert (loaded (two_programs a1 a2 specs) (two_images info1 info2) (2%positive, 0x20000)) as H2.
  { eexists _, (symbol_image info2 7). split; [done|]. split; [done|]. split; [apply symbol_image_wf|apply symbol_image_sane]. }
  assert (loaded (two_programs a1 a2 specs) (two_images info1 info2) (1%positive, 0x10000)) as H1.
  { eexists _, (symbol_image info1 0). split; [done|]. split; [done|]. split; [apply symbol_image_wf|apply symbol_image_sane]. }
  by repeat constructor.
Qed.

Lemma search_order_bounded_witness :
  Z.of_nat (length (search_order (two_programs 0 1 []) 1%positive
    (MkProgram foo_program 0 [] [MkDep (Some 2%positive) (Some 0x20000)] (Some 1%positive) (Some 0x10000)))) <= 9361.
Proof.
  apply (search_order_bounded (two_programs 0 1 [])).
  intros p prog' Hp. destruct p as [p|p|]; [by destruct p|destruct p; try done|]; injection Hp as <-; cbn; lia.
Defined.

(** A thread-local foo (type 6) at 4096 in the second program. *)
Lemma tls_reloc_symbol_first_witness :
  resolve_process_tls_reloc_symbol (two_programs 1 1 []) 1%positive 0x10000 foo_tables 1 (two_images 0x16 0x16) =
  (two_images 0x16 0x16, Ok 4096).
Proof.
  rewrite (tls_reloc_symbol_first (two_programs 1 1 []) (two_images 0x16 0x16) 1%positive
    (MkProgram foo_program 1 [] [MkDep (Some 2%positive) (Some 0x20000)] (Some 1%positive) (Some 0x10000))
    0x10000 (symbol_image 0x16 0) foo_tables 1 73 (MkSym 1 0x16 0 0 4096 32) foo_name None).
  - vm_compute. reflexivity.
  - apply two_programs_closed.
  - reflexivity.
  - reflexivity.
  - exact (two_programs_loaded 1 1 0x16 0x16 []).
  - vm_compute. reflexivity.
  - vm_compute. reflexivity.
  - vm_compute. reflexivity.
  - reflexivity.
Defined.


(** A failure to emit the stub for a definition that was found is read as
    "not found": here the only definition of the weak symbol foo has a bridge
    kind that its architecture refuses, the runtime reports the failure, and the
    relocation then succeeds with a null address. *)
Theorem failed_stub_binds_null :
  let specs := [MkSpec foo_name POLY_PROCESS_BRIDGE_AARCH64_HFA3_F64_ARG] in
  let programs := two_programs POLY_ARCH_AARCH64 POLY_ARCH_RISCV specs in
  let st := two_images 0x22 0x12 in
  (exists q r, symbol_definition programs st foo_name None (2%positive, 0x20000) = Some (q, 0x20000, r) /\
     bind_symbol no_guest sample_run_env q 0x20000 POLY_ARCH_AARCH64 foo_name r st = (st, Err)) /\
  resolve_dependency_reloc_symbol programs no_guest sample_run_env 1%positive 0x10000 foo_tables 1 0 st =
    (st, Ok (0, STT_FUNC)).
Proof.
  intros specs programs st. split; [|vm_compute; reflexivity].
  exists (MkProgram foo_program POLY_ARCH_RISCV specs [MkDep (Some 1%positive) (Some 0x10000)] (Some 1%positive) (Some 0x10000)),
    (MkResolved 0x21000 STT_FUNC 0).
  split; [vm_compute; reflexivity|]. reflexivity.
Qed.
