(* ===== verification/DependencyLoad.v ===== *)
(** Loading the libraries that a program needs
    ([load_process_dependencies] of [tools/runtime/polyexec.c]): the preloaded
    libraries first, then, for every program, those of its dynamic section, each
    followed by what it needs itself, up to a fixed depth.  A library that another
    program has already loaded under the same name is shared.

    Programs are nodes of a store, found by pointer; a dependency is found by the
    program that has it and its index.  The search by name follows dependencies
    without a bound; its fuel is a parameter, and [Spin] means that the code would
    go on.  Messages are left out. *)

From stdpp Require Import gmap.
From S2P Require Import Prelude LoaderBase BridgeSpec ElfImage ElfLoad LibraryPath ElfDeps.

Definition MAX_PROCESS_DEPS : nat := 8.
Definition DT_NEEDED : Z := 1.
Definition DT_RPATH : Z := 15.
Definition DT_RUNPATH : Z := 29.

(** ** State *)

Definition dep_ref : Type := ptr * nat.

(** [struct poly_process_dependency] *)
Record dependency : Type := MkDependency {
  dp_path : list Z;
  dp_program : option ptr;
  dp_shared_from : option dep_ref;
  dp_mapping : option Z;
  dp_mapping_size : Z;
  dp_loaded_image : option Z;
}.

(** [struct poly_program] with the fields that change after it is loaded. *)
Record program_node : Type := MkNode {
  nd_program : loaded_program;
  nd_deps : list dependency;
  nd_tls_offset : Z;
  nd_tls_total_size : Z;
  nd_scope_root_program : option ptr;
  nd_scope_root_loaded_image : option Z;
}.

Record process : Type := MkProcessStore {
  ps_nodes : gmap ptr program_node;
  ps_next : ptr;
}.

Definition ld (A : Type) : Type := process -> process * outcome A.

#[export] Instance ld_ret : MRet ld := fun A a st => (st, Ok a).
#[export] Instance ld_bind : MBind ld := fun A B f m st =>
  match m st with
  | (st', Ok a) => f a st'
  | (st', Err) => (st', Err)
  | (st', Fault) => (st', Fault)
  | (st', Spin) => (st', Spin)
  end.

Definition of_outcome {A} (m : outcome A) : ld A := fun st => (st, m).
Definition fails {A} : ld A := of_outcome Err.

Definition get_node (p : ptr) : ld program_node := fun st =>
  (st, match ps_nodes st !! p with Some node => Ok node | None => Fault end).
Definition put_node (p : ptr) (node : program_node) : ld unit := fun st =>
  (MkProcessStore (<[p := node]> (ps_nodes st)) (ps_next st), Ok tt).

Definition get_dep (d : dep_ref) : ld dependency := fun st =>
  (st, match ps_nodes st !! d.1 with
       | Some node => match nd_deps node !! d.2 with Some dep => Ok dep | None => Fault end
       | None => Fault
       end).

Definition set_deps (deps : list dependency) (node : program_node) : program_node :=
  MkNode (nd_program node) deps (nd_tls_offset node) (nd_tls_total_size node) (nd_scope_root_program node)
    (nd_scope_root_loaded_image node).

(** A dependency at the end of [deps], counted. *)
Definition push_dep (p : ptr) (dep : dependency) : ld unit :=
  node ← get_node p; put_node p (set_deps (nd_deps node ++ [dep]) node).

(** [calloc] of a program that is then filled. *)
Definition new_program (prog : loaded_program) : ld ptr := fun st =>
  (MkProcessStore (<[ps_next st := MkNode prog [] 0 0 None None]> (ps_nodes st)) (Pos.succ (ps_next st)), Ok (ps_next st)).

(** ** Names *)

Definition process_dependency_path_already_loaded (deps : list dependency) (path : list Z) : bool :=
  existsb (fun dep => bool_decide (dp_path dep = path)) deps.

Fixpoint canonical_process_dependency (fuel : nat) (d : dep_ref) : ld dep_ref :=
  match fuel with
  | O => of_outcome Spin
  | S fuel' =>
      dep ← get_dep d;
      match dp_shared_from dep with
      | Some d' => canonical_process_dependency fuel' d'
      | None => mret d
      end
  end.

(** The first that is found. *)
Fixpoint first_found {A B} (f : A -> ld (option B)) (l : list A) : ld (option B) :=
  match l with
  | [] => mret None
  | a :: l' => r ← f a; match r with Some b => mret (Some b) | None => first_found f l' end
  end.

(** The search goes down before it goes on. *)
Fixpoint find_process_dependency_soname (fuel : nat) (p : ptr) (prog_arch : Z) (soname : list Z) : ld (option dep_ref) :=
  match fuel with
  | O => of_outcome Spin
  | S fuel' =>
      if bool_decide (soname = []) then mret None
      else
        node ← get_node p;
        first_found (fun d =>
          canonical ← canonical_process_dependency fuel' d;
          dep ← get_dep canonical;
          match dp_program dep with
          | None => mret None
          | Some q =>
              found ← get_node q;
              if (lp_arch (nd_program found) =? prog_arch) && negb (bool_decide (lp_soname (nd_program found) = [])) &&
                 bool_decide (lp_soname (nd_program found) = soname)
              then mret (Some canonical)
              else find_process_dependency_soname fuel' q prog_arch soname
          end) ((fun i => (p, i)) <$> seq 0 (length (nd_deps node)))
  end.

(** ** The dynamic section *)

Record search_names : Type := MkSearch {
  sr_strtab : Z;
  sr_strsz : Z;
  sr_runpath : Z;
  sr_rpath : Z;
}.

Definition search_entry (tag value : Z) (t : search_names) : search_names :=
  let '(MkSearch strtab strsz runpath rpath) := t in
  if tag =? DT_STRTAB then MkSearch value strsz runpath rpath
  else if tag =? DT_STRSZ then MkSearch strtab value runpath rpath
  else if tag =? DT_RUNPATH then MkSearch strtab strsz value rpath
  else if tag =? DT_RPATH then MkSearch strtab strsz runpath value
  else t.

(** A string of the table by its offset. *)
Definition named_string (code : image) (strtab_offset strsz offset : Z) : outcome (list Z) :=
  if offset >=? strsz then Err else table_string code strtab_offset strsz offset.

(** The run path, or the older DT_RPATH; empty without either. *)
Definition search_path (code : image) (strtab_offset : Z) (t : search_names) : outcome (list Z) :=
  let offset := if negb (sr_runpath t =? UINT64_MAX) then sr_runpath t else sr_rpath t in
  if offset =? UINT64_MAX then Ok [] else named_string code strtab_offset (sr_strsz t) offset.

(** The offsets of the needed names, in order. *)
Definition needed_entry (tag value : Z) (l : list Z) : list Z := if tag =? DT_NEEDED then l ++ [value] else l.

(** ** Loading *)

Section Loading.
Context (files : list Z -> option image) (calloc_fails : Z -> bool) (program_calloc_fails : ptr -> bool).
Context (getenv : list Z -> option (list Z)) (accessible : list Z -> bool) (fuel : nat).

(** The library at a path becomes the next dependency. *)
Definition load_dependency (p : ptr) (path : list Z) : ld ptr := fun st =>
  if program_calloc_fails (ps_next st) then (st, Err)
  else (prog ← of_outcome (load_elf_program files calloc_fails path []);
        q ← new_program prog;
        push_dep p (MkDependency path (Some q) None None 0 None);; mret q) st.

(** A library that is already there, if the name is not a path. *)
Definition shared_dependency (root : ptr) (prog_arch : Z) (needed : list Z) : ld (option dep_ref) :=
  if bool_decide (SLASH ∈ needed) then mret None else find_process_dependency_soname fuel root prog_arch needed.

Definition add_shared (p : ptr) (d : dep_ref) : ld unit :=
  shared ← get_dep d;
  if Z.of_nat (length (dp_path shared)) >=? MAX_DEP_PATH then fails
  else push_dep p (MkDependency (dp_path shared) (dp_program shared) (Some d) None 0 None).

(** One needed name; [load_next] loads what the new library needs. *)
Definition load_needed (load_next : ptr -> ld unit) (p root : ptr) (prog : loaded_program) (runpath needed : list Z) : ld unit :=
  node ← get_node p;
  if (MAX_PROCESS_DEPS <=? length (nd_deps node))%nat then fails
  else
    shared ← shared_dependency root (lp_arch prog) needed;
    match shared with
    | Some d => add_shared p d
    | None =>
        match find_process_needed_path getenv accessible (lp_path prog) needed
                (process_platform_name_for_arch (lp_arch prog)) runpath MAX_DEP_PATH with
        | None => fails
        | Some path => q ← load_dependency p path; load_next q
        end
    end.

(** The needed names in order, each read from the string table in its turn. *)
Fixpoint load_all_needed (load_next : ptr -> ld unit) (p root : ptr) (prog : loaded_program) (runpath : list Z)
    (string_at : Z -> outcome (list Z)) (offsets : list Z) : ld unit :=
  match offsets with
  | [] => mret tt
  | offset :: offsets' =>
      needed ← of_outcome (string_at offset);
      load_needed load_next p root prog runpath needed;;
      load_all_needed load_next p root prog runpath string_at offsets'
  end.

(** [left] is what the depth may still grow by: [MAX_PROCESS_DEP_DEPTH - depth]. *)
Fixpoint load_process_dependencies_at_depth (left : nat) (p root : ptr) : ld unit :=
  node ← get_node p;
  let prog := nd_program node in
  let header := lp_header prog in
  let code := lp_code_bytes prog in
  if dynamic_size header =? 0 then mret tt
  else
    match left with
    | O => fails
    | S left' =>
        t ← of_outcome (dyn_loop (dyn_count header) 0 header code search_entry (MkSearch 0 0 UINT64_MAX UINT64_MAX));
        if (sr_strtab t =? 0) || (sr_strsz t =? 0) then mret tt
        else
          strtab_offset ← of_outcome (elf_vaddr_to_image_offset header (sr_strtab t) (sr_strsz t));
          runpath ← of_outcome (search_path code strtab_offset t);
          offsets ← of_outcome (dyn_loop (dyn_count header) 0 header code needed_entry []);
          load_all_needed (fun q => load_process_dependencies_at_depth left' q root) p root prog runpath
            (named_string code strtab_offset (sr_strsz t)) offsets
    end.

(** The preloaded libraries. *)
Fixpoint load_preloads (p : ptr) (tokens : list (list Z)) : ld unit :=
  match tokens with
  | [] => mret tt
  | token :: tokens' =>
      node ← get_node p;
      let prog := nd_program node in
      match build_process_preload_path getenv accessible (lp_path prog) (lp_arch prog) token MAX_DEP_PATH with
      | None => fails
      | Some path =>
          if process_dependency_path_already_loaded (nd_deps node) path then load_preloads p tokens'
          else if (MAX_PROCESS_DEPS <=? length (nd_deps node))%nat then fails
          else if Z.of_nat (length path) >=? MAX_DEP_PATH then fails
          else
            q ← load_dependency p path;
            load_process_dependencies_at_depth (MAX_PROCESS_DEP_DEPTH - 1) q p;;
            load_preloads p tokens'
      end
  end.

Definition load_process_dependencies (p : ptr) : ld unit :=
  load_preloads p (preload_tokens getenv);;
  load_process_dependencies_at_depth MAX_PROCESS_DEP_DEPTH p p.
End Loading.
