(* ===== verification/DependencyTree.v ===== *)
(** The tree that loading builds: every dependency of its own is a program
    loaded from its path, with a pointer above its owner's; a shared one refers to
    such a dependency; and each needed name is met by the dependency in its place. *)

From stdpp Require Import gmap.
From S2P Require Import Prelude LoaderBase BridgeSpec ElfImage ElfLoad LibraryPath ElfDeps DependencyLoad.

(** ** Computations that leave the store alone *)

Definition dep_at (st : process) (d : dep_ref) : option dependency :=
  node ← ps_nodes st !! d.1; nd_deps node !! d.2.
Definition prog_at (st : process) (p : ptr) : option loaded_program := nd_program <$> ps_nodes st !! p.

Lemma get_node_inv (p : ptr) (st st' : process) (node : program_node) :
  get_node p st = (st', Ok node) -> st' = st /\ ps_nodes st !! p = Some node.
Proof. unfold get_node. destruct (ps_nodes st !! p); intros [= <-]; by simplify_eq. Qed.

Lemma get_dep_inv (d : dep_ref) (st st' : process) (dep : dependency) :
  get_dep d st = (st', Ok dep) -> st' = st /\ dep_at st d = Some dep.
Proof.
  unfold get_dep, dep_at. destruct (ps_nodes st !! d.1) as [node|]; cbn; [|by intros [= <-]].
  destruct (nd_deps node !! d.2); intros [= <-]; by simplify_eq.
Qed.

(** A bind that succeeds, and any bind. *)
Lemma ld_bind_ok {A B} (m : ld A) (f : A -> ld B) (st st' : process) (b : B) :
  (m ≫= f) st = (st', Ok b) -> exists a st1, m st = (st1, Ok a) /\ f a st1 = (st', Ok b).
Proof. unfold mbind, ld_bind. destruct (m st) as [st1 [a| | |]]; intros H; try done. by exists a, st1. Qed.

Lemma ld_bind_run {A B} (m : ld A) (f : A -> ld B) (st st1 : process) (a : A) :
  m st = (st1, Ok a) -> (m ≫= f) st = f a st1.
Proof. intros H. unfold mbind, ld_bind. by rewrite H. Qed.
Lemma ld_bind_spin {A B} (m : ld A) (f : A -> ld B) (st st1 : process) : m st = (st1, Spin) -> (m ≫= f) st = (st1, Spin).
Proof. intros H. unfold mbind, ld_bind. by rewrite H. Qed.

Definition keeps {A} (m : ld A) : Prop := forall st, (m st).1 = st.

Lemma keeps_bind {A B} (m : ld A) (f : A -> ld B) : keeps m -> (forall a, keeps (f a)) -> keeps (m ≫= f).
Proof.
  intros Hm Hf st. specialize (Hm st). unfold mbind, ld_bind. destruct (m st) as [st1 [a| | |]]; cbn in *; subst; try done.
  apply Hf.
Qed.

Lemma keeps_outcome {A} (m : outcome A) : keeps (of_outcome m). Proof. done. Qed.
Lemma keeps_ret {A} (a : A) : keeps (mret a). Proof. done. Qed.
Lemma keeps_node (p : ptr) : keeps (get_node p). Proof. done. Qed.
Lemma keeps_dep (d : dep_ref) : keeps (get_dep d). Proof. done. Qed.

Lemma keeps_canonical (fuel : nat) : forall d, keeps (canonical_process_dependency fuel d).
Proof.
  induction fuel as [|fuel IH]; intros d; cbn [canonical_process_dependency]; [apply keeps_outcome|].
  apply keeps_bind; [apply keeps_dep|]. intros dep. destruct (dp_shared_from dep); [apply IH|apply keeps_ret].
Qed.

Lemma keeps_first {A B} (f : A -> ld (option B)) (l : list A) : (forall a, keeps (f a)) -> keeps (first_found f l).
Proof.
  intros Hf. induction l as [|a l IH]; cbn [first_found]; [apply keeps_ret|]. apply keeps_bind; [apply Hf|].
  intros [b|]; [apply keeps_ret|apply IH].
Qed.

Lemma keeps_soname (fuel : nat) : forall p a s, keeps (find_process_dependency_soname fuel p a s).
Proof.
  induction fuel as [|fuel IH]; intros p a s; cbn [find_process_dependency_soname]; [apply keeps_outcome|].
  destruct (bool_decide _); [apply keeps_ret|]. apply keeps_bind; [apply keeps_node|]. intros node.
  apply keeps_first. intros d.
  apply keeps_bind; [apply keeps_canonical|]. intros c. apply keeps_bind; [apply keeps_dep|]. intros dep.
  destruct (dp_program dep) as [q|]; [|apply keeps_ret]. apply keeps_bind; [apply keeps_node|]. intros found.
  destruct (_ && _); [apply keeps_ret|apply IH].
Qed.

Lemma first_found_ok {A B} (f : A -> ld (option B)) (l : list A) (st st' : process) (b : B) :
  (forall a, keeps (f a)) -> first_found f l st = (st', Ok (Some b)) -> exists a, f a st = (st', Ok (Some b)).
Proof.
  intros Hf. revert st. induction l as [|a l IH]; intros st; cbn [first_found]; [done|].
  intros (r & st1 & H1 & H2)%ld_bind_ok. pose proof (Hf a st) as K. rewrite H1 in K. cbn in K. subst st1.
  destruct r as [b'|]; [injection H2 as <- <-; by exists a|by apply IH].
Qed.

(** What the search by name finds. *)
Definition soname_match (st : process) (prog_arch : Z) (soname : list Z) (d : dep_ref) : Prop :=
  exists dep q prog, dep_at st d = Some dep /\ dp_shared_from dep = None /\ dp_program dep = Some q /\
    prog_at st q = Some prog /\ lp_arch prog = prog_arch /\ lp_soname prog = soname.

Lemma canonical_found (fuel : nat) (st st' : process) : forall d c,
  canonical_process_dependency fuel d st = (st', Ok c) ->
  st' = st /\ exists dep, dep_at st c = Some dep /\ dp_shared_from dep = None.
Proof.
  induction fuel as [|fuel IH]; intros d c; cbn [canonical_process_dependency]; [done|].
  intros (dep & st1 & H1 & H2)%ld_bind_ok. apply get_dep_inv in H1 as [-> Hd].
  destruct (dp_shared_from dep) as [d'|] eqn:E; [by apply IH in H2|].
  injection H2 as <- <-. split; [done|]. by exists dep.
Qed.

Lemma soname_found (fuel : nat) (st : process) (a : Z) (s : list Z) (d : dep_ref) : forall p st',
  find_process_dependency_soname fuel p a s st = (st', Ok (Some d)) -> soname_match st a s d.
Proof.
  induction fuel as [|fuel IH]; intros p st'; cbn [find_process_dependency_soname]; [done|].
  destruct (bool_decide _); [done|]. intros (node & st1 & H1 & H2)%ld_bind_ok. apply get_node_inv in H1 as [-> _].
  apply first_found_ok in H2 as [d0 H2].
  - apply ld_bind_ok in H2 as (c & st1 & (-> & dep & Hc & Hs)%canonical_found & H2).
    apply ld_bind_ok in H2 as (dep' & st1 & (-> & Hd)%get_dep_inv & H2). simplify_eq.
    destruct (dp_program dep) as [q|] eqn:Hq; [|done].
    apply ld_bind_ok in H2 as (found & st1 & (-> & Hf)%get_node_inv & H2).
    destruct (_ && _) eqn:G; [|by eapply IH]. injection H2 as _ <-. apply andb_true_iff in G as [[G1 _]%andb_true_iff G3].
    exists dep, q, (nd_program found). unfold prog_at. rewrite Hf. apply Z.eqb_eq in G1. apply bool_decide_eq_true_1 in G3.
    by split_and!.
  - intros d'. apply keeps_bind; [apply keeps_canonical|]. intros c. apply keeps_bind; [apply keeps_dep|]. intros dep.
    destruct (dp_program dep) as [q|]; [|apply keeps_ret]. apply keeps_bind; [apply keeps_node|]. intros found.
    destruct (_ && _); [apply keeps_ret|apply keeps_soname].
Qed.

(** ** The tree *)

Section Tree.
Context (files : list Z -> option image) (calloc_fails : Z -> bool) (program_calloc_fails : ptr -> bool).
Context (getenv : list Z -> option (list Z)) (accessible : list Z -> bool) (fuel : nat).

(** A dependency of its own: a program from its path. *)
Definition own_dep (st : process) (p : ptr) (dep : dependency) : Prop :=
  exists q prog, dp_program dep = Some q /\ (p < q)%positive /\ prog_at st q = Some prog /\
    load_elf_program files calloc_fails (dp_path dep) [] = Ok prog.

(** A shared dependency: the program of another, for the same architecture. *)
Definition shared_dep (st : process) (p : ptr) (dep : dependency) (d : dep_ref) : Prop :=
  exists prog, prog_at st p = Some prog /\ exists dep' q prog', dep_at st d = Some dep' /\ dp_shared_from dep' = None /\
    dp_path dep = dp_path dep' /\ dp_program dep = dp_program dep' /\ dp_program dep = Some q /\
    prog_at st q = Some prog' /\ lp_arch prog' = lp_arch prog.

Record tree_wf (st : process) : Prop := {
  tw_below : forall (p : ptr) node, ps_nodes st !! p = Some node -> (p < ps_next st)%positive;
  tw_count : forall (p : ptr) node, ps_nodes st !! p = Some node -> (length (nd_deps node) <= MAX_PROCESS_DEPS)%nat;
  tw_dep : forall p i dep, dep_at st (p, i) = Some dep ->
    match dp_shared_from dep with None => own_dep st p dep | Some d => shared_dep st p dep d end;
  tw_once : forall d1 d2 dep1 dep2, dep_at st d1 = Some dep1 -> dep_at st d2 = Some dep2 ->
    dp_shared_from dep1 = None -> dp_shared_from dep2 = None -> dp_program dep1 = dp_program dep2 -> d1 = d2;
}.

(** The store has grown: [p] has new dependencies at the end, other programs are as
    they were, and the new ones are above. *)
Record grown (p : ptr) (st st' : process) (new : list dependency) : Prop := {
  gr_next : (ps_next st <= ps_next st')%positive;
  gr_old : forall q : ptr, (q < ps_next st)%positive -> q <> p -> ps_nodes st' !! q = ps_nodes st !! q;
  gr_node : ps_nodes st' !! p = (fun node => set_deps (nd_deps node ++ new) node) <$> ps_nodes st !! p;
  gr_wf : tree_wf st';
}.

Lemma set_deps_same (node : program_node) : set_deps (nd_deps node ++ []) node = node.
Proof using. destruct node. unfold set_deps. cbn. by rewrite app_nil_r. Qed.

Lemma grown_refl (p : ptr) (st : process) : tree_wf st -> grown p st st [].
Proof using.
  intros H. split; try done. destruct (ps_nodes st !! p) as [node|]; cbn; [|done]. by rewrite set_deps_same.
Qed.

Lemma grown_trans (p : ptr) (st st1 st2 : process) (new1 new2 : list dependency) : (p < ps_next st)%positive ->
  grown p st st1 new1 -> grown p st1 st2 new2 -> grown p st st2 (new1 ++ new2).
Proof using.
  intros Hp [N1 O1 D1 W1] [N2 O2 D2 W2]. split; try done; [lia| |].
  - intros q Hq Hne. rewrite O2 by (done || lia). by apply O1.
  - rewrite D2, D1. destruct (ps_nodes st !! p) as [node|]; cbn; [|done]. unfold set_deps. cbn. by rewrite app_assoc.
Qed.

(** A new program may grow further without its owner seeing it. *)
Lemma grown_below (p q : ptr) (st st1 st2 : process) (new new' : list dependency) :
  (p < ps_next st)%positive -> (ps_next st <= q)%positive ->
  grown p st st1 new -> grown q st1 st2 new' -> grown p st st2 new.
Proof using.
  intros Hp Hq [N1 O1 D1 W1] [N2 O2 D2 W2]. split; try done; [lia| |].
  - intros r Hr Hne. rewrite O2 by lia. by apply O1.
  - rewrite O2 by lia. done.
Qed.

Lemma grown_prog (p : ptr) (st st' : process) (new : list dependency) (q : ptr) (prog : loaded_program) :
  tree_wf st -> grown p st st' new -> prog_at st q = Some prog -> prog_at st' q = Some prog.
Proof using.
  intros W [N O D _]. unfold prog_at. destruct (ps_nodes st !! q) as [node|] eqn:E; cbn; [|done]. intros [= <-].
  destruct (decide (q = p)) as [->|Hne].
  - rewrite D, E. done.
  - rewrite O by (done || by eapply tw_below). by rewrite E.
Qed.

Lemma grown_dep (p : ptr) (st st' : process) (new : list dependency) (d : dep_ref) (dep : dependency) :
  tree_wf st -> grown p st st' new -> dep_at st d = Some dep -> dep_at st' d = Some dep.
Proof using.
  intros W [N O D _]. unfold dep_at. destruct (ps_nodes st !! d.1) as [node|] eqn:E; cbn; [|done]. intros Hd.
  destruct (decide (d.1 = p)) as [Heq|Hne].
  - rewrite Heq, D, <- Heq, E. cbn. by apply lookup_app_l_Some.
  - rewrite O by (done || by eapply tw_below). by rewrite E.
Qed.

(** ** One more dependency *)

Definition pushed (st : process) (p : ptr) (node : program_node) (dep : dependency) : process :=
  MkProcessStore (<[p := set_deps (nd_deps node ++ [dep]) node]> (ps_nodes st)) (ps_next st).

Lemma push_dep_eq (st : process) (p : ptr) (node : program_node) (dep : dependency) :
  ps_nodes st !! p = Some node -> push_dep p dep st = (pushed st p node dep, Ok tt).
Proof using. intros H. unfold push_dep, mbind, ld_bind, get_node. by rewrite H. Qed.

Lemma dep_at_pushed (st : process) (p : ptr) (node : program_node) (dep : dependency) (d : dep_ref) (dep' : dependency) :
  ps_nodes st !! p = Some node -> dep_at (pushed st p node dep) d = Some dep' ->
  dep_at st d = Some dep' \/ (d = (p, length (nd_deps node)) /\ dep' = dep).
Proof using.
  intros H. unfold dep_at, pushed. cbn [ps_nodes]. destruct d as [q i]. cbn [fst snd].
  destruct (decide (q = p)) as [->|Hne].
  - rewrite lookup_insert_eq. cbn. rewrite H. cbn. intros [|[Hi Hs]]%lookup_app_Some; [by left|].
    apply list_lookup_singleton_Some in Hs as [Hz ->]. right. split; [|done]. f_equal. lia.
  - rewrite lookup_insert_ne by done. by left.
Qed.

Lemma prog_at_pushed (st : process) (p : ptr) (node : program_node) (dep : dependency) (q : ptr) :
  ps_nodes st !! p = Some node -> prog_at (pushed st p node dep) q = prog_at st q.
Proof using.
  intros H. unfold prog_at, pushed. cbn [ps_nodes]. destruct (decide (q = p)) as [->|Hne].
  - by rewrite lookup_insert_eq, H.
  - by rewrite lookup_insert_ne.
Qed.

(** What holds of a dependency still does when the store grows. *)
Record sub (st st' : process) : Prop := {
  sub_prog : forall (q : ptr) prog, prog_at st q = Some prog -> prog_at st' q = Some prog;
  sub_dep : forall d dep, dep_at st d = Some dep -> dep_at st' d = Some dep;
}.

Definition dep_ok (st : process) (p : ptr) (dep : dependency) : Prop :=
  match dp_shared_from dep with None => own_dep st p dep | Some d => shared_dep st p dep d end.

Lemma dep_ok_sub (st st' : process) (p : ptr) (dep : dependency) : sub st st' -> dep_ok st p dep -> dep_ok st' p dep.
Proof using.
  intros [Hp Hd]. unfold dep_ok. destruct (dp_shared_from dep) as [d|].
  - intros (prog & H1 & dep' & q & prog' & H2 & H3 & H4 & H5 & H6 & H7 & H8). exists prog. split; [by apply Hp|].
    exists dep', q, prog'. split_and!; auto.
  - intros (q & prog & H1 & H2 & H3 & H4). exists q, prog. split_and!; auto.
Qed.

Lemma grown_sub (p : ptr) (st st' : process) (new : list dependency) : tree_wf st -> grown p st st' new -> sub st st'.
Proof using. intros W G. split; intros; [by eapply grown_prog|by eapply grown_dep]. Qed.

Lemma pushed_sub (st : process) (p : ptr) (node : program_node) (dep : dependency) :
  ps_nodes st !! p = Some node -> sub st (pushed st p node dep).
Proof using.
  intros H. split; [intros q prog Hq; by rewrite prog_at_pushed|]. intros [q i] dep'. unfold dep_at, pushed. cbn [ps_nodes fst snd].
  destruct (decide (q = p)) as [->|Hne]; [|by rewrite lookup_insert_ne].
  rewrite lookup_insert_eq, H. cbn. apply lookup_app_l_Some.
Qed.

Lemma pushed_grown (st : process) (p : ptr) (node : program_node) (dep : dependency) :
  tree_wf st -> ps_nodes st !! p = Some node -> (length (nd_deps node) < MAX_PROCESS_DEPS)%nat -> dep_ok st p dep ->
  (dp_shared_from dep = None -> forall d dep', dep_at st d = Some dep' -> dp_shared_from dep' = None ->
     dp_program dep' <> dp_program dep) ->
  grown p st (pushed st p node dep) [dep].
Proof using.
  intros W H Hn Hok Hnew. pose proof (pushed_sub st p node dep H) as Hsub. split; [done| | |split].
  - intros q _ Hne. unfold pushed. cbn [ps_nodes]. by rewrite lookup_insert_ne.
  - unfold pushed. cbn [ps_nodes]. by rewrite lookup_insert_eq, H.
  - intros q node'. unfold pushed. cbn [ps_nodes ps_next]. intros [[<- _]|[_ H']]%lookup_insert_Some; by eapply tw_below.
  - intros q node'. unfold pushed. cbn [ps_nodes]. intros [[<- <-]|[_ H']]%lookup_insert_Some; [|by eapply tw_count].
    cbn [nd_deps set_deps]. rewrite length_app. cbn. lia.
  - intros q i dep' Hd. apply (dep_at_pushed _ _ _ _ _ _ H) in Hd as [Hd|[Heq ->]].
    + apply (dep_ok_sub _ _ _ _ Hsub). by eapply tw_dep.
    + injection Heq as -> ->. by apply (dep_ok_sub _ _ _ _ Hsub).
  - intros d1 d2 dep1 dep2 H1 H2 S1 S2 Hp. apply (dep_at_pushed _ _ _ _ _ _ H) in H1, H2.
    destruct H1 as [H1|[-> ->]], H2 as [H2|[-> ->]]; [by eapply tw_once| | |done].
    + by destruct (Hnew S2 d1 dep1 H1 S1).
    + by destruct (Hnew S1 d2 dep2 H2 S2).
Qed.

(** ** A new program *)

Definition allocated (st : process) (prog : loaded_program) : process :=
  MkProcessStore (<[ps_next st := MkNode prog [] 0 0 None None]> (ps_nodes st)) (Pos.succ (ps_next st)).

Lemma next_free (st : process) : tree_wf st -> ps_nodes st !! ps_next st = None.
Proof using. intros W. apply eq_None_not_Some. intros [node H]. pose proof (tw_below _ W _ _ H). lia. Qed.

Lemma dep_at_allocated (st : process) (prog : loaded_program) (d : dep_ref) : tree_wf st ->
  dep_at (allocated st prog) d = dep_at st d.
Proof using.
  intros W. unfold dep_at, allocated. cbn [ps_nodes]. destruct (decide (d.1 = ps_next st)) as [->|Hne].
  - by rewrite lookup_insert_eq, next_free.
  - by rewrite lookup_insert_ne.
Qed.

Lemma allocated_sub (st : process) (prog : loaded_program) : tree_wf st -> sub st (allocated st prog).
Proof using.
  intros W. split; [|intros d dep; by rewrite dep_at_allocated]. intros q prog'. unfold prog_at, allocated. cbn [ps_nodes].
  destruct (decide (q = ps_next st)) as [->|Hne]; [by rewrite next_free|by rewrite lookup_insert_ne].
Qed.

Lemma allocated_wf (st : process) (prog : loaded_program) : tree_wf st -> tree_wf (allocated st prog).
Proof using.
  intros W. split.
  - intros q node. unfold allocated. cbn [ps_nodes ps_next]. intros [[<- _]|[_ H]]%lookup_insert_Some; [lia|].
    pose proof (tw_below _ W _ _ H). lia.
  - intros q node. unfold allocated. cbn [ps_nodes]. intros [[_ <-]|[_ H]]%lookup_insert_Some; [cbn; lia|by eapply tw_count].
  - intros q i dep Hd. rewrite dep_at_allocated in Hd by done. apply (dep_ok_sub st); [by apply allocated_sub|]. by eapply tw_dep.
  - intros d1 d2 dep1 dep2. rewrite !dep_at_allocated by done. by eapply tw_once.
Qed.

Lemma load_dependency_grown (st : process) (p : ptr) (path : list Z) (node : program_node) : tree_wf st ->
  ps_nodes st !! p = Some node -> (length (nd_deps node) < MAX_PROCESS_DEPS)%nat ->
  match load_dependency files calloc_fails program_calloc_fails p path st with
  | (st', Ok q) => q = ps_next st /\ ps_next st' = Pos.succ q /\ grown p st st' [MkDependency path (Some q) None None 0 None] /\
      exists prog, ps_nodes st' !! q = Some (MkNode prog [] 0 0 None None)
  | (st', _) => st' = st
  end.
Proof using.
  intros W H Hn. unfold load_dependency. destruct (program_calloc_fails _); [done|].
  unfold mbind at 1, ld_bind, of_outcome. destruct (load_elf_program files calloc_fails path []) as [prog| | |] eqn:L; try done.
  unfold mbind, ld_bind, new_program. fold (allocated st prog).
  pose proof (allocated_wf st prog W) as W1. pose proof (tw_below _ W _ _ H) as Hlt.
  assert (ps_nodes (allocated st prog) !! p = Some node) as H1
    by (unfold allocated; cbn [ps_nodes]; rewrite lookup_insert_ne by lia; done).
  rewrite (push_dep_eq _ _ _ _ H1). cbn.
  assert (forall d dep, dep_at st d = Some dep -> dp_shared_from dep = None -> dp_program dep <> Some (ps_next st)) as Hnew.
  { intros [q i] dep Hd Hs Hq. pose proof (tw_dep _ W _ _ _ Hd) as Ho. rewrite Hs in Ho.
    destruct Ho as (q' & prog' & Hq' & _ & Hp' & _). rewrite Hq in Hq'. injection Hq' as <-.
    unfold prog_at in Hp'. by rewrite next_free in Hp'. }
  edestruct (pushed_grown (allocated st prog) p node (MkDependency path (Some (ps_next st)) None None 0 None)) as [G1 G2 G3 G4];
    [done..| |intros _ d dep; rewrite dep_at_allocated by done; apply Hnew|].
  { exists (ps_next st), prog. split_and!; try done. unfold prog_at, allocated. cbn [ps_nodes]. by rewrite lookup_insert_eq. }
  split_and!; try done.
  - split; try done; [cbn; lia| |].
    + intros q Hq Hne. rewrite G2 by (cbn; lia || done). unfold allocated. cbn [ps_nodes]. by rewrite lookup_insert_ne by lia.
    + rewrite G3, H1, H. done.
  - exists prog. unfold pushed, allocated. cbn [ps_nodes]. rewrite lookup_insert_ne by lia. by rewrite lookup_insert_eq.
Qed.

(** ** Needs *)

(** The search path and the names that a program needs, in order. *)
Definition needed_of (prog : loaded_program) : outcome (list Z * list (list Z)) :=
  let header := lp_header prog in
  let code := lp_code_bytes prog in
  if dynamic_size header =? 0 then Ok ([], [])
  else
    t ← dyn_loop (dyn_count header) 0 header code search_entry (MkSearch 0 0 UINT64_MAX UINT64_MAX);
    if (sr_strtab t =? 0) || (sr_strsz t =? 0) then Ok ([], [])
    else
      strtab_offset ← elf_vaddr_to_image_offset header (sr_strtab t) (sr_strsz t);
      runpath ← search_path code strtab_offset t;
      offsets ← dyn_loop (dyn_count header) 0 header code needed_entry [];
      names ← mapM (named_string code strtab_offset (sr_strsz t)) offsets;
      Ok (runpath, names).

(** The dependency that meets a needed name: a library with that name, or the file
    that the search finds. *)
Definition provides (st : process) (prog : loaded_program) (runpath needed : list Z) (dep : dependency) : Prop :=
  match dp_shared_from dep with
  | Some d => (SLASH ∉ needed) /\ soname_match st (lp_arch prog) needed d
  | None => find_process_needed_path getenv accessible (lp_path prog) needed
              (process_platform_name_for_arch (lp_arch prog)) runpath MAX_DEP_PATH = Some (dp_path dep)
  end.

Definition needs_met (st : process) (prog : loaded_program) (deps : list dependency) : Prop :=
  exists runpath names, needed_of prog = Ok (runpath, names) /\ Forall2 (provides st prog runpath) names deps.

(** The programs from a pointer on have what they need. *)
Definition met_above (bound : ptr) (st : process) : Prop :=
  forall (q : ptr) node, (bound <= q)%positive -> ps_nodes st !! q = Some node -> needs_met st (nd_program node) (nd_deps node).

Lemma provides_sub (st st' : process) (prog : loaded_program) (runpath needed : list Z) (dep : dependency) :
  sub st st' -> provides st prog runpath needed dep -> provides st' prog runpath needed dep.
Proof using.
  intros [Hp Hd]. unfold provides. destruct (dp_shared_from dep); [|done]. intros [H1 (dep' & q & prog' & H)].
  split; [done|]. exists dep', q, prog'.
  destruct H as (H2 & H3 & H4 & H5 & H6 & H7). split_and!; auto.
Qed.

Lemma needs_met_sub (st st' : process) (prog : loaded_program) (deps : list dependency) :
  sub st st' -> needs_met st prog deps -> needs_met st' prog deps.
Proof using.
  intros Hs (rp & names & H1 & H2). exists rp, names. split; [done|]. eapply Forall2_impl; [done|].
  intros ? ?. by apply provides_sub.
Qed.

Lemma met_above_grown (p : ptr) (bound : ptr) (st st' : process) (new : list dependency) :
  tree_wf st -> grown p st st' new -> (p < bound)%positive ->
  met_above bound st -> met_above (ps_next st) st' -> met_above bound st'.
Proof using.
  intros W G Hp Hm Hm' q node Hq Hn. destruct (decide (ps_next st <= q)%positive) as [|Hlt]; [by eapply Hm'|].
  eapply needs_met_sub; [by eapply grown_sub|]. eapply Hm; [done|].
  rewrite <- (gr_old _ _ _ _ G) by lia. done.
Qed.

(** What loading the needs of [p] does. *)
Definition loads_needs (p : ptr) (m : ld unit) : Prop :=
  forall st node, tree_wf st -> ps_nodes st !! p = Some node ->
  match m st with
  | (st', r) => exists new, grown p st st' new /\
      (r = Ok tt -> needs_met st' (nd_program node) new /\ met_above (ps_next st) st')
  end.

Lemma met_above_next (st : process) : tree_wf st -> met_above (ps_next st) st.
Proof using. intros W q node Hq Hn. pose proof (tw_below _ W _ _ Hn). lia. Qed.

Lemma get_node_bind {A} (p : ptr) (f : program_node -> ld A) (st : process) (node : program_node) :
  ps_nodes st !! p = Some node -> (get_node p ≫= f) st = f node st.
Proof using. intros H. unfold mbind, ld_bind, get_node. by rewrite H. Qed.

Lemma get_dep_bind {A} (d : dep_ref) (f : dependency -> ld A) (st : process) (dep : dependency) :
  dep_at st d = Some dep -> (get_dep d ≫= f) st = f dep st.
Proof using.
  unfold dep_at, mbind, ld_bind, get_dep, option_bind. destruct (ps_nodes st !! d.1) as [node|]; [|done]. intros H. by rewrite H.
Qed.

Definition provided (p : ptr) (st : process) (prog : loaded_program) (runpath needed : list Z) (r : process * outcome unit) : Prop :=
  exists new, grown p st r.1 new /\
    (r.2 = Ok tt -> (exists dep, new = [dep] /\ provides r.1 prog runpath needed dep) /\ met_above (ps_next st) r.1).

Lemma provided_fails (p : ptr) (st : process) (prog : loaded_program) (runpath needed : list Z) (r : outcome unit) :
  tree_wf st -> r <> Ok tt -> provided p st prog runpath needed (st, r).
Proof using. intros W Hr. exists []. split; [by apply grown_refl|done]. Qed.

Lemma add_shared_provides (p : ptr) (st : process) (node : program_node) (runpath needed : list Z) (d : dep_ref) :
  tree_wf st -> ps_nodes st !! p = Some node -> (length (nd_deps node) < MAX_PROCESS_DEPS)%nat -> SLASH ∉ needed ->
  soname_match st (lp_arch (nd_program node)) needed d ->
  provided p st (nd_program node) runpath needed (add_shared p d st).
Proof using.
  intros W H Hn Hs Hm. pose proof Hm as (dep & q & prog & H1 & H2 & H3 & H4 & H5 & H6). unfold add_shared.
  rewrite (get_dep_bind _ _ _ _ H1). destruct (_ >=? _); [by apply provided_fails|].
  rewrite (push_dep_eq _ _ node) by done.
  edestruct (pushed_grown st p node (MkDependency (dp_path dep) (dp_program dep) (Some d) None 0 None)) as [G1 G2 G3 G4];
    [done..| |done|].
  { exists (nd_program node). split; [by unfold prog_at; rewrite H|]. exists dep, q, prog. by split_and!. }
  eexists. split; [by split|]. intros _. cbn [fst snd]. split; [|exact (met_above_next _ G4)].
  eexists. split; [done|]. split; [done|]. cbn.
  pose proof (pushed_sub st p node (MkDependency (dp_path dep) (dp_program dep) (Some d) None 0 None) H) as [S1 S2].
  exists dep, q, prog. split_and!; auto.
Qed.

(** A new program with what it needs. *)
Lemma child_met (st st1 st2 : process) (prog : loaded_program) (new : list dependency) :
  ps_next st1 = Pos.succ (ps_next st) -> ps_nodes st1 !! ps_next st = Some (MkNode prog [] 0 0 None None) ->
  grown (ps_next st) st1 st2 new -> needs_met st2 prog new -> met_above (ps_next st1) st2 -> met_above (ps_next st) st2.
Proof using.
  intros Hnext Hnode G Hm Ha q node Hle Hq. destruct (decide (q = ps_next st)) as [->|Hne].
  - rewrite (gr_node _ _ _ _ G), Hnode in Hq. by injection Hq as <-.
  - apply Ha with q; [lia|done].
Qed.

(** One needed name. *)
Lemma load_needed_provides (load_next : ptr -> ld unit) (p root : ptr) (runpath needed : list Z) (st : process)
    (node : program_node) :
  (forall q, loads_needs q (load_next q)) -> tree_wf st -> ps_nodes st !! p = Some node ->
  provided p st (nd_program node) runpath needed
    (load_needed files calloc_fails program_calloc_fails getenv accessible fuel load_next p root (nd_program node)
       runpath needed st).
Proof using.
  intros Hnext W H. pose proof (tw_below _ W _ _ H) as Hlt. unfold load_needed. rewrite (get_node_bind _ _ _ _ H).
  destruct (Nat.leb_spec MAX_PROCESS_DEPS (length (nd_deps node))) as [|Hn]; [by apply provided_fails|].
  unfold mbind, ld_bind. destruct (shared_dependency fuel root _ needed st) as [st1 r] eqn:Es.
  assert (st1 = st /\ forall d, r = Ok (Some d) -> (SLASH ∉ needed) /\ soname_match st (lp_arch (nd_program node)) needed d) as [-> Hd].
  { unfold shared_dependency in Es. case_bool_decide as Hin; [injection Es as <- <-; done|]. split.
    - pose proof (keeps_soname fuel root (lp_arch (nd_program node)) needed st) as K. by rewrite Es in K.
    - intros d ->. split; [done|]. by eapply soname_found. }
  destruct r as [[d|]| | |]; try (by apply provided_fails).
  - destruct (Hd d eq_refl). by apply add_shared_provides.
  - destruct (find_process_needed_path _ _ _ _ _ _ _) as [path|] eqn:Ef; [|by apply provided_fails].
    pose proof (load_dependency_grown st p path node W H Hn) as HL.
    destruct (load_dependency _ _ _ p path st) as [st1 [q| | |]]; subst; try (by apply provided_fails).
    destruct HL as (-> & Hq1 & G & prog & Hnode). pose proof (Hnext (ps_next st) st1 _ (gr_wf _ _ _ _ G) Hnode) as HN.
    destruct (load_next (ps_next st) st1) as [st2 r]. destruct HN as (new & G2 & Hok). eexists. split; [by eapply grown_below|].
    cbn [fst snd]. intros Hr. destruct (Hok Hr) as [Hm Ha]. split; [eexists; by split|by eapply child_met].
Qed.

Lemma load_all_provides (load_next : ptr -> ld unit) (p root : ptr) (runpath : list Z) (string_at : Z -> outcome (list Z)) :
  (forall q, loads_needs q (load_next q)) -> forall offsets st node, tree_wf st -> ps_nodes st !! p = Some node ->
  let r := load_all_needed files calloc_fails program_calloc_fails getenv accessible fuel load_next p root
             (nd_program node) runpath string_at offsets st in
  exists new, grown p st r.1 new /\
    (r.2 = Ok tt -> (exists names, mapM string_at offsets = Ok names /\
                       Forall2 (provides r.1 (nd_program node) runpath) names new) /\ met_above (ps_next st) r.1).
Proof using.
  intros Hnext. induction offsets as [|offset offsets IH]; intros st node W H; cbn [load_all_needed].
  { exists []. split; [by apply grown_refl|]. intros _. split; [by exists []|by apply met_above_next]. }
  unfold mbind, ld_bind, of_outcome. destruct (string_at offset) as [needed| | |] eqn:E;
    try (exists []; split; [by apply grown_refl|done]).
  pose proof (load_needed_provides load_next p root runpath needed st node Hnext W H) as (new & G & Hok).
  destruct (load_needed _ _ _ _ _ _ _ _ _ _ _ _ st) as [st1 r1]. cbn [fst snd] in *.
  destruct r1 as [[]| | |]; try (by exists new). destruct (Hok eq_refl) as [(dep & -> & Hp) Ha].
  pose proof (gr_node _ _ _ _ G) as H1. rewrite H in H1. cbn in H1.
  destruct (IH st1 _ (gr_wf _ _ _ _ G) H1) as (new & G' & Hok'). cbn [nd_program set_deps] in *.
  pose proof (tw_below _ W _ _ H) as Hlt. exists ([dep] ++ new). split; [by eapply grown_trans|]. intros Hr.
  destruct (Hok' Hr) as [(names & Hm & Hf) Ha']. pose proof (grown_sub _ _ _ _ (gr_wf _ _ _ _ G) G') as Hs. split.
  - exists (needed :: names). split; [cbn; by rewrite E, Hm|]. constructor; [by eapply provides_sub|done].
  - by eapply met_above_grown; [|done| | |]; try done; apply G.
Qed.

Definition needs_loaded (p : ptr) (st : process) (prog : loaded_program) (r : process * outcome unit) : Prop :=
  exists new, grown p st r.1 new /\ (r.2 = Ok tt -> needs_met r.1 prog new /\ met_above (ps_next st) r.1).

Lemma needs_loaded_nothing (p : ptr) (st : process) (prog : loaded_program) (r : outcome unit) : tree_wf st ->
  (r = Ok tt -> exists runpath, needed_of prog = Ok (runpath, [])) -> needs_loaded p st prog (st, r).
Proof using.
  intros W Hr. exists []. split; [by apply grown_refl|]. intros E. destruct (Hr E) as [rp Hn].
  split; [by exists rp, []|by apply met_above_next].
Qed.

Lemma at_depth_loads (root : ptr) : forall left p st node, tree_wf st -> ps_nodes st !! p = Some node ->
  needs_loaded p st (nd_program node)
    (load_process_dependencies_at_depth files calloc_fails program_calloc_fails getenv accessible fuel left p root st).
Proof using.
  induction left as [|left IH]; intros p st node W H; cbn [load_process_dependencies_at_depth];
    rewrite (get_node_bind _ _ _ _ H); destruct (dynamic_size (lp_header (nd_program node)) =? 0) eqn:Ed.
  - apply needs_loaded_nothing; [done|]. intros _. unfold needed_of. rewrite Ed. by eexists.
  - by apply needs_loaded_nothing.
  - apply needs_loaded_nothing; [done|]. intros _. unfold needed_of. rewrite Ed. by eexists.
  - unfold mbind, ld_bind, of_outcome. destruct (dyn_loop _ _ _ _ search_entry _) as [t| | |] eqn:Et;
      try (by apply needs_loaded_nothing).
    destruct ((sr_strtab t =? 0) || (sr_strsz t =? 0)) eqn:Ez.
    { apply needs_loaded_nothing; [done|]. intros _. unfold needed_of. rewrite Ed, Et. cbn. rewrite Ez. by eexists. }
    destruct (elf_vaddr_to_image_offset _ _ _) as [strtab_offset| | |] eqn:Ev; try (by apply needs_loaded_nothing).
    destruct (search_path _ _ _) as [runpath| | |] eqn:Er; try (by apply needs_loaded_nothing).
    destruct (dyn_loop _ _ _ _ needed_entry _) as [offsets| | |] eqn:Eo; try (by apply needs_loaded_nothing).
    destruct (load_all_provides (fun q => load_process_dependencies_at_depth files calloc_fails program_calloc_fails getenv
      accessible fuel left q root) p root runpath (named_string (lp_code_bytes (nd_program node)) strtab_offset (sr_strsz t)))
      with (offsets := offsets) (st := st) (node := node) as (new & G & Hok); [|done|done|].
    { intros q st1 node1 W1 H1. pose proof (IH q st1 node1 W1 H1) as HI.
      by destruct (load_process_dependencies_at_depth _ _ _ _ _ _ left q root st1) as [st2 r]. }
    exists new. split; [done|]. intros Hr. destruct (Hok Hr) as [(names & Hm & Hf) Ha]. split; [|done].
    exists runpath, names. split; [|done]. unfold needed_of. rewrite Ed, Et. cbn. rewrite Ez, Ev. cbn. rewrite Er. cbn.
    rewrite Eo. cbn. by rewrite Hm.
Qed.

(** ** Preloaded libraries *)

(** A preloaded library is a file that the search of preloads finds. *)
Definition preloaded (prog : loaded_program) (dep : dependency) : Prop :=
  dp_shared_from dep = None /\ exists token, token ∈ preload_tokens getenv /\
    build_process_preload_path getenv accessible (lp_path prog) (lp_arch prog) token MAX_DEP_PATH = Some (dp_path dep).

Lemma preloads_load (p : ptr) : forall tokens st node, tree_wf st -> ps_nodes st !! p = Some node ->
  tokens ⊆ preload_tokens getenv ->
  let r := load_preloads files calloc_fails program_calloc_fails getenv accessible fuel p tokens st in
  exists new, grown p st r.1 new /\
    (r.2 = Ok tt -> Forall (preloaded (nd_program node)) new /\ met_above (ps_next st) r.1).
Proof using.
  induction tokens as [|token tokens IH]; intros st node W H Hin; cbn [load_preloads].
  { exists []. split; [by apply grown_refl|]. intros _. split; [done|by apply met_above_next]. }
  assert (forall r : outcome unit, r <> Ok tt -> exists new, grown p st st new /\
    (r = Ok tt -> Forall (preloaded (nd_program node)) new /\ met_above (ps_next st) st)) as Hfail.
  { intros r Hr. exists []. split; [by apply grown_refl|done]. }
  rewrite (get_node_bind _ _ _ _ H). destruct (build_process_preload_path _ _ _ _ _ _) as [path|] eqn:Eb; [|by apply Hfail].
  destruct (process_dependency_path_already_loaded _ _); [apply IH; [done..|by intros x Hx; apply Hin; right]|].
  destruct (Nat.leb_spec MAX_PROCESS_DEPS (length (nd_deps node))) as [|Hn]; [by apply Hfail|].
  destruct (_ >=? _); [by apply Hfail|]. pose proof (tw_below _ W _ _ H) as Hlt.
  unfold mbind, ld_bind. pose proof (load_dependency_grown st p path node W H Hn) as HL.
  destruct (load_dependency _ _ _ p path st) as [st1 [q| | |]]; subst; try (by apply Hfail).
  destruct HL as (-> & Hq1 & G & prog & Hnode).
  pose proof (at_depth_loads p (MAX_PROCESS_DEP_DEPTH - 1) (ps_next st) st1 _ (gr_wf _ _ _ _ G) Hnode) as (new & G2 & Hok).
  destruct (load_process_dependencies_at_depth _ _ _ _ _ _ _ _ _ st1) as [st2 r]. cbn [fst snd] in *.
  pose proof (grown_below _ _ _ _ _ _ _ Hlt (Pos.le_refl _) G G2) as G3.
  destruct r as [[]| | |]; try (by exists [MkDependency path (Some (ps_next st)) None None 0 None]).
  destruct (Hok eq_refl) as [Hm Ha]. pose proof (child_met _ _ _ _ _ Hq1 Hnode G2 Hm Ha) as Hm3.
  pose proof (gr_node _ _ _ _ G3) as H3. rewrite H in H3. cbn in H3.
  destruct (IH st2 _ (gr_wf _ _ _ _ G3) H3) as (new' & G' & Hok'); [by intros x Hx; apply Hin; right|]. cbn [nd_program set_deps] in *.
  eexists. split; [by eapply grown_trans|]. intros Hr. destruct (Hok' Hr) as [Hf Ha']. split.
  - constructor; [|done]. split; [done|]. exists token. split; [by apply Hin; left|done].
  - eapply met_above_grown; [|done| | |]; try done. apply G3.
Qed.

(** The store before anything is loaded: the program itself. *)
Definition root_ptr : ptr := 1%positive.

Definition only_program (prog : loaded_program) : process :=
  MkProcessStore {[ root_ptr := MkNode prog [] 0 0 None None ]} 2%positive.

Lemma only_program_wf (prog : loaded_program) : tree_wf (only_program prog).
Proof using.
  assert (forall (q : ptr) node, ps_nodes (only_program prog) !! q = Some node ->
            q = root_ptr /\ node = MkNode prog [] 0 0 None None) as H.
  { intros q node. cbn [ps_nodes only_program]. intros [<- <-]%lookup_singleton_Some. done. }
  assert (forall d dep, dep_at (only_program prog) d = Some dep -> False) as Hd.
  { intros d dep. unfold dep_at. destruct (ps_nodes (only_program prog) !! d.1) as [node|] eqn:E; [|done].
    by apply H in E as [_ ->]. }
  split.
  - intros q node [-> _]%H. unfold root_ptr. cbn. lia.
  - intros q node [_ ->]%H. cbn. unfold MAX_PROCESS_DEPS. lia.
  - intros q i dep []%Hd.
  - intros d1 d2 dep1 dep2 []%Hd.
Qed.

Lemma load_tree_wf (prog : loaded_program) :
  tree_wf (load_process_dependencies files calloc_fails program_calloc_fails getenv accessible fuel root_ptr (only_program prog)).1.
Proof using.
  pose proof (only_program_wf prog) as W. set (st := only_program prog) in *.
  assert (ps_nodes st !! root_ptr = Some (MkNode prog [] 0 0 None None)) as H by apply lookup_singleton_eq.
  unfold load_process_dependencies. destruct (preloads_load root_ptr (preload_tokens getenv) st _ W H) as (pre & G & _); [done|].
  unfold mbind, ld_bind. destruct (load_preloads _ _ _ _ _ _ _ _ st) as [st1 r1]. cbn [fst snd] in *.
  destruct r1 as [[]| | |]; try apply G. pose proof (gr_node _ _ _ _ G) as H1. rewrite H in H1. cbn in H1.
  by destruct (at_depth_loads root_ptr MAX_PROCESS_DEP_DEPTH root_ptr st1 _ (gr_wf _ _ _ _ G) H1) as (new & [] & _).
Qed.

(** C12: Loading the libraries of a program, whether it succeeds or fails, leaves a
    tree: a program has at most eight dependencies; one that is its own is a program
    loaded from its path, above its owner and owned once; a shared one stands for
    such a dependency, of the same architecture.  After success every program but
    the first has exactly one dependency for each name it needs, in order, which
    provides it: a library loaded under that name, or the file that the search for
    the name finds; the first has its preloaded libraries before those. *)
Theorem dependencies_provided (prog : loaded_program) :
  let r := load_process_dependencies files calloc_fails program_calloc_fails getenv accessible fuel root_ptr (only_program prog) in
  tree_wf r.1 /\
  (r.2 = Ok tt ->
     met_above 2%positive r.1 /\
     exists node preloads needs, ps_nodes r.1 !! root_ptr = Some node /\ nd_program node = prog /\
       nd_deps node = preloads ++ needs /\ Forall (preloaded prog) preloads /\ needs_met r.1 prog needs).
Proof using.
  split; [apply load_tree_wf|]. pose proof (only_program_wf prog) as W. set (st := only_program prog) in *.
  assert (ps_nodes st !! root_ptr = Some (MkNode prog [] 0 0 None None)) as H by apply lookup_singleton_eq.
  unfold load_process_dependencies. destruct (preloads_load root_ptr (preload_tokens getenv) st _ W H) as (pre & G & Hok); [done|].
  unfold mbind, ld_bind. destruct (load_preloads _ _ _ _ _ _ _ _ st) as [st1 r1]. cbn [fst snd] in *.
  destruct r1 as [[]| | |]; try done. destruct (Hok eq_refl) as [Hf Ha].
  pose proof (gr_node _ _ _ _ G) as H1. rewrite H in H1. cbn in H1.
  destruct (at_depth_loads root_ptr MAX_PROCESS_DEP_DEPTH root_ptr st1 _ (gr_wf _ _ _ _ G) H1) as (new & G2 & Hok2).
  intros Hr. destruct (Hok2 Hr) as [Hm Ha2]. split.
  - eapply met_above_grown with (st := st1); [apply G|done|unfold root_ptr; lia|done|done].
  - pose proof (gr_node _ _ _ _ G2) as H2. rewrite H1 in H2. cbn in H2. eexists _, pre, new. split; [done|]. cbn. by split_and!.
Qed.

(** ** Cycles *)

(** Programs that have one of their own among their dependencies. *)
Definition on_cycles (st : process) (S : ptr -> Prop) : Prop :=
  forall p, S p -> exists i dep q, dep_at st (p, i) = Some dep /\ dp_program dep = Some q /\ S q.

(** A library that no program of the store is. *)
Definition not_loaded (st : process) (prog_arch : Z) (soname : list Z) : Prop :=
  forall q prog, prog_at st q = Some prog -> lp_arch prog <> prog_arch \/ lp_soname prog <> soname.

(** The end of a chain of sharing has the same program. *)
Lemma canonical_program (st : process) (n : nat) (d : dep_ref) (dep : dependency) : tree_wf st -> dep_at st d = Some dep ->
  canonical_process_dependency n d st = (st, Spin) \/
  exists c dep' q prog, canonical_process_dependency n d st = (st, Ok c) /\ dep_at st c = Some dep' /\
    dp_program dep' = Some q /\ dp_program dep = Some q /\ prog_at st q = Some prog.
Proof using.
  intros W Hd. destruct n as [|n]; [by left|]. destruct d as [p i]. cbn [canonical_process_dependency].
  rewrite (get_dep_bind _ _ _ _ Hd). pose proof (tw_dep _ W _ _ _ Hd) as Ho. destruct (dp_shared_from dep) as [d'|].
  - destruct Ho as (prog & _ & dep' & q & prog' & H1 & H2 & _ & H4 & H5 & H6 & _). destruct n as [|n]; [by left|]. right.
    cbn [canonical_process_dependency]. rewrite (get_dep_bind _ _ _ _ H1), H2. exists d', dep', q, prog'.
    split_and!; try done. by rewrite <- H4.
  - destruct Ho as (q & prog & H1 & _ & H3 & _). right. by exists (p, i), dep, q, prog.
Qed.

Lemma first_found_misses {A B} (f : A -> ld (option B)) (stuck : A -> Prop) (st : process) (l : list A) :
  Forall (fun a => (f a st = (st, Ok None) \/ f a st = (st, Spin)) /\ (stuck a -> f a st = (st, Spin))) l ->
  (first_found f l st = (st, Ok None) \/ first_found f l st = (st, Spin)) /\
  (Exists stuck l -> first_found f l st = (st, Spin)).
Proof using.
  induction 1 as [|a l [Ha Hs] Hl [IH1 IH2]]; cbn [first_found]; [split; [by left|by intros H%Exists_nil]|].
  unfold mbind, ld_bind. split.
  - destruct Ha as [->| ->]; [done|by right].
  - intros [H|H]%Exists_cons; [by rewrite Hs|]. destruct Ha as [->| ->]; [by apply IH2|done].
Qed.

(** A search for a library that is not there finds nothing, and does not end below a cycle. *)
Lemma soname_search_misses (st : process) (a : Z) (s : list Z) (S : ptr -> Prop) : tree_wf st -> s <> [] ->
  not_loaded st a s -> on_cycles st S -> forall n p node, ps_nodes st !! p = Some node ->
  let r := find_process_dependency_soname n p a s st in
  (r = (st, Ok None) \/ r = (st, Spin)) /\ (S p -> r = (st, Spin)).
Proof using.
  intros W Hs Hnot HS. induction n as [|n IH]; intros p node H; cbn zeta; cbn [find_process_dependency_soname].
  { split; [by right|done]. }
  rewrite bool_decide_eq_false_2 by done. rewrite (get_node_bind _ _ _ _ H).
  match goal with |- context [first_found ?f ?l] =>
    destruct (first_found_misses f (fun d => exists dep q, dep_at st d = Some dep /\ dp_program dep = Some q /\ S q) st l) as [H1 H2] end.
  - apply Forall_fmap, Forall_forall. intros i [_ Hi]%elem_of_seq. cbn.
    destruct (nd_deps node !! i) as [dep|] eqn:Ei; [|apply lookup_ge_None in Ei; lia].
    assert (dep_at st (p, i) = Some dep) as Hd by (unfold dep_at; cbn; by rewrite H).
    destruct (canonical_program st n (p, i) dep W Hd) as [Hc|(c & dep' & q & prog & Hc & Hd' & Hq & Hq' & Hp)].
    { rewrite (ld_bind_spin _ _ _ _ Hc). split; [by right|done]. }
    rewrite (ld_bind_run _ _ _ _ _ Hc), (get_dep_bind _ _ _ _ Hd'), Hq. unfold prog_at in Hp.
    destruct (ps_nodes st !! q) as [found|] eqn:Ef; [|done]. injection Hp as <-. rewrite (get_node_bind _ _ _ _ Ef).
    destruct (_ && _) eqn:G.
    + apply andb_true_iff in G as [[G1%Z.eqb_eq _]%andb_true_iff G3%bool_decide_eq_true_1].
      by destruct (Hnot q (nd_program found)); [unfold prog_at; rewrite Ef|..].
    + destruct (IH q found Ef) as [I1 I2]. split; [done|]. intros (dep0 & q0 & Hd0 & Hq0 & HS0). simplify_eq. by apply I2.
  - split; [done|]. intros (i & dep & q & Hd & Hq & HSq)%HS. apply H2. apply Exists_exists. exists (p, i). split; [|by exists dep, q].
    apply list_elem_of_fmap. exists i. split; [done|]. apply elem_of_seq. unfold dep_at in Hd. cbn in Hd. rewrite H in Hd. cbn in Hd.
    apply lookup_lt_Some in Hd. lia.
Qed.

(** C40: While the libraries of a process depend on each other in a circle, looking
    by name for a library that is not loaded yet does not end: it goes around the
    circle without a bound (the code has no depth limit here and recurses until its
    stack is used up). *)
Theorem circular_search_does_not_end (st : process) (a : Z) (s : list Z) (S : ptr -> Prop) (p : ptr) (n : nat) :
  tree_wf st -> s <> [] -> not_loaded st a s -> on_cycles st S -> S p ->
  find_process_dependency_soname n p a s st = (st, Spin).
Proof using.
  intros W Hs Hnot HS Hp. destruct (HS p Hp) as (i & dep & q & Hd & _).
  destruct (ps_nodes st !! p) as [node|] eqn:H; [|unfold dep_at in Hd; cbn in Hd; by rewrite H in Hd].
  by destruct (soname_search_misses st a s S W Hs Hnot HS n p node H) as [_ Hspin]; apply Hspin.
Qed.
End Tree.
