(* ===== verification/Relocation.v ===== *)
(** Relocation of a loaded image ([apply_relative_relocations] of
    [tools/runtime/polyexec.c]): the tables DT_RELA, DT_REL, DT_RELR and the
    procedure linkage table, each entry with what it writes.

    Relocations are read from the image while it is being changed, as in the
    code; a relocation may overwrite a table.  The fields of an entry are read
    where the code reads them. *)

From stdpp Require Import gmap.
From S2P Require Import Prelude LoaderBase BridgeSpec ElfImage ElfSymbols CodeEmit Trampoline CrossStub ElfDeps.

Definition DT_PLTRELSZ : Z := 2.
Definition DT_RELA : Z := 7.
Definition DT_RELASZ : Z := 8.
Definition DT_RELAENT : Z := 9.
Definition DT_REL : Z := 17.
Definition DT_RELSZ : Z := 18.
Definition DT_RELENT : Z := 19.
Definition DT_PLTREL : Z := 20.
Definition DT_JMPREL : Z := 23.
Definition DT_RELRSZ : Z := 35.
Definition DT_RELR : Z := 36.
Definition DT_RELRENT : Z := 37.

Definition R_AARCH64_TLS_DTPMOD64 : Z := 1028.
Definition R_AARCH64_TLS_DTPREL64 : Z := 1029.
Definition R_AARCH64_TLSDESC : Z := 1031.
Definition R_RISCV_TLS_DTPMOD64 : Z := 7.
Definition R_RISCV_TLS_DTPREL64 : Z := 9.
Definition R_X86_64_DTPMOD64 : Z := 16.
Definition R_X86_64_DTPOFF64 : Z := 17.

Definition SIZEOF_RELA : Z := 24.
Definition SIZEOF_REL : Z := 16.

(** ** The tables *)

Record reloc_tables : Type := MkReloc {
  rt_rela : Z; rt_rela_size : Z; rt_rela_ent : Z;
  rt_rel : Z; rt_rel_size : Z; rt_rel_ent : Z;
  rt_relr : Z; rt_relr_size : Z; rt_relr_ent : Z;
  rt_jmprel : Z; rt_pltrel_size : Z; rt_pltrel_type : Z;
  rt_symbols : symbol_tables;
}.

(** One entry of the dynamic section; the tables of symbols as in
    [symbol_table_entry]. *)
Definition reloc_table_entry (tag value : Z) (t : reloc_tables) : reloc_tables :=
  let '(MkReloc a asz aent l lsz lent r rsz rent j psz pty syms) := t in
  if tag =? DT_RELA then MkReloc value asz aent l lsz lent r rsz rent j psz pty syms
  else if tag =? DT_RELASZ then MkReloc a value aent l lsz lent r rsz rent j psz pty syms
  else if tag =? DT_RELAENT then MkReloc a asz value l lsz lent r rsz rent j psz pty syms
  else if tag =? DT_REL then MkReloc a asz aent value lsz lent r rsz rent j psz pty syms
  else if tag =? DT_RELSZ then MkReloc a asz aent l value lent r rsz rent j psz pty syms
  else if tag =? DT_RELENT then MkReloc a asz aent l lsz value r rsz rent j psz pty syms
  else if tag =? DT_RELR then MkReloc a asz aent l lsz lent value rsz rent j psz pty syms
  else if tag =? DT_RELRSZ then MkReloc a asz aent l lsz lent r value rent j psz pty syms
  else if tag =? DT_RELRENT then MkReloc a asz aent l lsz lent r rsz value j psz pty syms
  else if tag =? DT_JMPREL then MkReloc a asz aent l lsz lent r rsz rent value psz pty syms
  else if tag =? DT_PLTRELSZ then MkReloc a asz aent l lsz lent r rsz rent j value pty syms
  else if tag =? DT_PLTREL then MkReloc a asz aent l lsz lent r rsz rent j psz value syms
  else MkReloc a asz aent l lsz lent r rsz rent j psz pty (symbol_table_entry tag value syms).

Definition no_tables : reloc_tables :=
  MkReloc 0 0 SIZEOF_RELA 0 0 SIZEOF_REL 0 0 8 0 0 0 (MkTables 0 0 0 SIZEOF_SYM 0 0).

(** ** Relocation types *)

Definition tlsdesc_type (arch : Z) : Z := if arch =? POLY_ARCH_AARCH64 then R_AARCH64_TLSDESC else UINT32_MAX.
Definition tls_dtpmod_type (arch : Z) : Z :=
  if arch =? POLY_ARCH_AARCH64 then R_AARCH64_TLS_DTPMOD64
  else if arch =? POLY_ARCH_RISCV then R_RISCV_TLS_DTPMOD64
  else if arch =? POLY_ARCH_X86 then R_X86_64_DTPMOD64
  else UINT32_MAX.
Definition tls_dtprel_type (arch : Z) : Z :=
  if arch =? POLY_ARCH_AARCH64 then R_AARCH64_TLS_DTPREL64
  else if arch =? POLY_ARCH_RISCV then R_RISCV_TLS_DTPREL64
  else if arch =? POLY_ARCH_X86 then R_X86_64_DTPOFF64
  else UINT32_MAX.

Definition ELF64_R_SYM (info : Z) : Z := Z.shiftr info 32.
Definition ELF64_R_TYPE (info : Z) : Z := Z.land info 0xffffffff.

Section Relocation.
  Context (programs : ptr -> option process_program).
  Context (call_guest : gmap Z image -> Z -> Z -> gmap Z image * Z).
  Context (env : run_env).
  (** The program, where its image is loaded, and the helpers for its
      architecture. *)
  Context (p : ptr) (prog : process_program) (loaded_image tlsdesc_helper_pc tls_get_addr_helper_pc : Z).

Definition load_bias : Z := u64 (loaded_image - base_vaddr (header prog)).

Definition vaddr_offset (vaddr size : Z) : proc Z := lift (elf_vaddr_to_image_offset (header prog) vaddr size).
Definition read_image_u64 (off : Z) : proc Z := img ← get_image loaded_image; lift (read_u64_le img off).
Definition write_image_u64 (off value : Z) : proc unit := write_image loaded_image off (write_u64_le value).

Definition tls_symbol (t : symbol_tables) (symbol_index : Z) : proc Z :=
  resolve_process_tls_reloc_symbol programs p loaded_image t symbol_index.

Definition run_resolver (resolver_vaddr : Z) : proc Z :=
  run_irelative_resolver call_guest env prog loaded_image resolver_vaddr.

(** The value of a symbol and whether it is an address already: the image's
    own, or one of the dependencies. *)
Definition symbolic_value (t : symbol_tables) (symbol_index : Z) : proc (Z * bool) :=
  img ← get_image loaded_image;
  own ← attempt (lift (resolve_same_image_reloc_symbol (header prog) img (tb_symtab t) (tb_syment t) (tb_hash t)
                         (tb_gnu_hash t) symbol_index));
  match own with
  | Some (value, type) =>
      if type =? STT_GNU_IFUNC then v ← run_resolver value; mret (v, true) else mret (value, false)
  | None =>
      '(v, _) ← resolve_dependency_reloc_symbol programs call_guest env p loaded_image t symbol_index
                  tls_get_addr_helper_pc;
      mret (v, true)
  end.

Definition store_value (target value : Z) (absolute : bool) : proc unit :=
  write_image_u64 target (if absolute then value else u64 (load_bias + value)).

(** ** DT_RELA *)

Definition apply_rela (t : symbol_tables) (off : Z) : proc unit :=
  r_info ← read_image_u64 (off + 8);
  let symbol_index := ELF64_R_SYM r_info in
  let reloc_type := ELF64_R_TYPE r_info in
  let ar := arch prog in
  if reloc_type =? none_reloc_type_for_arch ar then mret tt
  else if negb (symbol_index =? 0) && (reloc_type =? copy_reloc_type_for_arch ar) then
    r_offset ← read_image_u64 off;
    apply_process_copy_relocation programs p loaded_image t symbol_index r_offset
  else
    r_offset ← read_image_u64 off;
    target ← vaddr_offset r_offset 8;
    let r_addend := read_image_u64 (off + 16) in
    if (symbol_index =? 0) && (reloc_type =? relative_reloc_type_for_arch ar) then
      a ← r_addend; store_value target a false
    else if (symbol_index =? 0) && (reloc_type =? irelative_reloc_type_for_arch ar) then
      a ← r_addend; v ← run_resolver a; store_value target v true
    else if negb (symbol_index =? 0) && (reloc_type =? tls_tprel_reloc_type_for_arch ar) then
      v ← tls_symbol t symbol_index; a ← r_addend; store_value target (u64 (v + a)) true
    else if negb (symbol_index =? 0) && (reloc_type =? tlsdesc_type ar) then
      if tlsdesc_helper_pc =? 0 then fail
      else
        target ← vaddr_offset r_offset 16;
        v ← tls_symbol t symbol_index;
        write_image_u64 target tlsdesc_helper_pc;;
        a ← r_addend;
        write_image_u64 (target + 8) (u64 (v + a))
    else if reloc_type =? tls_dtpmod_type ar then
      a ← r_addend; store_value target (u64 (1 + a)) true
    else if negb (symbol_index =? 0) && (reloc_type =? tls_dtprel_type ar) then
      v ← tls_symbol t symbol_index; a ← r_addend; store_value target (u64 (v + a)) true
    else if negb (symbol_index =? 0) && symbolic_64_reloc_type_for_arch ar reloc_type then
      '(v, absolute) ← symbolic_value t symbol_index; a ← r_addend; store_value target (u64 (v + a)) absolute
    else fail.

(** ** DT_REL: the addend is in place *)

Definition apply_rel (t : symbol_tables) (off : Z) : proc unit :=
  r_info ← read_image_u64 (off + 8);
  let symbol_index := ELF64_R_SYM r_info in
  let reloc_type := ELF64_R_TYPE r_info in
  let a := arch prog in
  if reloc_type =? none_reloc_type_for_arch a then mret tt
  else if negb (symbol_index =? 0) && (reloc_type =? copy_reloc_type_for_arch a) then
    r_offset ← read_image_u64 off;
    apply_process_copy_relocation programs p loaded_image t symbol_index r_offset
  else
    r_offset ← read_image_u64 off;
    target ← vaddr_offset r_offset 8;
    reloc_value ← read_image_u64 target;
    if (symbol_index =? 0) && (reloc_type =? relative_reloc_type_for_arch a) then store_value target reloc_value false
    else if (symbol_index =? 0) && (reloc_type =? irelative_reloc_type_for_arch a) then
      v ← run_resolver reloc_value; store_value target v true
    else if negb (symbol_index =? 0) && (reloc_type =? tls_tprel_reloc_type_for_arch a) then
      v ← tls_symbol t symbol_index; store_value target (u64 (reloc_value + v)) true
    else if negb (symbol_index =? 0) && (reloc_type =? tlsdesc_type a) then
      if tlsdesc_helper_pc =? 0 then fail
      else
        target ← vaddr_offset r_offset 16;
        v ← tls_symbol t symbol_index;
        write_image_u64 target tlsdesc_helper_pc;;
        old ← read_image_u64 (target + 8);
        write_image_u64 (target + 8) (u64 (old + v))
    else if reloc_type =? tls_dtpmod_type a then store_value target (u64 (reloc_value + 1)) true
    else if negb (symbol_index =? 0) && (reloc_type =? tls_dtprel_type a) then
      v ← tls_symbol t symbol_index; store_value target (u64 (reloc_value + v)) true
    else if negb (symbol_index =? 0) && symbolic_64_reloc_type_for_arch a reloc_type then
      '(v, absolute) ← symbolic_value t symbol_index; store_value target (u64 (reloc_value + v)) absolute
    else fail.

(** ** The procedure linkage table *)

Definition apply_plt_rela (t : symbol_tables) (off : Z) : proc unit :=
  r_info ← read_image_u64 (off + 8);
  let symbol_index := ELF64_R_SYM r_info in
  let reloc_type := ELF64_R_TYPE r_info in
  let a := arch prog in
  if reloc_type =? none_reloc_type_for_arch a then mret tt
  else if negb (symbol_index =? 0) && (reloc_type =? tlsdesc_type a) then
    if tlsdesc_helper_pc =? 0 then fail
    else
      r_offset ← read_image_u64 off;
      target ← vaddr_offset r_offset 16;
      v ← tls_symbol t symbol_index;
      write_image_u64 target tlsdesc_helper_pc;;
      r_addend ← read_image_u64 (off + 16);
      write_image_u64 (target + 8) (u64 (v + r_addend))
  else if (symbol_index =? 0) || negb (symbolic_64_reloc_type_for_arch a reloc_type) then fail
  else
    '(v, absolute) ← symbolic_value t symbol_index;
    r_offset ← read_image_u64 off;
    target ← vaddr_offset r_offset 8;
    r_addend ← read_image_u64 (off + 16);
    write_image_u64 target (u64 ((if absolute : bool then v else u64 (load_bias + v)) + r_addend)).

Definition apply_plt_rel (t : symbol_tables) (off : Z) : proc unit :=
  r_info ← read_image_u64 (off + 8);
  let symbol_index := ELF64_R_SYM r_info in
  let reloc_type := ELF64_R_TYPE r_info in
  let a := arch prog in
  if reloc_type =? none_reloc_type_for_arch a then mret tt
  else if negb (symbol_index =? 0) && (reloc_type =? tlsdesc_type a) then
    if tlsdesc_helper_pc =? 0 then fail
    else
      r_offset ← read_image_u64 off;
      target ← vaddr_offset r_offset 16;
      v ← tls_symbol t symbol_index;
      write_image_u64 target tlsdesc_helper_pc;;
      old ← read_image_u64 (target + 8);
      write_image_u64 (target + 8) (u64 (old + v))
  else if (symbol_index =? 0) || negb (symbolic_64_reloc_type_for_arch a reloc_type) then fail
  else
    r_offset ← read_image_u64 off;
    target ← vaddr_offset r_offset 8;
    '(v, absolute) ← symbolic_value t symbol_index;
    old ← read_image_u64 target;
    write_image_u64 target (u64 ((if absolute : bool then v else u64 (load_bias + v)) + old)).

(** [for (offset = 0; offset < size; offset += step)] *)
Fixpoint table_loop (fuel : nat) (offset size step : Z) (body : Z -> proc unit) : proc unit :=
  match fuel with
  | O => lift Spin
  | S fuel' =>
      if offset <? size then body offset;; table_loop fuel' (u64 (offset + step)) size step body else mret tt
  end.

Definition for_table (size step : Z) (body : Z -> proc unit) : proc unit :=
  table_loop (S (Z.to_nat (size / step))) 0 size step body.

(** ** DT_RELR: addresses and bit maps of words to rebase *)

Definition rebase (vaddr : Z) : proc unit :=
  target ← vaddr_offset vaddr 8;
  v ← read_image_u64 target;
  write_image_u64 target (u64 (load_bias + v)).

(** [bit], [bit + 1], ... 63 *)
Fixpoint relr_bits (k : nat) (bit entry position : Z) : proc unit :=
  match k with
  | O => mret tt
  | S k' =>
      (if negb (Z.land entry (Z.shiftl 1 bit) =? 0) then rebase (u64 (position + (bit - 1) * 8)) else mret tt);;
      relr_bits k' (bit + 1) entry position
  end.

(** The new value of [where]. *)
Definition relr_entry (entry position : Z) : proc Z :=
  if Z.land entry 1 =? 0 then rebase entry;; mret (u64 (entry + 8))
  else relr_bits 63 1 entry position;; mret (u64 (position + 63 * 8)).

Fixpoint relr_loop (fuel : nat) (relr_offset offset relr_size position : Z) : proc unit :=
  match fuel with
  | O => lift Spin
  | S fuel' =>
      if offset <? relr_size then
        entry ← read_image_u64 (relr_offset + offset);
        position' ← relr_entry entry position;
        relr_loop fuel' relr_offset (offset + 8) relr_size position'
      else mret tt
  end.

(** ** All tables *)

Definition apply_rela_table (t : reloc_tables) : proc unit :=
  if negb (rt_rela t =? 0) && negb (rt_rela_size t =? 0) then
    if (rt_rela_ent t <? SIZEOF_RELA) || negb (rt_rela_size t mod rt_rela_ent t =? 0) then fail
    else
      rela_offset ← vaddr_offset (rt_rela t) (rt_rela_size t);
      for_table (rt_rela_size t) (rt_rela_ent t) (fun offset => apply_rela (rt_symbols t) (rela_offset + offset))
  else mret tt.

Definition apply_rel_table (t : reloc_tables) : proc unit :=
  if negb (rt_rel t =? 0) && negb (rt_rel_size t =? 0) then
    if (rt_rel_ent t <? SIZEOF_REL) || negb (rt_rel_size t mod rt_rel_ent t =? 0) then fail
    else
      rel_offset ← vaddr_offset (rt_rel t) (rt_rel_size t);
      for_table (rt_rel_size t) (rt_rel_ent t) (fun offset => apply_rel (rt_symbols t) (rel_offset + offset))
  else mret tt.

Definition apply_relr_table (t : reloc_tables) : proc unit :=
  if negb (rt_relr t =? 0) && negb (rt_relr_size t =? 0) then
    if negb (rt_relr_ent t =? 8) || negb (rt_relr_size t mod 8 =? 0) then fail
    else
      relr_offset ← vaddr_offset (rt_relr t) (rt_relr_size t);
      relr_loop (S (Z.to_nat (rt_relr_size t / 8))) relr_offset 0 (rt_relr_size t) 0
  else mret tt.

Definition apply_plt_table (t : reloc_tables) : proc unit :=
  if rt_pltrel_size t =? 0 then mret tt
  else if (rt_jmprel t =? 0) || (negb (rt_pltrel_type t =? DT_RELA) && negb (rt_pltrel_type t =? DT_REL)) then fail
  else if rt_pltrel_type t =? DT_RELA then
    if negb (rt_pltrel_size t mod SIZEOF_RELA =? 0) then fail
    else
      rela_offset ← vaddr_offset (rt_jmprel t) (rt_pltrel_size t);
      for_table (rt_pltrel_size t) SIZEOF_RELA (fun offset => apply_plt_rela (rt_symbols t) (rela_offset + offset))
  else
    if negb (rt_pltrel_size t mod SIZEOF_REL =? 0) then fail
    else
      rel_offset ← vaddr_offset (rt_jmprel t) (rt_pltrel_size t);
      for_table (rt_pltrel_size t) SIZEOF_REL (fun offset => apply_plt_rel (rt_symbols t) (rel_offset + offset)).

Definition apply_relative_relocations : proc unit :=
  if dynamic_size (header prog) =? 0 then mret tt
  else
    img ← get_image loaded_image;
    t ← lift (dyn_loop (dyn_count (header prog)) 0 (header prog) img reloc_table_entry no_tables);
    apply_rela_table t;; apply_rel_table t;; apply_relr_table t;; apply_plt_table t.

End Relocation.
