(* ===== verification/RelocSafety.v ===== *)
(** What relocation can do to the process, whatever the file holds: it ends,
    and it changes no image but the one being relocated, whose size and bytes
    stay well formed. *)

From stdpp Require Import gmap.
From S2P Require Import Prelude LoaderBase BridgeSpec ElfImage ElfSymbols CodeEmit Trampoline CrossStub ElfDeps Relocation.

(** ** Readers that end *)

Definition halts {A} (m : outcome A) : Prop := m <> Spin.

Create HintDb halts.

Lemma halts_ok {A} (a : A) : halts (Ok a).
Proof. done. Qed.
Lemma halts_err {A} : halts (@Err A).
Proof. done. Qed.
Lemma halts_fault {A} : halts (@Fault A).
Proof. done. Qed.
Lemma halts_bind {A B} (m : outcome A) (f : A -> outcome B) : halts m -> (forall a, m = Ok a -> halts (f a)) -> halts (m ≫= f).
Proof. intros H Hf. destruct m; cbn; try done. by apply Hf. Qed.
Lemma halts_returns {A} (m : outcome A) : returns m -> halts m.
Proof. by intros [_ H]. Qed.
Lemma halts_vaddr (p : poly_program) (v n : Z) : halts (elf_vaddr_to_image_offset p v n).
Proof. apply halts_returns, vaddr_returns. Qed.
Lemma halts_read (img : image) (off : Z) (n : nat) : halts (read_bytes img off n).
Proof. unfold read_bytes. by destruct (_ && _). Qed.
Lemma halts_read_u64 (img : image) (off : Z) : halts (read_u64_le img off).
Proof. apply halts_bind; [apply halts_read|done]. Qed.
Lemma halts_read_u32 (img : image) (off : Z) : halts (read_u32_le img off).
Proof. apply halts_bind; [apply halts_read|done]. Qed.
Lemma halts_read_u16 (img : image) (off : Z) : halts (read_u16_le img off).
Proof. apply halts_bind; [apply halts_read|done]. Qed.
Lemma halts_read_u8 (img : image) (off : Z) : halts (read_u8 img off).
Proof. apply halts_bind; [apply halts_read|done]. Qed.

#[export] Hint Resolve halts_ok halts_err halts_fault halts_vaddr halts_read halts_read_u64 halts_read_u32 halts_read_u16 halts_read_u8 : halts.

(** Binds and tests down to the readers. *)
Ltac halts :=
  repeat first
    [ progress auto with halts
    | apply halts_bind; [|intros ? ?]
    | match goal with |- halts (if ?b then _ else _) => destruct b eqn:? end
    | match goal with |- halts (match ?x with _ => _ end) => destruct x end
    | progress cbn zeta ].

Lemma halts_read_sym (img : image) (off : Z) : halts (read_sym img off).
Proof. unfold read_sym. halts. Qed.

Lemma halts_dyn_loop {A} (p : poly_program) (img : image) (f : Z -> Z -> A -> A) (k : nat) : forall n acc,
  halts (dyn_loop k n p img f acc).
Proof. induction k as [|k IH]; intros n acc; cbn [dyn_loop]; halts. Qed.

Lemma halts_strcmp (img : image) (s : list Z) : forall off, halts (strcmp_at img off s).
Proof. induction s as [|c s IH]; intros off; cbn [strcmp_at]; halts. Qed.

Lemma halts_c_string_at (img : image) (off : Z) : halts (c_string_at img off).
Proof.
  unfold c_string_at. destruct (off <? 0); [done|]. induction (drop (Z.to_nat off) img) as [|b bs IH]; cbn [c_string]; halts.
Qed.

#[export] Hint Resolve halts_read_sym halts_dyn_loop halts_strcmp halts_c_string_at : halts.

Section Readers.
  Context (p : poly_program) (img : image) (Hwf : wf_elf p img).

Lemma halts_symbol_count (symtab syment hash gnu : Z) : SIZEOF_SYM <= syment ->
  halts (dynamic_symbol_count_from_hash p img symtab syment hash gnu).
Proof using Hwf. intros H. by apply halts_returns, symbol_count_safe. Qed.

Lemma halts_same_image (symtab syment hash gnu index : Z) :
  halts (resolve_same_image_reloc_symbol p img symtab syment hash gnu index).
Proof using Hwf.
  unfold resolve_same_image_reloc_symbol, symtab_range. destruct (_ || _) eqn:E; [done|]. breflect.
  apply halts_bind; [by apply halts_symbol_count|]. intros. halts.
Qed.

Lemma halts_symbol_by_index (symtab strtab strsz syment hash gnu index : Z) :
  halts (dynamic_symbol_by_index p img symtab strtab strsz syment hash gnu index).
Proof using Hwf.
  unfold dynamic_symbol_by_index, symtab_range. destruct (_ || _) eqn:E; [done|]. breflect.
  apply halts_bind; [by apply halts_symbol_count|]. intros. halts.
Qed.

Lemma halts_name_by_index (symtab strtab strsz syment hash gnu index : Z) :
  halts (dynamic_symbol_name_by_index p img symtab strtab strsz syment hash gnu index).
Proof using Hwf.
  unfold dynamic_symbol_name_by_index, symtab_range. destruct (_ || _) eqn:E; [done|]. breflect.
  apply halts_bind; [by apply halts_symbol_count|]. intros. halts.
Qed.

Lemma halts_version_tables : halts (dynamic_version_table_info p img).
Proof using. unfold dynamic_version_table_info. halts. Qed.

Lemma halts_version_index (versym index : Z) : halts (read_symbol_version_index p img versym index).
Proof using. unfold read_symbol_version_index. halts. Qed.

Lemma halts_requested_version (prog : process_program) (t : symbol_tables) (index : Z) :
  header prog = p -> halts (requested_version prog img t index).
Proof using Hwf.
  intros E. unfold requested_version, relocation_requested_version_name. rewrite E.
  apply halts_bind; [|intros o _; destruct o; halts].
  apply halts_bind; [apply halts_version_tables|]. intros vt _. destruct (_ =? 0); [done|].
  apply halts_bind; [apply halts_version_index|]. intros i _. cbn zeta. destruct (_ <=? 1); [done|].
  apply halts_bind; [|done]. by apply halts_returns, verneed_safe.
Qed.

Lemma halts_matches_version (strtab strsz index : Z) (version : option (list Z)) :
  halts (symbol_definition_matches_version p img strtab strsz index version).
Proof using Hwf.
  unfold symbol_definition_matches_version. destruct version as [v|]; [|done].
  apply halts_bind; [apply halts_version_tables|]. intros vt _. destruct (_ =? 0); [done|].
  assert (forall m, halts m -> halts (or_false m)) as Hor by (intros []; done). apply Hor.
  apply halts_bind; [apply halts_version_index|]. intros i _. cbn zeta. destruct (_ <=? 1); [done|].
  apply halts_bind; [by apply halts_returns, verdef_safe|]. auto with halts.
Qed.

Lemma halts_search {A} (accept : elf_sym -> bool) (name : list Z) (version : option (list Z)) (found : elf_sym -> outcome A) :
  (forall sym, halts (found sym)) -> halts (search p img accept name version found).
Proof using Hwf.
  intros Hf. unfold search. apply halts_bind.
  { unfold search_setup. apply halts_bind; [unfold dynamic_symbol_table_info; halts|]. intros t Ht.
    destruct (symbol_table_info_safe p img Hwf) as [_ Hs]. destruct (Hs t Ht) as (_ & _ & _ & Hsy).
    apply halts_bind; [by apply halts_symbol_count|]. intros. unfold symtab_range. halts. }
  intros s _. generalize 0. induction (Z.to_nat (se_count s)) as [|k IH]; intros i; cbn [search_loop]; [done|].
  apply halts_bind; [unfold symbol_at; auto with halts|]. intros sym _.
  apply halts_bind; [|intros [|] _; [apply Hf|apply IH]].
  unfold symbol_matches. destruct (_ || _); [done|]. apply halts_bind; [auto with halts|]. intros same _.
  destruct (negb same); [done|]. apply halts_matches_version.
Qed.

End Readers.

(** ** The shape of the images *)

(** The same images with the same sizes, bytes where there were bytes, and only
    the image at [a] changed. *)
Definition image_kept (changed : bool) (o o' : option image) : Prop :=
  match o, o' with
  | Some i, Some i' => length i' = length i /\ (wf_image i -> wf_image i') /\ (changed = false -> i' = i)
  | None, None => True
  | _, _ => False
  end.

Definition same_shape (a : Z) (imgs imgs' : gmap Z image) : Prop :=
  forall b, image_kept (bool_decide (b = a)) (imgs !! b) (imgs' !! b).

#[export] Instance same_shape_preorder (a : Z) : PreOrder (same_shape a).
Proof.
  split.
  - intros imgs b. by destruct (imgs !! b) as [i|].
  - intros x y z H1 H2 b. specialize (H1 b). specialize (H2 b).
    destruct (x !! b), (y !! b), (z !! b); try done.
    destruct H1 as (L1 & W1 & E1), H2 as (L2 & W2 & E2). split_and!; [congruence|auto|].
    intros Hb. by rewrite E2, E1.
Qed.

Section Sound.
  Context (programs : ptr -> option process_program).
  Context (call_guest : gmap Z image -> Z -> Z -> gmap Z image * Z).
  Context (env : run_env).
  Context (p : ptr) (prog : process_program) (loaded_image tlsdesc_helper_pc tls_get_addr_helper_pc : Z).
  Context (Hp : programs p = Some prog).
  (** A resolver of an indirect function may write into the image that is being
      relocated, and nowhere else. *)
  Context (Hguest : forall imgs ar pc, same_shape loaded_image imgs (fst (call_guest imgs ar pc))).

(** Where programs are loaded: as a dependency, as the root of a scope, or as
    the program at hand. *)
Inductive placed : ptr -> Z -> Prop :=
  | placed_self : placed p loaded_image
  | placed_dep q qprog dep r addr : programs q = Some qprog -> dep ∈ deps qprog -> dep_program dep = Some r ->
      dep_loaded_image dep = Some addr -> placed r addr
  | placed_root q qprog r addr : programs q = Some qprog -> scope_root_program qprog = Some r ->
      scope_root_loaded_image qprog = Some addr -> placed r addr.

(** Images are bytes, and every loaded program has its image, as the loader
    leaves it. *)
Definition well_loaded (st : process_state) : Prop :=
  map_Forall (fun _ => wf_image) (images st) /\
  forall q qprog addr, placed q addr -> programs q = Some qprog ->
  exists img, images st !! addr = Some img /\ wf_elf (header qprog) img.

Lemma well_loaded_shape (st st' : process_state) :
  same_shape loaded_image (images st) (images st') -> well_loaded st -> well_loaded st'.
Proof using.
  intros Hs [Hby Hw]. split.
  { intros b img' Hi'. specialize (Hs b). rewrite Hi' in Hs. destruct (images st !! b) as [img|] eqn:Hi; [|done].
    destruct Hs as (_ & W & _). by apply W, (Hby b). }
  intros q qprog addr Hpl Hq. destruct (Hw q qprog addr Hpl Hq) as (img & Hi & [Hb Hsz Hl Hba Hd]).
  specialize (Hs addr). rewrite Hi in Hs. destruct (images st' !! addr) as [img'|]; [|done].
  destruct Hs as (L & W & _). exists img'. split; [done|]. constructor; try done; [by apply W|].
  unfold size_of in *. by rewrite L.
Qed.

(** A step that ends and keeps the shape. *)
Definition sound {A} (m : proc A) : Prop := forall st, well_loaded st ->
  same_shape loaded_image (images st) (images (fst (m st))) /\ snd (m st) <> Spin.

Lemma sound_lift {A} (m : outcome A) : halts m -> sound (lift m).
Proof using. intros H st _. split; [reflexivity|done]. Qed.

Lemma sound_ret {A} (a : A) : sound (mret a).
Proof using. by apply sound_lift. Qed.

Lemma sound_fail {A} : sound (@fail A).
Proof using. by apply sound_lift. Qed.

Lemma sound_bind {A B} (m : proc A) (f : A -> proc B) : sound m -> (forall a, sound (f a)) -> sound (m ≫= f).
Proof using.
  intros Hm Hf st Hw. destruct (Hm st Hw) as [Hs Hn]. unfold mbind, proc_bind.
  destruct (m st) as [st' [a| | |]]; cbn [fst snd] in *; try done.
  destruct (Hf a st') as [Hs' Hn']; [by eapply well_loaded_shape|]. split; [by etransitivity|done].
Qed.

Lemma sound_attempt {A} (m : proc A) : sound m -> sound (attempt m).
Proof using.
  intros Hm st Hw. destruct (Hm st Hw) as [Hs Hn]. unfold attempt. by destruct (m st) as [st' [a| | |]].
Qed.

Lemma sound_or_else {A} (m m' : proc A) : sound m -> sound m' -> sound (or_else m m').
Proof using. intros H H'. apply sound_bind; [by apply sound_attempt|]. intros [a|]; [apply sound_ret|done]. Qed.

(** Reading a program, reading its image. *)
Lemma sound_program {A} (q : ptr) (f : process_program -> proc A) :
  (forall qprog, programs q = Some qprog -> sound (f qprog)) -> sound (get_program programs q ≫= f).
Proof using.
  intros Hf st Hw. unfold mbind, proc_bind, get_program, lift.
  destruct (programs q) as [qprog|]; [by apply Hf|]. split; [reflexivity|done].
Qed.

Lemma sound_image {A} (q : ptr) (qprog : process_program) (addr : Z) (f : image -> proc A) :
  placed q addr -> programs q = Some qprog -> (forall img, wf_elf (header qprog) img -> sound (f img)) ->
  sound (get_image addr ≫= f).
Proof using.
  intros Hpl Hq Hf st Hw. pose proof Hw as [_ Hw']. destruct (Hw' q qprog addr Hpl Hq) as (img & Hi & Hwf).
  unfold mbind, proc_bind, get_image. rewrite Hi. by apply Hf.
Qed.

Lemma sound_any_image {A} (addr : Z) (f : image -> proc A) :
  (forall img, wf_image img -> sound (f img)) -> sound (get_image addr ≫= f).
Proof using.
  intros Hf st Hw. pose proof Hw as [Hby _]. unfold mbind, proc_bind, get_image.
  destruct (images st !! addr) as [img|] eqn:Hi; [|by split]. by apply Hf; [apply (Hby addr)|].
Qed.

Lemma sound_call (ar pc : Z) : sound (call_resolver call_guest ar pc).
Proof using Hguest.
  intros st _. unfold call_resolver. pose proof (Hguest (images st) ar pc). by destruct (call_guest _ _ _).
Qed.

Lemma sound_irelative (q : process_program) (addr v : Z) : sound (run_irelative_resolver call_guest env q addr v).
Proof using Hguest.
  unfold run_irelative_resolver. apply sound_bind; [apply sound_lift, halts_vaddr|]. intros _. cbn zeta.
  repeat match goal with |- sound (if ?b then _ else _) => destruct b | |- sound (match ?x with _ => _ end) => destruct x end;
    auto using @sound_call, @sound_fail.
Qed.

Lemma sound_stub (caller callee target k : Z) : sound (emit_stub env caller callee target k).
Proof using.
  intros st _. unfold emit_stub. destruct (emit_process_cross_isa_call_stub _ _ _ _ _ _ _) as [s [pc|]];
    (split; [reflexivity|done]).
Qed.

Lemma sound_write (off : Z) (bytes : list Z) : wf_image bytes -> sound (write_image loaded_image off bytes).
Proof using.
  intros Hb st _. unfold write_image. destruct (images st !! loaded_image) as [img|] eqn:Hi; [|by split].
  destruct (_ && _) eqn:E; [|by split]. breflect. unfold size_of in *. split; [|done]. cbn [fst images].
  intros b. destruct (decide (b = loaded_image)) as [->|Hne]; [|rewrite lookup_insert_ne by done; by destruct (images st !! b) as [i|]].
  rewrite Hi, lookup_insert_eq, bool_decide_eq_true_2 by done. split_and!; [|intros Hw|done].
  - rewrite !length_app, length_take, length_drop. lia.
  - unfold wf_image in *. rewrite !Forall_app. split_and!; [by apply Forall_take|done|by apply Forall_drop].
Qed.

Lemma write_u64_wf (v : Z) : wf_image (write_u64_le v).
Proof using.
  unfold wf_image, write_u64_le. apply Forall_fmap, Forall_forall. intros n _. cbn.
  unfold in_width, wrap. apply Z.mod_pos_bound. lia.
Qed.

(** *** Resolution *)

Lemma sound_at_depth {A} (visit : ptr -> Z -> proc (option A)) :
  (forall q addr, placed q addr -> sound (visit q addr)) -> forall left q, sound (at_depth programs visit left q).
Proof using.
  intros Hv. induction left as [|left IH]; intros q; cbn [at_depth]; [apply sound_fail|].
  apply sound_program. intros qprog Hq.
  assert (forall dep r addr, dep ∈ deps qprog -> dep_program dep = Some r -> dep_loaded_image dep = Some addr ->
    placed r addr) as Hpl by (intros; by eapply placed_dep).
  revert Hpl. generalize (deps qprog) as l. induction l as [|dep l IHl]; intros Hpl; [apply sound_fail|].
  assert (sound ((fix loop (l : list process_dependency) : proc A := match l with
    | [] => fail
    | dep :: l' => match dep_program dep, dep_loaded_image dep with
        | Some q, Some img => found ← visit q img; match found with Some a => mret a
            | None => or_else (at_depth programs visit left q) (loop l') end
        | _, _ => loop l' end end) l)) as Hl.
  { apply IHl. intros d r addr Hd. apply Hpl. by apply elem_of_cons; right. }
  destruct (dep_program dep) as [r|] eqn:Er; [|exact Hl]. destruct (dep_loaded_image dep) as [addr|] eqn:Ea; [|exact Hl].
  apply sound_bind; [by apply Hv, (Hpl dep r addr); [by apply elem_of_cons; left|..]|].
  intros [a|]; [apply sound_ret|]. by apply sound_or_else; [apply IH|].
Qed.

Lemma sound_visit_symbol (caller : Z) (name : list Z) (version : option (list Z)) (q : ptr) (addr : Z) :
  placed q addr -> sound (visit_symbol programs call_guest env caller name version q addr).
Proof using Hguest.
  intros Hpl. apply sound_program. intros qprog Hq. eapply sound_image; [done..|]. intros img Hwf.
  apply sound_bind; [|intros [r|]; [|apply sound_ret]].
  - apply sound_attempt, sound_lift, halts_search; [done|]. intros sym. cbn zeta. destruct_ifs; auto with halts.
  - apply sound_bind; [|intros v; apply sound_ret]. unfold bind_symbol. apply sound_bind.
    + destruct (_ =? _); [apply sound_irelative|apply sound_ret].
    + intros v. cbn zeta. destruct (_ && _); [|apply sound_ret]. apply sound_bind; [apply sound_stub|intros; apply sound_ret].
Qed.

Lemma sound_visit_tls (name : list Z) (version : option (list Z)) (q : ptr) (addr : Z) :
  placed q addr -> sound (visit_tls programs name version q addr).
Proof using.
  intros Hpl. apply sound_program. intros qprog Hq. eapply sound_image; [done..|]. intros img Hwf.
  by apply sound_attempt, sound_lift, halts_search.
Qed.

Lemma sound_visit_object (name : list Z) (version : option (list Z)) (q : ptr) (addr : Z) :
  placed q addr -> sound (visit_object programs name version q addr).
Proof using.
  intros Hpl. apply sound_program. intros qprog Hq. eapply sound_image; [done..|]. intros img Hwf.
  apply sound_bind; [by apply sound_attempt, sound_lift, halts_search|]. intros r. apply sound_ret.
Qed.

Lemma sound_in_root {A} (visit : ptr -> Z -> proc (option A)) (q : ptr) (qprog : process_program) :
  (forall q addr, placed q addr -> sound (visit q addr)) -> programs q = Some qprog ->
  sound (in_root_program visit q qprog) /\ sound (in_root_dependencies programs visit q qprog).
Proof using.
  intros Hv Hq. unfold in_root_program, in_root_dependencies, other_root.
  destruct (scope_root_program qprog) as [root|] eqn:Er; [|split; apply sound_fail].
  case_bool_decide; [split; apply sound_fail|]. split; [|by apply sound_at_depth].
  destruct (scope_root_loaded_image qprog) as [addr|] eqn:Ea; [|apply sound_fail].
  apply sound_bind; [by apply Hv; eapply placed_root|]. intros [a|]; [apply sound_ret|apply sound_fail].
Qed.

Lemma sound_tls_symbol (t : symbol_tables) (index : Z) :
  sound (resolve_process_tls_reloc_symbol programs p loaded_image t index).
Proof using Hp.
  apply sound_program. intros qprog Hq. eapply sound_image; [apply placed_self|done|]. intros img Hwf.
  apply sound_bind; [by apply sound_lift, halts_symbol_by_index|]. intros [sym off].
  apply sound_bind; [by eapply sound_lift, halts_requested_version|]. intros version.
  destruct (_ =? _); [|destruct (negb _); [apply sound_fail|apply sound_ret]].
  apply sound_bind; [apply sound_lift, halts_c_string_at|]. intros name.
  destruct (sound_in_root (visit_tls programs name version) p qprog) as [H1 H2]; [by apply sound_visit_tls|done|].
  unfold resolve_root_scope_tls_symbol, resolve_root_scope_dependency_tls_symbol. rewrite !(get_program_bind _ p qprog) by done.
  repeat apply sound_or_else; [done|done|apply sound_at_depth, sound_visit_tls|].
  destruct (_ =? _); [apply sound_ret|apply sound_fail].
Qed.

Lemma sound_dependency_symbol (t : symbol_tables) (index : Z) :
  sound (resolve_dependency_reloc_symbol programs call_guest env p loaded_image t index tls_get_addr_helper_pc).
Proof using Hp Hguest.
  apply sound_program. intros qprog Hq. eapply sound_image; [apply placed_self|done|]. intros img Hwf.
  apply sound_bind; [by apply sound_lift, halts_name_by_index|]. intros [off info].
  apply sound_bind; [apply sound_lift, halts_c_string_at|]. intros name.
  apply sound_bind; [by eapply sound_lift, halts_requested_version|]. intros version.
  destruct (_ && _); [apply sound_ret|].
  destruct (sound_in_root (visit_symbol programs call_guest env (arch qprog) name version) p qprog) as [H1 H2];
    [by apply sound_visit_symbol|done|].
  unfold resolve_root_scope_symbol, resolve_root_scope_dependency_symbol, resolve_loaded_dependency_symbol.
  rewrite !(get_program_bind _ p qprog) by done.
  repeat apply sound_or_else; [done|done|apply sound_at_depth, sound_visit_symbol|].
  destruct (_ =? _); [apply sound_ret|apply sound_fail].
Qed.

(** *** Relocation *)

Lemma sound_copy_image (off src src_off n : Z) : sound (copy_image loaded_image off src src_off n).
Proof using.
  unfold copy_image. destruct (_ && _); [by apply sound_lift|]. apply sound_any_image. intros img Hwf.
  unfold mbind, proc_bind, lift. intros st Hw. destruct (read_bytes img src_off (Z.to_nat n)) as [bs| | |] eqn:E.
  - apply sound_write; [by eapply read_bytes_wf|done].
  - by split.
  - by split.
  - by destruct (halts_read img src_off (Z.to_nat n)).
Qed.

Lemma sound_copy_relocation (t : symbol_tables) (index vaddr : Z) :
  sound (apply_process_copy_relocation programs p loaded_image t index vaddr).
Proof using Hp.
  apply sound_program. intros qprog Hq. eapply sound_image; [apply placed_self|done|]. intros img Hwf.
  apply sound_bind; [by apply sound_lift, halts_symbol_by_index|]. intros [sym off].
  apply sound_bind; [by eapply sound_lift, halts_requested_version|]. intros version.
  apply sound_bind; [apply sound_lift, halts_c_string_at|]. intros name.
  destruct (sound_in_root (visit_object programs name version) p qprog) as [_ H2]; [by apply sound_visit_object|done|].
  apply sound_bind.
  - unfold resolve_root_scope_dependency_object_symbol. rewrite (get_program_bind _ p qprog) by done.
    apply sound_or_else; [done|]. by apply sound_at_depth, sound_visit_object.
  - intros [[source simg] [svaddr ssize]]. cbn zeta. destruct (_ || _); [apply sound_fail|].
    apply sound_bind; [apply sound_lift, halts_vaddr|]. intros toff. apply sound_program. intros sprog Hs.
    apply sound_bind; [apply sound_lift, halts_vaddr|]. intros soff. apply sound_copy_image.
Qed.

Lemma sound_read_u64 (off : Z) : sound (read_image_u64 loaded_image off).
Proof using. apply sound_any_image. intros img _. apply sound_lift, halts_read_u64. Qed.

Lemma sound_write_u64 (off v : Z) : sound (write_image_u64 loaded_image off v).
Proof using. apply sound_write, write_u64_wf. Qed.

Lemma sound_vaddr (v n : Z) : sound (vaddr_offset prog v n).
Proof using. apply sound_lift, halts_vaddr. Qed.

Lemma sound_symbolic (t : symbol_tables) (index : Z) :
  sound (symbolic_value programs call_guest env p prog loaded_image tls_get_addr_helper_pc t index).
Proof using Hp Hguest.
  unfold symbolic_value. eapply sound_image; [apply placed_self|done|]. intros img Hwf.
  apply sound_bind; [by apply sound_attempt, sound_lift, halts_same_image|]. intros [[v ty]|].
  - destruct (_ =? _); [|apply sound_ret]. apply sound_bind; [apply sound_irelative|]. intros; apply sound_ret.
  - apply sound_bind; [apply sound_dependency_symbol|]. intros [v ty]. apply sound_ret.
Qed.

(** Binds and tests down to the steps above. *)
Ltac sound_steps :=
  repeat first
    [ apply sound_ret | apply sound_fail | apply sound_read_u64 | apply sound_write_u64 | apply sound_vaddr
    | apply sound_tls_symbol | apply sound_irelative | apply sound_symbolic | apply sound_copy_relocation
    | apply sound_bind; [|intros ?]
    | match goal with
      | |- sound (if ?b then _ else _) => destruct b
      | |- sound (match ?x with _ => _ end) => destruct x
      | |- sound (let _ := _ in _) => cbn zeta
      end ].

Lemma sound_entries (t : symbol_tables) (off : Z) :
  sound (apply_rela programs call_guest env p prog loaded_image tlsdesc_helper_pc tls_get_addr_helper_pc t off) /\
  sound (apply_rel programs call_guest env p prog loaded_image tlsdesc_helper_pc tls_get_addr_helper_pc t off) /\
  sound (apply_plt_rela programs call_guest env p prog loaded_image tlsdesc_helper_pc tls_get_addr_helper_pc t off) /\
  sound (apply_plt_rel programs call_guest env p prog loaded_image tlsdesc_helper_pc tls_get_addr_helper_pc t off).
Proof using Hp Hguest.
  unfold apply_rela, apply_rel, apply_plt_rela, apply_plt_rel, store_value, tls_symbol, run_resolver.
  split_and!; sound_steps.
Qed.

Lemma sound_table_range {A} (v size : Z) (f : Z -> proc A) :
  (forall off, size <= MAX_PROGRAM_BYTES -> sound (f off)) -> sound (vaddr_offset prog v size ≫= f).
Proof using Hp.
  intros Hf st Hw. pose proof Hw as [_ Hl]. destruct (Hl p prog loaded_image placed_self Hp) as (img & _ & Hwf).
  unfold mbind, proc_bind, vaddr_offset, lift. pose proof (halts_vaddr (header prog) v size) as Hh.
  destruct (elf_vaddr_to_image_offset (header prog) v size) as [off| | |] eqn:E; try (by split).
  apply vaddr_inside in E as (H0 & H1 & _). apply Hf; [|done]. pose proof (we_limit _ _ Hwf). lia.
Qed.

Lemma sound_table_loop (size step : Z) (body : Z -> proc unit) :
  0 < step -> size + step < 2 ^ 64 -> (forall off, sound (body off)) -> forall fuel offset k,
  0 <= offset < 2 ^ 64 -> size = offset + k * step -> k < Z.of_nat fuel -> (0 < fuel)%nat ->
  sound (table_loop fuel offset size step body).
Proof using.
  intros Hs Hsz Hb. induction fuel as [|fuel IH]; intros offset k Ho Hk Hf Hpos; [lia|].
  cbn [table_loop]. destruct (Z.ltb_spec offset size); [|apply sound_ret].
  apply sound_bind; [apply Hb|]. intros _. rewrite wrap_small by (unfold in_width; lia).
  assert (0 < k) by nia. apply (IH _ (k - 1)); lia.
Qed.

Lemma sound_for_table (size step : Z) (body : Z -> proc unit) :
  0 < step -> size <= MAX_PROGRAM_BYTES -> (size mod step = 0) -> (forall off, sound (body off)) ->
  sound (for_table size step body).
Proof using.
  intros Hs Hsz Hm Hb. unfold for_table. unfold MAX_PROGRAM_BYTES in Hsz.
  destruct (Z.le_gt_cases size 0) as [Hle|Hgt].
  { cbn [table_loop]. rewrite (proj2 (Z.ltb_ge 0 size)) by done. apply sound_ret. }
  pose proof (Z.div_mod size step ltac:(lia)) as Hd. rewrite Hm, Z.add_0_r in Hd.
  assert (0 <= size / step) by (apply Z.div_pos; lia).
  assert (step <= size) by (assert (1 <= size / step) by nia; nia). apply sound_table_loop with (size / step); try done; lia.
Qed.

Lemma sound_relr_bits (k : nat) (entry position : Z) : forall bit,
  sound (relr_bits prog loaded_image k bit entry position).
Proof using.
  induction k as [|k IH]; intros bit; cbn [relr_bits]; [apply sound_ret|].
  apply sound_bind; [|intros _; apply IH]. unfold rebase. sound_steps.
Qed.

Lemma sound_relr_loop (relr_offset size : Z) : forall fuel offset position k,
  size = offset + k * 8 -> k < Z.of_nat fuel -> (0 < fuel)%nat ->
  sound (relr_loop prog loaded_image fuel relr_offset offset size position).
Proof using.
  induction fuel as [|fuel IH]; intros offset position k Hk Hf Hpos; [lia|].
  cbn [relr_loop]. destruct (Z.ltb_spec offset size); [|apply sound_ret].
  apply sound_bind; [apply sound_read_u64|]. intros entry. apply sound_bind.
  - unfold relr_entry, rebase. destruct (_ =? 0); [sound_steps|]. apply sound_bind; [apply sound_relr_bits|].
    intros _. apply sound_ret.
  - intros position'. apply (IH _ _ (k - 1)); lia.
Qed.


End Sound.

(** ** A concrete process *)

Lemma two_programs_placed (a1 a2 : Z) (specs : list poly_process_bridge_spec) (q : ptr) (addr : Z) :
  placed (two_programs a1 a2 specs) 1%positive 0x10000 q addr ->
  (q = 1%positive /\ addr = 0x10000) \/ (q = 2%positive /\ addr = 0x20000).
Proof.
  intros H. destruct H as [|q qprog dep r addr Hq Hd Hr Ha|q qprog r addr Hq Hr Ha]; [by left|..];
    (destruct q as [q|q|]; [by destruct q|destruct q; try done|]; injection Hq as <-; cbn in *);
    try (rewrite list_elem_of_singleton in Hd; subst dep); cbn in *; simplify_eq; auto.
Qed.

Lemma two_images_loaded (a1 a2 info1 info2 : Z) (specs : list poly_process_bridge_spec) :
  well_loaded (two_programs a1 a2 specs) 1%positive 0x10000 (two_images info1 info2).
Proof.
  pose proof (symbol_image_wf info1 0) as W1. pose proof (symbol_image_wf info2 7) as W2. split.
  - intros b img. unfold two_images. cbn [images]. rewrite lookup_insert_Some, lookup_singleton_Some.
    intros [[_ <-]|[_ [_ <-]]]; by eapply we_bytes.
  - intros q qprog addr Hpl Hq. destruct (two_programs_placed _ _ _ _ _ Hpl) as [[-> ->]|[-> ->]];
      injection Hq as <-; eexists; (split; [done|]); done.
Qed.

