(* ===== verification/RelocSpec.v ===== *)
(** What relocation computes: the packed table DT_RELR against a decoder of its
    format, and the entries of the other tables against the formulas of the
    ELF supplements. *)

From stdpp Require Import gmap.
From S2P Require Import Prelude LoaderBase BridgeSpec ElfImage ElfSymbols CodeEmit Trampoline CrossStub ElfDeps Relocation.

(** ** Words of an image *)

Definition word (img : image) (off : Z) : Z := or_bytes 0 0 (take 8 (drop (Z.to_nat off) img)).
Definition put (img : image) (off v : Z) : image :=
  take (Z.to_nat off) img ++ write_u64_le v ++ drop (Z.to_nat off + 8) img.
Definition inside (img : image) (off : Z) : Prop := 0 <= off /\ off + 8 <= size_of img.
Definition apart (x y : Z) : Prop := x + 8 <= y \/ y + 8 <= x.

Lemma read_word (img : image) (off : Z) : inside img off -> read_u64_le img off = Ok (word img off).
Proof. intros [H0 H1]. unfold read_u64_le. by rewrite read_bytes_ok. Qed.

Lemma write_u64_length (v : Z) : length (write_u64_le v) = 8%nat.
Proof. done. Qed.

Lemma put_length (img : image) (off v : Z) : inside img off -> length (put img off v) = length img.
Proof.
  intros [H0 H1]. unfold put, size_of in *. rewrite !length_app, length_take, length_drop, write_u64_length. lia.
Qed.

Lemma inside_put (img : image) (x off v : Z) : inside img x -> inside img off -> inside (put img x v) off.
Proof. intros Hx [H0 H1]. unfold inside, size_of in *. by rewrite put_length. Qed.

Lemma write_u64_value (v : Z) : or_bytes 0 0 (write_u64_le v) = u64 v.
Proof.
  rewrite write_u64_bytes.
  rewrite or_bytes_le by apply le_bytes_range. apply le_value_bytes.
Qed.

Lemma put_lookup (img : image) (off v j : Z) : inside img off -> 0 <= j -> j < off \/ off + 8 <= j ->
  put img off v !! Z.to_nat j = img !! Z.to_nat j.
Proof.
  intros [H0 H1] Hj Hout. unfold put, size_of, image in *. set (o := Z.to_nat off) in *. set (i := Z.to_nat j) in *.
  destruct (decide (i < o)%nat).
  - rewrite lookup_app_l by (rewrite length_take; lia). by rewrite lookup_take_lt.
  - rewrite lookup_app_r, length_take by (rewrite length_take; lia).
    replace (o `min` length img)%nat with o by lia. rewrite lookup_app_r, write_u64_length by (rewrite write_u64_length; lia).
    rewrite lookup_drop. f_equal. lia.
Qed.

Lemma word_put_same (img : image) (off v : Z) : inside img off -> word (put img off v) off = u64 v.
Proof.
  intros [H0 H1]. unfold word, put, size_of in *. rewrite drop_app_length' by (rewrite length_take; lia).
  rewrite take_app_length' by done. apply write_u64_value.
Qed.

Lemma word_lookup (img img' : image) (off : Z) : 0 <= off ->
  (forall j, off <= j < off + 8 -> img' !! Z.to_nat j = img !! Z.to_nat j) -> word img' off = word img off.
Proof.
  intros Hoff H. unfold word, image in *. f_equal. apply list_eq. intros i. destruct (decide (i < 8)%nat).
  - rewrite !lookup_take_lt, !lookup_drop by done. specialize (H (off + Z.of_nat i) ltac:(lia)).
    replace (Z.to_nat (off + Z.of_nat i)) with (Z.to_nat off + i)%nat in H by lia. done.
  - unfold image in *. by rewrite !lookup_take_ge by lia.
Qed.

Lemma word_put_other (img : image) (x off v : Z) : inside img x -> 0 <= off -> apart x off ->
  word (put img x v) off = word img off.
Proof. intros Hx H0 Ha. apply word_lookup; [done|]. intros j Hj. apply put_lookup; [done|lia|]. unfold apart in Ha. lia. Qed.

(** ** DT_RELR *)

(** The format: an even word is an address, and the next position is the word
    behind it; an odd word is a bit map of the 63 words from the position on. *)
Definition relr_bitmap (entry position : Z) : list Z :=
  (fun bit => u64 (position + (bit - 1) * 8)) <$> filter (fun bit => Z.testbit entry bit = true) (Z.of_nat <$> seq 1 63).

Fixpoint relr_addresses (position : Z) (entries : list Z) : list Z :=
  match entries with
  | [] => []
  | entry :: entries' =>
      if Z.even entry then entry :: relr_addresses (u64 (entry + 8)) entries'
      else relr_bitmap entry position ++ relr_addresses (u64 (position + 63 * 8)) entries'
  end.

Section Relr.
  Context (prog : process_program) (addr : Z).

Definition with_image (st : process_state) (img : image) : process_state := MkProcess (<[addr := img]> (images st)) (stubs st).

Lemma with_image_lookup (st : process_state) (img : image) : images (with_image st img) !! addr = Some img.
Proof using. apply lookup_insert_eq. Qed.

Lemma with_image_twice (st : process_state) (img img' : image) : with_image (with_image st img) img' = with_image st img'.
Proof using. unfold with_image. cbn. by rewrite insert_insert_eq. Qed.

Lemma with_image_same (st : process_state) (img : image) : images st !! addr = Some img -> with_image st img = st.
Proof using. intros H. unfold with_image. rewrite insert_id by done. by destruct st. Qed.

Lemma read_image_word (st : process_state) (img : image) (off : Z) : images st !! addr = Some img -> inside img off ->
  read_image_u64 addr off st = (st, Ok (word img off)).
Proof using.
  intros Hi Hin. unfold read_image_u64, mbind, proc_bind, get_image, lift. by rewrite Hi, read_word.
Qed.

Lemma write_image_word (st : process_state) (img : image) (off v : Z) : images st !! addr = Some img -> inside img off ->
  write_image_u64 addr off v st = (with_image st (put img off v), Ok tt).
Proof using.
  intros Hi [H0 H1]. unfold write_image_u64, write_image. rewrite Hi, write_u64_length.
  rewrite (proj2 (Z.leb_le _ _) H0). change (Z.of_nat 8) with 8. by rewrite (proj2 (Z.leb_le _ _) H1).
Qed.

Definition bias : Z := u64 (addr - base_vaddr (header prog)).

(** Rebasing the word at an offset of the image. *)
Definition rebase_word (img : image) (off : Z) : image := put img off (u64 (bias + word img off)).

(** The offset of an address. *)
Definition offset_of (vaddr : Z) : Z := vaddr - base_vaddr (header prog).
Definition mapped (img : image) (vaddr : Z) : Prop :=
  elf_vaddr_to_image_offset (header prog) vaddr 8 = Ok (offset_of vaddr) /\ inside img (offset_of vaddr).

Lemma rebase_runs (st : process_state) (img : image) (vaddr : Z) : images st !! addr = Some img -> mapped img vaddr ->
  rebase prog addr vaddr st = (with_image st (rebase_word img (offset_of vaddr)), Ok tt).
Proof using.
  intros Hi [Ho Hin]. unfold rebase, vaddr_offset, mbind, proc_bind, lift. rewrite Ho.
  by rewrite (read_image_word st img), (write_image_word st img).
Qed.

Definition rebase_all (img : image) (vaddrs : list Z) : image := foldl (fun img v => rebase_word img (offset_of v)) img vaddrs.

Lemma rebase_all_app (img : image) (l1 l2 : list Z) : rebase_all img (l1 ++ l2) = rebase_all (rebase_all img l1) l2.
Proof using. apply foldl_app. Qed.

Lemma rebase_word_inside (img : image) (x off : Z) : inside img x -> inside img off -> inside (rebase_word img x) off.
Proof using. intros. by apply inside_put. Qed.

Lemma rebase_all_inside (l : list Z) : forall img off, Forall (mapped img) l -> inside img off ->
  inside (rebase_all img l) off /\ Forall (mapped (rebase_all img l)) l.
Proof using.
  induction l as [|v l IH]; intros img off Hl Ho; [done|]. apply Forall_cons in Hl as [[Hv Hin] Hl]. cbn [rebase_all foldl].
  assert (Forall (mapped (rebase_word img (offset_of v))) l) as Hl'.
  { eapply Forall_impl; [exact Hl|]. intros x [Hx Hxi]. split; [done|]. by apply rebase_word_inside. }
  destruct (IH _ off Hl') as [H1 H2]; [by apply rebase_word_inside|]. split; [done|].
  constructor; [|done]. split; [done|]. by apply (IH _ (offset_of v) Hl'), rebase_word_inside.
Qed.

Lemma rebase_all_mapped (l : list Z) (img : image) (v : Z) : Forall (mapped img) l -> mapped img v ->
  mapped (rebase_all img l) v.
Proof using. intros Hl [Hv Hi]. split; [done|]. by apply (rebase_all_inside l img). Qed.

(** The words of the table do not change while the words elsewhere do. *)
Lemma rebase_all_word (l : list Z) (off : Z) : forall img, Forall (mapped img) l -> 0 <= off ->
  Forall (fun v => apart (offset_of v) off) l -> word (rebase_all img l) off = word img off.
Proof using.
  induction l as [|v l IH]; intros img Hl H0 Ha; [done|].
  apply Forall_cons in Hl as [[Hv Hin] Hl]. apply Forall_cons in Ha as [Hav Ha]. cbn [rebase_all foldl].
  fold (rebase_all (rebase_word img (offset_of v)) l). rewrite IH; [by apply word_put_other| |done|done].
  eapply Forall_impl; [exact Hl|]. intros x [Hx Hxi]. split; [done|]. by apply rebase_word_inside.
Qed.

Lemma bit_test (entry bit : Z) : 0 <= bit -> negb (Z.land entry (Z.shiftl 1 bit) =? 0) = Z.testbit entry bit.
Proof using.
  intros Hb. rewrite Z.shiftl_1_l. destruct (Z.testbit entry bit) eqn:E.
  - apply negb_true_iff, Z.eqb_neq. intros H. apply (f_equal (fun z => Z.testbit z bit)) in H.
    rewrite Z.land_spec, Z.bits_0, E, Z.pow2_bits_true in H by done. done.
  - apply negb_false_iff, Z.eqb_eq, Z.bits_inj'. intros k Hk. rewrite Z.land_spec, Z.bits_0.
    destruct (Z.eq_dec k bit) as [->|Hne]; [by rewrite E|]. rewrite Z.pow2_bits_false by done. apply andb_false_r.
Qed.

Lemma relr_bits_runs (entry position : Z) : forall k n st img, images st !! addr = Some img ->
  let l := (fun bit => u64 (position + (bit - 1) * 8)) <$>
             filter (fun bit => Z.testbit entry bit = true) (Z.of_nat <$> seq n k) in
  Forall (mapped img) l ->
  relr_bits prog addr k (Z.of_nat n) entry position st = (with_image st (rebase_all img l), Ok tt).
Proof using.
  induction k as [|k IH]; intros n st img Hi l Hl.
  - cbn [relr_bits]. unfold mret, proc_ret, l. cbn. by rewrite with_image_same.
  - cbn [relr_bits]. rewrite bit_test by lia. unfold l in *. cbn [seq fmap list_fmap] in *.
    change (list_fmap nat Z Z.of_nat (seq (S n) k)) with (Z.of_nat <$> seq (S n) k) in *.
    replace (Z.of_nat n + 1) with (Z.of_nat (S n)) by lia. unfold mbind, proc_bind.
    destruct (Z.testbit entry (Z.of_nat n)) eqn:E.
    + rewrite filter_cons_True in * by done. cbn [fmap list_fmap] in *. apply Forall_cons in Hl as [Hv Hl].
      rewrite (rebase_runs st img) by done. rewrite (IH (S n) _ (rebase_word img (offset_of (u64 (position + (Z.of_nat n - 1) * 8)))));
        [|apply with_image_lookup|].
      * by rewrite with_image_twice.
      * eapply Forall_impl; [exact Hl|]. intros x [Hx Hxi]. split; [done|]. apply rebase_word_inside; [apply Hv|done].
    + rewrite filter_cons_False in * by (by rewrite E). unfold mret at 1, proc_ret at 1. by apply IH.
Qed.
Definition relr_step (entry position : Z) : list Z * Z :=
  if Z.even entry then ([entry], u64 (entry + 8)) else (relr_bitmap entry position, u64 (position + 63 * 8)).

Lemma relr_addresses_step (entry position : Z) (entries : list Z) :
  relr_addresses position (entry :: entries) =
  (relr_step entry position).1 ++ relr_addresses (relr_step entry position).2 entries.
Proof using. unfold relr_step. cbn [relr_addresses]. by destruct (Z.even entry). Qed.

Lemma relr_entry_runs (entry position : Z) (st : process_state) (img : image) : images st !! addr = Some img ->
  Forall (mapped img) (relr_step entry position).1 ->
  relr_entry prog addr entry position st =
  (with_image st (rebase_all img (relr_step entry position).1), Ok (relr_step entry position).2).
Proof using.
  intros Hi. unfold relr_step, relr_entry.
  replace (Z.land entry 1 =? 0) with (Z.even entry).
  2:{ change 1 with (Z.ones 1). rewrite Z.land_ones by lia. change (2 ^ 1) with 2. apply Zeven_mod. }
  destruct (Z.even entry); cbn [fst snd]; intros Hl; unfold mbind, proc_bind.
  - apply Forall_cons in Hl as [Hv _]. by rewrite (rebase_runs st img).
  - pose proof (relr_bits_runs entry position 63 1 st img Hi Hl) as Hb. change (Z.of_nat 1) with 1 in Hb. by rewrite Hb.
Qed.

Lemma relr_loop_runs (relr_offset size : Z) : forall fuel entries offset position st img,
  images st !! addr = Some img -> 0 <= relr_offset + offset -> (length entries < fuel)%nat ->
  size = offset + 8 * Z.of_nat (length entries) ->
  (forall i e, entries !! i = Some e -> inside img (relr_offset + offset + 8 * Z.of_nat i) /\
                                        word img (relr_offset + offset + 8 * Z.of_nat i) = e) ->
  Forall (mapped img) (relr_addresses position entries) ->
  Forall (fun v => forall i, 0 <= i < Z.of_nat (length entries) -> apart (offset_of v) (relr_offset + offset + 8 * i))
    (relr_addresses position entries) ->
  relr_loop prog addr fuel relr_offset offset size position st =
  (with_image st (rebase_all img (relr_addresses position entries)), Ok tt).
Proof using.
  induction fuel as [|fuel IH]; intros entries offset position st img Hi H0 Hf Hsz Hw Hm Ha; [lia|].
  cbn [relr_loop]. destruct entries as [|e entries].
  { cbn [length] in Hsz. rewrite (proj2 (Z.ltb_ge offset size)) by lia. cbn. by rewrite with_image_same. }
  cbn [length] in *. rewrite (proj2 (Z.ltb_lt offset size)) by lia.
  destruct (Hw 0%nat e eq_refl) as [Hin0 Hw0]. rewrite Z.mul_0_r, Z.add_0_r in Hin0, Hw0.
  unfold mbind, proc_bind. rewrite (read_image_word st img), Hw0 by done.
  rewrite relr_addresses_step in *. rewrite Forall_app in Hm, Ha. destruct Hm as [Hm1 Hm2], Ha as [Ha1 Ha2].
  rewrite (relr_entry_runs e position st img) by done. rewrite rebase_all_app.
  rewrite (IH entries (offset + 8) _ _ (rebase_all img (relr_step e position).1)); [by rewrite with_image_twice|..].
  - apply with_image_lookup.
  - lia.
  - lia.
  - lia.
  - intros i x Hx. destruct (Hw (S i) x Hx) as [Hin Hwx].
    replace (relr_offset + (offset + 8) + 8 * Z.of_nat i) with (relr_offset + offset + 8 * Z.of_nat (S i)) by lia.
    split; [by apply (rebase_all_inside _ img)|]. apply lookup_lt_Some in Hx.
    rewrite rebase_all_word; [done|done|lia|]. eapply Forall_impl; [exact Ha1|]. intros v Hv. apply Hv. lia.
  - eapply Forall_impl; [exact Hm2|]. intros v Hv. by apply rebase_all_mapped.
  - eapply Forall_impl; [exact Ha2|]. intros v Hv i Hr.
    replace (relr_offset + (offset + 8) + 8 * i) with (relr_offset + offset + 8 * (i + 1)) by lia. apply Hv. lia.
Qed.

(** Words that do not overlap are each rebased once. *)
Fixpoint all_apart (l : list Z) : Prop :=
  match l with
  | [] => True
  | v :: l' => Forall (fun w => apart (offset_of v) (offset_of w)) l' /\ all_apart l'
  end.

Lemma apart_comm (x y : Z) : apart x y -> apart y x.
Proof using. unfold apart. lia. Qed.

Lemma rebase_all_effect (l : list Z) : forall img, Forall (mapped img) l -> all_apart l ->
  (forall v, v ∈ l -> word (rebase_all img l) (offset_of v) = u64 (bias + word img (offset_of v))) /\
  (forall j, 0 <= j -> Forall (fun v => j < offset_of v \/ offset_of v + 8 <= j) l ->
     rebase_all img l !! Z.to_nat j = img !! Z.to_nat j).
Proof using.
  induction l as [|v l IH]; intros img Hl Ha; [split; [intros v []%not_elem_of_nil|done]|].
  apply Forall_cons in Hl as [[Hv Hin] Hl]. destruct Ha as [Hav Ha]. cbn [rebase_all foldl].
  fold (rebase_all (rebase_word img (offset_of v)) l).
  assert (Forall (mapped (rebase_word img (offset_of v))) l) as Hl'.
  { eapply Forall_impl; [exact Hl|]. intros x [Hx Hxi]. split; [done|]. by apply rebase_word_inside. }
  destruct (IH _ Hl' Ha) as [H1 H2]. split.
  - intros w [->|Hw]%elem_of_cons.
    + rewrite rebase_all_word; [|done|apply Hin|].
      * unfold rebase_word. rewrite word_put_same by done. by rewrite wrap_wrap.
      * eapply Forall_impl; [exact Hav|]. intros x. apply apart_comm.
    + rewrite H1 by done. unfold rebase_word at 1. rewrite word_put_other; [done|done|..].
      * rewrite Forall_forall in Hl. by apply Hl.
      * rewrite Forall_forall in Hav. by apply Hav.
  - intros j Hj Ho. apply Forall_cons in Ho as [Hjv Ho]. rewrite H2 by done. by apply put_lookup.
Qed.

Lemma rebase_all_length (l : list Z) : forall img, Forall (mapped img) l -> length (rebase_all img l) = length img.
Proof using.
  induction l as [|v l IH]; intros img Hl; [done|]. apply Forall_cons in Hl as [[Hv Hin] Hl]. cbn [rebase_all foldl].
  fold (rebase_all (rebase_word img (offset_of v)) l). rewrite IH; [by apply put_length|].
  eapply Forall_impl; [exact Hl|]. intros x [Hx Hxi]. split; [done|]. by apply rebase_word_inside.
Qed.

(** The words of the table. *)
Definition table_words (img : image) (off size : Z) : list Z :=
  (fun i => word img (off + 8 * Z.of_nat i)) <$> seq 0 (Z.to_nat (size / 8)).

(** Applying DT_RELR rebases the words that the packed format stands for:
    when these words are mapped, do not overlap each other and lie outside the
    table, each of them is increased by the load bias, once, and no other byte
    of the image changes. *)
Theorem relr_rebases (st : process_state) (img : image) (t : reloc_tables) (off : Z) :
  images st !! addr = Some img -> wf_elf (header prog) img ->
  rt_relr t <> 0 -> 0 < rt_relr_size t -> rt_relr_ent t = 8 -> rt_relr_size t mod 8 = 0 ->
  elf_vaddr_to_image_offset (header prog) (rt_relr t) (rt_relr_size t) = Ok off ->
  let vaddrs := relr_addresses 0 (table_words img off (rt_relr_size t)) in
  Forall (fun v => exists o, elf_vaddr_to_image_offset (header prog) v 8 = Ok o) vaddrs -> all_apart vaddrs ->
  Forall (fun v => offset_of v + 8 <= off \/ off + rt_relr_size t <= offset_of v) vaddrs ->
  exists img', apply_relr_table prog addr t st = (with_image st img', Ok tt) /\ length img' = length img /\
  (forall v, v ∈ vaddrs -> word img' (offset_of v) = u64 (bias + word img (offset_of v))) /\
  (forall j, 0 <= j -> Forall (fun v => j < offset_of v \/ offset_of v + 8 <= j) vaddrs ->
     img' !! Z.to_nat j = img !! Z.to_nat j).
Proof using.
  intros Hi Hwf Hr Hs He Hm Hoff vaddrs Hmap Hap Htab. pose proof (vaddr_inside _ _ _ _ Hoff) as (Ho0 & Ho1 & _).
  pose proof (we_size _ _ Hwf) as Hsz. pose proof (Z.div_mod (rt_relr_size t) 8 ltac:(lia)) as Hd.
  assert (0 <= rt_relr_size t / 8) by (apply Z.div_pos; lia).
  assert (Forall (mapped img) vaddrs) as Hmapped.
  { eapply Forall_impl; [exact Hmap|]. intros v (o & Ho). pose proof (vaddr_inside _ _ _ _ Ho) as (? & ? & Eo).
    unfold mapped, inside, offset_of. rewrite Ho, Eo. split; [done|]. lia. }
  exists (rebase_all img vaddrs). split; [|split; [by apply rebase_all_length|by apply rebase_all_effect]].
  unfold apply_relr_table. rewrite (proj2 (Z.eqb_neq _ _) Hr), (proj2 (Z.eqb_neq (rt_relr_size t) 0)), He, Hm by lia.
  cbn [negb andb orb Z.eqb Pos.eqb]. unfold mbind, proc_bind, vaddr_offset, lift. rewrite Hoff.
  assert (length (table_words img off (rt_relr_size t)) = Z.to_nat (rt_relr_size t / 8)) as Hlen
    by (unfold table_words; by rewrite length_fmap, length_seq).
  apply (relr_loop_runs off (rt_relr_size t) _ (table_words img off (rt_relr_size t))); try done; rewrite ?Hlen; try lia.
  - intros i e Hie. unfold table_words in Hie. rewrite list_lookup_fmap in Hie.
    apply fmap_Some in Hie as (n & Hn & ->). apply lookup_seq in Hn as [-> Hn]. rewrite Z.add_0_r.
    split; [|done]. unfold inside. lia.
  - eapply Forall_impl; [exact Htab|]. intros v Hv i Hr'. cbn beta in Hv. unfold apart. lia.
Qed.

End Relr.

(** Two words at 32 and 48, rebased to 0x5000; the table at 0 holds the address
    32 and a bit map for the word 8 behind it. *)
Definition relr_header : poly_program := MkProgramHeader 0x1000 64 0 0 0.
Definition relr_program : process_program := MkProgram relr_header POLY_ARCH_AARCH64 [] [] None None.
Definition relr_image : image :=
  le_bytes 8 0x1020 ++ le_bytes 8 5 ++ le_bytes 16 0 ++ le_bytes 8 0x1111 ++ le_bytes 8 0x2222 ++ le_bytes 8 0x3333 ++ le_bytes 8 0.
Definition relr_state : process_state := MkProcess {[ 0x5000 := relr_image ]} sample_state.

Lemma relr_image_addresses : relr_addresses 0 (table_words relr_image 0 16) = [0x1020; 0x1030].
Proof. vm_compute. reflexivity. Qed.

Lemma relr_rebases_witness : exists img',
  apply_relr_table relr_program 0x5000 (MkReloc 0 0 24 0 0 16 0x1000 16 8 0 0 0 (MkTables 0 0 0 24 0 0)) relr_state =
    (with_image 0x5000 relr_state img', Ok tt) /\
  word img' 32 = 0x1111 + 0x4000 /\ word img' 48 = 0x3333 + 0x4000.
Proof.
  destruct (relr_rebases relr_program 0x5000 relr_state relr_image
    (MkReloc 0 0 24 0 0 16 0x1000 16 8 0 0 0 (MkTables 0 0 0 24 0 0)) 0) as (img' & Hr & _ & Hv & _).
  - reflexivity.
  - constructor; try (cbn; unfold MAX_PROGRAM_BYTES; lia); [|reflexivity].
    unfold wf_image, relr_image. rewrite !Forall_app. split_and!; apply le_bytes_range.
  - done.
  - by compute.
  - reflexivity.
  - reflexivity.
  - reflexivity.
  - cbn [rt_relr_size]. rewrite relr_image_addresses. repeat constructor; eexists; reflexivity.
  - cbn [rt_relr_size]. rewrite relr_image_addresses. cbn [all_apart].
    split; [|done]. apply Forall_cons_2; [left; by compute|apply Forall_nil_2].
  - cbn [rt_relr_size]. rewrite relr_image_addresses.
    apply Forall_cons_2; [right; by compute|]. apply Forall_cons_2; [right; by compute|apply Forall_nil_2].
  - exists img'. cbn [rt_relr_size] in Hv. rewrite relr_image_addresses in Hv. split; [exact Hr|].
    split; [apply (Hv 0x1020)|apply (Hv 0x1030)]; rewrite !elem_of_cons; auto.
Defined.

(** ** The formulas of the other tables *)

Section Formulas.
  Context (programs : ptr -> option process_program).
  Context (call_guest : gmap Z image -> Z -> Z -> gmap Z image * Z).
  Context (env : run_env).
  Context (p : ptr) (prog : process_program) (addr tlsdesc_helper_pc tls_get_addr_helper_pc : Z).
  Context (Harch : known_arch (arch prog) = true) (Hhelper : tlsdesc_helper_pc <> 0).

#[local] Abbreviation B := (load_bias prog addr).
#[local] Abbreviation value := (symbolic_value programs call_guest env p prog addr tls_get_addr_helper_pc).
#[local] Abbreviation tls := (tls_symbol programs p addr).
#[local] Abbreviation is_type f ty := (ty = f (arch prog)).

(** What a relocation of symbol [sym], type [ty] and addend [A] means: the words
    at its target, and the state after its symbol is resolved.  [B] is the load
    bias, [S] the value of the symbol, [T] its offset in the thread-local
    block. *)
Inductive reloc_meaning (t : symbol_tables) (st : process_state) (sym ty A : Z) : process_state -> list Z -> Prop :=
  | mean_relative : sym = 0 -> is_type relative_reloc_type_for_arch ty -> reloc_meaning t st sym ty A st [u64 (B + A)]
  | mean_irelative st' v : sym = 0 -> is_type irelative_reloc_type_for_arch ty ->
      run_resolver call_guest env prog addr A st = (st', Ok v) -> reloc_meaning t st sym ty A st' [v]
  | mean_tprel st' T : sym <> 0 -> is_type tls_tprel_reloc_type_for_arch ty -> tls t sym st = (st', Ok T) ->
      reloc_meaning t st sym ty A st' [u64 (T + A)]
  | mean_tlsdesc st' T : sym <> 0 -> arch prog = POLY_ARCH_AARCH64 -> ty = R_AARCH64_TLSDESC ->
      tls t sym st = (st', Ok T) -> reloc_meaning t st sym ty A st' [tlsdesc_helper_pc; u64 (T + A)]
  | mean_dtpmod : is_type tls_dtpmod_type ty -> reloc_meaning t st sym ty A st [u64 (1 + A)]
  | mean_dtprel st' T : sym <> 0 -> is_type tls_dtprel_type ty -> tls t sym st = (st', Ok T) ->
      reloc_meaning t st sym ty A st' [u64 (T + A)]
  | mean_own st' S : sym <> 0 -> symbolic_64_reloc_type_for_arch (arch prog) ty = true ->
      value t sym st = (st', Ok (S, false)) -> reloc_meaning t st sym ty A st' [u64 (B + S + A)]
  | mean_bound st' S : sym <> 0 -> symbolic_64_reloc_type_for_arch (arch prog) ty = true ->
      value t sym st = (st', Ok (S, true)) -> reloc_meaning t st sym ty A st' [u64 (S + A)].

Definition put_words (img : image) (target : Z) (ws : list Z) : image :=
  foldl (fun img '(i, w) => put img (target + 8 * Z.of_nat i) w) img (zip (seq 0 (length ws)) ws).

Lemma u64_add_r (x y : Z) : u64 (x + u64 y) = u64 (x + y).
Proof using. unfold wrap. by rewrite Zplus_mod_idemp_r. Qed.
Lemma u64_add_l (x y : Z) : u64 (u64 x + y) = u64 (x + y).
Proof using. unfold wrap. by rewrite Zplus_mod_idemp_l. Qed.

(** The tests of the code on the types of a known architecture. *)
Lemma arch_cases : arch prog = POLY_ARCH_X86 \/ arch prog = POLY_ARCH_AARCH64 \/ arch prog = POLY_ARCH_RISCV.
Proof using Harch.
  unfold known_arch in Harch. destruct (Z.eqb_spec (arch prog) POLY_ARCH_X86); [by left|].
  destruct (Z.eqb_spec (arch prog) POLY_ARCH_AARCH64); [by right; left|].
  destruct (Z.eqb_spec (arch prog) POLY_ARCH_RISCV); [by right; right|done].
Qed.

(** Which test of the entry a type passes. *)
Record type_tests (ty : Z) (none copy rel irel tp desc mod_ dtp symb : bool) : Prop := TypeTests {
  tt_none : (ty =? none_reloc_type_for_arch (arch prog)) = none;
  tt_copy : (ty =? copy_reloc_type_for_arch (arch prog)) = copy;
  tt_rel : (ty =? relative_reloc_type_for_arch (arch prog)) = rel;
  tt_irel : (ty =? irelative_reloc_type_for_arch (arch prog)) = irel;
  tt_tp : (ty =? tls_tprel_reloc_type_for_arch (arch prog)) = tp;
  tt_desc : (ty =? tlsdesc_type (arch prog)) = desc;
  tt_mod : (ty =? tls_dtpmod_type (arch prog)) = mod_;
  tt_dtp : (ty =? tls_dtprel_type (arch prog)) = dtp;
  tt_symb : symbolic_64_reloc_type_for_arch (arch prog) ty = symb;
}.

Ltac arch_types := destruct arch_cases as [E | [E | E]]; rewrite E in *; subst; try done; constructor; rewrite E; reflexivity.

Lemma relative_tests (ty : Z) : is_type relative_reloc_type_for_arch ty ->
  type_tests ty false false true false false false false false false.
Proof using Harch. intros H. arch_types. Qed.
Lemma irelative_tests (ty : Z) : is_type irelative_reloc_type_for_arch ty ->
  type_tests ty false false false true false false false false false.
Proof using Harch. intros H. arch_types. Qed.
Lemma tprel_tests (ty : Z) : is_type tls_tprel_reloc_type_for_arch ty ->
  type_tests ty false false false false true false false false false.
Proof using Harch. intros H. arch_types. Qed.
Lemma tlsdesc_tests (ty : Z) : arch prog = POLY_ARCH_AARCH64 -> ty = R_AARCH64_TLSDESC ->
  type_tests ty false false false false false true false false false.
Proof using Harch. intros E ->. constructor; rewrite E; reflexivity. Qed.
Lemma dtpmod_tests (ty : Z) : is_type tls_dtpmod_type ty -> type_tests ty false false false false false false true false false.
Proof using Harch. intros H. arch_types. Qed.
Lemma dtprel_tests (ty : Z) : is_type tls_dtprel_type ty -> type_tests ty false false false false false false false true false.
Proof using Harch. intros H. arch_types. Qed.
Lemma symbolic_tests (ty : Z) : symbolic_64_reloc_type_for_arch (arch prog) ty = true ->
  type_tests ty false false false false false false false false true.
Proof using Harch.
  intros H. destruct arch_cases as [E | [E | E]]; rewrite E in H; cbn in H; repeat (apply orb_prop in H as [H|H]);
    apply Z.eqb_eq in H; subst; constructor; rewrite E; reflexivity.
Qed.

Lemma bind_step {X Y} (m : proc X) (f : X -> proc Y) (st st' : process_state) (x : X) :
  m st = (st', Ok x) -> (m ≫= f) st = f x st'.
Proof using. intros H. unfold mbind, proc_bind. by rewrite H. Qed.

(** A smaller range at the same address. *)
Lemma vaddr_smaller (v n m off : Z) : 0 <= m <= n -> elf_vaddr_to_image_offset (header prog) v n = Ok off ->
  elf_vaddr_to_image_offset (header prog) v m = Ok off.
Proof using.
  intros Hm H. pose proof H as (H0 & H1 & ->)%vaddr_inside. revert H. unfold elf_vaddr_to_image_offset.
  destruct (_ || _) eqn:E1; [done|]. breflect. intros _.
  assert ((v <? base_vaddr (header prog)) || (v >? UINT64_MAX - m) = false) as ->.
  { rewrite Z.gtb_ltb, !(proj2 (Z.ltb_ge _ _)) by lia. done. }
  assert ((v - base_vaddr (header prog) >? code_size (header prog)) ||
          (m >? code_size (header prog) - (v - base_vaddr (header prog))) = false) as ->; [|done].
  rewrite !Z.gtb_ltb, !(proj2 (Z.ltb_ge _ _)) by lia. done.
Qed.

(** An entry of a table: where it is, what it says and where its target is. *)
Record entry_at (st : process_state) (img : image) (off sym ty target n : Z) : Prop := EntryAt {
  ea_image : images st !! addr = Some img;
  ea_offset : inside img off;
  ea_info : inside img (off + 8);
  ea_sym : ELF64_R_SYM (word img (off + 8)) = sym;
  ea_type : ELF64_R_TYPE (word img (off + 8)) = ty;
  ea_range : elf_vaddr_to_image_offset (header prog) (word img off) (8 * n) = Ok target;
  ea_inside : 0 <= target /\ target + 8 * n <= size_of img;
}.

(** The reads that every entry starts with. *)
Lemma entry_reads (st : process_state) (img : image) (off sym ty target n : Z) :
  entry_at st img off sym ty target n -> 1 <= n ->
  read_image_u64 addr (off + 8) st = (st, Ok (word img (off + 8))) /\
  read_image_u64 addr off st = (st, Ok (word img off)) /\
  vaddr_offset prog (word img off) 8 st = (st, Ok target) /\ inside img target.
Proof using.
  intros [Hi Ho Hinfo Hs Ht Hr Hin] Hn. split; [by apply read_image_word|]. split; [by apply read_image_word|].
  split; [|unfold inside; lia]. unfold vaddr_offset, lift. by rewrite (vaddr_smaller _ (8 * n) 8 target) by (done || lia).
Qed.

Lemma two_words (st : process_state) (img : image) (target w1 w2 : Z) : images st !! addr = Some img ->
  0 <= target -> target + 16 <= size_of img ->
  write_image_u64 addr target w1 st = (with_image addr st (put img target w1), Ok tt) /\
  write_image_u64 addr (target + 8) w2 (with_image addr st (put img target w1)) =
    (with_image addr st (put_words img target [w1; w2]), Ok tt).
Proof using.
  intros Hi H0 H1. split; [apply write_image_word; [done|unfold inside; lia]|].
  rewrite (write_image_word addr _ (put img target w1)); [|apply with_image_lookup|apply inside_put; unfold inside; lia].
  rewrite with_image_twice. unfold put_words. cbn. by rewrite Z.add_0_r.
Qed.

Lemma one_word (st : process_state) (img : image) (target w : Z) : images st !! addr = Some img -> inside img target ->
  write_image_u64 addr target w st = (with_image addr st (put_words img target [w]), Ok tt).
Proof using. intros Hi Hin. rewrite (write_image_word addr st img) by done. unfold put_words. cbn. by rewrite Z.add_0_r. Qed.

(** Evaluates the tests on the type and on the symbol. *)
Ltac run_tests T :=
  destruct T as [T1 T2 T3 T4 T5 T6 T7 T8 T9]; rewrite ?T1, ?T2, ?T3, ?T4, ?T5, ?T6, ?T7, ?T8, ?T9, ?andb_false_r, ?andb_true_r;
  cbn [andb orb negb].
Ltac symbol_test H := first [rewrite H; cbn [Z.eqb negb andb orb] | rewrite (proj2 (Z.eqb_neq _ _) H); cbn [negb andb orb]].

Lemma rela_formula (t : symbol_tables) (st st' : process_state) (img : image) (off sym ty target : Z) (ws : list Z) :
  entry_at st img off sym ty target (Z.of_nat (length ws)) -> inside img (off + 16) ->
  reloc_meaning t st sym ty (word img (off + 16)) st' ws -> images st' !! addr = Some img ->
  (length ws = 2%nat -> apart target (off + 16)) ->
  apply_rela programs call_guest env p prog addr tlsdesc_helper_pc tls_get_addr_helper_pc t off st =
  (with_image addr st' (put_words img target ws), Ok tt).
Proof using Harch Hhelper.
  intros He Ha Hm Hi' Hap.
  assert (1 <= Z.of_nat (length ws)) as Hn by (destruct Hm; cbn; lia).
  destruct (entry_reads _ _ _ _ _ _ _ He Hn) as (R1 & R2 & R3 & Hin). pose proof (ea_image _ _ _ _ _ _ _ He) as Hi.
  pose proof (read_image_word addr st img _ Hi Ha) as R4. pose proof (read_image_word addr st' img _ Hi' Ha) as R5.
  unfold apply_rela. rewrite (bind_step _ _ _ _ _ R1), (ea_sym _ _ _ _ _ _ _ He), (ea_type _ _ _ _ _ _ _ He). cbn zeta.
  unfold store_value. pose proof (one_word st' img target) as W.
  destruct Hm as [Hs Ty|st' v Hs Ty Hv|st' T Hs Ty Hv|st' T Hs Ea Ty Hv|Ty|st' T Hs Ty Hv|st' S Hs Ty Hv|st' S Hs Ty Hv].
  - run_tests (relative_tests _ Ty). symbol_test Hs.
    by rewrite (bind_step _ _ _ _ _ R2), (bind_step _ _ _ _ _ R3), (bind_step _ _ _ _ _ R4), W.
  - run_tests (irelative_tests _ Ty). symbol_test Hs.
    by rewrite (bind_step _ _ _ _ _ R2), (bind_step _ _ _ _ _ R3), (bind_step _ _ _ _ _ R4), (bind_step _ _ _ _ _ Hv), W.
  - run_tests (tprel_tests _ Ty). symbol_test Hs.
    by rewrite (bind_step _ _ _ _ _ R2), (bind_step _ _ _ _ _ R3), (bind_step _ _ _ _ _ Hv), (bind_step _ _ _ _ _ R5), W.
  - run_tests (tlsdesc_tests _ Ea Ty). symbol_test Hs. rewrite (proj2 (Z.eqb_neq _ _) Hhelper).
    rewrite (bind_step _ _ _ _ _ R2), (bind_step _ _ _ _ _ R3). cbn [length] in He.
    assert (vaddr_offset prog (word img off) 16 st = (st, Ok target)) as R16
      by (unfold vaddr_offset, lift; f_equal; exact (ea_range _ _ _ _ _ _ _ He)).
    pose proof (ea_inside _ _ _ _ _ _ _ He) as [I1 I2].
    destruct (two_words st' img target tlsdesc_helper_pc (u64 (T + word img (off + 16))) Hi' I1) as [W1 W2]; [lia|].
    rewrite (bind_step _ _ _ _ _ R16), (bind_step _ _ _ _ _ Hv), (bind_step _ _ _ _ _ W1).
    rewrite (bind_step _ _ (with_image addr st' (put img target tlsdesc_helper_pc)) (with_image addr st' (put img target tlsdesc_helper_pc))
      (word img (off + 16))); [done|].
    rewrite (read_image_word addr _ (put img target tlsdesc_helper_pc)); [|apply with_image_lookup|by apply inside_put].
    rewrite word_put_other; [done|done|destruct Ha; lia|by apply Hap].
  - run_tests (dtpmod_tests _ Ty).
    by rewrite (bind_step _ _ _ _ _ R2), (bind_step _ _ _ _ _ R3), (bind_step _ _ _ _ _ R4), W.
  - run_tests (dtprel_tests _ Ty). symbol_test Hs.
    by rewrite (bind_step _ _ _ _ _ R2), (bind_step _ _ _ _ _ R3), (bind_step _ _ _ _ _ Hv), (bind_step _ _ _ _ _ R5), W.
  - run_tests (symbolic_tests _ Ty). symbol_test Hs.
    rewrite (bind_step _ _ _ _ _ R2), (bind_step _ _ _ _ _ R3), (bind_step _ _ _ _ _ Hv), (bind_step _ _ _ _ _ R5), W by done.
    by rewrite u64_add_r, Z.add_assoc.
  - run_tests (symbolic_tests _ Ty). symbol_test Hs.
    by rewrite (bind_step _ _ _ _ _ R2), (bind_step _ _ _ _ _ R3), (bind_step _ _ _ _ _ Hv), (bind_step _ _ _ _ _ R5), W.
Qed.

(** DT_REL keeps the addend in the word it relocates, the last one of two. *)
Definition addend_at (img : image) (target : Z) (ws : list Z) : Z :=
  word img (target + 8 * (Z.of_nat (length ws) - 1)).

Lemma rel_formula (t : symbol_tables) (st st' : process_state) (img : image) (off sym ty target : Z) (ws : list Z) :
  entry_at st img off sym ty target (Z.of_nat (length ws)) ->
  reloc_meaning t st sym ty (addend_at img target ws) st' ws -> images st' !! addr = Some img ->
  apply_rel programs call_guest env p prog addr tlsdesc_helper_pc tls_get_addr_helper_pc t off st =
  (with_image addr st' (put_words img target ws), Ok tt).
Proof using Harch Hhelper.
  intros He Hm Hi'.
  assert (1 <= Z.of_nat (length ws)) as Hn by (destruct Hm; cbn; lia).
  destruct (entry_reads _ _ _ _ _ _ _ He Hn) as (R1 & R2 & R3 & Hin). pose proof (ea_image _ _ _ _ _ _ _ He) as Hi.
  pose proof (read_image_word addr st img _ Hi Hin) as R4.
  unfold apply_rel. rewrite (bind_step _ _ _ _ _ R1), (ea_sym _ _ _ _ _ _ _ He), (ea_type _ _ _ _ _ _ _ He). cbn zeta.
  unfold store_value. pose proof (one_word st' img target) as W.
  assert (forall w, addend_at img target [w] = word img target) as Ha1 by (intros w; unfold addend_at; cbn; by rewrite Z.add_0_r).
  remember (addend_at img target ws) as A eqn:EA.
  destruct Hm as [Hs Ty|st' v Hs Ty Hv|st' T Hs Ty Hv|st' T Hs Ea Ty Hv|Ty|st' T Hs Ty Hv|st' S Hs Ty Hv|st' S Hs Ty Hv].
  - run_tests (relative_tests _ Ty). symbol_test Hs.
    by rewrite (bind_step _ _ _ _ _ R2), (bind_step _ _ _ _ _ R3), (bind_step _ _ _ _ _ R4), W, EA, Ha1.
  - rewrite Ha1 in EA; subst A. run_tests (irelative_tests _ Ty). symbol_test Hs.
    by rewrite (bind_step _ _ _ _ _ R2), (bind_step _ _ _ _ _ R3), (bind_step _ _ _ _ _ R4), (bind_step _ _ _ _ _ Hv), W.
  - run_tests (tprel_tests _ Ty). symbol_test Hs.
    rewrite (bind_step _ _ _ _ _ R2), (bind_step _ _ _ _ _ R3), (bind_step _ _ _ _ _ R4), (bind_step _ _ _ _ _ Hv), W, EA, Ha1 by done.
    by rewrite Z.add_comm.
  - run_tests (tlsdesc_tests _ Ea Ty). symbol_test Hs. rewrite (proj2 (Z.eqb_neq _ _) Hhelper).
    rewrite (bind_step _ _ _ _ _ R2), (bind_step _ _ _ _ _ R3), (bind_step _ _ _ _ _ R4). cbn [length] in He.
    assert (vaddr_offset prog (word img off) 16 st = (st, Ok target)) as R16
      by (unfold vaddr_offset, lift; f_equal; exact (ea_range _ _ _ _ _ _ _ He)).
    pose proof (ea_inside _ _ _ _ _ _ _ He) as [I1 I2].
    destruct (two_words st' img target tlsdesc_helper_pc (u64 (word img (target + 8) + T)) Hi' I1) as [W1 W2]; [lia|].
    rewrite (bind_step _ _ _ _ _ R16), (bind_step _ _ _ _ _ Hv), (bind_step _ _ _ _ _ W1).
    rewrite (bind_step _ _ (with_image addr st' (put img target tlsdesc_helper_pc)) (with_image addr st' (put img target tlsdesc_helper_pc))
      (word img (target + 8))).
    + rewrite W2, EA. unfold addend_at. cbn [length]. change (8 * (Z.of_nat 2 - 1)) with 8. by rewrite Z.add_comm.
    + rewrite (read_image_word addr _ (put img target tlsdesc_helper_pc)); [|apply with_image_lookup|apply inside_put; unfold inside; lia].
      rewrite word_put_other; [done|done|lia|unfold apart; lia].
  - run_tests (dtpmod_tests _ Ty).
    rewrite (bind_step _ _ _ _ _ R2), (bind_step _ _ _ _ _ R3), (bind_step _ _ _ _ _ R4), W, EA, Ha1 by done. by rewrite Z.add_comm.
  - run_tests (dtprel_tests _ Ty). symbol_test Hs.
    rewrite (bind_step _ _ _ _ _ R2), (bind_step _ _ _ _ _ R3), (bind_step _ _ _ _ _ R4), (bind_step _ _ _ _ _ Hv), W, EA, Ha1 by done.
    by rewrite Z.add_comm.
  - run_tests (symbolic_tests _ Ty). symbol_test Hs.
    rewrite (bind_step _ _ _ _ _ R2), (bind_step _ _ _ _ _ R3), (bind_step _ _ _ _ _ R4), (bind_step _ _ _ _ _ Hv), W, EA, Ha1 by done.
    by rewrite u64_add_r, (Z.add_comm (word img target)), Z.add_assoc.
  - run_tests (symbolic_tests _ Ty). symbol_test Hs.
    rewrite (bind_step _ _ _ _ _ R2), (bind_step _ _ _ _ _ R3), (bind_step _ _ _ _ _ R4), (bind_step _ _ _ _ _ Hv), W, EA, Ha1 by done.
    by rewrite Z.add_comm.
Qed.

(** The types of the procedure linkage table. *)
Definition plt_type (ty : Z) : Prop :=
  symbolic_64_reloc_type_for_arch (arch prog) ty = true \/ (arch prog = POLY_ARCH_AARCH64 /\ ty = R_AARCH64_TLSDESC).

(** What a relocation of such a type is. *)
Lemma plt_meaning (t : symbol_tables) (st st' : process_state) (sym ty A : Z) (ws : list Z) :
  plt_type ty -> sym <> 0 -> reloc_meaning t st sym ty A st' ws ->
  (exists T, arch prog = POLY_ARCH_AARCH64 /\ ty = R_AARCH64_TLSDESC /\ tls t sym st = (st', Ok T) /\
     ws = [tlsdesc_helper_pc; u64 (T + A)]) \/
  (exists S b, symbolic_64_reloc_type_for_arch (arch prog) ty = true /\ value t sym st = (st', Ok (S, b)) /\
     ws = [u64 ((if b then S else u64 (B + S)) + A)]).
Proof using Harch.
  intros Hp Hs Hm.
  assert (type_tests ty false false false false false false false false true \/
          type_tests ty false false false false false true false false false) as Ht.
  { destruct Hp as [H|[E H]]; [left; by apply symbolic_tests|right; by apply tlsdesc_tests]. }
  destruct Hm as [?|?|st' T _ Ty Hv|st' T _ Ea Ty Hv|Ty|st' T _ Ty Hv|st' S _ Ty Hv|st' S _ Ty Hv]; try done.
  - exfalso. apply tprel_tests in Ty. destruct Ht as [[] | []], Ty; congruence.
  - left. by exists T.
  - exfalso. apply dtpmod_tests in Ty. destruct Ht as [[] | []], Ty; congruence.
  - exfalso. apply dtprel_tests in Ty. destruct Ht as [[] | []], Ty; congruence.
  - right. exists S, false. split_and!; [done|done|]. by rewrite u64_add_l.
  - right. by exists S, true.
Qed.

Lemma plt_rela_formula (t : symbol_tables) (st st' : process_state) (img : image) (off sym ty target : Z) (ws : list Z) :
  entry_at st img off sym ty target (Z.of_nat (length ws)) -> inside img (off + 16) -> plt_type ty -> sym <> 0 ->
  reloc_meaning t st sym ty (word img (off + 16)) st' ws -> images st' !! addr = Some img ->
  (length ws = 2%nat -> apart target (off + 16)) ->
  apply_plt_rela programs call_guest env p prog addr tlsdesc_helper_pc tls_get_addr_helper_pc t off st =
  (with_image addr st' (put_words img target ws), Ok tt).
Proof using Harch Hhelper.
  intros He Ha Hp Hs Hm Hi' Hap.
  assert (1 <= Z.of_nat (length ws)) as Hn by (destruct Hm; cbn; lia).
  destruct (entry_reads _ _ _ _ _ _ _ He Hn) as (R1 & R2 & R3 & Hin). pose proof (ea_image _ _ _ _ _ _ _ He) as Hi.
  pose proof (read_image_word addr st' img _ Hi' Ha) as R5.
  unfold apply_plt_rela. rewrite (bind_step _ _ _ _ _ R1), (ea_sym _ _ _ _ _ _ _ He), (ea_type _ _ _ _ _ _ _ He). cbn zeta.
  destruct (plt_meaning _ _ _ _ _ _ _ Hp Hs Hm) as [(T & Ea & Ty & Hv & ->)|(S & b & Ty & Hv & ->)].
  - run_tests (tlsdesc_tests _ Ea Ty). symbol_test Hs. rewrite (proj2 (Z.eqb_neq _ _) Hhelper).
    rewrite (bind_step _ _ _ _ _ R2). cbn [length] in He.
    assert (vaddr_offset prog (word img off) 16 st = (st, Ok target)) as R16
      by (unfold vaddr_offset, lift; f_equal; exact (ea_range _ _ _ _ _ _ _ He)).
    pose proof (ea_inside _ _ _ _ _ _ _ He) as [I1 I2].
    destruct (two_words st' img target tlsdesc_helper_pc (u64 (T + word img (off + 16))) Hi' I1) as [W1 W2]; [lia|].
    rewrite (bind_step _ _ _ _ _ R16), (bind_step _ _ _ _ _ Hv), (bind_step _ _ _ _ _ W1).
    rewrite (bind_step _ _ (with_image addr st' (put img target tlsdesc_helper_pc)) (with_image addr st' (put img target tlsdesc_helper_pc))
      (word img (off + 16))); [done|].
    rewrite (read_image_word addr _ (put img target tlsdesc_helper_pc)); [|apply with_image_lookup|by apply inside_put].
    rewrite word_put_other; [done|done|destruct Ha; lia|by apply Hap].
  - run_tests (symbolic_tests _ Ty). symbol_test Hs.
    pose proof (read_image_word addr st' img _ Hi' (ea_offset _ _ _ _ _ _ _ He)) as R2'.
    assert (vaddr_offset prog (word img off) 8 st' = (st', Ok target)) as R3' by (unfold vaddr_offset, lift in *; congruence).
    rewrite (bind_step _ _ _ _ _ Hv), (bind_step _ _ _ _ _ R2'), (bind_step _ _ _ _ _ R3'), (bind_step _ _ _ _ _ R5).
    by apply one_word.
Qed.

Lemma plt_rel_formula (t : symbol_tables) (st st' : process_state) (img : image) (off sym ty target : Z) (ws : list Z) :
  entry_at st img off sym ty target (Z.of_nat (length ws)) -> plt_type ty -> sym <> 0 ->
  reloc_meaning t st sym ty (addend_at img target ws) st' ws -> images st' !! addr = Some img ->
  apply_plt_rel programs call_guest env p prog addr tlsdesc_helper_pc tls_get_addr_helper_pc t off st =
  (with_image addr st' (put_words img target ws), Ok tt).
Proof using Harch Hhelper.
  intros He Hp Hs Hm Hi'. remember (addend_at img target ws) as A eqn:EA.
  assert (1 <= Z.of_nat (length ws)) as Hn by (destruct Hm; cbn; lia).
  destruct (entry_reads _ _ _ _ _ _ _ He Hn) as (R1 & R2 & R3 & Hin). pose proof (ea_image _ _ _ _ _ _ _ He) as Hi.
  unfold apply_plt_rel. rewrite (bind_step _ _ _ _ _ R1), (ea_sym _ _ _ _ _ _ _ He), (ea_type _ _ _ _ _ _ _ He). cbn zeta.
  destruct (plt_meaning _ _ _ _ _ _ _ Hp Hs Hm) as [(T & Ea & Ty & Hv & ->)|(S & b & Ty & Hv & ->)].
  - run_tests (tlsdesc_tests _ Ea Ty). symbol_test Hs. rewrite (proj2 (Z.eqb_neq _ _) Hhelper).
    rewrite (bind_step _ _ _ _ _ R2). cbn [length] in He.
    assert (vaddr_offset prog (word img off) 16 st = (st, Ok target)) as R16
      by (unfold vaddr_offset, lift; f_equal; exact (ea_range _ _ _ _ _ _ _ He)).
    pose proof (ea_inside _ _ _ _ _ _ _ He) as [I1 I2].
    destruct (two_words st' img target tlsdesc_helper_pc (u64 (word img (target + 8) + T)) Hi' I1) as [W1 W2]; [lia|].
    rewrite (bind_step _ _ _ _ _ R16), (bind_step _ _ _ _ _ Hv), (bind_step _ _ _ _ _ W1).
    rewrite (bind_step _ _ (with_image addr st' (put img target tlsdesc_helper_pc)) (with_image addr st' (put img target tlsdesc_helper_pc))
      (word img (target + 8))).
    + rewrite W2, EA. unfold addend_at. cbn [length]. change (8 * (Z.of_nat 2 - 1)) with 8. by rewrite Z.add_comm.
    + rewrite (read_image_word addr _ (put img target tlsdesc_helper_pc)); [|apply with_image_lookup|apply inside_put; unfold inside; lia].
      rewrite word_put_other; [done|done|lia|unfold apart; lia].
  - run_tests (symbolic_tests _ Ty). symbol_test Hs.
    pose proof (read_image_word addr st' img _ Hi' Hin) as R4'.
    rewrite (bind_step _ _ _ _ _ R2), (bind_step _ _ _ _ _ R3), (bind_step _ _ _ _ _ Hv), (bind_step _ _ _ _ _ R4').
    rewrite EA. unfold addend_at. cbn [length]. change (8 * (Z.of_nat 1 - 1)) with 0. rewrite Z.add_0_r. by apply one_word.
Qed.

(** C5: Every table format writes what the relocation means: a RELA entry with
    its addend field and a REL entry with the addend in place put the words of
    the ELF formula at the target ([B + A], [S + A] or [B + S + A], the
    resolver's result, the module number, the offset in the thread-local block,
    or a descriptor of helper and offset) and change nothing else; the
    procedure linkage table gives the same result for the types it accepts. *)
Theorem relocation_formulas (t : symbol_tables) (st st' : process_state) (img : image) (off sym ty target : Z) (ws : list Z) :
  entry_at st img off sym ty target (Z.of_nat (length ws)) -> images st' !! addr = Some img ->
  let result := (with_image addr st' (put_words img target ws), Ok tt) in
  (inside img (off + 16) -> (length ws = 2%nat -> apart target (off + 16)) ->
   reloc_meaning t st sym ty (word img (off + 16)) st' ws ->
   apply_rela programs call_guest env p prog addr tlsdesc_helper_pc tls_get_addr_helper_pc t off st = result /\
   (plt_type ty -> sym <> 0 ->
    apply_plt_rela programs call_guest env p prog addr tlsdesc_helper_pc tls_get_addr_helper_pc t off st = result)) /\
  (reloc_meaning t st sym ty (addend_at img target ws) st' ws ->
   apply_rel programs call_guest env p prog addr tlsdesc_helper_pc tls_get_addr_helper_pc t off st = result /\
   (plt_type ty -> sym <> 0 ->
    apply_plt_rel programs call_guest env p prog addr tlsdesc_helper_pc tls_get_addr_helper_pc t off st = result)).
Proof using Harch Hhelper.
  intros He Hi' result. split.
  - intros Ha Hap Hm. split; [by eapply rela_formula|]. intros Hp Hs. by eapply plt_rela_formula.
  - intros Hm. split; [by eapply rel_formula|]. intros Hp Hs. by eapply plt_rel_formula.
Qed.

End Formulas.

(** One RELA entry at 0: the word at 40 is the base plus 0x1234. *)
Definition rela_image : image :=
  le_bytes 8 0x1028 ++ le_bytes 8 R_AARCH64_RELATIVE ++ le_bytes 8 0x1234 ++ le_bytes 40 0.
Definition rela_state : process_state := MkProcess {[ 0x5000 := rela_image ]} sample_state.

Lemma relocation_formulas_witness :
  apply_rela (fun _ => None) no_guest sample_run_env 1%positive relr_program 0x5000 1 0 (MkTables 0 0 0 24 0 0) 0 rela_state =
  (with_image 0x5000 rela_state (put_words rela_image 40 [0x5234]), Ok tt).
Proof.
  destruct (relocation_formulas (fun _ => None) no_guest sample_run_env 1%positive relr_program 0x5000 1 0 eq_refl
    ltac:(discriminate) (MkTables 0 0 0 24 0 0) rela_state rela_state rela_image 0 0 R_AARCH64_RELATIVE 40 [0x5234]) as [H _].
  - split; by compute.
  - reflexivity.
  - apply H.
    + by compute.
    + discriminate.
    + exact (mean_relative (fun _ => None) no_guest sample_run_env 1%positive relr_program 0x5000 1 0
        (MkTables 0 0 0 24 0 0) rela_state 0 R_AARCH64_RELATIVE 0x1234 eq_refl eq_refl).
Defined.
