(* ===== verification/ProcessLifecycle.v ===== *)
(** Mapping the libraries of a process, their initializers and finalizers, and the
    layout of thread-local storage over the tree ([map_process_dependencies] and the
    functions around it in [tools/runtime/polyexec.c]).

    The state is the store of programs, the loaded images with the call stubs, and a
    log of what the loader does outside: mappings, protections, calls of guest code.
    Running guest code ([call_guest]), the addresses that [mmap] returns and the
    failures of [mprotect] are parameters.  An image is mapped with its code; the
    rest of its last page is never read by the loader.  Functions that follow the
    tree take a fuel; [ProcessOrder] shows that the number of programs is enough. *)

From stdpp Require Import gmap.
From S2P Require Import Prelude LoaderBase BridgeSpec ElfImage ElfSymbols CodeEmit Trampoline CrossStub TlsHelpers ElfLoad LibraryPath ElfDeps DependencyLoad Relocation.

Definition PF_X : Z := 1.
Definition PF_W : Z := 2.
Definition PF_R : Z := 4.
Definition PROT_READ : Z := 1.
Definition PROT_WRITE : Z := 2.
Definition PROT_EXEC : Z := 4.
Definition PAGE : Z := 0x1000.

(** ** State *)

Inductive process_event : Type :=
  | EvMap (addr size : Z)
  | EvUnmap (addr size : Z)
  | EvProtect (addr size prot : Z)
  | EvCall (p : ptr) (target : Z).

Record run_state : Type := MkRun {
  ru_store : process;
  ru_proc : process_state;
  ru_log : list process_event;
}.

Definition run (A : Type) : Type := run_state -> run_state * outcome A.

#[export] Instance run_ret : MRet run := fun A a st => (st, Ok a).
#[export] Instance run_bind : MBind run := fun A B f m st =>
  match m st with
  | (st', Ok a) => f a st'
  | (st', Err) => (st', Err)
  | (st', Fault) => (st', Fault)
  | (st', Spin) => (st', Spin)
  end.

Definition run_outcome {A} (m : outcome A) : run A := fun st => (st, m).

(** Steps on the store and on the images. *)
Definition on_store {A} (m : ld A) : run A := fun st =>
  let '(s, r) := m (ru_store st) in (MkRun s (ru_proc st) (ru_log st), r).
Definition on_images {A} (m : proc A) : run A := fun st =>
  let '(s, r) := m (ru_proc st) in (MkRun (ru_store st) s (ru_log st), r).
Definition log_event (e : process_event) : run unit := fun st =>
  (MkRun (ru_store st) (ru_proc st) (ru_log st ++ [e]), Ok tt).

Definition node_of (p : ptr) : run program_node := on_store (get_node p).
Definition dep_of (d : dep_ref) : run dependency := on_store (get_dep d).
Definition deref {A} (o : option A) : run A := run_outcome (match o with Some a => Ok a | None => Fault end).

(** Assignment to a dependency. *)
Definition set_dep (d : dep_ref) (f : dependency -> dependency) : run unit :=
  node ← node_of d.1; on_store (put_node d.1 (set_deps (alter f d.2 (nd_deps node)) node)).

Definition with_mapping (mapping : option Z) (size : Z) (loaded_image : option Z) (dep : dependency) : dependency :=
  MkDependency (dp_path dep) (dp_program dep) (dp_shared_from dep) mapping size loaded_image.

(** The loop over a list, left at the first failure. *)
Fixpoint each {A} (f : A -> run unit) (l : list A) : run unit :=
  match l with [] => mret tt | a :: l' => f a;; each f l' end.

(** The dependencies of a program. *)
Definition dep_refs (p : ptr) (node : program_node) : list dep_ref := (fun i => (p, i)) <$> seq 0 (length (nd_deps node)).

(** A program as the symbol searches see it. *)
Definition program_view (store : process) (p : ptr) : option process_program :=
  node ← ps_nodes store !! p;
  let prog := nd_program node in
  let h := lp_header prog in
  Some (MkProgram (MkProgramHeader (base_vaddr h) (code_size h) (dynamic_offset h) (dynamic_size h) (nd_tls_offset node))
          (lp_arch prog) (lp_bridge_specs prog) ((fun dep => MkDep (dp_program dep) (dp_loaded_image dep)) <$> nd_deps node)
          (nd_scope_root_program node) (nd_scope_root_loaded_image node)).

(** ** Protection *)

Definition load_segment_prot (flags : Z) : Z :=
  let prot := if negb (Z.land flags PF_R =? 0) then PROT_READ else 0 in
  let prot := if negb (Z.land flags PF_W =? 0) then Z.lor prot PROT_WRITE else prot in
  if negb (Z.land flags PF_X =? 0) then Z.lor prot PROT_EXEC else prot.

(** The pages of a range of the image: address and length. *)
Definition protected_range (header : poly_program) (img vaddr size : Z) : outcome (Z * Z) :=
  if (vaddr <? base_vaddr header) || (vaddr >? UINT64_MAX - size) then Err
  else
    let start := align_down_u64 vaddr PAGE in
    let end_unaligned := vaddr + size in
    if end_unaligned >? UINT64_MAX - 0xfff then Err
    else
      let end_ := align_up_u64 end_unaligned PAGE in
      let mapped_image_size := align_up_u64 (code_size header) PAGE in
      if (start <? base_vaddr header) || (end_ <? start) || (end_ - start >? SIZE_MAX) ||
         (end_ - base_vaddr header >? mapped_image_size) then Err
      else Ok (u64 (img + (start - base_vaddr header)), end_ - start).

Section Lifecycle.
Context (call_guest : gmap Z image -> Z -> Z -> gmap Z image * Z).
Context (mmap : gmap Z image -> Z -> option Z) (mprotect_fails : Z -> Z -> Z -> bool).
Context (env : run_env).

Definition protect_image_range (header : poly_program) (img vaddr size prot : Z) : run unit :=
  if size =? 0 then mret tt
  else
    '(addr, length) ← run_outcome (protected_range header img vaddr size);
    log_event (EvProtect addr length prot);;
    if mprotect_fails addr length prot then run_outcome Err else mret tt.

Definition protect_load_segments (prog : loaded_program) (img : Z) : run unit :=
  each (fun seg => protect_image_range (lp_header prog) img (seg_vaddr seg) (seg_memsz seg) (load_segment_prot (seg_flags seg)))
    (lp_load_segments prog).

(** ** Calls *)

Definition run_guest_at (prog_arch target_pc : Z) : run unit := fun st =>
  let '(imgs, _) := call_guest (images (ru_proc st)) prog_arch target_pc in
  (MkRun (ru_store st) (MkProcess imgs (stubs (ru_proc st))) (ru_log st), Ok tt).

Definition call_process_initializer (p : ptr) (prog : loaded_program) (target_pc : Z) : run unit :=
  if snd (emit_poly_trampoline (lp_arch prog) (trampoline_code env) (prefix_size env) (return_pc env) target_pc false) <? 0
  then run_outcome Err
  else log_event (EvCall p target_pc);; run_guest_at (lp_arch prog) target_pc.

(** The entry of an array, read when its turn comes; a null entry is skipped. *)
Definition call_array_entry (p : ptr) (prog : loaded_program) (loaded_image array_offset n : Z) : run unit :=
  img ← on_images (get_image loaded_image);
  target ← run_outcome (read_u64_le img (array_offset + n * 8));
  if negb (target =? 0) then call_process_initializer p prog target else mret tt.

(** The offset of an array in the image. *)
Definition lifecycle_array (prog : loaded_program) (array_vaddr array_size : Z) : outcome Z :=
  if (array_vaddr =? 0) || negb (array_size mod 8 =? 0) then Err
  else elf_vaddr_to_image_offset (lp_header prog) array_vaddr array_size.

Definition array_indices (array_size : Z) : list Z := Z.of_nat <$> seq 0 (Z.to_nat (array_size / 8)).

Definition run_process_initializer_array (p : ptr) (prog : loaded_program) (loaded_image array_vaddr array_size : Z) : run unit :=
  if array_size =? 0 then mret tt
  else
    array_offset ← run_outcome (lifecycle_array prog array_vaddr array_size);
    each (call_array_entry p prog loaded_image array_offset) (array_indices array_size).

Definition run_process_preinitializers (p : ptr) (prog : loaded_program) (loaded_image : Z) : run unit :=
  run_process_initializer_array p prog loaded_image (preinit_array_vaddr (lp_lifecycle prog))
    (preinit_array_size (lp_lifecycle prog)).

Definition lifecycle_bias (prog : loaded_program) (loaded_image : Z) : Z :=
  u64 (loaded_image - base_vaddr (lp_header prog)).

Definition run_process_initializers (p : ptr) (prog : loaded_program) (loaded_image : Z) : run unit :=
  let l := lp_lifecycle prog in
  (if negb (init_vaddr l =? 0)
   then call_process_initializer p prog (u64 (lifecycle_bias prog loaded_image + init_vaddr l)) else mret tt);;
  if init_array_size l =? 0 then mret tt
  else run_process_initializer_array p prog loaded_image (init_array_vaddr l) (init_array_size l).

Definition run_process_finalizer_array (p : ptr) (prog : loaded_program) (loaded_image array_vaddr array_size : Z) : run unit :=
  if array_size =? 0 then mret tt
  else
    array_offset ← run_outcome (lifecycle_array prog array_vaddr array_size);
    each (call_array_entry p prog loaded_image array_offset) (rev (array_indices array_size)).

Definition run_process_finalizers (p : ptr) (prog : loaded_program) (loaded_image : Z) : run unit :=
  let l := lp_lifecycle prog in
  run_process_finalizer_array p prog loaded_image (fini_array_vaddr l) (fini_array_size l);;
  if negb (fini_vaddr l =? 0)
  then call_process_initializer p prog (u64 (lifecycle_bias prog loaded_image + fini_vaddr l)) else mret tt.

(** Those of the dependencies, from the last: each one before its own. *)
Fixpoint run_process_dependency_finalizers (fuel : nat) (p : ptr) : run unit :=
  match fuel with
  | O => run_outcome Spin
  | S fuel' =>
      node ← node_of p;
      each (fun d =>
        dep ← dep_of d;
        match dp_shared_from dep with
        | Some _ => mret tt
        | None =>
            q ← deref (dp_program dep);
            found ← node_of q;
            run_process_finalizers q (nd_program found) (default 0 (dp_loaded_image dep));;
            run_process_dependency_finalizers fuel' q
        end) (rev (dep_refs p node))
  end.

(** ** Mapping *)

(** [mmap] of anonymous memory, and the code of a program in it. *)
Definition map_image (size : Z) (code : image) : run (option Z) := fun st =>
  match mmap (images (ru_proc st)) size with
  | None => (st, Ok None)
  | Some addr =>
      (MkRun (ru_store st) (MkProcess (<[addr := code]> (images (ru_proc st))) (stubs (ru_proc st)))
         (ru_log st ++ [EvMap addr size]), Ok (Some addr))
  end.

Definition unmap_image (addr size : Z) : run unit := fun st =>
  (MkRun (ru_store st) (MkProcess (delete addr (images (ru_proc st))) (stubs (ru_proc st)))
     (ru_log st ++ [EvUnmap addr size]), Ok tt).

Definition relocate_dependency (q : ptr) (loaded_image : Z) (tlsdesc_helpers tls_get_addr_helpers : list Z) : run unit := fun st =>
  match program_view (ru_store st) q with
  | None => (st, Fault)
  | Some prog =>
      on_images (apply_relative_relocations (program_view (ru_store st)) call_guest env q prog loaded_image
                   (process_helper_for_arch tlsdesc_helpers (arch prog))
                   (process_helper_for_arch tls_get_addr_helpers (arch prog))) st
  end.

(** A shared dependency takes over the mapping. *)
Definition map_shared (links : nat) (d shared_from : dep_ref) : run unit :=
  canonical ← on_store (canonical_process_dependency links shared_from);
  shared ← dep_of canonical;
  match dp_loaded_image shared with
  | None => run_outcome Err
  | Some img => set_dep d (with_mapping (dp_mapping shared) (dp_mapping_size shared) (Some img))
  end.

(** Its own program, once that program's dependencies are there. *)
Definition map_own (d : dep_ref) (q : ptr) (tlsdesc_helpers tls_get_addr_helpers : list Z) : run unit :=
  node ← node_of q;
  let prog := nd_program node in
  let mapping_size := align_up_u64 (code_size (lp_header prog)) PAGE in
  if (mapping_size =? 0) || (mapping_size >? SIZE_MAX) then run_outcome Err
  else
    mapping ← map_image mapping_size (lp_code_bytes prog);
    match mapping with
    | None => set_dep d (fun dep => with_mapping None mapping_size (dp_loaded_image dep) dep);; run_outcome Err
    | Some img =>
        set_dep d (with_mapping (Some img) mapping_size (Some img));;
        relocate_dependency q img tlsdesc_helpers tls_get_addr_helpers;;
        protect_load_segments prog img;;
        protect_image_range (lp_header prog) img (lp_relro_vaddr prog) (lp_relro_size prog) PROT_READ;;
        run_process_initializers q prog img
    end.

(** [links] bounds the chains of sharing. *)
Fixpoint map_process_dependencies (links fuel : nat) (tlsdesc_helpers tls_get_addr_helpers : list Z) (p : ptr) : run unit :=
  match fuel with
  | O => run_outcome Spin
  | S fuel' =>
      node ← node_of p;
      each (fun d =>
        dep ← dep_of d;
        match dp_shared_from dep with
        | Some shared_from => map_shared links d shared_from
        | None =>
            q ← deref (dp_program dep);
            map_process_dependencies links fuel' tlsdesc_helpers tls_get_addr_helpers q;;
            map_own d q tlsdesc_helpers tls_get_addr_helpers
        end) (dep_refs p node)
  end.

Definition clear_mapping (d : dep_ref) : run unit := set_dep d (with_mapping None 0 None).

Fixpoint unmap_process_dependencies (fuel : nat) (p : ptr) : run unit :=
  match fuel with
  | O => run_outcome Spin
  | S fuel' =>
      node ← node_of p;
      each (fun d =>
        dep ← dep_of d;
        match dp_shared_from dep with
        | Some _ => clear_mapping d
        | None =>
            (match dp_program dep with Some q => unmap_process_dependencies fuel' q | None => mret tt end);;
            dep ← dep_of d;
            (match dp_mapping dep with
             | Some addr => if negb (dp_mapping_size dep =? 0) then unmap_image addr (dp_mapping_size dep) else mret tt
             | None => mret tt
             end);;
            clear_mapping d
        end) (dep_refs p node)
  end.

(** ** At exit *)

(** [struct poly_process_exit_finalizer_context]: the flags, with the program and
    where its image is; the trampoline is that of [env]. *)
Record exit_finalizers : Type := MkExitFinalizers {
  xf_program : ptr;
  xf_loaded_image : Z;
  xf_active : bool;
  xf_run_finalizers : bool;
  xf_running : bool;
  xf_completed : bool;
}.

(** The status, and the flags after. *)
Definition run_process_exit_finalizers (fuel : nat) (ctx : exit_finalizers) (st : run_state) :
    run_state * outcome (exit_finalizers * Z) :=
  if negb (xf_active ctx) || negb (xf_run_finalizers ctx) || xf_completed ctx || xf_running ctx then (st, Ok (ctx, 0))
  else
    let done_ (status : Z) :=
      (MkExitFinalizers (xf_program ctx) (xf_loaded_image ctx) true true false (status =? 0), status) in
    match (node ← node_of (xf_program ctx);
           run_process_finalizers (xf_program ctx) (nd_program node) (xf_loaded_image ctx);;
           run_process_dependency_finalizers fuel (xf_program ctx)) st with
    | (st', Ok _) => (st', Ok (done_ 0))
    | (st', Err) => (st', Ok (done_ (-1)))
    | (st', Fault) => (st', Fault)
    | (st', Spin) => (st', Spin)
    end.
End Lifecycle.

(** ** Thread-local storage *)

Definition set_scope (root : ptr) (img : Z) (node : program_node) : program_node :=
  MkNode (nd_program node) (nd_deps node) (nd_tls_offset node) (nd_tls_total_size node) (Some root) (Some img).
Definition set_tls_offset (offset : Z) (node : program_node) : program_node :=
  MkNode (nd_program node) (nd_deps node) offset (nd_tls_total_size node) (nd_scope_root_program node)
    (nd_scope_root_loaded_image node).
Definition set_tls_total (total : Z) (node : program_node) : program_node :=
  MkNode (nd_program node) (nd_deps node) (nd_tls_offset node) total (nd_scope_root_program node)
    (nd_scope_root_loaded_image node).

Definition change_node (p : ptr) (f : program_node -> program_node) : ld unit :=
  node ← get_node p; put_node p (f node).

(** The loop over the programs that are a program's own dependencies, with a value
    that is passed on. *)
Fixpoint each_own {S} (f : ptr -> S -> ld S) (refs : list dep_ref) (s : S) : ld S :=
  match refs with
  | [] => mret s
  | d :: refs' =>
      dep ← get_dep d;
      match dp_program dep, dp_shared_from dep with
      | Some q, None => s' ← f q s; each_own f refs' s'
      | _, _ => each_own f refs' s
      end
  end.

Fixpoint set_process_dependency_root_scope (fuel : nat) (p root : ptr) (img : Z) : ld unit :=
  match fuel with
  | O => of_outcome Spin
  | S fuel' =>
      change_node p (set_scope root img);;
      node ← get_node p;
      each_own (fun q _ => set_process_dependency_root_scope fuel' q root img) (dep_refs p node) tt
  end.

(** Shared programs are followed as well. *)
Fixpoint process_tree_has_arch_tls (fuel : nat) (p : ptr) (prog_arch : Z) : ld bool :=
  match fuel with
  | O => of_outcome Spin
  | S fuel' =>
      node ← get_node p;
      if (lp_arch (nd_program node) =? prog_arch) && negb (tls_memsz (lp_tls (nd_program node)) =? 0) then mret true
      else
        (fix loop (refs : list dep_ref) : ld bool :=
           match refs with
           | [] => mret false
           | d :: refs' =>
               dep ← get_dep d;
               match dp_program dep with
               | None => loop refs'
               | Some q => b ← process_tree_has_arch_tls fuel' q prog_arch; if b : bool then mret true else loop refs'
               end
           end) (dep_refs p node)
  end.

(** The total so far, and after. *)
Fixpoint reserve_process_tls_tree (fuel : nat) (p : ptr) (total_size : Z) : ld Z :=
  match fuel with
  | O => of_outcome Spin
  | S fuel' =>
      node ← get_node p;
      let tls := lp_tls (nd_program node) in
      match reserve_process_tls_range total_size (tls_memsz tls) (tls_align tls) with
      | None => fails
      | Some (total, offset) =>
          change_node p (set_tls_offset offset);;
          total' ← each_own (reserve_process_tls_tree fuel') (dep_refs p node) total;
          change_node p (set_tls_total total');;
          mret total'
      end
  end.

(** The initial bytes of the thread-local block of one image. *)
Definition copy_process_tls_image (node : program_node) (loaded : image) (tls : list Z) : outcome (list Z) :=
  let seg := lp_tls (nd_program node) in
  if tls_memsz seg =? 0 then Ok tls
  else
    tls_image_offset ← elf_vaddr_to_image_offset (lp_header (nd_program node)) (tls_vaddr seg) (tls_filesz seg);
    if (nd_tls_offset node >? size_of tls) || (tls_filesz seg >? size_of tls - nd_tls_offset node) then Err
    else
      bytes ← read_bytes loaded tls_image_offset (Z.to_nat (tls_filesz seg));
      Ok (overwrite tls (nd_tls_offset node) bytes).

Fixpoint copy_process_dependency_tls_images (fuel : nat) (imgs : gmap Z image) (p : ptr) (tls : list Z) : ld (list Z) :=
  match fuel with
  | O => of_outcome Spin
  | S fuel' =>
      node ← get_node p;
      (fix loop (refs : list dep_ref) (tls : list Z) : ld (list Z) :=
         match refs with
         | [] => mret tls
         | d :: refs' =>
             dep ← get_dep d;
             match dp_program dep, dp_loaded_image dep, dp_shared_from dep with
             | Some q, Some addr, None =>
                 tls ← copy_process_dependency_tls_images fuel' imgs q tls;
                 found ← get_node q;
                 loaded ← of_outcome (match imgs !! addr with Some img => Ok img | None => Fault end);
                 tls ← of_outcome (copy_process_tls_image found loaded tls);
                 loop refs' tls
             | _, _, _ => loop refs' tls
             end
         end) (dep_refs p node) tls
  end.
