(* ===== verification/ProcessOrder.v ===== *)
(** The order of initializers and finalizers over the tree of dependencies: the
    walks of [ProcessLifecycle] are loops over one list, the dependencies of every
    program after those of its own dependencies. *)

From stdpp Require Import gmap.
From S2P Require Import Prelude LoaderBase BridgeSpec ElfImage ElfSymbols CodeEmit Trampoline CrossStub TlsHelpers ElfLoad LibraryPath ElfDeps DependencyLoad DependencyTree Relocation ProcessLifecycle.

(** ** The shape of the tree *)

(** What the walks follow: programs, dependencies, sharing. *)
Definition shape (s : process) (p : ptr) : option (loaded_program * list (option ptr * option dep_ref)) :=
  (fun node => (nd_program node, (fun dep => (dp_program dep, dp_shared_from dep)) <$> nd_deps node)) <$> ps_nodes s !! p.

Definition alike (s s' : process) : Prop := forall p, shape s p = shape s' p.

#[export] Instance alike_equiv : Equivalence alike.
Proof. split; [done|by intros s s' H p|intros s1 s2 s3 H1 H2 p]. by rewrite H1. Qed.

(** The dependencies in post-order. *)
Fixpoint visits (n : nat) (s : process) (p : ptr) : list dep_ref :=
  match n with
  | O => []
  | S n' =>
      match shape s p with
      | None => []
      | Some (_, deps) =>
          concat (imap (fun i dep => match dep with (Some q, None) => visits n' s q ++ [(p, i)] | _ => [(p, i)] end) deps)
      end
  end.

Lemma visits_alike (n : nat) (s s' : process) (p : ptr) : alike s s' -> visits n s p = visits n s' p.
Proof.
  intros H. revert p. induction n as [|n IH]; intros p; cbn [visits]; [done|]. rewrite (H p).
  destruct (shape s' p) as [[prog deps]|]; [|done]. f_equal. apply imap_ext. intros i [[q|] [d|]] _; cbn; try done. by rewrite IH.
Qed.

(** The walk of [n] levels reaches every dependency; every own dependency has a program. *)
Fixpoint fits (n : nat) (s : process) (p : ptr) : Prop :=
  match n with
  | O => False
  | S n' =>
      exists prog deps, shape s p = Some (prog, deps) /\
        Forall (fun dep => match dep with (Some q, None) => fits n' s q | (None, None) => False | _ => True end) deps
  end.

Lemma fits_alike (n : nat) (s s' : process) (p : ptr) : alike s s' -> fits n s p -> fits n s' p.
Proof.
  intros H. revert p. induction n as [|n IH]; intros p; cbn [fits]; [done|]. intros (prog & deps & E & Hf).
  exists prog, deps. split; [by rewrite <- (H p)|]. eapply Forall_impl; [done|]. intros [[q|] [d|]]; auto.
Qed.

Lemma dep_at_shape (s : process) (p : ptr) (i : nat) (prog : loaded_program) (deps : list (option ptr * option dep_ref)) :
  shape s p = Some (prog, deps) ->
  (fun dep => (dp_program dep, dp_shared_from dep)) <$> dep_at s (p, i) = deps !! i.
Proof.
  unfold shape, dep_at. cbn [fst snd]. destruct (ps_nodes s !! p) as [node|]; cbn; [|done]. intros [= <- <-].
  by rewrite list_lookup_fmap.
Qed.

(** The number of programs is enough: pointers go up. *)
Lemma tree_fits files calloc_fails (s : process) : tree_wf files calloc_fails s -> forall n p prog,
  prog_at s p = Some prog -> (Pos.to_nat (ps_next s) <= Pos.to_nat p + n)%nat -> fits n s p.
Proof.
  intros W. induction n as [|n IH]; intros p prog Hp Hn; unfold prog_at in Hp;
    destruct (ps_nodes s !! p) as [node|] eqn:E; try done; cbn [fits].
  { pose proof (tw_below _ _ _ W _ _ E). lia. }
  eexists _, _. unfold shape at 1. rewrite E. split; [done|]. apply Forall_fmap, Forall_lookup_2. intros i dep Hi. cbn.
  assert (dep_at s (p, i) = Some dep) as Hd by (unfold dep_at; cbn; by rewrite E).
  pose proof (tw_dep _ _ _ W _ _ _ Hd) as Ho. destruct (dp_shared_from dep) as [d|].
  - by destruct (dp_program dep).
  - destruct Ho as (q & prog' & -> & Hlt & Hq & _). apply (IH q prog' Hq). lia.
Qed.

(** ** Computations that keep the shape *)

Definition keeps_shape {A} (m : run A) : Prop := forall st, alike (ru_store st) (ru_store (m st).1).

Lemma shape_bind {A B} (m : run A) (f : A -> run B) : keeps_shape m -> (forall a, keeps_shape (f a)) -> keeps_shape (m ≫= f).
Proof.
  intros Hm Hf st. specialize (Hm st). unfold mbind, run_bind. destruct (m st) as [st1 [a| | |]]; cbn in *; try done.
  etrans; [done|]. apply Hf.
Qed.

Lemma shape_ret {A} (a : A) : keeps_shape (mret a). Proof. by intros st. Qed.
Lemma shape_outcome {A} (m : outcome A) : keeps_shape (run_outcome m). Proof. by intros st. Qed.
Lemma shape_log (e : process_event) : keeps_shape (log_event e). Proof. by intros st. Qed.
Lemma shape_images {A} (m : proc A) : keeps_shape (on_images m).
Proof. intros st. unfold on_images. by destruct (m (ru_proc st)). Qed.
Lemma shape_store {A} (m : ld A) : keeps m -> keeps_shape (on_store m).
Proof. intros H st. specialize (H (ru_store st)). unfold on_store. destruct (m (ru_store st)). cbn in *. by subst. Qed.
Lemma shape_each {A} (f : A -> run unit) (l : list A) : (forall a, keeps_shape (f a)) -> keeps_shape (each f l).
Proof. intros Hf. induction l as [|a l IH]; cbn [each]; [apply shape_ret|]. apply shape_bind; [apply Hf|by intros _]. Qed.

Lemma shape_set_dep (d : dep_ref) (f : dependency -> dependency) :
  (forall dep, dp_program (f dep) = dp_program dep /\ dp_shared_from (f dep) = dp_shared_from dep) -> keeps_shape (set_dep d f).
Proof.
  intros Hf st. unfold set_dep, node_of, on_store, mbind, run_bind, get_node, put_node.
  destruct (ps_nodes (ru_store st) !! d.1) as [node|] eqn:E; cbn; [|done].
  intros p. unfold shape. cbn. destruct (decide (p = d.1)) as [->|Hne].
  - rewrite lookup_insert_eq, E. cbn. do 2 f_equal. apply list_eq. intros i. rewrite !list_lookup_fmap.
    destruct (decide (i = d.2)) as [->|Hi].
    + rewrite list_lookup_alter_eq. destruct (nd_deps node !! d.2) as [dep|]; cbn; [|done]. by destruct (Hf dep) as [-> ->].
    + by rewrite list_lookup_alter_ne.
  - by rewrite lookup_insert_ne.
Qed.

Create HintDb shape.
#[export] Hint Resolve shape_ret shape_outcome shape_log shape_images keeps_node keeps_dep keeps_canonical : shape.
#[export] Hint Resolve shape_store : shape.

Ltac shape_steps :=
  repeat first
    [ by eauto with shape
    | apply shape_set_dep; by intros ?
    | apply shape_bind; [|intros ?]
    | apply shape_each; intros ?
    | match goal with
      | |- keeps_shape (if ?b then _ else _) => destruct b
      | |- keeps_shape (match ?x with _ => _ end) => destruct x
      | |- keeps_shape (let _ := _ in _) => cbn zeta
      end ].

Section Order.
Context (call_guest : gmap Z image -> Z -> Z -> gmap Z image * Z).
Context (mmap : gmap Z image -> Z -> option Z) (mprotect_fails : Z -> Z -> Z -> bool).
Context (env : run_env) (links : nat) (descs gets : list Z).

Lemma shape_protect (h : poly_program) (img v n prot : Z) :
  keeps_shape (protect_image_range mprotect_fails h img v n prot).
Proof using. unfold protect_image_range. shape_steps. Qed.

Lemma shape_call (p : ptr) (prog : loaded_program) (target : Z) :
  keeps_shape (call_process_initializer call_guest env p prog target).
Proof using.
  unfold call_process_initializer. shape_steps. intros st. unfold run_guest_at. by destruct (call_guest _ _ _).
Qed.

Lemma shape_entry (p : ptr) (prog : loaded_program) (img off n : Z) :
  keeps_shape (call_array_entry call_guest env p prog img off n).
Proof using. unfold call_array_entry. shape_steps. apply shape_call. Qed.

Lemma shape_initializers (p : ptr) (prog : loaded_program) (img : Z) :
  keeps_shape (run_process_initializers call_guest env p prog img).
Proof using. unfold run_process_initializers, run_process_initializer_array. shape_steps; (apply shape_call || apply shape_entry). Qed.

Lemma shape_finalizers (p : ptr) (prog : loaded_program) (img : Z) :
  keeps_shape (run_process_finalizers call_guest env p prog img).
Proof using. unfold run_process_finalizers, run_process_finalizer_array. shape_steps; (apply shape_call || apply shape_entry). Qed.

Lemma shape_map_own (d : dep_ref) (q : ptr) : keeps_shape (map_own call_guest mmap mprotect_fails env d q descs gets).
Proof using.
  unfold map_own, node_of. apply shape_bind; [by eauto with shape|]. intros node. cbn zeta.
  destruct (_ || _); [apply shape_outcome|]. apply shape_bind.
  { intros st. unfold map_image. by destruct (mmap _ _). }
  intros [img|]; [|shape_steps]. apply shape_bind; [shape_steps|intros _].
  apply shape_bind; [|intros _; apply shape_bind; [|intros _; apply shape_bind; [apply shape_protect|intros _; apply shape_initializers]]].
  - intros st. unfold relocate_dependency. destruct (program_view _ _); [apply shape_images|done].
  - unfold protect_load_segments. apply shape_each. intros seg. apply shape_protect.
Qed.

Lemma shape_map_shared (d sf : dep_ref) : keeps_shape (map_shared links d sf).
Proof using. unfold map_shared, dep_of. shape_steps. Qed.

(** ** The walks as loops *)

Lemma each_app {A} (f : A -> run unit) (l1 l2 : list A) (st : run_state) :
  each f (l1 ++ l2) st = (each f l1;; each f l2) st.
Proof using.
  revert st. induction l1 as [|a l1 IH]; intros st; cbn [each app]; [done|].
  unfold mbind, run_bind in *. destruct (f a st) as [st1 [[]| | |]]; by rewrite ?IH.
Qed.

(** A loop whose body is a loop over [f d] in every state of the shape. *)
Lemma each_flat (s : process) (body one : dep_ref -> run unit) (f : dep_ref -> list dep_ref) (refs : list dep_ref) :
  (forall d, keeps_shape (one d)) ->
  Forall (fun d => forall st, alike s (ru_store st) -> body d st = each one (f d) st) refs ->
  forall st, alike s (ru_store st) -> each body refs st = each one (concat (f <$> refs)) st.
Proof using.
  intros Hk. induction 1 as [|d refs Hd Hl IH]; intros st Hs; [done|]. cbn [fmap list_fmap concat]. rewrite each_app.
  cbn [each]. unfold mbind, run_bind. rewrite (Hd st Hs). pose proof (shape_each one (f d) Hk st) as K.
  destruct (each one (f d) st) as [st1 [[]| | |]]; try done. apply IH. cbn in K. by rewrite Hs.
Qed.

Lemma run_bind_assoc {A B C} (m : run A) (f : A -> run B) (g : B -> run C) (st : run_state) :
  ((m ≫= f) ≫= g) st = (m ≫= fun a => f a ≫= g) st.
Proof using. unfold mbind, run_bind. by destruct (m st) as [st1 [a| | |]]. Qed.

Lemma on_store_run {A B} (m : ld A) (f : A -> run B) (st : run_state) (a : A) :
  m (ru_store st) = (ru_store st, Ok a) -> (on_store m ≫= f) st = f a st.
Proof using. intros H. unfold mbind, run_bind, on_store. rewrite H. by destruct st. Qed.

Lemma node_of_run {B} (p : ptr) (f : program_node -> run B) (st : run_state) (node : program_node) :
  ps_nodes (ru_store st) !! p = Some node -> (node_of p ≫= f) st = f node st.
Proof using. intros H. apply on_store_run. unfold get_node. by rewrite H. Qed.

Lemma dep_of_run {B} (d : dep_ref) (f : dependency -> run B) (st : run_state) (dep : dependency) :
  dep_at (ru_store st) d = Some dep -> (dep_of d ≫= f) st = f dep st.
Proof using.
  intros H. apply on_store_run. pose proof (get_dep_bind d mret _ _ H) as E. unfold mbind, ld_bind in E.
  destruct (get_dep d (ru_store st)) as [s [dep'| | |]]; done.
Qed.

(** What a walk does at one dependency, its own dependencies aside. *)
Definition own_or_shared (own : dep_ref -> ptr -> run unit) (shared : dep_ref -> dep_ref -> run unit) (d : dep_ref) : run unit :=
  dep ← dep_of d;
  match dp_shared_from dep with
  | Some sf => shared d sf
  | None => q ← deref (dp_program dep); own d q
  end.

Definition map_one : dep_ref -> run unit :=
  own_or_shared (fun d q => map_own call_guest mmap mprotect_fails env d q descs gets) (map_shared links).

Definition finalize_one : dep_ref -> run unit :=
  own_or_shared (fun d q => dep ← dep_of d; node ← node_of q;
    run_process_finalizers call_guest env q (nd_program node) (default 0 (dp_loaded_image dep))) (fun _ _ => mret tt).

Definition unmap_one : dep_ref -> run unit :=
  own_or_shared (fun d _ => dep ← dep_of d;
    (match dp_mapping dep with
     | Some addr => if negb (dp_mapping_size dep =? 0) then unmap_image addr (dp_mapping_size dep) else mret tt
     | None => mret tt
     end);; clear_mapping d) (fun d _ => clear_mapping d).

Lemma shape_own_or_shared (own : dep_ref -> ptr -> run unit) (shared : dep_ref -> dep_ref -> run unit) (d : dep_ref) :
  (forall q, keeps_shape (own d q)) -> (forall sf, keeps_shape (shared d sf)) -> keeps_shape (own_or_shared own shared d).
Proof using. intros Ho Hs. unfold own_or_shared, dep_of, deref. shape_steps; auto. Qed.

Lemma shape_map_one (d : dep_ref) : keeps_shape (map_one d).
Proof using. apply shape_own_or_shared; [intros q; apply shape_map_own|intros sf; apply shape_map_shared]. Qed.

Lemma shape_finalize_one (d : dep_ref) : keeps_shape (finalize_one d).
Proof using.
  apply shape_own_or_shared; [|shape_steps]. intros q.
  do 2 (apply shape_bind; [unfold dep_of, node_of; by eauto with shape|intros ?]). apply shape_finalizers.
Qed.

Lemma shape_unmap_one (d : dep_ref) : keeps_shape (unmap_one d).
Proof using.
  apply shape_own_or_shared; [intros q|intros sf; unfold clear_mapping; shape_steps]. unfold dep_of, clear_mapping.
  apply shape_bind; [by eauto with shape|]. intros dep. apply shape_bind; [|intros _; shape_steps].
  destruct (dp_mapping dep) as [addr|]; [|apply shape_ret]. destruct (negb _); [by intros st|apply shape_ret].
Qed.

(** The part of the order that a dependency stands for. *)
Definition visit_of (n : nat) (s : process) (deps : list (option ptr * option dep_ref)) (d : dep_ref) : list dep_ref :=
  match deps !! d.2 with Some (Some q, None) => visits n s q ++ [d] | _ => [d] end.

Lemma visits_refs (n : nat) (s : process) (p : ptr) (prog : loaded_program) (deps : list (option ptr * option dep_ref)) :
  shape s p = Some (prog, deps) ->
  visits (S n) s p = concat (visit_of n s deps <$> ((fun i => (p, i)) <$> seq 0 (length deps))).
Proof using.
  intros H. cbn [visits]. rewrite H. f_equal. apply list_eq. intros i. rewrite list_lookup_imap, !list_lookup_fmap.
  destruct (deps !! i) as [dep|] eqn:E.
  - rewrite lookup_seq_lt by (by eapply lookup_lt_Some). cbn. unfold visit_of. cbn [snd]. rewrite E. by destruct dep as [[q|] [d|]].
  - rewrite lookup_seq_ge by (by apply lookup_ge_None in E). done.
Qed.

Lemma node_alike (s : process) (st : run_state) (p : ptr) (prog : loaded_program) (deps : list (option ptr * option dep_ref)) :
  alike s (ru_store st) -> shape s p = Some (prog, deps) ->
  exists node, ps_nodes (ru_store st) !! p = Some node /\ nd_program node = prog /\
    dep_refs p node = (fun i => (p, i)) <$> seq 0 (length deps).
Proof using.
  intros Hs H. rewrite (Hs p) in H. unfold shape in H. destruct (ps_nodes (ru_store st) !! p) as [node|]; [|done].
  injection H as <- <-. exists node. split_and!; try done. unfold dep_refs. by rewrite length_fmap.
Qed.

Lemma dep_alike (s : process) (st : run_state) (p : ptr) (i : nat) (prog : loaded_program)
    (deps : list (option ptr * option dep_ref)) (x : option ptr * option dep_ref) :
  alike s (ru_store st) -> shape s p = Some (prog, deps) -> deps !! i = Some x ->
  exists dep, dep_at (ru_store st) (p, i) = Some dep /\ x = (dp_program dep, dp_shared_from dep).
Proof using.
  intros Hs H Hi. rewrite (Hs p) in H. rewrite <- (dep_at_shape _ _ i _ _ H) in Hi.
  destruct (dep_at (ru_store st) (p, i)) as [dep|]; [|done]. injection Hi as <-. by exists dep.
Qed.

Lemma each_one {A} (f : A -> run unit) (a : A) (st : run_state) : each f [a] st = f a st.
Proof using. cbn. unfold mbind, run_bind. by destruct (f a st) as [st1 [[]| | |]]. Qed.

Lemma own_or_shared_run (own : dep_ref -> ptr -> run unit) (shared : dep_ref -> dep_ref -> run unit) (d : dep_ref)
    (st : run_state) (dep : dependency) : dep_at (ru_store st) d = Some dep ->
  own_or_shared own shared d st =
  match dp_shared_from dep, dp_program dep with
  | Some sf, _ => shared d sf st
  | None, Some q => own d q st
  | None, None => (st, Fault)
  end.
Proof using.
  intros H. unfold own_or_shared. rewrite (dep_of_run _ _ _ _ H). destruct (dp_shared_from dep); [done|].
  by destruct (dp_program dep).
Qed.

Lemma rev_flat {A B} (f : A -> list B) (l : list A) : rev (concat (f <$> l)) = concat ((fun a => rev (f a)) <$> rev l).
Proof using.
  induction l as [|a l IH]; [done|]. cbn [rev fmap list_fmap concat]. rewrite rev_app_distr, IH, fmap_app, concat_app. cbn.
  by rewrite app_nil_r.
Qed.

Section Walk.
  Context (F : nat -> ptr -> run unit) (body : nat -> dep_ref -> run unit).
  Context (own : dep_ref -> ptr -> run unit) (shared : dep_ref -> dep_ref -> run unit).
  Context (Hone : forall d, keeps_shape (own_or_shared own shared d)).
  Context (Hshared : forall n d st dep sf, dep_at (ru_store st) d = Some dep -> dp_shared_from dep = Some sf ->
             body n d st = shared d sf st).

(** A walk that looks at a program before its owner. *)
Lemma walk_up (s : process) :
  (forall n p st node, ps_nodes (ru_store st) !! p = Some node -> F (S n) p st = each (body n) (dep_refs p node) st) ->
  (forall n d st dep q, dep_at (ru_store st) d = Some dep -> dp_shared_from dep = None -> dp_program dep = Some q ->
     body n d st = (F n q;; own d q) st) ->
  forall n p st, fits n s p -> alike s (ru_store st) -> F n p st = each (own_or_shared own shared) (visits n s p) st.
Proof using Hone Hshared.
  intros HF Hown. induction n as [|n IH]; intros p st; cbn [fits]; [done|]. intros (prog & deps & H & Hf) Hs.
  destruct (node_alike _ _ _ _ _ Hs H) as (node & Hn & _ & Hr). rewrite (HF _ _ _ _ Hn), Hr, (visits_refs _ _ _ _ _ H).
  apply (each_flat s); [done| |done]. apply Forall_fmap, Forall_forall. intros i [_ Hi]%elem_of_seq st' Hs'.
  unfold compose, visit_of. cbn [snd]. destruct (deps !! i) as [x|] eqn:E; [|apply lookup_ge_None in E; lia].
  pose proof (Forall_lookup_1 _ _ _ _ Hf E) as Hq. destruct (dep_alike _ _ _ _ _ _ _ Hs' H E) as (dep & Hd & Hx).
  destruct x as [[q|] [sf|]]; try done; injection Hx as Hp Hsh; symmetry in Hp, Hsh.
  - rewrite each_one, (own_or_shared_run _ _ _ _ _ Hd), Hsh. by eapply Hshared.
  - rewrite each_app, (Hown _ _ _ _ _ Hd Hsh Hp). unfold mbind, run_bind. rewrite (IH q st' Hq Hs').
    pose proof (shape_each _ (visits n s q) Hone st') as K.
    destruct (each (own_or_shared own shared) (visits n s q) st') as [st1 [[]| | |]]; try done. cbn in K.
    destruct (dep_alike s st1 _ _ _ _ _ ltac:(by rewrite Hs') H E) as (dep1 & Hd1 & Hx1). injection Hx1 as Hp1 Hsh1.
    by rewrite each_one, (own_or_shared_run _ _ _ _ _ Hd1), <- Hsh1, <- Hp1.
  - rewrite each_one, (own_or_shared_run _ _ _ _ _ Hd), Hsh. by eapply Hshared.
Qed.

(** A walk that looks at them from the last, the owner first. *)
Lemma walk_down (s : process) :
  (forall n p st node, ps_nodes (ru_store st) !! p = Some node -> F (S n) p st = each (body n) (rev (dep_refs p node)) st) ->
  (forall n d st dep q, dep_at (ru_store st) d = Some dep -> dp_shared_from dep = None -> dp_program dep = Some q ->
     body n d st = (own d q;; F n q) st) ->
  forall n p st, fits n s p -> alike s (ru_store st) -> F n p st = each (own_or_shared own shared) (rev (visits n s p)) st.
Proof using Hone Hshared.
  intros HF Hown. induction n as [|n IH]; intros p st; cbn [fits]; [done|]. intros (prog & deps & H & Hf) Hs.
  destruct (node_alike _ _ _ _ _ Hs H) as (node & Hn & _ & Hr). rewrite (HF _ _ _ _ Hn), Hr, (visits_refs _ _ _ _ _ H).
  rewrite rev_flat.
  apply (each_flat s); [done| |done]. apply Forall_rev, Forall_fmap, Forall_forall. intros i [_ Hi]%elem_of_seq st' Hs'.
  unfold compose, visit_of. cbn [snd]. destruct (deps !! i) as [x|] eqn:E; [|apply lookup_ge_None in E; lia].
  pose proof (Forall_lookup_1 _ _ _ _ Hf E) as Hq. destruct (dep_alike _ _ _ _ _ _ _ Hs' H E) as (dep & Hd & Hx).
  destruct x as [[q|] [sf|]]; try done; injection Hx as Hp Hsh; symmetry in Hp, Hsh.
  - cbn [rev app]. rewrite each_one, (own_or_shared_run _ _ _ _ _ Hd), Hsh. by eapply Hshared.
  - rewrite rev_app_distr. cbn [rev app each]. rewrite (Hown _ _ _ _ _ Hd Hsh Hp). unfold mbind, run_bind.
    pose proof (Hone (p, i) st') as K. rewrite (own_or_shared_run _ _ _ _ _ Hd), Hsh, Hp in *.
    destruct (own (p, i) q st') as [st1 [[]| | |]]; try done. cbn in K. apply IH; [done|by rewrite Hs'].
  - cbn [rev app]. rewrite each_one, (own_or_shared_run _ _ _ _ _ Hd), Hsh. by eapply Hshared.
Qed.
End Walk.

Lemma map_is_loop (s : process) (n : nat) (p : ptr) (st : run_state) : fits n s p -> alike s (ru_store st) ->
  map_process_dependencies call_guest mmap mprotect_fails env links n descs gets p st = each map_one (visits n s p) st.
Proof using.
  apply (walk_up (fun n => map_process_dependencies call_guest mmap mprotect_fails env links n descs gets)
    (fun n d => dep ← dep_of d;
       match dp_shared_from dep with
       | Some sf => map_shared links d sf
       | None => q ← deref (dp_program dep);
           map_process_dependencies call_guest mmap mprotect_fails env links n descs gets q;;
           map_own call_guest mmap mprotect_fails env d q descs gets
       end)).
  - apply shape_map_one.
  - intros n' d st' dep sf Hd Hs. by rewrite (dep_of_run _ _ _ _ Hd), Hs.
  - intros n' p' st' node Hn. cbn [map_process_dependencies]. by rewrite (node_of_run _ _ _ _ Hn).
  - intros n' d st' dep q Hd Hs Hq. by rewrite (dep_of_run _ _ _ _ Hd), Hs, Hq.
Qed.

Lemma map_keeps_tree (s : process) (n : nat) (p : ptr) (st : run_state) : fits n s p -> alike s (ru_store st) ->
  alike s (ru_store (map_process_dependencies call_guest mmap mprotect_fails env links n descs gets p st).1).
Proof using.
  intros Hf Hs. rewrite (map_is_loop s n p st Hf Hs). etrans; [exact Hs|]. apply shape_each, shape_map_one.
Qed.

Lemma finalizers_are_loop (s : process) (n : nat) (p : ptr) (st : run_state) : fits n s p -> alike s (ru_store st) ->
  run_process_dependency_finalizers call_guest env n p st = each finalize_one (rev (visits n s p)) st.
Proof using.
  apply (walk_down (run_process_dependency_finalizers call_guest env)
    (fun n d => dep ← dep_of d;
       match dp_shared_from dep with
       | Some _ => mret tt
       | None => q ← deref (dp_program dep); found ← node_of q;
           run_process_finalizers call_guest env q (nd_program found) (default 0 (dp_loaded_image dep));;
           run_process_dependency_finalizers call_guest env n q
       end)).
  - apply shape_finalize_one.
  - intros n' d st' dep sf Hd Hs. by rewrite (dep_of_run _ _ _ _ Hd), Hs.
  - intros n' p' st' node Hn. cbn [run_process_dependency_finalizers]. by rewrite (node_of_run _ _ _ _ Hn).
  - intros n' d st' dep q Hd Hs Hq. rewrite (dep_of_run _ _ _ _ Hd), Hs, Hq.
    by rewrite run_bind_assoc, (dep_of_run _ _ _ _ Hd), run_bind_assoc.
Qed.

Lemma unmap_is_loop (s : process) (n : nat) (p : ptr) (st : run_state) : fits n s p -> alike s (ru_store st) ->
  unmap_process_dependencies n p st = each unmap_one (visits n s p) st.
Proof using.
  apply (walk_up unmap_process_dependencies
    (fun n d => dep ← dep_of d;
       match dp_shared_from dep with
       | Some _ => clear_mapping d
       | None =>
           (match dp_program dep with Some q => unmap_process_dependencies n q | None => mret tt end);;
           dep ← dep_of d;
           (match dp_mapping dep with
            | Some addr => if negb (dp_mapping_size dep =? 0) then unmap_image addr (dp_mapping_size dep) else mret tt
            | None => mret tt
            end);;
           clear_mapping d
       end)).
  - apply shape_unmap_one.
  - intros n' d st' dep sf Hd Hs. by rewrite (dep_of_run _ _ _ _ Hd), Hs.
  - intros n' p' st' node Hn. cbn [unmap_process_dependencies]. by rewrite (node_of_run _ _ _ _ Hn).
  - intros n' d st' dep q Hd Hs Hq. by rewrite (dep_of_run _ _ _ _ Hd), Hs, Hq.
Qed.
End Order.
