(* ===== verification/LifecycleOrder.v ===== *)
(** Initializers and finalizers ([ProcessLifecycle]): the programs of a process in
    the order in which they are set up, every program once and after what it owns;
    finalizers in the opposite order; mappings given back. *)

From stdpp Require Import gmap relations.
From S2P Require Import Prelude LoaderBase BridgeSpec ElfImage ElfSymbols CodeEmit Trampoline CrossStub TlsHelpers ElfLoad LibraryPath ElfDeps DependencyLoad DependencyTree Relocation ProcessLifecycle ProcessOrder.

(** ** The order of the programs *)

(** [q] is the program of a dependency of [p]'s own. *)
Definition owns (s : process) (p q : ptr) : Prop :=
  exists prog deps i, shape s p = Some (prog, deps) /\ deps !! i = Some (Some q, None).

Fixpoint post_order (n : nat) (s : process) (p : ptr) : list ptr :=
  match n with
  | O => []
  | S n' =>
      match shape s p with
      | None => []
      | Some (_, deps) =>
          concat (imap (fun _ dep => match dep with (Some q, None) => post_order n' s q ++ [q] | _ => [] end) deps)
      end
  end.

(** The program that a dependency of the order has of its own. *)
Definition own_program (s : process) (d : dep_ref) : option ptr :=
  match shape s d.1 with
  | Some (_, deps) => match deps !! d.2 with Some (Some q, None) => Some q | _ => None end
  | None => None
  end.

Lemma omap_concat {A B} (f : A -> option B) (l : list (list A)) : omap f (concat l) = concat ((fun x : list A => omap f x) <$> l).
Proof. induction l as [|a l IH]; [done|]. cbn. by rewrite omap_app, IH. Qed.

Lemma omap_same {A B} (f g : A -> option B) (l : list A) : (forall a, f a = g a) -> omap f l = omap g l.
Proof. intros H. induction l as [|a l IH]; [done|]. cbn. by rewrite H, IH. Qed.

Lemma omap_rev {A B} (f : A -> option B) (l : list A) : omap f (rev l) = rev (omap f l).
Proof.
  induction l as [|a l IH]; [done|]. cbn. rewrite omap_app, IH. cbn. destruct (f a); cbn; [done|by rewrite app_nil_r].
Qed.

Lemma post_order_visits (n : nat) (s : process) (p : ptr) : post_order n s p = omap (own_program s) (visits n s p).
Proof.
  revert p. induction n as [|n IH]; intros p; cbn [post_order visits]; [done|]. destruct (shape s p) as [[prog deps]|] eqn:E; [|done].
  rewrite omap_concat. f_equal. apply list_eq. intros i. rewrite list_lookup_fmap, !list_lookup_imap.
  destruct (deps !! i) as [x|] eqn:Ei; [|done].
  assert (own_program s (p, i) = match x with (Some q, None) => Some q | _ => None end) as Hx
    by (unfold own_program; cbn; rewrite E, Ei; by destruct x as [[q|] [d|]]).
  destruct x as [[q|] [d|]]; cbn; rewrite ?omap_app; cbn; rewrite Hx; try done. by rewrite IH.
Qed.

(** The part of the order below one dependency. *)
Lemma elem_post_order (n : nat) (s : process) (p r : ptr) (prog : loaded_program) (deps : list (option ptr * option dep_ref)) :
  shape s p = Some (prog, deps) ->
  r ∈ post_order (S n) s p <-> exists i q, deps !! i = Some (Some q, None) /\ r ∈ post_order n s q ++ [q].
Proof.
  intros E. cbn [post_order]. rewrite E, list_elem_of_In, in_concat. split.
  - intros (l & Hl%list_elem_of_In & Hr). apply list_elem_of_lookup_1 in Hl as [i Hi]. rewrite list_lookup_imap in Hi.
    destruct (deps !! i) as [[[q|] [d|]]|] eqn:Ei; try done; injection Hi as <-; try done. exists i, q.
    split; [done|by apply list_elem_of_In].
  - intros (i & q & Hi & Hr). exists (post_order n s q ++ [q]). split; [|by apply list_elem_of_In].
    apply list_elem_of_In, list_elem_of_lookup_2 with i. by rewrite list_lookup_imap, Hi.
Qed.

Lemma post_order_below (n : nat) (s : process) : forall p r, fits n s p -> r ∈ post_order n s p <-> tc (owns s) p r.
Proof.
  induction n as [|n IH]; intros p r; [done|]. intros (prog & deps & E & Hf). rewrite (elem_post_order _ _ _ _ _ _ E). split.
  - intros (i & q & Hi & Hr). assert (owns s p q) as Ho by (by exists prog, deps, i).
    pose proof (Forall_lookup_1 _ _ _ _ Hf Hi) as Hq. apply elem_of_app in Hr as [Hr| ->%list_elem_of_singleton].
    + apply IH in Hr; [|done]. by eapply tc_l.
    + by apply tc_once.
  - intros Ht. destruct Ht as [p r Ho|p q r Ho Ht]; destruct Ho as (prog' & deps' & i & E' & Hi); simplify_eq.
    + exists i, r. split; [done|]. apply elem_of_app. right. by apply list_elem_of_singleton.
    + exists i, q. split; [done|]. apply elem_of_app. left. apply IH; [|done]. by apply (Forall_lookup_1 _ _ _ _ Hf Hi).
Qed.

Lemma NoDup_concat_lookup {A} (ls : list (list A)) : Forall NoDup ls ->
  (forall i j l l' x, ls !! i = Some l -> ls !! j = Some l' -> x ∈ l -> x ∈ l' -> i = j) -> NoDup (concat ls).
Proof.
  induction 1 as [|l ls Hl Hls IH]; intros Hd; cbn [concat]; [constructor|]. apply NoDup_app. split_and!; [done| |].
  - intros x Hx Hin. apply list_elem_of_In, in_concat in Hin as (l' & Hl'%list_elem_of_In & Hx').
    apply list_elem_of_lookup_1 in Hl' as [i Hi]. by specialize (Hd 0%nat (S i) l l' x eq_refl Hi Hx ltac:(by apply list_elem_of_In)).
  - apply IH. intros i j l1 l2 x H1 H2 Hx1 Hx2. by injection (Hd (S i) (S j) l1 l2 x H1 H2 Hx1 Hx2).
Qed.

Section Shape.
  Context (files : list Z -> option image) (calloc_fails : Z -> bool) (s : process).
  Context (W : tree_wf files calloc_fails s).

Lemma owns_dep (p q : ptr) (prog : loaded_program) (deps : list (option ptr * option dep_ref)) (i : nat) :
  shape s p = Some (prog, deps) -> deps !! i = Some (Some q, None) ->
  exists dep, dep_at s (p, i) = Some dep /\ dp_program dep = Some q /\ dp_shared_from dep = None.
Proof using.
  intros E Hi. rewrite <- (dep_at_shape _ _ i _ _ E) in Hi. destruct (dep_at s (p, i)) as [dep|]; [|done].
  injection Hi as Hp Hs. by exists dep.
Qed.

Lemma owns_up (p q : ptr) : owns s p q -> (p < q)%positive.
Proof using W.
  intros (prog & deps & i & E & Hi). destruct (owns_dep _ _ _ _ _ E Hi) as (dep & Hd & Hq & Hs).
  pose proof (tw_dep _ _ _ W _ _ _ Hd) as Ho. rewrite Hs in Ho. destruct Ho as (q' & prog' & Hq' & Hlt & _).
  by simplify_eq.
Qed.

Lemma owned_once (p p' q : ptr) (prog prog' : loaded_program) (deps deps' : list (option ptr * option dep_ref)) (i i' : nat) :
  shape s p = Some (prog, deps) -> deps !! i = Some (Some q, None) ->
  shape s p' = Some (prog', deps') -> deps' !! i' = Some (Some q, None) -> p = p' /\ i = i'.
Proof using W.
  intros E1 H1 E2 H2. destruct (owns_dep _ _ _ _ _ E1 H1) as (dep1 & Hd1 & Hq1 & Hs1).
  destruct (owns_dep _ _ _ _ _ E2 H2) as (dep2 & Hd2 & Hq2 & Hs2).
  pose proof (tw_once _ _ _ W _ _ _ _ Hd1 Hd2 Hs1 Hs2 ltac:(by rewrite Hq1, Hq2)) as [=]. done.
Qed.

Lemma below_up (p q : ptr) : rtc (owns s) p q -> (p <= q)%positive.
Proof using W. induction 1 as [|p x q Ho _ IH]; [lia|]. pose proof (owns_up _ _ Ho). lia. Qed.

Lemma strictly_below_up (p q : ptr) : tc (owns s) p q -> (p < q)%positive.
Proof using W. induction 1 as [p q Ho|p x q Ho _ IH]; pose proof (owns_up _ _ Ho); lia. Qed.

(** Two programs above a third are above each other. *)
Lemma below_comparable (a b r : ptr) : rtc (owns s) a r -> rtc (owns s) b r -> rtc (owns s) a b \/ rtc (owns s) b a.
Proof using W.
  intros Ha. revert r Ha b.
  refine (rtc_ind_r (fun r => forall b, rtc (owns s) b r -> rtc (owns s) a b \/ rtc (owns s) b a) a _ _); [by right|].
  intros x r Hax Ho IH b Hb.
  apply rtc_inv_r in Hb as [->|(y & Hby & Hyr)].
  - left. by eapply rtc_r.
  - destruct Ho as (prog & deps & i & E & Hi), Hyr as (prog' & deps' & i' & E' & Hi').
    destruct (owned_once _ _ _ _ _ _ _ _ _ E Hi E' Hi') as [-> _]. by apply IH.
Qed.

(** The subtrees of two dependencies have nothing in common. *)
Lemma subtrees_apart (p q q' r : ptr) (prog : loaded_program) (deps : list (option ptr * option dep_ref)) (i j : nat) :
  shape s p = Some (prog, deps) -> deps !! i = Some (Some q, None) -> deps !! j = Some (Some q', None) ->
  rtc (owns s) q r -> rtc (owns s) q' r -> i = j.
Proof using W.
  intros E Hi Hj Hr Hr'.
  assert (forall a b k, deps !! k = Some (Some b, None) -> owns s p a -> rtc (owns s) a b -> a = b) as Hsame.
  { intros a b k Hk Ha Hab. apply rtc_inv_r in Hab as [->|(y & Hay & prog' & deps' & k' & E' & Hk')]; [done|].
    destruct (owned_once _ _ _ _ _ _ _ _ _ E Hk E' Hk') as [<- _]. pose proof (below_up _ _ Hay).
    pose proof (owns_up _ _ Ha). lia. }
  assert (owns s p q /\ owns s p q') as [Ho Ho'] by (split; by exists prog, deps; eauto).
  assert (q = q') as <- by (destruct (below_comparable _ _ _ Hr Hr') as [H|H]; [|symmetry]; by eapply Hsame).
  by destruct (owned_once _ _ _ _ _ _ _ _ _ E Hi E Hj).
Qed.

Lemma below_elem (n : nat) (q r : ptr) : fits n s q -> r ∈ post_order n s q ++ [q] <-> rtc (owns s) q r.
Proof using.
  intros Hf. rewrite elem_of_app, list_elem_of_singleton, (post_order_below n s q r Hf). split.
  - intros [H| ->]; [by apply tc_rtc|done].
  - intros [->|H]%rtc_tc; [by right|by left].
Qed.

Lemma post_order_once (n : nat) : forall p, fits n s p -> NoDup (post_order n s p).
Proof using W.
  induction n as [|n IH]; intros p; [done|]. intros (prog & deps & E & Hf). cbn [post_order]. rewrite E.
  assert (forall i l x, imap (fun _ dep => match dep with (Some q, None) => post_order n s q ++ [q] | _ => [] end) deps !! i = Some l ->
    x ∈ l -> exists q, deps !! i = Some (Some q, None) /\ rtc (owns s) q x) as Hin.
  { intros i l x Hl Hx. rewrite list_lookup_imap in Hl. destruct (deps !! i) as [[[q|] [d|]]|] eqn:Ei; try done; injection Hl as <-;
      try (by apply elem_of_nil in Hx). exists q. split; [done|]. apply (below_elem n); [|done].
    by apply (Forall_lookup_1 _ _ _ _ Hf Ei). }
  apply NoDup_concat_lookup.
  - apply Forall_lookup_2. intros i l Hl. rewrite list_lookup_imap in Hl. destruct (deps !! i) as [[[q|] [d|]]|] eqn:Ei; try done;
      injection Hl as <-; try constructor. pose proof (Forall_lookup_1 _ _ _ _ Hf Ei) as Hq. apply NoDup_app. split_and!.
    + by apply IH.
    + intros x Hx ->%list_elem_of_singleton. apply post_order_below in Hx; [|done].
      pose proof (strictly_below_up _ _ Hx). lia.
    + apply NoDup_singleton.
  - intros i j l l' x Hl Hl' Hx Hx'. destruct (Hin _ _ _ Hl Hx) as (q & Hi & Hq), (Hin _ _ _ Hl' Hx') as (q' & Hj & Hq').
    by eapply subtrees_apart.
Qed.

(** What a program owns comes before it. *)
Lemma post_order_before (n : nat) : forall p q r, fits n s p -> q ∈ post_order n s p -> owns s q r ->
  exists l1 l2 l3, post_order n s p = l1 ++ r :: l2 ++ q :: l3.
Proof using.
  induction n as [|n IH]; intros p q r; [done|]. intros (prog & deps & E & Hf) Hq Ho.
  apply (elem_post_order _ _ _ _ _ _ E) in Hq as (i & q0 & Hi & Hq). pose proof (Forall_lookup_1 _ _ _ _ Hf Hi) as Hf0.
  assert (exists l1 l2 l3, post_order n s q0 ++ [q0] = l1 ++ r :: l2 ++ q :: l3) as (l1 & l2 & l3 & Hl).
  { apply elem_of_app in Hq as [Hq| ->%list_elem_of_singleton].
    - destruct (IH q0 q r Hf0 Hq Ho) as (l1 & l2 & l3 & ->). exists l1, l2, (l3 ++ [q0]). by rewrite <- app_assoc; cbn; rewrite <- app_assoc.
    - assert (r ∈ post_order n s q0) as Hr by (apply post_order_below; [done|by apply tc_once]).
      apply list_elem_of_split in Hr as (l1 & l2 & ->). exists l1, l2, []. by rewrite <- app_assoc. }
  cbn [post_order]. rewrite E. set (ls := imap _ deps). assert (ls !! i = Some (post_order n s q0 ++ [q0])) as Hls
    by (unfold ls; by rewrite list_lookup_imap, Hi).
  exists (concat (take i ls) ++ l1), l2, (l3 ++ concat (drop (S i) ls)).
  rewrite <- (take_drop_middle ls i _ Hls) at 1. rewrite concat_app. cbn [concat]. rewrite Hl, <- !app_assoc. cbn.
  by rewrite <- !app_assoc.
Qed.
End Shape.

(** ** What the walks log *)

Lemma run_bind_ok {A B} (m : run A) (f : A -> run B) (st st' : run_state) (b : B) :
  (m ≫= f) st = (st', Ok b) -> exists a st1, m st = (st1, Ok a) /\ f a st1 = (st', Ok b).
Proof. unfold mbind, run_bind. destruct (m st) as [st1 [a| | |]]; intros H; try done. by exists a, st1. Qed.

(** Success adds a block to the log. *)
Definition logs {A} (m : run A) (P : list process_event -> Prop) : Prop :=
  forall st st' a, m st = (st', Ok a) -> exists block, ru_log st' = ru_log st ++ block /\ P block.
Definition silent {A} (m : run A) : Prop := logs m (fun block => block = []).

Lemma logs_bind {A B} (m : run A) (f : A -> run B) (P Q R : list process_event -> Prop) :
  logs m P -> (forall a, logs (f a) Q) -> (forall b1 b2, P b1 -> Q b2 -> R (b1 ++ b2)) -> logs (m ≫= f) R.
Proof.
  intros Hm Hf HR st st' b (a & st1 & H1 & H2)%run_bind_ok. destruct (Hm _ _ _ H1) as (b1 & E1 & P1).
  destruct (Hf _ _ _ _ H2) as (b2 & E2 & P2). exists (b1 ++ b2). rewrite E2, E1, app_assoc. auto.
Qed.

Lemma logs_after {A B} (m : run A) (f : A -> run B) (Q : list process_event -> Prop) :
  silent m -> (forall a, logs (f a) Q) -> logs (m ≫= f) Q.
Proof. intros Hm Hf. eapply logs_bind; [done|done|]. by intros b1 b2 ->. Qed.

Lemma logs_weaken {A} (m : run A) (P Q : list process_event -> Prop) : logs m P -> (forall b, P b -> Q b) -> logs m Q.
Proof. intros H HPQ st st' a E. destruct (H _ _ _ E) as (b & E' & HP). exists b. auto. Qed.

Lemma silent_ret {A} (a : A) : silent (mret a).
Proof. intros st st' a' [= <-]. exists []. by rewrite app_nil_r. Qed.
Lemma logs_fails {A} (m : outcome A) (P : list process_event -> Prop) : (forall a, m <> Ok a) -> logs (run_outcome m) P.
Proof. intros H st st' a' [= <- E]. by destruct (H a'). Qed.
Lemma silent_outcome {A} (m : outcome A) : silent (run_outcome m).
Proof. intros st st' a' [= <- _]. exists []. by rewrite app_nil_r. Qed.
Lemma silent_images {A} (m : proc A) : silent (on_images m).
Proof. intros st st' a. unfold on_images. destruct (m (ru_proc st)). intros [= <- _]. exists []. by rewrite app_nil_r. Qed.
Lemma silent_store {A} (m : ld A) : silent (on_store m).
Proof. intros st st' a. unfold on_store. destruct (m (ru_store st)). intros [= <- _]. exists []. by rewrite app_nil_r. Qed.
Lemma logs_event (e : process_event) : logs (log_event e) (fun b => b = [e]).
Proof. intros st st' a [= <- _]. by exists [e]. Qed.
Lemma silent_set_dep (d : dep_ref) (f : dependency -> dependency) : silent (set_dep d f).
Proof. apply logs_after; [apply silent_store|]. intros node. apply silent_store. Qed.

Lemma logs_each {A} (f : A -> run unit) (P : list process_event -> Prop) (l : list A) :
  P [] -> (forall b1 b2, P b1 -> P b2 -> P (b1 ++ b2)) -> (forall a, logs (f a) P) -> logs (each f l) P.
Proof.
  intros H0 Happ Hf. induction l as [|a l IH]; cbn [each]; [|by eapply logs_bind].
  eapply logs_weaken; [apply silent_ret|]. by intros b ->.
Qed.

(** A loop over dependencies, in stores with an invariant: a block for each own program. *)
Lemma each_blocks (s : process) (I : process -> Prop) (one : dep_ref -> run unit) (P : ptr -> list process_event -> Prop)
    (l : list dep_ref) :
  (forall d st st', d ∈ l -> I (ru_store st) -> one d st = (st', Ok tt) ->
     I (ru_store st') /\ exists block, ru_log st' = ru_log st ++ block /\
       match own_program s d with Some q => P q block | None => block = [] end) ->
  forall st st', I (ru_store st) -> each one l st = (st', Ok tt) ->
  exists blocks, ru_log st' = ru_log st ++ concat blocks /\ Forall2 P (omap (own_program s) l) blocks.
Proof.
  induction l as [|d l IH]; intros Hone st st' Hs; cbn [each].
  { intros [= <-]. exists []. cbn. by rewrite app_nil_r. }
  intros ([] & st1 & H1 & H2)%run_bind_ok. destruct (Hone d _ _ ltac:(by left) Hs H1) as (Hs1 & b & E & Hb).
  destruct (IH ltac:(intros d' st0 st0' Hd'; apply Hone; by right) st1 st' Hs1 H2) as (bs & E' & Hbs).
  cbn [omap list_omap]. destruct (own_program s d) as [q|].
  - exists (b :: bs). split; [|by constructor]. cbn. by rewrite E', E, app_assoc.
  - subst b. exists bs. by rewrite E', E, app_nil_r.
Qed.

Section Blocks.
Context (call_guest : gmap Z image -> Z -> Z -> gmap Z image * Z).
Context (mmap : gmap Z image -> Z -> option Z) (mprotect_fails : Z -> Z -> Z -> bool).
Context (env : run_env) (links : nat) (descs gets : list Z).

Definition calls_of (p : ptr) (block : list process_event) : Prop := exists targets, block = EvCall p <$> targets.

Lemma calls_nil (p : ptr) : calls_of p []. Proof using. by exists []. Qed.
Lemma calls_app (p : ptr) (b1 b2 : list process_event) : calls_of p b1 -> calls_of p b2 -> calls_of p (b1 ++ b2).
Proof using. intros [t1 ->] [t2 ->]. exists (t1 ++ t2). by rewrite fmap_app. Qed.

Lemma logs_call (p : ptr) (prog : loaded_program) (target : Z) :
  logs (call_process_initializer call_guest env p prog target) (fun b => b = [EvCall p target]).
Proof using.
  unfold call_process_initializer. destruct (_ <? 0); [by apply logs_fails|].
  apply (logs_bind _ _ (fun b => b = [EvCall p target]) (fun b => b = [])); [apply logs_event| |by intros b1 b2 -> ->].
  intros _ st st' a. unfold run_guest_at. destruct (call_guest _ _ _). intros [= <- _]. exists []. by rewrite app_nil_r.
Qed.

Lemma logs_entry (p : ptr) (prog : loaded_program) (img off n : Z) :
  logs (call_array_entry call_guest env p prog img off n) (calls_of p).
Proof using.
  apply logs_after; [apply silent_images|]. intros code. apply logs_after; [apply silent_outcome|]. intros target.
  destruct (negb _); [eapply logs_weaken; [apply logs_call|]|eapply logs_weaken; [apply silent_ret|]].
  - intros b ->. by exists [target].
  - intros b ->. apply calls_nil.
Qed.

Lemma logs_entries (p : ptr) (prog : loaded_program) (img off : Z) (l : list Z) :
  logs (each (call_array_entry call_guest env p prog img off) l) (calls_of p).
Proof using. apply logs_each; [apply calls_nil|apply calls_app|]. intros n. apply logs_entry. Qed.

(** The call of DT_INIT or DT_FINI. *)
Definition hook_call (prog : loaded_program) (img vaddr : Z) : list Z :=
  if negb (vaddr =? 0) then [u64 (lifecycle_bias prog img + vaddr)] else [].

Lemma logs_hook (p : ptr) (prog : loaded_program) (img vaddr : Z) :
  logs (if negb (vaddr =? 0) then call_process_initializer call_guest env p prog (u64 (lifecycle_bias prog img + vaddr))
        else mret tt) (fun b => b = EvCall p <$> hook_call prog img vaddr).
Proof using. unfold hook_call. destruct (negb _); [apply logs_call|apply silent_ret]. Qed.

Lemma logs_array {A} (m : outcome A) (f : A -> run unit) (p : ptr) (size : Z) : (forall a, logs (f a) (calls_of p)) ->
  logs (if size =? 0 then mret tt else run_outcome m ≫= f) (calls_of p).
Proof using.
  intros Hf. destruct (_ =? 0); [|apply logs_after; [apply silent_outcome|done]].
  eapply logs_weaken; [apply silent_ret|]. intros b ->. apply calls_nil.
Qed.

Lemma logs_initializers (p : ptr) (prog : loaded_program) (img : Z) :
  logs (run_process_initializers call_guest env p prog img) (fun b => exists arr,
    b = EvCall p <$> hook_call prog img (init_vaddr (lp_lifecycle prog)) ++ arr).
Proof using.
  unfold run_process_initializers. cbn zeta. eapply logs_bind with (Q := calls_of p); [apply logs_hook| |].
  - intros _. destruct (_ =? 0); [eapply logs_weaken; [apply silent_ret|intros b ->; apply calls_nil]|].
    apply logs_array. intros off. apply logs_entries.
  - intros b1 b2 -> [arr ->]. exists arr. by rewrite fmap_app.
Qed.

Lemma logs_finalizers (p : ptr) (prog : loaded_program) (img : Z) :
  logs (run_process_finalizers call_guest env p prog img) (fun b => exists arr,
    b = EvCall p <$> arr ++ hook_call prog img (fini_vaddr (lp_lifecycle prog))).
Proof using.
  unfold run_process_finalizers. cbn zeta. eapply logs_bind with (P := calls_of p); [|intros _; apply logs_hook|].
  - apply logs_array. intros off. apply logs_entries.
  - intros b1 b2 [arr ->] ->. exists arr. by rewrite fmap_app.
Qed.

Definition protections (block : list process_event) : Prop :=
  Forall (fun e => match e with EvProtect _ _ _ => True | _ => False end) block.

Lemma logs_protect (h : poly_program) (img v n prot : Z) : logs (protect_image_range mprotect_fails h img v n prot) protections.
Proof using.
  unfold protect_image_range. destruct (_ =? 0); [eapply logs_weaken; [apply silent_ret|intros b ->; constructor]|].
  apply logs_after; [apply silent_outcome|]. intros [addr len].
  eapply logs_bind with (Q := fun b => b = []); [apply logs_event| |].
  - intros _. destruct (mprotect_fails _ _ _); [by apply logs_fails|apply silent_ret].
  - intros b1 b2 -> ->. by constructor.
Qed.

(** The log from the mapping of a program on: it is protected and then initialized. *)
Definition readied (prog : loaded_program) (q : ptr) (img : Z) (block : list process_event) : Prop :=
  exists protects arr, protections protects /\
    block = protects ++ (EvCall q <$> hook_call prog img (init_vaddr (lp_lifecycle prog)) ++ arr).

(** A dependency's own program is mapped, protected, initialized. *)
Definition set_up (prog : loaded_program) (q : ptr) (block : list process_event) : Prop :=
  exists img rest, block = EvMap img (align_up_u64 (code_size (lp_header prog)) PAGE) :: rest /\ readied prog q img rest.

Lemma logs_ready (d : dep_ref) (q : ptr) (prog : loaded_program) (img size : Z) :
  logs (set_dep d (with_mapping (Some img) size (Some img));; relocate_dependency call_guest env q img descs gets;;
        protect_load_segments mprotect_fails prog img;;
        protect_image_range mprotect_fails (lp_header prog) img (lp_relro_vaddr prog) (lp_relro_size prog) PROT_READ;;
        run_process_initializers call_guest env q prog img) (readied prog q img).
Proof using.
  apply logs_after; [apply silent_set_dep|]. intros _. apply logs_after.
  { intros s1 s2 a. unfold relocate_dependency. destruct (program_view _ _); intros H; [by eapply silent_images|done]. }
  intros _. apply (logs_bind _ _ protections (readied prog q img)).
  - apply logs_each; [by apply Forall_nil|by intros b1 b2; apply Forall_app_2|]. intros seg. apply logs_protect.
  - intros _. eapply logs_bind; [apply logs_protect|intros _; apply logs_initializers|].
    intros b1 b2 Hb1 [arr ->]. by exists b1, arr.
  - intros b1 b2 Hb1 (protects & arr & Hp & ->). exists (b1 ++ protects), arr. split; [by apply Forall_app_2|]. by rewrite app_assoc.
Qed.

Lemma logs_map_own (d : dep_ref) (q : ptr) (st st' : run_state) (prog : loaded_program) :
  prog_at (ru_store st) q = Some prog -> map_own call_guest mmap mprotect_fails env d q descs gets st = (st', Ok tt) ->
  exists block, ru_log st' = ru_log st ++ block /\ set_up prog q block.
Proof using.
  unfold prog_at. destruct (ps_nodes (ru_store st) !! q) as [node|] eqn:E; [|done]. intros [= <-]. unfold map_own.
  rewrite (node_of_run _ _ _ _ E). cbn zeta. destruct (_ || _); [done|].
  intros (mapping & st1 & H1 & H2)%run_bind_ok. unfold map_image in H1. destruct (mmap _ _) as [img|].
  - injection H1 as <- <-. destruct (logs_ready _ _ _ _ _ _ _ _ H2) as (b & Hb & Hr). cbn [ru_log] in Hb.
    rewrite <- app_assoc in Hb. eexists. split; [done|]. by exists img, b.
  - injection H1 as <- <-. by apply run_bind_ok in H2 as ([] & st2 & _ & H2).
Qed.

(** ** The order *)

Lemma own_program_at (s : process) (d : dep_ref) (dep : dependency) : dep_at s d = Some dep ->
  own_program s d = match dp_shared_from dep with None => dp_program dep | Some _ => None end.
Proof using.
  intros H. unfold own_program. destruct d as [p i]. destruct (shape s p) as [[prog deps]|] eqn:E; cbn [fst snd]; rewrite ?E.
  - rewrite <- (dep_at_shape _ _ i _ _ E), H. cbn. by destruct (dp_program dep), (dp_shared_from dep).
  - unfold dep_at in H. cbn in H. unfold shape in E. by destruct (ps_nodes s !! p).
Qed.

Lemma own_program_alike (s s' : process) (d : dep_ref) : alike s s' -> own_program s d = own_program s' d.
Proof using. intros H. unfold own_program. by rewrite (H d.1). Qed.

Lemma prog_at_alike (s s' : process) (p : ptr) : alike s s' -> prog_at s p = prog_at s' p.
Proof using.
  intros H. specialize (H p). unfold shape, prog_at in *. destruct (ps_nodes s !! p), (ps_nodes s' !! p); cbn in *; try done.
  injection H as H _. by rewrite H.
Qed.

Lemma dep_of_ok {B} (d : dep_ref) (f : dependency -> run B) (st st' : run_state) (b : B) :
  (dep_of d ≫= f) st = (st', Ok b) -> exists dep, dep_at (ru_store st) d = Some dep /\ f dep st = (st', Ok b).
Proof using.
  intros (dep & st1 & H1 & H2)%run_bind_ok. unfold dep_of, on_store in H1.
  destruct (get_dep d (ru_store st)) as [s1 r] eqn:G. injection H1 as <- ->. apply get_dep_inv in G as [-> Hd].
  exists dep. split; [done|]. by destruct st.
Qed.

(** A program is found wherever the tree says. *)
Definition programs_there (s : process) : Prop := forall d q, own_program s d = Some q -> exists prog, prog_at s q = Some prog.

Lemma map_one_block (s : process) (d : dep_ref) (st st' : run_state) : programs_there s -> alike s (ru_store st) ->
  map_one call_guest mmap mprotect_fails env links descs gets d st = (st', Ok tt) ->
  exists block, ru_log st' = ru_log st ++ block /\
    match own_program s d with Some q => exists prog, prog_at s q = Some prog /\ set_up prog q block | None => block = [] end.
Proof using.
  intros Hp Hs (dep & Hd & H)%dep_of_ok. rewrite (own_program_alike _ _ d Hs), (own_program_at _ _ _ Hd).
  destruct (dp_shared_from dep) as [sf|] eqn:Esf.
  - assert (silent (map_shared links d sf)) as HS; [|by eapply HS].
    apply logs_after; [apply silent_store|]. intros c. apply logs_after; [apply silent_store|]. intros shared.
    destruct (dp_loaded_image shared); [apply silent_set_dep|by apply logs_fails].
  - destruct (dp_program dep) as [q|] eqn:Eq; [|done]. destruct (Hp d q) as [prog Hprog].
    { by rewrite (own_program_alike _ _ d Hs), (own_program_at _ _ _ Hd), Esf, Eq. }
    rewrite (prog_at_alike _ _ _ Hs) in Hprog. destruct (logs_map_own _ _ _ _ _ Hprog H) as (b & Hb & Hset).
    exists b. split; [done|]. exists prog. by rewrite (prog_at_alike _ _ _ Hs).
Qed.

(** At exit, the finalizers of a program whose image is where its dependency says. *)
Definition finished (s : process) (q : ptr) (block : list process_event) : Prop :=
  exists d dep prog arr, dep_at s d = Some dep /\ own_program s d = Some q /\ prog_at s q = Some prog /\
    block = EvCall q <$> arr ++ hook_call prog (default 0 (dp_loaded_image dep)) (fini_vaddr (lp_lifecycle prog)).

Definition leaves_store {A} (m : run A) : Prop := forall st, ru_store (m st).1 = ru_store st.

Lemma leaves_bind {A B} (m : run A) (f : A -> run B) : leaves_store m -> (forall a, leaves_store (f a)) -> leaves_store (m ≫= f).
Proof using.
  intros Hm Hf st. specialize (Hm st). unfold mbind, run_bind. destruct (m st) as [st1 [a| | |]]; cbn in *; try done.
  by rewrite <- Hm, Hf.
Qed.

Lemma leaves_each {A} (f : A -> run unit) (l : list A) : (forall a, leaves_store (f a)) -> leaves_store (each f l).
Proof using. intros Hf. induction l as [|a l IH]; cbn [each]; [done|]. apply leaves_bind; [apply Hf|by intros _]. Qed.

Lemma finalizers_leave_store (p : ptr) (prog : loaded_program) (img : Z) :
  leaves_store (run_process_finalizers call_guest env p prog img).
Proof using.
  assert (forall target, leaves_store (call_process_initializer call_guest env p prog target)) as Hcall.
  { intros target. unfold call_process_initializer. destruct (_ <? 0); [done|]. apply leaves_bind; [done|]. intros _ st.
    unfold run_guest_at. by destruct (call_guest _ _ _). }
  unfold run_process_finalizers. cbn zeta. apply leaves_bind.
  - unfold run_process_finalizer_array. destruct (_ =? 0); [done|]. apply leaves_bind; [done|]. intros off. apply leaves_each.
    intros n. apply leaves_bind; [intros st; unfold on_images; by destruct (get_image _ _)|]. intros code.
    apply leaves_bind; [done|]. intros target. by destruct (negb _).
  - intros _. by destruct (negb _).
Qed.

Lemma finalize_one_block (s : process) (d : dep_ref) (st st' : run_state) :
  ru_store st = s -> finalize_one call_guest env d st = (st', Ok tt) ->
  ru_store st' = s /\ exists block, ru_log st' = ru_log st ++ block /\
    match own_program s d with Some q => finished s q block | None => block = [] end.
Proof using.
  intros Hs H. apply dep_of_ok in H as (dep & Hd & H). rewrite Hs in Hd. pose proof (own_program_at _ _ _ Hd) as Ho.
  rewrite Ho. destruct (dp_shared_from dep) as [sf|].
  - injection H as <-. split; [done|]. exists []. by rewrite app_nil_r.
  - destruct (dp_program dep) as [q|] eqn:Eq; [|done]. apply dep_of_ok in H as (dep' & Hd' & H).
    rewrite Hs, Hd in Hd'. injection Hd' as <-. apply run_bind_ok in H as (node & st1 & H1 & H).
    unfold node_of, on_store, get_node in H1. destruct (ps_nodes (ru_store st) !! q) as [node'|] eqn:En; [|done].
    injection H1 as <- ->. pose proof (finalizers_leave_store q (nd_program node) (default 0 (dp_loaded_image dep)) (MkRun (ru_store st) (ru_proc st) (ru_log st))) as K.
    rewrite H in K. cbn in K. split; [by rewrite K|]. destruct (logs_finalizers _ _ _ _ _ _ H) as (b & Hb & arr & ->).
    eexists. split; [done|]. exists d, dep, (nd_program node), arr. split_and!; try done. unfold prog_at. by rewrite <- Hs, En.
Qed.

Lemma tree_programs_there files calloc_fails (s : process) : tree_wf files calloc_fails s -> programs_there s.
Proof using.
  intros W d q H. destruct (dep_at s d) as [dep|] eqn:E.
  - rewrite (own_program_at _ _ _ E) in H. destruct d as [p i]. pose proof (tw_dep _ _ _ W _ _ _ E) as Ho.
    destruct (dp_shared_from dep); [done|]. destruct Ho as (q' & prog & Hq & _ & Hp & _). exists prog. by simplify_eq.
  - unfold own_program in H. destruct d as [p i]. cbn [fst snd] in H. destruct (shape s p) as [[prog deps]|] eqn:Es; [|done].
    rewrite <- (dep_at_shape _ _ i _ _ Es), E in H. done.
Qed.

(** C7: The programs that a process owns are set up one after the other, each once and
    each after everything that it owns itself: a program is mapped, protected and then
    its initializers run, those of DT_INIT first.  The finalizers run in exactly the
    opposite order, each program's DT_FINI last, whatever happened in between, as long
    as the tree is the same.  The number of programs bounds the walks. *)
Theorem finalizers_reverse_initializers files calloc_fails (p : ptr) (prog : loaded_program) (n : nat)
    (st st1 st2 st3 : run_state) :
  tree_wf files calloc_fails (ru_store st) -> prog_at (ru_store st) p = Some prog ->
  (Pos.to_nat (ps_next (ru_store st)) <= Pos.to_nat p + n)%nat ->
  map_process_dependencies call_guest mmap mprotect_fails env links n descs gets p st = (st1, Ok tt) ->
  alike (ru_store st) (ru_store st2) ->
  run_process_dependency_finalizers call_guest env n p st2 = (st3, Ok tt) ->
  exists order ups downs,
    NoDup order /\
    (forall q, q ∈ order <-> tc (owns (ru_store st)) p q) /\
    (forall q r, q ∈ order -> owns (ru_store st) q r -> exists l1 l2 l3, order = l1 ++ r :: l2 ++ q :: l3) /\
    ru_log st1 = ru_log st ++ concat ups /\
    Forall2 (fun q block => exists prog, prog_at (ru_store st) q = Some prog /\ set_up prog q block) order ups /\
    ru_log st3 = ru_log st2 ++ concat downs /\
    Forall2 (finished (ru_store st2)) (rev order) downs.
Proof using.
  intros W Hp Hn Hmap Hs Hfin. set (s := ru_store st) in *. pose proof (tree_fits _ _ _ W n p prog Hp Hn) as Hfit.
  exists (post_order n s p). rewrite (map_is_loop _ _ _ _ _ _ _ s n p st Hfit) in Hmap by done.
  rewrite (finalizers_are_loop _ _ s n p st2 Hfit Hs) in Hfin.
  apply (each_blocks s (alike s) _ (fun q block => exists prog, prog_at s q = Some prog /\ set_up prog q block)) in Hmap
    as (ups & Hup & Fup); [| |done].
  2:{ intros d st0 st0' _ Hs0 H. pose proof (shape_map_one call_guest mmap mprotect_fails env links descs gets d st0) as K.
      rewrite H in K. cbn in K. split; [by rewrite Hs0|].
      apply (map_one_block s) in H; [done|by eapply tree_programs_there|done]. }
  apply (each_blocks (ru_store st2) (fun s => s = ru_store st2) _ (finished (ru_store st2))) in Hfin as (downs & Hdown & Fdown); [| |done].
  2:{ intros d st0 st0' _ Hs0 H. by apply (finalize_one_block (ru_store st2)) in H. }
  exists ups, downs. rewrite post_order_visits, omap_rev in *. split_and!; try done.
  - rewrite <- post_order_visits. by eapply post_order_once.
  - intros q. rewrite <- post_order_visits. by apply post_order_below.
  - intros q r. rewrite <- post_order_visits. by apply post_order_before.
  - by rewrite (omap_same _ (own_program (ru_store st2))) by (intros d; by apply own_program_alike).
Qed.
End Blocks.
