(* ===== verification/ProcessCleanup.v ===== *)
(** The mappings of a process's libraries: however far [map_process_dependencies]
    gets, [unmap_process_dependencies] gives back what it mapped, each mapping once. *)

From stdpp Require Import gmap relations.
From S2P Require Import Prelude LoaderBase BridgeSpec ElfImage ElfSymbols CodeEmit Trampoline CrossStub TlsHelpers ElfLoad LibraryPath ElfDeps DependencyLoad DependencyTree Relocation ProcessLifecycle ProcessOrder LifecycleOrder.

(** The mappings that a log makes and gives back, in order. *)
Definition traffic (log : list process_event) : list (bool * (Z * Z)) :=
  omap (fun e => match e with EvMap a n => Some (true, (a, n)) | EvUnmap a n => Some (false, (a, n)) | _ => None end) log.
Definition maps_of (log : list process_event) : list (Z * Z) :=
  omap (fun t => if t.1 : bool then Some t.2 else None) (traffic log).
Definition unmaps_of (log : list process_event) : list (Z * Z) :=
  omap (fun t => if t.1 : bool then None else Some t.2) (traffic log).

Definition made (l : list (Z * Z)) : list (bool * (Z * Z)) := pair true <$> l.

Lemma traffic_app (l1 l2 : list process_event) : traffic (l1 ++ l2) = traffic l1 ++ traffic l2.
Proof. apply omap_app. Qed.

Lemma maps_of_made (log : list process_event) (l : list (Z * Z)) : traffic log = made l -> maps_of log = l /\ unmaps_of log = [].
Proof.
  intros H. unfold maps_of, unmaps_of. rewrite H. clear H. induction l as [|m l [IH1 IH2]]; [done|].
  unfold made in *. cbn in *. by rewrite IH1, IH2.
Qed.

(** What a dependency of a program's own has mapped. *)
Definition own_mapping (s : process) (d : dep_ref) : option (Z * Z) :=
  match dep_at s d with
  | Some dep =>
      match dp_shared_from dep, dp_mapping dep with
      | None, Some addr => if negb (dp_mapping_size dep =? 0) then Some (addr, dp_mapping_size dep) else None
      | _, _ => None
      end
  | None => None
  end.

Lemma own_mapping_same (s s' : process) (d : dep_ref) : dep_at s' d = dep_at s d -> own_mapping s' d = own_mapping s d.
Proof. unfold own_mapping. by intros ->. Qed.

(** ** Every order visits a dependency once *)

Section Visits.
  Context (files : list Z -> option image) (calloc_fails : Z -> bool) (s : process).
  Context (W : tree_wf files calloc_fails s).

Lemma elem_visits (n : nat) (p : ptr) (d : dep_ref) (i : nat) (l : list dep_ref) (prog : loaded_program)
    (deps : list (option ptr * option dep_ref)) :
  shape s p = Some (prog, deps) ->
  imap (fun i dep => match dep with (Some q, None) => visits n s q ++ [(p, i)] | _ => [(p, i)] end) deps !! i = Some l ->
  d ∈ l -> d = (p, i) \/ exists q, deps !! i = Some (Some q, None) /\ d ∈ visits n s q.
Proof using.
  intros E Hl Hd. rewrite list_lookup_imap in Hl. destruct (deps !! i) as [[[q|] [sf|]]|] eqn:Ei; try done; injection Hl as <-;
    try (left; by apply list_elem_of_singleton in Hd).
  apply elem_of_app in Hd as [Hd|Hd%list_elem_of_singleton]; [right; by exists q|by left].
Qed.

Lemma visits_below (n : nat) : forall p d, d ∈ visits n s p -> rtc (owns s) p d.1.
Proof using.
  induction n as [|n IH]; intros p d; cbn [visits]; [by intros ?%elem_of_nil|].
  destruct (shape s p) as [[prog deps]|] eqn:E; [|by intros ?%elem_of_nil].
  intros (l & Hl%list_elem_of_In & Hd%list_elem_of_In)%list_elem_of_In%in_concat. apply list_elem_of_lookup_1 in Hl as [i Hi].
  destruct (elem_visits _ _ _ _ _ _ _ E Hi Hd) as [->|(q & Hq & Hd')]; [done|].
  apply rtc_l with q; [by exists prog, deps, i|by apply IH].
Qed.

Lemma visits_once (n : nat) : forall p, fits n s p -> NoDup (visits n s p).
Proof using W.
  induction n as [|n IH]; intros p; [done|]. intros (prog & deps & E & Hf). cbn [visits]. rewrite E.
  assert (forall i q, deps !! i = Some (Some q, None) -> forall j, (p, j) ∉ visits n s q) as Hnot.
  { intros i q Hi j Hin%visits_below. cbn in Hin. pose proof (below_up _ _ s W _ _ Hin).
    pose proof (owns_up _ _ s W p q ltac:(by exists prog, deps, i)). lia. }
  apply NoDup_concat_lookup.
  - apply Forall_lookup_2. intros i l Hl. rewrite list_lookup_imap in Hl. destruct (deps !! i) as [[[q|] [sf|]]|] eqn:Ei; try done;
      injection Hl as <-; try apply NoDup_singleton. apply NoDup_app. split_and!; [|intros x Hx ->%list_elem_of_singleton|apply NoDup_singleton].
    + apply IH. by apply (Forall_lookup_1 _ _ _ _ Hf Ei).
    + by eapply Hnot.
  - intros i j l l' d Hi Hj Hd Hd'. destruct (elem_visits _ _ _ _ _ _ _ E Hi Hd) as [->|(q & Hq & Hdq)];
      destruct (elem_visits _ _ _ _ _ _ _ E Hj Hd') as [Heq|(q' & Hq' & Hdq')].
    + by injection Heq.
    + by destruct (Hnot _ _ Hq' i).
    + subst d. by destruct (Hnot _ _ Hq j).
    + apply visits_below in Hdq, Hdq'. by eapply subtrees_apart.
Qed.

Lemma visits_there (n : nat) (p : ptr) (d : dep_ref) : d ∈ visits n s p -> exists dep, dep_at s d = Some dep.
Proof using.
  revert p. induction n as [|n IH]; intros p; cbn [visits]; [by intros ?%elem_of_nil|].
  destruct (shape s p) as [[prog deps]|] eqn:E; [|by intros ?%elem_of_nil].
  intros (l & Hl%list_elem_of_In & Hd%list_elem_of_In)%list_elem_of_In%in_concat. apply list_elem_of_lookup_1 in Hl as [i Hi].
  destruct (elem_visits _ _ _ _ _ _ _ E Hi Hd) as [->|(q & Hq & Hd')]; [|by eapply IH].
  rewrite list_lookup_imap in Hi. destruct (deps !! i) as [x|] eqn:Ei; [|done]. rewrite <- (dep_at_shape _ _ i _ _ E) in Ei.
  destruct (dep_at s (p, i)) as [dep|]; [by exists dep|done].
Qed.
End Visits.

(** ** Steps *)

(** The store and the mappings stay as they are, whatever the outcome. *)
Definition maps_nothing {A} (m : run A) : Prop :=
  forall st, ru_store (m st).1 = ru_store st /\ exists block, ru_log (m st).1 = ru_log st ++ block /\ traffic block = [].

Lemma nothing_bind {A B} (m : run A) (f : A -> run B) : maps_nothing m -> (forall a, maps_nothing (f a)) -> maps_nothing (m ≫= f).
Proof.
  intros Hm Hf st. destruct (Hm st) as (S1 & b1 & L1 & M1). unfold mbind, run_bind.
  destruct (m st) as [st1 [a| | |]]; cbn in *; try (split; [done|by exists b1]).
  destruct (Hf a st1) as (S2 & b2 & L2 & M2). split; [by rewrite S2|]. exists (b1 ++ b2).
  rewrite L2, L1, app_assoc. split; [done|]. by rewrite traffic_app, M1, M2.
Qed.

Lemma nothing_same {A} (m : run A) : (forall st, ru_store (m st).1 = ru_store st /\ ru_log (m st).1 = ru_log st) -> maps_nothing m.
Proof. intros H st. destruct (H st) as [-> ->]. split; [done|]. exists []. by rewrite app_nil_r. Qed.

Lemma nothing_outcome {A} (m : outcome A) : maps_nothing (run_outcome m). Proof. by apply nothing_same. Qed.
Lemma nothing_ret {A} (a : A) : maps_nothing (mret a). Proof. by apply nothing_same. Qed.
Lemma nothing_images {A} (m : proc A) : maps_nothing (on_images m).
Proof. apply nothing_same. intros st. unfold on_images. by destruct (m (ru_proc st)). Qed.
Lemma nothing_each {A} (f : A -> run unit) (l : list A) : (forall a, maps_nothing (f a)) -> maps_nothing (each f l).
Proof. intros Hf. induction l as [|a l IH]; cbn [each]; [apply nothing_ret|]. apply nothing_bind; [apply Hf|by intros _]. Qed.
Lemma nothing_event (e : process_event) : traffic [e] = [] -> maps_nothing (log_event e).
Proof. intros He st. split; [done|]. by exists [e]. Qed.

Lemma set_dep_at (d : dep_ref) (f : dependency -> dependency) (st : run_state) (dep : dependency) :
  dep_at (ru_store st) d = Some dep ->
  exists st', set_dep d f st = (st', Ok tt) /\ ru_log st' = ru_log st /\ ru_proc st' = ru_proc st /\
    dep_at (ru_store st') d = Some (f dep) /\ forall d', d' <> d -> dep_at (ru_store st') d' = dep_at (ru_store st) d'.
Proof.
  unfold dep_at, set_dep. destruct (ps_nodes (ru_store st) !! d.1) as [node|] eqn:E; [|done]. cbn. intros Hd.
  rewrite (node_of_run _ _ _ _ E). unfold on_store, put_node. eexists. split; [done|]. cbn. split_and!; try done.
  - rewrite lookup_insert_eq. cbn. by rewrite list_lookup_alter_eq, Hd.
  - intros [p i] Hne. cbn. destruct (decide (p = d.1)) as [->|Hp].
    + rewrite lookup_insert_eq, E. cbn. destruct (decide (i = d.2)) as [->|Hi]; [by destruct Hne; destruct d|].
      by rewrite list_lookup_alter_ne.
    + by rewrite lookup_insert_ne.
Qed.

Lemma run_bind_run {A B} (m : run A) (f : A -> run B) (st st1 : run_state) (a : A) :
  m st = (st1, Ok a) -> (m ≫= f) st = f a st1.
Proof. intros H. unfold mbind, run_bind. by rewrite H. Qed.

Lemma dep_of_none {B} (d : dep_ref) (f : dependency -> run B) (st : run_state) :
  dep_at (ru_store st) d = None -> (dep_of d ≫= f) st = (st, Fault).
Proof.
  unfold dep_at, mbind, run_bind, dep_of, on_store, get_dep. destruct (ps_nodes (ru_store st) !! d.1) as [node|]; cbn.
  - intros ->. by destruct st.
  - by destruct st.
Qed.

Lemma omap_nothing {A B} (f : A -> option B) (l : list A) : Forall (fun a => f a = None) l -> omap f l = [].
Proof. induction 1 as [|a l H _ IH]; [done|]. cbn. by rewrite H. Qed.

Lemma dep_shape_kept (s s' : process) (d : dep_ref) (dep : dependency) : alike s s' -> dep_at s d = Some dep ->
  exists dep', dep_at s' d = Some dep' /\ dp_program dep' = dp_program dep /\ dp_shared_from dep' = dp_shared_from dep.
Proof.
  intros Hs Hd. destruct d as [p i]. destruct (shape s p) as [[prog deps]|] eqn:E.
  - pose proof (dep_at_shape _ _ i _ _ E) as H. rewrite (Hs p) in E. rewrite <- (dep_at_shape _ _ i _ _ E), Hd in H.
    destruct (dep_at s' (p, i)) as [dep'|]; [|done]. injection H as H1 H2. by exists dep'.
  - unfold dep_at in Hd. cbn in Hd. unfold shape in E. by destruct (ps_nodes s !! p).
Qed.

Section Cleanup.
Context (call_guest : gmap Z image -> Z -> Z -> gmap Z image * Z).
Context (mmap : gmap Z image -> Z -> option Z) (mprotect_fails : Z -> Z -> Z -> bool).
Context (env : run_env) (links : nat) (descs gets : list Z).

Lemma nothing_call (p : ptr) (prog : loaded_program) (target : Z) :
  maps_nothing (call_process_initializer call_guest env p prog target).
Proof using.
  unfold call_process_initializer. destruct (_ <? 0); [apply nothing_outcome|]. apply nothing_bind; [by apply nothing_event|].
  intros _. apply nothing_same. intros st. unfold run_guest_at. by destruct (call_guest _ _ _).
Qed.

Lemma nothing_initializers (p : ptr) (prog : loaded_program) (img : Z) :
  maps_nothing (run_process_initializers call_guest env p prog img).
Proof using.
  unfold run_process_initializers, run_process_initializer_array. apply nothing_bind.
  { destruct (negb _); [apply nothing_call|apply nothing_ret]. }
  intros _. destruct (_ =? 0); [apply nothing_ret|]. apply nothing_bind; [apply nothing_outcome|]. intros off.
  apply nothing_each. intros n. apply nothing_bind; [apply nothing_images|]. intros code.
  apply nothing_bind; [apply nothing_outcome|]. intros target. destruct (negb _); [apply nothing_call|apply nothing_ret].
Qed.

Lemma nothing_protect (h : poly_program) (img v n prot : Z) : maps_nothing (protect_image_range mprotect_fails h img v n prot).
Proof using.
  unfold protect_image_range. destruct (_ =? 0); [apply nothing_ret|]. apply nothing_bind; [apply nothing_outcome|].
  intros [addr len]. apply nothing_bind; [by apply nothing_event|]. intros _.
  destruct (mprotect_fails _ _ _); [apply nothing_outcome|apply nothing_ret].
Qed.

Lemma nothing_ready (q : ptr) (prog : loaded_program) (img : Z) :
  maps_nothing (relocate_dependency call_guest env q img descs gets;; protect_load_segments mprotect_fails prog img;;
    protect_image_range mprotect_fails (lp_header prog) img (lp_relro_vaddr prog) (lp_relro_size prog) PROT_READ;;
    run_process_initializers call_guest env q prog img).
Proof using.
  apply nothing_bind.
  { intros st. unfold relocate_dependency. destruct (program_view _ _); [apply nothing_images|by apply (nothing_outcome (A:=unit) Fault)]. }
  intros _. apply nothing_bind; [apply nothing_each; intros seg; apply nothing_protect|]. intros _.
  apply nothing_bind; [apply nothing_protect|]. intros _. apply nothing_initializers.
Qed.

(** One dependency is mapped, and the log has what it has. *)
Definition mapped_one (d : dep_ref) (st st' : run_state) : Prop :=
  (forall d', d' <> d -> dep_at (ru_store st') d' = dep_at (ru_store st) d') /\
  exists block, ru_log st' = ru_log st ++ block /\ traffic block = made (option_list (own_mapping (ru_store st') d)).

Lemma mapped_nothing (d : dep_ref) (st st' : run_state) : own_mapping (ru_store st) d = None ->
  ru_store st' = ru_store st -> ru_log st' = ru_log st -> mapped_one d st st'.
Proof using. intros H Hs Hl. split; [by rewrite Hs|]. exists []. by rewrite app_nil_r, Hs, H. Qed.

Lemma map_own_maps (d : dep_ref) (q : ptr) (st : run_state) (dep : dependency) :
  dep_at (ru_store st) d = Some dep -> dp_shared_from dep = None -> dp_mapping dep = None ->
  mapped_one d st (map_own call_guest mmap mprotect_fails env d q descs gets st).1.
Proof using.
  intros Hd Hs Hm. assert (own_mapping (ru_store st) d = None) as Hnone by (unfold own_mapping; by rewrite Hd, Hs, Hm).
  unfold map_own. destruct (ps_nodes (ru_store st) !! q) as [node|] eqn:E.
  2:{ unfold mbind at 1, run_bind, node_of, on_store, get_node. rewrite E. by apply mapped_nothing. }
  rewrite (node_of_run _ _ _ _ E). cbn zeta. set (size := align_up_u64 _ _).
  destruct ((size =? 0) || _) eqn:G; [by apply mapped_nothing|]. apply orb_false_iff in G as [Hz _].
  destruct (mmap (images (ru_proc st)) size) as [img|] eqn:Em.
  - set (st1 := MkRun (ru_store st) (MkProcess (<[img := lp_code_bytes (nd_program node)]> (images (ru_proc st))) (stubs (ru_proc st)))
      (ru_log st ++ [EvMap img size])).
    rewrite (run_bind_run _ _ _ st1 (Some img)) by (unfold map_image; by rewrite Em).
    destruct (set_dep_at d (with_mapping (Some img) size (Some img)) st1 dep Hd) as (st2 & E2 & L2 & _ & D2 & O2).
    rewrite (run_bind_run _ _ _ _ _ E2).
    destruct (nothing_ready q (nd_program node) img st2) as (S3 & b & L3 & M3). split; [intros d' Hne; by rewrite S3, O2|].
    exists (EvMap img size :: b). split; [rewrite L3, L2; cbn; by rewrite <- app_assoc|].
    rewrite (own_mapping_same (ru_store st2)) by (by rewrite S3). unfold own_mapping. rewrite D2. cbn. rewrite Hs, Hz.
    change (traffic ([EvMap img size] ++ b) = made [(img, size)]). by rewrite traffic_app, M3.
  - rewrite (run_bind_run _ _ _ st None) by (unfold map_image; by rewrite Em).
    destruct (set_dep_at d (fun dep => with_mapping None size (dp_loaded_image dep) dep) st dep Hd) as (st2 & E2 & L2 & _ & D2 & O2).
    rewrite (run_bind_run _ _ _ _ _ E2). cbn. split; [done|]. exists []. rewrite app_nil_r. split; [done|].
    unfold own_mapping. rewrite D2. cbn. by rewrite Hs.
Qed.

Lemma map_shared_maps (d sf : dep_ref) (st : run_state) (dep : dependency) :
  dep_at (ru_store st) d = Some dep -> dp_shared_from dep = Some sf -> mapped_one d st (map_shared links d sf st).1.
Proof using.
  intros Hd Hs. assert (own_mapping (ru_store st) d = None) as Hnone by (unfold own_mapping; by rewrite Hd, Hs).
  assert (forall m : ld dep_ref, keeps m -> ru_store (on_store m st).1 = ru_store st /\ ru_log (on_store m st).1 = ru_log st) as Hk.
  { intros m Hm. specialize (Hm (ru_store st)). unfold on_store. by destruct (m (ru_store st)). }
  unfold map_shared. destruct (Hk _ (keeps_canonical links sf)) as [S1 L1]. unfold mbind at 1, run_bind.
  destruct (on_store (canonical_process_dependency links sf) st) as [st1 [c| | |]] eqn:Ec; cbn in S1, L1; try (by apply mapped_nothing).
  destruct (dep_at (ru_store st1) c) as [shared|] eqn:Es.
  - rewrite (dep_of_run _ _ _ _ Es). destruct (dp_loaded_image shared) as [img|]; [|by apply mapped_nothing].
    rewrite <- S1 in Hd. edestruct (set_dep_at d) as (st2 & E2 & L2 & _ & D2 & O2); [done|]. rewrite E2. cbn.
    split; [intros d' Hne; by rewrite O2, S1|]. exists []. rewrite app_nil_r, L2. split; [done|].
    unfold own_mapping. rewrite D2. cbn. by rewrite Hs.
  - rewrite (dep_of_none _ _ _ Es). by apply mapped_nothing.
Qed.

(** A loop over dependencies that have nothing mapped yet. *)
Lemma map_loop_maps (l : list dep_ref) : NoDup l -> forall st,
  Forall (fun d => exists dep, dep_at (ru_store st) d = Some dep /\ (dp_shared_from dep = None -> dp_mapping dep = None)) l ->
  let st' := (each (map_one call_guest mmap mprotect_fails env links descs gets) l st).1 in
  (forall d, d ∉ l -> dep_at (ru_store st') d = dep_at (ru_store st) d) /\
  exists block, ru_log st' = ru_log st ++ block /\ traffic block = made (omap (own_mapping (ru_store st')) l).
Proof using.
  induction 1 as [|d l Hnot Hl IH]; intros st Hd; cbn [each].
  { split; [done|]. exists []. by rewrite app_nil_r. }
  apply Forall_cons in Hd as [(dep & Hd & Hm) Hrest].
  assert (mapped_one d st (map_one call_guest mmap mprotect_fails env links descs gets d st).1) as [Ho (b & Lb & Mb)].
  { unfold map_one. rewrite (own_or_shared_run _ _ _ _ _ Hd). destruct (dp_shared_from dep) as [sf|] eqn:Esf; [by eapply map_shared_maps|].
    destruct (dp_program dep) as [q|]; [by eapply map_own_maps; auto|]. apply mapped_nothing; try done. unfold own_mapping.
    by rewrite Hd, Esf, Hm. }
  assert (Forall (fun d' => dep_at (ru_store (map_one call_guest mmap mprotect_fails env links descs gets d st).1) d' =
    dep_at (ru_store st) d') l) as Hsame by (apply Forall_forall; intros d' Hin; apply Ho; by intros ->).
  unfold mbind, run_bind. destruct (map_one _ _ _ _ _ _ _ d st) as [st1 r]. cbn [fst] in *.
  assert (Forall (fun d => exists dep, dep_at (ru_store st1) d = Some dep /\ (dp_shared_from dep = None -> dp_mapping dep = None)) l) as Hrest1.
  { apply Forall_forall. intros d' Hin. rewrite Forall_forall in Hsame, Hrest. rewrite Hsame by done. by apply Hrest. }
  destruct r as [[]| | |].
  1:{ destruct (IH st1 Hrest1) as (Ho1 & b1 & Lb1 & Mb1). split.
      - intros d' [Hne Hni]%not_elem_of_cons. by rewrite Ho1, Ho.
      - exists (b ++ b1). rewrite Lb1, Lb, app_assoc. split; [done|]. rewrite traffic_app, Mb, Mb1. unfold made. rewrite <- fmap_app.
        cbn [omap list_omap]. rewrite (own_mapping_same _ _ d (Ho1 d Hnot)). by destruct (own_mapping (ru_store st1) d). }
  all: split; [by intros d' [Hne _]%not_elem_of_cons; apply Ho|exists b; split; [done|]; rewrite Mb; cbn [omap list_omap fst];
    rewrite (omap_nothing _ l); [by destruct (own_mapping (ru_store st1) d)|]];
    eapply Forall_impl; [apply Hrest1|]; intros d' (dep' & Hd' & Hm'); unfold own_mapping; rewrite Hd';
    destruct (dp_shared_from dep'); [done|]; by rewrite Hm'.
Qed.

Definition unmap_event (m : Z * Z) : process_event := EvUnmap m.1 m.2.

Lemma unmap_one_gives (d : dep_ref) (st : run_state) (dep : dependency) : dep_at (ru_store st) d = Some dep ->
  (dp_shared_from dep = None -> is_Some (dp_program dep)) ->
  exists st', unmap_one d st = (st', Ok tt) /\
    ru_log st' = ru_log st ++ (unmap_event <$> option_list (own_mapping (ru_store st) d)) /\
    dep_at (ru_store st') d = Some (with_mapping None 0 None dep) /\
    forall d', d' <> d -> dep_at (ru_store st') d' = dep_at (ru_store st) d'.
Proof using.
  intros Hd Hp. unfold unmap_one. rewrite (own_or_shared_run _ _ _ _ _ Hd). unfold own_mapping. rewrite Hd.
  destruct (dp_shared_from dep) as [sf|].
  - destruct (set_dep_at d (with_mapping None 0 None) st dep Hd) as (st2 & E2 & L2 & _ & D2 & O2). exists st2.
    cbn. rewrite app_nil_r. by split_and!.
  - destruct (Hp eq_refl) as [q Hq]. rewrite Hq, (dep_of_run _ _ _ _ Hd).
    destruct (dp_mapping dep) as [addr|]; [destruct (negb (dp_mapping_size dep =? 0))|].
    + set (st1 := MkRun (ru_store st) (MkProcess (delete addr (images (ru_proc st))) (stubs (ru_proc st)))
        (ru_log st ++ [EvUnmap addr (dp_mapping_size dep)])).
      rewrite (run_bind_run _ _ _ st1 tt) by done.
      destruct (set_dep_at d (with_mapping None 0 None) st1 dep Hd) as (st2 & E2 & L2 & _ & D2 & O2). exists st2. by split_and!.
    + rewrite (run_bind_run _ _ _ st tt) by done.
      destruct (set_dep_at d (with_mapping None 0 None) st dep Hd) as (st2 & E2 & L2 & _ & D2 & O2). exists st2.
      cbn. rewrite app_nil_r. by split_and!.
    + rewrite (run_bind_run _ _ _ st tt) by done.
      destruct (set_dep_at d (with_mapping None 0 None) st dep Hd) as (st2 & E2 & L2 & _ & D2 & O2). exists st2.
      cbn. rewrite app_nil_r. by split_and!.
Qed.

Lemma unmap_loop_gives (l : list dep_ref) : NoDup l -> forall st,
  Forall (fun d => exists dep, dep_at (ru_store st) d = Some dep /\ (dp_shared_from dep = None -> is_Some (dp_program dep))) l ->
  exists st', each unmap_one l st = (st', Ok tt) /\
    ru_log st' = ru_log st ++ (unmap_event <$> omap (own_mapping (ru_store st)) l) /\
    (forall d dep, d ∈ l -> dep_at (ru_store st') d = Some dep -> dp_mapping dep = None) /\
    forall d, d ∉ l -> dep_at (ru_store st') d = dep_at (ru_store st) d.
Proof using.
  induction 1 as [|d l Hnot Hl IH]; intros st Hd; cbn [each].
  { exists st. cbn. rewrite app_nil_r. split_and!; try done. by intros d dep ?%elem_of_nil. }
  apply Forall_cons in Hd as [(dep & Hd & Hp) Hrest]. destruct (unmap_one_gives d st dep Hd Hp) as (st1 & E1 & L1 & D1 & O1).
  rewrite (run_bind_run _ _ _ _ _ E1).
  assert (Forall (fun d' => dep_at (ru_store st1) d' = dep_at (ru_store st) d') l) as Hsame
    by (apply Forall_forall; intros d' Hin; apply O1; by intros ->).
  destruct (IH st1) as (st2 & E2 & L2 & D2 & O2).
  { apply Forall_forall. intros d' Hin. rewrite Forall_forall in Hsame, Hrest. rewrite Hsame by done. by apply Hrest. }
  exists st2. split_and!; [done| | |].
  - rewrite L2, L1, <- app_assoc, <- fmap_app. do 2 f_equal.
    assert (omap (own_mapping (ru_store st1)) l = omap (own_mapping (ru_store st)) l) as ->.
    { clear -Hsame. induction Hsame as [|a l H _ IH]; [done|]. cbn. by rewrite (own_mapping_same _ _ _ H), IH. }
    cbn [omap list_omap]. by destruct (own_mapping (ru_store st) d).
  - intros d' dep' [->|Hin]%elem_of_cons Hd'; [|by eapply D2]. rewrite O2, D1 in Hd' by done. by injection Hd' as <-.
  - intros d' [Hne Hni]%not_elem_of_cons. by rewrite O2, O1.
Qed.

(** ** What has been mapped so far *)

Section Held.
Context (fuel : nat) (p : ptr) (prog : loaded_program) (files : list Z -> option image) (calloc_fails : Z -> bool) (s : process).
Context (W : tree_wf files calloc_fails s) (Hp : prog_at s p = Some prog).
Context (Hfuel : (Pos.to_nat (ps_next s) <= Pos.to_nat p + fuel)%nat).

(** The libraries hold these mappings and no others. *)
Record holds (maps : list (Z * Z)) (st : run_state) : Prop := {
  ho_alike : alike s (ru_store st);
  ho_maps : omap (own_mapping (ru_store st)) (visits fuel s p) = maps;
  ho_others : forall d dep, d ∉ visits fuel s p -> dep_at (ru_store st) d = Some dep -> dp_mapping dep = None;
}.

Lemma holds_fits : fits fuel s p.
Proof using W Hp Hfuel. by eapply tree_fits. Qed.

Lemma holds_same (maps : list (Z * Z)) (st st' : run_state) : ru_store st' = ru_store st -> holds maps st -> holds maps st'.
Proof using. intros E [H1 H2 H3]. split; by rewrite E. Qed.

Lemma unmap_held (maps : list (Z * Z)) (st : run_state) : holds maps st ->
  exists st', unmap_process_dependencies fuel p st = (st', Ok tt) /\
    ru_log st' = ru_log st ++ (unmap_event <$> maps) /\
    forall d dep, dep_at (ru_store st') d = Some dep -> dp_mapping dep = None.
Proof using W Hp Hfuel.
  intros [H1 H2 H3]. rewrite (unmap_is_loop s fuel p st holds_fits H1).
  destruct (unmap_loop_gives (visits fuel s p) (visits_once _ _ s W fuel p holds_fits) st) as (st2 & E2 & L2 & D2 & O2).
  { apply Forall_forall. intros d Hd. destruct (visits_there s fuel p d Hd) as (dep & Hdep).
    destruct (dep_shape_kept _ _ d dep H1 Hdep) as (dep' & Hd' & Hp' & Hs'). exists dep'. split; [done|].
    rewrite Hs', Hp'. intros Hs. destruct d as [r i]. pose proof (tw_dep _ _ _ W _ _ _ Hdep) as Hown. rewrite Hs in Hown.
    destruct Hown as (q & prog' & Hq & _). by exists q. }
  exists st2. rewrite L2, H2. split_and!; try done. intros d dep Hd.
  destruct (decide (d ∈ visits fuel s p)) as [Hin|Hni]; [by eapply D2|]. rewrite O2 in Hd by done. by eapply H3.
Qed.

Lemma map_holds (st : run_state) : alike s (ru_store st) ->
  (forall d dep, dep_at (ru_store st) d = Some dep -> dp_mapping dep = None) ->
  let st1 := (map_process_dependencies call_guest mmap mprotect_fails env links fuel descs gets p st).1 in
  exists maps block, holds maps st1 /\ ru_log st1 = ru_log st ++ block /\ traffic block = made maps.
Proof using W Hp Hfuel.
  intros Hs Hnone. cbn zeta. rewrite (map_is_loop _ _ _ _ _ _ _ s fuel p st holds_fits Hs).
  pose proof (map_loop_maps (visits fuel s p) (visits_once _ _ s W fuel p holds_fits) st) as Hm.
  cbn zeta in Hm. destruct Hm as (Ho & block & Lb & Mb).
  { apply Forall_forall. intros d Hd. destruct (visits_there s fuel p d Hd) as (dep & Hdep).
    destruct (dep_shape_kept _ _ d dep Hs Hdep) as (dep' & Hd' & _). exists dep'. split; [done|]. intros _. by eapply Hnone. }
  pose proof (shape_each (map_one call_guest mmap mprotect_fails env links descs gets) (visits fuel s p)
    (shape_map_one _ _ _ _ _ _ _) st) as Halike.
  eexists _, block. split; [|by split; [|exact Mb]]. split; [by etrans|done|]. intros d dep Hni Hd. rewrite Ho in Hd by done.
  by eapply Hnone.
Qed.
End Held.

(** However far the mapping of the libraries of a process gets, whether it succeeds,
    fails or faults, unmapping them then succeeds, gives back exactly the mappings that
    were made, with their sizes, each once and in the order they were made, and leaves
    no dependency with a mapping. *)
Theorem mappings_given_back files calloc_fails (p : ptr) (prog : loaded_program) (n : nat) (st : run_state) :
  tree_wf files calloc_fails (ru_store st) -> prog_at (ru_store st) p = Some prog ->
  (Pos.to_nat (ps_next (ru_store st)) <= Pos.to_nat p + n)%nat ->
  (forall d dep, dep_at (ru_store st) d = Some dep -> dp_mapping dep = None) ->
  let st1 := (map_process_dependencies call_guest mmap mprotect_fails env links n descs gets p st).1 in
  exists block st2, ru_log st1 = ru_log st ++ block /\
    unmap_process_dependencies n p st1 = (st2, Ok tt) /\
    ru_log st2 = ru_log st1 ++ (unmap_event <$> maps_of block) /\
    forall d dep, dep_at (ru_store st2) d = Some dep -> dp_mapping dep = None.
Proof using.
  intros W Hp Hn Hnone. cbn zeta.
  destruct (map_holds n p prog files calloc_fails (ru_store st) W Hp Hn st) as (maps & block & Hh & Lb & Tb); [done|done|].
  destruct (unmap_held n p prog files calloc_fails (ru_store st) W Hp Hn maps _ Hh) as (st2 & E2 & L2 & N2).
  exists block, st2. rewrite (proj1 (maps_of_made _ _ Tb)). by split_and!.
Qed.
End Cleanup.
