(* ===== verification/ProcessFree.v ===== *)
(** Giving up a loaded program ([free_program] of [tools/runtime/polyexec.c]): its
    mappings, its own libraries and their code.

    Memory that has been freed is no longer in the store, so that a second [free] or a
    use after it is a fault. *)

From stdpp Require Import gmap relations.
From S2P Require Import Prelude LoaderBase BridgeSpec ElfImage ElfSymbols CodeEmit Trampoline CrossStub TlsHelpers ElfLoad LibraryPath ElfDeps DependencyLoad DependencyTree Relocation ProcessLifecycle ProcessOrder LifecycleOrder ProcessCleanup.

(** [free(program)] *)
Definition release (q : ptr) : run unit :=
  node ← node_of q; on_store (fun s => (MkProcessStore (delete q (ps_nodes s)) (ps_next s), Ok tt)).

(** [program = NULL; shared_from = NULL] *)
Definition forget (dep : dependency) : dependency :=
  MkDependency (dp_path dep) None None (dp_mapping dep) (dp_mapping_size dep) (dp_loaded_image dep).

(** [dep_count = 0; code_bytes = NULL; code_size = 0] *)
Definition emptied (node : program_node) : program_node :=
  let p := nd_program node in
  let h := lp_header p in
  MkNode (MkLoaded (lp_path p) (MkProgramHeader (base_vaddr h) 0 (dynamic_offset h) (dynamic_size h) (tls_offset h)) (lp_arch p)
            (lp_is_et_exec p) (lp_entry_offset p) (lp_phdr_vaddr p) (lp_phent p) (lp_phnum p) (lp_has_interp p) (lp_interp_path p)
            (lp_load_segments p) (lp_relro_vaddr p) (lp_relro_size p) (lp_tls p) (lp_lifecycle p) (lp_soname p) (lp_bridge_specs p) [])
    [] (nd_tls_offset node) (nd_tls_total_size node) (nd_scope_root_program node) (nd_scope_root_loaded_image node).

(** A dependency of its own is freed with its program. *)
Definition free_dep (free : ptr -> run unit) (d : dep_ref) : run unit :=
  dep ← dep_of d;
  match dp_program dep with
  | None => mret tt
  | Some q =>
      (match dp_shared_from dep with None => free q;; release q | Some _ => mret tt end);;
      set_dep d forget
  end.

Fixpoint free_program (fuel : nat) (p : ptr) : run unit :=
  match fuel with
  | O => run_outcome Spin
  | S fuel' =>
      unmap_process_dependencies fuel p;;
      node ← node_of p;
      each (free_dep (free_program fuel')) (dep_refs p node);;
      on_store (change_node p emptied)
  end.

(** ** Unmapping, wherever the tree is whole *)

Lemma visits_deps (s : process) (n : nat) : forall p d, fits n s p -> d ∈ visits n s p ->
  exists dep, dep_at s d = Some dep /\ (dp_shared_from dep = None -> is_Some (dp_program dep)).
Proof.
  induction n as [|n IH]; intros p d; [done|]. intros (prog & deps & E & Hf). cbn [visits]. rewrite E.
  intros (l & Hl%list_elem_of_In & Hd%list_elem_of_In)%list_elem_of_In%in_concat. apply list_elem_of_lookup_1 in Hl as [i Hi].
  destruct (elem_visits _ _ _ _ _ _ _ _ E Hi Hd) as [->|(q & Hq & Hd')].
  - rewrite list_lookup_imap in Hi. destruct (deps !! i) as [x|] eqn:Ei; [|done]. pose proof (Forall_lookup_1 _ _ _ _ Hf Ei) as Hx.
    rewrite <- (dep_at_shape _ _ i _ _ E) in Ei. destruct (dep_at s (p, i)) as [dep|]; [|done]. injection Ei as <-. exists dep.
    split; [done|]. intros Hs. rewrite Hs in Hx. by destruct (dp_program dep).
  - pose proof (Forall_lookup_1 _ _ _ _ Hf Hq) as Hx. exact (IH q d Hx Hd').
Qed.

Lemma unmap_each_ok (l : list dep_ref) : forall st,
  Forall (fun d => exists dep, dep_at (ru_store st) d = Some dep /\ (dp_shared_from dep = None -> is_Some (dp_program dep))) l ->
  exists st', each unmap_one l st = (st', Ok tt).
Proof.
  induction l as [|d l IH]; intros st Hd; cbn [each]; [by exists st|]. apply Forall_cons in Hd as [(dep & Hd & Hp) Hrest].
  destruct (unmap_one_gives d st dep Hd Hp) as (st1 & E1 & _). rewrite (run_bind_run _ _ _ _ _ E1). apply IH.
  pose proof (shape_unmap_one d st) as K. rewrite E1 in K. cbn [fst] in K. eapply Forall_impl; [exact Hrest|].
  intros d' (dep' & Hd' & Hp'). destruct (dep_shape_kept _ _ d' dep' K Hd') as (dep2 & H1 & H2 & H3). exists dep2. by rewrite H2, H3.
Qed.

Lemma unmap_whole (n : nat) (p : ptr) (st : run_state) : fits n (ru_store st) p ->
  exists st', unmap_process_dependencies n p st = (st', Ok tt) /\ alike (ru_store st) (ru_store st').
Proof.
  intros Hf. rewrite (unmap_is_loop (ru_store st) n p st Hf) by done.
  destruct (unmap_each_ok (visits n (ru_store st) p) st) as [st' E].
  { apply Forall_forall. intros d Hd. by eapply visits_deps. }
  exists st'. split; [done|]. pose proof (shape_each _ (visits n (ru_store st) p) shape_unmap_one st) as K. by rewrite E in K.
Qed.

(** ** The part of the store below a program *)

Lemma below_same (s s' : process) (n : nat) : forall p, fits n s p ->
  (forall q, q = p \/ q ∈ post_order n s p -> shape s' q = shape s q) -> fits n s' p /\ post_order n s' p = post_order n s p.
Proof.
  induction n as [|n IH]; intros p; [done|]. intros (prog & deps & E & Hf) Hs.
  assert (forall i q, deps !! i = Some (Some q, None) -> fits n s' q /\ post_order n s' q = post_order n s q) as Hq.
  { intros i q Hi. apply IH; [by apply (Forall_lookup_1 _ _ _ _ Hf Hi)|]. intros r Hr. apply Hs. right.
    apply (elem_post_order _ _ _ _ _ _ E). exists i, q. split; [done|]. apply elem_of_app. rewrite list_elem_of_singleton. by destruct Hr; auto. }
  assert (shape s' p = Some (prog, deps)) as E' by (rewrite Hs; auto). split.
  - exists prog, deps. split; [done|]. apply Forall_forall. intros x [i Hi]%list_elem_of_lookup_1.
    pose proof (Forall_lookup_1 _ _ _ _ Hf Hi) as Hx. destruct x as [[q|] [d|]]; try done. by apply (Hq i).
  - cbn [post_order]. rewrite E, E'. f_equal. apply imap_ext. intros i [[q|] [d|]] Hi; try done. by destruct (Hq i q Hi) as [_ ->].
Qed.

(** ** Freeing *)

(** The programs that freeing one dependency of [p] gives up. *)
Definition dep_block (n : nat) (s : process) (p : ptr) (i : nat) : list ptr :=
  match shape s p with
  | Some (_, deps) => match deps !! i with Some (Some q, None) => post_order n s q ++ [q] | _ => [] end
  | None => []
  end.

(** [l] is gone, [p] has a node, and the others are as they were. *)
Definition gone (l : list ptr) (p : ptr) (s s' : process) : Prop :=
  (forall q, q ∈ l -> ps_nodes s' !! q = None) /\ is_Some (ps_nodes s' !! p) /\
  forall q, q ∉ l -> q <> p -> shape s' q = shape s q.

(** The programs and sharing of a program's dependencies. *)
Definition links (node : program_node) : list (option ptr * option dep_ref) :=
  (fun dep => (dp_program dep, dp_shared_from dep)) <$> nd_deps node.

Lemma shape_node (s : process) (p : ptr) (node : program_node) : ps_nodes s !! p = Some node -> shape s p = Some (nd_program node, links node).
Proof. unfold shape. by intros ->. Qed.

Lemma set_dep_shape (p : ptr) (i : nat) (f : dependency -> dependency) (st : run_state) (node : program_node) :
  ps_nodes (ru_store st) !! p = Some node ->
  exists st', set_dep (p, i) f st = (st', Ok tt) /\ ps_nodes (ru_store st') = <[p := set_deps (alter f i (nd_deps node)) node]> (ps_nodes (ru_store st)).
Proof. intros E. unfold set_dep. rewrite (node_of_run _ _ _ _ E). by eexists. Qed.

Lemma release_there (q : ptr) (st : run_state) : is_Some (ps_nodes (ru_store st) !! q) ->
  exists st', release q st = (st', Ok tt) /\ ps_nodes (ru_store st') = delete q (ps_nodes (ru_store st)).
Proof. intros [node E]. unfold release. rewrite (node_of_run _ _ _ _ E). by eexists. Qed.

Section Free.
Context (n : nat).
Context (IH : forall p st, fits n (ru_store st) p -> NoDup (p :: post_order n (ru_store st) p) ->
  exists st', free_program n p st = (st', Ok tt) /\ gone (post_order n (ru_store st) p) p (ru_store st) (ru_store st')).

(** One dependency: its programs are given up, the other dependencies stay. *)
Lemma free_dep_gone (p : ptr) (i : nat) (st : run_state) (node : program_node) (dep : dependency) :
  ps_nodes (ru_store st) !! p = Some node -> nd_deps node !! i = Some dep ->
  (forall q, dp_program dep = Some q -> dp_shared_from dep = None -> fits n (ru_store st) q) ->
  NoDup (p :: dep_block n (ru_store st) p i) ->
  exists st', free_dep (free_program n) (p, i) st = (st', Ok tt) /\ gone (dep_block n (ru_store st) p i) p (ru_store st) (ru_store st') /\
    exists node', ps_nodes (ru_store st') !! p = Some node' /\ forall j, j <> i -> links node' !! j = links node !! j.
Proof using IH.
  intros Hn Hi Hf Hnd. assert (dep_at (ru_store st) (p, i) = Some dep) as Hd by (unfold dep_at; cbn; by rewrite Hn).
  unfold free_dep. rewrite (dep_of_run _ _ _ _ Hd).
  assert (dep_block n (ru_store st) p i =
    match dp_program dep, dp_shared_from dep with Some q, None => post_order n (ru_store st) q ++ [q] | _, _ => [] end) as Eb.
  { unfold dep_block, shape. rewrite Hn. cbn. rewrite list_lookup_fmap, Hi. cbn. by destruct (dp_program dep), (dp_shared_from dep). }
  rewrite Eb in *. destruct (dp_program dep) as [q|] eqn:Eq.
  2:{ exists st. split; [done|]. split; [|by exists node]. split; [by intros q ?%elem_of_nil|]. by rewrite Hn. }
  assert (forall st1 l node1, gone l p (ru_store st) (ru_store st1) -> ps_nodes (ru_store st1) !! p = Some node1 -> links node1 = links node ->
    p ∉ l -> exists st', set_dep (p, i) forget st1 = (st', Ok tt) /\ gone l p (ru_store st) (ru_store st') /\
      exists node', ps_nodes (ru_store st') !! p = Some node' /\ forall j, j <> i -> links node' !! j = links node !! j) as Hset.
  { intros st1 l node1 (G1 & G2 & G3) Hn1 Ed Hp. destruct (set_dep_shape p i forget st1 node1 Hn1) as (st2 & E2 & N2).
    exists st2. split; [done|]. unfold gone. rewrite N2, lookup_insert_eq. split_and!; [| | |eexists; split; [done|]].
    - intros r Hr. rewrite lookup_insert_ne by (by intros ->). by apply G1.
    - by eexists.
    - intros r Hr Hne. rewrite <- G3 by done. unfold shape. by rewrite N2, lookup_insert_ne.
    - intros j Hj. rewrite <- Ed. unfold links. cbn [nd_deps set_deps]. by rewrite !list_lookup_fmap, list_lookup_alter_ne. }
  destruct (dp_shared_from dep) as [sf|] eqn:Es.
  { destruct (Hset st [] node) as (st' & E' & H'); try done; [|by intros ?%elem_of_nil|].
    - split; [by intros r ?%elem_of_nil|]. by rewrite Hn.
    - exists st'. split; [|done]. by rewrite (run_bind_run _ _ _ _ _ eq_refl). }
  apply NoDup_cons in Hnd as [Hp Hnd]. apply NoDup_app in Hnd as (Hnd & Hq & _).
  destruct (IH q st) as (st1 & E1 & (G1 & G2 & G3)); [by apply Hf|constructor; [|done]|].
  { intros H. by apply (Hq q H), list_elem_of_singleton. }
  destruct (release_there q st1 G2) as (st2 & E2 & N2). rewrite run_bind_assoc, (run_bind_run _ _ _ _ _ E1), (run_bind_run _ _ _ _ _ E2).
  assert ((p ∉ post_order n (ru_store st) q) /\ p <> q) as [Hpq Hne].
  { split; [intros H; apply Hp, elem_of_app; by left|]. intros ->. apply Hp, elem_of_app. right. by apply list_elem_of_singleton. }
  assert (shape (ru_store st1) p = shape (ru_store st) p) as Sp by (by apply G3).
  rewrite (shape_node _ _ _ Hn) in Sp. unfold shape in Sp. destruct (ps_nodes (ru_store st1) !! p) as [node1|] eqn:Hn1; [|done].
  injection Sp as _ Ed. apply (Hset st2 _ node1); [|by rewrite N2, lookup_delete_ne|exact Ed|done]. unfold gone. rewrite N2. split_and!.
  - intros r [Hr| ->%list_elem_of_singleton]%elem_of_app; [|apply lookup_delete_eq].
    destruct (decide (r = q)) as [->|Hr']; [apply lookup_delete_eq|]. rewrite lookup_delete_ne by done. by apply G1.
  - rewrite lookup_delete_ne by done. by rewrite Hn1.
  - intros r [Hr Hr']%not_elem_of_app Hrp. rewrite list_elem_of_singleton in Hr'. rewrite <- G3 by done. unfold shape.
    by rewrite N2, lookup_delete_ne.
Qed.

Lemma dep_block_links (s : process) (p : ptr) (node : program_node) (i : nat) : ps_nodes s !! p = Some node ->
  dep_block n s p i = match links node !! i with Some (Some q, None) => post_order n s q ++ [q] | _ => [] end.
Proof using. intros Hn. unfold dep_block. by rewrite (shape_node _ _ _ Hn). Qed.

(** The dependencies in turn. *)
Lemma free_each_gone (p : ptr) (js : list nat) : NoDup js -> forall st node, ps_nodes (ru_store st) !! p = Some node ->
  Forall (fun i => exists x, links node !! i = Some x /\ forall q, x = (Some q, None) -> fits n (ru_store st) q) js ->
  NoDup (p :: concat (dep_block n (ru_store st) p <$> js)) ->
  exists st', each (free_dep (free_program n)) (pair p <$> js) st = (st', Ok tt) /\
    gone (concat (dep_block n (ru_store st) p <$> js)) p (ru_store st) (ru_store st').
Proof using IH.
  induction 1 as [|i js Hi Hjs IHj]; intros st node Hn Hall Hnd.
  { exists st. split; [done|]. split; [by intros q ?%elem_of_nil|]. by rewrite Hn. }
  cbn [fmap list_fmap concat each] in *. apply Forall_cons in Hall as [(x & Hx & Hf) Hall].
  pose proof Hx as Hd. unfold links in Hd. rewrite list_lookup_fmap in Hd. destruct (nd_deps node !! i) as [dep|] eqn:Ed; [|done].
  injection Hd as Hx'. apply NoDup_cons in Hnd as [Hp Hnd]. apply not_elem_of_app in Hp as [Hp1 Hp2].
  apply NoDup_app in Hnd as (Hnd1 & Hdis & Hnd2).
  destruct (free_dep_gone p i st node dep Hn Ed) as (st1 & E1 & (G1 & G2 & G3) & node1 & Hn1 & Hl1).
  { intros q H1 H2. apply Hf. by rewrite <- Hx', H1, H2. }
  { by constructor. }
  rewrite (run_bind_run _ _ _ _ _ E1).
  assert (forall j, j ∈ js -> dep_block n (ru_store st1) p j = dep_block n (ru_store st) p j /\
    exists y, links node1 !! j = Some y /\ forall q, y = (Some q, None) -> fits n (ru_store st1) q) as Hsame.
  { intros j Hj. rewrite Forall_forall in Hall. destruct (Hall j Hj) as (y & Hy & Hfy).
    assert (links node1 !! j = Some y) as Hy1 by (rewrite Hl1; [done|by intros ->]).
    assert (forall q, y = (Some q, None) -> fits n (ru_store st1) q /\ post_order n (ru_store st1) q = post_order n (ru_store st) q) as Hq.
    { intros q ->. apply below_same; [by apply Hfy|]. intros r Hr. assert (r ∈ concat (dep_block n (ru_store st) p <$> js)) as Hin.
      { apply list_elem_of_In, in_concat. exists (dep_block n (ru_store st) p j). split; [by apply list_elem_of_In, list_elem_of_fmap_2|].
        rewrite (dep_block_links _ _ _ _ Hn), Hy. apply list_elem_of_In, elem_of_app. rewrite list_elem_of_singleton. by destruct Hr; auto. }
      apply G3; [|by intros ->]. intros Hr1. by apply (Hdis r Hr1). }
    split; [|exists y; split; [done|]; intros q Hyq; by apply Hq]. rewrite (dep_block_links _ _ _ _ Hn), (dep_block_links _ _ _ _ Hn1), Hy, Hy1.
    destruct y as [[q|] [d|]]; try done. by destruct (Hq q eq_refl) as [_ ->]. }
  assert (dep_block n (ru_store st1) p <$> js = dep_block n (ru_store st) p <$> js) as Eb.
  { apply list_fmap_ext. intros k j Hk. apply Hsame. by eapply list_elem_of_lookup_2. }
  destruct (IHj st1 node1 Hn1) as (st2 & E2 & (F1 & F2 & F3)).
  { apply Forall_forall. intros j Hj. by apply Hsame. }
  { rewrite Eb. by constructor. }
  rewrite Eb in F1, F3. exists st2. split; [done|]. split_and!; [|done|].
  - intros r Hr. destruct (decide (r ∈ concat (dep_block n (ru_store st) p <$> js))) as [Hin|Hni]; [by apply F1|].
    apply elem_of_app in Hr as [Hr|Hr]; [|done]. specialize (G1 r Hr). specialize (F3 r Hni ltac:(by intros ->)).
    unfold shape in F3. rewrite G1 in F3. by destruct (ps_nodes (ru_store st2) !! r).
  - intros r [Hr1 Hr2]%not_elem_of_app Hne. rewrite F3, G3; done.
Qed.
End Free.

Lemma post_order_blocks (n : nat) (s : process) (p : ptr) (node : program_node) : ps_nodes s !! p = Some node ->
  post_order (S n) s p = concat (dep_block n s p <$> seq 0 (length (nd_deps node))).
Proof.
  intros Hn. cbn [post_order]. rewrite (shape_node _ _ _ Hn). f_equal. apply list_eq. intros i.
  rewrite list_lookup_imap, list_lookup_fmap. destruct (decide (i < length (nd_deps node))%nat) as [Hi|Hi].
  - rewrite lookup_seq_lt by done. cbn. rewrite (dep_block_links _ _ _ _ _ Hn). unfold links. rewrite list_lookup_fmap.
    destruct (lookup_lt_is_Some_2 _ _ Hi) as [dep ->]. cbn. by destruct (dp_program dep), (dp_shared_from dep).
  - rewrite lookup_seq_ge by lia. unfold links. rewrite list_lookup_fmap, lookup_ge_None_2 by lia. done.
Qed.

Lemma free_gone (n : nat) : forall p st, fits n (ru_store st) p -> NoDup (p :: post_order n (ru_store st) p) ->
  exists st', free_program n p st = (st', Ok tt) /\ gone (post_order n (ru_store st) p) p (ru_store st) (ru_store st') /\
    exists node, ps_nodes (ru_store st') !! p = Some node /\ nd_deps node = [] /\ lp_code_bytes (nd_program node) = [].
Proof.
  induction n as [|n IH]; intros p st Hf Hnd; [done|]. cbn [free_program].
  destruct (unmap_whole (S n) p st Hf) as (st1 & E1 & A1). rewrite (run_bind_run _ _ _ _ _ E1).
  destruct (below_same (ru_store st) (ru_store st1) (S n) p Hf) as [Hf1 Ep]; [intros q _; symmetry; apply A1|].
  destruct Hf1 as (prog & deps & Es & Hdeps). unfold shape in Es. destruct (ps_nodes (ru_store st1) !! p) as [node|] eqn:Hn; [|done].
  injection Es as <- Ed. fold (links node) in Ed. rewrite (node_of_run _ _ _ _ Hn). rewrite <- Ep, (post_order_blocks _ _ _ _ Hn) in *.
  destruct (free_each_gone n) with (p := p) (js := seq 0 (length (nd_deps node))) (st := st1) (node := node) as (st2 & E2 & (G1 & G2 & G3));
    [|apply NoDup_seq|done| |done|].
  { intros p' st' H1 H2. destruct (IH p' st' H1 H2) as (st'' & H3 & H4 & _). by exists st''. }
  { apply Forall_forall. intros i [_ Hi]%elem_of_seq. assert (is_Some (deps !! i)) as [x Hx].
    { apply lookup_lt_is_Some_2. rewrite <- Ed. unfold links. rewrite length_fmap. lia. }
    exists x. rewrite Ed. split; [done|]. intros q ->. by apply (Forall_lookup_1 _ _ _ _ Hdeps Hx). }
  change (dep_refs p node) with (pair p <$> seq 0 (length (nd_deps node))). rewrite (run_bind_run _ _ _ _ _ E2). destruct G2 as [node2 Hn2].
  eexists. split; [unfold on_store, change_node, mbind, ld_bind, get_node; rewrite Hn2; reflexivity|]. cbn [ru_store].
  apply NoDup_cons in Hnd as [Hp _]. split; [|eexists; cbn [put_node fst ps_nodes]; by rewrite lookup_insert_eq].
  unfold gone. cbn [put_node fst ps_nodes]. rewrite lookup_insert_eq. split_and!.
  - intros q Hq. rewrite lookup_insert_ne by (by intros ->). by apply G1.
  - by eexists.
  - intros q Hq Hne. rewrite (A1 q), <- G3 by done. unfold shape. cbn [put_node fst ps_nodes]. by rewrite lookup_insert_ne.
Qed.

(** C15: freeing a program releases every program that it owns, directly or through others,
    exactly once: no program is freed twice or used after it was freed, whatever
    libraries share, and programs that it does not own stay as they are.  The number of
    programs bounds the recursion. *)
Theorem free_program_releases files calloc_fails (p : ptr) (prog : loaded_program) (n : nat) (st : run_state) :
  tree_wf files calloc_fails (ru_store st) -> prog_at (ru_store st) p = Some prog ->
  (Pos.to_nat (ps_next (ru_store st)) <= Pos.to_nat p + n)%nat ->
  exists st' node, free_program n p st = (st', Ok tt) /\
    (forall q, tc (owns (ru_store st)) p q -> ps_nodes (ru_store st') !! q = None) /\
    ps_nodes (ru_store st') !! p = Some node /\ nd_deps node = [] /\ lp_code_bytes (nd_program node) = [] /\
    forall q, ~ rtc (owns (ru_store st)) p q -> shape (ru_store st') q = shape (ru_store st) q.
Proof.
  intros W Hp Hn. pose proof (tree_fits _ _ _ W n p prog Hp Hn) as Hf.
  destruct (free_gone n p st Hf) as (st' & E & (G1 & _ & G3) & node & Hnode & H1 & H2).
  { constructor; [|by eapply post_order_once]. rewrite (post_order_below _ _ _ _ Hf). intros Ht.
    assert (forall a b, tc (owns (ru_store st)) a b -> (a < b)%positive) as Hup.
    { induction 1 as [a b Ho|a b c Ho _ IHt]; [by eapply owns_up|]. pose proof (owns_up _ _ _ W _ _ Ho). lia. }
    specialize (Hup _ _ Ht). lia. }
  exists st', node. split_and!; try done.
  - intros q Hq. by apply G1, (post_order_below _ _ _ _ Hf).
  - intros q Hq. apply G3.
    + rewrite (post_order_below _ _ _ _ Hf). intros Ht. by apply Hq, tc_rtc.
    + intros ->. by apply Hq.
Qed.
