(* ===== verification/ProcessStart.v ===== *)
(** Starting a process (the first two parts of [emit_and_run_process] of
    [tools/runtime/polyexec.c]): the mapping of the program ([ProcessImage]) and the
    scratch page, then scope and thread-local storage over the tree, the libraries, the
    relocation and protection of the program itself, its initializers.  Every failure
    gives back what has been mapped by then.

    The address of the main mapping ([mmap_main], which gets the wanted address of a
    fixed image) and of the other mappings ([mmap]) are parameters, as running guest
    code and the failures of [mprotect] are.  The counters of the call stubs are reset;
    the break of the last process ([MemCalls.reset_process_brk_arena]) is not part of
    this state. *)

From stdpp Require Import gmap relations.
From S2P Require Import Prelude LoaderBase BridgeSpec ElfImage ElfSymbols CodeEmit Trampoline CrossStub TlsHelpers ProcessImage ElfLoad LibraryPath ElfDeps DependencyLoad DependencyTree Relocation ProcessLifecycle ProcessOrder LifecycleOrder ProcessCleanup.

(** [if (m < 0) { cleanup; return -1; }] *)
Definition or_cleanup {A} (m : run A) (cleanup : run unit) : run A := fun st =>
  match m st with
  | (st', Err) => (cleanup;; run_outcome Err) st'
  | r => r
  end.

Definition set_image (addr : Z) (bytes : image) : run unit := fun st =>
  (MkRun (ru_store st) (MkProcess (<[addr := bytes]> (images (ru_proc st))) (stubs (ru_proc st))) (ru_log st), Ok tt).

(** The static state of the stub emitter, changed. *)
Definition change_stubs (f : stub_state -> stub_state) : run unit := fun st =>
  (MkRun (ru_store st) (MkProcess (images (ru_proc st)) (f (stubs (ru_proc st)))) (ru_log st), Ok tt).

Definition clear_stub_counters (st : stub_state) : stub_state :=
  MkStubState (arena st) (MkCounters 0 0 0 0 0 0 0 0 0 0 0 0 false) (needs_x86_tls_wrapper st) (slots st).

Definition clear_x86_tls_wrapper (st : stub_state) : stub_state :=
  MkStubState (arena st) (counters st) false (slots st).

(** [munmap] of the main mapping: the image starts at an offset in it. *)
Definition unmap_main (mapping size loaded_image : Z) : run unit := fun st =>
  (MkRun (ru_store st) (MkProcess (delete loaded_image (images (ru_proc st))) (stubs (ru_proc st)))
     (ru_log st ++ [EvUnmap mapping size]), Ok tt).

(** Where the program's image, its trampoline and the scratch page are. *)
Record start_layout : Type := MkLayout {
  ly_mapping : Z;
  ly_mapping_size : Z;
  ly_loaded_image : Z;
  ly_scratch : Z;
  ly_scratch_size : Z;
  ly_process_return_pc : Z;
  ly_code : Z;
}.

Section Start.
Context (call_guest : gmap Z image -> Z -> Z -> gmap Z image * Z).
Context (mmap : gmap Z image -> Z -> option Z) (mprotect_fails : Z -> Z -> Z -> bool).
Context (env : run_env) (links fuel : nat) (descs gets : list Z).
Context (p : ptr) (layout : start_layout).

Definition unmap_base : run unit :=
  unmap_image (ly_scratch layout) (ly_scratch_size layout);;
  unmap_main (ly_mapping layout) (ly_mapping_size layout) (ly_loaded_image layout).

Definition unmap_tls (process_tls : option (Z * Z)) : run unit :=
  match process_tls with Some (addr, size) => unmap_image addr size | None => mret tt end.

Definition emit_entry (prog : loaded_program) (return_to : Z) (tail_entry : bool) : run unit :=
  let entry_pc := u64 (ly_loaded_image layout + lp_entry_offset prog) in
  if snd (emit_poly_trampoline (lp_arch prog) (trampoline_code env) (prefix_size env) return_to entry_pc tail_entry) <? 0
  then run_outcome Err else mret tt.

(** The block of thread-local storage, if any is needed. *)
Definition map_tls (process_tls_size : Z) : run (option (Z * Z)) :=
  if process_tls_size =? 0 then mret None
  else
    mapping ← map_image mmap process_tls_size (replicate (Z.to_nat process_tls_size) 0);
    match mapping with None => run_outcome Err | Some addr => mret (Some (addr, process_tls_size)) end.

(** The initial bytes of the program's own variables, then of its libraries'. *)
Definition fill_tls (process_tls : option (Z * Z)) : run unit :=
  match process_tls with
  | None => mret tt
  | Some (addr, _) => fun st =>
      (node ← node_of p;
       img ← on_images (get_image (ly_loaded_image layout));
       tls ← on_images (get_image addr);
       tls ← run_outcome (copy_process_tls_image node img tls);
       tls ← on_store (copy_process_dependency_tls_images fuel (images (ru_proc st)) p tls);
       set_image addr tls) st
  end.

Definition protect_main (prog : loaded_program) : run unit :=
  protect_load_segments mprotect_fails prog (ly_loaded_image layout);;
  if lp_is_et_exec prog && (dynamic_size (lp_header prog) =? 0) then mret tt
  else protect_image_range mprotect_fails (lp_header prog) (ly_loaded_image layout) (lp_relro_vaddr prog) (lp_relro_size prog) PROT_READ.

Definition prepare_process (prog : loaded_program) : run (option (Z * Z)) :=
  process_tls_size ← or_cleanup
    (on_store (set_process_dependency_root_scope fuel p p (ly_loaded_image layout));;
     on_store (reserve_process_tls_tree fuel p 0)) unmap_base;
  change_stubs clear_x86_tls_wrapper;;
  or_cleanup
    (map_process_dependencies call_guest mmap mprotect_fails env links fuel descs gets p;;
     relocate_dependency call_guest env p (ly_loaded_image layout) descs gets;;
     emit_entry prog (return_pc env) false) (unmap_process_dependencies fuel p;; unmap_base);;
  process_tls ← or_cleanup (map_tls process_tls_size) (unmap_process_dependencies fuel p;; unmap_base);
  or_cleanup
    (fill_tls process_tls;;
     protect_main prog;;
     run_process_preinitializers call_guest env p prog (ly_loaded_image layout);;
     run_process_initializers call_guest env p prog (ly_loaded_image layout);;
     emit_entry prog (ly_process_return_pc layout) true) (unmap_tls process_tls;; unmap_process_dependencies fuel p;; unmap_base);;
  mret process_tls.
End Start.

Section StartProcess.
Context (call_guest : gmap Z image -> Z -> Z -> gmap Z image * Z).
Context (mmap : gmap Z image -> Z -> option Z) (mprotect_fails : Z -> Z -> Z -> bool).
Context (mmap_main : option Z -> Z -> option Z) (host : stub_env) (resolver : option Z) (links fuel : nat).

(** The scratch page, then the rest, at the places of the layout. *)
Definition start_at (p : ptr) (prog : loaded_program) (l : image_layout) (mapping : Z) (descs gets : list Z) :
    run (start_layout * option (Z * Z)) :=
  let loaded_image := u64 (mapping + il_image_offset l) in
  scratch ← map_image mmap 4096 (replicate 4096 0);
  match scratch with
  | None => unmap_main mapping (il_mapping_size l) loaded_image;; run_outcome Err
  | Some scratch =>
      let env := MkRunEnv (u64 (mapping + il_control_offset l)) (poly_trampoline_prefix_size (lp_arch prog))
                   (u64 (mapping + il_lifecycle_return_page_offset l)) host resolver in
      let layout := MkLayout mapping (il_mapping_size l) loaded_image scratch 4096 (u64 (mapping + il_process_return_page_offset l))
                      (u64 (mapping + il_control_offset l)) in
      process_tls ← prepare_process call_guest mmap mprotect_fails env links fuel descs gets p layout prog;
      mret (layout, process_tls)
  end.

(** Where everything is, and the thread-local storage. *)
Definition start_process (p : ptr) (prog : loaded_program) : run (start_layout * option (Z * Z)) :=
  change_stubs clear_stub_counters;;
  let fixed := lp_is_et_exec prog in
  let base := base_vaddr (lp_header prog) in
  match process_image_layout (lp_arch prog) (code_size (lp_header prog)) base fixed with
  | None => run_outcome Err
  | Some l =>
      match mmap_main (if fixed then Some base else None) (il_mapping_size l) with
      | None => run_outcome Err
      | Some mapping =>
          let loaded_image := u64 (mapping + il_image_offset l) in
          log_event (EvMap mapping (il_mapping_size l));;
          if fixed && negb (mapping =? base) then unmap_main mapping (il_mapping_size l) loaded_image;; run_outcome Err
          else
            match place_process (lp_arch prog) (lp_code_bytes prog) fixed l mapping with
            | None => unmap_main mapping (il_mapping_size l) loaded_image;; run_outcome Err
            | Some (page, descs, gets) =>
                set_image loaded_image
                  (take (Z.to_nat (code_size (lp_header prog))) (drop (Z.to_nat (il_image_offset l)) (page_bytes page)));;
                start_at p prog l mapping descs gets
            end
      end
  end.
End StartProcess.

(** ** Failures *)

Lemma run_bind_cases {A B} (m : run A) (f : A -> run B) (st st' : run_state) (r : outcome B) : (m ≫= f) st = (st', r) ->
  m st = (st', Err) /\ r = Err \/ (exists a st1, m st = (st1, Ok a) /\ f a st1 = (st', r)) \/ r = Fault \/ r = Spin.
Proof.
  unfold mbind, run_bind. destruct (m st) as [st1 [a| | |]]; intros H; [right; left; by exists a, st1|..]; injection H as <- <-; auto.
Qed.

Lemma or_cleanup_err {A} (m : run A) (c : run unit) (st st' : run_state) : or_cleanup m c st = (st', Err) ->
  exists st1, m st = (st1, Err) /\ (c;; run_outcome (A := A) Err) st1 = (st', Err).
Proof. unfold or_cleanup. destruct (m st) as [st1 [a| | |]]; try done. intros H. by exists st1. Qed.

Lemma or_cleanup_ok {A} (m : run A) (c : run unit) (st st' : run_state) (a : A) :
  or_cleanup m c st = (st', Ok a) -> m st = (st', Ok a).
Proof.
  unfold or_cleanup. destruct (m st) as [st1 [b| | |]]; try done. unfold mbind, run_bind. by destruct (c st1) as [st2 [[]| | |]].
Qed.

(** ** The store besides the tree *)

(** Programs and dependencies stay; only scope and storage offsets may change. *)
Definition keeps_deps {A} (m : ld A) : Prop :=
  forall s q, (fun node => (nd_program node, nd_deps node)) <$> ps_nodes (m s).1 !! q =
              (fun node => (nd_program node, nd_deps node)) <$> ps_nodes s !! q.

Lemma deps_bind {A B} (m : ld A) (f : A -> ld B) : keeps_deps m -> (forall a, keeps_deps (f a)) -> keeps_deps (m ≫= f).
Proof.
  intros Hm Hf s q. specialize (Hm s q). unfold mbind, ld_bind. destruct (m s) as [s1 [a| | |]]; cbn in *; try done.
  by rewrite Hf.
Qed.

Lemma deps_keeps {A} (m : ld A) : keeps m -> keeps_deps m.
Proof. intros H s q. by rewrite (H s). Qed.

Lemma deps_change (p : ptr) (f : program_node -> program_node) :
  (forall node, nd_program (f node) = nd_program node /\ nd_deps (f node) = nd_deps node) -> keeps_deps (change_node p f).
Proof.
  intros Hf s q. unfold change_node, mbind, ld_bind, get_node, put_node. destruct (ps_nodes s !! p) as [node|] eqn:E; cbn; [|done].
  destruct (decide (q = p)) as [->|Hne]; [|by rewrite lookup_insert_ne]. rewrite lookup_insert_eq, E. cbn. by destruct (Hf node) as [-> ->].
Qed.

Lemma deps_each_own {S} (f : ptr -> S -> ld S) (refs : list dep_ref) :
  (forall q a, keeps_deps (f q a)) -> forall a, keeps_deps (each_own f refs a).
Proof.
  intros Hf. induction refs as [|d refs IH]; intros a; cbn [each_own]; [by apply deps_keeps|].
  apply deps_bind; [by apply deps_keeps|]. intros dep. destruct (dp_program dep), (dp_shared_from dep); try apply IH.
  apply deps_bind; [apply Hf|]. intros a'. apply IH.
Qed.

Lemma deps_root_scope (n : nat) (root : ptr) (img : Z) : forall p, keeps_deps (set_process_dependency_root_scope n p root img).
Proof.
  induction n as [|n IH]; intros p; cbn [set_process_dependency_root_scope]; [by apply deps_keeps|].
  apply deps_bind; [by apply deps_change|]. intros _. apply deps_bind; [by apply deps_keeps|]. intros node.
  apply deps_each_own. intros q _. apply IH.
Qed.

Lemma deps_reserve (n : nat) : forall p total, keeps_deps (reserve_process_tls_tree n p total).
Proof.
  induction n as [|n IH]; intros p total; cbn [reserve_process_tls_tree]; [by apply deps_keeps|].
  apply deps_bind; [by apply deps_keeps|]. intros node. cbn zeta.
  destruct (reserve_process_tls_range _ _ _) as [[total' offset]|]; [|by apply deps_keeps].
  apply deps_bind; [by apply deps_change|]. intros _. apply deps_bind; [by apply deps_each_own|]. intros total''.
  apply deps_bind; [by apply deps_change|]. intros _. by apply deps_keeps.
Qed.

Lemma deps_dep_at (s s' : process) (d : dep_ref) :
  (forall q : ptr, (fun node => (nd_program node, nd_deps node)) <$> ps_nodes s' !! q =
             (fun node => (nd_program node, nd_deps node)) <$> ps_nodes s !! q) -> dep_at s' d = dep_at s d.
Proof.
  intros H. specialize (H d.1). unfold dep_at. destruct (ps_nodes s' !! d.1), (ps_nodes s !! d.1); cbn in *; try done.
  by injection H as _ ->.
Qed.

Lemma deps_alike (s s' : process) :
  (forall q : ptr, (fun node => (nd_program node, nd_deps node)) <$> ps_nodes s' !! q =
             (fun node => (nd_program node, nd_deps node)) <$> ps_nodes s !! q) -> alike s s'.
Proof.
  intros H q. specialize (H q). unfold shape. destruct (ps_nodes s' !! q), (ps_nodes s !! q); cbn in *; try done.
  by injection H as -> ->.
Qed.

(** ** Steps that map nothing *)

Lemma keeps_copy_tls (n : nat) (imgs : gmap Z image) : forall p tls, keeps (copy_process_dependency_tls_images n imgs p tls).
Proof.
  induction n as [|n IH]; intros p tls; cbn [copy_process_dependency_tls_images]; [apply keeps_outcome|].
  apply keeps_bind; [apply keeps_node|]. intros node. generalize (dep_refs p node). intros refs. revert tls.
  induction refs as [|d refs IHr]; intros tls; [apply keeps_ret|]. apply keeps_bind; [apply keeps_dep|]. intros dep.
  destruct (dp_program dep) as [q|], (dp_loaded_image dep) as [addr|], (dp_shared_from dep); try apply IHr.
  apply keeps_bind; [apply IH|]. intros tls1. apply keeps_bind; [apply keeps_node|]. intros found.
  apply keeps_bind; [apply keeps_outcome|]. intros loaded. apply keeps_bind; [apply keeps_outcome|]. intros tls2. apply IHr.
Qed.

Lemma nothing_store {A} (m : ld A) : keeps m -> maps_nothing (on_store m).
Proof.
  intros H. apply nothing_same. intros st. specialize (H (ru_store st)). unfold on_store. by destruct (m (ru_store st)).
Qed.

Lemma nothing_fill (fuel : nat) (p : ptr) (layout : start_layout) (process_tls : option (Z * Z)) :
  maps_nothing (fill_tls fuel p layout process_tls).
Proof.
  destruct process_tls as [[addr size]|]; [|apply nothing_ret]. intros st. cbn [fill_tls]. generalize (images (ru_proc st)). intros imgs.
  revert st. change (maps_nothing (node ← node_of p; img ← on_images (get_image (ly_loaded_image layout));
    tls ← on_images (get_image addr); tls ← run_outcome (copy_process_tls_image node img tls);
    tls ← on_store (copy_process_dependency_tls_images fuel imgs p tls); set_image addr tls)).
  apply nothing_bind; [apply nothing_store, keeps_node|]. intros node. do 2 (apply nothing_bind; [apply nothing_images|intros ?]).
  apply nothing_bind; [apply nothing_outcome|]. intros tls. apply nothing_bind; [apply nothing_store, keeps_copy_tls|]. intros tls'.
  by apply nothing_same.
Qed.

Lemma nothing_protect_segments (mprotect_fails : Z -> Z -> Z -> bool) (prog : loaded_program) (img : Z) :
  maps_nothing (protect_load_segments mprotect_fails prog img).
Proof. apply nothing_each. intros seg. apply nothing_protect. Qed.

Lemma nothing_preinit call_guest env (p : ptr) (prog : loaded_program) (img : Z) :
  maps_nothing (run_process_preinitializers call_guest env p prog img).
Proof.
  unfold run_process_preinitializers, run_process_initializer_array. destruct (_ =? 0); [apply nothing_ret|].
  apply nothing_bind; [apply nothing_outcome|]. intros off. apply nothing_each. intros n.
  apply nothing_bind; [apply nothing_images|]. intros code. apply nothing_bind; [apply nothing_outcome|]. intros target.
  destruct (negb _); [apply nothing_call|apply nothing_ret].
Qed.

Lemma nothing_relocate call_guest env (q : ptr) (img : Z) (descs gets : list Z) :
  maps_nothing (relocate_dependency call_guest env q img descs gets).
Proof.
  intros st. unfold relocate_dependency. destruct (program_view _ _); [apply nothing_images|by apply (nothing_outcome (A:=unit) Fault)].
Qed.

Lemma nothing_entry env (layout : start_layout) (prog : loaded_program) (return_to : Z) (tail : bool) :
  maps_nothing (emit_entry env layout prog return_to tail).
Proof. unfold emit_entry. destruct (_ <? 0); [apply nothing_outcome|apply nothing_ret]. Qed.

(** ** Giving back *)

Definition given_back (l : list (Z * Z)) : list (bool * (Z * Z)) := pair false <$> l.

Lemma traffic_unmaps (l : list (Z * Z)) : traffic (unmap_event <$> l) = given_back l.
Proof. induction l as [|m l IH]; [done|]. unfold traffic, given_back in *. cbn. by rewrite IH; destruct m. Qed.

Lemma maps_of_app (b c : list process_event) :
  maps_of (b ++ c) = maps_of b ++ maps_of c /\ unmaps_of (b ++ c) = unmaps_of b ++ unmaps_of c.
Proof. unfold maps_of, unmaps_of. by rewrite traffic_app, !omap_app. Qed.

Lemma traffic_split (b c : list process_event) (m u : list (Z * Z)) : traffic b = made m -> traffic c = given_back u ->
  maps_of (b ++ c) = m /\ unmaps_of (b ++ c) = u.
Proof.
  intros Hb Hc. destruct (maps_of_made _ _ Hb) as [M1 M2]. unfold maps_of, unmaps_of in *. rewrite traffic_app, !omap_app.
  rewrite M1, M2, Hc. clear. induction u as [|x u [IH1 IH2]]; [split; [apply app_nil_r|done]|]. unfold given_back in *. cbn in *.
  split; [done|by rewrite IH2].
Qed.

Section Failure.
Context (call_guest : gmap Z image -> Z -> Z -> gmap Z image * Z).
Context (mmap : gmap Z image -> Z -> option Z) (mprotect_fails : Z -> Z -> Z -> bool).
Context (env : run_env) (links fuel : nat) (descs gets : list Z).
Context (p : ptr) (layout : start_layout) (prog : loaded_program).
Context (files : list Z -> option image) (calloc_fails : Z -> bool) (s : process).
Context (W : tree_wf files calloc_fails s) (Hp : prog_at s p = Some prog).
Context (Hfuel : (Pos.to_nat (ps_next s) <= Pos.to_nat p + fuel)%nat).

Definition base_mappings : list (Z * Z) :=
  [(ly_scratch layout, ly_scratch_size layout); (ly_mapping layout, ly_mapping_size layout)].

(** After a block that has made some mappings, everything is given back. *)
Definition all_given_back (st st' : run_state) : Prop :=
  exists block, ru_log st' = ru_log st ++ block /\ unmaps_of block ≡ₚ base_mappings ++ maps_of block /\
    forall d dep, dep_at (ru_store st') d = Some dep -> dp_mapping dep = None.

(** Progress: the mappings made since [st], those that the libraries hold and the storage. *)
Definition progress (st : run_state) (maps : list (Z * Z)) (tls : option (Z * Z)) (st1 : run_state) : Prop :=
  holds fuel p s maps st1 /\ exists block, ru_log st1 = ru_log st ++ block /\ traffic block = made (maps ++ option_list tls).

Lemma progress_nothing {A} (st : run_state) (maps : list (Z * Z)) (tls : option (Z * Z)) (m : run A) (st1 : run_state) :
  maps_nothing m -> progress st maps tls st1 -> progress st maps tls (m st1).1.
Proof using.
  intros Hm (Hh & b & Lb & Tb). destruct (Hm st1) as (S1 & c & Lc & Tc). split; [by eapply holds_same|].
  exists (b ++ c). rewrite Lc, Lb, app_assoc. split; [done|]. by rewrite traffic_app, Tc, app_nil_r.
Qed.

Lemma progress_bind {A B} (st : run_state) (maps : list (Z * Z)) (tls : option (Z * Z)) (m : run A) (f : A -> run B)
    (st1 : run_state) :
  progress st maps tls (m st1).1 -> (forall a, maps_nothing (f a)) -> progress st maps tls ((m ≫= f) st1).1.
Proof using.
  intros Hm Hf. unfold mbind, run_bind. destruct (m st1) as [st2 [a| | |]]; try done. by apply progress_nothing.
Qed.

(** The cleanup unmaps everything that is held. *)
Lemma cleanup_unmaps (st1 : run_state) (maps : list (Z * Z)) (tls : option (Z * Z)) : holds fuel p s maps st1 ->
  exists st2, (unmap_tls tls;; unmap_process_dependencies fuel p;; unmap_base layout) st1 = (st2, Ok tt) /\
    ru_log st2 = ru_log st1 ++ (unmap_event <$> option_list tls ++ maps ++ base_mappings) /\
    forall d dep, dep_at (ru_store st2) d = Some dep -> dp_mapping dep = None.
Proof using W Hp Hfuel.
  intros Hh. assert (exists st2, unmap_tls tls st1 = (st2, Ok tt) /\ ru_store st2 = ru_store st1 /\
    ru_log st2 = ru_log st1 ++ (unmap_event <$> option_list tls)) as (st2 & E2 & S2 & L2).
  { destruct tls as [[addr size]|]; [by eexists|]. exists st1. cbn. by rewrite app_nil_r. }
  rewrite (run_bind_run _ _ _ _ _ E2).
  destruct (unmap_held fuel p prog files calloc_fails s W Hp Hfuel maps st2) as (st3 & E3 & L3 & N3); [by eapply holds_same|].
  rewrite (run_bind_run _ _ _ _ _ E3). eexists. split; [reflexivity|]. cbn [ru_log ru_store]. split; [|done].
  rewrite L3, L2, !fmap_app, !app_assoc. cbn. by rewrite <- !app_assoc.
Qed.

Lemma cleanup_gives_back {A} (st st1 st' : run_state) (maps : list (Z * Z)) (tls : option (Z * Z)) :
  progress st maps tls st1 ->
  ((unmap_tls tls;; unmap_process_dependencies fuel p;; unmap_base layout);; run_outcome (A := A) Err) st1 = (st', Err) ->
  all_given_back st st'.
Proof using W Hp Hfuel.
  intros (Hh & b & Lb & Tb) H. destruct (cleanup_unmaps st1 maps tls Hh) as (st2 & E2 & L2 & N2).
  rewrite (run_bind_run _ _ _ _ _ E2) in H. injection H as <-.
  exists (b ++ (unmap_event <$> option_list tls ++ maps ++ base_mappings)). split_and!; [|..].
  - by rewrite L2, Lb, <- app_assoc.
  - destruct (traffic_split _ _ _ _ Tb (traffic_unmaps (option_list tls ++ maps ++ base_mappings))) as [-> ->].
    rewrite (Permutation_app_comm base_mappings), app_assoc. apply Permutation_app_tail, Permutation_app_comm.
  - done.
Qed.

Lemma map_tls_progress (st st1 : run_state) (maps : list (Z * Z)) (size : Z) : progress st maps None st1 ->
  match map_tls mmap size st1 with
  | (st2, Ok tls) => progress st maps tls st2
  | (st2, _) => progress st maps None st2
  end.
Proof using.
  intros (Hh & b & Lb & Tb). assert (progress st maps None st1) as Hnone by (split; [done|by exists b]).
  unfold map_tls. destruct (size =? 0); [done|]. unfold mbind, run_bind, map_image. destruct (mmap _ _) as [addr|]; [|done]. cbn.
  split; [by apply (holds_same _ _ _ _ st1)|]. exists (b ++ [EvMap addr size]). cbn [ru_log]. rewrite Lb, app_assoc. split; [done|].
  rewrite traffic_app, Tb. cbn [option_list]. unfold made. by rewrite app_nil_r, fmap_app.
Qed.

(** The first steps change scopes and storage offsets only. *)
Lemma scoped (st st1 : run_state) (r : outcome Z) : ru_store st = s -> (forall d dep, dep_at s d = Some dep -> dp_mapping dep = None) ->
  (on_store (set_process_dependency_root_scope fuel p p (ly_loaded_image layout));; on_store (reserve_process_tls_tree fuel p 0)) st = (st1, r) ->
  ru_log st1 = ru_log st /\ alike s (ru_store st1) /\ forall d dep, dep_at (ru_store st1) d = Some dep -> dp_mapping dep = None.
Proof using.
  intros Hst Hnone E. set (m2 := set_process_dependency_root_scope fuel p p (ly_loaded_image layout);; reserve_process_tls_tree fuel p 0).
  set (m1 := on_store _;; _) in E. assert (m1 st = on_store m2 st) as E' by (unfold m1, m2, on_store, mbind, run_bind, ld_bind;
    destruct (set_process_dependency_root_scope _ _ _ _ (ru_store st)) as [s1 [[]| | |]]; done).
  assert (keeps_deps m2) as K by (apply deps_bind; [apply deps_root_scope|intros _; apply deps_reserve]).
  rewrite E' in E. unfold on_store in E. specialize (K (ru_store st)). destruct (m2 (ru_store st)) as [s1 r1]. injection E as <- <-.
  cbn [fst ru_log ru_store] in *. rewrite Hst in K. split_and!; [done|by apply deps_alike|].
  intros d dep Hd. rewrite (deps_dep_at _ _ d K) in Hd. by eapply Hnone.
Qed.

(** How preparing may end: everything given back, or held. *)
Lemma prepare_ends (st st' : run_state) (r : outcome (option (Z * Z))) : ru_store st = s ->
  (forall d dep, dep_at s d = Some dep -> dp_mapping dep = None) ->
  prepare_process call_guest mmap mprotect_fails env links fuel descs gets p layout prog st = (st', r) ->
  match r with
  | Err => all_given_back st st'
  | Ok tls => exists maps, progress st maps tls st'
  | _ => True
  end.
Proof using W Hp Hfuel.
  intros Hst Hnone H. unfold prepare_process in H.
  apply run_bind_cases in H as [[(st1 & E1 & H)%or_cleanup_err ->]|[(size & st1 & E1%or_cleanup_ok & H)|[-> | ->]]]; [..|done|done].
  { destruct (scoped _ _ _ Hst Hnone E1) as (L1 & _ & N1). injection H as <-. exists (unmap_event <$> base_mappings). cbn [ru_log ru_store].
    split_and!; [rewrite L1; by rewrite <- app_assoc|done|done]. }
  destruct (scoped _ _ _ Hst Hnone E1) as (L1 & A1 & N1). clear E1. rewrite (run_bind_run _ _ _ _ _ eq_refl) in H.
  set (st1c := MkRun _ _ _) in H. change (ru_log st1c = ru_log st) in L1. change (alike s (ru_store st1c)) in A1.
  destruct (map_holds call_guest mmap mprotect_fails env links descs gets fuel p prog files calloc_fails s W Hp Hfuel st1c A1 N1)
    as (maps & b & Hh & Lb & Tb).
  set (m2 := map_process_dependencies _ _ _ _ _ _ _ _ _;; _) in H. assert (progress st maps None (m2 st1c).1) as P2.
  { apply progress_bind; [split; [done|]; exists b; by rewrite Lb, L1, app_nil_r|]. intros _.
    apply nothing_bind; [apply nothing_relocate|]. intros _. apply nothing_entry. }
  apply run_bind_cases in H as [[(st2 & E2 & H)%or_cleanup_err ->]|[([] & st2 & E2%or_cleanup_ok & H)|[-> | ->]]]; [..|done|done];
    rewrite E2 in P2; cbn [fst] in P2.
  { by apply (cleanup_gives_back (A:=unit) st st2 st' maps None). }
  pose proof (map_tls_progress st st2 maps size P2) as P3.
  apply run_bind_cases in H as [[(st3 & E3 & H)%or_cleanup_err ->]|[(tls & st3 & E3%or_cleanup_ok & H)|[-> | ->]]]; [..|done|done];
    rewrite E3 in P3.
  { by apply (cleanup_gives_back (A:=option (Z * Z)) st st3 st' maps None). }
  set (m4 := fill_tls _ _ _ _;; _) in H. assert (progress st maps tls (m4 st3).1) as P4.
  { apply progress_nothing; [|done]. apply nothing_bind; [apply nothing_fill|]. intros _. apply nothing_bind.
    { apply nothing_bind; [apply nothing_protect_segments|]. intros _. destruct (_ && _); [apply nothing_ret|apply nothing_protect]. }
    intros _. apply nothing_bind; [apply nothing_preinit|]. intros _. apply nothing_bind; [apply nothing_initializers|].
    intros _. apply nothing_entry. }
  apply run_bind_cases in H as [[(st4 & E4 & H)%or_cleanup_err ->]|[([] & st4 & E4%or_cleanup_ok & H)|[-> | ->]]]; [..|done|done];
    rewrite E4 in P4; cbn [fst] in P4.
  - by apply (cleanup_gives_back (A:=unit) st st4 st' maps tls).
  - injection H as <- <-. by exists maps.
Qed.
End Failure.

Section StartEnds.
Context (call_guest : gmap Z image -> Z -> Z -> gmap Z image * Z).
Context (mmap : gmap Z image -> Z -> option Z) (mprotect_fails : Z -> Z -> Z -> bool).
Context (mmap_main : option Z -> Z -> option Z) (host : stub_env) (resolver : option Z) (links fuel : nat).

(** Everything that has been mapped since [st], but for [kept], is unmapped, once, and
    no library has a mapping. *)
Definition left_mapped (kept : list (Z * Z)) (st st' : run_state) : Prop :=
  exists block, ru_log st' = ru_log st ++ block /\ unmaps_of block ++ kept ≡ₚ maps_of block /\
    forall d dep, dep_at (ru_store st') d = Some dep -> dp_mapping dep = None.

(** The mappings of a started process: the program, the scratch page, the libraries,
    the thread-local storage. *)
Definition started (p : ptr) (s : process) (layout : start_layout) (tls : option (Z * Z)) (st st' : run_state) : Prop :=
  exists maps, holds fuel p s maps st' /\ exists block, ru_log st' = ru_log st ++ block /\
    traffic block = made (rev (base_mappings layout) ++ maps ++ option_list tls).

Definition start_ends (p : ptr) (s : process) (st : run_state) (r : run_state * outcome (start_layout * option (Z * Z))) : Prop :=
  match r.2 with
  | Err => left_mapped [] st r.1
  | Ok (layout, tls) => started p s layout tls st r.1
  | _ => True
  end.

(** A main mapping that is given back at once. *)
Lemma main_given_back (st st' : run_state) (addr size : Z) :
  (forall d dep, dep_at (ru_store st') d = Some dep -> dp_mapping dep = None) ->
  ru_log st' = (ru_log st ++ [EvMap addr size]) ++ [EvUnmap addr size] -> left_mapped [] st st'.
Proof using. intros Hn E. exists [EvMap addr size; EvUnmap addr size]. by rewrite E, <- app_assoc. Qed.

Section Tree.
Context (files : list Z -> option image) (calloc_fails : Z -> bool) (s : process) (p : ptr) (prog : loaded_program).
Context (W : tree_wf files calloc_fails s) (Hp : prog_at s p = Some prog).
Context (Hfuel : (Pos.to_nat (ps_next s) <= Pos.to_nat p + fuel)%nat).
Context (Hnone : forall d dep, dep_at s d = Some dep -> dp_mapping dep = None).

Lemma start_at_ends (l : image_layout) (mapping : Z) (descs gets : list Z) (st0 st : run_state) :
  ru_store st = s -> ru_log st = ru_log st0 ++ [EvMap mapping (il_mapping_size l)] ->
  start_ends p s st0 (start_at call_guest mmap mprotect_fails host resolver links fuel p prog l mapping descs gets st).
Proof using W Hp Hfuel Hnone.
  intros Hst Hlog. unfold start_at, mbind at 1, run_bind at 1, map_image.
  destruct (mmap _ _) as [scratch|].
  2:{ rewrite (run_bind_run _ _ _ _ _ eq_refl). apply (main_given_back _ _ mapping (il_mapping_size l)); cbn [fst ru_store ru_log run_outcome];
      [by rewrite Hst|by rewrite Hlog]. }
  unfold mbind at 1, run_bind at 1. set (st1 := MkRun _ _ _). destruct (prepare_process _ _ _ _ _ _ _ _ _ _ _ st1) as [st2 r] eqn:E.
  pose proof (prepare_ends _ _ _ _ _ _ _ _ _ _ _ files calloc_fails s W Hp Hfuel st1 _ _ Hst Hnone E) as H.
  destruct r as [tls| | |]; try done; unfold start_ends, mret, run_ret; cbn [fst snd].
  - destruct H as (maps & Hh & block & L & T). exists maps. split; [done|].
    exists ([EvMap mapping (il_mapping_size l); EvMap scratch 4096] ++ block). split; [rewrite L; cbn; by rewrite Hlog, <- !app_assoc|].
    rewrite traffic_app, T. unfold made. by rewrite !fmap_app.
  - destruct H as (block & L & P & N). exists ([EvMap mapping (il_mapping_size l); EvMap scratch 4096] ++ block).
    split_and!; [rewrite L; cbn; by rewrite Hlog, <- !app_assoc| |done].
    destruct (maps_of_app [EvMap mapping (il_mapping_size l); EvMap scratch 4096] block) as [-> ->].
    rewrite P, app_nil_r. cbn. apply perm_swap.
Qed.

Lemma start_process_ends (st : run_state) : ru_store st = s ->
  start_ends p s st (start_process call_guest mmap mprotect_fails mmap_main host resolver links fuel p prog st).
Proof using W Hp Hfuel Hnone.
  intros Hst. unfold start_process. rewrite (run_bind_run _ _ _ _ _ eq_refl). cbn zeta.
  assert (forall st', ru_store st' = s -> ru_log st' = ru_log st -> left_mapped [] st st') as Hnow.
  { intros st' Hs Hl. exists []. by rewrite Hl, Hs, app_nil_r. }
  destruct (process_image_layout _ _ _ _) as [l|]; [|by apply Hnow]. destruct (mmap_main _ _) as [mapping|]; [|by apply Hnow].
  rewrite (run_bind_run _ _ _ _ _ eq_refl). destruct (_ && _).
  { rewrite (run_bind_run _ _ _ _ _ eq_refl). apply (main_given_back _ _ mapping (il_mapping_size l)); cbn [fst ru_store ru_log run_outcome]; [by rewrite Hst|done]. }
  destruct (place_process _ _ _ _ _) as [[[page descs] gets]|].
  - rewrite (run_bind_run _ _ _ _ _ eq_refl). by apply start_at_ends.
  - rewrite (run_bind_run _ _ _ _ _ eq_refl). apply (main_given_back _ _ mapping (il_mapping_size l)); cbn [fst ru_store ru_log run_outcome]; [by rewrite Hst|done].
Qed.
End Tree.
End StartEnds.
