(* ===== verification/Vdso.v ===== *)
(** The vDSO of an AArch64 process ([map_process_aarch64_vdso] of
    [tools/runtime/polyexec.c]): a shared object whose load segments are copied into
    memory of their own, with the address of its signal return code.

    What opening the file gives is a parameter; the mapping of the file is in the log
    of [ProcessLifecycle], its bytes are read from the file itself. *)

From stdpp Require Import gmap relations strings.
From S2P Require Import Prelude LoaderBase GuestMemory BridgeSpec ElfImage ElfSymbols CodeEmit Trampoline CrossStub TlsHelpers ProcessImage ElfLoad ElfLoadProps LibraryPath ElfDeps DependencyLoad DependencyTree Relocation ProcessLifecycle ProcessOrder LifecycleOrder ProcessCleanup ProcessStart.

(** [open], with [ENOENT] apart. *)
Inductive vdso_file : Type :=
  | VdsoMissing
  | VdsoUnreadable
  | VdsoFile (data : image).

Definition vdso_path (getenv : list Z -> option (list Z)) : list Z :=
  match getenv (bytes_of_string "POLY_AARCH64_VDSO_PATH") with
  | None | Some [] => bytes_of_string "/usr/lib/polyapps/aarch64-polyexec-vdso.so"
  | Some path => path
  end.

Definition vdso_header_accepted (ehdr : elf_ehdr) : bool :=
  bool_decide (take 4 (e_ident ehdr) = [127; 69; 76; 70]) && (nth 4 (e_ident ehdr) 0 =? 2) && (nth 5 (e_ident ehdr) 0 =? 1) &&
  (e_type ehdr =? ET_DYN) && (e_machine ehdr =? EM_AARCH64).

Definition vdso_phdrs_accepted (data : image) (ehdr : elf_ehdr) : bool :=
  (e_phentsize ehdr =? SIZEOF_PHDR) && negb (e_phoff ehdr >? size_of data) &&
  negb (e_phnum ehdr >? (size_of data - e_phoff ehdr) / SIZEOF_PHDR).

(** The pages of a segment. *)
Definition vdso_segment_pages (phdr : elf_phdr) : Z * Z :=
  (align_down_u64 (p_vaddr phdr) 0x1000, align_up_u64 (u64 (p_vaddr phdr + p_memsz phdr)) 4096).

(** The first loop: the least and the greatest page address. *)
Definition vdso_span (data : image) (phdr : elf_phdr) (span : Z * Z) : outcome (Z * Z) :=
  if negb (p_type phdr =? PT_LOAD) then Ok span
  else if (p_memsz phdr <? p_filesz phdr) || (p_offset phdr >? size_of data) || (p_filesz phdr >? size_of data - p_offset phdr) ||
          (p_vaddr phdr >? UINT64_MAX - p_memsz phdr) then Err
  else
    let '(seg_start, seg_end) := vdso_segment_pages phdr in
    Ok (if seg_start <? span.1 then seg_start else span.1, if seg_end >? span.2 then seg_end else span.2).

(** The second loop: [memcpy] to the place of the segment, which the code does not
    compare with the size of the mapping. *)
Definition vdso_copy (data : image) (phdr : elf_phdr) (img : image) : outcome image :=
  if negb (p_type phdr =? PT_LOAD) || (p_filesz phdr =? 0) then Ok img
  else
    bytes ← read_bytes data (p_offset phdr) (Z.to_nat (p_filesz phdr));
    if p_vaddr phdr + p_filesz phdr >? size_of img then Fault
    else Ok (overwrite img (p_vaddr phdr) bytes).

Section Vdso.
Context (mmap : gmap Z image -> Z -> option Z) (mprotect_fails : Z -> Z -> Z -> bool).

(** The mapping of a file, whose bytes are at hand. *)
Definition map_file (size : Z) : run (option Z) := fun st =>
  match mmap (images (ru_proc st)) size with
  | None => (st, Ok None)
  | Some addr => (MkRun (ru_store st) (ru_proc st) (ru_log st ++ [EvMap addr size]), Ok (Some addr))
  end.

Definition unmap_file (addr size : Z) : run unit := log_event (EvUnmap addr size).

(** The third loop. *)
Definition vdso_protect (mapping : Z) (phdr : elf_phdr) : run unit :=
  if negb (p_type phdr =? PT_LOAD) then mret tt
  else
    let '(seg_start, seg_end) := vdso_segment_pages phdr in
    let prot := load_segment_prot (p_flags phdr) in
    log_event (EvProtect (u64 (mapping + seg_start)) (u64 (seg_end - seg_start)) prot);;
    if mprotect_fails (u64 (mapping + seg_start)) (u64 (seg_end - seg_start)) prot then run_outcome Err else mret tt.

(** With the file in memory: where the vDSO is, and its signal return code if it has one. *)
Definition vdso_image (data : image) : run (Z * option Z) :=
  if size_of data <? SIZEOF_EHDR then run_outcome Err
  else
    ehdr ← run_outcome (read_ehdr data);
    if negb (vdso_header_accepted ehdr) || negb (vdso_phdrs_accepted data ehdr) then run_outcome Err
    else
      '(min_vaddr, max_vaddr) ← run_outcome (each_phdr data ehdr (vdso_span data) (UINT64_MAX, 0));
      if negb (min_vaddr =? 0) || (max_vaddr =? 0) || (max_vaddr >? SIZE_MAX) then run_outcome Err
      else
        found ← map_image mmap max_vaddr [];
        match found with
        | None => run_outcome Err
        | Some mapping =>
            img ← run_outcome (each_phdr data ehdr (vdso_copy data) (repeat 0 (Z.to_nat max_vaddr)));
            set_image mapping img;;
            sigreturn ← run_outcome (attempted (lookup_elf_dynsym_value_by_section data (bytes_of_string "__kernel_rt_sigreturn")));
            phdrs ← run_outcome (file_phdrs data ehdr);
            or_cleanup (each (vdso_protect mapping) phdrs) (unmap_image mapping max_vaddr);;
            mret (mapping, (fun offset => u64 (mapping + offset)) <$> sigreturn)
        end.

Definition map_process_aarch64_vdso (file : vdso_file) : run (Z * option Z) :=
  match file with
  | VdsoMissing => mret (0, None)
  | VdsoUnreadable => run_outcome Err
  | VdsoFile data =>
      if size_of data =? 0 then run_outcome Err
      else
        file_image ← map_file (size_of data);
        match file_image with
        | None => run_outcome Err
        | Some addr => r ← or_cleanup (vdso_image data) (unmap_file addr (size_of data)); unmap_file addr (size_of data);; mret r
        end
  end.
End Vdso.

(** ** The three loops *)

(** The end of a segment, rounded up to a page, is an address. *)
Definition ends_below_top (p : elf_phdr) : Prop := is_load p = true -> p_vaddr p + p_memsz p < 2 ^ 64 - 4096.

(** What the first loop has checked. *)
Definition in_span (data : image) (limit : Z) (p : elf_phdr) : Prop :=
  is_load p = true -> load_wf data p /\ p_vaddr p + p_memsz p <= limit.

Lemma span_step (data : image) (p : elf_phdr) (span : Z * Z) : phdr_wf p -> ends_below_top p ->
  returns (vdso_span data p span) /\
  forall r, vdso_span data p span = Ok r -> span.2 <= r.2 /\ in_span data r.2 p.
Proof.
  intros Hw Htop. unfold vdso_span, in_span. fold (is_load p). destruct (is_load p) eqn:El; cbn [negb].
  2:{ split; [done|]. intros r [= <-]. split; [lia|done]. }
  destruct (_ || _) eqn:E; [split; done|]. unfold vdso_segment_pages. split; [done|]. intros r [= <-]. breflect. cbn [snd].
  specialize (Htop El). pose proof Hw as [Ho Hv Hfs Hms Hal]. unfold in_width, UINT64_MAX in *.
  assert (p_vaddr p + p_memsz p <= align_up_u64 (u64 (p_vaddr p + p_memsz p)) 4096) as Hup.
  { rewrite wrap_small by (unfold in_width; lia). destruct (align_up_page (p_vaddr p + p_memsz p)) as [[Hle _] _]; [lia..|exact Hle]. }
  rewrite Z.gtb_ltb. destruct (Z.ltb_spec span.2 (align_up_u64 (u64 (p_vaddr p + p_memsz p)) 4096)) as [Hlt|Hge]; (split; [lia|]);
    intros _; (split; [|lia]); constructor; try done; unfold UINT64_MAX; lia.
Qed.

Lemma span_list (data : image) (l : list elf_phdr) : Forall phdr_wf l -> Forall ends_below_top l -> forall span,
  returns (fold_outcome (vdso_span data) span l) /\
  forall r, fold_outcome (vdso_span data) span l = Ok r -> span.2 <= r.2 /\ Forall (in_span data r.2) l.
Proof.
  induction l as [|p l IH]; intros Hw Ht span; cbn [fold_outcome].
  { split; [done|]. intros r [= <-]. split; [lia|constructor]. }
  apply Forall_cons in Hw as [Hp Hw]. apply Forall_cons in Ht as [Hp2 Ht]. destruct (span_step data p span Hp Hp2) as [R1 S1].
  split.
  - apply bind_returns; [done|]. intros a Ha. by apply IH.
  - intros r (a & Ha & Hr)%bind_ok. destruct (S1 a Ha) as [L1 P1]. destruct (IH Hw Ht a) as [_ S2]. destruct (S2 r Hr) as [L2 P2].
    split; [lia|]. constructor; [|done]. intros Hl. destruct (P1 Hl). split; [done|lia].
Qed.

Lemma copy_is_segment (data img : image) (p : elf_phdr) : phdr_wf p -> in_span data (size_of img) p ->
  vdso_copy data p img = copy_segment data 0 (size_of img) p img.
Proof.
  intros Hw Hp. unfold vdso_copy, copy_segment. fold (is_load p). destruct (is_load p) eqn:El; cbn [negb orb]; [|done].
  destruct (Hp El) as [[_ Hs Hf He] Hl]. destruct Hw as [[] [] [] [] _]. unfold UINT64_MAX in *.
  rewrite Z.sub_0_r, wrap_small by (unfold in_width; lia). destruct (Z.eqb_spec (p_filesz p) 0) as [E0|E0].
  - done.
  - rewrite !Z.gtb_ltb. destruct (Z.ltb_spec (size_of img) (p_vaddr p)); [lia|].
    destruct (Z.ltb_spec (size_of img - p_vaddr p) (p_filesz p)); [lia|].
    destruct (Z.ltb_spec (size_of img) (p_vaddr p + p_filesz p)); [lia|]. done.
Qed.

Lemma copy_list_is_segments (data : image) (size : Z) : wf_image data -> 0 <= size -> forall l done img,
  Forall phdr_wf l -> Forall (in_span data size) l -> copied data 0 size done img ->
  exists img', fold_outcome (vdso_copy data) img l = Ok img' /\ copied data 0 size (done ++ l) img'.
Proof.
  intros Hd Hs. induction l as [|p l IH]; intros dn img Hw Hp Hc; cbn [fold_outcome]; [exists img; by rewrite app_nil_r|].
  apply Forall_cons in Hw as [Hw1 Hw]. apply Forall_cons in Hp as [Hp1 Hp]. pose proof (cp_size _ _ _ _ _ Hc) as Ec.
  rewrite copy_is_segment by (rewrite ?Ec; done). rewrite Ec.
  destruct (copy_segment_step data 0 size Hd dn p img) as (img1 & -> & C1); [|done|done|].
  { intros Hl. destruct (Hp1 Hl) as [Hlw Hend]. split; [done|]. destruct Hw1 as [_ [] _ _ _]. lia. }
  cbn [mbind outcome_bind]. destruct (IH (dn ++ [p]) img1) as (img' & -> & C'); [done..|].
  exists img'. split; [done|]. by rewrite <- app_assoc in C'.
Qed.

(** ** The whole *)

Section Loaded.
Context (mmap : gmap Z image -> Z -> option Z) (mprotect_fails : Z -> Z -> Z -> bool).

Lemma protect_each (mapping : Z) (l : list elf_phdr) : forall st, exists block r,
  each (vdso_protect mprotect_fails mapping) l st = (MkRun (ru_store st) (ru_proc st) (ru_log st ++ block), r) /\
  traffic block = [] /\ (r = Ok tt \/ r = Err).
Proof using.
  induction l as [|p l IH]; intros st; cbn [each].
  { exists [], (Ok tt). rewrite app_nil_r. split; [by destruct st|by auto]. }
  assert (exists block r, vdso_protect mprotect_fails mapping p st = (MkRun (ru_store st) (ru_proc st) (ru_log st ++ block), r) /\
    traffic block = [] /\ (r = Ok tt \/ r = Err)) as (b1 & r1 & E1 & T1 & R1).
  { unfold vdso_protect. destruct (negb _); [exists [], (Ok tt); rewrite app_nil_r; split; [by destruct st|by auto]|].
    destruct (vdso_segment_pages p) as [lo hi]. cbn zeta. unfold mbind at 1, run_bind at 1, log_event.
    destruct (mprotect_fails _ _ _); eexists _, _; (split; [reflexivity|]); auto. }
  unfold mbind, run_bind. rewrite E1. destruct R1 as [-> | ->]; [|exists b1, Err; auto].
  destruct (IH (MkRun (ru_store st) (ru_proc st) (ru_log st ++ b1))) as (b2 & r2 & -> & T2 & R2). cbn [ru_store ru_proc ru_log].
  exists (b1 ++ b2), r2. rewrite app_assoc. split; [done|]. by rewrite traffic_app, T1, T2.
Qed.

Context (data : image) (Hdata : wf_image data).
Context (Htop : forall ehdr l, read_ehdr data = Ok ehdr -> file_phdrs data ehdr = Ok l -> Forall ends_below_top l).

(** The load segments of the file, in memory at an address. *)
Definition vdso_placed (st : run_state) (addr : Z) : Prop :=
  exists ehdr l img, read_ehdr data = Ok ehdr /\ file_phdrs data ehdr = Ok l /\ images (ru_proc st) !! addr = Some img /\
    Forall (fun p => p_vaddr p + p_memsz p <= size_of img) (loads l) /\
    forall i, 0 <= i < size_of img -> nth (Z.to_nat i) img 0 = image_byte data 0 l i.

Definition symbol_lookup : outcome Z := lookup_elf_dynsym_value_by_section data (bytes_of_string "__kernel_rt_sigreturn").

(** How loading may end: the log since [st], and the memory. *)
Definition vdso_outcome (opened : list (Z * Z)) (st : run_state) (r : run_state * outcome (Z * option Z)) : Prop :=
  ru_store r.1 = ru_store st /\ exists block, ru_log r.1 = ru_log st ++ block /\
  match r.2 with
  | Ok (addr, _) => exists size, maps_of block = opened ++ [(addr, size)] /\ unmaps_of block = opened /\ vdso_placed r.1 addr
  | Err => unmaps_of block ≡ₚ maps_of block
  | _ => ~ returns symbol_lookup
  end.

Lemma outcome_err (opened : list (Z * Z)) (st : run_state) : vdso_outcome opened st (st, Err).
Proof using. split; [done|]. exists []. split; [by rewrite app_nil_r|]. apply Permutation_refl. Qed.

(** The last part, from the copied image on. *)
Lemma vdso_protected (st st0 : run_state) (addr hi : Z) (img : image) (ehdr : elf_ehdr) (l : list elf_phdr) (sig : option Z) :
  ru_store st0 = ru_store st -> ru_log st0 = ru_log st ++ [EvMap addr hi] -> images (ru_proc st0) !! addr = Some img ->
  read_ehdr data = Ok ehdr -> file_phdrs data ehdr = Ok l -> Forall (in_span data hi) l -> copied data 0 hi l img ->
  vdso_outcome [] st ((or_cleanup (each (vdso_protect mprotect_fails addr) l) (unmap_image addr hi);; mret (addr, sig)) st0).
Proof using.
  intros Hs Hlog Himg He Hl Hin [Ec _ Eb]. unfold mbind, run_bind, or_cleanup.
  destruct (protect_each addr l st0) as (block & r & -> & Tb & [-> | ->]).
  - split; [done|]. exists ([EvMap addr hi] ++ block). cbn [fst snd ru_log]. split; [by rewrite Hlog, <- app_assoc|]. exists hi.
    unfold maps_of, unmaps_of. rewrite !traffic_app, Tb. split; [done|]. split; [done|]. exists ehdr, l, img. split_and!; try done.
    + apply Forall_forall. intros p [Hld Hp]%list_elem_of_filter. rewrite Forall_forall in Hin. rewrite Ec. by destruct (Hin p Hp Hld).
    + by rewrite Ec.
  - rewrite (run_bind_run _ _ _ _ _ eq_refl). split; [done|]. exists ([EvMap addr hi] ++ block ++ [EvUnmap addr hi]). cbn [fst snd ru_log].
    split; [by rewrite Hlog, <- !app_assoc|]. unfold maps_of, unmaps_of. rewrite !traffic_app, Tb. apply Permutation_refl.
Qed.

Lemma vdso_image_outcome (st : run_state) : vdso_outcome [] st (vdso_image mmap mprotect_fails data st).
Proof using Hdata Htop.
  unfold vdso_image. destruct (Z.ltb_spec (size_of data) SIZEOF_EHDR); [apply outcome_err|].
  destruct (read_ehdr_inside data Hdata ltac:(lia)) as (ehdr & He & Hwf). unfold mbind at 1, run_bind at 1, run_outcome at 1. rewrite He.
  destruct (negb _ || negb _) eqn:E1; [apply outcome_err|]. apply orb_false_iff in E1 as [_ E1%negb_false_iff].
  assert (phdrs_accepted data ehdr = true) as Hacc.
  { unfold vdso_phdrs_accepted, phdrs_accepted in *. breflect. unfold SIZEOF_PHDR in *. rewrite !andb_true_iff, !negb_true_iff.
    rewrite Z.ltb_ge, !Z.gtb_ltb, !Z.ltb_ge. split_and!; [lia|lia|]. replace (e_phentsize ehdr) with 56 by lia.
    pose proof (Z.mul_div_le (size_of data - e_phoff ehdr) 56). lia. }
  destruct (each_phdr_list data ehdr Hdata Hwf Hacc) as (l & Hl & Hw & Hfold). specialize (Htop ehdr l He Hl).
  unfold mbind at 1, run_bind at 1, run_outcome at 1. rewrite Hfold.
  destruct (span_list data l Hw Htop (UINT64_MAX, 0)) as [R1 S1]. revert R1 S1. destruct (fold_outcome _ _ l) as [[lo hi]| | |]; intros R1 S1;
    [|apply outcome_err|by destruct R1..]. destruct (S1 _ eq_refl) as [H0 Hin]. cbn [snd] in *.
  destruct (negb _ || _ || _) eqn:E2; [apply outcome_err|]. breflect. unfold mbind at 1, run_bind at 1, map_image.
  destruct (mmap _ _) as [addr|]; [|apply outcome_err].
  unfold mbind at 1, run_bind at 1, run_outcome at 1. rewrite Hfold.
  destruct (copy_list_is_segments data hi Hdata H0 l [] _ Hw Hin (copied_start data 0 hi H0)) as (img & -> & Ci). cbn [app] in Ci.
  rewrite (run_bind_run _ _ _ _ _ eq_refl). unfold mbind at 1, run_bind at 1, run_outcome at 1. fold symbol_lookup.
  destruct symbol_lookup as [v| | |] eqn:Esym; cbn [attempted];
    [| |split; [done|]; eexists; split; [reflexivity|]; intros [N1 N2]; congruence..].
  all: unfold mbind at 1, run_bind at 1, run_outcome at 1; rewrite Hl; apply vdso_protected with img ehdr; try done;
    apply lookup_insert_eq.
Qed.

(** The vDSO is loaded as its program headers say, at an address of its own: every byte
    of the mapping is that of the last load segment that has it, or 0.  The mapping of
    the file is always given back, and after a failure that of the vDSO too.  Only the
    search for the signal return code, in a file without an end of its names, may read
    outside. *)
Theorem vdso_loaded (st : run_state) : exists opened,
  vdso_outcome opened st (map_process_aarch64_vdso mmap mprotect_fails (VdsoFile data) st).
Proof using Hdata Htop.
  cbn [map_process_aarch64_vdso]. destruct (_ =? 0); [exists []; apply outcome_err|]. unfold mbind at 1, run_bind at 1, map_file.
  destruct (mmap _ _) as [addr|]; [|exists []; apply outcome_err]. exists [(addr, size_of data)].
  set (st1 := MkRun _ _ _). destruct (vdso_image_outcome st1) as (Hs & block & Lb & Hb).
  unfold mbind at 1, run_bind at 1, or_cleanup. destruct (vdso_image mmap mprotect_fails data st1) as [st2 [[a sig]| | |]]; cbn [fst snd] in *.
  - destruct Hb as (size & M & U & P). rewrite (run_bind_run _ _ _ _ _ eq_refl). split; [done|]. exists ([EvMap addr (size_of data)] ++ block ++ [EvUnmap addr (size_of data)]).
    split; [cbn; rewrite Lb; cbn; by rewrite <- !app_assoc|]. exists size.
    destruct (maps_of_app [EvMap addr (size_of data)] (block ++ [EvUnmap addr (size_of data)])) as [-> ->].
    destruct (maps_of_app block [EvUnmap addr (size_of data)]) as [-> ->]. rewrite M, U. split_and!; done.
  - rewrite (run_bind_run _ _ _ _ _ eq_refl). split; [done|].
    exists ([EvMap addr (size_of data)] ++ block ++ [EvUnmap addr (size_of data)]). cbn [fst snd ru_log].
    split; [cbn; rewrite Lb; cbn; by rewrite <- !app_assoc|].
    destruct (maps_of_app [EvMap addr (size_of data)] (block ++ [EvUnmap addr (size_of data)])) as [-> ->].
    destruct (maps_of_app block [EvUnmap addr (size_of data)]) as [-> ->]. cbn -[maps_of unmaps_of]. rewrite Hb. cbn.
    rewrite app_nil_r. symmetry. apply Permutation_cons_append.
  - split; [done|]. exists ([EvMap addr (size_of data)] ++ block). cbn [fst snd ru_log]. by rewrite Lb; cbn; rewrite <- app_assoc.
  - split; [done|]. exists ([EvMap addr (size_of data)] ++ block). cbn [fst snd ru_log]. by rewrite Lb; cbn; rewrite <- app_assoc.
Qed.
End Loaded.
