(* ===== verification/ProcessEntry.v ===== *)
(** From a started process to its first instruction ([emit_and_run_process] of
    [tools/runtime/polyexec.c] as a whole): after [ProcessStart] the scratch page gets
    its contents, the vDSO and the initial stack are made, the exit finalizers are noted
    and the base of x86 thread-local storage is given to the processor.

    The contents of the scratch page are fixtures of test programs; whether they could
    be made ([scratch_fails]) is a parameter, and so are the files, the host values of
    the stack, and whether the processor takes the signature slot ([slot_fails]). *)

From stdpp Require Import gmap relations strings.
From S2P Require Import Prelude LoaderBase GuestMemory BridgeSpec ElfImage ElfSymbols CodeEmit Trampoline CrossStub TlsHelpers ProcessImage ElfLoad ElfLoadProps LibraryPath ProcessStack ElfDeps DependencyLoad DependencyTree Relocation ProcessLifecycle ProcessOrder LifecycleOrder ProcessCleanup ProcessStart Vdso.

(** What [run_poly_process_entry] is given, and the state set before it. *)
Record process_entry : Type := MkEntry {
  en_code : Z;
  en_initial_sp : Z;
  en_tls : option (Z * Z);
  en_x86_tls_base : Z;
  en_startup_x86_tls_base : Z;
  en_memory : memory;
  en_vdso_rt_sigreturn : option Z;
  en_finalizers : exit_finalizers;
}.

(** The stack, with its mapping in the log. *)
Definition stack_built (r : stack_result) : run (memory * Z) := fun st =>
  match r with
  | StackFails given_back =>
      (MkRun (ru_store st) (ru_proc st) (ru_log st ++ concat ((fun m => [EvMap m.1 m.2; EvUnmap m.1 m.2]) <$> given_back)), Err)
  | StackBuilt m stack sp => (MkRun (ru_store st) (ru_proc st) (ru_log st ++ [EvMap stack STACK_SIZE]), Ok (m, sp))
  end.

Section Entry.
Context (call_guest : gmap Z image -> Z -> Z -> gmap Z image * Z).
Context (mmap : gmap Z image -> Z -> option Z) (mprotect_fails : Z -> Z -> Z -> bool).
Context (mmap_main : option Z -> Z -> option Z) (host : stub_env) (resolver : option Z) (links fuel : nat).
Context (getenv : list Z -> option (list Z)) (open_vdso : list Z -> vdso_file) (stack_of : stack_host).
Context (scratch_fails slot_fails : bool).

Definition vdso_for (arch : Z) : run (Z * option Z) :=
  if arch =? POLY_ARCH_AARCH64 then map_process_aarch64_vdso mmap mprotect_fails (open_vdso (vdso_path getenv)) else mret (0, None).

(** The base of x86 thread-local storage, 0 if no program of the process needs one. *)
Definition x86_tls_base (p : ptr) (prog : loaded_program) (process_tls : option (Z * Z)) : run Z :=
  match process_tls with
  | None => mret 0
  | Some (addr, _) =>
      needed ← (if lp_arch prog =? POLY_ARCH_X86 then mret true else on_store (process_tree_has_arch_tls fuel p POLY_ARCH_X86));
      mret (if needed : bool then addr else 0)
  end.

Definition ready_process (p : ptr) (prog : loaded_program) (request : poly_request) (extra_argv : list (list Z)) (m : memory)
    (layout : start_layout) (process_tls : option (Z * Z)) : run process_entry :=
  (if scratch_fails then run_outcome Err else mret tt);;
  '(at_sysinfo_ehdr, sigreturn) ← vdso_for (lp_arch prog);
  '(m, initial_sp) ←
    stack_built (build_process_stack stack_of getenv prog request (ly_loaded_image layout) 0 at_sysinfo_ehdr extra_argv m);
  base ← x86_tls_base p prog process_tls;
  if negb (base =? 0) && slot_fails then run_outcome Err
  else mret (MkEntry (ly_code layout) initial_sp process_tls base (if lp_arch prog =? POLY_ARCH_X86 then base else 0) m sigreturn
               (MkExitFinalizers p (ly_loaded_image layout) true true false false)).

Definition emit_and_run_process (p : ptr) (prog : loaded_program) (request : poly_request) (extra_argv : list (list Z)) (m : memory) :
    run process_entry :=
  '(layout, process_tls) ← start_process call_guest mmap mprotect_fails mmap_main host resolver links fuel p prog;
  or_cleanup (ready_process p prog request extra_argv m layout process_tls)
    (unmap_tls process_tls;; unmap_process_dependencies fuel p;; unmap_base layout).
End Entry.

(** ** What stays mapped *)

(** Run where [before] is mapped, [m] keeps the store and ends with mappings that meet
    [ok] (with its value) or [err]. *)
Definition leaves {A} (before : list (Z * Z)) (m : run A) (ok : A -> list (Z * Z) -> Prop) (err : list (Z * Z) -> Prop) : Prop :=
  forall st, ru_store (m st).1 = ru_store st /\ exists block kept, ru_log (m st).1 = ru_log st ++ block /\
    unmaps_of block ++ kept ≡ₚ before ++ maps_of block /\
    match (m st).2 with Ok a => ok a kept | Err => err kept | _ => True end.

Lemma leaves_nothing {A} (before : list (Z * Z)) (m : run A) (ok : A -> list (Z * Z) -> Prop) (err : list (Z * Z) -> Prop) :
  maps_nothing m -> (forall a, ok a before) -> err before -> leaves before m ok err.
Proof.
  intros Hm Ho He st. destruct (Hm st) as (S1 & block & L1 & T1). split; [done|]. exists block, before.
  unfold unmaps_of, maps_of. rewrite T1. split; [done|]. cbn. rewrite app_nil_r. split; [done|]. by destruct (m st).2.
Qed.

Lemma leaves_then {A B} (before : list (Z * Z)) (m : run A) (f : A -> run B) (mid : A -> list (Z * Z) -> Prop)
    (ok : B -> list (Z * Z) -> Prop) (err : list (Z * Z) -> Prop) :
  leaves before m mid err -> (forall a kept, mid a kept -> leaves kept (f a) ok err) -> leaves before (m ≫= f) ok err.
Proof.
  intros Hm Hf st. destruct (Hm st) as (S1 & b1 & k1 & L1 & P1 & R1). unfold mbind, run_bind.
  destruct (m st) as [st1 [a| | |]]; cbn [fst snd] in *; [|by split; [|exists b1, k1]..].
  destruct (Hf a k1 R1 st1) as (S2 & b2 & k2 & L2 & P2 & R2). split; [by rewrite S2|]. exists (b1 ++ b2), k2.
  split; [by rewrite L2, L1, app_assoc|]. split; [|done]. destruct (maps_of_app b1 b2) as [-> ->].
  rewrite <- app_assoc, P2, app_assoc, P1, app_assoc. done.
Qed.

Lemma leaves_weaken {A} (before : list (Z * Z)) (m : run A) (ok ok' : A -> list (Z * Z) -> Prop) (err err' : list (Z * Z) -> Prop) :
  leaves before m ok err -> (forall a kept, ok a kept -> ok' a kept) -> (forall kept, err kept -> err' kept) -> leaves before m ok' err'.
Proof.
  intros Hm Ho He st. destruct (Hm st) as (S1 & b1 & k1 & L1 & P1 & R1). split; [done|]. exists b1, k1. do 2 (split; [done|]).
  destruct (m st).2; auto.
Qed.

Lemma leaves_cleanup {A} (before : list (Z * Z)) (m : run A) (c : run unit) (ok : A -> list (Z * Z) -> Prop) (err mid : list (Z * Z) -> Prop) :
  leaves before m ok mid -> (forall kept, mid kept -> leaves kept c (fun _ => err) err) -> leaves before (or_cleanup m c) ok err.
Proof.
  intros Hm Hc st. destruct (Hm st) as (S1 & b1 & k1 & L1 & P1 & R1). unfold or_cleanup.
  destruct (m st) as [st1 [a| | |]]; cbn [fst snd] in *; [by split; [|exists b1, k1]| |by split; [|exists b1, k1]..].
  destruct (Hc k1 R1 st1) as (S2 & b2 & k2 & L2 & P2 & R2). unfold mbind, run_bind.
  destruct (c st1) as [st2 o]; cbn [fst snd] in *. split; [by destruct o; rewrite <- S1, <- S2|]. exists (b1 ++ b2), k2.
  split; [destruct o; cbn; by rewrite L2, L1, app_assoc|]. split; [|by destruct o]. destruct (maps_of_app b1 b2) as [-> ->].
  rewrite <- app_assoc, P2, app_assoc, P1, app_assoc. done.
Qed.

Lemma leaves_map (before : list (Z * Z)) (m : run (option Z)) (size : Z) (err : list (Z * Z) -> Prop) :
  (forall st, ru_store (m st).1 = ru_store st /\
     (m st = (st, Ok None) \/ exists addr, ru_log (m st).1 = ru_log st ++ [EvMap addr size] /\ (m st).2 = Ok (Some addr))) ->
  leaves before m (fun r kept => kept ≡ₚ option_list ((fun addr => (addr, size)) <$> r) ++ before) err.
Proof.
  intros Hm st. destruct (Hm st) as (S1 & [E|(addr & L1 & E)]); (split; [done|]).
  - exists [], before. rewrite E. cbn. by rewrite !app_nil_r.
  - exists [EvMap addr size], ((addr, size) :: before). rewrite E. split; [done|]. cbn. split; [|done]. apply Permutation_cons_append.
Qed.

Lemma leaves_unmap (before kept : list (Z * Z)) (c : run unit) (addr size : Z) (err : list (Z * Z) -> Prop) :
  before ≡ₚ (addr, size) :: kept ->
  (forall st, ru_store (c st).1 = ru_store st /\ ru_log (c st).1 = ru_log st ++ [EvUnmap addr size] /\ (c st).2 = Ok tt) ->
  leaves before c (fun _ k => k ≡ₚ kept) err.
Proof.
  intros Hb Hc st. destruct (Hc st) as (S1 & L1 & E). split; [done|]. exists [EvUnmap addr size], kept. rewrite E.
  split; [done|]. cbn. by rewrite app_nil_r.
Qed.

Section Traffic.
Context (mmap : gmap Z image -> Z -> option Z) (mprotect_fails : Z -> Z -> Z -> bool).

Lemma map_image_maps (size : Z) (code : image) (st : run_state) : ru_store (map_image mmap size code st).1 = ru_store st /\
  (map_image mmap size code st = (st, Ok None) \/ exists addr, ru_log (map_image mmap size code st).1 = ru_log st ++ [EvMap addr size] /\
     (map_image mmap size code st).2 = Ok (Some addr)).
Proof using. unfold map_image. destruct (mmap _ _) as [addr|]; [split; [done|right; by exists addr]|by auto]. Qed.

Lemma map_file_maps (size : Z) (st : run_state) : ru_store (map_file mmap size st).1 = ru_store st /\
  (map_file mmap size st = (st, Ok None) \/ exists addr, ru_log (map_file mmap size st).1 = ru_log st ++ [EvMap addr size] /\
     (map_file mmap size st).2 = Ok (Some addr)).
Proof using. unfold map_file. destruct (mmap _ _) as [addr|]; [split; [done|right; by exists addr]|by auto]. Qed.

Lemma leaves_err {A} (before : list (Z * Z)) (ok : A -> list (Z * Z) -> Prop) (err : list (Z * Z) -> Prop) :
  err before -> leaves before (run_outcome Err) ok err.
Proof using.
  intros He st. split; [done|]. exists [], before. cbn. rewrite !app_nil_r. by split; [|split].
Qed.

Lemma leaves_ret {A} (before : list (Z * Z)) (a : A) (ok : A -> list (Z * Z) -> Prop) (err : list (Z * Z) -> Prop) :
  ok a before -> leaves before (mret a) ok err.
Proof using. intros Ho st. split; [done|]. exists [], before. cbn. rewrite !app_nil_r. by split; [|split]. Qed.

(** A step that maps nothing, before the others. *)
Lemma leaves_step {A B} (before : list (Z * Z)) (m : run A) (f : A -> run B) (ok : B -> list (Z * Z) -> Prop) (err : list (Z * Z) -> Prop) :
  maps_nothing m -> err before -> (forall a, leaves before (f a) ok err) -> leaves before (m ≫= f) ok err.
Proof using.
  intros Hm He Hf. apply (leaves_then _ _ _ (fun _ k => k = before)); [by apply leaves_nothing|]. intros a kept ->. apply Hf.
Qed.

Lemma nothing_set_image (addr : Z) (img : image) : maps_nothing (set_image addr img).
Proof using. by apply nothing_same. Qed.

Lemma nothing_vdso_protect (mapping : Z) (l : list elf_phdr) : maps_nothing (each (vdso_protect mprotect_fails mapping) l).
Proof using.
  apply nothing_each. intros p. unfold vdso_protect. destruct (negb _); [apply nothing_ret|]. destruct (vdso_segment_pages p).
  apply nothing_bind; [by apply nothing_event|]. intros _. destruct (mprotect_fails _ _ _); [apply nothing_outcome|apply nothing_ret].
Qed.

(** A step that cannot fail. *)
Lemma leaves_outcome {A B} (before : list (Z * Z)) (o : outcome A) (f : A -> run B) (ok : B -> list (Z * Z) -> Prop)
    (err : list (Z * Z) -> Prop) :
  o <> Err -> (forall a, leaves before (f a) ok err) -> leaves before (run_outcome o ≫= f) ok err.
Proof using.
  intros Ho Hf. apply (leaves_then _ _ _ (fun _ k => k = before)); [|by intros a kept ->].
  intros st. split; [done|]. exists [], before. cbn. rewrite !app_nil_r. do 2 (split; [done|]). by destruct o.
Qed.

Lemma bind_not_err {A B} (m : outcome A) (f : A -> outcome B) : m <> Err -> (forall a, f a <> Err) -> (m ≫= f) <> Err.
Proof using. destruct m; cbn; auto. Qed.

Lemma read_bytes_not_err (img : image) (off : Z) (n : nat) : read_bytes img off n <> Err.
Proof using. unfold read_bytes. destruct (_ && _); done. Qed.

Lemma read_phdr_not_err (data : image) (off : Z) : read_phdr data off <> Err.
Proof using.
  unfold read_phdr, read_u32_le, read_u64_le.
  repeat (apply bind_not_err; [try (apply bind_not_err; [apply read_bytes_not_err|done])|intros ?]). done.
Qed.

Lemma each_phdr_not_err {B} (data : image) (ehdr : elf_ehdr) (f : elf_phdr -> B -> outcome B) :
  (forall p acc, f p acc <> Err) -> forall acc, each_phdr data ehdr f acc <> Err.
Proof using.
  intros Hf. unfold each_phdr. generalize (Z.to_nat (e_phnum ehdr)), 0. induction n as [|n IH]; intros i acc; [done|]. cbn [phdr_loop].
  apply bind_not_err; [apply read_phdr_not_err|]. intros p. apply bind_not_err; [apply Hf|]. intros acc'. apply IH.
Qed.

Lemma vdso_copy_not_err (data : image) (p : elf_phdr) (img : image) : vdso_copy data p img <> Err.
Proof using.
  unfold vdso_copy. destruct (_ || _); [done|]. apply bind_not_err; [apply read_bytes_not_err|]. intros bytes. by destruct (_ >? _).
Qed.

Lemma vdso_image_leaves (before : list (Z * Z)) (data : image) :
  leaves before (vdso_image mmap mprotect_fails data) (fun r kept => exists size, kept ≡ₚ (r.1, size) :: before) (fun kept => kept ≡ₚ before).
Proof using.
  unfold vdso_image. destruct (_ <? _); [by apply leaves_err|]. apply leaves_step; [apply nothing_outcome|done|]. intros ehdr.
  destruct (_ || _); [by apply leaves_err|]. apply leaves_step; [apply nothing_outcome|done|]. intros [lo hi].
  destruct (_ || _); [by apply leaves_err|].
  apply (leaves_then _ _ _ (fun r kept => kept ≡ₚ option_list ((fun addr => (addr, hi)) <$> r) ++ before)).
  { apply leaves_map. intros st. apply map_image_maps. }
  intros [mapping|] kept Hk; [|by apply leaves_err]. cbn in Hk.
  apply leaves_outcome; [apply each_phdr_not_err, vdso_copy_not_err|]. intros img.
  apply (leaves_then _ _ _ (fun _ k => k = kept)).
  { intros st. split; [done|]. exists [], kept. cbn. by rewrite !app_nil_r. }
  intros _ ? ->. apply leaves_outcome; [by destruct (lookup_elf_dynsym_value_by_section _ _)|]. intros sig.
  apply leaves_outcome; [by apply each_phdr_not_err|]. intros l. apply (leaves_then _ _ _ (fun _ k => k = kept)).
  - apply leaves_cleanup with (fun k => k = kept); [by apply leaves_nothing; [apply nothing_vdso_protect|..]|].
    intros ? ->. apply leaves_unmap with mapping hi; done.
  - intros _ ? ->. apply leaves_ret. by exists hi.
Qed.

Lemma vdso_leaves (before : list (Z * Z)) (file : vdso_file) :
  leaves before (map_process_aarch64_vdso mmap mprotect_fails file)
    (fun r kept => exists vdso, kept ≡ₚ option_list vdso ++ before) (fun kept => kept ≡ₚ before).
Proof using.
  destruct file as [| |data]; cbn [map_process_aarch64_vdso]; [apply leaves_ret; by exists None|by apply leaves_err|].
  destruct (_ =? 0); [by apply leaves_err|].
  apply (leaves_then _ _ _ (fun r kept => kept ≡ₚ option_list ((fun addr => (addr, size_of data)) <$> r) ++ before)).
  { apply leaves_map. intros st. apply map_file_maps. }
  intros [addr|] kept Hk; [|by apply leaves_err]. cbn in Hk.
  apply (leaves_then _ _ _ (fun r k => exists size, k ≡ₚ (r.1, size) :: kept)).
  - apply leaves_cleanup with (fun k => k ≡ₚ kept); [apply vdso_image_leaves|]. intros k Hk'.
    apply leaves_unmap with addr (size_of data); [by rewrite Hk', Hk|done].
  - intros r k (size & Hk'). apply (leaves_then _ _ _ (fun _ k => k ≡ₚ (r.1, size) :: before)).
    + apply leaves_unmap with addr (size_of data); [|done]. rewrite Hk', Hk. apply perm_swap.
    + intros _ k' Hk2. apply leaves_ret. exists (Some (r.1, size)). done.
Qed.
End Traffic.

Section Failure.
Context (call_guest : gmap Z image -> Z -> Z -> gmap Z image * Z).
Context (mmap : gmap Z image -> Z -> option Z) (mprotect_fails : Z -> Z -> Z -> bool).
Context (mmap_main : option Z -> Z -> option Z) (host : stub_env) (resolver : option Z) (links fuel : nat).
Context (getenv : list Z -> option (list Z)) (open_vdso : list Z -> vdso_file) (stack_of : stack_host).
Context (scratch_fails slot_fails : bool).

(** A vDSO, which only AArch64 processes have, and the stack. *)
Definition entry_kept (arch : Z) (kept : list (Z * Z)) : Prop :=
  exists vdso stack, kept ≡ₚ option_list vdso ++ option_list ((fun addr => (addr, STACK_SIZE)) <$> stack) /\
    (arch <> POLY_ARCH_AARCH64 -> vdso = None) /\ (stack = None \/ stack = sh_mapping stack_of).

Lemma stack_result_mapping (prog : loaded_program) (request : poly_request) (img base ehdr : Z) (extra_argv : list (list Z)) (m : memory) :
  match build_process_stack stack_of getenv prog request img base ehdr extra_argv m with
  | StackFails given_back => given_back = [] \/ exists m, given_back = [m]
  | StackBuilt _ stack _ => sh_mapping stack_of = Some stack
  end.
Proof using.
  unfold build_process_stack. destruct (sh_mapping stack_of) as [stack|]; [|by left]. destruct (sh_calloc_fails _); [by eauto|].
  cbn zeta. destruct (copy_all_strings _ _ _ _ _ _) as [[[m1 cursor] ss]|]; [|by eauto].
  destruct (stack_hwcap _ _); [|by eauto]. destruct (_ <? _); by eauto.
Qed.

Lemma stack_leaves (before : list (Z * Z)) (r : stack_result) :
  match r with StackFails given_back => given_back = [] \/ exists m, given_back = [m] | _ => True end ->
  leaves before (stack_built r)
    (fun _ kept => match r with StackBuilt _ stack _ => kept ≡ₚ (stack, STACK_SIZE) :: before | _ => False end) (fun kept => kept = before).
Proof using.
  intros Hr st. split; [by destruct r|]. destruct r as [given_back|m stack sp]; cbn [stack_built fst snd ru_log].
  - destruct Hr as [-> | [[a n] ->]]; eexists _, before; (split; [reflexivity|]); cbn; rewrite ?app_nil_r; (split; [|done]); [done|].
    apply Permutation_cons_append.
  - exists [EvMap stack STACK_SIZE], ((stack, STACK_SIZE) :: before). split; [done|]. cbn. split; [|done]. apply Permutation_cons_append.
Qed.

Lemma keeps_tree_tls (arch : Z) : forall n p, keeps (process_tree_has_arch_tls n p arch).
Proof using.
  induction n as [|n IH]; intros p; cbn [process_tree_has_arch_tls]; [apply keeps_outcome|]. apply keeps_bind; [apply keeps_node|].
  intros node. destruct (_ && _); [apply keeps_ret|]. generalize (dep_refs p node). intros refs.
  induction refs as [|d refs IHr]; [apply keeps_ret|]. apply keeps_bind; [apply keeps_dep|]. intros dep. destruct (dp_program dep); [|apply IHr].
  apply keeps_bind; [apply IH|]. intros [|]; [apply keeps_ret|apply IHr].
Qed.

Lemma nothing_tls_base (p : ptr) (prog : loaded_program) (tls : option (Z * Z)) : maps_nothing (x86_tls_base fuel p prog tls).
Proof using.
  unfold x86_tls_base. destruct tls as [[addr size]|]; [|apply nothing_ret]. apply nothing_bind; [|by intros b; apply nothing_ret].
  destruct (_ =? _); [apply nothing_ret|apply nothing_store, keeps_tree_tls].
Qed.

Lemma ready_leaves (p : ptr) (prog : loaded_program) (request : poly_request) (extra_argv : list (list Z)) (m : memory)
    (layout : start_layout) (tls : option (Z * Z)) :
  leaves [] (ready_process mmap mprotect_fails fuel getenv open_vdso stack_of scratch_fails slot_fails p prog request extra_argv m layout tls)
    (fun _ => entry_kept (lp_arch prog)) (entry_kept (lp_arch prog)).
Proof using.
  assert (forall kept, kept ≡ₚ [] -> entry_kept (lp_arch prog) kept) as Hnone.
  { intros kept Hk. exists None, None. by split; [|split; [|left]]. }
  unfold ready_process. apply leaves_step; [destruct scratch_fails; [apply nothing_outcome|apply nothing_ret]|by apply Hnone|]. intros _.
  apply (leaves_then _ _ _ (fun _ k => exists vdso, k ≡ₚ option_list vdso /\ (lp_arch prog <> POLY_ARCH_AARCH64 -> vdso = None))).
  { unfold vdso_for. destruct (Z.eqb_spec (lp_arch prog) POLY_ARCH_AARCH64) as [E|E].
    - eapply leaves_weaken; [apply vdso_leaves| |exact Hnone]. intros r kept (vdso & Hk). exists vdso. by rewrite app_nil_r in Hk.
    - apply leaves_ret. by exists None. }
  intros [ehdr sig] kept (vdso & Hk & Hv). assert (entry_kept (lp_arch prog) kept) as Hbefore.
  { exists vdso, None. rewrite app_nil_r. by split; [|split; [|left]]. }
  pose proof (stack_result_mapping prog request (ly_loaded_image layout) 0 ehdr extra_argv m) as Hs.
  set (r := build_process_stack _ _ _ _ _ _ _ _ _) in *. apply (leaves_then _ _ _ (fun _ => entry_kept (lp_arch prog))).
  { eapply leaves_weaken; [apply stack_leaves; by destruct r| |by intros k ->]. intros a k Hk'. destruct r as [|m' stack sp]; [done|].
    exists vdso, (Some stack). split; [|split; [done|by right]]. cbn. rewrite Hk', Hk. apply Permutation_cons_append. }
  intros [m' sp] k Hk'. apply leaves_step; [apply nothing_tls_base|done|]. intros base.
  destruct (_ && _); [by apply leaves_err|by apply leaves_ret].
Qed.

End Failure.
