(* ===== verification/InterpreterStart.v ===== *)
(** The start of a process through its program interpreter
    ([emit_and_run_process_interpreter] of [tools/runtime/polyexec.c]): the interpreter
    of the file is found and loaded, program and interpreter are mapped without
    relocation, and the process begins in the interpreter, which does the rest in guest
    code.  Parameters are those of [ProcessEntry]. *)

From stdpp Require Import gmap relations strings.
From S2P Require Import Prelude LoaderBase GuestMemory BridgeSpec ElfImage ElfSymbols CodeEmit Trampoline CrossStub StubMachine CrossStubRun TlsHelpers ProcessImage ElfLoad ElfLoadProps LibraryPath ProcessStack ElfDeps DependencyLoad DependencyTree Relocation ProcessLifecycle ProcessOrder LifecycleOrder ProcessCleanup ProcessStart Vdso ProcessEntry.

(** ** Which processes *)

(** What is behind the last slash. *)
Definition after_last_slash (path : list Z) : list Z :=
  match before_last_slash path with None => path | Some dir => drop (S (length dir)) path end.

Definition always_interpreted : list (list Z) :=
  bytes_of_string <$> ["aarch64-real-ls.elf"; "aarch64-real-python3.elf"; "aarch64-process-exception-real.elf";
    "aarch64-process-thread-hash-real.elf"; "aarch64-process-setjmp-real.elf"; "aarch64-process-vdso-time-real.elf";
    "riscv-real-python3.elf"; "riscv-process-exception-real.elf"; "riscv-process-setjmp-real.elf"].

Definition dynamic_libc_programs : list (list Z) :=
  bytes_of_string <$> ["aarch64-process-dynamic-libc-real.elf"; "riscv-process-dynamic-libc-real.elf"].

Definition poly_process_uses_real_interpreter (getenv : list Z -> option (list Z)) (prog : loaded_program) (symbol : list Z)
    (extra_argv : list (list Z)) : bool :=
  if negb (lp_has_interp prog) || negb (bool_decide (symbol = [])) then false
  else if bool_decide (getenv (bytes_of_string "POLY_PROCESS_REAL_INTERPRETER") = Some (bytes_of_string "1")) then true
  else
    let base := after_last_slash (lp_path prog) in
    if bool_decide (base ∈ always_interpreted) then true
    else if negb (bool_decide (extra_argv = [bytes_of_string "dynamic-libc"])) then false
    else bool_decide (base ∈ dynamic_libc_programs).

(** The interpreter: its own path if it is readable, else a copy beside the program. *)
Definition resolve_process_interpreter_path (accessible : list Z -> bool) (prog : loaded_program) (out_size : Z) : option (list Z) :=
  let interp := c_str (lp_interp_path prog) in
  if negb (lp_has_interp prog) || bool_decide (interp = []) then None
  else if (Z.of_nat (length interp) <? out_size) && accessible interp then Some interp
  else
    let arch_dir := bytes_of_string (if lp_arch prog =? POLY_ARCH_AARCH64 then "aarch64"
                                     else if lp_arch prog =? POLY_ARCH_RISCV then "riscv64" else "x86_64") in
    let out := origin_dir (lp_path prog) ++ bytes_of_string "/processdeps/" ++ arch_dir ++ [SLASH] ++ after_last_slash interp in
    if Z.of_nat (length out) + 1 >? out_size then None
    else if accessible out then Some out else None.

(** ** Images *)

(** The offsets of the image, the trampoline and the return page, and the size. *)
Definition exec_image_layout (prog : loaded_program) (include_control : bool) : option image_layout :=
  let image_mapping_size := align_up_u64 (code_size (lp_header prog)) 0x1000 in
  let fixed := lp_is_et_exec prog in
  if (image_mapping_size =? 0) || (image_mapping_size >? SIZE_MAX) ||
     (negb fixed && (image_mapping_size >? SIZE_MAX - load_base_offset)) then None
  else
    let image_offset := if fixed then 0 else load_base_offset in
    let mapping_size := image_offset + image_mapping_size in
    if include_control && (poly_trampoline_prefix_size (lp_arch prog) =? 0) then None
    else if include_control && (mapping_size >? SIZE_MAX - 8192) then None
    else
      let control_offset := if include_control then mapping_size else 0 in
      let return_page_offset := if include_control then u64 (control_offset + 4096) else 0 in
      let mapping_size := if include_control then mapping_size + 8192 else mapping_size in
      if fixed && ((base_vaddr (lp_header prog) >? UINT64_MAX) || (mapping_size >? UINT64_MAX - base_vaddr (lp_header prog))) then None
      else Some (MkImageLayout image_offset control_offset return_page_offset return_page_offset mapping_size).

(** The bytes of the mapping, zero before. *)
Definition place_exec_image (prog : loaded_program) (include_control : bool) (l : image_layout) (addr : Z) : code_page :=
  let p := emit_at (MkPage addr (replicate (Z.to_nat (il_mapping_size l)) 0) (il_image_offset l)) (lp_code_bytes prog) in
  if include_control then emit_at (seek p (il_process_return_page_offset l)) (exit_code (lp_arch prog)) else p.

(** Where an image is: mapping, size, image, trampoline and return address. *)
Record exec_image : Type := MkExecImage {
  xi_mapping : Z;
  xi_mapping_size : Z;
  xi_loaded_image : Z;
  xi_code : Z;
  xi_return_pc : Z;
}.

Section Interpreter.
Context (mmap : gmap Z image -> Z -> option Z) (mprotect_fails : Z -> Z -> Z -> bool).
Context (mmap_main : option Z -> Z -> option Z) (files : list Z -> option image) (calloc_fails : Z -> bool) (accessible : list Z -> bool).
Context (getenv : list Z -> option (list Z)) (open_vdso : list Z -> vdso_file) (stack_of : stack_host).

Definition unmap_exec_image (i : exec_image) : run unit := unmap_main (xi_mapping i) (xi_mapping_size i) (xi_loaded_image i).

Definition map_process_exec_image (prog : loaded_program) (include_control : bool) : run exec_image :=
  let base := base_vaddr (lp_header prog) in
  match exec_image_layout prog include_control with
  | None => run_outcome Err
  | Some l =>
      match mmap_main (if lp_is_et_exec prog then Some base else None) (il_mapping_size l) with
      | None => run_outcome Err
      | Some mapping =>
          let i := MkExecImage mapping (il_mapping_size l) (u64 (mapping + il_image_offset l))
                     (if include_control then u64 (mapping + il_control_offset l) else 0)
                     (if include_control then u64 (mapping + il_process_return_page_offset l) else 0) in
          log_event (EvMap mapping (il_mapping_size l));;
          if lp_is_et_exec prog && negb (mapping =? base) then unmap_exec_image i;; run_outcome Err
          else
            let page := place_exec_image prog include_control l mapping in
            set_image (xi_loaded_image i)
              (take (Z.to_nat (code_size (lp_header prog))) (drop (Z.to_nat (il_image_offset l)) (page_bytes page)));;
            or_cleanup (protect_load_segments mprotect_fails prog (xi_loaded_image i)) (unmap_exec_image i);;
            mret i
      end
  end.

(** The thread-local storage of the interpreter, which has no dependencies. *)
Definition interpreter_tls (interp : loaded_program) (loaded_interp : Z) : run (option (Z * Z)) :=
  let '(reserved, size) := reserve_process_tls_tree 1 root_ptr 0 (only_program interp) in
  size ← run_outcome size;
  process_tls ← map_tls mmap size;
  match process_tls with
  | None => mret None
  | Some (addr, size) =>
      or_cleanup
        (node ← run_outcome (get_node root_ptr reserved).2;
         img ← on_images (get_image loaded_interp);
         tls ← on_images (get_image addr);
         tls ← run_outcome (copy_process_tls_image node img tls);
         set_image addr tls) (unmap_image addr size);;
      mret process_tls
  end.

(** The finalizers of the process are the interpreter's business. *)
Definition emit_and_run_process_interpreter (p : ptr) (prog : loaded_program) (request : poly_request) (extra_argv : list (list Z))
    (m : memory) : run process_entry :=
  match resolve_process_interpreter_path accessible prog MAX_DEP_PATH with
  | None => run_outcome Err
  | Some interp_path =>
      interp ← run_outcome (load_elf_program files calloc_fails interp_path []);
      if negb (lp_arch interp =? lp_arch prog) then run_outcome Err
      else
        main ← map_process_exec_image prog false;
        or_cleanup
          (image ← map_process_exec_image interp true;
           or_cleanup
             (let entry_pc := u64 (xi_loaded_image image + lp_entry_offset interp) in
              let trampoline := emit_poly_trampoline (lp_arch interp) (xi_code image) (poly_trampoline_prefix_size (lp_arch prog))
                                  (xi_return_pc image) entry_pc true in
              (if snd trampoline <? 0 then run_outcome Err else mret tt);;
              process_tls ← interpreter_tls interp (xi_loaded_image image);
              or_cleanup
                (vdso ← vdso_for mmap mprotect_fails getenv open_vdso (lp_arch prog);
                 built ←
                   stack_built (build_process_stack stack_of getenv prog request (xi_loaded_image main)
                     (u64 (xi_loaded_image image - base_vaddr (lp_header interp))) vdso.1 extra_argv m);
                 mret (MkEntry (xi_code image) built.2 process_tls 0 0 built.1 vdso.2
                         (MkExitFinalizers p (xi_loaded_image main) true false false false)))
                (unmap_tls process_tls))
             (unmap_exec_image image))
          (unmap_exec_image main)
  end.
End Interpreter.

(** ** What stays mapped *)

Section Failure.
Context (mmap : gmap Z image -> Z -> option Z) (mprotect_fails : Z -> Z -> Z -> bool).
Context (mmap_main : option Z -> Z -> option Z) (files : list Z -> option image) (calloc_fails : Z -> bool) (accessible : list Z -> bool).
Context (getenv : list Z -> option (list Z)) (open_vdso : list Z -> vdso_file) (stack_of : stack_host).

Lemma leaves_mapped (before : list (Z * Z)) (addr size : Z) (err : list (Z * Z) -> Prop) :
  leaves before (log_event (EvMap addr size)) (fun _ kept => kept ≡ₚ (addr, size) :: before) err.
Proof using.
  intros st. split; [done|]. exists [EvMap addr size], ((addr, size) :: before). split; [done|]. cbn. split; [|done].
  apply Permutation_cons_append.
Qed.

Lemma exec_image_leaves (before : list (Z * Z)) (prog : loaded_program) (include_control : bool) :
  leaves before (map_process_exec_image mprotect_fails mmap_main prog include_control)
    (fun i kept => kept ≡ₚ (xi_mapping i, xi_mapping_size i) :: before) (fun kept => kept ≡ₚ before).
Proof using.
  unfold map_process_exec_image. destruct (exec_image_layout _ _) as [l|]; [|by apply leaves_err].
  destruct (mmap_main _ _) as [mapping|]; [|by apply leaves_err]. cbn zeta. eapply leaves_then; [apply leaves_mapped|].
  intros ? kept Hk. cbn beta in Hk. set (i := MkExecImage _ _ _ _ _).
  assert (leaves kept (unmap_exec_image i) (fun _ k => k ≡ₚ before) (fun k => k ≡ₚ before)) as Hu.
  { by apply leaves_unmap with mapping (il_mapping_size l). }
  destruct (_ && _).
  { eapply leaves_then; [exact Hu|]. intros ? k Hk'. by apply leaves_err. }
  apply (leaves_then _ _ _ (fun _ k => k = kept)).
  { intros st. split; [done|]. exists [], kept. cbn. by rewrite !app_nil_r. }
  intros _ ? ->. apply (leaves_then _ _ _ (fun _ k => k = kept)); [|intros _ ? ->; by apply leaves_ret].
  apply leaves_cleanup with (fun k => k = kept); [by apply leaves_nothing; [apply nothing_protect_segments|..]|]. by intros ? ->.
Qed.

Lemma interpreter_tls_leaves (before : list (Z * Z)) (interp : loaded_program) (img : Z) :
  leaves before (interpreter_tls mmap interp img) (fun tls kept => kept ≡ₚ option_list tls ++ before) (fun kept => kept ≡ₚ before).
Proof using.
  unfold interpreter_tls. destruct (reserve_process_tls_tree _ _ _ _) as [reserved size].
  apply leaves_step; [apply nothing_outcome|done|]. intros n.
  apply (leaves_then _ _ _ (fun tls kept => kept ≡ₚ option_list tls ++ before)).
  { unfold map_tls. destruct (_ =? 0); [by apply leaves_ret|].
    eapply leaves_then; [apply leaves_map; intros st; apply map_image_maps|]. intros [addr|] kept Hk; [by apply leaves_ret|by apply leaves_err]. }
  intros [[addr len]|] kept Hk; [|by apply leaves_ret]. apply (leaves_then _ _ _ (fun _ k => k = kept)); [|intros _ ? ->; by apply leaves_ret].
  apply leaves_cleanup with (fun k => k = kept); [|intros ? ->; by apply leaves_unmap with addr len].
  apply leaves_nothing; [|done|done]. apply nothing_bind; [apply nothing_outcome|]. intros node.
  do 2 (apply nothing_bind; [apply nothing_images|intros ?]). apply nothing_bind; [apply nothing_outcome|]. intros tls. apply nothing_set_image.
Qed.

(** What the entry of a process keeps, besides what was there. *)
Definition kept_over (arch : Z) (before kept : list (Z * Z)) : Prop := exists e, entry_kept stack_of arch e /\ kept ≡ₚ e ++ before.

Lemma kept_over_none (arch : Z) (before kept : list (Z * Z)) : kept ≡ₚ before -> kept_over arch before kept.
Proof using. intros Hk. exists []. split; [|done]. exists None, None. by split; [|split; [|left]]. Qed.

Lemma kept_over_unmap (arch : Z) (before kept rest : list (Z * Z)) (c : run unit) (addr size : Z) :
  before ≡ₚ (addr, size) :: rest -> kept_over arch before kept ->
  (forall st, ru_store (c st).1 = ru_store st /\ ru_log (c st).1 = ru_log st ++ [EvUnmap addr size] /\ (c st).2 = Ok tt) ->
  leaves kept c (fun _ => kept_over arch rest) (kept_over arch rest).
Proof using.
  intros Hb (e & He & Hk) Hc. eapply leaves_weaken; [apply (leaves_unmap _ (e ++ rest) _ addr size (fun _ => False)); [|exact Hc]|..].
  - rewrite Hk, Hb. symmetry. apply Permutation_middle.
  - intros ? k Hk'. by exists e.
  - done.
Qed.

Lemma entry_leaves {A} (before : list (Z * Z)) (prog : loaded_program) (r : Z -> stack_result) (f : Z * option Z -> memory * Z -> A) :
  (forall ehdr, match r ehdr with
     | StackFails given_back => given_back = [] \/ exists m, given_back = [m]
     | StackBuilt _ stack _ => sh_mapping stack_of = Some stack
     end) ->
  leaves before
    (vdso ← vdso_for mmap mprotect_fails getenv open_vdso (lp_arch prog); built ← stack_built (r vdso.1); mret (f vdso built))
    (fun _ => kept_over (lp_arch prog) before) (kept_over (lp_arch prog) before).
Proof using.
  intros Hr. apply (leaves_then _ _ _ (fun _ k => exists vdso, k ≡ₚ option_list vdso ++ before /\ (lp_arch prog <> POLY_ARCH_AARCH64 -> vdso = None))).
  { unfold vdso_for. destruct (Z.eqb_spec (lp_arch prog) POLY_ARCH_AARCH64) as [E|E].
    - eapply leaves_weaken; [apply vdso_leaves| |apply kept_over_none]. intros a kept (vdso & Hk). by exists vdso.
    - apply leaves_ret. by exists None. }
  intros a kept (vdso & Hk & Hv). assert (kept_over (lp_arch prog) before kept) as Hbefore.
  { exists (option_list vdso). split; [|done]. exists vdso, None. cbn. rewrite app_nil_r. by split; [|split; [|left]]. }
  specialize (Hr a.1). apply (leaves_then _ _ _ (fun _ => kept_over (lp_arch prog) before)); [|intros b k Hk'; by apply leaves_ret].
  eapply leaves_weaken; [apply stack_leaves; by destruct (r a.1)| |by intros k ->]. intros b k Hk'. destruct (r a.1) as [|m' stack sp]; [done|].
  exists (option_list vdso ++ [(stack, STACK_SIZE)]). split.
  - exists vdso, (Some stack). split; [done|]. split; [done|by right].
  - rewrite Hk', Hk, <- app_assoc. cbn. apply Permutation_middle.
Qed.

(** A process that cannot be started through its interpreter leaves nothing mapped
    but, when a later step fails, the vDSO and the stack: program, interpreter and
    thread-local storage are given back, each once, and the tree of programs does not
    change. *)
Theorem failed_interpreter_gives_back (p : ptr) (prog : loaded_program) (request : poly_request) (extra_argv : list (list Z)) (m : memory)
    (st st' : run_state) :
  emit_and_run_process_interpreter mmap mprotect_fails mmap_main files calloc_fails accessible getenv open_vdso stack_of
    p prog request extra_argv m st = (st', Err) ->
  ru_store st' = ru_store st /\ exists block kept, ru_log st' = ru_log st ++ block /\ unmaps_of block ++ kept ≡ₚ maps_of block /\
    entry_kept stack_of (lp_arch prog) kept.
Proof using.
  intros H. assert (leaves [] (emit_and_run_process_interpreter mmap mprotect_fails mmap_main files calloc_fails accessible getenv open_vdso stack_of
    p prog request extra_argv m) (fun _ _ => True) (kept_over (lp_arch prog) [])) as L.
  { unfold emit_and_run_process_interpreter. destruct (resolve_process_interpreter_path _ _ _) as [path|]; [|by apply leaves_err, kept_over_none].
    apply leaves_step; [apply nothing_outcome|by apply kept_over_none|]. intros interp.
    destruct (negb _); [by apply leaves_err, kept_over_none|].
    eapply leaves_then; [eapply leaves_weaken; [apply exec_image_leaves|intros i k Hk; exact Hk|apply kept_over_none]|]. intros main k1 Hk1.
    apply leaves_cleanup with (kept_over (lp_arch prog) k1); [|intros kept Hk; eapply kept_over_unmap; [exact Hk1|exact Hk|done]].
    eapply leaves_then; [eapply leaves_weaken; [apply exec_image_leaves|intros i k Hk; exact Hk|apply kept_over_none]|]. intros image k2 Hk2.
    apply leaves_cleanup with (kept_over (lp_arch prog) k2); [|intros kept Hk; eapply kept_over_unmap; [exact Hk2|exact Hk|done]]. cbn zeta.
    apply leaves_step; [destruct (_ <? 0); [apply nothing_outcome|apply nothing_ret]|by apply kept_over_none|]. intros _.
    eapply leaves_then; [eapply leaves_weaken; [apply interpreter_tls_leaves|intros i k Hk; exact Hk|apply kept_over_none]|]. intros tls k3 Hk3.
    apply leaves_cleanup with (kept_over (lp_arch prog) k3).
    - eapply leaves_weaken; [apply (entry_leaves k3 prog (fun ehdr => build_process_stack _ _ _ _ _ _ ehdr _ _))|done|done].
      intros ehdr. apply stack_result_mapping.
    - intros kept Hk. destruct tls as [[addr size]|]; [eapply kept_over_unmap; [exact Hk3|exact Hk|done]|]. apply leaves_ret. destruct Hk as (e & He & Hk).
      exists e. split; [done|]. by rewrite Hk, Hk3. }
  destruct (L st) as (S1 & block & kept & L1 & P1 & K1). rewrite H in S1, L1, K1. cbn [fst snd app] in *. destruct K1 as (e & He & Hk).
  split; [done|]. exists block, e. split; [done|]. rewrite app_nil_r in Hk. split; [by rewrite <- Hk|done].
Qed.
End Failure.

(** ** The mapping of an interpreter *)

Lemma exec_layout_shape (prog : loaded_program) (l : image_layout) : 0 <= code_size (lp_header prog) < 2 ^ 63 ->
  exec_image_layout prog true = Some l -> exists size, code_size (lp_header prog) <= size < 2 ^ 63 + 4096 /\
    let offset := if lp_is_et_exec prog then 0 else load_base_offset in
    l = MkImageLayout offset (offset + size) (offset + size + 4096) (offset + size + 4096) (offset + size + 8192).
Proof.
  intros Hc. unfold exec_image_layout. destruct (align_up_page (code_size (lp_header prog))) as [Hs Hm]; [lia..|].
  set (size := align_up_u64 _ _) in *. destruct (_ || _); [done|]. cbn [andb]. destruct (_ =? 0); [done|]. destruct (_ >? _); [done|].
  destruct (_ && _); [done|]. intros [= <-]. exists size. split; [lia|]. unfold load_base_offset.
  destruct (lp_is_et_exec prog); rewrite wrap_small by (unfold in_width; lia); done.
Qed.

(** The image of an interpreter, the room of its trampoline and the exit code do not
    touch; the return page is next to the trampoline, so that it is always in reach. *)
Theorem interpreter_image_placed (prog : loaded_program) (l : image_layout) (addr target : Z) :
  code_size (lp_header prog) = Z.of_nat (length (lp_code_bytes prog)) -> code_size (lp_header prog) < 2 ^ 63 ->
  exec_image_layout prog true = Some l ->
  let p := place_exec_image prog true l addr in
  Z.of_nat (length (page_bytes p)) = il_mapping_size l /\
  holds_at (page_bytes p) (il_image_offset l) (lp_code_bytes prog) /\
  holds_at (page_bytes p) (il_control_offset l) (replicate (Z.to_nat (poly_trampoline_prefix_size (lp_arch prog))) 0) /\
  holds_at (page_bytes p) (il_process_return_page_offset l) (exit_code (lp_arch prog)) /\
  trampoline_reaches POLY_ARCH_AARCH64 (addr + il_control_offset l) (addr + il_process_return_page_offset l) target.
Proof.
  intros Hc Hlt Hl. apply exec_layout_shape in Hl as (size & Hs & El); [|lia]. unfold place_exec_image, load_base_offset in *.
  set (offset := if lp_is_et_exec prog then 0 else 4096) in El. assert (0 <= offset <= 4096) as Ho by (unfold offset; destruct (lp_is_et_exec prog); lia).
  cbn zeta in El. subst l. cbn [il_image_offset il_control_offset il_process_return_page_offset il_mapping_size].
  pose proof (prefix_small (lp_arch prog)) as Hp. pose proof (exit_code_length (lp_arch prog)) as Hx.
  set (room := replicate (Z.to_nat (poly_trampoline_prefix_size (lp_arch prog))) 0).
  assert (Z.of_nat (length room) = poly_trampoline_prefix_size (lp_arch prog)) as Hroom by (unfold room; rewrite length_replicate; lia).
  set (total := offset + size + 8192).
  assert (filled total (MkPage addr (replicate (Z.to_nat total) 0) offset) [(offset + size, room)]) as F0.
  { split; [cbn [page_bytes]; rewrite length_replicate; lia|]. constructor; [|constructor]. cbn [fst snd page_bytes].
    split; [lia|apply holds_at_zero; unfold total; lia]. }
  apply (filled_emit _ _ (lp_code_bytes prog)) in F0; cbn [page_offset] in *; [|unfold total; lia..|constructor; [right; cbn [fst]; lia|constructor]].
  set (p0 := emit_at _ _) in *.
  assert (filled total (seek p0 (offset + size + 4096)) [(offset, lp_code_bytes prog); (offset + size, room)]) as F1 by exact F0.
  apply (filled_emit _ _ (exit_code (lp_arch prog))) in F1; cbn [seek page_offset] in *;
    [|unfold total; lia..|constructor; [left; cbn [fst snd]; lia|constructor; [left; cbn [fst snd]; lia|constructor]]].
  destruct F1 as [Hlen Hall]. rewrite !Forall_cons in Hall. destruct Hall as ([_ Hexit] & [_ Himg] & [_ Hfree] & _).
  split_and!; try done. right; left. split; [done|].
  pose proof (penter_size (addr + (offset + size)) POLY_ARCH_AARCH64). cbn zeta. lia.
Qed.
