(* ===== verification/TlsLayout.v ===== *)
(** Thread-local storage over the tree of programs ([ProcessLifecycle]): one range for
    every program of the process, in the order of the walk. *)

From stdpp Require Import gmap relations.
From S2P Require Import Prelude LoaderBase BridgeSpec ElfImage ElfSymbols CodeEmit Trampoline CrossStub TlsHelpers ElfLoad LibraryPath ElfDeps DependencyLoad DependencyTree Relocation ProcessLifecycle ProcessOrder LifecycleOrder ProcessCleanup ProcessStart.

(** ** The programs in the order of the walk *)

Fixpoint pre_order (n : nat) (s : process) (p : ptr) : list ptr :=
  match n with
  | O => []
  | S n' =>
      match shape s p with
      | None => []
      | Some (_, deps) =>
          p :: concat ((fun d => match own_program s d with Some q => pre_order n' s q | None => [] end) <$>
                       ((fun i => (p, i)) <$> seq 0 (length deps)))
      end
  end.

(** The programs below some dependencies. *)
Definition below (n : nat) (s : process) (refs : list dep_ref) : list ptr :=
  concat ((fun d => match own_program s d with Some q => pre_order n s q | None => [] end) <$> refs).

Definition tls_block (s : process) (q : ptr) : Z * Z :=
  match prog_at s q with Some prog => (tls_memsz (lp_tls prog), tls_align (lp_tls prog)) | None => (0, 0) end.

Definition tls_offset_at (s : process) (q : ptr) : option Z := nd_tls_offset <$> ps_nodes s !! q.

Lemma own_program_fits (n : nat) (s : process) (p : ptr) (prog : loaded_program) (deps : list (option ptr * option dep_ref))
    (i : nat) (q : ptr) : shape s p = Some (prog, deps) ->
  Forall (fun dep => match dep with (Some q, None) => fits n s q | (None, None) => False | _ => True end) deps ->
  own_program s (p, i) = Some q -> fits n s q /\ owns s p q /\ deps !! i = Some (Some q, None).
Proof.
  intros E Hf Ho. unfold own_program in Ho. cbn in Ho. rewrite E in Ho.
  destruct (deps !! i) as [[[q'|] [d|]]|] eqn:Ei; try done. injection Ho as ->. split_and!; [|by exists prog, deps, i|done].
  by apply (Forall_lookup_1 _ _ _ _ Hf Ei).
Qed.

Lemma pre_order_below (n : nat) (s : process) : forall p r, fits n s p -> r ∈ pre_order n s p <-> rtc (owns s) p r.
Proof.
  induction n as [|n IH]; intros p r; [done|]. intros (prog & deps & E & Hf). cbn [pre_order]. rewrite E, elem_of_cons.
  rewrite list_elem_of_In, in_concat. split.
  - intros [->|(l & Hl%list_elem_of_In & Hr%list_elem_of_In)]; [done|]. apply list_elem_of_fmap in Hl as (d & -> & Hd).
    apply list_elem_of_fmap in Hd as (i & -> & _). destruct (own_program s (p, i)) as [q|] eqn:Ho; [|by apply elem_of_nil in Hr].
    destruct (own_program_fits _ _ _ _ _ _ _ E Hf Ho) as (Hq & Hown & _). eapply rtc_l; [done|]. by apply IH.
  - intros [->|(q & (prog' & deps' & i & E' & Hi) & Hr)]%rtc_inv; [by left|]. rewrite E in E'. injection E' as <- <-. right.
    exists (pre_order n s q). split; [|apply list_elem_of_In, IH; [by apply (Forall_lookup_1 _ _ _ _ Hf Hi)|done]].
    apply list_elem_of_In, list_elem_of_fmap. exists (p, i). split.
    + unfold own_program. cbn. by rewrite E, Hi.
    + apply list_elem_of_fmap. exists i. split; [done|]. apply elem_of_seq. apply lookup_lt_Some in Hi. lia.
Qed.

Section Once.
  Context (files : list Z -> option image) (calloc_fails : Z -> bool) (s : process).
  Context (W : tree_wf files calloc_fails s).

Lemma pre_order_once (n : nat) : forall p, fits n s p -> NoDup (pre_order n s p).
Proof using W.
  induction n as [|n IH]; intros p; [done|]. intros (prog & deps & E & Hf). cbn [pre_order]. rewrite E.
  set (piece := fun d => match own_program s d with Some q => pre_order n s q | None => [] end).
  assert (forall i l r, (piece <$> ((fun i => (p, i)) <$> seq 0 (length deps))) !! i = Some l -> r ∈ l ->
    exists q, deps !! i = Some (Some q, None) /\ rtc (owns s) q r) as Hin.
  { intros i l r Hl Hr. rewrite !list_lookup_fmap in Hl. destruct (seq 0 (length deps) !! i) as [j|] eqn:Ej; [|done].
    apply lookup_seq in Ej as [-> _]. cbn in Hl. injection Hl as <-. unfold piece in Hr.
    destruct (own_program s (p, i)) as [q|] eqn:Ho; [|by apply elem_of_nil in Hr].
    destruct (own_program_fits _ _ _ _ _ _ _ E Hf Ho) as (Hq & _ & Hi). exists q. split; [done|]. by apply pre_order_below in Hr. }
  apply NoDup_cons. split.
  - intros (l & Hl%list_elem_of_In & Hp%list_elem_of_In)%list_elem_of_In%in_concat. apply list_elem_of_lookup_1 in Hl as [i Hl].
    destruct (Hin i l p Hl Hp) as (q & Hi & Hr). pose proof (below_up _ _ s W _ _ Hr).
    pose proof (owns_up _ _ s W p q ltac:(by exists prog, deps, i)). lia.
  - apply NoDup_concat_lookup.
    + apply Forall_fmap, Forall_fmap, Forall_forall. intros i _. cbn. unfold piece.
      destruct (own_program s (p, i)) as [q|] eqn:Ho; [|constructor]. apply IH. by apply (own_program_fits _ _ _ _ _ _ _ E Hf Ho).
    + intros i j l l' r Hl Hl' Hr Hr'. destruct (Hin _ _ _ Hl Hr) as (q & Hi & Hq), (Hin _ _ _ Hl' Hr') as (q' & Hj & Hq').
      by eapply subtrees_apart.
Qed.
End Once.

Lemma reserve_all_app (b1 b2 : list (Z * Z)) : forall t, reserve_all t (b1 ++ b2) =
  match reserve_all t b1 with
  | None => None
  | Some (t1, r1) => match reserve_all t1 b2 with None => None | Some (t2, r2) => Some (t2, r1 ++ r2) end
  end.
Proof.
  induction b1 as [|[memsz al] b1 IH]; intros t; cbn [reserve_all app]; [by destruct (reserve_all t b2) as [[t2 r2]|]|].
  destruct (reserve_process_tls_range t memsz al) as [[t1 off]|]; [|done]. rewrite IH.
  destruct (reserve_all t1 b1) as [[t2 r1]|]; [|done]. by destruct (reserve_all t2 b2) as [[t3 r2]|].
Qed.

(** ** The walk reserves one range after the other *)

Definition reserved (s : process) (qs : list ptr) (t : Z) (s1 s2 : process) (t' : Z) : Prop :=
  alike s s2 /\ (forall q, q ∉ qs -> tls_offset_at s2 q = tls_offset_at s1 q) /\
  exists ranges, reserve_all t (tls_block s <$> qs) = Some (t', ranges) /\
    Forall2 (fun q r => tls_offset_at s2 q = Some r.1) qs ranges.

Lemma reserved_nil (s s1 : process) (t : Z) : alike s s1 -> reserved s [] t s1 s1 t.
Proof. intros H. split_and!; [done|done|]. by exists []. Qed.

Lemma reserved_app (s s1 s2 s3 : process) (qs qs' : list ptr) (t t1 t2 : Z) : NoDup (qs ++ qs') ->
  reserved s qs t s1 s2 t1 -> reserved s qs' t1 s2 s3 t2 -> reserved s (qs ++ qs') t s1 s3 t2.
Proof.
  intros (_ & Hd & _)%NoDup_app (A1 & O1 & r1 & R1 & F1) (A2 & O2 & r2 & R2 & F2). split_and!; [done| |].
  - intros q Hq. rewrite elem_of_app in Hq. rewrite O2, O1 by tauto. done.
  - exists (r1 ++ r2). split; [by rewrite fmap_app, reserve_all_app, R1, R2|]. apply Forall2_app; [|done].
    clear R1 O1. induction F1 as [|q r qs r1 Hq _ IH]; constructor.
    + rewrite O2; [done|]. apply Hd. by left.
    + apply IH. intros x Hx. apply Hd. by right.
Qed.

Lemma change_node_inv (p : ptr) (f : program_node -> program_node) (s1 s2 : process) :
  change_node p f s1 = (s2, Ok tt) -> exists node, ps_nodes s1 !! p = Some node /\ ps_nodes s2 = <[p := f node]> (ps_nodes s1).
Proof.
  unfold change_node, mbind, ld_bind, get_node, put_node. destruct (ps_nodes s1 !! p) as [node|]; intros [= <-]. by exists node.
Qed.

Lemma change_node_offset (p : ptr) (f : program_node -> program_node) (s1 s2 : process) (q : ptr) :
  change_node p f s1 = (s2, Ok tt) -> tls_offset_at s2 q =
    if decide (q = p) then (fun node => nd_tls_offset (f node)) <$> ps_nodes s1 !! p else tls_offset_at s1 q.
Proof.
  intros (node & E & E2)%change_node_inv. unfold tls_offset_at. rewrite E2. destruct (decide (q = p)) as [->|Hne].
  - by rewrite lookup_insert_eq, E.
  - by rewrite lookup_insert_ne.
Qed.

Lemma each_own_reserved (s : process) (n : nat) (f : ptr -> Z -> ld Z) :
  (forall q t s1 s2 t', fits n s q -> alike s s1 -> f q t s1 = (s2, Ok t') -> reserved s (pre_order n s q) t s1 s2 t') ->
  forall refs t s1 s2 t', Forall (fun d => forall q, own_program s d = Some q -> fits n s q) refs ->
  NoDup (below n s refs) -> alike s s1 -> each_own f refs t s1 = (s2, Ok t') -> reserved s (below n s refs) t s1 s2 t'.
Proof.
  intros Hf. induction refs as [|d refs IH]; intros t s1 s2 t' Hfit Hnd Hs; cbn [each_own].
  { intros [= <- <-]. by apply reserved_nil. }
  intros (dep & s1' & (-> & Hd)%get_dep_inv & H)%ld_bind_ok. apply Forall_cons in Hfit as [Hfit Hrest].
  assert (own_program s d = match dp_shared_from dep with None => dp_program dep | Some _ => None end) as Ho
    by (rewrite (own_program_alike _ _ d Hs); by apply own_program_at).
  change (below n s (d :: refs)) with ((match own_program s d with Some q => pre_order n s q | None => [] end) ++ below n s refs) in *.
  destruct (dp_shared_from dep) as [sf|].
  - rewrite Ho in *. destruct (dp_program dep); by apply IH.
  - rewrite Ho in *. destruct (dp_program dep) as [q|]; [|by apply IH].
    apply ld_bind_ok in H as (t1 & s1' & H1 & H2). apply Hf in H1; [|by apply Hfit|done].
    eapply reserved_app; [done|done|]. apply IH; [done| |by apply H1|done]. by apply NoDup_app in Hnd as (_ & _ & Hnd).
Qed.

Lemma reserve_tree_reserved files calloc_fails (s : process) : tree_wf files calloc_fails s ->
  forall n p t s1 s2 t', fits n s p -> alike s s1 -> reserve_process_tls_tree n p t s1 = (s2, Ok t') ->
  reserved s (pre_order n s p) t s1 s2 t'.
Proof.
  intros W. induction n as [|n IH]; intros p t s1 s2 t' Hfit Hs; [done|].
  pose proof (pre_order_once _ _ s W (S n) p Hfit) as Hnd. destruct Hfit as (prog & deps & E & Hf).
  cbn [pre_order reserve_process_tls_tree] in *. rewrite E in *.
  intros (node & s1' & (-> & Hn)%get_node_inv & H)%ld_bind_ok. cbn zeta in H.
  assert (tls_block s p = (tls_memsz (lp_tls (nd_program node)), tls_align (lp_tls (nd_program node)))) as Hb.
  { unfold tls_block. rewrite (prog_at_alike _ _ p Hs). unfold prog_at. by rewrite Hn. }
  assert (dep_refs p node = (fun i => (p, i)) <$> seq 0 (length deps)) as Hrefs.
  { specialize (Hs p). rewrite E in Hs. unfold shape in Hs. rewrite Hn in Hs. injection Hs as _ ->. unfold dep_refs. by rewrite length_fmap. }
  destruct (reserve_process_tls_range _ _ _) as [[t1 off]|] eqn:Er; [|done].
  apply ld_bind_ok in H as ([] & s3 & H3 & H). apply ld_bind_ok in H as (t2 & s4 & H4 & H). apply ld_bind_ok in H as ([] & s5 & H5 & H).
  injection H as <- <-. pose proof (deps_change p (set_tls_offset off) ltac:(by intros []) s1) as K3. rewrite H3 in K3. cbn in K3.
  pose proof (deps_change p (set_tls_total t2) ltac:(by intros []) s4) as K5. rewrite H5 in K5. cbn in K5.
  assert (reserved s [p] t s1 s3 t1) as R3.
  { split_and!; [etrans; [done|by apply deps_alike]| |].
    - intros q Hq. rewrite (change_node_offset _ _ _ _ q H3). destruct (decide (q = p)) as [->|]; [|done]. by destruct Hq; left.
    - exists [(off, tls_memsz (lp_tls (nd_program node)))]. cbn. rewrite Hb, Er. split; [done|]. constructor; [|constructor].
      rewrite (change_node_offset _ _ _ _ p H3), decide_True, Hn by done. done. }
  rewrite Hrefs in H4. apply (each_own_reserved s n _ IH) in H4.
  - destruct (reserved_app _ _ _ _ [p] (below n s ((fun i => (p, i)) <$> seq 0 (length deps))) _ _ _ Hnd R3 H4) as (A4 & O4 & r4 & E4 & F4).
    assert (forall q, tls_offset_at s5 q = tls_offset_at s4 q) as Hsame.
    { intros q. rewrite (change_node_offset _ _ _ _ q H5). destruct (decide (q = p)) as [->|]; [|done]. unfold tls_offset_at.
      by destruct (ps_nodes s4 !! p). }
    split_and!; [etrans; [done|by apply deps_alike]|intros q Hq; rewrite Hsame; by apply O4|]. exists r4. split; [done|].
    eapply Forall2_impl; [done|]. intros q r Hq. by rewrite Hsame.
  - apply Forall_fmap, Forall_forall. intros i _ q Ho. by apply (own_program_fits _ _ _ _ _ _ _ E Hf Ho).
  - by apply NoDup_cons in Hnd as [_ Hnd].
  - apply R3.
Qed.

Lemma pairs_apart {A} (R : A -> A -> Prop) (l : list A) : ForallOrdPairs R l -> forall i j x y,
  (i < j)%nat -> l !! i = Some x -> l !! j = Some y -> R x y.
Proof.
  induction 1 as [|a l Ha Hl IH]; intros i j x y Hij Hi Hj; [done|]. destruct i as [|i], j as [|j]; try lia.
  - injection Hi as <-. cbn in Hj. rewrite List.Forall_forall in Ha. apply Ha, list_elem_of_In. by eapply list_elem_of_lookup_2.
  - apply (IH i j); [lia|done|done].
Qed.

(** C29: When thread-local storage is laid out for a process, every program of the tree
    that has thread-local variables gets a range of its size and alignment inside the
    total, which is at most 64 KiB, and the ranges of different programs do not overlap;
    the tree itself does not change. *)
Theorem tls_tree_layout files calloc_fails (s s' : process) (p : ptr) (prog : loaded_program) (n : nat) (total : Z) :
  tree_wf files calloc_fails s -> prog_at s p = Some prog -> (Pos.to_nat (ps_next s) <= Pos.to_nat p + n)%nat ->
  (forall q prog, prog_at s q = Some prog -> 0 <= tls_memsz (lp_tls prog) /\ 0 <= tls_align (lp_tls prog)) ->
  reserve_process_tls_tree n p 0 s = (s', Ok total) ->
  alike s s' /\ total <= MAX_PROCESS_TLS_BYTES /\
  (forall q node, rtc (owns s) p q -> ps_nodes s' !! q = Some node ->
     let tls := lp_tls (nd_program node) in
     tls_memsz tls <> 0 -> 0 <= nd_tls_offset node /\ nd_tls_offset node + tls_memsz tls <= total /\
       (0 < tls_align tls -> nd_tls_offset node mod tls_align tls = 0)) /\
  (forall q1 q2 node1 node2, q1 <> q2 -> rtc (owns s) p q1 -> rtc (owns s) p q2 ->
     ps_nodes s' !! q1 = Some node1 -> ps_nodes s' !! q2 = Some node2 ->
     ranges_apart (nd_tls_offset node1, tls_memsz (lp_tls (nd_program node1)))
                  (nd_tls_offset node2, tls_memsz (lp_tls (nd_program node2)))).
Proof.
  intros W Hp Hn Hpos Hres. pose proof (tree_fits _ _ _ W n p prog Hp Hn) as Hfit.
  destruct (reserve_tree_reserved _ _ s W n p 0 s s' total Hfit ltac:(done) Hres) as (Ha & _ & ranges & Hall & Hoff).
  assert (Forall (fun b => 0 <= b.1 /\ 0 <= b.2) (tls_block s <$> pre_order n s p)) as Hb.
  { apply Forall_fmap, Forall_forall. intros q _. cbn. unfold tls_block. destruct (prog_at s q) as [pr|] eqn:E; [by eapply Hpos|done]. }
  destruct (reserve_all_spec _ 0 total ranges ltac:(unfold MAX_PROCESS_TLS_BYTES; lia) Hb Hall) as (Ht & Hin & Hap & Hal).
  assert (forall q node, rtc (owns s) p q -> ps_nodes s' !! q = Some node -> exists i, pre_order n s p !! i = Some q /\
    ranges !! i = Some (nd_tls_offset node, tls_memsz (lp_tls (nd_program node))) /\
    (tls_block s <$> pre_order n s p) !! i = Some (tls_memsz (lp_tls (nd_program node)), tls_align (lp_tls (nd_program node)))) as Hat.
  { intros q node Hq Hnode. apply (pre_order_below n s p q Hfit) in Hq. apply list_elem_of_lookup_1 in Hq as [i Hi].
    assert (tls_block s q = (tls_memsz (lp_tls (nd_program node)), tls_align (lp_tls (nd_program node)))) as Hblock.
    { unfold tls_block. rewrite (prog_at_alike _ _ q Ha). unfold prog_at. by rewrite Hnode. }
    destruct (Forall2_lookup_l _ _ _ _ _ Hoff Hi) as (r & Hr & Hro). exists i.
    assert ((tls_block s <$> pre_order n s p) !! i = Some (tls_block s q)) as Hbi by (by rewrite list_lookup_fmap, Hi).
    split_and!; [done| |by rewrite Hbi, Hblock]. rewrite Hr. f_equal. unfold tls_offset_at in Hro. rewrite Hnode in Hro. injection Hro as ->.
    destruct (Forall2_lookup_lr _ _ _ _ _ _ Hal Hbi Hr) as [Hsz _]. rewrite Hblock in Hsz. cbn in Hsz. rewrite <- Hsz. by destruct r. }
  split_and!; [done|lia| |].
  - intros q node Hq Hnode. cbn zeta. intros Hne. destruct (Hat q node Hq Hnode) as (i & _ & Hr & Hbi).
    destruct (Forall_lookup_1 _ _ _ _ Hin Hr) as (I1 & I2 & I3). destruct (Forall2_lookup_lr _ _ _ _ _ _ Hal Hbi Hr) as [_ Halign].
    cbn in *. split_and!; [lia|lia|by apply Halign].
  - intros q1 q2 node1 node2 Hne H1 H2 N1 N2. destruct (Hat q1 node1 H1 N1) as (i & Hi & Hri & _), (Hat q2 node2 H2 N2) as (j & Hj & Hrj & _).
    destruct (Nat.lt_trichotomy i j) as [Hlt|[->|Hlt]]; [by eapply pairs_apart|by simplify_eq|].
    pose proof (pairs_apart _ _ Hap j i _ _ Hlt Hrj Hri) as Hs. unfold ranges_apart in *. cbn in *. lia.
Qed.
