(* ===== verification/CStruct.v ===== *)
(** The memory layout of C structures: how the values of a C type are laid out
    in little-endian bytes and read back, with combinators for integers,
    arrays, padding and structures.

    A [ctype] describes one C type of a fixed size; the class [Layout] holds the
    laws that make writing a value and reading it back the identity.  The
    instances follow the structure of the description, so that the laws of a
    structure are found by instance search. *)

From S2P Require Import Prelude GuestMemory.

Record ctype (A : Type) : Type := MkCtype {
  c_size : nat;
  c_bytes : A -> list Z;
  c_read : list Z -> A;
  (** the values that a C object of the type can hold *)
  c_ok : A -> Prop;
}.
Arguments MkCtype {A}.
Arguments c_size {A}.
Arguments c_bytes {A}.
Arguments c_read {A}.
Arguments c_ok {A}.

(** The laws.  [layout_ok]: whatever bytes are read, the result is a value of
    the type; [layout_take]: only the bytes of the object are read. *)
Class Layout {A : Type} (c : ctype A) : Prop := {
  layout_length (a : A) : c_ok c a -> length (c_bytes c a) = c_size c;
  layout_range (a : A) : Forall (in_width 8) (c_bytes c a);
  layout_read (a : A) (rest : list Z) : c_ok c a -> c_read c (c_bytes c a ++ rest) = a;
  layout_ok (bs : list Z) :
    Forall (in_width 8) bs -> (c_size c <= length bs)%nat -> c_ok c (c_read c bs);
  layout_take (bs : list Z) : c_read c (take (c_size c) bs) = c_read c bs;
}.

(** ** Scalars *)

(** [uint8_t] to [uint64_t] *)
Definition c_uint (n : nat) : ctype Z :=
  MkCtype n (le_bytes n) (fun bs => le_value (take n bs)) (in_width (8 * Z.of_nat n)).

(** [int32_t] *)
Definition c_int32 : ctype Z :=
  MkCtype 4 (le_bytes 4) (fun bs => signed 32 (le_value (take 4 bs))) (fun v => - 2 ^ 31 <= v < 2 ^ 31).

(** Bytes that nothing reads: written as zeros. *)
Definition c_pad (n : nat) : ctype unit :=
  MkCtype n (fun _ => repeat 0 n) (fun _ => tt) (fun _ => True).

Abbreviation c_u16 := (c_uint 2).
Abbreviation c_u32 := (c_uint 4).
Abbreviation c_u64 := (c_uint 8).

(** ** Aggregates *)

Definition c_pair {A B : Type} (a : ctype A) (b : ctype B) : ctype (A * B) :=
  MkCtype (c_size a + c_size b) (fun v => c_bytes a v.1 ++ c_bytes b v.2)
    (fun bs => (c_read a bs, c_read b (drop (c_size a) bs))) (fun v => c_ok a v.1 /\ c_ok b v.2).

Fixpoint read_array {A : Type} (c : ctype A) (n : nat) (bs : list Z) : list A :=
  match n with
  | O => []
  | S n' => c_read c bs :: read_array c n' (drop (c_size c) bs)
  end.

Definition c_array {A : Type} (n : nat) (c : ctype A) : ctype (list A) :=
  MkCtype (n * c_size c) (flat_map (c_bytes c)) (read_array c n)
    (fun l => length l = n /\ Forall (c_ok c) l).

(** A structure whose fields are listed by [c]. *)
Definition c_struct {A B : Type} (fields : A -> B) (make : B -> A) (c : ctype B) : ctype A :=
  MkCtype (c_size c) (fun a => c_bytes c (fields a)) (fun bs => make (c_read c bs))
    (fun a => c_ok c (fields a)).

Declare Scope cstruct_scope.
Delimit Scope cstruct_scope with cstruct.
Infix "**" := c_pair (at level 40, left associativity) : cstruct_scope.

(** [memset(&v, 0, sizeof(v))] *)
Definition zeroed {A : Type} (c : ctype A) : A := c_read c (repeat 0 (c_size c)).

(** [sizeof] *)
Definition sizeof {A : Type} (c : ctype A) : Z := Z.of_nat (c_size c).

(** ** Laws *)

Lemma sizeof_nonneg {A : Type} (c : ctype A) : 0 <= sizeof c.
Proof. unfold sizeof. lia. Qed.

Lemma take_le_bytes (n : nat) (v : Z) (rest : list Z) : take n (le_bytes n v ++ rest) = le_bytes n v.
Proof. by rewrite take_app_length' by (symmetry; apply le_bytes_length). Qed.

#[export] Instance c_uint_layout (n : nat) : Layout (c_uint n).
Proof.
  split; cbn [c_uint c_size c_bytes c_read c_ok].
  - intros v _. apply le_bytes_length.
  - intros v. apply le_bytes_range.
  - intros v rest Hv. rewrite take_le_bytes, le_value_bytes. by apply wrap_small.
  - intros bs Hbs Hl. unfold in_width.
    pose proof (le_value_range (take n bs) ltac:(by apply Forall_take)) as H.
    by rewrite length_take_le in H by lia.
  - intros bs. by rewrite take_take, Nat.min_id.
Qed.

#[export] Instance c_int32_layout : Layout c_int32.
Proof.
  split; cbn [c_int32 c_size c_bytes c_read c_ok].
  - intros v _. apply le_bytes_length.
  - intros v. apply le_bytes_range.
  - intros v rest Hv. rewrite take_le_bytes, le_value_bytes.
    change (8 * Z.of_nat 4) with 32. unfold signed. rewrite wrap_wrap by lia. unfold wrap.
    change (2 ^ (32 - 1)) with (2 ^ 31).
    destruct (Z_lt_dec v 0).
    + replace (v mod 2 ^ 32) with (v + 2 ^ 32).
      2:{ symmetry. rewrite <- (Z.mod_add v 1) by lia. rewrite Z.mul_1_l. apply Z.mod_small. lia. }
      destruct (Z.ltb_spec (v + 2 ^ 32) (2 ^ 31)); lia.
    + rewrite Z.mod_small by lia. destruct (Z.ltb_spec v (2 ^ 31)); lia.
  - intros bs _ _. unfold signed. pose proof (wrap_range 32 (le_value (take 4 bs)) ltac:(lia)) as H.
    unfold in_width in H. change (2 ^ (32 - 1)) with (2 ^ 31).
    destruct (Z.ltb_spec (u32 (le_value (take 4 bs))) (2 ^ 31)); lia.
  - intros bs. by rewrite take_take.
Qed.

#[export] Instance c_pad_layout (n : nat) : Layout (c_pad n).
Proof.
  split; cbn [c_pad c_size c_bytes c_read c_ok]; [|intros _|by intros []|done|done].
  - intros _ _. apply repeat_length.
  - apply Forall_forall. intros x Hx. apply list_elem_of_In in Hx.
    apply repeat_spec in Hx as ->. unfold in_width. lia.
Qed.

Lemma read_app {A} (c : ctype A) `{!Layout c} (a : A) (rest : list Z) :
  c_ok c a -> drop (c_size c) (c_bytes c a ++ rest) = rest.
Proof. intros Ha. by rewrite drop_app_length' by (symmetry; by apply layout_length). Qed.

#[export] Instance c_pair_layout {A B} (a : ctype A) (b : ctype B) `{!Layout a, !Layout b} : Layout (c_pair a b).
Proof.
  split; cbn [c_pair c_size c_bytes c_read c_ok].
  - intros [x y] [Hx Hy]. cbn. by rewrite length_app, !layout_length.
  - intros [x y]. cbn. apply Forall_app. split; apply layout_range; apply _.
  - intros [x y] rest [Hx Hy]. cbn in *. rewrite <- app_assoc, layout_read, read_app, layout_read by done. done.
  - intros bs Hbs Hl. split; cbn; apply layout_ok; try done; [lia|by apply Forall_drop|].
    rewrite length_drop. lia.
  - intros bs. rewrite <- (layout_take (c := a) (take _ bs)), take_take, Nat.min_l, layout_take by lia.
    rewrite <- (layout_take (c := b) (drop _ (take _ bs))), skipn_firstn_comm, take_take.
    replace (c_size b `min` (c_size a + c_size b - c_size a))%nat with (c_size b) by lia. by rewrite layout_take.
Qed.

Lemma read_array_bytes {A} (c : ctype A) `{!Layout c} (l : list A) (rest : list Z) :
  Forall (c_ok c) l -> read_array c (length l) (flat_map (c_bytes c) l ++ rest) = l.
Proof.
  induction 1 as [|a l Ha Hl IH]; [done|]. cbn [flat_map length read_array].
  rewrite <- app_assoc, layout_read, read_app by done. by rewrite IH.
Qed.

Lemma read_array_ok {A} (c : ctype A) `{!Layout c} (n : nat) : forall bs,
  Forall (in_width 8) bs -> (n * c_size c <= length bs)%nat ->
  length (read_array c n bs) = n /\ Forall (c_ok c) (read_array c n bs).
Proof.
  induction n as [|n IH]; intros bs Hbs Hl; cbn [read_array]; [done|].
  destruct (IH (drop (c_size c) bs)) as [H1 H2]; [by apply Forall_drop|rewrite length_drop; lia|].
  split; [cbn; by rewrite H1|]. constructor; [|done]. apply layout_ok; [done|lia].
Qed.

Lemma read_array_take {A} (c : ctype A) `{!Layout c} (n : nat) : forall bs,
  read_array c n (take (n * c_size c) bs) = read_array c n bs.
Proof.
  induction n as [|n IH]; intros bs; [done|]. cbn [read_array]. f_equal.
  - rewrite <- layout_take, take_take, Nat.min_l, layout_take by lia. done.
  - rewrite <- IH, skipn_firstn_comm, take_take. rewrite <- (IH (drop _ bs)). f_equal. f_equal. lia.
Qed.

#[export] Instance c_array_layout {A} (n : nat) (c : ctype A) `{!Layout c} : Layout (c_array n c).
Proof.
  split; cbn [c_array c_size c_bytes c_read c_ok].
  - intros l [<- Hl]. induction Hl as [|a l Ha _ IH]; [done|]. cbn [flat_map length].
    rewrite length_app, IH, layout_length by done. lia.
  - intros l. induction l as [|a l IH]; cbn; [done|]. apply Forall_app. split; [apply layout_range; apply _|done].
  - intros l rest [<- Hl]. by apply read_array_bytes.
  - intros bs Hbs Hl. by apply read_array_ok.
  - intros bs. by apply (read_array_take c).
Qed.

(** The values of a structure are its fields. *)
Class Fields {A B : Type} (fields : A -> B) (make : B -> A) : Prop := {
  make_fields (a : A) : make (fields a) = a;
  fields_make (b : B) : fields (make b) = b;
}.

#[export] Instance c_struct_layout {A B} (fields : A -> B) (make : B -> A) (c : ctype B)
  `{!Layout c, !Fields fields make} : Layout (c_struct fields make c).
Proof.
  split; cbn [c_struct c_size c_bytes c_read c_ok].
  - intros a Ha. by apply layout_length.
  - intros a. apply layout_range; apply _.
  - intros a rest Ha. by rewrite layout_read, make_fields.
  - intros bs Hbs Hl. rewrite fields_make. by apply layout_ok.
  - intros bs. by rewrite layout_take.
Qed.

(** Fields of a record: both directions by case analysis. *)
#[export] Hint Extern 1 (Fields _ _) =>
  split; [intros []; reflexivity | intros b; repeat destruct b as [b ?];
    repeat match goal with u : unit |- _ => destruct u end; reflexivity] : typeclass_instances.

Lemma zeroed_ok {A} (c : ctype A) `{!Layout c} : c_ok c (zeroed c).
Proof.
  apply layout_ok; [|by rewrite repeat_length].
  apply Forall_forall. intros x Hx. apply list_elem_of_In in Hx.
  apply repeat_spec in Hx as ->. unfold in_width. lia.
Qed.

(** ** Structures in guest memory *)

Definition load_struct {A} (c : ctype A) (m : memory) (address : Z) : A :=
  c_read c (load m address (c_size c)).

Definition store_struct {A} (c : ctype A) (m : memory) (address : Z) (v : A) : memory :=
  store_bytes m address (c_bytes c v).

(** The fields of a structure in memory lie behind each other. *)
Lemma load_app (m : memory) (address : Z) (n k : nat) :
  load m address (n + k) = load m address n ++ load m (address + Z.of_nat n) k.
Proof.
  unfold load. rewrite seq_app, fmap_app. f_equal. apply list_eq. intros i. rewrite !list_lookup_fmap.
  destruct (decide (i < k)%nat) as [Hi|Hi].
  - rewrite !lookup_seq_lt by done. cbn. f_equal. f_equal. f_equal. lia.
  - by rewrite !lookup_seq_ge by lia.
Qed.

Lemma load_pair {A B} (a : ctype A) (b : ctype B) `{!Layout a, !Layout b} (m : memory) (address : Z) :
  load_struct (c_pair a b) m address = (load_struct a m address, load_struct b m (address + sizeof a)).
Proof.
  unfold load_struct, sizeof. cbn [c_read c_pair c_size]. rewrite load_app.
  rewrite drop_app_length' by (by rewrite load_length). f_equal.
  rewrite <- layout_take, take_app_length' by (by rewrite load_length). done.
Qed.

Lemma load_fields {A B} (fields : A -> B) (make : B -> A) (c : ctype B) (m : memory) (address : Z) :
  load_struct (c_struct fields make c) m address = make (load_struct c m address).
Proof. reflexivity. Qed.

(** Memory holds bytes. *)
Definition byte_memory (m : memory) : Prop := forall a, in_width 8 (m a).

Section Memory.
Context {A : Type} (c : ctype A) `{!Layout c}.

Lemma load_store_struct (m : memory) (address : Z) (v : A) :
  c_ok c v -> 0 <= address -> address + sizeof c <= 2 ^ 64 ->
  load_struct c (store_struct c m address v) address = v.
Proof using Layout0.
  intros Hv Ha Hr. unfold load_struct, store_struct. unfold sizeof in Hr.
  rewrite <- (layout_length v Hv), load_store by (rewrite ?layout_length; done).
  rewrite <- (app_nil_r (c_bytes c v)). by apply layout_read.
Qed.

(** Reading depends on the bytes of the structure only. *)
Lemma load_struct_ext (m m' : memory) (address : Z) :
  0 <= address -> address + sizeof c <= 2 ^ 64 ->
  (forall a, address <= a < address + sizeof c -> m' a = m a) ->
  load_struct c m' address = load_struct c m address.
Proof using.
  intros Ha Hr Hm. unfold load_struct. f_equal. unfold load. apply list_fmap_ext. intros i k Hk.
  apply lookup_seq in Hk as [-> Hk]. unfold sizeof in *.
  rewrite wrap_small by (unfold in_width; lia). apply Hm. lia.
Qed.

Lemma load_struct_ok (m : memory) (address : Z) : byte_memory m -> c_ok c (load_struct c m address).
Proof using Layout0.
  intros Hm. apply layout_ok; [|by rewrite load_length].
  unfold load. apply Forall_fmap, Forall_true. intros i. apply Hm.
Qed.

Lemma store_struct_bytes (m : memory) (address : Z) (v : A) :
  byte_memory m -> byte_memory (store_struct c m address v).
Proof using Layout0.
  intros Hm a. unfold store_struct, store_bytes.
  destruct (c_bytes c v !! Z.to_nat (u64 (a - address))) as [b|] eqn:E; [|apply Hm].
  destruct (a =? u64 a); [|apply Hm].
  apply (Forall_lookup_1 _ _ _ _ (layout_range v) E).
Qed.

Lemma store_struct_outside (m : memory) (address : Z) (v : A) (a : Z) :
  c_ok c v -> 0 <= a < 2 ^ 64 -> 0 <= address -> address + sizeof c <= 2 ^ 64 ->
  a < address \/ address + sizeof c <= a -> store_struct c m address v a = m a.
Proof using Layout0.
  intros Hv Ha Had Hr Hout. unfold sizeof in *. apply store_outside; rewrite ?layout_length; done.
Qed.
End Memory.
