(* ===== verification/TrapState.v ===== *)
(** The state image of a thread that trapped into the monitor
    ([struct poly_xsave_state] of [tools/include/polycpuid.h]) and the functions
    of [tools/runtime/polyexec.c] that clear or clean parts of it before it is
    given back to the processor. *)

From S2P Require Import Prelude GuestMemory CStruct Seccomp.

(** ** Constants of the header *)

Definition POLY_MODE_X86 : Z := 0.
Definition POLY_TRAP_BREAK : Z := 2.
Definition POLY_TRAP_ILLEGAL : Z := 4.
Definition POLY_TRAP_RESTORE_FLAG_VALID : Z := 1.
Definition POLY_TRAP_RESTORE_FLAG_AARCH64_STATE_VALID : Z := 2.
Definition POLY_TRAP_RESTORE_FLAG_RISCV_STATE_VALID : Z := 4.
Definition POLY_NATIVE_RETURN_FRAME_FLAGS_SUPPORTED : Z := 1.
Definition POLY_STATE_XSAVE_IMPORT_RETURN_DEPTH : Z := 8.
Definition POLY_STATE_XSAVE_CROSS_RETURN_DEPTH : Z := 8.
Definition POLY_STATE_XSAVE_NATIVE_RETURN_DEPTH : Z := 8.
Definition POLY_EVENT_RECORD_FLAG_VECTOR_DELIVERY : Z := 0x1.
Definition POLY_EVENT_RECORD_FLAG_NO_VECTOR_X86_EXCEPTIONS : Z := 0x2.
Definition POLY_EVENT_RECORD_FLAG_TRAP_RETURN_RESTORE : Z := 0x4.
Definition POLY_EVENT_RECORD_FLAG_ALL_FRONTEND_HANDLERS : Z := 0x8.
Definition POLY_EVENT_RECORD_FLAG_OPAQUE_SYSCALLS : Z := 0x10.
Definition POLY_EVENT_RECORD_FLAG_OPAQUE_IMPORTS : Z := 0x40.
Definition POLY_EVENT_RECORD_REQUIRED_FLAGS : Z :=
  foldl Z.lor 0
    [POLY_EVENT_RECORD_FLAG_VECTOR_DELIVERY; POLY_EVENT_RECORD_FLAG_NO_VECTOR_X86_EXCEPTIONS;
     POLY_EVENT_RECORD_FLAG_TRAP_RETURN_RESTORE; POLY_EVENT_RECORD_FLAG_ALL_FRONTEND_HANDLERS;
     POLY_EVENT_RECORD_FLAG_OPAQUE_SYSCALLS; POLY_EVENT_RECORD_FLAG_OPAQUE_IMPORTS].
Definition POLY_AARCH64_GPR_VALID_MASK : Z := 0x7fffffff.
Definition POLY_AARCH64_GPR_VALID_MASK_FULL : Z := 0xffffffff.
Definition POLY_RISCV_GPR_VALID_MASK_FULL : Z := 0xffffffff.
Definition POLY_AARCH64_NZCV_MASK : Z := 0x0f.
Definition POLY_AARCH64_FPCR_RMODE_MASK : Z := Z.shiftl 3 22.
Definition POLY_AARCH64_FPSR_MASK : Z := 0x9f.
Definition POLY_RISCV_FCSR_MASK : Z := 0xff.

(** ** Structures *)

(** [struct poly_u128]: a 128-bit vector register. *)
Record poly_u128 : Type := MkU128 {
  u128_lo : Z; u128_hi : Z;
}.
Definition ct_u128 : ctype poly_u128 :=
  c_struct (fun x => (u128_lo x, u128_hi x))
    (fun '(a, b) => MkU128 a b)
    (c_u64 ** c_u64)%cstruct.

(** [struct poly_xsave_header]: the header of the state image. *)
Record poly_xsave_header : Type := MkHeader {
  hd_magic : Z; hd_layout_version : Z; hd_header_bytes : Z; hd_total_bytes : Z; hd_current_mode : Z;
  hd_flags : Z; hd_foreign_pc : Z; hd_foreign_tls_base : Z; hd_trap_vector_pc : Z; hd_trap_vector_mode : Z;
  hd_spill_reason : Z; hd_reserved0 : Z;
}.
Definition ct_xsave_header : ctype poly_xsave_header :=
  c_struct (fun x => (hd_magic x, hd_layout_version x, hd_header_bytes x, hd_total_bytes x, hd_current_mode x,
    hd_flags x, hd_foreign_pc x, hd_foreign_tls_base x, hd_trap_vector_pc x, hd_trap_vector_mode x,
    hd_spill_reason x, hd_reserved0 x))
    (fun '(a, b, c, d, e, f, g, h, i, j, k, l) => MkHeader a b c d e f g h i j k l)
    (c_u32 ** c_u16 ** c_u16 ** c_u32 ** c_u32 ** c_u64 ** c_u64 ** c_u64 ** c_u64 ** c_u32 ** c_u32 **
      c_u64)%cstruct.

Definition set_hd_current_mode (v : Z) (x : poly_xsave_header) : poly_xsave_header :=
  MkHeader (hd_magic x) (hd_layout_version x) (hd_header_bytes x) (hd_total_bytes x) v (hd_flags x)
    (hd_foreign_pc x) (hd_foreign_tls_base x) (hd_trap_vector_pc x) (hd_trap_vector_mode x) (hd_spill_reason x)
    (hd_reserved0 x).
Definition set_hd_foreign_pc (v : Z) (x : poly_xsave_header) : poly_xsave_header :=
  MkHeader (hd_magic x) (hd_layout_version x) (hd_header_bytes x) (hd_total_bytes x) (hd_current_mode x)
    (hd_flags x) v (hd_foreign_tls_base x) (hd_trap_vector_pc x) (hd_trap_vector_mode x) (hd_spill_reason x)
    (hd_reserved0 x).
Definition set_hd_reserved0 (v : Z) (x : poly_xsave_header) : poly_xsave_header :=
  MkHeader (hd_magic x) (hd_layout_version x) (hd_header_bytes x) (hd_total_bytes x) (hd_current_mode x)
    (hd_flags x) (hd_foreign_pc x) (hd_foreign_tls_base x) (hd_trap_vector_pc x) (hd_trap_vector_mode x)
    (hd_spill_reason x) v.

(** [struct poly_event_record]: the event that entered the monitor. *)
Record poly_event_record : Type := MkEvent {
  er_reason : Z; er_source_mode : Z; er_number : Z; er_selector : Z; er_trap_pc : Z; er_resume_pc : Z;
  er_flags : Z; er_reserved : list Z;
}.
Definition ct_event_record : ctype poly_event_record :=
  c_struct (fun x => (er_reason x, er_source_mode x, er_number x, er_selector x, er_trap_pc x, er_resume_pc x,
    er_flags x, er_reserved x))
    (fun '(a, b, c, d, e, f, g, h) => MkEvent a b c d e f g h)
    (c_u32 ** c_u32 ** c_u64 ** c_u64 ** c_u64 ** c_u64 ** c_u64 ** c_array 2 c_u64)%cstruct.

Definition set_er_trap_pc (v : Z) (x : poly_event_record) : poly_event_record :=
  MkEvent (er_reason x) (er_source_mode x) (er_number x) (er_selector x) v (er_resume_pc x) (er_flags x)
    (er_reserved x).
Definition set_er_resume_pc (v : Z) (x : poly_event_record) : poly_event_record :=
  MkEvent (er_reason x) (er_source_mode x) (er_number x) (er_selector x) (er_trap_pc x) v (er_flags x)
    (er_reserved x).
Definition set_er_flags (v : Z) (x : poly_event_record) : poly_event_record :=
  MkEvent (er_reason x) (er_source_mode x) (er_number x) (er_selector x) (er_trap_pc x) (er_resume_pc x) v
    (er_reserved x).
Definition set_er_reserved (v : list Z) (x : poly_event_record) : poly_event_record :=
  MkEvent (er_reason x) (er_source_mode x) (er_number x) (er_selector x) (er_trap_pc x) (er_resume_pc x)
    (er_flags x) v.

Record poly_transition_frame : Type := MkTransFrame {
  tf_return_pc : Z; tf_caller_mode : Z; tf_target_mode : Z; tf_abi_kind : Z; tf_flags : Z;
  tf_reserved0 : Z; tf_cookie : Z;
}.
Definition ct_transition_frame : ctype poly_transition_frame :=
  c_struct (fun x => (tf_return_pc x, tf_caller_mode x, tf_target_mode x, tf_abi_kind x, tf_flags x,
    tf_reserved0 x, tf_cookie x))
    (fun '(a, b, c, d, e, f, g) => MkTransFrame a b c d e f g)
    (c_u64 ** c_u32 ** c_u32 ** c_u16 ** c_u16 ** c_u32 ** c_u64)%cstruct.

Record poly_xsave_transition_area : Type := MkTransition {
  ta_active : poly_transition_frame; ta_reserved : list Z;
}.
Definition ct_xsave_transition_area : ctype poly_xsave_transition_area :=
  c_struct (fun x => (ta_active x, ta_reserved x))
    (fun '(a, b) => MkTransition a b)
    (ct_transition_frame ** c_array 32 (c_uint 1))%cstruct.

Record poly_aarch64_status_state : Type := MkA64Status {
  as_nzcv : Z; as_fpcr : Z; as_fpsr : Z; as_reservation_addr : Z; as_reservation_size : Z;
  as_reserved : list Z;
}.
Definition ct_aarch64_status_state : ctype poly_aarch64_status_state :=
  c_struct (fun x => (as_nzcv x, as_fpcr x, as_fpsr x, as_reservation_addr x, as_reservation_size x, as_reserved
    x))
    (fun '(a, b, c, d, e, f) => MkA64Status a b c d e f)
    (c_u64 ** c_u64 ** c_u64 ** c_u64 ** c_u64 ** c_array 11 c_u64)%cstruct.

Record poly_riscv_status_state : Type := MkRvStatus {
  rvs_fcsr : Z; rvs_reservation_addr : Z; rvs_reservation_size : Z; rvs_reserved : list Z;
}.
Definition ct_riscv_status_state : ctype poly_riscv_status_state :=
  c_struct (fun x => (rvs_fcsr x, rvs_reservation_addr x, rvs_reservation_size x, rvs_reserved x))
    (fun '(a, b, c, d) => MkRvStatus a b c d)
    (c_u64 ** c_u64 ** c_u64 ** c_array 13 c_u64)%cstruct.

Record poly_import_return_frame : Type := MkImportFrame {
  if_source_mode : Z; if_alias_valid : Z; if_return_pc : Z; if_return_sp : Z; if_import_id : Z;
  if_return_map : Z; if_alias : list Z; if_saved_x86_fsbase : Z; if_target_x86_fsbase : Z;
  if_saved_aarch64_tls_base : Z; if_saved_riscv_tls_base : Z; if_saved_source_reg2 : Z;
}.
Definition ct_import_return_frame : ctype poly_import_return_frame :=
  c_struct (fun x => (if_source_mode x, if_alias_valid x, if_return_pc x, if_return_sp x, if_import_id x,
    if_return_map x, if_alias x, if_saved_x86_fsbase x, if_target_x86_fsbase x, if_saved_aarch64_tls_base x,
    if_saved_riscv_tls_base x, if_saved_source_reg2 x))
    (fun '(a, b, c, d, e, f, g, h, i, j, k, l) => MkImportFrame a b c d e f g h i j k l)
    (c_u32 ** c_u32 ** c_u64 ** c_u64 ** c_u64 ** c_u64 ** c_array 6 c_u64 ** c_u64 ** c_u64 ** c_u64 ** c_u64
      ** c_u64)%cstruct.

Record poly_import_return_state : Type := MkImportReturn {
  ir_top : Z; ir_depth : Z; ir_frames : list poly_import_return_frame; ir_reserved : list Z;
}.
Definition ct_import_return_state : ctype poly_import_return_state :=
  c_struct (fun x => (ir_top x, ir_depth x, ir_frames x, ir_reserved x))
    (fun '(a, b, c, d) => MkImportReturn a b c d)
    (c_u64 ** c_u64 ** c_array 8 ct_import_return_frame ** c_array 240 (c_uint 1))%cstruct.

Record poly_cross_return_frame : Type := MkCrossFrame {
  cf_return_pc : Z; cf_return_sp : Z; cf_caller_mode : Z; cf_target_mode : Z; cf_abi_kind : Z;
  cf_flags : Z; cf_reserved0 : Z;
}.
Definition ct_cross_return_frame : ctype poly_cross_return_frame :=
  c_struct (fun x => (cf_return_pc x, cf_return_sp x, cf_caller_mode x, cf_target_mode x, cf_abi_kind x,
    cf_flags x, cf_reserved0 x))
    (fun '(a, b, c, d, e, f, g) => MkCrossFrame a b c d e f g)
    (c_u64 ** c_u64 ** c_u32 ** c_u32 ** c_u16 ** c_u16 ** c_u32)%cstruct.

Definition set_cf_reserved0 (v : Z) (x : poly_cross_return_frame) : poly_cross_return_frame :=
  MkCrossFrame (cf_return_pc x) (cf_return_sp x) (cf_caller_mode x) (cf_target_mode x) (cf_abi_kind x) (cf_flags
    x) v.

Record poly_cross_return_state : Type := MkCrossReturn {
  cr_top : Z; cr_depth : Z; cr_frames : list poly_cross_return_frame; cr_reserved : list Z;
}.
Definition ct_cross_return_state : ctype poly_cross_return_state :=
  c_struct (fun x => (cr_top x, cr_depth x, cr_frames x, cr_reserved x))
    (fun '(a, b, c, d) => MkCrossReturn a b c d)
    (c_u64 ** c_u64 ** c_array 8 ct_cross_return_frame ** c_array 16 (c_uint 1))%cstruct.

Record poly_native_return_frame : Type := MkNativeFrame {
  nf_return_pc : Z; nf_return_sp : Z; nf_sret_ptr : Z; nf_target_mode : Z; nf_return_kind : Z;
  nf_flags : Z; nf_reserved : list Z;
}.
Definition ct_native_return_frame : ctype poly_native_return_frame :=
  c_struct (fun x => (nf_return_pc x, nf_return_sp x, nf_sret_ptr x, nf_target_mode x, nf_return_kind x,
    nf_flags x, nf_reserved x))
    (fun '(a, b, c, d, e, f, g) => MkNativeFrame a b c d e f g)
    (c_u64 ** c_u64 ** c_u64 ** c_u32 ** c_u16 ** c_u16 ** c_array 4 c_u64)%cstruct.

Definition set_nf_reserved (v : list Z) (x : poly_native_return_frame) : poly_native_return_frame :=
  MkNativeFrame (nf_return_pc x) (nf_return_sp x) (nf_sret_ptr x) (nf_target_mode x) (nf_return_kind x)
    (nf_flags x) v.

Record poly_native_return_state : Type := MkNativeReturn {
  nr_active_valid : Z; nr_top : Z; nr_depth : Z; nr_supported_flags : Z;
  nr_active : poly_native_return_frame; nr_frames : list poly_native_return_frame; nr_reserved : list Z;
}.
Definition ct_native_return_state : ctype poly_native_return_state :=
  c_struct (fun x => (nr_active_valid x, nr_top x, nr_depth x, nr_supported_flags x, nr_active x, nr_frames x,
    nr_reserved x))
    (fun '(a, b, c, d, e, f, g) => MkNativeReturn a b c d e f g)
    (c_u64 ** c_u64 ** c_u64 ** c_u64 ** ct_native_return_frame ** c_array 8 ct_native_return_frame ** c_array
      32 (c_uint 1))%cstruct.

Record poly_abi_signature_slot_state : Type := MkSlot {
  sl_kind : Z; sl_register_map : Z;
}.
Definition ct_abi_signature_slot_state : ctype poly_abi_signature_slot_state :=
  c_struct (fun x => (sl_kind x, sl_register_map x))
    (fun '(a, b) => MkSlot a b)
    (c_u32 ** c_u32)%cstruct.

Record poly_abi_signature_state : Type := MkSignatures {
  ab_slot_count : Z; ab_flags : Z; ab_slots : list poly_abi_signature_slot_state; ab_reserved : list Z;
}.
Definition ct_abi_signature_state : ctype poly_abi_signature_state :=
  c_struct (fun x => (ab_slot_count x, ab_flags x, ab_slots x, ab_reserved x))
    (fun '(a, b, c, d) => MkSignatures a b c d)
    (c_u64 ** c_u64 ** c_array 13 ct_abi_signature_slot_state ** c_array 8 (c_uint 1))%cstruct.

Record poly_frontend_tls_state : Type := MkTls {
  ft_flags : Z; ft_active_mode : Z; ft_aarch64_tls_base : Z; ft_riscv_tls_base : Z; ft_reserved : list Z;
}.
Definition ct_frontend_tls_state : ctype poly_frontend_tls_state :=
  c_struct (fun x => (ft_flags x, ft_active_mode x, ft_aarch64_tls_base x, ft_riscv_tls_base x, ft_reserved x))
    (fun '(a, b, c, d, e) => MkTls a b c d e)
    (c_u64 ** c_u64 ** c_u64 ** c_u64 ** c_array 4 c_u64)%cstruct.

Record poly_landing_policy_state : Type := MkLanding {
  lp_flags : Z; lp_supported_flags : Z; lp_reserved : list Z;
}.
Definition ct_landing_policy_state : ctype poly_landing_policy_state :=
  c_struct (fun x => (lp_flags x, lp_supported_flags x, lp_reserved x))
    (fun '(a, b, c) => MkLanding a b c)
    (c_u64 ** c_u64 ** c_array 6 c_u64)%cstruct.

Record poly_state_key_state : Type := MkStateKey {
  sk_flags : Z; sk_explicit_key : Z; sk_supported_flags : Z; sk_reserved : list Z;
}.
Definition ct_state_key_state : ctype poly_state_key_state :=
  c_struct (fun x => (sk_flags x, sk_explicit_key x, sk_supported_flags x, sk_reserved x))
    (fun '(a, b, c, d) => MkStateKey a b c d)
    (c_u64 ** c_u64 ** c_u64 ** c_array 5 c_u64)%cstruct.

Definition set_sk_reserved (v : list Z) (x : poly_state_key_state) : poly_state_key_state :=
  MkStateKey (sk_flags x) (sk_explicit_key x) (sk_supported_flags x) v.

(** [struct poly_trap_restore_state]: the registers that a trap return restores. *)
Record poly_trap_restore_state : Type := MkRestore {
  tr_flags : Z; tr_mode : Z; tr_reserved0 : Z; tr_x86_gpr : list Z; tr_x86_xmm : list poly_u128;
  tr_aarch64_gpr_valid_mask : Z; tr_aarch64_gpr : list Z; tr_aarch64_fp : list poly_u128;
  tr_aarch64_nzcv : Z; tr_aarch64_fpcr : Z; tr_aarch64_fpsr : Z; tr_aarch64_reserved : Z;
  tr_riscv_gpr_valid_mask : Z; tr_riscv_gpr : list Z; tr_riscv_fp : list poly_u128; tr_riscv_fcsr : Z;
  tr_riscv_reserved : list Z; tr_reserved : list Z;
}.
Definition ct_trap_restore_state : ctype poly_trap_restore_state :=
  c_struct (fun x => (tr_flags x, tr_mode x, tr_reserved0 x, tr_x86_gpr x, tr_x86_xmm x,
    tr_aarch64_gpr_valid_mask x, tr_aarch64_gpr x, tr_aarch64_fp x, tr_aarch64_nzcv x, tr_aarch64_fpcr x,
    tr_aarch64_fpsr x, tr_aarch64_reserved x, tr_riscv_gpr_valid_mask x, tr_riscv_gpr x, tr_riscv_fp x,
    tr_riscv_fcsr x, tr_riscv_reserved x, tr_reserved x))
    (fun '(a, b, c, d, e, f, g, h, i, j, k, l, m, n, o, p, q, r) => MkRestore a b c d e f g h i j k l m n o p q
      r)
    (c_u64 ** c_u32 ** c_u32 ** c_array 16 c_u64 ** c_array 16 ct_u128 ** c_u64 ** c_array 32 c_u64 ** c_array
      32 ct_u128 ** c_u64 ** c_u64 ** c_u64 ** c_u64 ** c_u64 ** c_array 32 c_u64 ** c_array 32 ct_u128 ** c_u64
      ** c_array 3 c_u64 ** c_array 32 (c_uint 1))%cstruct.

Definition set_tr_x86_gpr (v : list Z) (x : poly_trap_restore_state) : poly_trap_restore_state :=
  MkRestore (tr_flags x) (tr_mode x) (tr_reserved0 x) v (tr_x86_xmm x) (tr_aarch64_gpr_valid_mask x)
    (tr_aarch64_gpr x) (tr_aarch64_fp x) (tr_aarch64_nzcv x) (tr_aarch64_fpcr x) (tr_aarch64_fpsr x)
    (tr_aarch64_reserved x) (tr_riscv_gpr_valid_mask x) (tr_riscv_gpr x) (tr_riscv_fp x) (tr_riscv_fcsr x)
    (tr_riscv_reserved x) (tr_reserved x).
Definition set_tr_aarch64_gpr (v : list Z) (x : poly_trap_restore_state) : poly_trap_restore_state :=
  MkRestore (tr_flags x) (tr_mode x) (tr_reserved0 x) (tr_x86_gpr x) (tr_x86_xmm x) (tr_aarch64_gpr_valid_mask
    x) v (tr_aarch64_fp x) (tr_aarch64_nzcv x) (tr_aarch64_fpcr x) (tr_aarch64_fpsr x) (tr_aarch64_reserved x)
    (tr_riscv_gpr_valid_mask x) (tr_riscv_gpr x) (tr_riscv_fp x) (tr_riscv_fcsr x) (tr_riscv_reserved x)
    (tr_reserved x).
Definition set_tr_riscv_gpr (v : list Z) (x : poly_trap_restore_state) : poly_trap_restore_state :=
  MkRestore (tr_flags x) (tr_mode x) (tr_reserved0 x) (tr_x86_gpr x) (tr_x86_xmm x) (tr_aarch64_gpr_valid_mask
    x) (tr_aarch64_gpr x) (tr_aarch64_fp x) (tr_aarch64_nzcv x) (tr_aarch64_fpcr x) (tr_aarch64_fpsr x)
    (tr_aarch64_reserved x) (tr_riscv_gpr_valid_mask x) v (tr_riscv_fp x) (tr_riscv_fcsr x) (tr_riscv_reserved
    x) (tr_reserved x).

(** [struct poly_xsave_state]: the whole state image of a thread. *)
Record poly_xsave_state : Type := MkXsave {
  xs_header : poly_xsave_header; xs_event_record : poly_event_record; xs_event_args : list Z;
  xs_transition : poly_xsave_transition_area; xs_aarch64_gpr : list Z; xs_aarch64_fp : list poly_u128;
  xs_aarch64_status : poly_aarch64_status_state; xs_riscv_gpr : list Z; xs_riscv_fp : list poly_u128;
  xs_riscv_status : poly_riscv_status_state; xs_import_return : poly_import_return_state;
  xs_abi_signature : poly_abi_signature_state; xs_cross_return : poly_cross_return_state;
  xs_frontend_tls : poly_frontend_tls_state; xs_landing_policy : poly_landing_policy_state;
  xs_state_key : poly_state_key_state; xs_pre_trap_restore_reserved : list Z;
  xs_trap_restore : poly_trap_restore_state; xs_native_return : poly_native_return_state;
  xs_reserved : list Z;
}.
Definition ct_xsave_state : ctype poly_xsave_state :=
  c_struct (fun x => (xs_header x, xs_event_record x, xs_event_args x, xs_transition x, xs_aarch64_gpr x,
    xs_aarch64_fp x, xs_aarch64_status x, xs_riscv_gpr x, xs_riscv_fp x, xs_riscv_status x, xs_import_return x,
    xs_abi_signature x, xs_cross_return x, xs_frontend_tls x, xs_landing_policy x, xs_state_key x,
    xs_pre_trap_restore_reserved x, xs_trap_restore x, xs_native_return x, xs_reserved x))
    (fun '(a, b, c, d, e, f, g, h, i, j, k, l, m, n, o, p, q, r, s, t) => MkXsave a b c d e f g h i j k l m n o
      p q r s t)
    (ct_xsave_header ** ct_event_record ** c_array 8 c_u64 ** ct_xsave_transition_area ** c_array 32 c_u64 **
      c_array 32 ct_u128 ** ct_aarch64_status_state ** c_array 32 c_u64 ** c_array 32 ct_u128 **
      ct_riscv_status_state ** ct_import_return_state ** ct_abi_signature_state ** ct_cross_return_state **
      ct_frontend_tls_state ** ct_landing_policy_state ** ct_state_key_state ** c_array 160 (c_uint 1) **
      ct_trap_restore_state ** ct_native_return_state ** c_array 1408 (c_uint 1))%cstruct.

Definition set_xs_header (v : poly_xsave_header) (x : poly_xsave_state) : poly_xsave_state :=
  MkXsave v (xs_event_record x) (xs_event_args x) (xs_transition x) (xs_aarch64_gpr x) (xs_aarch64_fp x)
    (xs_aarch64_status x) (xs_riscv_gpr x) (xs_riscv_fp x) (xs_riscv_status x) (xs_import_return x)
    (xs_abi_signature x) (xs_cross_return x) (xs_frontend_tls x) (xs_landing_policy x) (xs_state_key x)
    (xs_pre_trap_restore_reserved x) (xs_trap_restore x) (xs_native_return x) (xs_reserved x).
Definition set_xs_event_record (v : poly_event_record) (x : poly_xsave_state) : poly_xsave_state :=
  MkXsave (xs_header x) v (xs_event_args x) (xs_transition x) (xs_aarch64_gpr x) (xs_aarch64_fp x)
    (xs_aarch64_status x) (xs_riscv_gpr x) (xs_riscv_fp x) (xs_riscv_status x) (xs_import_return x)
    (xs_abi_signature x) (xs_cross_return x) (xs_frontend_tls x) (xs_landing_policy x) (xs_state_key x)
    (xs_pre_trap_restore_reserved x) (xs_trap_restore x) (xs_native_return x) (xs_reserved x).
Definition set_xs_event_args (v : list Z) (x : poly_xsave_state) : poly_xsave_state :=
  MkXsave (xs_header x) (xs_event_record x) v (xs_transition x) (xs_aarch64_gpr x) (xs_aarch64_fp x)
    (xs_aarch64_status x) (xs_riscv_gpr x) (xs_riscv_fp x) (xs_riscv_status x) (xs_import_return x)
    (xs_abi_signature x) (xs_cross_return x) (xs_frontend_tls x) (xs_landing_policy x) (xs_state_key x)
    (xs_pre_trap_restore_reserved x) (xs_trap_restore x) (xs_native_return x) (xs_reserved x).
Definition set_xs_transition (v : poly_xsave_transition_area) (x : poly_xsave_state) : poly_xsave_state :=
  MkXsave (xs_header x) (xs_event_record x) (xs_event_args x) v (xs_aarch64_gpr x) (xs_aarch64_fp x)
    (xs_aarch64_status x) (xs_riscv_gpr x) (xs_riscv_fp x) (xs_riscv_status x) (xs_import_return x)
    (xs_abi_signature x) (xs_cross_return x) (xs_frontend_tls x) (xs_landing_policy x) (xs_state_key x)
    (xs_pre_trap_restore_reserved x) (xs_trap_restore x) (xs_native_return x) (xs_reserved x).
Definition set_xs_import_return (v : poly_import_return_state) (x : poly_xsave_state) : poly_xsave_state :=
  MkXsave (xs_header x) (xs_event_record x) (xs_event_args x) (xs_transition x) (xs_aarch64_gpr x)
    (xs_aarch64_fp x) (xs_aarch64_status x) (xs_riscv_gpr x) (xs_riscv_fp x) (xs_riscv_status x) v
    (xs_abi_signature x) (xs_cross_return x) (xs_frontend_tls x) (xs_landing_policy x) (xs_state_key x)
    (xs_pre_trap_restore_reserved x) (xs_trap_restore x) (xs_native_return x) (xs_reserved x).
Definition set_xs_cross_return (v : poly_cross_return_state) (x : poly_xsave_state) : poly_xsave_state :=
  MkXsave (xs_header x) (xs_event_record x) (xs_event_args x) (xs_transition x) (xs_aarch64_gpr x)
    (xs_aarch64_fp x) (xs_aarch64_status x) (xs_riscv_gpr x) (xs_riscv_fp x) (xs_riscv_status x)
    (xs_import_return x) (xs_abi_signature x) v (xs_frontend_tls x) (xs_landing_policy x) (xs_state_key x)
    (xs_pre_trap_restore_reserved x) (xs_trap_restore x) (xs_native_return x) (xs_reserved x).
Definition set_xs_aarch64_gpr (v : list Z) (x : poly_xsave_state) : poly_xsave_state :=
  MkXsave (xs_header x) (xs_event_record x) (xs_event_args x) (xs_transition x) v (xs_aarch64_fp x)
    (xs_aarch64_status x) (xs_riscv_gpr x) (xs_riscv_fp x) (xs_riscv_status x) (xs_import_return x)
    (xs_abi_signature x) (xs_cross_return x) (xs_frontend_tls x) (xs_landing_policy x) (xs_state_key x)
    (xs_pre_trap_restore_reserved x) (xs_trap_restore x) (xs_native_return x) (xs_reserved x).
Definition set_xs_aarch64_fp (v : list poly_u128) (x : poly_xsave_state) : poly_xsave_state :=
  MkXsave (xs_header x) (xs_event_record x) (xs_event_args x) (xs_transition x) (xs_aarch64_gpr x) v
    (xs_aarch64_status x) (xs_riscv_gpr x) (xs_riscv_fp x) (xs_riscv_status x) (xs_import_return x)
    (xs_abi_signature x) (xs_cross_return x) (xs_frontend_tls x) (xs_landing_policy x) (xs_state_key x)
    (xs_pre_trap_restore_reserved x) (xs_trap_restore x) (xs_native_return x) (xs_reserved x).
Definition set_xs_aarch64_status (v : poly_aarch64_status_state) (x : poly_xsave_state) : poly_xsave_state :=
  MkXsave (xs_header x) (xs_event_record x) (xs_event_args x) (xs_transition x) (xs_aarch64_gpr x)
    (xs_aarch64_fp x) v (xs_riscv_gpr x) (xs_riscv_fp x) (xs_riscv_status x) (xs_import_return x)
    (xs_abi_signature x) (xs_cross_return x) (xs_frontend_tls x) (xs_landing_policy x) (xs_state_key x)
    (xs_pre_trap_restore_reserved x) (xs_trap_restore x) (xs_native_return x) (xs_reserved x).
Definition set_xs_riscv_gpr (v : list Z) (x : poly_xsave_state) : poly_xsave_state :=
  MkXsave (xs_header x) (xs_event_record x) (xs_event_args x) (xs_transition x) (xs_aarch64_gpr x)
    (xs_aarch64_fp x) (xs_aarch64_status x) v (xs_riscv_fp x) (xs_riscv_status x) (xs_import_return x)
    (xs_abi_signature x) (xs_cross_return x) (xs_frontend_tls x) (xs_landing_policy x) (xs_state_key x)
    (xs_pre_trap_restore_reserved x) (xs_trap_restore x) (xs_native_return x) (xs_reserved x).
Definition set_xs_riscv_fp (v : list poly_u128) (x : poly_xsave_state) : poly_xsave_state :=
  MkXsave (xs_header x) (xs_event_record x) (xs_event_args x) (xs_transition x) (xs_aarch64_gpr x)
    (xs_aarch64_fp x) (xs_aarch64_status x) (xs_riscv_gpr x) v (xs_riscv_status x) (xs_import_return x)
    (xs_abi_signature x) (xs_cross_return x) (xs_frontend_tls x) (xs_landing_policy x) (xs_state_key x)
    (xs_pre_trap_restore_reserved x) (xs_trap_restore x) (xs_native_return x) (xs_reserved x).
Definition set_xs_riscv_status (v : poly_riscv_status_state) (x : poly_xsave_state) : poly_xsave_state :=
  MkXsave (xs_header x) (xs_event_record x) (xs_event_args x) (xs_transition x) (xs_aarch64_gpr x)
    (xs_aarch64_fp x) (xs_aarch64_status x) (xs_riscv_gpr x) (xs_riscv_fp x) v (xs_import_return x)
    (xs_abi_signature x) (xs_cross_return x) (xs_frontend_tls x) (xs_landing_policy x) (xs_state_key x)
    (xs_pre_trap_restore_reserved x) (xs_trap_restore x) (xs_native_return x) (xs_reserved x).
Definition set_xs_frontend_tls (v : poly_frontend_tls_state) (x : poly_xsave_state) : poly_xsave_state :=
  MkXsave (xs_header x) (xs_event_record x) (xs_event_args x) (xs_transition x) (xs_aarch64_gpr x)
    (xs_aarch64_fp x) (xs_aarch64_status x) (xs_riscv_gpr x) (xs_riscv_fp x) (xs_riscv_status x)
    (xs_import_return x) (xs_abi_signature x) (xs_cross_return x) v (xs_landing_policy x) (xs_state_key x)
    (xs_pre_trap_restore_reserved x) (xs_trap_restore x) (xs_native_return x) (xs_reserved x).
Definition set_xs_state_key (v : poly_state_key_state) (x : poly_xsave_state) : poly_xsave_state :=
  MkXsave (xs_header x) (xs_event_record x) (xs_event_args x) (xs_transition x) (xs_aarch64_gpr x)
    (xs_aarch64_fp x) (xs_aarch64_status x) (xs_riscv_gpr x) (xs_riscv_fp x) (xs_riscv_status x)
    (xs_import_return x) (xs_abi_signature x) (xs_cross_return x) (xs_frontend_tls x) (xs_landing_policy x) v
    (xs_pre_trap_restore_reserved x) (xs_trap_restore x) (xs_native_return x) (xs_reserved x).
Definition set_xs_trap_restore (v : poly_trap_restore_state) (x : poly_xsave_state) : poly_xsave_state :=
  MkXsave (xs_header x) (xs_event_record x) (xs_event_args x) (xs_transition x) (xs_aarch64_gpr x)
    (xs_aarch64_fp x) (xs_aarch64_status x) (xs_riscv_gpr x) (xs_riscv_fp x) (xs_riscv_status x)
    (xs_import_return x) (xs_abi_signature x) (xs_cross_return x) (xs_frontend_tls x) (xs_landing_policy x)
    (xs_state_key x) (xs_pre_trap_restore_reserved x) v (xs_native_return x) (xs_reserved x).
Definition set_xs_native_return (v : poly_native_return_state) (x : poly_xsave_state) : poly_xsave_state :=
  MkXsave (xs_header x) (xs_event_record x) (xs_event_args x) (xs_transition x) (xs_aarch64_gpr x)
    (xs_aarch64_fp x) (xs_aarch64_status x) (xs_riscv_gpr x) (xs_riscv_fp x) (xs_riscv_status x)
    (xs_import_return x) (xs_abi_signature x) (xs_cross_return x) (xs_frontend_tls x) (xs_landing_policy x)
    (xs_state_key x) (xs_pre_trap_restore_reserved x) (xs_trap_restore x) v (xs_reserved x).

(** ** Derive descriptors *)

(** [struct poly_v2_derive_descriptor]; the event arguments are given by value
    instead of by address. *)
Record poly_v2_derive_descriptor : Type := MkDerive {
  dd_magic : Z; dd_bytes : Z; dd_version : Z; dd_header_bytes : Z; dd_flags : Z; dd_frontend : Z;
  dd_child_sp : Z; dd_child_tls : Z; dd_child_return_value : Z; dd_parent_return_value : Z; dd_state_key : Z;
  dd_child_pc : Z; dd_event_reason : Z; dd_event_number : Z; dd_event_selector : Z; dd_event_flags : Z;
  dd_event_args : list Z;
}.
Definition POLY_V2_DERIVE_DESC_MAGIC : Z := 0x32565244594c4f50.
Definition POLY_V2_DERIVE_DESC_BYTES : Z := 128.
Definition POLY_V2_DERIVE_DESC_VERSION : Z := 2.
Definition POLY_V2_DERIVE_DESC_HEADER_BYTES : Z := 16.
Definition POLY_V2_DERIVE_FLAG_CHILD_SP : Z := 0x1.
Definition POLY_V2_DERIVE_FLAG_CHILD_RETURN : Z := 0x4.
Definition POLY_V2_DERIVE_FLAG_CLEAR_EVENT_STATE : Z := 0x10.
Definition POLY_V2_DERIVE_FLAG_ACTIVATE_DST : Z := 0x40.
Definition POLY_V2_DERIVE_FLAG_CHILD_PC : Z := 0x80.
Definition POLY_V2_DERIVE_FLAG_EVENT_RECORD : Z := 0x100.

Definition poly_init_derive_descriptor (frontend : Z) : poly_v2_derive_descriptor :=
  MkDerive POLY_V2_DERIVE_DESC_MAGIC POLY_V2_DERIVE_DESC_BYTES POLY_V2_DERIVE_DESC_VERSION
    POLY_V2_DERIVE_DESC_HEADER_BYTES 0 (u32 frontend) 0 0 0 0 0 0 0 0 0 0 [].

(** ** Trap-restore banks *)

Definition poly_sanitize_aarch64_trap_restore_payload (r : poly_trap_restore_state) : poly_trap_restore_state :=
  MkRestore (tr_flags r) (tr_mode r) (tr_reserved0 r) (tr_x86_gpr r) (tr_x86_xmm r)
    (tr_aarch64_gpr_valid_mask r) (tr_aarch64_gpr r) (tr_aarch64_fp r)
    (Z.land (tr_aarch64_nzcv r) POLY_AARCH64_NZCV_MASK) (Z.land (tr_aarch64_fpcr r) POLY_AARCH64_FPCR_RMODE_MASK)
    (Z.land (tr_aarch64_fpsr r) POLY_AARCH64_FPSR_MASK) 0
    0 (repeat 0 32) (repeat (zeroed ct_u128) 32) 0 (repeat 0 3) (tr_reserved r).

Definition poly_sanitize_riscv_trap_restore_payload (r : poly_trap_restore_state) : poly_trap_restore_state :=
  MkRestore (tr_flags r) (tr_mode r) (tr_reserved0 r) (tr_x86_gpr r) (tr_x86_xmm r)
    0 (repeat 0 32) (repeat (zeroed ct_u128) 32) 0 0 0 0
    (tr_riscv_gpr_valid_mask r) (tr_riscv_gpr r) (tr_riscv_fp r)
    (Z.land (tr_riscv_fcsr r) POLY_RISCV_FCSR_MASK) (repeat 0 3) (tr_reserved r).

Definition poly_aarch64_trap_restore_gpr_mask_usable (mask : Z) : bool :=
  (mask =? POLY_AARCH64_GPR_VALID_MASK) || (mask =? POLY_AARCH64_GPR_VALID_MASK_FULL).

(** ** Return stacks *)

Definition poly_clear_native_return_state (s : poly_xsave_state) : poly_xsave_state :=
  set_xs_native_return
    (MkNativeReturn 0 0 POLY_STATE_XSAVE_NATIVE_RETURN_DEPTH POLY_NATIVE_RETURN_FRAME_FLAGS_SUPPORTED
       (zeroed ct_native_return_frame) (repeat (zeroed ct_native_return_frame) 8) (repeat 0 32)) s.

Definition poly_clear_foreign_return_transition_state (s : poly_xsave_state) : poly_xsave_state :=
  let s := set_xs_transition (zeroed ct_xsave_transition_area) s in
  let s := set_xs_import_return
    (MkImportReturn 0 POLY_STATE_XSAVE_IMPORT_RETURN_DEPTH (repeat (zeroed ct_import_return_frame) 8)
       (repeat 0 240)) s in
  set_xs_cross_return
    (MkCrossReturn 0 POLY_STATE_XSAVE_CROSS_RETURN_DEPTH (repeat (zeroed ct_cross_return_frame) 8)
       (repeat 0 16)) s.

Definition poly_clear_return_transition_state (s : poly_xsave_state) : poly_xsave_state :=
  poly_clear_native_return_state (poly_clear_foreign_return_transition_state s).

(** ** The event record *)

Definition poly_set_clone_child_event_record_state (packet : poly_runtime_event_record) (s : poly_xsave_state)
    : poly_xsave_state :=
  let s := set_xs_event_record
    (MkEvent (u32 (pk_reason packet)) (u32 (pk_mode packet)) (pk_number packet) (pk_selector packet)
       (pk_pc packet) (pk_next_pc packet) (pk_flags packet) [0; 0]) s in
  set_xs_event_args (pk_args packet) s.

Definition poly_set_clone_child_frontend_state (mode child_stack tls_base : Z) (has_trap_state : bool)
    (s : poly_xsave_state) : poly_xsave_state :=
  let set_tls aarch64 riscv s :=
    if tls_base =? 0 then s
    else set_xs_frontend_tls (MkTls 1 mode aarch64 riscv (ft_reserved (xs_frontend_tls s))) s in
  if negb has_trap_state then s
  else if mode =? POLY_MODE_RAW_AARCH64 then
    let s := if child_stack =? 0 then s else
      set_xs_trap_restore (set_tr_aarch64_gpr (<[31%nat := child_stack]> (tr_aarch64_gpr (xs_trap_restore s)))
                             (xs_trap_restore s))
        (set_xs_aarch64_gpr (<[31%nat := child_stack]> (xs_aarch64_gpr s)) s) in
    set_tls tls_base (ft_riscv_tls_base (xs_frontend_tls s)) s
  else if mode =? POLY_MODE_RAW_RISCV then
    let s := if child_stack =? 0 then s else
      set_xs_trap_restore (set_tr_riscv_gpr (<[2%nat := child_stack]> (tr_riscv_gpr (xs_trap_restore s)))
                             (xs_trap_restore s))
        (set_xs_riscv_gpr (<[2%nat := child_stack]> (xs_riscv_gpr s)) s) in
    set_tls (ft_aarch64_tls_base (xs_frontend_tls s)) tls_base s
  else s.

(** ** Cleaning before the import *)

Definition supported_trap_flags : Z :=
  foldl Z.lor 0
    [POLY_EVENT_RECORD_FLAG_VECTOR_DELIVERY; POLY_EVENT_RECORD_FLAG_NO_VECTOR_X86_EXCEPTIONS;
     POLY_EVENT_RECORD_FLAG_TRAP_RETURN_RESTORE; POLY_EVENT_RECORD_FLAG_ALL_FRONTEND_HANDLERS;
     POLY_EVENT_RECORD_FLAG_OPAQUE_SYSCALLS; POLY_EVENT_RECORD_FLAG_OPAQUE_IMPORTS].

(** [x & ~flag] on 64 bits *)
Definition without (x flag : Z) : Z := Z.land x (u64 (Z.lnot flag)).

(** The event record, the arguments and [reserved0] of the header. *)
Definition sanitize_event (s : poly_xsave_state) : poly_xsave_state :=
  let s := set_xs_event_record (set_er_reserved [0; 0] (xs_event_record s)) s in
  if er_reason (xs_event_record s) =? 0 then
    set_xs_event_args (repeat 0 8) (set_xs_event_record (set_er_flags 0 (xs_event_record s)) s)
  else
    let flags := Z.land (er_flags (xs_event_record s)) supported_trap_flags in
    let flags := if hd_trap_vector_pc (xs_header s) =? 0
                 then without flags POLY_EVENT_RECORD_FLAG_VECTOR_DELIVERY else flags in
    let s := set_xs_header (set_hd_reserved0 0 (xs_header s)) s in
    let flags := if Z.land (tr_flags (xs_trap_restore s)) POLY_TRAP_RESTORE_FLAG_VALID =? 0
                 then without flags POLY_EVENT_RECORD_FLAG_TRAP_RETURN_RESTORE else flags in
    set_xs_event_record (set_er_flags flags (xs_event_record s)) s.

(** [for (n = top; n < depth; n++) memset(&frames[n], 0, ...)], the frames below
    [top] mapped by [f]. *)
Definition keep_frames {A} (top : Z) (f : A -> A) (zero : A) (frames : list A) : list A :=
  imap (fun n x => if Z.of_nat n <? top then f x else zero) frames.

Definition sanitize_import_return (r : poly_import_return_state) : poly_import_return_state :=
  if negb (ir_depth r =? POLY_STATE_XSAVE_IMPORT_RETURN_DEPTH) || (ir_top r >? POLY_STATE_XSAVE_IMPORT_RETURN_DEPTH)
  then MkImportReturn 0 POLY_STATE_XSAVE_IMPORT_RETURN_DEPTH (repeat (zeroed ct_import_return_frame) 8) (repeat 0 240)
  else MkImportReturn (ir_top r) (ir_depth r)
         (keep_frames (ir_top r) id (zeroed ct_import_return_frame) (ir_frames r)) (repeat 0 240).

Definition sanitize_cross_return (r : poly_cross_return_state) : poly_cross_return_state :=
  if negb (cr_depth r =? POLY_STATE_XSAVE_CROSS_RETURN_DEPTH) || (cr_top r >? POLY_STATE_XSAVE_CROSS_RETURN_DEPTH)
  then MkCrossReturn 0 POLY_STATE_XSAVE_CROSS_RETURN_DEPTH (repeat (zeroed ct_cross_return_frame) 8) (repeat 0 16)
  else MkCrossReturn (cr_top r) (cr_depth r)
         (keep_frames (cr_top r) (set_cf_reserved0 0) (zeroed ct_cross_return_frame) (cr_frames r)) (repeat 0 16).

Definition sanitize_native_return (r : poly_native_return_state) : poly_native_return_state :=
  let active := if nr_active_valid r =? 0 then zeroed ct_native_return_frame
                else set_nf_reserved (repeat 0 4) (nr_active r) in
  let frames := if nr_top r <=? POLY_STATE_XSAVE_NATIVE_RETURN_DEPTH
                then keep_frames (nr_top r) (set_nf_reserved (repeat 0 4)) (zeroed ct_native_return_frame) (nr_frames r)
                else nr_frames r in
  MkNativeReturn (nr_active_valid r) (nr_top r) (nr_depth r) (nr_supported_flags r) active frames (repeat 0 32).

Definition sanitize_trap_restore (r : poly_trap_restore_state) : poly_trap_restore_state :=
  if tr_flags r =? 0 then zeroed ct_trap_restore_state
  else
    let r := MkRestore (tr_flags r) (tr_mode r) 0 (tr_x86_gpr r) (tr_x86_xmm r) (tr_aarch64_gpr_valid_mask r)
      (tr_aarch64_gpr r) (tr_aarch64_fp r) (tr_aarch64_nzcv r) (tr_aarch64_fpcr r) (tr_aarch64_fpsr r) 0
      (tr_riscv_gpr_valid_mask r) (tr_riscv_gpr r) (tr_riscv_fp r) (tr_riscv_fcsr r) (repeat 0 3) (repeat 0 32) in
    if tr_mode r =? POLY_MODE_RAW_AARCH64 then poly_sanitize_aarch64_trap_restore_payload r
    else if tr_mode r =? POLY_MODE_RAW_RISCV then poly_sanitize_riscv_trap_restore_payload r
    else r.

Definition poly_sanitize_trap_state_for_import (s : poly_xsave_state) : poly_xsave_state :=
  let s := sanitize_event s in
  let a := xs_aarch64_status s in
  let v := xs_riscv_status s in
  MkXsave (xs_header s) (xs_event_record s) (xs_event_args s) (xs_transition s) (xs_aarch64_gpr s) (xs_aarch64_fp s)
    (MkA64Status (Z.land (as_nzcv a) POLY_AARCH64_NZCV_MASK) (Z.land (as_fpcr a) POLY_AARCH64_FPCR_RMODE_MASK)
       (Z.land (as_fpsr a) POLY_AARCH64_FPSR_MASK) 0 0 (repeat 0 11))
    (xs_riscv_gpr s) (xs_riscv_fp s)
    (MkRvStatus (Z.land (rvs_fcsr v) POLY_RISCV_FCSR_MASK) 0 0 (repeat 0 13))
    (sanitize_import_return (xs_import_return s)) (xs_abi_signature s)
    (sanitize_cross_return (xs_cross_return s)) (xs_frontend_tls s) (xs_landing_policy s)
    (set_sk_reserved (repeat 0 5) (xs_state_key s)) (repeat 0 160)
    (sanitize_trap_restore (xs_trap_restore s)) (sanitize_native_return (xs_native_return s)) (repeat 0 1408).

(** ** The layout of the image *)

(** The offsets of consecutive fields. *)
Definition field_offsets (sizes : list nat) : list Z :=
  imap (fun n _ => Z.of_nat (sum_list (take n sizes))) sizes.

(** The sizes and offsets that [polycpuid.h] asserts of the structures. *)
Lemma state_image_layout :
  sizeof ct_u128 = 16 /\ sizeof ct_xsave_header = 0x40 /\ sizeof ct_event_record = 0x40 /\
  sizeof ct_transition_frame = 32 /\ sizeof ct_import_return_frame = 0x80 /\ sizeof ct_cross_return_frame = 0x20 /\
  sizeof ct_native_return_frame = 0x40 /\ sizeof ct_xsave_state = 8192 /\
  field_offsets [c_size ct_xsave_header; c_size ct_event_record; 64%nat; c_size ct_xsave_transition_area; 256%nat;
    512%nat; c_size ct_aarch64_status_state; 256%nat; 512%nat; c_size ct_riscv_status_state;
    c_size ct_import_return_state; c_size ct_abi_signature_state; c_size ct_cross_return_state;
    c_size ct_frontend_tls_state; c_size ct_landing_policy_state; c_size ct_state_key_state; 160%nat;
    c_size ct_trap_restore_state; c_size ct_native_return_state; 1408%nat] =
  [0x000; 0x040; 0x080; 0x0c0; 0x100; 0x200; 0x400; 0x480; 0x580; 0x780; 0x800; 0xd00; 0xd80; 0xea0; 0xee0; 0xf20;
   0xf60; 0x1000; 0x1800; 0x1a80].
Proof. vm_compute. split_and!; reflexivity. Qed.

#[export] Instance ct_u128_layout : Layout ct_u128 := _.
#[export] Instance ct_event_record_layout : Layout ct_event_record := _.
#[export] Instance ct_native_return_frame_layout : Layout ct_native_return_frame := _.
#[export] Instance ct_native_return_state_layout : Layout ct_native_return_state := _.
#[export] Instance ct_trap_restore_state_layout : Layout ct_trap_restore_state := _.
#[export] Instance ct_xsave_state_layout : Layout ct_xsave_state := _.
