(* ===== verification/SignalFrame.v ===== *)
(** Delivery of signals to guest handlers and the return from them
    ([tools/runtime/polyexec.c]): alternate signal stacks, the choice of a
    pending signal, the signal frame that is written below the interrupted
    stack, the entry into the handler and [rt_sigreturn].

    The state of a thread is its signal state ([GuestSignals]), the pending
    signals, and per frontend the address of the active frame and the alternate
    stack.  Parameters: the memory-probe instruction, the page-fault handling of
    the host ([fault_in]: the answers of the probe after an access to the given
    addresses), the instruction PDERIVE_STATE ([derive]: its status and the state image
    it leaves), and the stack pointer of the monitor. *)

From stdpp Require Import relations.
From S2P Require Import Prelude GuestMemory GuestSignals CStruct Seccomp TrapState.

(** ** Constants *)

Definition POLY_AARCH64_VSIGFRAME_MAGIC : Z := 0x50534c4147534631.
Definition POLY_RISCV_VSIGFRAME_MAGIC : Z := 0x50534c5256534631.
Definition POLY_VSIG_STACK_SIZE : Z := 65536.
Definition POLY_LINUX_SA_ONSTACK : Z := 0x08000000.
Definition POLY_LINUX_SS_ONSTACK : Z := 1.
Definition POLY_LINUX_SS_DISABLE : Z := 2.
Definition POLY_AARCH64_MINSIGSTKSZ : Z := 2048.
Definition SA_NODEFER : Z := 0x40000000.
Definition ILL_ILLOPC : Z := 1.

(** ** Structures in guest memory *)

(** [struct poly_linux_stack_t]: the argument of [sigaltstack]. *)
Record poly_linux_stack_t : Type := MkStack {
  ss_sp : Z; ss_flags : Z; ss_size : Z;
}.
Definition ct_linux_stack_t : ctype poly_linux_stack_t :=
  c_struct (fun x => (ss_sp x, ss_flags x, tt, ss_size x))
    (fun '(a, b, _, c) => MkStack a b c)
    (c_u64 ** c_int32 ** c_pad 4 ** c_u64)%cstruct.

(** [struct poly_siginfo]: the fields are those of [struct poly_aarch64_siginfo] and [struct
    poly_riscv_siginfo]. *)
Record poly_siginfo : Type := MkSiginfo {
  si_signo : Z; si_errno : Z; si_code : Z; si_reserved0 : Z; si_fault_addr : Z;
}.
Definition ct_siginfo : ctype poly_siginfo :=
  c_struct (fun x => (si_signo x, si_errno x, si_code x, si_reserved0 x, si_fault_addr x, tt))
    (fun '(a, b, c, d, e, _) => MkSiginfo a b c d e)
    (c_int32 ** c_int32 ** c_int32 ** c_int32 ** c_u64 ** c_pad 104)%cstruct.

Record poly_aarch64_sigcontext : Type := MkA64Context {
  ac_fault_address : Z; ac_regs : list Z; ac_sp : Z; ac_pc : Z; ac_pstate : Z; ac_reserved_align : Z;
}.
Definition ct_aarch64_sigcontext : ctype poly_aarch64_sigcontext :=
  c_struct (fun x => (ac_fault_address x, ac_regs x, ac_sp x, ac_pc x, ac_pstate x, ac_reserved_align x, tt))
    (fun '(a, b, c, d, e, f, _) => MkA64Context a b c d e f)
    (c_u64 ** c_array 31 c_u64 ** c_u64 ** c_u64 ** c_u64 ** c_u64 ** c_pad 4096)%cstruct.

Record poly_aarch64_ucontext : Type := MkA64Ucontext {
  au_uc_flags : Z; au_uc_link : Z; au_stack_sp : Z; au_stack_flags : Z; au_stack_size : Z; au_sigmask : Z;
  au_mcontext : poly_aarch64_sigcontext;
}.
Definition ct_aarch64_ucontext : ctype poly_aarch64_ucontext :=
  c_struct (fun x => (au_uc_flags x, au_uc_link x, au_stack_sp x, au_stack_flags x, tt, au_stack_size x,
    au_sigmask x, tt, au_mcontext x))
    (fun '(a, b, c, d, _, e, f, _, g) => MkA64Ucontext a b c d e f g)
    (c_u64 ** c_u64 ** c_u64 ** c_int32 ** c_pad 4 ** c_u64 ** c_u64 ** c_pad (120 + 8) **
      ct_aarch64_sigcontext)%cstruct.

Record poly_aarch64_virtual_signal_frame : Type := MkA64Frame {
  af_magic : Z; af_size : Z; af_signum : Z; af_handler_args : list Z; af_siginfo : poly_siginfo;
  af_ucontext : poly_aarch64_ucontext; af_saved_event_record : poly_event_record;
  af_saved_event_args : list Z; af_saved_trap_restore : poly_trap_restore_state;
  af_saved_native_return : poly_native_return_state; af_gpr : list Z; af_fp : list poly_u128; af_nzcv : Z;
  af_fpcr : Z; af_fpsr : Z; af_guest_sigmask : Z; af_interrupted_pc : Z;
}.
Definition ct_aarch64_virtual_signal_frame : ctype poly_aarch64_virtual_signal_frame :=
  c_struct (fun x => (af_magic x, af_size x, af_signum x, af_handler_args x, af_siginfo x, af_ucontext x,
    af_saved_event_record x, af_saved_event_args x, af_saved_trap_restore x, af_saved_native_return x, af_gpr x,
    af_fp x, af_nzcv x, af_fpcr x, af_fpsr x, af_guest_sigmask x, af_interrupted_pc x))
    (fun '(a, b, c, d, e, f, g, h, i, j, k, l, m, n, o, p, q) => MkA64Frame a b c d e f g h i j k l m n o p q)
    (c_u64 ** c_u64 ** c_u64 ** c_array 4 c_u64 ** ct_siginfo ** ct_aarch64_ucontext ** ct_event_record **
      c_array 8 c_u64 ** ct_trap_restore_state ** ct_native_return_state ** c_array 32 c_u64 ** c_array 32
      ct_u128 ** c_u64 ** c_u64 ** c_u64 ** c_u64 ** c_u64)%cstruct.

Record poly_riscv_sigcontext : Type := MkRvContext {
  rc_pc : Z; rc_regs : list Z; rc_fcsr : Z;
}.
Definition ct_riscv_sigcontext : ctype poly_riscv_sigcontext :=
  c_struct (fun x => (rc_pc x, rc_regs x, rc_fcsr x, tt))
    (fun '(a, b, c, _) => MkRvContext a b c)
    (c_u64 ** c_array 32 c_u64 ** c_u64 ** c_pad 512)%cstruct.

Record poly_riscv_ucontext : Type := MkRvUcontext {
  ru_uc_flags : Z; ru_uc_link : Z; ru_stack_sp : Z; ru_stack_flags : Z; ru_stack_size : Z; ru_sigmask : Z;
  ru_mcontext : poly_riscv_sigcontext;
}.
Definition ct_riscv_ucontext : ctype poly_riscv_ucontext :=
  c_struct (fun x => (ru_uc_flags x, ru_uc_link x, ru_stack_sp x, ru_stack_flags x, tt, ru_stack_size x,
    ru_sigmask x, tt, ru_mcontext x))
    (fun '(a, b, c, d, _, e, f, _, g) => MkRvUcontext a b c d e f g)
    (c_u64 ** c_u64 ** c_u64 ** c_int32 ** c_pad 4 ** c_u64 ** c_u64 ** c_pad 128 **
      ct_riscv_sigcontext)%cstruct.

Record poly_riscv_virtual_signal_frame : Type := MkRvFrame {
  rf_magic : Z; rf_size : Z; rf_signum : Z; rf_handler_args : list Z; rf_siginfo : poly_siginfo;
  rf_ucontext : poly_riscv_ucontext; rf_saved_event_record : poly_event_record;
  rf_saved_event_args : list Z; rf_saved_trap_restore : poly_trap_restore_state;
  rf_saved_native_return : poly_native_return_state; rf_gpr : list Z; rf_fp : list poly_u128; rf_fcsr : Z;
  rf_guest_sigmask : Z; rf_interrupted_pc : Z;
}.
Definition ct_riscv_virtual_signal_frame : ctype poly_riscv_virtual_signal_frame :=
  c_struct (fun x => (rf_magic x, rf_size x, rf_signum x, rf_handler_args x, rf_siginfo x, rf_ucontext x,
    rf_saved_event_record x, rf_saved_event_args x, rf_saved_trap_restore x, rf_saved_native_return x, rf_gpr x,
    rf_fp x, rf_fcsr x, rf_guest_sigmask x, rf_interrupted_pc x))
    (fun '(a, b, c, d, e, f, g, h, i, j, k, l, m, n, o) => MkRvFrame a b c d e f g h i j k l m n o)
    (c_u64 ** c_u64 ** c_u64 ** c_array 4 c_u64 ** ct_siginfo ** ct_riscv_ucontext ** ct_event_record ** c_array
      8 c_u64 ** ct_trap_restore_state ** ct_native_return_state ** c_array 32 c_u64 ** c_array 32 ct_u128 **
      c_u64 ** c_u64 ** c_u64)%cstruct.

(** ** State *)

(** [poly_*_active_signal_frame] and [poly_*_guest_sigaltstack_*] of one frontend. *)
Record frontend_signals : Type := MkFrontend {
  fs_active_frame : Z;
  fs_stack_sp : Z;
  fs_stack_size : Z;
  fs_stack_flags : Z;
}.

Record thread : Type := MkThread {
  th_signals : signals;
  (** [poly_pending_virtual_signal_mask] *)
  th_pending : Z;
  th_aarch64 : frontend_signals;
  th_riscv : frontend_signals;
}.

Definition set_signals (s : signals) (t : thread) : thread :=
  MkThread s (th_pending t) (th_aarch64 t) (th_riscv t).
Definition set_pending (p : Z) (t : thread) : thread :=
  MkThread (th_signals t) p (th_aarch64 t) (th_riscv t).
Definition th_memory (t : thread) : memory := sg_memory (th_signals t).
Definition set_thread_memory (m : memory) (t : thread) : thread :=
  set_signals (set_memory m (th_signals t)) t.
(** The shadow mask becomes valid with the value [mask]. *)
Definition set_guest_mask (mask : Z) (t : thread) : thread :=
  set_signals (set_masks (Some mask) (sg_host_mask (th_signals t)) (th_signals t)) t.

Definition frontend (mode : Z) (t : thread) : frontend_signals :=
  if mode =? POLY_MODE_RAW_RISCV then th_riscv t else th_aarch64 t.
Definition set_frontend (mode : Z) (f : frontend_signals) (t : thread) : thread :=
  if mode =? POLY_MODE_RAW_RISCV then MkThread (th_signals t) (th_pending t) (th_aarch64 t) f
  else MkThread (th_signals t) (th_pending t) f (th_riscv t).
Definition set_active_frame (mode address : Z) (t : thread) : thread :=
  let f := frontend mode t in
  set_frontend mode (MkFrontend address (fs_stack_sp f) (fs_stack_size f) (fs_stack_flags f)) t.

(** [pending &= ~(1 << (signum - 1))] *)
Definition clear_pending (signum : Z) (t : thread) : thread :=
  set_pending (Z.land (th_pending t) (Z.lnot (Z.shiftl 1 (signum - 1)))) t.

(** ** Prefaulting *)

(** The addresses that [poly_prefault_range] reads and writes back. *)
Definition poly_prefault_range (address length : Z) : list Z :=
  if (address =? 0) || (length =? 0) || (length >? SIZE_MAX) then []
  else ((fun k => address + 4096 * Z.of_nat k) <$> seq 0 (Z.to_nat ((length + 4095) / 4096))) ++
       [address + (length - 1)].

Section Delivery.
Context (probe : mem_probe) (fault_in : list Z -> mem_probe -> mem_probe).
Context (derive : poly_xsave_state -> poly_v2_derive_descriptor -> Z * poly_xsave_state).
Context (current_x86_rsp vdso_sigreturn : Z).

(** ** Alternate signal stacks *)

Definition poly_dispatch_guest_sigaltstack (mode new_stack_addr old_stack_addr : Z) (t : thread) : thread * Z :=
  let f := frontend mode t in
  let on_signal_stack :=
    ((mode =? POLY_MODE_RAW_AARCH64) && negb (fs_active_frame (th_aarch64 t) =? 0)) ||
    ((mode =? POLY_MODE_RAW_RISCV) && negb (fs_active_frame (th_riscv t) =? 0)) in
  if negb (old_stack_addr =? 0) &&
     negb (poly_guest_range_is_mapped probe old_stack_addr (sizeof ct_linux_stack_t) true)
  then (t, neg_errno EFAULT)
  else
    let t :=
      if old_stack_addr =? 0 then t
      else
        let flags := if on_signal_stack && (Z.land (fs_stack_flags f) POLY_LINUX_SS_DISABLE =? 0)
                     then Z.lor (fs_stack_flags f) POLY_LINUX_SS_ONSTACK else fs_stack_flags f in
        set_thread_memory (store_struct ct_linux_stack_t (th_memory t) old_stack_addr
                             (MkStack (fs_stack_sp f) flags (fs_stack_size f))) t in
    if new_stack_addr =? 0 then (t, 0)
    else if on_signal_stack then (t, neg_errno EPERM)
    else if negb (poly_guest_range_is_mapped probe new_stack_addr (sizeof ct_linux_stack_t) false)
    then (t, neg_errno EFAULT)
    else
      let new_stack := load_struct ct_linux_stack_t (th_memory t) new_stack_addr in
      if negb (Z.land (ss_flags new_stack) (Z.lnot POLY_LINUX_SS_DISABLE) =? 0) then (t, neg_errno EINVAL)
      else if negb (Z.land (ss_flags new_stack) POLY_LINUX_SS_DISABLE =? 0) then
        (set_frontend mode (MkFrontend (fs_active_frame f) 0 0 POLY_LINUX_SS_DISABLE) t, 0)
      else if ss_size new_stack <? POLY_AARCH64_MINSIGSTKSZ then (t, neg_errno ENOMEM)
      else if negb (poly_guest_range_is_mapped probe (ss_sp new_stack) (ss_size new_stack) true)
      then (t, neg_errno EFAULT)
      else (set_frontend mode (MkFrontend (fs_active_frame f) (ss_sp new_stack) (ss_size new_stack) 0) t, 0).

(** ** The choice of a signal *)

(** [for (candidate; candidate <= 31; candidate++)], [left] iterations to go. *)
Fixpoint candidates (mode : Z) (left : nat) (candidate : Z) (t : thread) : thread * option (Z * delivery) :=
  match left with
  | O => (t, None)
  | S left' =>
      let bit := Z.shiftl 1 (candidate - 1) in
      if Z.land (th_pending t) bit =? 0 then candidates mode left' (candidate + 1) t
      else if poly_guest_signal_mask_blocks candidate (th_signals t)
      then candidates mode left' (candidate + 1) t
      else
        match poly_guest_signal_action_deliverable vdso_sigreturn mode candidate (th_signals t) with
        | Some d => (t, Some (candidate, d))
        | None => candidates mode left' (candidate + 1) (clear_pending candidate t)
        end
  end.

Definition select_signal (mode forced_signum : Z) (state : poly_xsave_state) (t : thread)
    : thread * option (Z * delivery) :=
  if negb (forced_signum =? 0) then
    if negb (hd_current_mode (xs_header state) =? mode) then (t, None)
    else
      match poly_guest_signal_action_deliverable vdso_sigreturn mode forced_signum (th_signals t) with
      | Some d => (t, Some (forced_signum, d))
      | None => (t, None)
      end
  else if (th_pending t =? 0) || negb (er_source_mode (xs_event_record state) =? mode) then (t, None)
  else candidates mode 31 1 t.

(** ** The interrupted context *)

Definition interrupted_pc (mode forced_signum link : Z) (state : poly_xsave_state) : Z :=
  let event := xs_event_record state in
  let pc := hd_foreign_pc (xs_header state) in
  let pc := if (forced_signum =? 0) && (er_source_mode event =? mode) && negb (er_resume_pc event =? 0)
            then er_resume_pc event else pc in
  let pc := if (pc =? 0) && negb (er_resume_pc event =? 0) then er_resume_pc event else pc in
  let pc := if (pc =? 0) && negb (er_trap_pc event =? 0) then er_trap_pc event else pc in
  if (pc =? 0) && negb (link =? 0) && poly_guest_range_is_mapped probe link 4 false then link else pc.

Record aarch64_registers : Type := MkA64Regs {
  ag_gpr : list Z; ag_fp : list poly_u128; ag_nzcv : Z; ag_fpcr : Z; ag_fpsr : Z;
}.
Record riscv_registers : Type := MkRvRegs {
  rg_gpr : list Z; rg_fp : list poly_u128; rg_fcsr : Z;
}.

(** The registers of the bank, or of the trap-restore bank when that is valid. *)
Definition saved_aarch64 (state : poly_xsave_state) : aarch64_registers :=
  let r := xs_trap_restore state in
  let valid := Z.lor POLY_TRAP_RESTORE_FLAG_VALID POLY_TRAP_RESTORE_FLAG_AARCH64_STATE_VALID in
  if (Z.land (tr_flags r) valid =? valid) && (tr_mode r =? POLY_MODE_RAW_AARCH64) &&
     poly_aarch64_trap_restore_gpr_mask_usable (tr_aarch64_gpr_valid_mask r)
  then MkA64Regs (tr_aarch64_gpr r) (tr_aarch64_fp r) (tr_aarch64_nzcv r) (tr_aarch64_fpcr r) (tr_aarch64_fpsr r)
  else MkA64Regs (xs_aarch64_gpr state) (xs_aarch64_fp state) (as_nzcv (xs_aarch64_status state))
         (as_fpcr (xs_aarch64_status state)) (as_fpsr (xs_aarch64_status state)).

Definition saved_riscv (state : poly_xsave_state) : riscv_registers :=
  let r := xs_trap_restore state in
  let valid := Z.lor POLY_TRAP_RESTORE_FLAG_VALID POLY_TRAP_RESTORE_FLAG_RISCV_STATE_VALID in
  let regs :=
    if (Z.land (tr_flags r) valid =? valid) && (tr_mode r =? POLY_MODE_RAW_RISCV) &&
       negb (tr_riscv_gpr_valid_mask r =? 0)
    then MkRvRegs (tr_riscv_gpr r) (tr_riscv_fp r) (tr_riscv_fcsr r)
    else MkRvRegs (xs_riscv_gpr state) (xs_riscv_fp state) (rvs_fcsr (xs_riscv_status state)) in
  MkRvRegs (<[0%nat := 0]> (rg_gpr regs)) (rg_fp regs) (rg_fcsr regs).

(** ** The place of the frame *)

Definition CALL_AREA_SIZE : Z := 32.

(** [call_area_size + ((sizeof(frame) + 15) & ~15)] *)
Definition total_size (frame_bytes : Z) : Z := CALL_AREA_SIZE + Z.land (frame_bytes + 15) (Z.lnot 15).

Inductive placement : Type :=
| Suppressed
| NoPlace
| Placed (signal_sp : Z) (use_altstack : bool).

Definition place_frame (mode forced_signum signum flags total sp : Z) (t : thread) : placement :=
  let f := frontend mode t in
  if total >=? POLY_VSIG_STACK_SIZE then NoPlace
  else
    let use_altstack :=
      negb (Z.land flags POLY_LINUX_SA_ONSTACK =? 0) && (Z.land (fs_stack_flags f) POLY_LINUX_SS_DISABLE =? 0) &&
      (fs_stack_size f >=? total) && poly_guest_range_is_mapped probe (fs_stack_sp f) (fs_stack_size f) true in
    if (signum =? SIGCHLD) && (forced_signum =? 0) && negb (Z.land flags POLY_LINUX_SA_ONSTACK =? 0) &&
       negb use_altstack
    then Suppressed
    else if negb use_altstack && (sp <? total) then NoPlace
    else
      let stack_top := if use_altstack then u64 (fs_stack_sp f + fs_stack_size f) else sp in
      let signal_sp := Z.land (u64 (stack_top - total)) (u64 (Z.lnot 15)) in
      let mapped := poly_guest_range_is_mapped probe signal_sp total true ||
        poly_guest_range_is_mapped (fault_in (poly_prefault_range signal_sp total) probe) signal_sp total true in
      if mapped then Placed signal_sp use_altstack else NoPlace.

(** The arguments of the handler in the call area, then the frame. *)
Definition store_frame {A} (c : ctype A) (frame : A) (signum siginfo ucontext signal_sp : Z) (m : memory) : memory :=
  let m := store_u64 m (signal_sp + 8) signum in
  let m := store_u64 m (signal_sp + 16) siginfo in
  let m := store_u64 m (signal_sp + 24) ucontext in
  store_struct c m (u64 (signal_sp + CALL_AREA_SIZE)) frame.

(** [offsetof(..., siginfo)] and [offsetof(..., ucontext)] of both frames. *)
Definition SIGINFO_OFFSET : Z := 56.
Definition UCONTEXT_OFFSET : Z := SIGINFO_OFFSET + sizeof ct_siginfo.

(** ** Entering the handler *)

Definition guest_mask (t : thread) : Z := default 0 (sg_mask (th_signals t)).

Definition handler_mask (signum : Z) (d : delivery) (t : thread) : Z :=
  let mask := Z.lor (guest_mask t) (dv_mask d) in
  if Z.land (dv_flags d) SA_NODEFER =? 0 then poly_sigset_add_signal mask signum else mask.

Definition deliver_flags : Z :=
  foldl Z.lor 0 [POLY_V2_DERIVE_FLAG_CHILD_PC; POLY_V2_DERIVE_FLAG_CHILD_SP; POLY_V2_DERIVE_FLAG_CHILD_RETURN;
    POLY_V2_DERIVE_FLAG_EVENT_RECORD].

Definition return_event_flags : Z :=
  Z.lor POLY_EVENT_RECORD_REQUIRED_FLAGS POLY_EVENT_RECORD_FLAG_TRAP_RETURN_RESTORE.

(** The event record of a break at [trap_pc] that resumes at [resume_pc]. *)
Definition break_event (mode trap_pc resume_pc : Z) : poly_event_record :=
  MkEvent POLY_TRAP_BREAK mode 0 0 trap_pc resume_pc return_event_flags [0; 0].

Definition set_descriptor (mode pc sp result reason number selector flags : Z) (args : list Z)
    : poly_v2_derive_descriptor :=
  let d := poly_init_derive_descriptor mode in
  MkDerive (dd_magic d) (dd_bytes d) (dd_version d) (dd_header_bytes d) deliver_flags (dd_frontend d) sp
    (dd_child_tls d) result (dd_parent_return_value d) (dd_state_key d) pc reason number selector flags args.

(** What the thread keeps when a handler is entered. *)
Definition enter_thread (mode forced_signum signum : Z) (d : delivery) (frame_sp : Z) (m : memory) (t : thread)
    : thread :=
  let mask := handler_mask signum d t in
  let t := set_thread_memory m t in
  let t := if forced_signum =? 0 then clear_pending signum t else t in
  set_active_frame mode frame_sp (set_guest_mask mask t).

Definition monitor_sp (r : poly_trap_restore_state) : Z :=
  if nth 15 (tr_x86_gpr r) 0 =? 0 then current_x86_rsp else nth 15 (tr_x86_gpr r) 0.

(** A trap-restore bank with the registers of one frontend, cleaned. *)
Definition aarch64_bank (r : poly_trap_restore_state) (regs : aarch64_registers) : poly_trap_restore_state :=
  poly_sanitize_aarch64_trap_restore_payload
    (MkRestore (Z.lor POLY_TRAP_RESTORE_FLAG_VALID POLY_TRAP_RESTORE_FLAG_AARCH64_STATE_VALID)
       POLY_MODE_RAW_AARCH64 (tr_reserved0 r) (tr_x86_gpr r) (tr_x86_xmm r) POLY_AARCH64_GPR_VALID_MASK
       (ag_gpr regs) (ag_fp regs) (ag_nzcv regs) (ag_fpcr regs) (ag_fpsr regs) (tr_aarch64_reserved r)
       (tr_riscv_gpr_valid_mask r) (tr_riscv_gpr r) (tr_riscv_fp r) (tr_riscv_fcsr r) (tr_riscv_reserved r)
       (tr_reserved r)).

Definition riscv_bank (r : poly_trap_restore_state) (regs : riscv_registers) : poly_trap_restore_state :=
  poly_sanitize_riscv_trap_restore_payload
    (MkRestore (Z.lor POLY_TRAP_RESTORE_FLAG_VALID POLY_TRAP_RESTORE_FLAG_RISCV_STATE_VALID)
       POLY_MODE_RAW_RISCV (tr_reserved0 r) (tr_x86_gpr r) (tr_x86_xmm r) (tr_aarch64_gpr_valid_mask r)
       (tr_aarch64_gpr r) (tr_aarch64_fp r) (tr_aarch64_nzcv r) (tr_aarch64_fpcr r) (tr_aarch64_fpsr r)
       (tr_aarch64_reserved r) POLY_RISCV_GPR_VALID_MASK_FULL (rg_gpr regs) (rg_fp regs) (rg_fcsr regs)
       (tr_riscv_reserved r) (tr_reserved r)).

Definition set_monitor_sp (sp : Z) (r : poly_trap_restore_state) : poly_trap_restore_state :=
  set_tr_x86_gpr (<[15%nat := sp]> (tr_x86_gpr r)) r.

(** Mode, resume address and event record of the state image. *)
Definition set_resume (mode pc : Z) (event : poly_event_record) (s : poly_xsave_state) : poly_xsave_state :=
  set_xs_event_record event
    (set_xs_header (set_hd_foreign_pc pc (set_hd_current_mode mode (xs_header s))) s).

(** ** AArch64 *)

Definition aarch64_signal_frame (signum fault_address fault_code pc frame_sp : Z) (use_altstack : bool)
    (regs : aarch64_registers) (state : poly_xsave_state) (t : thread) : poly_aarch64_virtual_signal_frame :=
  let f := th_aarch64 t in
  let event := xs_event_record state in
  let r := xs_trap_restore state in
  MkA64Frame POLY_AARCH64_VSIGFRAME_MAGIC (sizeof ct_aarch64_virtual_signal_frame) signum
    [0; signum; u64 (frame_sp + SIGINFO_OFFSET); u64 (frame_sp + UCONTEXT_OFFSET)]
    (MkSiginfo (signed 32 signum) 0 (signed 32 fault_code) 0 fault_address)
    (MkA64Ucontext 0 0 (fs_stack_sp f)
       (if use_altstack then Z.lor (fs_stack_flags f) POLY_LINUX_SS_ONSTACK else fs_stack_flags f)
       (fs_stack_size f) 0
       (MkA64Context fault_address (take 31 (ag_gpr regs)) (nth 31 (ag_gpr regs) 0) pc (ag_nzcv regs) 0))
    event (if er_reason event =? 0 then repeat 0 8 else xs_event_args state)
    (set_monitor_sp (monitor_sp r) r) (xs_native_return state)
    (ag_gpr regs) (ag_fp regs) (ag_nzcv regs) (ag_fpcr regs) (ag_fpsr regs) (guest_mask t) pc.

(** The registers that the handler starts with. *)
Definition aarch64_handler_gpr (signum siginfo ucontext restorer signal_sp : Z) (gpr : list Z) : list Z :=
  <[31%nat := signal_sp]> (<[30%nat := restorer]> (<[2%nat := ucontext]> (<[1%nat := siginfo]>
    (<[0%nat := signum]> gpr)))).

Definition enter_aarch64 (signum signal_sp : Z) (d : delivery) (frame : poly_aarch64_virtual_signal_frame)
    (state : poly_xsave_state) : poly_xsave_state :=
  let pc := af_interrupted_pc frame in
  let siginfo := nth 2 (af_handler_args frame) 0 in
  let ucontext := nth 3 (af_handler_args frame) 0 in
  let gpr := aarch64_handler_gpr signum siginfo ucontext (dv_restorer d) signal_sp in
  let s := poly_clear_native_return_state state in
  let s := set_resume POLY_MODE_RAW_AARCH64 (dv_handler d)
    (break_event POLY_MODE_RAW_AARCH64 (if pc =? 0 then dv_handler d else pc) (dv_handler d)) s in
  let s := set_xs_aarch64_gpr (gpr (xs_aarch64_gpr s)) s in
  set_xs_trap_restore
    (aarch64_bank (set_monitor_sp (nth 15 (tr_x86_gpr (af_saved_trap_restore frame)) 0) (xs_trap_restore s))
       (MkA64Regs (gpr (af_gpr frame)) (af_fp frame) (af_nzcv frame) (af_fpcr frame) (af_fpsr frame))) s.

(** The handler is entered at [signal_sp]: memory, thread and state image. *)
Definition deliver_aarch64 (forced_signum fault_address fault_code signum : Z) (d : delivery) (signal_sp : Z)
    (use_altstack : bool) (state : poly_xsave_state) (t : thread) : thread * poly_xsave_state * bool :=
  let pc := interrupted_pc POLY_MODE_RAW_AARCH64 forced_signum (nth 30 (xs_aarch64_gpr state) 0) state in
  let frame_sp := u64 (signal_sp + CALL_AREA_SIZE) in
  let frame := aarch64_signal_frame signum fault_address fault_code pc frame_sp use_altstack
    (saved_aarch64 state) state t in
  let m := store_frame ct_aarch64_virtual_signal_frame frame signum (nth 2 (af_handler_args frame) 0)
    (nth 3 (af_handler_args frame) 0) signal_sp (th_memory t) in
  let t := enter_thread POLY_MODE_RAW_AARCH64 forced_signum signum d frame_sp m t in
  let state := enter_aarch64 signum signal_sp d frame state in
  let '(status, state) := derive state
    (set_descriptor POLY_MODE_RAW_AARCH64 (dv_handler d) signal_sp signum POLY_TRAP_BREAK 0 0 return_event_flags
       (repeat 0 8)) in
  (t, state, status =? 0).

Definition poly_try_deliver_aarch64_signal (forced_signum fault_address fault_code : Z)
    (state : poly_xsave_state) (t : thread) : thread * poly_xsave_state * bool :=
  if negb (fs_active_frame (th_aarch64 t) =? 0) then (t, state, false)
  else
    match select_signal POLY_MODE_RAW_AARCH64 forced_signum state t with
    | (t, None) => (t, state, false)
    | (t, Some (signum, d)) =>
        match place_frame POLY_MODE_RAW_AARCH64 forced_signum signum (dv_flags d)
                (total_size (sizeof ct_aarch64_virtual_signal_frame)) (nth 31 (ag_gpr (saved_aarch64 state)) 0) t with
        | Suppressed => (clear_pending signum t, state, false)
        | NoPlace => (t, state, false)
        | Placed signal_sp use_altstack =>
            deliver_aarch64 forced_signum fault_address fault_code signum d signal_sp use_altstack state t
        end
    end.

(** ** RISC-V *)

Definition riscv_signal_frame (signum fault_address fault_code pc frame_sp : Z) (use_altstack : bool)
    (regs : riscv_registers) (state : poly_xsave_state) (t : thread) : poly_riscv_virtual_signal_frame :=
  let f := th_riscv t in
  let event := xs_event_record state in
  let r := xs_trap_restore state in
  MkRvFrame POLY_RISCV_VSIGFRAME_MAGIC (sizeof ct_riscv_virtual_signal_frame) signum
    [0; signum; u64 (frame_sp + SIGINFO_OFFSET); u64 (frame_sp + UCONTEXT_OFFSET)]
    (MkSiginfo (signed 32 signum) 0 (signed 32 fault_code) 0 fault_address)
    (MkRvUcontext 0 0 (fs_stack_sp f)
       (if use_altstack then Z.lor (fs_stack_flags f) POLY_LINUX_SS_ONSTACK else fs_stack_flags f)
       (fs_stack_size f) 0
       (MkRvContext pc (<[0%nat := 0]> (rg_gpr regs)) (Z.land (rg_fcsr regs) POLY_RISCV_FCSR_MASK)))
    event (if er_reason event =? 0 then repeat 0 8 else xs_event_args state)
    (set_monitor_sp (monitor_sp r) r) (xs_native_return state)
    (<[0%nat := 0]> (rg_gpr regs)) (rg_fp regs) (Z.land (rg_fcsr regs) POLY_RISCV_FCSR_MASK) (guest_mask t) pc.

Definition riscv_handler_gpr (signum siginfo ucontext restorer signal_sp : Z) (gpr : list Z) : list Z :=
  <[12%nat := ucontext]> (<[11%nat := siginfo]> (<[10%nat := signum]> (<[2%nat := signal_sp]>
    (<[1%nat := restorer]> (<[0%nat := 0]> gpr))))).

Definition enter_riscv (signum signal_sp : Z) (d : delivery) (frame : poly_riscv_virtual_signal_frame)
    (state : poly_xsave_state) : poly_xsave_state :=
  let pc := rf_interrupted_pc frame in
  let siginfo := nth 2 (rf_handler_args frame) 0 in
  let ucontext := nth 3 (rf_handler_args frame) 0 in
  let gpr := riscv_handler_gpr signum siginfo ucontext (dv_restorer d) signal_sp in
  let s := poly_clear_native_return_state state in
  let s := set_resume POLY_MODE_RAW_RISCV (dv_handler d)
    (break_event POLY_MODE_RAW_RISCV (if pc =? 0 then dv_handler d else pc) (dv_handler d)) s in
  let s := set_xs_riscv_gpr (gpr (xs_riscv_gpr s)) s in
  set_xs_trap_restore
    (riscv_bank (set_monitor_sp (nth 15 (tr_x86_gpr (rf_saved_trap_restore frame)) 0) (xs_trap_restore s))
       (MkRvRegs (gpr (rf_gpr frame)) (rf_fp frame) (rf_fcsr frame))) s.

Definition deliver_riscv (forced_signum fault_address fault_code signum : Z) (d : delivery) (signal_sp : Z)
    (use_altstack : bool) (state : poly_xsave_state) (t : thread) : thread * poly_xsave_state * bool :=
  let pc := interrupted_pc POLY_MODE_RAW_RISCV forced_signum (nth 1 (xs_riscv_gpr state) 0) state in
  let frame_sp := u64 (signal_sp + CALL_AREA_SIZE) in
  let frame := riscv_signal_frame signum fault_address fault_code pc frame_sp use_altstack
    (saved_riscv state) state t in
  let m := store_frame ct_riscv_virtual_signal_frame frame signum (nth 2 (rf_handler_args frame) 0)
    (nth 3 (rf_handler_args frame) 0) signal_sp (th_memory t) in
  let t := enter_thread POLY_MODE_RAW_RISCV forced_signum signum d frame_sp m t in
  let state := enter_riscv signum signal_sp d frame state in
  let '(status, state) := derive state
    (set_descriptor POLY_MODE_RAW_RISCV (dv_handler d) signal_sp signum POLY_TRAP_BREAK 0 0 return_event_flags
       (repeat 0 8)) in
  (t, state, status =? 0).

Definition poly_try_deliver_riscv_signal (forced_signum fault_address fault_code : Z)
    (state : poly_xsave_state) (t : thread) : thread * poly_xsave_state * bool :=
  if negb (fs_active_frame (th_riscv t) =? 0) then (t, state, false)
  else
    match select_signal POLY_MODE_RAW_RISCV forced_signum state t with
    | (t, None) => (t, state, false)
    | (t, Some (signum, d)) =>
        match place_frame POLY_MODE_RAW_RISCV forced_signum signum (dv_flags d)
                (total_size (sizeof ct_riscv_virtual_signal_frame)) (nth 2 (rg_gpr (saved_riscv state)) 0) t with
        | Suppressed => (clear_pending signum t, state, false)
        | NoPlace => (t, state, false)
        | Placed signal_sp use_altstack =>
            deliver_riscv forced_signum fault_address fault_code signum d signal_sp use_altstack state t
        end
    end.

(** ** Return from a handler *)

Definition restored_pc (pc : Z) (event : poly_event_record) : Z :=
  if pc =? 0 then
    if negb (er_resume_pc event =? 0) then er_resume_pc event
    else if negb (er_trap_pc event =? 0) then er_trap_pc event
    else pc
  else pc.

(** The event record and arguments after the return: the interrupted event, or
    a break at the restored address when there was none. *)
Definition returned_event (mode pc : Z) (event : poly_event_record) : poly_event_record :=
  if negb (er_reason event =? 0) then
    set_er_flags (Z.lor (er_flags event) return_event_flags) (set_er_resume_pc pc event)
  else break_event mode pc pc.

Definition returned_args (event : poly_event_record) (args : list Z) : list Z :=
  if negb (er_reason event =? 0) then args else repeat 0 8.

(** The trap-restore bank that the registers are put into. *)
Definition returned_bank (event : poly_event_record) (saved : poly_trap_restore_state) : poly_trap_restore_state :=
  if negb (er_reason event =? 0) then saved else zeroed ct_trap_restore_state.

Definition return_thread (mode mask : Z) (t : thread) : thread :=
  set_active_frame mode 0 (set_guest_mask mask t).

(** [*result_out = frame...; derive]: the result is EINVAL when the processor
    refuses the state. *)
Definition finish_return (mode pc sp result : Z) (s : poly_xsave_state) : poly_xsave_state * Z :=
  let event := xs_event_record s in
  let '(status, s) := derive s
    (set_descriptor mode pc sp result (er_reason event) (er_number event) (er_selector event) (er_flags event)
       (xs_event_args s)) in
  (s, if status =? 0 then result else neg_errno EINVAL).

Definition return_aarch64 (frame : poly_aarch64_virtual_signal_frame) (state : poly_xsave_state) : poly_xsave_state :=
  let mc := au_mcontext (af_ucontext frame) in
  let event := af_saved_event_record frame in
  let pc := restored_pc (ac_pc mc) event in
  let sp := ac_sp mc in
  let gpr := ac_regs mc ++ [sp] in
  let redirected := (negb (af_interrupted_pc frame =? 0) && negb (pc =? af_interrupted_pc frame)) ||
    negb (sp =? nth 31 (af_gpr frame) 0) in
  let s := set_xs_native_return (af_saved_native_return frame) state in
  let s := set_xs_aarch64_gpr gpr s in
  let s := if redirected then poly_clear_foreign_return_transition_state s else s in
  let s := set_resume POLY_MODE_RAW_AARCH64 pc (returned_event POLY_MODE_RAW_AARCH64 pc event) s in
  let s := set_xs_event_args (returned_args event (af_saved_event_args frame)) s in
  let s := set_xs_aarch64_fp (af_fp frame) s in
  let a := xs_aarch64_status s in
  let s := set_xs_aarch64_status
    (MkA64Status (af_nzcv frame) (af_fpcr frame) (af_fpsr frame) (as_reservation_addr a) (as_reservation_size a)
       (as_reserved a)) s in
  set_xs_trap_restore
    (set_monitor_sp (monitor_sp (af_saved_trap_restore frame))
       (aarch64_bank (returned_bank event (af_saved_trap_restore frame))
          (MkA64Regs gpr (af_fp frame) (af_nzcv frame) (af_fpcr frame) (af_fpsr frame)))) s.

(** [has_trap_state && state != NULL] is [Some]. *)
Definition poly_handle_aarch64_rt_sigreturn (state : option poly_xsave_state) (t : thread)
    : thread * option poly_xsave_state * Z :=
  match state with
  | None => (t, None, neg_errno EINVAL)
  | Some s =>
      let active := fs_active_frame (th_aarch64 t) in
      let frame_addr := if active =? 0 then nth 31 (xs_aarch64_gpr s) 0 else active in
      if negb (poly_guest_range_is_mapped probe frame_addr (sizeof ct_aarch64_virtual_signal_frame) false)
      then (t, Some s, neg_errno EFAULT)
      else
        let frame := load_struct ct_aarch64_virtual_signal_frame (th_memory t) frame_addr in
        if negb (af_magic frame =? POLY_AARCH64_VSIGFRAME_MAGIC) ||
           negb (af_size frame =? sizeof ct_aarch64_virtual_signal_frame) ||
           (af_signum frame =? 0) || (af_signum frame >=? SHADOW_SIZE)
        then (t, Some s, neg_errno EINVAL)
        else
          let mc := au_mcontext (af_ucontext frame) in
          let '(s, result) := finish_return POLY_MODE_RAW_AARCH64
            (restored_pc (ac_pc mc) (af_saved_event_record frame)) (ac_sp mc) (nth 0 (ac_regs mc) 0)
            (return_aarch64 frame s) in
          (return_thread POLY_MODE_RAW_AARCH64 (af_guest_sigmask frame) t, Some s, result)
  end.

Definition return_riscv (frame : poly_riscv_virtual_signal_frame) (state : poly_xsave_state) : poly_xsave_state :=
  let mc := ru_mcontext (rf_ucontext frame) in
  let event := rf_saved_event_record frame in
  let pc := restored_pc (rc_pc mc) event in
  let sp := nth 2 (rc_regs mc) 0 in
  let gpr := <[2%nat := sp]> (<[0%nat := 0]> (rc_regs mc)) in
  let fcsr := Z.land (rc_fcsr mc) POLY_RISCV_FCSR_MASK in
  let redirected := (negb (rf_interrupted_pc frame =? 0) && negb (pc =? rf_interrupted_pc frame)) ||
    negb (sp =? nth 2 (rf_gpr frame) 0) in
  let s := set_xs_native_return (rf_saved_native_return frame) state in
  let s := set_xs_riscv_gpr gpr s in
  let s := if redirected then poly_clear_foreign_return_transition_state s else s in
  let s := set_resume POLY_MODE_RAW_RISCV pc (returned_event POLY_MODE_RAW_RISCV pc event) s in
  let s := set_xs_event_args (returned_args event (rf_saved_event_args frame)) s in
  let s := set_xs_riscv_fp (rf_fp frame) s in
  let v := xs_riscv_status s in
  let s := set_xs_riscv_status
    (MkRvStatus fcsr (rvs_reservation_addr v) (rvs_reservation_size v) (rvs_reserved v)) s in
  set_xs_trap_restore
    (set_monitor_sp (monitor_sp (rf_saved_trap_restore frame))
       (riscv_bank (returned_bank event (rf_saved_trap_restore frame)) (MkRvRegs gpr (rf_fp frame) fcsr))) s.

Definition poly_handle_riscv_rt_sigreturn (state : option poly_xsave_state) (t : thread)
    : thread * option poly_xsave_state * Z :=
  match state with
  | None => (t, None, neg_errno EINVAL)
  | Some s =>
      let active := fs_active_frame (th_riscv t) in
      let sp := nth 2 (xs_riscv_gpr s) 0 in
      let frame_addr := if (active =? 0) && negb (sp =? 0) then u64 (sp + 32) else active in
      if negb (poly_guest_range_is_mapped probe frame_addr (sizeof ct_riscv_virtual_signal_frame) false)
      then (t, Some s, neg_errno EFAULT)
      else
        let frame := load_struct ct_riscv_virtual_signal_frame (th_memory t) frame_addr in
        if negb (rf_magic frame =? POLY_RISCV_VSIGFRAME_MAGIC) ||
           negb (rf_size frame =? sizeof ct_riscv_virtual_signal_frame) ||
           (rf_signum frame =? 0) || (rf_signum frame >=? SHADOW_SIZE)
        then (t, Some s, neg_errno EINVAL)
        else
          let mc := ru_mcontext (rf_ucontext frame) in
          let '(s, result) := finish_return POLY_MODE_RAW_RISCV
            (restored_pc (rc_pc mc) (rf_saved_event_record frame)) (nth 2 (rc_regs mc) 0) (nth 10 (rc_regs mc) 0)
            (return_riscv frame s) in
          (return_thread POLY_MODE_RAW_RISCV (rf_guest_sigmask frame) t, Some s, result)
  end.

End Delivery.

(** ** Sizes *)

#[export] Instance ct_linux_stack_layout : Layout ct_linux_stack_t := _.
#[export] Instance ct_aarch64_frame_layout : Layout ct_aarch64_virtual_signal_frame := _.
#[export] Instance ct_riscv_frame_layout : Layout ct_riscv_virtual_signal_frame := _.

Lemma frame_sizes :
  sizeof ct_linux_stack_t = 24 /\ sizeof ct_siginfo = 128 /\
  sizeof ct_aarch64_virtual_signal_frame = 8368 /\ total_size 8368 = 8400 /\
  sizeof ct_riscv_virtual_signal_frame = 4752 /\ total_size 4752 = 4784.
Proof. vm_compute. split_and!; reflexivity. Qed.

(** Where a handler finds its arguments in a frame. *)
Lemma load_aarch64_frame (m : memory) (address : Z) :
  let f := load_struct ct_aarch64_virtual_signal_frame m address in
  load_struct ct_siginfo m (address + SIGINFO_OFFSET) = af_siginfo f /\
  load_struct ct_aarch64_ucontext m (address + UCONTEXT_OFFSET) = af_ucontext f.
Proof.
  intros f. eassert (f = _) as ->.
  { unfold f, ct_aarch64_virtual_signal_frame. rewrite load_fields, !load_pair by apply _. cbv beta iota. reflexivity. }
  cbn [af_siginfo af_ucontext]. split; reflexivity.
Qed.

Lemma load_riscv_frame (m : memory) (address : Z) :
  let f := load_struct ct_riscv_virtual_signal_frame m address in
  load_struct ct_siginfo m (address + SIGINFO_OFFSET) = rf_siginfo f /\
  load_struct ct_riscv_ucontext m (address + UCONTEXT_OFFSET) = rf_ucontext f.
Proof.
  intros f. eassert (f = _) as ->.
  { unfold f, ct_riscv_virtual_signal_frame. rewrite load_fields, !load_pair by apply _. cbv beta iota. reflexivity. }
  cbn [rf_siginfo rf_ucontext]. split; reflexivity.
Qed.
