(* ===== verification/SignalDelivery.v ===== *)
(** Theorems about signal delivery ([SignalFrame]): which signal is chosen and
    that every pending signal gets its turn, where the frame lies, what the
    handler finds, and that [rt_sigreturn] restores the interrupted context. *)

From Stdlib Require Import Btauto.
From stdpp Require Import relations.
From S2P Require Import Prelude GuestMemory GuestSignals CStruct Seccomp TrapState SignalFrame.

(** ** Bits of signal sets *)

Lemma land_bit (p k : Z) : 0 <= k -> (Z.land p (Z.shiftl 1 k) =? 0) = negb (Z.testbit p k).
Proof.
  intros Hk. rewrite Z.shiftl_1_l. destruct (Z.testbit p k) eqn:E; cbn [negb].
  - apply Z.eqb_neq. intros H. apply (f_equal (fun x => Z.testbit x k)) in H.
    by rewrite Z.land_spec, E, Z.pow2_bits_true, Z.bits_0 in H.
  - apply Z.eqb_eq, Z.bits_inj'. intros i Hi. rewrite Z.land_spec, Z.bits_0, Z.pow2_bits_eqb by done.
    destruct (Z.eqb_spec k i) as [->|]; [by rewrite E|apply andb_false_r].
Qed.

Lemma clear_bit (p k i : Z) : 0 <= k -> 0 <= i ->
  Z.testbit (Z.land p (Z.lnot (Z.shiftl 1 k))) i = Z.testbit p i && negb (i =? k).
Proof.
  intros Hk Hi. rewrite Z.land_spec, Z.lnot_spec, Z.shiftl_1_l, Z.pow2_bits_eqb by done.
  by rewrite (Z.eqb_sym i k).
Qed.

(** Signal [k] is pending. *)
Definition pending (k : Z) (t : thread) : bool := Z.testbit (th_pending t) (k - 1).

Lemma pending_clear (k j : Z) (t : thread) : 1 <= k -> 1 <= j ->
  pending j (clear_pending k t) = pending j t && negb (j =? k).
Proof.
  intros Hk Hj. unfold pending, clear_pending. cbn [set_pending th_pending]. rewrite clear_bit by lia.
  f_equal. f_equal. destruct (Z.eqb_spec (j - 1) (k - 1)), (Z.eqb_spec j k); lia.
Qed.

(** Two threads that differ in the pending signals only. *)
Definition same_but_pending (t t' : thread) : Prop := t' = set_pending (th_pending t') t.

Lemma same_clear (k : Z) (t : thread) : same_but_pending t (clear_pending k t).
Proof. done. Qed.

Lemma same_trans (t1 t2 t3 : thread) :
  same_but_pending t1 t2 -> same_but_pending t2 t3 -> same_but_pending t1 t3.
Proof. unfold same_but_pending. intros -> ->. done. Qed.

(** ** The choice of a signal *)

Section Choice.
Context (vdso_sigreturn mode : Z).

Definition action (k : Z) (t : thread) : option delivery :=
  poly_guest_signal_action_deliverable vdso_sigreturn mode k (th_signals t).
Definition blocked (k : Z) (t : thread) : bool := poly_guest_signal_mask_blocks k (th_signals t).

(** Signal [k] can be delivered with [d]. *)
Definition ready (k : Z) (d : delivery) (t : thread) : Prop :=
  1 <= k <= 31 /\ pending k t = true /\ blocked k t = false /\ action k t = Some d.

(** The loop drops signals that have no handler for this frontend. *)
Definition dropped (k : Z) (t : thread) : bool := pending k t && negb (blocked k t) && bool_decide (action k t = None).

Lemma clear_keeps (k j : Z) (t : thread) : 1 <= k -> 1 <= j -> j <> k ->
  pending j (clear_pending k t) = pending j t /\ dropped j (clear_pending k t) = dropped j t /\
  (forall d, ready j d (clear_pending k t) <-> ready j d t).
Proof.
  intros Hk Hj Hne. assert (pending j (clear_pending k t) = pending j t) as H.
  { rewrite pending_clear by done. destruct (Z.eqb_spec j k); [done|apply andb_true_r]. }
  split; [done|]. unfold dropped, ready. by rewrite H.
Qed.

(** [t'] is [t] without the pending signals of [lo .. hi) that are dropped. *)
Definition drops (lo hi : Z) (t t' : thread) : Prop :=
  same_but_pending t t' /\
  forall j, 1 <= j -> pending j t' = pending j t && negb ((lo <=? j) && (j <? hi) && dropped j t).

Lemma drops_none (lo : Z) (t : thread) : drops lo lo t t.
Proof.
  split; [by destruct t|]. intros j Hj.
  destruct (Z.leb_spec lo j), (Z.ltb_spec j lo); try lia; by rewrite andb_true_r.
Qed.

(** A step of the loop that does not choose [lo]. *)
Lemma drops_keep (lo hi : Z) (t t' : thread) : dropped lo t = false -> drops (lo + 1) hi t t' -> drops lo hi t t'.
Proof.
  intros Hd [Hs H]. split; [done|]. intros j Hj. rewrite H by done. f_equal. f_equal.
  destruct (Z.eq_dec j lo) as [->|]; [by rewrite Hd, !andb_false_r|].
  f_equal. f_equal. destruct (Z.leb_spec (lo + 1) j), (Z.leb_spec lo j); lia.
Qed.

Lemma drops_drop (lo hi : Z) (t t' : thread) : 1 <= lo -> lo < hi -> dropped lo t = true ->
  drops (lo + 1) hi (clear_pending lo t) t' -> drops lo hi t t'.
Proof.
  intros Hlo Hhi Hd [Hs H]. split; [by eapply same_trans; [apply same_clear|]|]. intros j Hj. rewrite H by done.
  destruct (Z.eq_dec j lo) as [->|Hne].
  - rewrite Hd. destruct (Z.leb_spec (lo + 1) lo), (Z.leb_spec lo lo), (Z.ltb_spec lo hi); try lia.
    rewrite pending_clear, Z.eqb_refl by done. by rewrite !andb_false_r.
  - destruct (clear_keeps lo j t Hlo Hj Hne) as (-> & -> & _). f_equal. f_equal. f_equal. f_equal.
    destruct (Z.leb_spec (lo + 1) j), (Z.leb_spec lo j); lia.
Qed.

(** No signal of [lo .. hi) is ready. *)
Definition none_ready (lo hi : Z) (t : thread) : Prop := forall j d, lo <= j < hi -> ~ ready j d t.

Lemma none_ready_step (lo hi : Z) (t : thread) :
  (forall d, ~ ready lo d t) -> none_ready (lo + 1) hi t -> none_ready lo hi t.
Proof.
  intros Hlo H j d Hj. destruct (Z.eq_dec j lo) as [->|]; [apply Hlo|]. apply H. lia.
Qed.

(** The loop chooses the first ready signal; the signals before it that have no
    handler are no longer pending. *)
Lemma candidates_spec (left : nat) : forall candidate t t' r,
  1 <= candidate -> candidates vdso_sigreturn mode left candidate t = (t', r) ->
  match r with
  | Some (k, d) =>
      candidate <= k < candidate + Z.of_nat left /\
      pending k t = true /\ blocked k t = false /\ action k t = Some d /\
      none_ready candidate k t /\ drops candidate k t t'
  | None => none_ready candidate (candidate + Z.of_nat left) t /\
      drops candidate (candidate + Z.of_nat left) t t'
  end.
Proof.
  induction left as [|left IH]; intros c t t' r Hc; cbn [candidates].
  { intros [= <- <-]. rewrite Z.add_0_r. split; [intros j d; lia|apply drops_none]. }
  rewrite land_bit by lia. fold (pending c t) (blocked c t) (action c t).
  replace (c + Z.of_nat (S left)) with (c + 1 + Z.of_nat left) by lia.
  assert (forall t1, (forall d, ~ ready c d t) -> (forall j, c < j -> pending j t1 = pending j t) -> same_but_pending t t1 ->
    (forall hi t', c < hi -> drops (c + 1) hi t1 t' -> drops c hi t t') ->
    candidates vdso_sigreturn mode left (c + 1) t1 = (t', r) -> match r with
    | Some (k, d) => c <= k < c + 1 + Z.of_nat left /\ pending k t = true /\ blocked k t = false /\
        action k t = Some d /\ none_ready c k t /\ drops c k t t'
    | None => none_ready c (c + 1 + Z.of_nat left) t /\ drops c (c + 1 + Z.of_nat left) t t' end) as skip.
  { intros t1 Hnr Hpend Hsame Hdr H. apply IH in H; [|lia].
    assert (forall k, none_ready (c + 1) k t1 -> none_ready c k t) as Hnr'.
    { intros k Hk. apply none_ready_step; [done|]. intros j d Hj (? & Hp & Hb & Ha). apply (Hk j d Hj).
      split; [done|]. rewrite Hpend by lia. rewrite Hsame. by split_and!. }
    destruct r as [[k d]|]; [|destruct H; split; [auto|apply Hdr; [lia|done]]].
    destruct H as (Hk & Hp & Hb & Ha & Hn & Hd). rewrite Hpend in Hp by lia. rewrite Hsame in Hb, Ha.
    split_and!; try done; try lia; [auto|apply Hdr; [lia|done]]. }
  destruct (pending c t) eqn:Hp; cbn [negb].
  2:{ apply skip; [by intros d (_ & ? & _); congruence|done|by destruct t|].
      intros. apply drops_keep; [|done]. unfold dropped. by rewrite Hp. }
  destruct (blocked c t) eqn:Hb.
  { apply skip; [by intros d (_ & _ & ? & _); congruence|done|by destruct t|].
    intros. apply drops_keep; [|done]. unfold dropped. by rewrite Hb, andb_false_r. }
  destruct (action c t) as [d|] eqn:Ha.
  { intros [= <- <-]. split_and!; try done; try lia; [intros j d'; lia|apply drops_none]. }
  apply skip; [by intros d (_ & _ & _ & ?); congruence| |done|].
  - intros j Hj. by apply clear_keeps; lia.
  - intros hi t2 Hhi. apply drops_drop; [done|done|]. unfold dropped. by rewrite Hp, Hb, Ha, bool_decide_eq_true_2.
Qed.
End Choice.

(** The signal chosen without a forced one is the lowest that is ready. *)
Lemma select_spec (vdso_sigreturn mode : Z) (state : poly_xsave_state) (t t' : thread) (k : Z) (d : delivery) :
  select_signal vdso_sigreturn mode 0 state t = (t', Some (k, d)) ->
  ready vdso_sigreturn mode k d t /\ none_ready vdso_sigreturn mode 1 k t /\ drops vdso_sigreturn mode 1 k t t' /\
  er_source_mode (xs_event_record state) = mode.
Proof.
  unfold select_signal. cbn [Z.eqb negb].
  destruct ((th_pending t =? 0) || negb (er_source_mode (xs_event_record state) =? mode)) eqn:E; [done|].
  breflect. intros Hc. apply candidates_spec in Hc as (Hk & Hp & Hb & Ha & Hn & Hd); [|lia].
  split_and!; try done. split_and!; try done; lia.
Qed.

(** As long as a signal is ready, one that is not above it is chosen. *)
Lemma select_ready (vdso_sigreturn mode : Z) (state : poly_xsave_state) (t : thread) (k : Z) (d : delivery) :
  er_source_mode (xs_event_record state) = mode -> ready vdso_sigreturn mode k d t ->
  exists t' k' d', select_signal vdso_sigreturn mode 0 state t = (t', Some (k', d')) /\ k' <= k.
Proof.
  intros Hm Hr. unfold select_signal. cbn [Z.eqb negb]. rewrite Hm, Z.eqb_refl. cbn [negb]. rewrite orb_false_r.
  destruct (Z.eqb_spec (th_pending t) 0) as [H0|_].
  { destruct Hr as (_ & Hp & _). unfold pending in Hp. by rewrite H0, Z.bits_0 in Hp. }
  destruct (candidates vdso_sigreturn mode 31 1 t) as [t' r] eqn:E. apply candidates_spec in E; [|lia].
  destruct r as [[k' d']|].
  - exists t', k', d'. split; [done|]. destruct E as (Hk & _ & _ & _ & Hn & _).
    destruct (Z.le_gt_cases k' k); [done|]. exfalso. apply (Hn k d); [|done]. destruct Hr. lia.
  - destruct E as [Hn _]. exfalso. apply (Hn k d); [|done]. destruct Hr. lia.
Qed.

(** ** The place of the frame *)

Lemma align_down_16 (x : Z) : in_width 64 x ->
  Z.land x (u64 (Z.lnot 15)) = x / 16 * 16 /\ x - 15 <= x / 16 * 16 <= x.
Proof.
  intros Hx. unfold in_width in Hx. split; [|pose proof (Z.div_mod x 16); pose proof (Z.mod_pos_bound x 16); lia].
  change 16 with (2 ^ 4). rewrite <- (land_lnot_ones x 4) by lia. change (2 ^ 4 - 1) with 15.
  apply Z.bits_inj'. intros i Hi. rewrite !Z.land_spec. unfold wrap.
  destruct (Z.lt_ge_cases i 64).
  - by rewrite Z.mod_pow2_bits_low by lia.
  - rewrite (Z.bits_above_log2 x i); [done|lia|].
    destruct (Z.eq_dec x 0) as [->|]; [cbn; lia|]. apply Z.log2_lt_pow2; [lia|].
    apply Z.lt_le_trans with (2 ^ 64); [lia|]. apply Z.pow_le_mono_r; lia.
Qed.

(** The bounds of a thread's values. *)
Definition frontend_ok (f : frontend_signals) : Prop :=
  in_width 64 (fs_active_frame f) /\ in_width 64 (fs_stack_sp f) /\ in_width 64 (fs_stack_size f) /\
  (fs_stack_flags f = 0 \/ fs_stack_flags f = POLY_LINUX_SS_DISABLE).

Section Placement.
Context (probe : mem_probe) (fault_in : list Z -> mem_probe -> mem_probe).
Context (mode forced_signum signum flags total sp : Z) (t : thread).
Context (Hf : frontend_ok (frontend mode t)) (Hsp : in_width 64 sp) (Htotal : 0 < total < POLY_VSIG_STACK_SIZE).

(** Where a frame is placed: 16-aligned, in mapped writable memory that does not
    wrap, just below the stack pointer or the top of the alternate stack. *)
Lemma place_frame_spec (signal_sp : Z) (alt : bool) :
  place_frame probe fault_in mode forced_signum signum flags total sp t = Placed signal_sp alt ->
  let top := if alt then fs_stack_sp (frontend mode t) + fs_stack_size (frontend mode t) else sp in
  signal_sp mod 16 = 0 /\ 0 < signal_sp /\ top - total - 15 <= signal_sp <= top - total /\
  signal_sp + total <= UINT64_MAX /\
  (alt = true -> total <= fs_stack_size (frontend mode t) /\ Z.land flags POLY_LINUX_SA_ONSTACK <> 0 /\
    Z.land (fs_stack_flags (frontend mode t)) POLY_LINUX_SS_DISABLE = 0).
Proof using Hf Hsp Htotal.
  unfold place_frame. destruct (Z.geb_spec total POLY_VSIG_STACK_SIZE); [lia|].
  destruct Hf as (_ & Hs & Hz & _). unfold in_width in *.
  set (use := negb _ && _ && _ && _). destruct ((signum =? SIGCHLD) && _ && _ && _); [done|].
  destruct (negb use && (sp <? total)) eqn:Hroom; [done|].
  set (top := if use then _ else _). set (ssp := Z.land _ _).
  intros Hpl. assert (use = alt /\ ssp = signal_sp /\
    (poly_guest_range_is_mapped probe ssp total true = true \/
     poly_guest_range_is_mapped (fault_in (poly_prefault_range ssp total) probe) ssp total true = true)) as (Hu & <- & Hmap).
  { destruct (_ || _) eqn:E in Hpl; [|done]. injection Hpl as <- <-. apply orb_prop in E. auto. }
  assert (top = (if alt then fs_stack_sp (frontend mode t) + fs_stack_size (frontend mode t) else sp) /\ total <= top /\
    (alt = true -> total <= fs_stack_size (frontend mode t) /\ Z.land flags POLY_LINUX_SA_ONSTACK <> 0 /\
    Z.land (fs_stack_flags (frontend mode t)) POLY_LINUX_SS_DISABLE = 0)) as (Htop & Hle & Halt).
  { unfold top. rewrite Hu. destruct alt.
    - apply andb_prop in Hu as [Hu Hm]. apply andb_prop in Hu as [Hu Hg]. breflect.
      apply mapped_no_wrap in Hm as [? Hw]; [|lia|lia]. unfold UINT64_MAX in Hw.
      rewrite wrap_small by (unfold in_width; lia). split; [done|]. split; [lia|]. intros _. split_and!; [lia|done|done].
    - rewrite Hu in Hroom. cbn [negb andb] in Hroom. apply Z.ltb_ge in Hroom. by split_and!. }
  assert (0 <= top < 2 ^ 64) as Hr.
  { rewrite Htop. destruct alt; [|done]. rewrite <- Htop. unfold top. rewrite Hu. apply wrap_range. lia. }
  assert (ssp = (top - total) / 16 * 16 /\ top - total - 15 <= ssp <= top - total) as [Hssp Hb].
  { unfold ssp. rewrite (wrap_small 64 (top - total)) by (unfold in_width; lia).
    destruct (align_down_16 (top - total)) as [-> ?]; [unfold in_width; lia|]. done. }
  assert (0 <= ssp) by (rewrite Hssp; pose proof (Z.div_pos (top - total) 16); lia).
  rewrite <- Htop. rewrite Hssp at 1. rewrite Z.mod_mul by lia.
  assert (0 < ssp /\ ssp + total <= UINT64_MAX) as [? ?].
  { destruct Hmap as [E|E]; apply mapped_no_wrap in E; lia. }
  split_and!; try done; lia.
Qed.
End Placement.

(** ** Values of their C types *)

Abbreviation word := (in_width 64).
Definition gpr_ok : list Z -> Prop := c_ok (c_array 32 c_u64).
Definition fp_ok : list poly_u128 -> Prop := c_ok (c_array 32 ct_u128).
Definition aarch64_ok (r : aarch64_registers) : Prop :=
  gpr_ok (ag_gpr r) /\ fp_ok (ag_fp r) /\ word (ag_nzcv r) /\ word (ag_fpcr r) /\ word (ag_fpsr r).
Definition riscv_ok (r : riscv_registers) : Prop := gpr_ok (rg_gpr r) /\ fp_ok (rg_fp r) /\ word (rg_fcsr r).

Definition ksigaction_ok (a : poly_linux_ksigaction) : Prop :=
  word (ksa_handler a) /\ word (ksa_flags a) /\ word (ksa_restorer a) /\ word (ksa_mask a).
Definition delivery_ok (d : delivery) : Prop :=
  word (dv_handler d) /\ word (dv_restorer d) /\ word (dv_flags d) /\ word (dv_mask d).

Record thread_ok (t : thread) : Prop := {
  ok_memory : byte_memory (th_memory t);
  ok_mask : word (guest_mask t);
  ok_actions : Forall (fun a => from_option ksigaction_ok True a) (sg_action (th_signals t));
  ok_aarch64 : frontend_ok (th_aarch64 t);
  ok_riscv : frontend_ok (th_riscv t);
}.

Abbreviation state_ok := (c_ok ct_xsave_state).

(** Unfold the value predicate of a structure into those of its fields. *)
Ltac c_fields H := cbn [c_ok c_struct c_pair fst snd] in H.

Lemma nth_word (n i : nat) (l : list Z) : c_ok (c_array n c_u64) l -> word (nth i l 0).
Proof.
  intros [_ H]. destruct (nth_in_or_default i l 0) as [Hi| ->]; [|unfold in_width; lia].
  rewrite Forall_forall in H. apply (H (nth i l 0)). by apply list_elem_of_In.
Qed.

Lemma insert_words (n i : nat) (v : Z) (l : list Z) :
  word v -> c_ok (c_array n c_u64) l -> c_ok (c_array n c_u64) (<[i := v]> l).
Proof.
  intros Hv [Hl H]. split; [by rewrite length_insert|]. by apply Forall_insert.
Qed.

Lemma zero_words (n k : nat) : c_ok (c_array n (c_uint k)) (repeat 0 n).
Proof.
  split; [apply repeat_length|]. apply Forall_forall. intros x Hx%list_elem_of_In.
  apply repeat_spec in Hx as ->. cbn. unfold in_width. lia.
Qed.

Lemma repeat_ok {A} (n : nat) (c : ctype A) (v : A) : c_ok c v -> c_ok (c_array n c) (repeat v n).
Proof.
  intros Hv. split; [apply repeat_length|]. apply Forall_forall. intros x Hx%list_elem_of_In.
  by apply repeat_spec in Hx as ->.
Qed.

Lemma ones_width (w x : Z) : 0 <= w -> Z.land x (Z.ones w) = x -> in_width w x.
Proof.
  intros Hw H. rewrite <- H, Z.land_ones by done. apply Z.mod_pos_bound. by apply Z.pow_pos_nonneg.
Qed.

Lemma width_ones (w x : Z) : 0 <= w -> in_width w x -> Z.land x (Z.ones w) = x.
Proof. intros Hw H. rewrite Z.land_ones by done. by apply Z.mod_small. Qed.

Lemma land_word (w x m : Z) : 0 <= w -> in_width w x -> in_width w (Z.land x m).
Proof.
  intros Hw Hx. apply ones_width; [done|]. rewrite <- Z.land_assoc, (Z.land_comm m), Z.land_assoc.
  by rewrite width_ones.
Qed.

Lemma lor_word (w x y : Z) : 0 <= w -> in_width w x -> in_width w y -> in_width w (Z.lor x y).
Proof.
  intros Hw Hx Hy. apply ones_width; [done|]. by rewrite Z.land_lor_distr_l, !width_ones.
Qed.

Create HintDb values discriminated.
#[export] Hint Resolve nth_word insert_words zero_words repeat_ok land_word lor_word zeroed_ok wrap_range : values.
#[export] Hint Extern 1 (_ <= _) => lia : values.
#[export] Hint Extern 3 (in_width _ (Zpos _)) => vm_compute; split; [discriminate | reflexivity] : values.
#[export] Hint Extern 3 (in_width _ 0) => vm_compute; split; [discriminate | reflexivity] : values.

(** Take the value predicate of a structure in the context apart. *)
Ltac ok_inv H :=
  let T := type of H in
  match T with c_ok ?c _ => unfold c in H end; cbn [c_ok c_struct c_pair fst snd] in H; destruct_and! H.
(** Take the image apart, and the given kind of structure in it. *)
Ltac ok_part c :=
  match goal with H : c_ok c _ |- _ => ok_inv H end.
(** Prove the value predicate of a structure field by field. *)
Ltac ok_split := cbn [c_ok c_struct c_pair fst snd]; split_and!.
(** The fields that are in the context, padding and zeros. *)
Ltac ok_done :=
  match goal with
  | |- c_ok (c_pad _) _ => exact I
  | |- c_ok (c_uint _) 0 => vm_compute; split; [discriminate | reflexivity]
  | |- c_ok (c_uint _) _ => assumption
  | |- c_ok c_int32 _ => assumption
  | |- c_ok (c_array _ _) _ => assumption
  | H : c_ok ?c ?x |- c_ok ?c ?x => exact H
  end.

Lemma saved_aarch64_ok (s : poly_xsave_state) : state_ok s -> aarch64_ok (saved_aarch64 s).
Proof.
  intros H. ok_inv H. unfold saved_aarch64. destruct (_ && _ && _).
  - ok_part ct_trap_restore_state. by split_and!.
  - ok_part ct_aarch64_status_state. by split_and!.
Qed.

Lemma saved_riscv_ok (s : poly_xsave_state) : state_ok s -> riscv_ok (saved_riscv s).
Proof.
  intros H. ok_inv H. unfold saved_riscv. destruct (_ && _ && _); cbn [rg_gpr rg_fp rg_fcsr].
  - ok_part ct_trap_restore_state. split_and!; cbn; auto with values. apply insert_words; [auto with values|done].
  - ok_part ct_riscv_status_state. split_and!; cbn; auto with values. apply insert_words; [auto with values|done].
Qed.

Lemma interrupted_pc_word (probe : mem_probe) (mode forced link : Z) (s : poly_xsave_state) :
  state_ok s -> word link -> word (interrupted_pc probe mode forced link s).
Proof.
  intros H Hl. ok_inv H. ok_part ct_xsave_header. ok_part ct_event_record.
  unfold interrupted_pc. by repeat destruct (_ && _).
Qed.

Lemma set_monitor_sp_ok (sp : Z) (r : poly_trap_restore_state) :
  word sp -> c_ok ct_trap_restore_state r -> c_ok ct_trap_restore_state (set_monitor_sp sp r).
Proof.
  intros Hsp H. unfold set_monitor_sp, set_tr_x86_gpr. ok_inv H. unfold ct_trap_restore_state. ok_split; try done.
  by apply insert_words.
Qed.

Lemma monitor_sp_word (rsp : Z) (r : poly_trap_restore_state) :
  word rsp -> c_ok ct_trap_restore_state r -> word (monitor_sp rsp r).
Proof.
  intros Hr H. unfold monitor_sp. destruct (_ =? 0); [done|]. ok_inv H. eauto with values.
Qed.

Lemma siginfo_ok (signum code address : Z) :
  word address -> 0 <= signum < 65 -> c_ok ct_siginfo (MkSiginfo (signed 32 signum) 0 (signed 32 code) 0 address).
Proof.
  intros Ha Hs. unfold ct_siginfo. ok_split; cbn [c_ok c_int32 c_uint c_pad si_signo si_errno si_code si_reserved0 si_fault_addr]; try done.
  all: unfold signed; pose proof (wrap_range 32 code ltac:(lia)); pose proof (wrap_range 32 signum ltac:(lia));
    unfold in_width in *; change (2 ^ (32 - 1)) with (2 ^ 31); try (destruct (Z.ltb_spec (u32 code) (2 ^ 31)));
    try (destruct (Z.ltb_spec (u32 signum) (2 ^ 31))); lia.
Qed.

Lemma frame_size_words :
  word (sizeof ct_aarch64_virtual_signal_frame) /\ word (sizeof ct_riscv_virtual_signal_frame).
Proof. destruct frame_sizes as (_ & _ & -> & _ & -> & _). unfold in_width. lia. Qed.

#[local] Opaque sizeof c_size.

Section FrameOk.
Context (rsp : Z) (Hrsp : word rsp).
Context (signum address code pc frame_sp : Z) (alt : bool) (s : poly_xsave_state) (t : thread).
Context (Hsig : 0 <= signum < 65) (Haddr : word address) (Hpc : word pc) (Hs : state_ok s) (Ht : thread_ok t).

Lemma stack_flags_ok (f : frontend_signals) : frontend_ok f ->
  - 2 ^ 31 <= (if alt then Z.lor (fs_stack_flags f) POLY_LINUX_SS_ONSTACK else fs_stack_flags f) < 2 ^ 31.
Proof using. intros (_ & _ & _ & [-> | ->]); destruct alt; vm_compute; split; done. Qed.

Lemma event_args_ok : c_ok (c_array 8 c_u64) (if er_reason (xs_event_record s) =? 0 then repeat 0 8 else xs_event_args s).
Proof using Hs. destruct (_ =? 0); [apply zero_words|]. pose proof Hs as H. by ok_inv H. Qed.

Lemma saved_restore_ok : c_ok ct_trap_restore_state (set_monitor_sp (monitor_sp rsp (xs_trap_restore s)) (xs_trap_restore s)).
Proof using Hs Hrsp.
  pose proof Hs as H. ok_inv H. apply set_monitor_sp_ok; [by apply monitor_sp_word|done].
Qed.

Lemma handler_args_ok (a b : Z) : c_ok (c_array 4 c_u64) [0; signum; u64 a; u64 b].
Proof using Hsig.
  split; [done|]. repeat constructor; try apply wrap_range; unfold in_width; lia.
Qed.

Lemma aarch64_frame_ok (regs : aarch64_registers) : aarch64_ok regs ->
  c_ok ct_aarch64_virtual_signal_frame (aarch64_signal_frame rsp signum address code pc frame_sp alt regs s t).
Proof using Hrsp Hsig Haddr Hpc Hs Ht.
  intros (Hg & Hf & Hn & Hfc & Hfs). pose proof (ok_aarch64 t Ht) as Hfr. pose proof (stack_flags_ok _ Hfr).
  destruct Hfr as (_ & ? & ? & _). pose proof event_args_ok. pose proof saved_restore_ok.
  pose proof (ok_mask t Ht). pose proof Hs as HS. ok_inv HS. destruct frame_size_words.
  assert (word signum) by (unfold in_width; lia).
  unfold ct_aarch64_virtual_signal_frame, aarch64_signal_frame. ok_split;
    cbn [af_magic af_size af_signum af_handler_args af_siginfo af_ucontext af_saved_event_record af_saved_event_args
         af_saved_trap_restore af_saved_native_return af_gpr af_fp af_nzcv af_fpcr af_fpsr af_guest_sigmask
         af_interrupted_pc]; try ok_done; try (by apply siginfo_ok); try apply handler_args_ok.
  unfold ct_aarch64_ucontext. ok_split;
      cbn [au_uc_flags au_uc_link au_stack_sp au_stack_flags au_stack_size au_sigmask au_mcontext]; try ok_done.
    unfold ct_aarch64_sigcontext. ok_split;
      cbn [ac_fault_address ac_regs ac_sp ac_pc ac_pstate ac_reserved_align]; try ok_done.
  - destruct Hg as [Hl Hall]. split; [rewrite length_take; lia|by apply Forall_take].
  - by apply (nth_word 32).
Qed.

Lemma riscv_frame_ok (regs : riscv_registers) : riscv_ok regs ->
  c_ok ct_riscv_virtual_signal_frame (riscv_signal_frame rsp signum address code pc frame_sp alt regs s t).
Proof using Hrsp Hsig Haddr Hpc Hs Ht.
  intros (Hg & Hf & Hn). pose proof (ok_riscv t Ht) as Hfr. pose proof (stack_flags_ok _ Hfr).
  destruct Hfr as (_ & ? & ? & _). pose proof event_args_ok. pose proof saved_restore_ok.
  pose proof (ok_mask t Ht). pose proof Hs as HS. ok_inv HS. destruct frame_size_words.
  assert (word signum) by (unfold in_width; lia).
  assert (gpr_ok (<[0%nat := 0]> (rg_gpr regs))) by (by apply insert_words).
  assert (word (Z.land (rg_fcsr regs) POLY_RISCV_FCSR_MASK)) by (by apply land_word).
  unfold ct_riscv_virtual_signal_frame, riscv_signal_frame. ok_split;
    cbn [rf_magic rf_size rf_signum rf_handler_args rf_siginfo rf_ucontext rf_saved_event_record rf_saved_event_args
         rf_saved_trap_restore rf_saved_native_return rf_gpr rf_fp rf_fcsr rf_guest_sigmask
         rf_interrupted_pc]; try ok_done; try (by apply siginfo_ok); try apply handler_args_ok.
  unfold ct_riscv_ucontext. ok_split;
      cbn [ru_uc_flags ru_uc_link ru_stack_sp ru_stack_flags ru_stack_size ru_sigmask ru_mcontext]; try ok_done.
    unfold ct_riscv_sigcontext. ok_split; cbn [rc_pc rc_regs rc_fcsr]; ok_done.
Qed.
End FrameOk.
