(* ===== verification/SignalReturn.v ===== *)
(** Theorems about entering a signal handler and returning from it
    ([SignalFrame]), on top of [SignalDelivery]. *)

From Stdlib Require Import Btauto.
From stdpp Require Import relations.
From S2P Require Import Prelude GuestMemory GuestSignals CStruct Seccomp TrapState SignalFrame SignalDelivery.

#[local] Opaque sizeof c_size.

(** ** The frame in memory *)

Section StoreFrame.
Context {A : Type} (c : ctype A) `{!Layout c} (frame : A) (Hok : c_ok c frame).
Context (signum siginfo ucontext signal_sp : Z).
Context (H0 : 0 < signal_sp) (Hend : signal_sp + total_size (sizeof c) <= UINT64_MAX).

Lemma frame_fits : 0 <= sizeof c /\ CALL_AREA_SIZE + sizeof c <= total_size (sizeof c).
Proof using.
  pose proof (sizeof_nonneg c) as Hn. unfold total_size. change 15 with (2 ^ 4 - 1) at 2.
  rewrite land_lnot_ones by lia. pose proof (round_up_pow2 (sizeof c) 4 ltac:(lia)) as [H _].
  replace (sizeof c + 15) with (sizeof c + 2 ^ 4 - 1) by lia. lia.
Qed.

Lemma frame_address : u64 (signal_sp + CALL_AREA_SIZE) = signal_sp + 32.
Proof using H0 Hend.
  pose proof frame_fits. unfold CALL_AREA_SIZE, UINT64_MAX in *. apply wrap_small. unfold in_width. lia.
Qed.

(** Reading the frame back, from any memory that has its bytes. *)
Lemma stored_frame_reads (m m' : memory) :
  (forall a, signal_sp + 32 <= a < signal_sp + 32 + sizeof c ->
     m' a = store_frame c frame signum siginfo ucontext signal_sp m a) ->
  load_struct c m' (signal_sp + 32) = frame.
Proof using H0 Hend Hok Layout0.
  intros Hm. pose proof frame_fits. unfold CALL_AREA_SIZE, UINT64_MAX in *.
  rewrite (load_struct_ext c (store_frame c frame signum siginfo ucontext signal_sp m)) by (done || lia).
  unfold store_frame. rewrite frame_address. apply load_store_struct; try done; lia.
Qed.

(** Nothing outside the reserved area changes. *)
Lemma stored_frame_outside (m : memory) (a : Z) :
  0 <= a < 2 ^ 64 -> a < signal_sp + 8 \/ signal_sp + 32 + sizeof c <= a ->
  store_frame c frame signum siginfo ucontext signal_sp m a = m a.
Proof using H0 Hend Hok Layout0.
  intros Ha Hout. pose proof frame_fits. unfold CALL_AREA_SIZE, UINT64_MAX in *.
  unfold store_frame. rewrite frame_address. rewrite store_struct_outside by (done || lia).
  unfold store_u64. rewrite !store_outside; rewrite ?le_bytes_length; try done; lia.
Qed.

Lemma stored_frame_bytes (m : memory) : byte_memory m ->
  byte_memory (store_frame c frame signum siginfo ucontext signal_sp m).
Proof using Layout0.
  intros Hm. unfold store_frame. apply store_struct_bytes; [apply _|].
  assert (forall m a v, byte_memory m -> byte_memory (store_u64 m a v)) as Hs.
  { intros m0 a v Hm0 b. unfold store_u64, store_bytes.
    destruct (le_bytes 8 v !! _) as [x|] eqn:E; [|apply Hm0]. destruct (b =? u64 b); [|apply Hm0].
    apply (Forall_lookup_1 _ _ _ _ (le_bytes_range 8 v) E). }
  by repeat apply Hs.
Qed.
End StoreFrame.

(** ** Delivery, step by step *)

Section Roundtrip.
Context (probe : mem_probe) (fault_in : list Z -> mem_probe -> mem_probe).
Context (derive : poly_xsave_state -> poly_v2_derive_descriptor -> Z * poly_xsave_state).
Context (rsp vdso : Z) (Hrsp : word rsp).

(** A thread in which only the pending signals changed. *)
Lemma thread_ok_pending (t t' : thread) : same_but_pending t t' -> thread_ok t -> thread_ok t'.
Proof using. unfold same_but_pending. intros -> [? ? ? ? ?]. by split. Qed.

(** A chosen signal has a number of the table, and the thread changes in its
    pending signals only. *)
Lemma select_ok (mode forced : Z) (s : poly_xsave_state) (t t' : thread) (k : Z) (d : delivery) :
  0 <= forced -> select_signal vdso mode forced s t = (t', Some (k, d)) ->
  0 < k < SHADOW_SIZE /\ same_but_pending t t' /\
  poly_guest_signal_action_deliverable vdso mode k (th_signals t) = Some d.
Proof using.
  intros Hf. unfold select_signal. destruct (Z.eqb_spec forced 0) as [->|Hne]; cbn [negb].
  - intros H. pose proof (select_spec vdso mode s t t' k d) as Hs. unfold select_signal in Hs. cbn [Z.eqb negb] in Hs.
    destruct (Hs H) as ((Hk & _ & _ & Ha) & _ & [Hsame _] & _). unfold SHADOW_SIZE. split_and!; done || lia.
  - destruct (negb _); [done|]. destruct (poly_guest_signal_action_deliverable _ _ _ _) as [d'|] eqn:E; [|done].
    intros [= <- <- <-]. unfold poly_guest_signal_action_deliverable in E.
    destruct (Z.geb_spec forced SHADOW_SIZE); [done|]. split_and!; [lia|lia|by destruct t|].
    unfold poly_guest_signal_action_deliverable. by destruct (Z.geb_spec forced SHADOW_SIZE); [lia|].
Qed.

Lemma deliverable_ok (mode k : Z) (t : thread) (d : delivery) : word vdso -> thread_ok t ->
  poly_guest_signal_action_deliverable vdso mode k (th_signals t) = Some d -> delivery_ok d.
Proof using.
  intros Hv Ht. unfold poly_guest_signal_action_deliverable. destruct (_ >=? _); [done|].
  destruct (sg_action (th_signals t) !! Z.to_nat k) as [[a|]|] eqn:E; cbn [default from_option id]; try done.
  pose proof (Forall_lookup_1 _ _ _ _ (ok_actions t Ht) E) as (? & ? & ? & ?).
  destruct (_ || _ || _); [done|]. destruct (negb _); [done|]. destruct (_ =? 0) eqn:Er; [done|]. intros [= <-].
  split_and!; cbn; try done. by destruct (mode =? _).
Qed.

(** A successful delivery chose a signal and placed its frame. *)
Lemma delivered_aarch64 (forced address code : Z) (s s1 : poly_xsave_state) (t t1 : thread) (b : bool) :
  poly_try_deliver_aarch64_signal probe fault_in derive rsp vdso forced address code s t = (t1, s1, b) ->
  b = true ->
  exists t0 k d signal_sp alt,
    fs_active_frame (th_aarch64 t) = 0 /\
    select_signal vdso POLY_MODE_RAW_AARCH64 forced s t = (t0, Some (k, d)) /\
    place_frame probe fault_in POLY_MODE_RAW_AARCH64 forced k (dv_flags d)
      (total_size (sizeof ct_aarch64_virtual_signal_frame)) (nth 31 (ag_gpr (saved_aarch64 s)) 0) t0 =
      Placed signal_sp alt /\
    deliver_aarch64 probe derive rsp forced address code k d signal_sp alt s t0 = (t1, s1, b).
Proof using.
  unfold poly_try_deliver_aarch64_signal. intros H ->.
  destruct (Z.eqb_spec (fs_active_frame (th_aarch64 t)) 0) as [Ha|]; cbn [negb] in H; [|congruence].
  destruct (select_signal _ _ _ _ _) as [t0 [[k d]|]]; [|congruence].
  destruct (place_frame _ _ _ _ _ _ _ _ _) as [| |signal_sp alt] eqn:Ep; [congruence..|].
  exists t0, k, d, signal_sp, alt. by split_and!.
Qed.

Lemma delivered_riscv (forced address code : Z) (s s1 : poly_xsave_state) (t t1 : thread) (b : bool) :
  poly_try_deliver_riscv_signal probe fault_in derive rsp vdso forced address code s t = (t1, s1, b) ->
  b = true ->
  exists t0 k d signal_sp alt,
    fs_active_frame (th_riscv t) = 0 /\
    select_signal vdso POLY_MODE_RAW_RISCV forced s t = (t0, Some (k, d)) /\
    place_frame probe fault_in POLY_MODE_RAW_RISCV forced k (dv_flags d)
      (total_size (sizeof ct_riscv_virtual_signal_frame)) (nth 2 (rg_gpr (saved_riscv s)) 0) t0 =
      Placed signal_sp alt /\
    deliver_riscv probe derive rsp forced address code k d signal_sp alt s t0 = (t1, s1, b).
Proof using.
  unfold poly_try_deliver_riscv_signal. intros H ->.
  destruct (Z.eqb_spec (fs_active_frame (th_riscv t)) 0) as [Ha|]; cbn [negb] in H; [|congruence].
  destruct (select_signal _ _ _ _ _) as [t0 [[k d]|]]; [|congruence].
  destruct (place_frame _ _ _ _ _ _ _ _ _) as [| |signal_sp alt] eqn:Ep; [congruence..|].
  exists t0, k, d, signal_sp, alt. by split_and!.
Qed.

(** The address that was interrupted is the address that is returned to. *)
Lemma restored_interrupted (mode forced link : Z) (s : poly_xsave_state) :
  restored_pc (interrupted_pc probe mode forced link s) (xs_event_record s) =
  interrupted_pc probe mode forced link s.
Proof using.
  unfold restored_pc. destruct (Z.eqb_spec (interrupted_pc probe mode forced link s) 0) as [E|]; [|done].
  rewrite E. unfold interrupted_pc in E. cbv zeta in E. revert E.
  generalize (er_resume_pc (xs_event_record s)) (er_trap_pc (xs_event_record s)). intros r p.
  generalize (poly_guest_range_is_mapped probe link 4 false) (hd_foreign_pc (xs_header s)). intros m pc.
  generalize ((forced =? 0) && (er_source_mode (xs_event_record s) =? mode)). intros c.
  destruct (Z.eqb_spec r 0), (Z.eqb_spec p 0), (Z.eqb_spec pc 0), c, (Z.eqb_spec link 0), m; subst; cbn;
    repeat match goal with |- context [?x =? 0] => destruct (Z.eqb_spec x 0); subst; cbn end; try done; congruence.
Qed.

Lemma gpr_split (l : list Z) : length l = 32%nat -> take 31 l ++ [nth 31 l 0] = l.
Proof using.
  intros H. assert (drop 31 l = [nth 31 l 0]) as Hd.
  { destruct (lookup_lt_is_Some_2 l 31) as [x Hx]; [lia|]. rewrite (drop_S l x 31 Hx).
    rewrite (nth_lookup_Some _ _ _ _ Hx). f_equal. apply length_zero_iff_nil. rewrite length_drop. lia. }
  rewrite <- Hd. apply take_drop.
Qed.

(** ** The interrupted context *)

(** The state image [r] continues the context that was interrupted in [s] at
    [pc]; what the handler did is in [s2]. *)
Record aarch64_resumed (s s2 : poly_xsave_state) (pc : Z) (r : poly_xsave_state) : Prop := {
  rs_gpr : xs_aarch64_gpr r = ag_gpr (saved_aarch64 s);
  rs_fp : xs_aarch64_fp r = ag_fp (saved_aarch64 s);
  rs_status : as_nzcv (xs_aarch64_status r) = ag_nzcv (saved_aarch64 s) /\
    as_fpcr (xs_aarch64_status r) = ag_fpcr (saved_aarch64 s) /\ as_fpsr (xs_aarch64_status r) = ag_fpsr (saved_aarch64 s);
  rs_pc : hd_foreign_pc (xs_header r) = pc /\ hd_current_mode (xs_header r) = POLY_MODE_RAW_AARCH64 /\
    er_resume_pc (xs_event_record r) = pc;
  rs_native : xs_native_return r = xs_native_return s;
  rs_event : er_reason (xs_event_record s) <> 0 ->
    er_reason (xs_event_record r) = er_reason (xs_event_record s) /\
    er_number (xs_event_record r) = er_number (xs_event_record s) /\ xs_event_args r = xs_event_args s;
  rs_bank : tr_aarch64_gpr (xs_trap_restore r) = ag_gpr (saved_aarch64 s) /\
    tr_aarch64_fp (xs_trap_restore r) = ag_fp (saved_aarch64 s) /\
    tr_mode (xs_trap_restore r) = POLY_MODE_RAW_AARCH64;
  rs_stacks : xs_transition r = xs_transition s2 /\ xs_import_return r = xs_import_return s2 /\
    xs_cross_return r = xs_cross_return s2;
}.

Lemma return_aarch64_resumes (k address code frame_sp : Z) (alt : bool) (forced link : Z)
    (s s2 : poly_xsave_state) (t : thread) :
  state_ok s ->
  let pc := interrupted_pc probe POLY_MODE_RAW_AARCH64 forced link s in
  let frame := aarch64_signal_frame rsp k address code pc frame_sp alt (saved_aarch64 s) s t in
  aarch64_resumed s s2 pc (return_aarch64 rsp frame s2).
Proof using.
  intros Hs pc frame. destruct (saved_aarch64_ok s Hs) as ([Hl _] & _).
  assert (ac_regs (au_mcontext (af_ucontext frame)) ++ [ac_sp (au_mcontext (af_ucontext frame))] =
    ag_gpr (saved_aarch64 s)) as Hgpr by (by apply gpr_split).
  assert (restored_pc (ac_pc (au_mcontext (af_ucontext frame))) (af_saved_event_record frame) = pc) as Hpc
    by apply restored_interrupted.
  assert ((negb (af_interrupted_pc frame =? 0) && negb (pc =? af_interrupted_pc frame)) ||
    negb (ac_sp (au_mcontext (af_ucontext frame)) =? nth 31 (af_gpr frame) 0) = false) as Hred.
  { cbn [frame aarch64_signal_frame af_interrupted_pc af_ucontext au_mcontext ac_sp af_gpr].
    by rewrite !Z.eqb_refl, andb_false_r. }
  unfold return_aarch64. rewrite Hpc, Hgpr, Hred. cbv zeta. unfold returned_event, returned_args.
  split; cbn -[Z.lor Z.land repeat zeroed]; try done.
  - by destruct (negb (er_reason (xs_event_record s) =? 0)).
  - intros Hr. apply Z.eqb_neq in Hr. by rewrite Hr.
Qed.

Record riscv_resumed (s s2 : poly_xsave_state) (pc : Z) (r : poly_xsave_state) : Prop := {
  rr_gpr : xs_riscv_gpr r = rg_gpr (saved_riscv s);
  rr_fp : xs_riscv_fp r = rg_fp (saved_riscv s);
  rr_status : rvs_fcsr (xs_riscv_status r) = Z.land (rg_fcsr (saved_riscv s)) POLY_RISCV_FCSR_MASK;
  rr_pc : hd_foreign_pc (xs_header r) = pc /\ hd_current_mode (xs_header r) = POLY_MODE_RAW_RISCV /\
    er_resume_pc (xs_event_record r) = pc;
  rr_native : xs_native_return r = xs_native_return s;
  rr_event : er_reason (xs_event_record s) <> 0 ->
    er_reason (xs_event_record r) = er_reason (xs_event_record s) /\
    er_number (xs_event_record r) = er_number (xs_event_record s) /\ xs_event_args r = xs_event_args s;
  rr_bank : tr_riscv_gpr (xs_trap_restore r) = rg_gpr (saved_riscv s) /\
    tr_riscv_fp (xs_trap_restore r) = rg_fp (saved_riscv s) /\
    tr_mode (xs_trap_restore r) = POLY_MODE_RAW_RISCV;
  rr_stacks : xs_transition r = xs_transition s2 /\ xs_import_return r = xs_import_return s2 /\
    xs_cross_return r = xs_cross_return s2;
}.

Lemma insert_nth (i : nat) (l : list Z) : <[i := nth i l 0]> l = l.
Proof using.
  destruct (l !! i) as [x|] eqn:E; [|by apply list_insert_ge, lookup_ge_None].
  apply list_insert_id. by rewrite (nth_lookup_Some _ _ _ _ E).
Qed.

Lemma saved_riscv_zero (s : poly_xsave_state) : <[0%nat := 0]> (rg_gpr (saved_riscv s)) = rg_gpr (saved_riscv s).
Proof using. unfold saved_riscv. cbn [rg_gpr]. by rewrite list_insert_insert_eq. Qed.

Lemma return_riscv_resumes (k address code frame_sp : Z) (alt : bool) (forced link : Z)
    (s s2 : poly_xsave_state) (t : thread) :
  let pc := interrupted_pc probe POLY_MODE_RAW_RISCV forced link s in
  let frame := riscv_signal_frame rsp k address code pc frame_sp alt (saved_riscv s) s t in
  riscv_resumed s s2 pc (return_riscv rsp frame s2).
Proof using.
  intros pc frame.
  assert (restored_pc (rc_pc (ru_mcontext (rf_ucontext frame))) (rf_saved_event_record frame) = pc) as Hpc
    by apply restored_interrupted.
  assert (rc_regs (ru_mcontext (rf_ucontext frame)) = rg_gpr (saved_riscv s)) as Hgpr by apply saved_riscv_zero.
  assert ((negb (rf_interrupted_pc frame =? 0) && negb (pc =? rf_interrupted_pc frame)) ||
    negb (nth 2 (rg_gpr (saved_riscv s)) 0 =? nth 2 (rf_gpr frame) 0) = false) as Hred.
  { cbn [frame riscv_signal_frame rf_interrupted_pc rf_gpr].
    by rewrite saved_riscv_zero, !Z.eqb_refl, andb_false_r. }
  unfold return_riscv. rewrite Hpc, Hgpr, Hred. cbv zeta. unfold returned_event, returned_args.
  rewrite saved_riscv_zero, insert_nth.
  split; cbn -[Z.lor Z.land repeat zeroed]; try done.
  - by rewrite <- Z.land_assoc.
  - by destruct (negb (er_reason (xs_event_record s) =? 0)).
  - intros Hr. apply Z.eqb_neq in Hr. by rewrite Hr.
Qed.

(** ** The frame of a delivered signal *)

(** The frame that a successful delivery leaves in memory. *)
Lemma placed_aarch64_frame (forced address code : Z) (s s1 : poly_xsave_state) (t t0 t1 : thread) (k : Z) (d : delivery)
    (signal_sp : Z) (alt b : bool) :
  state_ok s -> thread_ok t -> word address -> 0 <= forced ->
  select_signal vdso POLY_MODE_RAW_AARCH64 forced s t = (t0, Some (k, d)) ->
  place_frame probe fault_in POLY_MODE_RAW_AARCH64 forced k (dv_flags d)
    (total_size (sizeof ct_aarch64_virtual_signal_frame)) (nth 31 (ag_gpr (saved_aarch64 s)) 0) t0 = Placed signal_sp alt ->
  deliver_aarch64 probe derive rsp forced address code k d signal_sp alt s t0 = (t1, s1, b) ->
  let frame := aarch64_signal_frame rsp k address code
    (interrupted_pc probe POLY_MODE_RAW_AARCH64 forced (nth 30 (xs_aarch64_gpr s) 0) s)
    (signal_sp + 32) alt (saved_aarch64 s) s t0 in
  0 < k < SHADOW_SIZE /\ 0 < signal_sp /\
  signal_sp + total_size (sizeof ct_aarch64_virtual_signal_frame) <= UINT64_MAX /\
  same_but_pending t t0 /\ c_ok ct_aarch64_virtual_signal_frame frame /\
  t1 = enter_thread POLY_MODE_RAW_AARCH64 forced k d (signal_sp + 32)
    (store_frame ct_aarch64_virtual_signal_frame frame k (u64 (signal_sp + 32 + SIGINFO_OFFSET))
       (u64 (signal_sp + 32 + UCONTEXT_OFFSET)) signal_sp (th_memory t)) t0.
Proof using Hrsp.
  intros Hs Ht Ha Hf Hsel Hpl Hd frame. destruct (select_ok _ _ _ _ _ _ _ Hf Hsel) as (Hk & Hsame & _).
  pose proof (thread_ok_pending _ _ Hsame Ht) as Ht0.
  destruct (place_frame_spec probe fault_in POLY_MODE_RAW_AARCH64 forced k (dv_flags d)
    (total_size (sizeof ct_aarch64_virtual_signal_frame)) (nth 31 (ag_gpr (saved_aarch64 s)) 0) t0) with signal_sp alt
    as (_ & Hsp & _ & Hend & _); [apply (ok_aarch64 t0 Ht0)|by apply (nth_word 32), saved_aarch64_ok|
    destruct frame_sizes as (_ & _ & -> & -> & _); done|done|].
  unfold deliver_aarch64 in Hd.
  rewrite (frame_address ct_aarch64_virtual_signal_frame signal_sp Hsp Hend) in Hd. fold frame in Hd.
  destruct (derive _ _) as [st s'] in Hd. injection Hd as <- _ _.
  assert (th_memory t0 = th_memory t) as Hm by (rewrite Hsame; done).
  do 4 (split; [done|]). split; [|by rewrite Hm].
  assert (0 <= k < 65) as Hk' by (unfold SHADOW_SIZE in Hk; lia).
  refine (aarch64_frame_ok rsp Hrsp k address code _ _ alt s t0 Hk' Ha _ Hs Ht0 _ (saved_aarch64_ok s Hs)).
  apply interrupted_pc_word; [exact Hs|]. ok_inv Hs. eauto with values.
Qed.

Lemma delivered_aarch64_frame (forced address code : Z) (s s1 : poly_xsave_state) (t t1 : thread) :
  state_ok s -> thread_ok t -> word address -> 0 <= forced ->
  poly_try_deliver_aarch64_signal probe fault_in derive rsp vdso forced address code s t = (t1, s1, true) ->
  exists t0 k d signal_sp alt,
    let frame := aarch64_signal_frame rsp k address code
      (interrupted_pc probe POLY_MODE_RAW_AARCH64 forced (nth 30 (xs_aarch64_gpr s) 0) s)
      (signal_sp + 32) alt (saved_aarch64 s) s t0 in
    select_signal vdso POLY_MODE_RAW_AARCH64 forced s t = (t0, Some (k, d)) /\
    place_frame probe fault_in POLY_MODE_RAW_AARCH64 forced k (dv_flags d)
      (total_size (sizeof ct_aarch64_virtual_signal_frame)) (nth 31 (ag_gpr (saved_aarch64 s)) 0) t0 = Placed signal_sp alt /\
    0 < k < SHADOW_SIZE /\ 0 < signal_sp /\
    signal_sp + total_size (sizeof ct_aarch64_virtual_signal_frame) <= UINT64_MAX /\
    same_but_pending t t0 /\ c_ok ct_aarch64_virtual_signal_frame frame /\
    t1 = enter_thread POLY_MODE_RAW_AARCH64 forced k d (signal_sp + 32)
      (store_frame ct_aarch64_virtual_signal_frame frame k (u64 (signal_sp + 32 + SIGINFO_OFFSET))
         (u64 (signal_sp + 32 + UCONTEXT_OFFSET)) signal_sp (th_memory t)) t0.
Proof using Hrsp.
  intros Hs Ht Ha Hf H.
  destruct (delivered_aarch64 _ _ _ _ _ _ _ _ H eq_refl) as (t0 & k & d & sp & alt & _ & Hsel & Hpl & Hd).
  exists t0, k, d, sp, alt. intros frame. split; [done|]. split; [done|].
  exact (placed_aarch64_frame _ _ _ _ _ _ _ _ _ _ _ _ _ Hs Ht Ha Hf Hsel Hpl Hd).
Qed.

Lemma placed_riscv_frame (forced address code : Z) (s s1 : poly_xsave_state) (t t0 t1 : thread) (k : Z) (d : delivery)
    (signal_sp : Z) (alt b : bool) :
  state_ok s -> thread_ok t -> word address -> 0 <= forced ->
  select_signal vdso POLY_MODE_RAW_RISCV forced s t = (t0, Some (k, d)) ->
  place_frame probe fault_in POLY_MODE_RAW_RISCV forced k (dv_flags d)
    (total_size (sizeof ct_riscv_virtual_signal_frame)) (nth 2 (rg_gpr (saved_riscv s)) 0) t0 = Placed signal_sp alt ->
  deliver_riscv probe derive rsp forced address code k d signal_sp alt s t0 = (t1, s1, b) ->
  let frame := riscv_signal_frame rsp k address code
    (interrupted_pc probe POLY_MODE_RAW_RISCV forced (nth 1 (xs_riscv_gpr s) 0) s)
    (signal_sp + 32) alt (saved_riscv s) s t0 in
  0 < k < SHADOW_SIZE /\ 0 < signal_sp /\
  signal_sp + total_size (sizeof ct_riscv_virtual_signal_frame) <= UINT64_MAX /\
  same_but_pending t t0 /\ c_ok ct_riscv_virtual_signal_frame frame /\
  t1 = enter_thread POLY_MODE_RAW_RISCV forced k d (signal_sp + 32)
    (store_frame ct_riscv_virtual_signal_frame frame k (u64 (signal_sp + 32 + SIGINFO_OFFSET))
       (u64 (signal_sp + 32 + UCONTEXT_OFFSET)) signal_sp (th_memory t)) t0.
Proof using Hrsp.
  intros Hs Ht Ha Hf Hsel Hpl Hd frame. destruct (select_ok _ _ _ _ _ _ _ Hf Hsel) as (Hk & Hsame & _).
  pose proof (thread_ok_pending _ _ Hsame Ht) as Ht0.
  destruct (place_frame_spec probe fault_in POLY_MODE_RAW_RISCV forced k (dv_flags d)
    (total_size (sizeof ct_riscv_virtual_signal_frame)) (nth 2 (rg_gpr (saved_riscv s)) 0) t0) with signal_sp alt
    as (_ & Hsp & _ & Hend & _); [apply (ok_riscv t0 Ht0)|by apply (nth_word 32), saved_riscv_ok|
    destruct frame_sizes as (_ & _ & _ & _ & -> & ->); done|done|].
  unfold deliver_riscv in Hd.
  rewrite (frame_address ct_riscv_virtual_signal_frame signal_sp Hsp Hend) in Hd. fold frame in Hd.
  destruct (derive _ _) as [st s'] in Hd. injection Hd as <- _ _.
  assert (th_memory t0 = th_memory t) as Hm by (rewrite Hsame; done).
  do 4 (split; [done|]). split; [|by rewrite Hm].
  assert (0 <= k < 65) as Hk' by (unfold SHADOW_SIZE in Hk; lia).
  refine (riscv_frame_ok rsp Hrsp k address code _ _ alt s t0 Hk' Ha _ Hs Ht0 _ (saved_riscv_ok s Hs)).
  apply interrupted_pc_word; [exact Hs|]. ok_inv Hs. eauto with values.
Qed.

Lemma delivered_riscv_frame (forced address code : Z) (s s1 : poly_xsave_state) (t t1 : thread) :
  state_ok s -> thread_ok t -> word address -> 0 <= forced ->
  poly_try_deliver_riscv_signal probe fault_in derive rsp vdso forced address code s t = (t1, s1, true) ->
  exists t0 k d signal_sp alt,
    let frame := riscv_signal_frame rsp k address code
      (interrupted_pc probe POLY_MODE_RAW_RISCV forced (nth 1 (xs_riscv_gpr s) 0) s)
      (signal_sp + 32) alt (saved_riscv s) s t0 in
    select_signal vdso POLY_MODE_RAW_RISCV forced s t = (t0, Some (k, d)) /\
    place_frame probe fault_in POLY_MODE_RAW_RISCV forced k (dv_flags d)
      (total_size (sizeof ct_riscv_virtual_signal_frame)) (nth 2 (rg_gpr (saved_riscv s)) 0) t0 = Placed signal_sp alt /\
    0 < k < SHADOW_SIZE /\ 0 < signal_sp /\
    signal_sp + total_size (sizeof ct_riscv_virtual_signal_frame) <= UINT64_MAX /\
    same_but_pending t t0 /\ c_ok ct_riscv_virtual_signal_frame frame /\
    t1 = enter_thread POLY_MODE_RAW_RISCV forced k d (signal_sp + 32)
      (store_frame ct_riscv_virtual_signal_frame frame k (u64 (signal_sp + 32 + SIGINFO_OFFSET))
         (u64 (signal_sp + 32 + UCONTEXT_OFFSET)) signal_sp (th_memory t)) t0.
Proof using Hrsp.
  intros Hs Ht Ha Hf H.
  destruct (delivered_riscv _ _ _ _ _ _ _ _ H eq_refl) as (t0 & k & d & sp & alt & _ & Hsel & Hpl & Hd).
  exists t0, k, d, sp, alt. intros frame. split; [done|]. split; [done|].
  exact (placed_riscv_frame _ _ _ _ _ _ _ _ _ _ _ _ _ Hs Ht Ha Hf Hsel Hpl Hd).
Qed.

Lemma handler_thread (mode forced k : Z) (d : delivery) (address : Z) (m : memory) (t : thread) :
  let t' := enter_thread mode forced k d address m t in
  fs_active_frame (frontend mode t') = address /\ th_memory t' = m.
Proof using.
  unfold enter_thread, set_active_frame, set_guest_mask, set_thread_memory, frontend, set_frontend.
  destruct (mode =? POLY_MODE_RAW_RISCV), (forced =? 0); done.
Qed.

(** Return from the AArch64 handler, with the frame as it was written. *)
Lemma aarch64_returns (forced address code : Z) (s s1 s2 : poly_xsave_state) (t t1 t2 : thread) :
  state_ok s -> thread_ok t -> word address -> 0 <= forced ->
  poly_try_deliver_aarch64_signal probe fault_in derive rsp vdso forced address code s t = (t1, s1, true) ->
  let active := fs_active_frame (th_aarch64 t1) in
  fs_active_frame (th_aarch64 t2) = active ->
  (forall a, active <= a < active + sizeof ct_aarch64_virtual_signal_frame -> th_memory t2 a = th_memory t1 a) ->
  poly_guest_range_is_mapped probe active (sizeof ct_aarch64_virtual_signal_frame) false = true ->
  let pc := interrupted_pc probe POLY_MODE_RAW_AARCH64 forced (nth 30 (xs_aarch64_gpr s) 0) s in
  exists r, aarch64_resumed s s2 pc r /\
    poly_handle_aarch64_rt_sigreturn probe derive rsp (Some s2) t2 =
    let '(s3, result) := finish_return derive POLY_MODE_RAW_AARCH64 pc (nth 31 (ag_gpr (saved_aarch64 s)) 0)
      (nth 0 (ag_gpr (saved_aarch64 s)) 0) r in
    (return_thread POLY_MODE_RAW_AARCH64 (guest_mask t) t2, Some s3, result).
Proof using Hrsp.
  intros Hs Ht Ha Hf H active Hact Hmem Hmap pc.
  destruct (delivered_aarch64_frame _ _ _ _ _ _ _ Hs Ht Ha Hf H) as (t0 & k & d & sp & alt & Hx).
  cbv zeta in Hx. destruct Hx as (_ & _ & Hk & Hsp & Hend & Hsame & Hok & ->).
  fold pc in Hok, active, Hmem. set (frame := aarch64_signal_frame _ _ _ _ _ _ _ _ _ _) in *.
  destruct (handler_thread POLY_MODE_RAW_AARCH64 forced k d (sp + 32)
    (store_frame ct_aarch64_virtual_signal_frame frame k (u64 (sp + 32 + SIGINFO_OFFSET))
       (u64 (sp + 32 + UCONTEXT_OFFSET)) sp (th_memory t)) t0) as [Hac Hmm].
  change (frontend POLY_MODE_RAW_AARCH64 ?t) with (th_aarch64 t) in Hac. fold active in Hac.
  rewrite Hmm in Hmem. rewrite Hac in Hact, Hmem, Hmap.
  exists (return_aarch64 rsp frame s2). split; [by apply return_aarch64_resumes|].
  unfold poly_handle_aarch64_rt_sigreturn. rewrite Hact. destruct (Z.eqb_spec (sp + 32) 0); [lia|].
  rewrite Hmap. cbn [negb].
  rewrite (stored_frame_reads ct_aarch64_virtual_signal_frame frame Hok _ _ _ sp Hsp Hend _ _ Hmem).
  replace (_ || _) with false.
  2:{ cbn [frame aarch64_signal_frame af_magic af_size af_signum]. rewrite !Z.eqb_refl. cbn [negb orb].
      unfold SHADOW_SIZE in *. destruct (Z.eqb_spec k 0), (Z.geb_spec k 65); lia || done. }
  cbn [frame aarch64_signal_frame af_ucontext au_mcontext ac_pc ac_sp ac_regs af_saved_event_record af_guest_sigmask].
  unfold pc at 1. rewrite restored_interrupted. fold pc frame.
  replace (nth 0 (take 31 (ag_gpr (saved_aarch64 s))) 0) with (nth 0 (ag_gpr (saved_aarch64 s)) 0)
    by (by destruct (ag_gpr (saved_aarch64 s))).
  replace (guest_mask t0) with (guest_mask t) by (rewrite Hsame; done). done.
Qed.

Lemma riscv_returns (forced address code : Z) (s s1 s2 : poly_xsave_state) (t t1 t2 : thread) :
  state_ok s -> thread_ok t -> word address -> 0 <= forced ->
  poly_try_deliver_riscv_signal probe fault_in derive rsp vdso forced address code s t = (t1, s1, true) ->
  let active := fs_active_frame (th_riscv t1) in
  fs_active_frame (th_riscv t2) = active ->
  (forall a, active <= a < active + sizeof ct_riscv_virtual_signal_frame -> th_memory t2 a = th_memory t1 a) ->
  poly_guest_range_is_mapped probe active (sizeof ct_riscv_virtual_signal_frame) false = true ->
  let pc := interrupted_pc probe POLY_MODE_RAW_RISCV forced (nth 1 (xs_riscv_gpr s) 0) s in
  exists r, riscv_resumed s s2 pc r /\
    poly_handle_riscv_rt_sigreturn probe derive rsp (Some s2) t2 =
    let '(s3, result) := finish_return derive POLY_MODE_RAW_RISCV pc (nth 2 (rg_gpr (saved_riscv s)) 0)
      (nth 10 (rg_gpr (saved_riscv s)) 0) r in
    (return_thread POLY_MODE_RAW_RISCV (guest_mask t) t2, Some s3, result).
Proof using Hrsp.
  intros Hs Ht Ha Hf H active Hact Hmem Hmap pc.
  destruct (delivered_riscv_frame _ _ _ _ _ _ _ Hs Ht Ha Hf H) as (t0 & k & d & sp & alt & Hx).
  cbv zeta in Hx. destruct Hx as (_ & _ & Hk & Hsp & Hend & Hsame & Hok & ->).
  fold pc in Hok, active, Hmem. set (frame := riscv_signal_frame _ _ _ _ _ _ _ _ _ _) in *.
  destruct (handler_thread POLY_MODE_RAW_RISCV forced k d (sp + 32)
    (store_frame ct_riscv_virtual_signal_frame frame k (u64 (sp + 32 + SIGINFO_OFFSET))
       (u64 (sp + 32 + UCONTEXT_OFFSET)) sp (th_memory t)) t0) as [Hac Hmm].
  change (frontend POLY_MODE_RAW_RISCV ?t) with (th_riscv t) in Hac. fold active in Hac.
  rewrite Hmm in Hmem. rewrite Hac in Hact, Hmem, Hmap.
  exists (return_riscv rsp frame s2). split; [by apply return_riscv_resumes|].
  unfold poly_handle_riscv_rt_sigreturn. rewrite Hact. destruct (Z.eqb_spec (sp + 32) 0); [lia|]. cbn [andb].
  rewrite Hmap. cbn [negb].
  rewrite (stored_frame_reads ct_riscv_virtual_signal_frame frame Hok _ _ _ sp Hsp Hend _ _ Hmem).
  replace (_ || _) with false.
  2:{ cbn [frame riscv_signal_frame rf_magic rf_size rf_signum]. rewrite !Z.eqb_refl. cbn [negb orb].
      unfold SHADOW_SIZE in *. destruct (Z.eqb_spec k 0), (Z.geb_spec k 65); lia || done. }
  cbn [frame riscv_signal_frame rf_ucontext ru_mcontext rc_pc rc_regs rf_saved_event_record rf_guest_sigmask].
  unfold pc at 1. rewrite restored_interrupted. fold pc frame. rewrite saved_riscv_zero.
  replace (guest_mask t0) with (guest_mask t) by (rewrite Hsame; done). done.
Qed.
End Roundtrip.

(** ** Both frontends *)

Section Frontends.
Context (probe : mem_probe) (fault_in : list Z -> mem_probe -> mem_probe).
Context (derive : poly_xsave_state -> poly_v2_derive_descriptor -> Z * poly_xsave_state).
Context (rsp vdso mode : Z).

Definition try_deliver : Z -> Z -> Z -> poly_xsave_state -> thread -> thread * poly_xsave_state * bool :=
  if mode =? POLY_MODE_RAW_RISCV then poly_try_deliver_riscv_signal probe fault_in derive rsp vdso
  else poly_try_deliver_aarch64_signal probe fault_in derive rsp vdso.

Definition rt_sigreturn : option poly_xsave_state -> thread -> thread * option poly_xsave_state * Z :=
  if mode =? POLY_MODE_RAW_RISCV then poly_handle_riscv_rt_sigreturn probe derive rsp
  else poly_handle_aarch64_rt_sigreturn probe derive rsp.

Definition frame_bytes : Z :=
  if mode =? POLY_MODE_RAW_RISCV then sizeof ct_riscv_virtual_signal_frame
  else sizeof ct_aarch64_virtual_signal_frame.

(** The general registers of the interrupted context. *)
Definition interrupted_gpr (s : poly_xsave_state) : list Z :=
  if mode =? POLY_MODE_RAW_RISCV then rg_gpr (saved_riscv s) else ag_gpr (saved_aarch64 s).

(** Positions of link register, stack pointer and first argument. *)
Definition link_register : nat := if mode =? POLY_MODE_RAW_RISCV then 1 else 30.
Definition stack_register : nat := if mode =? POLY_MODE_RAW_RISCV then 2 else 31.
Definition argument_register : nat := if mode =? POLY_MODE_RAW_RISCV then 10 else 0.

Definition live_gpr (s : poly_xsave_state) : list Z :=
  if mode =? POLY_MODE_RAW_RISCV then xs_riscv_gpr s else xs_aarch64_gpr s.

(** The address at which the context was interrupted. *)
Definition interrupted_at (forced : Z) (s : poly_xsave_state) : Z :=
  interrupted_pc probe mode forced (nth link_register (live_gpr s) 0) s.

Definition resumed (s s2 : poly_xsave_state) (pc : Z) (r : poly_xsave_state) : Prop :=
  if mode =? POLY_MODE_RAW_RISCV then riscv_resumed s s2 pc r else aarch64_resumed s s2 pc r.
End Frontends.
