(* ===== verification/SignalProps.v ===== *)
(** What signal delivery promises ([SignalFrame]): the handler is entered with
    the right arguments and mask, the frame stays inside the stack, the return
    restores the interrupted context, every pending signal is delivered, and
    alternate stacks are set and reported. *)

From Stdlib Require Import Btauto.
From stdpp Require Import relations.
From S2P Require Import Prelude GuestMemory GuestSignals CStruct Seccomp TrapState SignalFrame SignalDelivery SignalReturn.

#[local] Opaque sizeof c_size.

Lemma raw_modes (mode : Z) : poly_is_raw_foreign_mode mode = true ->
  mode = POLY_MODE_RAW_AARCH64 \/ mode = POLY_MODE_RAW_RISCV.
Proof. unfold poly_is_raw_foreign_mode. intros [H|H]%orb_prop; breflect; auto. Qed.

Lemma filter_less {A} (P Q : A -> Prop) `{!forall x, Decision (P x), !forall x, Decision (Q x)} (l : list A) (x : A) :
  (forall y, y ∈ l -> P y -> Q y) -> x ∈ l -> ~ P x -> Q x -> (length (filter P l) < length (filter Q l))%nat.
Proof.
  intros HPQ Hx HP HQ.
  assert (forall l', (forall y, y ∈ l' -> P y -> Q y) -> (length (filter P l') <= length (filter Q l'))%nat) as Hle.
  { induction l' as [|y l' IH]; intros Hl; [done|]. rewrite !filter_cons.
    assert (length (filter P l') <= length (filter Q l'))%nat by (apply IH; set_solver).
    destruct (decide (P y)), (decide (Q y)); cbn; try lia. exfalso. set_solver. }
  apply list_elem_of_split in Hx as (l1 & l2 & ->). rewrite !filter_app, !length_app, !filter_cons.
  destruct (decide (P x)); [done|]. destruct (decide (Q x)); [|done]. cbn.
  pose proof (Hle l1 ltac:(set_solver)). pose proof (Hle l2 ltac:(set_solver)). lia.
Qed.

(** ** Registers and memory that a handler finds *)

Lemma nth_insert_eq (l : list Z) (i : nat) (v : Z) : (i < length l)%nat -> nth i (<[i := v]> l) 0 = v.
Proof. intros H. apply nth_lookup_Some. by apply list_lookup_insert_eq. Qed.

Lemma nth_insert_ne (l : list Z) (i j : nat) (v : Z) : i <> j -> nth i (<[j := v]> l) 0 = nth i l 0.
Proof. intros H. rewrite !nth_lookup. by rewrite list_lookup_insert_ne. Qed.

(** Arguments, return address and stack pointer of a handler. *)
Definition handler_registers (mode k siginfo ucontext restorer signal_sp : Z) (gpr : list Z) : Prop :=
  nth (argument_register mode) gpr 0 = k /\
  nth (argument_register mode + 1) gpr 0 = siginfo /\
  nth (argument_register mode + 2) gpr 0 = ucontext /\
  nth (link_register mode) gpr 0 = restorer /\
  nth (stack_register mode) gpr 0 = signal_sp.

Lemma aarch64_handler_registers (k siginfo ucontext restorer sp : Z) (gpr : list Z) : length gpr = 32%nat ->
  handler_registers POLY_MODE_RAW_AARCH64 k siginfo ucontext restorer sp
    (aarch64_handler_gpr k siginfo ucontext restorer sp gpr).
Proof.
  intros Hl. unfold aarch64_handler_gpr. split_and!; cbn [argument_register link_register stack_register Nat.add];
    cbn; repeat (rewrite nth_insert_ne by done); apply nth_insert_eq; rewrite ?length_insert; lia.
Qed.

Lemma riscv_handler_registers (k siginfo ucontext restorer sp : Z) (gpr : list Z) : length gpr = 32%nat ->
  handler_registers POLY_MODE_RAW_RISCV k siginfo ucontext restorer sp
    (riscv_handler_gpr k siginfo ucontext restorer sp gpr).
Proof.
  intros Hl. unfold riscv_handler_gpr. split_and!; cbn; repeat (rewrite nth_insert_ne by done);
    apply nth_insert_eq; rewrite ?length_insert; lia.
Qed.

Lemma add_bits (mask k i : Z) : 0 < k < 65 -> 0 <= i < 64 ->
  Z.testbit (poly_sigset_add_signal mask k) i = Z.testbit mask i || (i =? k - 1).
Proof.
  intros Hk Hi. unfold poly_sigset_add_signal. destruct (Z.leb_spec k 0), (Z.gtb_spec k 64); try lia. cbn [orb].
  rewrite Z.lor_spec. unfold wrap. rewrite Z.mod_pow2_bits_low by lia.
  rewrite Z.shiftl_1_l, Z.pow2_bits_eqb by lia. by rewrite (Z.eqb_sym (k - 1)).
Qed.

(** The mask while the handler of [k] runs. *)
Definition handler_blocks (k : Z) (d : delivery) (before : Z) (i : Z) : bool :=
  Z.testbit before i || Z.testbit (dv_mask d) i ||
  ((i =? k - 1) && (Z.land (dv_flags d) SA_NODEFER =? 0)).

Lemma handler_mask_bits (k : Z) (d : delivery) (t : thread) (i : Z) : 0 < k < 65 -> 0 <= i < 64 ->
  Z.testbit (handler_mask k d t) i = handler_blocks k d (guest_mask t) i.
Proof.
  intros Hk Hi. unfold handler_mask, handler_blocks. destruct (_ =? 0).
  - rewrite add_bits, Z.lor_spec by done. btauto.
  - rewrite Z.lor_spec. btauto.
Qed.

(** The interrupted context in the frame at [address], as handlers see it. *)
Definition context_saved (mode : Z) (m : memory) (address pc : Z) (s : poly_xsave_state) : Prop :=
  if mode =? POLY_MODE_RAW_RISCV then
    let mc := ru_mcontext (load_struct ct_riscv_ucontext m (address + UCONTEXT_OFFSET)) in
    rc_regs mc = interrupted_gpr mode s /\ rc_pc mc = pc
  else
    let mc := au_mcontext (load_struct ct_aarch64_ucontext m (address + UCONTEXT_OFFSET)) in
    ac_regs mc ++ [ac_sp mc] = interrupted_gpr mode s /\ ac_pc mc = pc.

(** The state image with which the handler of [k] is entered. *)
Definition entry_state (mode k signal_sp : Z) (d : delivery) (e : poly_xsave_state) : Prop :=
  let siginfo := u64 (signal_sp + 32 + SIGINFO_OFFSET) in
  let ucontext := u64 (signal_sp + 32 + UCONTEXT_OFFSET) in
  hd_foreign_pc (xs_header e) = dv_handler d /\ hd_current_mode (xs_header e) = mode /\
  handler_registers mode k siginfo ucontext (dv_restorer d) signal_sp (live_gpr mode e) /\
  nr_top (xs_native_return e) = 0 /\ er_resume_pc (xs_event_record e) = dv_handler d.

Section Props.
Context (probe : mem_probe) (fault_in : list Z -> mem_probe -> mem_probe).
Context (derive : poly_xsave_state -> poly_v2_derive_descriptor -> Z * poly_xsave_state).
Context (rsp vdso mode : Z) (Hrsp : word rsp) (Hmode : poly_is_raw_foreign_mode mode = true).

Abbreviation deliver := (try_deliver probe fault_in derive rsp vdso mode).
Abbreviation return_from := (rt_sigreturn probe derive rsp mode).

(** C1: When a signal has been delivered and the handler returns with its frame
    in memory untouched, [rt_sigreturn] gives the processor the interrupted
    context: the general, vector and status registers, the address, the return
    stack and the event, with the signal mask of before and the first argument
    register as the result. *)
Theorem signal_return_restores (forced address code : Z) (s s1 s2 : poly_xsave_state) (t t1 t2 : thread) :
  state_ok s -> thread_ok t -> word address -> 0 <= forced ->
  deliver forced address code s t = (t1, s1, true) ->
  let active := fs_active_frame (frontend mode t1) in
  fs_active_frame (frontend mode t2) = active ->
  (forall a, active <= a < active + frame_bytes mode -> th_memory t2 a = th_memory t1 a) ->
  poly_guest_range_is_mapped probe active (frame_bytes mode) false = true ->
  let pc := interrupted_at probe mode forced s in
  let gpr := interrupted_gpr mode s in
  exists r, resumed mode s s2 pc r /\
    return_from (Some s2) t2 =
    let '(s3, result) := finish_return derive mode pc (nth (stack_register mode) gpr 0)
      (nth (argument_register mode) gpr 0) r in
    (return_thread mode (guest_mask t) t2, Some s3, result).
Proof using Hrsp Hmode.
  destruct (raw_modes mode Hmode) as [-> | ->]; [apply aarch64_returns|apply riscv_returns]; exact Hrsp.
Qed.

(** ** Every pending signal is delivered *)

(** What a handler must leave alone, and that no signal arrives meanwhile. *)
Record handler_keeps (t1 t2 : thread) : Prop := {
  hk_actions : sg_action (th_signals t2) = sg_action (th_signals t1);
  hk_pending : th_pending t2 = th_pending t1;
  hk_active : fs_active_frame (frontend mode t2) = fs_active_frame (frontend mode t1);
  hk_frame : forall a, fs_active_frame (frontend mode t1) <= a < fs_active_frame (frontend mode t1) + frame_bytes mode ->
    th_memory t2 a = th_memory t1 a;
  hk_mapped : poly_guest_range_is_mapped probe (fs_active_frame (frontend mode t1)) (frame_bytes mode) false = true;
  hk_ok : thread_ok t2;
}.

(** One signal from its delivery to the return of its handler. *)
Definition round (s : poly_xsave_state) (t t' : thread) : Prop :=
  exists t1 s1 s2 t2 s' result,
    deliver 0 0 0 s t = (t1, s1, true) /\ handler_keeps t1 t2 /\ return_from (Some s2) t2 = (t', Some s', result).

(** Every trap of the frontend from [t] on chooses a signal, and [k] is chosen
    after fewer than [n] completed rounds. *)
Fixpoint chosen_within (n : nat) (k : Z) (t : thread) : Prop :=
  match n with
  | O => False
  | S n' =>
      forall s, state_ok s -> er_source_mode (xs_event_record s) = mode ->
      exists t0 k' d, select_signal vdso mode 0 s t = (t0, Some (k', d)) /\
        (k' = k \/ forall t', round s t t' -> chosen_within n' k t')
  end.

(** The pending signals below [k]. *)
Definition pending_below (k : Z) (t : thread) : nat :=
  length (filter (fun j : nat => pending (Z.of_nat j) t = true) (seq 1 (Z.to_nat (k - 1)))).

(** The thread after the return from a delivered signal. *)
Lemma returned_thread (s s1 s2 s' : poly_xsave_state) (t t1 t2 t' : thread) (result : Z) :
  state_ok s -> thread_ok t -> deliver 0 0 0 s t = (t1, s1, true) -> handler_keeps t1 t2 ->
  return_from (Some s2) t2 = (t', Some s', result) -> t' = return_thread mode (guest_mask t) t2.
Proof using Hrsp Hmode.
  intros Hs Ht Hd [_ _ Ha Hf Hm _]. pose proof (wrap_range 64 0 ltac:(lia)) as Hw. change (u64 0) with 0 in Hw.
  destruct (raw_modes mode Hmode) as [E|E]; rewrite E in *.
  - destruct (aarch64_returns _ _ _ _ _ Hrsp 0 0 0 _ _ s2 _ _ t2 Hs Ht Hw ltac:(done) Hd Ha Hf Hm) as (r & _ & H).
    unfold rt_sigreturn. cbn [Z.eqb POLY_MODE_RAW_AARCH64 POLY_MODE_RAW_RISCV Pos.eqb]. rewrite H.
    destruct (finish_return _ _ _ _ _ _). congruence.
  - destruct (riscv_returns _ _ _ _ _ Hrsp 0 0 0 _ _ s2 _ _ t2 Hs Ht Hw ltac:(done) Hd Ha Hf Hm) as (r & _ & H).
    unfold rt_sigreturn. cbn [Z.eqb POLY_MODE_RAW_AARCH64 POLY_MODE_RAW_RISCV Pos.eqb]. rewrite H.
    destruct (finish_return _ _ _ _ _ _). congruence.
Qed.

(** The thread with which a handler is entered. *)
Lemma entered_thread (forced address code : Z) (s s1 : poly_xsave_state) (t t1 : thread) :
  state_ok s -> thread_ok t -> word address -> 0 <= forced -> deliver forced address code s t = (t1, s1, true) ->
  exists t0 k d frame_sp m, select_signal vdso mode forced s t = (t0, Some (k, d)) /\
    t1 = enter_thread mode forced k d frame_sp m t0 /\ same_but_pending t t0.
Proof using Hrsp Hmode.
  intros Hs Ht Ha Hf Hd. destruct (raw_modes mode Hmode) as [E|E]; rewrite E in *.
  - destruct (delivered_aarch64_frame _ _ _ _ _ Hrsp _ _ _ _ _ _ _ Hs Ht Ha Hf Hd) as (t0 & k & d & sp & alt & H).
    cbv zeta in H. destruct H as (Hsel & _ & _ & _ & _ & Hsame & _ & ->). eauto 10.
  - destruct (delivered_riscv_frame _ _ _ _ _ Hrsp _ _ _ _ _ _ _ Hs Ht Ha Hf Hd) as (t0 & k & d & sp & alt & H).
    cbv zeta in H. destruct H as (Hsel & _ & _ & _ & _ & Hsame & _ & ->). eauto 10.
Qed.

Lemma enter_parts (k : Z) (d : delivery) (frame_sp : Z) (m : memory) (t : thread) :
  let t' := enter_thread mode 0 k d frame_sp m t in
  sg_action (th_signals t') = sg_action (th_signals t) /\ th_pending t' = th_pending (clear_pending k t).
Proof using.
  unfold enter_thread, set_active_frame, set_frontend. by destruct (mode =? POLY_MODE_RAW_RISCV).
Qed.

Lemma return_parts (mask : Z) (t : thread) :
  let t' := return_thread mode mask t in
  sg_action (th_signals t') = sg_action (th_signals t) /\ th_pending t' = th_pending t /\
  sg_mask (th_signals t') = Some mask /\ (word mask -> thread_ok t -> thread_ok t').
Proof using.
  unfold return_thread, set_active_frame, set_frontend, frontend.
  destruct (mode =? POLY_MODE_RAW_RISCV); split_and!; try done.
  all: intros Hm [? ? ? (? & ? & ? & ?) (? & ? & ? & ?)]; split; try done; split_and!; cbn; try done; apply wrap_range; lia.
Qed.

(** What a round leaves of the thread. *)
Lemma round_thread (s : poly_xsave_state) (t t' t0 : thread) (k : Z) (d : delivery) :
  state_ok s -> thread_ok t -> select_signal vdso mode 0 s t = (t0, Some (k, d)) -> round s t t' ->
  thread_ok t' /\ sg_action (th_signals t') = sg_action (th_signals t) /\
  sg_mask (th_signals t') = Some (guest_mask t) /\ th_pending t' = th_pending (clear_pending k t0).
Proof using Hrsp Hmode.
  intros Hs Ht Hsel (t1 & s1 & s2 & t2 & s' & result & Hd & Hk & Hr).
  rewrite (returned_thread _ _ _ _ _ _ _ _ _ Hs Ht Hd Hk Hr).
  assert (word 0) as H0 by (unfold in_width; lia).
  destruct (entered_thread _ _ _ _ _ _ _ Hs Ht H0 ltac:(done) Hd) as (t0' & k' & d' & fsp & m & Hsel' & -> & Hsame).
  rewrite Hsel in Hsel'. injection Hsel' as <- <- <-.
  destruct (enter_parts k d fsp m t0) as [Ha Hp]. destruct (return_parts (guest_mask t) t2) as (Ha' & Hp' & Hm & Hok).
  split; [apply Hok; [apply (ok_mask t Ht)|apply (hk_ok _ _ Hk)]|].
  rewrite Ha', Hm, Hp', (hk_actions _ _ Hk), (hk_pending _ _ Hk), Ha, Hp. by rewrite Hsame.
Qed.

Lemma blocked_kept (k : Z) (t t' : thread) :
  sg_mask (th_signals t') = Some (guest_mask t) -> blocked k t' = blocked k t.
Proof using.
  unfold blocked, poly_guest_signal_mask_blocks, guest_mask. intros ->.
  destruct (sg_mask (th_signals t)); [done|]. by rewrite Z.land_0_l.
Qed.

(** A round for another signal keeps [k] ready and removes that signal. *)
Lemma round_progress (s : poly_xsave_state) (t t' t0 : thread) (k k' : Z) (d d' : delivery) :
  state_ok s -> thread_ok t -> ready vdso mode k d t ->
  select_signal vdso mode 0 s t = (t0, Some (k', d')) -> k' < k -> round s t t' ->
  thread_ok t' /\ ready vdso mode k d t' /\ (pending_below k t' < pending_below k t)%nat.
Proof using Hrsp Hmode.
  intros Hs Ht (Hk & Hp & Hb & Ha) Hsel Hlt Hround.
  destruct (round_thread _ _ _ _ _ _ Hs Ht Hsel Hround) as (Hok & Hact & Hmask & Hpend).
  destruct (select_spec _ _ _ _ _ _ _ Hsel) as ((Hk' & Hp' & _) & _ & [_ Hdrop] & _).
  assert (forall j, 1 <= j -> pending j t' = pending j t0 && negb (j =? k')) as Hpj.
  { intros j Hj. rewrite <- pending_clear by lia. unfold pending. by rewrite Hpend. }
  split; [done|]. split.
  - split; [done|]. rewrite (blocked_kept k t t' Hmask), Hpj, Hdrop, Hp by lia. unfold action in *.
    unfold poly_guest_signal_action_deliverable in *. rewrite Hact. split; [|done].
    destruct (Z.ltb_spec k k'), (Z.eqb_spec k k'); try lia.
  - apply (filter_less _ _ _ (Z.to_nat k')).
    + intros j Hj. apply elem_of_seq in Hj. rewrite Hpj, Hdrop by lia. intros H.
      by apply andb_prop in H as [[H _]%andb_prop _].
    + apply elem_of_seq. lia.
    + rewrite Z2Nat.id by lia. rewrite Hpj, Z.eqb_refl, andb_false_r by lia. done.
    + rewrite Z2Nat.id by lia. done.
Qed.

Lemma pending_below_bound (k : Z) (t : thread) : 1 <= k -> (pending_below k t < Z.to_nat k)%nat.
Proof using.
  intros Hk. unfold pending_below.
  pose proof (length_filter (fun j : nat => pending (Z.of_nat j) t = true) (seq 1 (Z.to_nat (k - 1)))) as H.
  rewrite length_seq in H. lia.
Qed.

Lemma chosen_within_rounds (n : nat) : forall (k : Z) (d : delivery) (t : thread),
  thread_ok t -> ready vdso mode k d t -> (pending_below k t < n)%nat -> chosen_within n k t.
Proof using Hrsp Hmode.
  induction n as [|n IH]; intros k d t Ht Hr Hn; [lia|]. cbn [chosen_within]. intros s Hs Hm.
  destruct (select_ready vdso mode s t k d Hm Hr) as (t0 & k' & d' & Hsel & Hle).
  exists t0, k', d'. split; [done|]. destruct (Z.eq_dec k' k) as [|Hne]; [by left|right].
  intros t' Hround. assert (k' < k) as Hlt by lia.
  destruct (round_progress _ _ _ _ _ _ _ _ Hs Ht Hr Hsel Hlt Hround) as (Hok & Hr' & Hdec).
  apply (IH k d); [done|done|lia].
Qed.


(** ** The handler *)

Lemma aarch64_entered (forced address code : Z) (s s1 : poly_xsave_state) (t t1 : thread) :
  mode = POLY_MODE_RAW_AARCH64 -> state_ok s -> thread_ok t -> word address -> 0 <= forced ->
  deliver forced address code s t = (t1, s1, true) ->
  exists t0 k d e signal_sp,
    select_signal vdso mode forced s t = (t0, Some (k, d)) /\ entry_state mode k signal_sp d e /\
    derive e (set_descriptor mode (dv_handler d) signal_sp k POLY_TRAP_BREAK 0 0 return_event_flags (repeat 0 8)) = (0, s1) /\
    fs_active_frame (frontend mode t1) = signal_sp + 32 /\ guest_mask t1 = handler_mask k d t0 /\
    load_struct ct_siginfo (th_memory t1) (signal_sp + 32 + SIGINFO_OFFSET) = MkSiginfo (signed 32 k) 0 (signed 32 code) 0 address /\
    context_saved mode (th_memory t1) (signal_sp + 32) (interrupted_at probe mode forced s) s.
Proof using Hrsp.
  intros Em Hs Ht Ha Hf H. rewrite Em in H |- *.
  destruct (delivered_aarch64_frame _ _ _ _ _ Hrsp _ _ _ _ _ _ _ Hs Ht Ha Hf H) as (t0 & k & d & sp & alt & Hx).
  cbv zeta in Hx. destruct Hx as (Hsel & Hpl & Hk & Hsp & Hend & Hsame & Hok & Ht1).
  destruct (delivered_aarch64 _ _ _ _ _ _ _ _ _ _ _ _ _ H eq_refl) as (t0' & k' & d' & sp' & alt' & _ & Hsel' & Hpl' & Hd).
  rewrite Hsel in Hsel'. injection Hsel' as <- <- <-. rewrite Hpl in Hpl'. injection Hpl' as <- <-.
  unfold deliver_aarch64 in Hd. rewrite (frame_address ct_aarch64_virtual_signal_frame sp Hsp Hend) in Hd.
  set (frame := aarch64_signal_frame _ _ _ _ _ _ _ _ _ _) in *.
  set (e := enter_aarch64 k sp d frame s) in Hd.
  destruct (derive e _) as [st s'] eqn:Ed in Hd. injection Hd as Hd1 Hd2 Hst. subst s'. apply Z.eqb_eq in Hst. subst st.
  exists t0, k, d, e, sp. split; [done|]. split; [|split; [done|]].
  { assert (length (xs_aarch64_gpr s) = 32%nat) as Hl by (ok_inv Hs; match goal with H : c_ok (c_array 32 c_u64) (xs_aarch64_gpr s) |- _ => apply H end).
    split; [done|]. split; [done|]. split; [by apply aarch64_handler_registers|done]. }
  destruct (handler_thread POLY_MODE_RAW_AARCH64 forced k d (sp + 32)
    (store_frame ct_aarch64_virtual_signal_frame frame k (u64 (sp + 32 + SIGINFO_OFFSET))
       (u64 (sp + 32 + UCONTEXT_OFFSET)) sp (th_memory t)) t0) as [Hac Hmm]. rewrite <- Ht1 in Hac, Hmm.
  pose proof (stored_frame_reads ct_aarch64_virtual_signal_frame frame Hok k (u64 (sp + 32 + SIGINFO_OFFSET))
    (u64 (sp + 32 + UCONTEXT_OFFSET)) sp Hsp Hend (th_memory t) (th_memory t1) ltac:(by rewrite Hmm)) as Hld.
  destruct (load_aarch64_frame (th_memory t1) (sp + 32)) as [Hsi Huc]. rewrite Hld in Hsi, Huc.
  split; [done|]. split.
  { rewrite Ht1. unfold enter_thread, set_active_frame, set_frontend. by destruct (forced =? 0). }
  split; [exact Hsi|]. unfold context_saved. cbn [Z.eqb POLY_MODE_RAW_AARCH64 POLY_MODE_RAW_RISCV Pos.eqb]. rewrite Huc.
  split; [|done]. apply gpr_split. apply (saved_aarch64_ok s Hs).
Qed.
Lemma riscv_entered (forced address code : Z) (s s1 : poly_xsave_state) (t t1 : thread) :
  mode = POLY_MODE_RAW_RISCV -> state_ok s -> thread_ok t -> word address -> 0 <= forced ->
  deliver forced address code s t = (t1, s1, true) ->
  exists t0 k d e signal_sp,
    select_signal vdso mode forced s t = (t0, Some (k, d)) /\ entry_state mode k signal_sp d e /\
    derive e (set_descriptor mode (dv_handler d) signal_sp k POLY_TRAP_BREAK 0 0 return_event_flags (repeat 0 8)) = (0, s1) /\
    fs_active_frame (frontend mode t1) = signal_sp + 32 /\ guest_mask t1 = handler_mask k d t0 /\
    load_struct ct_siginfo (th_memory t1) (signal_sp + 32 + SIGINFO_OFFSET) = MkSiginfo (signed 32 k) 0 (signed 32 code) 0 address /\
    context_saved mode (th_memory t1) (signal_sp + 32) (interrupted_at probe mode forced s) s.
Proof using Hrsp.
  intros Em Hs Ht Ha Hf H. rewrite Em in H |- *.
  destruct (delivered_riscv_frame _ _ _ _ _ Hrsp _ _ _ _ _ _ _ Hs Ht Ha Hf H) as (t0 & k & d & sp & alt & Hx).
  cbv zeta in Hx. destruct Hx as (Hsel & Hpl & Hk & Hsp & Hend & Hsame & Hok & Ht1).
  destruct (delivered_riscv _ _ _ _ _ _ _ _ _ _ _ _ _ H eq_refl) as (t0' & k' & d' & sp' & alt' & _ & Hsel' & Hpl' & Hd).
  rewrite Hsel in Hsel'. injection Hsel' as <- <- <-. rewrite Hpl in Hpl'. injection Hpl' as <- <-.
  unfold deliver_riscv in Hd. rewrite (frame_address ct_riscv_virtual_signal_frame sp Hsp Hend) in Hd.
  set (frame := riscv_signal_frame _ _ _ _ _ _ _ _ _ _) in *.
  set (e := enter_riscv k sp d frame s) in Hd.
  destruct (derive e _) as [st s'] eqn:Ed in Hd. injection Hd as Hd1 Hd2 Hst. subst s'. apply Z.eqb_eq in Hst. subst st.
  exists t0, k, d, e, sp. split; [done|]. split; [|split; [done|]].
  { assert (length (xs_riscv_gpr s) = 32%nat) as Hl by (ok_inv Hs; match goal with H : c_ok (c_array 32 c_u64) (xs_riscv_gpr s) |- _ => apply H end).
    split; [done|]. split; [done|]. split; [by apply riscv_handler_registers|done]. }
  destruct (handler_thread POLY_MODE_RAW_RISCV forced k d (sp + 32)
    (store_frame ct_riscv_virtual_signal_frame frame k (u64 (sp + 32 + SIGINFO_OFFSET))
       (u64 (sp + 32 + UCONTEXT_OFFSET)) sp (th_memory t)) t0) as [Hac Hmm]. rewrite <- Ht1 in Hac, Hmm.
  pose proof (stored_frame_reads ct_riscv_virtual_signal_frame frame Hok k (u64 (sp + 32 + SIGINFO_OFFSET))
    (u64 (sp + 32 + UCONTEXT_OFFSET)) sp Hsp Hend (th_memory t) (th_memory t1) ltac:(by rewrite Hmm)) as Hld.
  destruct (load_riscv_frame (th_memory t1) (sp + 32)) as [Hsi Huc]. rewrite Hld in Hsi, Huc.
  split; [done|]. split.
  { rewrite Ht1. unfold enter_thread, set_active_frame, set_frontend. by destruct (forced =? 0). }
  split; [exact Hsi|]. unfold context_saved. cbn [Z.eqb POLY_MODE_RAW_RISCV Pos.eqb]. rewrite Huc.
  split; [apply saved_riscv_zero|done].
Qed.
(** C11: Delivering a signal enters its handler: the processor is given the
    handler's address, its arguments (the signal, the addresses of the signal
    information and of the interrupted context in memory), the restorer as return
    address and the stack below the frame; memory holds both structures; the
    signals of the action's mask are blocked in addition, and the signal itself
    unless [SA_NODEFER] is set.  The signal is the forced one, or the lowest that
    is pending, not blocked and has a handler. *)
Theorem handler_entered (forced address code : Z) (s s1 : poly_xsave_state) (t t1 : thread) :
  state_ok s -> thread_ok t -> word address -> 0 <= forced ->
  deliver forced address code s t = (t1, s1, true) ->
  exists k d e signal_sp,
    (if forced =? 0 then ready vdso mode k d t /\ none_ready vdso mode 1 k t
     else k = forced /\ action vdso mode k t = Some d) /\
    entry_state mode k signal_sp d e /\
    derive e (set_descriptor mode (dv_handler d) signal_sp k POLY_TRAP_BREAK 0 0 return_event_flags (repeat 0 8)) = (0, s1) /\
    fs_active_frame (frontend mode t1) = signal_sp + 32 /\
    load_struct ct_siginfo (th_memory t1) (signal_sp + 32 + SIGINFO_OFFSET) = MkSiginfo k 0 (signed 32 code) 0 address /\
    context_saved mode (th_memory t1) (signal_sp + 32) (interrupted_at probe mode forced s) s /\
    (forall i, 0 <= i < 64 -> Z.testbit (guest_mask t1) i = handler_blocks k d (guest_mask t) i).
Proof using Hrsp Hmode.
  intros Hs Ht Ha Hf H.
  assert (exists t0 k d e signal_sp,
    select_signal vdso mode forced s t = (t0, Some (k, d)) /\ entry_state mode k signal_sp d e /\
    derive e (set_descriptor mode (dv_handler d) signal_sp k POLY_TRAP_BREAK 0 0 return_event_flags (repeat 0 8)) = (0, s1) /\
    fs_active_frame (frontend mode t1) = signal_sp + 32 /\ guest_mask t1 = handler_mask k d t0 /\
    load_struct ct_siginfo (th_memory t1) (signal_sp + 32 + SIGINFO_OFFSET) = MkSiginfo (signed 32 k) 0 (signed 32 code) 0 address /\
    context_saved mode (th_memory t1) (signal_sp + 32) (interrupted_at probe mode forced s) s)
    as (t0 & k & d & e & sp & Hsel & He & Hd & Hac & Hm & Hsi & Hc).
  { destruct (raw_modes mode Hmode); [by apply aarch64_entered|by apply riscv_entered]. }
  destruct (select_ok _ _ _ _ _ _ _ _ Hf Hsel) as (Hk & Hsame & Hact). unfold SHADOW_SIZE in Hk.
  exists k, d, e, sp. split; [|split; [done|]; split; [done|]; split; [done|]; split; [|split; [done|]]].
  - destruct (Z.eqb_spec forced 0) as [->|Hne].
    + by destruct (select_spec _ _ _ _ _ _ _ Hsel) as (? & ? & _).
    + split; [|done]. unfold select_signal in Hsel. apply Z.eqb_neq in Hne. rewrite Hne in Hsel. cbn [negb] in Hsel.
      destruct (negb _); [done|]. destruct (poly_guest_signal_action_deliverable _ _ _ _); congruence.
  - rewrite Hsi. f_equal. unfold signed. rewrite wrap_small by (unfold in_width; lia).
    destruct (Z.ltb_spec k (2 ^ (32 - 1))); lia.
  - intros i Hi. rewrite Hm, handler_mask_bits by (done || lia). by rewrite Hsame.
Qed.

End Props.
