(* ===== verification/SignalStack.v ===== *)
(** Signal stacks ([SignalFrame]): the frame of a signal stays in the memory
    below the interrupted stack or inside the alternate stack, alternate stacks
    are set and reported, and prefaulting reaches every page of a range. *)

From stdpp Require Import relations.
From S2P Require Import Prelude GuestMemory GuestSignals CStruct Seccomp TrapState SignalFrame SignalDelivery SignalReturn SignalProps.

#[local] Opaque sizeof c_size.

(** ** The memory that a delivery writes *)

Section Confined.
Context (probe : mem_probe) (fault_in : list Z -> mem_probe -> mem_probe).
Context (derive : poly_xsave_state -> poly_v2_derive_descriptor -> Z * poly_xsave_state).
Context (rsp vdso mode : Z) (Hrsp : word rsp) (Hmode : poly_is_raw_foreign_mode mode = true).

Lemma select_same (m forced : Z) (s : poly_xsave_state) (t t' : thread) (r : option (Z * delivery)) :
  select_signal vdso m forced s t = (t', r) -> th_memory t' = th_memory t.
Proof using.
  unfold select_signal. destruct (negb (forced =? 0)).
  - destruct (negb _); [congruence|]. destruct (poly_guest_signal_action_deliverable _ _ _ _); congruence.
  - destruct (_ || _); [congruence|]. intros H. apply candidates_spec in H; [|done].
    assert (same_but_pending t t') as ->; [|done]. destruct r as [[k d]|].
    + by destruct H as (_ & _ & _ & _ & _ & [? _]).
    + by destruct H as (_ & [? _]).
Qed.

(** A delivery that gets as far as writing has chosen a signal and a place. *)
Lemma attempted_aarch64 (forced address code : Z) (s s1 : poly_xsave_state) (t t1 : thread) (b : bool) :
  poly_try_deliver_aarch64_signal probe fault_in derive rsp vdso forced address code s t = (t1, s1, b) ->
  th_memory t1 = th_memory t \/
  exists t0 k d signal_sp alt,
    select_signal vdso POLY_MODE_RAW_AARCH64 forced s t = (t0, Some (k, d)) /\
    place_frame probe fault_in POLY_MODE_RAW_AARCH64 forced k (dv_flags d)
      (total_size (sizeof ct_aarch64_virtual_signal_frame)) (nth 31 (ag_gpr (saved_aarch64 s)) 0) t0 =
      Placed signal_sp alt /\
    deliver_aarch64 probe derive rsp forced address code k d signal_sp alt s t0 = (t1, s1, b).
Proof using.
  unfold poly_try_deliver_aarch64_signal. destruct (negb _); [intros [= <- <- <-]; by left|].
  destruct (select_signal vdso POLY_MODE_RAW_AARCH64 forced s t) as [t0 r] eqn:Hsel.
  pose proof (select_same _ _ _ _ _ _ Hsel) as Hm.
  destruct r as [[k d]|]; [|intros [= <- <- <-]; by left].
  destruct (place_frame _ _ _ _ _ _ _ _ _) as [| |sp alt] eqn:Hpl; intros H; [left; by injection H as <- <- <-..|].
  right. exists t0, k, d, sp, alt. by split_and!.
Qed.

Lemma attempted_riscv (forced address code : Z) (s s1 : poly_xsave_state) (t t1 : thread) (b : bool) :
  poly_try_deliver_riscv_signal probe fault_in derive rsp vdso forced address code s t = (t1, s1, b) ->
  th_memory t1 = th_memory t \/
  exists t0 k d signal_sp alt,
    select_signal vdso POLY_MODE_RAW_RISCV forced s t = (t0, Some (k, d)) /\
    place_frame probe fault_in POLY_MODE_RAW_RISCV forced k (dv_flags d)
      (total_size (sizeof ct_riscv_virtual_signal_frame)) (nth 2 (rg_gpr (saved_riscv s)) 0) t0 =
      Placed signal_sp alt /\
    deliver_riscv probe derive rsp forced address code k d signal_sp alt s t0 = (t1, s1, b).
Proof using.
  unfold poly_try_deliver_riscv_signal. destruct (negb _); [intros [= <- <- <-]; by left|].
  destruct (select_signal vdso POLY_MODE_RAW_RISCV forced s t) as [t0 r] eqn:Hsel.
  pose proof (select_same _ _ _ _ _ _ Hsel) as Hm.
  destruct r as [[k d]|]; [|intros [= <- <- <-]; by left].
  destruct (place_frame _ _ _ _ _ _ _ _ _) as [| |sp alt] eqn:Hpl; intros H; [left; by injection H as <- <- <-..|].
  right. exists t0, k, d, sp, alt. by split_and!.
Qed.

(** The area of a frame: aligned, mapped without wrapping, below the interrupted
    stack pointer, or inside the alternate stack when the action asks for it. *)
Definition frame_area (s : poly_xsave_state) (t : thread) (signal_sp : Z) : Prop :=
  let total := total_size (frame_bytes mode) in
  let f := frontend mode t in
  let sp := nth (stack_register mode) (interrupted_gpr mode s) 0 in
  signal_sp mod 16 = 0 /\ 0 < signal_sp /\ signal_sp + total <= UINT64_MAX /\
  (sp - total - 15 <= signal_sp <= sp - total \/
   Z.land (fs_stack_flags f) POLY_LINUX_SS_DISABLE = 0 /\ total <= fs_stack_size f /\
   fs_stack_sp f - 15 <= signal_sp /\ signal_sp + total <= fs_stack_sp f + fs_stack_size f /\
   (fs_stack_sp f mod 16 = 0 -> fs_stack_sp f <= signal_sp)).

Lemma aligned_not_below (x y : Z) : x mod 16 = 0 -> y mod 16 = 0 -> x - 15 <= y -> x <= y.
Proof using.
  intros Hx Hy H. pose proof (Z.div_mod x 16). pose proof (Z.div_mod y 16). lia.
Qed.

Lemma placed_area (forced k flags : Z) (s : poly_xsave_state) (t t0 : thread) (signal_sp : Z) (alt : bool) :
  thread_ok t -> same_but_pending t t0 -> word (nth (stack_register mode) (interrupted_gpr mode s) 0) ->
  place_frame probe fault_in mode forced k flags (total_size (frame_bytes mode))
    (nth (stack_register mode) (interrupted_gpr mode s) 0) t0 = Placed signal_sp alt ->
  frame_area s t signal_sp.
Proof using Hmode.
  intros Ht Hsame Hsp Hpl.
  assert (frontend mode t0 = frontend mode t) as Hfr by (rewrite Hsame; done).
  assert (frontend_ok (frontend mode t0)) as Hok.
  { rewrite Hfr. unfold frontend. destruct (mode =? _); [apply (ok_riscv t Ht)|apply (ok_aarch64 t Ht)]. }
  assert (0 < total_size (frame_bytes mode) < POLY_VSIG_STACK_SIZE) as Htot.
  { unfold frame_bytes. destruct frame_sizes as (_ & _ & -> & H1 & -> & H2).
    destruct (mode =? _); [rewrite H2|rewrite H1]; done. }
  destruct (place_frame_spec _ _ _ _ _ _ _ _ _ Hok Hsp Htot _ _ Hpl) as (Hal & Hpos & Htop & Hend & Halt).
  rewrite Hfr in *. unfold frame_area. do 3 (split; [done|]).
  destruct alt; [right|by left]. destruct (Halt eq_refl) as (Hle & _ & Hdis).
  destruct Hok as (_ & Hs & _). split; [done|]. split; [done|].
  assert (fs_stack_sp (frontend mode t) - 15 <= signal_sp) by lia.
  split; [done|]. split; [lia|]. intros Hal16. by apply aligned_not_below.
Qed.

(** C20: Delivering a signal, successfully or not, writes only the area of its
    frame: that area is 16-byte aligned, mapped, does not wrap around, and lies
    directly below the interrupted stack pointer or within an enabled alternate
    stack that is large enough; a 16-byte aligned alternate stack contains it,
    any other one misses it by less than 16 bytes. *)
Theorem signal_frame_confined (forced address code : Z) (s s1 : poly_xsave_state) (t t1 : thread) (b : bool) :
  state_ok s -> thread_ok t -> word address -> 0 <= forced ->
  try_deliver probe fault_in derive rsp vdso mode forced address code s t = (t1, s1, b) ->
  th_memory t1 = th_memory t \/
  exists signal_sp, frame_area s t signal_sp /\
    forall a, 0 <= a < 2 ^ 64 -> a < signal_sp + 8 \/ signal_sp + total_size (frame_bytes mode) <= a ->
      th_memory t1 a = th_memory t a.
Proof using Hrsp Hmode.
  intros Hs Ht Ha Hf H. pose proof placed_area as Harea. destruct (raw_modes mode Hmode) as [E|E]; rewrite E in *.
  - destruct (attempted_aarch64 _ _ _ _ _ _ _ _ H) as [Hm|(t0 & k & d & sp & alt & Hsel & Hpl & Hd)]; [by left|right].
    pose proof (placed_aarch64_frame _ _ _ _ _ Hrsp _ _ _ _ _ _ _ _ _ _ _ _ _ Hs Ht Ha Hf Hsel Hpl Hd) as Hx.
    cbv zeta in Hx. destruct Hx as (Hk & Hsp & Hend & Hsame & Hok & ->). exists sp.
    split; [exact (Harea _ _ _ _ _ _ _ _ Ht Hsame ltac:(by apply (nth_word 32), saved_aarch64_ok) Hpl)|].
    intros a Ha' Hout. pose proof (frame_fits ct_aarch64_virtual_signal_frame) as Hfit.
    change (frame_bytes POLY_MODE_RAW_AARCH64) with (sizeof ct_aarch64_virtual_signal_frame) in Hout.
    rewrite (proj2 (handler_thread _ _ _ _ _ _ _)). apply stored_frame_outside; try apply _; try done.
    unfold CALL_AREA_SIZE in Hfit. lia.
  - destruct (attempted_riscv _ _ _ _ _ _ _ _ H) as [Hm|(t0 & k & d & sp & alt & Hsel & Hpl & Hd)]; [by left|right].
    pose proof (placed_riscv_frame _ _ _ _ _ Hrsp _ _ _ _ _ _ _ _ _ _ _ _ _ Hs Ht Ha Hf Hsel Hpl Hd) as Hx.
    cbv zeta in Hx. destruct Hx as (Hk & Hsp & Hend & Hsame & Hok & ->). exists sp.
    split; [exact (Harea _ _ _ _ _ _ _ _ Ht Hsame ltac:(by apply (nth_word 32), saved_riscv_ok) Hpl)|].
    intros a Ha' Hout. pose proof (frame_fits ct_riscv_virtual_signal_frame) as Hfit.
    change (frame_bytes POLY_MODE_RAW_RISCV) with (sizeof ct_riscv_virtual_signal_frame) in Hout.
    rewrite (proj2 (handler_thread _ _ _ _ _ _ _)). apply stored_frame_outside; try apply _; try done.
    unfold CALL_AREA_SIZE in Hfit. lia.
Qed.
End Confined.

(** ** Alternate stacks *)

Lemma neg_errno_not_zero (e : Z) : 0 < e < 4096 -> neg_errno e <> 0.
Proof.
  intros H. unfold neg_errno, wrap. rewrite Z.mod_opp_l_nz; [|lia|rewrite Z.mod_small by lia; lia].
  rewrite Z.mod_small by lia. lia.
Qed.

(** Whether the thread runs a handler of the frontend. *)
Definition in_handler (mode : Z) (t : thread) : bool := negb (fs_active_frame (frontend mode t) =? 0).

Lemma in_handler_spec (mode : Z) (t : thread) : poly_is_raw_foreign_mode mode = true ->
  ((mode =? POLY_MODE_RAW_AARCH64) && negb (fs_active_frame (th_aarch64 t) =? 0)) ||
  ((mode =? POLY_MODE_RAW_RISCV) && negb (fs_active_frame (th_riscv t) =? 0)) = in_handler mode t.
Proof. intros [-> | ->]%raw_modes; unfold in_handler; cbn; [apply orb_false_r|done]. Qed.

Lemma set_frontend_parts (mode : Z) (f : frontend_signals) (t : thread) :
  frontend mode (set_frontend mode f t) = f /\ th_memory (set_frontend mode f t) = th_memory t /\
  (frontend_ok f -> thread_ok t -> thread_ok (set_frontend mode f t)).
Proof.
  unfold frontend, set_frontend. destruct (mode =? POLY_MODE_RAW_RISCV); split_and!; try done;
    intros ? [? ? ? ? ?]; by split.
Qed.

(** A query reports the stack of the frontend and touches nothing else. *)
Lemma sigaltstack_query (probe : mem_probe) (mode old : Z) (t : thread) :
  poly_is_raw_foreign_mode mode = true -> thread_ok t -> 0 < old ->
  poly_guest_range_is_mapped probe old (sizeof ct_linux_stack_t) true = true ->
  exists m, poly_dispatch_guest_sigaltstack probe mode 0 old t = (set_thread_memory m t, 0) /\
    load_struct ct_linux_stack_t m old =
      MkStack (fs_stack_sp (frontend mode t))
        (if in_handler mode t && (Z.land (fs_stack_flags (frontend mode t)) POLY_LINUX_SS_DISABLE =? 0)
         then POLY_LINUX_SS_ONSTACK else fs_stack_flags (frontend mode t)) (fs_stack_size (frontend mode t)) /\
    forall a, 0 <= a < 2 ^ 64 -> a < old \/ old + sizeof ct_linux_stack_t <= a -> m a = th_memory t a.
Proof.
  intros Hmode Ht Hold Hmap. unfold poly_dispatch_guest_sigaltstack. rewrite in_handler_spec, Hmap by done.
  destruct (Z.eqb_spec old 0); [lia|]. cbn [negb andb].
  assert (frontend_ok (frontend mode t)) as (_ & Hs & Hz & Hfl).
  { unfold frontend. destruct (mode =? _); [apply (ok_riscv t Ht)|apply (ok_aarch64 t Ht)]. }
  set (flags := if _ && _ then Z.lor _ _ else _).
  assert (flags = if in_handler mode t && (Z.land (fs_stack_flags (frontend mode t)) POLY_LINUX_SS_DISABLE =? 0)
         then POLY_LINUX_SS_ONSTACK else fs_stack_flags (frontend mode t)) as <-.
  { unfold flags. destruct Hfl as [-> | ->]; by destruct (in_handler mode t). }
  apply mapped_no_wrap in Hmap as [_ Hend]; [|lia|destruct frame_sizes as (-> & _); lia]. unfold UINT64_MAX in Hend.
  set (st := MkStack _ flags _).
  assert (c_ok ct_linux_stack_t st) as Hok.
  { unfold ct_linux_stack_t. ok_split; cbn [st ss_sp ss_flags ss_size]; try done.
    cbn. unfold flags. destruct Hfl as [-> | ->]; destruct (in_handler mode t); vm_compute; split; done. }
  eexists. split; [reflexivity|]. split; [apply load_store_struct; try apply _; done || lia|].
  intros a Ha Hout. apply store_struct_outside; try apply _; done || lia.
Qed.

Lemma stack_flags_cases (flags : Z) :
  Z.land flags (Z.lnot POLY_LINUX_SS_DISABLE) = 0 -> Z.land flags POLY_LINUX_SS_DISABLE = 0 -> flags = 0.
Proof.
  intros H1 H2. apply Z.bits_inj'. intros i Hi. rewrite Z.bits_0.
  apply (f_equal (fun x => Z.testbit x i)) in H1, H2. rewrite Z.land_spec, Z.bits_0 in H1, H2.
  rewrite Z.lnot_spec in H1 by done. destruct (Z.testbit flags i); [|done].
  by destruct (Z.testbit POLY_LINUX_SS_DISABLE i).
Qed.

(** A stack that was set is the one that a query reports. *)
Lemma set_stack_reported (probe : mem_probe) (mode stack_sp size flags : Z) (t : thread) :
  let t1 := set_frontend mode (MkFrontend (fs_active_frame (frontend mode t)) stack_sp size flags) t in
  poly_is_raw_foreign_mode mode = true -> thread_ok t -> in_handler mode t = false ->
  word stack_sp -> word size -> flags = 0 \/ flags = POLY_LINUX_SS_DISABLE ->
  thread_ok t1 /\ forall old, 0 < old ->
  poly_guest_range_is_mapped probe old (sizeof ct_linux_stack_t) true = true ->
  exists m, poly_dispatch_guest_sigaltstack probe mode 0 old t1 = (set_thread_memory m t1, 0) /\
    load_struct ct_linux_stack_t m old = MkStack stack_sp flags size /\
    forall a, 0 <= a < 2 ^ 64 -> a < old \/ old + sizeof ct_linux_stack_t <= a -> m a = th_memory t a.
Proof.
  intros t1 Hmode Ht Hin Hsp Hsize Hfl.
  assert (frontend_ok (frontend mode t)) as (Hac & _).
  { unfold frontend. destruct (mode =? _); [apply (ok_riscv t Ht)|apply (ok_aarch64 t Ht)]. }
  destruct (set_frontend_parts mode (MkFrontend (fs_active_frame (frontend mode t)) stack_sp size flags) t)
    as (Hf & Hm & Hok). fold t1 in Hf, Hm, Hok.
  assert (thread_ok t1) as Ht1 by (by apply Hok). split; [done|]. intros old Hold Hmap.
  destruct (sigaltstack_query probe mode old _ Hmode Ht1 Hold Hmap) as (m & Hq & Hl & Hout).
  exists m. split; [done|]. split; [|by rewrite Hm in Hout]. rewrite Hl, Hf. unfold in_handler in *. rewrite Hf.
  cbn [fs_active_frame]. by rewrite Hin.
Qed.

(** [sigaltstack] that sets a stack: a call that fails changes nothing; a
    call that succeeds is not made from a handler, keeps the thread well formed,
    and a later query reports exactly the stack that was given, or a disabled
    one when it was disabled, writing nothing but the result. *)
Theorem sigaltstack_set_then_query (probe : mem_probe) (mode new result : Z) (t t1 : thread) :
  poly_is_raw_foreign_mode mode = true -> thread_ok t -> 0 < new ->
  poly_dispatch_guest_sigaltstack probe mode new 0 t = (t1, result) ->
  let st := load_struct ct_linux_stack_t (th_memory t) new in
  (result <> 0 -> t1 = t) /\
  (result = 0 ->
     in_handler mode t = false /\ thread_ok t1 /\
     forall old, 0 < old -> poly_guest_range_is_mapped probe old (sizeof ct_linux_stack_t) true = true ->
     exists m, poly_dispatch_guest_sigaltstack probe mode 0 old t1 = (set_thread_memory m t1, 0) /\
       load_struct ct_linux_stack_t m old =
         (if Z.land (ss_flags st) POLY_LINUX_SS_DISABLE =? 0 then st else MkStack 0 POLY_LINUX_SS_DISABLE 0) /\
       forall a, 0 <= a < 2 ^ 64 -> a < old \/ old + sizeof ct_linux_stack_t <= a -> m a = th_memory t a).
Proof.
  intros Hmode Ht Hnew. unfold poly_dispatch_guest_sigaltstack at 1. rewrite in_handler_spec by done.
  cbn [Z.eqb negb andb]. destruct (Z.eqb_spec new 0); [lia|].
  assert (forall e, 0 < e < 4096 -> (t, neg_errno e) = (t1, result) -> t1 = t /\ result <> 0) as Herr.
  { intros e He [= <- <-]. split; [done|]. by apply neg_errno_not_zero. }
  cbv zeta. set (st := load_struct ct_linux_stack_t (th_memory t) new).
  destruct (in_handler mode t) eqn:Hin; [by intros [-> ?]%Herr|].
  destruct (negb _); [by intros [-> ?]%Herr|].
  destruct (Z.eqb_spec (Z.land (ss_flags st) (Z.lnot POLY_LINUX_SS_DISABLE)) 0) as [Hother|]; [|by intros [-> ?]%Herr].
  cbn [negb].
  assert (c_ok ct_linux_stack_t st) as Hst by (apply load_struct_ok; [apply _|apply (ok_memory t Ht)]).
  destruct (Z.eqb_spec (Z.land (ss_flags st) POLY_LINUX_SS_DISABLE) 0) as [Hdis|Hdis]; cbn [negb].
  - destruct (_ <? _); [by intros [-> ?]%Herr|]. destruct (negb _); [by intros [-> ?]%Herr|].
    intros [= <- <-]. split; [done|]. intros _. split; [done|]. ok_inv Hst.
    replace st with (MkStack (ss_sp st) 0 (ss_size st)); [by apply set_stack_reported; auto|].
    pose proof (stack_flags_cases _ Hother Hdis) as Hz. destruct st. cbn in Hz |- *. by subst.
  - intros [= <- <-]. split; [done|]. intros _. split; [done|].
    by apply set_stack_reported; auto with values.
Qed.

(** ** Prefaulting *)

(** Prefaulting a range accesses every page of it, and nothing outside. *)
Lemma prefault_reaches_pages (address length a : Z) :
  0 < address -> 0 < length <= SIZE_MAX -> address <= a < address + length ->
  exists x, x ∈ poly_prefault_range address length /\ x / 4096 = a / 4096 /\ address <= x < address + length.
Proof.
  intros H0 Hl Ha. unfold poly_prefault_range.
  destruct (Z.eqb_spec address 0), (Z.eqb_spec length 0), (Z.gtb_spec length SIZE_MAX); try lia. cbn [orb].
  pose proof (Z.div_mod (length + 4095) 4096). pose proof (Z.mod_pos_bound (length + 4095) 4096).
  (* the first multiple of the page size past [address] in the page of [a] *)
  set (k := (a / 4096 - address / 4096)).
  assert (0 <= k) by (unfold k; pose proof (Z.div_le_mono address a 4096); lia).
  assert ((address + 4096 * k) / 4096 = a / 4096) as Hk.
  { rewrite (Z.mul_comm 4096), Z.div_add by lia. unfold k. lia. }
  destruct (Z.lt_ge_cases (4096 * k) length) as [Hlt|Hge].
  - exists (address + 4096 * k). split; [|split; [done|lia]]. apply elem_of_app. left.
    apply list_elem_of_fmap. exists (Z.to_nat k). split; [f_equal; f_equal; lia|].
    apply elem_of_seq. lia.
  - exists (address + (length - 1)). split; [apply elem_of_app; right; by apply list_elem_of_singleton|]. split; [|lia].
    pose proof (Z.div_mod a 4096). pose proof (Z.mod_pos_bound a 4096).
    pose proof (Z.div_mod (address + 4096 * k) 4096). pose proof (Z.mod_pos_bound (address + 4096 * k) 4096).
    symmetry. apply (Z.div_unique _ 4096 _ (address + (length - 1) - 4096 * (a / 4096))); lia.
Qed.
