(* ===== verification/SignalSamples.v ===== *)
(** Concrete threads and signals: the theorems about signal delivery at work,
    and a signal that is lost on a small alternate stack. *)

From stdpp Require Import relations.
From S2P Require Import Prelude GuestMemory GuestSignals CStruct Seccomp TrapState SignalFrame SignalDelivery SignalReturn SignalProps SignalStack.

(** A thread at 0x4000 with its stack at 0x80000 that trapped in an AArch64
    system call. *)
Definition sample_state : poly_xsave_state :=
  set_xs_event_record (MkEvent 1 POLY_MODE_RAW_AARCH64 98 0 0x4000 0x4004 return_event_flags [0; 0])
    (set_xs_aarch64_gpr (<[31%nat := 0x80000]> (repeat 0 32)) (zeroed ct_xsave_state)).

(** A handler at 0x5000 for signal [k]. *)
Definition sample_thread (k flags pending : Z) (f : frontend_signals) (m : memory) : thread :=
  MkThread (MkSignals (<[Z.to_nat k := Some (MkKsigaction 0x5000 flags 0 0x4)]> (repeat None 65)) None
      (fun _ => HostDefault) 0 false m) pending f (MkFrontend 0 0 0 POLY_LINUX_SS_DISABLE).

Definition no_stack : frontend_signals := MkFrontend 0 0 0 POLY_LINUX_SS_DISABLE.
Definition zero_memory : memory := fun _ => 0.
Definition keep_pages (touched : list Z) (probe : mem_probe) : mem_probe := probe.
Definition accept (s : poly_xsave_state) (d : poly_v2_derive_descriptor) : Z * poly_xsave_state := (0, s).

(** SIGUSR1 is pending. *)
Definition usr1_thread : thread := sample_thread SIGUSR1 0 0x200 no_stack zero_memory.
Definition usr1_delivery : thread * poly_xsave_state * bool :=
  try_deliver open_probe keep_pages accept 0x70000 0x6000 POLY_MODE_RAW_AARCH64 0 0 0 sample_state usr1_thread.

Lemma set_event_gpr_ok (e : poly_event_record) (gpr : list Z) (s : poly_xsave_state) :
  c_ok ct_event_record e -> gpr_ok gpr -> state_ok s -> state_ok (set_xs_event_record e (set_xs_aarch64_gpr gpr s)).
Proof.
  intros He Hg H. ok_inv H. unfold ct_xsave_state. ok_split;
    cbn [xs_header xs_event_record xs_event_args xs_transition xs_aarch64_gpr xs_aarch64_fp xs_aarch64_status xs_riscv_gpr
      xs_riscv_fp xs_riscv_status xs_import_return xs_abi_signature xs_cross_return xs_frontend_tls xs_landing_policy
      xs_state_key xs_pre_trap_restore_reserved xs_trap_restore xs_native_return xs_reserved set_xs_event_record
      set_xs_aarch64_gpr]; ok_done.
Qed.

Lemma sample_state_ok : state_ok sample_state.
Proof.
  apply set_event_gpr_ok; [| |apply (zeroed_ok ct_xsave_state)].
  - unfold ct_event_record. cbn [c_ok c_struct c_pair fst snd].
    repeat match goal with |- _ /\ _ => split end;
      lazymatch goal with
      | |- c_ok (c_uint _) _ => vm_compute; split; [discriminate|reflexivity]
      | |- _ => apply (zero_words 2)
      end.
  - apply insert_words; [unfold in_width; lia|apply zero_words].
Qed.

Lemma word_small (x : Z) : 0 <= x < 2 ^ 64 -> word x.
Proof. done. Qed.

Lemma no_stack_ok : frontend_ok no_stack.
Proof. split; [by apply word_small|]. split; [by apply word_small|]. split; [by apply word_small|by right]. Qed.

Lemma sample_thread_ok (k flags p : Z) (f : frontend_signals) (m : memory) :
  word flags -> frontend_ok f -> byte_memory m -> thread_ok (sample_thread k flags p f m).
Proof.
  intros Hfl Hf Hm. split; [exact Hm|by apply word_small| |exact Hf|exact no_stack_ok].
  apply Forall_insert.
  - apply Forall_forall. intros x Hx%list_elem_of_In. by apply repeat_spec in Hx as ->.
  - split; [by apply word_small|]. split; [exact Hfl|]. split; by apply word_small.
Qed.

Lemma usr1_ok : thread_ok usr1_thread.
Proof. apply sample_thread_ok; [by apply word_small|apply no_stack_ok|by intros a]. Qed.

Lemma usr1_delivered : usr1_delivery = (usr1_delivery.1.1, usr1_delivery.1.2, true).
Proof.
  assert (usr1_delivery.2 = true) as H by (vm_compute; reflexivity).
  destruct usr1_delivery as [[t1 s1] b]. cbn in *. by subst.
Qed.

Lemma handler_entered_witness : exists k d e signal_sp,
  (ready 0x6000 POLY_MODE_RAW_AARCH64 k d usr1_thread /\ none_ready 0x6000 POLY_MODE_RAW_AARCH64 1 k usr1_thread) /\
  entry_state POLY_MODE_RAW_AARCH64 k signal_sp d e.
Proof.
  destruct (handler_entered open_probe keep_pages accept 0x70000 0x6000 POLY_MODE_RAW_AARCH64
    ltac:(by apply word_small) eq_refl 0 0 0 sample_state usr1_delivery.1.2 usr1_thread usr1_delivery.1.1
    sample_state_ok usr1_ok ltac:(by apply word_small) ltac:(done) usr1_delivered)
    as (k & d & e & sp & H1 & H2 & _).
  exists k, d, e, sp. split; [exact H1|exact H2].
Defined.

(** The handler does nothing and returns. *)
Lemma signal_return_restores_witness :
  let pc := interrupted_at open_probe POLY_MODE_RAW_AARCH64 0 sample_state in
  exists r, resumed POLY_MODE_RAW_AARCH64 sample_state usr1_delivery.1.2 pc r /\ pc = 0x4004.
Proof.
  destruct (signal_return_restores open_probe keep_pages accept 0x70000 0x6000 POLY_MODE_RAW_AARCH64
    ltac:(by apply word_small) eq_refl 0 0 0 sample_state usr1_delivery.1.2 usr1_delivery.1.2 usr1_thread
    usr1_delivery.1.1 usr1_delivery.1.1 sample_state_ok usr1_ok ltac:(by apply word_small) ltac:(done) usr1_delivered
    eq_refl ltac:(done) ltac:(vm_compute; reflexivity)) as (r & Hr & _).
  exists r. split; [exact Hr|vm_compute; reflexivity].
Defined.

Lemma signal_frame_confined_witness :
  exists signal_sp, frame_area POLY_MODE_RAW_AARCH64 sample_state usr1_thread signal_sp.
Proof.
  destruct (signal_frame_confined open_probe keep_pages accept 0x70000 0x6000 POLY_MODE_RAW_AARCH64
    ltac:(by apply word_small) eq_refl 0 0 0 sample_state usr1_delivery.1.2 usr1_thread usr1_delivery.1.1 true
    sample_state_ok usr1_ok ltac:(by apply word_small) ltac:(done) usr1_delivered) as [H|(sp & H & _)].
  - exfalso. apply (f_equal (fun m : memory => m (0x80000 - 8400 + 32))) in H. vm_compute in H. discriminate.
  - exists sp. exact H.
Defined.

Lemma usr1_ready : ready 0x6000 POLY_MODE_RAW_AARCH64 SIGUSR1 (MkDelivery 0x5000 0x6000 0 0x4) usr1_thread.
Proof. split; [done|]. by vm_compute. Qed.


(** ** A small alternate stack *)

(** A [stack_t] at 0x2000: 4096 bytes at 0x10000. *)
Definition stack_memory : memory := store_struct ct_linux_stack_t zero_memory 0x2000 (MkStack 0x10000 0 4096).

(** SIGCHLD is pending; its handler wants the alternate stack. *)
Definition chld_thread : thread := sample_thread SIGCHLD POLY_LINUX_SA_ONSTACK 0x10000 no_stack stack_memory.

Lemma chld_ok : thread_ok chld_thread.
Proof.
  apply sample_thread_ok; [by apply word_small|apply no_stack_ok|].
  apply store_struct_bytes; [apply _|by intros a].
Qed.

Definition chld_stack_set : thread * Z :=
  poly_dispatch_guest_sigaltstack open_probe POLY_MODE_RAW_AARCH64 0x2000 0 chld_thread.

Lemma chld_set : chld_stack_set = (chld_stack_set.1, 0).
Proof.
  assert (chld_stack_set.2 = 0) as H by (vm_compute; reflexivity).
  destruct chld_stack_set as [t r]. cbn in *. by subst.
Qed.

Lemma sigaltstack_set_then_query_witness :
  thread_ok chld_stack_set.1 /\ in_handler POLY_MODE_RAW_AARCH64 chld_thread = false.
Proof.
  destruct (sigaltstack_set_then_query open_probe POLY_MODE_RAW_AARCH64 0x2000 0 chld_thread chld_stack_set.1
    eq_refl chld_ok ltac:(done) chld_set) as [_ H].
  destruct (H eq_refl) as (H1 & H2 & _). split; [exact H2|exact H1].
Defined.

(** A 4096-byte alternate stack is accepted by [sigaltstack], but no frame
    fits into it: a pending SIGCHLD whose handler asks for the alternate stack is
    then discarded at the next trap, without a handler having run. *)
Theorem sigchld_lost_on_small_stack :
  chld_stack_set.2 = 0 /\ pending SIGCHLD chld_stack_set.1 = true /\
  let '(t, s, delivered) := poly_try_deliver_aarch64_signal open_probe keep_pages accept 0x70000 0x6000 0 0 0
    sample_state chld_stack_set.1 in
  delivered = false /\ pending SIGCHLD t = false.
Proof. vm_compute. auto. Qed.
