(* ===== verification/TrapClean.v ===== *)
(** What cleaning a state image achieves
    ([poly_sanitize_trap_state_for_import] of [tools/runtime/polyexec.c]): the
    image meets the rules of an import, whatever it held before, and an image
    that meets them is left alone. *)

From S2P Require Import Prelude GuestMemory CStruct Seccomp TrapState SignalFrame SignalDelivery.

#[local] Opaque sizeof c_size zeroed.
#[local] Arguments Z.testbit : simpl never.
#[local] Arguments supported_trap_flags : simpl never.

(** ** The rules of an import *)

(** No bit outside [mask]. *)
Definition within (mask x : Z) : Prop := Z.land x mask = x.

(** A return stack: nothing above its top, and [P] of every frame below it. *)
Definition stack_clean {A} (top : Z) (zero : A) (P : A -> Prop) (frames : list A) : Prop :=
  forall n x, frames !! n = Some x -> if Z.of_nat n <? top then P x else x = zero.

Definition event_clean (s : poly_xsave_state) : Prop :=
  let e := xs_event_record s in
  er_reserved e = [0; 0] /\
  if er_reason e =? 0 then er_flags e = 0 /\ xs_event_args s = repeat 0 8
  else
    hd_reserved0 (xs_header s) = 0 /\ within supported_trap_flags (er_flags e) /\
    (hd_trap_vector_pc (xs_header s) = 0 -> Z.testbit (er_flags e) 0 = false) /\
    (Z.testbit (tr_flags (xs_trap_restore s)) 0 = false -> Z.testbit (er_flags e) 2 = false).

Definition aarch64_status_clean (a : poly_aarch64_status_state) : Prop :=
  within POLY_AARCH64_NZCV_MASK (as_nzcv a) /\ within POLY_AARCH64_FPCR_RMODE_MASK (as_fpcr a) /\
  within POLY_AARCH64_FPSR_MASK (as_fpsr a) /\ as_reservation_addr a = 0 /\ as_reservation_size a = 0 /\
  as_reserved a = repeat 0 11.

Definition riscv_status_clean (v : poly_riscv_status_state) : Prop :=
  within POLY_RISCV_FCSR_MASK (rvs_fcsr v) /\ rvs_reservation_addr v = 0 /\ rvs_reservation_size v = 0 /\
  rvs_reserved v = repeat 0 13.

Definition import_clean (r : poly_import_return_state) : Prop :=
  ir_depth r = POLY_STATE_XSAVE_IMPORT_RETURN_DEPTH /\ ir_top r <= POLY_STATE_XSAVE_IMPORT_RETURN_DEPTH /\
  stack_clean (ir_top r) (zeroed ct_import_return_frame) (fun _ => True) (ir_frames r) /\ ir_reserved r = repeat 0 240.

Definition cross_clean (r : poly_cross_return_state) : Prop :=
  cr_depth r = POLY_STATE_XSAVE_CROSS_RETURN_DEPTH /\ cr_top r <= POLY_STATE_XSAVE_CROSS_RETURN_DEPTH /\
  stack_clean (cr_top r) (zeroed ct_cross_return_frame) (fun x => cf_reserved0 x = 0) (cr_frames r) /\
  cr_reserved r = repeat 0 16.

Definition native_clean (r : poly_native_return_state) : Prop :=
  (if nr_active_valid r =? 0 then nr_active r = zeroed ct_native_return_frame
   else nf_reserved (nr_active r) = repeat 0 4) /\
  (nr_top r <= POLY_STATE_XSAVE_NATIVE_RETURN_DEPTH ->
   stack_clean (nr_top r) (zeroed ct_native_return_frame) (fun x => nf_reserved x = repeat 0 4) (nr_frames r)) /\
  nr_reserved r = repeat 0 32.

Definition aarch64_bank_empty (r : poly_trap_restore_state) : Prop :=
  tr_aarch64_gpr_valid_mask r = 0 /\ tr_aarch64_gpr r = repeat 0 32 /\ tr_aarch64_fp r = repeat (zeroed ct_u128) 32 /\
  tr_aarch64_nzcv r = 0 /\ tr_aarch64_fpcr r = 0 /\ tr_aarch64_fpsr r = 0.

Definition riscv_bank_empty (r : poly_trap_restore_state) : Prop :=
  tr_riscv_gpr_valid_mask r = 0 /\ tr_riscv_gpr r = repeat 0 32 /\ tr_riscv_fp r = repeat (zeroed ct_u128) 32 /\
  tr_riscv_fcsr r = 0.

Definition restore_clean (r : poly_trap_restore_state) : Prop :=
  if tr_flags r =? 0 then r = zeroed ct_trap_restore_state
  else
    (tr_reserved0 r = 0 /\ tr_aarch64_reserved r = 0 /\ tr_riscv_reserved r = repeat 0 3 /\ tr_reserved r = repeat 0 32) /\
    (tr_mode r = POLY_MODE_RAW_AARCH64 ->
     within POLY_AARCH64_NZCV_MASK (tr_aarch64_nzcv r) /\ within POLY_AARCH64_FPCR_RMODE_MASK (tr_aarch64_fpcr r) /\
     within POLY_AARCH64_FPSR_MASK (tr_aarch64_fpsr r) /\ riscv_bank_empty r) /\
    (tr_mode r = POLY_MODE_RAW_RISCV -> within POLY_RISCV_FCSR_MASK (tr_riscv_fcsr r) /\ aarch64_bank_empty r).

Record importable (s : poly_xsave_state) : Prop := {
  im_event : event_clean s;
  im_aarch64 : aarch64_status_clean (xs_aarch64_status s);
  im_riscv : riscv_status_clean (xs_riscv_status s);
  im_import : import_clean (xs_import_return s);
  im_cross : cross_clean (xs_cross_return s);
  im_native : native_clean (xs_native_return s);
  im_restore : restore_clean (xs_trap_restore s);
  im_key : sk_reserved (xs_state_key s) = repeat 0 5;
  im_pre : xs_pre_trap_restore_reserved s = repeat 0 160;
  im_reserved : xs_reserved s = repeat 0 1408;
}.

(** ** Masks and stacks *)

Lemma within_land (mask x : Z) : within mask (Z.land x mask).
Proof. unfold within. by rewrite <- Z.land_assoc, Z.land_diag. Qed.

Lemma within_bits (mask x i : Z) : within mask x -> Z.testbit mask i = false -> Z.testbit x i = false.
Proof. unfold within. intros <- H. rewrite Z.land_spec, H. apply andb_false_r. Qed.

Lemma without_bit (x k i : Z) : 0 <= k < 64 -> Z.testbit (without x (2 ^ k)) i =
  Z.testbit x i && (i <? 64) && negb (i =? k).
Proof.
  intros Hk. unfold without, wrap. destruct (Z.ltb_spec i 0).
  { rewrite !Z.testbit_neg_r by done. done. }
  rewrite Z.land_spec, Z.testbit_mod_pow2 by lia. rewrite Z.lnot_spec by done. rewrite Z.pow2_bits_eqb by lia.
  rewrite (Z.eqb_sym k). destruct (i <? 64), (Z.testbit x i); done.
Qed.

(** Clearing a bit that is not set. *)
Lemma without_unset (x k : Z) : 0 <= k < 64 -> within supported_trap_flags x -> Z.testbit x k = false ->
  without x (2 ^ k) = x.
Proof.
  intros Hk Hx Hb. apply Z.bits_inj'. intros i Hi. rewrite without_bit by done.
  destruct (Z.ltb_spec i 64).
  - destruct (Z.eqb_spec i k) as [->|]; [by rewrite Hb|]. by rewrite !andb_true_r.
  - rewrite (within_bits supported_trap_flags x i Hx); [done|]. apply Z.bits_above_log2; [done|]. change (Z.log2 supported_trap_flags) with 6. lia.
Qed.

Lemma without_within (mask x k : Z) : within mask x -> within mask (without x (2 ^ k)).
Proof.
  unfold within, without. intros H. rewrite <- Z.land_assoc, (Z.land_comm _ mask), Z.land_assoc. by rewrite H.
Qed.

Lemma flag_valid (flags : Z) : (Z.land flags POLY_TRAP_RESTORE_FLAG_VALID =? 0) = negb (Z.testbit flags 0).
Proof. by apply (land_bit flags 0). Qed.

Lemma keep_frames_clean {A} (top : Z) (f : A -> A) (zero : A) (P : A -> Prop) (frames : list A) :
  (forall x, P (f x)) -> stack_clean top zero P (keep_frames top f zero frames).
Proof.
  intros Hf n x H. unfold keep_frames in H. rewrite list_lookup_imap in H.
  apply fmap_Some in H as (y & _ & ->). by destruct (_ <? _).
Qed.

Lemma keep_frames_id {A} (top : Z) (f : A -> A) (zero : A) (P : A -> Prop) (frames : list A) :
  (forall x, P x -> f x = x) -> stack_clean top zero P frames -> keep_frames top f zero frames = frames.
Proof.
  intros Hf H. apply list_eq. intros n. unfold keep_frames. rewrite list_lookup_imap.
  destruct (frames !! n) as [x|] eqn:E; [|done]. cbn. f_equal. apply H in E. destruct (_ <? _); [by apply Hf|done].
Qed.

Lemma keep_frames_ok {A} (c : ctype A) (top : Z) (f : A -> A) (zero : A) (n : nat) (frames : list A) :
  (forall x, c_ok c x -> c_ok c (f x)) -> c_ok c zero -> c_ok (c_array n c) frames ->
  c_ok (c_array n c) (keep_frames top f zero frames).
Proof.
  intros Hf Hz [Hl Hok]. split; [unfold keep_frames; by rewrite length_imap|].
  apply Forall_lookup. intros i x H. unfold keep_frames in H. rewrite list_lookup_imap in H.
  apply fmap_Some in H as (y & Hy & ->). destruct (_ <? _); [|done]. apply Hf. by apply (Forall_lookup_1 _ _ _ _ Hok Hy).
Qed.

Lemma stack_clean_zero {A} (top : Z) (zero : A) (P : A -> Prop) (n : nat) : P zero ->
  stack_clean top zero P (repeat zero n).
Proof.
  intros HP i x H%list_elem_of_lookup_2%list_elem_of_In. apply repeat_spec in H as ->. by destruct (_ <? _).
Qed.

(** ** The parts of the image *)

Lemma sanitize_import_clean (r : poly_import_return_state) : import_clean (sanitize_import_return r).
Proof.
  unfold sanitize_import_return. destruct (negb _ || _) eqn:E.
  - repeat split; [done|]. by apply stack_clean_zero.
  - apply orb_false_iff in E as [E1%negb_false_iff%Z.eqb_eq E2]. rewrite Z.gtb_ltb in E2. apply Z.ltb_ge in E2.
    repeat split; [done|done|]. by apply keep_frames_clean.
Qed.

Lemma sanitize_import_id (r : poly_import_return_state) : import_clean r -> sanitize_import_return r = r.
Proof.
  destruct r as [top depth frames reserved]. unfold import_clean, sanitize_import_return. cbn. intros (-> & Ht & Hf & ->).
  rewrite Z.eqb_refl, Z.gtb_ltb. destruct (Z.ltb_spec POLY_STATE_XSAVE_IMPORT_RETURN_DEPTH top); [lia|]. cbn.
  f_equal. by apply (keep_frames_id _ _ _ (fun _ => True)).
Qed.

Lemma sanitize_cross_clean (r : poly_cross_return_state) : cross_clean (sanitize_cross_return r).
Proof.
  unfold sanitize_cross_return. destruct (negb _ || _) eqn:E.
  - repeat split; [done|]. apply stack_clean_zero. vm_compute. reflexivity.
  - apply orb_false_iff in E as [E1%negb_false_iff%Z.eqb_eq E2]. rewrite Z.gtb_ltb in E2. apply Z.ltb_ge in E2.
    repeat split; [done|done|]. by apply keep_frames_clean.
Qed.

Lemma sanitize_cross_id (r : poly_cross_return_state) : cross_clean r -> sanitize_cross_return r = r.
Proof.
  destruct r as [top depth frames reserved]. unfold cross_clean, sanitize_cross_return. cbn. intros (-> & Ht & Hf & ->).
  rewrite Z.eqb_refl, Z.gtb_ltb. destruct (Z.ltb_spec POLY_STATE_XSAVE_CROSS_RETURN_DEPTH top); [lia|]. cbn.
  f_equal. apply (keep_frames_id _ _ _ (fun x => cf_reserved0 x = 0)); [|done]. intros [] Hx. cbn in *. by subst.
Qed.

Lemma set_nf_reserved_id (x : poly_native_return_frame) : nf_reserved x = repeat 0 4 -> set_nf_reserved (repeat 0 4) x = x.
Proof. destruct x. cbn. by intros ->. Qed.

Lemma sanitize_native_clean (r : poly_native_return_state) : native_clean (sanitize_native_return r).
Proof.
  unfold sanitize_native_return, native_clean. cbn [nr_active_valid nr_active nr_top nr_frames nr_reserved]. split.
  - by destruct (nr_active_valid r =? 0).
  - split; [|done]. intros Ht. apply Z.leb_le in Ht. rewrite Ht. by apply keep_frames_clean.
Qed.

Lemma sanitize_native_id (r : poly_native_return_state) : native_clean r -> sanitize_native_return r = r.
Proof.
  destruct r as [valid top depth fl active frames reserved]. unfold native_clean, sanitize_native_return.
  cbn [nr_active_valid nr_active nr_top nr_frames nr_reserved nr_depth nr_supported_flags]. intros (Ha & Hf & ->). f_equal.
  - destruct (valid =? 0); [done|by apply set_nf_reserved_id].
  - destruct (Z.leb_spec top POLY_STATE_XSAVE_NATIVE_RETURN_DEPTH) as [Ht|Ht]; [|done].
    apply (keep_frames_id _ _ _ (fun x => nf_reserved x = repeat 0 4)); [apply set_nf_reserved_id|by apply Hf].
Qed.

Lemma sanitize_restore_clean (r : poly_trap_restore_state) : restore_clean (sanitize_trap_restore r).
Proof.
  unfold sanitize_trap_restore. destruct (tr_flags r =? 0) eqn:E.
  { unfold restore_clean. replace (tr_flags (zeroed ct_trap_restore_state)) with 0 by (vm_compute; reflexivity). done. }
  cbn [tr_mode]. unfold restore_clean. destruct (Z.eqb_spec (tr_mode r) POLY_MODE_RAW_AARCH64) as [Ea|Ea].
  - cbn [tr_flags poly_sanitize_aarch64_trap_restore_payload]. rewrite E. split; [done|]. cbn. split.
    + intros _. repeat split; apply within_land.
    + rewrite Ea. discriminate.
  - destruct (Z.eqb_spec (tr_mode r) POLY_MODE_RAW_RISCV) as [Er|Er]; cbn; rewrite E; (split; [done|]); split; try done.
    intros _. repeat split. apply within_land.
Qed.

Lemma sanitize_restore_id (r : poly_trap_restore_state) : restore_clean r -> sanitize_trap_restore r = r.
Proof.
  unfold restore_clean, sanitize_trap_restore. destruct (tr_flags r =? 0) eqn:E; [done|]. cbn [tr_mode].
  destruct r. cbn in *. intros ((-> & -> & -> & ->) & Ha & Hr).
  destruct (Z.eqb_spec tr_mode POLY_MODE_RAW_AARCH64) as [Ea|Ea].
  - destruct (Ha Ea) as (H1 & H2 & H3 & H4). unfold riscv_bank_empty, within in *. cbn in H4.
    destruct H4 as (-> & -> & -> & ->). unfold poly_sanitize_aarch64_trap_restore_payload. cbn. by rewrite H1, H2, H3.
  - destruct (Z.eqb_spec tr_mode POLY_MODE_RAW_RISCV) as [Er|Er]; [|done].
    destruct (Hr Er) as (H1 & H2). unfold aarch64_bank_empty, within in *. cbn in H2.
    destruct H2 as (-> & -> & -> & -> & -> & ->). unfold poly_sanitize_riscv_trap_restore_payload. cbn. by rewrite H1.
Qed.

(** The flags of an event, restricted to what the image supports. *)
Lemma event_flags_clean (s : poly_xsave_state) (flags : Z) :
  let f1 := Z.land flags supported_trap_flags in
  let f2 := if hd_trap_vector_pc (xs_header s) =? 0 then without f1 POLY_EVENT_RECORD_FLAG_VECTOR_DELIVERY else f1 in
  let f3 := if Z.land (tr_flags (xs_trap_restore s)) POLY_TRAP_RESTORE_FLAG_VALID =? 0
            then without f2 POLY_EVENT_RECORD_FLAG_TRAP_RETURN_RESTORE else f2 in
  within supported_trap_flags f3 /\
  (hd_trap_vector_pc (xs_header s) = 0 -> Z.testbit f3 0 = false) /\
  (Z.testbit (tr_flags (xs_trap_restore s)) 0 = false -> Z.testbit f3 2 = false).
Proof.
  rewrite flag_valid. intros f1 f2 f3.
  assert (within supported_trap_flags f1) as H1 by apply within_land.
  assert (within supported_trap_flags f2) as H2 by (unfold f2; destruct (_ =? 0); [by apply (without_within _ _ 0)|done]).
  split; [unfold f3; destruct (negb _); [by apply (without_within _ _ 2)|done]|]. split.
  - intros Hv. apply Z.eqb_eq in Hv. unfold f3, f2. rewrite Hv.
    destruct (negb _); [rewrite (without_bit _ 2) by lia|]; rewrite (without_bit _ 0) by lia; cbn; by rewrite ?andb_false_r.
  - intros Ht. unfold f3. rewrite Ht. cbn [negb]. rewrite (without_bit _ 2) by lia. by rewrite andb_false_r.
Qed.

Lemma sanitize_event_clean (s : poly_xsave_state) : event_clean (sanitize_event s).
Proof.
  unfold sanitize_event, event_clean. cbn [xs_event_record set_xs_event_record set_er_reserved er_reason].
  destruct (er_reason (xs_event_record s) =? 0) eqn:E; cbn; rewrite E; split; try done.
  split; [done|]. apply (event_flags_clean s).
Qed.

Lemma sanitize_event_id (s : poly_xsave_state) : event_clean s -> sanitize_event s = s.
Proof.
  unfold event_clean, sanitize_event. destruct s as [h e]. cbn. destruct e as [reason ? ? ? ? ? flags rsv]. cbn.
  intros [-> H]. destruct (reason =? 0) eqn:E.
  - cbn. destruct H as [-> ->]. done.
  - destruct H as (Hr & Hw & Hv & Ht). cbn. rewrite flag_valid. unfold set_xs_header, set_xs_event_record. cbn. f_equal.
    + destruct h. cbn in *. by subst.
    + unfold set_er_flags. cbn. f_equal. rewrite Hw.
      replace (if hd_trap_vector_pc h =? 0 then _ else flags) with flags.
      2:{ destruct (Z.eqb_spec (hd_trap_vector_pc h) 0) as [Ev|]; [|done]. symmetry. apply (without_unset _ 0); [lia|done|auto]. }
      destruct (Z.testbit (tr_flags _) 0); [done|]. apply (without_unset _ 2); [lia|done|auto].
Qed.

Lemma sanitize_importable (s : poly_xsave_state) : importable (poly_sanitize_trap_state_for_import s).
Proof.
  unfold poly_sanitize_trap_state_for_import. set (s1 := sanitize_event s).
  split; cbn [xs_aarch64_status xs_riscv_status xs_import_return xs_cross_return xs_native_return xs_trap_restore
    xs_state_key xs_pre_trap_restore_reserved xs_reserved]; try done.
  - pose proof (sanitize_event_clean s) as H. fold s1 in H. destruct H as [H1 H2]. split; [done|].
    cbn [xs_event_record xs_event_args xs_header xs_trap_restore].
    destruct (er_reason (xs_event_record s1) =? 0); [done|].
    destruct H2 as (? & ? & ? & Ht). split; [done|]. split; [done|]. split; [done|]. intros Hz. apply Ht.
    unfold sanitize_trap_restore in Hz. destruct (Z.eqb_spec (tr_flags (xs_trap_restore s1)) 0) as [->|]; [done|].
    cbn [tr_mode] in Hz. destruct (_ =? POLY_MODE_RAW_AARCH64); [done|]. by destruct (_ =? POLY_MODE_RAW_RISCV).
  - repeat split; apply within_land.
  - repeat split; apply within_land.
  - apply sanitize_import_clean.
  - apply sanitize_cross_clean.
  - apply sanitize_native_clean.
  - apply sanitize_restore_clean.
Qed.

Lemma sanitize_id (s : poly_xsave_state) : importable s -> poly_sanitize_trap_state_for_import s = s.
Proof.
  intros [He Ha Hr Hi Hc Hn Ht Hk Hp Hv]. unfold poly_sanitize_trap_state_for_import.
  rewrite (sanitize_event_id s He), (sanitize_import_id _ Hi), (sanitize_cross_id _ Hc), (sanitize_native_id _ Hn),
    (sanitize_restore_id _ Ht).
  destruct s as [? ? ? ? ? ? a ? ? v ? ? ? ? ? k ? ? ? ?]. cbn in *. subst. destruct a, v, k. cbn in *.
  destruct Ha as (H1 & H2 & H3 & H4 & H5 & H6), Hr as (G1 & G2 & G3 & G4). cbn in *. unfold within in *.
  rewrite H1, H2, H3, G1. by subst.
Qed.

(** ** Values *)

(** One field of a cleaned structure. *)
Ltac clean_ok :=
  lazymatch goal with
  | |- c_ok (c_array _ (c_uint _)) (repeat 0 _) => apply zero_words
  | |- c_ok (c_array _ ?c) (repeat (zeroed ?c) _) => apply repeat_ok, (zeroed_ok c)
  | |- c_ok ?c (zeroed ?c) => apply (zeroed_ok c)
  | |- c_ok (c_uint _) (Z.land _ _) => apply land_word; [lia|assumption]
  | |- c_ok (c_uint _) _ => first [assumption | vm_compute; split; [discriminate|reflexivity]]
  | |- _ => assumption
  end.

Lemma sanitize_import_ok (r : poly_import_return_state) :
  c_ok ct_import_return_state r -> c_ok ct_import_return_state (sanitize_import_return r).
Proof.
  intros H. ok_inv H. unfold sanitize_import_return. destruct (negb _ || _); unfold ct_import_return_state; ok_split;
    cbn [ir_top ir_depth ir_frames ir_reserved]; try clean_ok.
  apply keep_frames_ok; [done|clean_ok|assumption].
Qed.

Lemma set_cf_reserved0_ok (x : poly_cross_return_frame) :
  c_ok ct_cross_return_frame x -> c_ok ct_cross_return_frame (set_cf_reserved0 0 x).
Proof.
  intros H. ok_inv H. unfold ct_cross_return_frame. ok_split;
    cbn [cf_return_pc cf_return_sp cf_caller_mode cf_target_mode cf_abi_kind cf_flags cf_reserved0 set_cf_reserved0]; clean_ok.
Qed.

Lemma sanitize_cross_ok (r : poly_cross_return_state) :
  c_ok ct_cross_return_state r -> c_ok ct_cross_return_state (sanitize_cross_return r).
Proof.
  intros H. ok_inv H. unfold sanitize_cross_return. destruct (negb _ || _); unfold ct_cross_return_state; ok_split;
    cbn [cr_top cr_depth cr_frames cr_reserved]; try clean_ok.
  apply keep_frames_ok; [apply set_cf_reserved0_ok|clean_ok|assumption].
Qed.

Lemma set_nf_reserved_ok (x : poly_native_return_frame) :
  c_ok ct_native_return_frame x -> c_ok ct_native_return_frame (set_nf_reserved (repeat 0 4) x).
Proof.
  intros H. ok_inv H. unfold ct_native_return_frame. ok_split;
    cbn [nf_return_pc nf_return_sp nf_sret_ptr nf_target_mode nf_return_kind nf_flags nf_reserved set_nf_reserved]; clean_ok.
Qed.

Lemma sanitize_native_ok (r : poly_native_return_state) :
  c_ok ct_native_return_state r -> c_ok ct_native_return_state (sanitize_native_return r).
Proof.
  intros H. ok_inv H. unfold sanitize_native_return, ct_native_return_state. ok_split;
    cbn [nr_active_valid nr_top nr_depth nr_supported_flags nr_active nr_frames nr_reserved]; try clean_ok.
  - destruct (_ =? 0); [clean_ok|by apply set_nf_reserved_ok].
  - destruct (_ <=? _); [|assumption]. apply keep_frames_ok; [apply set_nf_reserved_ok|clean_ok|assumption].
Qed.

Lemma sanitize_restore_ok (r : poly_trap_restore_state) :
  c_ok ct_trap_restore_state r -> c_ok ct_trap_restore_state (sanitize_trap_restore r).
Proof.
  intros H. ok_inv H. unfold sanitize_trap_restore. destruct (tr_flags r =? 0); [clean_ok|]. cbn [tr_mode].
  destruct (_ =? POLY_MODE_RAW_AARCH64); [|destruct (_ =? POLY_MODE_RAW_RISCV)];
    unfold poly_sanitize_aarch64_trap_restore_payload, poly_sanitize_riscv_trap_restore_payload, ct_trap_restore_state;
    ok_split;
    cbn [tr_flags tr_mode tr_reserved0 tr_x86_gpr tr_x86_xmm tr_aarch64_gpr_valid_mask tr_aarch64_gpr tr_aarch64_fp
      tr_aarch64_nzcv tr_aarch64_fpcr tr_aarch64_fpsr tr_aarch64_reserved tr_riscv_gpr_valid_mask tr_riscv_gpr tr_riscv_fp
      tr_riscv_fcsr tr_riscv_reserved tr_reserved]; clean_ok.
Qed.

Lemma set_hd_reserved0_ok (h : poly_xsave_header) : c_ok ct_xsave_header h -> c_ok ct_xsave_header (set_hd_reserved0 0 h).
Proof.
  intros H. ok_inv H. unfold ct_xsave_header. ok_split;
    cbn [hd_magic hd_layout_version hd_header_bytes hd_total_bytes hd_current_mode hd_flags hd_foreign_pc hd_foreign_tls_base
      hd_trap_vector_pc hd_trap_vector_mode hd_spill_reason hd_reserved0 set_hd_reserved0]; clean_ok.
Qed.

Lemma set_event_ok (flags : Z) (e : poly_event_record) : word flags ->
  c_ok ct_event_record e -> c_ok ct_event_record (set_er_flags flags (set_er_reserved [0; 0] e)).
Proof.
  intros Hf H. ok_inv H. unfold ct_event_record. ok_split;
    cbn [er_reason er_source_mode er_number er_selector er_trap_pc er_resume_pc er_flags er_reserved set_er_flags
      set_er_reserved]; try clean_ok. apply (zero_words 2).
Qed.

(** Only the header, the event record and its arguments change. *)
Lemma sanitize_event_parts (s : poly_xsave_state) : state_ok s -> exists h e a,
  c_ok ct_xsave_header h /\ c_ok ct_event_record e /\ c_ok (c_array 8 c_u64) a /\
  sanitize_event s = set_xs_header h (set_xs_event_record e (set_xs_event_args a s)).
Proof.
  intros H. ok_inv H. unfold sanitize_event. cbn [xs_event_record set_xs_event_record set_er_reserved er_reason].
  destruct (_ =? 0).
  - eexists (xs_header s), _, (repeat 0 8). split; [done|]. split; [by apply (set_event_ok 0 (xs_event_record s))|].
    split; [apply zero_words|done].
  - assert (word (Z.land (er_flags (xs_event_record s)) supported_trap_flags)) as Hw.
    { ok_part ct_event_record. by apply land_word. }
    eexists (set_hd_reserved0 0 (xs_header s)), _, (xs_event_args s). split; [by apply set_hd_reserved0_ok|].
    split; [|split; [done|reflexivity]]. apply set_event_ok; [|assumption]. cbn.
    destruct (_ =? 0), (_ =? 0); unfold without; repeat first [exact Hw | apply land_word; [lia|]].
Qed.

Lemma sanitize_ok (s : poly_xsave_state) : state_ok s -> state_ok (poly_sanitize_trap_state_for_import s).
Proof.
  intros H. destruct (sanitize_event_parts s H) as (h & e & a & Hh & He & Ha & Hs). ok_inv H.
  unfold poly_sanitize_trap_state_for_import. rewrite Hs. clear Hs.
  ok_part ct_aarch64_status_state. ok_part ct_riscv_status_state. ok_part ct_state_key_state.
  unfold ct_xsave_state, ct_aarch64_status_state, ct_riscv_status_state, ct_state_key_state. cbn [c_ok c_struct c_pair fst snd].
  repeat match goal with |- _ /\ _ => split end;
    cbn [xs_header xs_event_record xs_event_args xs_transition xs_aarch64_gpr xs_aarch64_fp xs_aarch64_status xs_riscv_gpr
      xs_riscv_fp xs_riscv_status xs_import_return xs_abi_signature xs_cross_return xs_frontend_tls xs_landing_policy
      xs_state_key xs_pre_trap_restore_reserved xs_trap_restore xs_native_return xs_reserved as_nzcv as_fpcr as_fpsr
      as_reservation_addr as_reservation_size as_reserved rvs_fcsr rvs_reservation_addr rvs_reservation_size rvs_reserved
      sk_flags sk_explicit_key sk_supported_flags sk_reserved set_sk_reserved set_xs_header set_xs_event_record set_xs_event_args];
    try clean_ok.
  - by apply sanitize_import_ok.
  - by apply sanitize_cross_ok.
  - by apply sanitize_restore_ok.
  - by apply sanitize_native_ok.
Qed.

(** ** The image as a whole *)

(** What the frontend continues with is the same in both images. *)
Record same_context (s s' : poly_xsave_state) : Prop := {
  sc_header : set_hd_reserved0 0 (xs_header s') = set_hd_reserved0 0 (xs_header s);
  sc_event : set_er_flags 0 (set_er_reserved [0; 0] (xs_event_record s')) =
             set_er_flags 0 (set_er_reserved [0; 0] (xs_event_record s));
  sc_aarch64 : xs_aarch64_gpr s' = xs_aarch64_gpr s /\ xs_aarch64_fp s' = xs_aarch64_fp s;
  sc_riscv : xs_riscv_gpr s' = xs_riscv_gpr s /\ xs_riscv_fp s' = xs_riscv_fp s;
  sc_transition : xs_transition s' = xs_transition s;
  sc_abi : xs_abi_signature s' = xs_abi_signature s;
  sc_tls : xs_frontend_tls s' = xs_frontend_tls s /\ xs_landing_policy s' = xs_landing_policy s;
  sc_import (n : nat) :
    ir_depth (xs_import_return s) = 8 -> Z.of_nat n < ir_top (xs_import_return s) <= 8 ->
    ir_frames (xs_import_return s') !! n = ir_frames (xs_import_return s) !! n;
  sc_native : nr_top (xs_native_return s') = nr_top (xs_native_return s) /\
              nr_active_valid (xs_native_return s') = nr_active_valid (xs_native_return s);
}.

Lemma sanitize_same_context (s : poly_xsave_state) : same_context s (poly_sanitize_trap_state_for_import s).
Proof.
  unfold poly_sanitize_trap_state_for_import, sanitize_event.
  cbn [xs_event_record set_xs_event_record set_er_reserved er_reason].
  destruct (er_reason (xs_event_record s) =? 0); split; try done; intros n Hd Ht;
    cbn [xs_import_return set_xs_header set_xs_event_record set_xs_event_args];
    unfold sanitize_import_return, POLY_STATE_XSAVE_IMPORT_RETURN_DEPTH; rewrite Hd, Z.gtb_ltb;
    (destruct (Z.ltb_spec 8 (ir_top (xs_import_return s))); [lia|]); cbn; unfold keep_frames; rewrite list_lookup_imap;
    (destruct (Z.ltb_spec (Z.of_nat n) (ir_top (xs_import_return s))); [|lia]); by destruct (_ !! n).
Qed.


(** An image with every status bit set and a return stack that is too deep. *)
Definition unclean_state : poly_xsave_state :=
  set_xs_riscv_status (MkRvStatus (2 ^ 64 - 1) 1 8 (repeat 0 13))
    (set_xs_import_return (MkImportReturn 9 8 (repeat (zeroed ct_import_return_frame) 8) (repeat 0 240))
       (zeroed ct_xsave_state)).

Lemma set_status_stack_ok (v : poly_riscv_status_state) (r : poly_import_return_state) (s : poly_xsave_state) :
  c_ok ct_riscv_status_state v -> c_ok ct_import_return_state r -> state_ok s ->
  state_ok (set_xs_riscv_status v (set_xs_import_return r s)).
Proof.
  intros Hv Hr H. ok_inv H. unfold ct_xsave_state. ok_split;
    cbn [xs_header xs_event_record xs_event_args xs_transition xs_aarch64_gpr xs_aarch64_fp xs_aarch64_status xs_riscv_gpr
      xs_riscv_fp xs_riscv_status xs_import_return xs_abi_signature xs_cross_return xs_frontend_tls xs_landing_policy
      xs_state_key xs_pre_trap_restore_reserved xs_trap_restore xs_native_return xs_reserved set_xs_riscv_status
      set_xs_import_return]; assumption.
Qed.

Lemma unclean_state_ok : state_ok unclean_state.
Proof.
  apply set_status_stack_ok; [unfold ct_riscv_status_state|unfold ct_import_return_state|apply (zeroed_ok ct_xsave_state)];
    ok_split; cbn [rvs_fcsr rvs_reservation_addr rvs_reservation_size rvs_reserved ir_top ir_depth ir_frames ir_reserved];
    clean_ok.
Qed.

