(* ===== verification/TrapReturn.v ===== *)
(** The return from the monitor to the frontend that trapped
    ([poly_trap_vector_return_result] of [tools/runtime/polyexec.c]): the result
    of the event is put into the state image, a pending signal is delivered or
    the return from a handler is completed, and the image is cleaned and given to
    the processor.

    Parameters: the instructions PCOMPLETE_EVENT ([complete]) and PDERIVE_STATE
    ([derive], also with the flag that activates the state), whether the monitor
    entry could be registered again, and the settings read at the start. *)

From stdpp Require Import relations.
From S2P Require Import Prelude GuestMemory GuestSignals CStruct Seccomp TrapState SignalFrame SignalDelivery SignalReturn SignalProps SignalStack SignalSamples TrapClean.

#[local] Opaque sizeof c_size zeroed.

(** ** Completing an event *)

Definition POLY_CPUID_V2_FEATURE_EVENT_COMPLETE : Z := 0x200.
Definition POLY_V2_COMPLETE_DESC_MAGIC : Z := 0x32504d43594c4f50.
Definition POLY_V2_COMPLETE_DESC_BYTES : Z := 128.
Definition POLY_V2_COMPLETE_DESC_VERSION : Z := 2.
Definition POLY_V2_COMPLETE_DESC_HEADER_BYTES : Z := 16.
Definition POLY_V2_COMPLETE_FLAG_SET_RESUME_PC : Z := 1.
Definition POLY_V2_COMPLETE_FLAG_SET_RESULT0 : Z := 8.

(** [struct poly_v2_complete_descriptor] without its reserved words. *)
Record poly_v2_complete_descriptor : Type := MkComplete {
  cd_magic : Z; cd_bytes : Z; cd_version : Z; cd_header_bytes : Z; cd_flags : Z; cd_frontend : Z;
  cd_resume_pc : Z; cd_result0 : Z; cd_result1 : Z; cd_event_sequence : Z; cd_clear_event_mask : Z;
}.

(** How the function ends: the plain trap-return instruction, the activation of
    a state image, the end of the process, or a return to the caller. *)
Inductive trap_exit : Type :=
| TrapReturn
| Enter (state : poly_xsave_state)
| ExitGroup (code : Z)
| ReturnValue (result : Z).

Section Return.
Context (probe : mem_probe) (fault_in : list Z -> mem_probe -> mem_probe).
Context (derive : poly_xsave_state -> poly_v2_derive_descriptor -> Z * poly_xsave_state).
Context (complete : poly_xsave_state -> poly_v2_complete_descriptor -> Z * poly_xsave_state).
Context (rsp vdso features last_event_sequence : Z) (vector_active entry_accepted : bool).

(** [None]: the function returns 0. *)
Definition poly_complete_event_result_registers (mode result resume_pc : Z) (state : poly_xsave_state)
    : option poly_xsave_state :=
  if negb (poly_is_raw_foreign_mode mode) || (resume_pc =? 0) then None
  else if Z.land features POLY_CPUID_V2_FEATURE_EVENT_COMPLETE =? 0 then None
  else
    let '(status, state) := complete state
      (MkComplete POLY_V2_COMPLETE_DESC_MAGIC POLY_V2_COMPLETE_DESC_BYTES POLY_V2_COMPLETE_DESC_VERSION
         POLY_V2_COMPLETE_DESC_HEADER_BYTES
         (Z.lor POLY_V2_COMPLETE_FLAG_SET_RESUME_PC POLY_V2_COMPLETE_FLAG_SET_RESULT0) (u32 mode) resume_pc result 0
         last_event_sequence 0) in
    if status =? 0 then Some state else None.

Definition set_derive_flags (flags : Z) (d : poly_v2_derive_descriptor) : poly_v2_derive_descriptor :=
  MkDerive (dd_magic d) (dd_bytes d) (dd_version d) (dd_header_bytes d) flags (dd_frontend d) (dd_child_sp d)
    (dd_child_tls d) (dd_child_return_value d) (dd_parent_return_value d) (dd_state_key d) (dd_child_pc d)
    (dd_event_reason d) (dd_event_number d) (dd_event_selector d) (dd_event_flags d) (dd_event_args d).

Definition poly_clear_completed_event_state (mode : Z) (state : poly_xsave_state) : option poly_xsave_state :=
  if negb (poly_is_raw_foreign_mode mode) then None
  else
    let '(status, state) := derive state
      (set_derive_flags POLY_V2_DERIVE_FLAG_CLEAR_EVENT_STATE (poly_init_derive_descriptor mode)) in
    if status =? 0 then Some state else None.

(** [Enter]: the frontend runs; [None]: the processor refused the state. *)
Definition poly_activate_state_with_pderive (state : poly_xsave_state) : option poly_xsave_state :=
  let '(status, state) := derive state
    (set_derive_flags POLY_V2_DERIVE_FLAG_ACTIVATE_DST
       (poly_init_derive_descriptor (hd_current_mode (xs_header state)))) in
  if status =? 0 then Some state else None.

(** ** Packets *)

Definition POLY_TRAP_SYSCALL : Z := 1.

Definition poly_aarch64_signal_delivery_uses_packet_resume_pc (packet : poly_runtime_event_record) : bool :=
  (pk_reason packet =? POLY_TRAP_SYSCALL) && (pk_mode packet =? POLY_MODE_RAW_AARCH64) &&
  bool_decide (pk_number packet ∈ [22; 72; 73; 98; 101; 115; 260; 441]).

Definition poly_aarch64_rt_sigreturn_packet (packet : poly_runtime_event_record) : bool :=
  (pk_reason packet =? POLY_TRAP_SYSCALL) && (pk_mode packet =? POLY_MODE_RAW_AARCH64) && (pk_number packet =? 139).

Definition poly_riscv_rt_sigreturn_packet (packet : poly_runtime_event_record) : bool :=
  (pk_reason packet =? POLY_TRAP_SYSCALL) && (pk_mode packet =? POLY_MODE_RAW_RISCV) && (pk_number packet =? 139).

(** ** The return *)

Definition is_sigreturn (packet : poly_runtime_event_record) : bool :=
  poly_aarch64_rt_sigreturn_packet packet || poly_riscv_rt_sigreturn_packet packet.

Definition delivers_illegal (packet : poly_runtime_event_record) : bool :=
  (pk_reason packet =? POLY_TRAP_ILLEGAL) && (pk_mode packet =? POLY_MODE_RAW_AARCH64).

(** The image before the event is completed: the event record of the packet, and
    the address at which the frontend continues. *)
Definition prepare_return (packet : poly_runtime_event_record) (trap_state : poly_xsave_state) : poly_xsave_state :=
  let resume := if er_resume_pc (xs_event_record trap_state) =? 0 then hd_foreign_pc (xs_header trap_state)
                else er_resume_pc (xs_event_record trap_state) in
  let s := set_xs_header (set_hd_reserved0 0 (set_hd_current_mode (u32 (pk_mode packet)) (xs_header trap_state)))
             trap_state in
  let s := poly_set_clone_child_event_record_state packet s in
  let s := if is_sigreturn packet && negb (resume =? 0) then
             set_xs_header (set_hd_foreign_pc resume (xs_header s))
               (set_xs_event_record (set_er_resume_pc resume (set_er_trap_pc resume (xs_event_record s))) s)
           else s in
  if pk_mode packet =? POLY_MODE_RAW_AARCH64 then
    if delivers_illegal packet then set_xs_header (set_hd_foreign_pc (pk_pc packet) (xs_header s)) s
    else if poly_aarch64_signal_delivery_uses_packet_resume_pc packet then
      set_xs_header (set_hd_foreign_pc (if pk_next_pc packet =? 0 then pk_pc packet else pk_next_pc packet)
                       (xs_header s)) s
    else s
  else s.

(** The signal that is delivered on the way: image, thread and whether one was. *)
Definition deliver_on_return (packet : poly_runtime_event_record) (s : poly_xsave_state) (t : thread)
    : thread * poly_xsave_state * bool :=
  let '(t, s, delivered) :=
    if delivers_illegal packet
    then poly_try_deliver_aarch64_signal probe fault_in derive rsp vdso SIGILL (pk_pc packet) ILL_ILLOPC s t
    else (t, s, false) in
  if delivered then (t, s, true)
  else if pk_mode packet =? POLY_MODE_RAW_AARCH64
  then poly_try_deliver_aarch64_signal probe fault_in derive rsp vdso 0 0 0 s t
  else if pk_mode packet =? POLY_MODE_RAW_RISCV
  then poly_try_deliver_riscv_signal probe fault_in derive rsp vdso 0 0 0 s t
  else (t, s, false).

(** Stack pointer of the monitor in the live bank while a handler starts. *)
Definition monitor_stack (packet : poly_runtime_event_record) (delivered : bool) (s : poly_xsave_state)
    : poly_xsave_state :=
  if (pk_reason packet =? POLY_TRAP_SYSCALL) && delivered then
    if pk_mode packet =? POLY_MODE_RAW_AARCH64 then
      poly_clear_native_return_state (set_xs_aarch64_gpr (<[31%nat := rsp]> (xs_aarch64_gpr s)) s)
    else if pk_mode packet =? POLY_MODE_RAW_RISCV then
      poly_clear_native_return_state (set_xs_riscv_gpr (<[2%nat := rsp]> (xs_riscv_gpr s)) s)
    else s
  else s.

(** The cleaned image goes to the processor. *)
Definition activate (s : poly_xsave_state) : trap_exit :=
  match poly_activate_state_with_pderive (poly_sanitize_trap_state_for_import s) with
  | Some s => Enter s
  | None => ExitGroup 125
  end.

Definition poly_trap_vector_return_result (result : Z) (packet : poly_runtime_event_record)
    (trap_state : option poly_xsave_state) (t : thread) : thread * trap_exit :=
  match trap_state with
  | None => (t, if vector_active && negb entry_accepted then ExitGroup 125 else ReturnValue result)
  | Some trap_state =>
      let s := prepare_return packet trap_state in
      let completed := negb (delivers_illegal packet) && negb (is_sigreturn packet) in
      match (if completed then poly_complete_event_result_registers (pk_mode packet) result (pk_next_pc packet) s
             else Some s) with
      | None => (t, ExitGroup 125)
      | Some s =>
          let '(t, s, delivered) := deliver_on_return packet s t in
          if vector_active && negb entry_accepted then (t, ExitGroup 125)
          else if negb (completed || delivered || is_sigreturn packet) then (t, TrapReturn)
          else
            let s := monitor_stack packet delivered s in
            if completed && negb delivered then
              match poly_clear_completed_event_state (pk_mode packet) s with
              | None => (t, ExitGroup 125)
              | Some s => (t, activate s)
              end
            else (t, activate s)
      end
  end.

End Return.

(** ** What the control instructions promise *)

(** The frontend continues the same way: mode, address and registers. *)
Definition same_frontend (mode : Z) (s s' : poly_xsave_state) : Prop :=
  hd_current_mode (xs_header s') = hd_current_mode (xs_header s) /\
  hd_foreign_pc (xs_header s') = hd_foreign_pc (xs_header s) /\ live_gpr mode s' = live_gpr mode s.

(** The documented effect of the instructions when they report success
    ([docs/poly-isa-v2-draft.md]; [nativecheck.c] tests it): PCOMPLETE_EVENT
    applies the result and the resume address to the image; PDERIVE_STATE
    without a register update (clearing the event, activating the image) leaves
    registers and address alone. *)
Class PolyControl (derive : poly_xsave_state -> poly_v2_derive_descriptor -> Z * poly_xsave_state)
    (complete : poly_xsave_state -> poly_v2_complete_descriptor -> Z * poly_xsave_state) : Prop := {
  complete_applies (s s' : poly_xsave_state) (d : poly_v2_complete_descriptor) :
    poly_is_raw_foreign_mode (cd_frontend d) = true ->
    cd_flags d = Z.lor POLY_V2_COMPLETE_FLAG_SET_RESUME_PC POLY_V2_COMPLETE_FLAG_SET_RESULT0 ->
    complete s d = (0, s') ->
    hd_current_mode (xs_header s') = hd_current_mode (xs_header s) /\
    hd_foreign_pc (xs_header s') = cd_resume_pc d /\
    live_gpr (cd_frontend d) s' =
      <[argument_register (cd_frontend d) := cd_result0 d]> (live_gpr (cd_frontend d) s);
  derive_keeps (s s' : poly_xsave_state) (d : poly_v2_derive_descriptor) :
    dd_flags d ∈ [POLY_V2_DERIVE_FLAG_CLEAR_EVENT_STATE; POLY_V2_DERIVE_FLAG_ACTIVATE_DST] ->
    derive s d = (0, s') -> same_frontend (dd_frontend d) s s';
}.

Section Outcome.
Context (probe : mem_probe) (fault_in : list Z -> mem_probe -> mem_probe).
Context (derive : poly_xsave_state -> poly_v2_derive_descriptor -> Z * poly_xsave_state).
Context (complete : poly_xsave_state -> poly_v2_complete_descriptor -> Z * poly_xsave_state).
Context (rsp vdso features last_event_sequence : Z) (vector_active entry_accepted : bool).

Abbreviation trap_return :=
  (poly_trap_vector_return_result probe fault_in derive complete rsp vdso features last_event_sequence
     vector_active entry_accepted).
Abbreviation deliver_pending := (deliver_on_return probe fault_in derive rsp vdso).
Abbreviation complete_result := (poly_complete_event_result_registers complete features last_event_sequence).

(** Why the process can be ended: an instruction refused the image or the
    monitor entry, or the packet has nothing to continue with. *)
Inductive refused (packet : poly_runtime_event_record) : Prop :=
| refused_derive s d : (derive s d).1 <> 0 -> refused packet
| refused_complete s d : (complete s d).1 <> 0 -> refused packet
| refused_feature : Z.land features POLY_CPUID_V2_FEATURE_EVENT_COMPLETE = 0 -> refused packet
| refused_entry : vector_active = true -> entry_accepted = false -> refused packet
| refused_mode : poly_is_raw_foreign_mode (pk_mode packet) = false -> refused packet
| refused_resume : pk_next_pc packet = 0 -> refused packet.

Lemma complete_none (packet : poly_runtime_event_record) (result : Z) (s : poly_xsave_state) :
  complete_result (pk_mode packet) result (pk_next_pc packet) s = None -> refused packet.
Proof.
  unfold poly_complete_event_result_registers. destruct (poly_is_raw_foreign_mode (pk_mode packet)) eqn:Em; cbn [negb orb].
  2:{ intros _. by apply refused_mode. }
  destruct (Z.eqb_spec (pk_next_pc packet) 0); [intros _; by apply refused_resume|].
  destruct (Z.eqb_spec (Z.land features POLY_CPUID_V2_FEATURE_EVENT_COMPLETE) 0); [intros _; by apply refused_feature|].
  destruct (complete s _) as [st s'] eqn:E. destruct (Z.eqb_spec st 0); [done|]. intros _.
  eapply refused_complete. by rewrite E.
Qed.

Lemma clear_none (packet : poly_runtime_event_record) (s : poly_xsave_state) :
  poly_clear_completed_event_state derive (pk_mode packet) s = None -> refused packet.
Proof.
  unfold poly_clear_completed_event_state. destruct (poly_is_raw_foreign_mode (pk_mode packet)) eqn:Em; cbn [negb].
  2:{ intros _. by apply refused_mode. }
  destruct (derive s _) as [st s'] eqn:E. destruct (Z.eqb_spec st 0); [done|]. intros _.
  eapply refused_derive. by rewrite E.
Qed.

(** The image given to the processor by an activation. *)
Definition activated (s s' : poly_xsave_state) : Prop :=
  derive s (set_derive_flags POLY_V2_DERIVE_FLAG_ACTIVATE_DST
              (poly_init_derive_descriptor (hd_current_mode (xs_header s)))) = (0, s').

Lemma activate_spec (packet : poly_runtime_event_record) (s : poly_xsave_state) :
  match activate derive s with
  | Enter s' => activated (poly_sanitize_trap_state_for_import s) s'
  | ExitGroup code => code = 125 /\ refused packet
  | _ => False
  end.
Proof.
  unfold activate, poly_activate_state_with_pderive, activated. destruct (derive _ _) as [st s'] eqn:E.
  destruct (Z.eqb_spec st 0); [by subst|]. split; [done|]. eapply refused_derive. by rewrite E.
Qed.

(** How a trap return may end. *)
Definition allowed_end (packet : poly_runtime_event_record) (x : trap_exit) : Prop :=
  match x with
  | Enter s' => exists s, importable s /\ activated s s'
  | TrapReturn => delivers_illegal packet = true
  | ExitGroup code => code = 125 /\ refused packet
  | ReturnValue _ => False
  end.

Lemma activate_allowed (packet : poly_runtime_event_record) (s : poly_xsave_state) :
  allowed_end packet (activate derive s).
Proof.
  pose proof (activate_spec packet s) as H. unfold allowed_end. destruct (activate derive s); try done.
  eexists. split; [apply (sanitize_importable s)|exact H].
Qed.

Lemma entry_refused (packet : poly_runtime_event_record) : vector_active && negb entry_accepted = true -> refused packet.
Proof. intros [Hv He%negb_true_iff]%andb_prop. by apply refused_entry. Qed.

(** Whatever trapped, the monitor gives the processor only images that meet
    the rules of an import, and never falls back into its caller while it holds
    an image.  The plain trap return is left for an illegal AArch64 instruction
    that no signal was delivered for, and the process ends (status 125) only if
    an instruction refused the image or the monitor entry, or the packet has no
    frontend or address to continue with. *)
Theorem trap_return_ends_well (result : Z) (packet : poly_runtime_event_record) (trap_state : poly_xsave_state)
    (t : thread) : allowed_end packet (trap_return result packet (Some trap_state) t).2.
Proof.
  unfold poly_trap_vector_return_result.
  set (completed := negb (delivers_illegal packet) && negb (is_sigreturn packet)).
  destruct (if completed then _ else _) as [s|] eqn:Ec.
  2:{ destruct completed; [|done]. split; [done|]. by eapply complete_none. }
  destruct (deliver_pending packet s t) as [[t1 s1] delivered].
  destruct (vector_active && negb entry_accepted) eqn:Ee; [split; [done|by apply entry_refused]|].
  destruct (completed || delivered || is_sigreturn packet) eqn:Eu; cbn [negb].
  2:{ apply orb_false_iff in Eu as [[Hc _]%orb_false_iff Hs]. unfold completed in Hc. rewrite Hs, andb_true_r in Hc.
      by apply negb_false_iff. }
  destruct (completed && negb delivered); [|apply activate_allowed].
  destruct (poly_clear_completed_event_state _ _ _) as [s2|] eqn:Ed; [apply activate_allowed|].
  split; [done|]. by eapply clear_none.
Qed.

(** ** Continuing without a signal *)

Lemma select_none (mode : Z) (s : poly_xsave_state) (t : thread) : none_ready vdso mode 1 32 t ->
  exists t', select_signal vdso mode 0 s t = (t', None) /\ same_but_pending t t'.
Proof.
  intros Hn. unfold select_signal. cbn [Z.eqb negb]. destruct (_ || _); [exists t; split; [done|by destruct t]|].
  destruct (candidates vdso mode 31 1 t) as [t' r] eqn:E. apply candidates_spec in E; [|lia].
  destruct r as [[k d]|]; [|exists t'; split; [done|by destruct E as [_ [? _]]]].
  destruct E as (Hk & Hp & Hb & Ha & _). exfalso. apply (Hn k d); [lia|]. split; [lia|done].
Qed.

Lemma deliver_none (packet : poly_runtime_event_record) (s : poly_xsave_state) (t : thread) :
  poly_is_raw_foreign_mode (pk_mode packet) = true -> delivers_illegal packet = false ->
  none_ready vdso (pk_mode packet) 1 32 t ->
  exists t', deliver_pending packet s t = (t', s, false) /\ same_but_pending t t'.
Proof.
  intros Hm Hi Hn. unfold deliver_on_return. rewrite Hi.
  destruct (raw_modes _ Hm) as [Em|Em]; rewrite Em in Hn |- *; cbn [Z.eqb POLY_MODE_RAW_AARCH64 POLY_MODE_RAW_RISCV Pos.eqb];
    destruct (select_none _ s t Hn) as (t' & Hsel & Hsame);
    [unfold poly_try_deliver_aarch64_signal|unfold poly_try_deliver_riscv_signal];
    (destruct (negb _); [exists t; split; [done|by destruct t]|]); exists t'; by rewrite Hsel.
Qed.

(** The image the frontend continues with: at [pc] with the registers [gpr]. *)
Definition continues (mode pc : Z) (gpr : list Z) (s : poly_xsave_state) : Prop :=
  hd_current_mode (xs_header s) = mode /\ hd_foreign_pc (xs_header s) = pc /\ live_gpr mode s = gpr.

(** Where a return from a handler continues. *)
Definition sigreturn_pc (s : poly_xsave_state) : Z :=
  if er_resume_pc (xs_event_record s) =? 0 then hd_foreign_pc (xs_header s) else er_resume_pc (xs_event_record s).

Lemma prepare_continues (packet : poly_runtime_event_record) (s : poly_xsave_state) :
  poly_is_raw_foreign_mode (pk_mode packet) = true ->
  hd_current_mode (xs_header (prepare_return packet s)) = pk_mode packet /\
  live_gpr (pk_mode packet) (prepare_return packet s) = live_gpr (pk_mode packet) s /\
  (is_sigreturn packet = true -> hd_foreign_pc (xs_header (prepare_return packet s)) = sigreturn_pc s).
Proof.
  intros Hm. assert (u32 (pk_mode packet) = pk_mode packet) as Hu by (by destruct (raw_modes _ Hm) as [-> | ->]).
  unfold prepare_return. fold (sigreturn_pc s).
  assert (is_sigreturn packet = true -> delivers_illegal packet = false /\
    poly_aarch64_signal_delivery_uses_packet_resume_pc packet = false) as Hx.
  { unfold is_sigreturn, poly_aarch64_rt_sigreturn_packet, poly_riscv_rt_sigreturn_packet, delivers_illegal,
      poly_aarch64_signal_delivery_uses_packet_resume_pc. intros H%orb_prop.
    assert (pk_reason packet = POLY_TRAP_SYSCALL /\ pk_number packet = 139) as [-> ->].
    { destruct H as [H|H]; breflect; auto. }
    split; [done|]. by rewrite andb_false_r. }
  destruct (is_sigreturn packet) eqn:Es; cbn [andb].
  - destruct (Hx eq_refl) as [-> ->].
    destruct (Z.eqb_spec (sigreturn_pc s) 0) as [E0|_]; cbn [negb];
      destruct (pk_mode packet =? POLY_MODE_RAW_AARCH64); cbn; rewrite Hu; split_and!; try done;
      intros _; unfold sigreturn_pc in *; destruct (Z.eqb_spec (er_resume_pc (xs_event_record s)) 0); congruence.
  - destruct (pk_mode packet =? POLY_MODE_RAW_AARCH64), (delivers_illegal packet),
      (poly_aarch64_signal_delivery_uses_packet_resume_pc packet); cbn; by rewrite Hu.
Qed.

Context {control : PolyControl derive complete}.

Lemma activate_continues (packet : poly_runtime_event_record) (mode pc : Z) (gpr : list Z) (s : poly_xsave_state) :
  poly_is_raw_foreign_mode mode = true -> continues mode pc gpr s ->
  (activate derive s = ExitGroup 125 /\ refused packet) \/
  exists s', activate derive s = Enter s' /\ continues mode pc gpr s'.
Proof using control.
  intros Hm (H1 & H2 & H3). pose proof (activate_spec packet s) as Ha. destruct (activate derive s) as [|s'|code|]; try done.
  2:{ left. destruct Ha as [-> ?]. done. }
  right. exists s'. split; [done|]. pose proof (sanitize_same_context s) as [Hh _ [Ga _] [Gr _] _ _ _ _ _].
  set (c := poly_sanitize_trap_state_for_import s) in *.
  assert (hd_current_mode (xs_header c) = mode /\ hd_foreign_pc (xs_header c) = pc) as [Cm Cp].
  { rewrite <- H1, <- H2. split; [by apply (f_equal hd_current_mode) in Hh|by apply (f_equal hd_foreign_pc) in Hh]. }
  apply derive_keeps in Ha; [|set_solver]. rewrite Cm in Ha.
  replace (dd_frontend _) with mode in Ha by (by destruct (raw_modes _ Hm) as [-> | ->]).
  destruct Ha as (K1 & K2 & K3). split; [congruence|]. split; [congruence|]. rewrite K3, <- H3.
  unfold live_gpr. by destruct (_ =? _).
Qed.

(** The image after the result has been put in. *)
Lemma completed_continues (packet : poly_runtime_event_record) (result : Z) (trap_state s : poly_xsave_state) :
  poly_is_raw_foreign_mode (pk_mode packet) = true ->
  complete_result (pk_mode packet) result (pk_next_pc packet) (prepare_return packet trap_state) = Some s ->
  continues (pk_mode packet) (pk_next_pc packet)
    (<[argument_register (pk_mode packet) := result]> (live_gpr (pk_mode packet) trap_state)) s.
Proof using control.
  intros Hm. unfold poly_complete_event_result_registers. rewrite Hm. cbn [negb orb].
  destruct (_ =? 0); [done|]. destruct (_ =? 0); [done|]. destruct (complete _ _) as [st s'] eqn:E.
  destruct (Z.eqb_spec st 0) as [->|]; [|done]. intros [= ->].
  assert (u32 (pk_mode packet) = pk_mode packet) as Hu by (by destruct (raw_modes _ Hm) as [-> | ->]).
  apply complete_applies in E; [|by cbn; rewrite Hu|done]. cbn [cd_frontend cd_resume_pc cd_result0] in E. rewrite Hu in E.
  destruct (prepare_continues packet trap_state Hm) as (P1 & P2 & _). destruct E as (E1 & E2 & E3).
  split; [congruence|]. split; [done|]. by rewrite E3, P2.
Qed.

Lemma cleared_continues (mode pc : Z) (gpr : list Z) (s s' : poly_xsave_state) : poly_is_raw_foreign_mode mode = true ->
  continues mode pc gpr s -> poly_clear_completed_event_state derive mode s = Some s' -> continues mode pc gpr s'.
Proof using control.
  intros Hm (H1 & H2 & H3). unfold poly_clear_completed_event_state. rewrite Hm. cbn [negb].
  destruct (derive s _) as [st s2] eqn:E. destruct (Z.eqb_spec st 0) as [->|]; [|done]. intros [= ->].
  apply derive_keeps in E; [|set_solver].
  replace (dd_frontend _) with mode in E by (by destruct (raw_modes _ Hm) as [-> | ->]).
  destruct E as (K1 & K2 & K3). split; [congruence|]. split; congruence.
Qed.

(** A trap of a raw frontend that no signal is waiting for is returned from
    as if it had been an instruction: a system call continues at the next
    instruction with the result in the first argument register and every other
    register as it was, and the return from a handler continues at the address
    of the interrupted context with its registers.  No other state of the thread
    changes than that signals without a handler are no longer pending.  The
    alternative is the end of the process after a refusal. *)
Theorem trap_return_continues (result : Z) (packet : poly_runtime_event_record) (trap_state : poly_xsave_state)
    (t : thread) :
  poly_is_raw_foreign_mode (pk_mode packet) = true -> delivers_illegal packet = false ->
  none_ready vdso (pk_mode packet) 1 32 t ->
  let mode := pk_mode packet in
  let '(t', x) := trap_return result packet (Some trap_state) t in
  same_but_pending t t' /\
  ((x = ExitGroup 125 /\ refused packet) \/
   exists s, x = Enter s /\
     if is_sigreturn packet then continues mode (sigreturn_pc trap_state) (live_gpr mode trap_state) s
     else continues mode (pk_next_pc packet) (<[argument_register mode := result]> (live_gpr mode trap_state)) s).
Proof using control.
  intros Hm Hi Hn mode. unfold poly_trap_vector_return_result. rewrite Hi. cbn [negb andb].
  assert (same_but_pending t t) as Hself by (by destruct t).
  destruct (is_sigreturn packet) eqn:Es; cbn [negb].
  - destruct (deliver_none packet (prepare_return packet trap_state) t Hm Hi Hn) as (t' & -> & Hsame).
    destruct (vector_active && negb entry_accepted) eqn:Ee; [split; [done|left; split; [done|by apply entry_refused]]|].
    cbn [orb negb andb]. split; [done|]. unfold monitor_stack. rewrite andb_false_r.
    destruct (prepare_continues packet trap_state Hm) as (P1 & P2 & P3).
    by apply activate_continues; [|split_and!; auto].
  - destruct (complete_result _ _ _ _) as [s|] eqn:Ec; [|split; [done|left; split; [done|by eapply complete_none]]].
    destruct (deliver_none packet s t Hm Hi Hn) as (t' & -> & Hsame).
    destruct (vector_active && negb entry_accepted) eqn:Ee; [split; [done|left; split; [done|by apply entry_refused]]|].
    cbn [orb negb andb]. unfold monitor_stack. rewrite andb_false_r.
    destruct (poly_clear_completed_event_state _ _ _) as [s2|] eqn:Ed; (split; [done|]).
    + apply activate_continues; [done|]. eapply cleared_continues; [done| |exact Ed]. by apply completed_continues.
    + left. split; [done|]. by eapply clear_none.
Qed.
End Outcome.

(** ** A system call that returns 42 *)

(** Control instructions that accept everything and do what they promise. *)
Definition apply_completion (s : poly_xsave_state) (d : poly_v2_complete_descriptor) : Z * poly_xsave_state :=
  let s := set_xs_header (set_hd_foreign_pc (cd_resume_pc d) (xs_header s)) s in
  (0, if cd_frontend d =? POLY_MODE_RAW_RISCV
      then set_xs_riscv_gpr (<[10%nat := cd_result0 d]> (xs_riscv_gpr s)) s
      else set_xs_aarch64_gpr (<[0%nat := cd_result0 d]> (xs_aarch64_gpr s)) s).

#[export] Instance accepting_control : PolyControl accept apply_completion.
Proof.
  split.
  - intros s s' d Hm _ [= <-]. unfold live_gpr, argument_register.
    destruct (raw_modes _ Hm) as [-> | ->]; done.
  - intros s s' d _ [= <-]. done.
Qed.

Definition getpid_packet : poly_runtime_event_record :=
  MkPacket POLY_TRAP_SYSCALL POLY_MODE_RAW_AARCH64 172 0 0x4000 0x4004 return_event_flags [] (repeat 0 8).
Definition idle_thread : thread := sample_thread SIGUSR1 0 0 no_stack zero_memory.
Definition getpid_return : thread * trap_exit :=
  poly_trap_vector_return_result open_probe keep_pages accept apply_completion 0x70000 0x6000
    POLY_CPUID_V2_FEATURE_EVENT_COMPLETE 7 true true 42 getpid_packet (Some sample_state) idle_thread.

Lemma idle_none_ready : none_ready 0x6000 POLY_MODE_RAW_AARCH64 1 32 idle_thread.
Proof. intros j d _ (_ & Hp & _). unfold pending in Hp. cbn in Hp. by rewrite Z.bits_0 in Hp. Qed.

Lemma trap_return_continues_witness :
  exists s, getpid_return.2 = Enter s /\
    continues POLY_MODE_RAW_AARCH64 0x4004 (<[0%nat := 42]> (<[31%nat := 0x80000]> (repeat 0 32))) s.
Proof.
  pose proof (trap_return_continues open_probe keep_pages accept apply_completion 0x70000 0x6000
    POLY_CPUID_V2_FEATURE_EVENT_COMPLETE 7 true true 42 getpid_packet sample_state idle_thread eq_refl eq_refl
    idle_none_ready) as H.
  cbv zeta in H. fold getpid_return in H.
  assert (exists s, getpid_return.2 = Enter s) as [s Hs] by (eexists; reflexivity).
  destruct getpid_return as [t' x]. cbn [snd] in Hs. subst x. destruct H as [_ [[[=] _]|(s' & [= <-] & H)]].
  exists s. split; [reflexivity|exact H].
Defined.
