(* ===== verification/HostCalls.v ===== *)
(** The monitor's side of a system call: its state, the calls it makes of the
    host, and a small monad for code that makes them.

    The host is a parameter: a function of all the calls made so far, of the
    memory and of the call itself.  Guest and monitor share the address space,
    so a reply may change the memory and what of it is mapped.  A pointer of the
    monitor to data of its own is given by its contents ([In]) or by its size
    ([Out]), and what the host stores there is part of the reply.

    A computation ends with a value, leaves the monitor for good, or is still
    running when its fuel ends. *)

From S2P Require Import Prelude SyscallMap GuestMemory GuestSignals Seccomp SignalFrame.

(** ** Calls and replies *)

(** A string in guest memory, or one of the monitor's own. *)
Inductive c_string : Type :=
| GuestString (address : Z)
| OwnString (bytes : list Z).

Inductive host_arg : Type :=
| Val (v : Z)
| In (bytes : list Z)
| Out (size : Z)
| Str (s : c_string)
(** an array of strings that ends with a null pointer *)
| Strings (l : list c_string).

Record host_call : Type := MkCall {
  hc_number : Z;
  hc_args : list host_arg;
}.

Record host_reply : Type := MkReply {
  (** a [long]: the result, or an errno negated *)
  hr_status : Z;
  hr_out : list Z;
  hr_memory : memory;
  hr_probe : mem_probe;
}.

Definition host : Type := list host_call -> memory -> mem_probe -> host_call -> host_reply.

(** ** The state of the monitor *)

(** [process_brk_mapping] (0 without one), [..._size] and [process_brk_current]. *)
Record brk_arena : Type := MkBrk {
  brk_mapping : Z;
  brk_mapping_size : Z;
  brk_current : Z;
}.

(** [poly_tiocgwinsz_stdin_enotty_cached] and its counters. *)
Record winsz_cache : Type := MkWinsz {
  wz_enotty : bool;
  wz_hits : Z;
  wz_misses : Z;
}.

(** The counters of the events ([poly_event_count] and the others). *)
Record event_counts : Type := MkCounts {
  ec_events : Z;
  ec_syscall_aarch64 : Z;
  ec_syscall_riscv : Z;
  ec_break_aarch64 : Z;
  ec_break_riscv : Z;
  ec_import : Z;
  ec_illegal : Z;
  ec_other : Z;
}.

(** The summary of the system calls ([poly_syscall_summary_total] and the others). *)
Record syscall_summary : Type := MkSummary {
  su_total : Z;
  su_errors : Z;
  su_aarch64 : Z -> Z;
  su_error_aarch64 : Z -> Z;
  su_x86 : Z -> Z;
}.

(** The flags of [poly_process_exit_finalizers] that change. *)
Record finalizer_flags : Type := MkFinalizers {
  fz_completed : bool;
  fz_running : bool;
}.

(** What the trap vector keeps besides: [poly_v2_last_event_sequence] and the above. *)
Record trap_books : Type := MkBooks {
  bk_sequence : Z;
  bk_events : event_counts;
  bk_summary : syscall_summary;
  bk_finalizers : finalizer_flags;
}.

Record monitor : Type := MkMonitor {
  mo_thread : thread;
  mo_seccomp : seccomp_state;
  mo_brk : brk_arena;
  mo_winsz : winsz_cache;
  mo_books : trap_books;
  mo_probe : mem_probe;
  (** the host calls made so far *)
  mo_log : list host_call;
  (** the addresses prefaulted so far, with whether they were written *)
  mo_touched : list (Z * bool);
}.

Definition mo_memory (s : monitor) : memory := th_memory (mo_thread s).

Definition set_thread (t : thread) (s : monitor) : monitor :=
  MkMonitor t (mo_seccomp s) (mo_brk s) (mo_winsz s) (mo_books s) (mo_probe s) (mo_log s) (mo_touched s).
Definition set_mo_seccomp (c : seccomp_state) (s : monitor) : monitor :=
  MkMonitor (mo_thread s) c (mo_brk s) (mo_winsz s) (mo_books s) (mo_probe s) (mo_log s) (mo_touched s).
Definition set_brk (b : brk_arena) (s : monitor) : monitor :=
  MkMonitor (mo_thread s) (mo_seccomp s) b (mo_winsz s) (mo_books s) (mo_probe s) (mo_log s) (mo_touched s).
Definition set_winsz (w : winsz_cache) (s : monitor) : monitor :=
  MkMonitor (mo_thread s) (mo_seccomp s) (mo_brk s) w (mo_books s) (mo_probe s) (mo_log s) (mo_touched s).
Definition set_books (b : trap_books) (s : monitor) : monitor :=
  MkMonitor (mo_thread s) (mo_seccomp s) (mo_brk s) (mo_winsz s) b (mo_probe s) (mo_log s) (mo_touched s).
Definition set_touched (l : list (Z * bool)) (s : monitor) : monitor :=
  MkMonitor (mo_thread s) (mo_seccomp s) (mo_brk s) (mo_winsz s) (mo_books s) (mo_probe s) (mo_log s) l.
Definition set_mo_memory (m : memory) (s : monitor) : monitor := set_thread (set_thread_memory m (mo_thread s)) s.
Definition after_call (c : host_call) (r : host_reply) (s : monitor) : monitor :=
  MkMonitor (set_thread_memory (hr_memory r) (mo_thread s)) (mo_seccomp s) (mo_brk s) (mo_winsz s) (mo_books s) (hr_probe r)
    (mo_log s ++ [c]) (mo_touched s).

(** ** The monad *)

(** The ways to leave for good: the end of the thread or of the process, or
    another program in its place. *)
Inductive leave : Type :=
| ExitThread (code : Z)
| ExitProcess (code : Z)
| Replaced.

Inductive outcome (A : Type) : Type :=
| Done (a : A)
| Leaves (x : leave)
| Running.
Arguments Done {A}.
Arguments Leaves {A}.
Arguments Running {A}.

Definition M (A : Type) : Type := monitor -> monitor * outcome A.

#[export] Instance M_ret : MRet M := fun A a s => (s, Done a).
#[export] Instance M_bind : MBind M := fun A B f m s =>
  match m s with
  | (s, Done a) => f a s
  | (s, Leaves x) => (s, Leaves x)
  | (s, Running) => (s, Running)
  end.

Definition get {A} (f : monitor -> A) : M A := fun s => (s, Done (f s)).
Definition modify (f : monitor -> monitor) : M unit := fun s => (f s, Done tt).
Definition leaves {A} (x : leave) : M A := fun s => (s, Leaves x).
Definition still_running {A} : M A := fun s => (s, Running).

(** Prefaulting: the bytes are read, and written back if [writable]. *)
Definition touch (addresses : list Z) (writable : bool) : M unit :=
  modify (fun s => set_touched (mo_touched s ++ ((fun a => (a, writable)) <$> addresses)) s).

Section Host.
Context (os : host).

(** A call of the host. *)
Definition call (number : Z) (args : list host_arg) : M host_reply := fun s =>
  let c := MkCall number args in
  let r := os (mo_log s) (mo_memory s) (mo_probe s) c in
  (after_call c r s, Done r).

(** [poly_x86_syscall6] with plain arguments: the status as a [uint64_t]. *)
Definition poly_x86_syscall6 (number : Z) (args : list Z) : M Z :=
  r ← call number (Val <$> args); mret (u64 (hr_status r)).

(** The C library's wrapper: an errno, or the result. *)
Definition libc (number : Z) (args : list host_arg) : M (host_reply * (Z + Z)) :=
  r ← call number args;
  mret (r, if (- 4095 <=? hr_status r) && (hr_status r <? 0) then inl (- hr_status r) else inr (u64 (hr_status r))).
End Host.

(** ** Lemmas about runs *)

Lemma bind_run {A B} (f : A -> M B) (m : M A) (s s' : monitor) (a : A) :
  m s = (s', Done a) -> (m ≫= f) s = f a s'.
Proof. unfold mbind, M_bind. by intros ->. Qed.

Lemma call_run (os : host) (number : Z) (args : list host_arg) (s : monitor) :
  let c := MkCall number args in
  let r := os (mo_log s) (mo_memory s) (mo_probe s) c in
  call os number args s = (after_call c r s, Done r).
Proof. done. Qed.

(** The errno of a status, or the result. *)
Definition libc_result (status : Z) : Z + Z :=
  if (- 4095 <=? status) && (status <? 0) then inl (- status) else inr (u64 status).

Lemma libc_run (os : host) (number : Z) (args : list host_arg) (s : monitor) :
  let c := MkCall number args in
  let r := os (mo_log s) (mo_memory s) (mo_probe s) c in
  libc os number args s = (after_call c r s, Done (r, libc_result (hr_status r))).
Proof. done. Qed.

Lemma libc_result_ok (status : Z) : 0 <= status < 2 ^ 64 -> libc_result status = inr status.
Proof.
  intros H. unfold libc_result. destruct (Z.ltb_spec status 0); [lia|]. rewrite andb_false_r.
  by rewrite wrap_small.
Qed.

(** ** What a computation does *)

(** Every call of [m] satisfies [P], and it leaves the monitor only in the ways
    that [Q] allows. *)
Definition behaves {A} (P : host_call -> Prop) (Q : leave -> Prop) (m : M A) : Prop :=
  forall s, (exists new, mo_log (m s).1 = mo_log s ++ new /\ Forall P new) /\
            (forall x, (m s).2 = Leaves x -> Q x).

(** The result of [m], if there is one, satisfies [P]. *)
Definition ends {A} (P : A -> Prop) (m : M A) : Prop := forall s s' a, m s = (s', Done a) -> P a.

Section Behaviour.
Context (P : host_call -> Prop) (Q : leave -> Prop).

Lemma behaves_silent {A} (m : M A) :
  (forall s, mo_log (m s).1 = mo_log s) -> (forall s x, (m s).2 <> Leaves x) -> behaves P Q m.
Proof.
  intros H Hx s. split; [exists []; by rewrite H, app_nil_r|]. intros x E. by destruct (Hx s x).
Qed.

Lemma behaves_ret {A} (a : A) : behaves P Q (mret a).
Proof. by apply behaves_silent. Qed.

Lemma behaves_get {A} (f : monitor -> A) : behaves P Q (get f).
Proof. by apply behaves_silent. Qed.

Lemma behaves_modify (f : monitor -> monitor) : (forall s, mo_log (f s) = mo_log s) -> behaves P Q (modify f).
Proof. intros H. by apply behaves_silent. Qed.

Lemma behaves_running {A} : behaves P Q (@still_running A).
Proof. by apply behaves_silent. Qed.

Lemma behaves_touch (l : list Z) (w : bool) : behaves P Q (touch l w).
Proof. by apply behaves_silent. Qed.

Lemma behaves_leaves {A} (x : leave) : Q x -> behaves P Q (@leaves A x).
Proof. intros H s. split; [exists []; by rewrite app_nil_r|]. cbn. by intros y [= <-]. Qed.

Lemma behaves_bind {A B} (m : M A) (f : A -> M B) :
  behaves P Q m -> (forall a, behaves P Q (f a)) -> behaves P Q (m ≫= f).
Proof.
  intros Hm Hf s. destruct (Hm s) as [(new & H & Hn) Hx]. unfold mbind, M_bind.
  destruct (m s) as [s' [a|x|]] eqn:E; cbn in *.
  2:{ split; [eauto|]. intros y [= <-]. by apply Hx. }
  2:{ split; [eauto|done]. }
  destruct (Hf a s') as [(new' & H' & Hn') Hx']. split; [|done].
  exists (new ++ new'). rewrite H', H, app_assoc. split; [done|by apply Forall_app].
Qed.

Lemma behaves_call (os : host) (number : Z) (args : list host_arg) :
  P (MkCall number args) -> behaves P Q (call os number args).
Proof. intros H s. split; [exists [MkCall number args]; split; [done|by constructor]|done]. Qed.

Lemma behaves_syscall6 (os : host) (number : Z) (args : list Z) :
  P (MkCall number (Val <$> args)) -> behaves P Q (poly_x86_syscall6 os number args).
Proof. intros H. apply behaves_bind; [by apply behaves_call|intros a; apply behaves_ret]. Qed.

Lemma behaves_libc (os : host) (number : Z) (args : list host_arg) :
  P (MkCall number args) -> behaves P Q (libc os number args).
Proof. intros H. apply behaves_bind; [by apply behaves_call|intros a; apply behaves_ret]. Qed.
End Behaviour.

Lemma behaves_weaken {A} (P P' : host_call -> Prop) (Q Q' : leave -> Prop) (m : M A) :
  (forall c, P c -> P' c) -> (forall x, Q x -> Q' x) -> behaves P Q m -> behaves P' Q' m.
Proof.
  intros HP HQ H s. destruct (H s) as [(new & ? & ?) Hx]. split; [|by auto].
  exists new. split; [done|by eapply Forall_impl].
Qed.

Lemma ends_bind {A B} (P : B -> Prop) (m : M A) (f : A -> M B) : (forall a, ends P (f a)) -> ends P (m ≫= f).
Proof.
  intros H s s' b. unfold mbind, M_bind. destruct (m s) as [s1 [a|x|]]; [|done..]. by apply H.
Qed.

Lemma ends_bind_known {A B} (R : A -> Prop) (P : B -> Prop) (m : M A) (f : A -> M B) :
  ends R m -> (forall a, R a -> ends P (f a)) -> ends P (m ≫= f).
Proof.
  intros Hm H s s' b. unfold mbind, M_bind. destruct (m s) as [s1 [a|x|]] eqn:E; [|done..].
  apply H. by eapply Hm.
Qed.

Lemma ends_ret {A} (P : A -> Prop) (a : A) : P a -> ends P (mret a).
Proof. intros H s s' b E. injection E. by intros <- _. Qed.

Lemma ends_leaves {A} (P : A -> Prop) (x : leave) : ends P (leaves x).
Proof. by intros s s' a. Qed.

(** From a state that satisfies [pre], [m] ends with a value (it neither leaves
    nor runs on), and [post] holds of the value and the state. *)
Definition triple {A} (pre : monitor -> Prop) (m : M A) (post : A -> monitor -> Prop) : Prop :=
  forall s, pre s -> exists s' a, m s = (s', Done a) /\ post a s'.

Lemma triple_bind {A B} (pre : monitor -> Prop) (m : M A) (mid : A -> monitor -> Prop) (f : A -> M B)
    (post : B -> monitor -> Prop) :
  triple pre m mid -> (forall a, triple (mid a) (f a) post) -> triple pre (m ≫= f) post.
Proof.
  intros Hm Hf s Hs. destruct (Hm s Hs) as (s1 & a & E & Ha). rewrite (bind_run _ _ _ _ _ E). by apply Hf.
Qed.

Lemma triple_ret {A} (pre : monitor -> Prop) (a : A) (post : A -> monitor -> Prop) :
  (forall s, pre s -> post a s) -> triple pre (mret a) post.
Proof. intros H s Hs. exists s, a. split; [done|auto]. Qed.

Lemma triple_weaken {A} (pre : monitor -> Prop) (m : M A) (post post' : A -> monitor -> Prop) :
  triple pre m post -> (forall a s, post a s -> post' a s) -> triple pre m post'.
Proof. intros Hm H s Hs. destruct (Hm s Hs) as (s' & a & E & Ha). eauto. Qed.

(** [m] comes to an end, with a value or by leaving. *)
Definition stops {A} (m : M A) : Prop := forall s, (m s).2 <> Running.

Lemma stops_ret {A} (a : A) : stops (mret a).
Proof. done. Qed.

Lemma stops_get {A} (f : monitor -> A) : stops (get f).
Proof. done. Qed.

Lemma stops_modify (f : monitor -> monitor) : stops (modify f).
Proof. done. Qed.

Lemma stops_leaves {A} (x : leave) : stops (@leaves A x).
Proof. done. Qed.

Lemma stops_touch (l : list Z) (w : bool) : stops (touch l w).
Proof. done. Qed.

Lemma stops_call (os : host) (number : Z) (args : list host_arg) : stops (call os number args).
Proof. done. Qed.

Lemma stops_syscall6 (os : host) (number : Z) (args : list Z) : stops (poly_x86_syscall6 os number args).
Proof. done. Qed.

Lemma stops_libc (os : host) (number : Z) (args : list host_arg) : stops (libc os number args).
Proof. done. Qed.

Lemma stops_bind {A B} (m : M A) (f : A -> M B) : stops m -> (forall a, stops (f a)) -> stops (m ≫= f).
Proof.
  intros Hm Hf s. specialize (Hm s). unfold mbind, M_bind. destruct (m s) as [s' [a|x|]]; [apply Hf|done..].
Qed.

Create HintDb host_calls.
#[export] Hint Resolve stops_ret stops_get stops_modify stops_leaves stops_touch stops_call stops_syscall6 stops_libc
  : host_calls.
#[export] Hint Resolve behaves_ret behaves_get behaves_running behaves_touch behaves_modify behaves_leaves
  behaves_call behaves_syscall6 behaves_libc : host_calls.

(** Steps through a computation and leaves the conditions of its calls. *)
Ltac behaviour :=
  repeat first
    [ apply behaves_bind; [|intros ?]
    | solve [auto with host_calls]
    | match goal with
      | |- behaves _ _ (if ?b then _ else _) => destruct b
      | |- behaves _ _ (match ?x with _ => _ end) => destruct x
      end ].

(** The same for [stops]. *)
Ltac stopping :=
  repeat first
    [ apply stops_bind; [|intros ?]
    | solve [auto with host_calls]
    | match goal with
      | |- stops (if ?b then _ else _) => destruct b
      | |- stops (match ?x with _ => _ end) => destruct x
      end ].
