(* ===== verification/FileCalls.v ===== *)
(** The structured system calls on files and descriptors
    ([poly_handle_structured_foreign_syscall] and its helpers in
    [tools/runtime/polyexec.c]): those whose flags or structures differ between
    the guest's architecture and the host's.

    The pointers that the code does not check are used as they are: a store goes
    to the guest memory at the address given. *)

From S2P Require Import Prelude SyscallMap GuestMemory Seccomp CStruct TrapState SignalFrame HostCalls.

Definition E2BIG : Z := 7.
Definition ENOTTY : Z := 25.
Definition TIOCGWINSZ : Z := 0x5413.
Definition AT_SYMLINK_NOFOLLOW : Z := 0x100.

(** ** Flags of [open] *)

Definition POLY_AARCH64_O_DSYNC : Z := 0x1000.
Definition POLY_AARCH64_O_DIRECTORY : Z := 0x4000.
Definition POLY_AARCH64_O_NOFOLLOW : Z := 0x8000.
Definition POLY_AARCH64_O_DIRECT : Z := 0x10000.
Definition POLY_AARCH64_O_LARGEFILE : Z := 0x20000.
Definition POLY_AARCH64_O_NOATIME : Z := 0x40000.
Definition POLY_AARCH64_O_CLOEXEC : Z := 0x80000.
Definition POLY_AARCH64___O_SYNC : Z := 0x100000.
Definition POLY_AARCH64_O_PATH : Z := 0x200000.
Definition POLY_AARCH64___O_TMPFILE : Z := 0x400000.

(** The host's; [O_LARGEFILE] is 0 in a 64-bit C library. *)
Definition O_DSYNC : Z := 0x1000.
Definition O_DIRECT : Z := 0x4000.
Definition O_LARGEFILE : Z := 0.
Definition O_DIRECTORY : Z := 0x10000.
Definition O_NOFOLLOW : Z := 0x20000.
Definition O_NOATIME : Z := 0x40000.
Definition O_CLOEXEC : Z := 0x80000.
Definition O_SYNC : Z := 0x101000.
Definition O_PATH : Z := 0x200000.
Definition O_TMPFILE : Z := 0x410000.

(** ** Structures *)

(** [struct stat] of the host; signed fields by their bits. *)
Record x86_stat : Type := MkX86Stat {
  st_dev : Z; st_ino : Z; st_nlink : Z; st_mode : Z; st_uid : Z; st_gid : Z; st_rdev : Z; st_size : Z;
  st_blksize : Z; st_blocks : Z; st_atim_sec : Z; st_atim_nsec : Z; st_mtim_sec : Z; st_mtim_nsec : Z;
  st_ctim_sec : Z; st_ctim_nsec : Z;
}.
Definition ct_x86_stat : ctype x86_stat :=
  c_struct (fun x => (st_dev x, st_ino x, st_nlink x, st_mode x, st_uid x, st_gid x, tt, st_rdev x, st_size x,
    st_blksize x, st_blocks x, st_atim_sec x, st_atim_nsec x, st_mtim_sec x, st_mtim_nsec x, st_ctim_sec x,
    st_ctim_nsec x, tt))
    (fun '(a, b, c, d, e, f, _, g, h, i, j, k, l, m, n, o, p, _) => MkX86Stat a b c d e f g h i j k l m n o p)
    (c_u64 ** c_u64 ** c_u64 ** c_u32 ** c_u32 ** c_u32 ** c_pad 4 ** c_u64 ** c_u64 ** c_u64 ** c_u64 ** c_u64 **
      c_u64 ** c_u64 ** c_u64 ** c_u64 ** c_u64 ** c_pad 24)%cstruct.

Record poly_linux_generic_stat : Type := MkStat {
  gs_dev : Z; gs_ino : Z; gs_mode : Z; gs_nlink : Z; gs_uid : Z; gs_gid : Z; gs_rdev : Z; gs_size : Z;
  gs_blksize : Z; gs_blocks : Z; gs_atime_sec : Z; gs_atime_nsec : Z; gs_mtime_sec : Z; gs_mtime_nsec : Z;
  gs_ctime_sec : Z; gs_ctime_nsec : Z;
}.
Definition ct_linux_generic_stat : ctype poly_linux_generic_stat :=
  c_struct (fun x => (gs_dev x, gs_ino x, gs_mode x, gs_nlink x, gs_uid x, gs_gid x, gs_rdev x, tt, gs_size x,
    gs_blksize x, tt, gs_blocks x, gs_atime_sec x, gs_atime_nsec x, gs_mtime_sec x, gs_mtime_nsec x, gs_ctime_sec x,
    gs_ctime_nsec x, tt))
    (fun '(a, b, c, d, e, f, g, _, h, i, _, j, k, l, m, n, o, p, _) => MkStat a b c d e f g h i j k l m n o p)
    (c_u64 ** c_u64 ** c_u32 ** c_u32 ** c_u32 ** c_u32 ** c_u64 ** c_pad 8 ** c_u64 ** c_u32 ** c_pad 4 ** c_u64 **
      c_u64 ** c_u64 ** c_u64 ** c_u64 ** c_u64 ** c_u64 ** c_pad 8)%cstruct.

(** [struct statfs] of the host. *)
Record x86_statfs : Type := MkX86Statfs {
  f_type : Z; f_bsize : Z; f_blocks : Z; f_bfree : Z; f_bavail : Z; f_files : Z; f_ffree : Z; f_fsid : list Z;
  f_namelen : Z; f_frsize : Z; f_flags : Z;
}.
Definition ct_x86_statfs : ctype x86_statfs :=
  c_struct (fun x => (f_type x, f_bsize x, f_blocks x, f_bfree x, f_bavail x, f_files x, f_ffree x, f_fsid x,
    f_namelen x, f_frsize x, f_flags x, tt))
    (fun '(a, b, c, d, e, f, g, h, i, j, k, _) => MkX86Statfs a b c d e f g h i j k)
    (c_u64 ** c_u64 ** c_u64 ** c_u64 ** c_u64 ** c_u64 ** c_u64 ** c_array 8 (c_uint 1) ** c_u64 ** c_u64 ** c_u64 **
      c_pad 32)%cstruct.

Record poly_linux_generic_statfs : Type := MkStatfs {
  gf_type : Z; gf_bsize : Z; gf_blocks : Z; gf_bfree : Z; gf_bavail : Z; gf_files : Z; gf_ffree : Z; gf_fsid : list Z;
  gf_namelen : Z; gf_frsize : Z; gf_flags : Z;
}.
Definition ct_linux_generic_statfs : ctype poly_linux_generic_statfs :=
  c_struct (fun x => (gf_type x, gf_bsize x, gf_blocks x, gf_bfree x, gf_bavail x, gf_files x, gf_ffree x, gf_fsid x,
    gf_namelen x, gf_frsize x, gf_flags x, tt))
    (fun '(a, b, c, d, e, f, g, h, i, j, k, _) => MkStatfs a b c d e f g h i j k)
    (c_u64 ** c_u64 ** c_u64 ** c_u64 ** c_u64 ** c_u64 ** c_u64 ** c_array 8 (c_uint 1) ** c_u64 ** c_u64 ** c_u64 **
      c_pad 32)%cstruct.

Record epoll_event : Type := MkEpoll { ev_events : Z; ev_data : Z; }.
(** [struct poly_linux_generic_epoll_event]; the padding is written as zeros *)
Definition ct_linux_generic_epoll_event : ctype epoll_event :=
  c_struct (fun x => (ev_events x, tt, ev_data x)) (fun '(a, _, b) => MkEpoll a b) (c_u32 ** c_pad 4 ** c_u64)%cstruct.
(** [struct poly_x86_epoll_event], packed *)
Definition ct_x86_epoll_event : ctype epoll_event :=
  c_struct (fun x => (ev_events x, ev_data x)) (fun '(a, b) => MkEpoll a b) (c_u32 ** c_u64)%cstruct.

Record poly_riscv_hwprobe_pair : Type := MkPair { hp_key : Z; hp_value : Z; }.
Definition ct_riscv_hwprobe_pair : ctype poly_riscv_hwprobe_pair :=
  c_struct (fun x => (hp_key x, hp_value x)) (fun '(a, b) => MkPair a b) (c_u64 ** c_u64)%cstruct.

(** The sizes of the structures. *)
Lemma file_structure_sizes :
  sizeof ct_x86_stat = 144 /\ sizeof ct_linux_generic_stat = 128 /\ sizeof ct_x86_statfs = 120 /\
  sizeof ct_linux_generic_statfs = 120 /\ sizeof ct_linux_generic_epoll_event = 16 /\ sizeof ct_x86_epoll_event = 12.
Proof. repeat split. Qed.

#[export] Instance ct_x86_stat_layout : Layout ct_x86_stat := _.
#[export] Instance ct_linux_generic_stat_layout : Layout ct_linux_generic_stat := _.
#[export] Instance ct_x86_statfs_layout : Layout ct_x86_statfs := _.
#[export] Instance ct_linux_generic_statfs_layout : Layout ct_linux_generic_statfs := _.
#[export] Instance ct_linux_generic_epoll_event_layout : Layout ct_linux_generic_epoll_event := _.
#[export] Instance ct_x86_epoll_event_layout : Layout ct_x86_epoll_event := _.
#[export] Instance ct_riscv_hwprobe_pair_layout : Layout ct_riscv_hwprobe_pair := _.

(** ** Conversions *)

Definition generic_stat (s : x86_stat) : poly_linux_generic_stat :=
  MkStat (st_dev s) (st_ino s) (u32 (st_mode s)) (u32 (st_nlink s)) (u32 (st_uid s)) (u32 (st_gid s)) (st_rdev s)
    (st_size s) (u32 (st_blksize s)) (st_blocks s) (st_atim_sec s) (st_atim_nsec s) (st_mtim_sec s) (st_mtim_nsec s)
    (st_ctim_sec s) (st_ctim_nsec s).

Definition poly_store_linux_generic_stat (destination : Z) (source : x86_stat) (m : memory) : memory :=
  store_struct ct_linux_generic_stat m destination (generic_stat source).

Definition generic_statfs (s : x86_statfs) : poly_linux_generic_statfs :=
  MkStatfs (f_type s) (f_bsize s) (f_blocks s) (f_bfree s) (f_bavail s) (f_files s) (f_ffree s) (f_fsid s) (f_namelen s)
    (f_frsize s) (f_flags s).

Definition poly_store_linux_generic_statfs (destination : Z) (source : x86_statfs) (m : memory) : memory :=
  store_struct ct_linux_generic_statfs m destination (generic_statfs source).

(** The bytes that [poly_store_fixed_string] leaves in the array. *)
Definition poly_store_fixed_string (target_size : Z) (value : list Z) : list Z :=
  if target_size =? 0 then []
  else
    let value_len := Z.of_nat (length value) in
    let value_len := if value_len >=? target_size then target_size - 1 else value_len in
    take (Z.to_nat value_len) value ++ repeat 0 (Z.to_nat (target_size - value_len)).

Definition poly_load_x86_epoll_event (source : Z) (m : memory) : epoll_event :=
  load_struct ct_linux_generic_epoll_event m source.

Definition poly_store_linux_generic_epoll_event (destination : Z) (source : epoll_event) (m : memory) : memory :=
  store_struct ct_linux_generic_epoll_event m destination source.

(** [for (i = 0; i < status; i++)]: the events that the host returned. *)
Definition store_epoll_events (events : Z) (x86_events : list epoll_event) (m : memory) : memory :=
  foldl (fun m '(i, e) => poly_store_linux_generic_epoll_event (u64 (events + Z.of_nat i * 16)) e m) m
    (imap pair x86_events).

Definition update_memory (f : memory -> memory) : M unit := modify (fun s => set_mo_memory (f (mo_memory s)) s).

Definition S_ISDIR (mode : Z) : bool := Z.land mode 0xf000 =? 0x4000.

(** ** Hardware probing of RISC-V *)

Definition hwprobe_extensions : Z :=
  foldl Z.lor 0 (Z.shiftl 1 <$> [0; 1; 3; 4; 5; 35; 50]).

(** [None]: the key is not known. *)
Definition poly_riscv_hwprobe_value (key : Z) : option Z :=
  if bool_decide (key ∈ [0; 1; 2]) then Some 0
  else if key =? 3 then Some 1
  else if key =? 4 then Some hwprobe_extensions
  else if bool_decide (key ∈ [5; 6; 7; 8; 9; 10; 11; 12; 13]) then Some 0
  else None.

Definition answer_pair (p : poly_riscv_hwprobe_pair) : poly_riscv_hwprobe_pair :=
  match poly_riscv_hwprobe_value (hp_key p) with
  | Some value => MkPair (hp_key p) value
  | None => MkPair (2 ^ 64 - 1) 0
  end.

(** [pair_count] pairs from [address] on *)
Fixpoint answer_pairs (pair_count : nat) (address : Z) (m : memory) : memory :=
  match pair_count with
  | O => m
  | S n =>
      answer_pairs n (address + 16)
        (store_struct ct_riscv_hwprobe_pair m address (answer_pair (load_struct ct_riscv_hwprobe_pair m address)))
  end.

Definition poly_dispatch_riscv_hwprobe (pairs_address pair_count cpu_count cpus flags : Z) : M Z :=
  if negb (flags =? 0) || negb (cpu_count =? 0) || negb (cpus =? 0) then mret (neg_errno EINVAL)
  else if negb (pair_count =? 0) && (pairs_address =? 0) then mret (neg_errno EFAULT)
  else if pair_count >? 4096 then mret (neg_errno EINVAL)
  else update_memory (answer_pairs (Z.to_nat pair_count) pairs_address);; mret 0.

Section Files.
Context (os : host) (malloc_fails : Z -> bool).

(** ** Files *)

Definition poly_open_target_is_directory (dirfd path : Z) : M bool :=
  if path =? 0 then mret false
  else
    r ← call os SYS_newfstatat [Val dirfd; Val path; Out 144; Val AT_SYMLINK_NOFOLLOW; Val 0; Val 0];
    mret ((hr_status r =? 0) && S_ISDIR (st_mode (c_read ct_x86_stat (hr_out r)))).

Definition aarch64_translated_mask : Z :=
  foldl Z.lor 0
    [POLY_AARCH64_O_DSYNC; POLY_AARCH64_O_DIRECT; POLY_AARCH64_O_LARGEFILE; POLY_AARCH64_O_DIRECTORY;
     POLY_AARCH64_O_NOFOLLOW; POLY_AARCH64_O_NOATIME; POLY_AARCH64_O_CLOEXEC; POLY_AARCH64___O_SYNC;
     POLY_AARCH64_O_PATH; POLY_AARCH64___O_TMPFILE].

(** [if ((flags & guest) != 0) translated |= host] *)
Definition translate_flag (flags guest native translated : Z) : Z :=
  if Z.land flags guest =? 0 then translated else Z.lor translated native.

Definition poly_translate_open_flags (flags mode dirfd path : Z) : M Z :=
  if negb (mode =? POLY_MODE_RAW_AARCH64) then mret flags
  else
    let translated := without flags aarch64_translated_mask in
    let translated := translate_flag flags POLY_AARCH64_O_DSYNC O_DSYNC translated in
    let translated := translate_flag flags POLY_AARCH64_O_DIRECTORY O_DIRECTORY translated in
    translated ←
      (if Z.land flags POLY_AARCH64_O_DIRECT =? 0 then mret translated
       else
         is_directory ← poly_open_target_is_directory dirfd path;
         mret (Z.lor translated (if is_directory : bool then O_DIRECTORY else O_DIRECT)));
    let translated := translate_flag flags POLY_AARCH64_O_LARGEFILE O_LARGEFILE translated in
    let translated := translate_flag flags POLY_AARCH64_O_NOFOLLOW O_NOFOLLOW translated in
    let translated := translate_flag flags POLY_AARCH64_O_NOATIME O_NOATIME translated in
    let translated := translate_flag flags POLY_AARCH64_O_CLOEXEC O_CLOEXEC translated in
    let translated := translate_flag flags POLY_AARCH64___O_SYNC O_SYNC translated in
    let translated := translate_flag flags POLY_AARCH64_O_PATH O_PATH translated in
    mret (translate_flag flags POLY_AARCH64___O_TMPFILE O_TMPFILE translated).

(** Cases 43 and 44: [statfs] and [fstatfs]. *)
Definition dispatch_statfs (x86_number arg0 arg1 : Z) : M Z :=
  r ← call os x86_number [Val arg0; Out 120; Val 0; Val 0; Val 0; Val 0];
  (if hr_status r =? 0
   then update_memory (poly_store_linux_generic_statfs arg1 (c_read ct_x86_statfs (hr_out r)))
   else mret tt);;
  mret (u64 (hr_status r)).

(** Cases 79 and 80: [newfstatat] and [fstat]; [before] and [after] surround the
    buffer in the argument list. *)
Definition dispatch_stat (x86_number : Z) (before after : list Z) (destination : Z) : M Z :=
  r ← call os x86_number ((Val <$> before) ++ [Out 144] ++ (Val <$> after));
  (if hr_status r =? 0
   then update_memory (poly_store_linux_generic_stat destination (c_read ct_x86_stat (hr_out r)))
   else mret tt);;
  mret (u64 (hr_status r)).

(** Case 56 *)
Definition dispatch_openat (mode arg0 arg1 arg2 arg3 : Z) : M Z :=
  flags ← poly_translate_open_flags arg2 mode arg0 arg1;
  poly_x86_syscall6 os SYS_openat [arg0; arg1; flags; arg3; 0; 0].

(** Case 437; [struct poly_linux_open_how] starts with its flags. *)
Definition dispatch_openat2 (mode arg0 arg1 arg2 arg3 : Z) : M Z :=
  if arg2 =? 0 then mret (neg_errno EFAULT)
  else if arg3 <? 24 then mret (neg_errno EINVAL)
  else if (arg3 >? 4096) || (arg3 >? SIZE_MAX) then mret (neg_errno E2BIG)
  else
    probe ← get mo_probe;
    if negb (poly_guest_range_is_mapped probe arg2 arg3 false) then mret (neg_errno EFAULT)
    else if malloc_fails arg3 then mret (neg_errno ENOMEM)
    else
      how ← get (fun s => load (mo_memory s) arg2 (Z.to_nat arg3));
      flags ← poly_translate_open_flags (le_value (take 8 how)) mode arg0 arg1;
      r ← call os SYS_openat2 [Val arg0; Val arg1; In (le_bytes 8 flags ++ drop 8 how); Val arg3; Val 0; Val 0];
      mret (u64 (hr_status r)).

(** Case 61 *)
Definition dispatch_getdents64 (arg0 arg1 arg2 : Z) : M Z :=
  if arg2 >? SIZE_MAX then mret (neg_errno EINVAL)
  else if malloc_fails (if arg2 =? 0 then 1 else arg2) then mret (neg_errno ENOMEM)
  else
    r ← call os SYS_getdents64 [Val arg0; Out arg2; Val arg2; Val 0; Val 0; Val 0];
    (if hr_status r >? 0
     then update_memory (fun m => store_bytes m arg1 (take (Z.to_nat (hr_status r)) (hr_out r)))
     else mret tt);;
    mret (u64 (hr_status r)).

(** ** Events *)

(** Case 21 *)
Definition dispatch_epoll_ctl (arg0 arg1 arg2 arg3 : Z) : M Z :=
  event ← get (fun s => if arg3 =? 0 then Val 0
                        else In (c_bytes ct_x86_epoll_event (poly_load_x86_epoll_event arg3 (mo_memory s))));
  r ← call os SYS_epoll_ctl [Val arg0; Val arg1; Val arg2; event; Val 0; Val 0];
  mret (u64 (hr_status r)).

Definition poly_dispatch_epoll_wait_events (x86_number epoll_fd events maxevents timeout sigmask sigsetsize : Z)
    : M Z :=
  if maxevents =? 0 then mret (neg_errno EINVAL)
  else if events =? 0 then mret (neg_errno EFAULT)
  else if maxevents >? SIZE_MAX / 12 then mret (neg_errno EINVAL)
  else if malloc_fails (maxevents * 12) then mret (neg_errno ENOMEM)
  else
    r ← call os x86_number
          [Val epoll_fd; Out (maxevents * 12); Val maxevents; Val timeout; Val sigmask; Val sigsetsize];
    (if hr_status r >? 0
     then update_memory (store_epoll_events events
            (read_array ct_x86_epoll_event (Z.to_nat (hr_status r)) (hr_out r)))
     else mret tt);;
    mret (u64 (hr_status r)).

(** ** The terminal and the system's name *)

(** Case 29; [None]: the call is not handled here. *)
Definition dispatch_ioctl (arg0 arg1 arg2 : Z) : M (option Z) :=
  if (arg0 =? 0) && (arg1 =? TIOCGWINSZ) then
    w ← get mo_winsz;
    if wz_enotty w then
      modify (set_winsz (MkWinsz true (u64 (wz_hits w + 1)) (wz_misses w)));; mret (Some (neg_errno ENOTTY))
    else
      r ← call os SYS_ioctl [Val arg0; Val arg1; Val arg2; Val 0; Val 0; Val 0];
      modify (set_winsz (MkWinsz (hr_status r =? - ENOTTY) (wz_hits w) (u64 (wz_misses w + 1))));;
      mret (Some (u64 (hr_status r)))
  else mret None.

Definition machine_name (mode : Z) : list Z :=
  if mode =? POLY_MODE_RAW_AARCH64 then [97; 97; 114; 99; 104; 54; 52] else [114; 105; 115; 99; 118; 54; 52].

(** Case 160; [machine] is the fifth array of 65 characters. *)
Definition dispatch_uname (mode arg0 : Z) : M Z :=
  r ← call os SYS_uname [Val arg0; Val 0; Val 0; Val 0; Val 0; Val 0];
  (if (hr_status r =? 0) && negb (arg0 =? 0)
   then update_memory (fun m => store_bytes m (arg0 + 260) (poly_store_fixed_string 65 (machine_name mode)))
   else mret tt);;
  mret (u64 (hr_status r)).
End Files.
