(* ===== verification/FileProps.v ===== *)
(** What the structured system calls on files promise ([FileCalls]): open flags
    keep their meaning, and the structures that the host fills reach the guest
    in its own layout. *)

From S2P Require Import Prelude SyscallMap GuestMemory Seccomp CStruct TrapState SignalFrame SignalDelivery HostCalls FileCalls.

#[local] Opaque sizeof c_size.
#[local] Arguments Z.testbit : simpl never.
#[local] Arguments load_struct : simpl never.

(** ** Open flags *)

(** The flags of [open] by name (without [O_LARGEFILE], which a 64-bit host does
    not have), with their bits on AArch64 and on the host. *)
Inductive open_flag : Type :=
| WriteOnly | ReadWrite | Create | Exclusive | NoControllingTty | Truncate | Append | NonBlock | DataSync | Async
| Direct | Directory | NoFollow | NoAccessTime | CloseOnExec | FileSync | PathOnly | TemporaryFile.

Definition aarch64_flag_bits (f : open_flag) : list Z :=
  match f with
  | WriteOnly => [0] | ReadWrite => [1] | Create => [6] | Exclusive => [7] | NoControllingTty => [8] | Truncate => [9]
  | Append => [10] | NonBlock => [11] | DataSync => [12] | Async => [13] | Directory => [14] | NoFollow => [15]
  | Direct => [16] | NoAccessTime => [18] | CloseOnExec => [19] | FileSync => [20; 12] | PathOnly => [21]
  | TemporaryFile => [22; 14]
  end.

Definition x86_flag_bits (f : open_flag) : list Z :=
  match f with
  | Direct => [14] | Directory => [16] | NoFollow => [17] | TemporaryFile => [22; 16]
  | _ => aarch64_flag_bits f
  end.

Definition has_bits (bits : list Z) (flags : Z) : bool := forallb (Z.testbit flags) bits.

(** The flags that consist of two bits are given as a whole. *)
Definition whole_flags (flags : Z) : Prop :=
  (Z.testbit flags 20 = true -> Z.testbit flags 12 = true) /\ (Z.testbit flags 22 = true -> Z.testbit flags 14 = true).

Lemma translate_flag_bit (flags k native translated i : Z) : 0 <= k ->
  Z.testbit (translate_flag flags (2 ^ k) native translated) i =
  Z.testbit translated i || (Z.testbit flags k && Z.testbit native i).
Proof.
  intros Hk. unfold translate_flag. rewrite <- Z.shiftl_1_l, land_bit by done.
  destruct (Z.testbit flags k); cbn [negb andb]; [apply Z.lor_spec|by rewrite orb_false_r].
Qed.

Lemma without_mask_bit (x mask i : Z) : 0 <= i < 64 ->
  Z.testbit (without x mask) i = Z.testbit x i && negb (Z.testbit mask i).
Proof.
  intros Hi. unfold without, wrap. rewrite Z.land_spec, Z.testbit_mod_pow2 by lia.
  rewrite Z.lnot_spec by lia. destruct (Z.ltb_spec i 64); [done|lia].
Qed.

(** The translation as a function of whether the target is a directory. *)
Definition translated_flags (flags : Z) (is_directory : bool) : Z :=
  let t := without flags aarch64_translated_mask in
  let t := translate_flag flags POLY_AARCH64_O_DSYNC O_DSYNC t in
  let t := translate_flag flags POLY_AARCH64_O_DIRECTORY O_DIRECTORY t in
  let t := translate_flag flags POLY_AARCH64_O_DIRECT (if is_directory then O_DIRECTORY else O_DIRECT) t in
  let t := translate_flag flags POLY_AARCH64_O_LARGEFILE O_LARGEFILE t in
  let t := translate_flag flags POLY_AARCH64_O_NOFOLLOW O_NOFOLLOW t in
  let t := translate_flag flags POLY_AARCH64_O_NOATIME O_NOATIME t in
  let t := translate_flag flags POLY_AARCH64_O_CLOEXEC O_CLOEXEC t in
  let t := translate_flag flags POLY_AARCH64___O_SYNC O_SYNC t in
  let t := translate_flag flags POLY_AARCH64_O_PATH O_PATH t in
  translate_flag flags POLY_AARCH64___O_TMPFILE O_TMPFILE t.

Lemma translated_flags_bit (flags : Z) (is_directory : bool) (i : Z) : 0 <= i < 64 ->
  Z.testbit (translated_flags flags is_directory) i =
  Z.testbit flags i && negb (Z.testbit aarch64_translated_mask i)
  || (Z.testbit flags 12 && Z.testbit O_DSYNC i) || (Z.testbit flags 14 && Z.testbit O_DIRECTORY i)
  || (Z.testbit flags 16 && Z.testbit (if is_directory then O_DIRECTORY else O_DIRECT) i)
  || (Z.testbit flags 17 && Z.testbit O_LARGEFILE i) || (Z.testbit flags 15 && Z.testbit O_NOFOLLOW i)
  || (Z.testbit flags 18 && Z.testbit O_NOATIME i) || (Z.testbit flags 19 && Z.testbit O_CLOEXEC i)
  || (Z.testbit flags 20 && Z.testbit O_SYNC i) || (Z.testbit flags 21 && Z.testbit O_PATH i)
  || (Z.testbit flags 22 && Z.testbit O_TMPFILE i).
Proof.
  intros Hi. unfold translated_flags.
  rewrite (translate_flag_bit flags 22), (translate_flag_bit flags 21), (translate_flag_bit flags 20),
    (translate_flag_bit flags 19), (translate_flag_bit flags 18), (translate_flag_bit flags 15),
    (translate_flag_bit flags 17), (translate_flag_bit flags 16), (translate_flag_bit flags 14),
    (translate_flag_bit flags 12) by lia.
  by rewrite without_mask_bit.
Qed.

(** Flags given whole keep their meaning, one by one. *)
Lemma translated_meaning (flags : Z) (is_directory : bool) (f : open_flag) : whole_flags flags ->
  has_bits (x86_flag_bits f) (translated_flags flags is_directory) =
  match f with
  | Direct => Z.testbit flags 16 && negb is_directory
  | Directory => Z.testbit flags 14 || (Z.testbit flags 16 && is_directory)
  | TemporaryFile => Z.testbit flags 22
  | _ => has_bits (aarch64_flag_bits f) flags
  end.
Proof.
  intros [Hs Ht]. destruct f; cbn [x86_flag_bits aarch64_flag_bits has_bits forallb];
    rewrite !translated_flags_bit by lia; destruct is_directory;
    repeat match goal with |- context [Z.testbit ?c ?i] =>
      lazymatch c with
      | flags => fail
      | _ => let b := eval vm_compute in (Z.testbit c i) in change (Z.testbit c i) with b
      end
    end;
    cbn [negb]; rewrite ?andb_false_r, ?andb_true_r, ?orb_false_l, ?orb_false_r; try done;
    revert Hs Ht; repeat match goal with |- context [Z.testbit flags ?k] => destruct (Z.testbit flags k) end; intros;
    try done; by (discriminate (Hs eq_refl) || discriminate (Ht eq_refl)).
Qed.

Section Run.
Context (os : host) (malloc_fails : Z -> bool).

(** Whether the host reports a directory at [path] when asked now. *)
Definition target_is_directory (dirfd path : Z) (s : monitor) : bool :=
  match poly_open_target_is_directory os dirfd path s with (_, Done b) => b | _ => false end.

Lemma directory_run (dirfd path : Z) (s : monitor) : exists s',
  poly_open_target_is_directory os dirfd path s = (s', Done (target_is_directory dirfd path s)).
Proof. unfold target_is_directory, poly_open_target_is_directory. destruct (path =? 0); eexists; reflexivity. Qed.

Lemma open_flags_run (flags dirfd path : Z) (s : monitor) : exists s',
  poly_translate_open_flags os flags POLY_MODE_RAW_AARCH64 dirfd path s =
    (s', Done (translated_flags flags (target_is_directory dirfd path s))).
Proof.
  unfold poly_translate_open_flags, translated_flags. cbn [negb Z.eqb POLY_MODE_RAW_AARCH64 Pos.eqb].
  assert (forall n t, translate_flag flags POLY_AARCH64_O_DIRECT n t =
    if Z.land flags POLY_AARCH64_O_DIRECT =? 0 then t else Z.lor t n) as E by done. rewrite E.
  unfold mbind, M_bind. destruct (Z.land flags POLY_AARCH64_O_DIRECT =? 0); [eexists; reflexivity|].
  destruct (directory_run dirfd path s) as [s' Hs]. rewrite Hs. eexists. reflexivity.
Qed.

(** Opening a file for an AArch64 guest asks the host for what the guest
    asked for: apart from [O_DIRECT] on a directory, which becomes
    [O_DIRECTORY], every flag that the guest gave (and no other) is set in the
    host's encoding, and path, directory and mode are passed on. *)
Theorem open_flags_meaning (dirfd path flags mode : Z) (s : monitor) : whole_flags flags ->
  exists s1 native,
    let c := MkCall SYS_openat (Val <$> [dirfd; path; native; mode; 0; 0]) in
    let r := os (mo_log s1) (mo_memory s1) (mo_probe s1) c in
    dispatch_openat os POLY_MODE_RAW_AARCH64 dirfd path flags mode s = (after_call c r s1, Done (u64 (hr_status r))) /\
    let directory := target_is_directory dirfd path s in
    forall f, has_bits (x86_flag_bits f) native =
      match f with
      | Direct => has_bits (aarch64_flag_bits Direct) flags && negb directory
      | Directory => has_bits (aarch64_flag_bits Directory) flags ||
                     (has_bits (aarch64_flag_bits Direct) flags && directory)
      | _ => has_bits (aarch64_flag_bits f) flags
      end.
Proof.
  intros Hw. destruct (open_flags_run flags dirfd path s) as [s1 Hs].
  exists s1, (translated_flags flags (target_is_directory dirfd path s)). split.
  - unfold dispatch_openat. by rewrite (bind_run _ _ _ _ _ Hs).
  - cbv zeta. intros f. rewrite (translated_meaning _ _ _ Hw).
    destruct f; cbn [has_bits aarch64_flag_bits forallb]; rewrite ?andb_true_r; try done.
    destruct Hw as [_ Ht]. destruct (Z.testbit flags 22); [by rewrite Ht|done].
Qed.

(** ** Structures that the host fills *)

(** The host filled the buffer of [n] bytes. *)
Definition filled (n : nat) (r : host_reply) : Prop := length (hr_out r) = n /\ Forall (in_width 8) (hr_out r).

(** A call whose buffer is converted and stored at [destination] on success. *)
Lemma fill_run {A} (ct : ctype A) `{!Layout ct} (number : Z) (args : list host_arg) (destination : Z)
    (convert : host_reply -> A) (s : monitor) :
  let c := MkCall number args in
  let r := os (mo_log s) (mo_memory s) (mo_probe s) c in
  (hr_status r = 0 -> c_ok ct (convert r)) -> 0 <= destination -> destination + sizeof ct <= 2 ^ 64 ->
  exists s',
    (r ← call os number args;
     (if hr_status r =? 0 then update_memory (fun m => store_struct ct m destination (convert r)) else mret tt);;
     mret (u64 (hr_status r))) s = (s', Done (u64 (hr_status r))) /\
    mo_log s' = mo_log s ++ [c] /\
    if hr_status r =? 0 then
      load_struct ct (mo_memory s') destination = convert r /\
      (forall a, 0 <= a < 2 ^ 64 -> a < destination \/ destination + sizeof ct <= a -> mo_memory s' a = hr_memory r a)
    else mo_memory s' = hr_memory r.
Proof.
  intros c r Hok Hd He. unfold mbind, M_bind, call. fold c. fold r.
  destruct (Z.eqb_spec (hr_status r) 0) as [E|E]; eexists; (split; [reflexivity|]); cbn; (split; [done|]); [|done].
  split; [by apply load_store_struct; auto|]. intros a Ha Ho. by apply store_struct_outside; auto.
Qed.

Lemma generic_stat_ok (st : x86_stat) : c_ok ct_x86_stat st -> c_ok ct_linux_generic_stat (generic_stat st).
Proof.
  intros H. ok_inv H. unfold ct_linux_generic_stat. ok_split; unfold generic_stat;
    cbn [gs_dev gs_ino gs_mode gs_nlink gs_uid gs_gid gs_rdev gs_size gs_blksize gs_blocks gs_atime_sec gs_atime_nsec
      gs_mtime_sec gs_mtime_nsec gs_ctime_sec gs_ctime_nsec];
    match goal with
    | |- c_ok (c_uint 4) (u32 _) => apply wrap_range; lia
    | |- _ => ok_done
    end.
Qed.

Lemma generic_statfs_ok (st : x86_statfs) : c_ok ct_x86_statfs st -> c_ok ct_linux_generic_statfs (generic_statfs st).
Proof.
  intros H. ok_inv H. unfold ct_linux_generic_statfs. ok_split; unfold generic_statfs;
    cbn [gf_type gf_bsize gf_blocks gf_bfree gf_bavail gf_files gf_ffree gf_fsid gf_namelen gf_frsize gf_flags]; ok_done.
Qed.

(** The host's structure with the values of the guest's. *)
Definition widened_stat (g : poly_linux_generic_stat) : x86_stat :=
  MkX86Stat (gs_dev g) (gs_ino g) (gs_nlink g) (gs_mode g) (gs_uid g) (gs_gid g) (gs_rdev g) (gs_size g) (gs_blksize g)
    (gs_blocks g) (gs_atime_sec g) (gs_atime_nsec g) (gs_mtime_sec g) (gs_mtime_nsec g) (gs_ctime_sec g) (gs_ctime_nsec g).
Definition widened_statfs (g : poly_linux_generic_statfs) : x86_statfs :=
  MkX86Statfs (gf_type g) (gf_bsize g) (gf_blocks g) (gf_bfree g) (gf_bavail g) (gf_files g) (gf_ffree g) (gf_fsid g)
    (gf_namelen g) (gf_frsize g) (gf_flags g).

(** The link count and the block size fit the guest's fields. *)
Definition stat_fits (st : x86_stat) : Prop := st_nlink st < 2 ^ 32 /\ st_blksize st < 2 ^ 32.

Lemma widened_generic_stat (st : x86_stat) : c_ok ct_x86_stat st -> stat_fits st -> widened_stat (generic_stat st) = st.
Proof.
  intros H [Hn Hb]. ok_inv H. unfold widened_stat, generic_stat. destruct st. cbn in *.
  repeat match goal with H : in_width _ _ |- _ => unfold in_width in H; cbn in H end.
  rewrite !wrap_small by (unfold in_width; lia). done.
Qed.

(** [m] makes the call [c] and, when it succeeds, stores the host's structure at
    [destination] in the guest's layout and changes nothing else. *)
Definition reports {A B} (guest : ctype A) (native : ctype B) (widen : A -> B) (m : M Z) (c : host_call)
    (destination : Z) (s : monitor) : Prop :=
  let r := os (mo_log s) (mo_memory s) (mo_probe s) c in
  exists s',
    m s = (s', Done (u64 (hr_status r))) /\ mo_log s' = mo_log s ++ [c] /\
    if hr_status r =? 0 then
      widen (load_struct guest (mo_memory s') destination) = c_read native (hr_out r) /\
      (forall a, 0 <= a < 2 ^ 64 -> a < destination \/ destination + sizeof guest <= a -> mo_memory s' a = hr_memory r a)
    else mo_memory s' = hr_memory r.

(** [fstat], [newfstatat], [statfs] and [fstatfs] report to the guest, in the
    guest's layout, every value that the host reported, and write nothing outside
    the guest's structure; when the call fails nothing is written.  (A link count
    or a block size of 2^32 and more would be cut off.) *)
Theorem stat_translated (number arg0 destination : Z) (before after : list Z) (s : monitor) :
  let reply c := os (mo_log s) (mo_memory s) (mo_probe s) c in
  let stat_call := MkCall number ((Val <$> before) ++ [Out 144] ++ (Val <$> after)) in
  let statfs_call := MkCall number [Val arg0; Out 120; Val 0; Val 0; Val 0; Val 0] in
  0 <= destination -> destination + 128 <= 2 ^ 64 ->
  filled 144 (reply stat_call) -> stat_fits (c_read ct_x86_stat (hr_out (reply stat_call))) ->
  filled 120 (reply statfs_call) ->
  reports ct_linux_generic_stat ct_x86_stat widened_stat (dispatch_stat os number before after destination)
    stat_call destination s /\
  reports ct_linux_generic_statfs ct_x86_statfs widened_statfs (dispatch_statfs os number arg0 destination)
    statfs_call destination s.
Proof.
  intros reply c1 c2 Hd He [Hl1 Hb1] Hf [Hl2 Hb2].
  assert (c_ok ct_x86_stat (c_read ct_x86_stat (hr_out (reply c1)))) as Ho1
    by (apply layout_ok; [done|rewrite Hl1; vm_compute; lia]).
  assert (c_ok ct_x86_statfs (c_read ct_x86_statfs (hr_out (reply c2)))) as Ho2
    by (apply layout_ok; [done|rewrite Hl2; vm_compute; lia]).
  split.
  - destruct (fill_run ct_linux_generic_stat number (hc_args c1) destination
      (fun r => generic_stat (c_read ct_x86_stat (hr_out r))) s) as (s' & Hrun & Hlog & Hm);
      [by intros _; apply generic_stat_ok|done|done|].
    exists s'. split; [exact Hrun|]. split; [done|]. fold c1. destruct (_ =? 0); [|done].
    destruct Hm as [-> Hm]. split; [by apply widened_generic_stat|done].
  - destruct (fill_run ct_linux_generic_statfs number (hc_args c2) destination
      (fun r => generic_statfs (c_read ct_x86_statfs (hr_out r))) s) as (s' & Hrun & Hlog & Hm);
      [by intros _; apply generic_statfs_ok|done|change (sizeof ct_linux_generic_statfs) with 120; lia|].
    exists s'. split; [exact Hrun|]. split; [done|]. fold c2. destruct (_ =? 0); [|done].
    destruct Hm as [-> Hm]. split; [by destruct (c_read ct_x86_statfs _)|done].
Qed.

(** ** Events *)

Lemma stored_events (events : Z) (l : list epoll_event) (m : memory) :
  Forall (c_ok ct_linux_generic_epoll_event) l -> 0 <= events -> events + 16 * Z.of_nat (length l) <= 2 ^ 64 ->
  (forall i e, l !! i = Some e ->
     load_struct ct_linux_generic_epoll_event (store_epoll_events events l m) (events + 16 * Z.of_nat i) = e) /\
  (forall a, 0 <= a < 2 ^ 64 -> a < events \/ events + 16 * Z.of_nat (length l) <= a -> store_epoll_events events l m a = m a).
Proof.
  intros Hl He. induction l as [|e l IH] using rev_ind; intros Hend.
  { split; [done|]. intros a _ _. done. }
  apply Forall_app in Hl as [Hl Hx]. apply Forall_cons in Hx as [Hx _].
  rewrite length_app in Hend. cbn in Hend. destruct IH as [IHl IHm]; [done|lia|].
  unfold store_epoll_events. rewrite imap_app, foldl_app. cbn. fold (store_epoll_events events l m).
  rewrite Nat.add_0_r, wrap_small by (unfold in_width; lia).
  assert (sizeof ct_linux_generic_epoll_event = 16) as Hsz by reflexivity. split.
  - intros i x Hi. apply lookup_app_Some in Hi as [Hi|[Hi Hx']].
    + pose proof (lookup_lt_Some _ _ _ Hi). rewrite <- (IHl i x Hi). unfold poly_store_linux_generic_epoll_event.
      apply load_struct_ext; [lia|rewrite Hsz; lia|]. intros a Ha. rewrite Hsz in Ha.
      apply store_struct_outside; [apply _|done|lia|lia|rewrite Hsz; lia|lia].
    + apply list_lookup_singleton_Some in Hx' as [Hi0 ->].
      replace (events + 16 * Z.of_nat i) with (events + Z.of_nat (length l) * 16) by lia.
      apply load_store_struct; [apply _|done|lia|rewrite Hsz; lia].
  - intros a Ha Ho. rewrite length_app in Ho. cbn in Ho. unfold poly_store_linux_generic_epoll_event.
    rewrite store_struct_outside by (apply _ || done || lia || (rewrite Hsz; lia)). apply IHm; [done|lia].
Qed.

Lemma read_array_lookup {A} (c : ctype A) (n i : nat) : forall bs, (i < n)%nat ->
  read_array c n bs !! i = Some (c_read c (drop (i * c_size c) bs)).
Proof.
  revert i. induction n as [|n IH]; intros i bs Hi; [lia|]. cbn [read_array]. destruct i as [|i]; [by rewrite Nat.mul_0_l|].
  cbn [lookup list_lookup]. rewrite IH by lia. by rewrite drop_drop.
Qed.

Lemma read_array_length {A} (c : ctype A) (n : nat) : forall bs, length (read_array c n bs) = n.
Proof. induction n as [|n IH]; intros bs; [done|]. cbn. by rewrite IH. Qed.

Lemma event_layouts (e : epoll_event) : c_ok ct_x86_epoll_event e -> c_ok ct_linux_generic_epoll_event e.
Proof. intros H. ok_inv H. unfold ct_linux_generic_epoll_event. ok_split; ok_done. Qed.

Lemma events_ok (n : nat) (bs : list Z) : Forall (in_width 8) bs -> (12 * n <= length bs)%nat ->
  Forall (c_ok ct_linux_generic_epoll_event) (read_array ct_x86_epoll_event n bs).
Proof.
  intros Hb Hn. apply (Forall_impl (c_ok ct_x86_epoll_event)); [|apply event_layouts].
  apply (read_array_ok ct_x86_epoll_event n); [done|]. change (c_size ct_x86_epoll_event) with 12%nat. lia.
Qed.

(** When the host reports [n] ready events of at most [maxevents], the guest
    finds exactly these events, in order and with their data, in its own layout
    at [events], nothing outside that array changes, and [n] is the result; when
    the host reports none or an error, nothing is written. *)
Theorem epoll_events_delivered (x86_number epoll_fd events maxevents timeout sigmask sigsetsize : Z) (s : monitor) :
  let c := MkCall x86_number
    [Val epoll_fd; Out (maxevents * 12); Val maxevents; Val timeout; Val sigmask; Val sigsetsize] in
  let r := os (mo_log s) (mo_memory s) (mo_probe s) c in
  0 < maxevents -> malloc_fails (maxevents * 12) = false ->
  0 < events -> events + 16 * maxevents <= 2 ^ 64 ->
  hr_status r <= maxevents -> filled (Z.to_nat (maxevents * 12)) r ->
  exists s',
    poly_dispatch_epoll_wait_events os malloc_fails x86_number epoll_fd events maxevents timeout sigmask sigsetsize s =
      (s', Done (u64 (hr_status r))) /\
    mo_log s' = mo_log s ++ [c] /\
    (forall i, (i < Z.to_nat (hr_status r))%nat ->
       load_struct ct_linux_generic_epoll_event (mo_memory s') (events + 16 * Z.of_nat i) =
       c_read ct_x86_epoll_event (drop (i * 12) (hr_out r))) /\
    (forall a, 0 <= a < 2 ^ 64 -> a < events \/ events + 16 * Z.max 0 (hr_status r) <= a -> mo_memory s' a = hr_memory r a).
Proof.
  intros c r Hmax Hmal Hev Hend Hst [Hlen Hbytes]. unfold poly_dispatch_epoll_wait_events.
  destruct (Z.eqb_spec maxevents 0); [lia|]. destruct (Z.eqb_spec events 0); [lia|].
  destruct (Z.gtb_spec maxevents (SIZE_MAX / 12)) as [Hbig|_].
  { exfalso. assert (SIZE_MAX / 12 = 1537228672809129301) as E by reflexivity. lia. }
  rewrite Hmal. unfold mbind, M_bind, call. fold c. fold r.
  destruct (Z.gtb_spec (hr_status r) 0) as [Hpos|Hneg].
  2:{ eexists. split; [reflexivity|]. split; [done|]. split; [intros i Hi; lia|done]. }
  eexists. split; [reflexivity|]. split; [done|]. cbn [set_mo_memory set_thread mo_memory mo_thread].
  set (count := Z.to_nat (hr_status r)).
  destruct (stored_events events (read_array ct_x86_epoll_event count (hr_out r)) (hr_memory r)) as [Hl Hm];
    [apply events_ok; [done|lia]|lia|rewrite read_array_length; lia|].
  split.
  - intros i Hi. change (i * 12)%nat with (i * c_size ct_x86_epoll_event)%nat. apply Hl. by apply read_array_lookup.
  - intros a Ha Ho. rewrite read_array_length in Hm. apply Hm; [done|]. lia.
Qed.
End Run.
