(* ===== verification/MemCalls.v ===== *)
(** The structured system calls on memory ([tools/runtime/polyexec.c]): the
    program break, which is served from an arena of the monitor's, the mapping
    of code from files, which is copied instead of mapped, and the calls after
    which pages are touched at once.

    [finalizers_active] is [poly_process_exit_finalizers.active] (the monitor
    runs a whole process), [prefault_mmaps] is
    [poly_prefault_guest_mmaps_enabled()].  Copying a file loops until the host
    has delivered it, at most [fuel] times. *)

From S2P Require Import Prelude SyscallMap GuestMemory Seccomp CStruct TrapState SignalFrame HostCalls FileCalls.

Definition EINTR : Z := 4.
Definition INT64_MAX : Z := 2 ^ 63 - 1.
Definition PROT_READ : Z := 1.
Definition PROT_WRITE : Z := 2.
Definition PROT_EXEC : Z := 4.
Definition MAP_PRIVATE : Z := 0x2.
Definition MAP_FIXED : Z := 0x10.
Definition MAP_ANONYMOUS : Z := 0x20.
Definition MAP_POPULATE : Z := 0x8000.
Definition MAP_FIXED_NOREPLACE : Z := 0x100000.
Definition SHM_RDONLY : Z := 0x1000.
Definition IPC_STAT : Z := 2.
Definition ARENA_SIZE : Z := 1024 * 1024.

Definition has (flags bits : Z) : bool := negb (Z.land flags bits =? 0).

(** [(int) x] passed as a register. *)
Definition as_int (x : Z) : Z := u64 (signed 32 x).

(** [memset(address, 0, size)] *)
Definition clear_memory (address size : Z) (m : memory) : memory :=
  fun a => if (address <=? a) && (a <? address + size) then 0 else m a.

Definition poly_prefault (address length : Z) (writable : bool) : M unit :=
  touch (poly_prefault_range address length) writable.

Section Memory.
Context (os : host) (finalizers_active prefault_mmaps : bool) (fuel : nat).

(** ** The program break *)

Definition reset_process_brk_arena : M unit :=
  b ← get mo_brk;
  (if brk_mapping b =? 0 then mret tt
   else _ ← libc os SYS_munmap [Val (brk_mapping b); Val (brk_mapping_size b)]; mret tt);;
  modify (set_brk (MkBrk 0 0 0)).

(** The answer once there is an arena. *)
Definition move_break (requested_break : Z) : M Z :=
  b ← get mo_brk;
  let base := brk_mapping b in
  let limit := u64 (base + brk_mapping_size b) in
  if requested_break =? 0 then mret (brk_current b)
  else if (requested_break <? base) || (requested_break >? limit) then mret (brk_current b)
  else modify (set_brk (MkBrk base (brk_mapping_size b) requested_break));; mret requested_break.

Definition poly_dispatch_process_brk (requested_break : Z) : M Z :=
  b ← get mo_brk;
  if brk_mapping b =? 0 then
    '(_, mapping) ← libc os SYS_mmap [Val 0; Val ARENA_SIZE; Val (Z.lor PROT_READ PROT_WRITE);
                                      Val (Z.lor MAP_PRIVATE MAP_ANONYMOUS); Val (u64 (-1)); Val 0];
    match mapping with
    | inl _ => mret 0
    | inr mapping =>
        update_memory (clear_memory mapping ARENA_SIZE);;
        modify (set_brk (MkBrk mapping ARENA_SIZE mapping));;
        move_break requested_break
    end
  else move_break requested_break.

(** ** Mapping code from a file *)

(** The loop: [None] when it is done, or the result of a failure. *)
Fixpoint copy_file (fuel : nat) (fd mapping length offset available copied : Z) : M (option Z) :=
  if copied <? available then
    match fuel with
    | O => still_running
    | S fuel' =>
        '(_, got) ← libc os SYS_pread64
                      [Val fd; Val (u64 (mapping + copied)); Val (u64 (available - copied)); Val (u64 (offset + copied))];
        match got with
        | inl error =>
            if error =? EINTR then copy_file fuel' fd mapping length offset available copied
            else _ ← libc os SYS_munmap [Val mapping; Val length]; mret (Some (neg_errno error))
        | inr got =>
            if got =? 0 then mret None else copy_file fuel' fd mapping length offset available (copied + got)
        end
    end
  else mret None.

(** The new mapping is filled from the file and gets its protection. *)
Definition fill_mapping (fd mapping length prot offset file_size : Z) : M Z :=
  let available :=
    if offset <? file_size then
      if file_size - offset >? length then length else file_size - offset
    else 0 in
  failure ← copy_file fuel fd mapping length offset available 0;
  match failure with
  | Some result => mret result
  | None =>
      '(_, status) ← libc os SYS_mprotect [Val mapping; Val length; Val (as_int prot)];
      match status with
      | inl error => _ ← libc os SYS_munmap [Val mapping; Val length]; mret (neg_errno error)
      | inr _ => mret mapping
      end
  end.

Definition poly_dispatch_private_exec_file_mmap (address length prot flags fd_arg offset : Z) : M Z :=
  if (length =? 0) || (length >? SIZE_MAX) || (offset >? INT64_MAX) then mret (neg_errno EINVAL)
  else
    let fd := as_int fd_arg in
    '(r, status) ← libc os SYS_fstat [Val fd; Out 144];
    match status with
    | inl error => mret (neg_errno error)
    | inr _ =>
        let file_size := st_size (c_read ct_x86_stat (hr_out r)) in
        if signed 64 file_size <? 0 then mret (neg_errno EINVAL)
        else
          let mmap_flags := Z.lor MAP_PRIVATE MAP_ANONYMOUS in
          let mmap_flags := if has flags MAP_FIXED then Z.lor mmap_flags MAP_FIXED else mmap_flags in
          let mmap_flags := if has flags MAP_FIXED_NOREPLACE then Z.lor mmap_flags MAP_FIXED_NOREPLACE else mmap_flags in
          let load_prot := Z.lor (Z.lor PROT_READ PROT_WRITE) (Z.land prot PROT_EXEC) in
          '(_, mapping) ← libc os SYS_mmap [Val address; Val length; Val load_prot; Val mmap_flags; Val (u64 (-1)); Val 0];
          match mapping with
          | inl error => mret (neg_errno error)
          | inr mapping => fill_mapping fd mapping length prot offset file_size
          end
    end.

(** ** Calls after which pages are touched *)

(** [(int64_t) result >= 0] *)
Definition nonnegative (result : Z) : bool := 0 <=? signed 64 result.

(** Case 196; [shm_segsz] is at offset 48 of [struct shmid_ds]. *)
Definition dispatch_shmat (arg0 arg1 arg2 : Z) : M Z :=
  result ← poly_x86_syscall6 os SYS_shmat [arg0; arg1; arg2; 0; 0; 0];
  (if finalizers_active && nonnegative result then
     r ← call os SYS_shmctl [Val arg0; Val IPC_STAT; Out 112; Val 0; Val 0; Val 0];
     let segment_size := le_value (take 8 (drop 48 (hr_out r))) in
     poly_prefault result (if (hr_status r =? 0) && (segment_size >? 0) then segment_size else 1)
       (negb (has arg2 SHM_RDONLY))
   else mret tt);;
  mret result.

(** Case 216 *)
Definition dispatch_mremap (arg0 arg1 arg2 arg3 arg4 arg5 : Z) : M (option Z) :=
  if negb finalizers_active then mret None
  else
    result ← poly_x86_syscall6 os SYS_mremap [arg0; arg1; arg2; arg3; arg4; arg5];
    (if nonnegative result then poly_prefault result arg2 true else mret tt);;
    mret (Some result).

(** Case 226 *)
Definition dispatch_mprotect (arg0 arg1 arg2 : Z) : M (option Z) :=
  if negb finalizers_active then mret None
  else
    result ← poly_x86_syscall6 os SYS_mprotect [arg0; arg1; arg2; 0; 0; 0];
    (if (result =? 0) && has arg2 (Z.lor PROT_READ (Z.lor PROT_WRITE PROT_EXEC))
     then poly_prefault arg0 arg1 (has arg2 PROT_WRITE) else mret tt);;
    mret (Some result).

(** How much of a mapping is touched: not behind the end of a file. *)
Definition mmap_prefault_length (flags length fd offset : Z) : M Z :=
  if negb (has flags MAP_ANONYMOUS) && nonnegative fd then
    '(r, status) ← libc os SYS_fstat [Val (as_int fd); Out 144];
    let file_size := st_size (c_read ct_x86_stat (hr_out r)) in
    match status with
    | inl _ => mret length
    | inr _ =>
        if signed 64 file_size <? 0 then mret length
        else if offset >=? file_size then mret 0
        else mret (if file_size - offset <? length then file_size - offset else length)
    end
  else mret length.

(** Case 222 *)
Definition dispatch_mmap (arg0 arg1 arg2 arg3 arg4 arg5 : Z) : M Z :=
  if finalizers_active && has arg2 PROT_EXEC && has arg3 MAP_PRIVATE && negb (has arg3 MAP_ANONYMOUS) && nonnegative arg4
  then poly_dispatch_private_exec_file_mmap arg0 arg1 arg2 arg3 arg4 arg5
  else
    let flags := if prefault_mmaps && has arg2 PROT_WRITE then Z.lor arg3 MAP_POPULATE else arg3 in
    result ← poly_x86_syscall6 os SYS_mmap [arg0; arg1; arg2; flags; arg4; arg5];
    (if finalizers_active && prefault_mmaps && nonnegative result &&
        has arg2 (Z.lor PROT_READ (Z.lor PROT_WRITE PROT_EXEC))
     then
       length ← mmap_prefault_length flags arg1 arg4 arg5;
       poly_prefault result length (has arg2 PROT_WRITE)
     else mret tt);;
    mret result.
End Memory.
