(* ===== verification/MemProps.v ===== *)
(** What the structured system calls on memory promise ([MemCalls]): the program
    break behaves as an abstract one inside its arena, and code mapped from a
    file is a copy of the file. *)

From S2P Require Import Prelude SyscallMap GuestMemory Seccomp CStruct TrapState SignalFrame HostCalls FileCalls FileProps MemCalls.

(** ** The program break *)

(** The abstract break: a position that moves to every place inside the arena
    that is asked for; the answer is the position. *)
Fixpoint breaks (base current : Z) (requests : list Z) : list Z :=
  match requests with
  | [] => []
  | x :: requests =>
      let current := if (base <=? x) && (x <=? base + ARENA_SIZE) then x else current in
      current :: breaks base current requests
  end.

(** A sequence of calls. *)
Fixpoint call_breaks (os : host) (requests : list Z) : M (list Z) :=
  match requests with
  | [] => mret []
  | x :: requests =>
      answer ← poly_dispatch_process_brk os x;
      answers ← call_breaks os requests;
      mret (answer :: answers)
  end.

(** The call that makes the arena. *)
Definition arena_call : host_call :=
  MkCall SYS_mmap [Val 0; Val ARENA_SIZE; Val (Z.lor PROT_READ PROT_WRITE); Val (Z.lor MAP_PRIVATE MAP_ANONYMOUS);
                   Val (u64 (-1)); Val 0].

(** An arena at [base] with the break at [current]. *)
Definition arena_at (base current : Z) (s : monitor) : Prop :=
  mo_brk s = MkBrk base ARENA_SIZE current /\ 0 < base /\ base + ARENA_SIZE < 2 ^ 64 /\
  base <= current <= base + ARENA_SIZE.

Section Break.
Context (os : host).

Lemma move_break_run (base current x : Z) (s : monitor) : arena_at base current s -> 0 <= x ->
  let current' := if (base <=? x) && (x <=? base + ARENA_SIZE) then x else current in
  exists s', move_break x s = (s', Done current') /\ arena_at base current' s' /\
    mo_memory s' = mo_memory s /\ mo_log s' = mo_log s.
Proof.
  intros (Hb & Hpos & Hend & Hc) Hx. unfold move_break, mbind, M_bind, get. rewrite Hb. cbn [brk_mapping brk_mapping_size brk_current].
  rewrite wrap_small by (unfold in_width, ARENA_SIZE in *; lia).
  destruct (Z.eqb_spec x 0) as [->|Hx0].
  { destruct (Z.leb_spec base 0); [lia|]. exists s. by split_and!. }
  rewrite Z.gtb_ltb. destruct (Z.ltb_spec x base), (Z.ltb_spec (base + ARENA_SIZE) x), (Z.leb_spec base x),
    (Z.leb_spec x (base + ARENA_SIZE)); try lia; cbn [orb andb]; eexists; (split; [reflexivity|]); by split_and!.
Qed.

Lemma brk_run (base current x : Z) (s : monitor) : arena_at base current s ->
  poly_dispatch_process_brk os x s = move_break x s.
Proof.
  intros (Hb & Hpos & _). unfold poly_dispatch_process_brk, mbind, M_bind, get. rewrite Hb. cbn [brk_mapping].
  destruct (Z.eqb_spec base 0); [lia|done].
Qed.

Lemma breaks_run (base : Z) (requests : list Z) : forall current s, arena_at base current s ->
  Forall (fun x => 0 <= x) requests ->
  exists s', call_breaks os requests s = (s', Done (breaks base current requests)) /\
    mo_memory s' = mo_memory s /\ mo_log s' = mo_log s.
Proof.
  induction requests as [|x l IH]; intros current s Ha Hl; [by exists s|]. apply Forall_cons in Hl as [Hx Hl].
  cbn [call_breaks breaks]. destruct (move_break_run base current x s Ha Hx) as (s1 & H1 & Ha1 & Hm1 & Hl1).
  destruct (IH _ s1 Ha1 Hl) as (s2 & H2 & Hm2 & Hl2). exists s2. unfold mbind, M_bind.
  rewrite (brk_run base current x s Ha), H1, H2. split; [done|]. split; congruence.
Qed.

(** C19: From the first call of [brk] on, whatever sequence of breaks the guest
    asks for, the answers are those of the abstract break that starts at the
    arena's base: the break moves to every address inside the arena that is
    asked for and to no other.  The host is asked for memory once, and the arena
    starts as zeros; later calls touch no memory (so a part that was given back
    keeps its contents when it is asked for again). *)
Theorem brk_refines_break (x : Z) (requests : list Z) (s : monitor) (base : Z) :
  let r := os (mo_log s) (mo_memory s) (mo_probe s) arena_call in
  brk_mapping (mo_brk s) = 0 -> hr_status r = base -> 0 < base -> base + ARENA_SIZE < 2 ^ 64 ->
  Forall (fun y => 0 <= y) (x :: requests) ->
  exists s', call_breaks os (x :: requests) s = (s', Done (breaks base base (x :: requests))) /\
    mo_log s' = mo_log s ++ [arena_call] /\
    mo_memory s' = clear_memory base ARENA_SIZE (hr_memory r).
Proof.
  intros r Hb Hr Hpos Hend Hl. apply Forall_cons in Hl as [Hx Hl].
  set (s0 := set_brk (MkBrk base ARENA_SIZE base)
    (set_mo_memory (clear_memory base ARENA_SIZE (hr_memory r)) (after_call arena_call r s))).
  assert (arena_at base base s0) as Ha by (split; [done|unfold ARENA_SIZE in *; lia]).
  assert (poly_dispatch_process_brk os x s = move_break x s0) as Hfirst.
  { unfold poly_dispatch_process_brk. unfold get. unfold mbind at 1, M_bind at 1. rewrite Hb. cbn [Z.eqb].
    rewrite (bind_run _ _ _ _ _ (libc_run os _ _ s)). fold arena_call. fold r. rewrite Hr.
    rewrite libc_result_ok by (unfold ARENA_SIZE in *; lia). done. }
  destruct (move_break_run base base x s0 Ha Hx) as (s1 & H1 & Ha1 & Hm1 & Hl1).
  destruct (breaks_run base requests _ s1 Ha1 Hl) as (s2 & H2 & Hm2 & Hl2).
  exists s2. cbn [call_breaks breaks]. unfold mbind, M_bind. rewrite Hfirst, H1, H2. split; [done|].
  split; [by rewrite Hl2, Hl1|by rewrite Hm2, Hm1].
Qed.
End Break.

(** ** Code mapped from a file *)

(** What is assumed of the host about the file [file] behind [fd]: [fstat] gives
    its size, [pread] delivers at least a byte of what is left (or an error that
    is not an interruption) and stores it at the address, an anonymous mapping
    lies inside the address space, and changing its protection does not change
    its contents. *)
Record file_host (os : host) (fd : Z) (file : list Z) : Prop := {
  fh_fstat log m p : let r := os log m p (MkCall SYS_fstat [Val fd; Out 144]) in
    -4095 <= hr_status r < 0 \/
    hr_status r = 0 /\ st_size (c_read ct_x86_stat (hr_out r)) = Z.of_nat (length file);
  fh_mmap log m p address length prot flags :
    let r := os log m p (MkCall SYS_mmap [Val address; Val length; Val prot; Val flags; Val (u64 (-1)); Val 0]) in
    -4095 <= hr_status r < 0 \/ 0 <= hr_status r /\ hr_status r + length <= 2 ^ 64;
  fh_pread log m p buffer n offset :
    let r := os log m p (MkCall SYS_pread64 [Val fd; Val buffer; Val n; Val offset]) in
    let got := hr_status r in
    (-4095 <= got < 0 /\ got <> - EINTR) \/
    (0 <= got <= n /\ got <= Z.max 0 (Z.of_nat (length file) - offset) /\
     (got = 0 -> n = 0 \/ Z.of_nat (length file) <= offset) /\
     hr_memory r = store_bytes m buffer (take (Z.to_nat got) (drop (Z.to_nat offset) file)));
  fh_mprotect log m p args : hr_memory (os log m p (MkCall SYS_mprotect args)) = m;
}.

Lemma libc_result_error (status : Z) : -4095 <= status < 0 -> libc_result status = inl (- status).
Proof. intros H. unfold libc_result. destruct (Z.leb_spec (-4095) status), (Z.ltb_spec status 0); done || lia. Qed.

(** The first [n] bytes of the mapping are those of the file. *)
Definition copied_prefix (m : memory) (mapping : Z) (file : list Z) (offset : Z) (n : nat) : Prop :=
  load m mapping n = take n (drop (Z.to_nat offset) file).

Lemma copied_prefix_step (m : memory) (mapping offset : Z) (file : list Z) (n k : nat) :
  0 <= mapping -> mapping + Z.of_nat (n + k) <= 2 ^ 64 -> 0 <= offset ->
  (n + k <= length file - Z.to_nat offset)%nat ->
  copied_prefix m mapping file offset n ->
  copied_prefix (store_bytes m (mapping + Z.of_nat n) (take k (drop (Z.to_nat (offset + Z.of_nat n)) file)))
    mapping file offset (n + k).
Proof.
  unfold copied_prefix. intros Hm Hend Ho Hk Hn. set (bs := take k _).
  assert (length bs = k) as Hl by (unfold bs; rewrite length_take, length_drop; lia).
  pose proof (load_store m (mapping + Z.of_nat n) bs ltac:(lia) ltac:(rewrite Hl; lia)) as Hld. rewrite Hl in Hld.
  rewrite load_app, Hld.
  replace (load (store_bytes m _ bs) mapping n) with (load m mapping n).
  2:{ unfold load. apply list_fmap_ext. intros i x Hx. apply lookup_seq in Hx as [-> Hx].
      rewrite wrap_small by (unfold in_width; lia). symmetry. apply store_outside; rewrite ?Hl; lia. }
  rewrite Hn. unfold bs. replace (Z.to_nat (offset + Z.of_nat n)) with (Z.to_nat offset + n)%nat by lia.
  rewrite <- drop_drop. by rewrite take_take_drop.
Qed.

Section Copy.
Context (os : host) (fd : Z) (file : list Z) (Hhost : file_host os fd file).
Context (mapping length offset available : Z).
Context (Hm : 0 <= mapping) (Hend : mapping + available <= 2 ^ 64) (Ho : 0 <= offset)
  (Hav : available <= Z.max 0 (Z.of_nat (List.length file) - offset)) (Hoff : offset + available <= 2 ^ 63).

(** The loop ends, with the whole file in the mapping or with an error. *)
Lemma copy_file_run (fuel : nat) : forall copied s,
  0 <= copied <= available -> available - copied < Z.of_nat fuel + 1 ->
  copied_prefix (mo_memory s) mapping file offset (Z.to_nat copied) ->
  exists s' failure, copy_file os fuel fd mapping length offset available copied s = (s', Done failure) /\
    match failure with
    | None => copied_prefix (mo_memory s') mapping file offset (Z.to_nat available)
    | Some result => exists error, 0 < error <= 4095 /\ result = neg_errno error
    end.
Proof using Hhost Hm Hend Ho Hav Hoff.
  induction fuel as [|fuel IH]; intros copied s Hc Hf Hp; cbn [copy_file].
  { destruct (Z.ltb_spec copied available); [lia|]. exists s, None. split; [done|]. by replace available with copied by lia. }
  destruct (Z.ltb_spec copied available) as [Hlt|Hge].
  2:{ exists s, None. split; [done|]. by replace available with copied by lia. }
  rewrite (bind_run _ _ _ _ _ (libc_run os _ _ s)).
  rewrite !wrap_small by (unfold in_width; lia).
  set (c := MkCall _ _). set (r := os _ _ _ c).
  pose proof (fh_pread _ _ _ Hhost (mo_log s) (mo_memory s) (mo_probe s) (mapping + copied) (available - copied)
    (offset + copied)) as Hpread. cbv zeta in Hpread. fold c in Hpread. fold r in Hpread.
  destruct Hpread as [[Hr Hne]|(Hr & Hleft & Hzero & Hmem)].
  - rewrite libc_result_error by done. destruct (Z.eqb_spec (- hr_status r) EINTR); [lia|].
    eexists _, _. split; [reflexivity|]. exists (- hr_status r). split; [lia|done].
  - rewrite libc_result_ok by lia. destruct (Z.eqb_spec (hr_status r) 0) as [E|E].
    { exfalso. destruct (Hzero E); lia. }
    apply IH; [lia|lia|].
    replace (Z.to_nat (copied + hr_status r)) with (Z.to_nat copied + Z.to_nat (hr_status r))%nat by lia.
    change (mo_memory (after_call c r s)) with (hr_memory r). rewrite Hmem.
    replace (mapping + copied) with (mapping + Z.of_nat (Z.to_nat copied)) by lia.
    replace (offset + copied) with (offset + Z.of_nat (Z.to_nat copied)) by lia.
    apply copied_prefix_step; [done|lia|done|lia|done].
Qed.
End Copy.

(** The bytes of the file that a mapping of [length] bytes from [offset] on shows. *)
Definition visible (file : list Z) (offset length : Z) : list Z :=
  take (Z.to_nat length) (drop (Z.to_nat offset) file).

Definition is_error (result : Z) : Prop := exists error, 0 < error <= 4095 /\ result = neg_errno error.

Lemma is_error_status (status : Z) : -4095 <= status < 0 -> is_error (neg_errno (- status)).
Proof. intros H. exists (- status). split; [lia|done]. Qed.

Section Mapping.
Context (os : host) (fuel : nat) (fd : Z) (file : list Z) (Hhost : file_host os fd file).
Context (Hfile : Z.of_nat (List.length file) < 2 ^ 63).

Lemma fill_mapping_run (mapping length prot offset : Z) (s : monitor) :
  0 <= mapping -> mapping + length <= 2 ^ 64 -> 0 < length < 2 ^ 63 -> length < Z.of_nat fuel -> 0 <= offset < 2 ^ 63 ->
  exists s' result, fill_mapping os fuel fd mapping length prot offset (Z.of_nat (List.length file)) s = (s', Done result) /\
    (is_error result \/
     load (mo_memory s') result (List.length (visible file offset length)) = visible file offset length).
Proof using Hhost Hfile.
  intros Hpos Hend Hlen Hfuel Hoff. unfold fill_mapping. rewrite Z.gtb_ltb. set (available := if offset <? _ then _ else _).
  assert (0 <= available <= length /\ available <= Z.max 0 (Z.of_nat (List.length file) - offset) /\
    offset + available <= 2 ^ 63 /\ Z.of_nat (List.length (visible file offset length)) = available) as (Ha1 & Ha2 & Ha3 & Ha4).
  { unfold available, visible. rewrite length_take, length_drop.
    destruct (Z.ltb_spec offset (Z.of_nat (List.length file))); [|lia].
    destruct (Z.ltb_spec length (Z.of_nat (List.length file) - offset)); lia. }
  destruct (copy_file_run os fd file Hhost mapping length offset available Hpos ltac:(lia) ltac:(lia) Ha2 Ha3
    fuel 0 s ltac:(lia) ltac:(lia) eq_refl) as (s2 & failure & Hcopy & Hres).
  rewrite (bind_run _ _ _ _ _ Hcopy). destruct failure as [result|]; [eexists _, _; split; [reflexivity|by left]|].
  rewrite (bind_run _ _ _ _ _ (libc_run os _ _ _)). cbn beta. set (r3 := os _ _ _ _).
  unfold libc_result. destruct (_ && _) eqn:Eerr.
  { apply andb_prop in Eerr as [?%Z.leb_le ?%Z.ltb_lt]. eexists _, _. split; [reflexivity|]. left. by apply is_error_status. }
  eexists _, _. split; [reflexivity|]. right.
  change (mo_memory (after_call _ r3 s2)) with (hr_memory r3). unfold r3. rewrite (fh_mprotect _ _ _ Hhost).
  unfold copied_prefix in Hres. rewrite <- Ha4, Nat2Z.id in Hres. rewrite Hres. unfold visible.
  rewrite length_take, <- take_take. by rewrite firstn_all.
Qed.
End Mapping.


(** ** Prefaulting after [mremap] *)

(** Every page of the new range is written back, whatever its protection: for a
    read-only mapping the monitor itself faults. *)
Lemma mremap_writes_back (os : host) (arg0 arg1 arg2 arg3 arg4 arg5 : Z) (s : monitor) :
  let c := MkCall SYS_mremap (Val <$> [arg0; arg1; arg2; arg3; arg4; arg5]) in
  let r := os (mo_log s) (mo_memory s) (mo_probe s) c in
  0 < hr_status r < 2 ^ 63 -> 0 < arg2 <= SIZE_MAX ->
  exists s', dispatch_mremap os true arg0 arg1 arg2 arg3 arg4 arg5 s = (s', Done (Some (hr_status r))) /\
    (hr_status r, true) ∈ mo_touched s'.
Proof.
  intros c r Hr Hl. unfold dispatch_mremap, poly_x86_syscall6. cbn [negb].
  rewrite (bind_run _ _ _ (after_call c r s) (hr_status r)).
  2:{ rewrite (bind_run _ _ _ _ _ (call_run os _ _ s)). fold c r. unfold mret, M_ret. f_equal. f_equal. apply wrap_small.
      unfold in_width. lia. }
  assert (nonnegative (hr_status r) = true) as ->.
  { unfold nonnegative, signed. rewrite wrap_small by (unfold in_width; lia).
    destruct (Z.ltb_spec (hr_status r) (2 ^ (64 - 1))); [apply Z.leb_le|]; lia. }
  eexists. split; [reflexivity|]. cbn [set_touched mo_touched]. apply elem_of_app. right.
  apply list_elem_of_fmap. exists (hr_status r). split; [done|]. unfold poly_prefault_range. rewrite Z.gtb_ltb.
  destruct (Z.eqb_spec (hr_status r) 0), (Z.eqb_spec arg2 0), (Z.ltb_spec SIZE_MAX arg2); try lia. cbn [orb].
  apply elem_of_app. left. apply list_elem_of_fmap. exists 0%nat. split; [lia|]. apply elem_of_seq.
  assert (1 <= (arg2 + 4095) / 4096) by (apply Z.div_le_lower_bound; lia). lia.
Qed.
