(* ===== verification/StructuredCalls.v ===== *)
(** The system calls that the monitor handles itself
    ([poly_handle_structured_foreign_syscall] of [tools/runtime/polyexec.c]). *)

From S2P Require Import Prelude SyscallMap GuestMemory GuestSignals Seccomp CStruct TrapState SignalFrame HostCalls FileCalls MemCalls.

Definition POLY_RISCV_SYS_HWPROBE : Z := 258.
Definition ITIMER_REAL : Z := 0.

(** The settings of a run: those of the signals, whether a whole process is run
    ([poly_process_exit_finalizers.active]), the switches that are read from the
    environment, the path of the program and the monitor's own
    environment. *)
Record run_settings : Type := MkRun {
  rs_signals : settings;
  rs_finalizers_active : bool;
  rs_prefault_mmaps : bool;
  rs_disable_io_uring : bool;
  rs_disable_rseq : bool;
  rs_run_finalizers : bool;
  rs_syscall_summary : bool;
  rs_clone_native_tls : bool;
  rs_explicit_state_key : bool;
  (** [process_cross_report_path] *)
  rs_report_path : option (list Z);
  (** [environ] *)
  rs_environ : list (list Z);
}.

Section Structured.
Context (os : host) (signal_os : host_os) (cfg : run_settings) (malloc_fails : Z -> bool) (fuel : nat).

Abbreviation protect_signals := (polyexec_protect_runtime_signals (rs_signals cfg)).
Abbreviation is_protected := (poly_is_protected_runtime_signal (rs_signals cfg)).
Abbreviation active := (rs_finalizers_active cfg).

(** An operation on the signals of the thread. *)
Definition with_signals (f : mem_probe -> signals -> signals * Z) : M Z := fun s =>
  let '(signals, result) := f (mo_probe s) (th_signals (mo_thread s)) in
  (set_thread (set_signals signals (mo_thread s)) s, Done result).

Definition with_thread (f : mem_probe -> thread -> thread * Z) : M Z := fun s =>
  let '(t, result) := f (mo_probe s) (mo_thread s) in (set_thread t s, Done result).

Definition handled (m : M Z) : M (option Z) := result ← m; mret (Some result).
Definition unhandled : M (option Z) := mret None.

(** Cases 102 and 103: the timer that the monitor does not let the guest use
    reads as zero. *)
Definition dispatch_itimer (mode which value : Z) : M (option Z) :=
  if poly_is_raw_foreign_mode mode && protect_signals && (which =? ITIMER_REAL) then
    if value =? 0 then mret (Some 0)
    else
      probe ← get mo_probe;
      if negb (poly_guest_range_is_mapped probe value 32 true) then mret (Some (neg_errno EFAULT))
      else update_memory (fun m => store_bytes m value (repeat 0 32));; mret (Some 0)
  else unhandled.

(** Case 133 *)
Definition dispatch_sigsuspend (set sigsetsize : Z) : M Z :=
  request ← get (fun s => poly_dispatch_rt_sigsuspend (mo_probe s) (rs_signals cfg) set sigsetsize (th_signals (mo_thread s)));
  match request with
  | inl result => mret result
  | inr host_set =>
      r ← call os SYS_rt_sigsuspend [In (le_bytes 8 host_set); Val sigsetsize; Val 0; Val 0; Val 0; Val 0];
      mret (u64 (hr_status r))
  end.

(** Cases 129 to 131: a protected signal is not sent. *)
Definition dispatch_send (mode signum : Z) : M (option Z) :=
  if poly_is_raw_foreign_mode mode && is_protected signum then mret (Some 0) else unhandled.

Definition poly_handle_structured_foreign_syscall (number mode arg0 arg1 arg2 arg3 arg4 arg5 : Z) : M (option Z) :=
  match number with
  | 21 => handled (dispatch_epoll_ctl os arg0 arg1 arg2 arg3)
  | 22 => handled (poly_dispatch_epoll_wait_events os malloc_fails SYS_epoll_pwait arg0 arg1 arg2 arg3 arg4 arg5)
  | 29 => dispatch_ioctl os arg0 arg1 arg2
  | 441 => handled (poly_dispatch_epoll_wait_events os malloc_fails SYS_epoll_pwait2 arg0 arg1 arg2 arg3 arg4 arg5)
  | 43 => handled (dispatch_statfs os SYS_statfs arg0 arg1)
  | 44 => handled (dispatch_statfs os SYS_fstatfs arg0 arg1)
  | 56 => handled (dispatch_openat os mode arg0 arg1 arg2 arg3)
  | 437 => handled (dispatch_openat2 os malloc_fails mode arg0 arg1 arg2 arg3)
  | 61 => handled (dispatch_getdents64 os malloc_fails arg0 arg1 arg2)
  | 79 => handled (dispatch_stat os SYS_newfstatat [arg0; arg1] [arg3; 0; 0] arg2)
  | 80 => handled (dispatch_stat os SYS_fstat [arg0] [0; 0; 0; 0] arg1)
  | 102 => dispatch_itimer mode arg0 arg1
  | 103 => dispatch_itimer mode arg0 arg2
  | 132 =>
      if (mode =? POLY_MODE_RAW_AARCH64) || (mode =? POLY_MODE_RAW_RISCV)
      then handled (with_thread (fun probe => poly_dispatch_guest_sigaltstack probe mode arg0 arg1)) else unhandled
  | 133 =>
      if poly_is_raw_foreign_mode mode && protect_signals then handled (dispatch_sigsuspend arg0 arg1) else unhandled
  | 134 =>
      handled (with_signals (fun probe =>
        poly_dispatch_rt_sigaction probe signal_os (rs_signals cfg) mode arg0 arg1 arg2 arg3))
  | 135 =>
      if negb (poly_is_raw_foreign_mode mode) || negb protect_signals then unhandled
      else handled (with_signals (fun probe =>
        poly_dispatch_rt_sigprocmask probe signal_os (rs_signals cfg) arg0 arg1 arg2 arg3))
  | 129 => dispatch_send mode arg1
  | 130 => dispatch_send mode arg1
  | 131 => dispatch_send mode arg2
  | 160 => handled (dispatch_uname os mode arg0)
  | 258 =>
      if negb (mode =? POLY_MODE_RAW_RISCV) then unhandled
      else handled (poly_dispatch_riscv_hwprobe arg0 arg1 arg2 arg3 arg4)
  | 214 => if negb active then unhandled else handled (poly_dispatch_process_brk os arg0)
  | 196 => handled (dispatch_shmat os active arg0 arg1 arg2)
  | 216 => dispatch_mremap os active arg0 arg1 arg2 arg3 arg4 arg5
  | 226 => dispatch_mprotect os active arg0 arg1 arg2
  | 222 => handled (dispatch_mmap os active (rs_prefault_mmaps cfg) fuel arg0 arg1 arg2 arg3 arg4 arg5)
  | _ => unhandled
  end.
End Structured.
