(* ===== verification/CallBehaviour.v ===== *)
(** What the structured system calls can do to the host: none of them sends a
    signal, and none of them ends the thread, the process or the program. *)

From S2P Require Import Prelude SyscallMap GuestMemory GuestSignals Seccomp CStruct TrapState SignalFrame HostCalls FileCalls MemCalls StructuredCalls.

(** The calls that send a signal to a thread or a process by number. *)
Definition sending_calls : list Z := [SYS_kill; SYS_tkill; SYS_tgkill].
Definition sends_nothing (c : host_call) : Prop := hc_number c ∉ sending_calls.

Lemma sends_nothing_call (number : Z) (args : list host_arg) :
  bool_decide (number ∈ sending_calls) = false -> sends_nothing (MkCall number args).
Proof. by intros ?%bool_decide_eq_false. Qed.
#[export] Hint Extern 1 (sends_nothing (MkCall _ _)) => (apply sends_nothing_call; reflexivity) : host_calls.

Definition never (x : leave) : Prop := False.
Abbreviation quiet := (behaves sends_nothing never).

Section Quiet.
Context (os : host) (signal_os : host_os) (cfg : run_settings) (malloc_fails : Z -> bool) (fuel : nat).

Lemma with_signals_quiet (f : mem_probe -> signals -> signals * Z) : quiet (with_signals f).
Proof. apply behaves_silent; intros s; unfold with_signals; by destruct (f _ _). Qed.

Lemma with_thread_quiet (f : mem_probe -> thread -> thread * Z) : quiet (with_thread f).
Proof. apply behaves_silent; intros s; unfold with_thread; by destruct (f _ _). Qed.

Lemma handled_quiet (m : M Z) : quiet m -> quiet (handled m).
Proof. intros H. unfold handled. by behaviour. Qed.

Lemma update_memory_quiet (f : memory -> memory) : quiet (update_memory f).
Proof. by apply behaves_silent. Qed.
End Quiet.
#[export] Hint Resolve with_signals_quiet with_thread_quiet handled_quiet update_memory_quiet : host_calls.

(** Unfolds an operation and steps through it. *)
Ltac quietly := repeat autounfold with operations; by behaviour.

Create HintDb operations.
#[export] Hint Unfold poly_translate_open_flags poly_open_target_is_directory dispatch_statfs dispatch_stat dispatch_openat
  dispatch_openat2 dispatch_getdents64 dispatch_epoll_ctl poly_dispatch_epoll_wait_events dispatch_ioctl dispatch_uname
  poly_dispatch_riscv_hwprobe move_break poly_dispatch_process_brk fill_mapping poly_dispatch_private_exec_file_mmap
  poly_prefault dispatch_shmat dispatch_mremap dispatch_mprotect mmap_prefault_length dispatch_mmap dispatch_itimer
  dispatch_sigsuspend dispatch_send unhandled : operations.

Lemma with_signals_stops (f : mem_probe -> signals -> signals * Z) : stops (with_signals f).
Proof. intros s. unfold with_signals. by destruct (f _ _). Qed.

Lemma with_thread_stops (f : mem_probe -> thread -> thread * Z) : stops (with_thread f).
Proof. intros s. unfold with_thread. by destruct (f _ _). Qed.
#[export] Hint Resolve with_signals_stops with_thread_stops : host_calls.

Section Structured.
Context (os : host) (signal_os : host_os) (cfg : run_settings) (malloc_fails : Z -> bool) (fuel : nat).

Lemma copy_file_quiet (n : nat) (fd mapping length offset available : Z) : forall copied,
  quiet (copy_file os n fd mapping length offset available copied).
Proof. induction n as [|n IH]; intros copied; cbn [copy_file]; by behaviour. Qed.
Hint Resolve copy_file_quiet : host_calls.

(** No structured call sends a signal or leaves the monitor. *)
Lemma structured_quiet (number mode arg0 arg1 arg2 arg3 arg4 arg5 : Z) :
  quiet (poly_handle_structured_foreign_syscall os signal_os cfg malloc_fails fuel number mode arg0 arg1 arg2 arg3 arg4
           arg5).
Proof.
  unfold poly_handle_structured_foreign_syscall.
  repeat match goal with
  | |- quiet (match ?x with _ => _ end) => is_var x; destruct x; try apply behaves_ret
  end.
  all: repeat match goal with |- quiet (if ?b then _ else _) => destruct b end.
  all: try apply handled_quiet.
  all: try apply behaves_ret; quietly.
Qed.

(** Only the mapping of a file ([mmap]) can go on: while the host interrupts the
    reads. *)
Lemma structured_stops (number mode arg0 arg1 arg2 arg3 arg4 arg5 : Z) : number <> 222 ->
  stops (poly_handle_structured_foreign_syscall os signal_os cfg malloc_fails fuel number mode arg0 arg1 arg2 arg3 arg4
           arg5).
Proof.
  intros Hn. unfold poly_handle_structured_foreign_syscall.
  repeat match goal with
  | |- stops (match ?x with _ => _ end) => is_var x; destruct x; try apply stops_ret
  end.
  all: try (by destruct Hn).
  all: unfold handled, update_memory; repeat autounfold with operations; unfold update_memory; stopping.
Qed.

(** The numbers with a case of their own. *)
Definition structured_numbers : list Z :=
  [21; 22; 29; 441; 43; 44; 56; 437; 61; 79; 80; 102; 103; 132; 133; 134; 135; 129; 130; 131; 160; 258; 214; 196; 216; 226;
   222].

Lemma structured_other (number mode arg0 arg1 arg2 arg3 arg4 arg5 : Z) : number ∉ structured_numbers ->
  poly_handle_structured_foreign_syscall os signal_os cfg malloc_fails fuel number mode arg0 arg1 arg2 arg3 arg4 arg5 =
    unhandled.
Proof.
  intros Hn. unfold poly_handle_structured_foreign_syscall.
  repeat match goal with
  | |- match ?x with _ => _ end = _ => is_var x; destruct x; try reflexivity
  end.
  all: exfalso; apply Hn; apply (bool_decide_unpack _); vm_compute; exact I.
Qed.

(** A signal that the monitor needs for itself is not sent. *)
Lemma structured_send (number mode arg0 arg1 arg2 arg3 arg4 arg5 : Z) : number ∈ [129; 130; 131] ->
  poly_handle_structured_foreign_syscall os signal_os cfg malloc_fails fuel number mode arg0 arg1 arg2 arg3 arg4 arg5 =
    dispatch_send cfg mode (if number =? 131 then arg2 else arg1).
Proof. intros H. repeat (apply elem_of_cons in H as [-> | H]; [done|]). by apply elem_of_nil in H. Qed.
End Structured.
