(* ===== verification/TrapEvent.v ===== *)
(** How an event of a guest reaches the monitor ([tools/runtime/polyexec.c]):
    the frames in which the processor reports it, the packet that is made of
    them, and the books that the monitor keeps about events (counters, the
    summary of system calls, and what it remembers about standard input). *)

From S2P Require Import Prelude SyscallMap GuestMemory Seccomp CStruct TrapState SignalFrame TrapReturn HostCalls.

Definition POLY_TRAP_IMPORT : Z := 3.
Definition POLY_V2_EVENT_MAGIC : Z := 0x32545645594c4f50.
Definition POLY_V2_EVENT_VERSION : Z := 2.
Definition POLY_V2_EVENT_BYTES : Z := 512.
Definition POLY_V2_EVENT_HEADER_BYTES : Z := 16.
Definition POLY_V2_EVENT_ARG_COUNT : Z := 8.
Definition POLY_V2_EVENT_KIND_SYSCALL : Z := 1.
Definition POLY_V2_EVENT_KIND_BREAK : Z := 2.
Definition POLY_V2_EVENT_KIND_IMPORT : Z := 3.
Definition POLY_V2_EVENT_KIND_ILLEGAL : Z := 4.
Definition POLY_V2_MONITOR_ENTRY_DESC_MAGIC : Z := 0x324e4f4d594c4f50.
Definition POLY_MONITOR_ENTRY_FRAME_BYTES : Z := 160.
Definition POLYEXEC_SYSCALL_SUMMARY_MAX : Z := 512.
Definition F_DUPFD : Z := 0.
Definition F_DUPFD_CLOEXEC : Z := 1030.
Definition STDIN_FILENO : Z := 0.

(** ** Frames *)

Record poly_v2_event_frame : Type := MkEventFrame {
  ef_magic : Z;
  ef_bytes : Z;
  ef_version : Z;
  ef_header_bytes : Z;
  ef_sequence : Z;
  ef_frontend : Z;
  ef_event_kind : Z;
  ef_event_subkind : Z;
  ef_flags : Z;
  ef_completion : Z;
  ef_resume_policy : Z;
  ef_arg_count : Z;
  ef_insn_pc : Z;
  ef_resume_pc : Z;
  ef_fallthrough_pc : Z;
  ef_target_pc : Z;
  ef_foreign_sp : Z;
  ef_foreign_tls : Z;
  ef_frontend_status0 : Z;
  ef_frontend_status1 : Z;
  ef_selector : Z;
  ef_args : list Z;
  ef_fault_address : Z;
  ef_fault_status : Z;
  ef_raw_syndrome : Z;
  ef_host_error_code : Z;
  ef_side_effect_class : Z;
  ef_memory_order_class : Z;
  ef_result_register : Z;
  ef_error_convention : Z;
  ef_spill_descriptor : Z;
  ef_spill_generation : Z;
  ef_monitor_cookie : Z;
  ef_state_key : Z;
  ef_arch_private : list Z;
  ef_reserved : list Z;
}.

Record poly_monitor_entry_frame : Type := MkEntryFrame {
  mf_magic : Z;
  mf_bytes : Z;
  mf_sequence : Z;
  mf_old_rsp : Z;
  mf_old_r11 : Z;
  mf_reason_mode : Z;
  mf_number : Z;
  mf_pc : Z;
  mf_next_pc : Z;
  mf_selector : Z;
  mf_args : list Z;
  mf_reserved : list Z;
}.

(** The result of reading the thread's event frame: 0 without one, -1 for one
    that is not valid, 1 otherwise. *)
Definition read_poly_v2_event_frame (src : poly_v2_event_frame) : Z :=
  if ef_magic src =? 0 then 0
  else if negb (ef_magic src =? POLY_V2_EVENT_MAGIC) || negb (ef_bytes src =? POLY_V2_EVENT_BYTES) ||
          negb (ef_version src =? POLY_V2_EVENT_VERSION) ||
          negb (ef_header_bytes src =? POLY_V2_EVENT_HEADER_BYTES) ||
          negb (ef_arg_count src =? POLY_V2_EVENT_ARG_COUNT) then -1
  else 1.

Definition poly_v2_event_reason (event_kind : Z) : option Z :=
  if event_kind =? POLY_V2_EVENT_KIND_SYSCALL then Some POLY_TRAP_SYSCALL
  else if event_kind =? POLY_V2_EVENT_KIND_BREAK then Some POLY_TRAP_BREAK
  else if event_kind =? POLY_V2_EVENT_KIND_IMPORT then Some POLY_TRAP_IMPORT
  else if event_kind =? POLY_V2_EVENT_KIND_ILLEGAL then Some POLY_TRAP_ILLEGAL
  else None.

Definition packet_flags : Z := Z.lor POLY_EVENT_RECORD_REQUIRED_FLAGS POLY_EVENT_RECORD_FLAG_TRAP_RETURN_RESTORE.

(** The packet and the sequence number to remember; [None]: refused. *)
Definition poly_v2_event_to_runtime_packet (event : poly_v2_event_frame) : option (poly_runtime_event_record * Z) :=
  match poly_v2_event_reason (ef_event_kind event) with
  | None => None
  | Some reason =>
      if (ef_sequence event =? 0) || (ef_resume_pc event =? 0) || negb (poly_is_raw_foreign_mode (ef_frontend event))
      then None
      else Some (MkPacket reason (ef_frontend event) (ef_selector event) (ef_fault_status event) (ef_insn_pc event)
                   (ef_resume_pc event) packet_flags [0; 0] (ef_args event), ef_sequence event)
  end.

Definition poly_monitor_entry_frame_to_runtime_packet (frame : option poly_monitor_entry_frame)
    : option (poly_runtime_event_record * Z) :=
  match frame with
  | None => None
  | Some f =>
      let mode := u32 (Z.shiftr (mf_reason_mode f) 32) in
      if negb (mf_magic f =? POLY_V2_MONITOR_ENTRY_DESC_MAGIC) || (mf_bytes f <? POLY_MONITOR_ENTRY_FRAME_BYTES) ||
         (mf_sequence f =? 0) || (mf_next_pc f =? 0) || negb (poly_is_raw_foreign_mode mode) then None
      else Some (MkPacket (u32 (mf_reason_mode f)) mode (mf_number f) (mf_selector f) (mf_pc f) (mf_next_pc f)
                   packet_flags [0; 0] (mf_args f), mf_sequence f)
  end.

(** The packet of an event: from the event frame if it is valid, otherwise from
    the frame of the monitor entry. *)
Definition event_packet (event : poly_v2_event_frame) (entry : option poly_monitor_entry_frame)
    : option (poly_runtime_event_record * Z) :=
  let has_v2_event := read_poly_v2_event_frame event in
  match (if has_v2_event <=? 0 then None else poly_v2_event_to_runtime_packet event) with
  | Some p => Some p
  | None => poly_monitor_entry_frame_to_runtime_packet entry
  end.

(** ** Counters *)

Definition bump (n : Z) : Z := u64 (n + 1).

(** The counter of the packet's kind. *)
Definition count_event (packet : poly_runtime_event_record) (c : event_counts) : event_counts :=
  let '(MkCounts n a64 rv ba br im il ot) := c in
  let reason := pk_reason packet in
  let mode := pk_mode packet in
  if (reason =? POLY_TRAP_SYSCALL) && (mode =? POLY_MODE_RAW_AARCH64) then MkCounts (bump n) (bump a64) rv ba br im il ot
  else if (reason =? POLY_TRAP_SYSCALL) && (mode =? POLY_MODE_RAW_RISCV)
  then MkCounts (bump n) a64 (bump rv) ba br im il ot
  else if (reason =? POLY_TRAP_BREAK) && (mode =? POLY_MODE_RAW_AARCH64)
  then MkCounts (bump n) a64 rv (bump ba) br im il ot
  else if (reason =? POLY_TRAP_BREAK) && (mode =? POLY_MODE_RAW_RISCV) then MkCounts (bump n) a64 rv ba (bump br) im il ot
  else if reason =? POLY_TRAP_IMPORT then MkCounts (bump n) a64 rv ba br (bump im) il ot
  else if reason =? POLY_TRAP_ILLEGAL then MkCounts (bump n) a64 rv ba br im (bump il) ot
  else MkCounts (bump n) a64 rv ba br im il (bump ot).

Definition bump_at (index : Z) (f : Z -> Z) : Z -> Z := fun i => if i =? index then bump (f i) else f i.

(** A negative [int64_t]. *)
Definition is_negative (result : Z) : bool := signed 64 result <? 0.

Definition poly_record_syscall_result (enabled : bool) (packet : poly_runtime_event_record) (x86_number result : Z)
    (u : syscall_summary) : syscall_summary :=
  if negb enabled || negb (pk_reason packet =? POLY_TRAP_SYSCALL) then u
  else
    let number := pk_number packet in
    let failed := is_negative result in
    let listed := (pk_mode packet =? POLY_MODE_RAW_AARCH64) && (number <? POLYEXEC_SYSCALL_SUMMARY_MAX) in
    MkSummary (bump (su_total u)) (if failed then bump (su_errors u) else su_errors u)
      (if listed then bump_at number (su_aarch64 u) else su_aarch64 u)
      (if listed && failed then bump_at number (su_error_aarch64 u) else su_error_aarch64 u)
      (if (0 <=? x86_number) && (x86_number <? POLYEXEC_SYSCALL_SUMMARY_MAX) then bump_at x86_number (su_x86 u)
       else su_x86 u).

(** ** Standard input *)

Definition poly_fd_returning_x86_syscall (x86_number : Z) : bool :=
  bool_decide (x86_number ∈ [SYS_accept; SYS_accept4; SYS_epoll_create1; SYS_eventfd2; SYS_inotify_init1;
    SYS_memfd_create; SYS_openat; SYS_openat2; SYS_pidfd_open; SYS_socket; SYS_timerfd_create]).

Definition poly_clear_stdin_tiocgwinsz_cache (w : winsz_cache) : winsz_cache :=
  MkWinsz false (wz_hits w) (wz_misses w).

(** A call that may have given descriptor 0 another meaning ends what the
    monitor remembers about it. *)
Definition poly_note_syscall_fd_effect (packet : poly_runtime_event_record) (x86_number result : Z) (w : winsz_cache)
    : winsz_cache :=
  let number := pk_number packet in
  let a0 := arg packet 0 in
  let a1 := arg packet 1 in
  let cleared := poly_clear_stdin_tiocgwinsz_cache w in
  if negb (wz_enotty w) || is_negative result then w
  else if ((number =? 57) || (x86_number =? SYS_close)) && (a0 =? STDIN_FILENO) then cleared
  else if ((number =? 436) || (x86_number =? SYS_close_range)) && (a0 <=? STDIN_FILENO) && (a1 >=? STDIN_FILENO) then cleared
  else if (number =? 23) || (x86_number =? SYS_dup) || poly_fd_returning_x86_syscall x86_number || (number =? 20) ||
          (number =? 26) || (number =? 56) || (number =? 198) || (number =? 437) then
    if result =? STDIN_FILENO then cleared else w
  else if (number =? 24) || (x86_number =? SYS_dup3) then
    if (a1 =? STDIN_FILENO) || (result =? STDIN_FILENO) then cleared else w
  else if ((number =? 25) || (x86_number =? SYS_fcntl)) && ((a1 =? F_DUPFD) || (a1 =? F_DUPFD_CLOEXEC)) &&
          (result =? STDIN_FILENO) then cleared
  else if (number =? 59) || (x86_number =? SYS_pipe2) then cleared
  else w.

(** ** What every packet satisfies *)

(** A packet that the dispatch can be entered with. *)
Record packet_ok (packet : poly_runtime_event_record) : Prop := {
  po_mode : poly_is_raw_foreign_mode (pk_mode packet) = true;
  po_next_pc : pk_next_pc packet <> 0;
  po_flags : pk_flags packet = packet_flags;
}.

Lemma event_packet_ok (event : poly_v2_event_frame) (entry : option poly_monitor_entry_frame)
    (packet : poly_runtime_event_record) (sequence : Z) :
  event_packet event entry = Some (packet, sequence) -> packet_ok packet /\ sequence <> 0.
Proof.
  unfold event_packet, poly_v2_event_to_runtime_packet, poly_monitor_entry_frame_to_runtime_packet.
  destruct (if _ : bool then _ else _) as [p|] eqn:E.
  - intros [= ->]. destruct (_ <=? 0); [done|]. destruct (poly_v2_event_reason _) as [reason|]; [|done].
    destruct (Z.eqb_spec (ef_sequence event) 0); [done|]. destruct (Z.eqb_spec (ef_resume_pc event) 0); [done|].
    destruct (poly_is_raw_foreign_mode (ef_frontend event)) eqn:Em; cbn in E; simplify_eq. split; [by split|done].
  - clear E. destruct entry as [f|]; [|done]. destruct (negb (mf_magic f =? _)), (mf_bytes f <? _); try done.
    destruct (Z.eqb_spec (mf_sequence f) 0); [done|]. destruct (Z.eqb_spec (mf_next_pc f) 0); [done|].
    destruct (poly_is_raw_foreign_mode _) eqn:Em; cbn; [|done]. intros [= <- <-]. split; [by split|done].
Qed.
