(* ===== verification/CloneCalls.v ===== *)
(** New threads and processes of a guest ([tools/runtime/polyexec.c]): the clone
    system call, the block of memory that hands the guest's state over to the
    new host thread, its copy of the native thread-local storage, and the entry
    of the new thread.

    Whether a run is the parent or the child is decided by the host's reply to
    the clone call, as on the host: 0 is the child. *)

From S2P Require Import Prelude SyscallMap GuestMemory Seccomp CStruct TrapState SignalFrame TrapReturn HostCalls FileCalls MemCalls StructuredCalls.

Definition SYS_arch_prctl : Z := 158.
Definition ARCH_GET_FS : Z := 0x1003.
Definition CLONE_VM : Z := 0x100.
Definition CLONE_VFORK : Z := 0x4000.
Definition CLONE_THREAD : Z := 0x10000.
Definition CLONE_SETTLS : Z := 0x80000.
Definition POLY_CLONE_MONITOR_STACK_SIZE : Z := 256 * 1024.
Definition POLY_CLONE_VFORK_FOREIGN_STACK_SIZE : Z := 256 * 1024.
Definition POLY_CLONE_NATIVE_TLS_BEFORE : Z := 256 * 1024.
Definition POLY_CLONE_NATIVE_TLS_AFTER : Z := 256 * 1024.
Definition POLY_CLONE_NATIVE_TLS_PAGE : Z := 4096.
Definition POLY_V2_DERIVE_FLAG_CHILD_TLS : Z := 0x2.
Definition POLY_V2_DERIVE_FLAG_REPLACE_STATE_KEY : Z := 0x20.

(** ** The handoff block *)

Definition ct_runtime_event_record : ctype poly_runtime_event_record :=
  c_struct (fun x => (pk_reason x, pk_mode x, pk_number x, pk_selector x, pk_pc x, pk_next_pc x, pk_flags x,
    pk_reserved x, pk_args x))
    (fun '(a, b, c, d, e, f, g, h, i) => MkPacket a b c d e f g h i)
    (c_u64 ** c_u64 ** c_u64 ** c_u64 ** c_u64 ** c_u64 ** c_u64 ** c_array 2 c_u64 ** c_array 8 c_u64)%cstruct.

(** [struct poly_clone_child_handoff]; the state starts at a multiple of 64. *)
Record poly_clone_child_handoff : Type := MkHandoff {
  ho_packet : poly_runtime_event_record; ho_state : poly_xsave_state; ho_state_key_anchor : Z;
  ho_native_tls_mapping : Z; ho_native_tls_mapping_size : Z; ho_native_tls_base : Z; ho_mapping : Z;
  ho_mapping_size : Z; ho_foreign_stack : Z; ho_foreign_tls : Z;
}.
Definition ct_clone_child_handoff : ctype poly_clone_child_handoff :=
  c_struct (fun x => (ho_packet x, tt, ho_state x, ho_state_key_anchor x, tt, ho_native_tls_mapping x,
    ho_native_tls_mapping_size x, ho_native_tls_base x, ho_mapping x, ho_mapping_size x, ho_foreign_stack x,
    ho_foreign_tls x))
    (fun '(a, _, b, c, _, d, e, f, g, h, i, j) => MkHandoff a b c d e f g h i j)
    (ct_runtime_event_record ** c_pad 56 ** ct_xsave_state ** c_uint 1 ** c_pad 7 ** c_u64 ** c_u64 ** c_u64 ** c_u64 **
      c_u64 ** c_u64 ** c_u64)%cstruct.

Definition HANDOFF_BYTES : Z := 8448.
Definition ANCHOR_OFFSET : Z := 8384.
Definition HANDOFF_MAPPING_SIZE : Z := HANDOFF_BYTES + POLY_CLONE_MONITOR_STACK_SIZE + 64.

#[export] Instance ct_runtime_event_record_layout : Layout ct_runtime_event_record := _.
#[export] Instance ct_clone_child_handoff_layout : Layout ct_clone_child_handoff := _.

Lemma handoff_layout :
  sizeof ct_clone_child_handoff = HANDOFF_BYTES /\
  sizeof ct_runtime_event_record + 56 + sizeof ct_xsave_state = ANCHOR_OFFSET.
Proof. split; vm_compute; reflexivity. Qed.

(** [memcpy(destination, source, size)] of areas that do not overlap *)
Definition copy_memory (destination source size : Z) (m : memory) : memory :=
  fun a => if (destination <=? a) && (a <? destination + size) then m (source + (a - destination)) else m a.

(** ** The native thread-local storage *)

Definition TLS_MAPPING_SIZE : Z := POLY_CLONE_NATIVE_TLS_BEFORE + POLY_CLONE_NATIVE_TLS_AFTER.

(** The first loop: the pages around the parent's thread pointer that are mapped. *)
Definition copy_tls_page (probe : mem_probe) (mapping source_base : Z) (m : memory) (page : nat) : memory :=
  let offset := POLY_CLONE_NATIVE_TLS_PAGE * Z.of_nat page in
  let source := u64 (source_base + offset) in
  if (source_base =? 0) || (source <? source_base) then m
  else if poly_guest_range_is_mapped probe source POLY_CLONE_NATIVE_TLS_PAGE false
  then copy_memory (mapping + offset) source POLY_CLONE_NATIVE_TLS_PAGE m
  else m.

Definition copy_tls_pages (probe : mem_probe) (mapping source_base : Z) (m : memory) : memory :=
  foldl (copy_tls_page probe mapping source_base) m (seq 0 (Z.to_nat (TLS_MAPPING_SIZE / POLY_CLONE_NATIVE_TLS_PAGE))).

(** The second loop: a word that points into the parent's window is moved. *)
Definition rehome (mapping source_base word : Z) : Z :=
  let source_end := u64 (source_base + TLS_MAPPING_SIZE) in
  if (source_base <=? word) && (word <? source_end) then u64 (mapping + (word - source_base)) else word.

Definition rehome_slot (mapping source_base : Z) (m : memory) (n : nat) : memory :=
  let slot := mapping + 8 * Z.of_nat n in
  store_u64 m slot (rehome mapping source_base (load_u64 m slot)).

Definition rehome_slots (mapping source_base : Z) (m : memory) : memory :=
  foldl (rehome_slot mapping source_base) m (seq 0 (Z.to_nat (TLS_MAPPING_SIZE / 8))).

(** The words of the thread control block. *)
Definition set_tcb (mapping source_base : Z) (m : memory) : memory :=
  let base := mapping + POLY_CLONE_NATIVE_TLS_BEFORE in
  let m := store_u64 m base base in
  let m := store_u64 m (base + 8) (rehome mapping source_base (load_u64 m (base + 8))) in
  store_u64 m (base + 16) base.

Section Clone.
Context (os : host) (cfg : run_settings).
Context (derive : poly_xsave_state -> poly_v2_derive_descriptor -> Z * poly_xsave_state).
(** The child's instructions and preparations succeed: setting the state key,
    [install_poly_signal_diagnostics] and registering the monitor entry. *)
Context (key_accepted : Z -> bool) (diagnostics_installed entry_accepted : bool).

Definition map_anonymous (size : Z) : M (Z + Z) :=
  '(_, mapping) ← libc os SYS_mmap [Val 0; Val size; Val (Z.lor PROT_READ PROT_WRITE);
                                    Val (Z.lor MAP_PRIVATE MAP_ANONYMOUS); Val (u64 (-1)); Val 0];
  mret mapping.

Definition unmap (address size : Z) : M unit := _ ← libc os SYS_munmap [Val address; Val size]; mret tt.

Definition get_x86_fs_base : M Z :=
  r ← call os SYS_arch_prctl [Val ARCH_GET_FS; Out 8];
  mret (if hr_status r <? 0 then 0 else le_value (take 8 (hr_out r))).

(** [None]: the function fails. *)
Definition poly_prepare_vfork_foreign_stack (original_stack : Z) : M (option Z) :=
  probe ← get mo_probe;
  if negb (poly_guest_range_is_mapped probe original_stack 16 false) then mret None
  else
    mapping ← map_anonymous POLY_CLONE_VFORK_FOREIGN_STACK_SIZE;
    match mapping with
    | inl _ => mret None
    | inr mapping =>
        let stack_top := without (mapping + POLY_CLONE_VFORK_FOREIGN_STACK_SIZE) 0xf in
        let child_stack := stack_top - 16 in
        update_memory (fun m => store_bytes m child_stack (load m original_stack 16));;
        mret (Some child_stack)
    end.

(** Mapping, its size and the thread pointer, all 0 when there is none. *)
Definition poly_prepare_clone_native_tls : M (option (Z * Z * Z)) :=
  parent_fs ← get_x86_fs_base;
  if parent_fs =? 0 then mret (Some (0, 0, 0))
  else
    mapping ← map_anonymous TLS_MAPPING_SIZE;
    match mapping with
    | inl _ => mret None
    | inr mapping =>
        let source_base := if parent_fs >=? POLY_CLONE_NATIVE_TLS_BEFORE
                           then parent_fs - POLY_CLONE_NATIVE_TLS_BEFORE else 0 in
        update_memory (clear_memory mapping TLS_MAPPING_SIZE);;
        probe ← get mo_probe;
        update_memory (copy_tls_pages probe mapping source_base);;
        update_memory (rehome_slots mapping source_base);;
        update_memory (set_tcb mapping source_base);;
        mret (Some (mapping, TLS_MAPPING_SIZE, mapping + POLY_CLONE_NATIVE_TLS_BEFORE))
    end.

(** The stack pointer of the child: the one asked for, or the parent's. *)
Definition child_frontend_stack (mode foreign_stack : Z) (trap_state : poly_xsave_state) : Z :=
  let restore := xs_trap_restore trap_state in
  let saved bank live :=
    if negb (Z.land (tr_flags restore) POLY_TRAP_RESTORE_FLAG_VALID =? 0) && negb (bank =? 0) then bank else live in
  if negb (foreign_stack =? 0) then foreign_stack
  else if mode =? POLY_MODE_RAW_AARCH64 then
    saved (nth 31 (tr_aarch64_gpr restore) 0) (nth 31 (xs_aarch64_gpr trap_state) 0)
  else if mode =? POLY_MODE_RAW_RISCV then
    saved (nth 2 (tr_riscv_gpr restore) 0) (nth 2 (xs_riscv_gpr trap_state) 0)
  else foreign_stack.

(** What the child's state is derived with. *)
Definition child_descriptor (packet : poly_runtime_event_record) (child_sp foreign_tls handoff : Z)
    : poly_v2_derive_descriptor :=
  let d := poly_init_derive_descriptor (pk_mode packet) in
  let flags := foldl Z.lor 0
    [POLY_V2_DERIVE_FLAG_CHILD_RETURN; POLY_V2_DERIVE_FLAG_CHILD_PC; POLY_V2_DERIVE_FLAG_CLEAR_EVENT_STATE] in
  let flags := if child_sp =? 0 then flags else Z.lor flags POLY_V2_DERIVE_FLAG_CHILD_SP in
  let flags := if foreign_tls =? 0 then flags else Z.lor flags POLY_V2_DERIVE_FLAG_CHILD_TLS in
  let flags := if rs_explicit_state_key cfg then Z.lor flags POLY_V2_DERIVE_FLAG_REPLACE_STATE_KEY else flags in
  MkDerive (dd_magic d) (dd_bytes d) (dd_version d) (dd_header_bytes d) flags (dd_frontend d) child_sp foreign_tls 0
    (dd_parent_return_value d) (if rs_explicit_state_key cfg then handoff + ANCHOR_OFFSET else dd_state_key d)
    (pk_next_pc packet) (dd_event_reason d) (dd_event_number d) (dd_event_selector d) (dd_event_flags d)
    (dd_event_args d).

(** The derived state is made ready: nothing of the parent's trap return or of
    its return stacks is left. *)
Definition child_state (packet : poly_runtime_event_record) (s : poly_xsave_state) : poly_xsave_state :=
  let s := MkXsave (xs_header s) (xs_event_record s) (xs_event_args s) (xs_transition s) (xs_aarch64_gpr s)
    (xs_aarch64_fp s) (xs_aarch64_status s) (xs_riscv_gpr s) (xs_riscv_fp s) (xs_riscv_status s) (xs_import_return s)
    (xs_abi_signature s) (xs_cross_return s) (xs_frontend_tls s) (xs_landing_policy s) (xs_state_key s)
    (repeat 0 160) (zeroed ct_trap_restore_state) (xs_native_return s) (xs_reserved s) in
  let s := poly_clear_return_transition_state s in
  set_xs_header (set_hd_reserved0 0 (set_hd_current_mode (u32 (pk_mode packet)) (xs_header s))) s.

Record clone_plan : Type := MkPlan {
  cp_handoff : Z;
  cp_native_tls_base : Z;
  cp_native_child_stack : Z;
}.

Definition poly_prepare_clone_child_handoff (packet : poly_runtime_event_record) (trap_state : poly_xsave_state)
    (foreign_stack foreign_tls : Z) : M (option clone_plan) :=
  mapping ← map_anonymous HANDOFF_MAPPING_SIZE;
  match mapping with
  | inl _ => mret None
  | inr handoff =>
      update_memory (clear_memory handoff HANDOFF_BYTES);;
      tls ← (if rs_clone_native_tls cfg then poly_prepare_clone_native_tls else mret (Some (0, 0, 0)));
      match tls with
      | None => unmap handoff HANDOFF_MAPPING_SIZE;; mret None
      | Some (tls_mapping, tls_size, tls_base) =>
          let block state mapping size stack tls :=
            MkHandoff packet state 0 tls_mapping tls_size tls_base mapping size stack tls in
          update_memory (fun m => store_struct ct_clone_child_handoff m handoff (block (zeroed ct_xsave_state) 0 0 0 0));;
          let '(status, state) := derive trap_state
            (child_descriptor packet (child_frontend_stack (pk_mode packet) foreign_stack trap_state) foreign_tls handoff) in
          if negb (status =? 0) then unmap handoff HANDOFF_MAPPING_SIZE;; mret None
          else
            update_memory (fun m => store_struct ct_clone_child_handoff m handoff
              (block (child_state packet state) handoff HANDOFF_MAPPING_SIZE foreign_stack foreign_tls));;
            let stack_top := without (handoff + HANDOFF_MAPPING_SIZE) 0xf in
            update_memory (fun m => store_u64 m (stack_top - 8) handoff);;
            mret (Some (MkPlan handoff tls_base (stack_top - 8)))
      end
  end.

(** ** The child *)

(** The derived state is given to the processor.  The monitor's caches of its own
    stacks are not part of the model; whether its signal handlers could be installed
    and its entry registered for the new thread are parameters. *)
Definition poly_clone_child_entry (handoff : Z) : M trap_exit :=
  if handoff =? 0 then leaves (ExitProcess 127)
  else
    h ← get (fun s => load_struct ct_clone_child_handoff (mo_memory s) handoff);
    let key := sk_explicit_key (xs_state_key (ho_state h)) in
    if rs_explicit_state_key cfg && ((key =? 0) || negb (key_accepted key)) then leaves (ExitProcess 125)
    else if negb diagnostics_installed || negb entry_accepted then leaves (ExitProcess 125)
    else
      let state := poly_sanitize_trap_state_for_import (ho_state h) in
      update_memory (fun m => store_struct ct_clone_child_handoff m handoff
        (MkHandoff (ho_packet h) state (ho_state_key_anchor h) (ho_native_tls_mapping h) (ho_native_tls_mapping_size h)
           (ho_native_tls_base h) (ho_mapping h) (ho_mapping_size h) (ho_foreign_stack h) (ho_foreign_tls h)));;
      match poly_activate_state_with_pderive derive state with
      | Some state => mret (Enter state)
      | None => leaves (ExitProcess 125)
      end.

(** The host call.  The parent gets the result; the child takes the handoff from
    the top of its stack and enters. *)
Definition poly_x86_clone_monitor_child (flags child_stack parent_tid child_tid tls handoff : Z) : M (Z + trap_exit) :=
  r ← call os SYS_clone [Val flags; Val child_stack; Val parent_tid; Val child_tid; Val tls; Val handoff];
  if hr_status r =? 0 then
    pointer ← get (fun s => load_u64 (mo_memory s) child_stack);
    exit ← poly_clone_child_entry pointer;
    mret (inr exit)
  else mret (inl (u64 (hr_status r))).

(** ** The system call *)

(** A guest vfork: the child runs on a stack of its own while it shares the memory. *)
Definition vfork_with_stack (flags stack : Z) : bool :=
  negb (stack =? 0) && has flags CLONE_VM && has flags CLONE_VFORK && negb (has flags CLONE_THREAD).

(** The part of the dispatch for [clone]: the result for the guest, or how the
    child starts. *)
Definition dispatch_clone (packet : poly_runtime_event_record) (trap_state : option poly_xsave_state) : M (Z + trap_exit) :=
  let guest_clone_flags := arg packet 0 in
  let foreign_stack := arg packet 1 in
  let foreign_tls := if has guest_clone_flags CLONE_SETTLS then arg packet 3 else 0 in
  let child_tid := arg packet 4 in
  stack ← (if vfork_with_stack guest_clone_flags foreign_stack then poly_prepare_vfork_foreign_stack foreign_stack
           else mret (Some foreign_stack));
  match stack, trap_state with
  | Some stack, Some trap_state =>
      plan ← poly_prepare_clone_child_handoff packet trap_state stack foreign_tls;
      match plan with
      | None => mret (inl (neg_errno ENOMEM))
      | Some plan =>
          let base := cp_native_tls_base plan in
          let host_clone_flags := if base =? 0 then without guest_clone_flags CLONE_SETTLS
                                  else Z.lor guest_clone_flags CLONE_SETTLS in
          poly_x86_clone_monitor_child host_clone_flags (cp_native_child_stack plan) (arg packet 2) child_tid
            (if has host_clone_flags CLONE_SETTLS then base else 0) (cp_handoff plan)
      end
  | _, _ => mret (inl (neg_errno ENOMEM))
  end.
End Clone.
