(* ===== verification/ExecveCall.v ===== *)
(** Replacing the guest's program ([poly_handle_raw_aarch64_execve] of
    [tools/runtime/polyexec.c]): a program for AArch64 is run by a new monitor,
    which gets the program's path, the guest's arguments and its environment.

    [stale_errno] is [errno] as the last library call that failed left it. *)

From stdpp Require Import strings.
From S2P Require Import Prelude SyscallMap GuestMemory GuestSignals Seccomp LoaderBase BridgeSpec SignalFrame TrapReturn HostCalls FileCalls StructuredCalls.

(** The library's [open] and [readlink]. *)
Definition SYS_open : Z := 2.
Definition SYS_readlink : Z := 89.
Definition PATH_MAX : Z := 4096.
Definition EHDR_BYTES : Z := 64.
Definition EM_AARCH64 : Z := 183.

(** ** Strings *)

(** The bytes of a string and what follows them, [n] of them. *)
Definition string_bytes (m : memory) (s : c_string) (n : nat) : list Z :=
  match s with
  | GuestString address => load m address n
  | OwnString bytes => take n (bytes ++ repeat 0 n)
  end.

(** [strncmp(s, prefix, strlen(prefix)) == 0] *)
Definition has_prefix (m : memory) (s : c_string) (prefix : list Z) : bool :=
  bool_decide (string_bytes m s (length prefix) = prefix).

(** [strcmp(s, text) == 0] *)
Definition string_is (m : memory) (s : c_string) (text : list Z) : bool := has_prefix m s (text ++ [0]).

(** [strnlen(s, limit)] *)
Fixpoint string_length (m : memory) (address : Z) (limit : nat) : nat :=
  match limit with
  | O => 0
  | S limit => if m (u64 address) =? 0 then 0 else S (string_length m (address + 1) limit)
  end.

(** The part after the last slash. *)
Fixpoint basename (path : list Z) : list Z :=
  match path with
  | [] => []
  | b :: rest => if bool_decide (47 ∈ rest) then basename rest else if b =? 47 then rest else b :: rest
  end.

(** A vector of pointers up to the null pointer, which must be among the first
    [limit] entries. *)
Fixpoint read_vector (m : memory) (address : Z) (limit : nat) : option (list Z) :=
  match limit with
  | O => None
  | S limit =>
      let value := load_u64 m address in
      if value =? 0 then Some [] else cons value <$> read_vector m (address + 8) limit
  end.

Section Execve.
Context (os : host) (cfg : run_settings) (stale_errno : Z).

(** ** The program *)

Definition is_null (path : c_string) : bool :=
  match path with GuestString a => a =? 0 | OwnString _ => false end.

(** The header of an ELF file for AArch64. *)
Definition aarch64_header (ehdr : list Z) : bool :=
  bool_decide (take 4 ehdr = [127; 69; 76; 70]) && (nth 4 ehdr 0 =? 2) && (nth 5 ehdr 0 =? 1) &&
  (le_value (take 2 (drop 18 ehdr)) =? EM_AARCH64).

Definition poly_path_is_aarch64_elf (path : c_string) : M bool :=
  m ← get mo_memory;
  if is_null path || has_prefix m path [0] then mret false
  else
    '(_, fd) ← libc os SYS_open [Str path; Val O_CLOEXEC];
    match fd with
    | inl _ => mret false
    | inr fd =>
        '(r, n) ← libc os SYS_read [Val fd; Out EHDR_BYTES; Val EHDR_BYTES];
        _ ← libc os SYS_close [Val fd];
        mret (match n with
              | inr n => (n =? EHDR_BYTES) && aarch64_header (take (Z.to_nat EHDR_BYTES) (hr_out r))
              | inl _ => false
              end)
    end.

Definition poly_path_is_monitor_self_exec (path : c_string) : M bool :=
  m ← get mo_memory;
  if is_null path || has_prefix m path [0] then mret false
  else if string_is m path (bytes_of_string "/proc/self/exe") || string_is m path (bytes_of_string "/proc/thread-self/exe") ||
          string_is m path (bytes_of_string "/usr/bin/polyexec") then mret true
  else
    '(r, n) ← libc os SYS_readlink
                [Str (OwnString (bytes_of_string "/proc/self/exe")); Out (PATH_MAX - 1); Val (PATH_MAX - 1)];
    m ← get mo_memory;
    mret (match n with
          | inr n => negb (n =? 0) && string_is m path (c_str (take (Z.to_nat n) (hr_out r)))
          | inl _ => false
          end).

Definition poly_process_report_path_is (base_name : list Z) : bool :=
  match rs_report_path cfg with
  | None => false
  | Some path => bool_decide (basename path = base_name)
  end.

Definition poly_resolve_aarch64_execve_program (path : c_string) : M (option c_string) :=
  direct ← poly_path_is_aarch64_elf path;
  if direct : bool then mret (Some path)
  else
    match rs_report_path cfg with
    | None => mret None
    | Some report =>
        own ← poly_path_is_aarch64_elf (OwnString report);
        if negb own then mret None
        else
          self ← poly_path_is_monitor_self_exec path;
          if self : bool then mret (Some (OwnString report))
          else
            m ← get mo_memory;
            mret (if poly_process_report_path_is (bytes_of_string "runc") && string_is m path (bytes_of_string "init")
                  then Some (OwnString report) else None)
    end.

(** ** Arguments and environment *)

(** [None]: the function fails, with the [errno] that is then in effect. *)
Definition poly_count_guest_argv (m : memory) (argv_addr : Z) : Z + list Z :=
  if argv_addr =? 0 then inl stale_errno
  else match read_vector m argv_addr 4096 with Some l => inr l | None => inl E2BIG end.

Definition new_argv (exec_path : c_string) (argv : list Z) : list c_string :=
  [OwnString (bytes_of_string "/usr/bin/polyexec"); OwnString (bytes_of_string "--process"); exec_path] ++
  (GuestString <$> drop 1 argv).

(** The loop that counts the environment. *)
Definition old_envp (m : memory) (envp_addr : Z) : option (list c_string) :=
  if envp_addr =? 0 then
    if (length (rs_environ cfg) <=? 4096)%nat then Some (OwnString <$> rs_environ cfg) else None
  else match read_vector m envp_addr 4097 with Some l => Some (GuestString <$> l) | None => None end.

Definition poly_env_entry_has_key (m : memory) (key : list Z) (env : c_string) : bool :=
  has_prefix m env (key ++ [61]).

Definition poly_env_has_key (m : memory) (envp : list c_string) (key : list Z) : bool :=
  existsb (poly_env_entry_has_key m key) envp.

Definition GUEST_ARGV0 : list Z := bytes_of_string "POLYEXEC_GUEST_ARGV0".

(** The variable that carries the guest's own name of the program. *)
Definition guest_argv0_env (m : memory) (argv : list Z) : list c_string :=
  match argv with
  | [] => []
  | argv0 :: _ =>
      let n := string_length m argv0 4096 in
      if (n <? 4096)%nat then [OwnString (GUEST_ARGV0 ++ [61] ++ load m argv0 n)] else []
  end.

Definition new_envp (m : memory) (argv : list Z) (envp : list c_string) : list c_string :=
  let env := filter (fun e => poly_env_entry_has_key m GUEST_ARGV0 e = false) envp ++ guest_argv0_env m argv ++
    [OwnString (bytes_of_string "POLYEXEC_STDOUT_PASSTHROUGH=1"); OwnString (bytes_of_string "POLYEXEC_PROCESS_NO_FORK=1")] in
  let env := if poly_env_has_key m env (bytes_of_string "POLY_PROCESS_REAL_INTERPRETER") then env
             else env ++ [OwnString (bytes_of_string "POLY_PROCESS_REAL_INTERPRETER=1")] in
  if polyexec_protect_runtime_signals (rs_signals cfg) &&
     negb (poly_env_has_key m env (bytes_of_string "POLYEXEC_PROTECT_RUNTIME_SIGNALS"))
  then env ++ [OwnString (bytes_of_string "POLYEXEC_PROTECT_RUNTIME_SIGNALS=1")] else env.

(** [None]: the call is not handled here.  A call that succeeds does not return. *)
Definition poly_handle_raw_aarch64_execve (path_addr argv_addr envp_addr : Z) : M (option Z) :=
  exec_path ← poly_resolve_aarch64_execve_program (GuestString path_addr);
  match exec_path with
  | None => mret None
  | Some exec_path =>
      m ← get mo_memory;
      match poly_count_guest_argv m argv_addr with
      | inl error => mret (Some (neg_errno error))
      | inr argv =>
          match old_envp m envp_addr with
          | None => mret (Some (neg_errno E2BIG))
          | Some envp =>
              '(_, result) ← libc os SYS_execve
                [Str (OwnString (bytes_of_string "/usr/bin/polyexec")); Strings (new_argv exec_path argv);
                 Strings (new_envp m argv envp)];
              match result with
              | inl error => mret (Some (neg_errno error))
              | inr _ => leaves Replaced
              end
          end
      end
  end.
End Execve.
