(* ===== verification/TrapDispatch.v ===== *)
(** The dispatch of the events of a guest ([poly_trap_vector_dispatch] of
    [tools/runtime/polyexec.c]).  A system call is first checked by the guest's
    seccomp filters; then it is a return from a signal handler, a call that the
    monitor handles itself, a call without a counterpart on the host, or one of
    the calls with a meaning of their own (execve, exit, seccomp control, clone);
    every other call is given to the host as it is.

    Parameters besides those of the parts: the host's header that says which
    system calls it knows, the code that runs the guest's finalizers
    ([run_process_finalizers] and [run_process_dependency_finalizers], which run
    guest code), and the functions that a guest imports from the monitor
    ([poly_handle_foreign_import]).  Traces and reports are left out, and so are the
    fences around the io_uring calls, which order memory accesses between
    processors and change no memory. *)

From S2P Require Import Prelude SyscallMap GuestMemory GuestSignals Seccomp CStruct TrapState SignalFrame TrapReturn HostCalls FileCalls MemCalls StructuredCalls TrapEvent CloneCalls ExecveCall.

Definition EIO : Z := 5.
Definition BREAK_RESULT : Z := 0x4c000000.

(** The processor's side: the control instructions and the monitor's registers. *)
Record processor : Type := MkProcessor {
  pr_fault_in : list Z -> mem_probe -> mem_probe;
  pr_derive : poly_xsave_state -> poly_v2_derive_descriptor -> Z * poly_xsave_state;
  pr_complete : poly_xsave_state -> poly_v2_complete_descriptor -> Z * poly_xsave_state;
  pr_rsp : Z;
  pr_vdso : Z;
  pr_features : Z;
  pr_vector_active : bool;
  pr_entry_accepted : bool;
  pr_key_accepted : Z -> bool;
}.

(** The code that is called and not modelled. *)
Record outside : Type := MkOutside {
  out_root_finalizers : M Z;
  out_dependency_finalizers : M Z;
  out_import : Z -> list Z -> M Z;
  out_diagnostics_installed : bool;
}.

Section Dispatch.
Context (os : host) (signal_os : host_os) (cfg : run_settings) (malloc_fails : Z -> bool) (fuel : nat).
Context (header_defines : Z -> bool) (stale_errno : Z) (cpu : processor) (ext : outside).

Abbreviation derive := (pr_derive cpu).

(** [poly_trap_vector_return_result] *)
Definition finish (packet : poly_runtime_event_record) (trap_state : option poly_xsave_state) (result : Z) : M trap_exit :=
  fun s =>
    let '(t, exit) := poly_trap_vector_return_result (mo_probe s) (pr_fault_in cpu) derive (pr_complete cpu) (pr_rsp cpu)
      (pr_vdso cpu) (pr_features cpu) (bk_sequence (mo_books s)) (pr_vector_active cpu) (pr_entry_accepted cpu) result
      packet trap_state (mo_thread s) in
    (set_thread t s, Done exit).

Definition record_result (packet : poly_runtime_event_record) (x86_number result : Z) : M unit :=
  modify (fun s =>
    let b := mo_books s in
    set_books (MkBooks (bk_sequence b) (bk_events b)
      (poly_record_syscall_result (rs_syscall_summary cfg) packet x86_number result (bk_summary b)) (bk_finalizers b)) s).

Definition poly_trace_syscall_result (packet : poly_runtime_event_record) (x86_number result : Z) : M unit :=
  record_result packet x86_number result;;
  modify (fun s => set_winsz (poly_note_syscall_fd_effect packet x86_number result (mo_winsz s)) s).

Definition finish_traced (packet : poly_runtime_event_record) (trap_state : option poly_xsave_state)
    (x86_number result : Z) : M trap_exit :=
  poly_trace_syscall_result packet x86_number result;; finish packet trap_state result.

(** ** The end of the process *)

Definition set_finalizer_flags (f : finalizer_flags) : M unit :=
  modify (fun s => let b := mo_books s in set_books (MkBooks (bk_sequence b) (bk_events b) (bk_summary b) f) s).

Definition run_process_exit_finalizers : M Z :=
  f ← get (fun s => bk_finalizers (mo_books s));
  if negb (rs_finalizers_active cfg) || negb (rs_run_finalizers cfg) || fz_completed f || fz_running f then mret 0
  else
    set_finalizer_flags (MkFinalizers (fz_completed f) true);;
    root ← out_root_finalizers ext;
    dependencies ← (if root <? 0 then mret root else out_dependency_finalizers ext);
    let status := if (root <? 0) || (dependencies <? 0) then -1 else 0 in
    set_finalizer_flags (MkFinalizers (status =? 0) false);;
    mret status.

(** The thread alone ends if it is not the first one; the process ends with the
    guest's code, or with 125 if a finalizer failed. *)
Definition dispatch_exit (packet : poly_runtime_event_record) (x86_number : Z) : M unit :=
  (if x86_number =? SYS_exit then
     pid ← poly_x86_syscall6 os SYS_getpid [0; 0; 0; 0; 0; 0];
     tid ← poly_x86_syscall6 os SYS_gettid [0; 0; 0; 0; 0; 0];
     if negb (pid =? tid) then leaves (ExitThread (arg packet 0)) else mret tt
   else mret tt);;
  (if (x86_number =? SYS_exit) || (x86_number =? SYS_exit_group) then
     record_result packet x86_number 0;;
     status ← run_process_exit_finalizers;
     leaves (ExitProcess (if status <? 0 then 125 else arg packet 0))
   else mret tt).

(** ** System calls *)

Definition poly_is_io_uring_syscall (x86_number : Z) : bool :=
  (x86_number =? SYS_io_uring_setup) || (x86_number =? SYS_io_uring_enter) || (x86_number =? SYS_io_uring_register).

(** The check by the guest's filters: [Some] is the result of a denied call. *)
Definition preflight (packet : poly_runtime_event_record) : M (option Z) := fun s =>
  let '(c, r) := poly_seccomp_preflight_syscall (Some packet) (mo_seccomp s) in (set_mo_seccomp c s, Done r).

Definition seccomp_control (packet : poly_runtime_event_record) (x86_number : Z) : M (option Z) := fun s =>
  match poly_seccomp_dispatch_control (mo_probe s) (mo_memory s) (Some packet) x86_number (mo_seccomp s) with
  | Some (c, r) => (set_mo_seccomp c s, Done (Some r))
  | None => (s, Done None)
  end.

(** A return from a signal handler. *)
Definition dispatch_sigreturn (packet : poly_runtime_event_record) (trap_state : option poly_xsave_state) : M trap_exit :=
  '(state, result) ← (fun s =>
    let '(t, state, result) :=
      (if pk_mode packet =? POLY_MODE_RAW_AARCH64
       then poly_handle_aarch64_rt_sigreturn (mo_probe s) derive (pr_rsp cpu) trap_state (mo_thread s)
       else poly_handle_riscv_rt_sigreturn (mo_probe s) derive (pr_rsp cpu) trap_state (mo_thread s)) in
    (set_thread t s, Done (state, result)));
  finish_traced packet state (-1) result.

(** The calls that reach the host, [clone] apart, as the guest gave them. *)
Definition forward (packet : poly_runtime_event_record) (trap_state : option poly_xsave_state) (x86_number : Z)
    : M trap_exit :=
  result ← poly_x86_syscall6 os x86_number ((fun n => arg packet n) <$> seq 0 6);
  finish_traced packet trap_state x86_number result.

Definition clone_or_forward (packet : poly_runtime_event_record) (trap_state : option poly_xsave_state) (x86_number : Z)
    : M trap_exit :=
  let finish_with := finish_traced packet trap_state x86_number in
  if rs_disable_io_uring cfg && poly_is_io_uring_syscall x86_number then finish_with (neg_errno ENOSYS)
  else if rs_disable_rseq cfg && (x86_number =? SYS_rseq) then finish_with (neg_errno ENOSYS)
  else if (x86_number =? SYS_clone3) && poly_is_raw_foreign_mode (pk_mode packet) then
    finish_with (if arg packet 1 >? 4096 then neg_errno E2BIG else neg_errno ENOSYS)
  else if (x86_number =? SYS_clone) && poly_is_raw_foreign_mode (pk_mode packet) then
    result ← dispatch_clone os cfg derive (pr_key_accepted cpu) (out_diagnostics_installed ext) (pr_entry_accepted cpu)
               packet trap_state;
    match result with
    | inl result => finish_with result
    | inr child => mret child
    end
  else forward packet trap_state x86_number.

(** A call with a counterpart on the host. *)
Definition dispatch_mapped (packet : poly_runtime_event_record) (trap_state : option poly_xsave_state) (x86_number : Z)
    : M trap_exit :=
  exec ← (if (pk_mode packet =? POLY_MODE_RAW_AARCH64) && (x86_number =? SYS_execve)
          then poly_handle_raw_aarch64_execve os cfg stale_errno (arg packet 0) (arg packet 1) (arg packet 2)
          else mret None);
  match exec with
  | Some result => finish_traced packet trap_state x86_number result
  | None =>
      dispatch_exit packet x86_number;;
      control ← seccomp_control packet x86_number;
      match control with
      | Some result => finish_traced packet trap_state x86_number result
      | None => clone_or_forward packet trap_state x86_number
      end
  end.

Definition dispatch_syscall (packet : poly_runtime_event_record) (trap_state : option poly_xsave_state) : M trap_exit :=
  denied ← preflight packet;
  match denied with
  | Some result => finish_traced packet trap_state (-1) result
  | None =>
      if poly_is_raw_foreign_mode (pk_mode packet) && (pk_number packet =? 139)
      then dispatch_sigreturn packet trap_state
      else
        structured ← poly_handle_structured_foreign_syscall os signal_os cfg malloc_fails fuel (pk_number packet)
          (pk_mode packet) (arg packet 0) (arg packet 1) (arg packet 2) (arg packet 3) (arg packet 4) (arg packet 5);
        match structured with
        | Some result => finish_traced packet trap_state (-1) result
        | None =>
            match poly_generic_linux_syscall_to_x86 header_defines (pk_number packet) with
            | None =>
                record_result packet (-1) (neg_errno ENOSYS);; finish packet trap_state (neg_errno ENOSYS)
            | Some x86_number => dispatch_mapped packet trap_state x86_number
            end
        end
  end.

(** ** Events *)

Definition dispatch_packet (packet : poly_runtime_event_record) (trap_state : option poly_xsave_state) : M trap_exit :=
  if negb (poly_is_raw_foreign_mode (pk_mode packet)) then finish packet trap_state (neg_errno ENOSYS)
  else if pk_reason packet =? POLY_TRAP_SYSCALL then dispatch_syscall packet trap_state
  else if pk_reason packet =? POLY_TRAP_BREAK then
    finish packet trap_state (Z.lor (Z.lor BREAK_RESULT (u64 (Z.shiftl (pk_mode packet) 8))) (pk_number packet))
  else if pk_reason packet =? POLY_TRAP_IMPORT then
    result ← out_import ext (pk_number packet) (pk_args packet); finish packet trap_state result
  else finish packet trap_state (neg_errno ENOSYS).

(** [exported] is the state image that [poly_state_export] stores. *)
Definition poly_trap_vector_dispatch (event : poly_v2_event_frame) (entry : option poly_monitor_entry_frame)
    (exported : poly_xsave_state) : M trap_exit :=
  match event_packet event entry with
  | None => mret (ReturnValue (neg_errno EIO))
  | Some (packet, sequence) =>
      let trap_state := if has (pk_flags packet) POLY_EVENT_RECORD_FLAG_TRAP_RETURN_RESTORE then Some exported else None in
      modify (fun s =>
        let b := mo_books s in
        set_books (MkBooks sequence (count_event packet (bk_events b)) (bk_summary b) (bk_finalizers b)) s);;
      dispatch_packet packet trap_state
  end.
End Dispatch.
