(* ===== verification/TrapProps.v ===== *)
(** What the dispatch of events promises ([TrapDispatch]): how an event ends,
    that a denied call does not reach the host and a plain one reaches it once
    and unchanged, and that the signals the monitor needs are not sent. *)

From stdpp Require Import sets.
From S2P Require Import Prelude SyscallMap GuestMemory GuestSignals Seccomp CStruct TrapState SignalFrame SignalDelivery SignalReturn SignalProps TrapClean TrapReturn HostCalls FileCalls MemCalls StructuredCalls CallBehaviour TrapEvent CloneCalls ExecveCall TrapDispatch.

#[local] Opaque sizeof c_size zeroed.

#[export] Instance syscall_case_eq_dec : EqDecision syscall_case.
Proof. solve_decision. Defined.

(** Membership in a concrete list, and of a case in the table of system calls. *)
Ltac listed := apply (bool_decide_unpack _); vm_compute; exact I.
Ltac in_table := apply list_elem_of_In; listed.

(** The call that a case of the table leads to belongs to no other number. *)
Lemma mapped_number (header_defines : Z -> bool) (n k x : Z) :
  poly_generic_linux_syscall_to_x86 header_defines n = Some x -> List.In (Case k x false) syscall_cases -> n = k.
Proof. intros H Hk. eapply generic_injective; [exact H|by apply generic_case]. Qed.

(** A call of the table sends a signal only for the guest's numbers of [kill],
    [tkill] and [tgkill]. *)
Lemma sending_number (header_defines : Z -> bool) (n x : Z) : poly_generic_linux_syscall_to_x86 header_defines n = Some x -> x ∈ sending_calls ->
  n ∈ [129; 130; 131] /\ (n =? 131) = (x =? SYS_tgkill).
Proof.
  intros H Hx. repeat (apply elem_of_cons in Hx as [-> | Hx]); [| | |by apply elem_of_nil in Hx].
  - rewrite (mapped_number header_defines n 129 SYS_kill H ltac:(in_table)). split; [set_solver|done].
  - rewrite (mapped_number header_defines n 130 SYS_tkill H ltac:(in_table)). split; [set_solver|done].
  - rewrite (mapped_number header_defines n 131 SYS_tgkill H ltac:(in_table)). split; [set_solver|done].
Qed.

Section Props.
Context (os : host) (signal_os : host_os) (cfg : run_settings) (malloc_fails : Z -> bool) (fuel : nat).
Context (header_defines : Z -> bool) (stale_errno : Z) (cpu : processor) (ext : outside).

Abbreviation trap_vector := (poly_trap_vector_dispatch os signal_os cfg malloc_fails fuel header_defines stale_errno cpu ext).
Abbreviation syscall_handler := (dispatch_syscall os signal_os cfg malloc_fails fuel header_defines stale_errno cpu ext).
Abbreviation allowed :=
  (allowed_end (pr_derive cpu) (pr_complete cpu) (pr_features cpu) (pr_vector_active cpu) (pr_entry_accepted cpu)).

(** ** How an event ends *)

Lemma finish_ends (packet : poly_runtime_event_record) (state : poly_xsave_state) (result : Z) :
  ends (allowed packet) (finish cpu packet (Some state) result).
Proof.
  intros s s' x. unfold finish. pose proof (trap_return_ends_well (mo_probe s) (pr_fault_in cpu) (pr_derive cpu)
    (pr_complete cpu) (pr_rsp cpu) (pr_vdso cpu) (pr_features cpu) (bk_sequence (mo_books s)) (pr_vector_active cpu)
    (pr_entry_accepted cpu) result packet state (mo_thread s)) as H.
  destruct (poly_trap_vector_return_result _ _ _ _ _ _ _ _ _ _ _ _ _ _) as [t exit]. by intros [= _ <-].
Qed.

Lemma finish_traced_ends (packet : poly_runtime_event_record) (state : poly_xsave_state) (x86_number result : Z) :
  ends (allowed packet) (finish_traced cfg cpu packet (Some state) x86_number result).
Proof. unfold finish_traced. apply ends_bind. intros _. apply finish_ends. Qed.

(** A child enters like the return from an event. *)
Lemma child_entry_ends (packet : poly_runtime_event_record) (key : Z -> bool) (installed accepted : bool) (handoff : Z) :
  ends (allowed packet) (poly_clone_child_entry cfg (pr_derive cpu) key installed accepted handoff).
Proof.
  unfold poly_clone_child_entry. destruct (handoff =? 0); [apply ends_leaves|]. apply ends_bind. intros h.
  destruct (_ && _); [apply ends_leaves|]. destruct (_ || _); [apply ends_leaves|]. apply ends_bind. intros _.
  unfold poly_activate_state_with_pderive. destruct (pr_derive cpu _ _) as [st s'] eqn:E.
  destruct (Z.eqb_spec st 0) as [->|]; [|apply ends_leaves]. apply ends_ret. eexists. split; [|exact E].
  apply sanitize_importable.
Qed.

Lemma clone_ends (packet : poly_runtime_event_record) (state : option poly_xsave_state) (key : Z -> bool)
    (installed accepted : bool) :
  ends (fun r => forall x, r = inr x -> allowed packet x)
    (dispatch_clone os cfg (pr_derive cpu) key installed accepted packet state).
Proof.
  unfold dispatch_clone, poly_x86_clone_monitor_child. apply ends_bind. intros [stack|]; [|by apply ends_ret].
  destruct state as [state|]; [|by apply ends_ret]. apply ends_bind. intros [plan|]; [|by apply ends_ret].
  apply ends_bind. intros r. destruct (hr_status r =? 0); [|by apply ends_ret]. apply ends_bind. intros pointer.
  eapply ends_bind_known; [apply (child_entry_ends packet)|]. intros x Hx. apply ends_ret. by intros y [= <-].
Qed.

Lemma sigreturn_ends (packet : poly_runtime_event_record) (state : poly_xsave_state) :
  ends (allowed packet) (dispatch_sigreturn cfg cpu packet (Some state)).
Proof.
  unfold dispatch_sigreturn. eapply (ends_bind_known (fun r => exists s, r.1 = Some s)).
  2:{ intros [st result] [s Hs]. cbn in Hs. subst st. apply finish_traced_ends. }
  intros s s' [st result]. unfold poly_handle_aarch64_rt_sigreturn, poly_handle_riscv_rt_sigreturn. cbv zeta.
  repeat case_match; intros [= _ <- _]; simplify_eq; by eexists.
Qed.

Lemma syscall_ends (packet : poly_runtime_event_record) (state : poly_xsave_state) :
  ends (allowed packet) (syscall_handler packet (Some state)).
Proof.
  unfold dispatch_syscall. apply ends_bind. intros [denied|]; [apply finish_traced_ends|].
  destruct (_ && _); [apply sigreturn_ends|]. apply ends_bind. intros [result|]; [apply finish_traced_ends|].
  destruct (poly_generic_linux_syscall_to_x86 _ _) as [x86|]; [|apply ends_bind; intros _; apply finish_ends].
  unfold dispatch_mapped. apply ends_bind. intros [result|]; [apply finish_traced_ends|].
  apply ends_bind. intros _. apply ends_bind. intros [result|]; [apply finish_traced_ends|].
  unfold clone_or_forward. destruct (_ && _); [apply finish_traced_ends|]. destruct (_ && _); [apply finish_traced_ends|].
  destruct (_ && _); [apply finish_traced_ends|].
  destruct (_ && _); [|apply ends_bind; intros r; apply finish_traced_ends].
  eapply ends_bind_known; [apply (clone_ends packet)|]. intros [r|x] Hx; [apply finish_traced_ends|].
  apply ends_ret. by apply Hx.
Qed.

Lemma dispatch_packet_ends (packet : poly_runtime_event_record) (state : poly_xsave_state) :
  ends (allowed packet)
    (dispatch_packet os signal_os cfg malloc_fails fuel header_defines stale_errno cpu ext packet (Some state)).
Proof.
  unfold dispatch_packet. destruct (negb _); [apply finish_ends|]. destruct (_ =? _); [apply syscall_ends|].
  destruct (_ =? _); [apply finish_ends|]. destruct (_ =? _); [|apply finish_ends]. apply ends_bind. intros r.
  apply finish_ends.
Qed.

(** ** What an event does on the way *)

Section Behaviour.
Context (P : host_call -> Prop) (Q : leave -> Prop) (Hquiet : forall c, sends_nothing c -> P c).

Lemma quiet_behaves {A} (m : M A) : quiet m -> behaves P Q m.
Proof using Hquiet. apply behaves_weaken; [done|]. by intros x []. Qed.

Lemma finish_behaves (packet : poly_runtime_event_record) (state : option poly_xsave_state) (result : Z) :
  behaves P Q (finish cpu packet state result).
Proof. apply behaves_silent; intros s; unfold finish; by destruct (poly_trap_vector_return_result _ _ _ _ _ _ _ _ _ _ _ _ _ _). Qed.

Lemma finish_traced_behaves (packet : poly_runtime_event_record) (state : option poly_xsave_state) (x86_number result : Z) :
  behaves P Q (finish_traced cfg cpu packet state x86_number result).
Proof.
  unfold finish_traced, poly_trace_syscall_result, record_result.
  repeat (apply behaves_bind; [|intros _]); [by apply behaves_modify..|apply finish_behaves].
Qed.

Lemma sigreturn_behaves (packet : poly_runtime_event_record) (state : option poly_xsave_state) :
  behaves P Q (dispatch_sigreturn cfg cpu packet state).
Proof.
  unfold dispatch_sigreturn. apply behaves_bind; [|intros [st r]; apply finish_traced_behaves].
  apply behaves_silent; intros s; by destruct (if _ : bool then _ else _) as [[t st] r].
Qed.

Lemma execve_quiet (path argv envp : Z) : Q Replaced ->
  behaves P Q (poly_handle_raw_aarch64_execve os cfg stale_errno path argv envp).
Proof using Hquiet.
  intros HQ. apply (behaves_weaken sends_nothing P (fun x => x = Replaced) Q); [done|by intros x ->|].
  unfold poly_handle_raw_aarch64_execve, poly_resolve_aarch64_execve_program, poly_path_is_aarch64_elf,
    poly_path_is_monitor_self_exec. by behaviour.
Qed.

Lemma clone_quiet (packet : poly_runtime_event_record) (state : option poly_xsave_state) (key : Z -> bool)
    (installed accepted : bool) : (forall code, Q (ExitProcess code)) ->
  behaves P Q (dispatch_clone os cfg (pr_derive cpu) key installed accepted packet state).
Proof using Hquiet.
  intros HQ. apply (behaves_weaken sends_nothing P (fun x => exists code, x = ExitProcess code) Q);
    [done|by intros x [code ->]|].
  assert (forall (f : memory -> memory), behaves sends_nothing (fun x => exists code, x = ExitProcess code) (update_memory f))
    as Hu by (intros f; by apply behaves_modify).
  unfold dispatch_clone, poly_x86_clone_monitor_child, poly_clone_child_entry, poly_prepare_clone_child_handoff,
    poly_prepare_clone_native_tls, poly_prepare_vfork_foreign_stack, get_x86_fs_base, map_anonymous, unmap.
  behaviour; apply behaves_leaves; by eexists.
Qed.

(** The six arguments of a call. *)
Definition six_args (packet : poly_runtime_event_record) : list Z := (fun n => arg packet n) <$> seq 0 6.

Lemma exit_behaves (packet : poly_runtime_event_record) (x86 : Z) :
  (x86 = SYS_exit \/ x86 = SYS_exit_group -> (forall x, Q x) /\ behaves P Q (out_root_finalizers ext) /\
     behaves P Q (out_dependency_finalizers ext)) ->
  behaves P Q (dispatch_exit os cfg ext packet x86).
Proof using Hquiet.
  intros H. unfold dispatch_exit.
  destruct ((x86 =? SYS_exit) || (x86 =? SYS_exit_group)) eqn:Ex.
  2:{ apply orb_false_iff in Ex as [-> _]. auto using behaves_bind, behaves_ret. }
  destruct H as (HQ & Hr & Hd). { apply orb_prop in Ex as [?%Z.eqb_eq|?%Z.eqb_eq]; auto. }
  apply behaves_bind; [|intros _].
  { destruct (x86 =? SYS_exit); [|apply behaves_ret]. repeat (apply behaves_bind;
      [apply behaves_syscall6; by apply Hquiet, sends_nothing_call|intros ?]).
    destruct (negb _); auto using behaves_leaves, behaves_ret. }
  unfold record_result, run_process_exit_finalizers, set_finalizer_flags.
  behaviour; auto using behaves_modify, behaves_leaves.
Qed.

Lemma mapped_behaves (packet : poly_runtime_event_record) (state : option poly_xsave_state) (x86 : Z) :
  P (MkCall x86 (Val <$> six_args packet)) -> (x86 = SYS_execve -> Q Replaced) ->
  (x86 = SYS_clone -> forall code, Q (ExitProcess code)) ->
  (x86 = SYS_exit \/ x86 = SYS_exit_group -> (forall x, Q x) /\ behaves P Q (out_root_finalizers ext) /\
     behaves P Q (out_dependency_finalizers ext)) ->
  behaves P Q (dispatch_mapped os cfg stale_errno cpu ext packet state x86).
Proof using Hquiet.
  intros Hf He Hc Hx. unfold dispatch_mapped. apply behaves_bind.
  { destruct (_ =? POLY_MODE_RAW_AARCH64), (Z.eqb_spec x86 SYS_execve); try apply behaves_ret.
    apply execve_quiet. by apply He. }
  intros [r|]; [apply finish_traced_behaves|]. apply behaves_bind; [by apply exit_behaves|]. intros _.
  apply behaves_bind.
  { apply behaves_silent; intros s; unfold seccomp_control;
      by destruct (poly_seccomp_dispatch_control _ _ _ _ _) as [[c r]|]. }
  intros [r|]; [apply finish_traced_behaves|]. unfold clone_or_forward, forward.
  destruct (_ && _); [apply finish_traced_behaves|]. destruct (_ && _); [apply finish_traced_behaves|].
  destruct (_ && _); [apply finish_traced_behaves|].
  destruct (Z.eqb_spec x86 SYS_clone) as [E|E], (poly_is_raw_foreign_mode _); cbn [andb].
  1:{ apply behaves_bind; [by apply clone_quiet; auto|]. intros [r|x]; [apply finish_traced_behaves|apply behaves_ret]. }
  all: apply behaves_bind; [by apply behaves_syscall6|intros r; apply finish_traced_behaves].
Qed.
End Behaviour.

(** The numbers of the calls that can end the thread, the process or the program. *)
Definition leaving_numbers : list Z := [93; 94; 220; 221].

Lemma syscall_stays (packet : poly_runtime_event_record) (state : option poly_xsave_state) :
  pk_number packet ∉ leaving_numbers -> behaves (fun _ => True) never (syscall_handler packet state).
Proof.
  intros Hn. unfold dispatch_syscall. apply behaves_bind.
  { apply behaves_silent; intros s; unfold preflight; by destruct (poly_seccomp_preflight_syscall _ _). }
  intros [r|]; [apply finish_traced_behaves|]. destruct (_ && _); [apply sigreturn_behaves|].
  apply behaves_bind; [eapply behaves_weaken; [| |apply structured_quiet]; done|].
  intros [r|]; [apply finish_traced_behaves|].
  destruct (poly_generic_linux_syscall_to_x86 _ _) as [x86|] eqn:E.
  2:{ apply behaves_bind; [by apply behaves_modify|intros _; apply finish_behaves]. }
  assert (forall k y, x86 = y -> k ∈ leaving_numbers -> List.In (Case k y false) syscall_cases -> False) as Hno.
  { intros k y -> Hk Hin. apply Hn. by rewrite (mapped_number _ _ _ _ E Hin). }
  apply mapped_behaves; [done|done|intros H; exfalso..].
  - apply (Hno 221 SYS_execve H); [set_solver|in_table].
  - apply (Hno 220 SYS_clone H); [set_solver|in_table].
  - destruct H as [H|H]; [apply (Hno 93 SYS_exit H); [set_solver|in_table]|].
    apply (Hno 94 SYS_exit_group H); [set_solver|in_table].
Qed.

(** ** That an event comes to an end *)

Lemma finish_stops (packet : poly_runtime_event_record) (state : option poly_xsave_state) (result : Z) :
  stops (finish cpu packet state result).
Proof. intros s. unfold finish. by destruct (poly_trap_vector_return_result _ _ _ _ _ _ _ _ _ _ _ _ _ _). Qed.

Lemma record_result_stops (packet : poly_runtime_event_record) (x86_number result : Z) :
  stops (record_result cfg packet x86_number result).
Proof. done. Qed.
Hint Resolve finish_stops record_result_stops : host_calls.

Lemma finish_traced_stops (packet : poly_runtime_event_record) (state : option poly_xsave_state) (x86_number result : Z) :
  stops (finish_traced cfg cpu packet state x86_number result).
Proof. unfold finish_traced, poly_trace_syscall_result, record_result. stopping. Qed.
Hint Resolve finish_traced_stops : host_calls.

Lemma sigreturn_stops (packet : poly_runtime_event_record) (state : option poly_xsave_state) :
  stops (dispatch_sigreturn cfg cpu packet state).
Proof.
  unfold dispatch_sigreturn. apply stops_bind; [|intros [st r]; apply finish_traced_stops].
  intros s. by destruct (if _ : bool then _ else _) as [[t st] r].
Qed.

Lemma mapped_stops (packet : poly_runtime_event_record) (state : option poly_xsave_state) (x86 : Z) :
  x86 <> SYS_exit -> x86 <> SYS_exit_group -> stops (dispatch_mapped os cfg stale_errno cpu ext packet state x86).
Proof.
  intros H1 H2. unfold dispatch_mapped, dispatch_exit. apply Z.eqb_neq in H1 as ->. apply Z.eqb_neq in H2 as ->.
  cbn [orb]. apply stops_bind.
  { unfold poly_handle_raw_aarch64_execve, poly_resolve_aarch64_execve_program, poly_path_is_aarch64_elf,
      poly_path_is_monitor_self_exec. stopping. }
  intros [r|]; [apply finish_traced_stops|]. apply stops_bind; [stopping|intros _]. apply stops_bind.
  { intros s. unfold seccomp_control. by destruct (poly_seccomp_dispatch_control _ _ _ _ _) as [[c r]|]. }
  intros control.
  unfold clone_or_forward, forward, dispatch_clone, poly_x86_clone_monitor_child, poly_clone_child_entry,
    poly_prepare_clone_child_handoff, poly_prepare_clone_native_tls, poly_prepare_vfork_foreign_stack, get_x86_fs_base,
    map_anonymous, unmap, update_memory. stopping.
Qed.

(** The calls that can go on: those that run the guest's finalizers, and [mmap],
    which repeats a read that the host interrupts. *)
Definition lasting_numbers : list Z := [93; 94; 222].

Lemma syscall_stops (packet : poly_runtime_event_record) (state : option poly_xsave_state) :
  pk_number packet ∉ lasting_numbers -> stops (syscall_handler packet state).
Proof.
  intros Hn. unfold dispatch_syscall. apply stops_bind.
  { intros s. unfold preflight. by destruct (poly_seccomp_preflight_syscall _ _). }
  intros [r|]; [apply finish_traced_stops|]. destruct (_ && _); [apply sigreturn_stops|].
  apply stops_bind; [apply structured_stops; intros E; apply Hn; rewrite E; listed|].
  intros [r|]; [apply finish_traced_stops|]. destruct (poly_generic_linux_syscall_to_x86 _ _) as [x86|] eqn:E.
  2:{ unfold record_result. stopping. }
  apply mapped_stops; intros ->; apply Hn.
  - rewrite (mapped_number _ _ 93 _ E ltac:(in_table)). listed.
  - rewrite (mapped_number _ _ 94 _ E ltac:(in_table)). listed.
Qed.

(** The state image that goes with a packet. *)
Lemma packet_state (packet : poly_runtime_event_record) (exported : poly_xsave_state) : packet_ok packet ->
  (if has (pk_flags packet) POLY_EVENT_RECORD_FLAG_TRAP_RETURN_RESTORE then Some exported else None) = Some exported.
Proof. intros [_ _ ->]. done. Qed.

(** A value is missing only after an import or a system call. *)
Lemma packet_unfinished (packet : poly_runtime_event_record) (exported : poly_xsave_state) (s s' : monitor)
    (o : outcome trap_exit) : packet_ok packet ->
  dispatch_packet os signal_os cfg malloc_fails fuel header_defines stale_errno cpu ext packet (Some exported) s = (s', o) ->
  match o with Done _ => False | _ => True end ->
  pk_reason packet = POLY_TRAP_IMPORT \/
  pk_reason packet = POLY_TRAP_SYSCALL /\ syscall_handler packet (Some exported) s = (s', o).
Proof.
  intros Hok. unfold dispatch_packet. rewrite (po_mode _ Hok). cbn [negb].
  assert (forall r, exists x, (finish cpu packet (Some exported) r s).2 = Done x) as Hf.
  { intros r. unfold finish. destruct (poly_trap_vector_return_result _ _ _ _ _ _ _ _ _ _ _ _ _ _). by eexists. }
  destruct (Z.eqb_spec (pk_reason packet) POLY_TRAP_SYSCALL) as [Hr|Hr]; [by right|].
  destruct (_ =? POLY_TRAP_BREAK); [|destruct (Z.eqb_spec (pk_reason packet) POLY_TRAP_IMPORT); [by left|]].
  all: intros E Ho; match type of E with finish _ _ _ ?r _ = _ => destruct (Hf r) as [x Hx] end.
  all: rewrite E in Hx; cbn in Hx; by subst o.
Qed.

(** ** Protected signals *)

(** The signal that a call sends. *)
Definition sent_signal (c : host_call) : option Z :=
  if bool_decide (hc_number c ∈ sending_calls) then
    match hc_args c !! (if hc_number c =? SYS_tgkill then 2%nat else 1%nat) with
    | Some (Val signum) => Some signum
    | _ => None
    end
  else None.

Definition keeps_protected (c : host_call) : Prop :=
  forall signum, sent_signal c = Some signum -> poly_is_protected_runtime_signal (rs_signals cfg) signum = false.

Lemma quiet_keeps (c : host_call) : sends_nothing c -> keeps_protected c.
Proof. intros H signum. unfold sent_signal. by rewrite bool_decide_eq_false_2. Qed.

Context (Hroot : behaves keeps_protected (fun _ => True) (out_root_finalizers ext)).
Context (Hdependencies : behaves keeps_protected (fun _ => True) (out_dependency_finalizers ext)).
Context (Himport : forall number args, behaves keeps_protected (fun _ => True) (out_import ext number args)).

Lemma mapped_keeps (packet : poly_runtime_event_record) (state : option poly_xsave_state) (x86 : Z) :
  keeps_protected (MkCall x86 (Val <$> six_args packet)) ->
  behaves keeps_protected (fun _ => True) (dispatch_mapped os cfg stale_errno cpu ext packet state x86).
Proof using Hroot Hdependencies. intros H. apply mapped_behaves; auto using quiet_keeps. Qed.

Lemma syscall_keeps (packet : poly_runtime_event_record) (state : option poly_xsave_state) :
  poly_is_raw_foreign_mode (pk_mode packet) = true ->
  behaves keeps_protected (fun _ => True) (syscall_handler packet state).
Proof using Hroot Hdependencies.
  intros Hm. unfold dispatch_syscall. apply behaves_bind.
  { apply behaves_silent; intros s; unfold preflight; by destruct (poly_seccomp_preflight_syscall _ _). }
  intros [r|]; [apply finish_traced_behaves|]. destruct (_ && _); [apply sigreturn_behaves|].
  assert (forall n m a b c d e f, let h := poly_handle_structured_foreign_syscall os signal_os cfg malloc_fails fuel n m a b c d e f in
    behaves keeps_protected (fun _ => True) h) as Hh
    by (intros; eapply behaves_weaken; [apply quiet_keeps|done|apply structured_quiet]).
  destruct (decide (pk_number packet ∈ [129; 130; 131])) as [Hs|Hs].
  - rewrite structured_send by done. unfold dispatch_send. rewrite Hm. cbn [andb].
    destruct (poly_is_protected_runtime_signal _ _) eqn:Ep.
    { exact (finish_traced_behaves _ _ packet state (-1) 0). }
    change (mbind ?f unhandled) with (f None). cbv beta iota.
    destruct (poly_generic_linux_syscall_to_x86 _ _) as [x86|] eqn:E.
    2:{ apply behaves_bind; [by apply behaves_modify|intros _; apply finish_behaves]. }
    apply mapped_keeps. intros signum. unfold sent_signal. cbn [hc_number hc_args]. case_bool_decide as Hx; [|done].
    destruct (sending_number _ _ _ E Hx) as [_ Hn]. rewrite Hn in Ep. destruct (x86 =? SYS_tgkill); by intros [= <-].
  - apply behaves_bind; [apply Hh|]. intros [r|]; [apply finish_traced_behaves|].
    destruct (poly_generic_linux_syscall_to_x86 _ _) as [x86|] eqn:E.
    2:{ apply behaves_bind; [by apply behaves_modify|intros _; apply finish_behaves]. }
    apply mapped_keeps, quiet_keeps. intros Hx. by destruct (sending_number _ _ _ E Hx).
Qed.

End Props.
