(* ===== verification/SyscallProps.v ===== *)
(** A system call from the guest's trap to its next instruction ([TrapDispatch]):
    a call that the guest's filters deny, and a call that is given to the host. *)

From stdpp Require Import sets.
From S2P Require Import Prelude SyscallMap GuestMemory GuestSignals Seccomp CStruct TrapState SignalFrame SignalDelivery SignalReturn SignalProps SignalSamples TrapClean TrapReturn HostCalls FileCalls MemCalls StructuredCalls CallBehaviour TrapEvent CloneCalls ExecveCall TrapDispatch TrapProps.

#[local] Opaque sizeof c_size zeroed.

Section Syscall.
Context (os : host) (signal_os : host_os) (cfg : run_settings) (malloc_fails : Z -> bool) (fuel : nat).
Context (header_defines : Z -> bool) (stale_errno : Z) (cpu : processor) (ext : outside).
Context {control : PolyControl (pr_derive cpu) (pr_complete cpu)}.

Abbreviation trap_vector := (poly_trap_vector_dispatch os signal_os cfg malloc_fails fuel header_defines stale_errno cpu ext).

(** The guest goes on after the call with [result] in the first argument
    register and everything else as it was; or the processor refused. *)
Definition returned (packet : poly_runtime_event_record) (exported : poly_xsave_state) (result : Z) (x : trap_exit) : Prop :=
  let mode := pk_mode packet in
  (x = ExitGroup 125 /\ refused (pr_derive cpu) (pr_complete cpu) (pr_features cpu) (pr_vector_active cpu)
                          (pr_entry_accepted cpu) packet) \/
  exists st, x = Enter st /\
    continues mode (pk_next_pc packet) (<[argument_register mode := result]> (live_gpr mode exported)) st.

(** A system call other than the return from a handler. *)
Record plain_trap (packet : poly_runtime_event_record) : Prop := {
  pt_mode : poly_is_raw_foreign_mode (pk_mode packet) = true;
  pt_reason : pk_reason packet = POLY_TRAP_SYSCALL;
  pt_number : pk_number packet <> 139;
}.

(** No signal waits for the thread. *)
Definition undisturbed (packet : poly_runtime_event_record) (s : monitor) : Prop :=
  none_ready (pr_vdso cpu) (pk_mode packet) 1 32 (mo_thread s).

Lemma plain_not_sigreturn (packet : poly_runtime_event_record) : plain_trap packet ->
  is_sigreturn packet = false /\ delivers_illegal packet = false.
Proof.
  intros [_ Hr Hn]. unfold is_sigreturn, poly_aarch64_rt_sigreturn_packet, poly_riscv_rt_sigreturn_packet,
    delivers_illegal. rewrite Hr. apply Z.eqb_neq in Hn. rewrite Hn. by rewrite !andb_false_r.
Qed.

Lemma finish_returned (packet : poly_runtime_event_record) (exported : poly_xsave_state) (x86_number result : Z)
    (s : monitor) : plain_trap packet -> undisturbed packet s ->
  exists s' x, finish_traced cfg cpu packet (Some exported) x86_number result s = (s', Done x) /\
    mo_log s' = mo_log s /\ mo_memory s' = mo_memory s /\ mo_seccomp s' = mo_seccomp s /\
    returned packet exported result x.
Proof using control.
  intros Hp Hn. destruct (plain_not_sigreturn _ Hp) as [Hs Hi].
  unfold finish_traced, poly_trace_syscall_result, record_result, modify, mbind, M_bind, finish.
  set (s1 := set_winsz _ _).
  pose proof (trap_return_continues (mo_probe s1) (pr_fault_in cpu) (pr_derive cpu) (pr_complete cpu) (pr_rsp cpu)
    (pr_vdso cpu) (pr_features cpu) (bk_sequence (mo_books s1)) (pr_vector_active cpu) (pr_entry_accepted cpu) result
    packet exported (mo_thread s1) (pt_mode _ Hp) Hi Hn) as H. cbv zeta in H. rewrite Hs in H.
  destruct (poly_trap_vector_return_result _ _ _ _ _ _ _ _ _ _ _ _ _ _) as [t x]. destruct H as [Ht Hx].
  exists (set_thread t s1), x. split; [done|]. split; [done|]. split; [|split; [done|exact Hx]].
  unfold mo_memory. cbn [mo_thread set_thread]. by rewrite Ht.
Qed.

(** The run of the trap vector up to the handler of system calls. *)
Lemma vector_syscall (event : poly_v2_event_frame) (entry : option poly_monitor_entry_frame) (exported : poly_xsave_state)
    (packet : poly_runtime_event_record) (sequence : Z) (s : monitor) :
  event_packet event entry = Some (packet, sequence) -> pk_reason packet = POLY_TRAP_SYSCALL ->
  exists books, trap_vector event entry exported s =
    dispatch_syscall os signal_os cfg malloc_fails fuel header_defines stale_errno cpu ext packet (Some exported)
      (set_books books s).
Proof.
  intros Hev Hr. destruct (event_packet_ok _ _ _ _ Hev) as [Hok _]. unfold poly_trap_vector_dispatch.
  rewrite Hev, (packet_state _ _ Hok). unfold dispatch_packet. rewrite (po_mode _ Hok), Hr. eexists. reflexivity.
Qed.


(** The calls with a meaning of their own. *)
Definition special_calls : list Z :=
  [SYS_execve; SYS_exit; SYS_exit_group; SYS_bpf; SYS_prctl; SYS_seccomp; SYS_io_uring_setup; SYS_io_uring_enter;
   SYS_io_uring_register; SYS_rseq; SYS_clone3; SYS_clone].

Lemma mapped_forwards (packet : poly_runtime_event_record) (exported : poly_xsave_state) (x86 : Z) (s : monitor) :
  x86 ∉ special_calls ->
  dispatch_mapped os cfg stale_errno cpu ext packet (Some exported) x86 s =
    forward os cfg cpu packet (Some exported) x86 s.
Proof.
  intros Hx. assert (forall k, k ∈ special_calls -> (x86 =? k) = false) as Hk.
  { intros k Hk. apply Z.eqb_neq. by intros ->. }
  unfold dispatch_mapped. rewrite (Hk SYS_execve) by listed. rewrite andb_false_r.
  unfold dispatch_exit. rewrite (Hk SYS_exit), (Hk SYS_exit_group) by listed. cbn [orb].
  unfold mbind, M_bind, mret, M_ret. cbv beta iota.
  unfold seccomp_control, poly_seccomp_dispatch_control, poly_seccomp_dispatch_guest_bpf.
  rewrite (Hk SYS_bpf), (Hk SYS_prctl), (Hk SYS_seccomp) by listed. cbv beta iota.
  unfold clone_or_forward, poly_is_io_uring_syscall.
  rewrite (Hk SYS_io_uring_setup), (Hk SYS_io_uring_enter), (Hk SYS_io_uring_register), (Hk SYS_rseq), (Hk SYS_clone3),
    (Hk SYS_clone) by listed. cbn [orb andb]. by rewrite !andb_false_r.
Qed.

End Syscall.
