(* ===== verification/CloneTls.v ===== *)
(** The native thread-local storage of a new thread ([CloneCalls]): it is the
    parent's, moved. *)

From S2P Require Import Prelude SyscallMap GuestMemory GuestSignals Seccomp CStruct TrapState SignalFrame SignalDelivery HostCalls FileCalls MemCalls StructuredCalls CloneCalls.

#[local] Arguments Z.add : simpl never.
#[local] Arguments Z.mul : simpl never.

Lemma load_u64_word (m : memory) (a : Z) : byte_memory m -> word (load_u64 m a).
Proof.
  intros Hm. unfold load_u64, in_width. change (2 ^ 64) with (2 ^ (8 * Z.of_nat 8)).
  rewrite <- (load_length m a 8) at 2. apply le_value_range. unfold load. apply Forall_fmap, Forall_true. intros i. apply Hm.
Qed.

Lemma load_u64_ext (m m' : memory) (a a' : Z) :
  0 <= a -> a + 8 <= 2 ^ 64 -> 0 <= a' -> a' + 8 <= 2 ^ 64 ->
  (forall i, 0 <= i < 8 -> m' (a' + i) = m (a + i)) -> load_u64 m' a' = load_u64 m a.
Proof.
  intros Ha He Ha' He' H. unfold load_u64, load. f_equal. apply list_fmap_ext. intros i k Hk.
  apply lookup_seq in Hk as [-> Hk]. rewrite !wrap_small by (unfold in_width; lia). apply H. lia.
Qed.

Lemma load_stored_u64 (m : memory) (a v : Z) : 0 <= a -> a + 8 <= 2 ^ 64 -> word v -> load_u64 (store_u64 m a v) a = v.
Proof.
  intros Ha He Hv. pose proof (load_u64_part m a [] [] v) as H. cbn [length app Z.of_nat] in H.
  rewrite app_nil_r, Z.add_0_r, le_bytes_length in H. by apply H.
Qed.

Lemma store_u64_other (m : memory) (a v b : Z) : 0 <= a -> a + 8 <= 2 ^ 64 -> 0 <= b < 2 ^ 64 -> b < a \/ a + 8 <= b ->
  store_u64 m a v b = m b.
Proof. intros. apply store_outside; rewrite ?le_bytes_length; lia. Qed.

Lemma store_u64_bytes (m : memory) (a v : Z) : byte_memory m -> byte_memory (store_u64 m a v).
Proof.
  intros Hm b. unfold store_u64, store_bytes. destruct (le_bytes 8 v !! _) as [x|] eqn:E; [|apply Hm].
  destruct (b =? u64 b); [|apply Hm]. apply (Forall_lookup_1 _ _ _ _ (le_bytes_range 8 v) E).
Qed.

Section Move.
Context (mapping source_base : Z).
Context (Hmap : 0 < mapping) (Hend : mapping + TLS_MAPPING_SIZE < 2 ^ 64).
Context (Hsrc : 0 < source_base) (Hsend : source_base + TLS_MAPPING_SIZE < 2 ^ 64).
Context (Hdisjoint : mapping + TLS_MAPPING_SIZE <= source_base \/ source_base + TLS_MAPPING_SIZE <= mapping).

(** ** The copy *)

Lemma copy_pages_from (probe : mem_probe) (m : memory) (n : nat) : (n <= 128)%nat ->
  let m' := foldl (copy_tls_page probe mapping source_base) m (seq 0 n) in
  forall a, m' a =
    let offset := a - mapping in
    if (0 <=? offset) && (offset <? POLY_CLONE_NATIVE_TLS_PAGE * Z.of_nat n) &&
       poly_guest_range_is_mapped probe (source_base + offset / POLY_CLONE_NATIVE_TLS_PAGE * POLY_CLONE_NATIVE_TLS_PAGE)
         POLY_CLONE_NATIVE_TLS_PAGE false
    then m (source_base + offset) else m a.
Proof using Hmap Hend Hsrc Hsend Hdisjoint.
  unfold TLS_MAPPING_SIZE, POLY_CLONE_NATIVE_TLS_BEFORE, POLY_CLONE_NATIVE_TLS_AFTER, POLY_CLONE_NATIVE_TLS_PAGE in *.
  induction n as [|n IH]; cbv zeta; intros Hn a.
  { cbn [seq foldl]. change (4096 * Z.of_nat 0) with 0.
    destruct (Z.leb_spec 0 (a - mapping)), (Z.ltb_spec (a - mapping) 0); cbn [andb]; lia || done. }
  rewrite seq_S, foldl_app. cbn [foldl Nat.add]. specialize (IH ltac:(lia)). cbv zeta in IH.
  generalize dependent (foldl (copy_tls_page probe mapping source_base) m (seq 0 n)). intros m0 IH.
  unfold copy_tls_page, POLY_CLONE_NATIVE_TLS_PAGE, copy_memory. cbv zeta.
  rewrite wrap_small by (unfold in_width; lia).
  destruct (Z.eqb_spec source_base 0); [lia|]. destruct (Z.ltb_spec (source_base + 4096 * Z.of_nat n) source_base); [lia|].
  cbn [orb].
  assert (forall o, 4096 * Z.of_nat n <= o < 4096 * Z.of_nat (S n) -> o / 4096 * 4096 = 4096 * Z.of_nat n) as Hdiv.
  { intros o Ho. replace (o / 4096) with (Z.of_nat n); [lia|]. apply Z.div_unique with (o - 4096 * Z.of_nat n); lia. }
  destruct (poly_guest_range_is_mapped probe (source_base + 4096 * Z.of_nat n) 4096 false) eqn:Emap.
  - cbv beta. destruct (Z.leb_spec (mapping + 4096 * Z.of_nat n) a), (Z.ltb_spec a (mapping + 4096 * Z.of_nat n + 4096)); cbn [andb];
      rewrite IH.
    + destruct (Z.leb_spec 0 (source_base + 4096 * Z.of_nat n + (a - (mapping + 4096 * Z.of_nat n)) - mapping)),
        (Z.ltb_spec (source_base + 4096 * Z.of_nat n + (a - (mapping + 4096 * Z.of_nat n)) - mapping) (4096 * Z.of_nat n));
        cbn [andb]; try lia;
      destruct (Z.leb_spec 0 (a - mapping)), (Z.ltb_spec (a - mapping) (4096 * Z.of_nat (S n))); try lia;
      cbn [andb]; rewrite Hdiv, Emap by lia; f_equal; lia.
    + destruct (Z.leb_spec 0 (a - mapping)), (Z.ltb_spec (a - mapping) (4096 * Z.of_nat n)),
        (Z.ltb_spec (a - mapping) (4096 * Z.of_nat (S n))); try lia; done.
    + destruct (Z.leb_spec 0 (a - mapping)), (Z.ltb_spec (a - mapping) (4096 * Z.of_nat n)),
        (Z.ltb_spec (a - mapping) (4096 * Z.of_nat (S n))); try lia; done.
    + lia.
  - rewrite IH. destruct (Z.leb_spec 0 (a - mapping)), (Z.ltb_spec (a - mapping) (4096 * Z.of_nat n)),
      (Z.ltb_spec (a - mapping) (4096 * Z.of_nat (S n))); try lia; cbn [andb]; try done.
    by rewrite Hdiv, Emap by lia.
Qed.

Lemma copied_byte (probe : mem_probe) (m : memory) (a : Z) :
  copy_tls_pages probe mapping source_base m a =
    let offset := a - mapping in
    if (0 <=? offset) && (offset <? TLS_MAPPING_SIZE) &&
       poly_guest_range_is_mapped probe (source_base + offset / POLY_CLONE_NATIVE_TLS_PAGE * POLY_CLONE_NATIVE_TLS_PAGE)
         POLY_CLONE_NATIVE_TLS_PAGE false
    then m (source_base + offset) else m a.
Proof using Hmap Hend Hsrc Hsend Hdisjoint. exact (copy_pages_from probe m 128 ltac:(lia) a). Qed.

(** The word at [offset] of the parent's window, 0 if its page is not mapped. *)
Definition parent_word (probe : mem_probe) (m : memory) (offset : Z) : Z :=
  if poly_guest_range_is_mapped probe (source_base + offset / POLY_CLONE_NATIVE_TLS_PAGE * POLY_CLONE_NATIVE_TLS_PAGE)
       POLY_CLONE_NATIVE_TLS_PAGE false
  then load_u64 m (source_base + offset) else 0.

Lemma copied_word (probe : mem_probe) (m : memory) (n : Z) : 0 <= n < TLS_MAPPING_SIZE / 8 ->
  load_u64 (copy_tls_pages probe mapping source_base (clear_memory mapping TLS_MAPPING_SIZE m)) (mapping + 8 * n) =
    parent_word probe m (8 * n).
Proof using Hmap Hend Hsrc Hsend Hdisjoint.
  intros Hn. change (TLS_MAPPING_SIZE / 8) with 65536 in Hn. unfold parent_word.
  assert (forall i, 0 <= i < 8 -> (8 * n + i) / POLY_CLONE_NATIVE_TLS_PAGE = 8 * n / POLY_CLONE_NATIVE_TLS_PAGE) as Hpage.
  { intros i Hi. unfold POLY_CLONE_NATIVE_TLS_PAGE. pose proof (Z.div_mod (8 * n) 4096). pose proof (Z.mod_pos_bound (8 * n) 4096).
    symmetry. apply Z.div_unique with ((8 * n) mod 4096 + i); [left|lia].
    replace 4096 with (8 * 512) by done. rewrite Z.mul_mod_distr_l by lia.
    pose proof (Z.mod_pos_bound n 512). lia. }
  assert (TLS_MAPPING_SIZE = 524288) as Hsize by done.
  destruct (poly_guest_range_is_mapped _ _ _ _) eqn:Emap.
  - apply load_u64_ext; try lia. intros i Hi. rewrite copied_byte. cbv zeta.
    replace (mapping + 8 * n + i - mapping) with (8 * n + i) by lia. rewrite Hpage, Emap by done.
    destruct (Z.leb_spec 0 (8 * n + i)), (Z.ltb_spec (8 * n + i) TLS_MAPPING_SIZE); try lia. cbn [andb].
    unfold clear_memory. destruct (Z.leb_spec mapping (source_base + (8 * n + i))),
      (Z.ltb_spec (source_base + (8 * n + i)) (mapping + TLS_MAPPING_SIZE)); cbn [andb]; try lia; f_equal; lia.
  - transitivity (load_u64 (fun _ => 0) 0); [|done]. apply load_u64_ext; try lia. intros i Hi. rewrite copied_byte. cbv zeta.
    replace (mapping + 8 * n + i - mapping) with (8 * n + i) by lia. rewrite Hpage, Emap, andb_false_r by done.
    unfold clear_memory. destruct (Z.leb_spec mapping (mapping + 8 * n + i)),
      (Z.ltb_spec (mapping + 8 * n + i) (mapping + TLS_MAPPING_SIZE)); cbn [andb]; lia || done.
Qed.

(** ** Moving the pointers *)

Lemma rehome_word (w : Z) : word w -> word (rehome mapping source_base w).
Proof. intros H. unfold rehome. destruct (_ && _); [by apply wrap_range|done]. Qed.

Lemma rehome_from (m : memory) (n : nat) : byte_memory m -> Z.of_nat n <= 65536 ->
  let m' := foldl (rehome_slot mapping source_base) m (seq 0 n) in
  byte_memory m' /\
  (forall a, 0 <= a < 2 ^ 64 -> a < mapping \/ mapping + 8 * Z.of_nat n <= a -> m' a = m a) /\
  (forall k, 0 <= k < Z.of_nat n -> load_u64 m' (mapping + 8 * k) = rehome mapping source_base (load_u64 m (mapping + 8 * k))).
Proof using Hmap Hend.
  unfold TLS_MAPPING_SIZE, POLY_CLONE_NATIVE_TLS_BEFORE, POLY_CLONE_NATIVE_TLS_AFTER in Hend.
  intros Hb. induction n as [|n IH]; cbv zeta; intros Hn; [split; [done|split; [done|lia]]|].
  rewrite seq_S, foldl_app. cbn [foldl Nat.add]. destruct (IH ltac:(lia)) as (Hb' & Hout & Hin). clear IH.
  generalize dependent (foldl (rehome_slot mapping source_base) m (seq 0 n)). intros m0 Hb' Hout Hin.
  unfold rehome_slot. assert (load_u64 m0 (mapping + 8 * Z.of_nat n) = load_u64 m (mapping + 8 * Z.of_nat n)) as ->.
  { apply load_u64_ext; try lia. intros i Hi. apply Hout; lia. }
  split; [by apply store_u64_bytes|]. split.
  - intros a Ha Ho. rewrite store_u64_other by lia. apply Hout; lia.
  - intros k Hk. destruct (Z.eq_dec k (Z.of_nat n)) as [->|].
    + apply load_stored_u64; [lia|lia|]. by apply rehome_word, load_u64_word.
    + rewrite <- (Hin k) by lia. apply load_u64_ext; try lia. intros i Hi. apply store_u64_other; lia.
Qed.

Lemma rehome_slots_word (m : memory) (k : Z) : byte_memory m -> 0 <= k < TLS_MAPPING_SIZE / 8 ->
  byte_memory (rehome_slots mapping source_base m) /\
  load_u64 (rehome_slots mapping source_base m) (mapping + 8 * k) = rehome mapping source_base (load_u64 m (mapping + 8 * k)).
Proof using Hmap Hend.
  intros Hb Hk. change (TLS_MAPPING_SIZE / 8) with 65536 in Hk.
  destruct (rehome_from m (Z.to_nat 65536) Hb ltac:(lia)) as (Hb' & _ & H). split; [exact Hb'|apply H; lia].
Qed.

(** An address in the parent's window. *)
Definition in_window (w : Z) : Prop := source_base <= w < source_base + TLS_MAPPING_SIZE.

Lemma rehome_spec (w : Z) :
  (in_window w /\ rehome mapping source_base w = mapping + (w - source_base)) \/
  (~ in_window w /\ rehome mapping source_base w = w).
Proof using Hmap Hend Hsrc Hsend Hdisjoint.
  unfold rehome, in_window. cbv zeta. assert (TLS_MAPPING_SIZE = 524288) as Hsize by done.
  rewrite (wrap_small 64 (source_base + _)) by (unfold in_width; lia).
  destruct (Z.leb_spec source_base w), (Z.ltb_spec w (source_base + TLS_MAPPING_SIZE)); cbn [andb]; [left|right; lia..].
  rewrite wrap_small by (unfold in_width; lia). lia.
Qed.

Lemma rehome_leaves_window (w : Z) : ~ in_window (rehome mapping source_base w).
Proof using Hmap Hend Hsrc Hsend Hdisjoint.
  destruct (rehome_spec w) as [[H E]|[H E]]; rewrite E; unfold in_window in *; lia.
Qed.

Lemma rehome_twice (w : Z) : rehome mapping source_base (rehome mapping source_base w) = rehome mapping source_base w.
Proof using Hmap Hend Hsrc Hsend Hdisjoint.
  destruct (rehome_spec (rehome mapping source_base w)) as [[H _]|[_ ->]]; [|done]. by destruct (rehome_leaves_window w).
Qed.

Abbreviation thread_pointer := (mapping + POLY_CLONE_NATIVE_TLS_BEFORE).

(** The words of the thread control block that point to it. *)
Definition self_word (a : Z) : Prop := a = thread_pointer \/ a = thread_pointer + 16.

Lemma set_tcb_word (m : memory) (k : Z) : byte_memory m -> 0 <= k < TLS_MAPPING_SIZE / 8 ->
  let a := mapping + 8 * k in
  load_u64 (set_tcb mapping source_base m) a =
    if decide (a = thread_pointer \/ a = thread_pointer + 16) then thread_pointer
    else if decide (a = thread_pointer + 8) then rehome mapping source_base (load_u64 m a) else load_u64 m a.
Proof using Hmap Hend Hsrc Hsend Hdisjoint.
  intros Hb Hk a. assert (TLS_MAPPING_SIZE = 524288) as Hsize by done. change (TLS_MAPPING_SIZE / 8) with 65536 in Hk.
  unfold set_tcb. cbv zeta. unfold POLY_CLONE_NATIVE_TLS_BEFORE. set (tp := mapping + 256 * 1024).
  assert (word tp) as Hw by (unfold in_width, tp; lia).
  assert (load_u64 (store_u64 m tp tp) (tp + 8) = load_u64 m (tp + 8)) as ->.
  { apply load_u64_ext; try (unfold tp; lia). intros i Hi. apply store_u64_other; unfold tp; lia. }
  assert (forall m' b v, b <> a -> b = tp \/ b = tp + 8 \/ b = tp + 16 -> load_u64 (store_u64 m' b v) a = load_u64 m' a) as Hne.
  { intros m' b v Hba Hbs. apply load_u64_ext; try (unfold tp, a in *; lia). intros i Hi.
    apply store_u64_other; unfold tp, a in *; lia. }
  destruct (decide (a = tp \/ a = tp + 16)) as [[E|E]|Hn].
  - rewrite !Hne by lia. rewrite E. apply load_stored_u64; unfold tp; lia || done.
  - rewrite E. apply load_stored_u64; unfold tp; lia || done.
  - rewrite Hne by lia. destruct (decide (a = tp + 8)) as [E|E].
    + rewrite E. apply load_stored_u64; [unfold tp; lia..|]. by apply rehome_word, load_u64_word.
    + by rewrite !Hne by lia.
Qed.
End Move.

(** ** The whole preparation *)

Definition fs_call : host_call := MkCall SYS_arch_prctl [Val ARCH_GET_FS; Out 8].
Definition tls_map_call : host_call :=
  MkCall SYS_mmap [Val 0; Val TLS_MAPPING_SIZE; Val (Z.lor PROT_READ PROT_WRITE);
                   Val (Z.lor MAP_PRIVATE MAP_ANONYMOUS); Val (u64 (-1)); Val 0].

Lemma prepared_bytes (probe : mem_probe) (m : memory) (mapping source_base : Z) :
  0 < mapping -> mapping + TLS_MAPPING_SIZE < 2 ^ 64 -> 0 < source_base -> source_base + TLS_MAPPING_SIZE < 2 ^ 64 ->
  mapping + TLS_MAPPING_SIZE <= source_base \/ source_base + TLS_MAPPING_SIZE <= mapping -> byte_memory m ->
  byte_memory (copy_tls_pages probe mapping source_base (clear_memory mapping TLS_MAPPING_SIZE m)).
Proof.
  intros H1 H2 H3 H4 H5 Hb a. rewrite copied_byte by done. cbv zeta.
  assert (byte_memory (clear_memory mapping TLS_MAPPING_SIZE m)) as Hc.
  { intros x. unfold clear_memory. destruct (_ && _); [by unfold in_width|apply Hb]. }
  destruct (_ && _); apply Hc.
Qed.

Lemma prepared_word (probe : mem_probe) (m0 : memory) (mapping source_base k : Z) :
  0 < mapping -> mapping + TLS_MAPPING_SIZE < 2 ^ 64 -> 0 < source_base -> source_base + TLS_MAPPING_SIZE < 2 ^ 64 ->
  mapping + TLS_MAPPING_SIZE <= source_base \/ source_base + TLS_MAPPING_SIZE <= mapping -> byte_memory m0 ->
  0 <= k < TLS_MAPPING_SIZE / 8 ->
  let m := copy_tls_pages probe mapping source_base (clear_memory mapping TLS_MAPPING_SIZE m0) in
  let w := load_u64 (set_tcb mapping source_base (rehome_slots mapping source_base m)) (mapping + 8 * k) in
  ~ in_window source_base w /\
  (self_word mapping (mapping + 8 * k) /\ w = mapping + POLY_CLONE_NATIVE_TLS_BEFORE \/
   w = rehome mapping source_base (parent_word source_base probe m0 (8 * k))).
Proof.
  intros H1 H2 H3 H4 H5 Hb Hk m w. assert (byte_memory m) as Hm by (by apply prepared_bytes).
  destruct (rehome_slots_word mapping source_base H1 H2 m k Hm Hk) as [Hm' Hword].
  assert (TLS_MAPPING_SIZE = 524288) as Hsize by done. assert (POLY_CLONE_NATIVE_TLS_BEFORE = 262144) as Hbefore by done.
  unfold w. rewrite set_tcb_word by done. rewrite Hword. unfold m. rewrite copied_word by done. clear w m Hm Hm' Hword.
  destruct (decide _) as [Hself|_].
  - split; [unfold in_window; rewrite Hsize, Hbefore in *; lia|by left].
  - destruct (decide _); rewrite ?rehome_twice by done; (split; [by apply rehome_leaves_window|by right]).
Qed.

(** C24: The native thread-local storage of a new thread is its parent's, moved.
    Every word of the new window is the parent's word (0 where the parent had
    nothing mapped), except that a pointer into the parent's window points to the
    same place of the new one, and the thread control block points to itself; so
    nothing in the child's window leads back into the parent's. *)
Theorem clone_tls_moved (os : host) (s : monitor) :
  let r := os (mo_log s) (mo_memory s) (mo_probe s) fs_call in
  let parent_fs := le_value (take 8 (hr_out r)) in
  let r' := os (mo_log s ++ [fs_call]) (hr_memory r) (hr_probe r) tls_map_call in
  let mapping := hr_status r' in
  let source_base := parent_fs - POLY_CLONE_NATIVE_TLS_BEFORE in
  0 <= hr_status r -> 0 < mapping -> mapping + TLS_MAPPING_SIZE < 2 ^ 64 -> 0 < source_base ->
  source_base + TLS_MAPPING_SIZE < 2 ^ 64 ->
  mapping + TLS_MAPPING_SIZE <= source_base \/ source_base + TLS_MAPPING_SIZE <= mapping -> byte_memory (hr_memory r') ->
  exists s', poly_prepare_clone_native_tls os s =
      (s', Done (Some (mapping, TLS_MAPPING_SIZE, mapping + POLY_CLONE_NATIVE_TLS_BEFORE))) /\
    forall k, 0 <= k < TLS_MAPPING_SIZE / 8 ->
      let a := mapping + 8 * k in
      let w := load_u64 (mo_memory s') a in
      ~ in_window source_base w /\
      (self_word mapping a /\ w = mapping + POLY_CLONE_NATIVE_TLS_BEFORE \/
       w = rehome mapping source_base (parent_word source_base (hr_probe r') (hr_memory r') (8 * k))).
Proof.
  intros r parent_fs r' mapping source_base Hr H1 H2 H3 H4 H5 Hb.
  assert (TLS_MAPPING_SIZE = 524288) as Hsize by done.
  unfold poly_prepare_clone_native_tls, get_x86_fs_base, map_anonymous.
  rewrite (bind_run _ (_ ≫= _) _ (after_call fs_call r s) parent_fs).
  2:{ rewrite (bind_run _ _ _ _ _ (call_run os _ _ s)). fold fs_call r. destruct (Z.ltb_spec (hr_status r) 0); [lia|done]. }
  assert (POLY_CLONE_NATIVE_TLS_BEFORE = 262144) as Hbefore by done.
  destruct (Z.eqb_spec parent_fs 0); [unfold source_base in *; lia|].
  rewrite (bind_run _ (_ ≫= _) _ (after_call tls_map_call r' (after_call fs_call r s)) (inr mapping)).
  2:{ rewrite (bind_run _ _ _ _ _ (libc_run os _ _ _)). cbn beta iota. fold tls_map_call.
      change (os _ _ _ tls_map_call) with r'. rewrite libc_result_ok by (unfold mapping in *; lia). done. }
  rewrite Z.geb_leb. destruct (Z.leb_spec POLY_CLONE_NATIVE_TLS_BEFORE parent_fs); [|unfold source_base in *; lia].
  eexists. split; [reflexivity|]. intros k Hk. cbv zeta.
  exact (prepared_word (hr_probe r') (hr_memory r') mapping source_base k H1 H2 H3 H4 H5 Hb Hk).
Qed.
