(* ===== verification/CloneProps.v ===== *)
(** What the clone system call promises ([CloneCalls]): the parent's host call is
    the guest's but for the native thread pointer, and the child finds its state
    on its stack and continues behind the call with 0 as its result. *)

From stdpp Require Import sets.
From S2P Require Import Prelude SyscallMap GuestMemory GuestSignals Seccomp CStruct TrapState SignalFrame SignalDelivery SignalReturn SignalProps TrapClean TrapReturn HostCalls FileCalls MemCalls StructuredCalls TrapEvent CloneCalls.

#[local] Opaque sizeof c_size zeroed.
#[local] Arguments load_struct : simpl never.
#[local] Arguments store_struct : simpl never.
#[local] Arguments Z.testbit : simpl never.

(** ** What is relied on *)

(** The host maps memory inside the address space, and a new thread or process
    sees the memory as it was at the call. *)
Class CloneHost (os : host) : Prop := {
  ch_mmap log m p size prot flags fd offset :
    let r := os log m p (MkCall SYS_mmap [Val 0; Val size; prot; flags; fd; offset]) in
    -4095 <= hr_status r < 0 \/ 0 < hr_status r /\ hr_status r + size < 2 ^ 64;
  ch_child log m p args :
    let r := os log m p (MkCall SYS_clone args) in hr_status r = 0 -> hr_memory r = m;
}.

Definition tls_base (mode : Z) (s : poly_xsave_state) : Z :=
  if mode =? POLY_MODE_RAW_RISCV then ft_riscv_tls_base (xs_frontend_tls s) else ft_aarch64_tls_base (xs_frontend_tls s).

Record descriptor_words (d : poly_v2_derive_descriptor) : Prop := {
  dw_sp : word (dd_child_sp d);
  dw_tls : word (dd_child_tls d);
  dw_return : word (dd_child_return_value d);
  dw_pc : word (dd_child_pc d);
  dw_key : word (dd_state_key d);
}.

(** PDERIVE_STATE as [docs/poly-isa-v2-draft.md] describes it: the child's image
    is the parent's with the registers, the thread pointer, the address and the
    state key of the descriptor, as its flags say. *)
Class DeriveChild (derive : poly_xsave_state -> poly_v2_derive_descriptor -> Z * poly_xsave_state) : Prop := {
  derive_child (s s' : poly_xsave_state) (d : poly_v2_derive_descriptor) :
    let mode := dd_frontend d in
    let flag k := Z.testbit (dd_flags d) k in
    poly_is_raw_foreign_mode mode = true -> flag 2 = true -> flag 7 = true -> state_ok s -> descriptor_words d ->
    derive s d = (0, s') ->
    state_ok s' /\ hd_foreign_pc (xs_header s') = dd_child_pc d /\
    live_gpr mode s' =
      (if flag 0 then <[stack_register mode := dd_child_sp d]> else id)
        (<[argument_register mode := dd_child_return_value d]> (live_gpr mode s)) /\
    tls_base mode s' = (if flag 1 then dd_child_tls d else tls_base mode s);
}.

(** ** Values *)

Lemma without_15 (x : Z) : word x -> x - 15 <= without x 15 <= x.
Proof. intros H. unfold without. destruct (align_down_16 x H) as [-> ?]. done. Qed.

Lemma arg_word (packet : poly_runtime_event_record) (n : nat) : c_ok ct_runtime_event_record packet -> word (arg packet n).
Proof.
  intros H. ok_inv H. unfold arg. rewrite <- nth_lookup. by eapply nth_word.
Qed.

Section Values.
Context (cfg : run_settings) (packet : poly_runtime_event_record).

Lemma child_flags (sp tls handoff : Z) :
  let d := child_descriptor cfg packet sp tls handoff in
  Z.testbit (dd_flags d) 2 = true /\ Z.testbit (dd_flags d) 7 = true /\
  Z.testbit (dd_flags d) 0 = negb (sp =? 0) /\ Z.testbit (dd_flags d) 1 = negb (tls =? 0).
Proof. unfold child_descriptor. by destruct (sp =? 0), (tls =? 0), (rs_explicit_state_key cfg). Qed.

Lemma child_stack_word (mode stack : Z) (s : poly_xsave_state) : word stack -> state_ok s ->
  word (child_frontend_stack mode stack s).
Proof.
  intros Hw H. ok_inv H. ok_part ct_trap_restore_state. unfold child_frontend_stack.
  destruct (negb (stack =? 0)); [done|].
  destruct (mode =? POLY_MODE_RAW_AARCH64); [destruct (_ && _); by eapply nth_word|].
  destruct (mode =? POLY_MODE_RAW_RISCV); [destruct (_ && _); by eapply nth_word|done].
Qed.

Lemma child_header_ok (h : poly_xsave_header) : c_ok ct_xsave_header h ->
  c_ok ct_xsave_header (set_hd_reserved0 0 (set_hd_current_mode (u32 (pk_mode packet)) h)).
Proof.
  intros H. apply set_hd_reserved0_ok. ok_inv H. unfold ct_xsave_header. ok_split;
    cbn [hd_magic hd_layout_version hd_header_bytes hd_total_bytes hd_current_mode hd_flags hd_foreign_pc hd_foreign_tls_base
      hd_trap_vector_pc hd_trap_vector_mode hd_spill_reason hd_reserved0 set_hd_current_mode];
    lazymatch goal with |- c_ok _ (u32 _) => apply wrap_range; lia | |- _ => clean_ok end.
Qed.

Lemma child_state_ok (s : poly_xsave_state) : state_ok s -> state_ok (child_state packet s).
Proof.
  intros H. ok_inv H. unfold child_state, poly_clear_return_transition_state, poly_clear_native_return_state,
    poly_clear_foreign_return_transition_state, ct_xsave_state. cbn [c_ok c_struct c_pair fst snd].
  repeat match goal with |- _ /\ _ => split end;
    cbn [xs_header xs_event_record xs_event_args xs_transition xs_aarch64_gpr xs_aarch64_fp xs_aarch64_status xs_riscv_gpr
      xs_riscv_fp xs_riscv_status xs_import_return xs_abi_signature xs_cross_return xs_frontend_tls xs_landing_policy
      xs_state_key xs_pre_trap_restore_reserved xs_trap_restore xs_native_return xs_reserved set_xs_header set_xs_transition
      set_xs_import_return set_xs_cross_return set_xs_native_return];
    try clean_ok.
  - by apply child_header_ok.
  - unfold ct_import_return_state. ok_split; cbn [ir_top ir_depth ir_frames ir_reserved]; clean_ok.
  - unfold ct_cross_return_state. ok_split; cbn [cr_top cr_depth cr_frames cr_reserved]; clean_ok.
  - unfold ct_native_return_state. ok_split;
      cbn [nr_active_valid nr_top nr_depth nr_supported_flags nr_active nr_frames nr_reserved]; clean_ok.
Qed.

(** The registers, the address and the thread pointer are the derived ones. *)
Lemma child_state_keeps (s : poly_xsave_state) : poly_is_raw_foreign_mode (pk_mode packet) = true ->
  let mode := pk_mode packet in
  continues mode (hd_foreign_pc (xs_header s)) (live_gpr mode s) (child_state packet s) /\
  tls_base mode (child_state packet s) = tls_base mode s.
Proof.
  intros Hm mode. assert (u32 mode = mode) as Hu by (unfold mode; by destruct (raw_modes _ Hm) as [-> | ->]).
  unfold continues, live_gpr, tls_base, child_state. cbn. fold mode. rewrite Hu. by destruct (mode =? POLY_MODE_RAW_RISCV).
Qed.
End Values.

(** ** The run *)

Section Run.
Context (os : host) (cfg : run_settings) `{!CloneHost os}.
Context (derive : poly_xsave_state -> poly_v2_derive_descriptor -> Z * poly_xsave_state).

Definition anywhere (s : monitor) : Prop := True.

Lemma map_anonymous_run (size : Z) : 0 <= size ->
  triple anywhere (map_anonymous os size)
    (fun r _ => match r with inl _ => True | inr a => 0 < a /\ a + size < 2 ^ 64 end).
Proof using CloneHost0.
  intros Hsize s _. unfold map_anonymous. rewrite (bind_run _ _ _ _ _ (libc_run os _ _ s)). cbn beta iota.
  eexists _, _. split; [reflexivity|]. set (r := os _ _ _ _).
  destruct (ch_mmap (mo_log s) (mo_memory s) (mo_probe s) size (Val (Z.lor PROT_READ PROT_WRITE))
    (Val (Z.lor MAP_PRIVATE MAP_ANONYMOUS)) (Val (u64 (-1))) (Val 0)) as [H|H]; fold r in H; unfold libc_result;
    destruct (Z.leb_spec (-4095) (hr_status r)), (Z.ltb_spec (hr_status r) 0); cbn [andb]; try done; try lia.
  rewrite wrap_small; [done|]. unfold in_width. fold r in H. lia.
Qed.

Definition words3 (t : Z * Z * Z) : Prop := let '(a, b, c) := t in word a /\ word b /\ word c.

Lemma native_tls_run :
  triple anywhere (poly_prepare_clone_native_tls os) (fun r _ => match r with None => True | Some t => words3 t end).
Proof using CloneHost0.
  assert (word 0) as H0 by (by unfold in_width).
  unfold poly_prepare_clone_native_tls. apply (triple_bind _ _ (fun _ => anywhere)).
  { intros s _. eexists _, _. split; [reflexivity|done]. }
  intros fs. destruct (fs =? 0); [by apply triple_ret|].
  eapply triple_bind; [by apply map_anonymous_run|]. intros [e|a]; [by apply triple_ret|].
  intros s [Ha Hend]. eexists _, _. split; [reflexivity|]. unfold TLS_MAPPING_SIZE, POLY_CLONE_NATIVE_TLS_BEFORE,
    POLY_CLONE_NATIVE_TLS_AFTER, words3, in_width in *. lia.
Qed.

(** The child's stack leads to the block, and the state in the block is the one
    derived from the parent's. *)
Definition handed (packet : poly_runtime_event_record) (exported : poly_xsave_state) (stack tls : Z) (plan : clone_plan)
    (m : memory) : Prop :=
  load_u64 m (cp_native_child_stack plan) = cp_handoff plan /\
  0 < cp_handoff plan /\ cp_handoff plan + HANDOFF_MAPPING_SIZE < 2 ^ 64 /\
  exists derived,
    derive exported (child_descriptor cfg packet (child_frontend_stack (pk_mode packet) stack exported) tls
                       (cp_handoff plan)) = (0, derived) /\
    ho_state (load_struct ct_clone_child_handoff m (cp_handoff plan)) = child_state packet derived.

Context `{!DeriveChild derive}.
Context (packet : poly_runtime_event_record) (exported : poly_xsave_state).
Context (Hm : poly_is_raw_foreign_mode (pk_mode packet) = true) (Hp : c_ok ct_runtime_event_record packet)
  (Hs : state_ok exported).

Lemma derived_child (stack tls handoff : Z) (derived : poly_xsave_state) : word stack -> word tls -> word handoff ->
  word (handoff + ANCHOR_OFFSET) ->
  let sp := child_frontend_stack (pk_mode packet) stack exported in
  derive exported (child_descriptor cfg packet sp tls handoff) = (0, derived) ->
  state_ok derived /\ hd_foreign_pc (xs_header derived) = pk_next_pc packet /\
  live_gpr (pk_mode packet) derived =
    (if sp =? 0 then id else <[stack_register (pk_mode packet) := sp]>)
      (<[argument_register (pk_mode packet) := 0]> (live_gpr (pk_mode packet) exported)) /\
  tls_base (pk_mode packet) derived = (if tls =? 0 then tls_base (pk_mode packet) exported else tls).
Proof using DeriveChild0 Hm Hp Hs.
  intros Hst Ht Hh Ha sp Hd. destruct (child_flags cfg packet sp tls handoff) as (F2 & F7 & F0 & F1).
  assert (dd_frontend (child_descriptor cfg packet sp tls handoff) = pk_mode packet) as Hf.
  { change (u32 (pk_mode packet) = pk_mode packet). by destruct (raw_modes _ Hm) as [-> | ->]. }
  assert (descriptor_words (child_descriptor cfg packet sp tls handoff)) as Hw.
  { assert (word 0) by (by unfold in_width). split; [by apply child_stack_word|done|done| |].
    - ok_inv Hp. assumption.
    - unfold child_descriptor. cbn [dd_state_key]. by destruct (rs_explicit_state_key cfg). }
  apply derive_child in Hd; rewrite ?Hf; auto. rewrite Hf, F0, F1 in Hd. destruct Hd as (H1 & H2 & H3 & H4).
  split; [done|]. split; [done|]. split; [|by destruct (tls =? 0)]. by destruct (sp =? 0).
Qed.

(** The slot on the child's stack lies behind the block. *)
Lemma slot_place (handoff : Z) : 0 < handoff -> handoff + HANDOFF_MAPPING_SIZE < 2 ^ 64 ->
  let slot := without (handoff + HANDOFF_MAPPING_SIZE) 15 - 8 in
  handoff + HANDOFF_BYTES <= slot /\ slot + 8 <= 2 ^ 64.
Proof.
  intros H0 Hend. destruct (without_15 (handoff + HANDOFF_MAPPING_SIZE)) as [? ?].
  { unfold in_width, HANDOFF_MAPPING_SIZE, HANDOFF_BYTES, POLY_CLONE_MONITOR_STACK_SIZE in *. lia. }
  unfold HANDOFF_MAPPING_SIZE, HANDOFF_BYTES, POLY_CLONE_MONITOR_STACK_SIZE in *. cbn. lia.
Qed.

Lemma block_stored (m : memory) (handoff : Z) (h : poly_clone_child_handoff) : c_ok ct_clone_child_handoff h ->
  0 < handoff -> handoff + HANDOFF_MAPPING_SIZE < 2 ^ 64 ->
  let slot := without (handoff + HANDOFF_MAPPING_SIZE) 15 - 8 in
  let m' := store_u64 (store_struct ct_clone_child_handoff m handoff h) slot handoff in
  load_u64 m' slot = handoff /\ load_struct ct_clone_child_handoff m' handoff = h.
Proof.
  intros Hh H0 Hend slot m'. destruct (slot_place handoff H0 Hend) as [Hlo Hhi]. fold slot in Hlo, Hhi.
  destruct handoff_layout as [Hsize _].
  assert (word handoff) as Hw by (unfold in_width, HANDOFF_MAPPING_SIZE, HANDOFF_BYTES, POLY_CLONE_MONITOR_STACK_SIZE in *; lia).
  assert (handoff + HANDOFF_BYTES <= 2 ^ 64) by lia. split.
  - pose proof (load_u64_part (store_struct ct_clone_child_handoff m handoff h) slot [] [] handoff) as H1.
    cbn [length app Z.of_nat] in H1. rewrite app_nil_r, Z.add_0_r, le_bytes_length in H1.
    apply H1; unfold HANDOFF_BYTES in *; lia || done.
  - rewrite (load_struct_ext _ (store_struct ct_clone_child_handoff m handoff h)).
    + apply (load_store_struct ct_clone_child_handoff m handoff h Hh); lia.
    + lia.
    + lia.
    + intros a Ha. apply store_outside; rewrite ?le_bytes_length; unfold HANDOFF_BYTES in *; lia.
Qed.

Lemma block_words (handoff : Z) : 0 < handoff -> handoff + HANDOFF_MAPPING_SIZE < 2 ^ 64 ->
  word handoff /\ word (handoff + ANCHOR_OFFSET).
Proof.
  unfold HANDOFF_MAPPING_SIZE, HANDOFF_BYTES, POLY_CLONE_MONITOR_STACK_SIZE, ANCHOR_OFFSET, in_width. lia.
Qed.

Lemma handoff_run (stack tls : Z) : word stack -> word tls ->
  triple anywhere (poly_prepare_clone_child_handoff os cfg derive packet exported stack tls)
    (fun r s => match r with None => True | Some plan => handed packet exported stack tls plan (mo_memory s) end).
Proof using CloneHost0 DeriveChild0 Hm Hp Hs.
  intros Hst Ht. assert (word 0) as H0 by (by unfold in_width). unfold poly_prepare_clone_child_handoff.
  eapply triple_bind; [by apply map_anonymous_run|]. intros [e|handoff]; [by apply triple_ret|].
  intros s [Hpos Hend]. rewrite (bind_run _ (update_memory _) _ _ _ eq_refl). cbn beta.
  match goal with |- exists s' a, (_ ≫= ?f) ?s1 = _ /\ _ => set (rest := f); set (s0 := s1) end.
  assert (exists s1 r, (if rs_clone_native_tls cfg then poly_prepare_clone_native_tls os else mret (Some (0, 0, 0))) s0 =
    (s1, Done r) /\ match r with None => True | Some t => words3 t end) as (s1 & r & Hr & Hw).
  { destruct (rs_clone_native_tls cfg); [by apply native_tls_run|]. by eexists _, _. }
  rewrite (bind_run _ _ _ _ _ Hr). unfold rest. destruct r as [[[a b] c]|]; [|by eexists _, _]. destruct Hw as (Ha & Hb & Hc).
  rewrite (bind_run _ (update_memory _) _ _ _ eq_refl). cbn beta.
  destruct (derive exported _) as [status derived] eqn:Ed.
  destruct (Z.eqb_spec status 0) as [->|]; cbn [negb]; [|by eexists _, _]. eexists _, _. split; [reflexivity|].
  destruct (block_words handoff Hpos Hend) as [Hwh Hwa].
  apply derived_child in Ed as Hd; [|done|done|exact Hwh|exact Hwa].
  destruct Hd as [Hok _].
  match goal with |- context [store_struct ct_clone_child_handoff ?m handoff (MkHandoff packet (child_state packet derived) 0 _ _ _ _ _ _ _)] =>
    destruct (block_stored m handoff
      (MkHandoff packet (child_state packet derived) 0 a b c handoff HANDOFF_MAPPING_SIZE stack tls)) as [Hslot Hblock] end.
  { unfold ct_clone_child_handoff. ok_split;
      cbn [ho_packet ho_state ho_state_key_anchor ho_native_tls_mapping ho_native_tls_mapping_size ho_native_tls_base
        ho_mapping ho_mapping_size ho_foreign_stack ho_foreign_tls];
      lazymatch goal with
      | |- c_ok ct_xsave_state _ => by apply child_state_ok
      | |- c_ok (c_uint 8) HANDOFF_MAPPING_SIZE => by vm_compute
      | |- c_ok (c_uint 8) handoff => exact Hwh
      | |- c_ok (c_uint 1) 0 => by vm_compute
      | |- _ => ok_done
      end. }
  { done. }
  { done. }
  split; [exact Hslot|]. split; [exact Hpos|]. split; [exact Hend|]. exists derived. split; [exact Ed|].
  exact (f_equal ho_state Hblock).
Qed.

(** ** The two sides *)

Context (key : Z -> bool) (installed accepted : bool).

(** The image that the child gives to the processor. *)
Definition child_enters (stack tls : Z) (x : trap_exit) : Prop :=
  let mode := pk_mode packet in
  let sp := child_frontend_stack mode stack exported in
  exists given st, x = Enter st /\ activated derive given st /\ importable given /\
    continues mode (pk_next_pc packet)
      ((if sp =? 0 then id else <[stack_register mode := sp]>) (<[argument_register mode := 0]> (live_gpr mode exported)))
      given /\
    tls_base mode given = (if tls =? 0 then tls_base mode exported else tls).

(** Cleaning keeps what the frontend continues with. *)
Lemma sanitized_continues (mode pc : Z) (gpr : list Z) (s : poly_xsave_state) : continues mode pc gpr s ->
  continues mode pc gpr (poly_sanitize_trap_state_for_import s) /\
  tls_base mode (poly_sanitize_trap_state_for_import s) = tls_base mode s.
Proof.
  intros (H1 & H2 & H3). pose proof (sanitize_same_context s) as [Hh _ [Ga _] [Gr _] _ _ [Gt _] _ _].
  generalize dependent (poly_sanitize_trap_state_for_import s). intros c Hh Ga Gr Gt.
  apply (f_equal hd_current_mode) in Hh as Hc.
  apply (f_equal hd_foreign_pc) in Hh as Hf. cbn in Hc, Hf.
  split; [|unfold tls_base; by rewrite Gt]. split; [congruence|]. split; [congruence|].
  unfold live_gpr in *. destruct (mode =? POLY_MODE_RAW_RISCV); congruence.
Qed.

Lemma child_entry_run (stack tls : Z) (plan : clone_plan) (s : monitor) : word stack -> word tls ->
  handed packet exported stack tls plan (mo_memory s) ->
  match (poly_clone_child_entry cfg derive key installed accepted (cp_handoff plan) s).2 with
  | Done x => child_enters stack tls x
  | Leaves x => x = ExitProcess 125
  | Running => False
  end.
Proof using DeriveChild0 Hm Hp Hs.
  intros Hst Ht (_ & Hpos & Hend & derived & Hd & Hblock). destruct (block_words _ Hpos Hend) as [Hw Hwa].
  unfold poly_clone_child_entry. destruct (Z.eqb_spec (cp_handoff plan) 0); [lia|]. rewrite (bind_run _ (get _) _ _ _ eq_refl). cbn beta.
  rewrite Hblock. destruct (_ && _); [reflexivity|]. destruct (_ || _); [reflexivity|].
  rewrite (bind_run _ (update_memory _) _ _ _ eq_refl). cbn beta. unfold poly_activate_state_with_pderive.
  set (given := poly_sanitize_trap_state_for_import (child_state packet derived)).
  destruct (derive given _) as [status st] eqn:E. destruct (Z.eqb_spec status 0) as [->|]; [|reflexivity].
  apply derived_child in Hd as (Hok & Hpc & Hgpr & Htls); [|done..].
  destruct (child_state_keeps packet derived Hm) as [Hc Htl]. rewrite Hpc, Hgpr in Hc. rewrite Htls in Htl.
  apply sanitized_continues in Hc as [Hc Hsame]. fold given in Hc, Hsame.
  exists given, st. split; [done|]. split; [exact E|]. split; [apply sanitize_importable|]. split; [exact Hc|].
  by rewrite Hsame.
Qed.

(** The host call for the guest's: the same but for the stack and the native
    thread pointer. *)
Definition asks (c : host_call) : Prop := exists flags stack tls handoff,
  c = MkCall SYS_clone [Val flags; Val stack; Val (arg packet 2); Val (arg packet 4); Val tls; Val handoff] /\
  without flags CLONE_SETTLS = without (arg packet 0) CLONE_SETTLS.

Lemma settls_only (flags base : Z) :
  without (if base =? 0 then without flags CLONE_SETTLS else Z.lor flags CLONE_SETTLS) CLONE_SETTLS =
  without flags CLONE_SETTLS.
Proof.
  unfold without. destruct (base =? 0); [by rewrite <- Z.land_assoc, Z.land_diag|].
  rewrite Z.land_lor_distr_l. change (Z.land CLONE_SETTLS _) with 0. by rewrite Z.lor_0_r.
Qed.

Lemma vfork_stack_run (stack : Z) :
  triple anywhere (poly_prepare_vfork_foreign_stack os stack)
    (fun r _ => match r with None => True | Some sp => word sp end).
Proof using CloneHost0.
  intros s _. unfold poly_prepare_vfork_foreign_stack. rewrite (bind_run _ (get _) _ _ _ eq_refl). cbn beta.
  destruct (negb _); [by eexists _, _|]. revert s.
  enough (triple anywhere (mapping ← map_anonymous os POLY_CLONE_VFORK_FOREIGN_STACK_SIZE;
    match mapping with
    | inl _ => mret None
    | inr mapping =>
        let stack_top := without (mapping + POLY_CLONE_VFORK_FOREIGN_STACK_SIZE) 0xf in
        let child_stack := stack_top - 16 in
        update_memory (fun m => store_bytes m child_stack (load m stack 16));; mret (Some child_stack)
    end) (fun r _ => match r with None => True | Some sp => word sp end)) as H by (intros s; by apply H).
  eapply triple_bind; [by apply map_anonymous_run|]. intros [e|a]; [by apply triple_ret|].
  intros s [Ha Hend]. cbv zeta. eexists _, _. split; [reflexivity|]. cbn beta iota.
  destruct (without_15 (a + POLY_CLONE_VFORK_FOREIGN_STACK_SIZE)) as [? ?];
    unfold in_width, POLY_CLONE_VFORK_FOREIGN_STACK_SIZE in *; lia.
Qed.

(** The thread pointer that the guest asked for. *)
Definition asked_tls : Z := if has (arg packet 0) CLONE_SETTLS then arg packet 3 else 0.

End Run.
