(* ===== verification/ExecveProps.v ===== *)
(** What replacing the program promises ([ExecveCall]): the new monitor gets the
    guest's arguments and environment, in arrays that are large enough. *)

From stdpp Require Import strings.
From S2P Require Import Prelude SyscallMap GuestMemory GuestSignals Seccomp LoaderBase BridgeSpec SignalFrame TrapReturn HostCalls FileCalls StructuredCalls ExecveCall.

(** The vector at [address] has the entries [l] and then a null pointer. *)
Definition vector_at (m : memory) (address : Z) (l : list Z) : Prop :=
  (forall i v, l !! i = Some v -> load_u64 m (address + 8 * Z.of_nat i) = v /\ v <> 0) /\
  load_u64 m (address + 8 * Z.of_nat (length l)) = 0.

Lemma read_vector_spec (m : memory) (limit : nat) : forall address l,
  read_vector m address limit = Some l -> (length l < limit)%nat /\ vector_at m address l.
Proof.
  induction limit as [|limit IH]; intros address l; cbn [read_vector]; [done|].
  destruct (Z.eqb_spec (load_u64 m address) 0) as [E|E].
  { intros [= <-]. split; [cbn; lia|]. split; [by intros i v|].
    by replace (address + 8 * Z.of_nat (length [])) with address by (cbn; lia). }
  destruct (read_vector m (address + 8) limit) as [l'|] eqn:El; [|done]. intros [= <-].
  destruct (IH _ _ El) as [Hl [Hv Hz]]. split; [cbn; lia|]. split.
  - intros [|i] v; cbn [lookup list_lookup]; [intros [= <-]; by replace (address + 8 * Z.of_nat 0) with address by lia|].
    intros H. destruct (Hv i v H) as [Hi Hne]. split; [|done]. rewrite <- Hi. f_equal. lia.
  - rewrite <- Hz. f_equal. cbn [length]. lia.
Qed.

Section Execve.
Context (os : host) (cfg : run_settings) (stale_errno : Z).

(** The guest's variables that are passed on. *)
Definition passed_on (m : memory) (envp : list c_string) : list c_string :=
  filter (fun e => poly_env_entry_has_key m GUEST_ARGV0 e = false) envp.

Lemma argv0_env_length (m : memory) (argv : list Z) : (length (guest_argv0_env m argv) <= 1)%nat.
Proof. unfold guest_argv0_env. destruct argv as [|a l]; cbv zeta; [|destruct (_ <? _)%nat]; cbn [length]; lia. Qed.

Lemma has_key_app (m : memory) (l k : list c_string) (key : list Z) :
  poly_env_has_key m (l ++ k) key = poly_env_has_key m l key || poly_env_has_key m k key.
Proof. apply existsb_app. Qed.

(** The environment: the guest's variables first, at most five more, and the
    variables that the new monitor depends on. *)
Lemma new_envp_spec (m : memory) (argv : list Z) (envp : list c_string) :
  passed_on m envp `prefix_of` new_envp cfg m argv envp /\
  (length (new_envp cfg m argv envp) + 1 <= length envp + 6)%nat /\
  Forall (fun key => poly_env_has_key m (new_envp cfg m argv envp) (bytes_of_string key) = true)
    ["POLYEXEC_STDOUT_PASSTHROUGH"; "POLYEXEC_PROCESS_NO_FORK"; "POLY_PROCESS_REAL_INTERPRETER"]%string /\
  (polyexec_protect_runtime_signals (rs_signals cfg) = true ->
   poly_env_has_key m (new_envp cfg m argv envp) (bytes_of_string "POLYEXEC_PROTECT_RUNTIME_SIGNALS") = true).
Proof.
  unfold new_envp. fold (passed_on m envp). pose proof (argv0_env_length m argv) as Ha.
  assert (length (passed_on m envp) <= length envp)%nat as Hf by apply length_filter.
  set (env0 := passed_on m envp ++ _). assert (passed_on m envp `prefix_of` env0) as Hp by (by eexists).
  assert (length env0 <= length envp + 3)%nat as Hl by (unfold env0; rewrite !length_app; cbn; lia).
  assert (poly_env_has_key m env0 (bytes_of_string "POLYEXEC_STDOUT_PASSTHROUGH") = true /\
          poly_env_has_key m env0 (bytes_of_string "POLYEXEC_PROCESS_NO_FORK") = true) as [K1 K2].
  { unfold env0. rewrite !has_key_app. split; apply orb_true_iff; right; apply orb_true_iff; right; reflexivity. }
  clearbody env0. cbv zeta. set (env1 := if poly_env_has_key m env0 _ then env0 else _).
  assert (passed_on m envp `prefix_of` env1 /\ (length env1 <= length envp + 4)%nat /\
    poly_env_has_key m env1 (bytes_of_string "POLYEXEC_STDOUT_PASSTHROUGH") = true /\
    poly_env_has_key m env1 (bytes_of_string "POLYEXEC_PROCESS_NO_FORK") = true /\
    poly_env_has_key m env1 (bytes_of_string "POLY_PROCESS_REAL_INTERPRETER") = true) as (P1 & L1 & Q1 & Q2 & Q3).
  { unfold env1. destruct (poly_env_has_key m env0 (bytes_of_string "POLY_PROCESS_REAL_INTERPRETER")) eqn:E.
    - split; [done|]. split; [lia|]. by rewrite K1, K2, E.
    - split; [by apply prefix_app_r|]. rewrite length_app. split; [cbn; lia|]. rewrite !has_key_app, K1, K2. split; [done|].
      split; [done|]. apply orb_true_iff. right. reflexivity. }
  clearbody env1. destruct (polyexec_protect_runtime_signals (rs_signals cfg)); cbn [andb].
  2:{ split; [done|]. split; [lia|]. split; [by repeat constructor|done]. }
  destruct (poly_env_has_key m env1 (bytes_of_string "POLYEXEC_PROTECT_RUNTIME_SIGNALS")) eqn:E; cbn [negb].
  { split; [done|]. split; [lia|]. split; [by repeat constructor|done]. }
  split; [by apply prefix_app_r|]. rewrite length_app. split; [cbn; lia|].
  split; [repeat constructor; by rewrite has_key_app, ?Q1, ?Q2, ?Q3|]. intros _. rewrite has_key_app, E. reflexivity.
Qed.

End Execve.
