(* ===== verification/CoreFile.v ===== *)
(** The files that a fatal signal leaves behind ([poly_write_fatal_debug_note] and the
    functions before it in [tools/runtime/polyexec.c]): the debug note of the thread as
    it is, and an ELF core file with notes, the mapped program and the guest stack.

    Outside the model: the note that the processor dumps and the state it exports, the
    memory probe, the identities of the process, and the host's files.  The host answers
    a [write] with a part of the bytes, an interruption or a failure; [answers] are those
    of the coming calls, and calls behind its end write everything.  A file is written from
    its beginning on, so that [lseek] gives the number of bytes written. *)

From stdpp Require Import strings.
From S2P Require Import Prelude LoaderBase GuestMemory CStruct BridgeSpec ElfImage ElfLoad LibraryPath TrapState.

(** ** ELF headers

    [Elf64_Ehdr] and [Elf64_Phdr] as they are written, and how the reader of [ElfLoad]
    sees them. *)

Record elf64_ehdr : Type := MkElf64Ehdr {
  eh_ident : list Z; eh_type : Z; eh_machine : Z; eh_version : Z; eh_entry : Z; eh_phoff : Z; eh_shoff : Z; eh_flags : Z;
  eh_ehsize : Z; eh_phentsize : Z; eh_phnum : Z; eh_shentsize : Z; eh_shnum : Z; eh_shstrndx : Z;
}.
Definition ct_ehdr : ctype elf64_ehdr :=
  c_struct (fun x => (eh_ident x, eh_type x, eh_machine x, eh_version x, eh_entry x, eh_phoff x, eh_shoff x, eh_flags x,
    eh_ehsize x, eh_phentsize x, eh_phnum x, eh_shentsize x, eh_shnum x, eh_shstrndx x))
    (fun '(a, b, c, d, e, f, g, h, i, j, k, l, m, n) => MkElf64Ehdr a b c d e f g h i j k l m n)
    (c_array 16 (c_uint 1) ** c_u16 ** c_u16 ** c_u32 ** c_u64 ** c_u64 ** c_u64 ** c_u32 ** c_u16 ** c_u16 ** c_u16 **
      c_u16 ** c_u16 ** c_u16)%cstruct.

Record elf64_phdr : Type := MkElf64Phdr {
  ph_type : Z; ph_flags : Z; ph_offset : Z; ph_vaddr : Z; ph_paddr : Z; ph_filesz : Z; ph_memsz : Z; ph_align : Z;
}.
Definition ct_phdr : ctype elf64_phdr :=
  c_struct (fun x => (ph_type x, ph_flags x, ph_offset x, ph_vaddr x, ph_paddr x, ph_filesz x, ph_memsz x, ph_align x))
    (fun '(a, b, c, d, e, f, g, h) => MkElf64Phdr a b c d e f g h)
    (c_u32 ** c_u32 ** c_u64 ** c_u64 ** c_u64 ** c_u64 ** c_u64 ** c_u64)%cstruct.

#[export] Instance ct_ehdr_layout : Layout ct_ehdr := _.
#[export] Instance ct_phdr_layout : Layout ct_phdr := _.

(** The sizes, as the reader has them. *)
Lemma elf_structure_sizes : sizeof ct_ehdr = SIZEOF_EHDR /\ sizeof ct_phdr = SIZEOF_PHDR.
Proof. by vm_compute. Qed.

(** [bs] is at [off]. *)
Definition bytes_here (img : image) (off : Z) (bs : list Z) : Prop :=
  exists before after, img = before ++ bs ++ after /\ size_of before = off.

Lemma here_read (img : image) (off : Z) (bs : list Z) (n : nat) :
  bytes_here img off bs -> length bs = n -> read_bytes img off n = Ok bs.
Proof. intros (before & after & -> & <-) Hn. by apply read_bytes_middle. Qed.

Lemma here_app (img : image) (off : Z) (a b : list Z) :
  bytes_here img off (a ++ b) -> bytes_here img off a /\ bytes_here img (off + size_of a) b.
Proof.
  intros (before & after & -> & <-). split.
  - exists before, (b ++ after). by rewrite <- app_assoc.
  - exists (before ++ a), after. split; [by rewrite <- !app_assoc|by rewrite size_of_app].
Qed.

(** An integer that was written is read. *)
Lemma here_uint (img : image) (off : Z) (n : nat) (v : Z) :
  bytes_here img off (le_bytes n v) -> in_width (8 * Z.of_nat n) v ->
  (bs ← read_bytes img off n; Ok (or_bytes 0 0 bs)) = Ok v.
Proof.
  intros H Hv. rewrite (here_read _ _ _ n H) by apply le_bytes_length. cbn [mbind outcome_bind].
  rewrite or_bytes_le, le_value_bytes by apply le_bytes_range. f_equal. by apply wrap_small.
Qed.

(** The same, with the offset as the reader has it. *)
Lemma here_u8 (img : image) (off off' v : Z) :
  bytes_here img off (le_bytes 1 v) -> in_width (8 * Z.of_nat 1) v -> off' = off -> read_u8 img off' = Ok v.
Proof. intros H Hv ->. by apply (here_uint img off 1). Qed.
Lemma here_u16 (img : image) (off off' v : Z) :
  bytes_here img off (le_bytes 2 v) -> in_width (8 * Z.of_nat 2) v -> off' = off -> read_u16_le img off' = Ok v.
Proof. intros H Hv ->. by apply (here_uint img off 2). Qed.
Lemma here_u32 (img : image) (off off' v : Z) :
  bytes_here img off (le_bytes 4 v) -> in_width (8 * Z.of_nat 4) v -> off' = off -> read_u32_le img off' = Ok v.
Proof. intros H Hv ->. by apply (here_uint img off 4). Qed.
Lemma here_u64 (img : image) (off off' v : Z) :
  bytes_here img off (le_bytes 8 v) -> in_width (8 * Z.of_nat 8) v -> off' = off -> read_u64_le img off' = Ok v.
Proof. intros H Hv ->. by apply (here_uint img off 8). Qed.

(** The fields of a structure that is at [off], one after the other. *)
Ltac here_fields H :=
  lazymatch type of H with
  | bytes_here _ _ (_ ++ _) =>
      let H2 := fresh "Hf" in apply here_app in H as [H H2]; rewrite ?size_le_bytes in H2; here_fields H2
  | _ => idtac
  end.

(** Reads the integers of a structure. *)
Ltac read_fields :=
  repeat (match goal with
  | H : bytes_here ?i ?o (le_bytes _ ?v), W : in_width _ ?v |- context [read_u8 ?i ?o'] =>
      rewrite (here_u8 i o o' v H W ltac:(lia))
  | H : bytes_here ?i ?o (le_bytes _ ?v), W : in_width _ ?v |- context [read_u16_le ?i ?o'] =>
      rewrite (here_u16 i o o' v H W ltac:(lia))
  | H : bytes_here ?i ?o (le_bytes _ ?v), W : in_width _ ?v |- context [read_u32_le ?i ?o'] =>
      rewrite (here_u32 i o o' v H W ltac:(lia))
  | H : bytes_here ?i ?o (le_bytes _ ?v), W : in_width _ ?v |- context [read_u64_le ?i ?o'] =>
      rewrite (here_u64 i o o' v H W ltac:(lia))
  end; cbn [mbind outcome_bind]).

Definition phdr_view (x : elf64_phdr) : elf_phdr :=
  MkPhdr (ph_type x) (ph_flags x) (ph_offset x) (ph_vaddr x) (ph_filesz x) (ph_memsz x) (ph_align x).

Lemma read_phdr_here (img : image) (off : Z) (x : elf64_phdr) :
  bytes_here img off (c_bytes ct_phdr x) -> c_ok ct_phdr x -> read_phdr img off = Ok (phdr_view x).
Proof.
  intros H Hx. unfold ct_phdr in H, Hx. cbn [c_bytes c_ok c_struct c_pair c_uint fst snd] in H, Hx.
  rewrite <- !app_assoc in H. here_fields H. destruct_and! Hx. unfold read_phdr. by read_fields.
Qed.

Definition ehdr_view (x : elf64_ehdr) : elf_ehdr :=
  MkEhdr (eh_ident x) (eh_type x) (eh_machine x) (eh_entry x) (eh_phoff x) (eh_shoff x) (eh_phentsize x) (eh_phnum x)
    (eh_shentsize x) (eh_shnum x).

Lemma read_ehdr_here (img : image) (x : elf64_ehdr) :
  bytes_here img 0 (c_bytes ct_ehdr x) -> c_ok ct_ehdr x -> read_ehdr img = Ok (ehdr_view x).
Proof.
  intros H Hx. unfold ct_ehdr in H, Hx. cbn [c_bytes c_ok c_struct c_pair c_array c_uint fst snd] in H, Hx.
  rewrite <- !app_assoc in H. apply here_app in H as [H Hr].
  destruct Hx as [Hx ?]. repeat match type of Hx with _ /\ in_width _ _ => destruct Hx as [Hx ?] end. destruct Hx as [Hl Hid].
  assert (flat_map (le_bytes 1) (eh_ident x) = eh_ident x) as Ei.
  { clear -Hid. induction Hid as [|b l Hb _ IH]; [done|]. cbn [flat_map]. rewrite IH. cbn [le_bytes app]. f_equal.
    exact (wrap_small 8 b Hb). }
  rewrite Ei in H, Hr. assert (size_of (eh_ident x) = 16) as Es by (unfold size_of; lia). rewrite Es in Hr. here_fields Hr.
  unfold read_ehdr. rewrite (here_read _ _ _ 16 H) by done. cbn [mbind outcome_bind]. by read_fields.
Qed.

(** An entry of a table. *)
Lemma here_table {A} (c : ctype A) `{!Layout c} (img : image) (l : list A) (n : nat) (x : A) : forall off,
  bytes_here img off (flat_map (c_bytes c) l) -> Forall (c_ok c) l -> l !! n = Some x ->
  bytes_here img (off + Z.of_nat n * sizeof c) (c_bytes c x).
Proof.
  revert n. induction l as [|y l IH]; intros n off H Hl Hn; [done|]. apply Forall_cons in Hl as [Hy Hl].
  cbn [flat_map] in H. apply here_app in H as [H H2]. destruct n as [|n]; [injection Hn as ->; by rewrite Z.mul_0_l, Z.add_0_r|].
  cbn in Hn. unfold size_of in H2. rewrite layout_length in H2 by done. pose proof (IH n _ H2 Hl Hn) as H3. unfold sizeof in *.
  by replace (off + Z.of_nat (S n) * Z.of_nat (c_size c)) with (off + Z.of_nat (c_size c) + Z.of_nat n * Z.of_nat (c_size c)) by lia.
Qed.

(** ** Constants *)

Definition POLYEXEC_ELF_NOTE_NAME : list Z := bytes_of_string "POLY" ++ [0].
Definition POLYEXEC_ELF_CORE_NOTE_NAME : list Z := bytes_of_string "CORE" ++ [0].
Definition POLYEXEC_ELF_NOTE_TYPE_V2_DEBUG : Z := 0x32564744.
Definition POLYEXEC_CORE_STACK_BYTES : Z := 64 * 1024.
Definition POLYEXEC_CORE_PAGE_BYTES : Z := 4096.
Definition POLYEXEC_CORE_MAX_FILE_MAPPINGS : nat := 16.
Definition NT_PRSTATUS : Z := 1.
Definition NT_PRPSINFO : Z := 3.
Definition NT_AUXV : Z := 6.
Definition NT_FILE : Z := 0x46494c45.
Definition NT_SIGINFO : Z := 0x53494749.
Definition ET_CORE : Z := 4.
Definition EV_CURRENT : Z := 1.
Definition EM_X86_64 : Z := 62.
Definition PF_W : Z := 2.
Definition PF_R : Z := 4.
Definition POLY_V2_DEBUG_NOTE_MAGIC : Z := 0x32474244594c4f50.
Definition POLY_V2_DEBUG_NOTE_BYTES : Z := 9216.
Definition POLY_V2_DEBUG_NOTE_VERSION : Z := 2.
Definition POLY_V2_DEBUG_NOTE_HEADER_BYTES : Z := 512.
Definition POLY_V2_DEBUG_NOTE_XSAVE_OFFSET : Z := 1024.
Definition POLY_V2_DEBUG_NOTE_FLAG_HAS_XSAVE : Z := 2.
Definition POLY_V2_DEBUG_NOTE_FLAG_SPILLED : Z := 4.
Definition POLY_V2_DUMP_SELECTOR_LIVE : Z := 0.
Definition POLY_TRANSITION_FLAG_INTERRUPTED_RAW : Z := 0x200.
Definition POLY_STATE_XSAVE_MAGIC : Z := 0x31594c50.

(** ** Structures *)

(** [struct poly_elf_siginfo64] *)
Record poly_elf_siginfo64 : Type := MkElfSiginfo { esi_signo : Z; esi_code : Z; esi_errno : Z; }.
Definition ct_elf_siginfo64 : ctype poly_elf_siginfo64 :=
  c_struct (fun x => (esi_signo x, esi_code x, esi_errno x)) (fun '(a, b, c) => MkElfSiginfo a b c)
    (c_int32 ** c_int32 ** c_int32)%cstruct.

Record poly_elf_nt_siginfo64 : Type := MkNtSiginfo {
  nsi_signo : Z; nsi_errno : Z; nsi_code : Z; nsi_reserved0 : Z; nsi_fault_addr : Z; nsi_reserved : list Z;
}.
Definition ct_nt_siginfo64 : ctype poly_elf_nt_siginfo64 :=
  c_struct (fun x => (nsi_signo x, nsi_errno x, nsi_code x, nsi_reserved0 x, nsi_fault_addr x, nsi_reserved x))
    (fun '(a, b, c, d, e, f) => MkNtSiginfo a b c d e f)
    (c_int32 ** c_int32 ** c_int32 ** c_int32 ** c_u64 ** c_array 104 (c_uint 1))%cstruct.

(** The two structures differ in the number of registers.  [pr_cursig] by its bits; the
    four times are two words each. *)
Record poly_elf_prstatus : Type := MkPrstatus {
  pr_info : poly_elf_siginfo64; pr_cursig : Z; pr_sigpend : Z; pr_sighold : Z; pr_pid : Z; pr_ppid : Z; pr_pgrp : Z; pr_sid : Z;
  pr_times : list Z; pr_reg : list Z; pr_fpvalid : Z;
}.
Definition ct_prstatus (registers : nat) : ctype poly_elf_prstatus :=
  c_struct (fun x => (pr_info x, pr_cursig x, tt, pr_sigpend x, pr_sighold x, pr_pid x, pr_ppid x, pr_pgrp x, pr_sid x,
    pr_times x, pr_reg x, pr_fpvalid x, tt))
    (fun '(a, b, _, c, d, e, f, g, h, i, j, k, _) => MkPrstatus a b c d e f g h i j k)
    (ct_elf_siginfo64 ** c_u16 ** c_pad 2 ** c_u64 ** c_u64 ** c_int32 ** c_int32 ** c_int32 ** c_int32 ** c_array 8 c_u64 **
      c_array registers c_u64 ** c_int32 ** c_pad 4)%cstruct.
Definition ct_prstatus_aarch64 : ctype poly_elf_prstatus := ct_prstatus 34.
Definition ct_prstatus_riscv : ctype poly_elf_prstatus := ct_prstatus 32.

Record poly_elf_prpsinfo64 : Type := MkPrpsinfo {
  ps_state : Z; ps_sname : Z; ps_zomb : Z; ps_nice : Z; ps_flag : Z; ps_uid : Z; ps_gid : Z; ps_pid : Z; ps_ppid : Z;
  ps_pgrp : Z; ps_sid : Z; ps_fname : list Z; ps_psargs : list Z;
}.
Definition ct_prpsinfo64 : ctype poly_elf_prpsinfo64 :=
  c_struct (fun x => (ps_state x, ps_sname x, ps_zomb x, ps_nice x, tt, ps_flag x, ps_uid x, ps_gid x, ps_pid x, ps_ppid x,
    ps_pgrp x, ps_sid x, ps_fname x, ps_psargs x))
    (fun '(a, b, c, d, _, e, f, g, h, i, j, k, l, m) => MkPrpsinfo a b c d e f g h i j k l m)
    (c_uint 1 ** c_uint 1 ** c_uint 1 ** c_uint 1 ** c_pad 4 ** c_u64 ** c_u32 ** c_u32 ** c_int32 ** c_int32 ** c_int32 **
      c_int32 ** c_array 16 (c_uint 1) ** c_array 80 (c_uint 1))%cstruct.

(** [struct poly_v2_debug_note]; nothing here looks into the event frame, which is its
    512 bytes. *)
Record poly_v2_debug_note : Type := MkNote {
  dn_magic : Z; dn_bytes : Z; dn_version : Z; dn_header_bytes : Z; dn_selector : Z; dn_flags : Z; dn_frontend : Z;
  dn_current_mode : Z; dn_state_layout_version : Z; dn_state_bytes : Z; dn_pc : Z; dn_sp : Z; dn_tls : Z; dn_status0 : Z;
  dn_status1 : Z; dn_event_sequence : Z; dn_event_kind : Z; dn_fault_address : Z; dn_raw_syndrome : Z; dn_gpr_valid_mask : Z;
  dn_fp_valid_mask : Z; dn_transition_depth : Z; dn_transition_top_cookie : Z; dn_state_key : Z; dn_spill_descriptor : Z;
  dn_spill_generation : Z; dn_event_offset : Z; dn_event_bytes : Z; dn_xsave_offset : Z; dn_xsave_bytes : Z;
  dn_reserved : list Z; dn_event : list Z; dn_state : poly_xsave_state;
}.
Definition ct_debug_note : ctype poly_v2_debug_note :=
  c_struct (fun x => (dn_magic x, dn_bytes x, dn_version x, dn_header_bytes x, dn_selector x, dn_flags x, dn_frontend x,
    dn_current_mode x, dn_state_layout_version x, dn_state_bytes x, dn_pc x, dn_sp x, dn_tls x, dn_status0 x,
    dn_status1 x, dn_event_sequence x, dn_event_kind x, dn_fault_address x, dn_raw_syndrome x, dn_gpr_valid_mask x,
    dn_fp_valid_mask x, dn_transition_depth x, dn_transition_top_cookie x, dn_state_key x, dn_spill_descriptor x,
    dn_spill_generation x, dn_event_offset x, dn_event_bytes x, dn_xsave_offset x, dn_xsave_bytes x,
    dn_reserved x, dn_event x, dn_state x))
    (fun '(magic, nbytes, version, header, selector, flags, frontend, mode, layout, total, pc, sp, tls, st0, st1, seq,
      kind, fault, syndrome, gprs, fps, depth, cookie, key, spill, gen, ev_off, ev_len, xs_off, xs_len, pad, event,
      state) =>
      MkNote magic nbytes version header selector flags frontend mode layout total pc sp tls st0 st1 seq kind fault
        syndrome gprs fps depth cookie key spill gen ev_off ev_len xs_off xs_len pad event state)
    (c_u64 ** c_u32 ** c_u16 ** c_u16 ** c_u64 ** c_u64 ** c_u32 ** c_u32 ** c_u32 ** c_u32 ** c_u64 ** c_u64 ** c_u64 ** c_u64 **
      c_u64 ** c_u64 ** c_u64 ** c_u64 ** c_u64 ** c_u64 ** c_u64 ** c_u64 ** c_u64 ** c_u64 ** c_u64 ** c_u64 ** c_u64 ** c_u64 **
      c_u64 ** c_u64 ** c_array 304 (c_uint 1) ** c_array 512 (c_uint 1) ** ct_xsave_state)%cstruct.

(** [struct poly_core_file_mapping]; [memory] is an address. *)
Record poly_core_file_mapping : Type := MkCoreMapping {
  cm_start : Z; cm_end : Z; cm_file_page_offset : Z; cm_memory : Z; cm_filesz : Z; cm_flags : Z; cm_path : list Z;
}.

(** ** The path *)

Definition poly_append_char (path_size : Z) (value : Z) (path : list Z) : option (list Z) :=
  if Z.of_nat (length path) + 1 >=? path_size then None else Some (path ++ [value]).

Fixpoint poly_append_cstr (path_size : Z) (text : list Z) (path : list Z) : option (list Z) :=
  match text with
  | [] => Some path
  | c :: text' => path ← poly_append_char path_size c path; poly_append_cstr path_size text' path
  end.

(** The digits, the last one first; at most [k]. *)
Fixpoint dec_digits (k : nat) (value : Z) : list Z :=
  match k with
  | O => []
  | S k' => (48 + value mod 10) :: (if value / 10 =? 0 then [] else dec_digits k' (value / 10))
  end.

Definition poly_append_u64_dec (path_size value : Z) (path : list Z) : option (list Z) :=
  poly_append_cstr path_size (rev (dec_digits 20 value)) path.

Record core_host : Type := MkCoreHost {
  ch_pid : Z; ch_ppid : Z; ch_pgrp : Z; ch_sid : Z; ch_tid : Z; ch_uid : Z; ch_gid : Z;
}.

Definition poly_build_fatal_debug_note_path (host : core_host) (dir : option (list Z)) (path_size signum : Z) (suffix : list Z)
    : option (list Z) :=
  match dir with
  | None | Some [] => None
  | Some dir =>
      if (path_size =? 0) || bool_decide (suffix = []) then None
      else
        path ← poly_append_cstr path_size dir [];
        path ← (if bool_decide (path = []) || bool_decide (last path = Some 47) then Some path
                else poly_append_char path_size 47 path);
        path ← poly_append_cstr path_size (bytes_of_string "polyexec-v2-fatal-note-") path;
        path ← poly_append_u64_dec path_size (u64 (ch_pid host)) path;
        path ← poly_append_char path_size 45 path;
        path ← poly_append_u64_dec path_size (u64 (ch_tid host)) path;
        path ← poly_append_cstr path_size (bytes_of_string "-sig") path;
        path ← poly_append_u64_dec path_size (u64 signum) path;
        poly_append_cstr path_size suffix path
  end.

(** ** Writing *)

Inductive write_answer : Type :=
  (** at most so many bytes *)
  | Wrote (n : nat)
  | Interrupted
  | Failed.

(** The file behind the descriptor, which is written from its beginning on. *)
Record fd_state : Type := MkFd {
  fd_bytes : list Z;
  fd_answers : list write_answer;
}.

(** [true]: 0; [false]: -1. *)
Definition fd_cmd : Type := fd_state -> fd_state * bool.

Definition fd_done : fd_cmd := fun s => (s, true).
Definition fd_then (a b : fd_cmd) : fd_cmd := fun s => let '(s, ok) := a s in if ok : bool then b s else (s, false).

Declare Scope fd_scope.
Delimit Scope fd_scope with fd.
Infix "&&&" := fd_then (at level 40, left associativity) : fd_scope.

Fixpoint write_loop (answers : list write_answer) (data out : list Z) : fd_state * bool :=
  match data with
  | [] => (MkFd out answers, true)
  | _ =>
      match answers with
      | [] => (MkFd (out ++ data) [], true)
      | Interrupted :: answers' => write_loop answers' data out
      | Failed :: answers' | Wrote O :: answers' => (MkFd out answers', false)
      | Wrote n :: answers' => write_loop answers' (drop n data) (out ++ take n data)
      end
  end.

Definition poly_write_all_fd (data : list Z) : fd_cmd := fun s => write_loop (fd_answers s) data (fd_bytes s).

Definition poly_align4_size (value : Z) : Z := Z.land (u64 (value + 3)) (u64 (Z.lnot 3)).

(** [zero_pad], as far as needed *)
Definition zero_pad (size : Z) : list Z := repeat 0 (Z.to_nat (poly_align4_size size - size)).

Definition poly_elf_note_size (name_size desc_size : Z) : Z := u64 (12 + poly_align4_size name_size + poly_align4_size desc_size).

Definition ct_nhdr : ctype (Z * Z * Z) := (c_u32 ** c_u32 ** c_u32)%cstruct.

Definition poly_write_elf_note (name : list Z) (type : Z) (desc : list Z) : fd_cmd :=
  (poly_write_all_fd (c_bytes ct_nhdr (u32 (size_of name), u32 (size_of desc), type)) &&&
   poly_write_all_fd name &&& poly_write_all_fd (zero_pad (size_of name)) &&&
   poly_write_all_fd desc &&& poly_write_all_fd (zero_pad (size_of desc)))%fd.

(** ** What is in the core file *)

Definition poly_core_page_align_down (value : Z) : Z := Z.land value (u64 (Z.lnot (POLYEXEC_CORE_PAGE_BYTES - 1))).

Definition poly_core_page_align_up (value : Z) : Z :=
  Z.land (u64 (value + POLYEXEC_CORE_PAGE_BYTES - 1)) (u64 (Z.lnot (POLYEXEC_CORE_PAGE_BYTES - 1))).

Section Core.
Context (probe : mem_probe) (m : memory) (host : core_host).
(** [poly_runtime_signal_code], [poly_runtime_signal_addr] *)
Context (signal_code signal_addr : Z).

(** The loop over the pages from [start] on, of which [k] are left. *)
Fixpoint stack_pages (k : nat) (start bytes : Z) : Z :=
  match k with
  | O => bytes
  | S k' =>
      if negb (poly_guest_range_is_mapped probe (u64 (start + bytes)) POLYEXEC_CORE_PAGE_BYTES false) then bytes
      else stack_pages k' start (bytes + POLYEXEC_CORE_PAGE_BYTES)
  end.

(** The size, and where the range begins. *)
Definition poly_guest_stack_core_range (note : poly_v2_debug_note) : Z * Z :=
  let sp :=
    if (dn_sp note =? 0) && (dn_frontend note =? POLY_MODE_RAW_AARCH64) then nth 31 (xs_aarch64_gpr (dn_state note)) 0
    else if (dn_sp note =? 0) && (dn_frontend note =? POLY_MODE_RAW_RISCV) then nth 2 (xs_riscv_gpr (dn_state note)) 0
    else dn_sp note in
  if sp =? 0 then (0, 0)
  else
    let start := poly_core_page_align_down sp in
    let bytes := stack_pages (Z.to_nat (POLYEXEC_CORE_STACK_BYTES / POLYEXEC_CORE_PAGE_BYTES)) start 0 in
    if bytes =? 0 then (0, 0) else (bytes, start).

(** The mapping of one segment; [None]: [continue]. *)
Definition core_mapping (prog : loaded_program) (loaded_image : Z) (segment : poly_load_segment) : option poly_core_file_mapping :=
  let base := base_vaddr (lp_header prog) in
  let load_bias := u64 (loaded_image - base) in
  if (seg_memsz segment =? 0) || (seg_vaddr segment >? UINT64_MAX - seg_memsz segment) then None
  else
    let page_vaddr := poly_core_page_align_down (seg_vaddr segment) in
    let page_end := poly_core_page_align_up (seg_vaddr segment + seg_memsz segment) in
    if (page_end <=? page_vaddr) || (page_vaddr <? base) || (u64 (page_end - base) >? code_size (lp_header prog)) ||
       (load_bias >? UINT64_MAX - page_vaddr) then None
    else
      let start := load_bias + page_vaddr in
      if start >? UINT64_MAX - (page_end - page_vaddr) then None
      else Some (MkCoreMapping start (start + (page_end - page_vaddr))
                   (poly_core_page_align_down (seg_offset segment) / POLYEXEC_CORE_PAGE_BYTES)
                   (loaded_image + (page_vaddr - base)) (page_end - page_vaddr) (seg_flags segment) (lp_path prog)).

(** The loop, with room for [k] more mappings. *)
Fixpoint collect_loop (prog : loaded_program) (loaded_image : Z) (k : nat) (segments : list poly_load_segment)
    : list poly_core_file_mapping :=
  match k, segments with
  | S k', segment :: segments' =>
      match core_mapping prog loaded_image segment with
      | None => collect_loop prog loaded_image k segments'
      | Some mapping => mapping :: collect_loop prog loaded_image k' segments'
      end
  | _, _ => []
  end.

(** [ctx]: the program of the process and where its image is, if there is one. *)
Definition poly_collect_core_file_mappings (ctx : option (loaded_program * Z)) : list poly_core_file_mapping :=
  match ctx with
  | None => []
  | Some (prog, loaded_image) =>
      collect_loop prog loaded_image POLYEXEC_CORE_MAX_FILE_MAPPINGS (lp_load_segments prog)
  end.

Definition poly_core_nt_file_desc_size (mappings : list poly_core_file_mapping) : Z :=
  match mappings with
  | [] => 0
  | _ => foldl (fun bytes x => u64 (bytes + (size_of (cm_path x) + 1))) (u64 (2 * 8 + Z.of_nat (length mappings) * 3 * 8)) mappings
  end.

Definition each_fd {A} (f : A -> fd_cmd) (l : list A) : fd_cmd := foldr (fun a rest => fd_then (f a) rest) fd_done l.

Definition poly_write_elf_nt_file_note (mappings : list poly_core_file_mapping) : fd_cmd :=
  match mappings with
  | [] => fd_done
  | _ =>
      let desc_size := poly_core_nt_file_desc_size mappings in
      let name := POLYEXEC_ELF_CORE_NOTE_NAME in
      (poly_write_all_fd (c_bytes ct_nhdr (size_of name, u32 desc_size, NT_FILE)) &&&
       poly_write_all_fd name &&& poly_write_all_fd (zero_pad (size_of name)) &&&
       poly_write_all_fd (c_bytes (c_array 2 c_u64) [Z.of_nat (length mappings); POLYEXEC_CORE_PAGE_BYTES]) &&&
       each_fd (fun x => poly_write_all_fd (c_bytes (c_array 3 c_u64) [cm_start x; cm_end x; cm_file_page_offset x])) mappings &&&
       each_fd (fun x => poly_write_all_fd (cm_path x ++ [0])) mappings &&&
       poly_write_all_fd (zero_pad desc_size))%fd
  end.

(** The rest of the zeros, a page at a time; [k] bounds the rounds. *)
Fixpoint zero_loop (k : nat) (remaining : Z) : fd_cmd :=
  if remaining =? 0 then fd_done
  else
    match k with
    | O => fun s => (s, false)
    | S k' =>
        let chunk := if remaining >? POLYEXEC_CORE_PAGE_BYTES then POLYEXEC_CORE_PAGE_BYTES else remaining in
        (poly_write_all_fd (repeat 0 (Z.to_nat chunk)) &&& zero_loop k' (remaining - chunk))%fd
    end.

Definition poly_write_zero_padding_to_offset (target_offset : Z) : fd_cmd := fun s =>
  let current := size_of (fd_bytes s) in
  if current >? target_offset then (s, false)
  else zero_loop (Z.to_nat (target_offset - current)) (target_offset - current) s.

Definition poly_write_core_load_segment (offset memory_address bytes : Z) : fd_cmd :=
  if bytes =? 0 then fd_done
  else (poly_write_zero_padding_to_offset offset &&& poly_write_all_fd (load m memory_address (Z.to_nat bytes)))%fd.

(** ** Notes *)

Definition poly_init_prstatus_common (signum : Z) (reg : list Z) : poly_elf_prstatus :=
  MkPrstatus (MkElfSiginfo signum 0 0) (u16 signum) 0 0 (ch_pid host) (ch_ppid host) (ch_pgrp host) (ch_sid host) (repeat 0 8) reg 0.

Definition poly_fill_aarch64_prstatus (note : poly_v2_debug_note) (signum : Z) : poly_elf_prstatus :=
  let gpr := xs_aarch64_gpr (dn_state note) in
  poly_init_prstatus_common signum
    (take 31 gpr ++ [if negb (dn_sp note =? 0) then dn_sp note else nth 31 gpr 0; dn_pc note; as_nzcv (xs_aarch64_status (dn_state note))]).

Definition poly_fill_riscv_prstatus (note : poly_v2_debug_note) (signum : Z) : poly_elf_prstatus :=
  let reg := dn_pc note :: drop 1 (xs_riscv_gpr (dn_state note)) in
  poly_init_prstatus_common signum (if nth 2 reg 0 =? 0 then <[2%nat := dn_sp note]> reg else reg).

(** [dst] is what is left of the array. *)
Fixpoint poly_copy_short_cstr (dst src : list Z) : list Z :=
  match dst with
  | [] => []
  | _ :: dst' =>
      match dst', src with
      | [], _ | _, [] => 0 :: dst'
      | _, c :: src' => c :: poly_copy_short_cstr dst' src'
      end
  end.

Definition poly_fill_prpsinfo : poly_elf_prpsinfo64 :=
  MkPrpsinfo 0 82 0 0 0 (ch_uid host) (ch_gid host) (ch_pid host) (ch_ppid host) (ch_pgrp host) (ch_sid host)
    (poly_copy_short_cstr (repeat 0 16) (bytes_of_string "polyexec"))
    (poly_copy_short_cstr (repeat 0 80) (bytes_of_string "polyexec fatal guest core")).

Definition poly_debug_note_pc_from_event (s : poly_xsave_state) : Z :=
  let e := xs_event_record s in
  let active := ta_active (xs_transition s) in
  if negb (er_resume_pc e =? 0) then er_resume_pc e
  else if negb (er_trap_pc e =? 0) then er_trap_pc e
  else if negb (Z.land (tf_flags active) POLY_TRANSITION_FLAG_INTERRUPTED_RAW =? 0) && negb (tf_return_pc active =? 0)
  then tf_return_pc active
  else hd_foreign_pc (xs_header s).

Definition poly_state_has_interrupted_raw_frontend (s : poly_xsave_state) (frontend : Z) : bool :=
  negb (Z.land (tf_flags (ta_active (xs_transition s))) POLY_TRANSITION_FLAG_INTERRUPTED_RAW =? 0) &&
  (tf_target_mode (ta_active (xs_transition s)) =? frontend) && poly_is_raw_foreign_mode frontend.

(** What the four functions below have in common; [fill] completes the copy of the state. *)
Definition synthesized_note (s : poly_xsave_state) (frontend sp frontend_tls status0 status1 event_kind fault_address mask : Z)
    (fill : poly_xsave_state -> poly_xsave_state) : poly_v2_debug_note :=
  let h := xs_header s in
  let pc := poly_debug_note_pc_from_event s in
  let tls := if negb (frontend_tls =? 0) then frontend_tls else hd_foreign_tls_base h in
  MkNote POLY_V2_DEBUG_NOTE_MAGIC POLY_V2_DEBUG_NOTE_BYTES POLY_V2_DEBUG_NOTE_VERSION POLY_V2_DEBUG_NOTE_HEADER_BYTES
    POLY_V2_DUMP_SELECTOR_LIVE (Z.lor POLY_V2_DEBUG_NOTE_FLAG_HAS_XSAVE POLY_V2_DEBUG_NOTE_FLAG_SPILLED) frontend
    (hd_current_mode h) (hd_layout_version h) (hd_total_bytes h) pc sp tls status0 status1 0 event_kind fault_address 0 mask
    0xffffffff 0 0 (sk_explicit_key (xs_state_key s)) 0 0 0 0 POLY_V2_DEBUG_NOTE_XSAVE_OFFSET (sizeof ct_xsave_state)
    (repeat 0 304) (repeat 0 512)
    (fill (set_xs_header
      (MkHeader (hd_magic h) (hd_layout_version h) (hd_header_bytes h) (hd_total_bytes h) frontend (hd_flags h) pc tls
         (hd_trap_vector_pc h) (hd_trap_vector_mode h) (hd_spill_reason h) (hd_reserved0 h)) s)).

Definition poly_synthesize_aarch64_debug_note_from_state (s : poly_xsave_state) : option poly_v2_debug_note :=
  let r := xs_trap_restore s in
  let valid := Z.lor POLY_TRAP_RESTORE_FLAG_VALID POLY_TRAP_RESTORE_FLAG_AARCH64_STATE_VALID in
  if negb (Z.land (tr_flags r) valid =? valid) || negb (tr_mode r =? POLY_MODE_RAW_AARCH64) ||
     negb (poly_aarch64_trap_restore_gpr_mask_usable (tr_aarch64_gpr_valid_mask r)) then None
  else Some (synthesized_note s POLY_MODE_RAW_AARCH64 (nth 31 (tr_aarch64_gpr r) 0) (ft_aarch64_tls_base (xs_frontend_tls s))
    (tr_aarch64_nzcv r) (tr_aarch64_fpcr r) (er_reason (xs_event_record s)) 0 (tr_aarch64_gpr_valid_mask r)
    (fun s =>
       let a := xs_aarch64_status s in
       set_xs_aarch64_status
         (MkA64Status (tr_aarch64_nzcv r) (tr_aarch64_fpcr r) (tr_aarch64_fpsr r) (as_reservation_addr a) (as_reservation_size a)
            (as_reserved a))
         (set_xs_aarch64_fp (tr_aarch64_fp r) (set_xs_aarch64_gpr (tr_aarch64_gpr r) s)))).

Definition poly_synthesize_riscv_debug_note_from_state (s : poly_xsave_state) : option poly_v2_debug_note :=
  let r := xs_trap_restore s in
  let valid := Z.lor POLY_TRAP_RESTORE_FLAG_VALID POLY_TRAP_RESTORE_FLAG_RISCV_STATE_VALID in
  if negb (Z.land (tr_flags r) valid =? valid) || negb (tr_mode r =? POLY_MODE_RAW_RISCV) ||
     (tr_riscv_gpr_valid_mask r =? 0) then None
  else Some (synthesized_note s POLY_MODE_RAW_RISCV (nth 2 (tr_riscv_gpr r) 0) (ft_riscv_tls_base (xs_frontend_tls s))
    (tr_riscv_fcsr r) 0 (er_reason (xs_event_record s)) 0 (tr_riscv_gpr_valid_mask r)
    (fun s =>
       let v := xs_riscv_status s in
       set_xs_riscv_status (MkRvStatus (tr_riscv_fcsr r) (rvs_reservation_addr v) (rvs_reservation_size v) (rvs_reserved v))
         (set_xs_riscv_fp (tr_riscv_fp r) (set_xs_riscv_gpr (tr_riscv_gpr r) s)))).

Definition poly_synthesize_interrupted_aarch64_debug_note_from_state (s : poly_xsave_state) : option poly_v2_debug_note :=
  if negb (poly_state_has_interrupted_raw_frontend s POLY_MODE_RAW_AARCH64) then None
  else Some (synthesized_note s POLY_MODE_RAW_AARCH64 (nth 31 (xs_aarch64_gpr s) 0) (ft_aarch64_tls_base (xs_frontend_tls s))
    (as_nzcv (xs_aarch64_status s)) (as_fpcr (xs_aarch64_status s)) 0 signal_addr POLY_AARCH64_GPR_VALID_MASK_FULL id).

Definition poly_synthesize_interrupted_riscv_debug_note_from_state (s : poly_xsave_state) : option poly_v2_debug_note :=
  if negb (poly_state_has_interrupted_raw_frontend s POLY_MODE_RAW_RISCV) then None
  else Some (synthesized_note s POLY_MODE_RAW_RISCV (nth 2 (xs_riscv_gpr s) 0) (ft_riscv_tls_base (xs_frontend_tls s))
    (rvs_fcsr (xs_riscv_status s)) 0 0 signal_addr POLY_RISCV_GPR_VALID_MASK_FULL id).

(** The first that applies; [s] is what the processor exports. *)
Definition poly_synthesize_debug_note_from_trap_state (s : poly_xsave_state) : option poly_v2_debug_note :=
  if negb (hd_magic (xs_header s) =? POLY_STATE_XSAVE_MAGIC) then None
  else
    match poly_synthesize_aarch64_debug_note_from_state s with
    | Some note => Some note
    | None =>
        match poly_synthesize_riscv_debug_note_from_state s with
        | Some note => Some note
        | None =>
            match poly_synthesize_interrupted_aarch64_debug_note_from_state s with
            | Some note => Some note
            | None => poly_synthesize_interrupted_riscv_debug_note_from_state s
            end
        end
    end.

Definition poly_debug_note_elf_machine (frontend : Z) : Z :=
  if frontend =? POLY_MODE_RAW_AARCH64 then EM_AARCH64
  else if frontend =? POLY_MODE_RAW_RISCV then EM_RISCV
  else EM_X86_64.

(** ** The core file *)

Definition core_siginfo (note : poly_v2_debug_note) (signum : Z) : poly_elf_nt_siginfo64 :=
  MkNtSiginfo signum 0 signal_code 0 (if negb (dn_fault_address note =? 0) then dn_fault_address note else signal_addr) (repeat 0 104).

Definition core_prstatus (note : poly_v2_debug_note) (signum : Z) : option (list Z) :=
  if dn_frontend note =? POLY_MODE_RAW_AARCH64 then Some (c_bytes ct_prstatus_aarch64 (poly_fill_aarch64_prstatus note signum))
  else if dn_frontend note =? POLY_MODE_RAW_RISCV then Some (c_bytes ct_prstatus_riscv (poly_fill_riscv_prstatus note signum))
  else None.

(** [{ AT_NULL, 0 }] *)
Definition core_auxv : list Z := c_bytes (c_array 2 c_u64) [0; 0].

(** [note_filesz], as it is added up *)
Definition core_note_filesz (prstatus : option (list Z)) (mappings : list poly_core_file_mapping) : Z :=
  let add size n := u64 (n + poly_elf_note_size 5 size) in
  let n := add (sizeof ct_nt_siginfo64) 0 in
  let n := match prstatus with None => n | Some bytes => add (size_of bytes) n end in
  let n := add (sizeof ct_prpsinfo64) n in
  let n := add 16 n in
  let n := if negb (length mappings =? 0)%nat then add (poly_core_nt_file_desc_size mappings) n else n in
  add (sizeof ct_debug_note) n.

(** A load segment: its flags, its address in the guest, where its bytes are, its size. *)
Record core_segment : Type := MkCoreSegment { cs_flags : Z; cs_vaddr : Z; cs_memory : Z; cs_size : Z; }.

Definition mapping_segment (x : poly_core_file_mapping) : core_segment :=
  MkCoreSegment (cm_flags x) (cm_start x) (cm_memory x) (cm_filesz x).

Definition stack_segment (stack_filesz stack_vaddr : Z) : list core_segment :=
  if negb (stack_filesz =? 0) then [MkCoreSegment (Z.lor PF_R PF_W) stack_vaddr stack_vaddr stack_filesz] else [].

(** The headers of the load segments, from [next_load_offset] on. *)
Fixpoint core_phdrs (next_load_offset : Z) (segments : list core_segment) : list elf64_phdr :=
  match segments with
  | [] => []
  | x :: segments' =>
      MkElf64Phdr PT_LOAD (cs_flags x) next_load_offset (cs_vaddr x) 0 (cs_size x) (cs_size x) POLYEXEC_CORE_PAGE_BYTES ::
      core_phdrs (poly_core_page_align_up (u64 (next_load_offset + cs_size x))) segments'
  end.

Definition core_ehdr (frontend phnum : Z) : elf64_ehdr :=
  MkElf64Ehdr ([127; 69; 76; 70; 2; 1; EV_CURRENT] ++ repeat 0 9) ET_CORE (poly_debug_note_elf_machine frontend) EV_CURRENT 0
    (sizeof ct_ehdr) 0 0 (sizeof ct_ehdr) (sizeof ct_phdr) phnum 0 0 0.

(** The file's contents and the status, between [open] and [close], which are in
    [with_file]. *)
Definition poly_write_fatal_debug_note_elf (ctx : option (loaded_program * Z)) (note : poly_v2_debug_note) (signum : Z) : fd_cmd :=
  let prstatus := core_prstatus note signum in
  let mappings := poly_collect_core_file_mappings ctx in
  let note_filesz := core_note_filesz prstatus mappings in
  let '(stack_filesz, stack_vaddr) := poly_guest_stack_core_range note in
  let segments := (mapping_segment <$> mappings) ++ stack_segment stack_filesz stack_vaddr in
  let phnum := u16 (1 + Z.of_nat (length mappings) + (if negb (stack_filesz =? 0) then 1 else 0)) in
  let note_offset := sizeof ct_ehdr + phnum * sizeof ct_phdr in
  let phdr :=
    MkElf64Phdr PT_NOTE 0 note_offset 0 0 note_filesz 0 4 ::
    core_phdrs (poly_core_page_align_up (u64 (note_offset + note_filesz))) segments in
  let core_note := poly_write_elf_note POLYEXEC_ELF_CORE_NOTE_NAME in
  (poly_write_all_fd (c_bytes ct_ehdr (core_ehdr (dn_frontend note) phnum)) &&&
   poly_write_all_fd (flat_map (c_bytes ct_phdr) phdr) &&&
   match prstatus with None => fd_done | Some bytes => core_note NT_PRSTATUS bytes end &&&
   core_note NT_SIGINFO (c_bytes ct_nt_siginfo64 (core_siginfo note signum)) &&&
   core_note NT_PRPSINFO (c_bytes ct_prpsinfo64 poly_fill_prpsinfo) &&&
   core_note NT_AUXV core_auxv &&&
   poly_write_elf_nt_file_note mappings &&&
   poly_write_elf_note POLYEXEC_ELF_NOTE_NAME POLYEXEC_ELF_NOTE_TYPE_V2_DEBUG (c_bytes ct_debug_note note) &&&
   each_fd (fun '(h, x) => poly_write_core_load_segment (ph_offset h) (cs_memory x) (cs_size x)) (combine (tail phdr) segments))%fd.
End Core.

(** ** After a fatal signal *)

(** The files made, and the answers to the coming writes. *)
Record files_state : Type := MkFiles {
  fi_files : list (list Z * list Z);
  fi_answers : list write_answer;
}.

(** The state that lasts: [poly_fatal_debug_note_written], [polyexec_fatal_core_wrapper]
    (negative: not looked up yet), and the files. *)
Record fatal_state : Type := MkFatal {
  fs_written : bool;
  fs_wrapper : Z;
  fs_files : files_state;
}.

Definition poly_fatal_core_wrapper_enabled (getenv : list Z -> option (list Z)) (cached : Z) : Z :=
  if cached <? 0 then
    match getenv (bytes_of_string "POLYEXEC_FATAL_CORE_WRAPPER") with
    | None | Some [] => 0
    | Some value => if bool_decide (value = bytes_of_string "0") then 0 else 1
    end
  else cached.

Section Fatal.
Context (open_fails close_fails : list Z -> bool) (getenv : list Z -> option (list Z)).
Context (probe : mem_probe) (m : memory) (host : core_host) (signal_code signal_addr : Z).

(** [open], [body], [close] *)
Definition with_file (path : list Z) (body : fd_cmd) (st : files_state) : files_state * bool :=
  if open_fails path then (st, false)
  else
    let '(s, ok) := body (MkFd [] (fi_answers st)) in
    (MkFiles (fi_files st ++ [(path, fd_bytes s)]) (fd_answers s), ok && negb (close_fails path)).

Definition poly_write_fatal_debug_note_raw (path : list Z) (note : poly_v2_debug_note) : files_state -> files_state * bool :=
  with_file path (poly_write_all_fd (c_bytes ct_debug_note note)).

(** The note that is written: what the processor dumps, or one made from the state that
    it exports. *)
Definition fatal_note (dump : Z * poly_v2_debug_note) (exported : poly_xsave_state) : option poly_v2_debug_note :=
  let '(result, note) := dump in
  let made := poly_synthesize_debug_note_from_trap_state signal_addr exported in
  if negb (result =? 0) || negb (dn_magic note =? POLY_V2_DEBUG_NOTE_MAGIC) || negb (dn_bytes note =? POLY_V2_DEBUG_NOTE_BYTES)
  then made
  else if negb (poly_is_raw_foreign_mode (dn_frontend note)) then Some (default note made)
  else Some note.

Definition poly_write_fatal_debug_note (dir : option (list Z)) (ctx : option (loaded_program * Z))
    (dump : Z * poly_v2_debug_note) (exported : poly_xsave_state) (signum : Z) (st : fatal_state) : fatal_state :=
  match dir with
  | None | Some [] => st
  | _ =>
      if fs_written st then st
      else
        let path := poly_build_fatal_debug_note_path host dir 512 signum in
        match fatal_note dump exported with
        | None => MkFatal true (fs_wrapper st) (fs_files st)
        | Some note =>
            let files :=
              match path (bytes_of_string ".note") with
              | None => fs_files st
              | Some p => (poly_write_fatal_debug_note_raw p note (fs_files st)).1
              end in
            if negb (poly_is_raw_foreign_mode (dn_frontend note)) then MkFatal true (fs_wrapper st) files
            else
              let wrapper := poly_fatal_core_wrapper_enabled getenv (fs_wrapper st) in
              if wrapper =? 0 then MkFatal true wrapper files
              else
                match path (bytes_of_string ".core") with
                | None => MkFatal true wrapper files
                | Some p =>
                    MkFatal true wrapper
                      (with_file p (poly_write_fatal_debug_note_elf probe m host signal_code signal_addr ctx note signum) files).1
                end
        end
  end.
End Fatal.
