(* ===== verification/CoreFileProps.v ===== *)
(** What is in a core file ([CoreFile]): read as ELF, it has the notes of the process and
    its memory, however the host splits or interrupts the writes; and which part of the
    program is left out. *)

From stdpp Require Import strings.
From S2P Require Import Prelude LoaderBase GuestMemory CStruct BridgeSpec ElfImage ElfLoad ElfLoadProps LibraryPath TrapState SignalDelivery CoreFile.

(** ** Writing *)

(** A host that writes something at each call, unless it interrupts it. *)
Definition obliging (a : write_answer) : Prop :=
  match a with Wrote (S _) | Interrupted => True | Wrote O | Failed => False end.

(** On such a host, behind [before], the command writes [bs] and succeeds. *)
Definition appends (before : list Z) (c : fd_cmd) (bs : list Z) : Prop :=
  forall answers, Forall obliging answers ->
    exists answers', Forall obliging answers' /\ c (MkFd before answers) = (MkFd (before ++ bs) answers', true).

Lemma appends_done (before : list Z) : appends before fd_done [].
Proof. intros answers H. exists answers. by rewrite app_nil_r. Qed.

Lemma appends_then (before : list Z) (a b : fd_cmd) (xs ys : list Z) :
  appends before a xs -> appends (before ++ xs) b ys -> appends before (fd_then a b) (xs ++ ys).
Proof.
  intros Ha Hb answers H. destruct (Ha answers H) as (answers1 & H1 & E1). destruct (Hb answers1 H1) as (answers2 & H2 & E2).
  exists answers2. split; [done|]. unfold fd_then. by rewrite E1, E2, app_assoc.
Qed.

Lemma appends_all (before data : list Z) : appends before (poly_write_all_fd data) data.
Proof.
  intros answers H. unfold poly_write_all_fd. cbn [fd_answers fd_bytes]. revert data before.
  induction H as [|a answers Ha Hr IH]; intros data before.
  - exists []. split; [done|]. destruct data; cbn [write_loop]; by rewrite ?app_nil_r.
  - destruct data as [|b data]; [exists (a :: answers); split; [by constructor|]; by rewrite app_nil_r|].
    destruct a as [[|n]| |]; cbn in Ha; try done; cbn [write_loop]; [|by apply IH].
    destruct (IH (drop (S n) (b :: data)) (before ++ take (S n) (b :: data))) as (answers' & H' & E).
    exists answers'. split; [done|]. by rewrite E, <- app_assoc, take_drop.
Qed.

Lemma appends_each {A} (f : A -> fd_cmd) (bytes : A -> list Z) (l : list A) : forall before,
  (forall before' a, appends before' (f a) (bytes a)) -> appends before (each_fd f l) (flat_map bytes l).
Proof.
  induction l as [|a l IH]; intros before Hf; cbn [each_fd foldr flat_map]; [apply appends_done|].
  apply appends_then; [apply Hf|by apply IH].
Qed.

(** ** Notes *)

Definition elf_note : Type := list Z * Z * list Z.

Definition note_bytes (n : elf_note) : list Z :=
  let '(name, type, desc) := n in
  c_bytes ct_nhdr (u32 (size_of name), u32 (size_of desc), type) ++ name ++ zero_pad (size_of name) ++ desc ++ zero_pad (size_of desc).

Lemma appends_note (before name desc : list Z) (type : Z) :
  appends before (poly_write_elf_note name type desc) (note_bytes (name, type, desc)).
Proof.
  unfold poly_write_elf_note, note_bytes. rewrite !app_assoc.
  repeat (apply appends_then; [|apply appends_all]). apply appends_all.
Qed.

Lemma align4_spec (v : Z) : 0 <= v -> v + 3 < 2 ^ 64 -> v <= poly_align4_size v < v + 4.
Proof.
  intros H0 H1. unfold poly_align4_size. change (Z.lnot 3) with (Z.lnot (2 ^ 2 - 1)). rewrite (wrap_small 64 (v + 3)) by (unfold in_width; lia).
  rewrite (land_mask_u64 (v + 3) 2) by (unfold in_width; lia). replace (v + 3) with (v + 2 ^ 2 - 1) by lia.
  destruct (round_up_pow2 v 2 ltac:(lia)) as [H _]. lia.
Qed.

(** The notes of a segment, as a reader of core files has them. *)
Fixpoint read_notes (fuel : nat) (img : image) (off end_ : Z) : outcome (list elf_note) :=
  match fuel with
  | O => Spin
  | S fuel' =>
      if off >=? end_ then Ok []
      else
        namesz ← read_u32_le img off;
        descsz ← read_u32_le img (off + 4);
        type ← read_u32_le img (off + 8);
        name ← read_bytes img (off + 12) (Z.to_nat namesz);
        desc ← read_bytes img (off + 12 + poly_align4_size namesz) (Z.to_nat descsz);
        rest ← read_notes fuel' img (off + 12 + poly_align4_size namesz + poly_align4_size descsz) end_;
        Ok ((name, type, desc) :: rest)
  end.

Definition note_fits (n : elf_note) : Prop :=
  let '(name, type, desc) := n in size_of name < 2 ^ 32 /\ in_width 32 type /\ size_of desc < 2 ^ 32.

Lemma size_zero_pad (v : Z) : 0 <= v < 2 ^ 32 -> size_of (zero_pad v) = poly_align4_size v - v.
Proof. intros Hv. pose proof (align4_spec v ltac:(lia) ltac:(lia)). unfold size_of, zero_pad. rewrite repeat_length. lia. Qed.

Lemma size_note (name desc : list Z) (type : Z) : note_fits (name, type, desc) ->
  size_of (note_bytes (name, type, desc)) = 12 + poly_align4_size (size_of name) + poly_align4_size (size_of desc).
Proof.
  intros (H1 & H2 & H3). unfold note_bytes. rewrite !size_of_app, !size_zero_pad by (unfold size_of in *; lia).
  unfold ct_nhdr. cbn [c_bytes c_pair c_uint fst snd]. rewrite !size_of_app, !size_le_bytes. lia.
Qed.

Lemma read_notes_here (img : image) (notes : list elf_note) : forall fuel off,
  bytes_here img off (flat_map note_bytes notes) -> Forall note_fits notes -> (length notes < fuel)%nat ->
  read_notes fuel img off (off + size_of (flat_map note_bytes notes)) = Ok notes.
Proof.
  induction notes as [|[[name type] desc] notes IH]; intros [|fuel] off H Hf Hl; cbn [length] in Hl; try lia; cbn [read_notes].
  - cbn. rewrite Z.add_0_r. by rewrite (proj2 (Z.geb_le _ _) (Z.le_refl off)).
  - apply Forall_cons in Hf as [Hn Hf]. cbn [flat_map] in H. apply here_app in H as [H Hr].
    pose proof (size_note _ _ _ Hn) as Es. destruct Hn as (H1 & H2 & H3).
    assert (0 <= size_of name /\ 0 <= size_of desc) as [P1 P2] by (unfold size_of; lia).
    pose proof (align4_spec (size_of name) ltac:(lia) ltac:(lia)) as A1. pose proof (align4_spec (size_of desc) ltac:(lia) ltac:(lia)) as A2.
    cbn [flat_map]. rewrite size_of_app. pose proof (Zle_0_nat (length (flat_map note_bytes notes))) as P3. fold (size_of (flat_map note_bytes notes)) in P3.
    rewrite Es in *. rewrite Z.geb_leb. destruct (Z.leb_spec (off + (12 + poly_align4_size (size_of name) + poly_align4_size (size_of desc) + size_of (flat_map note_bytes notes))) off); [lia|].
    unfold note_bytes, ct_nhdr in H. cbn [c_bytes c_pair c_uint fst snd] in H. rewrite <- !app_assoc in H.
    rewrite !wrap_small in H by (unfold in_width; lia).
    apply here_app in H as [Ha H]. apply here_app in H as [Hb H]. apply here_app in H as [Hc H]. rewrite !size_le_bytes in *.
    apply here_app in H as [Hd H]. apply here_app in H as [_ H]. apply here_app in H as [He _]. rewrite size_zero_pad in He by lia.
    rewrite (here_u32 _ _ off _ Ha), (here_u32 _ _ (off + 4) _ Hb), (here_u32 _ _ (off + 8) _ Hc) by (unfold in_width; lia || done).
    cbn [mbind outcome_bind].
    rewrite (here_read img (off + 12) name (Z.to_nat (size_of name))); [|by replace (off + 12) with (off + Z.of_nat 4 + Z.of_nat 4 + Z.of_nat 4) by lia|unfold size_of; lia].
    cbn [mbind outcome_bind].
    rewrite (here_read img (off + 12 + poly_align4_size (size_of name)) desc (Z.to_nat (size_of desc)));
      [|by replace (off + 12 + poly_align4_size (size_of name)) with (off + Z.of_nat 4 + Z.of_nat 4 + Z.of_nat 4 + size_of name + (poly_align4_size (size_of name) - size_of name)) by lia|unfold size_of; lia].
    cbn [mbind outcome_bind]. rewrite !Z.add_assoc in *. rewrite (IH fuel _ Hr Hf ltac:(lia)). done.
Qed.

(** ** The note of the mapped file *)

Definition file_desc (mappings : list poly_core_file_mapping) : list Z :=
  c_bytes (c_array 2 c_u64) [Z.of_nat (length mappings); POLYEXEC_CORE_PAGE_BYTES] ++
  flat_map (fun x => c_bytes (c_array 3 c_u64) [cm_start x; cm_end x; cm_file_page_offset x]) mappings ++
  flat_map (fun x => cm_path x ++ [0]) mappings.

(** Few mappings, with a path that is not enormous. *)
Definition mappings_fit (mappings : list poly_core_file_mapping) : Prop :=
  (length mappings <= POLYEXEC_CORE_MAX_FILE_MAPPINGS)%nat /\ Forall (fun x => size_of (cm_path x) < 2 ^ 20) mappings.

Lemma desc_size_loop (mappings : list poly_core_file_mapping) : forall n,
  0 <= n -> n + 2 ^ 21 * Z.of_nat (length mappings) < 2 ^ 64 -> Forall (fun x => size_of (cm_path x) < 2 ^ 20) mappings ->
  foldl (fun bytes x => u64 (bytes + (size_of (cm_path x) + 1))) n mappings = n + size_of (flat_map (fun x => cm_path x ++ [0]) mappings) /\
  0 <= size_of (flat_map (fun x => cm_path x ++ [0]) mappings) <= 2 ^ 21 * Z.of_nat (length mappings).
Proof.
  induction mappings as [|x l IH]; intros n Hn Hb Hp; cbn [foldl flat_map length] in *; [unfold size_of; cbn; lia|].
  apply Forall_cons in Hp as [Hx Hp]. assert (0 <= size_of (cm_path x)) by (unfold size_of; lia).
  rewrite wrap_small by (unfold in_width; lia). destruct (IH (n + (size_of (cm_path x) + 1)) ltac:(lia) ltac:(lia) Hp) as [E B].
  rewrite E, !size_of_app. change (size_of [0]) with 1. lia.
Qed.

Lemma size_file_desc (mappings : list poly_core_file_mapping) : mappings_fit mappings -> mappings <> [] ->
  poly_core_nt_file_desc_size mappings = size_of (file_desc mappings) /\ 0 <= size_of (file_desc mappings) < 2 ^ 26.
Proof.
  intros [Hl Hp] Hne. unfold POLYEXEC_CORE_MAX_FILE_MAPPINGS in Hl.
  assert (size_of (flat_map (fun x => c_bytes (c_array 3 c_u64) [cm_start x; cm_end x; cm_file_page_offset x]) mappings) =
          24 * Z.of_nat (length mappings)) as E3.
  { clear. induction mappings as [|x l IH]; [done|]. cbn [flat_map]. rewrite size_of_app, IH.
    cbn [c_bytes c_array flat_map c_uint]. rewrite !size_of_app, !size_le_bytes. unfold size_of. cbn [length]. lia. }
  unfold poly_core_nt_file_desc_size, file_desc. rewrite !size_of_app, E3. change (size_of (c_bytes (c_array 2 c_u64) _)) with 16.
  destruct mappings as [|x l]; [done|]. rewrite wrap_small by (unfold in_width; lia).
  destruct (desc_size_loop (x :: l) (2 * 8 + Z.of_nat (length (x :: l)) * 3 * 8)) as [E B]; [lia..|done|]. rewrite E. lia.
Qed.

Definition file_note (mappings : list poly_core_file_mapping) : list elf_note :=
  match mappings with [] => [] | _ => [(POLYEXEC_ELF_CORE_NOTE_NAME, NT_FILE, file_desc mappings)] end.

Lemma appends_file_note (before : list Z) (mappings : list poly_core_file_mapping) : mappings_fit mappings ->
  appends before (poly_write_elf_nt_file_note mappings) (flat_map note_bytes (file_note mappings)).
Proof.
  intros Hf. destruct mappings as [|x l]; [apply appends_done|].
  destruct (size_file_desc (x :: l) Hf) as [E B]; [done|].
  unfold poly_write_elf_nt_file_note, file_note. rewrite E. cbn [flat_map]. rewrite app_nil_r. unfold note_bytes. set (size := size_of (file_desc (x :: l))).
  unfold file_desc.
  change (u32 (size_of POLYEXEC_ELF_CORE_NOTE_NAME)) with (size_of POLYEXEC_ELF_CORE_NOTE_NAME). rewrite !app_assoc.
  repeat (apply appends_then; [|first [apply appends_all|apply appends_each; intros; apply appends_all]]). apply appends_all.
Qed.

(** ** Padding and load segments *)

Lemma appends_zeros (k : nat) : forall before n, 0 <= n <= Z.of_nat k -> appends before (zero_loop k n) (repeat 0 (Z.to_nat n)).
Proof.
  induction k as [|k IH]; intros before n Hn; cbn [zero_loop]; destruct (Z.eqb_spec n 0) as [->|Hne]; try apply appends_done; [lia|].
  cbv zeta. rewrite Z.gtb_ltb. set (chunk := if POLYEXEC_CORE_PAGE_BYTES <? n then POLYEXEC_CORE_PAGE_BYTES else n).
  assert (0 < chunk <= n) as Hc by (unfold chunk, POLYEXEC_CORE_PAGE_BYTES; destruct (Z.ltb_spec 4096 n); lia).
  replace (Z.to_nat n) with (Z.to_nat chunk + Z.to_nat (n - chunk))%nat by lia. rewrite repeat_app.
  apply appends_then; [apply appends_all|]. apply IH. lia.
Qed.

Lemma appends_padding (before : list Z) (off : Z) : size_of before <= off ->
  appends before (poly_write_zero_padding_to_offset off) (repeat 0 (Z.to_nat (off - size_of before))).
Proof.
  intros H answers Ha. unfold poly_write_zero_padding_to_offset. cbn [fd_bytes]. rewrite Z.gtb_ltb.
  destruct (Z.ltb_spec off (size_of before)); [lia|]. apply appends_zeros; [lia|done].
Qed.

Lemma core_align_up (v : Z) : 0 <= v -> v + 4096 <= 2 ^ 64 ->
  v <= poly_core_page_align_up v < v + 4096 /\ poly_core_page_align_up v mod 4096 = 0.
Proof.
  intros H0 H1. unfold poly_core_page_align_up, POLYEXEC_CORE_PAGE_BYTES. rewrite wrap_small by (unfold in_width; lia).
  change (4096 - 1) with (2 ^ 12 - 1). rewrite land_mask_u64 by (unfold in_width; lia).
  replace (v + 4096 - 1) with (v + 2 ^ 12 - 1) by lia. exact (round_up_pow2 v 12 ltac:(lia)).
Qed.

Section Segments.
Context (m : memory).

(** The bytes of the segments, the first of them at [off], behind [pos] bytes. *)
Fixpoint segment_bytes (pos off : Z) (segments : list core_segment) : list Z :=
  match segments with
  | [] => []
  | x :: segments' =>
      repeat 0 (Z.to_nat (off - pos)) ++ load m (cs_memory x) (Z.to_nat (cs_size x)) ++
      segment_bytes (off + cs_size x) (poly_core_page_align_up (u64 (off + cs_size x))) segments'
  end.

(** The segments are not empty, and there is room for them behind [off]. *)
Definition segments_fit (off : Z) (segments : list core_segment) : Prop :=
  0 <= off /\ Forall (fun x => 0 < cs_size x < 2 ^ 40) segments /\ off + 2 ^ 41 * Z.of_nat (length segments) < 2 ^ 63.

Lemma fits_next (off : Z) (x : core_segment) (segments : list core_segment) : segments_fit off (x :: segments) ->
  off + cs_size x <= poly_core_page_align_up (u64 (off + cs_size x)) /\ u64 (off + cs_size x) = off + cs_size x /\
  segments_fit (poly_core_page_align_up (u64 (off + cs_size x))) segments /\ poly_core_page_align_up (u64 (off + cs_size x)) mod 4096 = 0.
Proof using.
  intros (H0 & Hs & Hb). apply Forall_cons in Hs as [Hx Hs]. cbn [length] in Hb. rewrite wrap_small by (unfold in_width; lia).
  destruct (core_align_up (off + cs_size x) ltac:(lia) ltac:(lia)) as [Hr Hm].
  split; [lia|]. split; [done|]. split; [|done]. unfold segments_fit. split_and!; [lia|done|lia].
Qed.

Lemma appends_segments (segments : list core_segment) : forall before off,
  segments_fit off segments -> size_of before <= off ->
  appends before
    (each_fd (fun '(h, x) => poly_write_core_load_segment m (ph_offset h) (cs_memory x) (cs_size x))
       (combine (core_phdrs off segments) segments))
    (segment_bytes (size_of before) off segments).
Proof using.
  induction segments as [|x l IH]; intros before off Hf Hb; cbn [core_phdrs combine each_fd foldr segment_bytes]; [apply appends_done|].
  destruct (fits_next _ _ _ Hf) as (H1 & _ & H2 & _). destruct Hf as (H0 & Hs & Hr). apply Forall_cons in Hs as [Hx Hs].
  rewrite app_assoc. apply appends_then.
  - unfold poly_write_core_load_segment. cbn [ph_offset]. rewrite (proj2 (Z.eqb_neq _ _)) by lia.
    apply appends_then; [by apply appends_padding|apply appends_all].
  - assert (size_of (before ++ repeat 0 (Z.to_nat (off - size_of before)) ++ load m (cs_memory x) (Z.to_nat (cs_size x))) = off + cs_size x) as E.
    { unfold size_of in *. rewrite !length_app, repeat_length, load_length. lia. }
    pose proof (IH _ _ H2 ltac:(rewrite E; exact H1)) as H. by rewrite E in H.
Qed.

(** Each segment is where its header says. *)
Lemma segment_here (img : image) (segments : list core_segment) : forall pos off n x,
  segments_fit off segments -> off mod 4096 = 0 -> 0 <= pos <= off -> bytes_here img pos (segment_bytes pos off segments) ->
  segments !! n = Some x ->
  exists o, core_phdrs off segments !! n =
      Some (MkElf64Phdr PT_LOAD (cs_flags x) o (cs_vaddr x) 0 (cs_size x) (cs_size x) POLYEXEC_CORE_PAGE_BYTES) /\
    o mod 4096 = 0 /\ 0 <= o < 2 ^ 63 /\ bytes_here img o (load m (cs_memory x) (Z.to_nat (cs_size x))).
Proof using.
  induction segments as [|y l IH]; intros pos off n x Hf Hm Hp H Hn; [done|]. cbn [segment_bytes] in H.
  destruct (fits_next _ _ _ Hf) as (H1 & _ & H2 & H3). destruct Hf as (H0 & Hs & Hr). apply Forall_cons in Hs as [Hx Hs].
  apply here_app in H as [_ H]. assert (pos + size_of (repeat 0 (Z.to_nat (off - pos))) = off) as E1 by (unfold size_of; rewrite repeat_length; lia).
  rewrite E1 in H. apply here_app in H as [Hy H].
  assert (size_of (load m (cs_memory y) (Z.to_nat (cs_size y))) = cs_size y) as E2 by (unfold size_of; rewrite load_length; lia). rewrite E2 in H.
  destruct n as [|n]; cbn [core_phdrs].
  - injection Hn as ->. exists off. split_and!; try done. cbn [length] in Hr. lia.
  - cbn [lookup list_lookup] in Hn |- *. apply (IH (off + cs_size y) _ n x H2 H3); [lia|done|done].
Qed.
End Segments.

(** ** The mapped program *)

Definition segment_ok (x : poly_load_segment) : Prop :=
  in_width 64 (seg_vaddr x) /\ in_width 64 (seg_memsz x) /\ in_width 64 (seg_offset x) /\ in_width 32 (seg_flags x).

(** The program of the process and its mapping, as the loader leaves them. *)
Definition context_ok (ctx : option (loaded_program * Z)) : Prop :=
  match ctx with
  | None => True
  | Some (prog, loaded_image) =>
      0 <= base_vaddr (lp_header prog) /\ 0 <= code_size (lp_header prog) <= MAX_PROGRAM_BYTES /\
      size_of (lp_path prog) < 2 ^ 20 /\ Forall segment_ok (lp_load_segments prog)
  end.

Lemma core_align_down (v : Z) : in_width 64 v -> poly_core_page_align_down v = v / 4096 * 4096.
Proof.
  intros Hv. unfold poly_core_page_align_down, POLYEXEC_CORE_PAGE_BYTES. change (4096 - 1) with (2 ^ 12 - 1).
  by rewrite land_mask_u64 by (done || lia).
Qed.

Lemma align_up_width (v : Z) : 0 <= poly_core_page_align_up v < 2 ^ 64.
Proof.
  unfold poly_core_page_align_up, POLYEXEC_CORE_PAGE_BYTES. change (4096 - 1) with (2 ^ 12 - 1).
  pose proof (wrap_range 64 (v + 4096 - 1) ltac:(lia)) as H. rewrite land_mask_u64 by (done || lia). unfold in_width in H.
  pose proof (Z.mul_div_le (u64 (v + 4096 - 1)) (2 ^ 12) ltac:(lia)). pose proof (Z.div_pos (u64 (v + 4096 - 1)) (2 ^ 12) ltac:(lia) ltac:(lia)). lia.
Qed.

(** The memory of a mapping is what is at its start. *)
Definition mapping_good (x : poly_core_file_mapping) : Prop :=
  0 < cm_filesz x <= MAX_PROGRAM_BYTES /\ in_width 64 (cm_start x) /\ in_width 32 (cm_flags x) /\ size_of (cm_path x) < 2 ^ 20 /\
  u64 (cm_memory x) = cm_start x.

Lemma core_mapping_good (prog : loaded_program) (img : Z) (seg : poly_load_segment) (x : poly_core_file_mapping) :
  context_ok (Some (prog, img)) -> segment_ok seg -> core_mapping prog img seg = Some x -> mapping_good x.
Proof.
  intros (Hb & Hc & Hp & _) (Hv & Hm & Ho & Hf). unfold core_mapping. cbv zeta.
  set (base := base_vaddr (lp_header prog)) in *. set (down := poly_core_page_align_down (seg_vaddr seg)).
  pose proof (align_up_width (seg_vaddr seg + seg_memsz seg)) as Hu. set (up := poly_core_page_align_up _) in *.
  destruct (_ || _) eqn:E1; [done|]. destruct (_ || _) eqn:E2 in |- *; [done|].
  destruct (u64 (img - base) + down >? UINT64_MAX - (up - down)) eqn:E3; [done|]. intros [= <-].
  breflect. assert (0 <= down <= seg_vaddr seg) as Hd.
  { unfold down. rewrite core_align_down by done. unfold in_width in Hv. pose proof (Z.mul_div_le (seg_vaddr seg) 4096).
    pose proof (Z.div_pos (seg_vaddr seg) 4096). lia. }
  pose proof (wrap_range 64 (img - base) ltac:(lia)) as Hbias. unfold in_width, UINT64_MAX in *.
  assert (u64 (up - base) = up - base) as E by (apply wrap_small; unfold in_width; lia). rewrite E in *.
  unfold mapping_good. cbn [cm_filesz cm_start cm_flags cm_path cm_memory]. unfold in_width. split_and!; try lia.
  replace (img + (down - base)) with (img - base + down) by lia. rewrite <- (wrap_small 64 (u64 (img - base) + down)) by (unfold in_width; lia).
  unfold wrap. by rewrite Zplus_mod_idemp_l.
Qed.

Lemma collected_good (ctx : option (loaded_program * Z)) : context_ok ctx ->
  Forall mapping_good (poly_collect_core_file_mappings ctx) /\ (length (poly_collect_core_file_mappings ctx) <= 16)%nat.
Proof.
  destruct ctx as [[prog img]|]; [|cbn; by split; [|lia]]. intros H. unfold poly_collect_core_file_mappings.
  pose proof H as (_ & _ & _ & Hs). change 16%nat with POLYEXEC_CORE_MAX_FILE_MAPPINGS.
  generalize POLYEXEC_CORE_MAX_FILE_MAPPINGS.
  induction Hs as [|seg l Hseg _ IH]; intros [|k]; cbn [collect_loop]; try by (split; [constructor|cbn; lia]).
  destruct (core_mapping prog img seg) as [x|] eqn:E; [|apply IH].
  destruct (IH k) as [H1 H2]. split; [constructor; [by eapply core_mapping_good|done]|cbn [length]; lia].
Qed.

Lemma good_fit (mappings : list poly_core_file_mapping) : Forall mapping_good mappings -> (length mappings <= 16)%nat -> mappings_fit mappings.
Proof. intros H Hl. split; [done|]. eapply Forall_impl; [exact H|]. by intros x (_ & _ & _ & ? & _). Qed.

(** Reading memory wraps around. *)
Lemma load_wrapped (m : memory) (a : Z) (n : nat) : load m (u64 a) n = load m a n.
Proof. unfold load. apply list_fmap_ext. intros i k _. f_equal. unfold wrap. by rewrite Zplus_mod_idemp_l. Qed.

(** ** The notes of a core file *)

#[export] Instance ct_elf_siginfo64_layout : Layout ct_elf_siginfo64 := _.
#[export] Instance ct_prstatus_layout (n : nat) : Layout (ct_prstatus n) := _.
#[export] Instance ct_prpsinfo64_layout : Layout ct_prpsinfo64 := _.
#[export] Instance ct_nt_siginfo64_layout : Layout ct_nt_siginfo64 := _.
#[export] Instance ct_debug_note_layout : Layout ct_debug_note := _.

Section File.
Context (probe : mem_probe) (m : memory) (host : core_host) (signal_code signal_addr signum : Z).
Context (ctx : option (loaded_program * Z)) (note : poly_v2_debug_note).

Definition int32 (v : Z) : Prop := - 2 ^ 31 <= v < 2 ^ 31.

Definition host_ok : Prop :=
  int32 (ch_pid host) /\ int32 (ch_ppid host) /\ int32 (ch_pgrp host) /\ int32 (ch_sid host) /\
  in_width 32 (ch_uid host) /\ in_width 32 (ch_gid host).

Definition core_notes : list elf_note :=
  let core := POLYEXEC_ELF_CORE_NOTE_NAME in
  option_list ((fun bytes => (core, NT_PRSTATUS, bytes)) <$> core_prstatus host note signum) ++
  [(core, NT_SIGINFO, c_bytes ct_nt_siginfo64 (core_siginfo signal_code signal_addr note signum));
   (core, NT_PRPSINFO, c_bytes ct_prpsinfo64 (poly_fill_prpsinfo host)); (core, NT_AUXV, core_auxv)] ++
  file_note (poly_collect_core_file_mappings ctx) ++
  [(POLYEXEC_ELF_NOTE_NAME, POLYEXEC_ELF_NOTE_TYPE_V2_DEBUG, c_bytes ct_debug_note note)].

Context (Hhost : host_ok) (Hsig : int32 signum) (Hcode : int32 signal_code) (Haddr : in_width 64 signal_addr)
  (Hctx : context_ok ctx) (Hnote : c_ok ct_debug_note note).

Lemma note_parts :
  in_width 32 (dn_frontend note) /\ in_width 64 (dn_pc note) /\ in_width 64 (dn_sp note) /\ in_width 64 (dn_fault_address note) /\
  c_ok ct_xsave_state (dn_state note).
Proof using Hnote. pose proof Hnote as H. unfold ct_debug_note in H. cbn [c_ok c_struct c_pair fst snd] in H. destruct_and! H. done. Qed.

Lemma byte_checked (n : nat) (l : list Z) :
  length l = n -> forallb (fun b => (0 <=? b) && (b <? 256)) l = true -> c_ok (c_array n (c_uint 1)) l.
Proof using.
  intros Hl H. split; [done|]. apply Forall_forall. intros b Hb. apply list_elem_of_In in Hb. rewrite forallb_forall in H.
  specialize (H b Hb). apply andb_true_iff in H as [H1%Z.leb_le H2%Z.ltb_lt]. cbn. unfold in_width. lia.
Qed.

Lemma siginfo_size : size_of (c_bytes ct_nt_siginfo64 (core_siginfo signal_code signal_addr note signum)) = 128.
Proof using All.
  destruct note_parts as (_ & _ & _ & Hf & _). unfold size_of. rewrite layout_length; [done|].
  unfold ct_nt_siginfo64, core_siginfo. cbn [c_ok c_struct c_pair fst snd nsi_signo nsi_errno nsi_code nsi_reserved0 nsi_fault_addr nsi_reserved].
  split_and!; try done; [cbn; lia..| |by apply byte_checked]. destruct (negb _); done.
Qed.

Lemma prpsinfo_size : size_of (c_bytes ct_prpsinfo64 (poly_fill_prpsinfo host)) = 136.
Proof using Hhost.
  destruct Hhost as (? & ? & ? & ? & ? & ?). unfold size_of. rewrite layout_length; [done|].
  unfold ct_prpsinfo64, poly_fill_prpsinfo.
  cbn [c_ok c_struct c_pair fst snd ps_state ps_sname ps_zomb ps_nice ps_flag ps_uid ps_gid ps_pid ps_ppid ps_pgrp ps_sid ps_fname ps_psargs].
  split_and!; try done; try (by apply byte_checked).
Qed.

Lemma prstatus_ok (n : nat) (reg : list Z) :
  length reg = n -> Forall (in_width 64) reg -> c_ok (ct_prstatus n) (poly_init_prstatus_common host signum reg).
Proof using Hhost Hsig.
  intros Hl Hr. destruct Hhost as (? & ? & ? & ? & ? & ?). unfold ct_prstatus, poly_init_prstatus_common, ct_elf_siginfo64.
  cbn [c_ok c_struct c_pair fst snd pr_info pr_cursig pr_sigpend pr_sighold pr_pid pr_ppid pr_pgrp pr_sid pr_times pr_reg pr_fpvalid
    esi_signo esi_code esi_errno].
  split_and!; try done. { apply (wrap_range 16). lia. } repeat constructor; done.
Qed.

(** The registers of the note, as a debugger reads them. *)
Lemma aarch64_prstatus_ok : c_ok ct_prstatus_aarch64 (poly_fill_aarch64_prstatus host note signum).
Proof using Hhost Hsig Hnote.
  destruct note_parts as (_ & Hpc & Hsp & _ & Hs). ok_inv Hs. ok_part ct_aarch64_status_state.
  match goal with H : c_ok (c_array 32 c_u64) (xs_aarch64_gpr _) |- _ => destruct H as [Hl Hg] end.
  apply prstatus_ok; [rewrite length_app, length_take; cbn [length]; lia|]. apply Forall_app. split; [by apply Forall_take|].
  apply Forall_cons. split; [|by rewrite !Forall_cons]. destruct (negb _); [done|]. by apply (nth_word 32).
Qed.

Lemma riscv_prstatus_ok : c_ok ct_prstatus_riscv (poly_fill_riscv_prstatus host note signum).
Proof using Hhost Hsig Hnote.
  destruct note_parts as (_ & Hpc & Hsp & _ & Hs). ok_inv Hs.
  match goal with H : c_ok (c_array 32 c_u64) (xs_riscv_gpr _) |- _ => destruct H as [Hl Hg] end.
  apply prstatus_ok.
  - destruct (_ =? 0); rewrite ?length_insert; cbn [length]; rewrite length_drop; lia.
  - assert (Forall (in_width 64) (dn_pc note :: drop 1 (xs_riscv_gpr (dn_state note)))) as Hw by (constructor; [done|by apply Forall_drop]).
    destruct (_ =? 0); [by apply Forall_insert|done].
Qed.

Lemma prstatus_size (bytes : list Z) : core_prstatus host note signum = Some bytes -> 0 <= size_of bytes < 1024.
Proof using Hhost Hsig Hnote.
  unfold core_prstatus. intros H.
  assert (bytes = c_bytes ct_prstatus_aarch64 (poly_fill_aarch64_prstatus host note signum) \/
          bytes = c_bytes ct_prstatus_riscv (poly_fill_riscv_prstatus host note signum)) as [-> | ->].
  { destruct (_ =? _); [left; congruence|]. destruct (_ =? _); [right; congruence|done]. }
  - unfold size_of. rewrite (layout_length (c := ct_prstatus 34)) by apply aarch64_prstatus_ok. cbn. lia.
  - unfold size_of. rewrite (layout_length (c := ct_prstatus 32)) by apply riscv_prstatus_ok. cbn. lia.
Qed.

Lemma debug_note_size : size_of (c_bytes ct_debug_note note) = 9216.
Proof using Hnote. unfold size_of. by rewrite layout_length. Qed.

Lemma notes_fit : Forall note_fits core_notes.
Proof using All.
  assert (size_of POLYEXEC_ELF_CORE_NOTE_NAME < 2 ^ 32) as Hn by (vm_compute; done).
  unfold core_notes. rewrite !Forall_app, !Forall_cons. unfold note_fits. rewrite siginfo_size, prpsinfo_size, debug_note_size by done.
  split_and!; try done.
  - destruct (core_prstatus host note signum) as [bytes|] eqn:E; [|done]. apply prstatus_size in E; try done.
    apply Forall_singleton. split_and!; [done|done|lia].
  - destruct (collected_good ctx Hctx) as [Hg Hl]. unfold file_note.
    destruct (poly_collect_core_file_mappings ctx) as [|x l]; [done|]. apply Forall_singleton.
    destruct (size_file_desc (x :: l)) as [_ Hd]; [by apply good_fit|done|]. split_and!; [done|done|lia].
Qed.

(** A note that is counted: its name has five bytes, its description is not enormous. *)
Definition counted (n : elf_note) : Prop := note_fits n /\ size_of n.1.1 = 5 /\ size_of n.2 < 2 ^ 26.

Lemma counted_size (n : elf_note) : counted n -> 0 <= size_of (note_bytes n) <= size_of n.2 + 23.
Proof using.
  destruct n as [[name type] desc]. intros (Hf & Hn & Hd). cbn [fst snd] in *. rewrite size_note by done. rewrite Hn.
  change (poly_align4_size 5) with 8. assert (0 <= size_of desc) by (unfold size_of; lia).
  pose proof (align4_spec (size_of desc) ltac:(lia) ltac:(lia)). lia.
Qed.

Lemma add_note (n : Z) (x : elf_note) : counted x -> 0 <= n < 2 ^ 40 ->
  u64 (n + poly_elf_note_size 5 (size_of x.2)) = n + size_of (note_bytes x).
Proof using.
  intros Hx Hn. pose proof (counted_size x Hx) as Hs. destruct x as [[name type] desc], Hx as (Hf & Hm & Hd). cbn [fst snd] in *.
  rewrite size_note in * by done. rewrite Hm in *. unfold poly_elf_note_size. rewrite (wrap_small 64 (12 + _ + _)) by (unfold in_width; lia).
  by rewrite wrap_small by (unfold in_width; lia).
Qed.

Lemma notes_counted : Forall counted core_notes.
Proof using All.
  pose proof notes_fit as Hfit. unfold core_notes in *. rewrite !Forall_app, !Forall_cons in *. destruct Hfit as (F1 & (F2 & F3 & F4 & _) & F5 & F6 & _).
  assert (size_of POLYEXEC_ELF_CORE_NOTE_NAME = 5 /\ size_of POLYEXEC_ELF_NOTE_NAME = 5) as [N1 N2] by done.
  unfold counted. cbn [fst snd]. rewrite siginfo_size, prpsinfo_size, debug_note_size. split_and!; try done.
  - destruct (core_prstatus host note signum) as [bytes|] eqn:E; [|done]. apply (Forall_cons_1 note_fits) in F1 as [F1 _]. apply Forall_singleton.
    pose proof (prstatus_size _ E). split; [done|]. split; [done|cbn [snd]; lia].
  - destruct (collected_good ctx Hctx) as [Hg Hl]. destruct (poly_collect_core_file_mappings ctx) as [|x l]; [done|].
    apply (Forall_cons_1 note_fits) in F5 as [F5 _]. apply Forall_singleton. destruct (size_file_desc (x :: l)) as [_ Hd]; [by apply good_fit|done|].
    split; [done|]. split; [done|cbn [snd]; lia].
Qed.

(** The sum that the header of the notes gets. *)
Lemma note_filesz_sum :
  core_note_filesz (core_prstatus host note signum) (poly_collect_core_file_mappings ctx) = size_of (flat_map note_bytes core_notes) /\
  0 <= size_of (flat_map note_bytes core_notes) < 2 ^ 30.
Proof using All.
  pose proof notes_counted as Hc. unfold core_notes in *. destruct (collected_good ctx Hctx) as [Hg Hl].
  rewrite !Forall_app, !Forall_cons in Hc. destruct Hc as (F1 & (F2 & F3 & F4 & _) & F5 & F6 & _).
  unfold core_note_filesz. change (sizeof ct_nt_siginfo64) with 128. change (sizeof ct_prpsinfo64) with 136.
  change (sizeof ct_debug_note) with 9216. change (poly_elf_note_size 5 16) with (poly_elf_note_size 5 (size_of core_auxv)).
  rewrite <- siginfo_size, <- prpsinfo_size, <- debug_note_size. cbv zeta.
  set (n1 := (_, NT_SIGINFO, _)) in *. set (n2 := (_, NT_PRPSINFO, _)) in *. set (n3 := (_, NT_AUXV, _)) in *.
  set (n4 := (_, POLYEXEC_ELF_NOTE_TYPE_V2_DEBUG, _)) in *.
  change (size_of (c_bytes ct_nt_siginfo64 _)) with (size_of n1.2). change (size_of (c_bytes ct_prpsinfo64 _)) with (size_of n2.2).
  change (size_of core_auxv) with (size_of n3.2). change (size_of (c_bytes ct_debug_note note)) with (size_of n4.2).
  rewrite !flat_map_app, !size_of_app. cbn [flat_map]. rewrite !size_of_app. change (size_of []) with 0.
  clearbody n1 n2 n3 n4.
  assert (forall n, counted n -> 0 <= size_of (note_bytes n) < 2 ^ 27) as Hb.
  { intros n Hn. pose proof (counted_size n Hn). destruct Hn as (_ & _ & Hn). lia. }
  pose proof (Hb _ F2) as B2. pose proof (Hb _ F3) as B3. pose proof (Hb _ F4) as B4. pose proof (Hb _ F6) as B6.
  destruct (core_prstatus host note signum) as [bytes|]; destruct (poly_collect_core_file_mappings ctx) as [|x l];
    rewrite ?(proj1 (size_file_desc (x :: l) (good_fit _ Hg Hl) ltac:(done)));
    cbn [length Nat.eqb negb fmap option_fmap option_map file_note] in *;
    change (option_list (Some ?n)) with [n] in *; change (option_list None) with (@nil elf_note) in *;
    cbn [flat_map] in *; rewrite ?size_of_app; change (size_of []) with 0;
    repeat match goal with
    | F : Forall counted [_] |- _ => apply (Forall_cons_1 counted) in F as [F _]; pose proof (Hb _ F)
    end;
    repeat match goal with
    | F : counted _ |- _ => let A := fresh "A" in pose proof (fun a => add_note a _ F) as A; cbn [snd] in A; clear F
    end;
    repeat match goal with A : forall a, 0 <= a < _ -> u64 _ = _ |- _ => rewrite A by lia end; lia.
Qed.

(** ** The whole file *)

Definition core_segments : list core_segment :=
  let '(stack_filesz, stack_vaddr) := poly_guest_stack_core_range probe note in
  (mapping_segment <$> poly_collect_core_file_mappings ctx) ++ stack_segment stack_filesz stack_vaddr.

Definition core_note_offset : Z := 64 + (1 + Z.of_nat (length core_segments)) * 56.

Definition core_first_offset : Z := poly_core_page_align_up (core_note_offset + size_of (flat_map note_bytes core_notes)).

Definition core_phdr_table : list elf64_phdr :=
  MkElf64Phdr PT_NOTE 0 core_note_offset 0 0 (size_of (flat_map note_bytes core_notes)) 0 4 :: core_phdrs core_first_offset core_segments.

Definition core_head : list Z :=
  c_bytes ct_ehdr (core_ehdr (dn_frontend note) (1 + Z.of_nat (length core_segments))) ++
  flat_map (c_bytes ct_phdr) core_phdr_table ++ flat_map note_bytes core_notes.

Lemma stack_pages_bound (k : nat) (start : Z) : forall bytes,
  bytes <= stack_pages probe k start bytes <= bytes + 4096 * Z.of_nat k.
Proof using.
  induction k as [|k IH]; intros bytes; cbn [stack_pages]; [lia|]. destruct (negb _); [lia|].
  specialize (IH (bytes + POLYEXEC_CORE_PAGE_BYTES)). unfold POLYEXEC_CORE_PAGE_BYTES in *. lia.
Qed.

(** The memory of a segment is what is at its address. *)
Definition segment_good (x : core_segment) : Prop :=
  0 < cs_size x <= MAX_PROGRAM_BYTES /\ in_width 64 (cs_vaddr x) /\ in_width 32 (cs_flags x) /\ u64 (cs_memory x) = cs_vaddr x.

Lemma stack_range (size vaddr : Z) : poly_guest_stack_core_range probe note = (size, vaddr) ->
  0 <= size <= 65536 /\ in_width 64 vaddr.
Proof using Hnote.
  unfold poly_guest_stack_core_range. set (sp := if (dn_sp note =? 0) && _ then _ else _). cbv zeta.
  assert (in_width 64 sp) as Hsp.
  { destruct note_parts as (_ & _ & Hsp & _ & Hst). ok_inv Hst. unfold sp. destruct (_ && _); [by apply (nth_word 32)|].
    destruct (_ && _); [by apply (nth_word 32)|done]. }
  pose proof (stack_pages_bound 16 (poly_core_page_align_down sp) 0) as Hb.
  change (Z.to_nat _) with 16%nat. rewrite core_align_down in * by done. unfold in_width in *.
  pose proof (Z.mul_div_le sp 4096 ltac:(lia)). pose proof (Z.div_pos sp 4096 ltac:(lia) ltac:(lia)).
  set (b := stack_pages _ _ _ _) in *. clearbody b sp.
  destruct (sp =? 0); [intros [= <- <-]; lia|]. destruct (b =? 0); intros [= <- <-]; lia.
Qed.

Lemma segments_good : Forall segment_good core_segments /\ (length core_segments <= 17)%nat.
Proof using Hctx Hnote.
  unfold core_segments. destruct (poly_guest_stack_core_range probe note) as [size vaddr] eqn:E.
  destruct (collected_good ctx Hctx) as [Hg Hl]. apply stack_range in E as [Hs Hv].
  assert (Forall segment_good (stack_segment size vaddr) /\ (length (stack_segment size vaddr) <= 1)%nat) as [Hst Hn].
  { unfold stack_segment. destruct (Z.eqb_spec size 0) as [|Hne]; cbn [negb]; [split; [constructor|cbn; lia]|]. split; [|done].
    apply Forall_singleton. unfold segment_good, MAX_PROGRAM_BYTES. cbn [cs_size cs_vaddr cs_flags cs_memory].
    split; [lia|]. split; [done|]. split; [by vm_compute|]. by apply wrap_small. }
  split; [|rewrite length_app, length_fmap; lia]. apply Forall_app. split; [|done]. apply Forall_fmap.
  eapply Forall_impl; [exact Hg|]. intros x (H1 & H2 & H3 & _ & H4). done.
Qed.

Lemma segments_room : segments_fit core_first_offset core_segments /\ core_first_offset mod 4096 = 0 /\
  core_note_offset + size_of (flat_map note_bytes core_notes) <= core_first_offset /\ core_first_offset < 2 ^ 32.
Proof using All.
  destruct segments_good as [Hg Hl]. destruct note_filesz_sum as [_ Hn]. unfold core_first_offset, core_note_offset.
  destruct (core_align_up (64 + (1 + Z.of_nat (length core_segments)) * 56 + size_of (flat_map note_bytes core_notes))) as [H1 H2]; [lia..|].
  split; [|lia]. split; [lia|]. split; [|lia]. eapply Forall_impl; [exact Hg|]. intros x ([? ?] & _). unfold MAX_PROGRAM_BYTES in *. lia.
Qed.

Lemma core_ehdr_ok (frontend phnum : Z) : in_width 16 phnum -> c_ok ct_ehdr (core_ehdr frontend phnum).
Proof using.
  intros Hp. unfold ct_ehdr, core_ehdr.
  cbn [c_ok c_struct c_pair fst snd eh_ident eh_type eh_machine eh_version eh_entry eh_phoff eh_shoff eh_flags eh_ehsize eh_phentsize
    eh_phnum eh_shentsize eh_shnum eh_shstrndx].
  split_and!; try done; [by apply byte_checked|]. unfold poly_debug_note_elf_machine.
  destruct (_ =? POLY_MODE_RAW_AARCH64); [done|]. by destruct (_ =? _).
Qed.

Lemma core_phdrs_ok (segments : list core_segment) : forall off,
  segments_fit off segments -> Forall segment_good segments ->
  Forall (c_ok ct_phdr) (core_phdrs off segments) /\ length (core_phdrs off segments) = length segments.
Proof using.
  induction segments as [|x l IH]; intros off Hf Hg; cbn [core_phdrs length]; [done|].
  apply Forall_cons in Hg as [(Hs & Hv & Hfl & _) Hg]. destruct (fits_next _ _ _ Hf) as (_ & _ & Hn & _).
  destruct (IH _ Hn Hg) as [IH1 IH2]. split; [|by rewrite IH2]. constructor; [|done]. destruct Hf as (H0 & _ & Hr). cbn [length] in Hr.
  unfold MAX_PROGRAM_BYTES in Hs. unfold ct_phdr.
  cbn [c_ok c_struct c_pair c_uint fst snd ph_type ph_flags ph_offset ph_vaddr ph_paddr ph_filesz ph_memsz ph_align].
  unfold in_width, PT_LOAD, POLYEXEC_CORE_PAGE_BYTES in *. split_and!; lia.
Qed.

Lemma size_table {A} (c : ctype A) `{!Layout c} (l : list A) : Forall (c_ok c) l ->
  size_of (flat_map (c_bytes c) l) = Z.of_nat (length l) * sizeof c.
Proof using.
  induction 1 as [|x l Hx _ IH]; [done|]. cbn [flat_map length]. rewrite size_of_app, IH. unfold size_of, sizeof.
  rewrite layout_length by done. lia.
Qed.

Lemma phdr_table_ok : Forall (c_ok ct_phdr) core_phdr_table /\ length core_phdr_table = S (length core_segments).
Proof using All.
  destruct segments_good as [Hg Hl]. destruct segments_room as (Hroom & _). destruct (core_phdrs_ok _ _ Hroom Hg) as [H1 H2].
  destruct note_filesz_sum as [_ Hn]. unfold core_phdr_table. cbn [length]. split; [|by rewrite H2]. constructor; [|done].
  unfold ct_phdr. cbn [c_ok c_struct c_pair c_uint fst snd ph_type ph_flags ph_offset ph_vaddr ph_paddr ph_filesz ph_memsz ph_align].
  unfold in_width, core_note_offset, PT_NOTE. split_and!; lia.
Qed.

Lemma head_size : size_of core_head = core_note_offset + size_of (flat_map note_bytes core_notes).
Proof using All.
  destruct segments_good as [_ Hl]. destruct phdr_table_ok as [Ht Hn]. unfold core_head. rewrite !size_of_app, (size_table ct_phdr), Hn by done.
  change (sizeof ct_phdr) with 56. unfold core_note_offset. assert (forall x, c_ok ct_ehdr x -> size_of (c_bytes ct_ehdr x) = 64) as ->.
  - intros x Hx. unfold size_of. by rewrite layout_length.
  - lia.
  - apply core_ehdr_ok. unfold in_width. lia.
Qed.

Lemma appends_prstatus (before : list Z) :
  appends before
    match core_prstatus host note signum with None => fd_done | Some bytes => poly_write_elf_note POLYEXEC_ELF_CORE_NOTE_NAME NT_PRSTATUS bytes end
    (flat_map note_bytes (option_list ((fun bytes => (POLYEXEC_ELF_CORE_NOTE_NAME, NT_PRSTATUS, bytes)) <$> core_prstatus host note signum))).
Proof using.
  destruct (core_prstatus host note signum) as [bytes|]; [|apply appends_done].
  change (flat_map note_bytes _) with (note_bytes (POLYEXEC_ELF_CORE_NOTE_NAME, NT_PRSTATUS, bytes) ++ []). rewrite app_nil_r. apply appends_note.
Qed.

Lemma core_written :
  appends [] (poly_write_fatal_debug_note_elf probe m host signal_code signal_addr ctx note signum)
    (core_head ++ segment_bytes m (size_of core_head) core_first_offset core_segments).
Proof using All.
  destruct (collected_good ctx Hctx) as [Hm Hml]. unfold poly_write_fatal_debug_note_elf. destruct note_filesz_sum as [-> Hb]. destruct segments_good as [Hg Hl].
  destruct segments_room as (Hroom & _ & Hle & _). rewrite <- head_size in Hle. revert Hg Hl Hroom Hle.
  unfold core_head, core_phdr_table, core_first_offset, core_note_offset, core_segments.
  destruct (poly_guest_stack_core_range probe note) as [size vaddr] eqn:E. intros Hg Hl Hroom Hle.
  set (segs := (mapping_segment <$> _) ++ _) in *.
  assert (1 + Z.of_nat (length (poly_collect_core_file_mappings ctx)) + (if negb (size =? 0) then 1 else 0) = 1 + Z.of_nat (length segs)) as ->.
  { unfold segs. rewrite length_app, length_fmap. unfold stack_segment. destruct (negb _); cbn [length]; lia. }
  rewrite (wrap_small 16) by (unfold in_width; lia). change (sizeof ct_ehdr) with 64. change (sizeof ct_phdr) with 56.
  rewrite (wrap_small 64) by (unfold in_width; lia).
  set (off := 64 + _) in *. set (first := poly_core_page_align_up _) in *. set (table := _ :: core_phdrs _ _) in *.
  set (head := _ ++ flat_map (c_bytes ct_phdr) table ++ _) in *.
  apply appends_then; [|by apply appends_segments].
  unfold head, core_notes. rewrite !flat_map_app. cbn [flat_map]. rewrite !app_nil_r, !app_assoc.
  repeat (apply appends_then; [|first [apply appends_all|apply appends_note|apply appends_prstatus|apply appends_file_note; by apply good_fit]]).
  apply appends_all.
Qed.
Definition core_image : image := core_head ++ segment_bytes m (size_of core_head) core_first_offset core_segments.

Lemma core_parts :
  bytes_here core_image 0 (c_bytes ct_ehdr (core_ehdr (dn_frontend note) (1 + Z.of_nat (length core_segments)))) /\
  bytes_here core_image 64 (flat_map (c_bytes ct_phdr) core_phdr_table) /\
  bytes_here core_image core_note_offset (flat_map note_bytes core_notes) /\
  bytes_here core_image (size_of core_head) (segment_bytes m (size_of core_head) core_first_offset core_segments).
Proof using All.
  assert (bytes_here core_image 0 core_image) as H by (exists [], []; by rewrite app_nil_r).
  unfold core_image in H at 2. apply here_app in H as [H Hseg]. pose proof head_size as Hs. unfold core_head in H at 1.
  apply here_app in H as [He H]. apply here_app in H as [Ht Hn].
  destruct segments_good as [_ Hl]. destruct phdr_table_ok as [Htab Hlen].
  assert (size_of (c_bytes ct_ehdr (core_ehdr (dn_frontend note) (1 + Z.of_nat (length core_segments)))) = 64) as E.
  { unfold size_of. rewrite layout_length; [done|]. apply core_ehdr_ok. unfold in_width. lia. }
  rewrite E in *. rewrite (size_table ct_phdr), Hlen in Hn by done. change (sizeof ct_phdr) with 56 in Hn. split_and!; try done.
  unfold core_note_offset. by replace (64 + (1 + Z.of_nat (length core_segments)) * 56) with (0 + 64 + Z.of_nat (S (length core_segments)) * 56) by lia.
Qed.

Lemma core_notes_few : (length core_notes < 8)%nat.
Proof using.
  unfold core_notes. rewrite !length_app. cbn [length]. destruct (core_prstatus host note signum), (poly_collect_core_file_mappings ctx); cbn; lia.
Qed.

(** A program header of the file. *)
Lemma core_phdr_read (n : nat) (x : elf64_phdr) :
  core_phdr_table !! n = Some x -> read_phdr core_image (64 + Z.of_nat n * 56) = Ok (phdr_view x).
Proof using All.
  intros Hx. destruct core_parts as (_ & Ht & _). destruct phdr_table_ok as [Htab _].
  apply read_phdr_here; [|by eapply Forall_lookup_1]. exact (here_table ct_phdr core_image core_phdr_table n x 64 Ht Htab Hx).
Qed.
End File.


(** ** What is left out *)

(** A segment that reaches into the last page of an image whose size is not a multiple of
    the page size gets no mapping, and so is not in the core file: its end is rounded up
    before it is compared with the size.  The loader rounds image sizes to instructions
    only, so this is the writable segment of nearly every program. *)
Theorem last_segment_missing (prog : loaded_program) (loaded_image : Z) (seg : poly_load_segment) :
  let base := base_vaddr (lp_header prog) in
  let size := code_size (lp_header prog) in
  base mod 4096 = 0 -> 0 <= base -> 0 <= size -> size mod 4096 <> 0 -> base + size + 4096 < 2 ^ 64 -> segment_ok seg ->
  base <= seg_vaddr seg -> base + size - size mod 4096 < seg_vaddr seg + seg_memsz seg <= base + size ->
  core_mapping prog loaded_image seg = None.
Proof.
  intros base size Hb H0 Hs Hne Hr (Hv & Hm & _) Hlo Hend. unfold core_mapping. cbv zeta. fold base size. unfold in_width in *.
  destruct (_ || _) eqn:E1 in |- *; [done|].
  destruct (core_align_up (seg_vaddr seg + seg_memsz seg)) as [Hu Hum]; [lia..|]. set (up := poly_core_page_align_up _) in *.
  assert (base + size < up) as Hup.
  { pose proof (Z.mod_pos_bound size 4096 ltac:(lia)). pose proof (Z.div_mod size 4096 ltac:(lia)). pose proof (Z.div_mod up 4096 ltac:(lia)).
    pose proof (Z.div_mod base 4096 ltac:(lia)). nia. }
  rewrite (wrap_small 64 (up - base)) by (unfold in_width; lia).
  replace (up - base >? size) with true by (symmetry; apply Z.gtb_lt; lia). by rewrite orb_true_r.
Qed.

(** ** The registers in the core file *)

Lemma event_pc_word (s : poly_xsave_state) : state_ok s -> c_ok c_u64 (poly_debug_note_pc_from_event s).
Proof.
  intros Hs. ok_inv Hs. ok_part ct_event_record. ok_part ct_xsave_header. ok_part ct_xsave_transition_area. ok_part ct_transition_frame.
  unfold poly_debug_note_pc_from_event. repeat match goal with |- context [if ?b then _ else _] => destruct b end; done.
Qed.

Lemma synthesized_ok (s : poly_xsave_state) (frontend sp tls status0 status1 kind fault mask : Z) (fill : poly_xsave_state -> poly_xsave_state) :
  state_ok s -> poly_is_raw_foreign_mode frontend = true -> Forall (c_ok c_u64) [sp; tls; status0; status1; kind; fault; mask] ->
  (forall t, state_ok t -> state_ok (fill t)) ->
  c_ok ct_debug_note (synthesized_note s frontend sp tls status0 status1 kind fault mask fill).
Proof.
  intros Hs Hf Hw Hfill. pose proof (event_pc_word s Hs) as Hpc. pose proof Hs as Hs'. ok_inv Hs'. ok_part ct_xsave_header.
  assert (c_ok c_u64 (sk_explicit_key (xs_state_key s))) as Hkey
    by (match goal with H : c_ok ct_state_key_state _ |- _ => clear - H; ok_inv H; assumption end).
  rewrite !Forall_cons in Hw. destruct Hw as (? & ? & ? & ? & ? & ? & ? & _).
  assert (c_ok c_u32 frontend) as Hfr.
  { apply orb_true_iff in Hf as [->%Z.eqb_eq | ->%Z.eqb_eq]; by vm_compute. }
  assert (c_ok c_u64 (if negb (tls =? 0) then tls else hd_foreign_tls_base (xs_header s))) as Htls by (destruct (negb _); done).
  assert (c_ok c_u32 (hd_layout_version (xs_header s))) as Hver by (eapply (in_width_mono 16); [|done]; lia).
  unfold ct_debug_note, synthesized_note. cbv zeta.
  cbn [c_ok c_struct c_pair fst snd dn_magic dn_bytes dn_version dn_header_bytes dn_selector dn_flags dn_frontend dn_current_mode dn_state_layout_version
    dn_state_bytes dn_pc dn_sp dn_tls dn_status0 dn_status1 dn_event_sequence dn_event_kind dn_fault_address dn_raw_syndrome dn_gpr_valid_mask
    dn_fp_valid_mask dn_transition_depth dn_transition_top_cookie dn_state_key dn_spill_descriptor dn_spill_generation dn_event_offset dn_event_bytes
    dn_xsave_offset dn_xsave_bytes dn_reserved dn_event dn_state].
  split_and!;
    match goal with
    | H : c_ok ?c ?x |- c_ok ?c ?x => exact H
    | |- c_ok (c_array _ _) (repeat _ _) => apply repeat_ok; by vm_compute
    | |- c_ok (c_uint _) _ => by vm_compute
    | |- _ => idtac
    end.
  apply Hfill. unfold ct_xsave_state, set_xs_header, ct_xsave_header.
  cbn [c_ok c_struct c_pair fst snd xs_header xs_event_record xs_event_args xs_transition xs_aarch64_gpr xs_aarch64_fp xs_aarch64_status xs_riscv_gpr
    xs_riscv_fp xs_riscv_status xs_import_return xs_abi_signature xs_cross_return xs_frontend_tls xs_landing_policy xs_state_key
    xs_pre_trap_restore_reserved xs_trap_restore xs_native_return xs_reserved hd_magic hd_layout_version hd_header_bytes hd_total_bytes
    hd_current_mode hd_flags hd_foreign_pc hd_foreign_tls_base hd_trap_vector_pc hd_trap_vector_mode hd_spill_reason hd_reserved0].
  split_and!; assumption.
Qed.

(** The two notes made from a trap. *)
Definition aarch64_trap_note (s : poly_xsave_state) : Prop :=
  let r := xs_trap_restore s in
  tr_mode r = POLY_MODE_RAW_AARCH64 /\ Z.land (tr_flags r) 3 = 3 /\
  poly_aarch64_trap_restore_gpr_mask_usable (tr_aarch64_gpr_valid_mask r) = true.

Definition riscv_trap_note (s : poly_xsave_state) : Prop :=
  let r := xs_trap_restore s in
  tr_mode r = POLY_MODE_RAW_RISCV /\ Z.land (tr_flags r) 5 = 5 /\ tr_riscv_gpr_valid_mask r <> 0.

Ltac state_parts :=
  unfold ct_xsave_state;
  cbn [c_ok c_struct c_pair fst snd xs_header xs_event_record xs_event_args xs_transition xs_aarch64_gpr xs_aarch64_fp xs_aarch64_status xs_riscv_gpr
    xs_riscv_fp xs_riscv_status xs_import_return xs_abi_signature xs_cross_return xs_frontend_tls xs_landing_policy xs_state_key
    xs_pre_trap_restore_reserved xs_trap_restore xs_native_return xs_reserved];
  split_and!; try match goal with H : c_ok ?c ?x |- c_ok ?c ?x => exact H end.

Lemma aarch64_note_made (s : poly_xsave_state) : state_ok s -> aarch64_trap_note s -> exists note,
  poly_synthesize_aarch64_debug_note_from_state s = Some note /\ c_ok ct_debug_note note /\
  dn_frontend note = POLY_MODE_RAW_AARCH64 /\ dn_pc note = poly_debug_note_pc_from_event s /\
  dn_sp note = nth 31 (tr_aarch64_gpr (xs_trap_restore s)) 0 /\ xs_aarch64_gpr (dn_state note) = tr_aarch64_gpr (xs_trap_restore s) /\
  as_nzcv (xs_aarch64_status (dn_state note)) = tr_aarch64_nzcv (xs_trap_restore s).
Proof.
  intros Hs (Hm & Hf & Hu). unfold poly_synthesize_aarch64_debug_note_from_state. cbv zeta.
  change (Z.lor POLY_TRAP_RESTORE_FLAG_VALID POLY_TRAP_RESTORE_FLAG_AARCH64_STATE_VALID) with 3. rewrite Hf, Hm, Hu. cbn [Z.eqb negb orb Pos.eqb].
  eexists. split; [reflexivity|]. split; [|done]. pose proof Hs as Hs'. ok_inv Hs'. ok_part ct_trap_restore_state. ok_part ct_event_record. ok_part ct_frontend_tls_state.
  apply synthesized_ok; [done|done| |].
  - rewrite !Forall_cons. split_and!; try match goal with H : c_ok ?c ?x |- c_ok ?c ?x => exact H end; [by apply (nth_word 32)| |by vm_compute|done].
    eapply (in_width_mono 32); [lia|]. done.
  - intros t Ht. ok_inv Ht. match goal with H : c_ok ct_aarch64_status_state (xs_aarch64_status t) |- _ => ok_inv H end.
    unfold set_xs_aarch64_status, set_xs_aarch64_fp, set_xs_aarch64_gpr. state_parts. unfold ct_aarch64_status_state. ok_split; assumption.
Qed.

Lemma riscv_note_made (s : poly_xsave_state) : state_ok s -> riscv_trap_note s -> exists note,
  poly_synthesize_riscv_debug_note_from_state s = Some note /\ c_ok ct_debug_note note /\
  dn_frontend note = POLY_MODE_RAW_RISCV /\ dn_pc note = poly_debug_note_pc_from_event s /\
  dn_sp note = nth 2 (tr_riscv_gpr (xs_trap_restore s)) 0 /\ xs_riscv_gpr (dn_state note) = tr_riscv_gpr (xs_trap_restore s).
Proof.
  intros Hs (Hm & Hf & Hu). unfold poly_synthesize_riscv_debug_note_from_state. cbv zeta.
  change (Z.lor POLY_TRAP_RESTORE_FLAG_VALID POLY_TRAP_RESTORE_FLAG_RISCV_STATE_VALID) with 5. rewrite Hf, Hm, (proj2 (Z.eqb_neq _ _) Hu).
  cbn [Z.eqb negb orb Pos.eqb].
  eexists. split; [reflexivity|]. split; [|done]. pose proof Hs as Hs'. ok_inv Hs'. ok_part ct_trap_restore_state. ok_part ct_event_record. ok_part ct_frontend_tls_state.
  apply synthesized_ok; [done|done| |].
  - rewrite !Forall_cons. split_and!; try match goal with H : c_ok ?c ?x |- c_ok ?c ?x => exact H end; [by apply (nth_word 32)|by vm_compute| |by vm_compute|done].
    eapply (in_width_mono 32); [lia|]. done.
  - intros t Ht. ok_inv Ht. match goal with H : c_ok ct_riscv_status_state (xs_riscv_status t) |- _ => ok_inv H end.
    unfold set_xs_riscv_status, set_xs_riscv_fp, set_xs_riscv_gpr. state_parts. unfold ct_riscv_status_state. ok_split; assumption.
Qed.

(** A core file made from the state of a trap shows the trapped registers, with the
    address at which the guest goes on in place of the program counter. *)
Theorem trap_registers_shown (host : core_host) (signal_addr signum : Z) (s : poly_xsave_state) :
  host_ok host -> int32 signum -> state_ok s -> hd_magic (xs_header s) = POLY_STATE_XSAVE_MAGIC ->
  let r := xs_trap_restore s in
  let pc := poly_debug_note_pc_from_event s in
  (aarch64_trap_note s -> exists note bytes, poly_synthesize_debug_note_from_trap_state signal_addr s = Some note /\
     core_prstatus host note signum = Some bytes /\
     pr_reg (c_read ct_prstatus_aarch64 bytes) = take 31 (tr_aarch64_gpr r) ++ [nth 31 (tr_aarch64_gpr r) 0; pc; tr_aarch64_nzcv r]) /\
  (riscv_trap_note s -> exists note bytes, poly_synthesize_debug_note_from_trap_state signal_addr s = Some note /\
     core_prstatus host note signum = Some bytes /\
     pr_reg (c_read ct_prstatus_riscv bytes) = pc :: drop 1 (tr_riscv_gpr r)).
Proof.
  intros Hh Hsig Hs Hmagic r pc. unfold poly_synthesize_debug_note_from_trap_state. rewrite Hmagic, Z.eqb_refl. cbn [negb]. split.
  - intros Ha. destruct (aarch64_note_made s Hs Ha) as (note & -> & Hn & Hf & Hpc & Hsp & Hg & Hz). exists note. eexists. split; [done|].
    unfold core_prstatus. rewrite Hf, Z.eqb_refl. split; [done|].
    rewrite <- (app_nil_r (c_bytes ct_prstatus_aarch64 _)), (layout_read (c := ct_prstatus 34)) by (by apply aarch64_prstatus_ok).
    unfold poly_fill_aarch64_prstatus, poly_init_prstatus_common. cbn [pr_reg]. rewrite Hg, Hpc, Hz, Hsp. by destruct (negb _).
  - intros Ha. destruct (riscv_note_made s Hs Ha) as (note & E & Hn & Hf & Hpc & Hsp & Hg).
    assert (poly_synthesize_aarch64_debug_note_from_state s = None) as ->.
    { unfold poly_synthesize_aarch64_debug_note_from_state. cbv zeta. destruct Ha as (-> & _). cbn [Z.eqb negb]. by rewrite orb_true_r. }
    rewrite E. exists note. eexists. split; [done|]. unfold core_prstatus. rewrite Hf. change (POLY_MODE_RAW_RISCV =? POLY_MODE_RAW_AARCH64) with false.
    rewrite Z.eqb_refl. split; [done|].
    rewrite <- (app_nil_r (c_bytes ct_prstatus_riscv _)), (layout_read (c := ct_prstatus 32)) by (by apply riscv_prstatus_ok).
    unfold poly_fill_riscv_prstatus, poly_init_prstatus_common. cbv zeta. cbn [pr_reg]. rewrite Hg, Hpc, Hsp. fold r pc.
    assert (nth 2 (pc :: drop 1 (tr_riscv_gpr r)) 0 = nth 2 (tr_riscv_gpr r) 0) as -> by (by destruct (tr_riscv_gpr r) as [|? [|? []]]).
    destruct (Z.eqb_spec (nth 2 (tr_riscv_gpr r) 0) 0) as [E0|]; [|done]. rewrite E0.
    destruct (tr_riscv_gpr r) as [|a [|b [|c l]]]; cbn in *; by subst.
Qed.

(** ** The files after a fatal signal *)

Lemma append_cstr_fits (size : Z) (text : list Z) : forall path,
  size_of path + size_of text < size -> poly_append_cstr size text path = Some (path ++ text).
Proof.
  induction text as [|c text IH]; intros path H; cbn [poly_append_cstr]; [by rewrite app_nil_r|].
  unfold size_of in *. cbn [length] in H. unfold poly_append_char. rewrite Z.geb_leb, (proj2 (Z.leb_gt _ _)) by lia. cbn [mbind option_bind].
  rewrite IH by (rewrite length_app; cbn [length]; lia). by rewrite <- app_assoc.
Qed.

Lemma append_char_fits (size c : Z) (path : list Z) : size_of path + 1 < size -> poly_append_char size c path = Some (path ++ [c]).
Proof. intros H. unfold poly_append_char, size_of in *. by rewrite Z.geb_leb, (proj2 (Z.leb_gt _ _)) by lia. Qed.

(** The name in decimal digits of the process, the thread and the signal. *)
Definition fatal_path (host : core_host) (dir : list Z) (signum : Z) (suffix : list Z) : list Z :=
  dir ++ (if bool_decide (last dir = Some 47) then [] else [47]) ++ bytes_of_string "polyexec-v2-fatal-note-" ++
  rev (dec_digits 20 (u64 (ch_pid host))) ++ [45] ++ rev (dec_digits 20 (u64 (ch_tid host))) ++ bytes_of_string "-sig" ++
  rev (dec_digits 20 (u64 signum)) ++ suffix.

Lemma fatal_path_built (host : core_host) (dir : list Z) (signum : Z) (suffix : list Z) :
  dir <> [] -> suffix <> [] -> size_of (fatal_path host dir signum suffix) < 512 ->
  poly_build_fatal_debug_note_path host (Some dir) 512 signum suffix = Some (fatal_path host dir signum suffix).
Proof.
  intros Hd Hs Hl. unfold poly_build_fatal_debug_note_path. destruct dir as [|d dir]; [done|]. set (dir' := d :: dir) in *.
  rewrite bool_decide_eq_false_2 by done. cbn [Z.eqb orb]. unfold fatal_path in *. unfold size_of in Hl. rewrite !length_app in Hl.
  rewrite append_cstr_fits by (unfold size_of; cbn [length]; lia). cbn [mbind option_bind app]. rewrite (bool_decide_eq_false_2 (dir' = [])) by done. cbn [orb].
  assert ((if bool_decide (last dir' = Some 47) then Some dir' else poly_append_char 512 47 dir') =
          Some (dir' ++ (if bool_decide (last dir' = Some 47) then [] else [47]))) as ->.
  { case_bool_decide; [by rewrite app_nil_r|]. unfold poly_append_char. rewrite Z.geb_leb, (proj2 (Z.leb_gt _ _)); [done|]. cbn [length] in Hl. lia. }
  cbn [mbind option_bind]. unfold poly_append_u64_dec. change (length [45]) with 1%nat in Hl.
  repeat (first [rewrite append_char_fits|rewrite append_cstr_fits]; [|unfold size_of; rewrite ?length_app; change (length [45]) with 1%nat; lia]; cbn [mbind option_bind]).
  by rewrite <- !app_assoc.
Qed.

(** The processor dumps a note of the guest. *)
Definition dumped (dump : Z * poly_v2_debug_note) : Prop :=
  dump.1 = 0 /\ dn_magic dump.2 = POLY_V2_DEBUG_NOTE_MAGIC /\ dn_bytes dump.2 = POLY_V2_DEBUG_NOTE_BYTES /\
  poly_is_raw_foreign_mode (dn_frontend dump.2) = true.

(** A fatal signal of guest code leaves both files, and a second one changes nothing. *)
Theorem fatal_signal_leaves_files open_fails close_fails getenv probe m host signal_code signal_addr (dir : list Z) ctx dump exported signum
    (files : list (list Z * list Z)) (answers : list write_answer) :
  (forall p, open_fails p = false) -> dir <> [] -> size_of (fatal_path host dir signum (bytes_of_string ".core")) < 512 ->
  host_ok host -> int32 signum -> int32 signal_code -> in_width 64 signal_addr -> context_ok ctx -> c_ok ct_debug_note dump.2 -> dumped dump ->
  Forall obliging answers ->
  let fatal := poly_write_fatal_debug_note open_fails close_fails getenv probe m host signal_code signal_addr (Some dir) ctx dump exported signum in
  exists answers',
    fatal (MkFatal false 1 (MkFiles files answers)) =
      MkFatal true 1 (MkFiles (files ++
        [(fatal_path host dir signum (bytes_of_string ".note"), c_bytes ct_debug_note dump.2);
         (fatal_path host dir signum (bytes_of_string ".core"), core_image probe m host signal_code signal_addr signum ctx dump.2)]) answers') /\
    forall st, fs_written st = true -> fatal st = st.
Proof.
  intros Ho Hd Hl Hh Hs Hc Ha Hctx Hn (D1 & D2 & D3 & D4) Hans fatal. subst fatal. destruct dump as [result note]. cbn [fst snd] in *.
  destruct (appends_all [] (c_bytes ct_debug_note note) answers Hans) as (answers1 & Hans1 & E1).
  destruct (core_written probe m host signal_code signal_addr signum ctx note Hh Hs Hc Ha Hctx Hn answers1 Hans1) as (answers2 & _ & E2).
  exists answers2. split.
  - unfold poly_write_fatal_debug_note. destruct dir as [|d dir]; [done|]. cbn [fs_written]. unfold fatal_note.
    rewrite D1, D2, D3, D4. cbn [Z.eqb negb orb]. rewrite !Z.eqb_refl. cbn [negb orb].
    rewrite !fatal_path_built; [|done|done|exact Hl|done|done|unfold fatal_path, size_of in *; rewrite !length_app in *; exact Hl].
    unfold poly_write_fatal_debug_note_raw, with_file, poly_fatal_core_wrapper_enabled. cbn [fs_files fs_wrapper fi_answers fi_files].
    rewrite !Ho, E1. cbn [fst fd_bytes fd_answers fi_answers fi_files Z.ltb Z.eqb Z.compare]. rewrite D4. cbn [negb]. rewrite E2.
    cbn [fst fd_bytes fd_answers]. by rewrite <- app_assoc.
  - intros st Hw. unfold poly_write_fatal_debug_note. destruct dir; [done|]. by rewrite Hw.
Qed.

(** ** A concrete core file

    An AArch64 thread with a stack of one page in a program of one page. *)

(** The frontend at offset 32, the stack pointer at 56. *)
Definition core_note_bytes : list Z :=
  repeat 0 32 ++ [1; 0; 0; 0] ++ repeat 0 20 ++ [0; 0; 1; 0; 0; 0; 0; 0] ++ repeat 0 (Z.to_nat (9216 - 64)).

Definition core_sample_note : poly_v2_debug_note := c_read ct_debug_note core_note_bytes.

Definition core_sample_probe : mem_probe := fun address _ _ => (0, if address =? 65536 then 6 else 0).

Definition core_sample_host : core_host := MkCoreHost 100 1 100 100 101 1000 1000.

Definition core_sample_program (size : Z) : loaded_program :=
  MkLoaded (bytes_of_string "/bin/app") (MkProgramHeader 0 size 0 0 0) POLY_ARCH_AARCH64 false 0 0 56 1 false [] [MkSegment 0 0 size size 5] 0 0
    (ElfLoad.MkTls 0 0 0 0) no_lifecycle [] [] [].

Lemma core_sample_note_ok : c_ok ct_debug_note core_sample_note.
Proof.
  apply layout_ok; [|vm_compute; lia]. assert (forallb (fun b => (0 <=? b) && (b <? 256)) core_note_bytes = true) as H by (by vm_compute).
  apply Forall_forall. intros b Hb. apply list_elem_of_In in Hb. rewrite forallb_forall in H. specialize (H b Hb).
  apply andb_true_iff in H as [H1%Z.leb_le H2%Z.ltb_lt]. unfold in_width. lia.
Qed.

Lemma core_sample_context_ok : context_ok (Some (core_sample_program 4096, 2 ^ 32)).
Proof.
  cbn [context_ok core_sample_program lp_header base_vaddr code_size lp_path lp_load_segments].
  split; [lia|]. split; [unfold MAX_PROGRAM_BYTES; lia|]. split; [by vm_compute|]. apply Forall_singleton.
  unfold segment_ok, in_width. cbn [seg_vaddr seg_memsz seg_offset seg_flags]. lia.
Qed.


(** Eight bytes more and the program is not in the file. *)
Example core_sample_missing :
  poly_collect_core_file_mappings (Some (core_sample_program 4104, 2 ^ 32)) = [] /\
  length (poly_collect_core_file_mappings (Some (core_sample_program 4096, 2 ^ 32))) = 1%nat.
Proof. by vm_compute. Qed.

(** The theorem says why. *)
Example core_sample_segment_missing : core_mapping (core_sample_program 4104) (2 ^ 32) (MkSegment 0 0 4104 4104 5) = None.
Proof. apply last_segment_missing; vm_compute; split_and?; congruence. Qed.

Example core_sample_path :
  fatal_path core_sample_host (bytes_of_string "/tmp") 11 (bytes_of_string ".core") =
  bytes_of_string "/tmp/polyexec-v2-fatal-note-100-101-sig11.core".
Proof. by vm_compute. Qed.
