(* ===== verification/HostSamples.v ===== *)
(** Concrete hosts, threads and events, at which the properties of the system
    calls apply. *)

From stdpp Require Import strings.
From S2P Require Import Prelude SyscallMap GuestMemory GuestSignals SeccompBpf Seccomp LoaderBase BridgeSpec CStruct TrapState SignalFrame SignalDelivery SignalReturn SignalProps SignalStack SignalSamples TrapClean TrapReturn HostCalls FileCalls FileProps MemCalls MemProps StructuredCalls CallBehaviour TrapEvent CloneCalls CloneTls CloneProps ExecveCall ExecveProps TrapDispatch TrapProps SyscallProps.

(** ** The monitor *)

Definition no_counts : event_counts := MkCounts 0 0 0 0 0 0 0 0.
Definition no_summary : syscall_summary := MkSummary 0 0 (fun _ => 0) (fun _ => 0) (fun _ => 0).
Definition new_books : trap_books := MkBooks 0 no_counts no_summary (MkFinalizers false false).

Definition sample_monitor (c : seccomp_state) (m : memory) : monitor :=
  MkMonitor (sample_thread SIGUSR1 0 0 no_stack m) c (MkBrk 0 0 0) (MkWinsz false 0 0) new_books open_probe [] [].

Definition sample_settings : run_settings :=
  MkRun (MkSettings 0 true false) true false false false false true false true None [].

Definition sample_processor : processor :=
  MkProcessor keep_pages accept apply_completion 0x70000 0x6000 POLY_CPUID_V2_FEATURE_EVENT_COMPLETE true true (fun _ => true).

Definition sample_outside : outside := MkOutside (mret 0) (mret 0) (fun _ _ => mret 0) true.

Definition sample_signal_os : host_os := MkHost (fun _ => 0) 0 (fun _ _ _ => (0, 0)).

(** A host that answers every call with [status] and fills buffers with zeros. *)
Definition answering (status : Z) : host := fun _ m p c =>
  MkReply status (foldr (fun a l => match a with Out n => repeat 0 (Z.to_nat n) | _ => l end) [] (hc_args c)) m p.

Definition initial : monitor := sample_monitor initial_seccomp zero_memory.

(** ** Files *)

Lemma open_flags_meaning_witness :
  whole_flags 0x14040 /\
  exists native, has_bits (x86_flag_bits Create) native = true /\ has_bits (x86_flag_bits Directory) native = true /\
    has_bits (x86_flag_bits Append) native = false.
Proof.
  assert (whole_flags 0x14040) as Hw by (split; vm_compute; discriminate). split; [exact Hw|].
  destruct (open_flags_meaning (answering 0) 3 0x1000 0x14040 0 initial Hw) as (s1 & native & _ & Hf).
  exists native. split; [rewrite (Hf Create); reflexivity|]. split; [rewrite (Hf Directory); reflexivity|].
  rewrite (Hf Append). reflexivity.
Defined.

Lemma stat_translated_witness :
  reports (answering 0) ct_linux_generic_stat ct_x86_stat widened_stat (dispatch_stat (answering 0) SYS_fstat [3] [0; 0; 0; 0] 0x1000)
    (MkCall SYS_fstat [Val 3; Out 144; Val 0; Val 0; Val 0; Val 0]) 0x1000 initial.
Proof.
  apply (stat_translated (answering 0) SYS_fstat 3 0x1000 [3] [0; 0; 0; 0] initial).
  - done.
  - done.
  - split; [reflexivity|]. apply Forall_forall. intros x Hx%list_elem_of_In. by apply repeat_spec in Hx as ->.
  - vm_compute. by split.
  - split; [reflexivity|]. apply Forall_forall. intros x Hx%list_elem_of_In. by apply repeat_spec in Hx as ->.
Defined.

(** ** Memory *)

Lemma brk_refines_break_witness : exists s',
  call_breaks (answering 0x100000) [0; 0x100800; 0x300000] initial = (s', Done [0x100000; 0x100800; 0x100800]).
Proof.
  destruct (brk_refines_break (answering 0x100000) 0 [0x100800; 0x300000] initial 0x100000) as (s' & H & _).
  - reflexivity.
  - reflexivity.
  - lia.
  - done.
  - repeat constructor; lia.
  - exists s'. exact H.
Defined.

(** A host with one file of three bytes. *)
Definition three_bytes : list Z := [7; 8; 9].

Definition stat_of_size (size : Z) : list Z := repeat 0 48 ++ le_bytes 8 size ++ repeat 0 88.

Definition one_file_host : host := fun _ m p c =>
  if hc_number c =? SYS_mprotect then MkReply 0 [] m p
  else match hc_args c with
  | [Val fd; Out size] => MkReply 0 (stat_of_size 3) m p
  | [Val address; Val length; _; _; _; _] =>
      MkReply (if (0 <=? length) && (length <=? 2 ^ 40) then 0x10000 else - ENOMEM) [] m p
  | [Val fd; Val buffer; Val n; Val offset] =>
      if (n <? 0) || (offset <? 0) then MkReply (- EINVAL) [] m p
      else
        let got := Z.min n (Z.max 0 (3 - offset)) in
        MkReply got [] (store_bytes m buffer (take (Z.to_nat got) (drop (Z.to_nat offset) three_bytes))) p
  | _ => MkReply 0 [] m p
  end.

Lemma one_file_host_ok : file_host one_file_host 3 three_bytes.
Proof.
  split.
  - intros log m p. right. split; [reflexivity|]. vm_compute. reflexivity.
  - intros log m p address length prot flags. cbn.
    destruct (Z.leb_spec 0 length), (Z.leb_spec length (2 ^ 40)); cbn; unfold ENOMEM; lia.
  - intros log m p buffer n offset. cbn.
    destruct (Z.ltb_spec n 0), (Z.ltb_spec offset 0); cbn; unfold EINVAL, EINTR; try (left; lia). right. split_and!; try lia; done.
  - intros log m p args. reflexivity.
Qed.


(** ** Whole events *)

(** The event frame of a system call of an AArch64 guest. *)
Definition call_frame (number : Z) (args : list Z) : poly_v2_event_frame :=
  MkEventFrame POLY_V2_EVENT_MAGIC POLY_V2_EVENT_BYTES POLY_V2_EVENT_VERSION POLY_V2_EVENT_HEADER_BYTES 7
    POLY_MODE_RAW_AARCH64 POLY_V2_EVENT_KIND_SYSCALL 0 0 0 0 POLY_V2_EVENT_ARG_COUNT 0x4000 0x4004 0x4004 0 0 0 0 0 number args
    0 0 0 0 0 0 0 0 0 0 0 0 (repeat 0 16) (repeat 0 104).

Definition call_packet (number : Z) (args : list Z) : poly_runtime_event_record :=
  MkPacket POLY_TRAP_SYSCALL POLY_MODE_RAW_AARCH64 number 0 0x4000 0x4004 packet_flags [0; 0] args.

Lemma call_frame_packet (number : Z) (args : list Z) :
  event_packet (call_frame number args) None = Some (call_packet number args, 7).
Proof. reflexivity. Qed.

Lemma call_packet_plain (number : Z) (args : list Z) : number <> 139 -> plain_trap (call_packet number args).
Proof. by split. Qed.

Lemma sample_undisturbed (c : seccomp_state) (m : memory) (packet : poly_runtime_event_record) :
  undisturbed sample_processor packet (sample_monitor c m).
Proof. intros j d _ (_ & Hp & _). unfold pending in Hp. cbn in Hp. by rewrite Z.bits_0 in Hp. Qed.




(** ** Clone *)

(** A host that maps memory at one place and reports to the child. *)
Definition cloning_host (place : Z) (fs : Z) : host := fun _ m p c =>
  if hc_number c =? SYS_mmap then
    match hc_args c with
    | [_; Val size; _; _; _; _] => MkReply (if size <? 2 ^ 40 then place else - ENOMEM) [] m p
    | _ => MkReply (- EINVAL) [] m p
    end
  else MkReply 0 (le_bytes 8 fs) m p.

#[export] Instance cloning_host_ok (fs : Z) : CloneHost (cloning_host 0x10000000 fs).
Proof.
  split.
  - intros log m p size prot flags fd offset. cbn. destruct (Z.ltb_spec size (2 ^ 40)); cbn; [right|left; unfold ENOMEM]; lia.
  - reflexivity.
Qed.

(** A derivation that does what the descriptor says. *)
Definition derive_sample (s : poly_xsave_state) (d : poly_v2_derive_descriptor) : Z * poly_xsave_state :=
  let flag k := Z.testbit (dd_flags d) k in
  let gpr sp ret l := (if flag 0 then <[sp := dd_child_sp d]> else id) (<[ret := dd_child_return_value d]> l) in
  let t := xs_frontend_tls s in
  let tls old := if flag 1 then dd_child_tls d else old in
  let riscv := dd_frontend d =? POLY_MODE_RAW_RISCV in
  (0, if negb (flag 2 && flag 7) then s
      else
        set_xs_frontend_tls
          (MkTls (ft_flags t) (ft_active_mode t) (if riscv then ft_aarch64_tls_base t else tls (ft_aarch64_tls_base t))
             (if riscv then tls (ft_riscv_tls_base t) else ft_riscv_tls_base t) (ft_reserved t))
          (set_xs_riscv_gpr (if riscv then gpr 2%nat 10%nat (xs_riscv_gpr s) else xs_riscv_gpr s)
             (set_xs_aarch64_gpr (if riscv then xs_aarch64_gpr s else gpr 31%nat 0%nat (xs_aarch64_gpr s))
                (set_xs_header (set_hd_foreign_pc (dd_child_pc d) (xs_header s)) s)))).

Lemma set_pc_gpr_tls_ok (pc : Z) (t : poly_frontend_tls_state) (a r : list Z) (s : poly_xsave_state) : word pc ->
  c_ok ct_frontend_tls_state t -> c_ok (c_array 32 c_u64) a -> c_ok (c_array 32 c_u64) r -> state_ok s ->
  state_ok (set_xs_frontend_tls t (set_xs_riscv_gpr r (set_xs_aarch64_gpr a
    (set_xs_header (set_hd_foreign_pc pc (xs_header s)) s)))).
Proof.
  intros Hpc Ht Ha Hr H. ok_inv H. ok_part ct_xsave_header. unfold ct_xsave_state, ct_xsave_header. ok_split;
    cbn [xs_header xs_event_record xs_event_args xs_transition xs_aarch64_gpr xs_aarch64_fp xs_aarch64_status xs_riscv_gpr
      xs_riscv_fp xs_riscv_status xs_import_return xs_abi_signature xs_cross_return xs_frontend_tls xs_landing_policy
      xs_state_key xs_pre_trap_restore_reserved xs_trap_restore xs_native_return xs_reserved set_xs_frontend_tls
      set_xs_riscv_gpr set_xs_aarch64_gpr set_xs_header hd_magic hd_layout_version hd_header_bytes hd_total_bytes
      hd_current_mode hd_flags hd_foreign_pc hd_foreign_tls_base hd_trap_vector_pc hd_trap_vector_mode hd_spill_reason
      hd_reserved0 set_hd_foreign_pc]; ok_done.
Qed.

#[export] Instance derive_sample_ok : DeriveChild derive_sample.
Proof.
  split. intros s s' d mode flag Hm F2 F7 Hs [Wsp Wtls Wret Wpc _]. unfold flag in *. clear flag.
  unfold derive_sample. cbv zeta. rewrite F2, F7. cbn [andb negb].
  intros [= <-]. pose proof Hs as Hparts. ok_inv Hparts. ok_part ct_frontend_tls_state.
  assert (forall (sp ret : nat) l, c_ok (c_array 32 c_u64) l ->
    c_ok (c_array 32 c_u64) ((if Z.testbit (dd_flags d) 0 then <[sp := dd_child_sp d]> else id) (<[ret := dd_child_return_value d]> l))) as Hg.
  { intros sp ret l Hl. destruct (Z.testbit (dd_flags d) 0); unfold id; repeat apply insert_words; done. }
  assert (forall old, word old -> word (if Z.testbit (dd_flags d) 1 then dd_child_tls d else old)) as Hw
    by (intros old ?; by destruct (Z.testbit (dd_flags d) 1)).
  fold mode. fold mode in Hm. split.
  - apply set_pc_gpr_tls_ok; [exact Wpc| |by destruct (mode =? _); [|apply Hg]|by destruct (mode =? _); [apply Hg|]|exact Hs].
    unfold ct_frontend_tls_state. ok_split;
      cbn [ft_flags ft_active_mode ft_aarch64_tls_base ft_riscv_tls_base ft_reserved]; destruct (mode =? POLY_MODE_RAW_RISCV);
      first [assumption|by apply Hw].
  - unfold live_gpr, tls_base, stack_register, argument_register.
    cbn [xs_header xs_frontend_tls xs_riscv_gpr xs_aarch64_gpr set_xs_frontend_tls set_xs_riscv_gpr set_xs_aarch64_gpr
      set_xs_header set_hd_foreign_pc hd_foreign_pc ft_aarch64_tls_base ft_riscv_tls_base].
    by destruct (raw_modes _ Hm) as [-> | ->].
Qed.

(** An AArch64 guest starts a thread; the run is the child's. *)
Definition clone_packet : poly_runtime_event_record := call_packet 220 [Z.lor CLONE_VM CLONE_SETTLS; 0x90000; 0; 0x95000; 0; 0; 0; 0].

Lemma clone_packet_ok : c_ok ct_runtime_event_record clone_packet.
Proof.
  assert (forall v, (0 <=? v) && (v <? 2 ^ 64) = true -> word v) as Hw by (intros v; unfold in_width; lia).
  unfold ct_runtime_event_record. ok_split;
    cbn [clone_packet call_packet pk_reason pk_mode pk_number pk_selector pk_pc pk_next_pc pk_flags pk_reserved pk_args];
    lazymatch goal with
    | |- c_ok (c_uint 8) _ => by apply Hw
    | |- c_ok (c_array _ _) _ => split; [reflexivity|]; repeat (apply Forall_cons; split; [by apply Hw|]); apply Forall_nil; exact I
    end.
Qed.


(** The parent's thread pointer is 0x7000000. *)
Lemma clone_tls_moved_witness : exists s',
  poly_prepare_clone_native_tls (cloning_host 0x10000000 0x7000000) initial =
    (s', Done (Some (0x10000000, TLS_MAPPING_SIZE, 0x10040000))) /\
  ~ in_window 0x6fc0000 (load_u64 (mo_memory s') 0x10000008).
Proof.
  destruct (clone_tls_moved (cloning_host 0x10000000 0x7000000) initial) as (s' & H & Hk).
  - by vm_compute.
  - by vm_compute.
  - by vm_compute.
  - by vm_compute.
  - by vm_compute.
  - right. vm_compute. discriminate.
  - intros a. by vm_compute.
  - exists s'. split; [exact H|]. apply (Hk 1). split; [lia|by vm_compute].
Defined.

(** ** Execve *)

(** Every file is an AArch64 program; replacing the program fails. *)
Definition program_header : list Z := [127; 69; 76; 70; 2; 1] ++ repeat 0 12 ++ [183; 0] ++ repeat 0 44.
Definition programs_host : host := fun _ m p c =>
  if hc_number c =? SYS_read then MkReply 64 program_header m p
  else if hc_number c =? SYS_execve then MkReply (- ENOMEM) [] m p
  else MkReply 3 [] m p.

(** The path at 0x3000, the arguments at 0x1000: one, at 0x2000. *)
Definition exec_memory : memory := fun a =>
  if a =? 0x1001 then 0x20 else if a =? 0x3000 then 47 else if a =? 0x2000 then 97 else 0.

Definition exec_start : monitor := sample_monitor initial_seccomp exec_memory.

