(* ===== verification/LoadSamples.v ===== *)
(** Concrete files and processes: a program with libraries that need each other, for
    which the hypotheses of the theorems on loading, mapping and start hold. *)

From stdpp Require Import gmap strings.
From S2P Require Import Prelude LoaderBase GuestMemory BridgeSpec ElfImage ElfSymbols CodeEmit Trampoline CrossStub TlsHelpers ProcessImage ElfLoad ElfLoadProps LibraryPath ProcessStack StackProps ElfDeps DependencyLoad DependencyTree Relocation ProcessLifecycle ProcessOrder LifecycleOrder ProcessCleanup ProcessFree ProcessStart Vdso ProcessEntry TlsLayout.

(** ** Files *)

Definition sample_phdr (type flags offset filesz memsz align : Z) : list Z :=
  le_bytes 4 type ++ le_bytes 4 flags ++ le_bytes 8 offset ++ le_bytes 8 offset ++ le_bytes 8 0 ++ le_bytes 8 filesz ++
  le_bytes 8 memsz ++ le_bytes 8 align.

(** A shared object: one load segment over the whole file, thread-local storage of the
    given size, a string table and a dynamic section with the given entries after those
    of the table. *)
Definition sample_elf (tls : Z) (strtab : list Z) (entries : list (Z * Z)) : image :=
  let dyn := [(5, 232); (10, Z.of_nat (length strtab))] ++ entries ++ [(0, 0)] in
  let dyn_offset := 232 + Z.of_nat (length strtab) in
  let dyn_size := 16 * Z.of_nat (length dyn) in
  let total := dyn_offset + dyn_size in
  [127; 69; 76; 70; 2; 1; 1; 0; 0; 0; 0; 0; 0; 0; 0; 0] ++ le_bytes 2 3 ++ le_bytes 2 62 ++ le_bytes 4 1 ++ le_bytes 8 0 ++
  le_bytes 8 64 ++ le_bytes 8 0 ++ le_bytes 4 0 ++ le_bytes 2 64 ++ le_bytes 2 56 ++ le_bytes 2 3 ++ le_bytes 2 0 ++ le_bytes 2 0 ++ le_bytes 2 0 ++
  sample_phdr 1 7 0 total total 4096 ++ sample_phdr 2 6 dyn_offset dyn_size dyn_size 8 ++
  (if tls =? 0 then sample_phdr 0 0 0 0 0 0 else sample_phdr 7 4 0 4 tls 8) ++
  strtab ++ concat ((fun e => le_bytes 8 e.1 ++ le_bytes 8 e.2) <$> dyn).

(** The strings "a", "b", "c". *)
Definition sample_strings : list Z := [0; 97; 0; 98; 0; 99; 0].

Definition path_r : list Z := bytes_of_string "/r".
Definition path_a : list Z := bytes_of_string "/a".
Definition path_b : list Z := bytes_of_string "/b".

Definition sample_files (r a b : image) (path : list Z) : option image :=
  if bool_decide (path = path_r) then Some r
  else if bool_decide (path = path_a) then Some a
  else if bool_decide (path = path_b) then Some b
  else None.

(** [/r] needs a and b; a needs b and has DT_INIT; b has DT_INIT and
    DT_FINI; both have thread-local variables. *)
Definition tree_files : list Z -> option image :=
  sample_files (sample_elf 0 sample_strings [(1, 1); (1, 3)]) (sample_elf 20 sample_strings [(14, 1); (1, 3); (12, 8)])
    (sample_elf 12 sample_strings [(14, 3); (12, 16); (13, 24)]).

(** [/r] needs a, which needs b, which needs a. *)
Definition circle_files : list Z -> option image :=
  sample_files (sample_elf 0 sample_strings [(1, 1)]) (sample_elf 0 sample_strings [(14, 1); (1, 3)])
    (sample_elf 0 sample_strings [(14, 3); (1, 1)]).

Definition no_env (_ : list Z) : option (list Z) := None.
Definition never (_ : Z) : bool := false.

Definition sample_program (files : list Z -> option image) : outcome loaded_program := load_elf_program files never path_r [].

Definition loaded_tree (files : list Z -> option image) (prog : loaded_program) : process * outcome unit :=
  load_process_dependencies files never (fun _ => false) no_env (fun path => bool_decide (files path <> None)) 10 root_ptr
    (only_program prog).

Definition tree_prog : loaded_program := match sample_program tree_files with Ok prog => prog | _ => MkLoaded [] (MkProgramHeader 0 0 0 0 0) 0 false 0 0 0 0 false [] [] 0 0 (MkTls 0 0 0 0) no_lifecycle [] [] [] end.

Lemma bytes_checked (l : list Z) : forallb (fun b => (0 <=? b) && (b <? 256)) l = true -> wf_image l.
Proof.
  intros H. apply Forall_forall. intros b Hb. apply list_elem_of_In in Hb. rewrite forallb_forall in H. specialize (H b Hb).
  apply andb_true_iff in H as [H1%Z.leb_le H2%Z.ltb_lt]. unfold in_width. lia.
Qed.

Lemma sample_files_wf (r a b : image) : wf_image r -> wf_image a -> wf_image b ->
  forall path data, sample_files r a b path = Some data -> wf_image data.
Proof. intros Hr Ha Hb path data. unfold sample_files. repeat case_bool_decide; intros [= <-]; done. Qed.

Lemma tree_files_wf (path : list Z) (data : image) : tree_files path = Some data -> wf_image data.
Proof. apply sample_files_wf; by apply bytes_checked. Qed.

Lemma load_returns_witness : returns (load_elf_program tree_files never path_a []).
Proof. exact (load_returns tree_files never path_a tree_files_wf). Defined.

Definition library_a : image := sample_elf 20 sample_strings [(14, 1); (1, 3); (12, 8)].

Lemma library_a_wf : wf_image library_a.
Proof. by apply bytes_checked. Qed.

Lemma load_places_segments_witness : exists p ehdr l,
  load_elf_program tree_files never path_a [] = Ok p /\ file_phdrs library_a ehdr = Ok l /\
  lp_load_segments p = segment_of <$> loads l /\ length (loads l) = 1%nat.
Proof.
  destruct (load_elf_program tree_files never path_a []) as [p| | |] eqn:E; [|by vm_compute in E..].
  destruct (load_places_segments tree_files never path_a [] library_a p eq_refl library_a_wf E)
    as (ehdr & l & He & Hl & _ & Hs & _).
  exists p, ehdr, l. split; [reflexivity|]. split; [exact Hl|]. split; [exact Hs|].
  vm_compute in He. injection He as <-. vm_compute in Hl. injection Hl as <-. reflexivity.
Defined.

(** ** Circles *)

Definition program_of (files : list Z -> option image) : loaded_program :=
  match sample_program files with Ok prog => prog | _ => tree_prog end.

Definition circle : process := (loaded_tree circle_files (program_of circle_files)).1.

Lemma circle_wf : tree_wf circle_files never circle.
Proof. apply load_tree_wf. Qed.

Definition in_circle (p : ptr) : Prop := p = 2%positive \/ p = 3%positive.

Lemma circular_search_does_not_end_witness :
  find_process_dependency_soname 1000 root_ptr POLY_ARCH_X86 [98] circle = (circle, Ok (Some (2%positive, 0%nat))) /\
  forall n, find_process_dependency_soname n 2%positive POLY_ARCH_X86 [99] circle = (circle, Spin).
Proof.
  split; [by vm_compute|]. intros n.
  apply (circular_search_does_not_end circle_files never circle POLY_ARCH_X86 [99] in_circle 2%positive n circle_wf); [done| | |by left].
  - intros q prog Hq. right. unfold prog_at in Hq. destruct (ps_nodes circle !! q) as [node|] eqn:E; [|done]. injection Hq as <-.
    assert (forallb (fun x : ptr * program_node => negb (bool_decide (lp_soname (nd_program x.2) = [99]))) (map_to_list (ps_nodes circle)) = true)
      as H by (by vm_compute).
    rewrite forallb_forall in H. apply elem_of_map_to_list in E. apply list_elem_of_In in E. specialize (H _ E). cbn in H.
    by apply negb_true_iff, bool_decide_eq_false_1 in H.
  - intros p [->| ->].
    + exists 0%nat. eexists _, 3%positive. split; [vm_compute; reflexivity|]. split; [done|by right].
    + exists 0%nat. eexists _, 2%positive. split; [vm_compute; reflexivity|]. split; [done|by left].
Defined.

(** ** A process *)

Definition tree : process := (loaded_tree tree_files tree_prog).1.

Lemma tree_is_wf : tree_wf tree_files never tree.
Proof. apply load_tree_wf. Qed.

Definition tree_state : run_state := MkRun tree (MkProcess ∅ sample_state) [].

(** Mappings one after the other; every protection succeeds. *)
Definition next_mapping (imgs : gmap Z image) (size : Z) : option Z := Some (0x100000 + 0x10000 * Z.of_nat (length (map_to_list imgs))).

Definition mapped_tree : run_state * outcome unit :=
  map_process_dependencies no_guest next_mapping (fun _ _ _ => false) sample_run_env 5 5 [] [] root_ptr tree_state.

Definition finalized_tree : run_state * outcome unit :=
  run_process_dependency_finalizers no_guest sample_run_env 5 root_ptr mapped_tree.1.

Lemma tree_has_root : exists prog, prog_at tree root_ptr = Some prog.
Proof. vm_compute. by eexists. Qed.

Lemma tree_fuel : (Pos.to_nat (ps_next tree) <= Pos.to_nat root_ptr + 5)%nat.
Proof. assert (ps_next tree = 4%positive) as -> by (vm_compute; reflexivity). unfold root_ptr. lia. Qed.

Lemma tree_unmapped (d : dep_ref) (dep : dependency) : dep_at tree d = Some dep -> dp_mapping dep = None.
Proof.
  unfold dep_at. destruct (ps_nodes tree !! d.1) as [node|] eqn:E; [|done]. cbn. intros Hd.
  assert (forallb (fun x : ptr * program_node => forallb (fun dep => bool_decide (dp_mapping dep = None)) (nd_deps x.2))
            (map_to_list (ps_nodes tree)) = true) as H by (by vm_compute).
  rewrite forallb_forall in H. apply elem_of_map_to_list, list_elem_of_In in E. specialize (H _ E). rewrite forallb_forall in H.
  apply list_elem_of_lookup_2, list_elem_of_In in Hd. specialize (H _ Hd). by apply bool_decide_eq_true_1 in H.
Qed.

(** The calls of a log. *)
Definition calls (log : list process_event) : list (ptr * Z) :=
  omap (fun e => match e with EvCall p t => Some (p, t) | _ => None end) log.

Lemma finalizers_reverse_initializers_witness :
  calls (ru_log mapped_tree.1) = [(3%positive, 0x100010); (2%positive, 0x110008)] /\
  exists order, NoDup order /\ (forall q, q ∈ order <-> tc (owns tree) root_ptr q) /\
    exists downs, ru_log finalized_tree.1 = ru_log mapped_tree.1 ++ concat downs /\
      Forall2 (finished (ru_store mapped_tree.1)) (rev order) downs.
Proof.
  split; [by vm_compute|]. destruct tree_has_root as [prog Hp].
  assert (alike tree (ru_store mapped_tree.1)) as Ha
    by (apply map_keeps_tree; [exact (tree_fits _ _ _ tree_is_wf 5 root_ptr prog Hp tree_fuel)|exact (fun q => eq_refl)]).
  destruct (finalizers_reverse_initializers no_guest next_mapping (fun _ _ _ => false) sample_run_env 5 [] [] tree_files never root_ptr prog 5
    tree_state mapped_tree.1 mapped_tree.1 finalized_tree.1 tree_is_wf Hp tree_fuel) as (order & ups & downs & H1 & H2 & _ & _ & _ & H6 & H7);
    [vm_compute; reflexivity|exact Ha|vm_compute; reflexivity|].
  exists order. split; [exact H1|]. split; [exact H2|]. exists downs. split; [exact H6|exact H7].
Defined.

(** A library that cannot be protected: its mapping and those before it are given back. *)
Definition second_fails (addr _ _ : Z) : bool := addr =? 0x110000.

Lemma mappings_given_back_witness : exists block st2,
  ru_log (map_process_dependencies no_guest next_mapping second_fails sample_run_env 5 5 [] [] root_ptr tree_state).1 = block /\
  maps_of block = [(0x100000, 0x1000); (0x110000, 0x1000)] /\
  ru_log st2 = block ++ (unmap_event <$> maps_of block).
Proof.
  destruct tree_has_root as [prog Hp].
  destruct (mappings_given_back no_guest next_mapping second_fails sample_run_env 5 [] [] tree_files never root_ptr prog 5 tree_state
    tree_is_wf Hp tree_fuel tree_unmapped) as (block & st2 & H1 & _ & H3 & _).
  exists block, st2. rewrite H1 in H3. split; [exact H1|]. split; [|exact H3]. rewrite <- (app_nil_l block).
  change (@nil process_event) with (ru_log tree_state). rewrite <- H1. by vm_compute.
Defined.

Definition library_fails (addr _ _ : Z) : bool := addr =? 0x130000.

(** The main mapping goes to a fixed place. *)
Definition main_at (addr : Z) (_ : option Z) (_ : Z) : option Z := Some addr.

(** No vDSO, and a stack that cannot be mapped. *)
Definition no_vdso (_ : list Z) : vdso_file := VdsoMissing.
Definition no_stack : stack_host := MkStackHost None false [] None 1234 100 0 0 0 0.
Definition no_protect_fails (_ _ _ : Z) : bool := false.

#[local] Abbreviation start_tree protect :=
  (emit_and_run_process no_guest next_mapping protect (main_at 0x400000) sample_env None 5 5 no_env no_vdso no_stack false false
    root_ptr tree_prog (MkRequest path_r []) [] (fun _ => 0)).


(** A vDSO of one page; and one with a second segment whose end, rounded up, is 0. *)
Definition vdso_elf (more : list Z) : image :=
  [127; 69; 76; 70; 2; 1; 1; 0; 0; 0; 0; 0; 0; 0; 0; 0] ++ le_bytes 2 3 ++ le_bytes 2 183 ++ le_bytes 4 1 ++ le_bytes 8 0 ++
  le_bytes 8 64 ++ le_bytes 8 0 ++ le_bytes 4 0 ++ le_bytes 2 64 ++ le_bytes 2 56 ++
  le_bytes 2 (1 + Z.of_nat (length more) / 56) ++ le_bytes 2 64 ++ le_bytes 2 0 ++ le_bytes 2 0 ++ sample_phdr 1 5 0 64 64 4096 ++ more.

Definition high_segment : list Z :=
  le_bytes 4 1 ++ le_bytes 4 4 ++ le_bytes 8 0 ++ le_bytes 8 (2 ^ 64 - 8) ++ le_bytes 8 0 ++ le_bytes 8 1 ++ le_bytes 8 7 ++ le_bytes 8 4096.

Definition load_vdso (data : image) : run_state * outcome (Z * option Z) :=
  map_process_aarch64_vdso next_mapping no_protect_fails (VdsoFile data) tree_state.

(** The second segment is not part of the span, but it is copied: below the mapping. *)
Example vdso_segment_outside : snd (load_vdso (vdso_elf [])) = Ok (0x100000, None) /\ snd (load_vdso (vdso_elf high_segment)) = Fault.
Proof. by vm_compute. Qed.

(** The code of the sample program in a mapping of four pages. *)
Lemma process_image_placed_witness : exists l p descs gets,
  process_image_layout POLY_ARCH_X86 (Z.of_nat (length (lp_code_bytes tree_prog))) 0 false = Some l /\
  place_process POLY_ARCH_X86 (lp_code_bytes tree_prog) false l 0x400000 = Some (p, descs, gets) /\
  Z.of_nat (length (page_bytes p)) = 0x4000 /\ holds_at (page_bytes p) 0x1000 (lp_code_bytes tree_prog).
Proof.
  destruct (process_image_layout POLY_ARCH_X86 (Z.of_nat (length (lp_code_bytes tree_prog))) 0 false) as [l|] eqn:E; [|by vm_compute in E].
  destruct (process_image_placed POLY_ARCH_X86 0 0x400000 (lp_code_bytes tree_prog) false l ltac:(vm_compute; reflexivity) E)
    as (p & descs & gets & off & Hp & _ & Hl & Hi & _).
  vm_compute in E. injection E as <-. exists (MkImageLayout 4096 4082 8192 12288 16384), p, descs, gets.
  split; [reflexivity|]. split; [exact Hp|]. split; [exact Hl|exact Hi].
Defined.


Definition reserved_tree : process * outcome Z := reserve_process_tls_tree 5 root_ptr 0 tree.

Lemma tls_tree_layout_witness : exists node2 node3,
  ps_nodes reserved_tree.1 !! (2%positive : ptr) = Some node2 /\ ps_nodes reserved_tree.1 !! (3%positive : ptr) = Some node3 /\
  nd_tls_offset node2 = 0 /\ nd_tls_offset node3 = 24 /\ reserved_tree.2 = Ok 36 /\
  ranges_apart (nd_tls_offset node2, 20) (nd_tls_offset node3, 12).
Proof.
  destruct tree_has_root as [prog Hp].
  destruct (tls_tree_layout tree_files never tree reserved_tree.1 root_ptr prog 5 36 tree_is_wf Hp tree_fuel) as (_ & _ & _ & Hap).
  - intros q pr Hq. unfold prog_at in Hq. destruct (ps_nodes tree !! q) as [node|] eqn:E; [|done]. injection Hq as <-.
    assert (forallb (fun x : ptr * program_node => (0 <=? tls_memsz (lp_tls (nd_program x.2))) && (0 <=? tls_align (lp_tls (nd_program x.2))))
              (map_to_list (ps_nodes tree)) = true) as H by (vm_compute; reflexivity).
    rewrite forallb_forall in H. apply elem_of_map_to_list, list_elem_of_In in E. specialize (H _ E).
    apply andb_true_iff in H as [H1%Z.leb_le H2%Z.leb_le]. exact (conj H1 H2).
  - vm_compute. reflexivity.
  - eexists _, _. split; [vm_compute; reflexivity|]. split; [vm_compute; reflexivity|]. split; [reflexivity|]. split; [reflexivity|].
    split; [vm_compute; reflexivity|].
    apply (Hap 2%positive 3%positive); [done| | |vm_compute; reflexivity|vm_compute; reflexivity].
    + apply rtc_once. eexists _, _, 0%nat. split; [vm_compute; reflexivity|reflexivity].
    + apply rtc_l with 2%positive; [eexists _, _, 0%nat; split; [vm_compute; reflexivity|reflexivity]|].
      apply rtc_once. eexists _, _, 0%nat. split; [vm_compute; reflexivity|reflexivity].
Defined.

(** ** A stack *)

Definition sample_stack_host : stack_host :=
  MkStackHost (Some 0x7f0000000000) false [bytes_of_string "HOME=/"] None 1234 100 0 0 0 0.

Definition sample_request : poly_request := MkRequest path_r [].

Lemma process_stack_reads_back_witness : exists m' sp ss,
  build_process_stack sample_stack_host no_env tree_prog sample_request 0x401000 0 0 [bytes_of_string "x"] (fun _ => 0) =
    StackBuilt m' 0x7f0000000000 sp /\ sp mod 16 = 0 /\
  initial_stack m' sp [path_r; bytes_of_string "x"] [bytes_of_string "HOME=/"]
    (stack_auxv sample_stack_host tree_prog 0x401000 0 0 0 ss).
Proof.
  destruct (process_stack_reads_back sample_stack_host no_env tree_prog sample_request 0x401000 0 0 0x7f0000000000 0 [bytes_of_string "x"]
    (fun _ => 0)) as (m' & sp & ss & H1 & H2 & _ & H4 & _); [reflexivity|reflexivity|lia|unfold STACK_SIZE; lia|reflexivity|vm_compute; reflexivity| | |].
  - split; [|cbn; lia]. apply (proj2 (Forall_forall _ _)). intros v Hv.
    assert (forallb (fun v => (0 <=? v) && (v <? 2 ^ 64)) [lp_phent tree_prog; lp_phnum tree_prog; 0; 0; 0; sh_uid sample_stack_host;
      sh_euid sample_stack_host; sh_gid sample_stack_host; sh_egid sample_stack_host] = true) as H by (vm_compute; reflexivity).
    rewrite forallb_forall in H. apply list_elem_of_In in Hv. specialize (H v Hv).
    apply andb_true_iff in H as [Ha%Z.leb_le Hb%Z.ltb_lt]. exact (conj Ha Hb).
  - apply Z.leb_le. vm_compute. reflexivity.
  - exists m', sp, ss. split; [exact H1|]. split; [exact H2|exact H4].
Defined.

(** ** Freeing *)

Lemma free_program_releases_witness : exists st',
  free_program 5 root_ptr tree_state = (st', Ok tt) /\ ps_nodes (ru_store st') !! (2%positive : ptr) = None /\
  ps_nodes (ru_store st') !! (3%positive : ptr) = None.
Proof.
  assert (prog_at tree root_ptr = Some tree_prog) as Hp by (by vm_compute).
  destruct (free_program_releases tree_files never root_ptr tree_prog 5 tree_state tree_is_wf Hp tree_fuel) as (st' & node & E & H & _).
  exists st'. split; [exact E|].
  assert (owns tree root_ptr 2%positive) as O1 by (eexists _, _, 0%nat; split; [vm_compute; reflexivity|reflexivity]).
  assert (owns tree 2%positive 3%positive) as O2 by (eexists _, _, 0%nat; split; [vm_compute; reflexivity|reflexivity]).
  split; apply H; [by apply tc_once|by apply (tc_l _ _ 2%positive); [|apply tc_once]].
Defined.
